(* ===== verification/_CoqProject ===== *)
-Q . S2P
Prelude.v
Digest.v
SensorProtocol.v
SequencePolicy.v
SlotConfig.v
Occupancy.v
Capture.v
HallOcr.v
LoRa.v
OccupancyDb.v
OccupancyAdmission.v
OccupancyApply.v
OccupancyInvariant.v
OccupancyStore.v
SlotActor.v
SlotWorker.v
Plate.v
Iva.v
FireStore.v
FireService.v
SystemEvents.v
SensorLink.v
FireInvariant.v
FireTopology.v
FireAlarm.v
FireSignals.v
FireQueue.v
FireDelivery.v
FireDeliveryInv.v
FireDeliveryRun.v
FireDeliveryOrder.v
FireDeliveryReady.v
Calendar.v
Auth.v
AuthSafety.v
Entrance.v
EntranceRights.v
DeadlineQueue.v
TimeText.v
ParkingDb.v
Overstay.v
OverstayDb.v
OverstaySafety.v
Evidence.v
Threshold.v
Doubles.v
EntranceDb.v
EntrancePlates.v
EntranceStore.v
Ocr.v
OcrSafety.v
HallParking.v
HallSafety.v
Correlation.v
CorrelationSafety.v
BestShot.v
BestShotSafety.v
EntranceService.v
EntranceServiceInv.v
EntranceServiceSafety.v
Alert.v
RoiSettings.v
Shutdown.v
EvWorker.v
HallExecutor.v
HallExecutorSafety.v
AlertSafety.v
MqttEndpoint.v
Http.v
HttpSafety.v
Config.v
Snapshot.v
MqttTransport.v
MqttTransportSafety.v
CameraEvents.v
CameraEventText.v
MqttBridge.v
MqttBridgeSafety.v
Telegram.v
Onvif.v
