(* ===== verification/Prelude.v ===== *)
(** Verification of the smart-parking server.

    The program (C++, under [src/]) runs on a Raspberry Pi beside a car park. Hall sensors and
    fire sensors reach it over a UART or a LoRa radio, cameras over MQTT and ONVIF. It decides
    which slots are occupied, keeps parking sessions in SQLite, takes pictures and has their
    plates read, and reports to a server. A message travels like this:

      bytes -> frames or lines           LoRa              src/device/LoRaDriver.cpp
      the serial device and its thread   SensorLink        src/device/UartDriver.cpp, SensorLinkManager.cpp
      line -> sensor message             SensorProtocol    src/sensor/SensorProtocolParser.cpp
      message -> slot event              SlotConfig        src/sensor/ParkingSensorEventAdapter.cpp
      duplicates and reboots             SequencePolicy    include/sensor/SensorSequencePolicy.hpp
      camera event -> slot and area      Iva               src/event/IvaEventResolver.cpp
      lines and signals -> commands      HallParking       src/sensor/HallParkingService.cpp
      command queue and worker           SlotActor         src/parking/SlotTransitionActor.cpp
      durable commands and sessions      OccupancyStore    src/database/EventDatabaseOccupancy.cpp
      pictures                           Capture, HallOcr  src/parking/CaptureScheduler.cpp
      plates                             Plate             src/ocr/PlateMatcher.cpp
      fire signal -> alarm               FireService       src/event/FireAlarmService.cpp
      alarm states and outbox            FireStore         src/database/EventDatabaseFire.cpp
      outbox -> broker                   FireDelivery      src/event/FireDeliveryCoordinator.cpp
      accounts and sessions of the app   Auth              src/auth/AuthService.cpp
      plate pictures of the entrance     Entrance          src/entrance/EntranceBestShotCoordinator.cpp
      entrance: attempts and vehicles    EntranceService   src/entrance/EntranceVehicleService.cpp
      plates of vehicles and sessions    EntranceDb        src/database/EventDatabaseEntrance.cpp
      pictures from the cameras          BestShot          src/bestshot/BestShotReceiver.cpp
      which picture is whose             Correlation       src/database/EventDatabaseCorrelation.cpp
      cars that stay too long            Overstay          src/timer/TimerManager.cpp, ParkingSlotManager.cpp
      pictures as evidence               Evidence          src/parking/EvidenceCaptureWorker.cpp
      the limit of the parking time      Threshold         src/settings/OverstayThresholdService.cpp
      the regions of the slots           RoiSettings       src/settings/ParkingRoiSettingsService.cpp
      a due capture and its light        HallExecutor      src/parking/HallCaptureExecutor.cpp, PlateIlluminator.cpp
      pictures on the disk               Snapshot          src/snapshot/SnapshotStorage.cpp
      plates by a recognition service    Ocr               src/ocr/OcrWorker.cpp, GeminiOcrClient.cpp
      is this car electric               EvWorker          src/entrance/EntranceEvWorker.cpp
      the display of parking alerts      Alert             driver/parking_alert/parking_alert.c, src/device/
      connections to the broker          MqttTransport     src/mqtt/MosquittoTransport.cpp
      their life cycle                   MqttEndpoint      src/mqtt/MqttEndpoint.cpp
      camera messages                    CameraEvents      src/event/CameraEventParser.cpp
      messages -> services               MqttBridge        src/mqtt/MqttEventBridge.cpp
      alerts on Telegram                 Telegram          src/notification/TelegramChannelNotifier.cpp
      ONVIF events -> services           Onvif             src/event/OnvifIvaEventAdapter.cpp, src/camera/
      settings of the server             Config            src/app/AppConfig.cpp
      requests of the app                Http              src/http/ParkingHttpServer.cpp
      warnings about the server itself   SystemEvents      src/event/SystemEventReporter.cpp
      the end of the server              Shutdown          src/app/RuntimeShutdown.cpp

    * Files

    - Prelude: results with errors ([rbind], notation [let?]), the tactics [rinv] and
      [split_bool], characters and decimal numbers, the generic lemmas.
    - SensorProtocol: both text parsers with their error texts, the optional tails, the
      router. The rendering of a frame, round trip, soundness of acceptance, disjoint
      routing, the exact range of the time stamp.
    - SequencePolicy: the decision and commit of a sequence cursor, the in-memory guard. A
      versioned (boot, sequence) pair is accepted at most once, there is no way back to legacy
      mode, the guard is one cursor per sensor.
    - SlotConfig: the loader over JSON values, the sensor index, the event adapter.
    - Occupancy: sessions, the slot manager, the active-session index and the confirmation
      gate, each against a specification per slot; unique session identifiers; exact timers; the
      session worker that composes guard, gate and manager.
    - Capture: the capture scheduler; bounded attempts and an exact timer.
    - HallOcr: the OCR policy and the capture coordinator; one outcome per session, the two
      components in lockstep.
    - LoRa: frames, the incremental decoder, CRC, UART lines; round trip, independence of how the
      bytes are split, rejection of one corrupted byte, sensor message to sensor message.
    - SensorLink: the device over the answers of the system, the thread that connects, reads and reports its
      outages, the commands to the sensors.
    - OccupancyDb: the tables of the durable store as records of finite maps, the SQL
      statements as updates of them, a state and error monad for transactions ([txn], notation
      [do!], [;!]) with its weakest precondition [wp].
    - OccupancyAdmission: admission, due deadlines, queries, retries, effects and purge.
    - OccupancyApply: the application of a command, one definition per local function and
      branch of [applySlotTransitionCommand]; it is done exactly once.
    - OccupancyInvariant: the invariants of the store and what each branch may decide.
    - OccupancyStore: histories of all operations of the store.
    - SlotActor: the transport queue and the worker's turns, proved against the class
      [TransitionStore] with the laws [TransitionStoreLaws]; OccupancyStore's operations are the
      instance ([occupancy_store], [occupancy_store_laws]).
    - SlotWorker: the life of that actor, start with replay, thread and stop, as a machine whose steps go from lock to
      lock and come between those of the callers ([WorkerOp], [machine_run]); concrete runs over the durable store.
    - Plate: UTF-8, the comparison of plates, normalisation.
    - Iva: the resolvers of camera events, the OR of a slot's areas, the confirmation of exits.
    - FireStore: the three tables of the fire alarm and every operation on them, with the checks of
      the columns and of the outbox.
    - FireService: the payloads, the mapping of sensors to channels, the three commands and
      the command queue.
    - FireInvariant: what a table row means ([channel_ok], [fire_ok]); deliveries and mutations
      keep it.
    - FireTopology: the start of the service on a new and on an old database.
    - FireAlarm: what one command does to the alarm, the outbox and the sensor's cursor; histories
      of commands, deliveries and restarts ([FireOp], [fire_run]).
    - FireSignals: the stored signal, acceptance, redelivery, epochs, completeness of the outbox.
    - FireQueue: the queue and its worker as a machine, fifo per channel. The same file: a
      command that can never be finished.
    - FireDelivery: the delivery actor, an operation per lock and a step of the worker between two
      locks. FireDeliveryInv: its invariants. FireDeliveryRun: the actor together with
      the transport, the fire service and the regular egress ([System], [system_step]);
      the readiness boundary. FireDeliveryOrder: the order of lifecycle events.
      FireDeliveryReady: soundness of the readiness, and the theorems on the fire alarm at concrete runs.
    - Calendar: days and civil dates, the UTC text of a second. Auth: the two tables of accounts
      and sessions, the table of failed logins, the service; a login is a sequence of
      steps that others may interleave with ([AuthOp], [auth_run]). AuthSafety: the token check
      against the history of what was granted and revoked, where a session comes from,
      and the block after failed logins, with runs of a toy libsodium.
    - Entrance: the coordinator of plate pictures and the deduplicator of pictures.
      EntranceRights: one path per object, no new object too early, the closest picture; concrete runs.
    - Doubles: the doubles of the source (SpecFloat). EntranceDb: the tables of the entrance and every operation of
      EventDatabaseEntrance.cpp. EntrancePlates: storing and matching plates.
      EntranceStore: histories of these operations, and concrete runs.
    - HallParking: the service between sensor lines, camera signals and the slot actor, its
      commands, the keys of commands and the sink of effects. HallSafety: what the
      actor is given and what becomes of the effects; concrete runs.
      Digest: the FNV-1a digest in the keys, std::string::find.
    - Correlation: the leases and bindings between a trigger of a session, the pictures of the
      camera and the reading of a plate. CorrelationSafety: a picture is bound
      to the session whose trigger it names, and a lease that was resolved reaches its session.
    - BestShot: the receiver of pictures, its files, its rows and their reconciliation at the
      start; the stream of metadata documents, identity keys, destination
      paths. BestShotSafety: the quarantine stays bounded, a lost outcome is reconciled; concrete runs.
    - EntranceService: the vehicle service of the entrance and the ports of main.cpp it works
      on, as activities of threads that interleave. EntranceServiceInv: their invariant.
      EntranceServiceSafety: an attempt that was completed keeps its outcome; concrete runs.
    - DeadlineQueue: std::priority_queue over items with a deadline and a running number (class
      [Timed]), shared by the timers and the evidence worker; it drains like a sort.
      TimeText: the texts of instants and their parsers (std::get_time, ISO 8601), and
      the steady time of a stored start.
    - ParkingDb: the tables of the parking part (vehicles, slots, sessions, pictures, events, settings) and
      the operations of EventDatabaseTimer.cpp on them; what the other writers may do to these
      tables is [DbWrite].
    - Overstay: the timers and the slot manager of src/timer as steps between their locks
      ([OverstayOp], [overstay_run]). OverstayDb: what an operation does to the row of
      a session. OverstaySafety: the invariant of the timers, a report is sent once, not
      early, and no live session loses its timer; concrete runs.
    - Evidence: the worker that takes the pictures of a session, and their accounts. Threshold: the stored limit and its application to timers and worker;
      they agree; concrete runs of both.
    - RoiSettings: the regions in memory and in the settings, and what a restart reads back.
    - Snapshot: the cut of a region, the names and the files of pictures; what the disk answers is an argument.
    - Ocr: the client of the recognition service (module [Gemini]) and the thread with its queue
      ([OcrOp], [ocr_run]) over the tables of the entrance. OcrSafety: every picture is answered
      once, a cancelled session is left alone, what is sent is the picture.
    - Alert: the driver as a machine of calls ([Driver]), the adapter, and the controller over a class of
      backends. AlertSafety: the mask against the set of alerts, and readers that poll.
    - SystemEvents: suppression of repetitions, the bounded queue and its thread.
    - Config: the settings from environment and files, with their defaults and limits ([loadFromEnv]).
    - Shutdown: the state machine of the stops. EvWorker: the queue, the child process and its lines.
    - HallExecutor: light, capture run and scheduler pass as computations that write a trace and
      may end in an exception. HallExecutorSafety: the light, and the files of a run.
    - MqttEndpoint: lease gates and the life cycle that uses them. MqttTransport: the supervisor of the
      connections, its callbacks and the publishing threads, a step per lock; MqttTransportSafety:
      refinement of a machine with one connection at a time ([MqttSpec]), bounds.
    - CameraEvents: both forms of a camera message, the cutting of bundles. CameraEventText: the
      cutting ends and gives back what was bundled. MqttBridge: routing, area events, the gate of
      regular publications; MqttBridgeSafety: what a message can do, and what it can cost.
    - Onvif: the conversion of an event, the thread with its subscription.
    - Telegram: which messages are alerts and their texts, the bounded queue and its sender.
    - Http: the routes, the guard and the handlers over a class of services ([HttpServices]), whose
      instance are the services above ([server_services]); start and stop. HttpSafety: nothing without
      a token, only pictures of the data directory, quiet after the stop.

    * What the theorems show

    Inputs: what is accepted is exactly what the protocol says, and encoders and decoders
    are inverse ([parse_render], [parse_sound], [lora_roundtrip], [lora_end_to_end],
    [utf8_roundtrip], [containsRuleName_exact], [metadata_framing]). Ordering and duplicates: every versioned fact is
    accepted once, the queue hands over commands in order and once, a command is admitted
    durably and applied once, a deadline does not overtake a queued command, an effect stays
    pending until a sink accepted it and the store took the acknowledgement ([accepted_epochs_NoDup], [ingress_fifo],
    [admission_durable], [apply_exactly_once], [deadline_never_overtakes],
    [effect_kept_until_delivered], [runnable_fifo]), and a stop loses no queued command and ends
    ([stop_drains], [stop_ends]). State: invariants by induction over
    histories ([store_invariant], [hall_lockstep], [index_follows_manager]), refinement of a
    per-slot specification ([manager_refines], [guard_run_refines], [session_worker_refines]), what one step may change
    and why a session may end ([application_is_local], [session_ends_with_cause],
    [exit_confirmed_after_quiet]). The fire alarm: one command moves one alarm along its life cycle
    and puts the new state in the outbox ([fire_command_step], [fire_signal_decides]), the
    outbox is complete after every history, a signal counts once
    ([fire_epochs_once], [fire_redelivery]), the queue neither loses nor reorders
    ([fire_queue_fifo]) except that one command can block its channel for ever
    ([fire_poison_blocks]); regular messages, mutations and lifecycle events exclude each other
    ([fire_boundary_excludes]), lifecycle events go out in order and are settled only by the
    broker ([fire_lifecycle_in_order]), and a channel counts as synchronised only if the broker has its
    latest state ([fire_ready_sound]). The hall: a command the service built is understood by the store
    ([hall_command_understood]), a redelivered line builds the same command ([hall_redelivery]), every
    effect is handed to the side it belongs to ([effects_delivered]). The app: a bearer token is accepted exactly when the
    history of logins, logouts, revocations and accounts says so ([auth_decides]), a session comes from a
    login with the right password of an enabled account, and after too many failed
    logins no login of their address and account is admitted until the cooldown has passed ([auth_lockout];
    logins admitted before are still decided). The entrance: an object goes along one path and
    each right is given once ([entrance_single_path], [entrance_not_again]); the closest
    picture decides on a duplicate ([image_dedup_closest]); a plate is stored in the vehicle and its
    session ([plate_stored]) and matched with the closest vehicle ([plate_match_best]); an attempt that was
    completed keeps its outcome whatever the threads do ([completed_kept]). Pictures: a picture is
    bound exactly to the session whose trigger it names, and repeated with the same text as the stored one it changes
    nothing ([bestshot_exact]), a resolved lease attaches
    ([resolved_lease_attaches]), the quarantine keeps its bound ([quarantine_bounded]), a row whose outcome was
    lost is reconciled ([lost_outcome_reconciled]), and a plate may come again after its reading
    ([repeated_plate_after_ocr]). Overstay: a session is reported at most once and only
    with its row marked ([overstay_reported_once]), never before the deadline in force
    ([overstay_not_early]), and as long as it is live and unmarked its timer is queued
    ([overstay_not_lost]); items come out by deadline and running number ([queue_sorts]). The
    pictures of a session are stored once and no file is left behind ([evidence_accounted]);
    the settings table, the timers and the worker have one limit ([threshold_everywhere]), and the regions of the slots
    survive a restart ([roi_survives_restart]). Settings are within their limits ([config_limits],
    [config_names]), a settings file is read back ([settings_roundtrip]) and paths stay below the root
    ([path_below_root]). The light is on for an exposure only ([lamp_only_for_exposure]), the
    files of a capture are those of the image log but for a file whose removal fails ([capture_files_accounted]), pairs of pictures are stored whole or not
    at all ([pictures_accounted]), a cut lies within its picture ([cut_within_picture]), every picture for recognition
    is answered once ([ocr_answered_once]) and a cancelled session is left alone
    ([ocr_cancelled_left_alone]); tasks for the child process are answered in order ([ev_tasks_answered]). Alerts: the mask
    is the set of alerts ([alert_mask_exact]), a reader is never behind unknowingly
    ([alert_reader_current]), an accepted map is well formed ([slot_map_typed]). The sensor link hands on the
    lines of the bytes it reads and counts its outages ([link_refines]), ends when it is stopped ([link_stops])
    and sends a command whole or reports ([command_sent_whole]). Every alert for Telegram is left out for a named reason (not an alert, a remembered
    identifier, a full queue) or taken from the queue in order and sent with a bounded number of tries ([alerts_accounted]), and the sender ends ([sender_ends]). MQTT: what observers and
    application see is a run of one connection at a time ([transport_refines], [transport_bounded]); a camera message
    moves only slots that are configured ([camera_signal_sound], [onvif_signal_sound]), and a malformed one can cost
    the connection ([bad_schema_retires_connection]); bundles are cut as they were made ([notifications_split],
    [split_ends]); a stopped endpoint is quiet ([endpoint_quiet]). The app: no answer and no change without an
    accepted token ([http_guarded]), no file from elsewhere ([image_confined]), no handler after the stop
    ([http_stop_quiet]); a system event is reported, waiting or counted as dropped
    ([reporter_accounted], [suppressed_announced]); the stops of the server run once and in order ([shutdown_in_order]). Bounds, timers and termination:
    [capture_attempts_bounded], [ingress_loop_ends], the [timer_exact] theorems.

    * Conventions

    A mapped definition carries the source lines it translates in its doc comment. 64-bit integers
    are [Z] or [N] with their wrap-around written where it can happen; steady and system
    clock times are nanoseconds ([time_point]) or milliseconds as the code has them. A method that
    holds its mutex for its whole body is an atomic step; where a loop releases it
    ([processIngress]), one pass is one step and other steps may come between passes. An
    unordered map is a [gmap], iterated in the order of [map_to_list]; no theorem depends
    on it. A log line, a notification of a condition variable and a column that only records
    the wall clock (updated_at) are dropped.

    The steps of the fire system: an operation of the delivery actor that holds its mutex is a
    step; the worker of the actor takes a step from one lock to the next or for one
    delivery; a wait is a step that may be taken or not, so no theorem depends on
    fairness or time. The depth of mutations and the count of regular messages are [N] without
    wrap-around (they count threads); generations, tickets and attempt numbers wrap at 2^64,
    and the theorems that need them distinct are for runs of fewer than 2^64 (or 2^60) steps. A text
    in the database holds no NUL byte.

    Fuel: the frame decoder and line splitter take the number of bytes, which each round
    lowers; the UTF-8 decoder likewise; the rule search takes the length of the text; the worker's
    admission loop takes two rounds per queued command ([ingress_loop_ends] proves that enough).
    Metadata documents, streams and bundles take the length of the text ([split_ends]). A login takes at most five
    steps, and [login_loop] has six ([login_fuel_enough]). Nothing is proved only for runs
    that happen to end.

    Arguments of the model: [std::from_chars] on doubles (SensorProtocol); the JSON library and the functions
    of the SQL engine (classes [JsonLibrary], [SqlFunctions] of OccupancyDb), of which only
    reflexivity of JSON equality is assumed, in [admission_durable]; the sink of effects
    and the image log's answers are arguments. For the fire alarm: the formatting of times
    and the printing of JSON, of which it is assumed that they give a text that is not empty;
    the transport's answer to a publication, of which it is assumed that an accepted one
    names an epoch other than 0 ([publisher_ok]). For accounts: libsodium (class [Sodium] of Auth:
    password hashes, base64, SHA-256), of which nothing is assumed, and the random bytes of a
    token, which are arguments of the step that draws them; user ids and the clock do not
    wrap, and the column session_id, a running number nobody reads, is dropped. For the entrance: the fingerprint of
    a picture is an argument; so are julianday and the texts of numbers (class [EntranceSql], nothing
    assumed), the new vehicle ids and the seconds of the database. For the pictures: the JSON
    library has the laws of class [JsonLaws]; the functions of SQLite are class
    [CorrelationSql]; the answers of the publisher, the files, the downloads and
    SQLite are arguments of the steps. The steps behind [completed_kept] are taken one ingress event
    at a time, and no new object takes over a key while a thread works on it. For overstay: strftime (class [SqlSeconds] of ParkingDb), of which nothing is
    assumed; the answer of the evidence lookup, the camera's pictures and the clock readings are arguments of the steps,
    and the clock does not go back ([clocked]); the running number of a timer wraps at 2^64, and the
    theorems are for histories of fewer schedules; the columns of the region of interest are left
    out. handleEntry of the stand-alone timer program is one step. Elsewhere a SQL statement fails
    only by a constraint of its table: the disk fails only where a step has an argument for
    it (the mark of a violation, the row of a picture, the setting), and BEGIN, COMMIT and ROLLBACK succeed.
    The answers of libmosquitto, of the child process, of the operating system (files, pipes, devices), of cameras and of
    the recognition service are arguments of the steps. Of libmosquitto it is assumed that it calls back
    only from its network loop, and that a handle that is run connects once; an operation that starts
    subscribes to at least one topic. An [unsigned long] has 64 bits. The marks of a plate's reading do not
    change during one capture run. Reading and printing of doubles by the C++ streams and by the JSON library are
    arguments; [roi_survives_restart] assumes of the streams that they read back what they have printed.
    The HTTP library calls the first route that matches (of a HEAD request the one of the GET) and its error handler for every answer of status 400
    or more; the queries of db_manager.c behind the lists of slots and pictures answer.

    * Not modelled

    The XML of the ONVIF cameras (requests and parser), RTSP streams, the download of snapshots, the pictures of the
    bridge's area events, OpenCV: they are calls of third-party libraries with little logic of their own.
    Logging, the construction of the objects in main.cpp (but for the callbacks that are named
    above), the command line of the stand-alone timer and the tools. The opening of the database,
    its migrations and the queries of db_manager.c: SQL text without a decision of the program.
    FFmpeg and curl behind the receiver of pictures. *)
From Stdlib Require Export Ascii String Lia ZArith NArith.
From stdpp Require Export base tactics option list gmap strings pretty numbers.
From stdpp Require Export list list_basics list_relations list_monad list_misc list_tactics.

#[global] Open Scope string_scope.
#[global] Open Scope list_scope.
#[global] Open Scope Z_scope.
#[global] Arguments String.append !_ _ / : simpl nomatch.

Create HintDb pi.

(** * Results: code that can throw or refuse *)

Inductive result (E A : Type) : Type :=
| Ok (a : A)
| Err (e : E).
Arguments Ok {E A} a.
Arguments Err {E A} e.

Definition rbind {E A B} (m : result E A) (k : A -> result E B) : result E B :=
  match m with Ok a => k a | Err e => Err e end.

Definition guard_err {E} (b : bool) (e : E) : result E unit :=
  if b then Ok tt else Err e.

Definition of_option {E A} (e : E) (o : option A) : result E A :=
  match o with Some a => Ok a | None => Err e end.

Declare Scope pi_scope.
Delimit Scope pi_scope with pi.
Notation "'let?' x ':=' m 'in' k" := (rbind m (fun x => k))
  (at level 10, x pattern, m at level 100, k at level 200) : pi_scope.
Notation "m ';?' k" := (rbind m (fun _ => k))
  (at level 100, k at level 200, right associativity) : pi_scope.
#[global] Open Scope pi_scope.

Lemma rbind_ok_inv {E A B} (m : result E A) (k : A -> result E B) b :
  rbind m k = Ok b -> exists a, m = Ok a /\ k a = Ok b.
Proof. destruct m; simpl; [eauto | discriminate]. Qed.

Lemma guard_err_ok_inv {E} b (e : E) u : guard_err b e = Ok u -> b = true.
Proof. destruct b; simpl; congruence. Qed.

Lemma of_option_ok_inv {E A} (e : E) (o : option A) a : of_option e o = Ok a -> o = Some a.
Proof. destruct o; simpl; congruence. Qed.

(** [rinv] inverts a successful monadic computation in the context. *)
Ltac rinv :=
  repeat match goal with
  | H : rbind _ _ = Ok _ |- _ =>
      let E := fresh "E" in apply rbind_ok_inv in H as (? & E & H); simpl in H
  | H : guard_err _ _ = Ok _ |- _ => apply guard_err_ok_inv in H
  | H : of_option _ _ = Ok _ |- _ => apply of_option_ok_inv in H
  | H : Ok _ = Ok _ |- _ => injection H as H; try subst
  | H : Err _ = Ok _ |- _ => discriminate H
  | H : Ok _ = Err _ |- _ => discriminate H
  end.

(** [split_bool] turns the boolean guards of the code into propositions. *)
Ltac split_bool :=
  repeat match goal with
  | H : (_ && _)%bool = true |- _ => apply andb_prop in H as [? ?]
  | H : (_ || _)%bool = false |- _ => apply orb_false_elim in H as [? ?]
  | H : negb _ = true |- _ => apply negb_true_iff in H
  | H : negb _ = false |- _ => apply negb_false_iff in H
  | H : bool_decide _ = true |- _ => apply bool_decide_eq_true_1 in H
  | H : bool_decide _ = false |- _ => apply bool_decide_eq_false_1 in H
  end.

(** * Characters and strings of the C locale *)

Definition isspace (c : ascii) : bool :=
  let n := nat_of_ascii c in (Nat.leb 9 n && Nat.leb n 13) || Nat.eqb n 32.
Definition isdigit (c : ascii) : bool :=
  let n := nat_of_ascii c in Nat.leb 48 n && Nat.leb n 57.
Definition isupper (c : ascii) : bool :=
  let n := nat_of_ascii c in Nat.leb 65 n && Nat.leb n 90.
Definition islower (c : ascii) : bool :=
  let n := nat_of_ascii c in Nat.leb 97 n && Nat.leb n 122.
Definition isalnum (c : ascii) : bool := isdigit c || isupper c || islower c.
Definition toupper (c : ascii) : ascii :=
  if islower c then ascii_of_nat (nat_of_ascii c - 32) else c.
Definition tolower (c : ascii) : ascii :=
  if isupper c then ascii_of_nat (nat_of_ascii c + 32) else c.

Fixpoint smap (f : ascii -> ascii) (s : string) : string :=
  match s with
  | EmptyString => EmptyString
  | String c s' => String (f c) (smap f s')
  end.

Fixpoint sall (p : ascii -> bool) (s : string) : bool :=
  match s with
  | EmptyString => true
  | String c s' => p c && sall p s'
  end.

Definition is_empty (s : string) : bool :=
  match s with EmptyString => true | _ => false end.

(** The text before and after the first occurrence of a character
    ([std::string::find] followed by the two [substr] calls). *)
Fixpoint break_on (d : ascii) (s : string) : option (string * string) :=
  match s with
  | EmptyString => None
  | String c s' =>
      if bool_decide (c = d) then Some (EmptyString, s')
      else match break_on d s' with
           | Some (a, b) => Some (String c a, b)
           | None => None
           end
  end.

(** [std::getline(stream, field, d)] until it fails: a final separator adds
    no empty field, every other empty field is kept. *)
Fixpoint getline_fields (d : ascii) (s : string) : list string :=
  match s with
  | EmptyString => []
  | String c s' =>
      if bool_decide (c = d) then EmptyString :: getline_fields d s'
      else match getline_fields d s' with
           | [] => [String c EmptyString]
           | f :: fs => String c f :: fs
           end
  end.

Fixpoint drop_space (s : string) : string :=
  match s with
  | String c s' => if isspace c then drop_space s' else s
  | EmptyString => EmptyString
  end.
Fixpoint drop_space_end (s : string) : string :=
  match s with
  | EmptyString => EmptyString
  | String c s' =>
      match drop_space_end s' with
      | EmptyString => if isspace c then EmptyString else String c EmptyString
      | r => String c r
      end
  end.

(** The byte string of a list of bytes, [std::string(begin, end)]. *)
Fixpoint string_of_bytes (bs : list Z) : string :=
  match bs with
  | [] => EmptyString
  | b :: bs' => String (ascii_of_N (Z.to_N b)) (string_of_bytes bs')
  end.
Fixpoint bytes_of_string (s : string) : list Z :=
  match s with
  | EmptyString => []
  | String c s' => Z.of_N (N_of_ascii c) :: bytes_of_string s'
  end.

(** A clean string: one that trimming leaves alone. *)
Definition clean (s : string) : Prop := drop_space_end (drop_space s) = s.
#[global] Instance clean_dec s : Decision (clean s).
Proof. unfold clean. apply _. Defined.

Lemma smap_app f s t : smap f (s +:+ t) = smap f s +:+ smap f t.
Proof. induction s; simpl; congruence. Qed.

Lemma sall_app p s t : sall p (s +:+ t) = sall p s && sall p t.
Proof. induction s as [|c s IH]; simpl; [done|]. by rewrite IH, andb_assoc. Qed.

Lemma sall_impl (p q : ascii -> bool) s :
  (forall c, p c = true -> q c = true) -> sall p s = true -> sall q s = true.
Proof.
  intros Hpq. induction s as [|c s IH]; simpl; [done|].
  intros [? ?]%andb_prop. by rewrite Hpq, IH.
Qed.

Lemma append_nil_r s : s +:+ "" = s.
Proof. induction s; simpl; congruence. Qed.

Lemma append_assoc (s t u : string) : (s +:+ t) +:+ u = s +:+ (t +:+ u).
Proof. induction s; simpl; congruence. Qed.

Lemma break_on_app d s t :
  sall (fun c => negb (bool_decide (c = d))) s = true ->
  break_on d (s +:+ String d t) = Some (s, t).
Proof.
  induction s as [|c s IH]; simpl; intros Hs.
  - by rewrite bool_decide_eq_true_2.
  - apply andb_prop in Hs as [Hc Hs]. apply negb_true_iff in Hc.
    by rewrite Hc, (IH Hs).
Qed.

Lemma break_on_none d s :
  sall (fun c => negb (bool_decide (c = d))) s = true -> break_on d s = None.
Proof.
  induction s as [|c s IH]; simpl; [done|]. intros Hs.
  apply andb_prop in Hs as [Hc Hs]. apply negb_true_iff in Hc. by rewrite Hc, IH.
Qed.

Lemma break_on_some d s a b :
  break_on d s = Some (a, b) ->
  s = a +:+ String d b /\ sall (fun c => negb (bool_decide (c = d))) a = true.
Proof.
  revert a b. induction s as [|c s IH]; simpl; intros a b; [done|].
  case_bool_decide as Hc; [intros [= <- <-]; by subst|].
  destruct (break_on d s) as [[a' b']|]; [|done].
  intros [= <- <-]. destruct (IH a' b' eq_refl) as [-> Ha]. simpl.
  by rewrite bool_decide_eq_false_2.
Qed.

(** The separator-free prefix of a line is its first field. *)
Lemma getline_fields_app d s t :
  sall (fun c => negb (bool_decide (c = d))) s = true ->
  getline_fields d (s +:+ String d t) = s :: getline_fields d t.
Proof.
  induction s as [|c s IH]; simpl; intros Hs.
  - by rewrite bool_decide_eq_true_2.
  - apply andb_prop in Hs as [Hc Hs]. apply negb_true_iff in Hc.
    by rewrite Hc, (IH Hs).
Qed.

Lemma getline_fields_last d s :
  sall (fun c => negb (bool_decide (c = d))) s = true -> s <> "" ->
  getline_fields d s = [s].
Proof.
  induction s as [|c s IH]; simpl; intros Hs Hne; [done|].
  apply andb_prop in Hs as [Hc Hs]. apply negb_true_iff in Hc. rewrite Hc.
  destruct s as [|c' s']; [done|]. by rewrite IH.
Qed.

Lemma drop_space_end_app s t :
  drop_space_end t <> "" -> drop_space_end (s +:+ t) = s +:+ drop_space_end t.
Proof.
  intros Ht. induction s as [|c s IH]; simpl; [done|]. rewrite IH.
  destruct s as [|c' s']; simpl; [|done]. by destruct (drop_space_end t).
Qed.

Lemma drop_space_idem s : drop_space (drop_space s) = drop_space s.
Proof. induction s as [|c s IH]; simpl; [done|]. destruct (isspace c) eqn:E; simpl; [done|by rewrite E]. Qed.

Lemma drop_space_end_idem s : drop_space_end (drop_space_end s) = drop_space_end s.
Proof.
  induction s as [|c s IH]; simpl; [done|].
  destruct (drop_space_end s) as [|c' s'] eqn:E; simpl.
  - destruct (isspace c) eqn:Hc; simpl; [done|by rewrite Hc].
  - simpl in IH. by rewrite IH.
Qed.

Lemma drop_space_end_first c s :
  isspace c = false -> drop_space_end (String c s) = String c (drop_space_end s).
Proof. intros Hc. simpl. destruct (drop_space_end s); [by rewrite Hc|done]. Qed.

Lemma clean_first c s : clean (String c s) -> isspace c = false.
Proof.
  unfold clean. simpl. destruct (isspace c) eqn:Hc; [|done]. intros H. exfalso.
  assert (Hlen : forall t, (String.length (drop_space t) <= String.length t)%nat).
  { induction t as [|c' t IHt]; simpl; [done|]. destruct (isspace c'); simpl; lia. }
  assert (Hlen2 : forall t, (String.length (drop_space_end t) <= String.length t)%nat).
  { induction t as [|c' t IHt]; simpl; [done|].
    destruct (drop_space_end t); [destruct (isspace c')|]; simpl in *; lia. }
  pose proof (Hlen s). pose proof (Hlen2 (drop_space s)).
  apply (f_equal String.length) in H. simpl in H. lia.
Qed.

(** Trimming is idempotent: what it returns is clean. *)
Lemma trim_clean s : clean (drop_space_end (drop_space s)).
Proof.
  unfold clean. destruct (drop_space s) as [|c t] eqn:E; [done|].
  assert (Hc : isspace c = false).
  { pose proof (drop_space_idem s) as H. rewrite E in H. simpl in H.
    destruct (isspace c) eqn:Hc; [|done]. exfalso.
    assert (Hlen : forall t, (String.length (drop_space t) <= String.length t)%nat).
    { induction t0 as [|c' t' IHt]; simpl; [done|]. destruct (isspace c'); simpl; lia. }
    pose proof (Hlen t). apply (f_equal String.length) in H. simpl in H. lia. }
  rewrite drop_space_end_first by done. simpl. rewrite Hc.
  rewrite <-(drop_space_end_first c t Hc) at 1.
  rewrite <-drop_space_end_first by done.
  by rewrite drop_space_end_idem.
Qed.

Lemma clean_empty : clean "".
Proof. done. Qed.

(** A line that starts with a visible character and ends in a clean field. *)
Lemma clean_line c s t :
  isspace c = false -> clean t -> t <> "" -> clean (String c (s +:+ t)).
Proof.
  intros Hc Ht Hne. unfold clean. simpl. rewrite Hc.
  assert (He : drop_space_end t = t).
  { destruct t as [|ct t']; [done|]. pose proof (clean_first _ _ Ht) as Hct.
    unfold clean in Ht. simpl in Ht. by rewrite Hct in Ht. }
  rewrite drop_space_end_first by done. rewrite drop_space_end_app by congruence.
  by rewrite He.
Qed.

(** * Decimal numbers *)

Definition digit_value (c : ascii) : N := N_of_ascii c - 48.

(** The value of a string of decimal digits, without a width. *)
Fixpoint digits_acc (acc : N) (s : string) : option N :=
  match s with
  | EmptyString => Some acc
  | String c s' => if isdigit c then digits_acc (acc * 10 + digit_value c) s' else None
  end.
Definition digits_value (s : string) : option N :=
  if is_empty s then None else digits_acc 0 s.

(** The number at the start of a text and what is behind it. *)
Fixpoint take_digits_rest (acc : Z) (s : string) : Z * string :=
  match s with
  | String c rest => if isdigit c then take_digits_rest (acc * 10 + Z.of_N (digit_value c)) rest else (acc, s)
  | EmptyString => (acc, s)
  end.

Lemma take_digits_acc s acc n :
  digits_acc acc s = Some n -> take_digits_rest (Z.of_N acc) s = (Z.of_N n, "").
Proof.
  revert acc. induction s as [|c s IH]; intros acc; simpl; [by intros [= ->]|].
  destruct (isdigit c); [|done]. intros H. rewrite <- (IH _ H). f_equal. lia.
Qed.

Lemma pretty_char_digit x : (x < 10)%N ->
  isdigit (pretty_N_char x) = true /\ digit_value (pretty_N_char x) = x.
Proof.
  intros Hx.
  assert (x = 0 \/ x = 1 \/ x = 2 \/ x = 3 \/ x = 4 \/ x = 5 \/ x = 6 \/ x = 7 \/ x = 8
          \/ x = 9)%N as H by lia.
  by repeat (destruct H as [-> | H]; [done|]); subst.
Qed.

Lemma digits_acc_pretty_go x s :
  digits_acc 0 (pretty_N_go x s) = digits_acc x s.
Proof.
  revert s. induction x as [x IH] using (well_founded_induction N.lt_wf_0). intros s.
  destruct (decide (0 < x)%N) as [Hx|Hx].
  - rewrite pretty_N_go_step by done. rewrite IH by (apply N.div_lt; lia). simpl.
    destruct (pretty_char_digit (x `mod` 10)%N) as [-> ->]; [apply N.mod_lt; lia|].
    f_equal. rewrite (N.div_mod x 10) at 3 by lia. lia.
  - assert (x = 0%N) as -> by lia. by rewrite pretty_N_go_0.
Qed.

(** [std::to_string] followed by a digit parser gives the number back. *)
Lemma digits_value_pretty (n : N) : digits_value (pretty n) = Some n.
Proof.
  unfold pretty, pretty_N. case_decide as Hn; [by subst|].
  assert (H : digits_acc 0 (pretty_N_go n "") = Some n) by apply digits_acc_pretty_go.
  unfold digits_value. destruct (pretty_N_go n "") eqn:E; [|done].
  simpl in H. congruence.
Qed.
Lemma pretty_N_inj (n m : N) : pretty n = pretty m -> n = m.
Proof.
  intros H. pose proof (digits_value_pretty n) as Hn. rewrite H, digits_value_pretty in Hn.
  congruence.
Qed.

Lemma pretty_N_go_digits x s :
  sall isdigit s = true -> sall isdigit (pretty_N_go x s) = true.
Proof.
  revert s. induction x as [x IH] using (well_founded_induction N.lt_wf_0). intros s Hs.
  destruct (decide (0 < x)%N) as [Hx|Hx].
  - rewrite pretty_N_go_step by done. apply IH; [apply N.div_lt; lia|]. simpl.
    destruct (pretty_char_digit (x `mod` 10)%N) as [-> _]; [apply N.mod_lt; lia|done].
  - assert (x = 0%N) as -> by lia. by rewrite pretty_N_go_0.
Qed.

Lemma pretty_N_digits (n : N) : sall isdigit (pretty n) = true.
Proof.
  unfold pretty, pretty_N. case_decide; [done|]. by apply pretty_N_go_digits.
Qed.

Lemma pretty_N_nonempty (n : N) : pretty n <> "".
Proof. intros H. pose proof (digits_value_pretty n) as H'. by rewrite H in H'. Qed.

Lemma isdigit_not_space c : isdigit c = true -> isspace c = false.
Proof.
  unfold isdigit, isspace. intros [?%Nat.leb_le ?%Nat.leb_le]%andb_prop.
  apply orb_false_intro; [apply andb_false_intro2, Nat.leb_gt; lia | apply Nat.eqb_neq; lia].
Qed.

(** A string without blanks is clean. *)
Lemma no_space_clean s : sall (fun c => negb (isspace c)) s = true -> clean s.
Proof.
  unfold clean. intros Hs.
  assert (drop_space s = s) as ->.
  { destruct s as [|c s]; [done|]. simpl in *. apply andb_prop in Hs as [Hc _].
    apply negb_true_iff in Hc. by rewrite Hc. }
  induction s as [|c s IH]; [done|]. simpl in Hs. apply andb_prop in Hs as [Hc Hs].
  apply negb_true_iff in Hc. rewrite drop_space_end_first by done. by rewrite IH.
Qed.

Lemma pretty_N_clean (n : N) : clean (pretty n).
Proof.
  apply no_space_clean. eapply sall_impl; [|apply pretty_N_digits].
  intros c Hc. by rewrite isdigit_not_space.
Qed.

Lemma break_on_none_inv d s :
  break_on d s = None -> sall (fun c => negb (bool_decide (c = d))) s = true.
Proof.
  induction s as [|c s IH]; simpl; [done|]. case_bool_decide; [done|].
  destruct (break_on d s) as [[??]|]; [done|]. simpl. auto.
Qed.

(** The first field of a line is what stands before its first separator. *)
Lemma getline_fields_break d s :
  s <> "" ->
  getline_fields d s =
  match break_on d s with
  | Some (a, b) => a :: getline_fields d b
  | None => [s]
  end.
Proof.
  intros Hs. destruct (break_on d s) as [[a b]|] eqn:E.
  - apply break_on_some in E as [-> Ha]. by apply getline_fields_app.
  - apply getline_fields_last; [by apply break_on_none_inv|done].
Qed.

Lemma getline_fields_free d s :
  Forall (fun f => sall (fun c => negb (bool_decide (c = d))) f = true) (getline_fields d s).
Proof.
  induction s as [|c s IH]; simpl; [constructor|]. case_bool_decide as Hc; [by constructor|].
  destruct (getline_fields d s) as [|f fs]; constructor; try done; simpl;
    rewrite ?bool_decide_eq_false_2 by done; simpl; try done; by inversion IH.
Qed.

Lemma sall_drop_space p s : sall p s = true -> sall p (drop_space s) = true.
Proof.
  induction s as [|c s IH]; simpl; [done|]. intros [Hc Hs]%andb_prop.
  destruct (isspace c); simpl; [auto|]. by rewrite Hc.
Qed.

Lemma sall_drop_space_end p s : sall p s = true -> sall p (drop_space_end s) = true.
Proof.
  induction s as [|c s IH]; simpl; [done|]. intros [Hc Hs]%andb_prop.
  destruct (drop_space_end s); [destruct (isspace c)|]; simpl; rewrite ?Hc; auto.
Qed.

(** * Lists *)

Lemma Forall_elem {A} (P : A -> Prop) l : Forall P l <-> forall x, x ∈ l -> P x.
Proof. apply Forall_forall. Qed.

Lemma filter_none {A} (f : A -> bool) l : (forall x, x ∈ l -> f x = false) -> List.filter f l = [].
Proof.
  induction l as [|x l IH]; intros H; [done|]. simpl. rewrite (H x (list_elem_of_here _ _)).
  apply IH. intros y Hy. apply H. by apply list_elem_of_further.
Qed.
Lemma filter_all {A} (f : A -> bool) l : (forall x, x ∈ l -> f x = true) -> List.filter f l = l.
Proof.
  induction l as [|x l IH]; intros H; [done|]. simpl. rewrite (H x (list_elem_of_here _ _)). f_equal.
  apply IH. intros y Hy. apply H. by apply list_elem_of_further.
Qed.
Lemma filter_true {A} (l : list A) : List.filter (fun _ => true) l = l.
Proof. by apply filter_all. Qed.

Lemma NoDup_fmap_inj_on {A B} (f : A -> B) l x y :
  NoDup (f <$> l) -> x ∈ l -> y ∈ l -> f x = f y -> x = y.
Proof.
  induction l as [|z l IH]; [by intros _ ?%elem_of_nil|].
  rewrite fmap_cons. intros [Hz Hnd]%NoDup_cons [->|Hx]%elem_of_cons [->|Hy]%elem_of_cons He;
    [done| | |by apply IH].
  - destruct Hz. rewrite He. by apply list_elem_of_fmap_2.
  - destruct Hz. rewrite <-He. by apply list_elem_of_fmap_2.
Qed.

(** A position in a list with one more element at its end. *)
Lemma snoc_split {A} (l pre post : list A) x y :
  l ++ [x] = pre ++ y :: post ->
  (post = [] /\ pre = l /\ y = x) \/ exists post', post = post' ++ [x] /\ l = pre ++ y :: post'.
Proof.
  intros H. destruct post as [|z post] using rev_ind.
  - left. apply app_inj_tail in H as [-> ->]. done.
  - clear IHpost. right. exists post. rewrite app_comm_cons, app_assoc in H.
    apply app_inj_tail in H as [-> ->]. done.
Qed.
