(* ===== verification/Digest.v ===== *)
(** The 64-bit FNV-1a digest, which several components print in hexadecimal, and cutting a text at a pattern
    as std::string::find does. *)
From S2P Require Import Prelude.

(** A byte as the source's unsigned char. *)
Definition byte_of (c : ascii) : N := N_of_ascii c.

(** FNV-1a with 64 bits. *)
Fixpoint fnv1a (hash : N) (value : string) : N :=
  match value with
  | "" => hash
  | String c rest => fnv1a (N.lxor hash (byte_of c) * 1099511628211 mod 2 ^ 64) rest
  end%N.

Definition hex_digit (n : N) : ascii := ascii_of_N (if n <? 10 then 48 + n else 87 + n)%N.
(** The lowest [digits] hexadecimal digits, padded with zeros. *)
Fixpoint hex_digits (digits : nat) (n : N) : string :=
  match digits with
  | O => ""
  | S d => hex_digits d (N.div n 16) +:+ String (hex_digit (N.modulo n 16)) ""
  end.


Lemma length_append (s t : string) : String.length (s +:+ t) = (String.length s + String.length t)%nat.
Proof. induction s as [|c s IH]; [done|]. cbn. by rewrite IH. Qed.

Lemma hex_digits_length d n : String.length (hex_digits d n) = d.
Proof. revert n. induction d as [|d IH]; intros n; [done|]. cbn [hex_digits]. rewrite length_append, IH. cbn. lia. Qed.

Lemma hex_digit_alnum n : (n < 16)%N -> isalnum (hex_digit n) = true.
Proof.
  intros Hn. assert (Hall : forallb (fun k => isalnum (hex_digit (N.of_nat k))) (seq 0 16) = true) by reflexivity.
  rewrite forallb_forall in Hall. rewrite <- (N2Nat.id n). apply Hall, in_seq. lia.
Qed.

Lemma hex_digits_alnum d n : sall isalnum (hex_digits d n) = true.
Proof.
  revert n. induction d as [|d IH]; intros n; [done|]. cbn [hex_digits].
  rewrite sall_app, IH. cbn. rewrite hex_digit_alnum; [done|]. by apply N.mod_lt.
Qed.

(** * Cutting at a pattern *)

Fixpoint sdrop (n : nat) (s : string) : string :=
  match n, s with
  | S n', String _ rest => sdrop n' rest
  | _, _ => s
  end.

(** The text before the first occurrence of the pattern and the text after it. *)
Fixpoint cut_at (pattern text : string) : option (string * string) :=
  if String.prefix pattern text then Some ("", sdrop (String.length pattern) text)
  else match text with
       | "" => None
       | String c rest => (fun p => (String c p.1, p.2)) <$> cut_at pattern rest
       end.

(** std::string::find(pattern) != npos. *)
Definition contains (pattern text : string) : bool := bool_decide (is_Some (cut_at pattern text)).

Lemma prefix_nil s : String.prefix "" s = true.
Proof. by destruct s. Qed.

Lemma prefix_app p s t : String.prefix p s = true -> String.prefix p (s +:+ t) = true.
Proof.
  revert s. induction p as [|c p IH]; intros s; [by rewrite ?prefix_nil; destruct s|].
  destruct s as [|d s]; cbn; [discriminate|]. destruct (ascii_dec c d); [apply IH|done].
Qed.

Lemma prefix_split p s : String.prefix p s = true -> s = p +:+ sdrop (String.length p) s.
Proof.
  revert s. induction p as [|c p IH]; intros s; [by rewrite ?prefix_nil; destruct s|].
  destruct s as [|d s]; cbn; [discriminate|]. destruct (ascii_dec c d) as [->|]; [|done]. intros H. f_equal. by apply IH.
Qed.

Lemma sdrop_app n s t : (n <= String.length s)%nat -> sdrop n (s +:+ t) = sdrop n s +:+ t.
Proof. revert s. induction n as [|n IH]; intros s Hn; [done|]. destruct s as [|c s]; cbn in *; [lia|]. apply IH. lia. Qed.

Lemma prefix_length p s : String.prefix p s = true -> (String.length p <= String.length s)%nat.
Proof. intros H%prefix_split. rewrite H, length_append. lia. Qed.

Lemma prefix_app_inv p s t :
  String.prefix p (s +:+ t) = true -> (String.length p <= String.length s)%nat -> String.prefix p s = true.
Proof.
  revert s. induction p as [|c p IH]; intros s; [by rewrite ?prefix_nil; destruct s|].
  destruct s as [|d s]; cbn; [lia|]. destruct (ascii_dec c d); [|done]. intros H Hl. apply IH; [done|lia].
Qed.

Lemma cut_at_unfold p s :
  cut_at p s = if String.prefix p s then Some ("", sdrop (String.length p) s)
               else match s with "" => None | String c rest => (fun q => (String c q.1, q.2)) <$> cut_at p rest end.
Proof. by destruct s. Qed.

Lemma cut_at_some p s a b : cut_at p s = Some (a, b) -> s = a +:+ p +:+ b.
Proof.
  revert a b. induction s as [|c s IH]; intros a b; rewrite cut_at_unfold; destruct (String.prefix p _) eqn:Hp; try done.
  - intros [= <- <-]. by apply prefix_split in Hp.
  - intros [= <- <-]. by apply prefix_split in Hp.
  - destruct (cut_at p s) as [[a' b']|] eqn:E; [|done]. intros [= <- <-]. cbn. by rewrite <- (IH a' b').
Qed.

(** More text behind the first occurrence does not move it. *)
Lemma cut_at_app p s t a b : cut_at p s = Some (a, b) -> cut_at p (s +:+ t) = Some (a, b +:+ t).
Proof.
  revert a b. induction s as [|c s IH]; intros a b; rewrite cut_at_unfold; destruct (String.prefix p _) eqn:Hp; try done.
  - intros [= <- <-]. rewrite cut_at_unfold, (prefix_app _ _ t Hp), sdrop_app; [done|by apply prefix_length].
  - intros [= <- <-]. rewrite cut_at_unfold, (prefix_app _ _ t Hp), sdrop_app; [done|by apply prefix_length].
  - destruct (cut_at p s) as [[a' b']|] eqn:E; [|done]. intros [= <- <-]. cbn [String.append].
    rewrite cut_at_unfold. destruct (String.prefix p (String c (s +:+ t))) eqn:Hp'; [|by rewrite (IH a' b' eq_refl)].
    (* an occurrence that ends in [t] would start behind the one in [s] *)
    exfalso. apply cut_at_some in E. rewrite (prefix_app_inv p (String c s) t) in Hp; [done|done|].
    cbn. rewrite E, !length_append. lia.
Qed.

Lemma cut_at_shorter p s a b : p <> "" -> cut_at p s = Some (a, b) -> (String.length b < String.length s)%nat.
Proof. intros Hp ->%cut_at_some. rewrite !length_append. destruct p; [done|]. cbn. lia. Qed.
