(* ===== verification/SensorProtocol.v ===== *)
(** The text protocol of the hall and fire sensors: [src/sensor/SensorProtocolParser.cpp]
    with the message types of [include/sensor]. *)
From S2P Require Import Prelude.

(** [include/sensor/SensorProtocolVersion.hpp:10-13 SensorProtocolVersion] *)
Inductive SensorProtocolVersion := LegacyV1 | BootEpochV2.
#[global] Instance SensorProtocolVersion_eq_dec : EqDecision SensorProtocolVersion.
Proof. solve_decision. Defined.

(** [include/sensor/SensorProtocolVersion.hpp:15-24 toString] *)
Definition protocol_to_string (version : SensorProtocolVersion) : string :=
  match version with LegacyV1 => "LEGACY_V1" | BootEpochV2 => "BOOT_EPOCH_V2" end.

(** [include/sensor/SensorProtocolVersion.hpp:26-32 sensorProtocolVersionFromString] *)
Definition sensorProtocolVersionFromString (value : string) : option SensorProtocolVersion :=
  if bool_decide (value = "LEGACY_V1") then Some LegacyV1
  else if bool_decide (value = "BOOT_EPOCH_V2") then Some BootEpochV2
  else None.

(** [include/parking/ParkingSensorEvent.hpp:12-15 ParkingSensorState] *)
Inductive ParkingSensorState := Occupied | Vacant.
#[global] Instance ParkingSensorState_eq_dec : EqDecision ParkingSensorState.
Proof. solve_decision. Defined.

(** [include/sensor/FireSensorMessage.hpp:12-15 FireSensorState] *)
Inductive FireSensorState := Detected | Cleared.
#[global] Instance FireSensorState_eq_dec : EqDecision FireSensorState.
Proof. solve_decision. Defined.

(** Clock readings are nanosecond counts, as the clocks' 64-bit [rep] holds them. *)
Abbreviation time_point := Z (only parsing).

(** [include/sensor/SensorProtocolMessage.hpp:16-37 SensorProtocolMessage] *)
Record SensorProtocolMessage := mkSensorProtocolMessage {
  spm_sensorId : string;
  spm_state : ParkingSensorState;
  spm_occurredAt : time_point;
  spm_sequence : option N;
  spm_protocolVersion : SensorProtocolVersion;
  spm_bootId : option string;
  spm_transport : string;
  spm_node : option string;
  spm_receivedMonotonic : time_point
}.

(** [include/sensor/FireSensorMessage.hpp:20-40 FireSensorMessage] *)
Record FireSensorMessage (double : Type) := mkFireSensorMessage {
  fsm_sensorId : string;
  fsm_state : FireSensorState;
  fsm_occurredAt : time_point;
  fsm_sequence : option N;
  fsm_protocolVersion : SensorProtocolVersion;
  fsm_bootId : option string;
  fsm_transport : string;
  fsm_node : option string;
  fsm_energy : option double;
  fsm_raw : string
}.
Arguments mkFireSensorMessage {double}.
Arguments fsm_sensorId {double}. Arguments fsm_state {double}.
Arguments fsm_occurredAt {double}. Arguments fsm_sequence {double}.
Arguments fsm_protocolVersion {double}. Arguments fsm_bootId {double}.
Arguments fsm_transport {double}. Arguments fsm_node {double}.
Arguments fsm_energy {double}. Arguments fsm_raw {double}.

(** * Lexical helpers *)

(** [src/sensor/SensorProtocolParser.cpp:13-25 trim] *)
Definition trim (value : string) : string := drop_space_end (drop_space value).

(** [src/sensor/SensorProtocolParser.cpp:27-36 upper] *)
Definition upper (value : string) : string := smap toupper value.

(** [src/sensor/SensorProtocolParser.cpp:38-46 split] *)
Definition split (value : string) : list string := trim <$> getline_fields ":" value.

Definition uint64_max : N := 18446744073709551615.
Definition int64_max : Z := 9223372036854775807.

Fixpoint parse_unsigned_loop (value : N) (text : string) : option N :=
  match text with
  | EmptyString => Some value
  | String ch rest =>
      if negb (isdigit ch) then None else
      let digit := digit_value ch in
      if bool_decide ((uint64_max - digit) / 10 < value)%N then None else
      parse_unsigned_loop (value * 10 + digit)%N rest
  end.

(** [src/sensor/SensorProtocolParser.cpp:48-70 parseUnsigned64] *)
Definition parseUnsigned64 (text : string) : option N :=
  if is_empty text then None else parse_unsigned_loop 0 text.

(** [src/sensor/SensorProtocolParser.cpp:95-98 isLoRaNodeId] *)
Definition isLoRaNodeId (field : string) : bool :=
  let candidate := upper field in
  bool_decide (candidate = "STM1") || bool_decide (candidate = "STM2").

(** A 64-bit signed value: the two's complement reading of its low 64 bits. *)
Definition wrap_int64 (z : Z) : Z := (z + 2 ^ 63) `mod` 2 ^ 64 - 2 ^ 63.

(** [src/sensor/SensorProtocolParser.cpp:131-133 applyOptionalTail] The [milliseconds] to [system_clock::duration] conversion of the timestamp:
    a multiplication in the clock's 64-bit nanosecond representation. *)
Definition time_point_of_millis (epochMs : Z) : time_point := wrap_int64 (epochMs * 1000000).

Definition field (fields : list string) (i : nat) : string := List.nth i fields "".

Abbreviation parse_result := (result string).

(** * The frame tails *)

(** [src/sensor/SensorProtocolParser.cpp:102-137 applyOptionalTail] *)
Definition applyOptionalTail (fields : list string) (sequence : option N)
    (occurredAt : time_point) : parse_result (option N * time_point) :=
  let? sequence :=
    if Nat.leb 4 (length fields) then
      match parseUnsigned64 (field fields 3) with
      | None => Err "sensor sequence is not an unsigned integer"
      | Some parsedSequence => Ok (Some parsedSequence)
      end
    else Ok sequence in
  if Nat.eqb (length fields) 5 then
    match parseUnsigned64 (field fields 4) with
    | None => Err "sensor unix timestamp is invalid"
    | Some epochMs =>
        if bool_decide (int64_max < Z.of_N epochMs)
        then Err "sensor unix timestamp is out of range"
        else Ok (sequence, time_point_of_millis (Z.of_N epochMs))
    end
  else Ok (sequence, occurredAt).

(** [src/sensor/SensorProtocolParser.cpp:139-180 applyVersionedTail] *)
Definition applyVersionedTail (fields : list string) (occurredAt : time_point)
    : parse_result (string * N * time_point) :=
  if negb (Nat.eqb (length fields) 5) && negb (Nat.eqb (length fields) 6)
  then Err "expected versioned sensor frame with boot_id and sequence"
  else if is_empty (field fields 3) then Err "versioned sensor boot ID is empty"
  else match parseUnsigned64 (field fields 4) with
  | None => Err "versioned sensor sequence is invalid"
  | Some parsedSequence =>
      if Nat.eqb (length fields) 6 then
        match parseUnsigned64 (field fields 5) with
        | None => Err "sensor unix timestamp is invalid"
        | Some epochMs =>
            if bool_decide (int64_max < Z.of_N epochMs)
            then Err "sensor unix timestamp is out of range"
            else Ok (field fields 3, parsedSequence, time_point_of_millis (Z.of_N epochMs))
        end
      else Ok (field fields 3, parsedSequence, occurredAt)
  end.

(** * The two parsers *)

(** [src/sensor/SensorProtocolParser.cpp:206-220 parse] *)
Definition hall_shape (versioned nodePrefixed : bool) (n : nat) : parse_result unit :=
  if nodePrefixed then
    guard_err (Nat.eqb n 5) "expected SENSOR:node:sensor_id:state:sequence"
  else if (negb versioned && (Nat.ltb n 3 || Nat.ltb 5 n)) ||
          (versioned && negb (Nat.eqb n 5) && negb (Nat.eqb n 6))
  then Err (if versioned
            then "expected SENSOR2:sensor_id:state:boot_id:sequence[:unix_ms]"
            else "expected SENSOR:sensor_id:state[:sequence[:unix_ms]]")
  else Ok tt.

Definition hall_state (text : string) : parse_result ParkingSensorState :=
  if bool_decide (text = "OCCUPIED") then Ok Occupied
  else if bool_decide (text = "VACANT") then Ok Vacant
  else Err "sensor state must be OCCUPIED or VACANT".

(** The identifier is taken from the node-shifted column, the tail is the node
    sequence, the versioned tail or the optional tail. *)
Definition parse_fields (fields : list string) (receivedAt mono : time_point)
    : parse_result SensorProtocolMessage :=
  let type := upper (field fields 0) in
  let versioned := bool_decide (type = "SENSOR2") in
  if negb (bool_decide (type = "SENSOR")) && negb versioned
  then Err "unsupported sensor message type" else
  let nodePrefixed :=
    negb versioned && Nat.leb 2 (length fields) && isLoRaNodeId (field fields 1) in
  hall_shape versioned nodePrefixed (length fields) ;?
  let idField := if nodePrefixed then 2%nat else 1%nat in
  let stateField := if nodePrefixed then 3%nat else 2%nat in
  if is_empty (field fields idField) then Err "sensor id is empty" else
  let sensorId := field fields idField in
  let version := if versioned then BootEpochV2 else LegacyV1 in
  let node := if nodePrefixed then Some (upper (field fields 1)) else None in
  let? state := hall_state (upper (field fields stateField)) in
  if nodePrefixed then
    match parseUnsigned64 (field fields 4) with
    | None => Err "sensor sequence is not an unsigned integer"
    | Some parsedSequence =>
        Ok (mkSensorProtocolMessage sensorId state receivedAt (Some parsedSequence)
              version None "text-test" node mono)
    end
  else if versioned then
    let? (bootId, sequence, occurredAt) := applyVersionedTail fields receivedAt in
    Ok (mkSensorProtocolMessage sensorId state occurredAt (Some sequence)
          version (Some bootId) "text-test" node mono)
  else
    let? (sequence, occurredAt) := applyOptionalTail fields None receivedAt in
    Ok (mkSensorProtocolMessage sensorId state occurredAt sequence
          version None "text-test" node mono).

(** [src/sensor/SensorProtocolParser.cpp:184-267 SensorProtocolParser::parse] *)
Definition parse (line : string) (receivedAt mono : time_point)
    : parse_result SensorProtocolMessage :=
  let normalizedLine := trim line in
  if is_empty normalizedLine then Err "sensor message is empty" else
  let fields := split normalizedLine in
  match fields with
  | [] => Err "unsupported sensor message type"
  | _ => parse_fields fields receivedAt mono
  end.

(** [src/sensor/SensorProtocolParser.cpp:291-305 parseFire] *)
Definition fire_shape (versioned nodePrefixed : bool) (n : nat) : parse_result unit :=
  if nodePrefixed then
    guard_err (Nat.eqb n 6) "expected FIRE:node:sensor_id:state:sequence:energy"
  else if (negb versioned && (Nat.ltb n 3 || Nat.ltb 5 n)) ||
          (versioned && negb (Nat.eqb n 5) && negb (Nat.eqb n 6))
  then Err (if versioned
            then "expected FIRE2:sensor_id:state:boot_id:sequence[:unix_ms]"
            else "expected FIRE:sensor_id:state[:sequence[:unix_ms]]")
  else Ok tt.

Definition fire_state (text : string) : parse_result FireSensorState :=
  if bool_decide (text = "DETECTED") then Ok Detected
  else if bool_decide (text = "CLEARED") then Ok Cleared
  else Err "fire state must be DETECTED or CLEARED".

Section Fire.
(** [std::from_chars] on a [double]: the value and the text it did not consume. *)
Context {double : Type} (from_chars_double : string -> option (double * string)).

(** [src/sensor/SensorProtocolParser.cpp:78-90 parseDouble] *)
Definition parseDouble (text : string) : option double :=
  if is_empty text then None else
  match from_chars_double text with
  | Some (value, rest) => if is_empty rest then Some value else None
  | None => None
  end.

Definition parseFire_fields (fields : list string) (receivedAt : time_point)
    : parse_result (FireSensorMessage double) :=
  let type := upper (field fields 0) in
  let versioned := bool_decide (type = "FIRE2") in
  if negb (bool_decide (type = "FIRE")) && negb versioned
  then Err "unsupported sensor message type" else
  let nodePrefixed :=
    negb versioned && Nat.leb 2 (length fields) && isLoRaNodeId (field fields 1) in
  fire_shape versioned nodePrefixed (length fields) ;?
  let idField := if nodePrefixed then 2%nat else 1%nat in
  let stateField := if nodePrefixed then 3%nat else 2%nat in
  if is_empty (field fields idField) then Err "fire sensor id is empty" else
  let sensorId := field fields idField in
  let version := if versioned then BootEpochV2 else LegacyV1 in
  let node := if nodePrefixed then Some (upper (field fields 1)) else None in
  let? state := fire_state (upper (field fields stateField)) in
  if nodePrefixed then
    match parseUnsigned64 (field fields 4) with
    | None => Err "fire sequence is not an unsigned integer"
    | Some parsedSequence =>
        match parseDouble (field fields 5) with
        | None => Err "fire energy is not a number"
        | Some energy =>
            Ok (mkFireSensorMessage sensorId state receivedAt (Some parsedSequence)
                  version None "text-test" node (Some energy) "")
        end
    end
  else if versioned then
    let? (bootId, sequence, occurredAt) := applyVersionedTail fields receivedAt in
    Ok (mkFireSensorMessage sensorId state occurredAt (Some sequence)
          version (Some bootId) "text-test" node None "")
  else
    let? (sequence, occurredAt) := applyOptionalTail fields None receivedAt in
    Ok (mkFireSensorMessage sensorId state occurredAt sequence
          version None "text-test" node None "").

(** [src/sensor/SensorProtocolParser.cpp:269-358 SensorProtocolParser::parseFire] *)
Definition parseFire (line : string) (receivedAt : time_point)
    : parse_result (FireSensorMessage double) :=
  let normalizedLine := trim line in
  if is_empty normalizedLine then Err "fire message is empty" else
  let fields := split normalizedLine in
  match fields with
  | [] => Err "unsupported sensor message type"
  | _ => parseFire_fields fields receivedAt
  end.
End Fire.

(** [src/sensor/SensorProtocolParser.cpp:360-368 SensorProtocolParser::isFireLine] *)
Definition isFireLine (line : string) : bool :=
  match break_on ":" (trim line) with
  | None => false
  | Some (before, _) =>
      let type := upper before in
      bool_decide (type = "FIRE") || bool_decide (type = "FIRE2")
  end.

(** * Numbers *)

Lemma digit_value_lt c : isdigit c = true -> (digit_value c < 10)%N.
Proof.
  unfold isdigit, digit_value, nat_of_ascii. intros [?%Nat.leb_le ?%Nat.leb_le]%andb_prop. lia.
Qed.

Lemma digits_acc_ge a s n : digits_acc a s = Some n -> (a <= n)%N.
Proof.
  revert a. induction s as [|c s IH]; simpl; intros a; [intros [= ->]; lia|].
  destruct (isdigit c); [|done]. intros H%IH. lia.
Qed.

Lemma parse_unsigned_loop_spec v s :
  (v <= uint64_max)%N ->
  parse_unsigned_loop v s =
  match digits_acc v s with
  | Some n => if bool_decide (n <= uint64_max)%N then Some n else None
  | None => None
  end.
Proof.
  revert v. induction s as [|c s IH]; simpl; intros v Hv.
  - by rewrite bool_decide_eq_true_2.
  - destruct (isdigit c) eqn:Hc; simpl; [|done].
    pose proof (digit_value_lt c Hc) as Hd.
    assert (Hov : ((uint64_max - digit_value c) / 10 < v)%N <->
                  (uint64_max < v * 10 + digit_value c)%N).
    { unfold uint64_max in *. clear -Hd. generalize dependent (digit_value c). intros d Hd.
      pose proof (N.div_mod (18446744073709551615 - d) 10 ltac:(done)) as Hdm.
      pose proof (N.mod_lt (18446744073709551615 - d) 10 ltac:(done)) as Hm.
      revert Hdm Hm. generalize ((18446744073709551615 - d) `mod` 10)%N.
      generalize ((18446744073709551615 - d) / 10)%N. lia. }
    case_bool_decide as Hov'; [|apply IH; lia].
    destruct (digits_acc _ s) as [n|] eqn:Hn; [|done].
    apply digits_acc_ge in Hn. rewrite bool_decide_eq_false_2; [done|]. lia.
Qed.

(** The unsigned parser is exact: it returns a number precisely when
    the text is a non-empty string of decimal digits whose value fits 64 bits,
    and the number is that value, so no input wraps around. *)
Theorem parseUnsigned64_exact text n :
  parseUnsigned64 text = Some n <->
  digits_value text = Some n /\ (n <= uint64_max)%N.
Proof.
  unfold parseUnsigned64, digits_value. destruct (is_empty text); [naive_solver|].
  rewrite parse_unsigned_loop_spec by (unfold uint64_max; lia).
  destruct (digits_acc 0 text) as [m|]; [|naive_solver].
  case_bool_decide; naive_solver.
Qed.

Lemma parseUnsigned64_pretty n : (n <= uint64_max)%N -> parseUnsigned64 (pretty n) = Some n.
Proof.
  unfold parseUnsigned64. intros Hn. pose proof (digits_value_pretty n) as H.
  unfold digits_value in H. destruct (is_empty (pretty n)); [done|].
  rewrite parse_unsigned_loop_spec by (unfold uint64_max; lia).
  by rewrite H, bool_decide_eq_true_2.
Qed.

Lemma parseUnsigned64_bound text n : parseUnsigned64 text = Some n -> (n <= uint64_max)%N.
Proof.
  unfold parseUnsigned64. destruct (is_empty text); [done|].
  rewrite parse_unsigned_loop_spec by (unfold uint64_max; lia).
  destruct (digits_acc 0 text) as [m|]; [|done]. case_bool_decide; naive_solver.
Qed.

(** * Well-formed frames and the documented grammar *)

(** A field that can stand between two separators. *)
Definition plain (s : string) : Prop :=
  sall (fun c => negb (bool_decide (c = ":"%char))) s = true /\ clean s.

Definition plain_id (s : string) : Prop := plain s /\ s <> "".

Inductive hall_frame :=
| HallBare (id : string) (st : ParkingSensorState)
| HallSeq (id : string) (st : ParkingSensorState) (seq : N)
| HallSeqTime (id : string) (st : ParkingSensorState) (seq ms : N)
| HallBoot (id : string) (st : ParkingSensorState) (boot : string) (seq : N)
| HallBootTime (id : string) (st : ParkingSensorState) (boot : string) (seq ms : N)
| HallNode (node id : string) (st : ParkingSensorState) (seq : N).

Definition state_name (st : ParkingSensorState) : string :=
  match st with Occupied => "OCCUPIED" | Vacant => "VACANT" end.

(** The columns of the grammar in the comment of [SensorProtocolParser.hpp]. *)
Definition frame_fields (f : hall_frame) : list string :=
  match f with
  | HallBare id st => ["SENSOR"; id; state_name st]
  | HallSeq id st seq => ["SENSOR"; id; state_name st; pretty seq]
  | HallSeqTime id st seq ms => ["SENSOR"; id; state_name st; pretty seq; pretty ms]
  | HallBoot id st boot seq => ["SENSOR2"; id; state_name st; boot; pretty seq]
  | HallBootTime id st boot seq ms =>
      ["SENSOR2"; id; state_name st; boot; pretty seq; pretty ms]
  | HallNode node id st seq => ["SENSOR"; node; id; state_name st; pretty seq]
  end.
Definition render (f : hall_frame) : string := String.concat ":" (frame_fields f).

Definition wf_legacy_id (id : string) : Prop := plain_id id /\ isLoRaNodeId id = false.
Definition wf_u64 (n : N) : Prop := (n <= uint64_max)%N.
(** The times whose nanoseconds fit the clock's signed 64 bits: up to the year 2262. *)
Definition wf_ms (n : N) : Prop := Z.of_N n <= 9223372036854.

(** The moment a sensor means by [ms] milliseconds of unix time, in nanoseconds:
    exact arithmetic, independent of the width the server computes with. *)
Definition millis_ns (ms : N) : Z := Z.of_N ms * 1000000.

Definition wf_frame (f : hall_frame) : Prop :=
  match f with
  | HallBare id _ => wf_legacy_id id
  | HallSeq id _ seq => wf_legacy_id id /\ wf_u64 seq
  | HallSeqTime id _ seq ms => wf_legacy_id id /\ wf_u64 seq /\ wf_ms ms
  | HallBoot id _ boot seq => plain_id id /\ plain_id boot /\ wf_u64 seq
  | HallBootTime id _ boot seq ms => plain_id id /\ plain_id boot /\ wf_u64 seq /\ wf_ms ms
  | HallNode node id _ seq =>
      plain_id node /\ isLoRaNodeId node = true /\ plain_id id /\ wf_u64 seq
  end.

Definition frame_message (f : hall_frame) (at_ mono : time_point) : SensorProtocolMessage :=
  let msg id st occurred seq version boot node :=
    mkSensorProtocolMessage id st occurred seq version boot "text-test" node mono in
  match f with
  | HallBare id st => msg id st at_ None LegacyV1 None None
  | HallSeq id st seq => msg id st at_ (Some seq) LegacyV1 None None
  | HallSeqTime id st seq ms =>
      msg id st (millis_ns ms) (Some seq) LegacyV1 None None
  | HallBoot id st boot seq => msg id st at_ (Some seq) BootEpochV2 (Some boot) None
  | HallBootTime id st boot seq ms =>
      msg id st (millis_ns ms) (Some seq) BootEpochV2 (Some boot) None
  | HallNode node id st seq => msg id st at_ (Some seq) LegacyV1 None (Some (upper node))
  end.

Lemma isdigit_not_colon c : isdigit c = true -> negb (bool_decide (c = ":"%char)) = true.
Proof. intros Hc. apply negb_true_iff, bool_decide_eq_false_2. by intros ->. Qed.

Lemma plain_pretty n : plain (pretty (n : N)).
Proof.
  split; [|apply pretty_N_clean].
  eapply sall_impl; [apply isdigit_not_colon|apply pretty_N_digits].
Qed.
Lemma plain_state_name st : plain (state_name st).
Proof. by destruct st. Qed.
Lemma plain_sensor : plain "SENSOR" /\ plain "SENSOR2".
Proof. by repeat split. Qed.
#[export] Hint Resolve plain_pretty plain_state_name : pi.
#[export] Hint Extern 1 (plain "SENSOR") => apply plain_sensor : pi.
#[export] Hint Extern 1 (plain "SENSOR2") => apply plain_sensor : pi.

Lemma getline_fields_concat fs f :
  Forall plain fs -> plain f -> f <> "" ->
  getline_fields ":" (String.concat ":" (fs ++ [f])) = fs ++ [f].
Proof.
  intros Hfs [Hf _] Hne. induction Hfs as [|g fs [Hg _] Hfs IH]; simpl.
  - by apply getline_fields_last.
  - destruct (fs ++ [f]) as [|h hs] eqn:E; [by destruct fs|].
    change (":" +:+ String.concat ":" (h :: hs)) with (String ":" (String.concat ":" (h :: hs))).
    rewrite getline_fields_app by done. by rewrite IH.
Qed.

Lemma trim_plain f : plain f -> trim f = f.
Proof. by intros [_ ?]. Qed.

Lemma map_trim_plain fs : Forall plain fs -> trim <$> fs = fs.
Proof. induction 1 as [|f fs Hf _ IH]; [done|]. by rewrite fmap_cons, trim_plain, IH. Qed.

Lemma split_concat fs f :
  Forall plain fs -> plain f -> f <> "" ->
  split (String.concat ":" (fs ++ [f])) = fs ++ [f].
Proof.
  intros Hfs Hf Hne. unfold split. rewrite getline_fields_concat by done.
  apply map_trim_plain, Forall_app. split; [done|]. by apply Forall_singleton.
Qed.

Lemma concat_cons a b l :
  String.concat ":" (a :: b :: l) = a +:+ String ":" (String.concat ":" (b :: l)).
Proof. done. Qed.

Lemma concat_snoc_tail c s fs f :
  exists t, String.concat ":" (String c s :: fs ++ [f]) = String c (t +:+ f).
Proof.
  assert (H : forall g, exists t, String.concat ":" (g :: fs ++ [f]) = g +:+ String ":" (t +:+ f)).
  { induction fs as [|h fs IH]; intros g; [by exists ""|].
    destruct (IH h) as [t Ht]. exists (h +:+ String ":" t).
    rewrite <-app_comm_cons, concat_cons, Ht, append_assoc. done. }
  destruct (H (String c s)) as [t ->]. exists (s +:+ String ":" t).
  by rewrite append_assoc.
Qed.

Lemma trim_concat c s fs f :
  isspace c = false -> plain f -> f <> "" ->
  trim (String.concat ":" (String c s :: fs ++ [f])) =
  String.concat ":" (String c s :: fs ++ [f]).
Proof.
  intros Hc [_ Hf] Hne. destruct (concat_snoc_tail c s fs f) as [t ->].
  by apply clean_line.
Qed.

Lemma parse_concat c s fs f at_ mono :
  isspace c = false -> plain (String c s) -> Forall plain fs -> plain f -> f <> "" ->
  parse (String.concat ":" (String c s :: fs ++ [f])) at_ mono =
  parse_fields (String c s :: fs ++ [f]) at_ mono.
Proof.
  intros Hc Hcs Hfs Hf Hne. unfold parse. rewrite trim_concat by done.
  destruct (concat_snoc_tail c s fs f) as [t Ht]. rewrite Ht at 1. simpl is_empty. cbv iota.
  rewrite app_comm_cons, split_concat by (try apply Forall_cons_2; done). done.
Qed.

Lemma wrap_int64_id z : - 2 ^ 63 <= z < 2 ^ 63 -> wrap_int64 z = z.
Proof. intros H. unfold wrap_int64. rewrite Z.mod_small; lia. Qed.

Lemma wrap_int64_range z : - 2 ^ 63 <= wrap_int64 z < 2 ^ 63.
Proof. unfold wrap_int64. pose proof (Z.mod_pos_bound (z + 2 ^ 63) (2 ^ 64)). lia. Qed.

Lemma time_point_of_millis_exact ms :
  0 <= ms -> time_point_of_millis ms = ms * 1000000 <-> ms <= 9223372036854.
Proof.
  unfold time_point_of_millis. intros Hms. split; intros H.
  - pose proof (wrap_int64_range (ms * 1000000)). lia.
  - apply wrap_int64_id. lia.
Qed.

Lemma time_point_of_wf_ms ms : wf_ms ms -> time_point_of_millis (Z.of_N ms) = millis_ns ms.
Proof. unfold wf_ms. intros. apply time_point_of_millis_exact; lia. Qed.

Lemma wf_ms_u64 ms : wf_ms ms -> (ms <= uint64_max)%N.
Proof. unfold wf_ms, uint64_max. lia. Qed.

Lemma is_empty_false s : s <> "" -> is_empty s = false.
Proof. by destruct s. Qed.

Lemma state_name_nonempty st : state_name st <> "".
Proof. by destruct st. Qed.

Lemma frame_shape f :
  wf_frame f ->
  exists s fs x, frame_fields f = String "S" s :: fs ++ [x] /\ plain (String "S" s) /\
    Forall plain fs /\ plain x /\ x <> "".
Proof.
  assert (H1 : plain (String "S" "ENSOR")) by done.
  assert (H2 : plain (String "S" "ENSOR2")) by done.
  destruct f; simpl; unfold wf_legacy_id, plain_id; intros; destruct_and?.
  - exists "ENSOR", [id], (state_name st).
    auto 8 using state_name_nonempty, Forall_cons_2, Forall_nil_2 with pi.
  - exists "ENSOR", [id; state_name st], (pretty seq).
    auto 8 using pretty_N_nonempty, Forall_cons_2, Forall_nil_2 with pi.
  - exists "ENSOR", [id; state_name st; pretty seq], (pretty ms).
    auto 9 using pretty_N_nonempty, Forall_cons_2, Forall_nil_2 with pi.
  - exists "ENSOR2", [id; state_name st; boot], (pretty seq).
    auto 9 using pretty_N_nonempty, Forall_cons_2, Forall_nil_2 with pi.
  - exists "ENSOR2", [id; state_name st; boot; pretty seq], (pretty ms).
    auto 10 using pretty_N_nonempty, Forall_cons_2, Forall_nil_2 with pi.
  - exists "ENSOR", [node; id; state_name st], (pretty seq).
    auto 9 using pretty_N_nonempty, Forall_cons_2, Forall_nil_2 with pi.
Qed.

Lemma wf_ms_range ms : wf_ms ms -> bool_decide (int64_max < Z.of_N ms) = false.
Proof. unfold wf_ms, int64_max. intros. apply bool_decide_eq_false_2. lia. Qed.

(** Every frame of the documented grammar is understood: rendering a
    well-formed hall frame and parsing the line returns exactly the message the
    frame stands for (sensor, state, sequence, boot id, node and time). *)
Theorem parse_render f at_ mono :
  wf_frame f -> parse (render f) at_ mono = Ok (frame_message f at_ mono).
Proof.
  intros Hwf. unfold render. destruct (frame_shape f Hwf) as (s & fs & x & Hf & ? & ? & ? & ?).
  rewrite Hf, parse_concat, <-Hf by done.
  destruct f; simpl in Hwf; unfold wf_legacy_id, plain_id in Hwf; destruct_and?;
    destruct st; unfold parse_fields, applyVersionedTail, applyOptionalTail, field; simpl;
    repeat match goal with
    | H : isLoRaNodeId ?x = _ |- context [isLoRaNodeId ?x] => rewrite H; simpl
    | H : ?x <> "" |- context [is_empty ?x] => rewrite (is_empty_false x H); simpl
    | H : wf_u64 ?n |- context [parseUnsigned64 (pretty ?n)] =>
        rewrite (parseUnsigned64_pretty n H); simpl
    | H : wf_ms ?n |- context [parseUnsigned64 (pretty ?n)] =>
        rewrite (parseUnsigned64_pretty n (wf_ms_u64 n H)); simpl; rewrite (wf_ms_range n H); simpl;
        rewrite ?(time_point_of_wf_ms n H)
    end; done.
Qed.

(** * What the parsers accept *)

Lemma split_plain s : Forall plain (split s).
Proof.
  unfold split. pose proof (getline_fields_free ":" s) as H.
  induction H as [|f fs Hf _ IH]; [constructor|]. rewrite fmap_cons. constructor; [|done].
  split; [|apply trim_clean]. unfold trim. by apply sall_drop_space_end, sall_drop_space.
Qed.

Lemma field_plain fs i : Forall plain fs -> plain (field fs i).
Proof.
  intros Hfs. unfold field. revert i.
  induction Hfs as [|f fs Hf _ IH]; intros [|i]; simpl; by try apply IH.
Qed.

Lemma parse_ok_fields line at_ mono m :
  parse line at_ mono = Ok m ->
  split (trim line) <> [] /\ parse_fields (split (trim line)) at_ mono = Ok m.
Proof.
  unfold parse. destruct (is_empty (trim line)); [done|]. by destruct (split (trim line)).
Qed.

Lemma plain_id_field fs i : Forall plain fs -> field fs i <> "" -> plain_id (field fs i).
Proof. intros. split; [by apply field_plain|done]. Qed.

(** The facts a consumer of hall messages may rely on. *)
Record hall_message_ok (m : SensorProtocolMessage) : Prop := {
  hmo_sensor : plain_id (spm_sensorId m);
  hmo_sequence : forall n, spm_sequence m = Some n -> wf_u64 n;
  hmo_legacy : spm_protocolVersion m = LegacyV1 -> spm_bootId m = None;
  hmo_versioned : spm_protocolVersion m = BootEpochV2 ->
    exists boot n, spm_bootId m = Some boot /\ plain_id boot /\ spm_sequence m = Some n;
  hmo_node : forall node, spm_node m = Some node ->
    (node = "STM1" \/ node = "STM2") /\ spm_protocolVersion m = LegacyV1 /\
    is_Some (spm_sequence m)
}.

Lemma is_empty_true_inv s : is_empty s = false -> s <> "".
Proof. by destruct s. Qed.

Lemma isLoRaNodeId_upper x : isLoRaNodeId x = true -> upper x = "STM1" \/ upper x = "STM2".
Proof.
  unfold isLoRaNodeId. intros H. apply orb_prop in H as [H|H];
    apply bool_decide_eq_true_1 in H; auto.
Qed.

Lemma applyOptionalTail_sequence fs at_ seq t n :
  applyOptionalTail fs None at_ = Ok (seq, t) -> seq = Some n -> wf_u64 n.
Proof.
  unfold applyOptionalTail. intros H ->. rinv.
  assert (Hx : x = Some n).
  { repeat case_match; by simplify_eq. }
  clear H. subst x. destruct (Nat.leb 4 (length fs)); [|done].
  destruct (parseUnsigned64 (field fs 3)) eqn:E'; [|done].
  injection E as ->. by eapply parseUnsigned64_bound.
Qed.

Lemma applyVersionedTail_ok fs at_ boot seq t :
  applyVersionedTail fs at_ = Ok (boot, seq, t) ->
  boot = field fs 3 /\ boot <> "" /\ wf_u64 seq.
Proof.
  unfold applyVersionedTail. destruct (negb _ && negb _); [done|].
  destruct (is_empty (field fs 3)) eqn:Hb; [done|]. apply is_empty_true_inv in Hb.
  destruct (parseUnsigned64 (field fs 4)) eqn:Hs; [|done].
  apply parseUnsigned64_bound in Hs.
  intros H. repeat case_match; simplify_eq; auto.
Qed.

Lemma parse_sound_lemma line at_ mono m :
  parse line at_ mono = Ok m -> hall_message_ok m.
Proof.
  intros [_ H]%parse_ok_fields. pose proof (split_plain (trim line)) as Hpl.
  revert H. generalize dependent (split (trim line)). intros fs Hpl.
  unfold parse_fields.
  destruct (bool_decide (upper (field fs 0) = "SENSOR2")) eqn:Hv.
  - rewrite andb_false_r. simpl. intros H. rinv.
    destruct (is_empty (field fs 1)) eqn:Hid; [done|]. apply is_empty_true_inv in Hid.
    rinv. destruct x1 as [[boot seq] t]. rinv.
    match goal with E : applyVersionedTail _ _ = _ |- _ =>
      apply applyVersionedTail_ok in E as (-> & Hne & Hseq) end.
    split; simpl; try done; auto using plain_id_field.
    + by intros n [= <-].
    + intros _. eauto 6 using plain_id_field.
  - destruct (bool_decide (upper (field fs 0) = "SENSOR")) eqn:Ht; [|done].
    rewrite andb_true_l. cbv zeta.
    destruct (Nat.leb 2 (length fs) && isLoRaNodeId (field fs 1)) eqn:Hn; cbv iota.
    + apply andb_prop in Hn as [_ Hn]. apply isLoRaNodeId_upper in Hn.
      intros H. simpl in H. rinv. destruct (is_empty (field fs 2)) eqn:Hid; [done|].
      apply is_empty_true_inv in Hid. rinv.
      destruct (parseUnsigned64 (field fs 4)) eqn:Hs; [|done]. rinv.
      apply parseUnsigned64_bound in Hs.
      split; simpl; try done; auto using plain_id_field.
      * by intros n0 [= <-].
      * intros node [= <-]. split; [done|]. eauto.
    + intros H. simpl in H. rinv. destruct (is_empty (field fs 1)) eqn:Hid; [done|].
      apply is_empty_true_inv in Hid. rinv. destruct x1 as [seq t]. rinv.
      split; simpl; try done; auto using plain_id_field.
      intros n Hn'. eauto using applyOptionalTail_sequence.
Qed.

(** Whatever line arrives, an accepted hall message is well formed: a
    non-empty trimmed sensor id, sequences that fit 64 bits, a boot id and a
    sequence exactly on versioned frames, and a node only from the two known
    nodes together with a sequence. *)
Theorem parse_sound line at_ mono m :
  parse line at_ mono = Ok m -> hall_message_ok m.
Proof. apply parse_sound_lemma. Qed.

(** * Routing between the two parsers *)

Lemma toupper_space c : isspace (toupper c) = isspace c.
Proof. destruct c as [[] [] [] [] [] [] [] []]; reflexivity. Qed.

Lemma sall_upper p s :
  (forall c, p (toupper c) = p c) -> sall p (upper s) = sall p s.
Proof. unfold upper. intros Hp. induction s as [|c s IH]; simpl; [done|]. by rewrite Hp, IH. Qed.

Lemma upper_clean s :
  sall (fun c => negb (isspace c)) (upper s) = true -> trim s = s.
Proof.
  intros H. apply no_space_clean. rewrite <-H. symmetry. apply sall_upper.
  intros c. by rewrite toupper_space.
Qed.

(** The first column of a line that routes to the fire parser. *)
Lemma isFireLine_type line :
  isFireLine line = true ->
  exists fs, split (trim line) = fs /\
    (upper (field fs 0) = "FIRE" \/ upper (field fs 0) = "FIRE2") /\ is_empty (trim line) = false.
Proof.
  unfold isFireLine. destruct (break_on ":" (trim line)) as [[a b]|] eqn:E; [|done].
  assert (Hne : trim line <> "") by (intros H; by rewrite H in E).
  intros H. assert (Ha : upper a = "FIRE" \/ upper a = "FIRE2").
  { apply orb_prop in H as [H|H]; apply bool_decide_eq_true_1 in H; auto. }
  eexists. split; [done|]. unfold split, field. rewrite getline_fields_break, E by done.
  rewrite fmap_cons. simpl. rewrite (upper_clean a) by (destruct Ha as [-> | ->]; done).
  by rewrite is_empty_false.
Qed.

(** The two parsers never claim the same line: a line routed to the
    fire parser is refused by the hall parser as an unsupported type, and no line
    at all is accepted both as a hall message and as a fire message. *)
Theorem routing_disjoint {double} (from_chars : string -> option (double * string))
    line at_ mono :
  (isFireLine line = true -> parse line at_ mono = Err "unsupported sensor message type") /\
  (forall m fm, parse line at_ mono = Ok m -> parseFire from_chars line at_ <> Ok fm).
Proof.
  split.
  - intros (fs & Hfs & Ht & He)%isFireLine_type. unfold parse. rewrite He, Hfs.
    destruct fs as [|f fs]; [done|]. unfold parse_fields.
    by destruct Ht as [-> | ->].
  - intros m fm [_ H]%parse_ok_fields. unfold parseFire.
    destruct (is_empty (trim line)); [done|]. destruct (split (trim line)) as [|f fs]; [done|].
    revert H. unfold parse_fields, parseFire_fields.
    destruct (bool_decide (upper (field (f :: fs) 0) = "SENSOR")) eqn:H1;
    destruct (bool_decide (upper (field (f :: fs) 0) = "SENSOR2")) eqn:H2; split_bool;
      try rewrite H1; try rewrite H2; simpl; done.
Qed.

(** The converse routing fails on one kind of line: the fire parser trims the
    columns, the router does not. *)
Example fire_line_with_blank_not_routed :
  isFireLine "FIRE :H01:DETECTED" = false /\
  exists m, parseFire (fun _ : string => @None (unit * string)) "FIRE :H01:DETECTED" 0 = Ok m.
Proof. split; [reflexivity|]. eexists. vm_compute. reflexivity. Qed.

(** * Time stamps *)

(** The frame's unix time is carried to the message exactly up to
    9223372036854 ms and never beyond: larger values pass the parser's range
    check (which compares with the range of [milliseconds]) and wrap around in
    the clock's nanosecond representation. *)
Theorem parse_time_exact id st seq ms at_ mono :
  wf_frame (HallSeq id st seq) -> Z.of_N ms <= int64_max ->
  exists m, parse (render (HallSeqTime id st seq ms)) at_ mono = Ok m /\
    (spm_occurredAt m = millis_ns ms <-> (ms <= 9223372036854)%N).
Proof.
  intros [[[Hid Hne] Hnode] Hseq] Hms.
  exists (mkSensorProtocolMessage id st (time_point_of_millis (Z.of_N ms)) (Some seq) LegacyV1
            None "text-test" None mono). split.
  - change (render (HallSeqTime id st seq ms)) with
      (String.concat ":" ("SENSOR" :: [id; state_name st; pretty seq] ++ [pretty ms])).
    rewrite parse_concat by auto 8 using pretty_N_nonempty, Forall_cons_2, Forall_nil_2 with pi.
    assert (Hr : bool_decide (int64_max < Z.of_N ms) = false)
      by (apply bool_decide_eq_false_2; lia).
    assert (Hu : (ms <= uint64_max)%N) by (unfold int64_max, uint64_max in *; lia).
    destruct st; unfold parse_fields, applyOptionalTail, field; simpl;
      rewrite Hnode; simpl; rewrite is_empty_false by done; simpl;
      rewrite parseUnsigned64_pretty by done; simpl;
      rewrite parseUnsigned64_pretty by done; simpl; rewrite Hr; done.
  - simpl. unfold millis_ns. rewrite time_point_of_millis_exact by lia. lia.
Qed.

(** * Witnesses *)

Definition sample_frame : hall_frame := HallNode "stm1" "H07" Occupied 42.

Lemma parse_render_witness :
  wf_frame sample_frame /\
  parse (render sample_frame) 5 6 = Ok (frame_message sample_frame 5 6).
Proof.
  assert (H : wf_frame sample_frame) by (vm_compute; intuition congruence).
  split; [exact H | exact (parse_render sample_frame 5 6 H)].
Defined.

Lemma parse_sound_witness :
  hall_message_ok (frame_message sample_frame 5 6).
Proof.
  apply (parse_sound "SENSOR:stm1:H07:OCCUPIED:42" 5 6). vm_compute. reflexivity.
Defined.

Lemma parse_time_exact_witness :
  exists m, parse (render (HallSeqTime "H1" Vacant 1 9223372036855)) 5 6 = Ok m /\
    (spm_occurredAt m = millis_ns 9223372036855 <-> (9223372036855 <= 9223372036854)%N).
Proof.
  apply (parse_time_exact "H1" Vacant 1 9223372036855); vm_compute; intuition congruence.
Defined.
