(* ===== verification/SequencePolicy.v ===== *)
(** The acceptance policy for sensor sequence numbers and boot epochs
    ([include/sensor/SensorSequencePolicy.hpp]) and its in-memory per-sensor guard
    ([src/parking/ParkingSensorSequenceGuard.cpp]). *)
From S2P Require Import Prelude SensorProtocol.

(** [include/sensor/SensorSequencePolicy.hpp:16-16 kLegacySequenceRebootDropThreshold] *)
Definition kLegacySequenceRebootDropThreshold : N := 1000.

(** [include/sensor/SensorSequencePolicy.hpp:18-22 SensorSequenceMode] *)
Inductive SensorSequenceMode := Unseen | Legacy | Versioned.
#[global] Instance SensorSequenceMode_eq_dec : EqDecision SensorSequenceMode.
Proof. solve_decision. Defined.

(** [include/sensor/SensorSequencePolicy.hpp:24-29 SensorSequenceState] *)
Record SensorSequenceState := mkSensorSequenceState {
  sss_mode : SensorSequenceMode;
  sss_activeBootId : option string;
  sss_lastSequence : option N;
  sss_retiredBootIds : gset string
}.
Definition fresh_sequence : SensorSequenceState := mkSensorSequenceState Unseen None None ∅.

(** [include/sensor/SensorSequencePolicy.hpp:31-35 SensorSequenceFact] *)
Record SensorSequenceFact := mkSensorSequenceFact {
  ssf_protocolVersion : SensorProtocolVersion;
  ssf_bootId : option string;
  ssf_sequence : option N
}.

(** [include/sensor/SensorSequencePolicy.hpp:37-44 SensorSequenceDecisionCode] *)
Inductive SensorSequenceDecisionCode :=
| Accept | Duplicate | Stale | LegacyDowngrade | RetiredBootId | Invalid.
#[global] Instance SensorSequenceDecisionCode_eq_dec : EqDecision SensorSequenceDecisionCode.
Proof. solve_decision. Defined.

(** [include/sensor/SensorSequencePolicy.hpp:46-53 SensorSequenceDecision] *)
Record SensorSequenceDecision := mkSensorSequenceDecision {
  ssd_code : SensorSequenceDecisionCode;
  ssd_reason : string
}.
Definition accepted (d : SensorSequenceDecision) : bool :=
  bool_decide (ssd_code d = Accept).

(** An optional string that is present and not empty. *)
Definition nonempty_option (o : option string) : option string :=
  match o with Some b => if is_empty b then None else Some b | None => None end.

(** [include/sensor/SensorSequencePolicy.hpp:58-84 evaluateSensorSequence] *)
Definition evaluateLegacy (state : SensorSequenceState) (fact : SensorSequenceFact)
    : SensorSequenceDecision :=
  match nonempty_option (ssf_bootId fact) with
  | Some _ => mkSensorSequenceDecision Invalid "legacy frame must not carry a boot ID"
  | None =>
      if bool_decide (sss_mode state = Versioned)
      then mkSensorSequenceDecision LegacyDowngrade "legacy frame rejected after versioned mode"
      else match ssf_sequence fact, sss_lastSequence state with
      | Some sequence, Some lastSequence =>
          if bool_decide (sss_mode state = Unseen) then mkSensorSequenceDecision Accept "" else
          if bool_decide (sequence = lastSequence)
          then mkSensorSequenceDecision Duplicate "duplicate sensor sequence" else
          if bool_decide (sequence < lastSequence)%N then
            if bool_decide (kLegacySequenceRebootDropThreshold < lastSequence - sequence)%N
            then mkSensorSequenceDecision Accept ""
            else mkSensorSequenceDecision Stale "stale sensor sequence"
          else mkSensorSequenceDecision Accept ""
      | _, _ => mkSensorSequenceDecision Accept ""
      end
  end.

(** [include/sensor/SensorSequencePolicy.hpp:86-116 evaluateSensorSequence] *)
Definition evaluateVersioned (state : SensorSequenceState) (fact : SensorSequenceFact)
    : SensorSequenceDecision :=
  match nonempty_option (ssf_bootId fact), ssf_sequence fact with
  | Some bootId, Some sequence =>
      if bool_decide (bootId ∈ sss_retiredBootIds state)
      then mkSensorSequenceDecision RetiredBootId "retired boot ID rejected" else
      if negb (bool_decide (sss_mode state = Versioned))
      then mkSensorSequenceDecision Accept "" else
      match nonempty_option (sss_activeBootId state), sss_lastSequence state with
      | Some activeBootId, Some lastSequence =>
          if negb (bool_decide (bootId = activeBootId))
          then mkSensorSequenceDecision Accept "" else
          if bool_decide (sequence = lastSequence)
          then mkSensorSequenceDecision Duplicate
                 "duplicate sensor sequence in active boot epoch" else
          if bool_decide (sequence < lastSequence)%N
          then mkSensorSequenceDecision Stale "stale sensor sequence in active boot epoch"
          else mkSensorSequenceDecision Accept ""
      | _, _ => mkSensorSequenceDecision Invalid "stored versioned cursor is incomplete"
      end
  | _, _ =>
      mkSensorSequenceDecision Invalid "versioned frame requires boot ID and sequence"
  end.

(** [include/sensor/SensorSequencePolicy.hpp:55-57 evaluateSensorSequence] *)
Definition evaluateSensorSequence (state : SensorSequenceState) (fact : SensorSequenceFact)
    : SensorSequenceDecision :=
  match ssf_protocolVersion fact with
  | LegacyV1 => evaluateLegacy state fact
  | BootEpochV2 => evaluateVersioned state fact
  end.

(** [include/sensor/SensorSequencePolicy.hpp:119-136 commitSensorSequence] *)
Definition commitSensorSequence (state : SensorSequenceState) (fact : SensorSequenceFact)
    : SensorSequenceState :=
  match ssf_protocolVersion fact with
  | LegacyV1 =>
      mkSensorSequenceState Legacy None
        (match ssf_sequence fact with Some n => Some n | None => sss_lastSequence state end)
        (sss_retiredBootIds state)
  | BootEpochV2 =>
      let retired :=
        match sss_activeBootId state, ssf_bootId fact with
        | Some active, Some boot =>
            if bool_decide (sss_mode state = Versioned) && negb (bool_decide (active = boot))
            then {[ active ]} ∪ sss_retiredBootIds state
            else sss_retiredBootIds state
        | _, _ => sss_retiredBootIds state
        end in
      mkSensorSequenceState Versioned (ssf_bootId fact) (ssf_sequence fact) retired
  end.

(** * The guard of the parking domain *)

(** [include/parking/ParkingSensorEvent.hpp:17-37 ParkingSensorEvent] *)
Record ParkingSensorEvent := mkParkingSensorEvent {
  pse_slotId : string;
  pse_sensorId : string;
  pse_state : ParkingSensorState;
  pse_occurredAt : time_point;
  pse_sourceSequence : option N;
  pse_sourceProtocolVersion : SensorProtocolVersion;
  pse_sourceBootId : option string;
  pse_sourceTransport : string;
  pse_receivedMonotonic : time_point
}.

(** The map [stateBySensor_] of [ParkingSensorSequenceGuard]. *)
Abbreviation ParkingSensorSequenceGuard := (gmap string SensorSequenceState).

Definition fact_of_event (event : ParkingSensorEvent) : SensorSequenceFact :=
  mkSensorSequenceFact (pse_sourceProtocolVersion event) (pse_sourceBootId event)
    (pse_sourceSequence event).

(** [src/parking/ParkingSensorSequenceGuard.cpp:5-20 ParkingSensorSequenceGuard::accept] *)
Definition guard_accept (guard : ParkingSensorSequenceGuard) (event : ParkingSensorEvent)
    : (bool * string) * ParkingSensorSequenceGuard :=
  let state := default fresh_sequence (guard !! pse_sensorId event) in
  let fact := fact_of_event event in
  let decision := evaluateSensorSequence state fact in
  if negb (accepted decision)
  then ((false, ssd_reason decision), <[pse_sensorId event := state]> guard)
  else ((true, ""), <[pse_sensorId event := commitSensorSequence state fact]> guard).

(** [src/parking/ParkingSensorSequenceGuard.cpp:22-25 ParkingSensorSequenceGuard::reset] *)
Definition guard_reset (guard : ParkingSensorSequenceGuard) (sensorId : string)
    : ParkingSensorSequenceGuard := delete sensorId guard.

(** [src/parking/ParkingSensorSequenceGuard.cpp:27-29 ParkingSensorSequenceGuard::clear] *)
Definition guard_clear (guard : ParkingSensorSequenceGuard) : ParkingSensorSequenceGuard := ∅.

(** * Runs of one cursor *)

(** Evaluate, and commit what is accepted. *)
Definition sequence_step (state : SensorSequenceState) (fact : SensorSequenceFact)
    : SensorSequenceState :=
  if accepted (evaluateSensorSequence state fact) then commitSensorSequence state fact else state.

Definition sequence_run : SensorSequenceState -> list SensorSequenceFact -> SensorSequenceState :=
  foldl sequence_step.

(** The facts that a run accepts, in order. *)
Fixpoint accepted_facts (state : SensorSequenceState) (facts : list SensorSequenceFact)
    : list SensorSequenceFact :=
  match facts with
  | [] => []
  | fact :: facts' =>
      let rest := accepted_facts (sequence_step state fact) facts' in
      if accepted (evaluateSensorSequence state fact) then fact :: rest else rest
  end.

(** The identity of a versioned fact. *)
Definition epoch_of (fact : SensorSequenceFact) : option (string * N) :=
  match ssf_protocolVersion fact, ssf_bootId fact, ssf_sequence fact with
  | BootEpochV2, Some boot, Some n => Some (boot, n)
  | _, _, _ => None
  end.

(** The invariant of the cursor. *)
Record sequence_ok (state : SensorSequenceState) : Prop := {
  so_versioned : sss_mode state = Versioned ->
    exists boot n, nonempty_option (sss_activeBootId state) = Some boot /\
      sss_activeBootId state = Some boot /\
      sss_lastSequence state = Some n /\ boot ∉ sss_retiredBootIds state;
  so_other : sss_mode state <> Versioned ->
    sss_activeBootId state = None /\ sss_retiredBootIds state = ∅;
  so_unseen : sss_mode state = Unseen -> sss_lastSequence state = None
}.

Lemma accepted_true d : accepted d = true <-> ssd_code d = Accept.
Proof. apply bool_decide_eq_true. Qed.

Lemma nonempty_option_some o b : nonempty_option o = Some b -> o = Some b /\ b <> "".
Proof. destruct o as [[|]|]; simpl; naive_solver. Qed.

(** What acceptance of a legacy fact says. *)
Lemma evaluateLegacy_accept s f :
  ssd_code (evaluateLegacy s f) = Accept <->
  nonempty_option (ssf_bootId f) = None /\ sss_mode s <> Versioned /\
  (forall n l, ssf_sequence f = Some n -> sss_lastSequence s = Some l ->
     sss_mode s = Legacy -> (l < n)%N \/ (n + kLegacySequenceRebootDropThreshold < l)%N).
Proof.
  unfold evaluateLegacy, kLegacySequenceRebootDropThreshold.
  destruct (nonempty_option (ssf_bootId f)); [naive_solver|].
  case_bool_decide as Hm; [naive_solver|].
  destruct (ssf_sequence f) as [n|]; [|naive_solver].
  destruct (sss_lastSequence s) as [l|]; [|naive_solver].
  case_bool_decide as Hu; [split; [intros _|done]; repeat split; congruence|].
  assert (HL : sss_mode s = Legacy) by (destruct (sss_mode s); done).
  repeat case_bool_decide; simpl; split; intros H'; try done; try (repeat split; [done|];
    intros ?? [= <-] [= <-] _; lia).
  - destruct H' as (_ & _ & H'). specialize (H' _ _ eq_refl eq_refl HL). lia.
  - destruct H' as (_ & _ & H'). specialize (H' _ _ eq_refl eq_refl HL). lia.
Qed.

(** What acceptance of a versioned fact says. *)
Lemma evaluateVersioned_accept s f :
  sequence_ok s ->
  ssd_code (evaluateVersioned s f) = Accept <->
  exists boot n, nonempty_option (ssf_bootId f) = Some boot /\ ssf_sequence f = Some n /\
    boot ∉ sss_retiredBootIds s /\
    (sss_mode s = Versioned -> sss_activeBootId s = Some boot ->
     exists l, sss_lastSequence s = Some l /\ (l < n)%N).
Proof.
  intros [Hv _ _]. unfold evaluateVersioned.
  destruct (nonempty_option (ssf_bootId f)) as [boot|]; [|naive_solver].
  destruct (ssf_sequence f) as [n|]; [|naive_solver].
  case_bool_decide as Hr; [naive_solver|].
  case_bool_decide as Hm; simpl; [|naive_solver].
  destruct (Hv Hm) as (a & l & Hne & Ha & Hl & Hnr). rewrite Hne, Hl.
  case_bool_decide as Hb; simpl; [subst|naive_solver].
  repeat case_bool_decide; simpl; split; intros H'; try done; try lia;
    try (destruct H' as (? & ? & [= <-] & [= <-] & _ & H'); destruct (H' Hm Ha) as (? & [= <-] & ?); lia).
  eexists _, _. repeat split; try done. intros _ _. exists l. split; [done|lia].
Qed.

Lemma fresh_sequence_ok : sequence_ok fresh_sequence.
Proof. by split. Qed.

Lemma evaluate_legacy f s :
  ssf_protocolVersion f = LegacyV1 -> evaluateSensorSequence s f = evaluateLegacy s f.
Proof. unfold evaluateSensorSequence. by intros ->. Qed.
Lemma evaluate_versioned f s :
  ssf_protocolVersion f = BootEpochV2 -> evaluateSensorSequence s f = evaluateVersioned s f.
Proof. unfold evaluateSensorSequence. by intros ->. Qed.

Lemma sequence_step_ok s f : sequence_ok s -> sequence_ok (sequence_step s f).
Proof.
  intros Hs. unfold sequence_step. destruct (accepted _) eqn:Ha; [|done].
  apply accepted_true in Ha. unfold commitSensorSequence.
  destruct (ssf_protocolVersion f) eqn:Hp.
  - rewrite evaluate_legacy in Ha by done. apply evaluateLegacy_accept in Ha as (_ & Hm & _).
    split; simpl; try done. intros _. by destruct (so_other s Hs Hm).
  - rewrite evaluate_versioned in Ha by done.
    apply (evaluateVersioned_accept _ _ Hs) in Ha as (boot & n & Hne & Hn & Hr & _).
    destruct (nonempty_option_some _ _ Hne) as [Hb Hbe].
    split; simpl; try done. intros _. rewrite Hb in *. exists boot, n. repeat split; try done.
    destruct (sss_activeBootId s) as [a|]; [|done].
    case_bool_decide; [|done]. case_bool_decide; [done|]. simpl. set_solver.
Qed.

Lemma sequence_run_ok s fs : sequence_ok s -> sequence_ok (sequence_run s fs).
Proof.
  revert s. induction fs as [|f fs IH]; simpl; intros s Hs; [done|].
  by apply IH, sequence_step_ok.
Qed.

(** The facts a cursor has left behind: sequence numbers of retired epochs, and
    the numbers up to the watermark of the active one. *)
Definition passed (s : SensorSequenceState) (e : string * N) : Prop :=
  e.1 ∈ sss_retiredBootIds s \/
  (sss_mode s = Versioned /\ sss_activeBootId s = Some e.1 /\
   exists l, sss_lastSequence s = Some l /\ (e.2 <= l)%N).

Lemma passed_step s f e : sequence_ok s -> passed s e -> passed (sequence_step s f) e.
Proof.
  intros Hs Hpass. unfold sequence_step. destruct (accepted _) eqn:Ha; [|done].
  apply accepted_true in Ha. unfold commitSensorSequence.
  destruct (ssf_protocolVersion f) eqn:Hp.
  - rewrite evaluate_legacy in Ha by done. apply evaluateLegacy_accept in Ha as (_ & Hm & _).
    destruct (so_other s Hs Hm) as [_ Hr]. unfold passed in *. rewrite Hr in *. set_solver.
  - rewrite evaluate_versioned in Ha by done.
    apply (evaluateVersioned_accept _ _ Hs) in Ha as (boot & n & Hne & Hn & Hr & Hlt).
    destruct (nonempty_option_some _ _ Hne) as [Hb _]. rewrite Hb, Hn.
    destruct Hpass as [Hp'|(Hm & Hact & l & Hl & Hle)].
    + left. simpl. destruct (sss_activeBootId s); [|done]. destruct (_ && _); set_solver.
    + unfold passed. simpl. rewrite Hact. rewrite (bool_decide_eq_true_2 _ Hm). simpl.
      case_bool_decide as He; simpl; [|set_solver].
      right. subst boot. destruct (Hlt Hm Hact) as (l' & Hl' & Hlt').
      split; [done|]. split; [done|]. exists n. split; [done|].
      rewrite Hl in Hl'. injection Hl' as <-. lia.
Qed.

Lemma epoch_of_versioned f e :
  epoch_of f = Some e -> ssf_protocolVersion f = BootEpochV2 /\
  ssf_bootId f = Some e.1 /\ ssf_sequence f = Some e.2.
Proof.
  unfold epoch_of. destruct (ssf_protocolVersion f), (ssf_bootId f), (ssf_sequence f);
    try done. by intros [= <-].
Qed.

Lemma accepted_passed s f e :
  sequence_ok s -> accepted (evaluateSensorSequence s f) = true -> epoch_of f = Some e ->
  ~ passed s e /\ passed (sequence_step s f) e.
Proof.
  intros Hs Ha He. unfold sequence_step. rewrite Ha. apply accepted_true in Ha.
  apply epoch_of_versioned in He as (Hp & Hb & Hn).
  rewrite evaluate_versioned in Ha by done.
  apply (evaluateVersioned_accept _ _ Hs) in Ha as (boot & n & Hne & Hn' & Hr & Hlt).
  destruct (nonempty_option_some _ _ Hne) as [Hb' _]. rewrite Hb' in Hb. rewrite Hn' in Hn.
  injection Hb as ->. injection Hn as ->. split.
  - intros [?|(Hm & Hact & l & Hl & Hle)]; [done|].
    destruct (Hlt Hm Hact) as (l' & Hl' & Hlt'). rewrite Hl in Hl'. injection Hl' as ->. lia.
  - right. unfold commitSensorSequence. rewrite Hp, Hn', Hb'. simpl.
    split; [done|]. split; [done|]. eauto.
Qed.

Lemma accepted_facts_not_passed s fs f e :
  sequence_ok s -> passed s e -> f ∈ accepted_facts s fs -> epoch_of f <> Some e.
Proof.
  revert s. induction fs as [|g fs IH]; simpl; intros s Hs Hp Hin He; [by apply elem_of_nil in Hin|].
  destruct (accepted _) eqn:Ha.
  - apply elem_of_cons in Hin as [->|Hin].
    + by destruct (accepted_passed s g e Hs Ha He).
    + eapply IH; [| |exact Hin|exact He]; [by apply sequence_step_ok|by apply passed_step].
  - eapply IH; [| |exact Hin|exact He]; [by apply sequence_step_ok|by apply passed_step].
Qed.

(** A versioned frame is accepted at most once: along any sequence of
    facts, from any reachable cursor, the accepted (boot id, sequence) pairs are
    pairwise distinct. Replays, reordered frames and frames of a retired boot
    epoch never get through a second time. *)
Theorem accepted_epochs_NoDup history facts :
  NoDup (omap epoch_of (accepted_facts (sequence_run fresh_sequence history) facts)).
Proof.
  assert (H : forall s, sequence_ok s -> NoDup (omap epoch_of (accepted_facts s facts))).
  { induction facts as [|f fs IH]; simpl; intros s Hs; [constructor|].
    destruct (accepted _) eqn:Ha; [|by apply IH, sequence_step_ok].
    simpl. destruct (epoch_of f) as [e|] eqn:He; [|by apply IH, sequence_step_ok].
    constructor; [|by apply IH, sequence_step_ok].
    intros (g & Hg & Hge)%list_elem_of_omap.
    destruct (accepted_passed s f e Hs Ha He) as [_ Hp].
    by apply (accepted_facts_not_passed (sequence_step s f) fs g e (sequence_step_ok s f Hs)). }
  apply H, sequence_run_ok, fresh_sequence_ok.
Qed.

Lemma retired_mono s fs :
  sequence_ok s -> sss_retiredBootIds s ⊆ sss_retiredBootIds (sequence_run s fs).
Proof.
  revert s. induction fs as [|f fs IH]; simpl; intros s Hs; [done|].
  etrans; [|apply IH, sequence_step_ok, Hs].
  unfold sequence_step. destruct (accepted _); [|done].
  unfold commitSensorSequence. destruct (ssf_protocolVersion f); simpl; [done|].
  destruct (sss_activeBootId s), (ssf_bootId f); try done. destruct (_ && _); set_solver.
Qed.

Lemma versioned_stays s fs :
  sequence_ok s -> sss_mode s = Versioned -> sss_mode (sequence_run s fs) = Versioned.
Proof.
  revert s. induction fs as [|f fs IH]; simpl; intros s Hs Hm; [done|].
  apply IH; [by apply sequence_step_ok|].
  unfold sequence_step. destruct (accepted _) eqn:Ha; [|done].
  unfold commitSensorSequence. destruct (ssf_protocolVersion f) eqn:Hp; [|done].
  apply accepted_true in Ha. rewrite evaluate_legacy in Ha by done.
  by apply evaluateLegacy_accept in Ha as (_ & ? & _).
Qed.

(** The versioned mode is one-way: once a cursor has accepted a versioned
    frame, every later legacy frame is refused as a downgrade whatever its
    sequence, whatever arrived in between. *)
Theorem no_legacy_downgrade history later f :
  sss_mode (sequence_run fresh_sequence history) = Versioned ->
  ssf_protocolVersion f = LegacyV1 -> nonempty_option (ssf_bootId f) = None ->
  ssd_code (evaluateSensorSequence (sequence_run fresh_sequence (history ++ later)) f)
    = LegacyDowngrade.
Proof.
  intros Hm Hp Hb. unfold sequence_run. rewrite foldl_app.
  pose proof (versioned_stays _ later (sequence_run_ok _ history fresh_sequence_ok) Hm) as H.
  rewrite evaluate_legacy by done. unfold evaluateLegacy.
  rewrite Hb, (bool_decide_eq_true_2 _ H). done.
Qed.

(** * The guard *)

Definition guard_run (g : ParkingSensorSequenceGuard) (es : list ParkingSensorEvent) :=
  foldl (fun g e => (guard_accept g e).2) g es.

Definition events_of (sensorId : string) (es : list ParkingSensorEvent) :=
  List.filter (fun e => bool_decide (pse_sensorId e = sensorId)) es.

Lemma guard_accept_lookup g e s :
  default fresh_sequence ((guard_accept g e).2 !! s) =
  if bool_decide (pse_sensorId e = s)
  then sequence_step (default fresh_sequence (g !! s)) (fact_of_event e)
  else default fresh_sequence (g !! s).
Proof.
  unfold guard_accept, sequence_step. case_bool_decide as Hs.
  - subst s. destruct (accepted _); simpl; by rewrite lookup_insert_eq.
  - destruct (accepted _); simpl; by rewrite lookup_insert_ne.
Qed.

(** The guard is a family of independent cursors: what it holds for
    a sensor after any interleaving of events is the run of that sensor's own
    events alone, and its verdict is the policy's verdict on that run. *)
Theorem guard_run_refines es sensorId e :
  let cursor := sequence_run fresh_sequence (map fact_of_event (events_of sensorId es)) in
  default fresh_sequence (guard_run ∅ es !! sensorId) = cursor /\
  (pse_sensorId e = sensorId ->
   (guard_accept (guard_run ∅ es) e).1.1
     = accepted (evaluateSensorSequence cursor (fact_of_event e))).
Proof.
  cbv zeta.
  assert (H : forall g, default fresh_sequence (guard_run g es !! sensorId) =
    sequence_run (default fresh_sequence (g !! sensorId))
      (map fact_of_event (events_of sensorId es))).
  { induction es as [|e' es IH]; simpl; intros g; [done|].
    unfold guard_run in *. simpl. rewrite IH, guard_accept_lookup.
    by case_bool_decide. }
  split; [by rewrite H, lookup_empty|].
  intros He. unfold guard_accept. rewrite He, H, lookup_empty. simpl.
  by destruct (accepted _).
Qed.

(** * The parser feeds the guard only well-formed facts *)

Definition fact_of_message (m : SensorProtocolMessage) : SensorSequenceFact :=
  mkSensorSequenceFact (spm_protocolVersion m) (spm_bootId m) (spm_sequence m).

Lemma evaluate_not_invalid s f :
  sequence_ok s ->
  (ssf_protocolVersion f = LegacyV1 -> ssf_bootId f = None) ->
  (ssf_protocolVersion f = BootEpochV2 ->
   exists b n, ssf_bootId f = Some b /\ b <> "" /\ ssf_sequence f = Some n) ->
  ssd_code (evaluateSensorSequence s f) <> Invalid.
Proof.
  intros Hs HL HV. unfold evaluateSensorSequence. destruct (ssf_protocolVersion f).
  - unfold evaluateLegacy. rewrite HL by done. simpl. by repeat case_match.
  - destruct HV as (b & n & Hb & Hne & Hn); [done|]. unfold evaluateVersioned.
    assert (nonempty_option (ssf_bootId f) = Some b) as -> by (rewrite Hb; by destruct b).
    rewrite Hn. case_bool_decide; [done|]. case_bool_decide as Hm; [|done]. simpl.
    destruct (so_versioned s Hs Hm) as (a & l & -> & _ & -> & _).
    by repeat case_bool_decide.
Qed.

(** The parser and the policy fit together: a line the parser accepts
    never leads to an [Invalid] verdict, so neither the frame checks nor the
    stored-cursor check of the policy can fire on a reachable cursor. *)
Theorem parsed_never_invalid line at_ mono m history :
  parse line at_ mono = Ok m ->
  ssd_code (evaluateSensorSequence (sequence_run fresh_sequence history) (fact_of_message m))
    <> Invalid.
Proof.
  intros [_ _ HL HV _]%parse_sound_lemma. apply evaluate_not_invalid.
  - apply sequence_run_ok, fresh_sequence_ok.
  - done.
  - intros Hp. destruct (HV Hp) as (b & n & Hb & [_ Hne] & Hn). eauto.
Qed.

(** * Witnesses *)

Definition v2 (boot : string) (n : N) : SensorSequenceFact :=
  mkSensorSequenceFact BootEpochV2 (Some boot) (Some n).
Definition v1 (n : N) : SensorSequenceFact := mkSensorSequenceFact LegacyV1 None (Some n).

Example replay_sample :
  omap epoch_of (accepted_facts fresh_sequence
    [v1 5; v2 "A" 1; v2 "A" 2; v2 "A" 1; v2 "B" 1; v2 "A" 3; v2 "B" 1; v2 "B" 2])
  = [("A", 1%N); ("A", 2%N); ("B", 1%N); ("B", 2%N)].
Proof. vm_compute. reflexivity. Qed.

Lemma no_legacy_downgrade_witness :
  ssd_code (evaluateSensorSequence (sequence_run fresh_sequence ([v2 "A" 1] ++ [v2 "B" 1])) (v1 9))
    = LegacyDowngrade.
Proof. apply no_legacy_downgrade; reflexivity. Defined.

Lemma parsed_never_invalid_witness :
  ssd_code (evaluateSensorSequence (sequence_run fresh_sequence [v2 "A" 1])
     (fact_of_message (frame_message sample_frame 5 6))) <> Invalid.
Proof.
  apply (parsed_never_invalid "SENSOR:stm1:H07:OCCUPIED:42" 5 6). vm_compute. reflexivity.
Defined.
