(* ===== verification/SlotConfig.v ===== *)
(** The parking slot configuration: its loader ([src/parking/ParkingSlotConfig.cpp]),
    the sensor-to-slot index ([src/parking/SensorSlotIndex.cpp]) and the adapter from
    sensor messages to parking events ([src/sensor/ParkingSensorEventAdapter.cpp]). *)
From S2P Require Import Prelude SensorProtocol SequencePolicy.

(** [include/parking/ParkingSlotConfig.hpp:8-14 SlotObservationBinding] *)
Record SlotObservationBinding := mkSlotObservationBinding {
  sob_cameraId : string;
  sob_videoSourceToken : string;
  sob_ruleName : string;
  sob_enabled : bool;
  sob_priority : Z
}.

(** [include/parking/ParkingSlotConfig.hpp:16-22 ParkingSlotConfig] *)
Record ParkingSlotConfig := mkParkingSlotConfig {
  psc_slotId : string;
  psc_enabled : bool;
  psc_zoneType : string;
  psc_sensorId : string;
  psc_cameraBindings : list SlotObservationBinding
}.

(** * JSON values, as the JSON library presents them *)

#[warnings="-register-all"]
Inductive json :=
| JNull
| JBool (b : bool)
| JInteger (z : Z)
| JFloat (text : string)
| JString (s : string)
| JArray (elements : list json)
| JObject (members : list (string * json)).

Definition json_find (object : json) (key : string) : option json :=
  match object with
  | JObject members => snd <$> List.find (fun kv => bool_decide (kv.1 = key)) members
  | _ => None
  end.
Definition is_object (j : json) : bool := match j with JObject _ => true | _ => false end.

(** The two's complement reading of the low 32 bits ([get<int>]). *)
Definition wrap_int32 (z : Z) : Z := (z + 2 ^ 31) `mod` 2 ^ 32 - 2 ^ 31.

Definition str_cat (ss : list string) : string := String.concat "" ss.

(** [src/parking/ParkingSlotConfig.cpp:27-44 requiredString] *)
Definition requiredString (object : json) (key context : string) : result string string :=
  match json_find object key with
  | Some (JString value) =>
      if is_empty value
      then Err (str_cat [context; ": field '"; key; "' must not be empty"])
      else Ok value
  | _ => Err (str_cat [context; ": field '"; key; "' must be a string"])
  end.

(** [src/parking/ParkingSlotConfig.cpp:46-60 optionalString] *)
Definition optionalString (object : json) (key fallback context : string)
    : result string string :=
  match json_find object key with
  | None | Some JNull => Ok fallback
  | Some (JString value) => Ok value
  | Some _ => Err (str_cat [context; ": field '"; key; "' must be a string"])
  end.

(** [src/parking/ParkingSlotConfig.cpp:62-76 optionalBool] *)
Definition optionalBool (object : json) (key : string) (fallback : bool) (context : string)
    : result string bool :=
  match json_find object key with
  | None | Some JNull => Ok fallback
  | Some (JBool value) => Ok value
  | Some _ => Err (str_cat [context; ": field '"; key; "' must be a boolean"])
  end.

(** [src/parking/ParkingSlotConfig.cpp:78-92 optionalInt] *)
Definition optionalInt (object : json) (key : string) (fallback : Z) (context : string)
    : result string Z :=
  match json_find object key with
  | None | Some JNull => Ok fallback
  | Some (JInteger value) => Ok (wrap_int32 value)
  | Some _ => Err (str_cat [context; ": field '"; key; "' must be an integer"])
  end.

(** [src/parking/ParkingSlotConfig.cpp:94-109 parseBinding] *)
Definition parseBinding (object : json) (context : string)
    : result string SlotObservationBinding :=
  if negb (is_object object) then Err (str_cat [context; " must be an object"]) else
  let? cameraId := requiredString object "camera_id" context in
  let? videoSourceToken := requiredString object "video_source_token" context in
  let? ruleName := requiredString object "rule_name" context in
  let? enabled := optionalBool object "enabled" true context in
  let? priority := optionalInt object "priority" 0 context in
  Ok (mkSlotObservationBinding cameraId videoSourceToken ruleName enabled priority).

Definition newline : string := String (ascii_of_nat 10) "".

Definition binding_key (b : SlotObservationBinding) : string :=
  str_cat [sob_cameraId b; newline; sob_videoSourceToken b; newline; sob_ruleName b].

(** [src/parking/ParkingSlotConfig.cpp:132-155 parseSlot] *)
Fixpoint parse_bindings (context : string) (index : N) (keys : gset string)
    (elements : list json) : result string (list SlotObservationBinding) :=
  match elements with
  | [] => Ok []
  | element :: elements' =>
      let bindingContext := str_cat [context; ".camera_bindings["; pretty index; "]"] in
      let? binding := parseBinding element bindingContext in
      if bool_decide (binding_key binding ∈ keys)
      then Err (str_cat [bindingContext; ": duplicate camera/token/rule binding"])
      else
        let? rest := parse_bindings context (index + 1)%N ({[ binding_key binding ]} ∪ keys)
                       elements' in
        Ok (binding :: rest)
  end.

(** [src/parking/ParkingSlotConfig.cpp:111-164 parseSlot] *)
Definition parseSlot (object : json) (index : N) : result string ParkingSlotConfig :=
  let context := str_cat ["slots["; pretty index; "]"] in
  if negb (is_object object) then Err (str_cat [context; " must be an object"]) else
  let? slotId := requiredString object "slot_id" context in
  let? enabled := optionalBool object "enabled" false context in
  let? zoneType := optionalString object "zone_type" "unassigned" context in
  let? sensorId := optionalString object "sensor_id" "" context in
  let? cameraBindings :=
    match json_find object "camera_bindings" with
    | None | Some JNull => Ok []
    | Some (JArray elements) => parse_bindings context 0 ∅ elements
    | Some _ => Err (str_cat [context; ": field 'camera_bindings' must be an array"])
    end in
  if enabled && is_empty sensorId
  then Err (str_cat [context; ": enabled slot requires non-empty sensor_id"])
  else Ok (mkParkingSlotConfig slotId enabled zoneType sensorId cameraBindings).

(** [src/parking/ParkingSlotConfig.cpp:195-219 ParkingSlotConfigLoader::parse] *)
Fixpoint parse_slots (index : N) (slotIds enabledSensorIds : gset string)
    (elements : list json) : result string (list ParkingSlotConfig) :=
  match elements with
  | [] => Ok []
  | element :: elements' =>
      let? config := parseSlot element index in
      if bool_decide (psc_slotId config ∈ slotIds)
      then Err (str_cat ["duplicate slot_id: "; psc_slotId config]) else
      if psc_enabled config && bool_decide (psc_sensorId config ∈ enabledSensorIds)
      then Err (str_cat ["duplicate sensor_id among enabled slots: "; psc_sensorId config])
      else
        let enabledSensorIds' :=
          if psc_enabled config then {[ psc_sensorId config ]} ∪ enabledSensorIds
          else enabledSensorIds in
        let? rest := parse_slots (index + 1)%N ({[ psc_slotId config ]} ∪ slotIds)
                       enabledSensorIds' elements' in
        Ok (config :: rest)
  end.

(** [src/parking/ParkingSlotConfig.cpp:173-220 ParkingSlotConfigLoader::parse] *)
Definition parse_slot_config (Json_parse : string -> result string json) (jsonText : string)
    : result string (list ParkingSlotConfig) :=
  if is_empty jsonText then Err "parking slot config is empty" else
  let? root := Json_parse jsonText in
  if negb (is_object root) then Err "parking slot config root must be an object" else
  match json_find root "slots" with
  | Some (JArray []) => Err "parking slot config must contain at least one slot"
  | Some (JArray elements) => parse_slots 0 ∅ ∅ elements
  | _ => Err "parking slot config field 'slots' must be an array"
  end.

(** * The index and the adapter *)

(** [include/parking/SensorSlotIndex.hpp:12-15 SensorSlotMatch] *)
Record SensorSlotMatch := mkSensorSlotMatch { ssm_slotId : string; ssm_sensorId : string }.

(** [src/parking/SensorSlotIndex.cpp:7-32 SensorSlotIndex::SensorSlotIndex] *)
Fixpoint build_index (bySensorId : gmap string SensorSlotMatch)
    (configs : list ParkingSlotConfig) : result string (gmap string SensorSlotMatch) :=
  match configs with
  | [] => Ok bySensorId
  | config :: configs' =>
      if negb (psc_enabled config) then build_index bySensorId configs' else
      if is_empty (psc_sensorId config)
      then Err (str_cat ["enabled slot has an empty sensor id: "; psc_slotId config]) else
      match bySensorId !! psc_sensorId config with
      | Some _ => Err (str_cat ["duplicate enabled sensor id: "; psc_sensorId config])
      | None =>
          build_index
            (<[psc_sensorId config :=
                 mkSensorSlotMatch (psc_slotId config) (psc_sensorId config)]> bySensorId)
            configs'
      end
  end.
Definition SensorSlotIndex (configs : list ParkingSlotConfig) := build_index ∅ configs.

(** [src/parking/SensorSlotIndex.cpp:34-41 SensorSlotIndex::findBySensorId] *)
Definition findBySensorId (index : gmap string SensorSlotMatch) (sensorId : string)
    : option SensorSlotMatch := index !! sensorId.

(** [src/parking/SensorSlotIndex.cpp:43-45 SensorSlotIndex::size] *)
Definition index_size (index : gmap string SensorSlotMatch) : nat := size index.

(** [src/sensor/ParkingSensorEventAdapter.cpp:10-35 ParkingSensorEventAdapter::adapt] *)
Definition adapt (slotIndex : gmap string SensorSlotMatch) (message : SensorProtocolMessage)
    : result string ParkingSensorEvent :=
  match findBySensorId slotIndex (spm_sensorId message) with
  | None => Err "sensor id is not mapped to an enabled slot"
  | Some m =>
      Ok {| pse_slotId := ssm_slotId m;
            pse_sensorId := spm_sensorId message;
            pse_state := spm_state message;
            pse_occurredAt := spm_occurredAt message;
            pse_sourceSequence := spm_sequence message;
            pse_sourceProtocolVersion := spm_protocolVersion message;
            pse_sourceBootId := spm_bootId message;
            pse_sourceTransport := spm_transport message;
            pse_receivedMonotonic := spm_receivedMonotonic message |}
  end.

(** * What a loaded configuration guarantees *)

Definition enabled_sensors (cs : list ParkingSlotConfig) : list string :=
  psc_sensorId <$> List.filter psc_enabled cs.

Definition slot_ok (c : ParkingSlotConfig) : Prop :=
  psc_slotId c <> "" /\ (psc_enabled c = true -> psc_sensorId c <> "") /\
  Forall (fun b => sob_cameraId b <> "" /\ sob_videoSourceToken b <> "" /\ sob_ruleName b <> "")
    (psc_cameraBindings c) /\
  NoDup (binding_key <$> psc_cameraBindings c).

Record config_ok (cs : list ParkingSlotConfig) : Prop := {
  co_slots : Forall slot_ok cs;
  co_slotIds : NoDup (psc_slotId <$> cs);
  co_sensors : NoDup (enabled_sensors cs)
}.

Lemma requiredString_nonempty o k c v : requiredString o k c = Ok v -> v <> "".
Proof.
  unfold requiredString. destruct (json_find o k) as [[]|]; try done.
  destruct (is_empty s) eqn:E; [done|]. intros [= <-]. by apply is_empty_true_inv.
Qed.

Lemma parse_bindings_ok context elements index keys bs :
  parse_bindings context index keys elements = Ok bs ->
  Forall (fun b => sob_cameraId b <> "" /\ sob_videoSourceToken b <> "" /\ sob_ruleName b <> "") bs
  /\ NoDup (binding_key <$> bs) /\ Forall (fun b => binding_key b ∉ keys) bs.
Proof.
  revert index keys bs. induction elements as [|e es IH]; simpl; intros index keys bs H; rinv.
  { repeat split; constructor. }
  case_bool_decide as Hk; [done|]. rinv.
  match goal with E : parse_bindings _ _ _ es = Ok _ |- _ => apply IH in E as (Hf & Hn & Hd) end.
  match goal with E : parseBinding _ _ = Ok _ |- _ =>
    unfold parseBinding in E; destruct (negb (is_object e)); [done|]; rinv end.
  rewrite fmap_cons. split; [|split].
  - constructor; [|done]. simpl. split_and!; by eapply requiredString_nonempty.
  - constructor; [|done]. intros (b & Hb & Hin)%list_elem_of_fmap.
    rewrite Forall_elem in Hd. specialize (Hd b Hin). rewrite <-Hb in Hd. set_solver.
  - constructor; [done|]. eapply Forall_impl; [exact Hd|]. simpl. set_solver.
Qed.

Lemma parseSlot_ok o i c : parseSlot o i = Ok c -> slot_ok c.
Proof.
  unfold parseSlot. destruct (negb (is_object o)); [done|]. intros H. rinv.
  destruct (_ && is_empty _) eqn:He; [done|]. rinv. unfold slot_ok. simpl.
  split; [by eapply requiredString_nonempty|]. split.
  - intros ->. by apply is_empty_true_inv.
  - match goal with E : match json_find o "camera_bindings" with _ => _ end = Ok ?b |- _ =>
      destruct (json_find o "camera_bindings") as [[]|]; try done;
      try (injection E as <-; repeat constructor) end.
    apply parse_bindings_ok in E3 as (? & ? & _). done.
Qed.

Lemma parse_slots_ok elements index slotIds sensors cs :
  parse_slots index slotIds sensors elements = Ok cs ->
  Forall slot_ok cs /\ NoDup (psc_slotId <$> cs) /\ NoDup (enabled_sensors cs) /\
  Forall (fun c => psc_slotId c ∉ slotIds) cs /\ Forall (fun s => s ∉ sensors) (enabled_sensors cs).
Proof.
  revert index slotIds sensors cs. unfold enabled_sensors.
  induction elements as [|e es IH]; simpl; intros index slotIds sensors cs H; rinv.
  { repeat split; constructor. }
  case_bool_decide as Hs; [done|].
  destruct (psc_enabled x && bool_decide (psc_sensorId x ∈ sensors)) eqn:Hen; [done|]. rinv.
  apply parseSlot_ok in E. apply IH in E0 as (H1 & H2 & H3 & H4 & H5).
  assert (Hfresh : psc_slotId x ∉ psc_slotId <$> x0).
  { intros (c & Hc & Hin)%list_elem_of_fmap. rewrite Forall_elem in H4.
    specialize (H4 c Hin). rewrite <-Hc in H4. set_solver. }
  assert (H4' : Forall (fun c => psc_slotId c ∉ slotIds) (x :: x0)).
  { constructor; [done|]. eapply Forall_impl; [exact H4|]. simpl. set_solver. }
  rewrite fmap_cons. simpl. destruct (psc_enabled x); simpl in Hen.
  - apply bool_decide_eq_false_1 in Hen. rewrite fmap_cons.
    split; [by constructor|]. split; [by constructor|]. split; [|split; [done|]].
    + constructor; [|done]. intros Hin. rewrite Forall_elem in H5. specialize (H5 _ Hin). set_solver.
    + constructor; [done|]. eapply Forall_impl; [exact H5|]. simpl. set_solver.
  - split; [by constructor|]. split; [by constructor|]. done.
Qed.

Lemma parse_slot_config_ok JP text cs : parse_slot_config JP text = Ok cs -> config_ok cs.
Proof.
  unfold parse_slot_config. destruct (is_empty text); [done|]. intros H. rinv.
  destruct (negb (is_object x)); [done|].
  destruct (json_find x "slots") as [[| | | | |[|e es]|]|]; try done.
  apply parse_slots_ok in H as (? & ? & ? & _). by split.
Qed.

Lemma build_index_total cs idx :
  Forall slot_ok cs -> NoDup (enabled_sensors cs) ->
  Forall (fun s => idx !! s = None) (enabled_sensors cs) ->
  exists idx', build_index idx cs = Ok idx' /\
    forall sid m, idx' !! sid = Some m <->
      idx !! sid = Some m \/
      exists c, c ∈ cs /\ psc_enabled c = true /\ psc_sensorId c = sid /\
        m = mkSensorSlotMatch (psc_slotId c) (psc_sensorId c).
Proof.
  unfold enabled_sensors. revert idx. induction cs as [|c cs IH]; simpl; intros idx Hok Hnd Hf.
  { exists idx. split; [done|]. set_solver. }
  apply Forall_cons in Hok as [Hc Hok]. destruct (psc_enabled c) eqn:He; simpl.
  - rewrite fmap_cons in Hnd, Hf. apply NoDup_cons in Hnd as [Hni Hnd].
    apply Forall_cons in Hf as [Hfc Hf].
    destruct Hc as (_ & Hne & _). rewrite is_empty_false by auto. rewrite Hfc.
    destruct (IH (<[psc_sensorId c := mkSensorSlotMatch (psc_slotId c) (psc_sensorId c)]> idx))
      as (idx' & Hb & Hspec); try done.
    { rewrite Forall_elem in Hf |- *. intros s Hin. rewrite lookup_insert_ne; [auto|].
      intros <-. done. }
    exists idx'. split; [done|]. intros sid m. rewrite Hspec, lookup_insert_Some.
    setoid_rewrite elem_of_cons. split.
    + intros [[[<- <-]|[? ?]]|(c' & ? & ? & ? & ?)]; [right; exists c; eauto| by left | right; eauto 6].
    + intros [Hi|(c' & [->|Hin] & ? & <- & ->)]; [|by left; left|right; eauto 6].
      left. right. split; [|done]. intros <-. congruence.
  - destruct (IH idx Hok Hnd Hf) as (idx' & Hb & Hspec). exists idx'. split; [done|].
    intros sid m. rewrite Hspec. setoid_rewrite elem_of_cons. split.
    + intros [?|(c' & ? & ? & ? & ?)]; [by left|right; eauto 6].
    + intros [?|(c' & [->|Hin] & ? & <- & ->)]; [by left|congruence|right; eauto 6].
Qed.

(** A configuration the loader accepts is one the index is built from
    without error, and the index is exactly the enabled slots: a sensor is found
    precisely when it belongs to an enabled slot of the file, with that slot, and
    two different sensors never share a slot. *)
Theorem loaded_config_indexed JP text cs :
  parse_slot_config JP text = Ok cs ->
  config_ok cs /\
  exists index, SensorSlotIndex cs = Ok index /\
    (forall sid m, findBySensorId index sid = Some m <->
       exists c, c ∈ cs /\ psc_enabled c = true /\ psc_sensorId c = sid /\
         m = mkSensorSlotMatch (psc_slotId c) (psc_sensorId c)) /\
    (forall s1 s2 m1 m2, findBySensorId index s1 = Some m1 -> findBySensorId index s2 = Some m2 ->
       ssm_slotId m1 = ssm_slotId m2 -> s1 = s2).
Proof.
  intros Hok%parse_slot_config_ok. split; [done|]. destruct Hok as [Hs Hid Hse].
  destruct (build_index_total cs ∅ Hs Hse) as (idx & Hb & Hspec).
  { apply Forall_elem. intros ? _. apply lookup_empty. }
  exists idx. split; [done|].
  assert (Hspec' : forall sid m, findBySensorId idx sid = Some m <->
    exists c, c ∈ cs /\ psc_enabled c = true /\ psc_sensorId c = sid /\
         m = mkSensorSlotMatch (psc_slotId c) (psc_sensorId c)).
  { intros sid m. unfold findBySensorId. rewrite Hspec, lookup_empty. naive_solver. }
  split; [done|]. intros s1 s2 m1 m2.
  intros (c1 & Hc1 & _ & <- & ->)%Hspec' (c2 & Hc2 & _ & <- & ->)%Hspec'. simpl.
  intros He. by rewrite (NoDup_fmap_inj_on _ _ _ _ Hid Hc1 Hc2 He).
Qed.

(** The adapter keeps the identity of the message: the guard sees the fact the
    parser produced. *)
Lemma adapt_fact index m e :
  adapt index m = Ok e ->
  fact_of_event e = fact_of_message m /\ pse_sensorId e = spm_sensorId m /\
  pse_state e = spm_state m /\
  exists s, findBySensorId index (spm_sensorId m) = Some s /\ pse_slotId e = ssm_slotId s.
Proof.
  unfold adapt. destruct (findBySensorId index (spm_sensorId m)) as [s|]; [|done].
  intros [= <-]. split; [done|]. split; [done|]. split; [done|]. by exists s.
Qed.

(** * Witnesses *)

Definition sample_slot (slot sensor : string) (enabled : bool) : json :=
  JObject [("slot_id", JString slot); ("enabled", JBool enabled);
           ("sensor_id", JString sensor); ("zone_type", JNull);
           ("camera_bindings", JArray [JObject
              [("camera_id", JString "C1"); ("video_source_token", JString "V1");
               ("rule_name", JString slot); ("priority", JInteger 3)]])].
Definition sample_json : json :=
  JObject [("slots", JArray [sample_slot "A1" "H01" true; sample_slot "A2" "H02" true;
                             sample_slot "A3" "" false])].
Definition sample_configs : list ParkingSlotConfig :=
  match parse_slot_config (fun _ => Ok sample_json) "{}" with Ok cs => cs | Err _ => [] end.

Lemma loaded_config_indexed_witness :
  config_ok sample_configs /\ length sample_configs = 3%nat.
Proof.
  split; [|reflexivity].
  apply (loaded_config_indexed (fun _ => Ok sample_json) "{}" sample_configs).
  vm_compute. reflexivity.
Defined.

Example duplicate_sensor_refused :
  parse_slot_config (fun _ => Ok (JObject [("slots",
    JArray [sample_slot "A1" "H01" true; sample_slot "A2" "H01" true])])) "{}"
  = Err "duplicate sensor_id among enabled slots: H01".
Proof. vm_compute. reflexivity. Qed.
