(* ===== verification/Occupancy.v ===== *)
(** In-memory occupancy of the parking slots: sessions
    ([src/parking/ParkingOccupancySession.cpp]), the slot manager
    ([src/parking/ParkingSlotManager.cpp]), the index of active sessions
    ([src/parking/ActiveParkingSessionIndex.cpp]) and the confirmation gate
    ([src/parking/ParkingOccupancyConfirmationGate.cpp]). *)
From S2P Require Import Prelude SensorProtocol SequencePolicy SlotConfig.

(** * Sessions *)

(** [include/parking/ParkingOccupancySession.hpp:10-13 ParkingSessionState] *)
Inductive ParkingSessionState := SessionActive | SessionIsCompleted.
#[global] Instance ParkingSessionState_eq_dec : EqDecision ParkingSessionState.
Proof. solve_decision. Defined.

(** [include/parking/ParkingOccupancySession.hpp:16-56 ParkingOccupancySession] *)
Record ParkingOccupancySession := mkParkingOccupancySession {
  pos_sessionId : string;
  pos_slotId : string;
  pos_sensorId : string;
  pos_state : ParkingSessionState;
  pos_startedAt : time_point;
  pos_startedAtMonotonic : time_point;
  pos_endedAt : option time_point
}.

(** [src/parking/ParkingOccupancySession.cpp:9-29 ParkingOccupancySession::ParkingOccupancySession] *)
Definition new_session (sessionId slotId sensorId : string)
    (startedAt startedAtMonotonic : time_point) : result string ParkingOccupancySession :=
  if is_empty sessionId then Err "parking session id is empty" else
  if is_empty slotId then Err "parking session slot id is empty" else
  if is_empty sensorId then Err "parking session sensor id is empty" else
  Ok (mkParkingOccupancySession sessionId slotId sensorId SessionActive
        startedAt startedAtMonotonic None).

(** [src/parking/ParkingOccupancySession.cpp:51-53 ParkingOccupancySession::active] *)
Definition session_active (s : ParkingOccupancySession) : bool :=
  bool_decide (pos_state s = SessionActive).

(** [src/parking/ParkingOccupancySession.cpp:70-83 ParkingOccupancySession::complete] *)
Definition complete_session (s : ParkingOccupancySession) (endedAt : time_point)
    : result string ParkingOccupancySession :=
  if negb (session_active s) then Err "parking session is already completed" else
  if bool_decide (endedAt < pos_startedAt s)
  then Err "parking session end time precedes start time" else
  Ok (mkParkingOccupancySession (pos_sessionId s) (pos_slotId s) (pos_sensorId s)
        SessionIsCompleted (pos_startedAt s) (pos_startedAtMonotonic s) (Some endedAt)).

(** * The slot manager *)

(** [include/parking/ParkingSlot.hpp:11-21 ParkingSlot] *)
Record ParkingSlot := mkParkingSlot {
  ps_config : ParkingSlotConfig;
  ps_activeSession : option ParkingOccupancySession
}.

(** [include/parking/ParkingSlotManager.hpp:13-22 ParkingTransitionCode] *)
Inductive ParkingTransitionCode :=
| SessionStarted | SessionCompleted | DuplicateOccupiedIgnored | DuplicateVacantIgnored
| UnknownSlot | DisabledSlot | SensorMismatch | InvalidTimestamp.
#[global] Instance ParkingTransitionCode_eq_dec : EqDecision ParkingTransitionCode.
Proof. solve_decision. Defined.

(** [include/parking/ParkingSlotManager.hpp:24-36 ParkingTransitionResult] *)
Record ParkingTransitionResult := mkParkingTransitionResult {
  ptr_code : ParkingTransitionCode;
  ptr_slotId : string;
  ptr_sessionId : string;
  ptr_message : string;
  ptr_session : option ParkingOccupancySession
}.
Definition transition_changed (r : ParkingTransitionResult) : bool :=
  bool_decide (ptr_code r = SessionStarted) || bool_decide (ptr_code r = SessionCompleted).

(** [src/parking/ParkingSlotManager.cpp:181-202 toString] *)
Definition transition_code_name (code : ParkingTransitionCode) : string :=
  match code with
  | SessionStarted => "session_started"
  | SessionCompleted => "session_completed"
  | DuplicateOccupiedIgnored => "duplicate_occupied_ignored"
  | DuplicateVacantIgnored => "duplicate_vacant_ignored"
  | UnknownSlot => "unknown_slot"
  | DisabledSlot => "disabled_slot"
  | SensorMismatch => "sensor_mismatch"
  | InvalidTimestamp => "invalid_timestamp"
  end.

(** The slots together with the process-wide counter [gSessionSequence]. *)
Record ParkingSlotManager := mkParkingSlotManager {
  psm_slots : gmap string ParkingSlot;
  psm_sequence : N
}.

(** [src/parking/ParkingSlotManager.cpp:30-54 ParkingSlotManager::ParkingSlotManager] *)
Fixpoint add_slots (slots : gmap string ParkingSlot) (configs : list ParkingSlotConfig)
    : result string (gmap string ParkingSlot) :=
  match configs with
  | [] => Ok slots
  | config :: configs' =>
      if is_empty (psc_slotId config) then Err "ParkingSlotManager received empty slot id" else
      match slots !! psc_slotId config with
      | Some _ =>
          Err (str_cat ["ParkingSlotManager received duplicate slot id: "; psc_slotId config])
      | None => add_slots (<[psc_slotId config := mkParkingSlot config None]> slots) configs'
      end
  end.
Definition new_manager (sequence : N) (configs : list ParkingSlotConfig)
    : result string ParkingSlotManager :=
  match configs with
  | [] => Err "ParkingSlotManager requires at least one slot"
  | _ => let? slots := add_slots ∅ configs in Ok (mkParkingSlotManager slots sequence)
  end.

(** [src/parking/ParkingSlotManager.cpp:167-179 ParkingSlotManager::createSessionId] *)
Definition createSessionId (slotId : string) (startedAt : time_point) (sequence : N) : string :=
  let millis := Z.quot startedAt 1000000 in
  "park_" +:+ slotId +:+ "_" +:+ pretty millis +:+ "_" +:+ pretty sequence.

Definition next_sequence (n : N) : N := ((n + 1) mod 2 ^ 64)%N.

Definition set_session (m : ParkingSlotManager) (slot : ParkingSlot)
    (session : option ParkingOccupancySession) (slotKey : string) : gmap string ParkingSlot :=
  <[slotKey := mkParkingSlot (ps_config slot) session]> (psm_slots m).

(** [src/parking/ParkingSlotManager.cpp:56-145 ParkingSlotManager::handle] *)
Definition handle (m : ParkingSlotManager) (event : ParkingSensorEvent)
    : result string (ParkingTransitionResult * ParkingSlotManager) :=
  match psm_slots m !! pse_slotId event with
  | None =>
      Ok (mkParkingTransitionResult UnknownSlot (pse_slotId event) "" "unknown slot" None, m)
  | Some slot =>
      let slotId := psc_slotId (ps_config slot) in
      if negb (psc_enabled (ps_config slot)) then
        Ok (mkParkingTransitionResult DisabledSlot slotId "" "slot is disabled" None, m)
      else if is_empty (pse_sensorId event) ||
              negb (bool_decide (pse_sensorId event = psc_sensorId (ps_config slot))) then
        Ok (mkParkingTransitionResult SensorMismatch slotId ""
              "sensor id does not match slot configuration" None, m)
      else
      match pse_state event, ps_activeSession slot with
      | Occupied, Some active =>
          Ok (mkParkingTransitionResult DuplicateOccupiedIgnored slotId
                (pos_sessionId active) "slot is already occupied" (Some active), m)
      | Occupied, None =>
          let sessionId := createSessionId slotId (pse_occurredAt event) (psm_sequence m) in
          let? session := new_session sessionId slotId (pse_sensorId event)
                            (pse_occurredAt event) (pse_receivedMonotonic event) in
          Ok (mkParkingTransitionResult SessionStarted slotId sessionId
                "parking occupancy session started" (Some session),
              mkParkingSlotManager (set_session m slot (Some session) (pse_slotId event))
                (next_sequence (psm_sequence m)))
      | Vacant, None =>
          Ok (mkParkingTransitionResult DuplicateVacantIgnored slotId ""
                "slot is already vacant" None, m)
      | Vacant, Some active =>
          if bool_decide (pse_occurredAt event < pos_startedAt active) then
            Ok (mkParkingTransitionResult InvalidTimestamp slotId (pos_sessionId active)
                  "vacant event time precedes session start" (Some active), m)
          else
            let? completed := complete_session active (pse_occurredAt event) in
            Ok (mkParkingTransitionResult SessionCompleted slotId (pos_sessionId completed)
                  "parking occupancy session completed" (Some completed),
                mkParkingSlotManager (set_session m slot None (pse_slotId event))
                  (psm_sequence m))
      end
  end.

(** [src/parking/ParkingSlotManager.cpp:147-151 ParkingSlotManager::findSlot] *)
Definition findSlot (m : ParkingSlotManager) (slotId : string) : option ParkingSlot :=
  psm_slots m !! slotId.

(** [src/parking/ParkingSlotManager.cpp:153-155 ParkingSlotManager::slotCount] *)
Definition slotCount (m : ParkingSlotManager) : nat := size (psm_slots m).

(** [src/parking/ParkingSlotManager.cpp:157-165 ParkingSlotManager::activeSlotCount] *)
Definition activeSlotCount (m : ParkingSlotManager) : nat :=
  size (filter (fun kv => psc_enabled (ps_config kv.2) = true) (psm_slots m)).

(** * The index of active sessions *)

(** [src/parking/ActiveParkingSessionIndex.cpp:33-42 ActiveParkingSessionIndex::setActive] *)
Definition setActive (bySlotId : gmap string string) (slotId parkingSessionId : string)
    : gmap string string :=
  if is_empty slotId || is_empty parkingSessionId then bySlotId
  else <[slotId := parkingSessionId]> bySlotId.

(** [src/parking/ActiveParkingSessionIndex.cpp:44-60 ActiveParkingSessionIndex::clearActive] *)
Definition clearActive (bySlotId : gmap string string) (slotId expected : string)
    : gmap string string :=
  match bySlotId !! slotId with
  | None => bySlotId
  | Some found =>
      if negb (is_empty expected) && negb (bool_decide (found = expected)) then bySlotId
      else delete slotId bySlotId
  end.

(** [src/parking/ActiveParkingSessionIndex.cpp:8-31 ActiveParkingSessionIndex::apply] *)
Definition index_apply (bySlotId : gmap string string) (transition : ParkingTransitionResult)
    : gmap string string :=
  match ptr_code transition with
  | SessionStarted =>
      if negb (is_empty (ptr_slotId transition)) && negb (is_empty (ptr_sessionId transition))
      then setActive bySlotId (ptr_slotId transition) (ptr_sessionId transition)
      else bySlotId
  | SessionCompleted =>
      if negb (is_empty (ptr_slotId transition))
      then clearActive bySlotId (ptr_slotId transition) (ptr_sessionId transition)
      else bySlotId
  | _ => bySlotId
  end.

(** [src/parking/ActiveParkingSessionIndex.cpp:62-72 ActiveParkingSessionIndex::findActiveSessionId] *)
Definition findActiveSessionId (bySlotId : gmap string string) (slotId : string)
    : option string := bySlotId !! slotId.

(** [src/parking/ActiveParkingSessionIndex.cpp:79-82 ActiveParkingSessionIndex::clear] *)
Definition index_clear (bySlotId : gmap string string) : gmap string string := ∅.

(** * The invariant of the manager *)

Record slot_wf (key : string) (s : ParkingSlot) : Prop := {
  sw_key : psc_slotId (ps_config s) = key;
  sw_nonempty : key <> "";
  sw_session : forall a, ps_activeSession s = Some a ->
    pos_state a = SessionActive /\ pos_slotId a = key /\ pos_sessionId a <> "" /\
    psc_enabled (ps_config s) = true /\ pos_sensorId a = psc_sensorId (ps_config s)
}.
Definition manager_wf (m : ParkingSlotManager) : Prop :=
  map_Forall slot_wf (psm_slots m).

Lemma add_slots_wf slots cs slots' :
  map_Forall slot_wf slots -> add_slots slots cs = Ok slots' -> map_Forall slot_wf slots'.
Proof.
  revert slots. induction cs as [|c cs IH]; simpl; intros slots Hwf H; rinv; [done|].
  destruct (is_empty (psc_slotId c)) eqn:He; [done|].
  destruct (slots !! psc_slotId c) eqn:Hl; [done|].
  eapply IH; [|exact H]. apply map_Forall_insert_2; [|done].
  split; simpl; try done. by apply is_empty_true_inv.
Qed.

Lemma add_slots_vacant slots cs slots' :
  map_Forall (fun _ s => ps_activeSession s = None) slots ->
  add_slots slots cs = Ok slots' -> map_Forall (fun _ s => ps_activeSession s = None) slots'.
Proof.
  revert slots. induction cs as [|c cs IH]; simpl; intros slots Hwf H; rinv; [done|].
  destruct (is_empty (psc_slotId c)) eqn:He; [done|].
  destruct (slots !! psc_slotId c) eqn:Hl; [done|].
  eapply IH; [|exact H]. by apply map_Forall_insert_2.
Qed.

Lemma new_manager_wf n cs m :
  new_manager n cs = Ok m ->
  manager_wf m /\ map_Forall (fun _ s => ps_activeSession s = None) (psm_slots m).
Proof.
  unfold new_manager. destruct cs as [|c cs]; [done|]. intros H. rinv. simpl.
  split; [eapply add_slots_wf|eapply add_slots_vacant]; try done; apply map_Forall_empty.
Qed.

Lemma createSessionId_nonempty s t n : is_empty (createSessionId s t n) = false.
Proof. done. Qed.

Lemma new_session_ok slotId sensorId at_ mono n :
  slotId <> "" -> sensorId <> "" ->
  new_session (createSessionId slotId at_ n) slotId sensorId at_ mono =
  Ok (mkParkingOccupancySession (createSessionId slotId at_ n) slotId sensorId SessionActive
        at_ mono None).
Proof.
  intros H1 H2. unfold new_session.
  by rewrite createSessionId_nonempty, !is_empty_false.
Qed.

(** The events the manager acts on for a slot. *)
Definition relevant (m : ParkingSlotManager) (slot : string) (e : ParkingSensorEvent) : bool :=
  bool_decide (pse_slotId e = slot) &&
  match psm_slots m !! slot with
  | Some s => psc_enabled (ps_config s) && negb (is_empty (pse_sensorId e)) &&
              bool_decide (pse_sensorId e = psc_sensorId (ps_config s))
  | None => false
  end.

(** The abstract state of a slot: vacant, or occupied since an instant by a session. *)
Definition occupancy (m : ParkingSlotManager) (slot : string) : option (string * time_point) :=
  s ← psm_slots m !! slot;
  a ← ps_activeSession s;
  Some (pos_sessionId a, pos_startedAt a).

(** The step of one slot. *)
Definition slot_spec (fresh : string) (st : option (string * time_point))
    (e : ParkingSensorEvent) : option (string * time_point) :=
  match pse_state e, st with
  | Occupied, None => Some (fresh, pse_occurredAt e)
  | Vacant, Some (_, since) => if bool_decide (pse_occurredAt e < since) then st else None
  | _, _ => st
  end.

(** What one event does to a well-formed manager, on every branch. *)
Record handle_spec (m : ParkingSlotManager) (e : ParkingSensorEvent)
    (r : ParkingTransitionResult) (m' : ParkingSlotManager) : Prop := {
  hs_wf : manager_wf m';
  hs_config : forall k, ps_config <$> (psm_slots m' !! k) = ps_config <$> (psm_slots m !! k);
  hs_occupancy : forall k, occupancy m' k =
    if relevant m k e
    then slot_spec (createSessionId k (pse_occurredAt e) (psm_sequence m)) (occupancy m k) e
    else occupancy m k;
  hs_sequence : psm_sequence m' =
    if bool_decide (ptr_code r = SessionStarted) then next_sequence (psm_sequence m)
    else psm_sequence m;
  hs_started : ptr_code r = SessionStarted ->
    ptr_slotId r = pse_slotId e /\ occupancy m (pse_slotId e) = None /\
    ptr_sessionId r = createSessionId (ptr_slotId r) (pse_occurredAt e) (psm_sequence m) /\
    occupancy m' (pse_slotId e) = Some (ptr_sessionId r, pse_occurredAt e);
  hs_completed : ptr_code r = SessionCompleted ->
    ptr_slotId r = pse_slotId e /\ occupancy m' (pse_slotId e) = None /\
    exists s, ptr_session r = Some s /\ pos_state s = SessionIsCompleted /\
      occupancy m (pse_slotId e) = Some (ptr_sessionId r, pos_startedAt s) /\
      pos_sessionId s = ptr_sessionId r /\
      pos_endedAt s = Some (pse_occurredAt e) /\ pos_startedAt s <= pse_occurredAt e;
  hs_unchanged : transition_changed r = false -> m' = m
}.

Lemma occupancy_insert slots seq k s :
  occupancy (mkParkingSlotManager (<[k := s]> slots) seq) k =
  a ← ps_activeSession s; Some (pos_sessionId a, pos_startedAt a).
Proof. unfold occupancy. simpl. by rewrite lookup_insert_eq. Qed.

Lemma occupancy_insert_ne m slots seq k k' s :
  k <> k' -> psm_slots m = slots ->
  occupancy (mkParkingSlotManager (<[k := s]> slots) seq) k' = occupancy m k'.
Proof. intros ? <-. unfold occupancy. simpl. by rewrite lookup_insert_ne. Qed.

(** Events that leave the manager alone. *)
Lemma handle_spec_same m e r :
  manager_wf m -> transition_changed r = false ->
  (forall k, relevant m k e = true ->
     slot_spec (createSessionId k (pse_occurredAt e) (psm_sequence m)) (occupancy m k) e
     = occupancy m k) ->
  handle_spec m e r m.
Proof.
  intros Hwf Hc Hs. unfold transition_changed in Hc. split_bool.
  split; try done.
  - intros k. destruct (relevant m k e) eqn:E; [|done]. by rewrite Hs.
  - by rewrite bool_decide_eq_false_2.
Qed.

Lemma relevant_slot m k e : relevant m k e = true -> k = pse_slotId e.
Proof. unfold relevant. intros [? _]%andb_prop. by split_bool. Qed.

Lemma relevant_ne m k e : k <> pse_slotId e -> relevant m k e = false.
Proof. intros H. destruct (relevant m k e) eqn:E; [|done]. by apply relevant_slot in E. Qed.

Lemma occupancy_lookup m k s :
  psm_slots m !! k = Some s ->
  occupancy m k = a ← ps_activeSession s; Some (pos_sessionId a, pos_startedAt a).
Proof. unfold occupancy. by intros ->. Qed.

Lemma relevant_self m e s :
  psm_slots m !! pse_slotId e = Some s ->
  psc_enabled (ps_config s) = true ->
  is_empty (pse_sensorId e) = false -> pse_sensorId e = psc_sensorId (ps_config s) ->
  relevant m (pse_slotId e) e = true.
Proof.
  intros Hs He Hn Hi. unfold relevant. rewrite Hs, He, Hn. simpl.
  by rewrite !bool_decide_eq_true_2.
Qed.

(** Replacing the session of the event's slot. *)
Lemma occupancy_set m e s session seq k :
  psm_slots m !! pse_slotId e = Some s ->
  relevant m (pse_slotId e) e = true ->
  slot_spec (createSessionId (pse_slotId e) (pse_occurredAt e) (psm_sequence m))
    (occupancy m (pse_slotId e)) e = (a ← session; Some (pos_sessionId a, pos_startedAt a)) ->
  occupancy (mkParkingSlotManager (set_session m s session (pse_slotId e)) seq) k =
  if relevant m k e
  then slot_spec (createSessionId k (pse_occurredAt e) (psm_sequence m)) (occupancy m k) e
  else occupancy m k.
Proof.
  intros Hs Hr Hsp. unfold set_session. destruct (decide (pse_slotId e = k)) as [<-|Hne].
  - rewrite occupancy_insert, Hr. by rewrite Hsp.
  - rewrite (occupancy_insert_ne m) by done. by rewrite relevant_ne by congruence.
Qed.

Lemma set_session_config m s session key k :
  psm_slots m !! key = Some s ->
  ps_config <$> (set_session m s session key !! k) = ps_config <$> (psm_slots m !! k).
Proof.
  intros Hs. unfold set_session. destruct (decide (key = k)) as [<-|].
  - by rewrite lookup_insert_eq, Hs.
  - by rewrite lookup_insert_ne.
Qed.

Lemma set_session_wf m s session key :
  manager_wf m -> psm_slots m !! key = Some s ->
  (forall a, session = Some a -> pos_state a = SessionActive /\ pos_slotId a = key /\
     pos_sessionId a <> "" /\ psc_enabled (ps_config s) = true /\
     pos_sensorId a = psc_sensorId (ps_config s)) ->
  map_Forall slot_wf (set_session m s session key).
Proof.
  intros Hwf Hs Ha. unfold set_session. apply map_Forall_insert_2; [|done].
  destruct (Hwf _ _ Hs) as [Hk Hn _]. by split.
Qed.

Lemma handle_total_spec m e :
  manager_wf m -> exists r m', handle m e = Ok (r, m') /\ handle_spec m e r m'.
Proof.
  intros Hwf. unfold handle. destruct (psm_slots m !! pse_slotId e) as [s|] eqn:Hs.
  2: { eexists _, _. split; [done|]. apply handle_spec_same; [done..|].
       intros k Hr. exfalso. pose proof (relevant_slot _ _ _ Hr) as ->. unfold relevant in Hr.
       by rewrite Hs, andb_false_r in Hr. }
  destruct (Hwf _ _ Hs) as [Hkey Hne Hact].
  assert (Hno : forall k, relevant m k e = true -> psc_enabled (ps_config s) = true /\
    is_empty (pse_sensorId e) = false /\ pse_sensorId e = psc_sensorId (ps_config s)).
  { intros k Hr. pose proof (relevant_slot _ _ _ Hr) as ->. unfold relevant in Hr.
    rewrite Hs in Hr. by split_bool. }
  destruct (psc_enabled (ps_config s)) eqn:Hen; simpl.
  2: { eexists _, _. split; [done|]. apply handle_spec_same; [done..|].
       intros k Hr. by destruct (Hno k Hr). }
  destruct (_ || _) eqn:Hsens.
  { eexists _, _. split; [done|]. apply handle_spec_same; [done..|].
    intros k Hr. destruct (Hno k Hr) as (_ & H1 & H2). rewrite H1 in Hsens. simpl in Hsens.
    by split_bool. }
  apply orb_false_elim in Hsens as [Hse Hsm]. split_bool. clear Hno.
  pose proof (relevant_self m e s Hs Hen Hse Hsm) as Hrel.
  pose proof (occupancy_lookup m _ s Hs) as Hocc.
  destruct (pse_state e) eqn:Hst, (ps_activeSession s) as [a|] eqn:Ha; simpl in Hocc.
  - eexists _, _. split; [done|]. apply handle_spec_same; [done..|].
    intros k Hr. pose proof (relevant_slot _ _ _ Hr) as ->. unfold slot_spec. by rewrite Hst, Hocc.
  - rewrite Hkey, new_session_ok by first [done | by apply is_empty_true_inv]. simpl.
    eexists _, _. split; [done|]. split; simpl; try done.
    + apply set_session_wf; [done..|]. intros a [= <-]. simpl. by rewrite <-Hsm.
    + intros k. by apply set_session_config.
    + intros k. apply occupancy_set; [done..|]. unfold slot_spec. by rewrite Hst, Hocc.
    + intros _. split; [done|]. split; [done|]. split; [done|].
      unfold set_session. by rewrite occupancy_insert.
  - case_bool_decide as Ht.
    + eexists _, _. split; [done|]. apply handle_spec_same; [done..|].
      intros k Hr. pose proof (relevant_slot _ _ _ Hr) as ->.
      unfold slot_spec. rewrite Hst, Hocc. by rewrite bool_decide_eq_true_2.
    + destruct (Hact a eq_refl) as (Hsa & _).
      unfold complete_session, session_active.
      rewrite bool_decide_eq_true_2 by done. simpl. rewrite bool_decide_eq_false_2 by done. simpl.
      eexists _, _. split; [done|]. split; simpl; try done.
      * by apply set_session_wf.
      * intros k. by apply set_session_config.
      * intros k. apply occupancy_set; [done..|]. unfold slot_spec. rewrite Hst, Hocc.
        by rewrite bool_decide_eq_false_2.
      * intros _. split; [done|]. unfold set_session. rewrite occupancy_insert. split; [done|].
        eexists. split; [done|]. simpl. split_and!; try done. lia.
  - eexists _, _. split; [done|]. apply handle_spec_same; [done..|].
    intros k Hr. pose proof (relevant_slot _ _ _ Hr) as ->. unfold slot_spec. by rewrite Hst, Hocc.
Qed.

(** * Runs of the manager *)

Fixpoint manager_run (m : ParkingSlotManager) (es : list ParkingSensorEvent)
    : result string (list ParkingTransitionResult * ParkingSlotManager) :=
  match es with
  | [] => Ok ([], m)
  | e :: es' =>
      let? (r, m1) := handle m e in
      let? (rs, m2) := manager_run m1 es' in
      Ok (r :: rs, m2)
  end.

Lemma relevant_config m m' k e :
  (forall j, ps_config <$> (psm_slots m' !! j) = ps_config <$> (psm_slots m !! j)) ->
  relevant m' k e = relevant m k e.
Proof.
  intros H. unfold relevant. f_equal. specialize (H k).
  destruct (psm_slots m' !! k), (psm_slots m !! k); simpl in H; try done.
  injection H as H. by rewrite H.
Qed.

(** Induction over a run of a well-formed manager. *)
Lemma manager_run_ind (P : ParkingSlotManager -> list ParkingSensorEvent ->
    list ParkingTransitionResult -> ParkingSlotManager -> Prop) :
  (forall m, manager_wf m -> P m [] [] m) ->
  (forall m e r m1 es rs m2, manager_wf m -> handle_spec m e r m1 -> P m1 es rs m2 ->
     P m (e :: es) (r :: rs) m2) ->
  forall m es, manager_wf m -> exists rs m', manager_run m es = Ok (rs, m') /\ P m es rs m'.
Proof.
  intros H0 H1 m es. revert m. induction es as [|e es IH]; intros m Hwf; simpl.
  { eauto. }
  destruct (handle_total_spec m e Hwf) as (r & m1 & -> & Hsp). simpl.
  destruct (IH m1 (hs_wf _ _ _ _ Hsp)) as (rs & m2 & -> & HP). simpl. eauto 6.
Qed.

(** The history of one slot that the events alone determine: occupied by the first
    OCCUPIED of its own sensor, vacated by the first VACANT that is not earlier. *)
Definition slot_history (m : ParkingSlotManager) (slot : string)
    (st : option time_point) (es : list ParkingSensorEvent) : option time_point :=
  foldl (fun st e => if relevant m slot e
    then snd <$> slot_spec "" ((fun t => ("", t)) <$> st) e else st) st es.

Lemma slot_spec_snd id id' st e :
  snd <$> slot_spec id st e = snd <$> slot_spec id' ((fun t => ("", t)) <$> (snd <$> st)) e.
Proof.
  unfold slot_spec. destruct (pse_state e), st as [[i t]|]; simpl; try done.
  by case_bool_decide.
Qed.

Lemma slot_history_config m m' slot st es :
  (forall j, ps_config <$> (psm_slots m' !! j) = ps_config <$> (psm_slots m !! j)) ->
  slot_history m' slot st es = slot_history m slot st es.
Proof.
  intros H. unfold slot_history. revert st. induction es as [|e es IH]; intros st; simpl; [done|].
  by rewrite IH, (relevant_config m m').
Qed.

(** The slot manager never throws on a configuration it was built
    from, and implements an independent two-state automaton per slot: after any
    sequence of events a slot is occupied since [t] exactly when the automaton
    run over that slot's own valid events says so (its sensor, slot enabled),
    whatever other slots or foreign sensors report in between. *)
Theorem manager_refines n cs m es :
  new_manager n cs = Ok m ->
  exists rs m', manager_run m es = Ok (rs, m') /\ length rs = length es /\
    forall slot, snd <$> occupancy m' slot = slot_history m slot None es.
Proof.
  intros [Hwf Hv]%new_manager_wf.
  destruct (manager_run_ind (fun m es rs m' => length rs = length es /\
    forall slot, snd <$> occupancy m' slot = slot_history m slot (snd <$> occupancy m slot) es))
    with (m := m) (es := es) as (rs & m' & Hrun & Hlen & Hocc); try done.
  - intros m0 e r m1 es0 rs m2 _ Hsp [Hlen Hocc]. split; [simpl; congruence|].
    intros slot. rewrite Hocc, (slot_history_config m0 m1) by apply (hs_config _ _ _ _ Hsp).
    unfold slot_history. simpl. rewrite (hs_occupancy _ _ _ _ Hsp).
    destruct (relevant m0 slot e); [|done]. by erewrite slot_spec_snd.
  - exists rs, m'. split; [done|]. split; [done|]. intros slot. rewrite Hocc. f_equal.
    unfold occupancy. destruct (psm_slots m !! slot) as [s|] eqn:Hs; [|done]. simpl.
    by rewrite (Hv _ _ Hs).
Qed.

(** * Session identifiers *)

Lemma suffix_inj d a b x y :
  sall (fun c => negb (bool_decide (c = d))) x = true ->
  sall (fun c => negb (bool_decide (c = d))) y = true ->
  a +:+ String d x = b +:+ String d y -> a = b /\ x = y.
Proof.
  intros Hx Hy. revert b. induction a as [|c a IH]; intros [|c' b]; simpl.
  - by intros [= ->].
  - intros [= <- Heq]. subst x. exfalso. rewrite sall_app in Hx. simpl in Hx.
    rewrite bool_decide_eq_true_2, andb_false_r in Hx; done.
  - intros [= <- Heq]. subst y. exfalso. rewrite sall_app in Hy. simpl in Hy.
    rewrite bool_decide_eq_true_2, andb_false_r in Hy; done.
  - intros [= <- Heq]. destruct (IH b Heq) as [-> ->]. done.
Qed.

Lemma digits_no_underscore (n : N) :
  sall (fun c => negb (bool_decide (c = "_"%char))) (pretty n) = true.
Proof.
  eapply sall_impl; [|apply pretty_N_digits]. intros c Hc.
  apply negb_true_iff, bool_decide_eq_false_2. by intros ->.
Qed.

Lemma createSessionId_inj s s' t t' n n' :
  createSessionId s t n = createSessionId s' t' n' -> n = n'.
Proof.
  unfold createSessionId.
  set (a := "park_" +:+ s +:+ "_" +:+ pretty (Z.quot t 1000000)).
  set (a' := "park_" +:+ s' +:+ "_" +:+ pretty (Z.quot t' 1000000)).
  intros H. assert (He : a +:+ String "_" (pretty n) = a' +:+ String "_" (pretty n')).
  { unfold a, a'. rewrite !append_assoc. exact H. }
  apply suffix_inj in He as [_ He]; [by apply pretty_N_inj|apply digits_no_underscore..].
Qed.

Definition started_ids (rs : list ParkingTransitionResult) : list string :=
  ptr_sessionId <$> List.filter (fun r => bool_decide (ptr_code r = SessionStarted)) rs.

Definition fresh_from (lo hi : N) (id : string) : Prop :=
  exists s t k, id = createSessionId s t k /\ (lo <= k < hi)%N.

Lemma next_sequence_small n : (n < uint64_max)%N -> next_sequence n = (n + 1)%N.
Proof. unfold next_sequence, uint64_max. intros. apply N.mod_small. lia. Qed.

Lemma started_ids_fresh m es :
  manager_wf m -> (psm_sequence m + N.of_nat (length es) <= uint64_max)%N ->
  exists rs m', manager_run m es = Ok (rs, m') /\ NoDup (started_ids rs) /\
    Forall (fresh_from (psm_sequence m) (psm_sequence m + N.of_nat (length es))) (started_ids rs).
Proof.
  intros Hwf Hb.
  destruct (manager_run_ind (fun m es rs m' =>
    (psm_sequence m + N.of_nat (length es) <= uint64_max)%N -> NoDup (started_ids rs) /\
    Forall (fresh_from (psm_sequence m) (psm_sequence m + N.of_nat (length es))) (started_ids rs)))
    with (m := m) (es := es) as (rs & m' & Hrun & H); try done.
  - intros m0 _ _. split; constructor.
  - clear. intros m0 e r m1 es rs m2 _ Hsp IH Hb. simpl in Hb. unfold started_ids in *. simpl.
    pose proof (hs_sequence _ _ _ _ Hsp) as Hseq.
    case_bool_decide as Hc.
    + rewrite next_sequence_small in Hseq by lia.
      destruct IH as [Hnd Hf]; [lia|].
      destruct (hs_started _ _ _ _ Hsp Hc) as (_ & _ & Hid & _).
      rewrite fmap_cons. split; constructor; try done.
      * intros Hin. rewrite Forall_elem in Hf. destruct (Hf _ Hin) as (s & t & k & Hk & ?).
        rewrite Hid in Hk. apply createSessionId_inj in Hk. lia.
      * eexists _, _, _. split; [exact Hid|]. lia.
      * eapply Forall_impl; [exact Hf|]. intros x (s & t & k & ? & ?).
        exists s, t, k. split; [done|]. lia.
    + destruct IH as [Hnd Hf]; [lia|]. split; [done|].
      eapply Forall_impl; [exact Hf|]. intros x (s & t & k & ? & ?).
      exists s, t, k. split; [done|]. lia.
  - destruct (H Hb). eauto 6.
Qed.

(** No two parking sessions share an identifier: along any run the
    identifiers of the started sessions are pairwise distinct, for as long as the
    64-bit session counter does not wrap, whatever the slots and the clock do. *)
Theorem session_ids_unique n cs m es :
  new_manager n cs = Ok m -> (n + N.of_nat (length es) <= uint64_max)%N ->
  exists rs m', manager_run m es = Ok (rs, m') /\ NoDup (started_ids rs).
Proof.
  intros Hm Hb. assert (Hn : psm_sequence m = n).
  { unfold new_manager in Hm. destruct cs; [done|]. by rinv. }
  apply new_manager_wf in Hm as [Hwf _]. rewrite <-Hn in Hb.
  destruct (started_ids_fresh m es Hwf Hb) as (rs & m' & ? & ? & _). eauto.
Qed.

(** * The index of active sessions follows the manager *)

Definition index_mirrors (index : gmap string string) (m : ParkingSlotManager) : Prop :=
  forall slot, index !! slot = fst <$> occupancy m slot.

Lemma handle_wf_slot m e r m' :
  manager_wf m -> handle_spec m e r m' -> transition_changed r = true ->
  ptr_slotId r <> "" /\ ptr_sessionId r <> "".
Proof.
  intros Hwf Hsp Hc. unfold transition_changed in Hc. apply orb_prop in Hc.
  assert (Hocc : forall m0 slot id t, manager_wf m0 -> occupancy m0 slot = Some (id, t) ->
    slot <> "" /\ id <> "").
  { intros m0 slot id t H0 H. unfold occupancy in H.
    destruct (psm_slots m0 !! slot) as [s|] eqn:Hs; [|done]. simpl in H.
    destruct (ps_activeSession s) as [a|] eqn:Ha; [|done]. simpl in H. injection H as <- <-.
    destruct (H0 _ _ Hs) as [_ ? Hact]. by destruct (Hact a Ha) as (_ & _ & ? & _). }
  destruct Hc as [Hc|Hc]; apply bool_decide_eq_true_1 in Hc.
  - destruct (hs_started _ _ _ _ Hsp Hc) as (-> & _ & _ & Ho).
    by apply (Hocc m' _ _ _ (hs_wf _ _ _ _ Hsp) Ho).
  - destruct (hs_completed _ _ _ _ Hsp Hc) as (-> & _ & s & _ & _ & Ho & _).
    by apply (Hocc m _ _ _ Hwf Ho).
Qed.

Lemma index_apply_mirrors index m e r m' :
  manager_wf m -> handle_spec m e r m' -> index_mirrors index m ->
  index_mirrors (index_apply index r) m'.
Proof.
  intros Hwf Hsp Hi. pose proof (handle_wf_slot _ _ _ _ Hwf Hsp) as Hne.
  assert (Hrest : forall k, k <> pse_slotId e -> occupancy m' k = occupancy m k).
  { intros k Hk. rewrite (hs_occupancy _ _ _ _ Hsp). by rewrite relevant_ne. }
  unfold index_apply, transition_changed in *. destruct (ptr_code r) eqn:Hc;
    try (by rewrite (hs_unchanged _ _ _ _ Hsp) by (unfold transition_changed; by rewrite Hc)).
  - destruct (hs_started _ _ _ _ Hsp Hc) as (Hs & _ & _ & Ho).
    destruct Hne as [H1 H2]; [done|]. unfold setActive.
    rewrite !is_empty_false by done. simpl. intros k.
    destruct (decide (pse_slotId e = k)) as [<-|Hk].
    + by rewrite Hs, lookup_insert_eq, Ho.
    + rewrite lookup_insert_ne by congruence. rewrite Hrest by done. apply Hi.
  - destruct (hs_completed _ _ _ _ Hsp Hc) as (Hs & Hnone & s & _ & _ & Ho & _).
    destruct Hne as [H1 H2]; [done|]. unfold clearActive.
    rewrite (is_empty_false (ptr_slotId r)) by done. simpl.
    rewrite Hs, (Hi (pse_slotId e)), Ho. simpl.
    rewrite (bool_decide_eq_true_2 (ptr_sessionId r = ptr_sessionId r)), andb_false_r by done.
    intros k. destruct (decide (pse_slotId e = k)) as [<-|Hk].
    + by rewrite lookup_delete_eq, Hnone.
    + rewrite lookup_delete_ne by congruence. rewrite Hrest by done. apply Hi.
Qed.

(** The thread-safe read model never drifts from the manager:
    after feeding it every transition of a run, the active session it reports for
    a slot is the manager's active session of that slot, for every slot. *)
Theorem index_follows_manager n cs m es :
  new_manager n cs = Ok m ->
  exists rs m', manager_run m es = Ok (rs, m') /\
    forall slot, findActiveSessionId (foldl index_apply ∅ rs) slot = fst <$> occupancy m' slot.
Proof.
  intros [Hwf Hv]%new_manager_wf.
  destruct (manager_run_ind (fun m _ rs m' => forall index, index_mirrors index m ->
    index_mirrors (foldl index_apply index rs) m')) with (m := m) (es := es)
    as (rs & m' & Hrun & H); try done.
  - intros m0 e r m1 es0 rs m2 H0 Hsp IH index Hi. simpl.
    eapply IH, index_apply_mirrors; done.
  - exists rs, m'. split; [done|]. apply H. intros slot. rewrite lookup_empty. unfold occupancy.
    destruct (psm_slots m !! slot) as [s|] eqn:Hs; [|done]. simpl. by rewrite (Hv _ _ Hs).
Qed.

(** * The confirmation gate *)

(** [include/parking/ParkingOccupancyConfirmationGate.hpp:37-40 Pending] *)
Record Pending := mkPending { pd_firstEvent : ParkingSensorEvent; pd_deadline : time_point }.

Inductive GateDecision := GateForward | GateSuppress.
#[global] Instance GateDecision_eq_dec : EqDecision GateDecision.
Proof. solve_decision. Defined.

Abbreviation gate_state := (gmap string Pending).

(** [src/parking/ParkingOccupancyConfirmationGate.cpp:9-35 ParkingOccupancyConfirmationGate::evaluate] *)
Definition gate_evaluate (confirmThreshold : Z) (pendingBySlot : gate_state)
    (event : ParkingSensorEvent) (slotAlreadyOccupied : bool) : GateDecision * gate_state :=
  match pse_state event with
  | Occupied =>
      if slotAlreadyOccupied then (GateForward, pendingBySlot) else
      match pendingBySlot !! pse_slotId event with
      | None =>
          (GateSuppress,
           <[pse_slotId event :=
               mkPending event (pse_receivedMonotonic event + confirmThreshold)]> pendingBySlot)
      | Some found =>
          if bool_decide (pd_deadline found <= pse_receivedMonotonic event)
          then (GateForward, delete (pse_slotId event) pendingBySlot)
          else (GateSuppress, pendingBySlot)
      end
  | Vacant =>
      if negb slotAlreadyOccupied then (GateSuppress, delete (pse_slotId event) pendingBySlot)
      else (GateForward, pendingBySlot)
  end.

Definition earliest (acc : option time_point) (t : time_point) : option time_point :=
  match acc with
  | None => Some t
  | Some a => if bool_decide (t < a) then Some t else Some a
  end.

(** [src/parking/ParkingOccupancyConfirmationGate.cpp:37-46 ParkingOccupancyConfirmationGate::nextDeadline] *)
Definition gate_nextDeadline (pendingBySlot : gate_state) : option time_point :=
  foldl (fun acc kv => earliest acc (pd_deadline kv.2)) None (map_to_list pendingBySlot).

(** The event of a confirmed entry, stamped with the confirmation instant. *)
Definition confirmed_event (event : ParkingSensorEvent) (wallNow monotonicNow : time_point)
    : ParkingSensorEvent :=
  mkParkingSensorEvent (pse_slotId event) (pse_sensorId event) (pse_state event) wallNow
    (pse_sourceSequence event) (pse_sourceProtocolVersion event) (pse_sourceBootId event)
    (pse_sourceTransport event) monotonicNow.

(** [src/parking/ParkingOccupancyConfirmationGate.cpp:48-65 ParkingOccupancyConfirmationGate::takeDue] *)
Definition gate_takeDue (pendingBySlot : gate_state) (monotonicNow wallNow : time_point)
    : list ParkingSensorEvent * gate_state :=
  let due := filter (fun kv => pd_deadline kv.2 <= monotonicNow) pendingBySlot in
  let rest := filter (fun kv => ~ pd_deadline kv.2 <= monotonicNow) pendingBySlot in
  ((fun kv => confirmed_event (pd_firstEvent kv.2) wallNow monotonicNow) <$> map_to_list due,
   rest).

(** One call of the gate. *)
Inductive gate_call :=
| GateEvaluate (event : ParkingSensorEvent) (occupied : bool)
| GateTakeDue (monotonicNow wallNow : time_point).

Definition gate_step (threshold : Z) (p : gate_state) (c : gate_call) : gate_state :=
  match c with
  | GateEvaluate e occ => (gate_evaluate threshold p e occ).2
  | GateTakeDue mono wall => (gate_takeDue p mono wall).2
  end.

(** A slot has been continuously occupied: its first OCCUPIED was seen at [t0], and
    no VACANT of the slot came after it. The calls are listed latest first. *)
Definition vacates (slot : string) (c : gate_call) : bool :=
  match c with
  | GateEvaluate e occ =>
      negb occ && bool_decide (pse_state e = Vacant) && bool_decide (pse_slotId e = slot)
  | GateTakeDue _ _ => false
  end.
Definition occupied_since (slot : string) (first : ParkingSensorEvent) (calls : list gate_call)
    : Prop :=
  exists later earlier, calls = later ++ GateEvaluate first false :: earlier /\
    Forall (fun c => vacates slot c = false) later /\
    pse_state first = Occupied /\ pse_slotId first = slot.

Definition gate_run (threshold : Z) (calls : list gate_call) : gate_state :=
  foldr (fun c p => gate_step threshold p c) ∅ calls.

Lemma occupied_since_cons slot first c calls :
  vacates slot c = false -> occupied_since slot first calls ->
  occupied_since slot first (c :: calls).
Proof.
  intros Hv (later & earlier & -> & Hf & ? & ?). exists (c :: later), earlier.
  split_and!; try done. by constructor.
Qed.

Definition gate_inv (threshold : Z) (calls : list gate_call) (p : gate_state) : Prop :=
  map_Forall (fun slot q => pd_deadline q = pse_receivedMonotonic (pd_firstEvent q) + threshold /\
    occupied_since slot (pd_firstEvent q) calls) p.

Lemma gate_inv_weaken threshold c calls p :
  (forall slot, is_Some (p !! slot) -> vacates slot c = false) ->
  gate_inv threshold calls p -> gate_inv threshold (c :: calls) p.
Proof.
  intros Hv Hi slot q Hq. destruct (Hi slot q Hq) as [? ?]. split; [done|].
  apply occupied_since_cons; [|done]. apply Hv. eauto.
Qed.

Lemma gate_run_inv threshold calls : gate_inv threshold calls (gate_run threshold calls).
Proof.
  induction calls as [|c calls IH]; simpl; [apply map_Forall_empty|].
  set (p := gate_run threshold calls) in *. clearbody p. destruct c as [e occ|mono wall]; simpl.
  - unfold gate_evaluate. destruct (pse_state e) eqn:Hst.
    + assert (Hv : forall slot, vacates slot (GateEvaluate e occ) = false).
      { intros slot. simpl. rewrite Hst. by rewrite bool_decide_eq_false_2, andb_false_r. }
      destruct occ; simpl; [by apply gate_inv_weaken|].
      destruct (p !! pse_slotId e) as [q|] eqn:Hp.
      * case_bool_decide; simpl; [|by apply gate_inv_weaken].
        by apply map_Forall_delete, gate_inv_weaken.
      * simpl. apply map_Forall_insert_2; [|by apply gate_inv_weaken].
        simpl. split; [done|]. exists [], calls. by split_and!.
    + destruct occ; simpl.
      * apply gate_inv_weaken; done.
      * apply gate_inv_weaken.
        -- intros slot [q Hq]. simpl. apply lookup_delete_Some in Hq as [Hne _].
           by rewrite (bool_decide_eq_false_2 (pse_slotId e = slot)), andb_false_r.
        -- by apply map_Forall_delete.
  - apply gate_inv_weaken; [done|]. intros slot q Hq.
    apply map_lookup_filter_Some in Hq as [Hq _]. by apply IH.
Qed.

(** A short OCCUPIED blip never becomes a session: whenever the gate
    confirms an entry of a slot that is not yet occupied, either by forwarding a
    repeated OCCUPIED or through [takeDue], the slot's first OCCUPIED lies at least
    the threshold back on the monotonic clock and no VACANT of the slot was seen
    in between. *)
Theorem gate_confirms_after_threshold threshold calls :
  (forall e, pse_state e = Occupied ->
     (gate_evaluate threshold (gate_run threshold calls) e false).1 = GateForward ->
     exists first, occupied_since (pse_slotId e) first calls /\
       pse_receivedMonotonic first + threshold <= pse_receivedMonotonic e) /\
  (forall mono wall e, e ∈ (gate_takeDue (gate_run threshold calls) mono wall).1 ->
     exists first, occupied_since (pse_slotId e) first calls /\
       e = confirmed_event first wall mono /\
       pse_receivedMonotonic first + threshold <= mono).
Proof.
  pose proof (gate_run_inv threshold calls) as Hi. split.
  - intros e Hst. unfold gate_evaluate. rewrite Hst.
    destruct (_ !! pse_slotId e) as [q|] eqn:Hq; [|done].
    case_bool_decide as Hd; [intros _|done]. destruct (Hi _ _ Hq) as [Hdl Hs].
    exists (pd_firstEvent q). split; [done|]. lia.
  - intros mono wall e. simpl. intros ([slot q] & -> & Hin)%list_elem_of_fmap.
    apply elem_of_map_to_list, map_lookup_filter_Some in Hin as [Hq Hd]. simpl in Hd.
    destruct (Hi _ _ Hq) as [Hdl Hs]. exists (pd_firstEvent q). simpl.
    split; [|split; [done|lia]].
    assert (pse_slotId (pd_firstEvent q) = slot) as -> by by destruct Hs as (? & ? & ? & ? & ? & ?).
    done.
Qed.

Lemma earliest_fold acc (ds : list time_point) t :
  foldl earliest acc ds = Some t ->
  (acc = Some t \/ t ∈ ds) /\ (forall a, acc = Some a -> t <= a) /\ Forall (fun d => t <= d) ds.
Proof.
  revert acc. induction ds as [|d ds IH]; simpl; intros acc H.
  { split; [by left|]. split; [intros a ->; simplify_eq; lia|constructor]. }
  apply IH in H as (Hin & Hacc & Hall).
  assert (Hcase : (acc = None /\ earliest acc d = Some d) \/
    exists a, acc = Some a /\ earliest acc d = Some (Z.min d a)).
  { destruct acc as [a|]; [right|by left]. exists a. split; [done|]. simpl.
    case_bool_decide; f_equal; lia. }
  destruct Hcase as [[-> He]|(a & -> & He)]; rewrite He in *.
  - specialize (Hacc _ eq_refl). split; [right; destruct Hin as [[= ->]|]; set_solver|].
    split; [done|]. by constructor.
  - specialize (Hacc _ eq_refl). split; [|split].
    + destruct Hin as [[= <-]|]; [|set_solver].
      destruct (Z.min_dec d a) as [->| ->]; set_solver.
    + intros ? [= <-]. lia.
    + constructor; [lia|done].
Qed.

Lemma earliest_fold_some acc d ds : is_Some (foldl earliest (earliest acc d) ds).
Proof.
  revert acc d. induction ds as [|x ds IH]; simpl; intros acc d; [|apply IH].
  destruct acc; simpl; [case_bool_decide|]; eauto.
Qed.

Lemma gate_nextDeadline_fold p :
  gate_nextDeadline p = foldl earliest None (pd_deadline ∘ snd <$> map_to_list p).
Proof.
  unfold gate_nextDeadline. generalize (@None time_point). generalize (map_to_list p).
  induction l as [|kv l IH]; intros o; simpl; [done|]. by rewrite IH.
Qed.

(** The gate's timer is exact: [nextDeadline] is absent only when
    nothing is pending, waiting until it and calling [takeDue] confirms at least one
    entry, and before it nothing is due. *)
Theorem gate_timer_exact p :
  (gate_nextDeadline p = None <-> p = ∅) /\
  (forall d now wall, gate_nextDeadline p = Some d ->
     ((gate_takeDue p now wall).1 = [] <-> now < d) /\
     (now < d -> (gate_takeDue p now wall).2 = p)).
Proof.
  rewrite gate_nextDeadline_fold. split.
  - split; [|by intros ->]. intros H. apply map_to_list_empty_iff.
    destruct (map_to_list p) as [|kv l]; [done|].
    pose proof (earliest_fold_some None (pd_deadline kv.2) (pd_deadline ∘ snd <$> l)) as Hs.
    change (is_Some (foldl earliest None (pd_deadline ∘ snd <$> kv :: l))) in Hs.
    rewrite H in Hs. by destruct Hs.
  - intros d now wall Hd. apply earliest_fold in Hd as (Hin & _ & Hall).
    destruct Hin as [|Hin]; [done|]. rewrite Forall_elem in Hall.
    assert (Hle : forall k q, p !! k = Some q -> d <= pd_deadline q).
    { intros k q Hq. apply Hall, list_elem_of_fmap. exists (k, q). split; [done|].
      by apply elem_of_map_to_list. }
    apply list_elem_of_fmap in Hin as ([k q] & Hdq & Hkq%elem_of_map_to_list).
    simpl in Hdq. split; [split|].
    + simpl. intros He%fmap_nil_inv%map_to_list_empty_iff.
      destruct (decide (now < d)); [done|]. exfalso.
      assert (Hx : filter (fun kv : string * Pending => pd_deadline kv.2 <= now) p !! k = Some q).
      { apply map_lookup_filter_Some. split; [done|]. simpl. lia. }
      by rewrite He, lookup_empty in Hx.
    + intros Hlt. simpl. assert (Hn : filter (fun kv : string * Pending => pd_deadline kv.2 <= now) p = ∅).
      { apply map_empty. intros j. apply map_lookup_filter_None. right. intros x Hx. simpl.
        specialize (Hle _ _ Hx). lia. }
      by rewrite Hn, map_to_list_empty.
    + intros Hlt. simpl. apply map_filter_id. intros j x Hx. specialize (Hle _ _ Hx). simpl. lia.
Qed.

(** * The worker of the sessions *)

(** [include/parking/ParkingSessionWorker.hpp:70-74 ParkingSessionWorker] The gate with its threshold, if there is one; a
    sink is named by a number. *)
Record ParkingSessionWorker := mkSessionWorker {
  sw_guard : ParkingSensorSequenceGuard;
  sw_manager : ParkingSlotManager;
  sw_gate : option (Z * gate_state);
  sw_sinks : list N
}.

(** [src/parking/ParkingSessionWorker.cpp:7-18 ParkingSessionWorker::ParkingSessionWorker] *)
Definition new_session_worker (sequence : N) (configs : list ParkingSlotConfig) (confirmThreshold : Z)
    : result string ParkingSessionWorker :=
  let? m := new_manager sequence configs in
  Ok (mkSessionWorker ∅ m (if bool_decide (0 < confirmThreshold) then Some (confirmThreshold, ∅) else None) []).

(** [src/parking/ParkingSessionWorker.cpp:20-26 ParkingSessionWorker::addSink] [None] is an empty function. *)
Definition addSink (sink : option N) (w : ParkingSessionWorker) : ParkingSessionWorker :=
  match sink with
  | None => w
  | Some sink => mkSessionWorker (sw_guard w) (sw_manager w) (sw_gate w) (sw_sinks w ++ [sink])
  end.

(** [src/parking/ParkingSessionWorker.cpp:28-63 ParkingSessionWorker::onSensorEvent] The result, and the calls of the
    sinks. *)
Definition session_worker_event (event : ParkingSensorEvent) (w : ParkingSessionWorker)
    : result string (option ParkingTransitionResult * list (N * ParkingTransitionResult) * ParkingSessionWorker) :=
  let '((fresh, _), guard) := guard_accept (sw_guard w) event in
  if negb fresh then Ok (None, [], mkSessionWorker guard (sw_manager w) (sw_gate w) (sw_sinks w)) else
  let '(forward, gate) :=
    match sw_gate w with
    | None => (true, None)
    | Some (threshold, pending) =>
        match findSlot (sw_manager w) (pse_slotId event) with
        | Some slot =>
            if psc_enabled (ps_config slot) && negb (is_empty (pse_sensorId event)) &&
               bool_decide (pse_sensorId event = psc_sensorId (ps_config slot)) then
              let '(decision, pending') := gate_evaluate threshold pending event (bool_decide (is_Some (ps_activeSession slot))) in
              (bool_decide (decision = GateForward), Some (threshold, pending'))
            else (true, Some (threshold, pending))
        | None => (true, Some (threshold, pending))
        end
    end in
  if negb forward then Ok (None, [], mkSessionWorker guard (sw_manager w) gate (sw_sinks w)) else
  let? (r, m) := handle (sw_manager w) event in
  Ok (Some r, (fun sink => (sink, r)) <$> sw_sinks w, mkSessionWorker guard m gate (sw_sinks w)).

Fixpoint session_worker_run (es : list ParkingSensorEvent) (w : ParkingSessionWorker)
    : result string (list ParkingTransitionResult * list (N * ParkingTransitionResult) * ParkingSessionWorker) :=
  match es with
  | [] => Ok ([], [], w)
  | e :: es =>
      let? a := session_worker_event e w in
      let '(r, calls, w1) := a in
      let? b := session_worker_run es w1 in
      let '(rs, calls', w2) := b in
      Ok (match r with Some r => r :: rs | None => rs end, calls ++ calls', w2)
  end.

(** What the sequence guard lets through. *)
Fixpoint fresh_events (g : ParkingSensorSequenceGuard) (es : list ParkingSensorEvent) : list ParkingSensorEvent :=
  match es with
  | [] => []
  | e :: es => let '((fresh, _), g) := guard_accept g e in if fresh then e :: fresh_events g es else fresh_events g es
  end.

Lemma fresh_events_sublist es : forall g, sublist (fresh_events g es) es.
Proof.
  induction es as [|e es IH]; intros g; simpl; [constructor|].
  destruct (guard_accept g e) as [[[] reason] g']; by constructor.
Qed.

Lemma session_worker_step e w : manager_wf (sw_manager w) ->
  exists r calls w', session_worker_event e w = Ok (r, calls, w') /\ sw_sinks w' = sw_sinks w /\
    sw_guard w' = (guard_accept (sw_guard w) e).2 /\ (sw_gate w = None -> sw_gate w' = None) /\
    (r = None /\ calls = [] /\ sw_manager w' = sw_manager w /\
       ((guard_accept (sw_guard w) e).1.1 = false \/ sw_gate w <> None) \/
     exists r', r = Some r' /\ handle (sw_manager w) e = Ok (r', sw_manager w') /\ manager_wf (sw_manager w') /\
       (guard_accept (sw_guard w) e).1.1 = true /\ calls = (fun sink => (sink, r')) <$> sw_sinks w).
Proof.
  intros Hm. unfold session_worker_event. destruct (guard_accept (sw_guard w) e) as [[[] reason] guard]; cbn [negb fst snd];
    [|do 3 eexists; split; [done|]; repeat split; try done; left; auto].
  match goal with |- context [let '(_, _) := ?g in _] => destruct g as [forward gate] eqn:Eg end.
  assert (Hgate : sw_gate w = None -> forward = true /\ gate = None) by (intros E; rewrite E in Eg; by injection Eg as <- <-).
  destruct forward; cbn [negb].
  - destruct (handle_total_spec (sw_manager w) e Hm) as (r & m' & Hh & Hspec). rewrite Hh. cbn [rbind].
    do 3 eexists. split; [done|]. repeat split; try done; [apply Hgate|]. right. exists r.
    pose proof (hs_wf _ _ _ _ Hspec). done.
  - do 3 eexists. split; [done|]. repeat split; try done; [apply Hgate|]. left. repeat split; try done.
    right. intros E. by destruct (Hgate E).
Qed.

(** The worker is the slot manager behind its two filters: whatever comes in, the manager has handled a part of the
    events that the sequence guard let through, in their order, and all of them when there is no gate; every sink was
    told every result, in the order of their registration; and an exception never leaves the worker. *)
Lemma session_worker_run_refines es : forall w, manager_wf (sw_manager w) ->
  exists rs calls w' handled,
    session_worker_run es w = Ok (rs, calls, w') /\ sublist handled (fresh_events (sw_guard w) es) /\
    (sw_gate w = None -> handled = fresh_events (sw_guard w) es) /\
    manager_run (sw_manager w) handled = Ok (rs, sw_manager w') /\
    calls = (rs ≫= fun r => (fun sink => (sink, r)) <$> sw_sinks w).
Proof.
  induction es as [|e es IH]; intros w Hwf; cbn [session_worker_run fresh_events].
  { exists [], [], w, []. repeat split; try done; constructor. }
  destruct (session_worker_step e w Hwf) as (r & calls & w1 & -> & Hs1 & Hg1 & Hn1 & Hr). cbn [rbind].
  destruct (IH w1) as (rs & calls' & w2 & handled & -> & Hsub & Hall & Hrun & ->).
  { destruct Hr as [(_ & _ & -> & _)|(r' & _ & _ & H & _)]; done. }
  rewrite Hg1 in Hsub, Hall. rewrite Hs1. cbn [rbind].
  destruct (guard_accept (sw_guard w) e) as [[fresh reason] guard]. cbn [fst snd] in *.
  destruct Hr as [(-> & -> & Hm1 & Hw)|(r' & -> & Hh & _ & -> & ->)].
  - do 3 eexists. exists handled. split; [done|]. rewrite <- Hm1. split; [destruct fresh; [by constructor|done]|].
    split; [|done]. intros Hn. destruct Hw as [->|?]; [by apply Hall, Hn1|done].
  - do 3 eexists. exists (e :: handled). split; [done|]. split; [by constructor|].
    split; [intros Hn; f_equal; by apply Hall, Hn1|]. split; [|done]. cbn [manager_run]. rewrite Hh. cbn [rbind].
    by rewrite Hrun.
Qed.

Lemma addSinks_spec sinks : forall w, foldl (fun w sink => addSink (Some sink) w) w sinks =
  mkSessionWorker (sw_guard w) (sw_manager w) (sw_gate w) (sw_sinks w ++ sinks).
Proof.
  induction sinks as [|k sinks IH]; intros [g m gate ks]; cbn [foldl]; [by rewrite app_nil_r|].
  rewrite IH. simpl. by rewrite <- app_assoc.
Qed.

(** From the construction of the worker on. *)
Theorem session_worker_refines n cs threshold w0 sinks es : new_session_worker n cs threshold = Ok w0 ->
  exists rs calls w' handled,
    session_worker_run es (foldl (fun w sink => addSink (Some sink) w) w0 sinks) = Ok (rs, calls, w') /\
    sublist handled (fresh_events ∅ es) /\ (threshold <= 0 -> handled = fresh_events ∅ es) /\
    manager_run (sw_manager w0) handled = Ok (rs, sw_manager w') /\
    calls = (rs ≫= fun r => (fun sink => (sink, r)) <$> sinks).
Proof.
  intros Hn. unfold new_session_worker in Hn. apply rbind_ok_inv in Hn as (m & Hm & [= <-]).
  apply new_manager_wf in Hm as [Hm _]. rewrite addSinks_spec.
  edestruct (session_worker_run_refines es) as (rs & calls & w' & handled & H & Hsub & Hall & Hrun & Hcalls);
    [|exists rs, calls, w', handled; split; [exact H|]]; [done|]. cbn in *.
  repeat split; try done. intros Ht. apply Hall. by rewrite bool_decide_eq_false_2 by lia.
Qed.

(** * Witnesses *)

Definition sample_manager : ParkingSlotManager :=
  match new_manager 0 sample_configs with Ok m => m | Err _ => mkParkingSlotManager ∅ 0 end.
Definition sample_event (slot sensor : string) (st : ParkingSensorState) (t : time_point) :=
  mkParkingSensorEvent slot sensor st t None LegacyV1 None "uart" t.
Definition sample_events : list ParkingSensorEvent :=
  [sample_event "A1" "H01" Occupied 10; sample_event "A2" "H02" Occupied 11;
   sample_event "A1" "H01" Vacant 20; sample_event "A1" "H02" Occupied 30;
   sample_event "A1" "H01" Occupied 31].

Lemma manager_refines_witness :
  exists rs m', manager_run sample_manager sample_events = Ok (rs, m') /\ length rs = 5%nat /\
    forall slot, snd <$> occupancy m' slot = slot_history sample_manager slot None sample_events.
Proof. apply (manager_refines 0 sample_configs). vm_compute. reflexivity. Defined.

Lemma session_ids_unique_witness :
  exists rs m', manager_run sample_manager sample_events = Ok (rs, m') /\ NoDup (started_ids rs).
Proof.
  apply (session_ids_unique 0 sample_configs); [vm_compute; reflexivity | vm_compute; congruence].
Defined.

Lemma index_follows_manager_witness :
  exists rs m', manager_run sample_manager sample_events = Ok (rs, m') /\
    forall slot, findActiveSessionId (foldl index_apply ∅ rs) slot = fst <$> occupancy m' slot.
Proof. apply (index_follows_manager 0 sample_configs). vm_compute. reflexivity. Defined.
