(* ===== verification/Capture.v ===== *)
(** The scheduler of the hall captures: which pictures a parking session owes, when
    they are due and how often a failed one is retried
    ([src/parking/CaptureScheduler.cpp]). *)
From S2P Require Import Prelude SensorProtocol SequencePolicy SlotConfig Occupancy.

(** [include/parking/CaptureRequest.hpp:16-19 CaptureReason] *)
Inductive CaptureReason := HallOccupied30s | HallOccupied60s.
#[global] Instance CaptureReason_eq_dec : EqDecision CaptureReason.
Proof. solve_decision. Defined.

(** [include/parking/CaptureRequest.hpp:21-33 toReasonString] *)
Definition toReasonString (reason : CaptureReason) : string :=
  match reason with
  | HallOccupied30s => "HALL_OCCUPIED_30S"
  | HallOccupied60s => "HALL_OCCUPIED_60S"
  end.

(** The camera, channel and region of a slot; the region's coordinates are
    floating-point numbers that the scheduler only copies. *)

(** [include/parking/CaptureRequest.hpp:41-52 CaptureTarget] *)
Record CaptureTarget (double : Type) := mkCaptureTarget {
  ct_cameraId : string;
  ct_channelId : string;
  ct_areaName : string;
  ct_roiX : double;
  ct_roiY : double;
  ct_roiWidth : double;
  ct_roiHeight : double;
  ct_snapshotApiChannel : Z;
  ct_roiRevision : N
}.
Arguments mkCaptureTarget {double}.

(** [include/parking/CaptureRequest.hpp:57-80 CaptureRequest] *)
Record CaptureRequest (double : Type) := mkCaptureRequest {
  cr_sessionId : string;
  cr_slotId : string;
  cr_sensorId : string;
  cr_target : CaptureTarget double;
  cr_reason : CaptureReason;
  cr_attempt : nat;
  cr_sessionStartedAt : time_point;
  cr_scheduledFor : time_point;
  cr_responseTimeout : Z
}.
Arguments mkCaptureRequest {double}.
Arguments cr_sessionId {double}. Arguments cr_reason {double}. Arguments cr_attempt {double}.
Arguments cr_scheduledFor {double}. Arguments cr_slotId {double}.

(** [include/parking/CaptureScheduler.hpp:18-21 CaptureOffset] *)
Record CaptureOffset := mkCaptureOffset { co_reason : CaptureReason; co_delay : Z }.

(** [include/parking/CaptureScheduler.hpp:23-35 CaptureSchedulerConfig] *)
Record CaptureSchedulerConfig := mkCaptureSchedulerConfig {
  csc_offsets : list CaptureOffset;
  csc_responseTimeout : Z;
  csc_retryInterval : Z;
  csc_maxRetries : Z
}.

(** The default configuration, with durations in nanoseconds. *)
Definition default_capture_config : CaptureSchedulerConfig :=
  mkCaptureSchedulerConfig
    [mkCaptureOffset HallOccupied30s 30000000000; mkCaptureOffset HallOccupied60s 60000000000]
    3000000000 2000000000 2.

(** [include/parking/CaptureScheduler.hpp:37-42 DispatchOutcome] *)
Inductive DispatchOutcome := DispatchDone | DispatchWillRetry | DispatchGaveUp | DispatchUnknown.
#[global] Instance DispatchOutcome_eq_dec : EqDecision DispatchOutcome.
Proof. solve_decision. Defined.

(** [include/parking/CaptureScheduler.hpp:51-55 ScheduleReport] *)
Record ScheduleReport := mkScheduleReport {
  sr_scheduled : nat;
  sr_unmappedSlot : bool;
  sr_duplicate : bool
}.

(** [include/parking/CaptureScheduler.hpp:82-86 Phase] *)
Inductive Phase := PhasePending | PhaseDispatching | PhaseDone.
#[global] Instance Phase_eq_dec : EqDecision Phase.
Proof. solve_decision. Defined.

(** [include/parking/CaptureScheduler.hpp:88-93 CaptureState] *)
Record CaptureState := mkCaptureState {
  cs_reason : CaptureReason;
  cs_phase : Phase;
  cs_attempt : nat;
  cs_scheduledFor : time_point
}.

(** [include/parking/CaptureScheduler.hpp:95-103 SessionState] *)
Record SessionState (double : Type) := mkSessionState {
  ss_slotId : string;
  ss_sensorId : string;
  ss_startedAt : time_point;
  ss_startedAtMonotonic : time_point;
  ss_target : CaptureTarget double;
  ss_captures : list CaptureState
}.
Arguments mkSessionState {double}. Arguments ss_captures {double}.
Arguments ss_slotId {double}. Arguments ss_sensorId {double}. Arguments ss_startedAt {double}.
Arguments ss_startedAtMonotonic {double}. Arguments ss_target {double}.

Section Scheduler.
Context {double : Type}.
Context (config : CaptureSchedulerConfig).
(** The resolver of a slot's camera target. *)
Context (resolver : string -> option (CaptureTarget double)).

Abbreviation sessions := (gmap string (SessionState double)).

(** [src/parking/CaptureScheduler.cpp:12-53 CaptureScheduler::onTransition] *)
Definition onTransition (s : sessions) (transition : ParkingTransitionResult)
    : ScheduleReport * sessions :=
  match ptr_code transition, ptr_session transition with
  | SessionCompleted, _ => (mkScheduleReport 0 false false, delete (ptr_sessionId transition) s)
  | SessionStarted, Some occupancy =>
      match s !! ptr_sessionId transition with
      | Some _ => (mkScheduleReport 0 false true, s)
      | None =>
          match resolver (ptr_slotId transition) with
          | None => (mkScheduleReport 0 true false, s)
          | Some target =>
              let captures := map (fun offset =>
                mkCaptureState (co_reason offset) PhasePending 1
                  (pos_startedAtMonotonic occupancy + co_delay offset)) (csc_offsets config) in
              (mkScheduleReport (length captures) false false,
               <[ptr_sessionId transition :=
                   mkSessionState (ptr_slotId transition) (pos_sensorId occupancy)
                     (pos_startedAt occupancy) (pos_startedAtMonotonic occupancy)
                     target captures]> s)
          end
      end
  | _, _ => (mkScheduleReport 0 false false, s)
  end.

(** [src/parking/CaptureScheduler.cpp:129-143 CaptureScheduler::buildRequest] *)
Definition buildRequest (sessionId : string) (session : SessionState double)
    (capture : CaptureState) : CaptureRequest double :=
  mkCaptureRequest sessionId (ss_slotId session) (ss_sensorId session) (ss_target session)
    (cs_reason capture) (cs_attempt capture) (ss_startedAt session) (cs_scheduledFor capture)
    (csc_responseTimeout config).

Definition capture_ready (now : time_point) (c : CaptureState) : bool :=
  bool_decide (cs_phase c = PhasePending) && bool_decide (cs_scheduledFor c <= now).
Definition set_phase (p : Phase) (c : CaptureState) : CaptureState :=
  mkCaptureState (cs_reason c) p (cs_attempt c) (cs_scheduledFor c).
Definition with_captures (session : SessionState double) (captures : list CaptureState) :=
  mkSessionState (ss_slotId session) (ss_sensorId session) (ss_startedAt session)
    (ss_startedAtMonotonic session) (ss_target session) captures.

Definition due_requests (now : time_point) (sessionId : string) (session : SessionState double)
    : list (CaptureRequest double) :=
  (fun c => buildRequest sessionId session (set_phase PhaseDispatching c)) <$>
    List.filter (capture_ready now) (ss_captures session).
Definition due_captures (now : time_point) (captures : list CaptureState) : list CaptureState :=
  map (fun c => if capture_ready now c then set_phase PhaseDispatching c else c) captures.

(** [src/parking/CaptureScheduler.cpp:55-68 CaptureScheduler::due] *)
Definition due (s : sessions) (now : time_point) : list (CaptureRequest double) * sessions :=
  (mjoin ((fun kv => due_requests now kv.1 kv.2) <$> map_to_list s),
   (fun session => with_captures session (due_captures now (ss_captures session))) <$> s).

(** The first capture with the reason, replaced ([std::find_if] and the update). *)
Fixpoint update_first (reason : CaptureReason) (f : CaptureState -> CaptureState)
    (captures : list CaptureState) : list CaptureState :=
  match captures with
  | [] => []
  | c :: cs =>
      if bool_decide (cs_reason c = reason) then f c :: cs else c :: update_first reason f cs
  end.
Definition find_capture (reason : CaptureReason) (captures : list CaptureState)
    : option CaptureState :=
  List.find (fun c => bool_decide (cs_reason c = reason)) captures.
Definition settled (captures : list CaptureState) : bool :=
  forallb (fun c => bool_decide (cs_phase c = PhaseDone)) captures.

(** [src/parking/CaptureScheduler.cpp:70-107 CaptureScheduler::onDispatchResult] *)
Definition onDispatchResult (s : sessions) (request : CaptureRequest double)
    (published : bool) (now : time_point) : DispatchOutcome * sessions :=
  match s !! cr_sessionId request with
  | None => (DispatchUnknown, s)
  | Some session =>
      match find_capture (cr_reason request) (ss_captures session) with
      | None => (DispatchUnknown, s)
      | Some capture =>
          if negb (bool_decide (cs_phase capture = PhaseDispatching)) then (DispatchUnknown, s)
          else
          let '(outcome, update) :=
            if published then (DispatchDone, set_phase PhaseDone)
            else if bool_decide (Z.of_nat (cs_attempt capture) < 1 + csc_maxRetries config)
            then (DispatchWillRetry, fun c =>
                    mkCaptureState (cs_reason c) PhasePending (S (cs_attempt c))
                      (now + csc_retryInterval config))
            else (DispatchGaveUp, set_phase PhaseDone) in
          let captures := update_first (cr_reason request) update (ss_captures session) in
          (outcome,
           if settled captures then delete (cr_sessionId request) s
           else <[cr_sessionId request := with_captures session captures]> s)
      end
  end.

(** [src/parking/CaptureScheduler.cpp:109-122 CaptureScheduler::nextDeadline] *)
Definition nextDeadline (s : sessions) : option time_point :=
  foldl (fun acc kv =>
    foldl (fun acc c =>
      if negb (bool_decide (cs_phase c = PhasePending)) then acc
      else earliest acc (cs_scheduledFor c)) acc (ss_captures kv.2))
    None (map_to_list s).

(** [src/parking/CaptureScheduler.cpp:124-127 CaptureScheduler::trackedSessions] *)
Definition trackedSessions (s : sessions) : nat := size s.

(** * Runs *)

Inductive capture_call :=
| CallTransition (t : ParkingTransitionResult)
| CallDue (now : time_point)
| CallResult (request : CaptureRequest double) (published : bool) (now : time_point).

(** The requests handed out and the state after one call. *)
Definition capture_step (s : sessions) (c : capture_call) : list (CaptureRequest double) * sessions :=
  match c with
  | CallTransition t => ([], (onTransition s t).2)
  | CallDue now => due s now
  | CallResult r p now => ([], (onDispatchResult s r p now).2)
  end.

Fixpoint capture_run (s : sessions) (cs : list capture_call)
    : list (CaptureRequest double) * sessions :=
  match cs with
  | [] => ([], s)
  | c :: cs' =>
      let '(out, s1) := capture_step s c in
      let '(outs, s2) := capture_run s1 cs' in (out ++ outs, s2)
  end.

(** The session identifiers that a sequence of calls starts. *)
Definition started (c : capture_call) : option string :=
  match c with
  | CallTransition t =>
      match ptr_code t, ptr_session t with
      | SessionStarted, Some _ => Some (ptr_sessionId t)
      | _, _ => None
      end
  | _ => None
  end.

(** The attempt numbers handed out for one picture. *)
Definition attempts_of (id : string) (reason : CaptureReason)
    (out : list (CaptureRequest double)) : list nat :=
  cr_attempt <$> List.filter (fun r => bool_decide (cr_sessionId r = id) &&
                                 bool_decide (cr_reason r = reason)) out.

(** * Lemmas on the captures of one session *)

Lemma find_capture_due now reason cs :
  find_capture reason (due_captures now cs) =
  (fun c => if capture_ready now c then set_phase PhaseDispatching c else c)
    <$> find_capture reason cs.
Proof.
  induction cs as [|c cs IH]; simpl; [done|].
  assert (Hr : cs_reason (if capture_ready now c then set_phase PhaseDispatching c else c)
               = cs_reason c) by by destruct (capture_ready now c).
  rewrite Hr. by case_bool_decide.
Qed.

Lemma find_capture_update reason r f cs :
  (forall c, cs_reason (f c) = cs_reason c) ->
  find_capture reason (update_first r f cs) =
  if bool_decide (r = reason) then f <$> find_capture reason cs else find_capture reason cs.
Proof.
  intros Hf. induction cs as [|c cs IH]; simpl; [by case_bool_decide|].
  destruct (bool_decide (cs_reason c = r)) eqn:H1; simpl; rewrite ?Hf.
  - split_bool. subst r. by case_bool_decide.
  - split_bool. case_bool_decide as H2.
    + subst r. rewrite bool_decide_eq_false_2 by congruence. exact IH.
    + by rewrite IH.
Qed.

Lemma reasons_due now cs : cs_reason <$> due_captures now cs = cs_reason <$> cs.
Proof.
  induction cs as [|c cs IH]; [done|]. simpl. f_equal; [|exact IH].
  by destruct (capture_ready now c).
Qed.

Lemma reasons_update r f cs :
  (forall c, cs_reason (f c) = cs_reason c) -> cs_reason <$> update_first r f cs = cs_reason <$> cs.
Proof.
  intros Hf. induction cs as [|c cs IH]; [done|]. simpl.
  case_bool_decide; simpl; f_equal; auto.
Qed.

Lemma find_capture_none reason cs :
  reason ∉ cs_reason <$> cs -> find_capture reason cs = None.
Proof.
  induction cs as [|c cs IH]; [done|]. rewrite fmap_cons, not_elem_of_cons.
  intros [H1 H2]. simpl. rewrite bool_decide_eq_false_2 by congruence. auto.
Qed.

Lemma find_capture_some reason cs c :
  find_capture reason cs = Some c -> c ∈ cs /\ cs_reason c = reason.
Proof.
  induction cs as [|d cs IH]; simpl; [done|]. case_bool_decide as H.
  - intros [= <-]. split; [left|done].
  - intros [? ?]%IH. split; [by right|done].
Qed.

Lemma attempts_of_app id r (o1 o2 : list (CaptureRequest double)) :
  attempts_of id r (o1 ++ o2) = attempts_of id r o1 ++ attempts_of id r o2.
Proof. unfold attempts_of. by rewrite List.filter_app, fmap_app. Qed.

Lemma attempts_due_requests now id r (session : SessionState double) :
  NoDup (cs_reason <$> ss_captures session) ->
  attempts_of id r (due_requests now id session) =
  match find_capture r (ss_captures session) with
  | Some c => if capture_ready now c then [cs_attempt c] else []
  | None => []
  end.
Proof.
  unfold due_requests, attempts_of. induction (ss_captures session) as [|c cs IH]; [done|].
  rewrite fmap_cons. intros [Hni Hnd]%NoDup_cons. specialize (IH Hnd). simpl.
  case_bool_decide as Hr.
  - subst r. rewrite (find_capture_none _ _ Hni) in IH.
    destruct (capture_ready now c); [|exact IH].
    simpl. rewrite !bool_decide_eq_true_2 by done. simpl. by f_equal.
  - destruct (capture_ready now c); [|exact IH].
    simpl. rewrite (bool_decide_eq_false_2 (cs_reason c = r)), andb_false_r by done.
    exact IH.
Qed.

Lemma attempts_due_other now id id' r (session : SessionState double) :
  id' <> id -> attempts_of id r (due_requests now id' session) = [].
Proof.
  intros Hne. unfold due_requests, attempts_of.
  induction (ss_captures session) as [|c cs IH]; [done|]. simpl.
  destruct (capture_ready now c); [|exact IH]. simpl.
  by rewrite bool_decide_eq_false_2.
Qed.

Lemma attempts_due_list now id r (l : list (string * SessionState double)) :
  NoDup l.*1 ->
  (forall session, (id, session) ∈ l ->
     attempts_of id r (mjoin ((fun kv => due_requests now kv.1 kv.2) <$> l)) =
     attempts_of id r (due_requests now id session)) /\
  (id ∉ l.*1 -> attempts_of id r (mjoin ((fun kv => due_requests now kv.1 kv.2) <$> l)) = []).
Proof.
  induction l as [|[id' s'] l IH]; rewrite ?fmap_cons.
  { intros _. split; [by intros ? ?%elem_of_nil|done]. }
  intros [Hni Hnd]%NoDup_cons. destruct (IH Hnd) as [IH1 IH2]. split.
  - intros session [[= <- <-]|Hin]%elem_of_cons.
    + change (mjoin (?x :: ?y)) with (x ++ mjoin y). rewrite attempts_of_app, IH2 by done.
      by rewrite app_nil_r.
    + change (mjoin (?x :: ?y)) with (x ++ mjoin y).
      assert (id' <> id).
      { intros ->. apply Hni. apply list_elem_of_fmap. by exists (id, session). }
      rewrite attempts_of_app, attempts_due_other by done. by apply IH1.
  - rewrite not_elem_of_cons. intros [Hne Hn]. change (mjoin (?x :: ?y)) with (x ++ mjoin y).
    rewrite attempts_of_app, attempts_due_other by (simpl in *; congruence). by apply IH2.
Qed.

Lemma attempts_due (s : sessions) now id r :
  attempts_of id r (due s now).1 =
  match s !! id with
  | Some session => attempts_of id r (due_requests now id session)
  | None => []
  end.
Proof.
  simpl. destruct (attempts_due_list now id r (map_to_list s) (NoDup_fst_map_to_list s)) as [H1 H2].
  destruct (s !! id) as [session|] eqn:Hs.
  - by apply H1, elem_of_map_to_list.
  - apply H2. intros ([k x] & -> & Hin%elem_of_map_to_list)%list_elem_of_fmap. simpl in Hs. congruence.
Qed.

(** * How often a picture is asked for *)

(** Attempts allowed for one picture: the first one and [maxRetries] more. *)
Definition attempt_bound : nat := Nat.max 1 (Z.to_nat (1 + csc_maxRetries config)).

Definition picture_ok (r : CaptureReason) (captures : list CaptureState) (em : list nat) : Prop :=
  match find_capture r captures with
  | Some c => (1 <= cs_attempt c <= attempt_bound)%nat /\
      em = seq 1 (if bool_decide (cs_phase c = PhasePending)
                  then cs_attempt c - 1 else cs_attempt c)
  | None => em = []
  end.

Definition emitted_ok (id : string) (r : CaptureReason) (s : sessions) (em : list nat)
    (begun : bool) : Prop :=
  match s !! id with
  | Some session => begun = true /\
      cs_reason <$> ss_captures session = co_reason <$> csc_offsets config /\
      picture_ok r (ss_captures session) em
  | None => (begun = false -> em = []) /\ exists k, (k <= attempt_bound)%nat /\ em = seq 1 k
  end.

Lemma picture_ok_bound r cs em : picture_ok r cs em ->
  exists k, (k <= attempt_bound)%nat /\ em = seq 1 k.
Proof.
  unfold picture_ok. destruct (find_capture r cs) as [c|].
  - intros [Hb ->]. eexists. split; [|done]. case_bool_decide; lia.
  - intros ->. exists 0%nat. split; [lia|done].
Qed.

Lemma emitted_ok_none id r s em b : s !! id = None ->
  (exists k, (k <= attempt_bound)%nat /\ em = seq 1 k) -> (b = false -> em = []) ->
  emitted_ok id r s em b.
Proof. intros Hs ? ?. unfold emitted_ok. by rewrite Hs. Qed.

Lemma emitted_ok_lookup id r s s' em b :
  s' !! id = s !! id -> emitted_ok id r s em b -> emitted_ok id r s' em b.
Proof. unfold emitted_ok. by intros ->. Qed.

Lemma emitted_ok_begun id r s em b :
  emitted_ok id r s em b -> emitted_ok id r s em (b || false).
Proof. by rewrite orb_false_r. Qed.

Lemma emitted_ok_delete id r s em b :
  emitted_ok id r s em b -> emitted_ok id r (delete id s) em b.
Proof.
  intros H. apply emitted_ok_none; [by rewrite lookup_delete_eq|..]; unfold emitted_ok in H;
    destruct (s !! id); [destruct H as (_ & _ & H); by eapply picture_ok_bound|by destruct H| |by destruct H].
  by destruct H as (-> & _).
Qed.

Lemma emitted_transition id r s em b t :
  emitted_ok id r s em b ->
  (ptr_code t = SessionStarted -> is_Some (ptr_session t) -> ptr_sessionId t = id -> b = false) ->
  emitted_ok id r (onTransition s t).2 em
    (b || bool_decide (started (CallTransition t) = Some id)).
Proof.
  intros H Hb. unfold onTransition, started.
  destruct (ptr_code t) eqn:Hc; try (by apply emitted_ok_begun).
  - destruct (ptr_session t) as [occ|]; [|by apply emitted_ok_begun].
    destruct (decide (ptr_sessionId t = id)) as [Hid|Hid].
    + specialize (Hb eq_refl (mk_is_Some _ _ eq_refl) Hid). subst b.
      rewrite (bool_decide_eq_true_2 (Some _ = Some id)) by congruence. rewrite Hid. simpl.
      unfold emitted_ok in H. destruct (s !! id) as [session|] eqn:Hs; [by destruct H|].
      destruct H as [He _]. specialize (He eq_refl). subst em.
      destruct (resolver (ptr_slotId t)) as [target|]; simpl.
      * unfold emitted_ok. rewrite lookup_insert_eq. split; [done|]. simpl. split.
        -- rewrite <-list_fmap_compose. done.
        -- unfold picture_ok. destruct (find_capture _ _) as [c|] eqn:Hf; [|done].
           apply find_capture_some in Hf as [Hin _].
           apply list_elem_of_In, in_map_iff in Hin as (o & <- & _). simpl.
           split; [unfold attempt_bound; lia|done].
      * apply emitted_ok_none; [done| |done]. exists 0%nat. split; [lia|done].
    + rewrite (bool_decide_eq_false_2 (Some _ = Some id)) by congruence.
      rewrite orb_false_r. destruct (s !! ptr_sessionId t); [done|].
      destruct (resolver (ptr_slotId t)); [|done]. simpl.
      eapply emitted_ok_lookup; [|exact H]. by rewrite lookup_insert_ne.
  - rewrite orb_false_r. simpl. destruct (decide (ptr_sessionId t = id)) as [->|Hid].
    + by apply emitted_ok_delete.
    + eapply emitted_ok_lookup; [|exact H]. by rewrite lookup_delete_ne.
Qed.

Lemma emitted_due id r s em b now :
  NoDup (co_reason <$> csc_offsets config) ->
  emitted_ok id r s em b ->
  emitted_ok id r (due s now).2 (em ++ attempts_of id r (due s now).1) b.
Proof.
  intros Hnd H. rewrite attempts_due. unfold emitted_ok in *. simpl. rewrite lookup_fmap.
  destruct (s !! id) as [session|]; simpl; [|by rewrite app_nil_r].
  destruct H as (-> & Hr & Hp). split; [done|]. rewrite reasons_due. split; [done|].
  rewrite attempts_due_requests by (by rewrite Hr).
  unfold picture_ok in *. rewrite find_capture_due.
  destruct (find_capture r (ss_captures session)) as [c|]; simpl; [|by rewrite Hp].
  destruct Hp as [Hb ->]. unfold capture_ready. destruct (bool_decide (cs_phase c = PhasePending)) eqn:Hph.
  - split_bool. case_bool_decide; simpl.
    + split; [done|]. destruct (cs_attempt c) as [|n]; [lia|]. simpl.
      rewrite Nat.sub_0_r.
      change (1%nat :: seq 2 n) with (seq 1 (S n)). by rewrite seq_S.
    + rewrite app_nil_r. rewrite bool_decide_eq_true_2 by done. done.
  - simpl. rewrite app_nil_r, Hph. done.
Qed.

Lemma attempt_retry n : Z.of_nat n < 1 + csc_maxRetries config -> (S n <= attempt_bound)%nat.
Proof. unfold attempt_bound. lia. Qed.

Lemma emitted_result id r s em b request p now :
  emitted_ok id r s em b -> emitted_ok id r (onDispatchResult s request p now).2 em b.
Proof.
  intros H. unfold onDispatchResult.
  destruct (s !! cr_sessionId request) as [session|] eqn:Hs; [|done].
  destruct (find_capture (cr_reason request) (ss_captures session)) as [c|] eqn:Hc; [|done].
  destruct (negb _) eqn:Hph; [done|]. split_bool.
  destruct (decide (cr_sessionId request = id)) as [Hid|Hid].
  2: { set (q := if p then _ else _). destruct q as [o u]. simpl. destruct (settled _).
       - eapply emitted_ok_lookup; [|exact H]. by rewrite lookup_delete_ne.
       - eapply emitted_ok_lookup; [|exact H]. by rewrite lookup_insert_ne. }
  rewrite Hid in *. clear Hid.
  assert (Hgen : forall u, (forall c, cs_reason (u c) = cs_reason c) ->
    (forall em, (1 <= cs_attempt c <= attempt_bound)%nat -> em = seq 1 (cs_attempt c) ->
      (1 <= cs_attempt (u c) <= attempt_bound)%nat /\
      em = seq 1 (if bool_decide (cs_phase (u c) = PhasePending)
                  then cs_attempt (u c) - 1 else cs_attempt (u c))) ->
    let captures := update_first (cr_reason request) u (ss_captures session) in
    emitted_ok id r (<[id := with_captures session captures]> s) em b).
  { intros u Hu Hok. unfold emitted_ok in *. rewrite Hs in H. rewrite lookup_insert_eq. simpl.
    destruct H as (-> & Hr & Hp). split; [done|]. rewrite reasons_update by done. split; [done|].
    unfold picture_ok in *. rewrite find_capture_update by done.
    destruct (bool_decide (cr_reason request = r)) eqn:Hrr; [|done]. split_bool. subst r. rewrite Hc in *. simpl.
    destruct Hp as [Hb Hem]. rewrite Hph in Hem.
    rewrite (bool_decide_eq_false_2 (PhaseDispatching = PhasePending)) in Hem by done. auto. }
  assert (Hdel : forall u, emitted_ok id r (<[id := u]> s) em b -> emitted_ok id r (delete id s) em b).
  { intros u Hx. apply emitted_ok_delete in Hx. by rewrite delete_insert_eq in Hx. }
  destruct p; [|case_bool_decide as Hlt]; simpl.
  - assert (Hx := Hgen (set_phase PhaseDone) ltac:(done) ltac:(done)).
    destruct (settled _); [by eapply Hdel|done].
  - assert (Hx := Hgen (fun c => mkCaptureState (cs_reason c) PhasePending (S (cs_attempt c))
      (now + csc_retryInterval config)) ltac:(done)).
    apply attempt_retry in Hlt.
    destruct (settled _); [eapply Hdel|]; apply Hx; intros em0 Hb ->; simpl;
      rewrite Nat.sub_0_r; (split; [lia|done]).
  - assert (Hx := Hgen (set_phase PhaseDone) ltac:(done) ltac:(done)).
    destruct (settled _); [by eapply Hdel|done].
Qed.

Lemma started_other id c :
  started c <> Some id ->
  forall t, c = CallTransition t -> ptr_code t = SessionStarted -> is_Some (ptr_session t) ->
  ptr_sessionId t <> id.
Proof. intros H t -> Hc [o Ho] He. apply H. simpl. rewrite Hc, Ho. congruence. Qed.

Lemma capture_run_emitted id r cs s em b :
  NoDup (co_reason <$> csc_offsets config) ->
  NoDup (omap started cs) -> (b = true -> id ∉ omap started cs) ->
  emitted_ok id r s em b ->
  exists b', emitted_ok id r (capture_run s cs).2 (em ++ attempts_of id r (capture_run s cs).1) b'.
Proof.
  intros Hnd. revert s em b. induction cs as [|c cs IH]; intros s em b Hst Hb H; simpl.
  { exists b. by rewrite app_nil_r. }
  destruct (capture_step s c) as [out s1] eqn:Hstep.
  destruct (capture_run s1 cs) as [outs s2] eqn:Hrun. simpl.
  rewrite attempts_of_app, app_assoc.
  assert (Hs1 : emitted_ok id r s1 (em ++ attempts_of id r out)
    (b || bool_decide (started c = Some id))).
  { destruct c as [t|now|req p now]; simpl in Hstep; injection Hstep as <- <-.
    - rewrite app_nil_r. apply emitted_transition; [done|]. intros Hc [o Ho] Hid.
      destruct b; [|done]. exfalso. apply (Hb eq_refl). simpl. rewrite Hc, Ho, Hid. set_solver.
    - rewrite orb_false_r. by apply emitted_due.
    - rewrite orb_false_r, app_nil_r. by apply emitted_result. }
  assert (Htail : NoDup (omap started cs)).
  { simpl in Hst. destruct (started c); [by apply NoDup_cons in Hst as [_ ?]|done]. }
  assert (Hnew : b || bool_decide (started c = Some id) = true -> id ∉ omap started cs).
  { intros Hor. apply orb_prop in Hor as [Hbt|Hc].
    - specialize (Hb Hbt). simpl in Hb. destruct (started c); set_solver.
    - apply bool_decide_eq_true_1 in Hc. simpl in Hst. rewrite Hc in Hst.
      by apply NoDup_cons in Hst as [? _]. }
  destruct (IH s1 _ _ Htail Hnew Hs1) as [b' Hb']. rewrite Hrun in Hb'. eauto.
Qed.

(** Every picture is asked for in order and a bounded number of times: when
    sessions are started once each, the attempt numbers handed out for a session
    and a reason, over any interleaving of transitions, timer polls and dispatch
    results (late, repeated or forged ones included), are exactly 1, 2, ..., k for
    some k of at most 1 + maxRetries. No attempt is dispatched twice or skipped. *)
Theorem capture_attempts_bounded id r calls :
  NoDup (co_reason <$> csc_offsets config) -> NoDup (omap started calls) ->
  exists k, (k <= attempt_bound)%nat /\
    attempts_of id r (capture_run ∅ calls).1 = seq 1 k.
Proof.
  intros Hnd Hst. destruct (capture_run_emitted id r calls ∅ [] false Hnd Hst) as [b H]; [done| |].
  - apply emitted_ok_none; [apply lookup_empty| |done]. exists 0%nat. split; [lia|done].
  - simpl in H. unfold emitted_ok in H.
    destruct ((capture_run ∅ calls).2 !! id) as [session|]; [|by destruct H].
    destruct H as (_ & _ & H). by eapply picture_ok_bound.
Qed.

(** * The timer *)

Definition pending_times (s : sessions) : list time_point :=
  kv ← map_to_list s;
  cs_scheduledFor <$> List.filter (fun c => bool_decide (cs_phase c = PhasePending))
                        (ss_captures kv.2).

Lemma nextDeadline_session acc (cs : list CaptureState) :
  foldl (fun acc c => if negb (bool_decide (cs_phase c = PhasePending)) then acc
                      else earliest acc (cs_scheduledFor c)) acc cs =
  foldl earliest acc (cs_scheduledFor <$>
    List.filter (fun c => bool_decide (cs_phase c = PhasePending)) cs).
Proof.
  revert acc. induction cs as [|c cs IH]; intros acc; [done|]. simpl. rewrite IH.
  by destruct (bool_decide (cs_phase c = PhasePending)).
Qed.

Lemma nextDeadline_fold s : nextDeadline s = foldl earliest None (pending_times s).
Proof.
  unfold nextDeadline, pending_times. generalize (@None time_point).
  induction (map_to_list s) as [|kv l IH]; intros acc; simpl; [done|].
  rewrite IH, nextDeadline_session, foldl_app. done.
Qed.

Lemma pending_times_elem s t :
  t ∈ pending_times s <-> exists id session c, s !! id = Some session /\
    c ∈ ss_captures session /\ cs_phase c = PhasePending /\ cs_scheduledFor c = t.
Proof.
  unfold pending_times. rewrite list_elem_of_bind. split.
  - intros ([id session] & (c & -> & Hc)%list_elem_of_fmap & Hin%elem_of_map_to_list).
    apply list_elem_of_In, filter_In in Hc as [Hc Hp]. split_bool. apply list_elem_of_In in Hc.
    eauto 8.
  - intros (id & session & c & Hs & Hc & Hp & <-). exists (id, session).
    split; [|by apply elem_of_map_to_list]. apply list_elem_of_fmap. exists c. split; [done|].
    apply list_elem_of_In, filter_In. split; [by apply list_elem_of_In|].
    by apply bool_decide_eq_true_2.
Qed.

Lemma due_elem s now req :
  req ∈ (due s now).1 <-> exists id session c, s !! id = Some session /\
    c ∈ ss_captures session /\ cs_phase c = PhasePending /\ cs_scheduledFor c <= now /\
    req = buildRequest id session (set_phase PhaseDispatching c).
Proof.
  simpl. rewrite list_elem_of_join. split.
  - intros (l & Hl & ([id session] & -> & Hin%elem_of_map_to_list)%list_elem_of_fmap).
    simpl in Hl. apply list_elem_of_fmap in Hl as (c & -> & Hc).
    apply list_elem_of_In, filter_In in Hc as [Hc Hr]. unfold capture_ready in Hr. split_bool.
    apply list_elem_of_In in Hc. eauto 10.
  - intros (id & session & c & Hs & Hc & Hp & Hle & ->).
    exists (due_requests now id session). split.
    + apply list_elem_of_fmap. exists c. split; [done|].
      apply list_elem_of_In, filter_In. split; [by apply list_elem_of_In|].
      unfold capture_ready. by rewrite !bool_decide_eq_true_2.
    + apply list_elem_of_fmap. exists (id, session). split; [done|]. by apply elem_of_map_to_list.
Qed.

(** The scheduler's timer neither oversleeps nor spins: [nextDeadline] is
    absent exactly when no picture is pending; at or after the instant it names a
    poll hands out at least one request, strictly before it none; and after a poll
    the next deadline lies strictly in the future. *)
Theorem capture_timer_exact s now :
  (nextDeadline s = None <-> forall id session c, s !! id = Some session ->
     c ∈ ss_captures session -> cs_phase c <> PhasePending) /\
  (forall d, nextDeadline s = Some d -> (due s now).1 = [] <-> now < d) /\
  (forall d, nextDeadline (due s now).2 = Some d -> now < d).
Proof.
  assert (Hnone : forall m, nextDeadline m = None <-> pending_times m = []).
  { intros m. rewrite nextDeadline_fold. split; [|by intros ->].
    destruct (pending_times m) as [|t ts]; [done|]. intros H. exfalso.
    pose proof (earliest_fold_some None t ts) as Hs.
    change (is_Some (foldl earliest None (t :: ts))) in Hs. rewrite H in Hs. by destruct Hs. }
  split_and!.
  - rewrite Hnone. split.
    + intros He id session c Hs Hc Hp.
      assert (Hin : cs_scheduledFor c ∈ pending_times s) by (apply pending_times_elem; eauto 8).
      rewrite He in Hin. by apply elem_of_nil in Hin.
    + intros H. destruct (pending_times s) as [|t ts] eqn:E; [done|].
      assert (Hin : t ∈ pending_times s) by (rewrite E; left).
      apply pending_times_elem in Hin as (id & session & c & ? & ? & ? & _). by destruct (H id session c).
  - intros d Hd. rewrite nextDeadline_fold in Hd. apply earliest_fold in Hd as (Hin & _ & Hall).
    destruct Hin as [|Hin]; [done|]. rewrite Forall_elem in Hall. split.
    + intros He. apply pending_times_elem in Hin as (id & session & c & ? & ? & ? & <-).
      destruct (decide (now < cs_scheduledFor c)); [done|]. exfalso.
      assert (Hx : buildRequest id session (set_phase PhaseDispatching c) ∈ (due s now).1).
      { apply due_elem. exists id, session, c. split_and!; try done. lia. }
      rewrite He in Hx. by apply elem_of_nil in Hx.
    + intros Hlt. destruct ((due s now).1) as [|q qs] eqn:E; [done|].
      assert (Hq : q ∈ (due s now).1) by (rewrite E; left).
      apply due_elem in Hq as (id & session & c & ? & ? & ? & ? & _).
      assert (d <= cs_scheduledFor c) by (apply Hall, pending_times_elem; eauto 8). lia.
  - intros d Hd. rewrite nextDeadline_fold in Hd. apply earliest_fold in Hd as (Hin & _ & _).
    destruct Hin as [|Hin]; [done|].
    apply pending_times_elem in Hin as (id & session & c & Hs & Hc & Hp & <-).
    simpl in Hs. rewrite lookup_fmap in Hs. destruct (s !! id) as [session0|]; [|done].
    injection Hs as <-. simpl in Hc. unfold due_captures in Hc.
    apply list_elem_of_In, in_map_iff in Hc as (c0 & <- & _).
    unfold capture_ready in *. destruct (bool_decide (cs_phase c0 = PhasePending)) eqn:H0;
      simpl in *; split_bool; [|done].
    case_bool_decide; [done|lia].
Qed.
End Scheduler.

(** * Witness *)

Definition unit_target : CaptureTarget unit := mkCaptureTarget "C1" "ch1" "A1" tt tt tt tt 0 0.
Definition sample_session : ParkingOccupancySession :=
  mkParkingOccupancySession "7" "A1" "H01" SessionActive 0 0 None.
Definition sample_started : ParkingTransitionResult :=
  mkParkingTransitionResult SessionStarted "A1" "7" "" (Some sample_session).
Definition sample_request (attempt : nat) (at_ : time_point) : CaptureRequest unit :=
  mkCaptureRequest "7" "A1" "H01" unit_target HallOccupied30s attempt 0 at_ 3000000000.
Definition sample_calls : list (@capture_call unit) :=
  [CallTransition sample_started; CallDue 30000000000; CallDue 31000000000;
   CallResult (sample_request 1 30000000000) false 31000000000; CallDue 33000000000;
   CallResult (sample_request 2 33000000000) false 34000000000; CallDue 40000000000;
   CallResult (sample_request 3 36000000000) false 41000000000; CallDue 50000000000].

Example sample_attempts :
  attempts_of "7" HallOccupied30s
    (capture_run default_capture_config (fun _ => Some unit_target) ∅ sample_calls).1
  = [1; 2; 3]%nat.
Proof. vm_compute. reflexivity. Qed.

Lemma capture_attempts_bounded_witness :
  exists k, (k <= 3)%nat /\
    attempts_of "7" HallOccupied30s
      (capture_run default_capture_config (fun _ => Some unit_target) ∅ sample_calls).1 = seq 1 k.
Proof.
  apply (capture_attempts_bounded default_capture_config (fun _ => Some unit_target));
    [vm_compute; repeat constructor; set_solver | vm_compute; repeat constructor; set_solver].
Defined.
