(* ===== verification/HallOcr.v ===== *)
(** The plate recognition of one parking session: which of its two pictures are
    submitted to OCR and how their results are folded
    ([src/parking/HallOcrPolicy.cpp], [src/parking/HallCaptureCoordinator.cpp]). *)
From Stdlib Require Import ZifyBool.
From S2P Require Import Prelude SensorProtocol SequencePolicy SlotConfig Occupancy Capture.

(** [include/parking/HallCaptureTypes.hpp:12-15 CaptureStage] *)
Inductive CaptureStage := First30s | Second60s.
#[global] Instance CaptureStage_eq_dec : EqDecision CaptureStage.
Proof. solve_decision. Defined.

(** [include/parking/HallCaptureTypes.hpp:17-20 toStage] *)
Definition toStage (reason : CaptureReason) : CaptureStage :=
  match reason with HallOccupied60s => Second60s | HallOccupied30s => First30s end.

(** [include/parking/HallCaptureTypes.hpp:22-25 toEnhancementType] *)
Definition toEnhancementType (stage : CaptureStage) : string :=
  match stage with Second60s => "HALL_60S" | First30s => "HALL_30S" end.

(** [include/parking/HallOcrPolicy.hpp:12-17 ImageAction] *)
Inductive ImageAction := RunOcr | StoreEvidenceOnly | HoldForPendingOcr | DropImage.
#[global] Instance ImageAction_eq_dec : EqDecision ImageAction.
Proof. solve_decision. Defined.

(** [include/parking/HallOcrPolicy.hpp:19-23 OcrSessionState] *)
Inductive OcrSessionState := OcrPending | OcrResolved | OcrFailed.
#[global] Instance OcrSessionState_eq_dec : EqDecision OcrSessionState.
Proof. solve_decision. Defined.

(** [include/parking/HallOcrPolicy.hpp:58-63 StageState] *)
Inductive StageState := NotArrived | Held | Running | StageDone.
#[global] Instance StageState_eq_dec : EqDecision StageState.
Proof. solve_decision. Defined.

(** [include/parking/HallOcrPolicy.hpp:65-70 SessionState] *)
Record OcrSession := mkOcrSession {
  os_result : OcrSessionState;
  os_stage30 : StageState;
  os_stage60 : StageState;
  os_attempts : nat
}.
Definition new_ocr_session : OcrSession := mkOcrSession OcrPending NotArrived NotArrived 0.

(** [include/parking/HallOcrPolicy.hpp:34-40 OcrFold] *)
Record OcrFold := mkOcrFold {
  of_tracked : bool;
  of_resolved : bool;
  of_exhausted : bool;
  of_releaseHeldImage : bool;
  of_attempts : nat
}.
Definition no_fold : OcrFold := mkOcrFold false false false false 0.

(** [include/parking/HallOcrPolicy.hpp:42-47 CloseReport] *)
Record CloseReport := mkCloseReport {
  clr_tracked : bool;
  clr_state : OcrSessionState;
  clr_attempts : nat;
  clr_settledAtClose : bool
}.

Abbreviation policy_map := (gmap string OcrSession).

(** * The policy *)

(** [src/parking/HallOcrPolicy.cpp:26-27 HallOcrPolicy::HallOcrPolicy] *)
Definition policy_maxAttempts (maxAttempts : Z) : nat := Z.to_nat (Z.max 1 maxAttempts).

(** [src/parking/HallOcrPolicy.cpp:29-32 HallOcrPolicy::openSession] *)
Definition openSession (sessions : policy_map) (sessionId : string) : policy_map :=
  match sessions !! sessionId with
  | Some _ => sessions
  | None => <[sessionId := new_ocr_session]> sessions
  end.

(** [src/parking/HallOcrPolicy.cpp:34-50 HallOcrPolicy::closeSession] *)
Definition closeSession (sessions : policy_map) (sessionId : string) : CloseReport * policy_map :=
  match sessions !! sessionId with
  | None => (mkCloseReport false OcrPending 0 false, sessions)
  | Some found =>
      let settle := bool_decide (os_result found = OcrPending) && Nat.ltb 0 (os_attempts found) in
      (mkCloseReport true (if settle then OcrFailed else os_result found) (os_attempts found) settle,
       delete sessionId sessions)
  end.

(** [src/parking/HallOcrPolicy.cpp:124-128 HallOcrPolicy::stageRef] *)
Definition stageRef (s : OcrSession) (stage : CaptureStage) : StageState :=
  match stage with Second60s => os_stage60 s | First30s => os_stage30 s end.
Definition set_stage (s : OcrSession) (stage : CaptureStage) (st : StageState) : OcrSession :=
  match stage with
  | Second60s => mkOcrSession (os_result s) (os_stage30 s) st (os_attempts s)
  | First30s => mkOcrSession (os_result s) st (os_stage60 s) (os_attempts s)
  end.

Definition image_arrived (s : OcrSession) (stage : CaptureStage) : ImageAction * OcrSession :=
  if negb (bool_decide (os_result s = OcrPending)) then (StoreEvidenceOnly, s) else
  if negb (bool_decide (stageRef s stage = NotArrived)) then (StoreEvidenceOnly, s) else
  if bool_decide (stage = Second60s) && bool_decide (os_stage30 s = Running)
  then (HoldForPendingOcr, set_stage s stage Held)
  else (RunOcr, set_stage s stage Running).

(** [src/parking/HallOcrPolicy.cpp:52-73 HallOcrPolicy::onImageArrived] *)
Definition onImageArrived (sessions : policy_map) (sessionId : string) (stage : CaptureStage)
    : ImageAction * policy_map :=
  match sessions !! sessionId with
  | None => (DropImage, sessions)
  | Some s => let '(action, s') := image_arrived s stage in (action, <[sessionId := s']> sessions)
  end.

Definition drop_held (s : OcrSession) : OcrSession :=
  if bool_decide (os_stage60 s = Held) then set_stage s Second60s StageDone else s.
Definition with_result (s : OcrSession) (r : OcrSessionState) : OcrSession :=
  mkOcrSession r (os_stage30 s) (os_stage60 s) (os_attempts s).
Definition with_attempts (s : OcrSession) (n : nat) : OcrSession :=
  mkOcrSession (os_result s) (os_stage30 s) (os_stage60 s) n.

Definition ocr_result (maxAttempts : nat) (s : OcrSession) (stage : CaptureStage)
    (recognized : bool) : OcrFold * OcrSession :=
  if negb (bool_decide (stageRef s stage = Running)) then (no_fold, s) else
  let s1 := set_stage s stage StageDone in
  if recognized then
    (mkOcrFold true true false false (os_attempts s1), drop_held (with_result s1 OcrResolved))
  else
    let s2 := with_attempts s1 (S (os_attempts s1)) in
    if Nat.leb maxAttempts (os_attempts s2)
    then (mkOcrFold true false true false (os_attempts s2), drop_held (with_result s2 OcrFailed))
    else if bool_decide (os_stage60 s2 = Held)
    then (mkOcrFold true false false true (os_attempts s2), set_stage s2 Second60s Running)
    else (mkOcrFold true false false false (os_attempts s2), s2).

(** [src/parking/HallOcrPolicy.cpp:75-110 HallOcrPolicy::onOcrResult] *)
Definition onOcrResult (maxAttempts : nat) (sessions : policy_map) (sessionId : string)
    (stage : CaptureStage) (recognized : bool) : OcrFold * policy_map :=
  match sessions !! sessionId with
  | None => (no_fold, sessions)
  | Some s =>
      let '(fold, s') := ocr_result maxAttempts s stage recognized in
      (fold, <[sessionId := s']> sessions)
  end.

(** [src/parking/HallOcrPolicy.cpp:112-117 HallOcrPolicy::state] *)
Definition policy_state (sessions : policy_map) (sessionId : string) : OcrSessionState :=
  match sessions !! sessionId with Some s => os_result s | None => OcrPending end.

(** * The coordinator *)

(** [include/parking/HallCaptureTypes.hpp:27-35 CapturedImage] *)
Record CapturedImage (roi : Type) := mkCapturedImage {
  ci_sessionId : Z;
  ci_slotId : string;
  ci_stage : CaptureStage;
  ci_originalPath : string;
  ci_enhancedPath : string;
  ci_roi : roi;
  ci_roiRevision : N
}.
Arguments mkCapturedImage {roi}. Arguments ci_sessionId {roi}. Arguments ci_stage {roi}.
Arguments ci_slotId {roi}.

(** [include/parking/HallCaptureTypes.hpp:37-44 HallOcrOutcome]
    The confidence, which no operation reads, is left out. *)
Record HallOcrOutcome := mkHallOcrOutcome {
  hoo_sessionId : Z;
  hoo_stage : CaptureStage;
  hoo_recognized : bool;
  hoo_plateNumber : string;
  hoo_classification : string
}.

(** [include/parking/HallCaptureTypes.hpp:46-51 ImageStoreResult] *)
Inductive ImageStoreResult := ImageInserted | ImageDuplicate | ImageInactiveSession | ImageFailed.
#[global] Instance ImageStoreResult_eq_dec : EqDecision ImageStoreResult.
Proof. solve_decision. Defined.

(** [include/parking/HallCaptureTypes.hpp:53-58 CaptureImageResult] *)
Inductive CaptureImageResult := CaptureStored | CaptureDuplicate | CaptureInactive | CaptureFailed.

(** [include/parking/HallCaptureCoordinator.hpp:33-37 Binding] *)
Record Binding (roi : Type) := mkBinding {
  bd_sessionId : Z;
  bd_slotId : string;
  bd_heldImage : option (CapturedImage roi)
}.
Arguments mkBinding {roi}. Arguments bd_sessionId {roi}. Arguments bd_slotId {roi}.
Arguments bd_heldImage {roi}.

Definition keyFor (sessionId : Z) : string := pretty sessionId.

(** [std::from_chars] on a signed 64-bit integer, all of the text consumed. *)
Definition from_chars_int64 (value : string) : option Z :=
  let signed neg text :=
    match digits_value text with
    | Some n => let z := if (neg : bool) then - Z.of_N n else Z.of_N n in
                if bool_decide (- 2 ^ 63 <= z < 2 ^ 63) then Some z else None
    | None => None
    end in
  match value with
  | String "-" rest => signed true rest
  | _ => signed false value
  end.

(** [src/parking/HallCaptureCoordinator.cpp:27-37 HallCaptureCoordinator::parseSessionId] *)
Definition parseSessionId (value : string) : option Z :=
  match from_chars_int64 value with
  | Some parsed => if bool_decide (parsed < 0) then None else Some parsed
  | None => None
  end.

Section Coordinator.
Context {roi : Type} (maxAttempts : nat).

(** The calls on the ports that are set. *)
Inductive hall_effect :=
| SubmitOcr (image : CapturedImage roi)
| WriteOcrFailure (sessionId : Z) (slotId : string) (attempts : nat)
| HandleRecognizedSession (sessionId : Z) (slotId plateNumber : string).

Record Coordinator := mkCoordinator {
  hc_policy : policy_map;
  hc_bindings : gmap string (Binding roi)
}.

(** [src/parking/HallCaptureCoordinator.cpp:39-93 HallCaptureCoordinator::onTransition] *)
Definition hall_onTransition (c : Coordinator) (transition : ParkingTransitionResult)
    : list hall_effect * Coordinator :=
  match ptr_code transition with
  | SessionStarted =>
      match parseSessionId (ptr_sessionId transition) with
      | None => ([], c)
      | Some sessionId =>
          let key := keyFor sessionId in
          let policy := openSession (hc_policy c) key in
          let bindings := match hc_bindings c !! key with
            | Some _ => hc_bindings c
            | None => <[key := mkBinding sessionId (ptr_slotId transition) None]> (hc_bindings c)
            end in
          ([], mkCoordinator policy bindings)
      end
  | SessionCompleted =>
      match parseSessionId (ptr_sessionId transition) with
      | None => ([], c)
      | Some sessionId =>
          let key := keyFor sessionId in
          match hc_bindings c !! key with
          | None => ([], c)
          | Some binding =>
              let '(report, policy) := closeSession (hc_policy c) key in
              ((if clr_settledAtClose report
                then [WriteOcrFailure (bd_sessionId binding) (bd_slotId binding)
                        (clr_attempts report)] else []),
               mkCoordinator policy (delete key (hc_bindings c)))
          end
      end
  | _ => ([], c)
  end.

(** The image log's answer [stored] is the answer of the database port. *)

(** [src/parking/HallCaptureCoordinator.cpp:95-127 HallCaptureCoordinator::onCaptureImage] *)
Definition onCaptureImage (c : Coordinator) (image : CapturedImage roi)
    (stored : ImageStoreResult) : CaptureImageResult * list hall_effect * Coordinator :=
  let key := keyFor (ci_sessionId image) in
  match hc_bindings c !! key with
  | None => (CaptureInactive, [], c)
  | Some binding =>
      match stored with
      | ImageDuplicate => (CaptureDuplicate, [], c)
      | ImageInactiveSession => (CaptureInactive, [], c)
      | ImageFailed => (CaptureFailed, [], c)
      | ImageInserted =>
          let '(action, policy) := onImageArrived (hc_policy c) key (ci_stage image) in
          match action with
          | DropImage => (CaptureInactive, [], mkCoordinator policy (hc_bindings c))
          | HoldForPendingOcr =>
              (CaptureStored, [],
               mkCoordinator policy
                 (<[key := mkBinding (bd_sessionId binding) (bd_slotId binding) (Some image)]>
                    (hc_bindings c)))
          | RunOcr => (CaptureStored, [SubmitOcr image], mkCoordinator policy (hc_bindings c))
          | StoreEvidenceOnly => (CaptureStored, [], mkCoordinator policy (hc_bindings c))
          end
      end
  end.

(** [src/parking/HallCaptureCoordinator.cpp:129-171 HallCaptureCoordinator::onOcrOutcome] *)
Definition onOcrOutcome (c : Coordinator) (outcome : HallOcrOutcome)
    : list hall_effect * Coordinator :=
  let key := keyFor (hoo_sessionId outcome) in
  match hc_bindings c !! key with
  | None => ([], c)
  | Some binding =>
      let '(fold, policy) :=
        onOcrResult maxAttempts (hc_policy c) key (hoo_stage outcome) (hoo_recognized outcome) in
      if negb (of_tracked fold) then ([], mkCoordinator policy (hc_bindings c)) else
      let slotId := bd_slotId binding in
      let releasedImage := if of_releaseHeldImage fold then bd_heldImage binding else None in
      let c' := mkCoordinator policy
        (<[key := mkBinding (bd_sessionId binding) slotId None]> (hc_bindings c)) in
      if of_resolved fold
      then ([HandleRecognizedSession (hoo_sessionId outcome) slotId (hoo_plateNumber outcome)], c')
      else match releasedImage with
      | Some image => ([SubmitOcr image], c')
      | None =>
          if of_exhausted fold
          then ([WriteOcrFailure (hoo_sessionId outcome) slotId (of_attempts fold)], c')
          else ([], c')
      end
  end.

(** [src/parking/HallCaptureCoordinator.cpp:173-176 HallCaptureCoordinator::trackedSessions] *)
Definition hall_trackedSessions (c : Coordinator) : nat := size (hc_bindings c).

Inductive hall_call :=
| HallTransition (t : ParkingTransitionResult)
| HallImage (image : CapturedImage roi) (stored : ImageStoreResult)
| HallOutcome (outcome : HallOcrOutcome).

Definition hall_step (c : Coordinator) (call : hall_call) : list hall_effect * Coordinator :=
  match call with
  | HallTransition t => hall_onTransition c t
  | HallImage image stored => let '(_, out, c') := onCaptureImage c image stored in (out, c')
  | HallOutcome o => onOcrOutcome c o
  end.

Fixpoint hall_run (c : Coordinator) (calls : list hall_call) : list hall_effect * Coordinator :=
  match calls with
  | [] => ([], c)
  | call :: calls' =>
      let '(out, c1) := hall_step c call in
      let '(outs, c2) := hall_run c1 calls' in (out ++ outs, c2)
  end.

Definition hall_started (call : hall_call) : option Z :=
  match call with
  | HallTransition t =>
      match ptr_code t with
      | SessionStarted => parseSessionId (ptr_sessionId t)
      | _ => None
      end
  | _ => None
  end.
End Coordinator.
Arguments Coordinator : clear implicits.
Arguments hall_effect : clear implicits.
Arguments hall_call : clear implicits.

(** * The life of one session in the policy *)

Definition running (st : StageState) : nat := match st with Running => 1 | _ => 0 end.
Definition submitted (st : StageState) : nat :=
  match st with Running | StageDone => 1 | _ => 0 end.

(** The submissions of each stage, the recognitions and the failure reports of a
    session, against the state of the policy. *)
Record session_tally (maxAttempts : nat) (p : OcrSession) (n30 n60 rec fail : nat) : Prop := {
  st_30 : n30 = submitted (os_stage30 p);
  st_60 : (n60 <= submitted (os_stage60 p))%nat;
  st_sum : (rec + os_attempts p + running (os_stage30 p) + running (os_stage60 p) = n30 + n60)%nat;
  st_resolved : bool_decide (os_result p = OcrResolved) = Nat.ltb 0 rec;
  st_failed : bool_decide (os_result p = OcrFailed) = Nat.leb maxAttempts (os_attempts p);
  st_fail : fail = if bool_decide (os_result p = OcrFailed) then 1%nat else 0%nat;
  st_held : os_stage60 p = Held -> os_stage30 p = Running /\ os_result p = OcrPending;
  st_not_held : os_stage30 p <> Held
}.

(** What remains true once the session is closed. *)
Definition closed_tally (n30 n60 rec fail : nat) : Prop :=
  (n30 <= 1 /\ n60 <= 1 /\ fail <= 1 /\ (fail = 0 \/ rec = 0))%nat.

Lemma submitted_le st : (submitted st <= 1)%nat.
Proof. destruct st; simpl; lia. Qed.

#[local] Arguments Nat.leb _ _ : simpl never.
#[local] Arguments Nat.ltb _ _ : simpl never.

Lemma session_tally_new max : (2 <= max)%nat -> session_tally max new_ocr_session 0 0 0 0.
Proof. intros. split; simpl; try done; lia. Qed.

(** Decide one combination of the two stages and the result. *)
Ltac tally := split; simpl in *; try done; try lia.

Lemma image_arrived_tally max p stage n30 n60 rec fail action p' :
  image_arrived p stage = (action, p') ->
  session_tally max p n30 n60 rec fail ->
  let run := if bool_decide (action = RunOcr) then 1%nat else 0%nat in
  session_tally max p'
    (n30 + if bool_decide (stage = First30s) then run else 0)
    (n60 + if bool_decide (stage = Second60s) then run else 0) rec fail /\
  (os_stage60 p' = Held <-> action = HoldForPendingOcr \/ os_stage60 p = Held) /\
  (action = HoldForPendingOcr -> stage = Second60s) /\ action <> DropImage.
Proof.
  intros H [H30 H60 Hsum Hres Hfail Hf Hheld Hnh]. cbv zeta.
  destruct p as [result s30 s60 attempts]. simpl in *.
  unfold image_arrived, stageRef, set_stage in H. simpl in H.
  destruct result; simpl in *;
    [|injection H as <- <-; destruct stage; simpl; (split; [tally|naive_solver])..].
  destruct stage, s30, s60; simpl in *; injection H as <- <-; simpl;
    (split; [tally|naive_solver]); intros; by destruct Hheld.
Qed.

(** A held picture implies that the first one is still running, so a result for the
    second stage finds nothing held. *)
Lemma ocr_result_tally max p stage b n30 n60 rec fail fold p' :
  (2 <= max)%nat ->
  ocr_result max p stage b = (fold, p') ->
  session_tally max p n30 n60 rec fail ->
  session_tally max p' n30
    (n60 + if of_releaseHeldImage fold then 1 else 0)
    (rec + if of_resolved fold then 1 else 0)
    (fail + if of_exhausted fold then 1 else 0) /\
  (of_tracked fold = false -> p' = p /\ fold = no_fold) /\
  (of_tracked fold = true -> os_stage60 p' <> Held) /\
  (of_releaseHeldImage fold = true -> os_stage60 p = Held /\ of_resolved fold = false /\
     of_exhausted fold = false) /\
  (of_resolved fold = true -> of_exhausted fold = false).
Proof.
  intros Hmax H [H30 H60 Hsum Hres Hfail Hf Hheld Hnh].
  destruct p as [result s30 s60 attempts]. simpl in *.
  pose proof (submitted_le s30). pose proof (submitted_le s60).
  unfold ocr_result, stageRef, set_stage, drop_held, with_result, with_attempts in H. simpl in H.
  destruct (decide (s60 = Held)) as [->|Hn60]; [destruct Hheld as [-> ->]; [done|]|].
  - destruct stage; simpl in H; [|injection H as <- <-; simpl; (split; [tally|naive_solver])].
    destruct b; [|destruct (Nat.leb max (S attempts)) eqn:Hle]; injection H as <- <-; simpl;
      (split; [tally|naive_solver]).
  - clear Hheld. destruct (decide (stageRef (mkOcrSession result s30 s60 attempts) stage = Running))
      as [Hrun|Hrun]; unfold stageRef in Hrun; simpl in Hrun.
    + destruct stage; subst; simpl in H;
      rewrite ?(bool_decide_eq_false_2 (s60 = Held)) in H by done; simpl in H;
      (destruct b; [|destruct (Nat.leb max (S attempts)) eqn:Hle]); injection H as <- <-;
        destruct result; simpl in *; (split; [tally|naive_solver]).
    + rewrite (bool_decide_eq_false_2 (_ = Running)) in H by done. injection H as <- <-. simpl.
      split; [tally|naive_solver].
Qed.

(** * The life of one session in the coordinator *)

Section CoordinatorInvariant.
Context {roi : Type} (maxAttempts : nat) (Hmax : (2 <= maxAttempts)%nat).

Definition count (f : hall_effect roi -> bool) (out : list (hall_effect roi)) : nat :=
  length (List.filter f out).
Definition submits (z : Z) (stage : CaptureStage) : list (hall_effect roi) -> nat :=
  count (fun e => match e with
    | SubmitOcr image => bool_decide (ci_sessionId image = z) && bool_decide (ci_stage image = stage)
    | _ => false end).
Definition recognitions (z : Z) : list (hall_effect roi) -> nat :=
  count (fun e => match e with HandleRecognizedSession id _ _ => bool_decide (id = z) | _ => false end).
Definition failures (z : Z) : list (hall_effect roi) -> nat :=
  count (fun e => match e with WriteOcrFailure id _ _ => bool_decide (id = z) | _ => false end).

Definition held_ok (z : Z) (b : Binding roi) (p : OcrSession) : Prop :=
  match bd_heldImage b with
  | Some image => os_stage60 p = Held /\ ci_stage image = Second60s /\ ci_sessionId image = z
  | None => os_stage60 p <> Held
  end.

Definition session_inv (z : Z) (c : Coordinator roi) (n30 n60 rec fail : nat) (begun : bool)
    : Prop :=
  match hc_bindings c !! keyFor z, hc_policy c !! keyFor z with
  | Some b, Some p => begun = true /\ bd_sessionId b = z /\ held_ok z b p /\
      session_tally maxAttempts p n30 n60 rec fail
  | None, None => closed_tally n30 n60 rec fail /\
      (begun = false -> n30 = 0 /\ n60 = 0 /\ rec = 0 /\ fail = 0)%nat
  | _, _ => False
  end.

Definition out_inv (z : Z) (c : Coordinator roi) (out : list (hall_effect roi)) (begun : bool)
    : Prop :=
  session_inv z c (submits z First30s out) (submits z Second60s out)
    (recognitions z out) (failures z out) begun.

Lemma count_app f o1 o2 : count f (o1 ++ o2) = (count f o1 + count f o2)%nat.
Proof. unfold count. by rewrite List.filter_app, length_app. Qed.

Lemma out_inv_app z c out o b :
  out_inv z c (out ++ o) b <->
  session_inv z c (submits z First30s out + submits z First30s o)
    (submits z Second60s out + submits z Second60s o)
    (recognitions z out + recognitions z o) (failures z out + failures z o) b.
Proof. unfold out_inv, submits, recognitions, failures. by rewrite !count_app. Qed.

Lemma out_inv_nil z c out b : out_inv z c out b -> out_inv z c (out ++ []) b.
Proof. by rewrite app_nil_r. Qed.

Lemma keyFor_inj z z' : keyFor z = keyFor z' -> z = z'.
Proof. apply (inj pretty). Qed.

(** Calls about other sessions do not matter. *)
Lemma session_inv_frame z c c' n30 n60 rec fail b :
  hc_bindings c' !! keyFor z = hc_bindings c !! keyFor z ->
  hc_policy c' !! keyFor z = hc_policy c !! keyFor z ->
  session_inv z c n30 n60 rec fail b -> session_inv z c' n30 n60 rec fail b.
Proof. unfold session_inv. by intros -> ->. Qed.

Lemma tally_close p n30 n60 rec fail settle :
  settle = bool_decide (os_result p = OcrPending) && Nat.ltb 0 (os_attempts p) ->
  session_tally maxAttempts p n30 n60 rec fail ->
  closed_tally n30 n60 rec (fail + if settle then 1 else 0).
Proof.
  intros -> [H30 H60 Hsum Hres Hfail Hf _ _].
  pose proof (submitted_le (os_stage30 p)). pose proof (submitted_le (os_stage60 p)).
  unfold closed_tally. destruct (os_result p); simpl in *; destruct (Nat.ltb 0 (os_attempts p)); lia.
Qed.

(** The session a call is about. *)
Definition call_session (call : hall_call roi) : option Z :=
  match call with
  | HallTransition t => parseSessionId (ptr_sessionId t)
  | HallImage image _ => Some (ci_sessionId image)
  | HallOutcome o => Some (hoo_sessionId o)
  end.

(** Bindings sit under the key of their own session. *)
Definition bindings_ok (c : Coordinator roi) : Prop :=
  map_Forall (fun k b => k = keyFor (bd_sessionId b) /\
    forall image, bd_heldImage b = Some image -> ci_sessionId image = bd_sessionId b)
    (hc_bindings c).

Lemma bindings_ok_id c z b :
  bindings_ok c -> hc_bindings c !! keyFor z = Some b -> bd_sessionId b = z.
Proof. intros Hok Hb. destruct (Hok _ _ Hb) as [Hk _]. symmetry. by apply keyFor_inj. Qed.

Lemma bindings_ok_insert p c z b slot held :
  bindings_ok c -> hc_bindings c !! keyFor z = Some b ->
  (forall image, held = Some image -> ci_sessionId image = z) ->
  bindings_ok (mkCoordinator p (<[keyFor z := mkBinding (bd_sessionId b) slot held]> (hc_bindings c))).
Proof.
  intros Hok Hb Hh. apply map_Forall_insert_2; [|done]. simpl.
  pose proof (bindings_ok_id _ _ _ Hok Hb) as ->. by split.
Qed.

Lemma step_bindings_ok c call : bindings_ok c -> bindings_ok (hall_step maxAttempts c call).2.
Proof.
  intros Hok. destruct call as [t|image stored|o]; simpl.
  - unfold hall_onTransition. destruct (ptr_code t); try done.
    + destruct (parseSessionId _) as [z|]; [|done]. simpl.
      destruct (hc_bindings c !! keyFor z) as [b|] eqn:Hb; [done|].
      apply map_Forall_insert_2; [|done]. by split.
    + destruct (parseSessionId _) as [z|]; [|done].
      destruct (hc_bindings c !! keyFor z) as [b|] eqn:Hb; [|done].
      destruct (closeSession _ _). simpl. by apply map_Forall_delete.
  - unfold onCaptureImage. destruct (hc_bindings c !! _) as [b|] eqn:Hb; [|done].
    destruct stored; try done. destruct (onImageArrived _ _ _) as [[] p]; simpl; try done.
    apply (bindings_ok_insert _ _ _ b); [done..|]. by intros ? [= <-].
  - unfold onOcrOutcome. destruct (hc_bindings c !! _) as [b|] eqn:Hb; [|done].
    destruct (onOcrResult _ _ _ _ _) as [f p]. destruct (of_tracked f); simpl; [|done].
    assert (Hx : bindings_ok (mkCoordinator p (<[keyFor (hoo_sessionId o) :=
      mkBinding (bd_sessionId b) (bd_slotId b) None]> (hc_bindings c))))
      by by apply (bindings_ok_insert _ _ _ b).
    destruct (of_resolved f); [done|]. destruct (if of_releaseHeldImage f then bd_heldImage b else None); [done|].
    by destruct (of_exhausted f).
Qed.

Definition silent (z : Z) (out : list (hall_effect roi)) : Prop :=
  (submits z First30s out = 0 /\ submits z Second60s out = 0 /\
   recognitions z out = 0 /\ failures z out = 0)%nat.

Lemma silent_nil z : silent z [].
Proof. done. Qed.

Lemma silent_one z e :
  match e with
  | SubmitOcr image => ci_sessionId image <> z
  | WriteOcrFailure id _ _ | HandleRecognizedSession id _ _ => id <> z
  end -> silent z [e].
Proof.
  unfold silent, submits, recognitions, failures, count.
  destruct e; simpl; intros H; by rewrite bool_decide_eq_false_2.
Qed.

(** Calls about one session do not touch another. *)
Lemma step_other z c call :
  bindings_ok c -> call_session call <> Some z ->
  silent z (hall_step maxAttempts c call).1 /\
  hc_bindings (hall_step maxAttempts c call).2 !! keyFor z = hc_bindings c !! keyFor z /\
  hc_policy (hall_step maxAttempts c call).2 !! keyFor z = hc_policy c !! keyFor z.
Proof.
  intros Hok Hne. destruct call as [t|image stored|o]; simpl in *.
  - unfold hall_onTransition. destruct (ptr_code t); simpl; try (split; [apply silent_nil|done]).
    + destruct (parseSessionId _) as [s|]; simpl; [|split; [apply silent_nil|done]].
      assert (keyFor s <> keyFor z) by (intros ?%keyFor_inj; congruence).
      split; [apply silent_nil|]. split.
      * destruct (hc_bindings c !! keyFor s); [done|]. by rewrite lookup_insert_ne.
      * unfold openSession. destruct (hc_policy c !! keyFor s); [done|]. by rewrite lookup_insert_ne.
    + destruct (parseSessionId _) as [s|]; simpl; [|split; [apply silent_nil|done]].
      assert (keyFor s <> keyFor z) by (intros ?%keyFor_inj; congruence).
      destruct (hc_bindings c !! keyFor s) as [b|] eqn:Hb; simpl; [|split; [apply silent_nil|done]].
      pose proof (bindings_ok_id _ _ _ Hok Hb) as Hid.
      unfold closeSession. destruct (hc_policy c !! keyFor s); simpl.
      * split; [|by rewrite !lookup_delete_ne].
        destruct (_ && _); [apply silent_one; congruence|apply silent_nil].
      * split; [apply silent_nil|]. by rewrite lookup_delete_ne.
  - assert (keyFor (ci_sessionId image) <> keyFor z) by (intros ?%keyFor_inj; congruence).
    unfold onCaptureImage. destruct (hc_bindings c !! _) as [b|] eqn:Hb; simpl;
      [|split; [apply silent_nil|done]].
    destruct stored; simpl; try (split; [apply silent_nil|done]). unfold onImageArrived.
    destruct (hc_policy c !! keyFor (ci_sessionId image)) as [p|]; simpl; [|split; [apply silent_nil|done]].
    destruct (image_arrived p (ci_stage image)) as [[] p']; simpl;
      rewrite !lookup_insert_ne by done;
      (split; [first [apply silent_one; congruence | apply silent_nil]|done]).
  - assert (keyFor (hoo_sessionId o) <> keyFor z) by (intros ?%keyFor_inj; congruence).
    unfold onOcrOutcome. destruct (hc_bindings c !! _) as [b|] eqn:Hb; simpl;
      [|split; [apply silent_nil|done]].
    pose proof (bindings_ok_id _ _ _ Hok Hb) as Hid. destruct (Hok _ _ Hb) as [_ Hheld].
    unfold onOcrResult.
    destruct (hc_policy c !! keyFor (hoo_sessionId o)) as [p|]; simpl; [|split; [apply silent_nil|done]].
    destruct (ocr_result _ _ _ _) as [f p']; simpl.
    destruct (of_tracked f); simpl; [|rewrite lookup_insert_ne by done; split; [apply silent_nil|done]].
    destruct (of_resolved f); simpl; rewrite ?lookup_insert_ne by done.
    { split; [apply silent_one; congruence|done]. }
    destruct (if of_releaseHeldImage f then bd_heldImage b else None) as [img|] eqn:Himg; simpl;
      rewrite ?lookup_insert_ne by done.
    { split; [|done]. apply silent_one. destruct (of_releaseHeldImage f); [|done].
      rewrite (Hheld _ Himg). congruence. }
    destruct (of_exhausted f); simpl; rewrite ?lookup_insert_ne by done;
      (split; [first [apply silent_one; congruence | apply silent_nil]|done]).
Qed.

Lemma counts_one z e :
  submits z First30s [e] = (match e with SubmitOcr i => if bool_decide (ci_sessionId i = z) && bool_decide (ci_stage i = First30s) then 1 else 0 | _ => 0 end)%nat /\
  submits z Second60s [e] = (match e with SubmitOcr i => if bool_decide (ci_sessionId i = z) && bool_decide (ci_stage i = Second60s) then 1 else 0 | _ => 0 end)%nat /\
  recognitions z [e] = (match e with HandleRecognizedSession id _ _ => if bool_decide (id = z) then 1 else 0 | _ => 0 end)%nat /\
  failures z [e] = (match e with WriteOcrFailure id _ _ => if bool_decide (id = z) then 1 else 0 | _ => 0 end)%nat.
Proof.
  unfold submits, recognitions, failures, count. destruct e; simpl; split_and!; try done;
    by destruct (_ && _) || destruct (bool_decide _).
Qed.

Lemma session_inv_eq z c a b d e a' b' d' e' g :
  session_inv z c a b d e g -> a' = a -> b' = b -> d' = d -> e' = e ->
  session_inv z c a' b' d' e' g.
Proof. by intros ? -> -> -> ->. Qed.

(** Close the accounting of a step that emits at most one effect. *)
Ltac account :=
  first
  [ rewrite app_nil_r; unfold out_inv
  | rewrite out_inv_app;
    match goal with
    | |- session_inv ?z _ (_ + submits _ _ [?e])%nat _ _ _ _ =>
        let H1 := fresh in let H2 := fresh in let H3 := fresh in let H4 := fresh in
        destruct (counts_one z e) as (H1 & H2 & H3 & H4);
        rewrite H1, H2, H3, H4; clear H1 H2 H3 H4
    end ].

Lemma same_transition z c t out b :
  bindings_ok c -> out_inv z c out b -> parseSessionId (ptr_sessionId t) = Some z ->
  (hall_started (HallTransition t : hall_call roi) = Some z -> b = false) ->
  out_inv z (hall_onTransition c t).2 (out ++ (hall_onTransition c t).1)
    (b || bool_decide (hall_started (HallTransition t : hall_call roi) = Some z)).
Proof.
  intros Hok H Hp Hb. unfold hall_onTransition, hall_started in *. rewrite Hp in *.
  destruct (ptr_code t) eqn:Hc; simpl; try (rewrite app_nil_r, orb_false_r; exact H).
  - specialize (Hb eq_refl). subst b. rewrite app_nil_r.
    rewrite (bool_decide_eq_true_2 (Some z = Some z)) by done.
    unfold out_inv, session_inv in *. simpl.
    destruct (hc_bindings c !! keyFor z) as [bd|] eqn:Hbd; [by destruct (hc_policy c !! keyFor z), H|].
    unfold openSession. destruct (hc_policy c !! keyFor z) as [p|] eqn:Hpol; [done|].
    rewrite !lookup_insert_eq. destruct H as [_ H]. destruct (H eq_refl) as (-> & -> & -> & ->).
    split; [done|]. split; [done|]. split; [done|]. by apply session_tally_new.
  - rewrite orb_false_r. unfold out_inv in H.
    destruct (hc_bindings c !! keyFor z) as [bd|] eqn:Hbd; simpl; [|by apply out_inv_nil].
    unfold closeSession. unfold session_inv in H. rewrite Hbd in H.
    destruct (hc_policy c !! keyFor z) as [p|] eqn:Hpol; simpl; [|done].
    destruct H as (-> & Hid & _ & Ht).
    apply (tally_close p _ _ _ _ _ eq_refl) in Ht. rewrite Hid in *.
    destruct (_ && _); account; unfold session_inv; simpl; rewrite !lookup_delete_eq;
      (split; [|done]); rewrite ?bool_decide_eq_true_2 by done; by rewrite !Nat.add_0_r in *.
Qed.

Lemma same_image z c image stored out b :
  out_inv z c out b -> ci_sessionId image = z ->
  out_inv z (onCaptureImage c image stored).2 (out ++ (onCaptureImage c image stored).1.2) b.
Proof.
  intros H Hz. unfold onCaptureImage. rewrite Hz.
  destruct (hc_bindings c !! keyFor z) as [bd|] eqn:Hbd; simpl; [|by apply out_inv_nil].
  destruct stored; simpl; try by apply out_inv_nil.
  unfold out_inv, session_inv in H. rewrite Hbd in H. unfold onImageArrived.
  destruct (hc_policy c !! keyFor z) as [p|] eqn:Hpol; [|done].
  destruct H as (-> & Hid & Hh & Ht).
  destruct (image_arrived p (ci_stage image)) as [action p'] eqn:Ha.
  destruct (image_arrived_tally _ _ _ _ _ _ _ _ _ Ha Ht) as (Ht' & Hheld & Hst & Hnd). clear Ht.
  assert (Hsame : action <> HoldForPendingOcr -> held_ok z bd p').
  { intros Hn. unfold held_ok in *. destruct (bd_heldImage bd) as [img|]; naive_solver. }
  destruct action; simpl; account; unfold session_inv; simpl;
    rewrite ?Hbd, ?lookup_insert_eq; simpl in *; try done;
    rewrite ?(bool_decide_eq_true_2 (ci_sessionId image = z)), ?Nat.add_0_r by done; simpl;
    destruct (ci_stage image) eqn:Hs; simpl in *; rewrite ?Nat.add_0_r in *;
    try (split_and!; naive_solver).
  split; [done|]. split; [done|]. split; [|done]. unfold held_ok. simpl.
  split; [by apply Hheld; left|done].
Qed.

Lemma same_outcome z c o out b :
  out_inv z c out b -> hoo_sessionId o = z ->
  out_inv z (onOcrOutcome maxAttempts c o).2 (out ++ (onOcrOutcome maxAttempts c o).1) b.
Proof.
  intros H Hz. unfold onOcrOutcome. rewrite Hz.
  destruct (hc_bindings c !! keyFor z) as [bd|] eqn:Hbd; simpl; [|by apply out_inv_nil].
  unfold out_inv, session_inv in H. rewrite Hbd in H. unfold onOcrResult.
  destruct (hc_policy c !! keyFor z) as [p|] eqn:Hpol; [|done].
  destruct H as (-> & Hid & Hh & Ht).
  destruct (ocr_result maxAttempts p (hoo_stage o) (hoo_recognized o)) as [f p'] eqn:Hf. simpl.
  destruct (ocr_result_tally _ _ _ _ _ _ _ _ _ _ Hmax Hf Ht) as (Ht' & Hun & Htr & Hrel & Hres).
  destruct (of_tracked f) eqn:Htk; simpl.
  2: { destruct (Hun eq_refl) as [-> ->]. simpl in Ht'. account. unfold session_inv. simpl.
       rewrite Hbd, lookup_insert_eq. by rewrite !Nat.add_0_r in *. }
  specialize (Htr eq_refl).
  assert (Hnew : held_ok z (mkBinding (bd_sessionId bd) (bd_slotId bd) None) p') by done.
  destruct (of_releaseHeldImage f) eqn:Hr.
  - destruct (Hrel eq_refl) as (Hhd & Hnr & Hne). rewrite Hnr, Hne in *. unfold held_ok in Hh.
    destruct (bd_heldImage bd) as [img|]; [|done]. destruct Hh as (_ & Hs & Hi). simpl.
    account. unfold session_inv. simpl. rewrite !lookup_insert_eq, Hs, Hi.
    rewrite (bool_decide_eq_true_2 (z = z)) by done. simpl. by rewrite !Nat.add_0_r in *.
  - destruct (of_resolved f) eqn:Hrs; [specialize (Hres eq_refl); rewrite Hres in *|];
      [|destruct (of_exhausted f)]; simpl; account; unfold session_inv; simpl;
      rewrite !lookup_insert_eq; rewrite ?(bool_decide_eq_true_2 (z = z)) by done; simpl;
      rewrite ?Nat.add_0_r in *; done.
Qed.

Lemma hall_step_inv z c call out b :
  bindings_ok c -> out_inv z c out b -> (hall_started call = Some z -> b = false) ->
  out_inv z (hall_step maxAttempts c call).2 (out ++ (hall_step maxAttempts c call).1)
    (b || bool_decide (hall_started call = Some z)).
Proof.
  intros Hok H Hb. destruct (decide (call_session call = Some z)) as [Hs|Hs].
  - destruct call as [t|image stored|o]; simpl in Hs.
    + by apply same_transition.
    + simpl. rewrite orb_false_r. injection Hs as Hs.
      pose proof (same_image z c image stored out b H Hs) as Hx.
      by destruct (onCaptureImage c image stored) as [[r o] c'].
    + simpl. rewrite orb_false_r. injection Hs as Hs. by apply same_outcome.
  - destruct (step_other z c call Hok Hs) as ((H1 & H2 & H3 & H4) & Hb' & Hp').
    assert (Hst : hall_started call <> Some z).
    { intros Hx. apply Hs. destruct call; simpl in *; try done. by destruct (ptr_code t). }
    rewrite (bool_decide_eq_false_2 _ Hst), orb_false_r. rewrite out_inv_app, H1, H2, H3, H4.
    rewrite !Nat.add_0_r. eapply session_inv_frame; [exact Hb'|exact Hp'|exact H].
Qed.

Lemma hall_run_inv z calls c out b :
  NoDup (omap hall_started calls) -> (b = true -> z ∉ omap hall_started calls) ->
  bindings_ok c -> out_inv z c out b ->
  exists b', out_inv z (hall_run maxAttempts c calls).2 (out ++ (hall_run maxAttempts c calls).1) b'.
Proof.
  revert c out b. induction calls as [|call calls IH]; intros c out b Hnd Hb Hok H; simpl.
  { exists b. by rewrite app_nil_r. }
  pose proof (hall_step_inv z c call out b Hok H) as Hstep.
  pose proof (step_bindings_ok c call Hok) as Hok1.
  destruct (hall_step maxAttempts c call) as [o c1]. simpl in *.
  assert (Hfirst : hall_started call = Some z -> b = false).
  { intros Hs. destruct b; [|done]. exfalso. apply (Hb eq_refl). rewrite Hs. set_solver. }
  specialize (Hstep Hfirst).
  assert (Htail : NoDup (omap hall_started calls)).
  { destruct (hall_started call); [by apply NoDup_cons in Hnd as [_ ?]|done]. }
  assert (Hnew : b || bool_decide (hall_started call = Some z) = true ->
    z ∉ omap hall_started calls).
  { intros Hor. apply orb_prop in Hor as [Hbt|Hc].
    - specialize (Hb Hbt). destruct (hall_started call); set_solver.
    - apply bool_decide_eq_true_1 in Hc. rewrite Hc in Hnd. by apply NoDup_cons in Hnd as [? _]. }
  destruct (IH c1 (out ++ o) _ Htail Hnew Hok1 Hstep) as [b' Hb'].
  destruct (hall_run maxAttempts c1 calls) as [outs c2]. exists b'. simpl in *; by rewrite app_assoc.
Qed.

Lemma session_inv_closed z c n30 n60 rec fail b :
  session_inv z c n30 n60 rec fail b -> closed_tally n30 n60 rec fail.
Proof.
  unfold session_inv. destruct (hc_bindings c !! keyFor z), (hc_policy c !! keyFor z); try done.
  - intros (_ & _ & _ & [H30 H60 Hsum Hres Hfail Hf _ _]).
    pose proof (submitted_le (os_stage30 o)). pose proof (submitted_le (os_stage60 o)).
    unfold closed_tally. destruct (os_result o); simpl in *; lia.
  - by intros [? _].
Qed.

Definition hall_init : Coordinator roi := mkCoordinator ∅ ∅.

Lemma hall_run_reach z calls :
  NoDup (omap (@hall_started roi) calls) ->
  exists b, out_inv z (hall_run maxAttempts hall_init calls).2
              (hall_run maxAttempts hall_init calls).1 b.
Proof.
  intros Hnd. destruct (hall_run_inv z calls hall_init [] false Hnd) as [b H]; try done.
  - unfold out_inv, session_inv. simpl. rewrite !lookup_empty. split; [|done].
    unfold closed_tally. split_and!; auto.
  - by exists b.
Qed.

(** The recognition of a parking session ends in at most one way: over any
    interleaving of transitions, pictures (late, repeated or of unknown sessions)
    and OCR results, each of the two pictures is submitted to OCR at most once, at
    most one failure is reported, and never both a failure and a recognised plate
    (with at least two attempts allowed, sessions started once each). *)
Theorem hall_ocr_outcome_unique z calls :
  NoDup (omap (@hall_started roi) calls) ->
  let out := (hall_run maxAttempts hall_init calls).1 in
  (submits z First30s out <= 1 /\ submits z Second60s out <= 1 /\
   failures z out <= 1 /\ (failures z out = 0 \/ recognitions z out = 0))%nat.
Proof.
  intros Hnd. destruct (hall_run_reach z calls Hnd) as [b H].
  by apply session_inv_closed in H.
Qed.

(** Coordinator and policy stay in lockstep: in every reachable state the
    same sessions are tracked by both, and a picture is stored for a session exactly
    when the policy holds its 60-second picture behind a running first one, so the
    picture a fold releases is always there. *)
Theorem hall_lockstep z calls :
  NoDup (omap (@hall_started roi) calls) ->
  let c := (hall_run maxAttempts hall_init calls).2 in
  match hc_bindings c !! keyFor z, hc_policy c !! keyFor z with
  | Some b, Some p => bd_sessionId b = z /\
      (is_Some (bd_heldImage b) <-> os_stage60 p = Held) /\
      (os_stage60 p = Held -> os_stage30 p = Running /\ os_result p = OcrPending) /\
      (forall image, bd_heldImage b = Some image ->
         ci_stage image = Second60s /\ ci_sessionId image = z)
  | None, None => True
  | _, _ => False
  end.
Proof.
  intros Hnd c. destruct (hall_run_reach z calls Hnd) as [b H]. fold c in H.
  unfold out_inv, session_inv in H.
  destruct (hc_bindings c !! keyFor z) as [bd|], (hc_policy c !! keyFor z) as [p|]; try done.
  destruct H as (_ & Hid & Hh & Ht). split; [done|]. unfold held_ok in Hh.
  pose proof (st_held _ _ _ _ _ _ Ht).
  destruct (bd_heldImage bd) as [img|]; [|naive_solver].
  split; [naive_solver|]. split; [done|]. naive_solver.
Qed.
End CoordinatorInvariant.

(** * Samples and witnesses *)

Definition hall_sample_image (stage : CaptureStage) : CapturedImage unit :=
  mkCapturedImage 7 "A1" stage "o.jpg" "e.jpg" tt 0.
Definition hall_start : hall_call unit := HallTransition sample_started.
Definition hall_end : hall_call unit :=
  HallTransition (mkParkingTransitionResult SessionCompleted "A1" "7" "" None).
Definition hall_result (stage : CaptureStage) (ok : bool) : hall_call unit :=
  HallOutcome (mkHallOcrOutcome 7 stage ok "12GA3456" "EV").
Definition hall_sample : list (hall_call unit) :=
  [hall_start; HallImage (hall_sample_image First30s) ImageInserted;
   HallImage (hall_sample_image Second60s) ImageInserted;
   hall_result First30s false; hall_result First30s false; hall_result Second60s true; hall_end].

Example hall_sample_out :
  (hall_run 2 hall_init hall_sample).1 =
  [SubmitOcr (hall_sample_image First30s); SubmitOcr (hall_sample_image Second60s);
   HandleRecognizedSession 7 "A1" "12GA3456"].
Proof. vm_compute. reflexivity. Qed.

(** With a single attempt configured a recognised session can still be reported as
    failed: the 60-second picture overtakes the first one and both are submitted. *)
Example one_attempt_resolved_then_failed :
  (hall_run 1 hall_init
     [hall_start; HallImage (hall_sample_image Second60s) ImageInserted;
      HallImage (hall_sample_image First30s) ImageInserted;
      hall_result Second60s true; hall_result First30s false]).1 =
  [SubmitOcr (hall_sample_image Second60s); SubmitOcr (hall_sample_image First30s);
   HandleRecognizedSession 7 "A1" "12GA3456"; WriteOcrFailure 7 "A1" 1].
Proof. vm_compute. reflexivity. Qed.

Lemma hall_sample_once : NoDup (omap (@hall_started unit) hall_sample).
Proof. apply (bool_decide_unpack _). vm_compute. exact I. Defined.

Lemma hall_ocr_outcome_unique_witness :
  (submits 7 First30s (hall_run 2 hall_init hall_sample).1 <= 1)%nat.
Proof.
  apply (hall_ocr_outcome_unique 2 ltac:(lia) 7 hall_sample hall_sample_once).
Defined.

Lemma hall_lockstep_witness :
  match hc_bindings (hall_run 2 hall_init (take 3 hall_sample)).2 !! keyFor 7 with
  | Some b => bd_sessionId b = 7
  | None => False
  end.
Proof.
  pose proof (hall_lockstep 2 ltac:(lia) 7 (take 3 hall_sample)
    ltac:(apply (bool_decide_unpack _); vm_compute; exact I)) as H.
  vm_compute in H |- *. apply H.
Defined.
