(* ===== verification/LoRa.v ===== *)
(** The framing of the LoRa link ([src/device/LoRaDriver.cpp]) and the line and frame
    consumers of the sensor link ([src/device/SensorLinkManager.cpp]). Bytes are [Z]
    in [0, 256). *)
From S2P Require Import Prelude SensorProtocol.

Definition byte_ok (b : Z) : Prop := 0 <= b < 256.
#[global] Instance byte_ok_dec b : Decision (byte_ok b).
Proof. unfold byte_ok. apply _. Defined.

Definition u8 (z : Z) : Z := Z.land z 255.
Definition u16 (z : Z) : Z := Z.land z 65535.

(** * Encoding *)

(** [src/device/LoRaDriver.cpp:10-13 appendU16] *)
Definition appendU16 (value : Z) : list Z := [u8 (Z.shiftr value 8); u8 value].

(** [src/device/LoRaDriver.cpp:15-20 appendU32] *)
Definition appendU32 (value : Z) : list Z :=
  [u8 (Z.shiftr value 24); u8 (Z.shiftr value 16); u8 (Z.shiftr value 8); u8 value].

(** The [i]-th byte; the callers have checked that it exists. *)
Definition byte_at (l : list Z) (i : nat) : Z := nth i l 0.

(** [src/device/LoRaDriver.cpp:22-25 readU16] *)
Definition readU16 (input : list Z) : Z :=
  Z.lor (Z.shiftl (byte_at input 0) 8) (byte_at input 1).

(** [src/device/LoRaDriver.cpp:27-32 readU32] *)
Definition readU32 (input : list Z) : Z :=
  Z.lor (Z.lor (Z.lor (Z.shiftl (byte_at input 0) 24) (Z.shiftl (byte_at input 1) 16))
           (Z.shiftl (byte_at input 2) 8)) (byte_at input 3).

Definition crc_bit (crc : Z) : Z :=
  if negb (Z.eqb (Z.land crc 32768) 0)
  then u16 (Z.lxor (Z.shiftl crc 1) 4129) else u16 (Z.shiftl crc 1).

Definition crc_byte (crc byte : Z) : Z :=
  Nat.iter 8 crc_bit (Z.lxor crc (u16 (Z.shiftl byte 8))).

(** [src/device/LoRaDriver.cpp:36-48 LoRaDriver::crc16Ccitt] *)
Definition crc16Ccitt (bytes : list Z) : Z := foldl crc_byte 65535 bytes.

(** [include/device/LoRaDriver.hpp:20-25 LoRaFrame] *)
Record LoRaFrame := mkLoRaFrame {
  lf_version : Z;
  lf_type : Z;
  lf_sequence : Z;
  lf_payload : list Z
}.

Definition kSof0 : Z := 170.
Definition kSof1 : Z := 85.
Definition kVersion : Z := 1.
Definition kVersionLegacy : Z := 1.
Definition kVersionNodeAware : Z := 2.
Definition kMaxPayload : nat := 512.

(** [include/device/LoRaDriver.hpp:14-18 LoRaMessageType] *)
Definition SensorEvent : Z := 1.
Definition AlertCommand : Z := 2.
Definition Heartbeat : Z := 3.

Definition frame_body (frame : LoRaFrame) : list Z :=
  [kVersion; lf_type frame] ++ appendU32 (lf_sequence frame) ++
  appendU16 (u16 (Z.of_nat (length (lf_payload frame)))) ++ lf_payload frame.

(** [src/device/LoRaDriver.cpp:50-67 LoRaDriver::encode] *)
Definition encode (frame : LoRaFrame) : result string (list Z) :=
  if Nat.ltb kMaxPayload (length (lf_payload frame))
  then Err "LoRa payload exceeds 512 bytes"
  else
    let encoded := [kSof0; kSof1] ++ frame_body frame in
    let crc := crc16Ccitt (drop 2 encoded) in
    Ok (encoded ++ appendU16 crc).

(** * Consuming the byte stream *)

(** The suffix that starts at the first marker ([std::search]). *)
Fixpoint search_sof (buffer : list Z) : option (list Z) :=
  match buffer with
  | [] => None
  | b0 :: rest =>
      match rest with
      | b1 :: _ =>
          if bool_decide (b0 = kSof0) && bool_decide (b1 = kSof1) then Some buffer
          else search_sof rest
      | [] => None
      end
  end.

(** What is kept of a buffer without a marker. *)
Definition keep_tail (buffer : list Z) : list Z :=
  if bool_decide (last buffer = Some kSof0) then [kSof0] else [].

(** One turn of the loop: wait for more bytes, reject one byte, or cut a frame. *)
Inductive consume_outcome :=
| NeedMore (buffer : list Z)
| RejectByte (buffer : list Z)
| CutFrame (frame : LoRaFrame) (buffer : list Z).

(** [src/device/LoRaDriver.cpp:74-115 LoRaDriver::consume] *)
Definition consume_turn (buffer : list Z) : consume_outcome :=
  match search_sof buffer with
  | None => NeedMore (keep_tail buffer)
  | Some buffer =>
      if Nat.ltb (length buffer) 10 then NeedMore buffer else
      let version := byte_at buffer 2 in
      if negb (bool_decide (version = kVersionLegacy)) &&
         negb (bool_decide (version = kVersionNodeAware))
      then RejectByte (drop 1 buffer) else
      let payload_size := Z.to_nat (readU16 (drop 8 buffer)) in
      if Nat.ltb kMaxPayload payload_size then RejectByte (drop 1 buffer) else
      let frame_size := (12 + payload_size)%nat in
      if Nat.ltb (length buffer) frame_size then NeedMore buffer else
      let expected := readU16 (drop (10 + payload_size) buffer) in
      let actual := crc16Ccitt (take (8 + payload_size) (drop 2 buffer)) in
      if negb (bool_decide (expected = actual)) then RejectByte (drop 1 buffer) else
      CutFrame (mkLoRaFrame version (byte_at buffer 3) (readU32 (drop 4 buffer))
                  (take payload_size (drop 10 buffer)))
               (drop frame_size buffer)
  end.

(** The loop; every turn that goes on shortens the buffer, so its length is fuel
    enough. The result lists the frames, the buffer and the rejections. *)
Fixpoint consume_loop (fuel : nat) (buffer : list Z) : list LoRaFrame * list Z * N :=
  match fuel with
  | O => ([], buffer, 0%N)
  | S fuel' =>
      match consume_turn buffer with
      | NeedMore buffer' => ([], buffer', 0%N)
      | RejectByte buffer' =>
          let '(frames, rest, rejected) := consume_loop fuel' buffer' in
          (frames, rest, (rejected + 1)%N)
      | CutFrame frame buffer' =>
          let '(frames, rest, rejected) := consume_loop fuel' buffer' in
          (frame :: frames, rest, rejected)
      end
  end.
Definition drain (buffer : list Z) := consume_loop (S (length buffer)) buffer.

Record LoRaDriver := mkLoRaDriver { lora_buffer : list Z; lora_rejected : N }.

(** [src/device/LoRaDriver.cpp:69-118 LoRaDriver::consume] *)
Definition consume (driver : LoRaDriver) (bytes : list Z) : list LoRaFrame * LoRaDriver :=
  let '(frames, buffer, rejected) := drain (lora_buffer driver ++ bytes) in
  (frames, mkLoRaDriver buffer ((lora_rejected driver + rejected) mod 2 ^ 64)%N).

(** [include/device/LoRaDriver.hpp:34-38 LoRaDestination] *)
Record LoRaDestination := mkLoRaDestination {
  ld_addressHigh : Z;
  ld_addressLow : Z;
  ld_channel : Z
}.

(** The bytes handed to the UART. *)

(** [src/device/LoRaDriver.cpp:120-128 LoRaDriver::send] *)
Definition lora_send (frame : LoRaFrame) : result string (list Z) := encode frame.

(** [src/device/LoRaDriver.cpp:130-145 LoRaDriver::sendTo] *)
Definition lora_sendTo (destination : LoRaDestination) (frame : LoRaFrame)
    : result string (list Z) :=
  let? encoded := encode frame in
  Ok ([ld_addressHigh destination; ld_addressLow destination; ld_channel destination]
        ++ encoded).

(** * The sensor link *)

(** [include/device/SensorLinkManager.hpp:18-22 SensorLinkMode] *)
Inductive SensorLinkMode := LinkDisabled | UartLine | LoRaFrameMode.
#[global] Instance SensorLinkMode_eq_dec : EqDecision SensorLinkMode.
Proof. solve_decision. Defined.

(** [src/device/SensorLinkManager.cpp:55-62 SensorLinkManager::parseMode] *)
Definition parseMode (value : string) : SensorLinkMode :=
  let normalized := smap tolower value in
  if bool_decide (normalized = "uart") || bool_decide (normalized = "uart-line") then UartLine else
  if bool_decide (normalized = "lora") || bool_decide (normalized = "lora-frame")
  then LoRaFrameMode else LinkDisabled.

(** [src/device/SensorLinkManager.cpp:64-71 SensorLinkManager::modeName] *)
Definition modeName (mode : SensorLinkMode) : string :=
  match mode with
  | UartLine => "uart-line"
  | LoRaFrameMode => "lora-frame"
  | LinkDisabled => "off"
  end.

Definition kStm1Destination : LoRaDestination := mkLoRaDestination 0 1 30.
Definition kStm2Destination : LoRaDestination := mkLoRaDestination 0 2 30.

(** [src/device/SensorLinkManager.cpp:33-44 resolveAlertDestination] *)
Definition resolveAlertDestination (command : string) : option LoRaDestination :=
  match break_on ":" command with
  | None => None
  | Some (_, rest) =>
      let sensorId := match break_on ":" rest with Some (id, _) => id | None => rest end in
      if bool_decide (sensorId = "HALL01") || bool_decide (sensorId = "HALL02")
      then Some kStm1Destination else
      if bool_decide (sensorId = "HALL03") || bool_decide (sensorId = "HALL04")
      then Some kStm2Destination else None
  end.

Definition ends_with_newline (s : string) : bool :=
  bool_decide (last (bytes_of_string s) = Some 10).

(** The bytes an alert command puts on the wire. *)

(** [src/device/SensorLinkManager.cpp:96-131 SensorLinkManager::sendAlertCommand] *)
Definition sendAlertCommand (mode : SensorLinkMode) (command : string) (sequence : Z)
    : result string (list Z) :=
  if is_empty command then Err "alert command is empty" else
  match mode with
  | LoRaFrameMode =>
      let frame := mkLoRaFrame 0 AlertCommand sequence (bytes_of_string command) in
      match resolveAlertDestination command with
      | Some destination => lora_sendTo destination frame
      | None => lora_send frame
      end
  | _ =>
      Ok (bytes_of_string (if ends_with_newline command then command
                           else command +:+ String (ascii_of_nat 10) ""))
  end.

Definition newline_char : ascii := ascii_of_nat 10.
Definition carriage_return : ascii := ascii_of_nat 13.

(** The line without a final carriage return. *)
Fixpoint strip_cr (line : string) : string :=
  match line with
  | EmptyString => EmptyString
  | String c EmptyString => if bool_decide (c = carriage_return) then EmptyString else line
  | String c rest => String c (strip_cr rest)
  end.

(** The complete lines of the buffer and what remains after the last newline. *)
Fixpoint take_lines (fuel : nat) (buffer : string) : list string * string :=
  match fuel with
  | O => ([], buffer)
  | S fuel' =>
      match break_on newline_char buffer with
      | None => ([], buffer)
      | Some (line, rest) =>
          let '(lines, rest') := take_lines fuel' rest in
          ((if is_empty (strip_cr line) then lines else strip_cr line :: lines), rest')
      end
  end.

(** The lines passed to the handler, whether the buffer overflowed, the new buffer. *)

(** [src/device/SensorLinkManager.cpp:182-212 SensorLinkManager::consumeUartLines] *)
Definition consumeUartLines (line_buffer data : string) : list string * bool * string :=
  let line_buffer := line_buffer +:+ data in
  if Nat.ltb 4096 (String.length line_buffer) then ([], true, "")
  else
    let '(lines, rest) := take_lines (S (String.length line_buffer)) line_buffer in
    (lines, false, rest).

(** The lines passed to the handler and the number of frames reported rejected. *)

(** [src/device/SensorLinkManager.cpp:214-242 SensorLinkManager::consumeLoRaFrames] *)
Definition consumeLoRaFrames (driver : LoRaDriver) (data : list Z)
    : list string * N * LoRaDriver :=
  let '(frames, driver') := consume driver data in
  let lines := omap (fun frame =>
    if negb (bool_decide (lf_type frame = SensorEvent)) then None else
    let line := string_of_bytes (lf_payload frame) in
    if is_empty line then None else Some line) frames in
  let reported := if bool_decide (lora_rejected driver < lora_rejected driver')%N
    then (lora_rejected driver' - lora_rejected driver)%N else 0%N in
  (lines, reported, driver').

(** * Words and bytes *)

Lemma testbit_above v k n : 0 <= v < 2 ^ k -> 0 <= k <= n -> Z.testbit v n = false.
Proof.
  intros Hv Hn. rewrite <-(Z.mod_small v (2 ^ k)) by done. apply Z.mod_pow2_bits_high. lia.
Qed.

Lemma testbit_255 n : 0 <= n -> Z.testbit 255 n = (n <? 8).
Proof.
  intros. change 255 with (Z.ones 8). rewrite Z.testbit_ones_nonneg by lia. done.
Qed.
Lemma testbit_65535 n : 0 <= n -> Z.testbit 65535 n = (n <? 16).
Proof.
  intros. change 65535 with (Z.ones 16). rewrite Z.testbit_ones_nonneg by lia. done.
Qed.

Lemma u8_ok z : byte_ok (u8 z).
Proof.
  unfold byte_ok, u8. change 255 with (Z.ones 8). rewrite Z.land_ones by lia.
  apply Z.mod_pos_bound. lia.
Qed.
Lemma u16_range z : 0 <= u16 z < 65536.
Proof.
  unfold u16. change 65535 with (Z.ones 16). rewrite Z.land_ones by lia.
  apply (Z.mod_pos_bound z (2 ^ 16)). lia.
Qed.
Lemma u16_id z : 0 <= z < 65536 -> u16 z = z.
Proof.
  intros. unfold u16. change 65535 with (Z.ones 16). rewrite Z.land_ones by lia.
  by apply Z.mod_small.
Qed.

Ltac bit_cases n :=
  repeat match goal with
  | |- context [?a <? ?b] => destruct (Z.ltb_spec a b); simpl; try lia
  end;
  rewrite ?andb_true_r, ?andb_false_r, ?orb_false_r, ?orb_false_l.

Lemma readU16_appendU16 v t : 0 <= v < 65536 -> readU16 (appendU16 v ++ t) = v.
Proof.
  intros Hv. unfold readU16, appendU16, byte_at, u8. simpl. apply Z.bits_inj'. intros n Hn.
  rewrite Z.lor_spec, Z.shiftl_spec, !Z.land_spec by done.
  destruct (Z.ltb_spec n 8).
  - rewrite (Z.testbit_neg_r _ (n - 8)) by lia. simpl. rewrite testbit_255 by done.
    destruct (Z.ltb_spec n 8); [|lia]. by rewrite andb_true_r.
  - rewrite Z.shiftr_spec by lia. rewrite !testbit_255 by lia.
    destruct (Z.ltb_spec n 8); [lia|]. rewrite andb_false_r, orb_false_r.
    replace (n - 8 + 8) with n by lia. destruct (Z.ltb_spec (n - 8) 8).
    + by rewrite andb_true_r.
    + rewrite andb_false_r. symmetry. apply (testbit_above v 16); lia.
Qed.

Lemma readU32_appendU32 v t : 0 <= v < 2 ^ 32 -> readU32 (appendU32 v ++ t) = v.
Proof.
  intros Hv. unfold readU32, appendU32, byte_at, u8. simpl. apply Z.bits_inj'. intros n Hn.
  rewrite !Z.lor_spec, !Z.shiftl_spec, !Z.land_spec by done.
  assert (Hb : forall k, 0 <= k ->
    Z.testbit (Z.shiftr v k) (n - k) && Z.testbit 255 (n - k) =
    Z.testbit v n && ((k <=? n) && (n <? k + 8))).
  { intros k Hk. destruct (Z.leb_spec k n); simpl.
    - rewrite Z.shiftr_spec by lia. rewrite testbit_255 by lia. f_equal; [f_equal; lia|].
      destruct (Z.ltb_spec (n - k) 8), (Z.ltb_spec n (k + 8)); try done; lia.
    - rewrite Z.testbit_neg_r by lia. by rewrite andb_false_r. }
  assert (H24 := Hb 24 ltac:(lia)). assert (H16 := Hb 16 ltac:(lia)).
  assert (H8 := Hb 8 ltac:(lia)). clear Hb.
  assert (H0 : Z.testbit v n && Z.testbit 255 n = Z.testbit v n && (n <? 8)).
  { by rewrite testbit_255. }
  rewrite H24, H16, H8, H0.
  destruct (Z.testbit v n) eqn:Hv'; simpl; [|done].
  assert (n < 32).
  { destruct (Z.ltb_spec n 32); [done|]. rewrite (testbit_above v 32) in Hv' by lia. done. }
  destruct (Z.leb_spec 24 n), (Z.ltb_spec n (24 + 8)), (Z.leb_spec 16 n), (Z.ltb_spec n (16 + 8)),
    (Z.leb_spec 8 n), (Z.ltb_spec n (8 + 8)), (Z.ltb_spec n 8); simpl; try done; lia.
Qed.

Lemma byte_at_app_l l t i : (i < length l)%nat -> byte_at (l ++ t) i = byte_at l i.
Proof. apply app_nth1. Qed.

Lemma readU16_app l t : (2 <= length l)%nat -> readU16 (l ++ t) = readU16 l.
Proof. intros. unfold readU16. by rewrite !byte_at_app_l by lia. Qed.
Lemma readU32_app l t : (4 <= length l)%nat -> readU32 (l ++ t) = readU32 l.
Proof. intros. unfold readU32. by rewrite !byte_at_app_l by lia. Qed.

(** * Searching the marker *)

Lemma search_sof_app x y s : search_sof x = Some s -> search_sof (x ++ y) = Some (s ++ y).
Proof.
  induction x as [|b0 x IH]; [done|]. destruct x as [|b1 x]; [done|].
  change (search_sof (b0 :: b1 :: x)) with
    (if bool_decide (b0 = kSof0) && bool_decide (b1 = kSof1) then Some (b0 :: b1 :: x)
     else search_sof (b1 :: x)).
  change (search_sof ((b0 :: b1 :: x) ++ y)) with
    (if bool_decide (b0 = kSof0) && bool_decide (b1 = kSof1) then Some ((b0 :: b1 :: x) ++ y)
     else search_sof ((b1 :: x) ++ y)).
  destruct (_ && _); [by intros [= <-]|exact IH].
Qed.

Lemma search_sof_skip b l : b <> kSof0 -> search_sof (b :: l) = search_sof l.
Proof. intros Hb. simpl. destruct l; [done|]. by rewrite bool_decide_eq_false_2. Qed.

Lemma search_sof_keep x y :
  search_sof x = None -> search_sof (x ++ y) = search_sof (keep_tail x ++ y).
Proof.
  induction x as [|b0 x IH]; [done|]. destruct x as [|b1 x].
  - intros _. unfold keep_tail. simpl last. case_bool_decide as Hb.
    + by injection Hb as ->.
    + simpl app at 2. apply search_sof_skip. congruence.
  - change (search_sof (b0 :: b1 :: x)) with
      (if bool_decide (b0 = kSof0) && bool_decide (b1 = kSof1) then Some (b0 :: b1 :: x)
       else search_sof (b1 :: x)).
    change (search_sof ((b0 :: b1 :: x) ++ y)) with
      (if bool_decide (b0 = kSof0) && bool_decide (b1 = kSof1) then Some ((b0 :: b1 :: x) ++ y)
       else search_sof ((b1 :: x) ++ y)).
    destruct (_ && _); [done|]. intros H. rewrite (IH H). done.
Qed.

Lemma search_sof_length x s : search_sof x = Some s -> (length s <= length x)%nat.
Proof.
  revert s. induction x as [|b0 x IH]; [done|]. intros s. destruct x as [|b1 x]; [done|].
  change (search_sof (b0 :: b1 :: x)) with
    (if bool_decide (b0 = kSof0) && bool_decide (b1 = kSof1) then Some (b0 :: b1 :: x)
     else search_sof (b1 :: x)).
  destruct (_ && _); [by intros [= <-]|]. intros H%IH. simpl in *. lia.
Qed.

Lemma search_sof_idem x s : search_sof x = Some s -> search_sof s = Some s.
Proof.
  induction x as [|b0 x IH]; [done|]. destruct x as [|b1 x]; [done|].
  change (search_sof (b0 :: b1 :: x)) with
    (if bool_decide (b0 = kSof0) && bool_decide (b1 = kSof1) then Some (b0 :: b1 :: x)
     else search_sof (b1 :: x)).
  destruct (bool_decide (b0 = kSof0) && bool_decide (b1 = kSof1)) eqn:E; [|exact IH].
  intros [= <-].
  change (search_sof (b0 :: b1 :: x)) with
    (if bool_decide (b0 = kSof0) && bool_decide (b1 = kSof1) then Some (b0 :: b1 :: x)
     else search_sof (b1 :: x)). by rewrite E.
Qed.

(** * One turn, on a longer buffer *)

Lemma consume_turn_length b :
  match consume_turn b with
  | NeedMore _ => True
  | RejectByte b' | CutFrame _ b' => (length b' < length b)%nat
  end.
Proof.
  unfold consume_turn. destruct (search_sof b) as [s|] eqn:Hs; [|done].
  apply search_sof_length in Hs. destruct (Nat.ltb_spec (length s) 10); [done|].
  destruct (_ && _); [rewrite length_drop; lia|].
  destruct (Nat.ltb _ _); [rewrite length_drop; lia|].
  destruct (Nat.ltb _ _); [done|]. destruct (negb _); rewrite length_drop; lia.
Qed.

Lemma byte_at_drop l n i : byte_at (drop n l) i = byte_at l (n + i).
Proof. unfold byte_at. apply nth_skipn. Qed.

Lemma keep_tail_app b y : keep_tail (b ++ y) = keep_tail (keep_tail b ++ y).
Proof.
  unfold keep_tail. rewrite !last_app. destruct (last y); [done|].
  by case_bool_decide.
Qed.

Lemma consume_turn_app b y :
  consume_turn (b ++ y) =
  match consume_turn b with
  | NeedMore b' => consume_turn (b' ++ y)
  | RejectByte b' => RejectByte (b' ++ y)
  | CutFrame f b' => CutFrame f (b' ++ y)
  end.
Proof.
  unfold consume_turn at 2. destruct (search_sof b) as [s|] eqn:Hs.
  2: { unfold consume_turn. by rewrite (search_sof_keep _ _ Hs), (keep_tail_app b). }
  assert (Hb : consume_turn (b ++ y) = consume_turn (s ++ y)).
  { unfold consume_turn. rewrite (search_sof_app _ _ _ Hs).
    by rewrite (search_sof_app _ _ _ (search_sof_idem _ _ Hs)). }
  rewrite Hb. clear Hb. pose proof (search_sof_app _ y _ (search_sof_idem _ _ Hs)) as Hsy.
  destruct (Nat.ltb_spec (length s) 10) as [|Hlen]; [done|].
  set (n := Z.to_nat (readU16 (drop 8 s))).
  assert (Hn : Z.to_nat (readU16 (drop 8 (s ++ y))) = n).
  { rewrite drop_app_le, readU16_app by (rewrite ?length_drop; lia). done. }
  assert (Hturn : consume_turn (s ++ y) =
    if negb (bool_decide (byte_at s 2 = kVersionLegacy)) &&
       negb (bool_decide (byte_at s 2 = kVersionNodeAware)) then RejectByte (drop 1 (s ++ y)) else
    if Nat.ltb kMaxPayload n then RejectByte (drop 1 (s ++ y)) else
    if Nat.ltb (length s + length y) (12 + n) then NeedMore (s ++ y) else
    if negb (bool_decide (readU16 (drop (10 + n) (s ++ y)) =
                          crc16Ccitt (take (8 + n) (drop 2 (s ++ y)))))
    then RejectByte (drop 1 (s ++ y)) else
    CutFrame (mkLoRaFrame (byte_at s 2) (byte_at (s ++ y) 3) (readU32 (drop 4 (s ++ y)))
                (take n (drop 10 (s ++ y)))) (drop (12 + n) (s ++ y))).
  { unfold consume_turn. rewrite Hsy, Hn, length_app.
    destruct (Nat.ltb_spec (length s + length y) 10); [lia|].
    by rewrite !(byte_at_app_l s y 2) by lia. }
  destruct (_ && _) eqn:Hv.
  { rewrite Hturn. rewrite drop_app_le by lia. done. }
  destruct (Nat.ltb kMaxPayload n) eqn:Hmx.
  { rewrite Hturn. rewrite drop_app_le by lia. done. }
  destruct (Nat.ltb_spec (length s) (12 + n)) as [|Hfs]; [done|].
  rewrite Hturn. destruct (Nat.ltb_spec (length s + length y) (12 + n)); [lia|].
  rewrite !drop_app_le by lia. rewrite readU16_app by (rewrite length_drop; lia).
  rewrite !take_app_le by (rewrite length_drop; lia).
  rewrite readU32_app by (rewrite length_drop; lia). rewrite byte_at_app_l by lia.
  by destruct (bool_decide (readU16 (drop (10 + n) s) = crc16Ccitt (take (8 + n) (drop 2 s)))).
Qed.

(** * The loop *)

Lemma consume_loop_enough n m b :
  (length b < n)%nat -> (length b < m)%nat -> consume_loop n b = consume_loop m b.
Proof.
  revert m b. induction n as [|n IH]; intros [|m] b Hn Hm; try lia. simpl.
  pose proof (consume_turn_length b) as Hl.
  destruct (consume_turn b) as [b'|b'|f b']; [done|..]; rewrite (IH m) by lia; done.
Qed.

Definition bump (r : list LoRaFrame * list Z * N) : list LoRaFrame * list Z * N :=
  let '(frames, rest, rejected) := r in (frames, rest, (rejected + 1)%N).
Definition prepend (fs : list LoRaFrame) (r : list LoRaFrame * list Z * N) :=
  let '(frames, rest, rejected) := r in (fs ++ frames, rest, rejected).

Lemma drain_eq b :
  drain b = match consume_turn b with
            | NeedMore b' => ([], b', 0%N)
            | RejectByte b' => bump (drain b')
            | CutFrame f b' => prepend [f] (drain b')
            end.
Proof.
  unfold drain at 1. cbn [consume_loop]. pose proof (consume_turn_length b) as Hl.
  destruct (consume_turn b) as [b'|b'|f b']; [done|..];
    rewrite (consume_loop_enough (length b) (S (length b'))) by lia;
    fold (drain b'); by destruct (drain b') as [[? ?] ?].
Qed.

Definition join (r1 : list LoRaFrame * list Z * N) (k : list Z -> list LoRaFrame * list Z * N) :=
  let '(f1, rest, n1) := r1 in let '(f2, rest', n2) := k rest in (f1 ++ f2, rest', (n1 + n2)%N).

Lemma drain_app x y : drain (x ++ y) = join (drain x) (fun rest => drain (rest ++ y)).
Proof.
  remember (length x) as n eqn:Hn. revert x Hn.
  induction n as [n IH] using (well_founded_induction lt_wf). intros x ->.
  rewrite (drain_eq (x ++ y)), (drain_eq x), consume_turn_app.
  pose proof (consume_turn_length x) as Hl.
  destruct (consume_turn x) as [b'|b'|f b']; simpl.
  - rewrite <-drain_eq. by destruct (drain (b' ++ y)) as [[? ?] ?].
  - rewrite (IH (length b')) by done. destruct (drain b') as [[f1 r1] n1]. simpl.
    destruct (drain (r1 ++ y)) as [[f2 r2] n2]. simpl. f_equal. lia.
  - rewrite (IH (length b')) by done. destruct (drain b') as [[f1 r1] n1]. simpl.
    by destruct (drain (r1 ++ y)) as [[f2 r2] n2].
Qed.

(** * Encoding and decoding *)

Record frame_ok (f : LoRaFrame) : Prop := {
  fo_type : byte_ok (lf_type f);
  fo_sequence : 0 <= lf_sequence f < 2 ^ 32;
  fo_payload : (length (lf_payload f) <= kMaxPayload)%nat
}.

Lemma crc_bit_range c : 0 <= crc_bit c < 65536.
Proof. unfold crc_bit. destruct (negb _); apply u16_range. Qed.
Lemma crc_byte_range c b : 0 <= crc_byte c b < 65536.
Proof. apply crc_bit_range. Qed.
Lemma crc_fold_range c l : 0 <= c < 65536 -> 0 <= foldl crc_byte c l < 65536.
Proof.
  revert c. induction l as [|b l IH]; simpl; intros c Hc; [done|]. apply IH, crc_byte_range.
Qed.
Lemma crc16_range l : 0 <= crc16Ccitt l < 65536.
Proof. apply crc_fold_range. lia. Qed.

Lemma encode_ok f :
  frame_ok f -> encode f = Ok ([kSof0; kSof1] ++ frame_body f ++
                               appendU16 (crc16Ccitt (frame_body f))).
Proof.
  intros [_ _ Hp]. unfold encode. destruct (Nat.ltb_spec kMaxPayload (length (lf_payload f))); [lia|].
  simpl. done.
Qed.

(** A marker, a body with a plausible header, a checksum field and more bytes. *)
Lemma consume_turn_shape v t s3 s2 s1 s0 l1 l0 payload c1 c0 rest :
  v = kVersionLegacy \/ v = kVersionNodeAware ->
  (length payload <= kMaxPayload)%nat ->
  readU16 [l1; l0] = Z.of_nat (length payload) ->
  let body := [v; t; s3; s2; s1; s0; l1; l0] ++ payload in
  consume_turn ([kSof0; kSof1] ++ body ++ [c1; c0] ++ rest) =
  if bool_decide (readU16 [c1; c0] = crc16Ccitt body)
  then CutFrame (mkLoRaFrame v t (readU32 [s3; s2; s1; s0]) payload) rest
  else RejectByte ([kSof1] ++ body ++ [c1; c0] ++ rest).
Proof.
  intros Hv Hp Hl body. unfold consume_turn.
  assert (Hsof : forall l, search_sof (kSof0 :: kSof1 :: l) = Some (kSof0 :: kSof1 :: l)) by done.
  change ([kSof0; kSof1] ++ body ++ [c1; c0] ++ rest) with
    (kSof0 :: kSof1 :: (body ++ [c1; c0] ++ rest)).
  rewrite Hsof. set (buf := kSof0 :: kSof1 :: (body ++ [c1; c0] ++ rest)).
  assert (Hlen : length buf = (12 + length payload + length rest)%nat).
  { unfold buf, body. simpl. rewrite length_app. simpl. lia. }
  rewrite Hlen. destruct (Nat.ltb_spec (12 + length payload + length rest) 10); [lia|].
  change (byte_at buf 2) with v.
  assert (negb (bool_decide (v = kVersionLegacy)) && negb (bool_decide (v = kVersionNodeAware)) = false)
    as -> by (destruct Hv as [-> | ->]; done).
  change (readU16 (drop 8 buf)) with (readU16 [l1; l0]). rewrite Hl, Nat2Z.id.
  destruct (Nat.ltb_spec kMaxPayload (length payload)); [lia|].
  destruct (Nat.ltb_spec (12 + length payload + length rest) (12 + length payload)); [lia|].
  assert (Hd : drop (10 + length payload) buf = [c1; c0] ++ rest).
  { unfold buf, body. simpl. by rewrite drop_app_length. }
  assert (Ht : take (8 + length payload) (drop 2 buf) = body).
  { unfold buf, body. simpl. by rewrite take_app_length. }
  rewrite Hd, Ht. change (readU16 ([c1; c0] ++ rest)) with (readU16 [c1; c0]).
  case_bool_decide; simpl negb; cbv iota; [|done]. f_equal.
  - f_equal. unfold buf, body. simpl. by rewrite drop_0, take_app_length.
  - unfold buf, body. simpl. rewrite drop_app_ge by lia.
    by replace (S (S (length payload)) - length payload)%nat with 2%nat by lia.
Qed.

(** The frame as the receiver sees it: the version is the one the encoder stamps. *)
Definition received (f : LoRaFrame) : LoRaFrame :=
  mkLoRaFrame kVersion (lf_type f) (lf_sequence f) (lf_payload f).

(** The bytes of an encoded frame. *)
Definition wire (f : LoRaFrame) : list Z :=
  [kSof0; kSof1] ++ frame_body f ++ appendU16 (crc16Ccitt (frame_body f)).

Lemma payload_length_u16 f :
  frame_ok f -> u16 (Z.of_nat (length (lf_payload f))) = Z.of_nat (length (lf_payload f)).
Proof. intros [_ _ Hp]. apply u16_id. unfold kMaxPayload in Hp. lia. Qed.

Lemma readU16_pair v : 0 <= v < 65536 -> readU16 (appendU16 v) = v.
Proof. intros. rewrite <-(app_nil_r (appendU16 v)). by apply readU16_appendU16. Qed.
Lemma readU32_quad v : 0 <= v < 2 ^ 32 -> readU32 (appendU32 v) = v.
Proof. intros. rewrite <-(app_nil_r (appendU32 v)). by apply readU32_appendU32. Qed.

Lemma consume_turn_wire f rest :
  frame_ok f -> consume_turn (wire f ++ rest) = CutFrame (received f) rest.
Proof.
  intros Hf. pose proof (payload_length_u16 f Hf) as Hl. destruct Hf as [Ht Hs Hp].
  unfold wire. rewrite <-!app_assoc.
  change (frame_body f ++ appendU16 (crc16Ccitt (frame_body f)) ++ rest) with
    (frame_body f ++ [u8 (Z.shiftr (crc16Ccitt (frame_body f)) 8); u8 (crc16Ccitt (frame_body f))]
       ++ rest).
  unfold frame_body at 1 2 3. rewrite Hl. unfold appendU32, appendU16.
  set (n := Z.of_nat (length (lf_payload f))).
  pose proof (consume_turn_shape kVersion (lf_type f)
    (u8 (Z.shiftr (lf_sequence f) 24)) (u8 (Z.shiftr (lf_sequence f) 16))
    (u8 (Z.shiftr (lf_sequence f) 8)) (u8 (lf_sequence f))
    (u8 (Z.shiftr n 8)) (u8 n) (lf_payload f)
    (u8 (Z.shiftr (crc16Ccitt (frame_body f)) 8)) (u8 (crc16Ccitt (frame_body f))) rest) as H.
  assert (Hb : frame_body f = [kVersion; lf_type f; u8 (Z.shiftr (lf_sequence f) 24);
    u8 (Z.shiftr (lf_sequence f) 16); u8 (Z.shiftr (lf_sequence f) 8); u8 (lf_sequence f);
    u8 (Z.shiftr n 8); u8 n] ++ lf_payload f).
  { unfold frame_body. by rewrite Hl. }
  cbv zeta in H. rewrite <-Hb in H.
  replace (([kVersion; lf_type f] ++ [u8 (lf_sequence f ≫ 24); u8 (lf_sequence f ≫ 16);
    u8 (lf_sequence f ≫ 8); u8 (lf_sequence f)] ++ [u8 (n ≫ 8); u8 n] ++ lf_payload f))
    with (frame_body f) by (rewrite Hb; done).
  rewrite H; [|by left|done|].
  - change [u8 (Z.shiftr (crc16Ccitt (frame_body f)) 8); u8 (crc16Ccitt (frame_body f))]
      with (appendU16 (crc16Ccitt (frame_body f))).
    rewrite readU16_pair by apply crc16_range. rewrite bool_decide_eq_true_2 by done.
    f_equal. unfold received. f_equal. by apply readU32_quad.
  - apply (readU16_pair n). unfold n, kMaxPayload in *. lia.
Qed.

Lemma drain_wire f rest : frame_ok f -> drain (wire f ++ rest) = prepend [received f] (drain rest).
Proof. intros Hf. by rewrite drain_eq, consume_turn_wire. Qed.

Lemma drain_wires fs rest :
  Forall frame_ok fs -> drain (mjoin (wire <$> fs) ++ rest) = prepend (received <$> fs) (drain rest).
Proof.
  induction 1 as [|f fs Hf _ IH].
  - simpl. by destruct (drain rest) as [[? ?] ?].
  - rewrite !fmap_cons. change (mjoin (wire f :: (wire <$> fs))) with (wire f ++ mjoin (wire <$> fs)).
    rewrite <-app_assoc, drain_wire, IH by done. by destruct (drain rest) as [[? ?] ?].
Qed.

(** Feed the driver chunk by chunk. *)
Fixpoint consume_chunks (driver : LoRaDriver) (chunks : list (list Z))
    : list LoRaFrame * LoRaDriver :=
  match chunks with
  | [] => ([], driver)
  | chunk :: chunks' =>
      let '(fs, d1) := consume driver chunk in
      let '(fs', d2) := consume_chunks d1 chunks' in (fs ++ fs', d2)
  end.

Definition lora_init : LoRaDriver := mkLoRaDriver [] 0.

Lemma consume_chunks_drain b n chunks fs rest k :
  drain b = ([], b, 0%N) -> drain (b ++ mjoin chunks) = (fs, rest, k) ->
  consume_chunks (mkLoRaDriver b (n mod 2 ^ 64)%N) chunks =
  (fs, mkLoRaDriver rest ((n + k) mod 2 ^ 64)%N) /\ drain rest = ([], rest, 0%N).
Proof.
  revert b n fs rest k. induction chunks as [|c cs IH]; intros b n fs rest k Hb Hd.
  - rewrite app_nil_r, Hb in Hd. injection Hd as <- <- <-. simpl. by rewrite N.add_0_r.
  - change (mjoin (c :: cs)) with (c ++ mjoin cs) in Hd. rewrite app_assoc, drain_app in Hd.
    simpl. unfold consume. simpl. destruct (drain (b ++ c)) as [[f1 r1] n1] eqn:H1. simpl in Hd.
    destruct (drain (r1 ++ mjoin cs)) as [[f2 r2] n2] eqn:H2. injection Hd as <- <- <-.
    assert (Hr1 : drain r1 = ([], r1, 0%N)).
    { pose proof (drain_app (b ++ c) []) as Hx. rewrite app_nil_r, H1 in Hx. simpl in Hx.
      rewrite app_nil_r in Hx. destruct (drain r1) as [[f3 r3] n3]. injection Hx as Hf <- Hn.
      assert (f3 = []) as -> by (apply (app_inv_head f1); by rewrite app_nil_r).
      repeat f_equal. lia. }
    destruct (IH r1 (n + n1)%N f2 r2 n2 Hr1 H2) as [IH1 IH2].
    rewrite N.Div0.add_mod_idemp_l, IH1. split; [|done]. f_equal. f_equal. f_equal. lia.
Qed.

(** Frames survive the serial line: any sequence of well-formed frames,
    encoded one after the other and delivered in arbitrary chunks, comes out as
    exactly those frames, in order, with nothing left in the buffer and nothing
    counted as rejected. *)
Theorem lora_roundtrip fs chunks :
  Forall frame_ok fs -> mjoin chunks = mjoin (wire <$> fs) ->
  Forall (fun f => encode f = Ok (wire f)) fs /\
  consume_chunks lora_init chunks = (received <$> fs, lora_init).
Proof.
  intros Hfs Hc. split.
  - eapply Forall_impl; [exact Hfs|]. intros f Hf. by rewrite encode_ok.
  - destruct (consume_chunks_drain [] 0 chunks (received <$> fs) [] 0) as [H _]; [done| |exact H].
    rewrite app_nil_l, Hc. pose proof (drain_wires fs [] Hfs) as H. rewrite app_nil_r in H.
    rewrite H. simpl. by rewrite app_nil_r.
Qed.

(** The receiver does not depend on how the serial port splits the
    stream: on arbitrary bytes, garbage included, feeding two chunks gives the same
    frames, the same buffer and the same rejection count as feeding them at once. *)
Theorem consume_split d x y :
  let '(f1, d1) := consume d x in
  let '(f2, d2) := consume d1 y in
  consume d (x ++ y) = (f1 ++ f2, d2).
Proof.
  unfold consume. destruct (drain (lora_buffer d ++ x)) as [[f1 r1] n1] eqn:H1. simpl.
  destruct (drain (r1 ++ y)) as [[f2 r2] n2] eqn:H2.
  rewrite app_assoc, drain_app, H1. simpl. rewrite H2.
  f_equal. f_equal. rewrite N.Div0.add_mod_idemp_l. f_equal. lia.
Qed.

(** * What the checksum detects *)

Lemma crc_bit_spec c n :
  0 <= n < 16 ->
  Z.testbit (crc_bit c) n =
  xorb (Z.testbit c (n - 1)) (Z.testbit c 15 && Z.testbit 4129 n).
Proof.
  intros Hn. unfold crc_bit, u16.
  assert (Hmsb : negb (Z.eqb (Z.land c 32768) 0) = Z.testbit c 15).
  { assert (Hl : Z.land c 32768 = if Z.testbit c 15 then 32768 else 0).
    { apply Z.bits_inj'. intros k Hk. rewrite Z.land_spec.
      change 32768 with (2 ^ 15). rewrite Z.pow2_bits_eqb by lia.
      destruct (Z.eqb_spec 15 k) as [<-|Hne].
      - rewrite andb_true_r. destruct (Z.testbit c 15); [by rewrite Z.pow2_bits_eqb|by rewrite Z.bits_0].
      - rewrite andb_false_r. destruct (Z.testbit c 15); [|by rewrite Z.bits_0].
        rewrite Z.pow2_bits_eqb by lia. by destruct (Z.eqb_spec 15 k). }
    rewrite Hl. by destruct (Z.testbit c 15). }
  rewrite Hmsb. destruct (Z.testbit c 15); rewrite Z.land_spec, testbit_65535 by lia;
    destruct (Z.ltb_spec n 16); try lia; rewrite andb_true_r.
  - by rewrite Z.lxor_spec, Z.shiftl_spec by lia.
  - by rewrite Z.shiftl_spec, xorb_false_r by lia.
Qed.

(** The checksum register is a bijection of 16-bit words under each input bit. *)
Lemma crc_bit_inj c c' :
  0 <= c < 65536 -> 0 <= c' < 65536 -> crc_bit c = crc_bit c' -> c = c'.
Proof.
  intros Hc Hc' He.
  assert (Hbit : forall n, 0 <= n < 16 ->
    xorb (Z.testbit c (n - 1)) (Z.testbit c 15 && Z.testbit 4129 n) =
    xorb (Z.testbit c' (n - 1)) (Z.testbit c' 15 && Z.testbit 4129 n)).
  { intros n Hn. by rewrite <-!crc_bit_spec, He. }
  assert (Hm : Z.testbit c 15 = Z.testbit c' 15).
  { specialize (Hbit 0 ltac:(lia)). rewrite !Z.testbit_neg_r in Hbit by lia.
    change (Z.testbit 4129 0) with true in Hbit. by rewrite !xorb_false_l, !andb_true_r in Hbit. }
  apply Z.bits_inj'. intros n Hn. destruct (Z.ltb_spec n 15) as [Hlt|Hge].
  - specialize (Hbit (n + 1) ltac:(lia)). rewrite Hm in Hbit.
    replace (n + 1 - 1) with n in Hbit by lia.
    destruct (Z.testbit c n), (Z.testbit c' n), (Z.testbit c' 15 && _); done.
  - destruct (Z.eqb_spec n 15) as [->|Hne]; [done|].
    rewrite (testbit_above c 16), (testbit_above c' 16); lia || done.
Qed.

Lemma crc_iter_inj k c c' :
  0 <= c < 65536 -> 0 <= c' < 65536 ->
  Nat.iter k crc_bit c = Nat.iter k crc_bit c' -> c = c'.
Proof.
  intros Hc Hc'. induction k as [|k IH]; simpl; [done|]. intros H. apply IH.
  assert (Hr : forall x, 0 <= x < 65536 -> 0 <= Nat.iter k crc_bit x < 65536).
  { intros x Hx. destruct k; [done|]. apply crc_bit_range. }
  apply crc_bit_inj; auto.
Qed.

Lemma lxor_range a b : 0 <= a < 65536 -> 0 <= b < 65536 -> 0 <= Z.lxor a b < 65536.
Proof.
  intros Ha Hb. split; [rewrite Z.lxor_nonneg; lia|].
  assert (Hx : Z.lxor a b = u16 (Z.lxor a b)); [|rewrite Hx; apply u16_range].
  apply Z.bits_inj'. intros n Hn. unfold u16. rewrite Z.land_spec, testbit_65535 by lia.
  destruct (Z.ltb_spec n 16); [by rewrite andb_true_r|].
  rewrite Z.lxor_spec, (testbit_above a 16), (testbit_above b 16) by lia. done.
Qed.

Lemma lxor_cancel_l a b b' : Z.lxor a b = Z.lxor a b' -> b = b'.
Proof.
  intros H. apply (f_equal (Z.lxor a)) in H.
  by rewrite <-!Z.lxor_assoc, !Z.lxor_nilpotent, !Z.lxor_0_l in H.
Qed.
Lemma lxor_cancel_r a a' b : Z.lxor a b = Z.lxor a' b -> a = a'.
Proof. rewrite (Z.lxor_comm a), (Z.lxor_comm a'). apply lxor_cancel_l. Qed.

Lemma crc_byte_inj_byte c b b' :
  0 <= c < 65536 -> byte_ok b -> byte_ok b' -> crc_byte c b = crc_byte c b' -> b = b'.
Proof.
  unfold byte_ok. intros Hc Hb Hb' H.
  apply crc_iter_inj in H; [|apply lxor_range; [done|apply u16_range]..].
  apply lxor_cancel_l in H. rewrite !Z.shiftl_mul_pow2, !u16_id in H by lia. lia.
Qed.

Lemma crc_byte_inj_crc c c' b :
  0 <= c < 65536 -> 0 <= c' < 65536 -> crc_byte c b = crc_byte c' b -> c = c'.
Proof.
  intros Hc Hc' H. apply crc_iter_inj in H; [|apply lxor_range; [done|apply u16_range]..].
  by apply lxor_cancel_r in H.
Qed.

Lemma crc_fold_inj c c' l :
  0 <= c < 65536 -> 0 <= c' < 65536 -> foldl crc_byte c l = foldl crc_byte c' l -> c = c'.
Proof.
  revert c c'. induction l as [|b l IH]; simpl; intros c c' Hc Hc' H; [done|].
  apply IH in H; [|apply crc_byte_range..]. by apply crc_byte_inj_crc in H.
Qed.

(** Two messages that differ in one byte have different checksums. *)
Lemma crc16_single_byte l1 l2 b b' :
  byte_ok b -> byte_ok b' -> b <> b' -> crc16Ccitt (l1 ++ b :: l2) <> crc16Ccitt (l1 ++ b' :: l2).
Proof.
  intros Hb Hb' Hne H. unfold crc16Ccitt in H. rewrite !foldl_app in H. simpl in H.
  apply crc_fold_inj in H; [|apply crc_byte_range..].
  apply crc_byte_inj_byte in H; try done. apply crc_fold_range. lia.
Qed.

Lemma insert_split (l : list Z) i b :
  l !! i = Some b -> forall b', <[i := b']> l = take i l ++ b' :: drop (S i) l.
Proof. intros Hi b'. rewrite insert_take_drop; [done|]. by eapply lookup_lt_Some. Qed.

(** Replacing one byte outside the length field keeps the shape of a body. *)
Lemma insert_shape (b0 b1 b2 b3 b4 b5 b6 b7 : Z) p i b' :
  i <> 6%nat -> i <> 7%nat ->
  exists v t s3 s2 s1 s0 payload,
    <[i := b']> ([b0; b1; b2; b3; b4; b5; b6; b7] ++ p) =
      [v; t; s3; s2; s1; s0; b6; b7] ++ payload /\ length payload = length p.
Proof.
  intros H6 H7. destruct i as [|[|[|[|[|[|[|[|i]]]]]]]]; try done; simpl;
    try (do 7 eexists; split; [reflexivity|done]).
  do 7 eexists. split; [reflexivity|]. by rewrite length_insert.
Qed.

Lemma frame_body_shape f :
  frame_body f = [kVersion; lf_type f; u8 (Z.shiftr (lf_sequence f) 24);
    u8 (Z.shiftr (lf_sequence f) 16); u8 (Z.shiftr (lf_sequence f) 8); u8 (lf_sequence f);
    u8 (Z.shiftr (u16 (Z.of_nat (length (lf_payload f)))) 8);
    u8 (u16 (Z.of_nat (length (lf_payload f))))] ++ lf_payload f.
Proof. reflexivity. Qed.

(** A body whose version is unknown is rejected whatever follows. *)
Lemma consume_turn_version v l rest :
  ~ (v = kVersionLegacy \/ v = kVersionNodeAware) -> (7 <= length l)%nat ->
  consume_turn ([kSof0; kSof1] ++ (v :: l) ++ rest) = RejectByte ([kSof1] ++ (v :: l) ++ rest).
Proof.
  intros Hv Hl. unfold consume_turn.
  change (search_sof ([kSof0; kSof1] ++ (v :: l) ++ rest)) with
    (Some ([kSof0; kSof1] ++ (v :: l) ++ rest)).
  cbv iota. rewrite !length_app. simpl length.
  destruct (Nat.ltb_spec (2 + (S (length l) + length rest)) 10); [lia|].
  change (byte_at ([kSof0; kSof1] ++ (v :: l) ++ rest) 2) with v.
  by rewrite !bool_decide_eq_false_2 by tauto.
Qed.

(** A corrupted frame is never taken for a good one: if one byte of an
    encoded frame's header or payload is replaced by any other byte (the marker and
    the length field apart), the receiver does not cut a frame there but rejects
    its first byte and resynchronises, whatever follows. *)
Theorem lora_corruption_rejected f i b b' rest :
  frame_ok f -> Forall byte_ok (lf_payload f) ->
  frame_body f !! i = Some b -> i <> 6%nat -> i <> 7%nat -> byte_ok b' -> b <> b' ->
  let corrupt := <[i := b']> (frame_body f) in
  consume_turn ([kSof0; kSof1] ++ corrupt ++ appendU16 (crc16Ccitt (frame_body f)) ++ rest) =
  RejectByte ([kSof1] ++ corrupt ++ appendU16 (crc16Ccitt (frame_body f)) ++ rest).
Proof.
  intros Hf Hpay Hi H6 H7 Hb' Hne corrupt.
  assert (Hbytes : Forall byte_ok (frame_body f)).
  { destruct Hf as [Ht _ _]. unfold frame_body. rewrite !Forall_app. split_and!; try done.
    - by repeat apply Forall_cons_2.
    - unfold appendU32. repeat apply Forall_cons_2; try apply u8_ok. done.
    - unfold appendU16. repeat apply Forall_cons_2; try apply u8_ok. done. }
  assert (Hb : byte_ok b) by (eapply Forall_lookup_1; [exact Hbytes|exact Hi]).
  assert (Hcrc : crc16Ccitt corrupt <> crc16Ccitt (frame_body f)).
  { unfold corrupt. rewrite (insert_split _ _ _ Hi).
    rewrite <-(take_drop_middle (frame_body f) i b) at 3 by done.
    apply crc16_single_byte; congruence || done. }
  pose proof (payload_length_u16 f Hf) as Hl. destruct Hf as [_ _ Hp].
  pose proof (crc16_range (frame_body f)) as Hr.
  set (crc := crc16Ccitt (frame_body f)) in *. clearbody crc.
  set (n := u16 (Z.of_nat (length (lf_payload f)))) in *.
  destruct (insert_shape kVersion (lf_type f) (u8 (Z.shiftr (lf_sequence f) 24))
    (u8 (Z.shiftr (lf_sequence f) 16)) (u8 (Z.shiftr (lf_sequence f) 8)) (u8 (lf_sequence f))
    (u8 (Z.shiftr n 8)) (u8 n) (lf_payload f) i b' H6 H7)
    as (v & t & s3 & s2 & s1 & s0 & payload & Hshape & Hlen).
  rewrite <-frame_body_shape in Hshape. fold corrupt in Hshape. clearbody corrupt.
  destruct (decide (v = kVersionLegacy \/ v = kVersionNodeAware)) as [Hv|Hv].
  - unfold kMaxPayload in Hp.
    rewrite Hshape in Hcrc |- *. unfold appendU16.
    rewrite (consume_turn_shape v t s3 s2 s1 s0 _ _ payload).
    + rewrite bool_decide_eq_false_2; [done|]. change [u8 (crc ≫ 8); u8 crc] with (appendU16 crc).
      rewrite readU16_pair by done. congruence.
    + done.
    + unfold kMaxPayload. lia.
    + change [u8 (n ≫ 8); u8 n] with (appendU16 n). rewrite Hl, Hlen. apply readU16_pair. lia.
  - rewrite Hshape. change ([v; t; s3; s2; s1; s0; u8 (n ≫ 8); u8 n] ++ payload) with
      (v :: [t; s3; s2; s1; s0; u8 (n ≫ 8); u8 n] ++ payload).
    apply consume_turn_version; [done|]. simpl. lia.
Qed.

(** * From the radio to the parser *)

Lemma string_bytes_roundtrip s : string_of_bytes (bytes_of_string s) = s.
Proof.
  induction s as [|c s IH]; simpl; [done|]. by rewrite N2Z.id, ascii_N_embedding, IH.
Qed.

Lemma bytes_of_string_ok s : Forall byte_ok (bytes_of_string s).
Proof.
  induction s as [|c s IH]; simpl; [constructor|]. apply Forall_cons_2; [|done].
  unfold byte_ok. pose proof (N_ascii_bounded c). lia.
Qed.

Lemma length_bytes_of_string s : length (bytes_of_string s) = String.length s.
Proof. induction s; simpl; congruence. Qed.

(** A line sent as a sensor event. *)
Definition sensor_frame (sequence : Z) (line : string) : LoRaFrame :=
  mkLoRaFrame 0 SensorEvent sequence (bytes_of_string line).

Lemma render_nonempty f : wf_frame f -> is_empty (render f) = false.
Proof.
  intros Hwf. unfold render. destruct (frame_shape f Hwf) as (s & fs & x & -> & _).
  destruct (concat_snoc_tail "S" s fs x) as [t ->]. done.
Qed.

(** C36 [functional] End to end over the radio: hall frames sent as LoRa sensor events
    and delivered in one read reach the line handler as exactly the rendered
    lines, nothing is reported rejected, and each line parses to the message the
    sensor meant: its sensor, state, sequence, boot id and node, and the moment it
    gives, millisecond for millisecond, for times up to the year 2262 (the range
    of the clock). *)
Theorem lora_end_to_end fs at_ mono :
  Forall (fun '(n, f) => 0 <= n < 2 ^ 32 /\ wf_frame f /\
            (String.length (render f) <= kMaxPayload)%nat) fs ->
  let '(lines, rejected, driver) :=
    consumeLoRaFrames lora_init
      (mjoin ((fun '(n, f) => wire (sensor_frame n (render f))) <$> fs)) in
  lines = (fun nf => render nf.2) <$> fs /\ rejected = 0%N /\ driver = lora_init /\
  Forall2 (fun line nf => parse line at_ mono = Ok (frame_message nf.2 at_ mono)) lines fs.
Proof.
  intros Hfs. set (frames := (fun '(n, f) => sensor_frame n (render f)) <$> fs).
  assert (Hok : Forall frame_ok frames).
  { unfold frames. clear frames. induction Hfs as [|[n f] fs' (Hn & _ & Hlen) _ IH]; [constructor|].
    rewrite fmap_cons. apply Forall_cons_2; [|done]. split; simpl; [done|done|].
    by rewrite length_bytes_of_string. }
  assert (Hw : (fun '(n, f) => wire (sensor_frame n (render f))) <$> fs = wire <$> frames).
  { unfold frames. rewrite <-list_fmap_compose. apply list_fmap_ext. by intros ? [n f] _. }
  rewrite Hw. unfold consumeLoRaFrames, consume. simpl lora_buffer. rewrite app_nil_l.
  pose proof (drain_wires frames [] Hok) as Hd. rewrite app_nil_r in Hd. rewrite Hd. simpl.
  rewrite app_nil_r.
  assert (Hl : forall l, omap (fun frame => if negb (bool_decide (lf_type frame = SensorEvent)) then None
      else if is_empty (string_of_bytes (lf_payload frame)) then None
           else Some (string_of_bytes (lf_payload frame))) (received <$> ((fun '(n, f) => sensor_frame n (render f)) <$> l))
    = (fun nf : Z * hall_frame => render nf.2) <$> l \/ ~ Forall (fun nf => wf_frame nf.2) l).
  { induction l as [|[n f] l IH]; [by left|].
    destruct (decide (is_empty (render f) = true)) as [He|He].
    - right. intros [H _]%Forall_cons. simpl in H. apply render_nonempty in H. congruence.
    - destruct IH as [IH|IH]; [left|right; by intros [_ ?]%Forall_cons].
      rewrite !fmap_cons. simpl. rewrite string_bytes_roundtrip.
      destruct (is_empty (render f)); [done|]. simpl. by f_equal. }
  destruct (Hl fs) as [H|H].
  - split; [exact H|]. split; [done|]. split; [done|].
    unfold frames. rewrite H. clear -Hfs.
    induction Hfs as [|[n f] fs (_ & Hwf & _) _ IH]; [constructor|].
    rewrite fmap_cons. constructor; [|exact IH]. by apply parse_render.
  - exfalso. apply H. eapply Forall_impl; [exact Hfs|]. by intros [n f] (_ & ? & _).
Qed.

(** * The lines of the plain serial link *)

Lemma break_on_app_r d x y a b : break_on d x = Some (a, b) -> break_on d (x +:+ y) = Some (a, b +:+ y).
Proof.
  intros [-> Ha]%break_on_some. rewrite append_assoc. simpl. by apply break_on_app.
Qed.

Lemma break_on_length d x a b :
  break_on d x = Some (a, b) -> (String.length b < String.length x)%nat.
Proof.
  intros [-> _]%break_on_some. induction a; simpl; lia.
Qed.

Lemma take_lines_enough n m s :
  (String.length s < n)%nat -> (String.length s < m)%nat -> take_lines n s = take_lines m s.
Proof.
  revert m s. induction n as [|n IH]; intros [|m] s Hn Hm; try lia. simpl.
  destruct (break_on newline_char s) as [[line rest]|] eqn:E; [|done].
  apply break_on_length in E. by rewrite (IH m) by lia.
Qed.

(** The complete lines of a text, and its unfinished last line. *)
Definition lines_of (s : string) : list string * string := take_lines (S (String.length s)) s.

#[local] Arguments lines_of : simpl never.

Lemma lines_of_eq s :
  lines_of s = match break_on newline_char s with
               | None => ([], s)
               | Some (line, rest) =>
                   let '(lines, rest') := lines_of rest in
                   ((if is_empty (strip_cr line) then lines else strip_cr line :: lines), rest')
               end.
Proof.
  unfold lines_of at 1. cbn [take_lines].
  destruct (break_on newline_char s) as [[line rest]|] eqn:E; [|done].
  apply break_on_length in E.
  by rewrite (take_lines_enough (String.length s) (S (String.length rest))) by lia.
Qed.

Lemma lines_of_app x y :
  lines_of (x +:+ y) =
  let '(l1, r1) := lines_of x in let '(l2, r2) := lines_of (r1 +:+ y) in (l1 ++ l2, r2).
Proof.
  remember (String.length x) as n eqn:Hn. revert x Hn.
  induction n as [n IH] using (well_founded_induction lt_wf). intros x ->.
  rewrite (lines_of_eq x). destruct (break_on newline_char x) as [[line rest]|] eqn:E.
  - rewrite lines_of_eq, (break_on_app_r _ _ _ _ _ E).
    rewrite (IH (String.length rest)) by (done || by eapply break_on_length).
    destruct (lines_of rest) as [l1 r1]. destruct (lines_of (r1 +:+ y)) as [l2 r2].
    by destruct (is_empty (strip_cr line)).
  - by destruct (lines_of (x +:+ y)).
Qed.

Lemma lines_of_rest s : break_on newline_char (lines_of s).2 = None.
Proof.
  remember (String.length s) as n eqn:Hn. revert s Hn.
  induction n as [n IH] using (well_founded_induction lt_wf). intros s ->.
  rewrite lines_of_eq. destruct (break_on newline_char s) as [[line rest]|] eqn:E; [|done].
  specialize (IH _ (break_on_length _ _ _ _ E) rest eq_refl).
  by destruct (lines_of rest).
Qed.

Lemma lines_of_rest_length s : (String.length (lines_of s).2 <= String.length s)%nat.
Proof.
  remember (String.length s) as n eqn:Hn. revert s Hn.
  induction n as [n IH] using (well_founded_induction lt_wf). intros s ->.
  rewrite lines_of_eq. destruct (break_on newline_char s) as [[line rest]|] eqn:E; [|done].
  pose proof (break_on_length _ _ _ _ E) as Hl.
  specialize (IH _ Hl rest eq_refl). destruct (lines_of rest). simpl in *. lia.
Qed.

(** Feed the link read by read: the lines, whether some read overflowed, the buffer. *)
Fixpoint uart_run (buffer : string) (reads : list string) : list string * bool * string :=
  match reads with
  | [] => ([], false, buffer)
  | data :: reads' =>
      let '(l1, o1, b1) := consumeUartLines buffer data in
      let '(l2, o2, b2) := uart_run b1 reads' in (l1 ++ l2, o1 || o2, b2)
  end.

Lemma consumeUartLines_lines b d :
  consumeUartLines b d =
  if Nat.ltb 4096 (String.length (b +:+ d)) then ([], true, "")
  else ((lines_of (b +:+ d)).1, false, (lines_of (b +:+ d)).2).
Proof.
  unfold consumeUartLines. destruct (Nat.ltb _ _); [done|]. fold (lines_of (b +:+ d)).
  by destruct (lines_of (b +:+ d)).
Qed.

(** The serial line buffer is bounded and faithful: after any sequence of
    reads it holds at most 4096 bytes without a newline, and if no read overflowed,
    the lines handed on are exactly the non-empty lines of the whole byte stream,
    however the reads cut it. *)
Theorem uart_lines_faithful reads :
  let '(lines, overflowed, buffer) := uart_run "" reads in
  (String.length buffer <= 4096)%nat /\ break_on newline_char buffer = None /\
  (overflowed = false -> (lines, buffer) = lines_of (String.concat "" reads)).
Proof.
  assert (H : forall b, (String.length b <= 4096)%nat -> break_on newline_char b = None ->
    let '(lines, overflowed, buffer) := uart_run b reads in
    (String.length buffer <= 4096)%nat /\ break_on newline_char buffer = None /\
    (overflowed = false -> (lines, buffer) = lines_of (b +:+ String.concat "" reads))).
  { induction reads as [|d ds IH]; intros b Hb Hn; simpl.
    - split; [done|]. split; [done|]. intros _. rewrite append_nil_r, lines_of_eq. by rewrite Hn.
    - rewrite consumeUartLines_lines. destruct (Nat.ltb_spec 4096 (String.length (b +:+ d))).
      + specialize (IH "" ltac:(simpl; lia) eq_refl).
        destruct (uart_run "" ds) as [[l2 o2] b2]. destruct IH as (? & ? & _). by split_and!.
      + pose proof (lines_of_rest_length (b +:+ d)) as Hlen.
        specialize (IH (lines_of (b +:+ d)).2 ltac:(lia) (lines_of_rest _)).
        destruct (uart_run (lines_of (b +:+ d)).2 ds) as [[l2 o2] b2].
        destruct IH as (H1 & H2 & H3). split; [done|]. split; [done|].
        intros Ho. specialize (H3 Ho).
        assert (Hcat : b +:+ String.concat "" (d :: ds) = (b +:+ d) +:+ String.concat "" ds).
        { destruct ds; simpl; by rewrite ?append_nil_r, ?append_assoc. }
        simpl in Hcat. rewrite Hcat, (lines_of_app (b +:+ d)).
        destruct (lines_of (b +:+ d)) as [l1 r1]. simpl in *. by rewrite <-H3. }
  apply (H ""); [simpl; lia|done].
Qed.

(** * Witnesses *)

Definition sample_line : string := render sample_frame.
Definition sample_lora : LoRaFrame := sensor_frame 7 sample_line.

Lemma sample_lora_ok : frame_ok sample_lora.
Proof. split; [vm_compute; split; congruence | vm_compute; split; congruence | vm_compute; lia]. Qed.

Lemma lora_roundtrip_witness :
  Forall (fun f => encode f = Ok (wire f)) [sample_lora] /\
  consume_chunks lora_init [take 9 (wire sample_lora); drop 9 (wire sample_lora)]
    = ([received sample_lora], lora_init).
Proof.
  apply (lora_roundtrip [sample_lora]).
  - apply Forall_singleton. exact sample_lora_ok.
  - vm_compute. reflexivity.
Defined.

Lemma lora_corruption_rejected_witness :
  exists rest', consume_turn ([kSof0; kSof1] ++ <[10%nat := 33]> (frame_body sample_lora) ++
    appendU16 (crc16Ccitt (frame_body sample_lora)) ++ [1; 2; 3]) = RejectByte rest'.
Proof.
  eexists.
  apply (lora_corruption_rejected sample_lora 10 78 33 [1; 2; 3]);
    [exact sample_lora_ok | apply bytes_of_string_ok | vm_compute; reflexivity
    | lia | lia | vm_compute; split; congruence | lia].
Defined.

Definition sample_frames : list (Z * hall_frame) :=
  [(7, sample_frame); (8, HallBootTime "H1" Vacant "b1" 3 1700000000123)].
Definition sample_stream : list Z :=
  mjoin ((fun '(n, f) => wire (sensor_frame n (render f))) <$> sample_frames).

Lemma lora_end_to_end_witness :
  Forall2 (fun line nf => parse line 0 0 = Ok (frame_message nf.2 0 0))
    (consumeLoRaFrames lora_init sample_stream).1.1 sample_frames.
Proof.
  assert (H : Forall (fun '(n, f) => 0 <= n < 2 ^ 32 /\ wf_frame f /\
            (String.length (render f) <= kMaxPayload)%nat) sample_frames).
  { repeat (apply Forall_cons_2; [split; [lia|]; split; [vm_compute; intuition congruence|];
      apply Nat.leb_le; vm_compute; reflexivity|]). apply Forall_nil_2. }
  pose proof (lora_end_to_end sample_frames 0 0 H) as Hx. fold sample_stream in Hx.
  destruct (consumeLoRaFrames lora_init sample_stream) as [[lines rejected] driver].
  apply Hx.
Defined.
