(* ===== verification/OccupancyDb.v ===== *)
(** The tables of the durable occupancy store and its SQL statements read as
    relational updates: the command types of [src/parking/SlotTransitionTypes.cpp],
    the columns and unique indexes of [src/database/EventDatabaseTimer.cpp], and the
    helpers of [src/database/EventDatabaseOccupancy.cpp]. A statement that violates
    a constraint is an error; a transaction is a function that returns the new
    store, and a rolled back one returns the store it started from. *)
From stdpp Require Import sorting.
From S2P Require Import Prelude SensorProtocol SequencePolicy SlotConfig.

(** * Commands *)

(** [include/parking/SlotTransitionTypes.hpp:11-11 SlotCommandKind] *)
Inductive SlotCommandKind := HallObservation | CameraObservation | ExitDeadline.
#[global] Instance SlotCommandKind_eq_dec : EqDecision SlotCommandKind.
Proof. solve_decision. Defined.

(** [include/parking/SlotTransitionTypes.hpp:13-18 SlotCommandStatus] *)
Inductive SlotCommandStatus := PendingUnprepared | PendingPrepared | Applied | RejectedInvalid.
#[global] Instance SlotCommandStatus_eq_dec : EqDecision SlotCommandStatus.
Proof. solve_decision. Defined.

(** [include/parking/SlotTransitionTypes.hpp:20-30 SlotTransitionCommand] *)
Record SlotTransitionCommand := mkSlotTransitionCommand {
  stc_commandId : string;
  stc_kind : SlotCommandKind;
  stc_slotId : string;
  stc_sensorId : string;
  stc_sourceIdentity : string;
  stc_sourceSequence : option N;
  stc_occurredAt : string;
  stc_payloadJson : string;
  stc_dueAtEpochMs : Z
}.

(** [include/parking/SlotTransitionTypes.hpp:46-54 SlotAdmissionCode] *)
Inductive SlotAdmissionCode :=
| CommandAdmitted | Existing | AlreadyTerminal | RejectedStale | AdmissionConflict | CapacityFull
| AdmissionRetryable.
#[global] Instance SlotAdmissionCode_eq_dec : EqDecision SlotAdmissionCode.
Proof. solve_decision. Defined.

(** [include/parking/SlotTransitionTypes.hpp:56-66 SlotAdmissionResult] *)
Record SlotAdmissionResult := mkSlotAdmissionResult {
  sar_code : SlotAdmissionCode;
  sar_commandId : string;
  sar_message : string
}.
Definition admission_accepted (r : SlotAdmissionResult) : bool :=
  match sar_code r with CommandAdmitted | Existing | AlreadyTerminal => true | _ => false end.

(** [include/parking/SlotTransitionTypes.hpp:68-77 CommittedOccupancyCode] *)
Inductive CommittedOccupancyCode :=
| CommittedStarted | CommittedEnded | NoChange | ExitScheduled | AlreadyApplied
| RejectedInvalidTimestamp | StaleGeneration | RetryableFailure.
#[global] Instance CommittedOccupancyCode_eq_dec : EqDecision CommittedOccupancyCode.
Proof. solve_decision. Defined.

(** [include/parking/SlotTransitionTypes.hpp:79-97 CommittedOccupancyTransition] *)
Record CommittedOccupancyTransition := mkCommittedOccupancyTransition {
  cot_code : CommittedOccupancyCode;
  cot_commandId : string;
  cot_sourceKind : SlotCommandKind;
  cot_slotId : string;
  cot_sensorId : string;
  cot_sessionId : Z;
  cot_occupancyAttemptId : string;
  cot_correlationId : string;
  cot_observationGeneration : N;
  cot_occurredAt : string;
  cot_occurredAtEpochMs : Z;
  cot_sourceTransport : string;
  cot_message : string
}.
Definition transition_terminal (o : CommittedOccupancyTransition) : bool :=
  negb (bool_decide (cot_code o = RetryableFailure)).

(** [src/database/EventDatabaseOccupancy.cpp:119-139 resultCodeName] *)
Definition resultCodeName (code : CommittedOccupancyCode) : string :=
  match code with
  | CommittedStarted => "SESSION_STARTED"
  | CommittedEnded => "SESSION_ENDED"
  | NoChange => "NO_CHANGE"
  | ExitScheduled => "EXIT_SCHEDULED"
  | AlreadyApplied => "ALREADY_APPLIED"
  | RejectedInvalidTimestamp => "REJECTED_INVALID_TIMESTAMP"
  | StaleGeneration => "STALE_GENERATION"
  | RetryableFailure => "RETRYABLE_FAILURE"
  end.

(** [src/database/EventDatabaseOccupancy.cpp:141-158 resultCodeFromName] *)
Definition resultCodeFromName (value : string) : CommittedOccupancyCode :=
  if bool_decide (value = "SESSION_STARTED") then CommittedStarted else
  if bool_decide (value = "SESSION_ENDED") then CommittedEnded else
  if bool_decide (value = "NO_CHANGE") then NoChange else
  if bool_decide (value = "EXIT_SCHEDULED") then ExitScheduled else
  if bool_decide (value = "ALREADY_APPLIED") then AlreadyApplied else
  if bool_decide (value = "REJECTED_INVALID_TIMESTAMP") then RejectedInvalidTimestamp else
  if bool_decide (value = "STALE_GENERATION") then StaleGeneration else RetryableFailure.

Lemma resultCode_roundtrip code : resultCodeFromName (resultCodeName code) = code.
Proof. by destruct code. Qed.

(** [src/database/EventDatabaseOccupancy.cpp:109-117 parseUnsigned] *)
Definition parseUnsigned (value : string) : option N :=
  match digits_value value with
  | Some n => if bool_decide (n <= uint64_max)%N then Some n else None
  | None => None
  end.

(** [src/database/EventDatabaseOccupancy.cpp:197-199 terminalStatus] *)
Definition terminalStatus (status : SlotCommandStatus) : bool :=
  match status with Applied | RejectedInvalid => true | _ => false end.

(** * Errors *)

(** [std::invalid_argument], and every other exception. *)
Inductive store_error := InvalidArgument (what : string) | RuntimeError (what : string).

(** * JSON access *)

(** The functions of the SQL engine that the statements call: [strftime] on epoch
    milliseconds, [julianday] turned into epoch milliseconds, and [json_extract], where
    [None] is SQL's NULL. On text that is not JSON [json_extract] is an error; the one
    statement that calls it reads the payloads of stored hall commands, and those were
    parsed before they were stored ([OccupancyStore.hall_payloads_parse]). *)
Class SqlFunctions := {
  sql_iso_utc : Z -> string;
  sql_julian_ms : string -> Z;
  sql_json_text : string -> string -> option string
}.

(** The library's parser, printer and equality, and its conversion of a
    floating-point number to an integer. *)
Class JsonLibrary := {
  json_parse : string -> result string json;
  json_dump : json -> string;
  json_eqb : json -> json -> bool;
  json_float_to_int : string -> Z
}.

(** [object.value(key, fallback)] at type string. *)
Definition value_string (object : json) (key fallback : string) : result store_error string :=
  if negb (is_object object) then Err (RuntimeError "cannot use value()") else
  match json_find object key with
  | None => Ok fallback
  | Some (JString s) => Ok s
  | Some _ => Err (RuntimeError "type must be string")
  end.

Definition value_bool (object : json) (key : string) (fallback : bool) : result store_error bool :=
  if negb (is_object object) then Err (RuntimeError "cannot use value()") else
  match json_find object key with
  | None => Ok fallback
  | Some (JBool b) => Ok b
  | Some _ => Err (RuntimeError "type must be boolean")
  end.

Definition value_json (object : json) (key : string) (fallback : json) : result store_error json :=
  if negb (is_object object) then Err (RuntimeError "cannot use value()") else
  Ok (default fallback (json_find object key)).

(** The number before its conversion to the 64-bit result type. *)
Definition value_number {JL : JsonLibrary} (object : json) (key : string) (fallback : Z)
    : result store_error Z :=
  if negb (is_object object) then Err (RuntimeError "cannot use value()") else
  match json_find object key with
  | None => Ok fallback
  | Some (JInteger z) => Ok z
  | Some (JFloat text) => Ok (json_float_to_int text)
  | Some _ => Err (RuntimeError "type must be number")
  end.
Definition value_int64 {JL : JsonLibrary} (object : json) (key : string) (fallback : Z)
    : result store_error Z :=
  let? z := value_number object key fallback in Ok (wrap_int64 z).
Definition value_uint64 {JL : JsonLibrary} (object : json) (key : string) (fallback : Z)
    : result store_error N :=
  let? z := value_number object key fallback in Ok (Z.to_N (z mod 2 ^ 64)).

Definition json_erase (object : json) (key : string) : json :=
  match object with
  | JObject members => JObject (List.filter (fun kv => negb (bool_decide (kv.1 = key))) members)
  | j => j
  end.

(** [object[key] = value]; an object keeps its members in key order. *)
Fixpoint members_set (members : list (string * json)) (key : string) (value : json)
    : list (string * json) :=
  match members with
  | [] => [(key, value)]
  | (k, v) :: rest =>
      match String.compare key k with
      | Lt => (key, value) :: members
      | Eq => (key, value) :: rest
      | Gt => (k, v) :: members_set rest key value
      end
  end.
Definition json_set (object : json) (key : string) (value : json) : result store_error json :=
  match object with
  | JObject members => Ok (JObject (members_set members key value))
  | JNull => Ok (JObject [(key, value)])
  | _ => Err (RuntimeError "cannot use operator[] with a string argument")
  end.

(** A text that has to parse; the parser's exception is no [std::invalid_argument]. *)
Definition parse_or_throw {JL : JsonLibrary} (text : string) : result store_error json :=
  match json_parse text with Ok j => Ok j | Err m => Err (RuntimeError m) end.

(** [src/parking/SlotTransitionTypes.cpp:56-87 sameSlotSourceFact] *)
Definition sameSlotSourceFact {JL : JsonLibrary} (lhs rhs : SlotTransitionCommand) : bool :=
  bool_decide (stc_commandId lhs = stc_commandId rhs) &&
  bool_decide (stc_kind lhs = stc_kind rhs) &&
  bool_decide (stc_slotId lhs = stc_slotId rhs) &&
  bool_decide (stc_sensorId lhs = stc_sensorId rhs) &&
  bool_decide (stc_sourceIdentity lhs = stc_sourceIdentity rhs) &&
  bool_decide (stc_sourceSequence lhs = stc_sourceSequence rhs) &&
  match json_parse (stc_payloadJson lhs), json_parse (stc_payloadJson rhs) with
  | Ok lj, Ok rj =>
      match stc_kind lhs with
      | HallObservation =>
          (is_object lj && is_object rj) &&
          json_eqb (json_erase lj "occurred_at_epoch_ms") (json_erase rj "occurred_at_epoch_ms")
      | CameraObservation =>
          (is_object lj && is_object rj) &&
          bool_decide (stc_occurredAt lhs = stc_occurredAt rhs) &&
          json_eqb (json_erase lj "deadline_due_at_epoch_ms")
                   (json_erase rj "deadline_due_at_epoch_ms")
      | ExitDeadline =>
          bool_decide (stc_occurredAt lhs = stc_occurredAt rhs) &&
          bool_decide (stc_dueAtEpochMs lhs = stc_dueAtEpochMs rhs) && json_eqb lj rj
      end
  | _, _ => false
  end.

(** [src/database/EventDatabaseOccupancy.cpp:201-218 hallSequenceFact] *)
Definition hallSequenceFact (command : SlotTransitionCommand) (payload : json)
    : result store_error SensorSequenceFact :=
  let? encoded := value_string payload "source_protocol" "LEGACY_V1" in
  match sensorProtocolVersionFromString encoded with
  | None => Err (InvalidArgument "unsupported Hall source protocol")
  | Some protocol =>
      let bootId := match json_find payload "source_boot_id" with
                    | Some (JString b) => Some b | _ => None end in
      Ok (mkSensorSequenceFact protocol bootId (stc_sourceSequence command))
  end.

(** * The tables *)

Inductive SessionStatus := StatusActive | StatusEnded | StatusViolation | StatusUnknown.
#[global] Instance SessionStatus_eq_dec : EqDecision SessionStatus.
Proof. solve_decision. Defined.

(** The columns of PARKING_SESSION that the store reads or writes. *)
Record SessionRow := mkSessionRow {
  sr_slot_id : string;
  sr_entry_time : string;
  sr_exit_time : option string;
  sr_status : SessionStatus;
  sr_attempt_id : option string;
  sr_entry_command : option string;
  sr_exit_command : option string;
  sr_entry_ms : option Z;
  sr_exit_ms : option Z;
  sr_duration_sec : Z;
  sr_hall_confirmed : bool;
  sr_iva_confirmed : bool;
  sr_hall_occupied : bool;
  sr_iva_occupied : bool
}.

Inductive EffectState := EffectNone | EffectPending | EffectApplied.
#[global] Instance EffectState_eq_dec : EqDecision EffectState.
Proof. solve_decision. Defined.

(** [src/database/EventDatabaseTimer.cpp:881-908 OCCUPANCY_COMMAND_INBOX] *)
Record InboxRow := mkInboxRow {
  ib_slot_id : string;
  ib_kind : SlotCommandKind;
  ib_sensor_id : string;
  ib_source_identity : string;
  ib_source_sequence : option string;
  ib_occurred_at : string;
  ib_payload : string;
  ib_due_ms : Z;
  ib_ordinal : Z;
  ib_status : SlotCommandStatus;
  ib_attempt_id : string;
  ib_correlation_id : string;
  ib_generation : Z;
  ib_deadline_id : string;
  ib_expected_session : option Z;
  ib_attempt_count : Z;
  ib_next_attempt_ms : Z;
  ib_last_error : string;
  ib_result_code : string;
  ib_result_session : option Z;
  ib_effect_state : EffectState;
  ib_effect_attempts : Z;
  ib_effect_next_ms : Z;
  ib_effect_error : string;
  ib_created_sec : Z
}.

Inductive DeadlineState := DeadlineScheduled | DeadlineAdmitted | DeadlineSuperseded | DeadlineApplied.
#[global] Instance DeadlineState_eq_dec : EqDecision DeadlineState.
Proof. solve_decision. Defined.

Record DeadlineRow := mkDeadlineRow {
  dl_slot_id : string;
  dl_attempt_id : string;
  dl_session : Z;
  dl_generation : Z;
  dl_due_ms : Z;
  dl_policy : string;
  dl_state : DeadlineState;
  dl_admitted_command : option string
}.

Record IvaRow := mkIvaRow {
  iv_attempt_id : string;
  iv_session : option Z;
  iv_generation : Z;
  iv_state : string;
  iv_configured : string;
  iv_areas : string;
  iv_command : string
}.

Record SequenceRow := mkSequenceRow {
  sq_versioned : bool;
  sq_boot_id : option string;
  sq_last_sequence : string;
  sq_command : string
}.

Inductive BindingState := BindingPending | BindingCommitted | BindingEnded | BindingExpired | BindingOther.
#[global] Instance BindingState_eq_dec : EqDecision BindingState.
Proof. solve_decision. Defined.

Record BindingRow := mkBindingRow {
  bi_command : string;
  bi_attempt_id : string;
  bi_session : option Z;
  bi_slot_id : string;
  bi_camera : string;
  bi_token : string;
  bi_rule : string;
  bi_object : string;
  bi_channel : string;
  bi_revision : Z;
  bi_state : BindingState;
  bi_created_ms : Z;
  bi_expires_ms : Z;
  bi_updated_ms : Z;
  bi_ended_ms : option Z
}.

Record LogRow := mkLogRow {
  lg_session : Z; lg_slot_id : string; lg_type : string; lg_message : string
}.

(** The database; [st_session_seq] is the AUTOINCREMENT counter of PARKING_SESSION. *)
Record Store := mkStore {
  st_slots : gmap string string;
  st_sessions : gmap Z SessionRow;
  st_session_seq : Z;
  st_inbox : gmap string InboxRow;
  st_deadlines : gmap string DeadlineRow;
  st_iva : gmap string IvaRow;
  st_sequences : gmap string SequenceRow;
  st_retired : gset (string * string);
  st_bindings : gmap string BindingRow;
  st_log : list LogRow
}.

Definition with_slots (s : Store) x := mkStore x (st_sessions s) (st_session_seq s) (st_inbox s)
  (st_deadlines s) (st_iva s) (st_sequences s) (st_retired s) (st_bindings s) (st_log s).
Definition with_sessions (s : Store) x := mkStore (st_slots s) x (st_session_seq s) (st_inbox s)
  (st_deadlines s) (st_iva s) (st_sequences s) (st_retired s) (st_bindings s) (st_log s).
Definition with_session_seq (s : Store) x := mkStore (st_slots s) (st_sessions s) x (st_inbox s)
  (st_deadlines s) (st_iva s) (st_sequences s) (st_retired s) (st_bindings s) (st_log s).
Definition with_inbox (s : Store) x := mkStore (st_slots s) (st_sessions s) (st_session_seq s) x
  (st_deadlines s) (st_iva s) (st_sequences s) (st_retired s) (st_bindings s) (st_log s).
Definition with_deadlines (s : Store) x := mkStore (st_slots s) (st_sessions s) (st_session_seq s)
  (st_inbox s) x (st_iva s) (st_sequences s) (st_retired s) (st_bindings s) (st_log s).
Definition with_iva (s : Store) x := mkStore (st_slots s) (st_sessions s) (st_session_seq s)
  (st_inbox s) (st_deadlines s) x (st_sequences s) (st_retired s) (st_bindings s) (st_log s).
Definition with_sequences (s : Store) x := mkStore (st_slots s) (st_sessions s) (st_session_seq s)
  (st_inbox s) (st_deadlines s) (st_iva s) x (st_retired s) (st_bindings s) (st_log s).
Definition with_retired (s : Store) x := mkStore (st_slots s) (st_sessions s) (st_session_seq s)
  (st_inbox s) (st_deadlines s) (st_iva s) (st_sequences s) x (st_bindings s) (st_log s).
Definition with_bindings (s : Store) x := mkStore (st_slots s) (st_sessions s) (st_session_seq s)
  (st_inbox s) (st_deadlines s) (st_iva s) (st_sequences s) (st_retired s) x (st_log s).
Definition with_log (s : Store) x := mkStore (st_slots s) (st_sessions s) (st_session_seq s)
  (st_inbox s) (st_deadlines s) (st_iva s) (st_sequences s) (st_retired s) (st_bindings s) x.

(** * Transactions as a state and error monad *)

Definition txn (A : Type) : Type := Store -> result store_error (A * Store).

Definition tret {A} (a : A) : txn A := fun s => Ok (a, s).
Definition tbind {A B} (m : txn A) (k : A -> txn B) : txn B :=
  fun s => match m s with Ok (a, s') => k a s' | Err e => Err e end.
Definition tfail {A} (e : store_error) : txn A := fun _ => Err e.
Definition tget {A} (f : Store -> A) : txn A := fun s => Ok (f s, s).
Definition tput (f : Store -> Store) : txn unit := fun s => Ok (tt, f s).
Definition tlift {A} (r : result store_error A) : txn A :=
  fun s => match r with Ok a => Ok (a, s) | Err e => Err e end.
Definition tguard (b : bool) (e : store_error) : txn unit :=
  if b then tret tt else tfail e.

Notation "'do!' x '<-' m 'in' k" := (tbind m (fun x => k))
  (at level 10, x pattern, m at level 100, k at level 200) : pi_scope.
Notation "m ';!' k" := (tbind m (fun _ => k))
  (at level 100, k at level 200, right associativity) : pi_scope.

Definition sql_failed : store_error := RuntimeError "SQLite occupancy statement failed".

(** * Reading the hall cursor *)

(** [src/database/EventDatabaseOccupancy.cpp:220-258 loadHallSequenceState] *)
Definition loadHallSequenceState (s : Store) (sensor_id : string) : SensorSequenceState :=
  let retired : gset string :=
    list_to_set (map snd (List.filter (fun p => bool_decide (p.1 = sensor_id))
                            (elements (st_retired s)))) in
  match st_sequences s !! sensor_id with
  | None => mkSensorSequenceState Unseen None None retired
  | Some row =>
      mkSensorSequenceState (if sq_versioned row then Versioned else Legacy)
        (nonempty_option (sq_boot_id row)) (parseUnsigned (sq_last_sequence row)) retired
  end.

(** * The schema's invariants *)

Definition session_open (r : SessionRow) : bool :=
  bool_decide (sr_exit_time r = None) &&
  (bool_decide (sr_status r = StatusActive) || bool_decide (sr_status r = StatusViolation)).

Definition pending (r : InboxRow) : bool := bool_decide (ib_status r = PendingUnprepared).
Definition deadline_live (r : DeadlineRow) : bool :=
  bool_decide (dl_state r = DeadlineScheduled) || bool_decide (dl_state r = DeadlineAdmitted).

(** [SELECT ... WHERE p]. *)
Definition select_rows {K A} `{Countable K} (p : K -> A -> bool) (m : gmap K A) : list (K * A) :=
  List.filter (fun kv => p kv.1 kv.2) (map_to_list m).

(** [SELECT COUNT( * ) ... WHERE p]. *)
Definition count_rows {K A} `{Countable K} (p : A -> bool) (m : gmap K A) : nat :=
  length (select_rows (fun _ => p) m).

(** [ORDER BY key LIMIT 1]. *)
Definition min_by {A} (key : A -> Z) (l : list A) : option A :=
  foldr (fun a acc => match acc with
                      | Some b => if key b <? key a then Some b else Some a
                      | None => Some a end) None l.

(** [ORDER BY], with [before] as the order of two rows. *)
#[global] Instance before_dec {A} (before : A -> A -> bool) :
  RelDecision (fun a b => before a b = true) := fun a b => bool_eq_dec (before a b) true.
Definition sort_rows {A} (before : A -> A -> bool) (l : list A) : list A :=
  merge_sort (fun a b => before a b = true) l.

(** [UPDATE ... SET f WHERE p]. *)
Definition update_rows {K A} `{Countable K} (p : A -> bool) (f : A -> A) (m : gmap K A) : gmap K A :=
  (fun r => if p r then f r else r) <$> m.

(** [COALESCE(MAX(admission_ordinal), 0)]. *)
Definition max_ordinal (inbox : gmap string InboxRow) : Z :=
  foldr (fun kv acc => Z.max (ib_ordinal kv.2) acc) 0 (map_to_list inbox).

(** A row that clashes with one of the unique indexes of the inbox. *)
Definition inbox_clash (inbox : gmap string InboxRow) (id : string) (row : InboxRow) : bool :=
  bool_decide (is_Some (inbox !! id)) ||
  existsb (fun kv => (bool_decide (ib_kind kv.2 = ib_kind row) &&
                      bool_decide (ib_source_identity kv.2 = ib_source_identity row)) ||
                     bool_decide (ib_ordinal kv.2 = ib_ordinal row)) (map_to_list inbox).

(** [INSERT INTO OCCUPANCY_COMMAND_INBOX]. *)
Definition insert_inbox (id : string) (row : InboxRow) : txn unit := fun s =>
  if inbox_clash (st_inbox s) id row || bool_decide (st_slots s !! ib_slot_id row = None)
  then Err sql_failed
  else Ok (tt, with_inbox s (<[id := row]> (st_inbox s))).

(** An inbox row whose facts stay and whose progress columns change. *)
Definition ib_progress (r : InboxRow) status attempt_id correlation generation attempts next error
    code session eff eff_attempts eff_next eff_error : InboxRow :=
  mkInboxRow (ib_slot_id r) (ib_kind r) (ib_sensor_id r) (ib_source_identity r)
    (ib_source_sequence r) (ib_occurred_at r) (ib_payload r) (ib_due_ms r) (ib_ordinal r)
    status attempt_id correlation generation (ib_deadline_id r) (ib_expected_session r)
    attempts next error code session eff eff_attempts eff_next eff_error (ib_created_sec r).

Definition ib_set_result (r : InboxRow) status error code : InboxRow :=
  ib_progress r status (ib_attempt_id r) (ib_correlation_id r) (ib_generation r)
    (ib_attempt_count r) (ib_next_attempt_ms r) error code (ib_result_session r)
    (ib_effect_state r) (ib_effect_attempts r) (ib_effect_next_ms r) (ib_effect_error r).
Definition ib_set_attempt (r : InboxRow) next error : InboxRow :=
  ib_progress r (ib_status r) (ib_attempt_id r) (ib_correlation_id r) (ib_generation r)
    (ib_attempt_count r + 1) next error (ib_result_code r) (ib_result_session r)
    (ib_effect_state r) (ib_effect_attempts r) (ib_effect_next_ms r) (ib_effect_error r).
Definition ib_set_effect (r : InboxRow) eff attempts next error : InboxRow :=
  ib_progress r (ib_status r) (ib_attempt_id r) (ib_correlation_id r) (ib_generation r)
    (ib_attempt_count r) (ib_next_attempt_ms r) (ib_last_error r) (ib_result_code r)
    (ib_result_session r) eff attempts next error.

(** The facts of a row, which no update touches. *)
Definition ib_facts (r : InboxRow) :=
  (ib_slot_id r, ib_kind r, ib_sensor_id r, ib_source_identity r, ib_source_sequence r,
   ib_occurred_at r, ib_payload r, ib_due_ms r, ib_ordinal r, ib_created_sec r).

(** * Generic lemmas *)

Lemma select_rows_elem {K A} `{Countable K} (p : K -> A -> bool) (m : gmap K A) k a :
  (k, a) ∈ select_rows p m <-> m !! k = Some a /\ p k a = true.
Proof.
  unfold select_rows. rewrite list_elem_of_In, filter_In, <-list_elem_of_In.
  by rewrite elem_of_map_to_list.
Qed.

Lemma select_rows_nil {K A} `{Countable K} (p : K -> A -> bool) (m : gmap K A) k a :
  select_rows p m = [] -> m !! k = Some a -> p k a = false.
Proof.
  intros Hnil Hk. destruct (p k a) eqn:Hp; [|done].
  assert ((k, a) ∈ select_rows p m) as Hin by by apply select_rows_elem.
  rewrite Hnil in Hin. by apply elem_of_nil in Hin.
Qed.

Lemma select_rows_NoDup {K A} `{Countable K} (p : K -> A -> bool) (m : gmap K A) :
  NoDup (select_rows p m).*1.
Proof.
  unfold select_rows. pose proof (NoDup_fst_map_to_list m) as Hnd.
  induction (map_to_list m) as [|[k a] l IH]; simpl; [constructor|].
  rewrite fmap_cons in Hnd. apply NoDup_cons in Hnd as [Hk Hnd].
  destruct (p k a); [|by apply IH]. rewrite fmap_cons. apply NoDup_cons. split; [|by apply IH].
  simpl. intros [[k' a'] [-> Hin]]%list_elem_of_fmap. apply Hk.
  apply list_elem_of_fmap. exists (k', a'). split; [done|].
  apply list_elem_of_In, filter_In in Hin as [Hin _]. by apply list_elem_of_In.
Qed.

Lemma filter_perm_length {A} (p : A -> bool) (l1 l2 : list A) :
  l1 ≡ₚ l2 -> length (List.filter p l1) = length (List.filter p l2).
Proof.
  induction 1 as [|x l1 l2 _ IH|x y l|l1 l2 l3 _ IH1 _ IH2]; simpl; [done| | |congruence].
  - by destruct (p x); simpl; rewrite IH.
  - by destruct (p x), (p y).
Qed.

Lemma count_rows_insert {K A} `{Countable K} (p : A -> bool) (m : gmap K A) k a :
  m !! k = None -> count_rows p (<[k := a]> m) = ((if p a then 1 else 0) + count_rows p m)%nat.
Proof.
  intros Hk. unfold count_rows, select_rows.
  rewrite (filter_perm_length _ _ _ (map_to_list_insert m k a Hk)). simpl. by destruct (p a).
Qed.

Lemma count_rows_delete {K A} `{Countable K} (p : A -> bool) (m : gmap K A) k a :
  m !! k = Some a -> count_rows p m = ((if p a then 1 else 0) + count_rows p (delete k m))%nat.
Proof.
  intros Hk. rewrite <-(insert_delete_id m k a Hk) at 1.
  apply count_rows_insert, lookup_delete_eq.
Qed.

Lemma count_rows_update {K A} `{Countable K} (p : A -> bool) (m : gmap K A) k a b :
  m !! k = Some a ->
  ((if p a then 1 else 0) + count_rows p (<[k := b]> m) =
   (if p b then 1 else 0) + count_rows p m)%nat.
Proof.
  intros Hk. rewrite (count_rows_delete p m k a Hk), <-insert_delete_eq.
  rewrite count_rows_insert by apply lookup_delete_eq. lia.
Qed.

Lemma min_by_some {A} (key : A -> Z) l a :
  min_by key l = Some a -> a ∈ l /\ Forall (fun b => key a <= key b) l.
Proof.
  revert a. induction l as [|x l IH]; simpl; intros a; [done|].
  destruct (min_by key l) as [b|] eqn:E.
  - destruct (IH b eq_refl) as [Hb Hall]. destruct (key b <? key x) eqn:Hlt; intros [= <-].
    + apply Z.ltb_lt in Hlt. split; [by right|constructor; [lia|done]].
    + apply Z.ltb_ge in Hlt. split; [by left|constructor; [lia|]].
      eapply Forall_impl; [done|simpl; lia].
  - intros [= <-]. destruct l as [|y l]; [split; [by left|repeat constructor; lia]|].
    simpl in E. destruct (min_by key l); [|done]. by destruct (key a <? key y).
Qed.

Lemma min_by_none {A} (key : A -> Z) l : min_by key l = None -> l = [].
Proof.
  destruct l as [|x l]; [done|]. simpl. destruct (min_by key l); [|done].
  by destruct (key a <? key x).
Qed.

Lemma sort_rows_perm {A} (before : A -> A -> bool) l : sort_rows before l ≡ₚ l.
Proof. apply merge_sort_Permutation. Qed.

Lemma max_ordinal_lookup inbox id r : inbox !! id = Some r -> ib_ordinal r <= max_ordinal inbox.
Proof.
  intros Hr. apply elem_of_map_to_list in Hr. unfold max_ordinal.
  induction (map_to_list inbox) as [|x l IH]; [by apply elem_of_nil in Hr|].
  apply elem_of_cons in Hr as [<-|Hr]; simpl; [lia|]. specialize (IH Hr). lia.
Qed.

Lemma inbox_clash_false inbox id row :
  inbox_clash inbox id row = false ->
  inbox !! id = None /\
  forall id' r, inbox !! id' = Some r ->
    (ib_kind r, ib_source_identity r) <> (ib_kind row, ib_source_identity row) /\
    ib_ordinal r <> ib_ordinal row.
Proof.
  unfold inbox_clash. intros [H1 H2]%orb_false_elim. apply bool_decide_eq_false_1 in H1.
  split; [by apply eq_None_not_Some|]. intros id' r Hr%elem_of_map_to_list.
  assert (H3 : forall x, In x (map_to_list inbox) -> (bool_decide (ib_kind x.2 = ib_kind row) &&
     bool_decide (ib_source_identity x.2 = ib_source_identity row)
     || bool_decide (ib_ordinal x.2 = ib_ordinal row))%bool = false).
  { intros x Hx. apply not_true_is_false. intros Ht.
    assert (existsb (fun kv => (bool_decide (ib_kind kv.2 = ib_kind row) &&
       bool_decide (ib_source_identity kv.2 = ib_source_identity row))
       || bool_decide (ib_ordinal kv.2 = ib_ordinal row)) (map_to_list inbox) = true) as Hex
      by (apply existsb_exists; eauto).
    rewrite Hex in H2. done. }
  specialize (H3 (id', r)). rewrite <-list_elem_of_In in H3. specialize (H3 Hr). simpl in H3.
  apply orb_false_elim in H3 as [H3 H4]. apply bool_decide_eq_false_1 in H4. split; [|done].
  intros [= He1 He2]. rewrite He1, He2, !bool_decide_eq_true_2 in H3; done.
Qed.

(** * Weakest preconditions of transactions *)

Definition wp {A} (m : txn A) (Q : A -> Store -> Prop) (s : Store) : Prop :=
  match m s with Ok (a, s') => Q a s' | Err _ => True end.

Lemma wp_bind {A B} (m : txn A) (k : A -> txn B) Q s :
  wp m (fun a => wp (k a) Q) s -> wp (tbind m k) Q s.
Proof. unfold wp, tbind. by destruct (m s) as [[a s']|e]. Qed.
Lemma wp_ret {A} (a : A) Q s : Q a s -> wp (tret a) Q s.
Proof. done. Qed.
Lemma wp_fail {A} e (Q : A -> Store -> Prop) s : wp (tfail e) Q s.
Proof. done. Qed.
Lemma wp_get {A} (f : Store -> A) Q s : Q (f s) s -> wp (tget f) Q s.
Proof. done. Qed.
Lemma wp_put f Q s : Q tt (f s) -> wp (tput f) Q s.
Proof. done. Qed.
Lemma wp_lift {A} (r : result store_error A) Q s :
  (forall a, r = Ok a -> Q a s) -> wp (tlift r) Q s.
Proof. unfold wp, tlift. destruct r; auto. Qed.
Lemma wp_guard b e Q s : (b = true -> Q tt s) -> wp (tguard b e) Q s.
Proof. unfold wp, tguard. destruct b; simpl; auto. Qed.
Lemma wp_mono {A} (m : txn A) (P Q : A -> Store -> Prop) s :
  (forall a s', P a s' -> Q a s') -> wp m P s -> wp m Q s.
Proof. unfold wp. destruct (m s) as [[a s']|e]; auto. Qed.
Lemma wp_ok {A} (m : txn A) Q s a s' : wp m Q s -> m s = Ok (a, s') -> Q a s'.
Proof. unfold wp. intros H Hm. by rewrite Hm in H. Qed.
