(* ===== verification/OccupancyAdmission.v ===== *)
(** Admission into the durable command inbox, its queries and its retries
    ([src/database/EventDatabaseOccupancy.cpp]): every operation on the inbox other
    than the application of a command. *)
From Stdlib Require Import Sorted.
From stdpp Require Import sorting.
From S2P Require Import Prelude SensorProtocol SequencePolicy SlotConfig OccupancyDb.

(** [include/parking/SlotTransitionTypes.hpp:32-44 DurableSlotCommand] *)
Record DurableSlotCommand := mkDurableSlotCommand {
  dsc_command : SlotTransitionCommand;
  dsc_admissionOrdinal : Z;
  dsc_status : SlotCommandStatus;
  dsc_occupancyAttemptId : string;
  dsc_correlationId : string;
  dsc_observationGeneration : N;
  dsc_deadlineId : string;
  dsc_expectedSessionId : option Z;
  dsc_attemptCount : Z;
  dsc_nextAttemptAtEpochMs : Z;
  dsc_lastError : string
}.

(** [src/database/EventDatabaseOccupancy.cpp:160-188 readCommand] *)
Definition readCommand (id : string) (r : InboxRow) : DurableSlotCommand :=
  mkDurableSlotCommand
    (mkSlotTransitionCommand id (ib_kind r) (ib_slot_id r) (ib_sensor_id r)
       (ib_source_identity r) (ib_source_sequence r ≫= parseUnsigned) (ib_occurred_at r)
       (ib_payload r) (ib_due_ms r))
    (ib_ordinal r) (ib_status r) (ib_attempt_id r) (ib_correlation_id r)
    (Z.to_N (Z.max 0 (ib_generation r))) (ib_deadline_id r) (ib_expected_session r)
    (ib_attempt_count r) (ib_next_attempt_ms r) (ib_last_error r).

(** The command that a stored row says was admitted. *)
Definition stored_command (id : string) (r : InboxRow) : SlotTransitionCommand :=
  mkSlotTransitionCommand id (ib_kind r) (ib_slot_id r) (ib_sensor_id r)
    (ib_source_identity r) (nonempty_option (ib_source_sequence r) ≫= parseUnsigned)
    (ib_occurred_at r) (ib_payload r) (ib_due_ms r).

Definition pending_count (s : Store) : nat := count_rows pending (st_inbox s).

Section Admission.
Context {JL : JsonLibrary} {SQL : SqlFunctions}.

(** The row of [INSERT INTO OCCUPANCY_COMMAND_INBOX]; the other columns take
    their defaults, [now_sec] is the engine's clock. *)
Definition admitted_row (command : SlotTransitionCommand) (ordinal : Z) (correlation_id : string)
    (now_sec : Z) : InboxRow :=
  mkInboxRow (stc_slotId command) (stc_kind command) (stc_sensorId command)
    (stc_sourceIdentity command) (pretty <$> stc_sourceSequence command)
    (stc_occurredAt command) (stc_payloadJson command) (stc_dueAtEpochMs command) ordinal
    PendingUnprepared "" correlation_id 0 "" None 0 0 "" "" None EffectNone 0 0 "" now_sec.

Definition find_identity (s : Store) (command : SlotTransitionCommand) : option (string * InboxRow) :=
  head (select_rows (fun _ r => bool_decide (ib_kind r = stc_kind command) &&
                                bool_decide (ib_source_identity r = stc_sourceIdentity command))
          (st_inbox s)).

(** [src/database/EventDatabaseOccupancy.cpp:305-329 EventDatabase::admitSlotTransitionCommand] *)
Definition admit_existing (id : string) (r : InboxRow) (command : SlotTransitionCommand)
    : SlotAdmissionResult :=
  if sameSlotSourceFact (stored_command id r) command
  then mkSlotAdmissionResult (if terminalStatus (ib_status r) then AlreadyTerminal else Existing)
         id "command already admitted"
  else mkSlotAdmissionResult AdmissionConflict id "source identity payload conflict".

(** [src/database/EventDatabaseOccupancy.cpp:333-362 EventDatabase::admitSlotTransitionCommand]
    The sequence gate of a hall command: [Some] is a refusal. *)
Definition hall_sequence_gate (s : Store) (command : SlotTransitionCommand)
    : result store_error (option SlotAdmissionResult) :=
  let refuse code message :=
    Ok (Some (mkSlotAdmissionResult code (stc_commandId command) message)) in
  if is_empty (stc_sensorId command)
  then refuse AdmissionConflict "Hall command sensor ID is empty" else
  match (let? hall_payload := parse_or_throw (stc_payloadJson command) in
         hallSequenceFact command hall_payload) with
  | Err (InvalidArgument what) => refuse AdmissionConflict what
  | Err e => Err e
  | Ok fact =>
      let decision := evaluateSensorSequence (loadHallSequenceState s (stc_sensorId command)) fact in
      if negb (accepted decision)
      then refuse (if bool_decide (ssd_code decision = Invalid)
                   then AdmissionConflict else RejectedStale) (ssd_reason decision)
      else Ok None
  end.

Definition is_hall_candidate (slot_id : string) (r : InboxRow) : bool :=
  bool_decide (ib_slot_id r = slot_id) && bool_decide (ib_kind r = HallObservation) &&
  pending r && bool_decide (sql_json_text (ib_payload r) "state" = Some "OCCUPIED") &&
  (0 <? ib_due_ms r).

Definition hall_candidate (s : Store) (slot_id : string) : option (string * InboxRow) :=
  min_by (fun kv => ib_ordinal kv.2)
    (select_rows (fun _ r => is_hall_candidate slot_id r) (st_inbox s)).

Definition cancel_candidate (r : InboxRow) : InboxRow :=
  ib_set_result r Applied "canceled by VACANT before confirmation" "NO_CHANGE".

(** [src/database/EventDatabaseOccupancy.cpp:369-414 EventDatabase::admitSlotTransitionCommand]
    The hall confirmation: [inl] is an answer, [inr] the store to go on with. *)
Definition hall_confirmation (s : Store) (command : SlotTransitionCommand)
    : result store_error (SlotAdmissionResult + Store) :=
  let? payload := parse_or_throw (stc_payloadJson command) in
  let? state := value_string payload "state" "" in
  if negb (bool_decide (state = "OCCUPIED")) && negb (bool_decide (state = "VACANT"))
  then Ok (inl (mkSlotAdmissionResult AdmissionConflict (stc_commandId command)
                  "hall command state is invalid")) else
  match hall_candidate s (stc_slotId command) with
  | None => Ok (inr s)
  | Some (candidate_id, candidate) =>
      if bool_decide (state = "OCCUPIED")
      then Ok (inl (mkSlotAdmissionResult Existing candidate_id
                      "hall confirmation already durable")) else
      let? vacant_observed :=
        value_int64 payload "occurred_at_epoch_ms" (stc_dueAtEpochMs command) in
      if vacant_observed <? ib_due_ms candidate
      then Ok (inr (with_inbox s (<[candidate_id := cancel_candidate candidate]> (st_inbox s))))
      else Ok (inr s)
  end.

(** [src/database/EventDatabaseOccupancy.cpp:416-464 EventDatabase::admitSlotTransitionCommand]
    The capacity check, the ordinal and the insertion. [s] is the store at the start
    of the transaction. *)
Definition admit_insert (s s1 : Store) (command : SlotTransitionCommand) (pending_capacity : N)
    (correlation_id : string) (now_sec : Z) : result store_error (SlotAdmissionResult * Store) :=
  let answer code := mkSlotAdmissionResult code (stc_commandId command) in
  if wrap_int64 (Z.of_N pending_capacity) <=? Z.of_nat (pending_count s1)
  then Ok (answer CapacityFull "durable occupancy inbox is full", s) else
  let row := admitted_row command (max_ordinal (st_inbox s1) + 1) correlation_id now_sec in
  match insert_inbox (stc_commandId command) row s1 with
  | Ok (_, s2) => Ok (answer CommandAdmitted "command durably admitted", s2)
  | Err e => Err e
  end.

Definition admit_transaction (s : Store) (command : SlotTransitionCommand) (pending_capacity : N)
    (correlation_id : string) (now_sec : Z) : result store_error (SlotAdmissionResult * Store) :=
  match find_identity s command with
  | Some (id, r) => Ok (admit_existing id r command, s)
  | None =>
      match stc_kind command with
      | HallObservation =>
          let? refusal := hall_sequence_gate s command in
          match refusal with
          | Some answer => Ok (answer, s)
          | None =>
              let? step := hall_confirmation s command in
              match step with
              | inl answer => Ok (answer, s)
              | inr s1 => admit_insert s s1 command pending_capacity correlation_id now_sec
              end
          end
      | _ => admit_insert s s command pending_capacity correlation_id now_sec
      end
  end.

Definition error_what (e : store_error) : string :=
  match e with InvalidArgument what | RuntimeError what => what end.

(** [src/database/EventDatabaseOccupancy.cpp:262-471 EventDatabase::admitSlotTransitionCommand] *)
Definition admitSlotTransitionCommand (opened : bool) (now_sec : Z) (command : SlotTransitionCommand)
    (pending_capacity : N) (s : Store) : SlotAdmissionResult * Store :=
  let answer code message := (mkSlotAdmissionResult code (stc_commandId command) message, s) in
  if is_empty (stc_commandId command) || is_empty (stc_slotId command) ||
     is_empty (stc_sourceIdentity command) || is_empty (stc_occurredAt command) ||
     is_empty (stc_payloadJson command) || (pending_capacity =? 0)%N
  then answer AdmissionConflict "invalid slot command fields" else
  match (if bool_decide (stc_kind command = CameraObservation)
         then let? payload := parse_or_throw (stc_payloadJson command) in
              value_string payload "correlation_id" ""
         else Ok "") with
  | Err e => answer AdmissionConflict (str_cat ["invalid camera command JSON: "; error_what e])
  | Ok command_correlation_id =>
      if negb opened then answer AdmissionRetryable "occupancy database is closed" else
      match admit_transaction s command pending_capacity command_correlation_id now_sec with
      | Ok outcome => outcome
      | Err e => answer AdmissionRetryable (error_what e)
      end
  end.

(** * Deadlines that fall due *)

Definition deadline_before (a b : string * DeadlineRow) : bool :=
  (dl_due_ms a.2 <? dl_due_ms b.2) ||
  ((dl_due_ms a.2 =? dl_due_ms b.2) && String.leb a.1 b.1).

Definition due_deadlines (now_epoch_ms : Z) (s : Store) : list (string * DeadlineRow) :=
  sort_rows deadline_before
    (select_rows (fun _ d => bool_decide (dl_state d = DeadlineScheduled) &&
                             (dl_due_ms d <=? now_epoch_ms)) (st_deadlines s)).

Definition deadline_command_id (deadline_id : string) : string :=
  "deadline-command:" +:+ deadline_id.

Definition deadline_payload (deadline_id : string) (d : DeadlineRow) : json :=
  JObject [("deadline_id", JString deadline_id);
           ("expected_session_id", JInteger (dl_session d));
           ("observation_generation", JInteger (dl_generation d));
           ("occupancy_attempt_id", JString (dl_attempt_id d));
           ("occupancy_policy", JString (dl_policy d))].

Definition deadline_row (deadline_id : string) (d : DeadlineRow) (ordinal now_sec : Z) : InboxRow :=
  mkInboxRow (dl_slot_id d) ExitDeadline "" deadline_id None (sql_iso_utc (dl_due_ms d))
    (json_dump (deadline_payload deadline_id d)) (dl_due_ms d) ordinal PendingUnprepared
    (dl_attempt_id d) "" (dl_generation d) deadline_id (Some (dl_session d)) 0 0 "" "" None
    EffectNone 0 0 "" now_sec.

(** [INSERT OR IGNORE]: a clash leaves the inbox alone, a missing slot is an error. *)
Definition insert_or_ignore (id : string) (row : InboxRow) : txn unit := fun s =>
  if inbox_clash (st_inbox s) id row then Ok (tt, s)
  else if bool_decide (st_slots s !! ib_slot_id row = None) then Err sql_failed
  else Ok (tt, with_inbox s (<[id := row]> (st_inbox s))).

(** [UPDATE ... SET state='ADMITTED',admitted_command_id=?]; [admitted_command_id] is
    unique. The result is the number of rows changed. *)
Definition mark_admitted (deadline_id command_id : string) : txn nat := fun s =>
  match st_deadlines s !! deadline_id with
  | Some d =>
      if negb (bool_decide (dl_state d = DeadlineScheduled)) then Ok (0%nat, s) else
      if existsb (fun kv => bool_decide (dl_admitted_command kv.2 = Some command_id) &&
                            negb (bool_decide (kv.1 = deadline_id))) (map_to_list (st_deadlines s))
      then Err sql_failed
      else Ok (1%nat, with_deadlines s (<[deadline_id :=
             mkDeadlineRow (dl_slot_id d) (dl_attempt_id d) (dl_session d) (dl_generation d)
               (dl_due_ms d) (dl_policy d) DeadlineAdmitted (Some command_id)]> (st_deadlines s)))
  | None => Ok (0%nat, s)
  end.

(** [src/database/EventDatabaseOccupancy.cpp:549-590 EventDatabase::admitDueSlotDeadlines] *)
Fixpoint admit_deadlines (due : list (string * DeadlineRow)) (next_ordinal : Z) (now_sec : Z)
    (admitted : nat) : txn nat :=
  match due with
  | [] => tret admitted
  | (deadline_id, d) :: due' =>
      let command_id := deadline_command_id deadline_id in
      insert_or_ignore command_id (deadline_row deadline_id d (next_ordinal + 1) now_sec) ;!
      do! changes <- mark_admitted deadline_id command_id in
      admit_deadlines due' (next_ordinal + 1) now_sec
        (if (changes =? 1)%nat then S admitted else admitted)
  end.

(** [src/database/EventDatabaseOccupancy.cpp:473-597 EventDatabase::admitDueSlotDeadlines]
    An error is rethrown after the rollback. *)
Definition admitDueSlotDeadlines (opened : bool) (now_sec now_epoch_ms : Z) (pending_capacity : N)
    (blocked_slots : list string) (s : Store) : result store_error nat * Store :=
  if (pending_capacity =? 0)%N || negb opened then (Ok 0%nat, s) else
  let due := due_deadlines now_epoch_ms s in
  if bool_decide (due = []) then (Ok 0%nat, s) else
  let pending := Z.of_nat (pending_count s) in
  if wrap_int64 (Z.of_N pending_capacity) <=? pending then (Ok 0%nat, s) else
  let available := Z.to_nat (Z.of_N pending_capacity - pending) in
  let chosen := take available
    (List.filter (fun kv => negb (existsb (String.eqb (dl_slot_id kv.2)) blocked_slots)) due) in
  match admit_deadlines chosen (max_ordinal (st_inbox s)) now_sec 0 s with
  | Ok (admitted, s') => (Ok admitted, s')
  | Err e => (Err e, s)
  end.

(** * Queries *)

Definition ordinal_before (a b : string * InboxRow) : bool :=
  (ib_ordinal a.2 <=? ib_ordinal b.2).

(** A row of a class whose slot has no earlier row of that class. *)
Definition first_of_slot (class : InboxRow -> bool) (inbox : gmap string InboxRow) (r : InboxRow)
    : bool :=
  class r &&
  negb (existsb (fun kv => bool_decide (ib_slot_id kv.2 = ib_slot_id r) && class kv.2 &&
                           (ib_ordinal kv.2 <? ib_ordinal r)) (map_to_list inbox)).

Definition runnable_row (now_epoch_ms : Z) (inbox : gmap string InboxRow) (r : InboxRow) : bool :=
  (ib_due_ms r <=? now_epoch_ms) && (ib_next_attempt_ms r <=? now_epoch_ms) &&
  first_of_slot pending inbox r.

(** [src/database/EventDatabaseOccupancy.cpp:599-627 EventDatabase::listRunnableSlotTransitionCommands] *)
Definition listRunnableSlotTransitionCommands (opened : bool) (now_epoch_ms : Z) (s : Store)
    : list DurableSlotCommand :=
  if negb opened then [] else
  (fun kv => readCommand kv.1 kv.2) <$>
  sort_rows ordinal_before
    (select_rows (fun _ => runnable_row now_epoch_ms (st_inbox s)) (st_inbox s)).

(** [src/database/EventDatabaseOccupancy.cpp:629-649 EventDatabase::deferSlotTransitionCommand] *)
Definition deferSlotTransitionCommand (opened : bool) (command_id : string)
    (next_attempt_at_epoch_ms : Z) (error : string) (s : Store) : bool * Store :=
  if negb opened || is_empty command_id then (false, s) else
  match st_inbox s !! command_id with
  | Some r =>
      if pending r
      then (true, with_inbox s (<[command_id := ib_set_attempt r next_attempt_at_epoch_ms error]>
                                  (st_inbox s)))
      else (false, s)
  | None => (false, s)
  end.

(** [src/database/EventDatabaseOccupancy.cpp:651-665 EventDatabase::nextScheduledSlotDeadlineEpochMs] *)
Definition nextScheduledSlotDeadlineEpochMs (opened : bool) (s : Store) : option Z :=
  if negb opened then None else
  (fun kv => dl_due_ms kv.2) <$>
  min_by (fun kv => dl_due_ms kv.2)
    (select_rows (fun _ d => bool_decide (dl_state d = DeadlineScheduled)) (st_deadlines s)).

(** [src/database/EventDatabaseOccupancy.cpp:667-677 EventDatabase::pendingSlotTransitionCommandCount] *)
Definition pendingSlotTransitionCommandCount (opened : bool) (s : Store) : nat :=
  if negb opened then 0 else pending_count s.

(** * Effects *)

Definition effect_pending (r : InboxRow) : bool :=
  bool_decide (ib_status r = Applied) && bool_decide (ib_effect_state r = EffectPending).

(** [src/database/EventDatabaseOccupancy.cpp:1635-1668 EventDatabase::listPendingSlotTransitionEffects] *)
Definition read_effect (id : string) (r : InboxRow) : result store_error CommittedOccupancyTransition :=
  let code := resultCodeFromName (ib_result_code r) in
  let invalid e := RuntimeError
    (str_cat ["persisted occupancy effect payload is invalid: "; error_what e]) in
  match (let? payload := parse_or_throw (ib_payload r) in
         let? transport := value_string payload "transport" "unknown" in
         let? at_ms := value_int64 payload "occurred_at_epoch_ms" 0 in
         Ok (transport, at_ms)) with
  | Err e => Err (invalid e)
  | Ok (transport, at_ms) =>
      if negb (bool_decide (code = CommittedStarted)) && negb (bool_decide (code = CommittedEnded))
      then Err (RuntimeError "pending occupancy effect has a non-effect result")
      else Ok (mkCommittedOccupancyTransition code id (ib_kind r) (ib_slot_id r) (ib_sensor_id r)
                 (default (-1) (ib_result_session r)) (ib_attempt_id r) (ib_correlation_id r)
                 (Z.to_N (Z.max 0 (ib_generation r))) (ib_occurred_at r) at_ms transport "")
  end.

Fixpoint read_effects (rows : list (string * InboxRow))
    : result store_error (list CommittedOccupancyTransition) :=
  match rows with
  | [] => Ok []
  | (id, r) :: rows' =>
      let? effect := read_effect id r in
      let? rest := read_effects rows' in
      Ok (effect :: rest)
  end.

(** [src/database/EventDatabaseOccupancy.cpp:1611-1671 EventDatabase::listPendingSlotTransitionEffects] *)
Definition listPendingSlotTransitionEffects (opened : bool) (now_epoch_ms : Z) (s : Store)
    : result store_error (list CommittedOccupancyTransition) :=
  if negb opened then Ok [] else
  read_effects (sort_rows ordinal_before
    (select_rows (fun _ r => (ib_effect_next_ms r <=? now_epoch_ms) &&
                             first_of_slot effect_pending (st_inbox s) r) (st_inbox s))).

Definition update_pending_effect (command_id : string) (f : InboxRow -> InboxRow) (s : Store)
    : bool * Store :=
  match st_inbox s !! command_id with
  | Some r => if effect_pending r then (true, with_inbox s (<[command_id := f r]> (st_inbox s)))
              else (false, s)
  | None => (false, s)
  end.

(** [src/database/EventDatabaseOccupancy.cpp:1673-1686 EventDatabase::completeSlotTransitionEffects] *)
Definition completeSlotTransitionEffects (opened : bool) (command_id : string) (s : Store)
    : bool * Store :=
  if is_empty command_id || negb opened then (false, s) else
  update_pending_effect command_id
    (fun r => ib_set_effect r EffectApplied (ib_effect_attempts r) 0 "") s.

(** [src/database/EventDatabaseOccupancy.cpp:1688-1709 EventDatabase::deferSlotTransitionEffects] *)
Definition deferSlotTransitionEffects (opened : bool) (command_id : string)
    (next_attempt_at_epoch_ms : Z) (error : string) (s : Store) : bool * Store :=
  if negb opened || is_empty command_id then (false, s) else
  update_pending_effect command_id
    (fun r => ib_set_effect r (ib_effect_state r) (ib_effect_attempts r + 1)
                next_attempt_at_epoch_ms error) s.

(** [src/database/EventDatabaseOccupancy.cpp:1711-1722 EventDatabase::pendingSlotTransitionEffectCount] *)
Definition pendingSlotTransitionEffectCount (opened : bool) (s : Store) : nat :=
  if negb opened then 0 else count_rows effect_pending (st_inbox s).

(** [src/database/EventDatabaseOccupancy.cpp:1724-1744 EventDatabase::pendingSlotTransitionDrainCount] *)
Definition pendingSlotTransitionDrainCount (opened : bool) (cutoff : Z) (s : Store)
    : result store_error nat :=
  if negb opened then Err (RuntimeError "occupancy drain count requires an open DB") else
  Ok (count_rows (fun r => pending r && (ib_due_ms r <=? cutoff)%Z) (st_inbox s) +
      count_rows effect_pending (st_inbox s) +
      count_rows (fun d => bool_decide (dl_state d = DeadlineScheduled) && (dl_due_ms d <=? cutoff)%Z)
        (st_deadlines s))%nat.

(** A row that retention may remove. *)
Definition settled (created_before_epoch_ms : Z) (r : InboxRow) : bool :=
  bool_decide (ib_status r = Applied) && negb (bool_decide (ib_effect_state r = EffectPending)) &&
  (ib_created_sec r <? Z.quot created_before_epoch_ms 1000).

(** [src/database/EventDatabaseOccupancy.cpp:1746-1774 EventDatabase::purgeSettledSlotTransitionCommands] *)
Definition purgeSettledSlotTransitionCommands (opened : bool) (created_before_epoch_ms : Z)
    (batch_limit : nat) (s : Store) : nat * Store :=
  if (batch_limit =? 0)%nat || negb opened then (0%nat, s) else
  let victims := take batch_limit
    (sort_rows ordinal_before
       (select_rows (fun _ => settled created_before_epoch_ms) (st_inbox s))) in
  (length victims,
   with_inbox s (foldr (fun kv inbox => delete kv.1 inbox) (st_inbox s) victims)).

(** * What admission does *)

(** The store an admission goes on with: the one it started from, or the one with the
    slot's waiting OCCUPIED confirmation cancelled. *)
Definition cancels_at_most_candidate (slot_id : string) (s s1 : Store) : Prop :=
  s1 = s \/
  exists id r, st_inbox s !! id = Some r /\ is_hall_candidate slot_id r = true /\
    s1 = with_inbox s (<[id := cancel_candidate r]> (st_inbox s)).

Lemma hall_candidate_some s slot_id id r :
  hall_candidate s slot_id = Some (id, r) ->
  st_inbox s !! id = Some r /\ is_hall_candidate slot_id r = true.
Proof. intros [H _]%min_by_some. by apply select_rows_elem in H. Qed.

Lemma hall_confirmation_store s command s1 :
  hall_confirmation s command = Ok (inr s1) ->
  cancels_at_most_candidate (stc_slotId command) s s1.
Proof.
  unfold hall_confirmation. intros H. rinv.
  destruct (negb _ && negb _); [done|].
  destruct (hall_candidate s (stc_slotId command)) as [[id r]|] eqn:Hc.
  - destruct (bool_decide _); [done|]. rinv.
    apply hall_candidate_some in Hc as [? ?].
    destruct (_ <? _); rinv; [right; by exists id, r|by left].
  - rinv. by left.
Qed.

Lemma hall_confirmation_answer s command r :
  hall_confirmation s command = Ok (inl r) -> sar_code r <> CommandAdmitted.
Proof.
  unfold hall_confirmation. intros H. rinv.
  destruct (negb _ && negb _); [by rinv|].
  destruct (hall_candidate s (stc_slotId command)) as [[id c]|]; [|done].
  destruct (bool_decide _); [by rinv|]. rinv. by destruct (_ <? _).
Qed.

Lemma hall_sequence_gate_answer s command r :
  hall_sequence_gate s command = Ok (Some r) -> sar_code r <> CommandAdmitted.
Proof.
  unfold hall_sequence_gate. destruct (is_empty _); [by intros [= <-]|].
  destruct (rbind _ _) as [fact|[]]; try done; [|by intros [= <-]].
  destruct (negb _); [|done]. intros [= <-]. simpl. by case_bool_decide.
Qed.

(** The sequence policy accepts the fact of a hall command. *)
Definition sequence_accepts (s : Store) (command : SlotTransitionCommand) : Prop :=
  exists payload fact,
    json_parse (stc_payloadJson command) = Ok payload /\
    hallSequenceFact command payload = Ok fact /\
    accepted (evaluateSensorSequence (loadHallSequenceState s (stc_sensorId command)) fact) = true.

Lemma hall_sequence_gate_pass s command :
  hall_sequence_gate s command = Ok None -> sequence_accepts s command.
Proof.
  unfold hall_sequence_gate. destruct (is_empty _); [done|].
  destruct (rbind _ _) as [fact|[]] eqn:E; try done. rinv.
  destruct (accepted _) eqn:Ha; [|done]. intros _. unfold parse_or_throw in E0.
  destruct (json_parse _) as [payload|] eqn:Ep; rinv. by eexists _, fact.
Qed.

Lemma admit_existing_code id r command : sar_code (admit_existing id r command) <> CommandAdmitted.
Proof.
  unfold admit_existing. destruct (sameSlotSourceFact _ _); [|done].
  by destruct (terminalStatus (ib_status r)).
Qed.

Lemma wrap_int64_le z : 0 <= z -> wrap_int64 z <= z.
Proof.
  intros Hz. unfold wrap_int64.
  pose proof (Z.mod_le (z + 2 ^ 63) (2 ^ 64)). lia.
Qed.

Lemma max_ordinal_le inbox z :
  0 <= z -> (forall id r, inbox !! id = Some r -> ib_ordinal r <= z) -> max_ordinal inbox <= z.
Proof.
  intros Hz Hall. unfold max_ordinal.
  assert (Hl : forall x, x ∈ map_to_list inbox -> ib_ordinal x.2 <= z).
  { intros [id r] Hx%elem_of_map_to_list. simpl. by eapply Hall. }
  induction (map_to_list inbox) as [|x l IH]; simpl; [done|].
  pose proof (Hl x ltac:(by left)). specialize (IH (fun y Hy => Hl y ltac:(by right))). lia.
Qed.

Lemma cancelled_ordinals slot_id s s1 id r :
  cancels_at_most_candidate slot_id s s1 ->
  st_inbox s !! id = Some r -> ib_ordinal r <= max_ordinal (st_inbox s1).
Proof.
  intros [->|(cid & c & Hc & _ & ->)] Hr; [by eapply max_ordinal_lookup|]. simpl.
  destruct (decide (id = cid)) as [->|Hne].
  - assert (r = c) as -> by congruence.
    apply (max_ordinal_lookup _ cid (cancel_candidate c)). apply lookup_insert_eq.
  - apply (max_ordinal_lookup _ id r). by rewrite lookup_insert_ne.
Qed.

(** What a successful insertion says. *)
Record admission (command : SlotTransitionCommand) (capacity : N) (now_sec : Z) (s s' : Store)
    : Prop := {
  ad_new_identity : find_identity s command = None;
  ad_accepted : stc_kind command = HallObservation -> sequence_accepts s command;
  ad_insert : exists s1 correlation_id,
    (s1 <> s -> stc_kind command = HallObservation) /\
    cancels_at_most_candidate (stc_slotId command) s s1 /\
    st_inbox s1 !! stc_commandId command = None /\
    is_Some (st_slots s !! stc_slotId command) /\
    inbox_clash (st_inbox s1) (stc_commandId command)
      (admitted_row command (max_ordinal (st_inbox s1) + 1) correlation_id now_sec) = false /\
    s' = with_inbox s1 (<[stc_commandId command :=
           admitted_row command (max_ordinal (st_inbox s1) + 1) correlation_id now_sec]>
           (st_inbox s1));
  ad_capacity : Z.of_nat (pending_count s') <= Z.of_N capacity
}.

Lemma admit_insert_spec s s1 command capacity correlation_id now_sec r s' :
  cancels_at_most_candidate (stc_slotId command) s s1 ->
  admit_insert s s1 command capacity correlation_id now_sec = Ok (r, s') ->
  if bool_decide (sar_code r = CommandAdmitted) then
    st_inbox s1 !! stc_commandId command = None /\
    is_Some (st_slots s !! stc_slotId command) /\
    inbox_clash (st_inbox s1) (stc_commandId command)
      (admitted_row command (max_ordinal (st_inbox s1) + 1) correlation_id now_sec) = false /\
    s' = with_inbox s1 (<[stc_commandId command :=
           admitted_row command (max_ordinal (st_inbox s1) + 1) correlation_id now_sec]>
           (st_inbox s1)) /\
    Z.of_nat (pending_count s') <= Z.of_N capacity
  else s' = s.
Proof.
  intros Hs1. unfold admit_insert. destruct (_ <=? _) eqn:Hcap; [by intros [= <- <-]|].
  unfold insert_inbox. destruct (inbox_clash _ _ _) eqn:Hclash; [done|]. simpl.
  case_bool_decide as Hslot; [done|]. intros [= <- <-]. simpl.
  pose proof (inbox_clash_false _ _ _ Hclash) as [Hnone _].
  apply Z.leb_gt in Hcap. pose proof (wrap_int64_le (Z.of_N capacity)).
  assert (st_slots s1 = st_slots s) as Hss by (destruct Hs1 as [->|(?&?&?&?&->)]; done).
  split_and!; [done|rewrite <-Hss; by apply not_eq_None_Some|done|done|].
  unfold pending_count in *. simpl. rewrite count_rows_insert by done. simpl. lia.
Qed.

Lemma admit_transaction_spec s command capacity correlation_id now_sec r s' :
  admit_transaction s command capacity correlation_id now_sec = Ok (r, s') ->
  if bool_decide (sar_code r = CommandAdmitted) then admission command capacity now_sec s s' else s' = s.
Proof.
  unfold admit_transaction. destruct (find_identity s command) as [[id row]|] eqn:Hid.
  { intros [= <- <-]. by rewrite bool_decide_eq_false_2 by apply admit_existing_code. }
  assert (Hins : forall s1 r s',
    cancels_at_most_candidate (stc_slotId command) s s1 ->
    (stc_kind command = HallObservation -> sequence_accepts s command) ->
    (s1 <> s -> stc_kind command = HallObservation) ->
    admit_insert s s1 command capacity correlation_id now_sec = Ok (r, s') ->
    if bool_decide (sar_code r = CommandAdmitted)
    then admission command capacity now_sec s s' else s' = s).
  { intros s1 r0 s0 Hs1 Hacc Hk H. pose proof (admit_insert_spec _ _ _ _ _ _ _ _ Hs1 H) as Hsp.
    case_bool_decide; [|done]. destruct Hsp as (?&?&?&?&?). split; [done|done| |done].
    by exists s1, correlation_id. }
  destruct (stc_kind command) eqn:Hkind.
  - intros H. apply rbind_ok_inv in H as ([answer|] & Hg & H).
    { injection H as <- <-. apply hall_sequence_gate_answer in Hg. by case_bool_decide. }
    apply rbind_ok_inv in H as ([answer|s1] & Hc & H).
    { injection H as <- <-. apply hall_confirmation_answer in Hc. by case_bool_decide. }
    eapply Hins; [by eapply hall_confirmation_store|by intros; apply hall_sequence_gate_pass|done|done].
  - apply Hins; [by left|done|done].
  - apply Hins; [by left|done|done].
Qed.

(** Admitted, or the store as it was. *)
Lemma admission_or_unchanged opened now_sec command capacity s :
  let '(r, s') := admitSlotTransitionCommand opened now_sec command capacity s in
  if bool_decide (sar_code r = CommandAdmitted) then admission command capacity now_sec s s' else s' = s.
Proof.
  unfold admitSlotTransitionCommand. destruct (_ || _)%bool; [done|].
  destruct (if bool_decide _ then _ else _) as [cid|e]; [|done].
  destruct opened; [|done]. simpl.
  destruct (admit_transaction _ _ _ _ _) as [[r s']|e] eqn:E; [|done]. by apply admit_transaction_spec in E.
Qed.

(** Admission is all or nothing: a command that is not answered
    CommandAdmitted leaves the store exactly as it was; an admitted one had a new identity and, for
    a hall command, was accepted by the sequence policy; it appends exactly one pending
    row, whose ordinal exceeds every earlier one, cancels at most the slot's waiting
    confirmation, and keeps the number of pending commands within the capacity. *)
Theorem admission_outcome opened now_sec command capacity s :
  let '(r, s') := admitSlotTransitionCommand opened now_sec command capacity s in
  if bool_decide (sar_code r = CommandAdmitted)
  then admission command capacity now_sec s s' /\
       (exists row, st_inbox s' !! stc_commandId command = Some row /\
          stored_command (stc_commandId command) row =
            stored_command (stc_commandId command)
              (admitted_row command (ib_ordinal row) (ib_correlation_id row) now_sec) /\
          ib_status row = PendingUnprepared /\
          forall id r0, st_inbox s !! id = Some r0 -> ib_ordinal r0 < ib_ordinal row)
  else s' = s.
Proof.
  pose proof (admission_or_unchanged opened now_sec command capacity s) as Ha.
  destruct (admitSlotTransitionCommand _ _ _ _ _) as [r s']. case_bool_decide; [|done].
  split; [done|]. destruct Ha as [_ _ (s1 & corr & _ & Hs1 & _ & _ & _ & ->) _].
  eexists. split; [apply lookup_insert_eq|]. split; [done|]. split; [done|].
  intros id r0 Hr0. apply (cancelled_ordinals _ _ _ _ _ Hs1) in Hr0. simpl. lia.
Qed.

(** * The order in which commands run *)

(** Rows that are the first of their slot, for any class of rows. *)
Lemma first_of_slot_spec class inbox r :
  first_of_slot class inbox r = true <->
  class r = true /\
  forall id r', inbox !! id = Some r' -> ib_slot_id r' = ib_slot_id r -> class r' = true ->
    ib_ordinal r <= ib_ordinal r'.
Proof.
  unfold first_of_slot. split.
  - intros [Hc Hn]%andb_prop. apply negb_true_iff in Hn. split; [done|]. intros id r' Hr' Hs Hc'.
    destruct (decide (ib_ordinal r <= ib_ordinal r')); [done|]. exfalso.
    rewrite <-not_true_iff_false in Hn. apply Hn, existsb_exists. exists (id, r').
    split; [by apply list_elem_of_In, elem_of_map_to_list|]. simpl.
    rewrite bool_decide_eq_true_2 by done. rewrite Hc'. simpl. apply Z.ltb_lt. lia.
  - intros [Hc Hf]. rewrite Hc. simpl. apply negb_true_iff, not_true_is_false.
    intros ((id, r') & Hin & Hb)%existsb_exists. simpl in Hb. split_bool.
    apply list_elem_of_In, elem_of_map_to_list in Hin. apply Z.ltb_lt in H0.
    specialize (Hf id r' Hin). lia || (specialize (Hf ltac:(done) ltac:(done)); lia).
Qed.
End Admission.

(** No two rows of the inbox carry the same ordinal. *)
Definition unique_ordinals (inbox : gmap string InboxRow) : Prop :=
  forall id1 id2 r1 r2, inbox !! id1 = Some r1 -> inbox !! id2 = Some r2 ->
    ib_ordinal r1 = ib_ordinal r2 -> id1 = id2.

Lemma Sorted_fmap_rel {A B} (R : A -> A -> Prop) (S : B -> B -> Prop) (f : A -> B) l :
  (forall a b, R a b -> S (f a) (f b)) -> Sorted R l -> Sorted S (f <$> l).
Proof.
  intros HRS. induction 1 as [|a l _ IH Hd]; [constructor|]. rewrite fmap_cons.
  constructor; [done|]. inversion Hd; subst; [constructor|]. rewrite fmap_cons.
  constructor. auto.
Qed.

#[global] Instance ordinal_before_total : Total (fun a b => ordinal_before a b = true).
Proof. intros a b. unfold ordinal_before. rewrite !Z.leb_le. lia. Qed.

Lemma sort_ordinals_sorted l :
  Sorted Z.le ((fun kv => ib_ordinal kv.2) <$> sort_rows ordinal_before l).
Proof.
  apply (Sorted_fmap_rel (fun a b => ordinal_before a b = true)).
  - intros a b. unfold ordinal_before. apply Z.leb_le.
  - apply (Sorted_merge_sort _).
Qed.

(** One row per slot among the first rows of their slots. *)
Lemma first_of_slot_NoDup class inbox l :
  unique_ordinals inbox -> NoDup l.*1 ->
  Forall (fun kv => inbox !! kv.1 = Some kv.2 /\ first_of_slot class inbox kv.2 = true) l ->
  NoDup ((fun kv : string * InboxRow => ib_slot_id kv.2) <$> l).
Proof.
  intros Hu. induction l as [|[id r] l IH]; [constructor|]. rewrite !fmap_cons.
  intros [Hid Hnd]%NoDup_cons [[Hr Hf] Hl]%Forall_cons. simpl in *.
  apply NoDup_cons. split; [|by apply IH].
  intros [[id' r'] [Hs Hin]]%list_elem_of_fmap. simpl in Hs.
  assert (Hin' := Hin). rewrite Forall_elem in Hl. apply Hl in Hin' as [Hr' Hf']. simpl in *.
  apply first_of_slot_spec in Hf as [Hc Hf], Hf' as [Hc' Hf'].
  apply Hid. assert (id = id') as ->.
  { eapply Hu; [done|done|]. specialize (Hf id' r' Hr' ltac:(done) Hc').
    specialize (Hf' id r Hr ltac:(done) Hc). lia. }
  apply list_elem_of_fmap. by exists (id', r').
Qed.

(** The actor is offered exactly the commands that are due, not backed
    off and not behind an earlier pending command of the same slot; they come in the
    order of admission, and no slot is offered twice. *)
Theorem runnable_fifo now s :
  unique_ordinals (st_inbox s) ->
  let l := listRunnableSlotTransitionCommands true now s in
  (forall d, d ∈ l <->
     exists id r, st_inbox s !! id = Some r /\ d = readCommand id r /\
       ib_status r = PendingUnprepared /\ ib_due_ms r <= now /\ ib_next_attempt_ms r <= now /\
       forall id' r', st_inbox s !! id' = Some r' -> ib_slot_id r' = ib_slot_id r ->
         ib_status r' = PendingUnprepared -> ib_ordinal r <= ib_ordinal r') /\
  Sorted Z.le (dsc_admissionOrdinal <$> l) /\
  NoDup ((fun d => stc_slotId (dsc_command d)) <$> l).
Proof.
  intros Hu l. unfold l, listRunnableSlotTransitionCommands. simpl.
  set (rows := select_rows _ _).
  assert (Hrows : forall id r, (id, r) ∈ sort_rows ordinal_before rows <->
    st_inbox s !! id = Some r /\ runnable_row now (st_inbox s) r = true).
  { intros id r. rewrite sort_rows_perm. unfold rows; by rewrite select_rows_elem. }
  split_and!.
  - intros d. rewrite list_elem_of_fmap. split.
    + intros ([id r] & -> & [Hr Hrun]%Hrows). unfold runnable_row in Hrun. split_bool.
      apply first_of_slot_spec in H0 as [Hp Hf]. apply bool_decide_eq_true_1 in Hp.
      exists id, r. split_and!; [done..|by apply Z.leb_le|by apply Z.leb_le|].
      intros id' r' Hr' Hs Hp'. apply (Hf id'); [done..|]. by apply bool_decide_eq_true_2.
    + intros (id & r & Hr & -> & Hp & Hd & Hn & Hf). exists (id, r). split; [done|].
      apply Hrows. split; [done|]. unfold runnable_row.
      rewrite (proj2 (Z.leb_le _ _) Hd), (proj2 (Z.leb_le _ _) Hn). simpl.
      apply first_of_slot_spec. split; [by apply bool_decide_eq_true_2|].
      intros id' r' Hr' Hs Hp'%bool_decide_eq_true_1. by eapply Hf.
  - rewrite <-list_fmap_compose. apply sort_ordinals_sorted.
  - rewrite <-list_fmap_compose. apply (first_of_slot_NoDup pending (st_inbox s)); [done| |].
    + rewrite sort_rows_perm. apply select_rows_NoDup.
    + apply Forall_elem. intros [id r] [Hr Hrun]%Hrows. split; [done|].
      unfold runnable_row in Hrun. by split_bool.
Qed.

(** A pending hall command of slot A1 with ordinal 2 behind one with ordinal 1. *)
Definition example_pending (slot : string) (ordinal due : Z) : InboxRow :=
  mkInboxRow slot HallObservation "s" (pretty ordinal) None "t" "{}" due ordinal
    PendingUnprepared "" "" 0 "" None 0 0 "" "" None EffectNone 0 0 "" 0.
Definition example_queue : Store :=
  mkStore {["A1" := "VACANT"; "B1" := "VACANT"]} ∅ 0
    {["h1" := example_pending "A1" 1 0; "h2" := example_pending "A1" 2 0;
      "h3" := example_pending "B1" 3 0]} ∅ ∅ ∅ ∅ ∅ [].

Lemma example_queue_ordinals : unique_ordinals (st_inbox example_queue).
Proof.
  intros id1 id2 r1 r2 H1 H2 He. unfold example_queue in *. simpl in *.
  rewrite !lookup_insert_Some, lookup_singleton_Some in H1, H2. naive_solver.
Qed.

Example runnable_fifo_witness :
  unique_ordinals (st_inbox example_queue) /\
  NoDup ((fun d => stc_slotId (dsc_command d)) <$>
         listRunnableSlotTransitionCommands true 0 example_queue) /\
  (fun d => stc_commandId (dsc_command d)) <$>
    listRunnableSlotTransitionCommands true 0 example_queue = ["h1"; "h3"].
Proof.
  pose proof (runnable_fifo 0 example_queue example_queue_ordinals) as (_ & _ & Hnd).
  split; [exact example_queue_ordinals|]. split; [exact Hnd|]. vm_compute. reflexivity.
Defined.
