(* ===== verification/OccupancyApply.v ===== *)
(** The application of one durable command: [EventDatabase::applySlotTransitionCommand]
    ([src/database/EventDatabaseOccupancy.cpp]) as one transaction over the tables of
    OccupancyDb, with its local functions as definitions of their own. *)
From S2P Require Import Prelude SensorProtocol SequencePolicy SlotConfig OccupancyDb.
From S2P Require Import OccupancyAdmission.

(** [src/database/EventDatabaseOccupancy.cpp:768-777 ActiveSession] *)
Record ActiveSession := mkActiveSession {
  as_id : Z;
  as_attemptId : string;
  as_entryEpochMs : Z;
  as_entryTime : string;
  as_hallConfirmed : bool;
  as_ivaConfirmed : bool;
  as_hallOccupied : bool;
  as_ivaOccupied : bool
}.

(** What a branch decides: the fields of the outcome and the locals [attempt_id] and
    [generation] that the final update of the inbox reads. *)
Record Decision := mkDecision {
  de_code : CommittedOccupancyCode;
  de_session : Z;
  de_correlation : string;
  de_attempt : string;
  de_generation : N;
  de_message : string
}.

(** * Row updates *)

Definition sr_set_end (r : SessionRow) exit_time exit_ms duration command : SessionRow :=
  mkSessionRow (sr_slot_id r) (sr_entry_time r) (Some exit_time) StatusEnded (sr_attempt_id r)
    (sr_entry_command r) (Some command) (sr_entry_ms r) (Some exit_ms) duration
    (sr_hall_confirmed r) (sr_iva_confirmed r) false false.
Definition sr_set_hall (r : SessionRow) confirmed occupied : SessionRow :=
  mkSessionRow (sr_slot_id r) (sr_entry_time r) (sr_exit_time r) (sr_status r) (sr_attempt_id r)
    (sr_entry_command r) (sr_exit_command r) (sr_entry_ms r) (sr_exit_ms r) (sr_duration_sec r)
    (sr_hall_confirmed r || confirmed) (sr_iva_confirmed r) occupied (sr_iva_occupied r).
Definition sr_set_iva (r : SessionRow) confirmed occupied : SessionRow :=
  mkSessionRow (sr_slot_id r) (sr_entry_time r) (sr_exit_time r) (sr_status r) (sr_attempt_id r)
    (sr_entry_command r) (sr_exit_command r) (sr_entry_ms r) (sr_exit_ms r) (sr_duration_sec r)
    (sr_hall_confirmed r) (sr_iva_confirmed r || confirmed) (sr_hall_occupied r) occupied.
Definition dl_set_state (d : DeadlineRow) (st : DeadlineState) : DeadlineRow :=
  mkDeadlineRow (dl_slot_id d) (dl_attempt_id d) (dl_session d) (dl_generation d) (dl_due_ms d)
    (dl_policy d) st (dl_admitted_command d).
Definition iv_clear (r : IvaRow) : IvaRow :=
  mkIvaRow "" None (iv_generation r) "VACANT" (iv_configured r) (iv_areas r) (iv_command r).
Definition bi_end (b : BindingRow) (at_ms : Z) : BindingRow :=
  mkBindingRow (bi_command b) (bi_attempt_id b) (bi_session b) (bi_slot_id b) (bi_camera b)
    (bi_token b) (bi_rule b) (bi_object b) (bi_channel b) (bi_revision b) BindingEnded
    (bi_created_ms b) (bi_expires_ms b) at_ms (Some at_ms).
Definition bi_refresh (b : BindingRow) (expires_ms at_ms : Z) : BindingRow :=
  mkBindingRow (bi_command b) (bi_attempt_id b) (bi_session b) (bi_slot_id b) (bi_camera b)
    (bi_token b) (bi_rule b) (bi_object b) (bi_channel b) (bi_revision b + 1) (bi_state b)
    (bi_created_ms b) expires_ms at_ms (bi_ended_ms b).

(** [UPDATE PARKING_SLOT SET status=? WHERE slot_id=?]; the result is the number of rows. *)
Definition update_slot (slot_id status : string) : txn nat := fun s =>
  match st_slots s !! slot_id with
  | Some _ => Ok (1%nat, with_slots s (<[slot_id := status]> (st_slots s)))
  | None => Ok (0%nat, s)
  end.

(** [UPDATE PARKING_SESSION SET f WHERE session_id=? AND exit_time IS NULL AND status IN
    ('ACTIVE','VIOLATION')], which has to change one row. *)
Definition update_open_session (id : Z) (f : SessionRow -> SessionRow) (lost : string) : txn unit :=
  fun s =>
  match st_sessions s !! id with
  | Some r => if session_open r
              then Ok (tt, with_sessions s (<[id := f r]> (st_sessions s)))
              else Err (RuntimeError lost)
  | None => Err (RuntimeError lost)
  end.

Definition write_log (session : Z) (slot_id event_type message : string) : txn unit :=
  tput (fun s => with_log s (st_log s ++ [mkLogRow session slot_id event_type message])).

Section Apply.
Context {JL : JsonLibrary} {SQL : SqlFunctions}.
Variables (command_id : string) (row : InboxRow) (payload : json) (occurred_epoch_ms : Z)
  (hybrid_or : bool).

(** [src/database/EventDatabaseOccupancy.cpp:778-801 find_active] *)
Definition find_active (s : Store) : option ActiveSession :=
  match min_by (fun kv => - kv.1)
          (select_rows (fun _ r => bool_decide (sr_slot_id r = ib_slot_id row) && session_open r)
             (st_sessions s)) with
  | Some (id, r) =>
      Some (mkActiveSession id (default "" (sr_attempt_id r))
              (default (sql_julian_ms (sr_entry_time r)) (sr_entry_ms r)) (sr_entry_time r)
              (sr_hall_confirmed r) (sr_iva_confirmed r) (sr_hall_occupied r) (sr_iva_occupied r))
  | None => None
  end.

(** [INSERT INTO PARKING_SESSION], with its two unique indexes; the key is the next value
    of the AUTOINCREMENT counter. *)
Definition insert_session (r : SessionRow) : txn Z := fun s =>
  let id := st_session_seq s + 1 in
  if bool_decide (is_Some (st_sessions s !! id)) ||
     existsb (fun kv => (session_open kv.2 && bool_decide (sr_slot_id kv.2 = sr_slot_id r)) ||
                        bool_decide (sr_entry_command kv.2 = sr_entry_command r))
       (map_to_list (st_sessions s))
  then Err sql_failed
  else Ok (id, with_session_seq (with_sessions s (<[id := r]> (st_sessions s))) id).

Definition new_session_row (attempt_id : string) : SessionRow :=
  let from_hall := bool_decide (ib_kind row = HallObservation) in
  let from_camera := bool_decide (ib_kind row = CameraObservation) in
  mkSessionRow (ib_slot_id row) (ib_occurred_at row) None StatusActive (Some attempt_id)
    (Some command_id) None (Some occurred_epoch_ms) None 0 from_hall from_camera from_hall
    from_camera.

(** [src/database/EventDatabaseOccupancy.cpp:803-846 create_session] *)
Definition create_session (attempt_id event_type message : string) : txn Z :=
  do! changes <- update_slot (ib_slot_id row) "OCCUPIED" in
  tguard (changes =? 1)%nat (RuntimeError "occupancy slot does not exist") ;!
  do! session_id <- insert_session (new_session_row attempt_id) in
  write_log session_id (ib_slot_id row) event_type message ;!
  tret session_id.

(** The close of one exact session, with the unique index on the exit command. *)
Definition close_row (active : ActiveSession) : txn unit := fun s =>
  let lost := Err (RuntimeError "exact occupancy close lost ownership") in
  match st_sessions s !! as_id active with
  | Some r =>
      if bool_decide (sr_slot_id r = ib_slot_id row) &&
         bool_decide (default "" (sr_attempt_id r) = as_attemptId active) && session_open r
      then
        if existsb (fun kv => bool_decide (sr_exit_command kv.2 = Some command_id) &&
                              negb (bool_decide (kv.1 = as_id active)))
             (map_to_list (st_sessions s))
        then Err sql_failed
        else
          let entry := default (as_entryEpochMs active) (sr_entry_ms r) in
          Ok (tt, with_sessions s (<[as_id active :=
                sr_set_end r (ib_occurred_at row) occurred_epoch_ms
                  (Z.max 0 (Z.quot (occurred_epoch_ms - entry) 1000)) command_id]>
                (st_sessions s)))
      else lost
  | None => lost
  end.

Definition binding_of_session (active : ActiveSession) (b : BindingRow) : bool :=
  bool_decide (bi_session b = Some (as_id active)) && bool_decide (bi_slot_id b = ib_slot_id row) &&
  bool_decide (bi_attempt_id b = as_attemptId active) && bool_decide (bi_state b = BindingCommitted).

Definition end_bindings (active : ActiveSession) : txn unit :=
  tput (fun s => with_bindings s
    (update_rows (binding_of_session active) (fun b => bi_end b occurred_epoch_ms)
       (st_bindings s))).

Definition clear_iva (active : ActiveSession) : txn unit := fun s =>
  match st_iva s !! ib_slot_id row with
  | Some r => if bool_decide (iv_session r = Some (as_id active))
              then Ok (tt, with_iva s (<[ib_slot_id row := iv_clear r]> (st_iva s)))
              else Ok (tt, s)
  | None => Ok (tt, s)
  end.

(** [src/database/EventDatabaseOccupancy.cpp:848-912 close_session] *)
Definition close_session (active : ActiveSession) (event_type message : string) : txn bool :=
  if occurred_epoch_ms <? as_entryEpochMs active then tret false else
  close_row active ;!
  do! changes <- update_slot (ib_slot_id row) "VACANT" in
  tguard (changes =? 1)%nat (RuntimeError "occupancy slot projection update lost ownership") ;!
  end_bindings active ;!
  clear_iva active ;!
  write_log (as_id active) (ib_slot_id row) event_type message ;!
  tret true.

(** [src/database/EventDatabaseOccupancy.cpp:914-929 update_hall_state] *)
Definition update_hall_state (session_id : Z) (confirmed occupied : bool) : txn unit :=
  update_open_session session_id (fun r => sr_set_hall r confirmed occupied)
    "Hall source state update lost active session".

(** [src/database/EventDatabaseOccupancy.cpp:931-946 update_iva_state] *)
Definition update_iva_state (session_id : Z) (confirmed occupied : bool) : txn unit :=
  update_open_session session_id (fun r => sr_set_iva r confirmed occupied)
    "IVA source state update lost active session".

(** The command as [hallSequenceFact] reads it. *)
Definition row_command : SlotTransitionCommand := dsc_command (readCommand command_id row).

(** [src/database/EventDatabaseOccupancy.cpp:948-992 commit_sequence] *)
Definition commit_sequence : txn unit :=
  do! fact <- tlift (hallSequenceFact row_command payload) in
  match ssf_sequence fact with
  | None => tret tt
  | Some sequence =>
      if is_empty (ib_sensor_id row) then tret tt else
      do! cursor <- tget (fun s => loadHallSequenceState s (ib_sensor_id row)) in
      let decision := evaluateSensorSequence cursor fact in
      tguard (accepted decision)
        (RuntimeError (str_cat ["Hall sequence commit lost ownership: "; ssd_reason decision])) ;!
      let versioned := bool_decide (ssf_protocolVersion fact = BootEpochV2) in
      match sss_activeBootId cursor, ssf_bootId fact with
      | Some active, Some boot =>
          if versioned && bool_decide (sss_mode cursor = Versioned) &&
             negb (bool_decide (active = boot))
          then tput (fun s => with_retired s ({[ (ib_sensor_id row, active) ]} ∪ st_retired s))
          else tret tt
      | _, _ => tret tt
      end ;!
      tput (fun s => with_sequences s (<[ib_sensor_id row :=
        mkSequenceRow versioned (if versioned then ssf_bootId fact else None) (pretty sequence)
          command_id]> (st_sequences s)))
  end.

(** [src/database/EventDatabaseOccupancy.cpp:994-1024 persist_iva] *)
Definition persist_iva (attempt_id : string) (session_id : option Z) (generation : N)
    (state : string) (configured areas : json) : txn unit := fun s =>
  if bool_decide (st_slots s !! ib_slot_id row = None) then Err sql_failed else
  Ok (tt, with_iva s (<[ib_slot_id row :=
        mkIvaRow attempt_id session_id (wrap_int64 (Z.of_N generation)) state
          (json_dump configured) (json_dump areas) command_id]> (st_iva s))).

(** The track of a correlation: the columns of its unique index. *)
Definition track (b : BindingRow) : string * string * string * string * string :=
  (bi_attempt_id b, bi_camera b, bi_token b, bi_rule b, bi_object b).

(** [INSERT INTO PARKING_CORRELATION_BINDING]. *)
Definition insert_binding (id : string) (b : BindingRow) : txn unit := fun s =>
  if bool_decide (is_Some (st_bindings s !! id)) ||
     existsb (fun kv => bool_decide (bi_command kv.2 = bi_command b) ||
                        bool_decide (track kv.2 = track b)) (map_to_list (st_bindings s)) ||
     bool_decide (st_slots s !! bi_slot_id b = None) ||
     match bi_session b with
     | Some session => bool_decide (st_sessions s !! session = None)
     | None => false
     end
  then Err sql_failed
  else Ok (tt, with_bindings s (<[id := b]> (st_bindings s))).

(** [src/database/EventDatabaseOccupancy.cpp:1026-1131 commit_correlation] *)
Definition commit_correlation (attempt_id : string) (session_id : Z) : txn string :=
  do! proposed_id <- tlift (value_string payload "correlation_id" "") in
  do! camera_id <- tlift (value_string payload "camera_id" "") in
  do! channel_id <- tlift (value_string payload "channel_id" "") in
  do! video_source_token <- tlift (value_string payload "video_source_token" "") in
  do! rule_name <- tlift (value_string payload "rule_name" "") in
  do! object_id <- tlift (value_string payload "object_id" "") in
  do! expires_at <- tlift (value_int64 payload "correlation_expires_at_epoch_ms" 0) in
  if is_empty proposed_id || is_empty attempt_id || (session_id <? 0) || is_empty camera_id ||
     is_empty channel_id || is_empty video_source_token || is_empty rule_name ||
     is_empty object_id || (expires_at <=? 0)
  then tret "" else
  do! existing <- tget (fun s => head (select_rows
    (fun _ b => bool_decide (track b =
       (attempt_id, camera_id, video_source_token, rule_name, object_id))) (st_bindings s))) in
  match existing with
  | Some (correlation_id, b) =>
      tguard (bool_decide (bi_state b = BindingCommitted) &&
              (default 0 (bi_session b) =? session_id) &&
              bool_decide (bi_slot_id b = ib_slot_id row) &&
              bool_decide (bi_channel b = channel_id))
        (RuntimeError "correlation track is already owned by another session or channel") ;!
      if bi_expires_ms b <? expires_at then
        tguard (bi_revision b =? Z.max 1 (bi_revision b))
          (RuntimeError "correlation refresh lost ownership") ;!
        tput (fun s => with_bindings s
          (<[correlation_id := bi_refresh b expires_at occurred_epoch_ms]> (st_bindings s))) ;!
        tret correlation_id
      else tret correlation_id
  | None =>
      insert_binding proposed_id
        (mkBindingRow command_id attempt_id (Some session_id) (ib_slot_id row) camera_id
           video_source_token rule_name object_id channel_id 1 BindingCommitted
           occurred_epoch_ms expires_at occurred_epoch_ms None) ;!
      tret proposed_id
  end.

(** The decision a branch starts from: the row's attempt, generation and correlation. *)
Definition decide_as (code : CommittedOccupancyCode) (session : Z) (message : string) : Decision :=
  mkDecision code session (ib_correlation_id row) (ib_attempt_id row)
    (Z.to_N (Z.max 0 (ib_generation row))) message.
Definition decide_active (code : CommittedOccupancyCode) (active : ActiveSession) (message : string)
    : Decision :=
  mkDecision code (as_id active) (ib_correlation_id row) (as_attemptId active)
    (Z.to_N (Z.max 0 (ib_generation row))) message.
Definition stored_session : Z := default (-1) (ib_result_session row).

Definition new_attempt_id : string := "occupancy:" +:+ command_id.
Definition hall_log_message : string :=
  str_cat ["hall sensor="; ib_sensor_id row; " command="; command_id].

(** [src/database/EventDatabaseOccupancy.cpp:1155-1174 EventDatabase::applySlotTransitionCommand] *)
Definition hall_occupied : txn Decision :=
  do! found <- tget find_active in
  match found with
  | Some active =>
      update_hall_state (as_id active) true true ;!
      commit_sequence ;!
      tret (decide_active NoChange active
        (if hybrid_or then "active session confirmed by Hall sensor"
         else "slot already has an active session"))
  | None =>
      do! session <- create_session new_attempt_id "HALL_OCCUPIED" hall_log_message in
      commit_sequence ;!
      tret (mkDecision CommittedStarted session (ib_correlation_id row) new_attempt_id
              (Z.to_N (Z.max 0 (ib_generation row))) "Hall session committed")
  end.

(** [src/database/EventDatabaseOccupancy.cpp:1176-1228 EventDatabase::applySlotTransitionCommand] *)
Definition hall_vacant : txn Decision :=
  do! found <- tget find_active in
  match found with
  | None =>
      update_slot (ib_slot_id row) "VACANT" ;!
      commit_sequence ;!
      tret (decide_as NoChange stored_session "slot already vacant")
  | Some active =>
      if occurred_epoch_ms <? as_entryEpochMs active
      then tret (decide_active RejectedInvalidTimestamp active
                   "VACANT timestamp precedes session entry") else
      if hybrid_or && negb (as_hallConfirmed active) then
        commit_sequence ;!
        tret (decide_active NoChange active
                "Hall VACANT ignored because Hall never confirmed this session")
      else
        update_hall_state (as_id active) (as_hallConfirmed active) false ;!
        if hybrid_or && as_ivaConfirmed active && as_ivaOccupied active then
          commit_sequence ;!
          tret (decide_active NoChange active
                  "Hall VACANT recorded; active IVA still holds the session")
        else
          do! closed <- close_session active "HALL_VACANT" hall_log_message in
          tguard closed (RuntimeError "Hall close timestamp rejected") ;!
          commit_sequence ;!
          tret (decide_active CommittedEnded active "Hall session ended")
  end.

(** [src/database/EventDatabaseOccupancy.cpp:1136-1228 EventDatabase::applySlotTransitionCommand] *)
Definition apply_hall : txn Decision :=
  do! state <- tlift (value_string payload "state" "") in
  tguard (bool_decide (state = "OCCUPIED") || bool_decide (state = "VACANT"))
    (InvalidArgument "unsupported Hall state") ;!
  do! fact <- tlift (hallSequenceFact row_command payload) in
  do! cursor <- tget (fun s => loadHallSequenceState s (ib_sensor_id row)) in
  let decision := evaluateSensorSequence cursor fact in
  if negb (accepted decision)
  then tret (decide_as NoChange stored_session
               (str_cat ["Hall command rejected before apply: "; ssd_reason decision]))
  else if bool_decide (state = "OCCUPIED") then hall_occupied else hall_vacant.

(** * Camera observations *)

(** [src/database/EventDatabaseOccupancy.cpp:1295-1312 area_is_active]
    The answer, and the areas with a missing or legacy entry normalised. *)
Definition area_is_active (areas : json) (key : string) : result store_error (bool * json) :=
  match areas with
  | JObject _ | JNull =>
      match json_find areas key with
      | None | Some JNull => let? areas' := json_set areas key (JBool false) in Ok (false, areas')
      | Some (JBool b) => Ok (b, areas)
      | Some (JArray elements) =>
          let active := negb (bool_decide (length elements = 0%nat)) in
          let? areas' := json_set areas key (JBool active) in Ok (active, areas')
      | Some _ => Err (RuntimeError "camera area state has an invalid shape")
      end
  | _ => Err (RuntimeError "cannot use operator[] with a string argument")
  end.

(** [src/database/EventDatabaseOccupancy.cpp:1369-1378 EventDatabase::applySlotTransitionCommand]
    The state of the configured areas: all known, some active. *)
Fixpoint scan_areas (configured : list json) (areas : json) (all_known any_active : bool)
    : result store_error (bool * bool * json) :=
  match configured with
  | [] => Ok (all_known, any_active, areas)
  | JString key :: configured' =>
      if bool_decide (json_find areas key = None)
      then scan_areas configured' areas false any_active
      else if any_active then scan_areas configured' areas all_known true
      else let? (active, areas') := area_is_active areas key in
           scan_areas configured' areas' all_known active
  | _ :: _ => Err (RuntimeError "type must be string")
  end.

(** The stored observation of the slot: attempt, generation, observed state, areas. *)
Definition load_iva (configured : json) (s : Store)
    : result store_error (string * N * string * json) :=
  match st_iva s !! ib_slot_id row with
  | None => Ok (ib_attempt_id row, Z.to_N (Z.max 0 (ib_generation row)), "UNKNOWN", JObject [])
  | Some r =>
      let? stored_configured := parse_or_throw (iv_configured r) in
      if negb (json_eqb stored_configured configured)
      then Err (RuntimeError "camera area topology changed without migration") else
      let? areas := parse_or_throw (iv_areas r) in
      Ok (iv_attempt_id r, Z.to_N (Z.max 0 (iv_generation r)), iv_state r, areas)
  end.

Definition next_generation (generation : N) : N := Z.to_N (Z.of_N (generation + 1) mod 2 ^ 64).

(** [src/database/EventDatabaseOccupancy.cpp:1247-1266 EventDatabase::applySlotTransitionCommand] *)
Definition camera_without_authority (action object_id : string) : txn Decision :=
  tguard (bool_decide (action = "INTRUSION") && negb (is_empty object_id))
    (InvalidArgument "Hall correlation accepts exact INTRUSION only") ;!
  do! found <- tget find_active in
  match found with
  | None => tret (decide_as NoChange stored_session
                    "camera observation has no active Hall occupancy")
  | Some active =>
      do! correlation_id <- commit_correlation (as_attemptId active) (as_id active) in
      tret (mkDecision NoChange (as_id active) correlation_id (as_attemptId active)
              (Z.to_N (Z.max 0 (ib_generation row)))
              (if is_empty correlation_id then "Hall correlation payload is incomplete"
               else "camera observation bound to active Hall occupancy"))
  end.

Definition supersede_deadlines : txn unit :=
  tput (fun s => with_deadlines s
    (update_rows (fun d => bool_decide (dl_slot_id d = ib_slot_id row) &&
                           bool_decide (dl_state d = DeadlineScheduled))
       (fun d => dl_set_state d DeadlineSuperseded) (st_deadlines s))).

(** [src/database/EventDatabaseOccupancy.cpp:1329-1364 EventDatabase::applySlotTransitionCommand] *)
Definition camera_intrusion (area_key : string) (configured areas : json) (generation : N)
    (observed_state : string) : txn Decision :=
  do! (was_active, areas1) <- tlift (area_is_active areas area_key) in
  do! areas2 <- tlift (json_set areas1 area_key (JBool true)) in
  let changed := negb was_active in
  let generation' := if changed || negb (bool_decide (observed_state = "OCCUPIED"))
                     then next_generation generation else generation in
  supersede_deadlines ;!
  do! found <- tget find_active in
  do! (code, session, attempt_id, message) <-
    match found with
    | Some active =>
        update_iva_state (as_id active) true true ;!
        tret (NoChange, as_id active, as_attemptId active,
              if hybrid_or && negb (as_ivaConfirmed active)
              then "active session confirmed by IVA intrusion"
              else if changed then "camera occupancy refreshed" else "duplicate camera intrusion")
    | None =>
        do! session <- create_session new_attempt_id "CAMERA_IVA_OCCUPIED"
                         (str_cat ["area="; area_key; " command="; command_id]) in
        tret (CommittedStarted, session, new_attempt_id, "camera occupancy session committed")
    end in
  persist_iva attempt_id (Some session) generation' "OCCUPIED" configured areas2 ;!
  do! correlation_id <- commit_correlation attempt_id session in
  tret (mkDecision code session correlation_id attempt_id generation' message).

(** [INSERT INTO OCCUPANCY_EXIT_DEADLINE]. *)
Definition insert_deadline (id : string) (d : DeadlineRow) : txn unit := fun s =>
  if bool_decide (is_Some (st_deadlines s !! id)) ||
     existsb (fun kv => bool_decide (dl_slot_id kv.2 = dl_slot_id d) && deadline_live kv.2)
       (map_to_list (st_deadlines s)) ||
     bool_decide (st_slots s !! dl_slot_id d = None) ||
     bool_decide (st_sessions s !! dl_session d = None)
  then Err sql_failed
  else Ok (tt, with_deadlines s (<[id := d]> (st_deadlines s))).

Definition has_live_deadline (s : Store) : bool :=
  existsb (fun kv => bool_decide (dl_slot_id kv.2 = ib_slot_id row) && deadline_live kv.2)
    (map_to_list (st_deadlines s)).

Definition exit_deadline_id (generation : N) (session : Z) : string :=
  str_cat ["iva-exit:"; ib_slot_id row; ":"; pretty generation; ":"; pretty session].

(** [src/database/EventDatabaseOccupancy.cpp:1399-1440 EventDatabase::applySlotTransitionCommand] *)
Definition schedule_exit (active : ActiveSession) (generation : N) (configured areas : json)
    : txn Decision :=
  do! live <- tget has_live_deadline in
  (if live then tret tt
   else
     do! due <- tlift (value_int64 payload "deadline_due_at_epoch_ms" (ib_due_ms row)) in
     insert_deadline (exit_deadline_id generation (as_id active))
       (mkDeadlineRow (ib_slot_id row) (as_attemptId active) (as_id active)
          (wrap_int64 (Z.of_N generation)) due
          (if hybrid_or then "HYBRID_OR" else "CAMERA_IVA") DeadlineScheduled None)) ;!
  persist_iva (as_attemptId active) (Some (as_id active)) generation "VACANT_PENDING" configured
    areas ;!
  tret (mkDecision ExitScheduled (as_id active) (ib_correlation_id row) (as_attemptId active)
          generation "camera exit deadline committed").

(** [src/database/EventDatabaseOccupancy.cpp:1366-1440 EventDatabase::applySlotTransitionCommand] *)
Definition camera_exit (area_key : string) (configured_areas : list json) (areas : json)
    (generation : N) (found : option ActiveSession) : txn Decision :=
  let configured := JArray configured_areas in
  do! (was_active, areas1) <- tlift (area_is_active areas area_key) in
  do! areas2 <- tlift (json_set areas1 area_key (JBool false)) in
  let generation' := if was_active then next_generation generation else generation in
  do! (all_known, any_active, areas3) <- tlift (scan_areas configured_areas areas2 true false) in
  let message :=
    if negb all_known then "camera exit waits for all configured areas"
    else if any_active then "another camera area remains active"
    else "camera exit has no active session" in
  match found with
  | None =>
      persist_iva "" None generation' "VACANT" configured areas3 ;!
      tret (mkDecision NoChange (-1) (ib_correlation_id row) "" generation' message)
  | Some active =>
      if negb all_known || any_active then
        persist_iva (as_attemptId active) (Some (as_id active)) generation' "OCCUPIED" configured
          areas3 ;!
        tret (mkDecision NoChange (as_id active) (ib_correlation_id row) (as_attemptId active)
                generation' message)
      else schedule_exit active generation' configured areas3
  end.

(** [src/database/EventDatabaseOccupancy.cpp:1267-1444 EventDatabase::applySlotTransitionCommand] *)
Definition camera_with_authority (action area_key : string) (authoritative_exit : bool)
    (configured_areas : list json) : txn Decision :=
  do! (attempt_id, generation, observed_state, areas) <-
    (fun s => match load_iva (JArray configured_areas) s with
              | Ok a => Ok (a, s) | Err e => Err e end) in
  let is_exit := bool_decide (action = "EXIT") in
  do! found <- tget (fun s => if is_exit then find_active s else None) in
  let early := match found with
               | Some active => occurred_epoch_ms <? as_entryEpochMs active
               | None => false
               end in
  match found, early with
  | Some active, true =>
      tret (mkDecision RejectedInvalidTimestamp (as_id active) (ib_correlation_id row)
              (as_attemptId active) generation
              "camera EXIT timestamp precedes active session entry")
  | _, _ =>
      if bool_decide (action = "ENTER") || (is_exit && negb authoritative_exit) then
        tret (mkDecision NoChange stored_session (ib_correlation_id row) attempt_id generation
                "camera action ignored by occupancy policy")
      else if bool_decide (action = "INTRUSION") then
        camera_intrusion area_key (JArray configured_areas) areas generation observed_state
      else if is_exit then camera_exit area_key configured_areas areas generation found
      else tfail (InvalidArgument "unsupported camera action")
  end.

(** [src/database/EventDatabaseOccupancy.cpp:1230-1444 EventDatabase::applySlotTransitionCommand] *)
Definition apply_camera : txn Decision :=
  do! action <- tlift (value_string payload "action" "") in
  do! authoritative_exit <- tlift (value_bool payload "authoritative_exit" true) in
  do! occupancy_authority <- tlift (value_bool payload "occupancy_authority" true) in
  do! area_key <- tlift (value_string payload "area_key" "") in
  do! object_id <- tlift (value_string payload "object_id" "") in
  do! configured <- tlift (value_json payload "configured_areas" (JArray [])) in
  match configured with
  | JArray (area :: areas) =>
      tguard (negb (is_empty area_key)) (InvalidArgument "camera area topology is missing") ;!
      if negb occupancy_authority then camera_without_authority action object_id
      else camera_with_authority action area_key authoritative_exit (area :: areas)
  | _ => tfail (InvalidArgument "camera area topology is missing")
  end.

(** * Exit deadlines *)

Definition uint64_of (z : Z) : N := Z.to_N (z mod 2 ^ 64).

Definition set_admitted_deadline (deadline_id : string) (st : DeadlineState) : txn unit := fun s =>
  match st_deadlines s !! deadline_id with
  | Some d => if bool_decide (dl_state d = DeadlineAdmitted)
              then Ok (tt, with_deadlines s (<[deadline_id := dl_set_state d st]> (st_deadlines s)))
              else Ok (tt, s)
  | None => Ok (tt, s)
  end.

(** [src/database/EventDatabaseOccupancy.cpp:1453-1471 EventDatabase::applySlotTransitionCommand] *)
Definition deadline_owns (s : Store) (deadline_id expected_attempt : string) (expected_session : Z)
    (expected_generation : N) : bool :=
  match st_deadlines s !! deadline_id with
  | Some d =>
      bool_decide (dl_state d = DeadlineAdmitted) && bool_decide (dl_slot_id d = ib_slot_id row) &&
      bool_decide (dl_attempt_id d = expected_attempt) && (dl_session d =? expected_session) &&
      (uint64_of (dl_generation d) =? expected_generation)%N
  | None => false
  end.

(** [src/database/EventDatabaseOccupancy.cpp:1473-1490 EventDatabase::applySlotTransitionCommand] *)
Definition iva_owns (s : Store) (expected_attempt : string) (expected_session : Z)
    (expected_generation : N) : bool :=
  match st_iva s !! ib_slot_id row with
  | Some r =>
      bool_decide (iv_attempt_id r = expected_attempt) &&
      bool_decide (iv_session r = Some expected_session) &&
      (uint64_of (iv_generation r) =? expected_generation)%N &&
      bool_decide (iv_state r = "VACANT_PENDING")
  | None => false
  end.

(** [src/database/EventDatabaseOccupancy.cpp:1504-1542 EventDatabase::applySlotTransitionCommand] *)
Definition deadline_close (active : ActiveSession) (deadline_id : string)
    (expected_generation : N) (iva : IvaRow) : txn Decision :=
  update_iva_state (as_id active) (as_ivaConfirmed active) false ;!
  set_admitted_deadline deadline_id DeadlineApplied ;!
  do! configured <- tlift (parse_or_throw (iv_configured iva)) in
  do! areas <- tlift (parse_or_throw (iv_areas iva)) in
  let decide code message :=
    tret (mkDecision code (as_id active) (ib_correlation_id row) (as_attemptId active)
            expected_generation message) in
  if hybrid_or && as_hallConfirmed active && as_hallOccupied active then
    persist_iva (as_attemptId active) (Some (as_id active)) expected_generation "VACANT"
      configured areas ;!
    decide NoChange "IVA VACANT recorded; active Hall sensor still holds the session"
  else
    do! closed <- close_session active "CAMERA_IVA_VACANT"
      (str_cat ["deadline="; deadline_id; " command="; command_id]) in
    tguard closed (RuntimeError "camera deadline timestamp rejected") ;!
    persist_iva "" None expected_generation "VACANT" configured areas ;!
    decide CommittedEnded "camera exit deadline applied".

(** [src/database/EventDatabaseOccupancy.cpp:1446-1544 EventDatabase::applySlotTransitionCommand] *)
Definition apply_deadline : txn Decision :=
  do! deadline_id <- tlift (value_string payload "deadline_id" "") in
  do! expected_session <- tlift (value_int64 payload "expected_session_id" (-1)) in
  do! expected_generation <- tlift (value_uint64 payload "observation_generation" 0) in
  do! expected_attempt <- tlift (value_string payload "occupancy_attempt_id" "") in
  do! owned <- tget (fun s =>
    deadline_owns s deadline_id expected_attempt expected_session expected_generation) in
  if negb owned
  then tret (decide_as StaleGeneration stored_session "exit deadline no longer owns the slot") else
  do! iva <- tget (fun s => st_iva s !! ib_slot_id row) in
  do! owns <- tget (fun s => iva_owns s expected_attempt expected_session expected_generation) in
  do! found <- tget find_active in
  match found, iva with
  | Some active, Some iva_row =>
      if negb owns || negb (as_id active =? expected_session) ||
         negb (bool_decide (as_attemptId active = expected_attempt))
      then
        set_admitted_deadline deadline_id DeadlineSuperseded ;!
        tret (decide_as StaleGeneration stored_session "exit deadline generation is stale")
      else deadline_close active deadline_id expected_generation iva_row
  | _, _ =>
      set_admitted_deadline deadline_id DeadlineSuperseded ;!
      tret (decide_as StaleGeneration stored_session "exit deadline generation is stale")
  end.

(** * The transaction *)

Definition apply_branch : txn Decision :=
  match ib_kind row with
  | HallObservation => apply_hall
  | CameraObservation => apply_camera
  | ExitDeadline => apply_deadline
  end.

Definition rejected (d : Decision) : bool := bool_decide (de_code d = RejectedInvalidTimestamp).
Definition has_effect (d : Decision) : bool :=
  bool_decide (de_code d = CommittedStarted) || bool_decide (de_code d = CommittedEnded).

(** [src/database/EventDatabaseOccupancy.cpp:1546-1578 EventDatabase::applySlotTransitionCommand] *)
Definition finish_row (r : InboxRow) (d : Decision) : InboxRow :=
  ib_progress r (if rejected d then RejectedInvalid else Applied) (de_attempt d)
    (de_correlation d) (wrap_int64 (Z.of_N (de_generation d))) (ib_attempt_count r)
    (ib_next_attempt_ms r) (if rejected d then de_message d else "")
    (resultCodeName (de_code d)) (if 0 <=? de_session d then Some (de_session d) else None)
    (if has_effect d then EffectPending else EffectNone) 0 0 "".

Definition finish (d : Decision) : txn unit := fun s =>
  match st_inbox s !! command_id with
  | Some r => if pending r
              then Ok (tt, with_inbox s (<[command_id := finish_row r d]> (st_inbox s)))
              else Err (RuntimeError "occupancy inbox ownership changed")
  | None => Err (RuntimeError "occupancy inbox ownership changed")
  end.

Definition apply_transaction : txn Decision :=
  do! d <- apply_branch in finish d ;! tret d.
End Apply.

(** [src/database/EventDatabaseOccupancy.cpp:710-722 EventDatabase::applySlotTransitionCommand]
    The outcome that the code fills in from the row. On [RetryableFailure] the code may also
    keep a session or correlation that it had assigned before the exception; no caller
    reads them, and they are left out here. *)
Definition outcome_of_row (id : string) (row : InboxRow) (code : CommittedOccupancyCode)
    (at_ms : Z) (transport message : string) : CommittedOccupancyTransition :=
  mkCommittedOccupancyTransition code id (ib_kind row) (ib_slot_id row) (ib_sensor_id row)
    (default (-1) (ib_result_session row)) (ib_attempt_id row) (ib_correlation_id row)
    (Z.to_N (Z.max 0 (ib_generation row))) (ib_occurred_at row) at_ms transport message.

Definition outcome_of_decision (id : string) (row : InboxRow) (d : Decision) (at_ms : Z)
    (transport : string) : CommittedOccupancyTransition :=
  mkCommittedOccupancyTransition (de_code d) id (ib_kind row) (ib_slot_id row) (ib_sensor_id row)
    (de_session d) (de_attempt d) (de_correlation d) (de_generation d) (ib_occurred_at row) at_ms
    transport (de_message d).

Definition empty_outcome (id message : string) : CommittedOccupancyTransition :=
  mkCommittedOccupancyTransition RetryableFailure id HallObservation "" "" (-1) "" "" 0 "" 0 ""
    message.

Section ApplyCommand.
Context {JL : JsonLibrary} {SQL : SqlFunctions}.

(** [src/database/EventDatabaseOccupancy.cpp:724-743 EventDatabase::applySlotTransitionCommand] *)
Definition read_payload (row : InboxRow) : result store_error (json * string * Z) :=
  let? payload := parse_or_throw (ib_payload row) in
  let? transport := value_string payload "transport" "unknown" in
  let? at_ms := value_int64 payload "occurred_at_epoch_ms" (ib_due_ms row) in
  Ok (payload, transport, at_ms).

(** The transport that was read before the payload failed to be read. *)
Definition partial_transport (row : InboxRow) : string :=
  match (let? payload := parse_or_throw (ib_payload row) in
         value_string payload "transport" "unknown") with
  | Ok transport => transport
  | Err _ => ""
  end.

Definition invalid_code_name : string := resultCodeName RejectedInvalidTimestamp.

Definition reject_row (id : string) (row : InboxRow) (error : string) (s : Store) : Store :=
  with_inbox s (<[id := ib_set_result row RejectedInvalid error invalid_code_name]> (st_inbox s)).

(** [src/database/EventDatabaseOccupancy.cpp:679-1609 EventDatabase::applySlotTransitionCommand] *)
Definition applySlotTransitionCommand (opened : bool) (command_id : string) (s : Store)
    : CommittedOccupancyTransition * Store :=
  if is_empty command_id then (empty_outcome command_id "empty occupancy command id", s) else
  if negb opened then (empty_outcome command_id "occupancy database is closed", s) else
  match st_inbox s !! command_id with
  | None => (empty_outcome command_id "occupancy command does not exist", s)
  | Some row =>
      match read_payload row with
      | Err e =>
          (outcome_of_row command_id row RejectedInvalidTimestamp 0 (partial_transport row)
             "invalid command payload",
           reject_row command_id row (str_cat ["invalid command JSON: "; error_what e]) s)
      | Ok (payload, transport, at_ms) =>
          let stored_code := if is_empty (ib_result_code row) then RetryableFailure
                             else resultCodeFromName (ib_result_code row) in
          let answer code message := outcome_of_row command_id row code at_ms transport message in
          match ib_status row with
          | PendingPrepared => (answer stored_code "committed transition awaiting effects", s)
          | Applied | RejectedInvalid =>
              (answer (if is_empty (ib_result_code row) then AlreadyApplied else stored_code)
                 "transition already terminal", s)
          | PendingUnprepared =>
              match (let? policy := value_string payload "occupancy_policy" "" in
                     apply_transaction command_id row payload at_ms
                       (bool_decide (policy = "HYBRID_OR")) s) with
              | Ok (d, s') => (outcome_of_decision command_id row d at_ms transport, s')
              | Err (InvalidArgument what) =>
                  (answer RejectedInvalidTimestamp what, reject_row command_id row what s)
              | Err (RuntimeError what) => (answer RetryableFailure what, s)
              end
          end
      end
  end.

End ApplyCommand.

(** * A branch leaves the inbox alone *)

Definition keeps_inbox {A} (m : txn A) : Prop :=
  forall s, wp m (fun _ s' => st_inbox s' = st_inbox s) s.

Lemma keeps_bind {A B} (m : txn A) (k : A -> txn B) :
  keeps_inbox m -> (forall a, keeps_inbox (k a)) -> keeps_inbox (tbind m k).
Proof.
  intros Hm Hk s. apply wp_bind. eapply wp_mono; [|apply Hm]. intros a s' <-. apply Hk.
Qed.
Lemma keeps_ret {A} (a : A) : keeps_inbox (tret a).
Proof. done. Qed.
Lemma keeps_fail {A} e : keeps_inbox (@tfail A e).
Proof. done. Qed.
Lemma keeps_get {A} (f : Store -> A) : keeps_inbox (tget f).
Proof. done. Qed.
Lemma keeps_lift {A} (r : result store_error A) : keeps_inbox (tlift r).
Proof. intros s. by apply wp_lift. Qed.
Lemma keeps_guard b e : keeps_inbox (tguard b e).
Proof. intros s. by apply wp_guard. Qed.
Lemma keeps_put f : (forall s, st_inbox (f s) = st_inbox s) -> keeps_inbox (tput f).
Proof. intros Hf s. apply wp_put, Hf. Qed.

Create HintDb keeps.
#[global] Hint Resolve @keeps_ret @keeps_fail @keeps_get @keeps_lift @keeps_guard : keeps.

(** [solve_keeps] walks through a transaction; a primitive statement is unfolded by the
    caller first. *)
Ltac keeps_step :=
  match goal with
  | |- forall _, keeps_inbox _ => intro
  | |- keeps_inbox (tbind _ _) => apply keeps_bind
  | |- keeps_inbox (tput _) => apply keeps_put; done
  | |- keeps_inbox _ => solve [eauto 1 with keeps nocore]
  | |- keeps_inbox (if ?b then _ else _) => destruct b
  | |- keeps_inbox (match ?x with _ => _ end) => destruct x
  | |- keeps_inbox (let _ := _ in _) => cbv zeta
  end.
Ltac solve_keeps := cbv zeta; repeat keeps_step.
Ltac solve_keeps_prim :=
  intros ?; unfold wp; repeat (case_match; try done; simplify_eq); done.

Lemma keeps_update_slot slot_id status : keeps_inbox (update_slot slot_id status).
Proof. unfold update_slot. solve_keeps_prim. Qed.
Lemma keeps_update_open_session id f lost : keeps_inbox (update_open_session id f lost).
Proof. unfold update_open_session. solve_keeps_prim. Qed.
Lemma keeps_insert_session r : keeps_inbox (insert_session r).
Proof. unfold insert_session. solve_keeps_prim. Qed.
Lemma keeps_close_row id row at_ms active : keeps_inbox (close_row id row at_ms active).
Proof. unfold close_row. solve_keeps_prim. Qed.
Lemma keeps_clear_iva row active : keeps_inbox (clear_iva row active).
Proof. unfold clear_iva. solve_keeps_prim. Qed.
Lemma keeps_persist_iva {JL : JsonLibrary} id row a se g st c ar :
  keeps_inbox (persist_iva id row a se g st c ar).
Proof. unfold persist_iva. solve_keeps_prim. Qed.
Lemma keeps_insert_binding id b : keeps_inbox (insert_binding id b).
Proof. unfold insert_binding. solve_keeps_prim. Qed.
Lemma keeps_insert_deadline id d : keeps_inbox (insert_deadline id d).
Proof. unfold insert_deadline. solve_keeps_prim. Qed.
Lemma keeps_set_admitted_deadline id st : keeps_inbox (set_admitted_deadline id st).
Proof. unfold set_admitted_deadline. solve_keeps_prim. Qed.
#[global] Hint Resolve keeps_update_slot keeps_update_open_session keeps_insert_session
  keeps_close_row keeps_clear_iva keeps_persist_iva keeps_insert_binding keeps_insert_deadline
  keeps_set_admitted_deadline : keeps.

Section Keeps.
Context {JL : JsonLibrary} {SQL : SqlFunctions}.
Variables (id : string) (row : InboxRow) (payload : json) (at_ms : Z) (hybrid : bool).

Lemma keeps_create_session a e m : keeps_inbox (create_session id row at_ms a e m).
Proof. unfold create_session, write_log. solve_keeps. Qed.
Lemma keeps_close_session active e m : keeps_inbox (close_session id row at_ms active e m).
Proof. unfold close_session, write_log, end_bindings. solve_keeps. Qed.
Lemma keeps_commit_sequence : keeps_inbox (commit_sequence id row payload).
Proof. unfold commit_sequence. solve_keeps. Qed.
Lemma keeps_commit_correlation a se : keeps_inbox (commit_correlation id row payload at_ms a se).
Proof. unfold commit_correlation. solve_keeps. Qed.
#[local] Hint Resolve keeps_create_session keeps_close_session keeps_commit_sequence
  keeps_commit_correlation : keeps.

Lemma keeps_apply_hall : keeps_inbox (apply_hall id row payload at_ms hybrid).
Proof.
  unfold apply_hall, hall_occupied, hall_vacant, update_hall_state. solve_keeps.
Qed.

Lemma keeps_camera_exit k c ar g found :
  keeps_inbox (camera_exit id row payload hybrid k c ar g found).
Proof. unfold camera_exit, schedule_exit. solve_keeps. Qed.
Lemma keeps_camera_intrusion k c ar g o :
  keeps_inbox (camera_intrusion id row payload at_ms hybrid k c ar g o).
Proof. unfold camera_intrusion, supersede_deadlines, update_iva_state. solve_keeps. Qed.
Lemma keeps_load_iva c : keeps_inbox (fun s =>
  match load_iva row c s with Ok a => Ok (a, s) | Err e => Err e end).
Proof. intros s. unfold wp. by destruct (load_iva row c s). Qed.
#[local] Hint Resolve keeps_camera_exit keeps_camera_intrusion keeps_load_iva : keeps.

Lemma keeps_apply_camera : keeps_inbox (apply_camera id row payload at_ms hybrid).
Proof. unfold apply_camera, camera_without_authority, camera_with_authority. solve_keeps. Qed.

Lemma keeps_apply_deadline : keeps_inbox (apply_deadline id row payload at_ms hybrid).
Proof. unfold apply_deadline, deadline_close, update_iva_state. solve_keeps. Qed.

Lemma keeps_apply_branch : keeps_inbox (apply_branch id row payload at_ms hybrid).
Proof.
  unfold apply_branch. destruct (ib_kind row);
    [apply keeps_apply_hall|apply keeps_apply_camera|apply keeps_apply_deadline].
Qed.

(** A transaction that succeeds is the branch followed by the update of the command's row. *)
Lemma apply_transaction_ok s d s' :
  apply_transaction id row payload at_ms hybrid s = Ok (d, s') ->
  exists s1 r, apply_branch id row payload at_ms hybrid s = Ok (d, s1) /\
    st_inbox s1 = st_inbox s /\ st_inbox s !! id = Some r /\
    ib_status r = PendingUnprepared /\
    s' = with_inbox s1 (<[id := finish_row r d]> (st_inbox s1)).
Proof.
  unfold apply_transaction, tbind. pose proof (keeps_apply_branch s) as Hk. unfold wp in Hk.
  destruct (apply_branch _ _ _ _ _ s) as [[d1 s1]|]; [|done]. unfold finish.
  destruct (st_inbox s1 !! id) as [r|] eqn:Hr; [|done].
  destruct (pending r) eqn:Hp; [|done]. intros [= <- <-]. rewrite <-Hk.
  exists s1, r. split_and!; try done. by apply bool_decide_eq_true_1 in Hp.
Qed.
End Keeps.

Section ApplyOnce.
Context {JL : JsonLibrary} {SQL : SqlFunctions}.

(** * The application is done once *)

Lemma read_payload_facts row row' : ib_facts row' = ib_facts row -> read_payload row' = read_payload row.
Proof.
  unfold ib_facts. intros H. injection H as _ _ _ _ _ _ Hp Hd _ _.
  unfold read_payload. by rewrite Hp, Hd.
Qed.

Lemma resultCodeName_nonempty code : is_empty (resultCodeName code) = false.
Proof. by destruct code. Qed.

(** A terminal row answers with its stored code and keeps the store. *)
Lemma apply_terminal id row s code :
  is_empty id = false -> st_inbox s !! id = Some row ->
  terminalStatus (ib_status row) = true -> (exists x, read_payload row = Ok x) ->
  ib_result_code row = resultCodeName code ->
  exists o, applySlotTransitionCommand true id s = (o, s) /\ cot_code o = code.
Proof.
  intros Hid Hrow Ht ([[payload transport] at_ms] & Hp) Hc. unfold applySlotTransitionCommand.
  rewrite Hid. simpl. rewrite Hrow, Hp.
  rewrite Hc, resultCodeName_nonempty, resultCode_roundtrip.
  destruct (ib_status row); try done; eexists; (split; [reflexivity|done]).
Qed.
(** What the application of an existing command can be. *)
Inductive apply_case (id : string) (s : Store) : CommittedOccupancyTransition -> Store -> Prop :=
| case_unchanged o : apply_case id s o s
| case_bad_payload row e o :
    st_inbox s !! id = Some row -> read_payload row = Err e ->
    cot_code o = RejectedInvalidTimestamp ->
    apply_case id s o (reject_row id row (str_cat ["invalid command JSON: "; error_what e]) s)
| case_invalid row x what o :
    st_inbox s !! id = Some row -> read_payload row = Ok x ->
    ib_status row = PendingUnprepared -> cot_code o = RejectedInvalidTimestamp ->
    apply_case id s o (reject_row id row what s)
| case_committed row payload transport at_ms policy d s1 o :
    st_inbox s !! id = Some row -> read_payload row = Ok (payload, transport, at_ms) ->
    ib_status row = PendingUnprepared ->
    value_string payload "occupancy_policy" "" = Ok policy ->
    apply_branch id row payload at_ms (bool_decide (policy = "HYBRID_OR")) s = Ok (d, s1) ->
    st_inbox s1 = st_inbox s -> o = outcome_of_decision id row d at_ms transport ->
    apply_case id s o (with_inbox s1 (<[id := finish_row row d]> (st_inbox s1))).

Lemma apply_cases id s o s' :
  applySlotTransitionCommand true id s = (o, s') -> apply_case id s o s'.
Proof.
  unfold applySlotTransitionCommand. destruct (is_empty id); [intros [= <- <-]; constructor|].
  simpl. destruct (st_inbox s !! id) as [row|] eqn:Hrow; [|intros [= <- <-]; constructor].
  destruct (read_payload row) as [[[payload transport] at_ms]|e] eqn:Hp;
    [|intros [= <- <-]; by econstructor].
  destruct (ib_status row) eqn:Hst; try (intros [= <- <-]; constructor).
  destruct (value_string payload "occupancy_policy" "") as [policy|e] eqn:Hpol; simpl.
  2: { destruct e; intros [= <- <-]; [by econstructor|constructor]. }
  destruct (apply_transaction _ _ _ _ _ s) as [[d s1]|e] eqn:Ht.
  2: { destruct e; intros [= <- <-]; [by econstructor|constructor]. }
  apply apply_transaction_ok in Ht as (s2 & r & Hb & Hi & Hr & _ & ->).
  intros [= <- <-]. assert (r = row) as -> by congruence. by econstructor.
Qed.

(** C3 [safety] A command is applied exactly once: applying it again after any outcome
    changes nothing and answers the same code, so the transaction of a redelivered or
    replayed command (or of one whose answer was lost) cannot start or end a session twice. *)
Theorem apply_exactly_once opened id s :
  let '(o1, s1) := applySlotTransitionCommand opened id s in
  let '(o2, s2) := applySlotTransitionCommand opened id s1 in
  s2 = s1 /\ cot_code o2 = cot_code o1.
Proof.
  destruct opened; [|unfold applySlotTransitionCommand; by destruct (is_empty id)].
  destruct (is_empty id) eqn:Hid; [unfold applySlotTransitionCommand; by rewrite Hid|].
  destruct (applySlotTransitionCommand true id s) as [o1 s1] eqn:E1.
  pose proof (apply_cases _ _ _ _ E1) as Hcase.
  destruct Hcase as [o|row e o Hrow Hp Ho|row x what o Hrow Hp Hst Ho
                    |row payload transport at_ms policy d s1 o Hrow Hp Hst Hpol Hb Hi ->].
  - by rewrite E1.
  - unfold applySlotTransitionCommand. rewrite Hid. unfold reject_row. simpl.
    rewrite lookup_insert_eq. rewrite (read_payload_facts row) by done. rewrite Hp.
    split; [|by rewrite Ho]. unfold reject_row. simpl. by rewrite insert_insert_eq.
  - destruct (apply_terminal id (ib_set_result row RejectedInvalid what invalid_code_name)
      (reject_row id row what s) RejectedInvalidTimestamp Hid)
      as (o2 & -> & Ho2); [apply lookup_insert_eq|done| |done|by rewrite Ho2, Ho].
    exists x. by rewrite (read_payload_facts row).
  - destruct (apply_terminal id (finish_row row d) (with_inbox s1 (<[id := finish_row row d]> (st_inbox s1)))
      (de_code d) Hid) as (o2 & -> & Ho2); [apply lookup_insert_eq| | |done|done].
    + simpl. by destruct (rejected d).
    + exists (payload, transport, at_ms). by rewrite (read_payload_facts row).
Qed.
End ApplyOnce.
