(* ===== verification/OccupancyInvariant.v ===== *)
(** The invariants of the durable occupancy store, and what a command may do to the
    sessions: one open session per slot, the slot status as its projection, unique
    admissions, owned bindings and observations, and the only causes that end a session. *)
From S2P Require Import Prelude SensorProtocol SequencePolicy SlotConfig OccupancyDb.
From S2P Require Import OccupancyAdmission OccupancyApply.

(** * The invariants *)

Definition open_session_of (s : Store) (slot_id : string) (id : Z) (r : SessionRow) : Prop :=
  st_sessions s !! id = Some r /\ session_open r = true /\ sr_slot_id r = slot_id.

Definition attempt_of (r : SessionRow) : string := default "" (sr_attempt_id r).

Definition unique_identities (inbox : gmap string InboxRow) : Prop :=
  forall id1 id2 r1 r2, inbox !! id1 = Some r1 -> inbox !! id2 = Some r2 ->
    ib_kind r1 = ib_kind r2 -> ib_source_identity r1 = ib_source_identity r2 -> id1 = id2.

Definition unique_live_deadlines (deadlines : gmap string DeadlineRow) : Prop :=
  forall id1 id2 d1 d2, deadlines !! id1 = Some d1 -> deadlines !! id2 = Some d2 ->
    deadline_live d1 = true -> deadline_live d2 = true -> dl_slot_id d1 = dl_slot_id d2 -> id1 = id2.

(** One open session per slot, and the status column is its projection. *)
Record consistent (s : Store) : Prop := {
  co_unique : forall slot_id id1 id2 r1 r2,
    open_session_of s slot_id id1 r1 -> open_session_of s slot_id id2 r2 -> id1 = id2;
  co_sequence : forall id r, st_sessions s !! id = Some r -> id <= st_session_seq s;
  co_occupied : forall slot_id status, st_slots s !! slot_id = Some status ->
    status = "OCCUPIED" <-> exists id r, open_session_of s slot_id id r;
  co_slot : forall slot_id id r, open_session_of s slot_id id r -> is_Some (st_slots s !! slot_id);
  co_deadlines : unique_live_deadlines (st_deadlines s)
}.

(** Committed bindings and observations point at the open session of their slot. *)
Definition owns_session (s : Store) (slot_id attempt_id : string) (id : Z) : Prop :=
  exists r, open_session_of s slot_id id r /\ attempt_of r = attempt_id.

Record owned (s : Store) : Prop := {
  ow_bindings : forall cid b, st_bindings s !! cid = Some b -> bi_state b = BindingCommitted ->
    exists id, bi_session b = Some id /\ owns_session s (bi_slot_id b) (bi_attempt_id b) id;
  ow_iva : forall slot_id r id, st_iva s !! slot_id = Some r -> iv_session r = Some id ->
    owns_session s slot_id (iv_attempt_id r) id
}.

(** What a command of one slot may have done since [s0]: at most [closed] is closed and
    [created] opened, and no other slot is touched. *)
Record touched (slot_id : string) (s0 : Store) (closed created : option Z) (s : Store) : Prop := {
  to_sessions : forall id r, st_sessions s0 !! id = Some r -> sr_slot_id r <> slot_id ->
    st_sessions s !! id = Some r;
  to_slots : forall slot, slot <> slot_id -> st_slots s !! slot = st_slots s0 !! slot;
  to_iva : forall slot, slot <> slot_id -> st_iva s !! slot = st_iva s0 !! slot;
  to_kept : forall id r, st_sessions s0 !! id = Some r -> session_open r = true ->
    closed <> Some id -> exists r', st_sessions s !! id = Some r' /\ session_open r' = true /\
                                    sr_slot_id r' = sr_slot_id r;
  to_created : forall id r, st_sessions s !! id = Some r -> session_open r = true ->
    created <> Some id -> exists r0, st_sessions s0 !! id = Some r0 /\ session_open r0 = true
}.

Record good (slot_id : string) (s0 : Store) (closed created : option Z) (s : Store) : Prop := {
  go_consistent : consistent s;
  go_owned : owned s;
  go_touched : touched slot_id s0 closed created s
}.

Lemma touched_refl slot_id s : touched slot_id s None None s.
Proof. split; eauto 6. Qed.

Lemma owns_session_open s slot_id attempt id :
  owns_session s slot_id attempt id -> exists r, st_sessions s !! id = Some r /\
    session_open r = true /\ sr_slot_id r = slot_id /\ attempt_of r = attempt.
Proof. intros (r & (? & ? & ?) & ?). eauto. Qed.

(** Sessions that agree up to the columns of the two sources. *)
Definition same_session (r r' : SessionRow) : Prop :=
  session_open r' = session_open r /\ sr_slot_id r' = sr_slot_id r /\
  sr_attempt_id r' = sr_attempt_id r.

(** Stores with the same tables, as far as an invariant looks at them. *)
Lemma consistent_ext s s' :
  st_slots s' = st_slots s -> st_sessions s' = st_sessions s ->
  st_session_seq s' = st_session_seq s -> st_deadlines s' = st_deadlines s ->
  consistent s -> consistent s'.
Proof.
  intros H1 H2 H3 H4 [C1 C2 C3 C4 C5]. unfold open_session_of in *.
  split; unfold open_session_of; rewrite ?H1, ?H2, ?H3, ?H4; assumption.
Qed.

Lemma owned_ext s s' :
  st_sessions s' = st_sessions s -> st_bindings s' = st_bindings s -> st_iva s' = st_iva s ->
  owned s -> owned s'.
Proof.
  intros H1 H2 H3 [O1 O2]. unfold owns_session, open_session_of in *.
  split; unfold owns_session, open_session_of; rewrite ?H1, ?H2, ?H3; assumption.
Qed.

Lemma touched_ext slot_id s0 closed created s s' :
  st_sessions s' = st_sessions s -> st_slots s' = st_slots s -> st_iva s' = st_iva s ->
  touched slot_id s0 closed created s -> touched slot_id s0 closed created s'.
Proof.
  intros H1 H2 H3 [T1 T2 T3 T4 T5]. split; rewrite ?H1, ?H2, ?H3; assumption.
Qed.

(** A change of the cursors, the log or the inbox keeps everything. *)
Lemma good_ext slot_id s0 closed created s s' :
  st_slots s' = st_slots s -> st_sessions s' = st_sessions s ->
  st_session_seq s' = st_session_seq s -> st_deadlines s' = st_deadlines s ->
  st_bindings s' = st_bindings s -> st_iva s' = st_iva s ->
  good slot_id s0 closed created s -> good slot_id s0 closed created s'.
Proof.
  intros H1 H2 H3 H4 H5 H6 [G1 G2 G3]. split.
  - by apply (consistent_ext s).
  - by apply (owned_ext s).
  - by apply (touched_ext slot_id s0 closed created s).
Qed.

(** * Updates of the tables *)

Section Updates.
Variables (slot_id : string) (s0 : Store) (closed created : option Z).
Notation good := (good slot_id s0 closed created).

Lemma open_session_update s id r r' slot i x :
  st_sessions s !! id = Some r -> same_session r r' ->
  open_session_of (with_sessions s (<[id := r']> (st_sessions s))) slot i x ->
  exists y, open_session_of s slot i y /\ attempt_of y = attempt_of x.
Proof.
  intros Hr (Ho & Hs & Ha) (H1 & H2 & H3). simpl in H1.
  destruct (decide (i = id)) as [->|Hne].
  - rewrite lookup_insert_eq in H1. injection H1 as <-. exists r. unfold open_session_of, attempt_of.
    rewrite <-Ho, <-Hs, <-Ha. done.
  - rewrite lookup_insert_ne in H1 by done. by exists x.
Qed.

Lemma open_session_update_rev s id r r' slot i x :
  st_sessions s !! id = Some r -> same_session r r' ->
  open_session_of s slot i x ->
  exists y, open_session_of (with_sessions s (<[id := r']> (st_sessions s))) slot i y /\
    attempt_of y = attempt_of x.
Proof.
  intros Hr (Ho & Hs & Ha) (H1 & H2 & H3). destruct (decide (i = id)) as [->|Hne].
  - exists r'. assert (x = r) as -> by congruence. unfold open_session_of, attempt_of. simpl.
    rewrite lookup_insert_eq, Ho, Hs, Ha. done.
  - exists x. unfold open_session_of. simpl. by rewrite lookup_insert_ne.
Qed.

Lemma owns_session_update s id r r' slot attempt i :
  st_sessions s !! id = Some r -> same_session r r' ->
  owns_session s slot attempt i ->
  owns_session (with_sessions s (<[id := r']> (st_sessions s))) slot attempt i.
Proof.
  intros Hr Hss (x & Hx & <-).
  destruct (open_session_update_rev s id r r' slot i x Hr Hss Hx) as (y & Hy & Ha).
  by exists y.
Qed.

(** Columns of an open session of the slot that no invariant looks at. *)
Lemma good_update_session s id r r' :
  good s -> open_session_of s slot_id id r -> same_session r r' ->
  good (with_sessions s (<[id := r']> (st_sessions s))).
Proof.
  intros [[C1 C2 C3 C4 C5] [O1 O2] [T1 T2 T3 T4 T5]] (Hr & Hopen & Hslot) Hss.
  assert (Hup := open_session_update s id r r'). assert (Hrev := open_session_update_rev s id r r').
  split; split; simpl.
  - intros slot id1 id2 r1 r2 H1 H2.
    destruct (Hup slot _ _ Hr Hss H1) as (y1 & Hy1 & _), (Hup slot _ _ Hr Hss H2) as (y2 & Hy2 & _).
    by eapply C1.
  - intros i x Hx. destruct (decide (i = id)) as [->|Hne]; [by eapply C2|].
    rewrite lookup_insert_ne in Hx by done. by eapply C2.
  - intros slot status Hst. rewrite (C3 _ _ Hst). split.
    + intros (i & x & Hx). destruct (Hrev slot _ _ Hr Hss Hx) as (y & Hy & _). eauto.
    + intros (i & x & Hx). destruct (Hup slot _ _ Hr Hss Hx) as (y & Hy & _). eauto.
  - intros slot i x Hx. destruct (Hup slot _ _ Hr Hss Hx) as (y & Hy & _). by eapply C4.
  - done.
  - intros cid b Hb Hst. destruct (O1 _ _ Hb Hst) as (i & Hi & Hown).
    exists i. split; [done|]. by eapply owns_session_update.
  - intros slot x i Hx Hi. eapply owns_session_update; eauto.
  - intros i x Hx Hne. destruct (decide (i = id)) as [->|Hneq].
    + specialize (T1 _ _ Hx Hne). congruence.
    + rewrite lookup_insert_ne by done. eauto.
  - done.
  - done.
  - intros i x Hx Ho Hc. destruct (T4 _ _ Hx Ho Hc) as (x' & Hx' & Ho' & Hs').
    destruct (decide (i = id)) as [->|Hneq].
    + exists r'. rewrite lookup_insert_eq. split; [done|]. destruct Hss as (-> & -> & _).
      split; congruence.
    + exists x'. by rewrite lookup_insert_ne.
  - intros i x Hx Ho Hc. destruct (decide (i = id)) as [->|Hneq].
    + by eapply T5.
    + rewrite lookup_insert_ne in Hx by done. by eapply T5.
Qed.

(** Deadlines that keep at most one live row per slot. *)
Lemma good_deadlines s D :
  good s -> unique_live_deadlines D -> good (with_deadlines s D).
Proof.
  intros [[C1 C2 C3 C4 C5] O T] HD. split; [by split| |].
  - by apply (owned_ext s).
  - by apply (touched_ext slot_id s0 closed created s).
Qed.

Lemma good_iva s r :
  good s -> (forall id, iv_session r = Some id -> owns_session s slot_id (iv_attempt_id r) id) ->
  good (with_iva s (<[slot_id := r]> (st_iva s))).
Proof.
  intros [C [O1 O2] [T1 T2 T3 T4 T5]] Hr. split; [by apply (consistent_ext s)|split|split]; simpl; try done.
  - intros slot x id Hx Hi. destruct (decide (slot = slot_id)) as [->|Hne].
    + rewrite lookup_insert_eq in Hx. injection Hx as <-. by apply Hr.
    + rewrite lookup_insert_ne in Hx by done. by eapply O2.
  - intros slot Hne. rewrite lookup_insert_ne by done. by apply T3.
Qed.

Lemma good_binding s cid b :
  good s -> (bi_state b = BindingCommitted -> exists id, bi_session b = Some id /\
               owns_session s (bi_slot_id b) (bi_attempt_id b) id) ->
  good (with_bindings s (<[cid := b]> (st_bindings s))).
Proof.
  intros [C [O1 O2] T] Hb. split; [by apply (consistent_ext s)|split|]; simpl.
  - intros c x Hx Hst. destruct (decide (c = cid)) as [->|Hne].
    + rewrite lookup_insert_eq in Hx. injection Hx as <-. by apply Hb.
    + rewrite lookup_insert_ne in Hx by done. by eapply O1.
  - intros slot x id Hx Hi. by eapply O2.
  - by apply (touched_ext slot_id s0 closed created s).
Qed.
End Updates.

(** * The active session of a slot *)

Lemma session_row_active {SQL : SqlFunctions} row s a :
  find_active row s = Some a ->
  exists r, open_session_of s (ib_slot_id row) (as_id a) r /\ as_attemptId a = attempt_of r /\
    as_entryEpochMs a = default (sql_julian_ms (sr_entry_time r)) (sr_entry_ms r) /\
    as_hallConfirmed a = sr_hall_confirmed r /\ as_ivaConfirmed a = sr_iva_confirmed r /\
    as_hallOccupied a = sr_hall_occupied r /\ as_ivaOccupied a = sr_iva_occupied r.
Proof.
  unfold find_active. destruct (min_by _ _) as [[id r]|] eqn:E; [|done]. intros [= <-].
  apply min_by_some in E as [E _]. apply select_rows_elem in E as [Hr E]. split_bool.
  by exists r.
Qed.

Lemma no_active {SQL : SqlFunctions} row s id r :
  find_active row s = None -> ~ open_session_of s (ib_slot_id row) id r.
Proof.
  unfold find_active. destruct (min_by _ _) as [[id' r']|] eqn:E; [done|]. intros _ (Hr & Ho & Hs).
  apply min_by_none in E. apply (select_rows_nil _ _ id r E) in Hr.
  rewrite Ho, bool_decide_eq_true_2 in Hr; done.
Qed.

Lemma owns_session_ext s s' slot attempt id :
  st_sessions s' = st_sessions s -> owns_session s slot attempt id -> owns_session s' slot attempt id.
Proof. intros He (r & (H1 & H2) & H3). exists r. unfold open_session_of. by rewrite He. Qed.

Lemma active_owned {SQL : SqlFunctions} row s a :
  find_active row s = Some a -> owns_session s (ib_slot_id row) (as_attemptId a) (as_id a).
Proof. intros (r & Hr & Ha & _)%session_row_active. by exists r. Qed.

(** The binding table after the committed bindings of a session end. *)
Lemma end_bindings_lookup row a at_ms (m : gmap string BindingRow) cid b :
  update_rows (binding_of_session row a) (fun b => bi_end b at_ms) m !! cid = Some b ->
  bi_state b = BindingCommitted ->
  m !! cid = Some b /\ binding_of_session row a b = false.
Proof.
  unfold update_rows. rewrite lookup_fmap. destruct (m !! cid) as [b0|]; [|done]. simpl.
  destruct (binding_of_session row a b0) eqn:E; intros [= <-]; [done|]. by intros _.
Qed.

Section Sessions.
Context {JL : JsonLibrary} {SQL : SqlFunctions}.
Variables (command_id : string) (row : InboxRow) (payload : json) (at_ms : Z) (hybrid : bool)
  (s0 : Store).
Notation slot_id := (ib_slot_id row).
Notation good := (good slot_id s0).
Notation owns s := (owns_session s slot_id).

Lemma wp_update_open_session closed created id attempt f lost s :
  good closed created s -> owns s attempt id ->
  (forall r, session_open (f r) = session_open r /\ sr_slot_id (f r) = sr_slot_id r /\
             sr_attempt_id (f r) = sr_attempt_id r) ->
  wp (update_open_session id f lost)
     (fun _ s' => good closed created s' /\ owns s' attempt id /\ st_slots s' = st_slots s) s.
Proof.
  intros Hg (r & (Hr & Ho & Hs) & Ha) Hf. unfold wp, update_open_session. rewrite Hr, Ho.
  split_and!; [|exists (f r)|done].
  - apply good_update_session with (r := r); [done|done|apply Hf].
  - specialize (Hf r) as (H1 & H2 & H3). unfold open_session_of, attempt_of. simpl.
    by rewrite lookup_insert_eq, H1, H2, H3.
Qed.

Lemma wp_commit_sequence closed created s :
  good closed created s ->
  wp (commit_sequence command_id row payload)
     (fun _ s' => good closed created s' /\ st_sessions s' = st_sessions s) s.
Proof.
  intros Hg. unfold commit_sequence. apply wp_bind, wp_lift. intros fact _.
  destruct (ssf_sequence fact) as [n|]; [|done]. destruct (is_empty _); [done|].
  apply wp_bind, wp_get, wp_bind, wp_guard. intros _.
  apply wp_bind. eapply (wp_mono _ (fun _ s' => good closed created s' /\ st_sessions s' = st_sessions s)).
  - intros _ s1 [Hg1 He]. apply wp_put. split; [|done]. by apply (good_ext _ _ _ _ s1).
  - destruct (sss_activeBootId _) as [active|]; [|done]. destruct (ssf_bootId fact) as [boot|]; [|done].
    destruct (_ && _)%bool; [|done]. apply wp_put. split; [|done]. by apply (good_ext _ _ _ _ s).
Qed.

Lemma wp_persist_iva closed created attempt session g st c ar s :
  good closed created s ->
  (forall id, session = Some id -> owns s attempt id) ->
  wp (persist_iva command_id row attempt session g st c ar)
     (fun _ s' => good closed created s' /\ st_sessions s' = st_sessions s) s.
Proof.
  intros Hg Hown. unfold wp, persist_iva. destruct (bool_decide _); [done|].
  split; [|done]. by apply good_iva.
Qed.

Lemma wp_commit_correlation closed created attempt id s :
  good closed created s -> owns s attempt id ->
  wp (commit_correlation command_id row payload at_ms attempt id)
     (fun _ s' => good closed created s') s.
Proof.
  intros Hg Hown. unfold commit_correlation.
  do 7 (apply wp_bind, wp_lift; intros ? _). destruct (_ || _)%bool; [done|].
  apply wp_bind, wp_get. destruct (head _) as [[cid b]|] eqn:Eh.
  - apply wp_bind, wp_guard. intros _. destruct (_ <? _); [|done].
    apply wp_bind, wp_guard. intros _. apply wp_bind, wp_put, wp_ret.
    apply head_Some_elem_of, select_rows_elem in Eh as [Hb _].
    apply good_binding; [done|]. simpl. intros Hst. by apply (ow_bindings s (go_owned _ _ _ _ _ Hg) cid).
  - apply wp_bind. unfold wp, insert_binding. destruct (_ || _)%bool; [done|].
    apply wp_ret. apply good_binding; [done|]. simpl. intros _. by exists id.
Qed.

(** The slot of a session that is not there may be marked vacant. *)
Lemma good_vacant closed created s :
  good closed created s -> find_active row s = None ->
  good closed created (with_slots s (<[slot_id := "VACANT"]> (st_slots s))).
Proof.
  intros [[C1 C2 C3 C4 C5] O [T1 T2 T3 T4 T5]] Hno.
  split; [split|by apply (owned_ext s)|split]; simpl; try done.
  - intros slot status Hst. destruct (decide (slot = slot_id)) as [->|Hne].
    + rewrite lookup_insert_eq in Hst. injection Hst as <-. split; [done|].
      intros (id & r & Hr). by destruct (no_active row s id r Hno).
    + rewrite lookup_insert_ne in Hst by done. by apply C3.
  - intros slot id r Hr. destruct (C4 slot id r Hr) as [st Hst].
    destruct (decide (slot = slot_id)) as [->|Hne]; [by rewrite lookup_insert_eq|].
    by rewrite lookup_insert_ne by done.
  - intros slot Hne. rewrite lookup_insert_ne by done. by apply T2.
Qed.

Lemma wp_vacant closed created s :
  good closed created s -> find_active row s = None ->
  wp (update_slot slot_id "VACANT") (fun _ s' => good closed created s') s.
Proof.
  intros Hg Hno. unfold wp, update_slot. destruct (st_slots s !! slot_id); [|done].
  by apply good_vacant.
Qed.

(** * Opening a session *)

Lemma good_create s r id :
  good None None s -> sr_slot_id r = slot_id -> session_open r = true ->
  st_sessions s !! id = None -> st_session_seq s < id -> is_Some (st_slots s !! slot_id) ->
  (forall i x, ~ open_session_of s slot_id i x) ->
  good None (Some id) (with_session_seq (with_sessions
    (with_slots s (<[slot_id := "OCCUPIED"]> (st_slots s))) (<[id := r]> (st_sessions s))) id).
Proof.
  intros [[C1 C2 C3 C4 C5] [O1 O2] [T1 T2 T3 T4 T5]] Hs Ho Hfree Hseq Hslot Hno.
  set (s' := with_session_seq _ _).
  assert (Hup : forall slot i x, open_session_of s' slot i x ->
    (i = id /\ slot = slot_id) \/ open_session_of s slot i x).
  { intros slot i x (H1 & H2 & H3). simpl in H1. destruct (decide (i = id)) as [->|Hne].
    - rewrite lookup_insert_eq in H1. injection H1 as <-. left. split; congruence.
    - rewrite lookup_insert_ne in H1 by done. by right. }
  assert (Hrev : forall slot i x, open_session_of s slot i x -> open_session_of s' slot i x).
  { intros slot i x (H1 & H2 & H3). split; [|done]. simpl.
    rewrite lookup_insert_ne; [done|]. intros ->. congruence. }
  assert (Hnew : open_session_of s' slot_id id r).
  { split; [|done]. simpl. by rewrite lookup_insert_eq. }
  assert (Hown : forall slot a i, owns_session s slot a i -> owns_session s' slot a i).
  { intros slot a i (x & Hx & Ha). exists x. auto. }
  split; split; simpl.
  - intros slot i1 i2 r1 r2 H1 H2.
    destruct (Hup _ _ _ H1) as [[-> ->]|H1'], (Hup _ _ _ H2) as [[-> Hs2]|H2'];
      [done|by destruct (Hno _ _ H2')|subst; by destruct (Hno _ _ H1')|by eapply C1].
  - intros i x. destruct (decide (i = id)) as [->|Hne]; [lia|].
    rewrite lookup_insert_ne by done. intros Hx%C2. lia.
  - intros slot status Hst. destruct (decide (slot = slot_id)) as [->|Hne].
    + rewrite lookup_insert_eq in Hst. injection Hst as <-. split; eauto.
    + rewrite lookup_insert_ne in Hst by done. rewrite (C3 _ _ Hst). split.
      * intros (i & x & Hx). eauto.
      * intros (i & x & Hx). destruct (Hup _ _ _ Hx) as [[_ ->]|]; [done|eauto].
  - intros slot i x Hx. destruct (decide (slot = slot_id)) as [->|Hne]; [by rewrite lookup_insert_eq|].
    rewrite lookup_insert_ne by done.
    destruct (Hup _ _ _ Hx) as [[_ ->]|Hx']; [done|by eapply C4].
  - done.
  - intros cid b Hb Hst. destruct (O1 _ _ Hb Hst) as (i & Hi & Hx). eauto.
  - intros slot x i Hx Hi. eauto.
  - intros i x Hx Hne. rewrite lookup_insert_ne by (intros ->; specialize (T1 _ _ Hx Hne); congruence).
    eauto.
  - intros slot Hne. rewrite lookup_insert_ne by done. auto.
  - done.
  - intros i x Hx Hopen Hc. destruct (T4 _ _ Hx Hopen Hc) as (x' & Hx' & Ho' & Hsl').
    exists x'. rewrite lookup_insert_ne by congruence. done.
  - intros i x Hx Hopen Hc. rewrite lookup_insert_ne in Hx by congruence. by eapply T5.
Qed.

Lemma wp_create_session attempt e m s :
  good None None s -> find_active row s = None ->
  wp (create_session command_id row at_ms attempt e m)
     (fun id s' => good None (Some id) s' /\ owns s' attempt id) s.
Proof.
  intros Hg Hno. unfold create_session. apply wp_bind. unfold wp at 1, update_slot.
  destruct (st_slots s !! slot_id) as [st|] eqn:Hslot; [|by apply wp_bind, wp_guard].
  apply wp_bind, wp_guard. intros _. apply wp_bind. unfold wp at 1, insert_session. simpl.
  destruct (_ || _)%bool eqn:Eg; [done|]. apply orb_false_elim in Eg as [Hfree _].
  apply bool_decide_eq_false_1, eq_None_not_Some in Hfree.
  apply wp_bind, wp_put, wp_ret.
  assert (Hc : good None (Some (st_session_seq s + 1)) (with_session_seq (with_sessions
    (with_slots s (<[slot_id := "OCCUPIED"]> (st_slots s)))
    (<[st_session_seq s + 1 := new_session_row command_id row at_ms attempt]> (st_sessions s)))
    (st_session_seq s + 1))).
  { apply good_create; try done; [lia|]. intros i x. by apply no_active. }
  split; [by eapply good_ext; [..|exact Hc]|].
  eexists. split; [split; [apply lookup_insert_eq|done]|done].
Qed.

(** * Ending a session *)

Lemma good_close s r r' a I :
  good None None s -> open_session_of s slot_id (as_id a) r -> as_attemptId a = attempt_of r ->
  session_open r' = false -> sr_slot_id r' = slot_id ->
  (forall slot x id, I !! slot = Some x -> iv_session x = Some id ->
     st_iva s !! slot = Some x /\ (slot = slot_id -> id <> as_id a)) ->
  (forall slot, slot <> slot_id -> I !! slot = st_iva s !! slot) ->
  good (Some (as_id a)) None (with_iva (with_bindings (with_slots
    (with_sessions s (<[as_id a := r']> (st_sessions s)))
    (<[slot_id := "VACANT"]> (st_slots s)))
    (update_rows (binding_of_session row a) (fun b => bi_end b at_ms) (st_bindings s))) I).
Proof.
  intros [[C1 C2 C3 C4 C5] [O1 O2] [T1 T2 T3 T4 T5]] Hr Ha Hclosed Hs' HI1 HI2.
  set (s' := with_iva _ _).
  assert (Hup : forall slot i x, open_session_of s' slot i x ->
    i <> as_id a /\ open_session_of s slot i x).
  { intros slot i x (H1 & H2 & H3). simpl in H1. destruct (decide (i = as_id a)) as [->|Hne].
    - rewrite lookup_insert_eq in H1. injection H1 as <-. congruence.
    - rewrite lookup_insert_ne in H1 by done. by split. }
  assert (Hrev : forall slot i x, i <> as_id a -> open_session_of s slot i x ->
    open_session_of s' slot i x).
  { intros slot i x Hne (H1 & H2 & H3). split; [|done]. simpl. by rewrite lookup_insert_ne. }
  assert (Hgone : forall i x, ~ open_session_of s' slot_id i x).
  { intros i x Hx. destruct (Hup _ _ _ Hx) as [Hne Hx']. apply Hne. by eapply C1. }
  assert (Hown : forall slot att i, i <> as_id a -> owns_session s slot att i ->
    owns_session s' slot att i).
  { intros slot att i Hne (x & Hx & Hatt). exists x. auto. }
  split; split; simpl.
  - intros slot i1 i2 r1 r2 [_ H1]%Hup [_ H2]%Hup. by eapply C1.
  - intros i x. destruct (decide (i = as_id a)) as [->|Hne].
    + intros _. destruct Hr as [Hr _]. by eapply C2.
    + rewrite lookup_insert_ne by done. apply C2.
  - intros slot status Hst. destruct (decide (slot = slot_id)) as [->|Hne].
    + rewrite lookup_insert_eq in Hst. injection Hst as <-. split; [done|].
      intros (i & x & Hx). by destruct (Hgone i x).
    + rewrite lookup_insert_ne in Hst by done. rewrite (C3 _ _ Hst). split.
      * intros (i & x & Hx). exists i, x. apply Hrev; [|done]. intros ->.
        destruct Hx as (H1 & _ & H3), Hr as (H1' & _ & H3'). congruence.
      * intros (i & x & [_ Hx]%Hup). eauto.
  - intros slot i x [_ Hx]%Hup. destruct (decide (slot = slot_id)) as [->|Hne];
      [by rewrite lookup_insert_eq|]. rewrite lookup_insert_ne by done. by eapply C4.
  - done.
  - intros cid b Hb Hst. apply end_bindings_lookup in Hb as [Hb Hnot]; [|done].
    destruct (O1 _ _ Hb Hst) as (i & Hi & Hx). exists i. split; [done|]. apply Hown; [|done].
    intros ->. destruct Hx as (x & (Hx1 & Hx2 & Hx3) & Hatt), Hr as (Hr1 & _ & Hr3).
    assert (x = r) as -> by congruence. unfold binding_of_session in Hnot.
    rewrite Hi, Hst, <-Hx3, Hr3, <-Hatt, Ha, !bool_decide_eq_true_2 in Hnot; done.
  - intros slot x i Hx Hi. destruct (HI1 _ _ _ Hx Hi) as [Hx' Hne]. eapply Hown; [|by eapply O2].
    intros ->. destruct (O2 _ _ _ Hx' Hi) as (y & (Hy1 & _ & Hy3) & _), Hr as (Hr1 & _ & Hr3).
    apply Hne; [congruence|done].
  - intros i x Hx Hne. destruct (decide (i = as_id a)) as [->|Hneq].
    + specialize (T1 _ _ Hx Hne). destruct Hr as (Hr1 & _ & Hr3). congruence.
    + rewrite lookup_insert_ne by done. eauto.
  - intros slot Hne. rewrite lookup_insert_ne by done. auto.
  - intros slot Hne. rewrite HI2 by done. auto.
  - intros i x Hx Hopen Hc. destruct (T4 _ _ Hx Hopen) as (x' & Hx' & Ho' & Hsl'); [done|].
    exists x'. rewrite lookup_insert_ne by congruence. done.
  - intros i x Hx Hopen Hc. destruct (decide (i = as_id a)) as [->|Hneq].
    + rewrite lookup_insert_eq in Hx. congruence.
    + rewrite lookup_insert_ne in Hx by done. by eapply T5.
Qed.

Lemma wp_close_session a e m s :
  good None None s -> owns s (as_attemptId a) (as_id a) ->
  wp (close_session command_id row at_ms a e m)
     (fun ok s' => ok = true -> good (Some (as_id a)) None s' /\ as_entryEpochMs a <= at_ms) s.
Proof.
  intros Hg Hown. unfold close_session. destruct (at_ms <? as_entryEpochMs a) eqn:Ht; [done|].
  apply Z.ltb_ge in Ht. apply wp_bind. unfold wp at 1, close_row.
  destruct Hown as (r & Hr & Ha). assert (Hr' := Hr). destruct Hr' as (Hr1 & Hr2 & Hr3).
  rewrite Hr1, Hr2, bool_decide_eq_true_2 by done. unfold attempt_of in Ha.
  rewrite bool_decide_eq_true_2 by done. simpl.
  destruct (existsb _ _); [done|]. set (r' := sr_set_end _ _ _ _ _).
  apply wp_bind. unfold wp at 1, update_slot. simpl.
  destruct (st_slots s !! slot_id) as [st|]; [|by apply wp_bind, wp_guard].
  apply wp_bind, wp_guard. intros _. apply wp_bind, wp_put. apply wp_bind.
  assert (Hclose : forall I,
    (forall slot x id, I !! slot = Some x -> iv_session x = Some id ->
       st_iva s !! slot = Some x /\ (slot = slot_id -> id <> as_id a)) ->
    (forall slot, slot <> slot_id -> I !! slot = st_iva s !! slot) ->
    good (Some (as_id a)) None (with_iva (with_bindings (with_slots
      (with_sessions s (<[as_id a := r']> (st_sessions s)))
      (<[slot_id := "VACANT"]> (st_slots s)))
      (update_rows (binding_of_session row a) (fun b => bi_end b at_ms) (st_bindings s))) I)).
  { intros I. by apply good_close with (r := r). }
  unfold wp at 1, clear_iva. simpl.
  assert (Hlog : forall s1, good (Some (as_id a)) None s1 ->
    wp (write_log (as_id a) slot_id e m ;! tret true)
      (fun ok s' => ok = true -> good (Some (as_id a)) None s' /\ as_entryEpochMs a <= at_ms) s1).
  { intros s1 Hs1. apply wp_bind, wp_put, wp_ret. intros _. split; [|done].
    by apply (good_ext _ _ _ _ s1). }
  destruct (st_iva s !! slot_id) as [x|] eqn:Hx; [case_bool_decide as Hxa|]; apply Hlog.
  - apply (Hclose (<[slot_id := iv_clear x]> (st_iva s))).
    + intros slot y id. destruct (decide (slot = slot_id)) as [->|Hne].
      * rewrite lookup_insert_eq. intros [= <-]. done.
      * rewrite lookup_insert_ne by done. intros Hy _. done.
    + intros slot Hne. by rewrite lookup_insert_ne.
  - eapply good_ext; [..|apply (Hclose (st_iva s))]; try done.
    intros slot y id Hy Hid. split; [done|]. intros -> ->. congruence.
  - eapply good_ext; [..|apply (Hclose (st_iva s))]; try done.
    intros slot y id Hy Hid. split; [done|]. intros ->. congruence.
Qed.
End Sessions.

(** * What each branch decides *)

Section Branches.
Context {JL : JsonLibrary} {SQL : SqlFunctions}.
Variables (command_id : string) (row : InboxRow) (payload : json) (at_ms : Z) (hybrid : bool)
  (s0 : Store).
Hypothesis (Hgood : good (ib_slot_id row) s0 None None s0).
Notation slot_id := (ib_slot_id row).
Notation good := (good slot_id s0).

(** Why a session may end: a hall sensor that reports VACANT, or an admitted exit deadline
    that still owns the pending vacancy; in hybrid mode never against the other source. *)
Definition close_cause (a : ActiveSession) : Prop :=
  find_active row s0 = Some a /\ as_entryEpochMs a <= at_ms /\
  ((ib_kind row = HallObservation /\ value_string payload "state" "" = Ok "VACANT" /\
    (hybrid = true -> as_hallConfirmed a = true /\ as_ivaConfirmed a && as_ivaOccupied a = false)) \/
   (ib_kind row = ExitDeadline /\
    exists deadline_id attempt generation,
      value_string payload "deadline_id" "" = Ok deadline_id /\
      deadline_owns row s0 deadline_id attempt (as_id a) generation = true /\
      iva_owns row s0 attempt (as_id a) generation = true /\
      (hybrid = true -> as_hallConfirmed a && as_hallOccupied a = false))).

Definition decided (d : Decision) (s' : Store) : Prop :=
  match de_code d with
  | CommittedStarted => find_active row s0 = None /\ good None (Some (de_session d)) s'
  | CommittedEnded => exists a, de_session d = as_id a /\ close_cause a /\ good (Some (as_id a)) None s'
  | _ => good None None s'
  end.

Lemma wp_then_sequence d closed created s :
  good closed created s ->
  (forall s', good closed created s' -> st_sessions s' = st_sessions s -> decided d s') ->
  wp (commit_sequence command_id row payload ;! tret d) decided s.
Proof.
  intros Hg Hd. apply wp_bind. eapply wp_mono; [|apply wp_commit_sequence; exact Hg].
  intros _ s' [Hg' He]. apply wp_ret. by apply Hd.
Qed.

Lemma wp_hall_occupied : wp (hall_occupied command_id row payload at_ms hybrid) decided s0.
Proof.
  unfold hall_occupied. apply wp_bind, wp_get. destruct (find_active row s0) as [a|] eqn:Ha.
  - apply wp_bind. eapply wp_mono; [|apply (wp_update_open_session row s0 None None _ (as_attemptId a));
      [done|by apply active_owned|done]].
    intros _ s1 (Hg1 & _ & _). apply (wp_then_sequence _ None None); [done|]. intros s' Hg' _. done.
  - apply wp_bind. eapply wp_mono; [|by apply wp_create_session].
    intros id s1 [Hg1 _]. apply (wp_then_sequence _ None (Some id)); [done|].
    intros s' Hg' _. by split.
Qed.

Lemma wp_hall_vacant :
  ib_kind row = HallObservation -> value_string payload "state" "" = Ok "VACANT" ->
  wp (hall_vacant command_id row payload at_ms hybrid) decided s0.
Proof.
  intros Hkind Hstate. unfold hall_vacant. apply wp_bind, wp_get.
  destruct (find_active row s0) as [a|] eqn:Ha.
  - destruct (at_ms <? as_entryEpochMs a) eqn:Ht; [done|]. apply Z.ltb_ge in Ht.
    destruct (hybrid && negb (as_hallConfirmed a))%bool eqn:Hh.
    + apply (wp_then_sequence _ None None); [done|]. by intros s' Hg' _.
    + apply wp_bind. eapply wp_mono; [|apply (wp_update_open_session row s0 None None _ (as_attemptId a));
        [done|by apply active_owned|done]].
      intros _ s1 (Hg1 & Hown & _).
      destruct (hybrid && as_ivaConfirmed a && as_ivaOccupied a)%bool eqn:Hi.
      * apply (wp_then_sequence _ None None); [done|]. by intros s' Hg' _.
      * apply wp_bind. eapply wp_mono; [|by apply (wp_close_session command_id row at_ms s0)].
        intros ok s2 Hok. apply wp_bind, wp_guard. intros ->. destruct (Hok eq_refl) as [Hg2 _].
        apply (wp_then_sequence _ (Some (as_id a)) None); [done|]. intros s' Hg' _.
        exists a. split; [done|]. split; [|done]. split; [done|]. split; [done|]. left.
        split; [done|]. split; [done|]. intros Hy. rewrite Hy in Hh, Hi. simpl in *.
        split; [by destruct (as_hallConfirmed a)|done].
  - apply wp_bind. eapply wp_mono; [|by apply (wp_vacant row s0 None None)].
    intros n s1 Hg1. apply (wp_then_sequence _ None None); [done|]. by intros s' Hg' _.
Qed.

Lemma wp_apply_hall :
  ib_kind row = HallObservation -> wp (apply_hall command_id row payload at_ms hybrid) decided s0.
Proof.
  intros Hkind. unfold apply_hall. apply wp_bind, wp_lift. intros state Hstate.
  apply wp_bind, wp_guard. intros Hb. apply wp_bind, wp_lift. intros fact _.
  apply wp_bind, wp_get. destruct (negb _); [done|].
  case_bool_decide as Hocc; [apply wp_hall_occupied|].
  apply wp_hall_vacant; [done|]. rewrite Hstate. simpl in Hb. by apply bool_decide_eq_true_1 in Hb as ->.
Qed.

(** * Camera observations *)

Lemma good_supersede s :
  good None None s ->
  good None None (with_deadlines s
    (update_rows (fun d => bool_decide (dl_slot_id d = slot_id) &&
                           bool_decide (dl_state d = DeadlineScheduled))
       (fun d => dl_set_state d DeadlineSuperseded) (st_deadlines s))).
Proof.
  intros Hg. apply good_deadlines; [done|].
  destruct Hg as [[_ _ _ _ Hu] _ _]. intros id1 id2 d1 d2 H1 H2 Hl1 Hl2 Hs.
  unfold update_rows in *. rewrite lookup_fmap_Some in H1, H2.
  destruct H1 as (e1 & <- & He1), H2 as (e2 & <- & He2).
  destruct (_ && _)%bool in Hl1, Hs; [done|]. destruct (_ && _)%bool in Hl2, Hs; [done|].
  by eapply Hu.
Qed.

Lemma wp_camera_intrusion k c ar g o s :
  s = s0 -> wp (camera_intrusion command_id row payload at_ms hybrid k c ar g o) decided s.
Proof.
  intros ->. unfold camera_intrusion. apply wp_bind, wp_lift. intros [was ar1] _.
  apply wp_bind, wp_lift. intros ar2 _. apply wp_bind, wp_put. apply wp_bind, wp_get.
  pose proof (good_supersede s0 Hgood) as Hg1. set (s1 := with_deadlines _ _) in *.
  set (found := find_active row s1). destruct found as [a|] eqn:Ha; subst found.
  - apply wp_bind, wp_bind.
    eapply wp_mono; [|apply (wp_update_open_session row s0 None None _ (as_attemptId a));
      [done|by apply active_owned|done]].
    intros _ s2 (Hg2 & Hown & _). apply wp_ret. apply wp_bind.
    eapply wp_mono; [|apply (wp_persist_iva command_id row s0 None None); [done|by intros ? [= <-]]].
    intros _ s3 [Hg3 He3]. apply wp_bind.
    eapply wp_mono; [|apply (wp_commit_correlation command_id row payload at_ms s0 None None);
      [done|by eapply owns_session_ext]].
    by intros cid s4 Hg4.
  - apply wp_bind, wp_bind. eapply wp_mono; [|by apply (wp_create_session command_id row at_ms s0)].
    intros id s2 [Hg2 Hown]. apply wp_ret. apply wp_bind.
    eapply wp_mono; [|apply (wp_persist_iva command_id row s0 None (Some id)); [done|by intros ? [= <-]]].
    intros _ s3 [Hg3 He3]. apply wp_bind.
    eapply wp_mono; [|apply (wp_commit_correlation command_id row payload at_ms s0 None (Some id));
      [done|by eapply owns_session_ext]].
    intros cid s4 Hg4. by split.
Qed.

Lemma live_deadline_none s d :
  existsb (fun kv => bool_decide (dl_slot_id kv.2 = dl_slot_id d) && deadline_live kv.2)
    (map_to_list (st_deadlines s)) = false ->
  forall id x, st_deadlines s !! id = Some x -> deadline_live x = true -> dl_slot_id x <> dl_slot_id d.
Proof.
  intros Hex id x Hx Hl Hs. rewrite <-not_true_iff_false in Hex. apply Hex, existsb_exists.
  exists (id, x). split; [by apply list_elem_of_In, elem_of_map_to_list|]. simpl.
  by rewrite bool_decide_eq_true_2, Hl.
Qed.

Lemma wp_insert_deadline id d s :
  good None None s ->
  wp (insert_deadline id d) (fun _ s' => good None None s' /\ st_sessions s' = st_sessions s) s.
Proof.
  intros Hg. unfold wp, insert_deadline. destruct (_ || _)%bool eqn:E; [done|]. split; [|done].
  apply good_deadlines; [done|]. split_bool. pose proof (live_deadline_none _ _ H2) as Hn.
  destruct Hg as [[_ _ _ _ Hu] _ _]. intros id1 id2 d1 d2 H1' H2' Hl1 Hl2 Hs.
  apply lookup_insert_Some in H1' as [[<- <-]|[_ H1']], H2' as [[<- <-]|[_ H2']]; [done|..].
  - by destruct (Hn _ _ H2' Hl2).
  - by destruct (Hn _ _ H1' Hl1).
  - by eapply Hu.
Qed.

Lemma wp_schedule_exit a g c ar s :
  good None None s -> find_active row s = Some a ->
  wp (schedule_exit command_id row payload hybrid a g c ar) decided s.
Proof.
  intros Hg Ha. unfold schedule_exit. apply wp_bind, wp_get, wp_bind.
  eapply (wp_mono _ (fun _ s' => good None None s' /\ st_sessions s' = st_sessions s)).
  - intros _ s1 [Hg1 He1]. apply wp_bind.
    eapply wp_mono; [|apply (wp_persist_iva command_id row s0 None None); [done|]].
    + by intros _ s2 [Hg2 _].
    + intros ? [= <-]. eapply owns_session_ext; [done|]. by apply active_owned.
  - destruct (has_live_deadline row s); [done|]. apply wp_bind, wp_lift. intros due _.
    by apply wp_insert_deadline.
Qed.

Lemma wp_camera_exit k c ar g found s :
  good None None s -> found = find_active row s ->
  wp (camera_exit command_id row payload hybrid k c ar g found) decided s.
Proof.
  intros Hg ->. unfold camera_exit. apply wp_bind, wp_lift. intros [was ar1] _.
  apply wp_bind, wp_lift. intros ar2 _. apply wp_bind, wp_lift. intros [[known active] ar3] _.
  destruct (find_active row s) as [a|] eqn:Ha.
  - destruct (_ || _)%bool; [|by apply wp_schedule_exit].
    apply wp_bind. eapply wp_mono; [|apply (wp_persist_iva command_id row s0 None None); [done|]].
    + by intros _ s2 [Hg2 _].
    + intros ? [= <-]. by apply active_owned.
  - apply wp_bind. eapply wp_mono; [|apply (wp_persist_iva command_id row s0 None None); [done|done]].
    by intros _ s2 [Hg2 _].
Qed.

Lemma wp_apply_camera : wp (apply_camera command_id row payload at_ms hybrid) decided s0.
Proof.
  unfold apply_camera. apply wp_bind, wp_lift. intros action _. apply wp_bind, wp_lift.
  intros authoritative _. apply wp_bind, wp_lift. intros authority _. apply wp_bind, wp_lift.
  intros area_key _. apply wp_bind, wp_lift. intros object_id _. apply wp_bind, wp_lift.
  intros configured _.
  destruct configured as [| | | | |[|area areas]|]; try apply wp_fail.
  apply wp_bind, wp_guard. intros _.
  destruct authority; simpl.
  2: { unfold camera_without_authority. apply wp_bind, wp_guard. intros _. apply wp_bind, wp_get.
    destruct (find_active row s0) as [a|] eqn:Ha; [|done]. apply wp_bind.
    eapply wp_mono; [|apply (wp_commit_correlation command_id row payload at_ms s0 None None);
      [done|by apply active_owned]].
    by intros cid s1 Hg1. }
  unfold camera_with_authority. apply wp_bind. unfold wp at 1.
  destruct (load_iva _ _ _) as [[[[attempt g] o] ar]|]; [|done].
  apply wp_bind, wp_get.
  cbv zeta.
  set (found := if bool_decide (action = "EXIT") then find_active row s0 else None).
  assert (Hrest :
    wp (if bool_decide (action = "ENTER") || (bool_decide (action = "EXIT") && negb authoritative)
        then tret (mkDecision NoChange (stored_session row) (ib_correlation_id row) attempt g
                     "camera action ignored by occupancy policy")
        else if bool_decide (action = "INTRUSION")
        then camera_intrusion command_id row payload at_ms hybrid area_key
               (JArray (area :: areas)) ar g o
        else if bool_decide (action = "EXIT")
        then camera_exit command_id row payload hybrid area_key (area :: areas) ar g found
        else tfail (InvalidArgument "unsupported camera action")) decided s0).
  { destruct (_ || _)%bool; [done|].
    destruct (bool_decide (action = "INTRUSION")); [by apply wp_camera_intrusion|].
    subst found. destruct (bool_decide (action = "EXIT")); [|done]. by apply wp_camera_exit. }
  destruct found as [a|]; [|exact Hrest].
  destruct (at_ms <? as_entryEpochMs a); [done|exact Hrest].
Qed.

(** * Exit deadlines *)

Lemma wp_set_admitted id st s :
  good None None s -> (st = DeadlineSuperseded \/ st = DeadlineApplied) ->
  wp (set_admitted_deadline id st) (fun _ s' => good None None s' /\ st_sessions s' = st_sessions s) s.
Proof.
  intros Hg Hst. unfold wp, set_admitted_deadline.
  destruct (st_deadlines s !! id) as [d|] eqn:Hd; [|done]. destruct (bool_decide _); [|done].
  split; [|done]. apply good_deadlines; [done|]. destruct Hg as [[_ _ _ _ Hu] _ _].
  intros id1 id2 d1 d2 H1 H2 Hl1 Hl2 Hs.
  destruct (decide (id1 = id)) as [->|Hne1].
  { rewrite lookup_insert_eq in H1. injection H1 as <-. by destruct Hst as [-> | ->]. }
  destruct (decide (id2 = id)) as [->|Hne2].
  { rewrite lookup_insert_eq in H2. injection H2 as <-. by destruct Hst as [-> | ->]. }
  rewrite lookup_insert_ne in H1, H2 by done. by eapply Hu.
Qed.

Lemma wp_deadline_close a deadline_id attempt g iva :
  ib_kind row = ExitDeadline -> value_string payload "deadline_id" "" = Ok deadline_id ->
  find_active row s0 = Some a ->
  deadline_owns row s0 deadline_id attempt (as_id a) g = true ->
  iva_owns row s0 attempt (as_id a) g = true ->
  wp (deadline_close command_id row at_ms hybrid a deadline_id g iva) decided s0.
Proof.
  intros Hkind Hid Ha Hd Hi. unfold deadline_close. apply wp_bind.
  eapply wp_mono; [|apply (wp_update_open_session row s0 None None _ (as_attemptId a));
    [done|by apply active_owned|done]].
  intros _ s1 (Hg1 & Hown1 & _). apply wp_bind.
  eapply wp_mono; [|apply wp_set_admitted; [done|by right]]. intros _ s2 [Hg2 He2].
  apply (owns_session_ext s1 s2 _ _ _ He2) in Hown1.
  apply wp_bind, wp_lift. intros c _. apply wp_bind, wp_lift. intros ar _.
  destruct (hybrid && as_hallConfirmed a && as_hallOccupied a)%bool eqn:Hh.
  - apply wp_bind. eapply wp_mono; [|apply (wp_persist_iva command_id row s0 None None);
      [done|by intros ? [= <-]]]. by intros _ s3 [Hg3 _].
  - apply wp_bind. eapply wp_mono; [|by apply (wp_close_session command_id row at_ms s0)].
    intros ok s3 Hok. apply wp_bind, wp_guard. intros ->. destruct (Hok eq_refl) as [Hg3 Ht].
    apply wp_bind. eapply wp_mono;
      [|apply (wp_persist_iva command_id row s0 (Some (as_id a)) None); [done|done]].
    intros _ s4 [Hg4 _]. exists a. split; [done|]. split; [|done]. split; [done|]. split; [done|].
    right. split; [done|]. exists deadline_id, attempt, g. split_and!; try done.
    intros Hy. by rewrite Hy in Hh.
Qed.

Lemma wp_apply_deadline :
  ib_kind row = ExitDeadline ->
  wp (apply_deadline command_id row payload at_ms hybrid) decided s0.
Proof.
  intros Hkind. unfold apply_deadline. apply wp_bind, wp_lift. intros deadline_id Hid.
  apply wp_bind, wp_lift. intros session _. apply wp_bind, wp_lift. intros g _.
  apply wp_bind, wp_lift. intros attempt _. apply wp_bind, wp_get.
  destruct (deadline_owns _ _ _ _ _ _) eqn:Hd; [|done]. simpl.
  do 3 apply wp_bind, wp_get.
  assert (Hstale : wp (set_admitted_deadline deadline_id DeadlineSuperseded ;!
    tret (decide_as row StaleGeneration (stored_session row) "exit deadline generation is stale"))
    decided s0).
  { apply wp_bind. eapply wp_mono; [|apply wp_set_admitted; [done|by left]]. by intros _ s1 [Hg1 _]. }
  destruct (find_active row s0) as [a|] eqn:Ha; [|done].
  destruct (st_iva s0 !! slot_id) as [iva|] eqn:Hiva; [|done].
  destruct (_ || _)%bool eqn:Eo; [done|]. split_bool. apply Z.eqb_eq in H1. subst session.
  by eapply wp_deadline_close.
Qed.

Lemma wp_apply_branch : wp (apply_branch command_id row payload at_ms hybrid) decided s0.
Proof.
  unfold apply_branch. destruct (ib_kind row) eqn:Hk;
    [by apply wp_apply_hall|apply wp_apply_camera|by apply wp_apply_deadline].
Qed.
End Branches.
