(* ===== verification/OccupancyStore.v ===== *)
(** Histories of the durable occupancy store: the invariants along any sequence of its
    operations, the causes that end a session, and the durability of admissions. *)
From stdpp Require Import sorting relations.
From S2P Require Import Prelude SensorProtocol SequencePolicy SlotConfig OccupancyDb.
From S2P Require Import OccupancyAdmission OccupancyApply OccupancyInvariant.

(** * How the inbox changes *)

(** One change of the inbox: progress of a row, a new row without a clash, or the removal
    of settled rows. *)
Inductive inbox_step : bool -> gmap string InboxRow -> gmap string InboxRow -> Prop :=
| inbox_progress p inbox id r r' :
    inbox !! id = Some r -> ib_facts r' = ib_facts r -> inbox_step p inbox (<[id := r']> inbox)
| inbox_insert p inbox id r :
    inbox_clash inbox id r = false -> inbox_step p inbox (<[id := r]> inbox)
| inbox_remove inbox inbox' : inbox' ⊆ inbox -> inbox_step true inbox inbox'.

(** [true] when removals are allowed. *)
Definition inbox_reach (p : bool) := rtc (inbox_step p).

Lemma inbox_step_facts inbox inbox' id r :
  inbox_step false inbox inbox' -> inbox !! id = Some r ->
  exists r', inbox' !! id = Some r' /\ ib_facts r' = ib_facts r.
Proof.
  inversion 1 as [? ? i x x' Hx Hf|? ? i x Hc|]; subst; intros Hr.
  - destruct (decide (id = i)) as [->|Hne].
    + exists x'. rewrite lookup_insert_eq. split; congruence.
    + exists r. by rewrite lookup_insert_ne.
  - apply inbox_clash_false in Hc as [Hn _]. exists r. rewrite lookup_insert_ne; [done|congruence].
Qed.

Lemma inbox_reach_facts inbox inbox' id r :
  inbox_reach false inbox inbox' -> inbox !! id = Some r ->
  exists r', inbox' !! id = Some r' /\ ib_facts r' = ib_facts r.
Proof.
  intros Hreach. revert r. induction Hreach as [x|x y z Hxy _ IH]; intros r Hr; [by exists r|].
  destruct (inbox_step_facts _ _ _ _ Hxy Hr) as (r1 & Hr1 & Hf1).
  destruct (IH _ Hr1) as (r2 & Hr2 & Hf2). exists r2. split; [done|congruence].
Qed.

(** The identity and the ordinal of a row are facts. *)
Definition ib_key (r : InboxRow) := (ib_kind r, ib_source_identity r).

Lemma facts_key r r' : ib_facts r' = ib_facts r -> ib_key r' = ib_key r /\ ib_ordinal r' = ib_ordinal r.
Proof.
  unfold ib_facts, ib_key. intros H. injection H as _ Hk _ Hi _ _ _ _ Ho _. by rewrite Hk, Hi, Ho.
Qed.

(** A family of rows that a function of their facts tells apart. *)
Definition separated {B} (f : InboxRow -> B) (inbox : gmap string InboxRow) : Prop :=
  forall id1 id2 r1 r2, inbox !! id1 = Some r1 -> inbox !! id2 = Some r2 -> f r1 = f r2 -> id1 = id2.

Lemma separated_step {B} (f : InboxRow -> B) p inbox inbox' :
  (forall r r', ib_facts r' = ib_facts r -> f r' = f r) ->
  (forall inbox id r, inbox_clash inbox id r = false ->
     forall id' r', inbox !! id' = Some r' -> f r' <> f r) ->
  separated f inbox -> inbox_step p inbox inbox' -> separated f inbox'.
Proof.
  intros Hfacts Hclash Hs. inversion 1 as [? ? i x x' Hx Hf|? ? i x Hc|? ? Hsub]; subst;
    intros id1 id2 r1 r2 H1 H2 He.
  - apply Hfacts in Hf. apply lookup_insert_Some in H1 as [[<- <-]|[_ H1]], H2 as [[<- <-]|[_ H2]];
      [done|..]; eapply Hs; eauto; congruence.
  - apply lookup_insert_Some in H1 as [[<- <-]|[_ H1]], H2 as [[<- <-]|[_ H2]];
      [done| | |by eapply Hs].
    + by destruct (Hclash _ _ _ Hc _ _ H2).
    + by destruct (Hclash _ _ _ Hc _ _ H1).
  - eapply Hs; [by eapply lookup_weaken|by eapply lookup_weaken|done].
Qed.

Definition unique_inbox (inbox : gmap string InboxRow) : Prop :=
  separated ib_key inbox /\ separated ib_ordinal inbox.

Lemma unique_inbox_reach p inbox inbox' :
  inbox_reach p inbox inbox' -> unique_inbox inbox -> unique_inbox inbox'.
Proof.
  induction 1 as [|x y z Hxy _ IH]; [done|]. intros [H1 H2]. apply IH. split.
  - eapply separated_step; [by intros ? ? []%facts_key| |done|done].
    intros inbox0 id r Hc id' r' Hr'. by apply (proj2 (inbox_clash_false _ _ _ Hc) id').
  - eapply separated_step; [by intros ? ? []%facts_key| |done|done].
    intros inbox0 id r Hc id' r' Hr'. by apply (proj2 (inbox_clash_false _ _ _ Hc) id').
Qed.

(** * The operations *)

Section Histories.
Context {JL : JsonLibrary} {SQL : SqlFunctions}.

Inductive store_op :=
| OpAdmit (now_sec : Z) (command : SlotTransitionCommand) (capacity : N)
| OpAdmitDue (now_sec now_ms : Z) (capacity : N) (blocked : list string)
| OpApply (id : string)
| OpDefer (id : string) (next : Z) (error : string)
| OpComplete (id : string)
| OpDeferEffect (id : string) (next : Z) (error : string)
| OpPurge (before : Z) (limit : nat).

Definition store_step (s : Store) (op : store_op) : Store :=
  match op with
  | OpAdmit now_sec command capacity => (admitSlotTransitionCommand true now_sec command capacity s).2
  | OpAdmitDue now_sec now_ms capacity blocked =>
      (admitDueSlotDeadlines true now_sec now_ms capacity blocked s).2
  | OpApply id => (applySlotTransitionCommand true id s).2
  | OpDefer id next error => (deferSlotTransitionCommand true id next error s).2
  | OpComplete id => (completeSlotTransitionEffects true id s).2
  | OpDeferEffect id next error => (deferSlotTransitionEffects true id next error s).2
  | OpPurge before limit => (purgeSettledSlotTransitionCommands true before limit s).2
  end.
Definition store_run : Store -> list store_op -> Store := foldl store_step.

Definition is_purge (op : store_op) : bool := match op with OpPurge _ _ => true | _ => false end.

(** What an operation other than an application keeps: everything but the inbox and the
    state of scheduled deadlines. *)
Record inbox_only (s s' : Store) : Prop := {
  io_slots : st_slots s' = st_slots s;
  io_sessions : st_sessions s' = st_sessions s;
  io_seq : st_session_seq s' = st_session_seq s;
  io_bindings : st_bindings s' = st_bindings s;
  io_iva : st_iva s' = st_iva s;
  io_deadlines : unique_live_deadlines (st_deadlines s) -> unique_live_deadlines (st_deadlines s')
}.

Lemma inbox_only_refl s : inbox_only s s.
Proof. done. Qed.
Lemma inbox_only_trans s1 s2 s3 : inbox_only s1 s2 -> inbox_only s2 s3 -> inbox_only s1 s3.
Proof. intros [] []. split; try congruence. auto. Qed.
Lemma inbox_only_with_inbox s x : inbox_only s (with_inbox s x).
Proof. done. Qed.

Lemma admission_inbox command capacity now_sec s s' :
  admission command capacity now_sec s s' ->
  inbox_only s s' /\ inbox_reach false (st_inbox s) (st_inbox s').
Proof.
  intros [_ _ (s1 & cid & _ & Hs1 & _ & _ & Hc & ->) _].
  destruct Hs1 as [->|(id & r & Hr & _ & ->)]; (split; [done|]).
  - apply rtc_once. simpl. by constructor.
  - apply (rtc_l _ _ (<[id := cancel_candidate r]> (st_inbox s))).
    + by econstructor.
    + apply rtc_once. simpl in *. by constructor.
Qed.

(** * Deadlines that fall due *)

Lemma mark_admitted_step id cmd s n s' :
  mark_admitted id cmd s = Ok (n, s') -> inbox_only s s' /\ st_inbox s' = st_inbox s.
Proof.
  unfold mark_admitted. destruct (st_deadlines s !! id) as [d|] eqn:Hd; [|by intros [= <- <-]].
  case_bool_decide as Hst; simpl; [|by intros [= <- <-]].
  destruct (existsb _ _); [done|]. intros [= <- <-]. split; [|done]. split; try done. simpl.
  intros Hu id1 id2 d1 d2 H1 H2 Hl1 Hl2 Hs.
  assert (Hlive : deadline_live d = true) by (unfold deadline_live; by rewrite Hst).
  apply lookup_insert_Some in H1 as [[<- <-]|[_ H1]], H2 as [[<- <-]|[_ H2]]; [done|..];
    eapply Hu; eauto.
Qed.

Lemma insert_or_ignore_step id r s u s' :
  insert_or_ignore id r s = Ok (u, s') ->
  inbox_only s s' /\ inbox_reach false (st_inbox s) (st_inbox s').
Proof.
  unfold insert_or_ignore. destruct (inbox_clash _ _ _) eqn:Hc; [intros [= <- <-]; split; [done|constructor]|].
  destruct (bool_decide _); [done|]. intros [= <- <-]. split; [done|]. apply rtc_once. by constructor.
Qed.

Lemma admit_deadlines_step due ord now n s k s' :
  admit_deadlines due ord now n s = Ok (k, s') ->
  inbox_only s s' /\ inbox_reach false (st_inbox s) (st_inbox s').
Proof.
  revert ord n s. induction due as [|[id d] due IH]; intros ord n s; simpl.
  - intros [= <- <-]. split; [done|constructor].
  - unfold tbind. destruct (insert_or_ignore _ _ s) as [[u s1]|] eqn:E1; [|done].
    destruct (mark_admitted _ _ s1) as [[c s2]|] eqn:E2; [|done]. intros H.
    apply insert_or_ignore_step in E1 as [Ha1 Hb1]. apply mark_admitted_step in E2 as [Ha2 Hb2].
    apply IH in H as [Ha3 Hb3]. rewrite Hb2 in Hb3. split; [|unfold inbox_reach in *; by etrans].
    eapply inbox_only_trans; [done|]. by eapply inbox_only_trans.
Qed.

Lemma foldr_delete_subset (l : list (string * InboxRow)) (m : gmap string InboxRow) :
  foldr (fun kv inbox => delete kv.1 inbox) m l ⊆ m.
Proof. induction l as [|x l IH]; simpl; [done|]. etrans; [apply delete_subseteq|done]. Qed.

Lemma update_pending_effect_step id f s :
  (forall r, ib_facts (f r) = ib_facts r) ->
  inbox_only s (update_pending_effect id f s).2 /\
  inbox_reach false (st_inbox s) (st_inbox (update_pending_effect id f s).2).
Proof.
  intros Hf. unfold update_pending_effect.
  destruct (st_inbox s !! id) as [r|] eqn:Hr; [|split; [done|constructor]].
  destruct (effect_pending r); [|split; [done|constructor]]. split; [done|].
  apply rtc_once. by econstructor.
Qed.

(** Every operation moves the inbox by such steps. *)
Lemma inbox_reach_weaken p inbox inbox' : inbox_reach false inbox inbox' -> inbox_reach p inbox inbox'.
Proof.
  induction 1 as [|x y z Hxy _ IH]; [constructor|]. eapply rtc_l; [|done].
  inversion Hxy; subst; by econstructor.
Qed.

Lemma apply_inbox id s : inbox_reach false (st_inbox s) (st_inbox (applySlotTransitionCommand true id s).2).
Proof.
  destruct (applySlotTransitionCommand true id s) as [o s'] eqn:E.
  apply apply_cases in E. destruct E as [o|row e o Hr|row x what o Hr
    |row payload tr at_ms policy d s1 o Hr _ _ _ _ Hi _]; [constructor|apply rtc_once..].
  - by econstructor.
  - by econstructor.
  - simpl. rewrite Hi. by econstructor.
Qed.

(** The operations other than applications. *)
Lemma other_step op s :
  match op with OpApply _ => True | _ =>
    inbox_only s (store_step s op) /\
    inbox_reach (is_purge op) (st_inbox s) (st_inbox (store_step s op)) end.
Proof.
  destruct op as [now command cap|now ms cap bl|id|id next err|id|id next err|before limit]; simpl; [..|].
  - pose proof (admission_or_unchanged true now command cap s) as Ha.
    destruct (admitSlotTransitionCommand _ _ _ _ _) as [r s']. simpl. case_bool_decide.
    + by eapply admission_inbox.
    + subst. split; [done|constructor].
  - unfold admitDueSlotDeadlines. destruct (_ || _)%bool; [split; [done|constructor]|].
    destruct (bool_decide _); [split; [done|constructor]|].
    destruct (_ <=? _); [split; [done|constructor]|].
    destruct (admit_deadlines _ _ _ _ s) as [[k s']|] eqn:E; [|split; [done|constructor]].
    by eapply admit_deadlines_step.
  - done.
  - unfold deferSlotTransitionCommand. destruct (_ || _)%bool; [split; [done|constructor]|].
    destruct (st_inbox s !! id) as [r|] eqn:Hr; [|split; [done|constructor]].
    destruct (pending r); [|split; [done|constructor]]. split; [done|]. apply rtc_once. by econstructor.
  - unfold completeSlotTransitionEffects. destruct (_ || _)%bool; [split; [done|constructor]|].
    by apply update_pending_effect_step.
  - unfold deferSlotTransitionEffects. destruct (_ || _)%bool; [split; [done|constructor]|].
    by apply update_pending_effect_step.
  - unfold purgeSettledSlotTransitionCommands. destruct (_ || _)%bool; [split; [done|constructor]|].
    split; [done|]. apply rtc_once. constructor. apply foldr_delete_subset.
Qed.

Lemma step_inbox op s : inbox_reach (is_purge op) (st_inbox s) (st_inbox (store_step s op)).
Proof.
  pose proof (other_step op s) as H. destruct op; try (by destruct H). apply apply_inbox.
Qed.

(** * The payloads of the stored hall commands *)

Definition hall_payloads_ok (inbox : gmap string InboxRow) : Prop :=
  forall id r, inbox !! id = Some r -> ib_kind r = HallObservation ->
    exists payload, json_parse (ib_payload r) = Ok payload.

Lemma hall_payloads_progress inbox id r r' :
  inbox !! id = Some r -> ib_facts r' = ib_facts r ->
  hall_payloads_ok inbox -> hall_payloads_ok (<[id := r']> inbox).
Proof.
  intros Hr Hf Hok id' x Hx Hk. apply lookup_insert_Some in Hx as [[<- <-]|[_ Hx]]; [|by eapply Hok].
  unfold ib_facts in Hf. injection Hf as _ Hkind _ _ _ _ Hp _ _ _. rewrite Hp.
  apply (Hok id r Hr). congruence.
Qed.

Lemma hall_payloads_insert inbox id r :
  (ib_kind r = HallObservation -> exists payload, json_parse (ib_payload r) = Ok payload) ->
  hall_payloads_ok inbox -> hall_payloads_ok (<[id := r]> inbox).
Proof.
  intros Hr Hok id' x Hx Hk. apply lookup_insert_Some in Hx as [[<- <-]|[_ Hx]]; [by apply Hr|by eapply Hok].
Qed.

Lemma hall_payloads_admission command capacity now_sec s s' :
  admission command capacity now_sec s s' ->
  hall_payloads_ok (st_inbox s) -> hall_payloads_ok (st_inbox s').
Proof.
  intros [_ Ha (s1 & cid & _ & Hs1 & _ & _ & _ & ->) _] Hok. simpl.
  apply hall_payloads_insert.
  - intros Hk. destruct (Ha Hk) as (payload & _ & Hp & _). by exists payload.
  - destruct Hs1 as [->|(id & r & Hr & _ & ->)]; [done|]. simpl. by eapply hall_payloads_progress.
Qed.

Lemma hall_payloads_deadlines due ord now n s k s' :
  admit_deadlines due ord now n s = Ok (k, s') ->
  hall_payloads_ok (st_inbox s) -> hall_payloads_ok (st_inbox s').
Proof.
  revert ord n s. induction due as [|[id d] due IH]; intros ord n s; simpl; [by intros [= <- <-]|].
  unfold tbind. destruct (insert_or_ignore _ _ s) as [[u s1]|] eqn:E1; [|done].
  destruct (mark_admitted _ _ s1) as [[c s2]|] eqn:E2; [|done]. intros H Hok.
  apply (IH _ _ _ H). apply mark_admitted_step in E2 as [_ ->].
  unfold insert_or_ignore in E1. destruct (inbox_clash _ _ _); [by injection E1 as _ <-|].
  destruct (bool_decide _); [done|]. injection E1 as _ <-. simpl. by apply hall_payloads_insert.
Qed.

Lemma hall_payloads_effect id f s :
  (forall r, ib_facts (f r) = ib_facts r) ->
  hall_payloads_ok (st_inbox s) -> hall_payloads_ok (st_inbox (update_pending_effect id f s).2).
Proof.
  intros Hf Hok. unfold update_pending_effect. destruct (st_inbox s !! id) as [r|] eqn:Hr; [|done].
  destruct (effect_pending r); [|done]. by eapply hall_payloads_progress.
Qed.

Lemma hall_payloads_apply id s :
  hall_payloads_ok (st_inbox s) -> hall_payloads_ok (st_inbox (applySlotTransitionCommand true id s).2).
Proof.
  intros Hok. destruct (applySlotTransitionCommand true id s) as [o s'] eqn:E.
  apply apply_cases in E. destruct E as [o|row e o Hr|row x what o Hr
    |row payload tr at_ms policy d s1 o Hr _ _ _ _ Hi _]; simpl; rewrite ?Hi;
    [done|by eapply hall_payloads_progress..].
Qed.

Lemma hall_payloads_step op s :
  hall_payloads_ok (st_inbox s) -> hall_payloads_ok (st_inbox (store_step s op)).
Proof.
  intros Hok. destruct op as [now command cap|now ms cap bl|id|id next err|id|id next err|before limit]; simpl.
  - pose proof (admission_or_unchanged true now command cap s) as Ha.
    destruct (admitSlotTransitionCommand _ _ _ _ _) as [r s']. simpl. case_bool_decide; [|by subst].
    by eapply hall_payloads_admission.
  - unfold admitDueSlotDeadlines. destruct (_ || _)%bool; [done|]. destruct (bool_decide _); [done|].
    destruct (_ <=? _); [done|].
    destruct (admit_deadlines _ _ _ _ s) as [[k s']|] eqn:E; [|done]. by eapply hall_payloads_deadlines.
  - by apply hall_payloads_apply.
  - unfold deferSlotTransitionCommand. destruct (_ || _)%bool; [done|].
    destruct (st_inbox s !! id) as [r|] eqn:Hr; [|done].
    destruct (pending r); [|done]. by eapply hall_payloads_progress.
  - unfold completeSlotTransitionEffects. destruct (_ || _)%bool; [done|]. by apply hall_payloads_effect.
  - unfold deferSlotTransitionEffects. destruct (_ || _)%bool; [done|]. by apply hall_payloads_effect.
  - unfold purgeSettledSlotTransitionCommands. destruct (_ || _)%bool; [done|].
    intros id r Hr. apply (Hok id). eapply lookup_weaken; [done|apply foldr_delete_subset].
Qed.

(** Every hall command in the inbox has a payload that the JSON parser read. *)
Lemma hall_payloads_parse ops s :
  hall_payloads_ok (st_inbox s) -> hall_payloads_ok (st_inbox (store_run s ops)).
Proof.
  revert s. induction ops as [|op ops IH]; intros s Hok; [done|]. by apply IH, hall_payloads_step.
Qed.

(** * The invariants along a history *)

Record invariant (s : Store) : Prop := {
  in_consistent : consistent s;
  in_owned : owned s;
  in_inbox : unique_inbox (st_inbox s)
}.

Lemma inbox_only_invariants s s' : inbox_only s s' -> consistent s -> owned s -> consistent s' /\ owned s'.
Proof.
  intros [H1 H2 H3 H4 H5 H6] [C1 C2 C3 C4 C5] [O1 O2].
  unfold owns_session, open_session_of in *.
  split; split; unfold owns_session, open_session_of; rewrite ?H1, ?H2, ?H3, ?H4, ?H5; auto.
Qed.

(** What an application does to the tables, from a store with the invariants. *)
Lemma apply_touched id s o s' :
  consistent s -> owned s -> applySlotTransitionCommand true id s = (o, s') ->
  (st_sessions s' = st_sessions s /\ consistent s' /\ owned s' /\
     st_slots s' = st_slots s /\ st_iva s' = st_iva s) \/
  exists row payload transport at_ms policy d,
    st_inbox s !! id = Some row /\ read_payload row = Ok (payload, transport, at_ms) /\
    ib_status row = PendingUnprepared /\
    value_string payload "occupancy_policy" "" = Ok policy /\
    o = outcome_of_decision id row d at_ms transport /\
    decided row payload at_ms (bool_decide (policy = "HYBRID_OR")) s d s'.
Proof.
  intros Hc Ho E. apply apply_cases in E. destruct E as [o|row e o Hr|row x what o Hr
    |row payload tr at_ms policy d s1 o Hr Hp Hst Hpol Hb Hi ->].
  - by left.
  - left. unfold reject_row. split_and!; try done; [by apply (consistent_ext s)|by apply (owned_ext s)].
  - left. unfold reject_row. split_and!; try done; [by apply (consistent_ext s)|by apply (owned_ext s)].
  - right. exists row, payload, tr, at_ms, policy, d. split_and!; try done.
    assert (Hg : good (ib_slot_id row) s None None s) by (split; [done..|apply touched_refl]).
    pose proof (wp_ok _ _ _ _ _ (wp_apply_branch id row payload at_ms _ s Hg) Hb) as Hd.
    unfold decided in *. destruct (de_code d); try (by apply (good_ext _ _ _ _ s1)).
    + destruct Hd as [Hn Hd]. split; [done|]. by apply (good_ext _ _ _ _ s1).
    + destruct Hd as (a & H1 & H2 & Hd). exists a. split_and!; try done.
      by apply (good_ext _ _ _ _ s1).
Qed.

Lemma decided_good row payload at_ms hybrid s d s' :
  decided row payload at_ms hybrid s d s' ->
  exists closed created, good (ib_slot_id row) s closed created s' /\
    (closed <> None -> de_code d = CommittedEnded /\ closed = Some (de_session d)) /\
    (created <> None -> de_code d = CommittedStarted /\ created = Some (de_session d) /\
       find_active row s = None).
Proof.
  unfold decided. destruct (de_code d) eqn:Hc; intros Hd;
    try (exists None, None; split_and!; [done..]).
  - destruct Hd as [Hn Hd]. exists None, (Some (de_session d)). split_and!; done.
  - destruct Hd as (a & He & _ & Hd). exists (Some (as_id a)), None. rewrite He. split_and!; done.
Qed.

Lemma store_step_invariant op s : invariant s -> invariant (store_step s op).
Proof.
  intros [Hc Ho Hi].
  assert (Hi' : unique_inbox (st_inbox (store_step s op))) by (eapply unique_inbox_reach; [apply step_inbox|done]).
  assert (H : consistent (store_step s op) /\ owned (store_step s op)).
  { pose proof (other_step op s) as Hother.
    destruct op; try (destruct Hother as [Hother _]; by apply inbox_only_invariants in Hother).
    simpl. destruct (applySlotTransitionCommand true id s) as [o s'] eqn:E. simpl.
    destruct (apply_touched _ _ _ _ Hc Ho E) as [(_ & ? & ? & _)|H]; [done|].
    destruct H as (row & payload & tr & at_ms & policy & d & _ & _ & _ & _ & _ & Hd).
    apply decided_good in Hd as (? & ? & [? ? _] & _). done. }
  destruct H. by split.
Qed.

(** C1 [invariant] Along any history of admissions, due deadlines, applications, retries,
    effects and purges: a slot has at most one open session, its status says OCCUPIED exactly
    when it has one, it has at most one live exit deadline, committed correlation
    bindings and observations point at the open session of their slot and attempt, and no two
    admissions share a source identity or an ordinal. *)
Theorem store_invariant ops s : invariant s -> invariant (store_run s ops).
Proof.
  revert s. induction ops as [|op ops IH]; intros s Hs; [done|].
  apply IH. by apply store_step_invariant.
Qed.

(** C2 [safety] The causes that end a session. If the application of a command leaves a slot
    without the session that was open, the command is a hall VACANT of that slot or an
    admitted exit deadline that still owns the pending vacancy of exactly that session,
    it is not earlier than the session's entry, and under HYBRID_OR the other source does not
    hold the session. Camera observations alone never end a session. *)
Theorem session_ends_with_cause id s slot_id sid r :
  invariant s -> open_session_of s slot_id sid r ->
  let '(o, s') := applySlotTransitionCommand true id s in
  (forall r', ~ open_session_of s' slot_id sid r') ->
  cot_code o = CommittedEnded /\ cot_sessionId o = sid /\
  exists row payload transport at_ms policy a,
    st_inbox s !! id = Some row /\ ib_status row = PendingUnprepared /\
    read_payload row = Ok (payload, transport, at_ms) /\
    value_string payload "occupancy_policy" "" = Ok policy /\
    ib_slot_id row = slot_id /\ as_id a = sid /\
    close_cause row payload at_ms (bool_decide (policy = "HYBRID_OR")) s a.
Proof.
  intros [Hc Ho _] (Hr & Hopen & Hslot).
  destruct (applySlotTransitionCommand true id s) as [o s'] eqn:E. intros Hgone.
  destruct (apply_touched _ _ _ _ Hc Ho E) as [(He & _)|H].
  { destruct (Hgone r). unfold open_session_of. by rewrite He. }
  destruct H as (row & payload & tr & at_ms & policy & d & Hrow & Hp & Hst & Hpol & -> & Hd).
  pose proof (decided_good _ _ _ _ _ _ _ Hd) as (closed & created & [_ _ [T1 _ _ T4 _]] & Hcl & _).
  assert (Hs : sr_slot_id r = ib_slot_id row).
  { destruct (decide (sr_slot_id r = ib_slot_id row)) as [|Hs]; [done|]. exfalso.
    apply (Hgone r). split; [by apply T1|done]. }
  assert (Hc' : closed = Some sid).
  { destruct (decide (closed = Some sid)) as [|Hne]; [done|]. exfalso.
    destruct (T4 _ _ Hr Hopen Hne) as (r' & Hr' & Ho' & Hs'). apply (Hgone r').
    split; [done|]. split; [done|congruence]. }
  destruct Hcl as [Hcode Hses]; [congruence|]. split; [done|]. split; [simpl; congruence|].
  unfold decided in Hd. rewrite Hcode in Hd. destruct Hd as (a & Ha & Hcause & _).
  exists row, payload, tr, at_ms, policy, a. split_and!; try done; congruence.
Qed.

(** The application of a command touches one slot: sessions, status and camera
    observation of every other slot stay; in its own slot an open session disappears only
    with the code SESSION_ENDED and its identifier, and appears only with SESSION_STARTED, when
    the slot had none. Every other code leaves the set of open sessions as it was. *)
Theorem application_is_local id s :
  invariant s ->
  let '(o, s') := applySlotTransitionCommand true id s in
  (forall row slot, st_inbox s !! id = Some row -> slot <> ib_slot_id row ->
     st_slots s' !! slot = st_slots s !! slot /\ st_iva s' !! slot = st_iva s !! slot /\
     forall i r, open_session_of s slot i r -> open_session_of s' slot i r) /\
  (forall slot i r, open_session_of s slot i r ->
     (exists r', open_session_of s' slot i r') \/
     (cot_code o = CommittedEnded /\ cot_sessionId o = i)) /\
  (forall i r', open_session_of s' (sr_slot_id r') i r' ->
     (exists r, st_sessions s !! i = Some r /\ session_open r = true) \/
     (cot_code o = CommittedStarted /\ cot_sessionId o = i /\
      exists row, st_inbox s !! id = Some row /\ forall j r, ~ open_session_of s (ib_slot_id row) j r)).
Proof.
  intros [Hc Ho _]. destruct (applySlotTransitionCommand true id s) as [o s'] eqn:E.
  destruct (apply_touched _ _ _ _ Hc Ho E) as [(He & _ & _ & Hsl & Hiv)|H].
  { unfold open_session_of. rewrite He, Hsl, Hiv. split_and!; [done|by eauto|].
    intros i r' (Hi & Hop & _). eauto. }
  destruct H as (row & payload & tr & at_ms & policy & d & Hrow & Hp & Hst & Hpol & -> & Hd).
  pose proof (decided_good _ _ _ _ _ _ _ Hd) as
    (closed & created & [_ _ [T1 T2 T3 T4 T5]] & Hcl & Hcr).
  split_and!.
  - intros row' slot Hrow' Hne. assert (row' = row) as -> by congruence.
    split_and!; [by apply T2|by apply T3|]. intros i r (Hi & Hop & Hs).
    split; [apply T1; [done|congruence]|done].
  - intros slot i r (Hi & Hop & Hs). destruct (decide (closed = Some i)) as [Hci|Hne].
    + right. destruct Hcl as [Hcode Hses]; [congruence|]. split; [done|]. simpl. congruence.
    + left. destruct (T4 _ _ Hi Hop Hne) as (r' & Hr' & Ho' & Hs').
      exists r'. split; [done|]. split; [done|congruence].
  - intros i r' (Hi & Hop & _). destruct (decide (created = Some i)) as [Hci|Hne].
    + right. destruct Hcr as (Hcode & Hses & Hn); [congruence|]. split; [done|].
      split; [simpl; congruence|]. exists row. split; [done|]. intros j r. by apply no_active.
    + left. by eapply T5.
Qed.

(** * Durable admission *)

Lemma run_facts ops s id r :
  forallb (fun op => negb (is_purge op)) ops = true -> st_inbox s !! id = Some r ->
  exists r', st_inbox (store_run s ops) !! id = Some r' /\ ib_facts r' = ib_facts r.
Proof.
  revert s r. induction ops as [|op ops IH]; intros s r Hops Hr; [by exists r|].
  simpl in Hops. apply andb_prop in Hops as [Hop Hops]. apply negb_true_iff in Hop.
  pose proof (step_inbox op s) as Hstep. rewrite Hop in Hstep.
  destruct (inbox_reach_facts _ _ _ _ Hstep Hr) as (r1 & Hr1 & Hf1).
  destruct (IH _ _ Hops Hr1) as (r2 & Hr2 & Hf2). exists r2. split; [done|congruence].
Qed.

Lemma run_unique ops s : unique_inbox (st_inbox s) -> unique_inbox (st_inbox (store_run s ops)).
Proof.
  revert s. induction ops as [|op ops IH]; intros s Hs; [done|].
  apply IH. eapply unique_inbox_reach; [apply step_inbox|done].
Qed.

(** A command that a C++ caller can build, whose payload is a JSON object. *)
Record storable (command : SlotTransitionCommand) : Prop := {
  st_width : forall n, stc_sourceSequence command = Some n -> (n <= uint64_max)%N;
  st_payload : exists members, json_parse (stc_payloadJson command) = Ok (JObject members)
}.

Lemma stored_command_admitted command ordinal cid now row :
  storable command -> ib_facts row = ib_facts (admitted_row command ordinal cid now) ->
  stored_command (stc_commandId command) row = command.
Proof.
  intros [Hw _] Hf. unfold ib_facts in Hf. simpl in Hf.
  injection Hf as H1 H2 H3 H4 H5 H6 H7 H8 H9 H10. unfold stored_command.
  rewrite H1, H2, H3, H4, H5, H6, H7, H8. destruct command as [ci ki sl se si sq oc pa du]. simpl in *.
  f_equal. destruct sq as [n|]; [|done]. simpl.
  destruct (is_empty (pretty n)) eqn:He.
  { exfalso. apply (pretty_N_nonempty n). by destruct (pretty n). }
  simpl. unfold parseUnsigned. rewrite digits_value_pretty. simpl. by rewrite bool_decide_eq_true_2 by auto.
Qed.

Lemma sameSlotSourceFact_refl command :
  (forall j, json_eqb j j = true) -> storable command -> sameSlotSourceFact command command = true.
Proof.
  intros Heq [_ [members Hp]]. unfold sameSlotSourceFact.
  rewrite !bool_decide_eq_true_2 by done. rewrite Hp. simpl.
  destruct (stc_kind command); rewrite ?bool_decide_eq_true_2 by done; by rewrite Heq.
Qed.

Lemma find_identity_unique s command id row :
  unique_inbox (st_inbox s) -> st_inbox s !! id = Some row ->
  ib_key row = (stc_kind command, stc_sourceIdentity command) ->
  find_identity s command = Some (id, row).
Proof.
  intros [Hu _] Hrow Hkey. unfold find_identity.
  set (l := select_rows _ _). assert (Hin : (id, row) ∈ l).
  { apply select_rows_elem. split; [done|]. unfold ib_key in Hkey. injection Hkey as -> ->.
    by rewrite !bool_decide_eq_true_2. }
  destruct (head l) as [[id' row']|] eqn:E.
  - apply head_Some_elem_of, select_rows_elem in E as [Hr' Hk']. split_bool.
    assert (id' = id) as -> by (eapply Hu; [done..|]; unfold ib_key in *; congruence). congruence.
  - destruct l; [by apply elem_of_nil in Hin|done].
Qed.

(** The fields that every admission asks for. *)
Definition admissible (command : SlotTransitionCommand) : Prop :=
  is_empty (stc_commandId command) || is_empty (stc_slotId command) || is_empty (stc_sourceIdentity command) ||
    is_empty (stc_occurredAt command) || is_empty (stc_payloadJson command) = false /\
  (stc_kind command = CameraObservation ->
   exists payload id, parse_or_throw (stc_payloadJson command) = Ok payload /\
     value_string payload "correlation_id" "" = Ok id).

Lemma admitted_admissible now command capacity s :
  sar_code (admitSlotTransitionCommand true now command capacity s).1 = CommandAdmitted -> admissible command.
Proof.
  unfold admitSlotTransitionCommand, admissible.
  destruct (is_empty (stc_commandId command) || is_empty (stc_slotId command) ||
    is_empty (stc_sourceIdentity command) || is_empty (stc_occurredAt command) ||
    is_empty (stc_payloadJson command))%bool; [done|]. simpl. destruct (capacity =? 0)%N; [done|].
  intros Hc. split; [done|]. intros Hk. rewrite bool_decide_eq_true_2 in Hc by done.
  destruct (parse_or_throw _) as [payload|e]; simpl in Hc; [|done].
  destruct (value_string payload _ _) as [id|e] eqn:E; [|done]. by exists payload, id.
Qed.

(** An admitted command stays in the inbox. *)
Lemma admission_kept now command capacity s ops :
  unique_inbox (st_inbox s) -> storable command ->
  sar_code (admitSlotTransitionCommand true now command capacity s).1 = CommandAdmitted ->
  forallb (fun op => negb (is_purge op)) ops = true ->
  let s' := store_run (admitSlotTransitionCommand true now command capacity s).2 ops in
  unique_inbox (st_inbox s') /\
  exists row, st_inbox s' !! stc_commandId command = Some row /\
    stored_command (stc_commandId command) row = command /\
    ib_key row = (stc_kind command, stc_sourceIdentity command).
Proof.
  intros Hu Hst Hcode Hops.
  pose proof (admission_or_unchanged true now command capacity s) as Hadm.
  destruct (admitSlotTransitionCommand true now command capacity s) as [r s1] eqn:E1. simpl in *.
  rewrite Hcode, bool_decide_eq_true_2 in Hadm by done.
  destruct (admission_inbox _ _ _ _ _ Hadm) as [_ Hreach].
  assert (Hu1 : unique_inbox (st_inbox s1)) by (by eapply unique_inbox_reach).
  destruct Hadm as [_ _ (s2 & cid & _ & _ & _ & _ & _ & Hs1) _].
  set (row0 := admitted_row command (max_ordinal (st_inbox s2) + 1) cid now) in *.
  assert (Hrow0 : st_inbox s1 !! stc_commandId command = Some row0).
  { rewrite Hs1. apply lookup_insert_eq. }
  destruct (run_facts ops s1 _ _ Hops Hrow0) as (row & Hrow & Hf).
  split; [by apply run_unique|]. exists row. split; [done|].
  split; [by eapply stored_command_admitted|]. by apply facts_key in Hf as [-> _].
Qed.

(** A command with the facts of a stored one is answered by the stored one. *)
Lemma readmission now command command' capacity s row :
  unique_inbox (st_inbox s) -> st_inbox s !! stc_commandId command = Some row ->
  stored_command (stc_commandId command) row = command ->
  ib_key row = (stc_kind command, stc_sourceIdentity command) ->
  admissible command' -> sameSlotSourceFact command command' = true -> capacity <> 0%N ->
  let '(r, s') := admitSlotTransitionCommand true now command' capacity s in
  s' = s /\ (sar_code r = Existing \/ sar_code r = AlreadyTerminal) /\ sar_commandId r = stc_commandId command.
Proof.
  intros Hu Hrow Hst Hkey [Hfields Hcorr] Hsame Hcap.
  assert (Hfind : find_identity s command' = Some (stc_commandId command, row)).
  { apply find_identity_unique; [done..|]. rewrite Hkey. unfold sameSlotSourceFact in Hsame. split_bool. congruence. }
  unfold admitSlotTransitionCommand. rewrite Hfields, (proj2 (N.eqb_neq _ _) Hcap). simpl.
  assert (Hc : exists cid, (if bool_decide (stc_kind command' = CameraObservation)
            then rbind (parse_or_throw (stc_payloadJson command')) (fun payload => value_string payload "correlation_id" "")
            else Ok "") = Ok cid).
  { destruct (bool_decide _) eqn:Hb; [|by eexists]. apply bool_decide_eq_true in Hb.
    destruct (Hcorr Hb) as (payload & id & -> & Hid). simpl. by exists id. }
  destruct Hc as [cid ->]. unfold admit_transaction. rewrite Hfind. unfold admit_existing. rewrite Hst, Hsame.
  simpl. split; [done|]. split; [|done]. destruct (terminalStatus _); auto.
Qed.

(** C4 [liveness] An admission is durable: once a command is answered Admitted, then after any
    further admissions, due deadlines, applications, retries and effects its row is still there
    with the facts admitted, and offering the same command again is accepted as Existing or
    AlreadyTerminal under the same identifier without any change of the store. *)
Theorem admission_durable now command capacity s ops now' capacity' :
  unique_inbox (st_inbox s) -> storable command -> (forall j, json_eqb j j = true) ->
  sar_code (admitSlotTransitionCommand true now command capacity s).1 = CommandAdmitted ->
  forallb (fun op => negb (is_purge op)) ops = true -> capacity' <> 0%N ->
  let s' := store_run (admitSlotTransitionCommand true now command capacity s).2 ops in
  (exists row, st_inbox s' !! stc_commandId command = Some row /\
     stored_command (stc_commandId command) row = command) /\
  let '(r, s'') := admitSlotTransitionCommand true now' command capacity' s' in
  s'' = s' /\ (sar_code r = Existing \/ sar_code r = AlreadyTerminal) /\
  sar_commandId r = stc_commandId command.
Proof.
  intros Hu Hst Heq Hcode Hops Hcap.
  destruct (admission_kept now command capacity s ops Hu Hst Hcode Hops) as (Hu' & row & Hrow & Hsc & Hkey).
  split; [by exists row|].
  apply (readmission now' command command capacity' _ row); try done.
  - by eapply admitted_admissible.
  - by apply sameSlotSourceFact_refl.
Qed.
End Histories.

(** * A day of one slot: OCCUPIED, then VACANT *)

Fixpoint json_beq (a b : json) : bool :=
  match a, b with
  | JNull, JNull => true
  | JBool x, JBool y => Bool.eqb x y
  | JInteger x, JInteger y => Z.eqb x y
  | JFloat x, JFloat y | JString x, JString y => String.eqb x y
  | JArray l, JArray m =>
      (fix go l m := match l, m with
                     | [], [] => true
                     | x :: l', y :: m' => json_beq x y && go l' m'
                     | _, _ => false end) l m
  | JObject l, JObject m =>
      (fix go (l m : list (string * json)) :=
         match l, m with
         | [], [] => true
         | (k, x) :: l', (k', y) :: m' => String.eqb k k' && json_beq x y && go l' m'
         | _, _ => false end) l m
  | _, _ => false
  end.

Lemma json_beq_refl : forall j, json_beq j j = true.
Proof.
  fix IH 1. intros [|b|z|t|t|l|m]; simpl;
    [done|apply Bool.eqb_reflx|apply Z.eqb_refl|apply String.eqb_refl|apply String.eqb_refl|..].
  - induction l as [|x l IHl]; [done|]. rewrite (IH x). exact IHl.
  - induction m as [|[k x] m IHm]; [done|]. rewrite String.eqb_refl, (IH x). exact IHm.
Qed.

Definition demo_parse (text : string) : result string json :=
  if String.eqb text "occupied"
  then Ok (JObject [("occurred_at_epoch_ms", JInteger 1000); ("state", JString "OCCUPIED")])
  else if String.eqb text "vacant"
  then Ok (JObject [("occurred_at_epoch_ms", JInteger 5000); ("state", JString "VACANT")])
  else Err "syntax error".
#[local] Instance demo_json : JsonLibrary :=
  {| json_parse := demo_parse; json_dump := fun _ => "{}"; json_eqb := json_beq;
     json_float_to_int := fun _ => 0 |}.
#[local] Instance demo_sql : SqlFunctions :=
  {| sql_iso_utc := fun _ => "1970-01-01T00:00:00.000Z"; sql_julian_ms := fun _ => 0;
     sql_json_text := fun text key =>
       match demo_parse text with
       | Ok j => match json_find j key with Some (JString s) => Some s | _ => None end
       | Err _ => None end |}.

Definition demo_occupied : SlotTransitionCommand :=
  mkSlotTransitionCommand "h1" HallObservation "A1" "s1" "hall:1" (Some 1%N) "t1" "occupied" 0.
Definition demo_vacant : SlotTransitionCommand :=
  mkSlotTransitionCommand "h2" HallObservation "A1" "s1" "hall:2" (Some 2%N) "t2" "vacant" 0.
Definition demo_start : Store :=
  mkStore {["A1" := "VACANT"; "B1" := "VACANT"]} ∅ 0 ∅ ∅ ∅ ∅ ∅ ∅ [].
Definition demo_before_exit : Store :=
  store_run demo_start [OpAdmit 0 demo_occupied 10; OpApply "h1"; OpAdmit 4 demo_vacant 10].

Lemma demo_start_invariant : invariant demo_start.
Proof.
  assert (Hno : forall slot i r, ~ open_session_of demo_start slot i r).
  { intros slot i r (H & _). by destruct (lookup_empty_Some _ _ H). }
  split; [split|split|split].
  - intros slot i1 i2 r1 r2 H. by destruct (Hno _ _ _ H).
  - intros i r H. by destruct (lookup_empty_Some _ _ H).
  - intros slot status H. split; [|intros (i & r & Hr); by destruct (Hno _ _ _ Hr)].
    simpl in H. apply lookup_insert_Some in H as [[_ <-]|[_ [_ <-]%lookup_singleton_Some]]; done.
  - intros slot i r H. by destruct (Hno _ _ _ H).
  - intros i1 i2 d1 d2 H. by destruct (lookup_empty_Some _ _ H).
  - intros c b H. by destruct (lookup_empty_Some _ _ H).
  - intros slot r i H. by destruct (lookup_empty_Some _ _ H).
  - intros i1 i2 r1 r2 H. by destruct (lookup_empty_Some _ _ H).
  - intros i1 i2 r1 r2 H. by destruct (lookup_empty_Some _ _ H).
Qed.

Lemma demo_before_exit_invariant : invariant demo_before_exit.
Proof.
  unfold demo_before_exit, store_run. cbn [foldl].
  do 3 apply store_step_invariant. apply demo_start_invariant.
Qed.

Definition demo_session : SessionRow :=
  new_session_row "h1" (admitted_row demo_occupied 1 "" 0) 1000 "occupancy:h1".

Lemma demo_session_open : open_session_of demo_before_exit "A1" 1 demo_session.
Proof. split; [vm_compute; reflexivity|]. split; vm_compute; reflexivity. Qed.

Example store_invariant_witness :
  invariant demo_start /\ invariant (store_run demo_start [OpAdmit 0 demo_occupied 10; OpApply "h1"]).
Proof.
  split; [apply demo_start_invariant|].
  apply (store_invariant [OpAdmit 0 demo_occupied 10; OpApply "h1"] demo_start demo_start_invariant).
Defined.

Example session_ends_with_cause_witness :
  open_session_of demo_before_exit "A1" 1 demo_session /\
  cot_code (applySlotTransitionCommand true "h2" demo_before_exit).1 = CommittedEnded /\
  cot_sessionId (applySlotTransitionCommand true "h2" demo_before_exit).1 = 1.
Proof.
  split; [exact demo_session_open|].
  pose proof (session_ends_with_cause "h2" demo_before_exit "A1" 1 demo_session
    demo_before_exit_invariant demo_session_open) as H.
  rewrite (surjective_pairing (applySlotTransitionCommand true "h2" demo_before_exit)) in H.
  destruct H as (Hcode & Hsession & _); [|exact (conj Hcode Hsession)].
  intros r (Hr & Ho & _). vm_compute in Hr. injection Hr as <-. vm_compute in Ho. discriminate Ho.
Defined.

Example application_is_local_witness :
  invariant demo_before_exit /\
  st_slots (applySlotTransitionCommand true "h2" demo_before_exit).2 !! "B1" = Some "VACANT".
Proof.
  split; [exact demo_before_exit_invariant|].
  pose proof (application_is_local "h2" demo_before_exit demo_before_exit_invariant) as H.
  rewrite (surjective_pairing (applySlotTransitionCommand true "h2" demo_before_exit)) in H.
  destruct H as (H & _ & _).
  destruct (H (admitted_row demo_vacant 2 "" 4) "B1") as (Hs & _ & _).
  - vm_compute. reflexivity.
  - discriminate.
  - rewrite Hs. vm_compute. reflexivity.
Defined.

Lemma demo_start_unique : unique_inbox (st_inbox demo_start).
Proof. apply demo_start_invariant. Qed.
Lemma demo_occupied_storable : storable demo_occupied.
Proof.
  split; [|by eexists]. intros n [= <-]. apply (bool_decide_unpack _). vm_compute. exact I.
Qed.

Example admission_durable_witness :
  sar_code (admitSlotTransitionCommand true 0 demo_occupied 10 demo_start).1 = CommandAdmitted /\
  sar_commandId (admitSlotTransitionCommand true 9 demo_occupied 10
    (store_run (admitSlotTransitionCommand true 0 demo_occupied 10 demo_start).2 [OpApply "h1"])).1
  = "h1".
Proof.
  assert (Ha : sar_code (admitSlotTransitionCommand true 0 demo_occupied 10 demo_start).1 = CommandAdmitted)
    by (vm_compute; reflexivity).
  split; [exact Ha|].
  pose proof (admission_durable 0 demo_occupied 10 demo_start [OpApply "h1"] 9 10
    demo_start_unique demo_occupied_storable json_beq_refl Ha eq_refl ltac:(discriminate)) as [_ H].
  rewrite (surjective_pairing (admitSlotTransitionCommand true 9 _ _ _)) in H.
  destruct H as (_ & _ & H). exact H.
Defined.
