(* ===== verification/SlotActor.v ===== *)
(** The slot transition actor ([src/parking/SlotTransitionActor.cpp]): the transport
    queue in front of the durable inbox, and the worker's turns over a store that it sees
    only through an interface. The functions that lock [mutex_] are atomic steps; start, stop and the thread with
    its flags are in SlotWorker. *)
From S2P Require Import Prelude SensorProtocol SequencePolicy SlotConfig OccupancyDb.
From S2P Require Import OccupancyAdmission OccupancyApply OccupancyInvariant OccupancyStore.

(** * The store's interface *)

(** [include/database/SessionTransitionStore.hpp:20-56 SessionTransitionStore]
    An exception is an [Err]. *)
Class TransitionStore (S : Type) := {
  ts_admit : SlotTransitionCommand -> N -> S -> result string SlotAdmissionResult * S;
  ts_admitDueDeadlines : Z -> N -> list string -> S -> result string nat * S;
  ts_listRunnable : Z -> S -> list DurableSlotCommand;
  ts_apply : string -> S -> CommittedOccupancyTransition * S;
  ts_defer : string -> Z -> string -> S -> bool * S;
  ts_listPendingEffects : Z -> S -> result string (list CommittedOccupancyTransition);
  ts_completeEffects : string -> S -> bool * S;
  ts_deferEffects : string -> Z -> string -> S -> bool * S;
  ts_nextDeadline : S -> option Z;
  ts_pendingCount : S -> nat;
  ts_pendingEffectCount : S -> nat;
  ts_pendingDrainCount : Z -> S -> result string nat;
  ts_purgeSettled : Z -> nat -> S -> nat * S
}.

(** What the actor's theorems need of a store. [ts_commands] are the slots of its commands,
    [ts_undelivered] its committed effects that nobody acknowledged. *)
Class TransitionStoreLaws (S : Type) `{TransitionStore S} := {
  ts_commands : S -> gmap string string;
  ts_undelivered : S -> string -> bool;
  ts_blocked_law : forall now cap blocked s id slot,
    ts_commands (ts_admitDueDeadlines now cap blocked s).2 !! id = Some slot ->
    ts_commands s !! id = Some slot \/ ~ slot ∈ blocked;
  ts_complete_law : forall id s id',
    id' <> id -> ts_undelivered (ts_completeEffects id s).2 id' = ts_undelivered s id';
  ts_complete_fails_law : forall id s id',
    (ts_completeEffects id s).1 = false ->
    ts_undelivered (ts_completeEffects id s).2 id' = ts_undelivered s id';
  ts_complete_done_law : forall id s,
    (ts_completeEffects id s).1 = true ->
    ts_undelivered (ts_completeEffects id s).2 id = false;
  ts_defer_law : forall id next error s id',
    ts_undelivered (ts_deferEffects id next error s).2 id' = ts_undelivered s id'
}.

(** * The actor's state *)

(** [include/parking/SlotTransitionActor.hpp:18-28 SlotSubmitCode] *)
Inductive SlotSubmitCode :=
| TransportQueued | SubmitAdmitted | SubmitExisting | SubmitAlreadyTerminal | SubmitRejectedStale
| SubmitConflict | QueueFull | SubmitClosed | SubmitRetryable.
#[global] Instance SlotSubmitCode_eq_dec : EqDecision SlotSubmitCode.
Proof. solve_decision. Defined.

(** [include/parking/SlotTransitionActor.hpp:30-41 SlotSubmitResult] *)
Record SlotSubmitResult := mkSlotSubmitResult {
  ssr_code : SlotSubmitCode;
  ssr_commandId : string;
  ssr_message : string
}.

(** [include/parking/SlotTransitionActor.hpp:53-71 Config] *)
Record ActorConfig := mkActorConfig {
  transportAdmissionCapacity : nat;
  durablePendingCapacity : N;
  retryDelay : Z;
  retentionPeriod_ms : Z;
  purgeInterval_ms : Z;
  purgeBatchSize : nat
}.

(** [src/parking/SlotTransitionActor.cpp:35-48 SlotTransitionActor] *)
Definition normalise_config (c : ActorConfig) : ActorConfig :=
  mkActorConfig (Nat.max 1 (transportAdmissionCapacity c)) (N.max 1 (durablePendingCapacity c))
    (Z.max (retryDelay c) 1) (retentionPeriod_ms c) (purgeInterval_ms c) (purgeBatchSize c).

(** [include/parking/SlotTransitionActor.hpp:89-93 IngressItem] *)
Record IngressItem := mkIngressItem {
  ii_command : SlotTransitionCommand;
  ii_transportOrdinal : N;
  ii_nextAttemptAtEpochMs : Z
}.

(** [include/parking/SlotTransitionActor.hpp:48-131 SlotTransitionActor] *)
Record Actor := mkActor {
  ac_lanes : gmap string (list IngressItem);
  ac_identity : gmap string string;
  ac_size : nat;
  ac_next_ordinal : N;
  ac_last_purge : Z;
  ac_started : bool;
  ac_ingress_open : bool;
  ac_stop_requested : bool;
  ac_drain_cutoff : Z
}.

Definition set_queue (a : Actor) lanes identity size ordinal : Actor :=
  mkActor lanes identity size ordinal (ac_last_purge a) (ac_started a) (ac_ingress_open a)
    (ac_stop_requested a) (ac_drain_cutoff a).
Definition set_flags (a : Actor) started open stop cutoff : Actor :=
  mkActor (ac_lanes a) (ac_identity a) (ac_size a) (ac_next_ordinal a) (ac_last_purge a)
    started open stop cutoff.

Definition new_actor : Actor := mkActor ∅ ∅ 0 0 0 false false false 0.

(** [src/parking/SlotTransitionTypes.cpp:7-17 toString] *)
Definition kind_name (kind : SlotCommandKind) : string :=
  match kind with
  | HallObservation => "HALL_OBSERVATION"
  | CameraObservation => "CAMERA_OBSERVATION"
  | ExitDeadline => "EXIT_DEADLINE"
  end.
Definition identity_key (command : SlotTransitionCommand) : string :=
  kind_name (stc_kind command) +:+ "|" +:+ stc_sourceIdentity command.

(** Every queued item. *)
Definition all_items (lanes : gmap string (list IngressItem)) : list IngressItem :=
  concat (map_to_list lanes).*2.

Section Actor.
Context {JL : JsonLibrary}.
Variable (cfg : ActorConfig).

(** * Submission *)

(** The first queued command with an identifier. *)
Definition find_queued (a : Actor) (command_id : string) : option SlotTransitionCommand :=
  ii_command <$> List.find (fun i => bool_decide (stc_commandId (ii_command i) = command_id))
                   (all_items (ac_lanes a)).

(** [src/parking/SlotTransitionActor.cpp:111-156 SlotTransitionActor::submit] *)
Definition submit (command : SlotTransitionCommand) (a : Actor) : SlotSubmitResult * Actor :=
  let answer code id message := (mkSlotSubmitResult code id message, a) in
  if is_empty (stc_commandId command) || is_empty (stc_slotId command) ||
     is_empty (stc_sourceIdentity command)
  then answer SubmitConflict (stc_commandId command)
         "slot transition command identity is incomplete" else
  if negb (ac_started a) || negb (ac_ingress_open a) || ac_stop_requested a
  then answer SubmitClosed (stc_commandId command) "slot transition ingress is closed" else
  match ac_identity a !! identity_key command with
  | Some existing =>
      match find_queued a existing with
      | Some stored =>
          if sameSlotSourceFact stored command
          then answer SubmitExisting existing "source fact already waits for durable admission"
          else answer SubmitConflict existing "queued source identity payload conflict"
      | None => answer SubmitRetryable existing "ingress identity index is inconsistent"
      end
  | None =>
      if (transportAdmissionCapacity cfg <=? ac_size a)%nat
      then answer QueueFull (stc_commandId command) "slot transition transport queue is full" else
      let ordinal := Z.to_N ((Z.of_N (ac_next_ordinal a) + 1) mod 2 ^ 64) in
      let lane := default [] (ac_lanes a !! stc_slotId command) in
      (mkSlotSubmitResult TransportQueued (stc_commandId command)
         "normalized command queued for durable admission",
       set_queue a (<[stc_slotId command := lane ++ [mkIngressItem command ordinal 0]]> (ac_lanes a))
         (<[identity_key command := stc_commandId command]> (ac_identity a)) (S (ac_size a)) ordinal)
  end.

(** [src/parking/SlotTransitionActor.cpp:158-161 SlotTransitionActor::closeIngress] *)
Definition closeIngress (a : Actor) : Actor :=
  set_flags a (ac_started a) false (ac_stop_requested a) (ac_drain_cutoff a).

(** [src/parking/SlotTransitionActor.cpp:163-173 SlotTransitionActor::stopAndDrain]
    The request; the wait for the worker is left out. *)
Definition request_stop (now : Z) (a : Actor) : Actor :=
  let a := closeIngress a in
  if negb (ac_started a) then a else
  set_flags a true (ac_ingress_open a) true
    (if ac_drain_cutoff a =? 0 then now else ac_drain_cutoff a).

(** * The worker's turns *)

Context {S : Type} `{TransitionStore S}.

(** [src/parking/SlotTransitionActor.cpp:278-281 SlotTransitionActor::ingressOpen] *)
Definition ingressOpen (a : Actor) : bool := ac_ingress_open a.

(** [src/parking/SlotTransitionActor.cpp:216-228 SlotTransitionActor::processIngress]
    The ready head with the smallest ordinal. *)
Definition better_head (now : Z) (best : option IngressItem) (lane : list IngressItem)
    : option IngressItem :=
  match lane with
  | [] => best
  | item :: _ =>
      let limit := match best with Some b => ii_transportOrdinal b | None => uint64_max end in
      if (now <? ii_nextAttemptAtEpochMs item) || (limit <=? ii_transportOrdinal item)%N
      then best else Some item
  end.
Definition select_ingress (now : Z) (a : Actor) : option IngressItem :=
  foldl (better_head now) None (map_to_list (ac_lanes a)).*2.

Definition admission_terminal (r : SlotAdmissionResult) : bool :=
  admission_accepted r || bool_decide (sar_code r = RejectedStale) ||
  bool_decide (sar_code r = AdmissionConflict).

(** [src/parking/SlotTransitionActor.cpp:244-270 SlotTransitionActor::processIngress] *)
Definition settle_ingress (now : Z) (command : SlotTransitionCommand) (r : SlotAdmissionResult)
    (a : Actor) : Actor :=
  match ac_lanes a !! stc_slotId command with
  | Some (front :: rest) =>
      if negb (bool_decide (stc_commandId (ii_command front) = stc_commandId command)) then a else
      if admission_terminal r then
        set_queue a
          (match rest with
           | [] => delete (stc_slotId command) (ac_lanes a)
           | _ => <[stc_slotId command := rest]> (ac_lanes a)
           end)
          (delete (identity_key command) (ac_identity a)) (Nat.pred (ac_size a)) (ac_next_ordinal a)
      else
        set_queue a
          (<[stc_slotId command := mkIngressItem (ii_command front) (ii_transportOrdinal front)
               (now + retryDelay cfg) :: rest]> (ac_lanes a))
          (ac_identity a) (ac_size a) (ac_next_ordinal a)
  | _ => a
  end.

(** [src/parking/SlotTransitionActor.cpp:208-276 SlotTransitionActor::processIngress]
    One pass of the loop; [None] leaves it. *)
Definition ingress_turn (now : Z) (a : Actor) (s : S)
    : option ((SlotTransitionCommand * SlotAdmissionResult) * (Actor * S)) :=
  match select_ingress now a with
  | None => None
  | Some item =>
      let command := ii_command item in
      let '(answer, s') := ts_admit command (durablePendingCapacity cfg) s in
      let admission :=
        match answer with
        | Ok r => r
        | Err what => mkSlotAdmissionResult AdmissionRetryable (stc_commandId command) what
        end in
      Some ((command, admission), (settle_ingress now command admission a, s'))
  end.

(** [src/parking/SlotTransitionActor.cpp:208-276 SlotTransitionActor::processIngress]
    [None] means out of fuel. *)
Fixpoint processIngress (fuel : nat) (now : Z) (a : Actor) (s : S) : option (Actor * S) :=
  match ingress_turn now a s with
  | None => Some (a, s)
  | Some (_, (a', s')) =>
      match fuel with
      | O => None
      | Datatypes.S fuel' => processIngress fuel' now a' s'
      end
  end.

(** [src/parking/SlotTransitionActor.cpp:288-325 SlotTransitionActor::processRunnable] *)
Definition run_command (now : Z) (acc : bool * S) (command : DurableSlotCommand) : bool * S :=
  let '(made_progress, s) := acc in
  let id := stc_commandId (dsc_command command) in
  let '(outcome, s1) := ts_apply id s in
  if bool_decide (cot_code outcome = RetryableFailure) then
    let '(deferred, s2) := ts_defer id (now + retryDelay cfg) (cot_message outcome) s1 in
    (deferred || made_progress, s2)
  else (true, s1).
Definition processRunnable (now : Z) (s : S) : bool * S :=
  foldl (run_command now) (false, s) (ts_listRunnable now s).

(** The slots that have a queued command. *)
Definition blocked_slots (a : Actor) : list string :=
  (map_to_list (filter (fun kv => kv.2 <> []) (ac_lanes a))).*1.

(** [src/parking/SlotTransitionActor.cpp:327-365 SlotTransitionActor::processDueDeadlines] *)
Definition processDueDeadlines (now : Z) (a : Actor) (s : S) : bool * S :=
  let '(answer, s') := ts_admitDueDeadlines now (durablePendingCapacity cfg) (blocked_slots a) s in
  (match answer with Ok admitted => negb (admitted =? 0)%nat | Err _ => false end, s').

(** The effect sink, with whatever it changes. *)
Context {W : Type}.
Variable (effect_sink : CommittedOccupancyTransition -> W -> result string bool * W).

(** [src/parking/SlotTransitionActor.cpp:367-414 SlotTransitionActor::processEffects] *)
Definition deliver_effect (now : Z) (acc : bool * S * W) (effect : CommittedOccupancyTransition)
    : bool * S * W :=
  let '(made_progress, s, w) := acc in
  let '(answer, w') := effect_sink effect w in
  let id := cot_commandId effect in
  let defer error s :=
    let '(deferred, s') := ts_deferEffects id (now + retryDelay cfg) error s in
    (deferred || made_progress, s', w') in
  match answer with
  | Ok true =>
      let '(persisted, s1) := ts_completeEffects id s in
      if persisted then (true, s1, w')
      else defer "effect acknowledgement could not be persisted" s1
  | Ok false => defer "effect sink rejected committed transition" s
  | Err what => defer what s
  end.
Definition processEffects (now : Z) (s : S) (w : W) : result string (bool * S * W) :=
  let? effects := ts_listPendingEffects now s in
  Ok (foldl (deliver_effect now) (false, s, w) effects).

(** [src/parking/SlotTransitionActor.cpp:416-436 SlotTransitionActor::purgeSettledIfDue] *)
Definition purgeSettledIfDue (now : Z) (a : Actor) (s : S) : Actor * S :=
  if (retentionPeriod_ms cfg <=? 0) || (purgeBatchSize cfg =? 0)%nat then (a, s) else
  if negb (ac_last_purge a =? 0) && (now - ac_last_purge a <? purgeInterval_ms cfg) then (a, s) else
  (mkActor (ac_lanes a) (ac_identity a) (ac_size a) (ac_next_ordinal a) now (ac_started a)
     (ac_ingress_open a) (ac_stop_requested a) (ac_drain_cutoff a),
   (ts_purgeSettled (now - retentionPeriod_ms cfg) (purgeBatchSize cfg) s).2).
End Actor.

(** * The queue *)

Lemma concat_perm {A} (l k : list (list A)) : l ≡ₚ k -> concat l ≡ₚ concat k.
Proof.
  induction 1 as [|x l k _ IH|x y l|l1 l2 l3 _ IH1 _ IH2]; simpl; [done|by rewrite IH| |by rewrite IH1].
  rewrite !(assoc_L (++)). by rewrite (Permutation_app_comm y x).
Qed.

Lemma all_items_delete lanes slot lane :
  lanes !! slot = Some lane -> all_items lanes ≡ₚ lane ++ all_items (delete slot lanes).
Proof.
  intros Hl. unfold all_items. etrans; [apply concat_perm, fmap_Permutation; symmetry;
    by apply map_to_list_delete|]. by rewrite fmap_cons.
Qed.

Lemma all_items_insert lanes slot lane :
  all_items (<[slot := lane]> lanes) ≡ₚ lane ++ all_items (delete slot lanes).
Proof.
  rewrite (all_items_delete (<[slot := lane]> lanes) slot lane) by apply lookup_insert_eq.
  by rewrite delete_insert_eq.
Qed.

Lemma all_items_elem lanes item :
  item ∈ all_items lanes <-> exists slot lane, lanes !! slot = Some lane /\ item ∈ lane.
Proof.
  unfold all_items. rewrite list_elem_of_In, in_concat. split.
  - intros (lane & Hl & Hi). rewrite <-list_elem_of_In in Hl. rewrite <-list_elem_of_In in Hi.
    apply list_elem_of_fmap in Hl as ([slot lane'] & -> & Hl).
    apply elem_of_map_to_list in Hl. by exists slot, lane'.
  - intros (slot & lane & Hl & Hi). exists lane. rewrite <-!list_elem_of_In. split; [|done].
    apply list_elem_of_fmap. exists (slot, lane). split; [done|]. by apply elem_of_map_to_list.
Qed.

(** The queue's invariant: lanes are never empty and hold their own slot's commands, the
    size is the number of queued commands, and the identity index lists exactly them. *)
Definition index_entry (i : IngressItem) : string * string :=
  (identity_key (ii_command i), stc_commandId (ii_command i)).

Record queue_ok (cfg : ActorConfig) (a : Actor) : Prop := {
  qu_lane : forall slot lane, ac_lanes a !! slot = Some lane ->
    lane <> [] /\ Forall (fun i => stc_slotId (ii_command i) = slot) lane;
  qu_index : index_entry <$> all_items (ac_lanes a) ≡ₚ map_to_list (ac_identity a);
  qu_size : ac_size a = length (all_items (ac_lanes a));
  qu_capacity : (ac_size a <= transportAdmissionCapacity cfg)%nat
}.

Lemma new_actor_ok cfg : queue_ok cfg new_actor.
Proof. split; simpl; [|done|done|lia]. intros slot lane. by rewrite lookup_empty. Qed.

Section Queue.
Context {JL : JsonLibrary}.
Variable (cfg : ActorConfig).

Lemma submit_queued command a :
  ssr_code (submit cfg command a).1 = TransportQueued ->
  exists ordinal, (submit cfg command a).2 =
    set_queue a (<[stc_slotId command := default [] (ac_lanes a !! stc_slotId command) ++
                     [mkIngressItem command ordinal 0]]> (ac_lanes a))
      (<[identity_key command := stc_commandId command]> (ac_identity a)) (S (ac_size a)) ordinal /\
    ac_identity a !! identity_key command = None /\
    (ac_size a < transportAdmissionCapacity cfg)%nat.
Proof.
  unfold submit. destruct (_ || _ || _)%bool; [done|]. destruct (_ || _ || _)%bool; [done|].
  destruct (ac_identity a !! _) as [existing|] eqn:Hi.
  - destruct (find_queued a existing) as [stored|]; [|done]. by destruct (sameSlotSourceFact _ _).
  - destruct (_ <=? _)%nat eqn:Hcap; [done|]. intros _. eexists. split; [done|]. split; [done|].
    by apply Nat.leb_gt in Hcap.
Qed.

Lemma submit_other command a :
  ssr_code (submit cfg command a).1 <> TransportQueued -> (submit cfg command a).2 = a.
Proof.
  unfold submit. destruct (_ || _ || _)%bool; [done|]. destruct (_ || _ || _)%bool; [done|].
  destruct (ac_identity a !! _) as [existing|].
  - destruct (find_queued a existing) as [stored|]; [|done]. by destruct (sameSlotSourceFact _ _).
  - by destruct (_ <=? _)%nat.
Qed.

Lemma submit_ok command a : queue_ok cfg a -> queue_ok cfg (submit cfg command a).2.
Proof.
  intros Hq. destruct (decide (ssr_code (submit cfg command a).1 = TransportQueued)) as [Hc|Hc];
    [|by rewrite submit_other].
  destruct (submit_queued _ _ Hc) as (ordinal & -> & Hnone & Hcap).
  destruct Hq as [Q1 Q2 Q3 Q4]. set (item := mkIngressItem command ordinal 0).
  set (lane := default [] (ac_lanes a !! stc_slotId command)).
  assert (Hall : all_items (<[stc_slotId command := lane ++ [item]]> (ac_lanes a)) ≡ₚ
                 item :: all_items (ac_lanes a)).
  { rewrite all_items_insert. unfold lane. destruct (ac_lanes a !! stc_slotId command) as [l|] eqn:Hl; simpl.
    - rewrite (all_items_delete _ _ _ Hl). rewrite <-Permutation_cons_append. done.
    - by rewrite delete_id by done. }
  split; simpl.
  - intros slot l [[<- <-]|[_ Hl]]%lookup_insert_Some; [|by apply Q1]. split; [by destruct lane|].
    apply Forall_app. split; [|by repeat constructor]. unfold lane.
    destruct (ac_lanes a !! stc_slotId command) as [l|] eqn:Hl; simpl; [|constructor]. by apply (Q1 _ l).
  - rewrite Hall, fmap_cons, Q2. symmetry. by apply map_to_list_insert.
  - by rewrite Hall, Q3.
  - lia.
Qed.

Lemma better_head_elem now best lane item :
  better_head now best lane = Some item -> best = Some item \/
  (exists rest, lane = item :: rest) /\ (ii_nextAttemptAtEpochMs item <= now)%Z.
Proof.
  unfold better_head. destruct lane as [|i rest]; [by left|].
  destruct (now <? _) eqn:Hn; simpl; [by left|]. destruct (_ <=? _)%N; [by left|].
  intros [= ->]. right. split; [by exists rest|]. by apply Z.ltb_ge.
Qed.

Lemma select_ingress_some now a item :
  select_ingress now a = Some item ->
  exists slot rest, ac_lanes a !! slot = Some (item :: rest) /\ ii_nextAttemptAtEpochMs item <= now.
Proof.
  unfold select_ingress.
  assert (Hgen : forall ls best, foldl (better_head now) best ls = Some item ->
    best = Some item \/ exists rest, item :: rest ∈ ls /\ ii_nextAttemptAtEpochMs item <= now).
  { induction ls as [|l ls IH]; intros best; simpl; [by left|]. intros [Hb|(rest & Hr & Hn)]%IH.
    - apply better_head_elem in Hb as [Hb|[[rest ->] Hn]]; [by left|]. right. exists rest.
      split; [by left|done].
    - right. exists rest. split; [by right|done]. }
  intros [?|(rest & Hr & Hn)]%Hgen; [done|].
  apply list_elem_of_fmap in Hr as ([slot lane] & Hlane & Hr). simpl in Hlane. subst lane.
  apply elem_of_map_to_list in Hr. by exists slot, rest.
Qed.

(** What a pass of the loop does to the queue: the head leaves it, or waits. *)
Lemma settle_head now a slot item rest r :
  queue_ok cfg a -> ac_lanes a !! slot = Some (item :: rest) ->
  let a' := settle_ingress cfg now (ii_command item) r a in
  stc_slotId (ii_command item) = slot /\
  queue_ok cfg a' /\
  (forall slot', slot' <> slot -> ac_lanes a' !! slot' = ac_lanes a !! slot') /\
  (if admission_terminal r
   then default [] (ac_lanes a' !! slot) = rest /\
        all_items (ac_lanes a) ≡ₚ item :: all_items (ac_lanes a')
   else exists waiting, ac_lanes a' !! slot = Some (waiting :: rest) /\
        ii_command waiting = ii_command item /\
        ii_nextAttemptAtEpochMs waiting = now + retryDelay cfg /\
        exists items, all_items (ac_lanes a) ≡ₚ item :: items /\
                      all_items (ac_lanes a') ≡ₚ waiting :: items).
Proof.
  intros [Q1 Q2 Q3 Q4] Hl. destruct (Q1 _ _ Hl) as [_ Hf]. apply Forall_cons in Hf as [Hs Hrest].
  intros a'. split; [done|]. unfold a', settle_ingress. rewrite Hs, Hl.
  rewrite bool_decide_eq_true_2 by done. simpl. clear a'.
  pose proof (all_items_delete _ _ _ Hl) as Hall.
  destruct (admission_terminal r) eqn:Ht; simpl.
  - set (lanes := match rest with [] => _ | _ => _ end).
    assert (Hlanes : all_items lanes ≡ₚ rest ++ all_items (delete slot (ac_lanes a))).
    { unfold lanes. destruct rest; [done|apply all_items_insert]. }
    assert (Hall' : all_items (ac_lanes a) ≡ₚ item :: all_items lanes) by (by rewrite Hlanes, Hall).
    assert (Hlook : default [] (lanes !! slot) = rest).
    { unfold lanes. destruct rest; [by rewrite lookup_delete_eq|by rewrite lookup_insert_eq]. }
    assert (Hother : forall slot', slot' <> slot -> lanes !! slot' = ac_lanes a !! slot').
    { intros slot' Hne. unfold lanes. destruct rest; [by rewrite lookup_delete_ne|by rewrite lookup_insert_ne]. }
    split; [|by split]. split; simpl.
    + intros slot' l Hl'. destruct (decide (slot' = slot)) as [->|Hne].
      * rewrite Hl' in Hlook. simpl in Hlook. subst l. split; [|done]. intros ->.
        unfold lanes in Hl'. by rewrite lookup_delete_eq in Hl'.
      * rewrite Hother in Hl' by done. by apply Q1.
    + rewrite Hall', fmap_cons in Q2.
      assert (Hk : ac_identity a !! identity_key (ii_command item) = Some (stc_commandId (ii_command item))).
      { apply elem_of_map_to_list. rewrite <-Q2. by left. }
      apply (Permutation_cons_inv (a := index_entry item)). rewrite Q2. unfold index_entry at 1.
      symmetry. by apply map_to_list_delete.
    + rewrite Q3, Hall'. done.
    + rewrite Q3, Hall' in Q4. simpl in Q4. rewrite Q3, Hall'. simpl. lia.
  - set (waiting := mkIngressItem _ _ _).
    pose proof (all_items_insert (ac_lanes a) slot (waiting :: rest)) as Hall'.
    split.
    + split; simpl.
      * intros slot' l [[<- <-]|[_ Hl']]%lookup_insert_Some; [|by apply Q1]. split; [done|by constructor].
      * rewrite Hall'. simpl. rewrite <-Q2, Hall. done.
      * by rewrite Hall', Q3, Hall.
      * done.
    + split; [intros slot' Hne; by rewrite lookup_insert_ne|].
      exists waiting. split; [apply lookup_insert_eq|]. split; [done|]. split; [done|].
      exists (rest ++ all_items (delete slot (ac_lanes a))). by rewrite Hall'.
Qed.
End Queue.

(** * Histories of the queue *)

Section Histories.
Context {JL : JsonLibrary} (cfg : ActorConfig) {S : Type} {TS : TransitionStore S}.

(** Starting, closing and stopping only set flags; the rest of the worker only changes the
    store. *)
Inductive actor_input :=
| InSubmit (command : SlotTransitionCommand)
| InIngress (now : Z)
| InFlags (started open stop : bool) (cutoff : Z)
| InStore (f : S -> S).

Inductive actor_event :=
| Queued (command : SlotTransitionCommand)
| Settled (command : SlotTransitionCommand) (r : SlotAdmissionResult).

Definition actor_step (a : Actor) (s : S) (input : actor_input) : list actor_event * (Actor * S) :=
  match input with
  | InSubmit command =>
      let '(r, a') := submit cfg command a in
      (if bool_decide (ssr_code r = TransportQueued) then [Queued command] else [], (a', s))
  | InIngress now =>
      match ingress_turn cfg now a s with
      | None => ([], (a, s))
      | Some ((command, r), (a', s')) =>
          (if admission_terminal r then [Settled command r] else [], (a', s'))
      end
  | InFlags started open stop cutoff => ([], (set_flags a started open stop cutoff, s))
  | InStore f => ([], (a, f s))
  end.

Fixpoint actor_run (a : Actor) (s : S) (inputs : list actor_input) : list actor_event * (Actor * S) :=
  match inputs with
  | [] => ([], (a, s))
  | input :: inputs' =>
      let '(events, (a1, s1)) := actor_step a s input in
      let '(rest, final) := actor_run a1 s1 inputs' in (events ++ rest, final)
  end.

Definition of_slot (slot : string) (command : SlotTransitionCommand) : list SlotTransitionCommand :=
  if bool_decide (stc_slotId command = slot) then [command] else [].
Definition queued_of (slot : string) (events : list actor_event) : list SlotTransitionCommand :=
  mbind (fun e => match e with Queued command => of_slot slot command | _ => [] end) events.
Definition settled_of (slot : string) (events : list actor_event) : list SlotTransitionCommand :=
  mbind (fun e => match e with Settled command _ => of_slot slot command | _ => [] end) events.
Definition lane_commands (a : Actor) (slot : string) : list SlotTransitionCommand :=
  ii_command <$> default [] (ac_lanes a !! slot).

Lemma queued_of_app slot e1 e2 : queued_of slot (e1 ++ e2) = queued_of slot e1 ++ queued_of slot e2.
Proof. apply bind_app. Qed.
Lemma settled_of_app slot e1 e2 : settled_of slot (e1 ++ e2) = settled_of slot e1 ++ settled_of slot e2.
Proof. apply bind_app. Qed.

(** What one pass of [processIngress] does. *)
Lemma ingress_turn_spec now a s command r a' s' :
  queue_ok cfg a -> ingress_turn cfg now a s = Some ((command, r), (a', s')) ->
  exists item rest, ii_command item = command /\ ii_nextAttemptAtEpochMs item <= now /\
    ac_lanes a !! stc_slotId command = Some (item :: rest) /\
    a' = settle_ingress cfg now command r a.
Proof.
  intros Hq. unfold ingress_turn. destruct (select_ingress now a) as [item|] eqn:Hs; [|done].
  destruct (ts_admit _ _ s) as [answer s1]. intros [= <- <- <- <-].
  apply select_ingress_some in Hs as (slot & rest & Hl & Hn).
  destruct (qu_lane _ _ Hq _ _ Hl) as [_ Hf]. apply Forall_cons in Hf as [Hslot _].
  exists item, rest. rewrite Hslot. done.
Qed.

(** The settlement of the head of a lane, as a hand-over. *)
Lemma settle_fifo now a item rest r :
  queue_ok cfg a -> ac_lanes a !! stc_slotId (ii_command item) = Some (item :: rest) ->
  let a' := settle_ingress cfg now (ii_command item) r a in
  queue_ok cfg a' /\ forall slot, lane_commands a slot =
    settled_of slot (if admission_terminal r then [Settled (ii_command item) r] else []) ++ lane_commands a' slot.
Proof.
  intros Hq Hl. destruct (settle_head cfg now a _ item rest r Hq Hl) as (_ & Hok & Hother & Hhead).
  split; [done|]. intros slot. unfold lane_commands. destruct (decide (slot = stc_slotId (ii_command item))) as [->|Hne].
  - rewrite Hl. destruct (admission_terminal r).
    + destruct Hhead as [Hd _]. simpl. unfold of_slot. rewrite bool_decide_eq_true_2 by done. simpl. by rewrite Hd.
    + destruct Hhead as (waiting & -> & Hw & _). simpl. by rewrite Hw.
  - rewrite (Hother _ Hne). destruct (admission_terminal r); [|done].
    unfold settled_of, of_slot. simpl. by rewrite bool_decide_eq_false_2.
Qed.

Lemma submit_fifo command a : queue_ok cfg a ->
  queue_ok cfg (submit cfg command a).2 /\ forall slot,
    lane_commands a slot ++
      queued_of slot (if bool_decide (ssr_code (submit cfg command a).1 = TransportQueued) then [Queued command] else []) =
    lane_commands (submit cfg command a).2 slot.
Proof.
  intros Hq. split; [by apply submit_ok|]. intros slot.
  pose proof (submit_queued cfg command a) as Hqd. pose proof (submit_other cfg command a) as Hot.
  case_bool_decide as Hc; [|rewrite (Hot Hc); simpl; by rewrite app_nil_r].
  destruct (Hqd Hc) as (ordinal & -> & _). unfold lane_commands, queued_of, of_slot. simpl.
  case_bool_decide as Hs; simpl.
  - subst slot. rewrite lookup_insert_eq. simpl. by rewrite fmap_app.
  - rewrite lookup_insert_ne by done. by rewrite app_nil_r.
Qed.

Lemma settled_of_queued slot (b : bool) command : settled_of slot (if b then [Queued command] else []) = [].
Proof. by destruct b. Qed.
Lemma queued_of_settled slot (b : bool) command r : queued_of slot (if b then [Settled command r] else []) = [].
Proof. by destruct b. Qed.

Lemma actor_step_fifo a s input events a' s' :
  queue_ok cfg a -> actor_step a s input = (events, (a', s')) ->
  queue_ok cfg a' /\
  forall slot, lane_commands a slot ++ queued_of slot events =
               settled_of slot events ++ lane_commands a' slot.
Proof.
  intros Hq. destruct input as [command|now|st op sp cu|f]; simpl.
  - destruct (submit_fifo command a Hq) as [Hok Hf]. destruct (submit cfg command a) as [r a1]. simpl in *.
    intros [= <- <- <-]. split; [done|]. intros slot. by rewrite Hf, settled_of_queued.
  - destruct (ingress_turn cfg now a s) as [[[command r] [a1 s1]]|] eqn:Ht.
    2: { intros [= <- <- <-]. split; [done|]. intros slot. simpl. by rewrite app_nil_r. }
    apply ingress_turn_spec in Ht as (item & rest & <- & Hn & Hl & ->); [|done].
    destruct (settle_fifo now a item rest r Hq Hl) as [Hok Hf]. intros [= <- <- <-]. split; [done|].
    intros slot. rewrite Hf, queued_of_settled. by rewrite app_nil_r.
  - intros [= <- <- <-]. split; [by destruct Hq; split|]. intros slot. simpl. by rewrite app_nil_r.
  - intros [= <- <- <-]. split; [done|]. intros slot. simpl. by rewrite app_nil_r.
Qed.

Lemma actor_run_fifo inputs a s :
  queue_ok cfg a ->
  let '(events, (a', _)) := actor_run a s inputs in
  queue_ok cfg a' /\
  forall slot, lane_commands a slot ++ queued_of slot events =
               settled_of slot events ++ lane_commands a' slot.
Proof.
  revert a s. induction inputs as [|input inputs IH]; intros a s Hq; simpl.
  - split; [done|]. intros slot. by rewrite app_nil_r.
  - destruct (actor_step a s input) as [events [a1 s1]] eqn:Hs.
    destruct (actor_step_fifo _ _ _ _ _ _ Hq Hs) as [Hq1 H1].
    specialize (IH a1 s1 Hq1). destruct (actor_run a1 s1 inputs) as [rest [a2 s2]].
    destruct IH as [Hq2 H2]. split; [done|]. intros slot.
    rewrite queued_of_app, settled_of_app, (assoc_L (++)), H1, <-!(assoc_L (++)). by rewrite H2.
Qed.

(** The transport queue hands over each slot's commands in the order of their
    submission, once each: at any time, whatever the store answers and however its other
    work interleaves, the commands queued for a slot are those settled by durable admission
    followed by those still waiting. The queue never exceeds its capacity, and its
    identity index lists exactly the waiting commands. *)
Theorem ingress_fifo inputs s :
  let '(events, (a, _)) := actor_run new_actor s inputs in
  (forall slot, queued_of slot events = settled_of slot events ++ lane_commands a slot) /\
  index_entry <$> all_items (ac_lanes a) ≡ₚ map_to_list (ac_identity a) /\
  ac_size a = length (all_items (ac_lanes a)) /\
  (ac_size a <= transportAdmissionCapacity cfg)%nat.
Proof.
  pose proof (actor_run_fifo inputs new_actor s (new_actor_ok cfg)) as H.
  destruct (actor_run new_actor s inputs) as [events [a s']]. destruct H as [[_ Q2 Q3 Q4] H].
  split; [|done]. intros slot. rewrite <-H. unfold lane_commands. simpl. by rewrite lookup_empty.
Qed.

(** * The loop of [processIngress] ends *)

(** Two for a command that may be offered now, one for a command that waits. *)
Definition offer_weight (now : Z) (i : IngressItem) : nat :=
  if ii_nextAttemptAtEpochMs i <=? now then 2 else 1.
Definition offers (now : Z) (a : Actor) : nat :=
  sum_list (offer_weight now <$> all_items (ac_lanes a)).

Lemma sum_list_perm (l k : list nat) : l ≡ₚ k -> sum_list l = sum_list k.
Proof. induction 1; simpl; lia. Qed.

Lemma ingress_turn_offers now a s command r a' s' :
  queue_ok cfg a -> 0 < retryDelay cfg ->
  ingress_turn cfg now a s = Some ((command, r), (a', s')) ->
  queue_ok cfg a' /\ (offers now a' < offers now a)%nat.
Proof.
  intros Hq Hd Ht. apply ingress_turn_spec in Ht as (item & rest & <- & Hn & Hl & ->); [|done].
  destruct (settle_head cfg now a _ item rest r Hq Hl) as (_ & Hok & _ & Hhead).
  split; [done|]. unfold offers.
  assert (Hw : offer_weight now item = 2%nat).
  { unfold offer_weight. by rewrite (proj2 (Z.leb_le _ _) Hn). }
  destruct (admission_terminal r).
  - destruct Hhead as [_ Hall].
    rewrite (sum_list_perm _ _ (fmap_Permutation (offer_weight now) _ _ Hall)), fmap_cons.
    simpl. lia.
  - destruct Hhead as (waiting & _ & _ & Hwait & items & Ha & Ha').
    rewrite (sum_list_perm _ _ (fmap_Permutation (offer_weight now) _ _ Ha)).
    rewrite (sum_list_perm _ _ (fmap_Permutation (offer_weight now) _ _ Ha')), !fmap_cons. simpl.
    assert (offer_weight now waiting = 1%nat) as ->.
    { unfold offer_weight. rewrite Hwait. by rewrite (proj2 (Z.leb_gt _ _)) by lia. }
    lia.
Qed.

Lemma processIngress_enough fuel now a s :
  queue_ok cfg a -> 0 < retryDelay cfg -> (offers now a <= fuel)%nat ->
  exists a' s', processIngress cfg fuel now a s = Some (a', s') /\
    queue_ok cfg a' /\ select_ingress now a' = None.
Proof.
  revert a s. induction fuel as [|fuel IH]; intros a s Hq Hd Hf; simpl;
    destruct (ingress_turn cfg now a s) as [[[command r] [a1 s1]]|] eqn:Ht.
  1,3: destruct (ingress_turn_offers _ _ _ _ _ _ _ Hq Hd Ht) as [Hq1 Hlt].
  - lia.
  - apply IH; [done|done|lia].
  - exists a, s. split_and!; try done. unfold ingress_turn in Ht.
    destruct (select_ingress now a); [|done]. by destruct (ts_admit _ _ s).
  - exists a, s. split_and!; try done. unfold ingress_turn in Ht.
    destruct (select_ingress now a); [|done]. by destruct (ts_admit _ _ s).
Qed.

Lemma offers_bound now a : queue_ok cfg a -> (offers now a <= 2 * ac_size a)%nat.
Proof.
  intros [_ _ -> _]. unfold offers. induction (all_items (ac_lanes a)) as [|i l IH]; [done|].
  rewrite fmap_cons. simpl. unfold offer_weight at 1. destruct (_ <=? _); lia.
Qed.

(** A turn of the worker's admission loop ends: with the positive retry delay
    that the constructor enforces, [processIngress] returns after at most two offers per
    queued command, whatever the store answers, and leaves no command to offer at that time. *)
Theorem ingress_loop_ends (raw : ActorConfig) now a s :
  cfg = normalise_config raw -> queue_ok cfg a ->
  exists a' s', processIngress cfg (2 * ac_size a) now a s = Some (a', s') /\
    queue_ok cfg a' /\ select_ingress now a' = None.
Proof.
  intros Hc Hq. apply processIngress_enough; [done|rewrite Hc; simpl; lia|by apply offers_bound].
Qed.
End Histories.

(** * The worker against the interface *)

Section Worker.
Context (cfg : ActorConfig) {S : Type} {TS : TransitionStore S} {TL : TransitionStoreLaws S}.

Lemma blocked_slots_elem a slot lane :
  ac_lanes a !! slot = Some lane -> lane <> [] -> slot ∈ blocked_slots a.
Proof.
  intros Hl Hne. unfold blocked_slots. apply list_elem_of_fmap. exists (slot, lane).
  split; [done|]. apply elem_of_map_to_list. by apply map_lookup_filter_Some.
Qed.

(** An exit deadline never overtakes a queued observation: in one turn of
    [processDueDeadlines], a slot with a command still in the transport queue gets no new
    command in the store, so the deadline cannot be ordered before that command. *)
Theorem deadline_never_overtakes now a s id slot lane :
  ac_lanes a !! slot = Some lane -> lane <> [] ->
  ts_commands (processDueDeadlines cfg now a s).2 !! id = Some slot ->
  ts_commands s !! id = Some slot.
Proof.
  intros Hl Hne. unfold processDueDeadlines.
  pose proof (ts_blocked_law now (durablePendingCapacity cfg) (blocked_slots a) s id slot) as Hlaw.
  destruct (ts_admitDueDeadlines _ _ _ s) as [answer s']. simpl in *. intros H.
  destruct (Hlaw H) as [|Hn]; [done|]. destruct Hn. by eapply blocked_slots_elem.
Qed.

Context {W : Type} (effect_sink : CommittedOccupancyTransition -> W -> result string bool * W).

(** The world after the sink has been offered [effects], one after the other. *)
Definition sink_world (effects : list CommittedOccupancyTransition) (w : W) : W :=
  foldl (fun w effect => (effect_sink effect w).2) w effects.

(** The turn once it is through with [effects]. *)
Definition turn_at (now : Z) (effects : list CommittedOccupancyTransition) (s : S) (w : W)
    : bool * S * W :=
  foldl (deliver_effect cfg effect_sink now) (false, s, w) effects.

(** In its turn at [effects] the sink, in the world the effects before it left, accepted an
    effect [id], and the store, in the state they left, took the acknowledgement. *)
Definition acknowledged_in_turn now effects s w id : Prop :=
  exists before effect after,
    effects = before ++ effect :: after /\ cot_commandId effect = id /\
    (effect_sink effect (sink_world before w)).1 = Ok true /\
    (ts_completeEffects id (turn_at now before s w).1.2).1 = true.

Lemma deliver_effect_spec now p s w effect :
  let '(_, s', w') := deliver_effect cfg effect_sink now (p, s, w) effect in
  let acknowledged := (effect_sink effect w).1 = Ok true /\
    (ts_completeEffects (cot_commandId effect) s).1 = true in
  w' = (effect_sink effect w).2 /\
  forall id, (ts_undelivered s' id = ts_undelivered s id /\
              ~ (cot_commandId effect = id /\ acknowledged)) \/
             (ts_undelivered s' id = false /\ cot_commandId effect = id /\ acknowledged).
Proof.
  unfold deliver_effect. destruct (effect_sink effect w) as [answer w1].
  pose proof (ts_complete_law (cot_commandId effect) s) as Hother.
  pose proof (ts_complete_fails_law (cot_commandId effect) s) as Hfails.
  pose proof (ts_complete_done_law (cot_commandId effect) s) as Hdone.
  pose proof (ts_defer_law (cot_commandId effect) (now + retryDelay cfg)) as Hdefer.
  destruct answer as [[]|what].
  - destruct (ts_completeEffects _ s) as [[] s1]; cbn [fst snd] in *.
    + split; [done|]. intros id. destruct (decide (cot_commandId effect = id)) as [<-|Hid].
      * right. by split; [apply Hdone|].
      * left. split; [by apply Hother|tauto].
    + specialize (Hdefer "effect acknowledgement could not be persisted" s1).
      destruct (ts_deferEffects _ _ _ s1) as [d s2]. cbn [fst snd] in *. split; [done|].
      intros id. left. split; [by rewrite Hdefer, Hfails|naive_solver].
  - specialize (Hdefer "effect sink rejected committed transition" s).
    destruct (ts_deferEffects _ _ _ s) as [d s2]. cbn [fst snd] in *. split; [done|].
    intros id. left. split; [by rewrite Hdefer|naive_solver].
  - specialize (Hdefer what s). destruct (ts_deferEffects _ _ _ s) as [d s2].
    cbn [fst snd] in *. split; [done|].
    intros id. left. split; [by rewrite Hdefer|naive_solver].
Qed.

Lemma acknowledged_in_turn_snoc now l effect s w id :
  acknowledged_in_turn now (l ++ [effect]) s w id <->
  acknowledged_in_turn now l s w id \/
  (cot_commandId effect = id /\ (effect_sink effect (sink_world l w)).1 = Ok true /\
   (ts_completeEffects id (turn_at now l s w).1.2).1 = true).
Proof.
  split.
  - intros (before & e & after & Hl & Hid & Hs & Hc). destruct after as [|x after _] using rev_ind.
    + apply app_inj_tail in Hl as [-> ->]. by right.
    + left. rewrite app_comm_cons, (assoc_L (++)) in Hl. apply app_inj_tail in Hl as [-> _].
      by exists before, e, after.
  - intros [(before & e & after & -> & Hrest)|H].
    + exists before, e, (after ++ [effect]). by rewrite app_comm_cons, (assoc_L (++)).
    + by exists l, effect, [].
Qed.

Lemma turn_spec now effects s w id :
  (turn_at now effects s w).2 = sink_world effects w /\
  (ts_undelivered s id = true ->
   ts_undelivered (turn_at now effects s w).1.2 id = false <->
   acknowledged_in_turn now effects s w id).
Proof.
  induction effects as [|effect l [IHw IHu]] using rev_ind.
  { split; [done|]. intros Hu. simpl. rewrite Hu. split; [done|].
    intros ([] & ? & ? & ? & _); done. }
  rewrite acknowledged_in_turn_snoc. unfold turn_at at 1 2, sink_world at 1.
  rewrite !foldl_app. fold (turn_at now l s w) (sink_world l w). cbn [foldl].
  destruct (turn_at now l s w) as [[p1 s1] w1]. cbn [fst snd] in *. subst w1.
  pose proof (deliver_effect_spec now p1 s1 (sink_world l w) effect) as Hd.
  destruct (deliver_effect _ _ _ _ _) as [[p2 s2] w2]. cbn [fst snd] in *.
  destruct Hd as [-> Hd]. split; [done|]. intros Hu. specialize (IHu Hu).
  destruct (Hd id) as [[-> Hn]|(-> & <- & Ha)]; [|tauto].
  rewrite IHu. split; [by left|]. intros [H|(<- & Ha)]; [done|]. tauto.
Qed.

(** C40 [safety] A committed effect is kept until it is delivered: a turn of
    [processEffects] offers every listed effect to the sink once, in the listed order, and
    marks a pending effect as delivered exactly if in this turn the sink accepted it and
    the store took the acknowledgement; an effect that the sink refused or threw on, and
    one whose acknowledgement failed, are still pending after the turn. *)
Theorem effect_kept_until_delivered now s w p s' w' effects id :
  ts_listPendingEffects now s = Ok effects ->
  processEffects cfg effect_sink now s w = Ok (p, s', w') ->
  ts_undelivered s id = true ->
  w' = sink_world effects w /\
  (ts_undelivered s' id = false <-> acknowledged_in_turn now effects s w id).
Proof.
  intros Hl. unfold processEffects. rewrite Hl. intros [= H] Hu.
  destruct (turn_spec now effects s w id) as [Hw Hi]. unfold turn_at in Hw, Hi.
  rewrite H in Hw, Hi. cbn [fst snd] in Hw, Hi. auto.
Qed.
End Worker.

(** * The durable store implements the interface *)

Section StoreInstance.
Context {JL : JsonLibrary} {SQL : SqlFunctions} (now_sec : Z).

Definition text_error {A} (r : result store_error A) : result string A :=
  match r with Ok a => Ok a | Err e => Err (error_what e) end.

(** [src/database/SessionTransitionStore.cpp:7-89 SessionTransitionStore] *)
Definition occupancy_store : TransitionStore Store := {|
  ts_admit command capacity s :=
    let '(r, s') := admitSlotTransitionCommand true now_sec command capacity s in (Ok r, s');
  ts_admitDueDeadlines now capacity blocked s :=
    let '(r, s') := admitDueSlotDeadlines true now_sec now capacity blocked s in (text_error r, s');
  ts_listRunnable now s := listRunnableSlotTransitionCommands true now s;
  ts_apply id s := applySlotTransitionCommand true id s;
  ts_defer id next error s := deferSlotTransitionCommand true id next error s;
  ts_listPendingEffects now s := text_error (listPendingSlotTransitionEffects true now s);
  ts_completeEffects id s := completeSlotTransitionEffects true id s;
  ts_deferEffects id next error s := deferSlotTransitionEffects true id next error s;
  ts_nextDeadline s := nextScheduledSlotDeadlineEpochMs true s;
  ts_pendingCount s := pendingSlotTransitionCommandCount true s;
  ts_pendingEffectCount s := pendingSlotTransitionEffectCount true s;
  ts_pendingDrainCount cutoff s := text_error (pendingSlotTransitionDrainCount true cutoff s);
  ts_purgeSettled before limit s := purgeSettledSlotTransitionCommands true before limit s
|}.

Definition undelivered (s : Store) (id : string) : bool :=
  match st_inbox s !! id with Some r => effect_pending r | None => false end.

Lemma admit_deadlines_slots due ord n s k s' id r :
  admit_deadlines due ord now_sec n s = Ok (k, s') -> st_inbox s' !! id = Some r ->
  st_inbox s !! id = Some r \/ exists d, d ∈ due.*2 /\ ib_slot_id r = dl_slot_id d.
Proof.
  revert ord n s. induction due as [|[did d] due IH]; intros ord n s; simpl.
  { intros [= _ <-] H. by left. }
  unfold tbind. destruct (insert_or_ignore _ _ s) as [[u s1]|] eqn:E1; [|done].
  destruct (mark_admitted _ _ s1) as [[c s2]|] eqn:E2; [|done]. intros Hrest Hr.
  destruct (IH _ _ _ Hrest Hr) as [Hr2|(d' & Hd' & Hs)]; [|right; exists d'; split; [by right|done]].
  apply mark_admitted_step in E2 as [_ He2]. rewrite He2 in Hr2. unfold insert_or_ignore in E1.
  destruct (inbox_clash _ _ _); [injection E1 as _ <-; by left|].
  destruct (bool_decide _); [done|]. injection E1 as _ <-. simpl in Hr2.
  apply lookup_insert_Some in Hr2 as [[_ <-]|[_ Hr2]]; [|by left]. right. exists d. split; [by left|done].
Qed.

Lemma take_filter_elem {A} (p : A -> bool) n (l : list A) x :
  x ∈ take n (List.filter p l) -> p x = true.
Proof.
  intros Hx. assert (Hx' : x ∈ List.filter p l) by (by eapply elem_of_submseteq, sublist_submseteq, sublist_take).
  apply list_elem_of_In, filter_In in Hx' as [_ Hp]. done.
Qed.

Lemma update_pending_effect_other id f s id' :
  id' <> id -> undelivered (update_pending_effect id f s).2 id' = undelivered s id'.
Proof.
  intros Hne. unfold update_pending_effect, undelivered.
  destruct (st_inbox s !! id) as [r|]; [|done]. destruct (effect_pending r); [|done]. simpl.
  by rewrite lookup_insert_ne.
Qed.

#[export] Program Instance occupancy_store_laws : @TransitionStoreLaws Store occupancy_store := {|
  ts_commands s := ib_slot_id <$> st_inbox s;
  ts_undelivered := undelivered
|}.
Next Obligation.
  intros now cap blocked s id slot. simpl. unfold admitDueSlotDeadlines.
  destruct (_ || _)%bool; [by left|]. destruct (bool_decide _); [by left|].
  destruct (_ <=? _); [by left|].
  destruct (admit_deadlines _ _ _ _ s) as [[k s']|] eqn:E; [|by left]. simpl.
  rewrite lookup_fmap_Some. intros (r & <- & Hr).
  destruct (admit_deadlines_slots _ _ _ _ _ _ _ _ E Hr) as [Hr'|(d & Hd & ->)].
  - left. by rewrite lookup_fmap, Hr'.
  - right. apply list_elem_of_fmap in Hd as ([did d'] & -> & Hd). apply take_filter_elem in Hd.
    simpl in *. intros Hb. apply negb_true_iff in Hd. rewrite <-not_true_iff_false in Hd.
    apply Hd, existsb_exists. exists (dl_slot_id d'). split; [by apply list_elem_of_In|].
    apply String.eqb_refl.
Qed.
Next Obligation.
  intros id s id' Hne. simpl. unfold completeSlotTransitionEffects.
  destruct (_ || _)%bool; [done|]. by apply update_pending_effect_other.
Qed.
Next Obligation.
  intros id s id'. simpl. unfold completeSlotTransitionEffects, update_pending_effect.
  destruct (_ || _)%bool; [done|]. destruct (st_inbox s !! id) as [r|]; [|done].
  by destruct (effect_pending r).
Qed.
Next Obligation.
  intros id s. simpl. unfold completeSlotTransitionEffects, update_pending_effect, undelivered.
  destruct (_ || _)%bool; [done|]. destruct (st_inbox s !! id) as [r|]; [|intros Hf; discriminate Hf].
  destruct (effect_pending r); [|intros Hf; discriminate Hf]. simpl. intros _. rewrite lookup_insert_eq. unfold effect_pending. simpl. apply andb_false_r.
Qed.
Next Obligation.
  intros id next error s id'. simpl. unfold deferSlotTransitionEffects.
  destruct (_ || _)%bool; [done|]. destruct (decide (id' = id)) as [->|Hne];
    [|by apply update_pending_effect_other].
  unfold update_pending_effect, undelivered. destruct (st_inbox s !! id) as [r|] eqn:Hr; [|simpl; by rewrite ?Hr].
  destruct (effect_pending r) eqn:Hp; simpl; [|by rewrite Hr, Hp]. rewrite lookup_insert_eq.
  exact Hp.
Qed.
End StoreInstance.

(** * A queued OCCUPIED of slot A1 *)

#[local] Existing Instance demo_json.
#[local] Existing Instance demo_sql.
#[local] Instance demo_store : TransitionStore Store := occupancy_store 0.
#[local] Instance demo_laws : TransitionStoreLaws Store := occupancy_store_laws 0.

Definition demo_config : ActorConfig := normalise_config (mkActorConfig 16 100 50 0 0 0).
Definition demo_actor : Actor :=
  (submit demo_config demo_occupied (set_flags new_actor true true false 0)).2.

Lemma demo_actor_ok : queue_ok demo_config demo_actor.
Proof.
  apply submit_ok. pose proof (new_actor_ok demo_config) as [Q1 Q2 Q3 Q4]. by split.
Qed.

Example ingress_loop_ends_witness :
  demo_config = normalise_config demo_config /\ queue_ok demo_config demo_actor /\
  exists a' s', processIngress demo_config 2 1000 demo_actor demo_start = Some (a', s') /\
    select_ingress 1000 a' = None.
Proof.
  split; [vm_compute; reflexivity|]. split; [exact demo_actor_ok|].
  destruct (ingress_loop_ends demo_config demo_config 1000 demo_actor demo_start
    ltac:(vm_compute; reflexivity) demo_actor_ok) as (a' & s' & H & _ & Hn).
  exists a', s'. exact (conj H Hn).
Defined.

Definition demo_items : list IngressItem := [mkIngressItem demo_occupied 1 0].
Definition demo_inbox : Store := store_run demo_start [OpAdmit 0 demo_occupied 10].

Example deadline_never_overtakes_witness :
  ac_lanes demo_actor !! "A1" = Some demo_items /\
  ts_commands (processDueDeadlines demo_config 1000 demo_actor demo_inbox).2 !! "h1" = Some "A1" /\
  ts_commands demo_inbox !! "h1" = Some "A1".
Proof.
  assert (Hl : ac_lanes demo_actor !! "A1" = Some demo_items) by (vm_compute; reflexivity).
  assert (Hc : ts_commands (processDueDeadlines demo_config 1000 demo_actor demo_inbox).2 !! "h1"
               = Some "A1") by (vm_compute; reflexivity).
  split; [exact Hl|]. split; [exact Hc|].
  apply (deadline_never_overtakes demo_config 1000 demo_actor demo_inbox "h1" "A1" demo_items Hl);
    [discriminate|exact Hc].
Defined.

Definition demo_started : Store := store_run demo_inbox [OpApply "h1"].
Definition demo_sink (e : CommittedOccupancyTransition) (w : nat) : result string bool * nat :=
  (Ok true, S w).
Definition demo_effects : list CommittedOccupancyTransition :=
  match ts_listPendingEffects 2000 demo_started with Ok l => l | Err _ => [] end.
Definition demo_delivered : Store :=
  match processEffects demo_config demo_sink 2000 demo_started 0%nat with
  | Ok (_, s, _) => s | Err _ => demo_started end.

Definition demo_refusing_sink (e : CommittedOccupancyTransition) (w : nat)
    : result string bool * nat :=
  (Ok false, S w).
Definition demo_refused : Store :=
  match processEffects demo_config demo_refusing_sink 2000 demo_started 0%nat with
  | Ok (_, s, _) => s | Err _ => demo_started end.

Example effect_kept_until_delivered_witness :
  ts_undelivered demo_started "h1" = true /\
  (ts_undelivered demo_delivered "h1" = false <->
   acknowledged_in_turn demo_config demo_sink 2000 demo_effects demo_started 0%nat "h1") /\
  ts_undelivered demo_delivered "h1" = false /\
  (ts_undelivered demo_refused "h1" = false <->
   acknowledged_in_turn demo_config demo_refusing_sink 2000 demo_effects demo_started 0%nat "h1") /\
  ts_undelivered demo_refused "h1" = true.
Proof.
  assert (H1 : ts_undelivered demo_started "h1" = true) by (vm_compute; reflexivity).
  split; [exact H1|]. split; [|split; [vm_compute; reflexivity|split; [|vm_compute; reflexivity]]].
  - apply (effect_kept_until_delivered demo_config demo_sink 2000 demo_started 0%nat true
      demo_delivered 1%nat demo_effects "h1");
      [vm_compute; reflexivity|vm_compute; reflexivity|exact H1].
  - apply (effect_kept_until_delivered demo_config demo_refusing_sink 2000 demo_started 0%nat true
      demo_refused 1%nat demo_effects "h1");
      [vm_compute; reflexivity|vm_compute; reflexivity|exact H1].
Defined.
