(* ===== verification/SlotWorker.v ===== *)
(** The life of the slot transition actor ([src/parking/SlotTransitionActor.cpp]): start with its replay, the worker
    thread from lock to lock, the stop that drains, and the wait for idleness. Submissions and the requests to close
    and to stop come between any two steps of the worker.

    Shown: whatever the interleaving, a command that was queued is settled by the store before a stop is answered with
    true, and a thread that ends leaves nothing in the store that was due when the stop was requested. *)
From S2P Require Import Prelude SensorProtocol SequencePolicy SlotConfig OccupancyDb.
From S2P Require Import OccupancyAdmission OccupancyApply OccupancyInvariant OccupancyStore SlotActor.

(** * The machine *)

(** Who runs the turns: [start] before there is a thread, or the loop of the thread. *)
Inductive Runner := Replaying | Looping.

(** Where the runner is, between two sections of the mutex or two calls of the store. [progressed] and [made] are the
    local variables of the code. *)
Inductive Phase :=
| PhNone
| PhTop
| PhIngress (now : Z) (progressed : bool)
| PhAdmit (now : Z) (command : SlotTransitionCommand)
| PhRun (r : Runner) (second progressed : bool)
| PhCommands (r : Runner) (second progressed : bool) (now : Z) (l : list DurableSlotCommand) (made : bool)
| PhApply (r : Runner) (second progressed : bool) (now : Z) (c : DurableSlotCommand) (l : list DurableSlotCommand) (made : bool)
| PhDeadlines (r : Runner) (progressed : bool)
| PhAdmitDeadlines (r : Runner) (progressed : bool) (now : Z) (blocked : list string)
| PhEffects (r : Runner) (progressed : bool)
| PhEffectList (r : Runner) (progressed : bool) (now : Z) (l : list CommittedOccupancyTransition) (made : bool)
| PhDeliver (r : Runner) (progressed : bool) (now : Z) (e : CommittedOccupancyTransition)
    (l : list CommittedOccupancyTransition) (made : bool)
| PhSpawn
| PhPurge (progressed : bool)
| PhTail (progressed : bool)
| PhDrain (cutoff : Z).

Section Machine.
Context {JL : JsonLibrary} (cfg : ActorConfig) {S : Type} {TS : TransitionStore S}.
Context {W : Type} (effect_sink : CommittedOccupancyTransition -> W -> result string bool * W).

(** [include/parking/SlotTransitionActor.hpp:110-131 SlotTransitionActor] [ma_opening]: [start] has made the thread and
    not yet opened the ingress. [ma_crashed]: std::terminate. *)
Record Machine := mkMachine {
  ma_actor : Actor;
  ma_store : S;
  ma_sink : W;
  ma_phase : Phase;
  ma_admitting : bool;
  ma_deadline_admitting : bool;
  ma_processing : bool;
  ma_joinable : bool;
  ma_opening : bool;
  ma_crashed : bool
}.

Definition new_machine (s : S) (w : W) : Machine :=
  mkMachine new_actor s w PhNone false false false false false false.

Definition with_phase (ph : Phase) (m : Machine) : Machine :=
  mkMachine (ma_actor m) (ma_store m) (ma_sink m) ph (ma_admitting m) (ma_deadline_admitting m) (ma_processing m)
    (ma_joinable m) (ma_opening m) (ma_crashed m).
Definition with_actor (a : Actor) (m : Machine) : Machine :=
  mkMachine a (ma_store m) (ma_sink m) (ma_phase m) (ma_admitting m) (ma_deadline_admitting m) (ma_processing m)
    (ma_joinable m) (ma_opening m) (ma_crashed m).
Definition with_store (s : S) (m : Machine) : Machine :=
  mkMachine (ma_actor m) s (ma_sink m) (ma_phase m) (ma_admitting m) (ma_deadline_admitting m) (ma_processing m)
    (ma_joinable m) (ma_opening m) (ma_crashed m).
Definition with_sink (w : W) (m : Machine) : Machine :=
  mkMachine (ma_actor m) (ma_store m) w (ma_phase m) (ma_admitting m) (ma_deadline_admitting m) (ma_processing m)
    (ma_joinable m) (ma_opening m) (ma_crashed m).
Definition with_flags (admitting deadline processing : bool) (m : Machine) : Machine :=
  mkMachine (ma_actor m) (ma_store m) (ma_sink m) (ma_phase m) admitting deadline processing
    (ma_joinable m) (ma_opening m) (ma_crashed m).
Definition with_thread (joinable opening crashed : bool) (m : Machine) : Machine :=
  mkMachine (ma_actor m) (ma_store m) (ma_sink m) (ma_phase m) (ma_admitting m) (ma_deadline_admitting m)
    (ma_processing m) joinable opening crashed.

Definition set_started (started : bool) (a : Actor) : Actor :=
  set_flags a started (ac_ingress_open a) (ac_stop_requested a) (ac_drain_cutoff a).

(** * The runner *)

(** What follows a listing of runnable commands that made no progress. *)
Definition after_run (r : Runner) (second progressed : bool) : Phase :=
  if second then PhEffects r progressed else PhDeadlines r progressed.

(** What follows the effects: the replay goes round until there is no progress, the thread cleans up. *)
Definition after_effects (r : Runner) (progressed : bool) : Phase :=
  match r with
  | Replaying => if progressed then PhRun Replaying false false else PhSpawn
  | Looping => PhPurge progressed
  end.

(** An exception out of the store's list of effects: the replay gives up, the thread goes on without the purge. *)
Definition effects_failed (r : Runner) (progressed : bool) (m : Machine) : Machine :=
  match r with
  | Replaying => with_phase PhNone (with_actor (set_started false (ma_actor m)) m)
  | Looping => with_phase (PhTail progressed) m
  end.

(** [src/parking/SlotTransitionActor.cpp:459-487 SlotTransitionActor::run] The end of a turn, up to the unlock. *)
Definition turn_end (progressed : bool) (m : Machine) : Machine :=
  if ac_stop_requested (ma_actor m) && negb (ma_processing m) then
    if progressed then with_phase PhTop m else
    if negb (ac_size (ma_actor m) =? 0)%nat || ma_admitting m then with_phase PhTop m
    else with_phase (PhDrain (ac_drain_cutoff (ma_actor m))) m
  else with_phase PhTop m.

(** [src/parking/SlotTransitionActor.cpp:467-487 SlotTransitionActor::run] The thread ends when nothing remains. *)
Definition drain_check (cutoff : Z) (m : Machine) : Machine :=
  let drain_remaining :=
    match ts_pendingDrainCount cutoff (ma_store m) with Ok n => negb (n =? 0)%nat | Err _ => true end in
  if drain_remaining then with_phase PhTop m
  else with_phase PhNone (with_actor (set_started false (ma_actor m)) m).

(** [src/parking/SlotTransitionActor.cpp:438-506 SlotTransitionActor::run] One step of the runner at the time [now]; the
    phases of [Replaying] are those of [start] (lines 77-84). A wait is a step that may come late. *)
Definition runner_step (now : Z) (m : Machine) : list actor_event * Machine :=
  match ma_phase m with
  | PhNone | PhSpawn => ([], m)
  | PhTop => ([], with_phase (PhIngress now false) m)
  | PhIngress t progressed =>
      match select_ingress t (ma_actor m) with
      | None => ([], with_phase (PhRun Looping false progressed) m)
      | Some item =>
          ([], with_phase (PhAdmit t (ii_command item)) (with_flags true (ma_deadline_admitting m) (ma_processing m) m))
      end
  | PhAdmit t command =>
      let '(answer, s') := ts_admit command (durablePendingCapacity cfg) (ma_store m) in
      let admission :=
        match answer with
        | Ok r => r
        | Err what => mkSlotAdmissionResult AdmissionRetryable (stc_commandId command) what
        end in
      (if admission_terminal admission then [Settled command admission] else [],
       with_phase (PhIngress t true) (with_flags false (ma_deadline_admitting m) (ma_processing m)
         (with_store s' (with_actor (settle_ingress cfg t command admission (ma_actor m)) m))))
  | PhRun r second progressed =>
      ([], with_phase (PhCommands r second progressed now (ts_listRunnable now (ma_store m)) false) m)
  | PhCommands r second progressed t l made =>
      match l with
      | c :: l =>
          ([], with_phase (PhApply r second progressed t c l made)
                 (with_flags (ma_admitting m) (ma_deadline_admitting m) true m))
      | [] =>
          ([], with_phase (if made then PhRun r second true else after_run r second progressed) m)
      end
  | PhApply r second progressed t c l made =>
      let '(made', s') := run_command cfg t (made, ma_store m) c in
      ([], with_phase (PhCommands r second progressed t l made')
             (with_flags (ma_admitting m) (ma_deadline_admitting m) false (with_store s' m)))
  | PhDeadlines r progressed =>
      ([], with_phase (PhAdmitDeadlines r progressed now (blocked_slots (ma_actor m)))
             (with_flags (ma_admitting m) true (ma_processing m) m))
  | PhAdmitDeadlines r progressed t blocked =>
      let '(answer, s') := ts_admitDueDeadlines t (durablePendingCapacity cfg) blocked (ma_store m) in
      let admitted := match answer with Ok n => negb (n =? 0)%nat | Err _ => false end in
      ([], with_phase (PhRun r true (admitted || progressed))
             (with_flags (ma_admitting m) false (ma_processing m) (with_store s' m)))
  | PhEffects r progressed =>
      match ts_listPendingEffects now (ma_store m) with
      | Err _ => ([], effects_failed r progressed m)
      | Ok l => ([], with_phase (PhEffectList r progressed now l false) m)
      end
  | PhEffectList r progressed t l made =>
      match l with
      | e :: l =>
          ([], with_phase (PhDeliver r progressed t e l made)
                 (with_flags (ma_admitting m) (ma_deadline_admitting m) true m))
      | [] => ([], with_phase (after_effects r (made || progressed)) m)
      end
  | PhDeliver r progressed t e l made =>
      let '(made', s', w') := deliver_effect cfg effect_sink t (made, ma_store m, ma_sink m) e in
      ([], with_phase (PhEffectList r progressed t l made')
             (with_flags (ma_admitting m) (ma_deadline_admitting m) false (with_sink w' (with_store s' m))))
  | PhPurge progressed =>
      let '(a', s') := purgeSettledIfDue cfg now (ma_actor m) (ma_store m) in
      ([], with_phase (PhTail progressed) (with_store s' (with_actor a' m)))
  | PhTail progressed => ([], turn_end progressed m)
  | PhDrain cutoff => ([], drain_check cutoff m)
  end.

(** * The callers *)

Definition starting (m : Machine) : bool :=
  ma_opening m ||
  match ma_phase m with
  | PhSpawn | PhRun Replaying _ _ | PhCommands Replaying _ _ _ _ _ | PhApply Replaying _ _ _ _ _ _
  | PhDeadlines Replaying _ | PhAdmitDeadlines Replaying _ _ _ | PhEffects Replaying _
  | PhEffectList Replaying _ _ _ _ | PhDeliver Replaying _ _ _ _ _ => true
  | _ => false
  end.

(** [src/parking/SlotTransitionActor.cpp:62-75 SlotTransitionActor::start] The first part, with the answer of
    [store_.ready()]; what is answered at once, or [None] when the replay begins. One thread calls [start]: it does not
    call again before it has its answer. *)
Definition start_begin (ready : bool) (m : Machine) : option bool * Machine :=
  if negb ready then (Some false, m) else
  if ac_started (ma_actor m) then (Some true, m) else
  (None, with_phase (PhRun Replaying false false) (with_actor (set_flags (ma_actor m) true false false 0) m)).

(** [src/parking/SlotTransitionActor.cpp:96-102 SlotTransitionActor::start] The thread; the assignment to a std::thread
    that can still be joined ends the program. *)
Definition start_spawn (thread_ok : bool) (m : Machine) : Machine :=
  match ma_phase m with
  | PhSpawn =>
      if negb thread_ok then with_phase PhNone (with_actor (set_started false (ma_actor m)) m) else
      if ma_joinable m then with_thread true (ma_opening m) true m else
      with_phase PhTop (with_thread true true (ma_crashed m) m)
  | _ => m
  end.

(** [src/parking/SlotTransitionActor.cpp:103-108 SlotTransitionActor::start] *)
Definition start_open (m : Machine) : Machine :=
  if ma_opening m then
    with_thread (ma_joinable m) false (ma_crashed m)
      (with_actor (set_flags (ma_actor m) (ac_started (ma_actor m)) true (ac_stop_requested (ma_actor m))
                     (ac_drain_cutoff (ma_actor m))) m)
  else m.

(** [src/parking/SlotTransitionActor.cpp:166-173 SlotTransitionActor::stopAndDrain] The request; [Some true] when there is
    nothing to stop. *)
Definition stop_request (now : Z) (m : Machine) : option bool * Machine :=
  if negb (ac_started (ma_actor m)) then (Some true, m) else
  (None, with_actor (set_flags (ma_actor m) true (ac_ingress_open (ma_actor m)) true
           (if ac_drain_cutoff (ma_actor m) =? 0 then now else ac_drain_cutoff (ma_actor m))) m).

(** [src/parking/SlotTransitionActor.cpp:174-182 SlotTransitionActor::stopAndDrain] The end of the wait, because the thread
    ended or because the time is over, and the join. *)
Definition stop_wait (m : Machine) : bool * Machine :=
  if ac_started (ma_actor m) then (false, m) else (true, with_thread false (ma_opening m) (ma_crashed m) m).

(** [src/parking/SlotTransitionActor.cpp:184-206 SlotTransitionActor::waitUntilIdle] One round: what it sees under the
    mutex of [m1], and in the store of [m2] later. [None]: it goes on waiting, if there is time. *)
Definition idle_round (now : Z) (m1 m2 : Machine) : option bool :=
  if negb (ac_size (ma_actor m1) =? 0)%nat || ma_admitting m1 || ma_deadline_admitting m1 || ma_processing m1
  then Some false else
  let due_deadline := match ts_nextDeadline (ma_store m2) with Some d => d <=? now | None => false end in
  if (ts_pendingCount (ma_store m2) =? 0)%nat && (ts_pendingEffectCount (ma_store m2) =? 0)%nat && negb due_deadline
  then Some true else None.

Inductive WorkerOp :=
| WoSubmit (command : SlotTransitionCommand)
| WoCloseIngress
| WoStart (ready : bool)
| WoSpawn (thread_ok : bool)
| WoOpen
| WoRequestStop (now : Z)
| WoWaitStop
| WoStep (now : Z).

Definition machine_step (op : WorkerOp) (m : Machine) : list actor_event * Machine :=
  if ma_crashed m then ([], m) else
  match op with
  | WoSubmit command =>
      let '(r, a) := submit cfg command (ma_actor m) in
      (if bool_decide (ssr_code r = TransportQueued) then [Queued command] else [], with_actor a m)
  | WoCloseIngress => ([], with_actor (closeIngress (ma_actor m)) m)
  | WoStart ready => ([], if starting m then m else (start_begin ready m).2)
  | WoSpawn thread_ok => ([], start_spawn thread_ok m)
  | WoOpen => ([], start_open m)
  | WoRequestStop now => ([], (stop_request now m).2)
  | WoWaitStop => ([], (stop_wait m).2)
  | WoStep now => runner_step now m
  end.

Fixpoint machine_run (ops : list WorkerOp) (m : Machine) : list actor_event * Machine :=
  match ops with
  | [] => ([], m)
  | op :: ops =>
      let '(e, m1) := machine_step op m in
      let '(es, m2) := machine_run ops m1 in (e ++ es, m2)
  end.
End Machine.

(** * The invariant *)

(** The thread exists. *)
Definition looping (ph : Phase) : bool :=
  match ph with
  | PhTop | PhIngress _ _ | PhAdmit _ _ | PhPurge _ | PhTail _ | PhDrain _ => true
  | PhRun r _ _ | PhCommands r _ _ _ _ _ | PhApply r _ _ _ _ _ _ | PhDeadlines r _ | PhAdmitDeadlines r _ _ _
  | PhEffects r _ | PhEffectList r _ _ _ _ | PhDeliver r _ _ _ _ _ => match r with Looping => true | Replaying => false end
  | PhNone | PhSpawn => false
  end.
Definition idle_phase (ph : Phase) : bool := match ph with PhNone => true | _ => false end.

Section Safety.
Context {JL : JsonLibrary} (cfg : ActorConfig) {S : Type} {TS : TransitionStore S}.
Context {W : Type} (effect_sink : CommittedOccupancyTransition -> W -> result string bool * W).
Notation Machine := (Machine (S := S) (W := W)).
Implicit Types (m : Machine) (a : Actor).

(** What a phase promises about the actor. *)
Definition phase_ok (ph : Phase) (a : Actor) : Prop :=
  match ph with
  | PhAdmit _ command => exists item rest,
      ii_command item = command /\ ac_lanes a !! stc_slotId command = Some (item :: rest)
  | PhDrain cutoff => ac_size a = 0%nat /\ ac_stop_requested a = true /\ cutoff = ac_drain_cutoff a
  | _ => True
  end.

Record machine_ok (events : list actor_event) (m : Machine) : Prop := {
  mk_queue : queue_ok cfg (ma_actor m);
  mk_fifo : forall slot, queued_of slot events = settled_of slot events ++ lane_commands (ma_actor m) slot;
  mk_started : ac_started (ma_actor m) = negb (idle_phase (ma_phase m));
  mk_opening : ma_opening m = true -> looping (ma_phase m) || idle_phase (ma_phase m) = true;
  mk_open : ac_ingress_open (ma_actor m) = true -> looping (ma_phase m) || idle_phase (ma_phase m) = true;
  mk_empty : looping (ma_phase m) = false -> ac_size (ma_actor m) = 0%nat;
  mk_stop : ac_stop_requested (ma_actor m) = true -> ac_drain_cutoff (ma_actor m) <> 0;
  mk_phase : phase_ok (ma_phase m) (ma_actor m);
  mk_admitting : ma_admitting m = match ma_phase m with PhAdmit _ _ => true | _ => false end;
  mk_deadline : ma_deadline_admitting m = match ma_phase m with PhAdmitDeadlines _ _ _ _ => true | _ => false end;
  mk_processing : ma_processing m =
    match ma_phase m with PhApply _ _ _ _ _ _ _ | PhDeliver _ _ _ _ _ _ => true | _ => false end
}.

Lemma new_machine_ok s w : machine_ok [] (new_machine s w).
Proof. split; try done. apply new_actor_ok. Qed.

(** The queue of an actor; the flags do not matter to it. *)
Definition same_queue (a a' : Actor) : Prop :=
  ac_lanes a' = ac_lanes a /\ ac_identity a' = ac_identity a /\ ac_size a' = ac_size a.

Lemma queue_ok_same a a' : same_queue a a' -> queue_ok cfg a -> queue_ok cfg a'.
Proof. intros (E1 & E2 & E3) [Q1 Q2 Q3 Q4]. split; by rewrite ?E1, ?E2, ?E3. Qed.

Lemma lane_commands_same a a' slot : same_queue a a' -> lane_commands a' slot = lane_commands a slot.
Proof. intros (E1 & _). unfold lane_commands. by rewrite E1. Qed.

(** A step that leaves the queue alone keeps the invariant when it keeps what is said of flags and phase. *)
Lemma machine_ok_quiet events m m' :
  machine_ok events m -> same_queue (ma_actor m) (ma_actor m') ->
  ac_started (ma_actor m') = negb (idle_phase (ma_phase m')) ->
  (ma_opening m' = true -> looping (ma_phase m') || idle_phase (ma_phase m') = true) ->
  (ac_ingress_open (ma_actor m') = true -> looping (ma_phase m') || idle_phase (ma_phase m') = true) ->
  (looping (ma_phase m') = false -> ac_size (ma_actor m) = 0%nat) ->
  (ac_stop_requested (ma_actor m') = true -> ac_drain_cutoff (ma_actor m') <> 0) ->
  phase_ok (ma_phase m') (ma_actor m') ->
  ma_admitting m' = match ma_phase m' with PhAdmit _ _ => true | _ => false end ->
  ma_deadline_admitting m' = match ma_phase m' with PhAdmitDeadlines _ _ _ _ => true | _ => false end ->
  ma_processing m' = match ma_phase m' with PhApply _ _ _ _ _ _ _ | PhDeliver _ _ _ _ _ _ => true | _ => false end ->
  machine_ok events m'.
Proof.
  intros [] Hs. intros. split; try done; [by eapply queue_ok_same| |by rewrite (proj2 (proj2 Hs)); auto].
  intros slot. by rewrite (lane_commands_same _ _ _ Hs).
Qed.

Lemma fifo_extend events e a a' :
  (forall slot, queued_of slot events = settled_of slot events ++ lane_commands a slot) ->
  (forall slot, lane_commands a slot ++ queued_of slot e = settled_of slot e ++ lane_commands a' slot) ->
  forall slot, queued_of slot (events ++ e) = settled_of slot (events ++ e) ++ lane_commands a' slot.
Proof.
  intros H H' slot. by rewrite queued_of_app, settled_of_app, H, <- !(assoc_L (++)), H'.
Qed.

(** What a submission leaves as it is. *)
Lemma submit_frame command a : let '(r, a') := submit cfg command a in
  (ac_started a', ac_ingress_open a', ac_stop_requested a', ac_drain_cutoff a') =
    (ac_started a, ac_ingress_open a, ac_stop_requested a, ac_drain_cutoff a) /\
  (a' = a \/ ac_started a = true /\ ac_ingress_open a = true /\ ac_stop_requested a = false) /\
  forall slot item rest, ac_lanes a !! slot = Some (item :: rest) ->
    exists rest', ac_lanes a' !! slot = Some (item :: rest').
Proof.
  unfold submit. destruct (_ || _ || _)%bool; [simpl; eauto 10|].
  destruct (negb _ || _ || _)%bool eqn:Ef; [simpl; eauto 10|].
  rewrite !orb_false_iff, !negb_false_iff in Ef. destruct Ef as [[E1 E2] E3].
  destruct (ac_identity a !! _) as [existing|].
  { destruct (find_queued a existing) as [stored|]; [|simpl; eauto 10]. destruct (sameSlotSourceFact _ _); simpl; eauto 10. }
  destruct (_ <=? _)%nat; [simpl; eauto 10|]. simpl. split; [done|]. split; [by right|]. intros slot item rest Hl.
  destruct (decide (slot = stc_slotId command)) as [->|Hne].
  - rewrite Hl, lookup_insert_eq. simpl. by eexists.
  - rewrite lookup_insert_ne by done. eauto.
Qed.

Lemma submit_step_ok events m command : machine_ok events m ->
  let '(e, m') := machine_step cfg effect_sink (WoSubmit command) m in machine_ok (events ++ e) m'.
Proof.
  intros Hm. unfold machine_step. destruct (ma_crashed m); [by rewrite app_nil_r|].
  pose proof (submit_frame command (ma_actor m)) as Hf.
  destruct (submit_fifo cfg command (ma_actor m) (mk_queue _ _ Hm)) as [Hok Hfifo].
  destruct (submit cfg command (ma_actor m)) as [r a'] eqn:Es. simpl in Hok, Hfifo.
  destruct Hf as (Hflags & Hcase & Hhead). destruct Hm as [Q F St Op On Em Sp Ph Ad De Pr].
  destruct Hcase as [->|(Hst & Hopen & Hnostop)].
  { split; try done. simpl. eapply fifo_extend; [exact F|]. intros slot. by rewrite Hfifo, settled_of_queued. }
  assert (Hloop : looping (ma_phase m) = true).
  { specialize (On Hopen). rewrite Hst in St. by destruct (ma_phase m) as [| | | |[]|[]|[]|[]|[]|[]|[]|[]| | | |]. }
  injection Hflags as H1 H2 H3 H4. split; simpl; rewrite ?H1, ?H2, ?H3, ?H4, ?Hloop; try done.
  - eapply fifo_extend; [exact F|]. intros slot. by rewrite Hfifo, settled_of_queued.
  - destruct (ma_phase m); try done; simpl in *.
    + destruct Ph as (item & rest & <- & Hl). destruct (Hhead _ _ _ Hl) as [rest' Hl']. eauto.
    + destruct Ph as (_ & Ph & _). congruence.
Qed.

Definition op_clock (op : WorkerOp) : Prop := match op with WoRequestStop now => 0 < now | _ => True end.

Lemma size_lanes_empty a : queue_ok cfg a -> ac_size a = 0%nat -> forall slot, lane_commands a slot = [].
Proof.
  intros Hq Hs slot. unfold lane_commands. destruct (ac_lanes a !! slot) as [[|item lane]|] eqn:Hl; try done.
  assert (Hi : item ∈ all_items (ac_lanes a)) by (apply all_items_elem; exists slot, (item :: lane); split; [done|by left]).
  rewrite (qu_size _ _ Hq) in Hs. apply nil_length_inv in Hs. rewrite Hs in Hi. by apply elem_of_nil in Hi.
Qed.

(** What the callers do to the actor, apart from submitting. *)
Lemma caller_step_ok events m op : machine_ok events m -> op_clock op ->
  match op with WoSubmit _ | WoStep _ => False | _ => True end ->
  let '(e, m') := machine_step cfg effect_sink op m in e = [] /\ machine_ok events m'.
Proof.
  intros Hm Hc Hop. unfold machine_step. destruct (ma_crashed m); [done|].
  pose proof Hm as [Q F St Op On Em Sp Ph Ad De Pr].
  destruct op as [command| |ready|thread_ok| |now| |now]; try done; (split; [done|]).
  - (* closeIngress *) eapply machine_ok_quiet; [exact Hm|..]; try done.
  - (* start *) destruct (starting m) eqn:Es; [done|]. unfold start_begin. destruct (negb ready); [done|].
    destruct (ac_started (ma_actor m)) eqn:Est; [done|]. simpl. symmetry in St. apply negb_false_iff in St.
    assert (E : ma_phase m = PhNone) by (by destruct (ma_phase m)). rewrite E in *.
    apply orb_false_iff in Es as [Es _].
    eapply machine_ok_quiet; [exact Hm|..]; try done; simpl; try congruence; auto.
  - (* the thread *) unfold start_spawn. destruct (ma_phase m) eqn:E; try done.
    destruct (negb thread_ok); [|destruct (ma_joinable m)].
    + eapply machine_ok_quiet; [exact Hm|..]; try done; simpl; auto.
    + eapply machine_ok_quiet; [exact Hm|..]; rewrite ?E; try done; simpl; rewrite ?E; auto.
    + eapply machine_ok_quiet; [exact Hm|..]; try done; simpl; auto.
  - (* open *) unfold start_open. destruct (ma_opening m) eqn:Eo; [|done].
    eapply machine_ok_quiet; [exact Hm|..]; try done; simpl; auto.
  - (* the request to stop *) unfold stop_request. destruct (ac_started (ma_actor m)) eqn:Est; [|done]. simpl.
    eapply machine_ok_quiet; [exact Hm|..]; simpl; try done; auto.
    + intros _. simpl in Hc. destruct (ac_drain_cutoff (ma_actor m) =? 0) eqn:Hz; lia.
    + destruct (ma_phase m); try done. destruct Ph as (P1 & P2 & ->). split; [done|]. split; [done|].
      specialize (Sp P2). by rewrite (proj2 (Z.eqb_neq _ _)).
  - (* the wait *) unfold stop_wait. destruct (ac_started (ma_actor m)) eqn:Est; [done|]. simpl.
    eapply machine_ok_quiet; [exact Hm|..]; simpl; try done; congruence.
Qed.

(** A step of the runner that leaves the actor as it is and goes to an ordinary phase. *)
Definition plain (ph : Phase) : bool := match ph with PhNone | PhAdmit _ _ | PhDrain _ => false | _ => true end.

Lemma runner_quiet events m m' :
  machine_ok events m -> same_queue (ma_actor m) (ma_actor m') ->
  (ac_started (ma_actor m'), ac_ingress_open (ma_actor m'), ac_stop_requested (ma_actor m'), ac_drain_cutoff (ma_actor m')) =
  (ac_started (ma_actor m), ac_ingress_open (ma_actor m), ac_stop_requested (ma_actor m), ac_drain_cutoff (ma_actor m)) ->
  ma_opening m' = ma_opening m -> idle_phase (ma_phase m) = false -> plain (ma_phase m') = true ->
  looping (ma_phase m') = looping (ma_phase m) ->
  ma_admitting m' = false ->
  ma_deadline_admitting m' = match ma_phase m' with PhAdmitDeadlines _ _ _ _ => true | _ => false end ->
  ma_processing m' = match ma_phase m' with PhApply _ _ _ _ _ _ _ | PhDeliver _ _ _ _ _ _ => true | _ => false end ->
  machine_ok events m'.
Proof.
  intros Hm Hq Hf Ho Hi Hp Hl Ha Hd Hpr. injection Hf as H1 H2 H3 H4. pose proof Hm as [Q F St Op On Em Sp Ph Ad De Pr].
  assert (Hi' : idle_phase (ma_phase m') = false) by (by destruct (ma_phase m')).
  eapply machine_ok_quiet; [exact Hm|exact Hq|..]; rewrite ?H1, ?H2, ?H3, ?H4, ?Ho, ?Hl, ?Hi', ?Hi in *; try done.
  - by destruct (ma_phase m').
  - by destruct (ma_phase m').
Qed.

Lemma purge_frame now a (s : S) : let '(a', _) := purgeSettledIfDue cfg now a s in same_queue a a' /\
  (ac_started a', ac_ingress_open a', ac_stop_requested a', ac_drain_cutoff a') =
  (ac_started a, ac_ingress_open a, ac_stop_requested a, ac_drain_cutoff a).
Proof. unfold purgeSettledIfDue. destruct (_ || _)%bool; [done|]. by destruct (_ && _). Qed.

Lemma drain_check_cases cutoff m :
  drain_check cutoff m = with_phase PhTop m \/
  ts_pendingDrainCount cutoff (ma_store m) = Ok 0%nat /\
  drain_check cutoff m = with_phase PhNone (with_actor (set_started false (ma_actor m)) m).
Proof.
  unfold drain_check. destruct (ts_pendingDrainCount cutoff (ma_store m)) as [[|n]|what]; simpl; auto.
Qed.

Ltac quiet Hm E := cbv beta iota; rewrite ?app_nil_r; eapply runner_quiet; [exact Hm|..]; rewrite ?E; try done.

Lemma runner_step_ok events m now : machine_ok events m ->
  let '(e, m') := runner_step cfg effect_sink now m in machine_ok (events ++ e) m'.
Proof.
  intros Hm. pose proof Hm as [Q F St Op On Em Sp Ph Ad De Pr]. unfold runner_step.
  destruct (ma_phase m) as [| |t p|t command|r sec p|r sec p t l made|r sec p t c l made|r p|r p t blocked|r p|r p t l made
    |r p t e l made| |p|p|cutoff] eqn:E; cbv beta iota; rewrite ?app_nil_r; [exact Hm|..].
  - by quiet Hm E.
  - destruct (select_ingress t (ma_actor m)) as [item|] eqn:Es; cbv beta iota; rewrite ?app_nil_r;
      [|by quiet Hm E].
    apply select_ingress_some in Es as (slot & rest & Hl & _).
    eapply machine_ok_quiet; [exact Hm|..]; try done; simpl.
    exists item, rest. split; [done|]. destruct (qu_lane _ _ Q _ _ Hl) as [_ Hf].
    apply Forall_cons in Hf as [-> _]. done.
  - destruct Ph as (item & rest & <- & Hl).
    destruct (ts_admit _ _ (ma_store m)) as [answer s'].
    match goal with |- context [settle_ingress _ _ _ ?r0 _] => set (r := r0) end.
    destruct (settle_fifo cfg t (ma_actor m) item rest r Q Hl) as [Hok Hfifo]. cbv zeta in Hok, Hfifo.
    assert (Hfl : forall a, (ac_started a, ac_ingress_open a, ac_stop_requested a, ac_drain_cutoff a) =
      (ac_started (settle_ingress cfg t (ii_command item) r a), ac_ingress_open (settle_ingress cfg t (ii_command item) r a),
       ac_stop_requested (settle_ingress cfg t (ii_command item) r a), ac_drain_cutoff (settle_ingress cfg t (ii_command item) r a))).
    { intros a. unfold settle_ingress. by repeat case_match. }
    specialize (Hfl (ma_actor m)). injection Hfl as H1 H2 H3 H4.
    split; simpl; rewrite <- ?H1, <- ?H2, <- ?H3, <- ?H4; try done.
    eapply fifo_extend; [exact F|]. intros slot. rewrite Hfifo, queued_of_settled. by rewrite app_nil_r.
  - by quiet Hm E.
  - destruct l as [|c l]; cbv beta iota; rewrite ?app_nil_r; [|by quiet Hm E].
    quiet Hm E; simpl; destruct made, sec, r; done.
  - destruct (run_command _ _ _ _) as [made' s']. cbv beta iota; rewrite ?app_nil_r. by quiet Hm E.
  - by quiet Hm E.
  - destruct (ts_admitDueDeadlines _ _ _ _) as [answer s']. cbv beta iota; rewrite ?app_nil_r.
    by quiet Hm E.
  - destruct (ts_listPendingEffects _ _) as [l|what]; cbv beta iota; rewrite ?app_nil_r; [by quiet Hm E|].
    destruct r; simpl; [|by quiet Hm E].
    eapply machine_ok_quiet; [exact Hm|..]; try done; simpl; auto.
  - destruct l as [|e l]; cbv beta iota; rewrite ?app_nil_r; [|by quiet Hm E].
    quiet Hm E; simpl; destruct made, p, r; done.
  - destruct (deliver_effect _ _ _ _ _) as [[made' s'] w']. cbv beta iota; rewrite ?app_nil_r.
    by quiet Hm E.
  - exact Hm.
  - pose proof (purge_frame now (ma_actor m) (ma_store m)) as Hf.
    destruct (purgeSettledIfDue _ _ _ _) as [a' s']. destruct Hf as [Hsq Hf]. cbv beta iota; rewrite ?app_nil_r.
    by quiet Hm E.
  - unfold turn_end. destruct (ac_stop_requested (ma_actor m)) eqn:Estop; simpl;
      [|by quiet Hm E].
    destruct (negb (ma_processing m)); [|by quiet Hm E].
    destruct p; [by quiet Hm E|].
    destruct (ac_size (ma_actor m) =? 0)%nat eqn:Esz; simpl; [|by quiet Hm E].
    destruct (ma_admitting m) eqn:Ead; [by quiet Hm E|].
    apply Nat.eqb_eq in Esz. eapply machine_ok_quiet; [exact Hm|..]; try done; simpl; auto.
  - destruct Ph as (P1 & P2 & ->). destruct (drain_check_cases (ac_drain_cutoff (ma_actor m)) m) as [->|[_ ->]];
      [by quiet Hm E|].
    eapply machine_ok_quiet; [exact Hm|..]; try done; simpl; auto.
Qed.

Lemma machine_run_ok ops : forall events m, machine_ok events m -> Forall op_clock ops ->
  let '(e, m') := machine_run cfg effect_sink ops m in machine_ok (events ++ e) m'.
Proof.
  induction ops as [|op ops IH]; intros events m Hm Hc; simpl; [by rewrite app_nil_r|].
  apply Forall_cons in Hc as [Hop Hc].
  assert (H1 : let '(e, m1) := machine_step cfg effect_sink op m in machine_ok (events ++ e) m1).
  { destruct op; try by apply submit_step_ok.
    1-6: match goal with |- context [machine_step _ _ ?o _] => pose proof (caller_step_ok events m o Hm Hop I) as H end;
      destruct (machine_step _ _ _ _) as [e m1]; destruct H as [-> H]; by rewrite app_nil_r.
    unfold machine_step. destruct (ma_crashed m); [by rewrite app_nil_r|by apply runner_step_ok]. }
  destruct (machine_step _ _ op m) as [e m1]. specialize (IH _ _ H1 Hc).
  destruct (machine_run _ _ ops m1) as [es m2]. by rewrite (assoc_L (++)).
Qed.

(** * What a stop and an answer of idleness mean *)

Lemma reachable_ok ops s w : Forall op_clock ops ->
  let '(events, m) := machine_run cfg effect_sink ops (new_machine s w) in machine_ok events m.
Proof. intros Hc. pose proof (machine_run_ok ops [] _ (new_machine_ok s w) Hc). by destruct (machine_run _ _ _ _). Qed.

Lemma settled_when_empty events m : machine_ok events m -> ac_size (ma_actor m) = 0%nat ->
  forall slot, queued_of slot events = settled_of slot events.
Proof. intros Hm Hs slot. by rewrite (mk_fifo _ _ Hm), (size_lanes_empty _ (mk_queue _ _ Hm) Hs), app_nil_r. Qed.

(** The thread ends by itself only. *)
Lemma thread_end events m now : machine_ok events m -> ma_crashed m = false -> looping (ma_phase m) = true ->
  let m' := (machine_step cfg effect_sink (WoStep now) m).2 in
  ac_started (ma_actor m') = false ->
  ac_stop_requested (ma_actor m') = true /\ ts_pendingDrainCount (ac_drain_cutoff (ma_actor m')) (ma_store m') = Ok 0%nat.
Proof.
  intros Hm Hcr Hl. pose proof (runner_step_ok events m now Hm) as Hok. cbv zeta. unfold machine_step. rewrite Hcr.
  destruct (runner_step _ _ now m) as [e m'] eqn:Es. intros Hs. simpl in *. rewrite (mk_started _ _ Hok) in Hs.
  apply negb_false_iff in Hs. pose proof (mk_phase _ _ Hm) as Ph. unfold runner_step in Es.
  destruct (ma_phase m) as [| | | |r ? ?|r ? ? ? [|c l] ?|r ? ? ? ? ? ?|r ?|r ? ? ?|r ?|r ? ? [|c l] ?|r ? ? ? ? ?| |p|p|cutoff];
    try done; try destruct r; try done; [..|destruct Ph as (_ & P2 & ->); revert Hs; injection Es as <- <-;
      destruct (drain_check_cases (ac_drain_cutoff (ma_actor m)) m) as [->|[Hd ->]]; done]; exfalso.
  all: unfold after_run, after_effects, turn_end in *; repeat case_match; simplify_eq; try done.
Qed.


(** When both looks of [waitUntilIdle] see the same state, idleness means that every queued command was settled, nobody
    is at work on one, and the store has neither commands nor effects to work on. *)
Theorem idle_all_settled ops s w now : Forall op_clock ops ->
  let '(events, m) := machine_run cfg effect_sink ops (new_machine s w) in
  idle_round now m m = Some true ->
  (forall slot, queued_of slot events = settled_of slot events) /\
  match ma_phase m with PhAdmit _ _ | PhAdmitDeadlines _ _ _ _ | PhApply _ _ _ _ _ _ _ | PhDeliver _ _ _ _ _ _ => False | _ => True end /\
  ts_pendingCount (ma_store m) = 0%nat /\ ts_pendingEffectCount (ma_store m) = 0%nat.
Proof.
  intros Hc. pose proof (reachable_ok ops s w Hc) as Hm. destruct (machine_run _ _ _ _) as [events m]. unfold idle_round.
  destruct (negb _ || _ || _ || _) eqn:E; [done|]. rewrite !orb_false_iff, negb_false_iff, Nat.eqb_eq in E.
  destruct E as [[[E1 E2] E3] E4]. destruct (_ && _ && _) eqn:F; [|done]. intros _.
  rewrite !andb_true_iff, !Nat.eqb_eq in F. destruct F as [[F1 F2] _]. split; [by apply (settled_when_empty _ m)|].
  split; [|done]. rewrite (mk_admitting _ _ Hm) in E2. rewrite (mk_deadline _ _ Hm) in E3.
  rewrite (mk_processing _ _ Hm) in E4. by destruct (ma_phase m).
Qed.

(** * A stop comes to its end *)

(** A store with nothing to do, now and later. *)
Record quiescent (cutoff : Z) (s : S) : Prop := {
  qs_runnable : forall now, ts_listRunnable now s = [];
  qs_deadlines : forall now capacity blocked, ts_admitDueDeadlines now capacity blocked s = (Ok 0%nat, s);
  qs_effects : forall now, ts_listPendingEffects now s = Ok [];
  qs_drained : ts_pendingDrainCount cutoff s = Ok 0%nat;
  qs_purged : forall before limit, ts_pendingDrainCount cutoff (ts_purgeSettled before limit s).2 = Ok 0%nat
}.

Lemma select_ingress_none now a : queue_ok cfg a -> ac_size a = 0%nat -> select_ingress now a = None.
Proof.
  intros Hq Hs. destruct (select_ingress now a) as [item|] eqn:E; [|done].
  apply select_ingress_some in E as (slot & rest & Hl & _).
  pose proof (size_lanes_empty a Hq Hs slot) as H. unfold lane_commands in H. by rewrite Hl in H.
Qed.

Lemma purge_drained now cutoff a s : quiescent cutoff s ->
  ts_pendingDrainCount cutoff (purgeSettledIfDue cfg now a s).2 = Ok 0%nat.
Proof.
  intros []. unfold purgeSettledIfDue. destruct (_ || _)%bool; [done|]. destruct (_ && _)%bool; [done|]. simpl. auto.
Qed.

Lemma run_step t ops m : ma_crashed m = false ->
  (machine_run cfg effect_sink (WoStep t :: ops) m).2 = (machine_run cfg effect_sink ops (runner_step cfg effect_sink t m).2).2.
Proof.
  intros Hcr. change (machine_run cfg effect_sink (WoStep t :: ops) m) with (let (e, m1) := machine_step cfg effect_sink (WoStep t) m in let (es, m2) := machine_run cfg effect_sink ops m1 in (e ++ es, m2)).
  unfold machine_step. rewrite Hcr. destruct (runner_step _ _ _ _) as [e m1]. cbn [snd].
  by destruct (machine_run _ _ ops m1).
Qed.

Ltac step := rewrite run_step by reflexivity; unfold runner_step at 1; cbn [snd ma_phase ma_actor ma_store ma_sink
  ma_admitting ma_deadline_admitting ma_processing ma_joinable ma_opening ma_crashed with_phase with_flags with_store
  with_actor with_sink after_run after_effects negb Nat.eqb orb].

(** When the store has nothing to do and no command is queued, a thread that is at the top of its loop with a stop
    requested ends within thirteen steps, at whatever times they are taken. *)
Theorem stop_ends events m ts : machine_ok events m -> ma_crashed m = false -> ma_phase m = PhTop ->
  ac_size (ma_actor m) = 0%nat -> ac_stop_requested (ma_actor m) = true ->
  quiescent (ac_drain_cutoff (ma_actor m)) (ma_store m) -> length ts = 13%nat ->
  (stop_wait (machine_run cfg effect_sink (WoStep <$> ts) m).2).1 = true.
Proof.
  intros Hm Hcr Hph Hs Hstop Hq Hlen.
  do 13 (destruct ts as [|? ts]; [done|]). destruct ts; [|done]. clear Hlen. cbn [fmap list_fmap].
  pose proof (mk_admitting _ _ Hm) as Ha. pose proof (mk_processing _ _ Hm) as Hp. rewrite Hph in Ha, Hp.
  assert (Hsel : forall now, select_ingress now (ma_actor m) = None)
    by (intros now; apply select_ingress_none; [apply (mk_queue _ _ Hm)|done]). clear Hm.
  destruct Hq as [Q1 Q2 Q3 Q4 Q5] eqn:Eq. clear Eq.
  destruct m as [a st sk ph ad de pr jo op cr]. cbn [ma_phase ma_actor ma_store ma_crashed ma_admitting ma_processing] in *. subst.
  step. step. rewrite Hsel. step. rewrite Q1. step. step. step. rewrite Q2. step. rewrite Q1. step. step. rewrite Q3. step. step.
  pose proof (purge_frame z9 a st) as Hf. pose proof (purge_drained z9 _ a st Hq) as Hd.
  destruct (purgeSettledIfDue cfg z9 a st) as [a' s']. destruct Hf as [(_ & _ & E1) E2]. injection E2 as _ _ E3 E4.
  cbn [snd] in Hd. step. unfold turn_end. cbn [ma_actor ma_processing ma_admitting with_phase with_store with_actor with_flags].
  rewrite E1, E3, E4, Hs, Hstop. cbn [andb negb Nat.eqb orb]. step. unfold drain_check.
  cbn [ma_store with_phase with_store with_actor with_flags]. by rewrite Hd.
Qed.
End Safety.

(** * Runs over the durable store *)

#[local] Existing Instance demo_json.
#[local] Existing Instance demo_sql.
#[local] Existing Instance demo_store.

Definition run_demo (ops : list WorkerOp) : list actor_event * Machine (S := Store) (W := nat) :=
  machine_run demo_config demo_sink ops (new_machine demo_start 0%nat).
Definition steps (n : nat) (now : Z) : list WorkerOp := replicate n (WoStep now).

(** A start, one command, and a stop that finds it in the queue; the thread takes [n] more steps. *)
Definition stop_history (n : nat) : list WorkerOp :=
  [WoStart true] ++ steps 9 900 ++ [WoSpawn true; WoStep 950; WoOpen; WoSubmit demo_occupied; WoCloseIngress;
   WoRequestStop 1000] ++ steps n 1000.

Lemma stop_history_clock n : Forall op_clock (stop_history n).
Proof.
  unfold stop_history. rewrite !Forall_app. repeat split; repeat constructor; by apply Forall_replicate.
Qed.



(** The two looks of [waitUntilIdle] are not one: a command that comes between them is not seen. *)
Example idle_misses_submission :
  let m1 := (run_demo ([WoStart true] ++ steps 9 900 ++ [WoSpawn true; WoOpen])).2 in
  let m2 := (machine_step demo_config demo_sink (WoSubmit demo_occupied) m1).2 in
  idle_round 1000 m1 m2 = Some true /\ ac_size (ma_actor m2) = 1%nat.
Proof. vm_compute. done. Qed.

(** A stop that ran out of time leaves the thread unjoined; when the thread has ended, the next start makes a thread in its
    place, which ends the program. *)
Example start_after_late_stop :
  ma_crashed (run_demo ([WoStart true] ++ steps 9 900 ++ [WoSpawn true; WoOpen; WoCloseIngress; WoRequestStop 1000;
    WoWaitStop] ++ steps 13 2000 ++ [WoStart true] ++ steps 9 3000 ++ [WoSpawn true])).2 = true.
Proof. vm_compute. done. Qed.

(** An effect whose command was applied before a crash is delivered by the replay, before anything can be submitted. *)
Example replay_first :
  let m := machine_run demo_config demo_sink ([WoStart true] ++ steps 20 900 ++ [WoSubmit demo_occupied])
             (new_machine demo_started 0%nat) in
  ma_sink m.2 = 1%nat /\ m.1 = [] /\ ma_phase m.2 = PhSpawn.
Proof. vm_compute. done. Qed.
