(* ===== verification/Plate.v ===== *)
(** Plate numbers: normalisation ([src/ocr/PlateNormalizer.cpp]) and the comparison of an
    observed plate with a candidate ([src/ocr/PlateMatcher.cpp]). Texts are lists of
    bytes; code points are 32-bit unsigned integers as [Z]. *)
From Stdlib Require Import QArith.
From S2P Require Import Prelude LoRa.
Open Scope Z_scope.

(** [src/ocr/PlateMatcher.cpp:10-42 decodeUtf8]
    The code point so far, the number of continuation bytes to come. *)
Fixpoint decode_tail (count : nat) (codepoint : Z) (bytes : list Z) : option (Z * list Z) :=
  match count with
  | O => Some (codepoint, bytes)
  | S count' =>
      match bytes with
      | [] => None
      | next :: rest =>
          if negb (Z.land next 0xC0 =? 0x80) then None
          else decode_tail count' (Z.lor (Z.shiftl codepoint 6) (Z.land next 0x3F)) rest
      end
  end.

(** The payload of a lead byte and the number of bytes that follow it. *)
Definition decode_lead (lead : Z) : option (Z * nat) :=
  if lead <? 0x80 then Some (lead, 0%nat)
  else if Z.land lead 0xE0 =? 0xC0 then Some (Z.land lead 0x1F, 1%nat)
  else if Z.land lead 0xF0 =? 0xE0 then Some (Z.land lead 0x0F, 2%nat)
  else if Z.land lead 0xF8 =? 0xF0 then Some (Z.land lead 0x07, 3%nat)
  else None.

(** [src/ocr/PlateMatcher.cpp:10-42 decodeUtf8]
    The loop, with the number of bytes as fuel. *)
Fixpoint decode_loop (fuel : nat) (bytes : list Z) : option (list Z) :=
  match bytes, fuel with
  | [], _ => Some []
  | _, O => None
  | lead :: rest, S fuel' =>
      match decode_lead lead with
      | None => None
      | Some (codepoint, length) =>
          match decode_tail length codepoint rest with
          | None => None
          | Some (codepoint', rest') =>
              match decode_loop fuel' rest' with
              | None => None
              | Some output => Some (codepoint' :: output)
              end
          end
      end
  end.
Definition decodeUtf8 (value : list Z) : option (list Z) := decode_loop (length value) value.

(** [src/ocr/PlateMatcher.cpp:44-47 asciiDigit] *)
Definition asciiDigit (value : Z) : bool := (48 <=? value) && (value <=? 57).

(** [src/ocr/PlateMatcher.cpp:49-58 plausiblePlateShape] *)
Definition plausiblePlateShape (value : list Z) : bool :=
  if (length value <? 7)%nat || (10 <? length value)%nat then false else
  (6 <=? length (List.filter asciiDigit value))%nat && existsb (fun c => 0x7F <? c) value.

(** [include/ocr/PlateMatcher.hpp:8-13 PlateSimilarity]
    The score is the exact quotient that the double approximates. *)
Record PlateSimilarity := mkPlateSimilarity {
  ps_comparable : bool;
  ps_exact : bool;
  ps_mismatches : nat;
  ps_score : Q
}.

Definition mismatches (left right : list Z) : nat :=
  length (List.filter (fun p => negb (p.1 =? p.2)) (zip left right)).

Definition mismatch_score (count len : nat) : Q :=
  1 - (Z.of_nat count # Pos.of_nat len).

(** The last four characters: digits, and the same on both sides. *)
Definition same_digit_suffix (left right : list Z) : bool :=
  forallb (fun p => asciiDigit p.1 && asciiDigit p.2 && (p.1 =? p.2))
    (zip (drop (length left - 4) left) (drop (length left - 4) right)).

(** [src/ocr/PlateMatcher.cpp:64-99 comparePlateNumbers] *)
Definition comparePlateNumbers (observed candidate : list Z) : PlateSimilarity :=
  let none := mkPlateSimilarity false false 0 0 in
  match decodeUtf8 observed, decodeUtf8 candidate with
  | Some lhs, Some rhs =>
      if negb (length lhs =? length rhs)%nat || negb (plausiblePlateShape lhs) ||
         negb (plausiblePlateShape rhs)
      then none else
      let count := mismatches lhs rhs in
      let exact := (count =? 0)%nat in
      let score := mismatch_score count (length lhs) in
      if exact then mkPlateSimilarity true true count score else
      if negb (count =? 1)%nat || (length lhs <? 4)%nat
      then mkPlateSimilarity false false count 0 else
      if same_digit_suffix lhs rhs then mkPlateSimilarity true false count score
      else mkPlateSimilarity false false count 0
  | _, _ => none
  end.

(** [src/ocr/PlateNormalizer.cpp:7-13 normalizePlateNumber] *)
Definition plate_char (c : Z) : bool := (0x80 <=? c) || isalnum (ascii_of_N (Z.to_N c)).
Definition normalizePlateNumber (value : list Z) : list Z := List.filter plate_char value.

(** [src/ocr/PlateNormalizer.cpp:15-23 isPlausibleKoreanPlate] *)
Definition isPlausibleKoreanPlate (value : list Z) : bool :=
  (6 <=? length (List.filter asciiDigit value))%nat && existsb (fun c => 0x80 <=? c) value &&
  (length value <=? 20)%nat.

(** * UTF-8 *)

(** The standard encoding of a code point below [2 ^ 21]. *)
Definition encode_char (c : Z) : list Z :=
  if c <? 0x80 then [c]
  else if c <? 0x800 then [Z.lor 0xC0 (Z.shiftr c 6); Z.lor 0x80 (Z.land c 0x3F)]
  else if c <? 0x10000
  then [Z.lor 0xE0 (Z.shiftr c 12); Z.lor 0x80 (Z.land (Z.shiftr c 6) 0x3F);
        Z.lor 0x80 (Z.land c 0x3F)]
  else [Z.lor 0xF0 (Z.shiftr c 18); Z.lor 0x80 (Z.land (Z.shiftr c 12) 0x3F);
        Z.lor 0x80 (Z.land (Z.shiftr c 6) 0x3F); Z.lor 0x80 (Z.land c 0x3F)].
Definition encode_utf8 (cs : list Z) : list Z := mbind encode_char cs.
Definition codepoint (c : Z) : Prop := 0 <= c < 2 ^ 21.

(** Facts about the bits of one byte, by evaluation on every value of its payload. *)
Definition below (n : nat) : list Z := Z.of_nat <$> seq 0 n.
Lemma below_forall (n : nat) (p : Z -> bool) x :
  forallb p (below n) = true -> 0 <= x < Z.of_nat n -> p x = true.
Proof.
  intros Hall Hx. rewrite forallb_forall in Hall. apply Hall.
  rewrite <-list_elem_of_In. apply list_elem_of_fmap. exists (Z.to_nat x).
  split; [lia|]. apply elem_of_seq. lia.
Qed.

Lemma lor_prefix p n x :
  forallb (fun y => Z.lor p y =? p + y) (below n) = true -> 0 <= x < Z.of_nat n ->
  Z.lor p x = p + x.
Proof. intros H Hx. by apply Z.eqb_eq, (below_forall n (fun y => Z.lor p y =? p + y)). Qed.

Definition continuation_ok (y : Z) : bool :=
  (Z.land (128 + y) 0xC0 =? 0x80) && (Z.land (128 + y) 0x3F =? y).

(** A continuation byte adds six bits. *)
Lemma decode_tail_step count cp x rest :
  0 <= cp -> 0 <= x < 64 ->
  decode_tail (S count) cp (Z.lor 0x80 x :: rest) = decode_tail count (cp * 64 + x) rest.
Proof.
  intros Hcp Hx. rewrite (lor_prefix 0x80 64 x) by (try lia; vm_compute; done). cbn [decode_tail].
  assert (continuation_ok x = true) as Hc
    by (apply (below_forall 64); [vm_compute; done|lia]).
  unfold continuation_ok in Hc. apply andb_prop in Hc as [H1 H2]. rewrite H1.
  apply Z.eqb_eq in H2. cbn [negb]. rewrite H2. f_equal.
  rewrite Z.shiftl_mul_pow2 by lia.
  rewrite <-Z.lxor_lor, <-Z.add_nocarry_lxor; [done|..];
    (apply Z.bits_inj'; intros i Hi; rewrite Z.land_spec, Z.bits_0;
     destruct (decide (i < 6)) as [Hlt|Hge];
     [rewrite Z.mul_pow2_bits_low by lia; done
     |rewrite (testbit_above x 6 i) by lia; apply andb_false_r]).
Qed.

Lemma land_63 c : Z.land c 0x3F = c `mod` 64.
Proof. change 0x3F with (Z.ones 6). by rewrite Z.land_ones by lia. Qed.
Lemma shiftr_div c k : 0 <= k -> Z.shiftr c k = c / 2 ^ k.
Proof. apply Z.shiftr_div_pow2. Qed.

Definition lead_ok (prefix payload : Z) (length : nat) : bool :=
  match decode_lead (prefix + payload) with
  | Some (cp, l) => (cp =? payload) && (l =? length)%nat
  | None => false
  end.

Lemma decode_lead_payload prefix n length x :
  forallb (fun y => lead_ok prefix y length) (below n) = true ->
  forallb (fun y => Z.lor prefix y =? prefix + y) (below n) = true ->
  0 <= x < Z.of_nat n -> decode_lead (Z.lor prefix x) = Some (x, length).
Proof.
  intros H1 H2 Hx. rewrite (lor_prefix prefix n x) by done.
  pose proof (below_forall n (fun y => lead_ok prefix y length) x H1 Hx) as H. unfold lead_ok in H.
  destruct (decode_lead (prefix + x)) as [[cp l]|]; [|done]. apply andb_prop in H as [Hc Hl].
  apply Z.eqb_eq in Hc as ->. by apply Nat.eqb_eq in Hl as ->.
Qed.

(** [div_lia] closes arithmetic goals with divisions by constants. *)
Ltac div_lia := Z.to_euclidean_division_equations; lia.

(** One encoded character is read back, whatever follows. *)
Lemma decode_char c rest :
  codepoint c ->
  exists lead tail cp count, encode_char c = lead :: tail /\
    decode_lead lead = Some (cp, count) /\
    decode_tail count cp (tail ++ rest) = Some (c, rest).
Proof.
  intros [Hc0 Hc1]. unfold encode_char.
  assert (Hmod : forall z, 0 <= z `mod` 64 < 64) by (intros z; apply Z.mod_pos_bound; lia).
  destruct (c <? 0x80) eqn:H1; [|destruct (c <? 0x800) eqn:H2; [|destruct (c <? 0x10000) eqn:H3]];
    rewrite ?Z.ltb_lt, ?Z.ltb_ge in *.
  - exists c, [], c, 0%nat. split; [done|]. split; [|done]. unfold decode_lead.
    by rewrite (proj2 (Z.ltb_lt _ _) H1).
  - eexists _, _, (c / 64), 1%nat. split; [done|]. rewrite !land_63, !shiftr_div by lia.
    change (2 ^ 6) with 64. split.
    + apply (decode_lead_payload _ 32); [vm_compute; done..|div_lia].
    + cbn [app]. rewrite decode_tail_step by (try apply Hmod; div_lia). cbn [decode_tail].
      f_equal. f_equal. div_lia.
  - eexists _, _, (c / 4096), 2%nat. split; [done|]. rewrite !land_63, !shiftr_div by lia.
    change (2 ^ 6) with 64. change (2 ^ 12) with 4096. split.
    + apply (decode_lead_payload _ 16); [vm_compute; done..|div_lia].
    + cbn [app]. rewrite !decode_tail_step by (try apply Hmod; div_lia). cbn [decode_tail].
      f_equal. f_equal. div_lia.
  - eexists _, _, (c / 262144), 3%nat. split; [done|]. rewrite !land_63, !shiftr_div by lia.
    change (2 ^ 6) with 64. change (2 ^ 12) with 4096. change (2 ^ 18) with 262144. split.
    + apply (decode_lead_payload _ 8); [vm_compute; done..|div_lia].
    + cbn [app]. rewrite !decode_tail_step by (try apply Hmod; div_lia). cbn [decode_tail].
      f_equal. f_equal. div_lia.
Qed.

Lemma encode_utf8_cons c cs : encode_utf8 (c :: cs) = encode_char c ++ encode_utf8 cs.
Proof. done. Qed.

Lemma decode_loop_encode cs fuel :
  Forall codepoint cs -> (length (encode_utf8 cs) <= fuel)%nat ->
  decode_loop fuel (encode_utf8 cs) = Some cs.
Proof.
  intros Hcs. revert fuel. induction Hcs as [|c cs Hc Hcs IH]; intros fuel Hf; [by destruct fuel|].
  rewrite encode_utf8_cons in *.
  destruct (decode_char c (encode_utf8 cs) Hc) as (lead & tail & cp & count & He & Hl & Ht).
  rewrite He in *. rewrite length_app in Hf. simpl in Hf. destruct fuel as [|fuel]; [lia|].
  cbn [app decode_loop]. rewrite Hl, Ht, IH; [done|lia].
Qed.

(** The plate decoder reads back every text: for code points below [2 ^ 21],
    [decodeUtf8] of their UTF-8 bytes is the code points, so the comparison counts
    characters and not bytes, and never stops early or reads past the end. *)
Theorem utf8_roundtrip cs : Forall codepoint cs -> decodeUtf8 (encode_utf8 cs) = Some cs.
Proof. intros Hcs. by apply decode_loop_encode. Qed.

(** * The comparison *)

Definition differ_at (l r : list Z) (i : nat) : Prop := l !! i <> r !! i.

Lemma mismatches_zero l r : length l = length r -> mismatches l r = 0%nat <-> l = r.
Proof.
  unfold mismatches. revert r. induction l as [|x l IH]; intros [|y r] Hlen; simpl in *; try done.
  destruct (x =? y) eqn:E; simpl.
  - apply Z.eqb_eq in E as ->. rewrite IH by lia. split; [by intros ->|by intros [= ->]].
  - apply Z.eqb_neq in E. split; [done|by intros [= ->]].
Qed.

Lemma mismatches_one l r :
  length l = length r ->
  mismatches l r = 1%nat <-> exists i, differ_at l r i /\ forall j, differ_at l r j -> j = i.
Proof.
  unfold mismatches, differ_at. revert r.
  induction l as [|x l IH]; intros [|y r] Hlen; simpl in *; try lia.
  - split; [done|]. by intros (i & Hi & _).
  - destruct (x =? y) eqn:E; simpl.
    + apply Z.eqb_eq in E as ->. rewrite IH by lia. split.
      * intros (i & Hi & Hu). exists (S i). split; [done|]. intros [|j] Hj; [done|].
        f_equal. by apply Hu.
      * intros ([|i] & Hi & Hu); [done|]. exists i. split; [done|]. intros j Hj.
        specialize (Hu (S j) Hj). lia.
    + apply Z.eqb_neq in E. split.
      * intros H. assert (H0 : mismatches l r = 0%nat) by (unfold mismatches; lia).
        apply mismatches_zero in H0; [|lia]. subst r. exists 0%nat. simpl.
        split; [congruence|]. intros [|j] Hj; [done|]. simpl in Hj. done.
      * intros (i & Hi & Hu). assert (H0 : 0%nat = i) by (apply Hu; simpl; congruence). subst i.
        f_equal. apply mismatches_zero; [lia|]. apply list_eq. intros j.
        destruct (decide (l !! j = r !! j)) as [|Hne]; [done|]. by specialize (Hu (S j) Hne).
Qed.

Lemma zip_forallb (p : Z -> Z -> bool) (l r : list Z) :
  length l = length r ->
  forallb (fun q => p q.1 q.2) (zip l r) = true <->
  forall i x y, l !! i = Some x -> r !! i = Some y -> p x y = true.
Proof.
  revert r. induction l as [|a l IH]; intros [|b r] Hlen; simpl in *; try lia; [done|].
  rewrite andb_true_iff, IH by lia. split.
  - intros [H1 H2] [|i] x y; simpl; [by intros [= <-] [= <-]|by apply H2].
  - intros H. split; [by apply (H 0%nat)|]. intros i. apply (H (S i)).
Qed.

Lemma same_digit_suffix_spec l r :
  length l = length r ->
  same_digit_suffix l r = true <->
  forall i x, (length l - 4 <= i)%nat -> l !! i = Some x -> asciiDigit x = true /\ r !! i = Some x.
Proof.
  intros Hlen. unfold same_digit_suffix.
  rewrite (zip_forallb (fun x y => asciiDigit x && asciiDigit y && (x =? y)))
    by (rewrite !length_drop; lia).
  split.
  - intros H i x Hi Hx. destruct (lookup_lt_is_Some_2 r i) as [y Hy].
    { rewrite <-Hlen. by eapply lookup_lt_Some. }
    specialize (H (i - (length l - 4))%nat x y). rewrite !lookup_drop in H.
    replace (length l - 4 + (i - (length l - 4)))%nat with i in H by lia.
    specialize (H Hx Hy). apply andb_prop in H as [H H3]. apply andb_prop in H as [H1 H2].
    apply Z.eqb_eq in H3. subst y. done.
  - intros H i x y. rewrite !lookup_drop. intros Hx Hy.
    destruct (H (length l - 4 + i)%nat x ltac:(lia) Hx) as [Hd Hr].
    assert (x = y) as -> by congruence. by rewrite Hd, Z.eqb_refl.
Qed.

Lemma plausible_length l : plausiblePlateShape l = true -> (7 <= length l <= 10)%nat.
Proof.
  unfold plausiblePlateShape. destruct (_ || _)%bool eqn:E; [done|]. intros _.
  apply orb_false_elim in E as [H1 H2]. apply Nat.ltb_ge in H1, H2. lia.
Qed.

(** When two plates count as near matches: both have the shape of a plate, the
    same number of characters, and they are equal, or differ in exactly one character which
    is not among the last four, and those are the same digits on both sides. *)
Theorem plate_near_match l r :
  Forall codepoint l -> Forall codepoint r ->
  ps_comparable (comparePlateNumbers (encode_utf8 l) (encode_utf8 r)) = true <->
  plausiblePlateShape l = true /\ plausiblePlateShape r = true /\ length l = length r /\
  (l = r \/
   ((exists i, (i < length l - 4)%nat /\ differ_at l r i /\ forall j, differ_at l r j -> j = i) /\
    forall i x, (length l - 4 <= i)%nat -> l !! i = Some x ->
      asciiDigit x = true /\ r !! i = Some x)).
Proof.
  intros Hl Hr. unfold comparePlateNumbers. unfold decodeUtf8.
  rewrite !decode_loop_encode by done.
  destruct (length l =? length r)%nat eqn:Hlen; cbn [negb orb].
  2: { apply Nat.eqb_neq in Hlen. simpl. split; [done|by intros (_ & _ & ? & _)]. }
  apply Nat.eqb_eq in Hlen. destruct (plausiblePlateShape l) eqn:Hp; cbn [negb orb]; [|by simpl; split; [|intros (? & _)]].
  destruct (plausiblePlateShape r) eqn:Hq; cbn [negb orb]; [|by simpl; split; [|intros (_ & ? & _)]].
  apply plausible_length in Hp.
  destruct (mismatches l r =? 0)%nat eqn:H0.
  { apply Nat.eqb_eq, mismatches_zero in H0; [|done]. subst r. simpl. split; [|done]. intros _. auto. }
  apply Nat.eqb_neq in H0.
  assert (Hne : l <> r) by (intros He; apply H0; by apply mismatches_zero).
  rewrite (proj2 (Nat.ltb_ge (length l) 4)) by lia. rewrite orb_false_r.
  destruct (mismatches l r =? 1)%nat eqn:H1; cbn [negb].
  2: { apply Nat.eqb_neq in H1. simpl. split; [done|]. intros (_ & _ & _ & [?|[(i & _ & Hi & Hu) _]]); [done|].
       destruct H1. apply mismatches_one; [done|]. by exists i. }
  apply Nat.eqb_eq, mismatches_one in H1; [|done]. destruct H1 as (i & Hi & Hu).
  pose proof (same_digit_suffix_spec l r Hlen) as Hs.
  destruct (same_digit_suffix l r); simpl.
  - split; [|done]. intros _. split_and!; try done. right.
    destruct Hs as [Hs _]. specialize (Hs eq_refl). split; [|done]. exists i. split_and!; [|done|done].
    destruct (decide (i < length l - 4)%nat) as [|Hge]; [done|]. exfalso. apply Hi.
    destruct (l !! i) as [x|] eqn:Hx.
    + destruct (Hs i x ltac:(lia) Hx) as [_ ->]. done.
    + apply lookup_ge_None in Hx. symmetry. apply lookup_ge_None. lia.
  - split; [done|]. intros (_ & _ & _ & [?|[_ Hd]]); [done|]. by apply Hs in Hd.
Qed.

(** Two plates, "12가3456" and "13가3456", and one with a different last digit. *)
Definition sample_plate : list Z := [49; 50; 0xAC00; 51; 52; 53; 54].
Definition sample_near : list Z := [49; 51; 0xAC00; 51; 52; 53; 54].
Definition sample_far : list Z := [49; 50; 0xAC00; 51; 52; 53; 55].

Lemma sample_plate_ok : Forall codepoint sample_plate.
Proof. unfold sample_plate, codepoint. repeat constructor; lia. Qed.
Lemma sample_near_ok : Forall codepoint sample_near.
Proof. unfold sample_near, codepoint. repeat constructor; lia. Qed.

Example utf8_roundtrip_witness :
  Forall codepoint sample_plate /\ decodeUtf8 (encode_utf8 sample_plate) = Some sample_plate.
Proof. split; [exact sample_plate_ok|]. apply (utf8_roundtrip sample_plate sample_plate_ok). Defined.

Example plate_near_match_witness :
  Forall codepoint sample_plate /\ Forall codepoint sample_near /\
  length sample_plate = length sample_near /\
  ps_comparable (comparePlateNumbers (encode_utf8 sample_plate) (encode_utf8 sample_near)) = true.
Proof.
  split; [exact sample_plate_ok|]. split; [exact sample_near_ok|].
  assert (H : ps_comparable (comparePlateNumbers (encode_utf8 sample_plate) (encode_utf8 sample_near))
              = true) by (vm_compute; reflexivity).
  split; [|exact H].
  pose proof (proj1 (plate_near_match sample_plate sample_near sample_plate_ok sample_near_ok) H)
    as (_ & _ & Hlen & _).
  exact Hlen.
Defined.

Example sample_far_refused :
  ps_comparable (comparePlateNumbers (encode_utf8 sample_plate) (encode_utf8 sample_far)) = false.
Proof. vm_compute. reflexivity. Qed.
