(* ===== verification/Iva.v ===== *)
(** Camera IVA events: the resolver of an event to the one configured slot and area
    ([src/event/IvaEventResolver.cpp]), the OR of a slot's areas
    ([src/event/IvaSlotOccupancyAggregator.cpp]) and the confirmation of exits
    ([src/event/IvaOccupancyCoordinator.cpp]). *)
From S2P Require Import Prelude SensorProtocol SequencePolicy SlotConfig Occupancy.

(** * Names *)

(** [src/event/IvaEventResolver.cpp:8-14 lowerCopy] *)
Definition lowerCopy (value : string) : string := smap tolower value.

Definition long_prefix : string := "videosourcetoken-".

(** [src/event/IvaEventResolver.cpp:16-23 canonicalToken] *)
Definition canonicalToken (token : string) : string :=
  let token := lowerCopy token in
  if String.prefix long_prefix token
  then "vs-" +:+ String.substring (String.length long_prefix)
                   (String.length token - String.length long_prefix) token
  else token.

(** [src/event/IvaEventResolver.cpp:25-28 identifierCharacter] *)
Definition identifierCharacter (c : ascii) : bool :=
  isalnum c || bool_decide (c = "_"%char) || bool_decide (c = "-"%char).

(** No identifier character at a position of the text (or no character at all). *)
Definition boundary_at (text : string) (position : nat) : bool :=
  match String.get position text with Some c => negb (identifierCharacter c) | None => true end.
Definition left_boundary (text : string) (position : nat) : bool :=
  match position with O => true | S p => boundary_at text p end.

(** [src/event/IvaEventResolver.cpp:34-44 containsRuleName]
    The search loop; [None] is out of fuel. *)
Fixpoint rule_search (fuel : nat) (haystack needle : string) (position : nat) : option bool :=
  match String.index position needle haystack with
  | None => Some false
  | Some found =>
      let finish := (found + String.length needle)%nat in
      if left_boundary haystack found && boundary_at haystack finish then Some true else
      match fuel with
      | O => None
      | S fuel' => rule_search fuel' haystack needle finish
      end
  end.

(** [src/event/IvaEventResolver.cpp:30-45 containsRuleName] *)
Definition containsRuleName (raw ruleName : string) : bool :=
  if is_empty raw || is_empty ruleName then false else
  default false (rule_search (String.length raw) (lowerCopy raw) (lowerCopy ruleName) 0).

(** [src/event/IvaEventResolver.cpp:47-49 equalIgnoringCase] *)
Definition equalIgnoringCase (left right : string) : bool :=
  bool_decide (lowerCopy left = lowerCopy right).

(** * The resolver *)

Section Resolver.
(** The doubles of an area, which are only copied. *)
Context {R : Type}.

(** [include/app/AppConfig.hpp:16-30 IvaAreaConfig] *)
Record IvaAreaConfig := mkIvaAreaConfig {
  iac_slot_id : string;
  iac_area_name : string;
  iac_channel_id : string;
  iac_roi : R * R * R * R
}.

(** The fields of a camera event that the resolver reads. *)
Record CameraEvent := mkCameraEvent {
  ce_video_source_token : string;
  ce_raw_topic : string;
  ce_raw_payload : string;
  ce_is_smart_parking_iva : bool;
  ce_slot_id : string;
  ce_rule_name : string;
  ce_event_channel_id : string
}.

(** [include/event/IvaEventResolver.hpp:14-26 IvaResolvedTarget] *)
Record IvaResolvedTarget := mkIvaResolvedTarget {
  irt_slotId : string;
  irt_channelId : string;
  irt_ruleName : string;
  irt_observationVideoSourceToken : string;
  irt_areaName : string;
  irt_roi : R * R * R * R
}.

(** The single element a loop keeps: a second match is an error, and so is none. *)
Fixpoint pick_one {A} (p : A -> bool) (ambiguous missing : string) (matched : option A)
    (l : list A) : result string A :=
  match l with
  | [] => of_option missing matched
  | x :: l' =>
      if negb (p x) then pick_one p ambiguous missing matched l' else
      match matched with
      | Some _ => Err ambiguous
      | None => pick_one p ambiguous missing (Some x) l'
      end
  end.

(** The bindings of the enabled slots, in the order of the two loops. *)
Definition slot_bindings (slots : list ParkingSlotConfig)
    : list (ParkingSlotConfig * SlotObservationBinding) :=
  mbind (fun slot => if psc_enabled slot then (fun b => (slot, b)) <$> psc_cameraBindings slot else [])
    slots.

Definition binding_matches (cameraId raw eventToken : string)
    (p : ParkingSlotConfig * SlotObservationBinding) : bool :=
  sob_enabled p.2 && bool_decide (sob_cameraId p.2 = cameraId) &&
  bool_decide (canonicalToken (sob_videoSourceToken p.2) = eventToken) &&
  containsRuleName raw (sob_ruleName p.2).

Definition area_of (slot_id : string) (area : IvaAreaConfig) : bool :=
  bool_decide (iac_slot_id area = slot_id).

Definition target_of (slot : ParkingSlotConfig) (binding : SlotObservationBinding)
    (area : IvaAreaConfig) : IvaResolvedTarget :=
  mkIvaResolvedTarget (psc_slotId slot) (iac_channel_id area) (sob_ruleName binding)
    (sob_videoSourceToken binding) (iac_area_name area) (iac_roi area).

Definition event_text (event : CameraEvent) : string :=
  ce_raw_topic event +:+ newline +:+ ce_raw_payload event.

(** [src/event/IvaEventResolver.cpp:57-122 IvaEventResolver::resolve] *)
Definition resolve (cameraId : string) (event : CameraEvent) (slots : list ParkingSlotConfig)
    (areas : list IvaAreaConfig) : result string IvaResolvedTarget :=
  if is_empty (ce_video_source_token event) then Err "missing or invalid video source token" else
  let eventToken := canonicalToken (ce_video_source_token event) in
  let? (slot, binding) := pick_one (binding_matches cameraId (event_text event) eventToken)
    "ambiguous camera/token/rule mapping" "camera/token/rule mapping not found" None
    (slot_bindings slots) in
  let? area := pick_one (area_of (psc_slotId slot)) "duplicate ROI mapping for slot"
    "ROI mapping not found for slot" None areas in
  Ok (target_of slot binding area).

(** [src/event/IvaEventResolver.cpp:124-202 IvaEventResolver::resolveSmartParkingPublication] *)
Definition resolveSmartParkingPublication (cameraId : string) (event : CameraEvent)
    (slots : list ParkingSlotConfig) (areas : list IvaAreaConfig)
    : result string IvaResolvedTarget :=
  if negb (ce_is_smart_parking_iva event) then Err "not a smart parking IVA publication" else
  if is_empty (ce_slot_id event) || is_empty (ce_rule_name event) ||
     is_empty (ce_video_source_token event) || is_empty (ce_event_channel_id event)
  then Err "missing publication slot/rule/channel identity" else
  let? slot := pick_one (fun s => psc_enabled s && bool_decide (psc_slotId s = ce_slot_id event))
    "ambiguous publication slot mapping" "publication slot mapping not found" None slots in
  let? binding := pick_one
    (fun b => sob_enabled b && bool_decide (sob_cameraId b = cameraId) &&
              equalIgnoringCase (sob_ruleName b) (ce_rule_name event))
    "ambiguous publication camera/rule mapping" "publication camera/rule mapping not found" None
    (psc_cameraBindings slot) in
  let? area := pick_one (area_of (psc_slotId slot)) "duplicate ROI mapping for publication slot"
    "ROI mapping not found for publication slot" None areas in
  if negb (equalIgnoringCase (ce_event_channel_id event) (iac_channel_id area))
  then Err "publication token/channel mapping mismatch"
  else Ok (target_of slot binding area).

(** * The resolver chooses nothing *)

Lemma pick_one_ok {A} (p : A -> bool) e1 e2 m l x :
  pick_one p e1 e2 m l = Ok x <->
  match m with
  | Some y => List.filter p l = [] /\ x = y
  | None => List.filter p l = [x]
  end.
Proof.
  revert m. induction l as [|a l IH]; intros m; simpl.
  - destruct m as [y|]; simpl; [|done]. split; [by intros [= ->]|by intros [_ ->]].
  - destruct (p a); simpl; [|apply IH]. destruct m as [y|]; [by split; [|intros [? _]]|].
    rewrite IH. split; [by intros [-> ->]|by intros [= -> ->]].
Qed.

(** The resolver never chooses: an event resolves to a target exactly when one
    and only one enabled binding matches its camera, token and rule and one and only one
    area belongs to that slot, and then the target is made of these two. *)
Theorem resolve_unique cameraId event slots areas target :
  resolve cameraId event slots areas = Ok target <->
  ce_video_source_token event <> "" /\
  exists slot binding area,
    List.filter (binding_matches cameraId (event_text event)
                   (canonicalToken (ce_video_source_token event))) (slot_bindings slots)
      = [(slot, binding)] /\
    List.filter (area_of (psc_slotId slot)) areas = [area] /\
    target = target_of slot binding area.
Proof.
  unfold resolve. destruct (is_empty (ce_video_source_token event)) eqn:He.
  { split; [done|]. intros [Hne _]. destruct (ce_video_source_token event); done. }
  assert (Hne : ce_video_source_token event <> "") by (intros H; by rewrite H in He).
  split.
  - intros H. apply rbind_ok_inv in H as ([slot binding] & H1 & H).
    apply rbind_ok_inv in H as (area & H2 & H). injection H as <-.
    apply pick_one_ok in H1, H2. split; [done|]. by exists slot, binding, area.
  - intros (_ & slot & binding & area & H1 & H2 & ->).
    apply (pick_one_ok _ "ambiguous camera/token/rule mapping"
      "camera/token/rule mapping not found" None) in H1. rewrite H1. simpl.
    apply (pick_one_ok _ "duplicate ROI mapping for slot" "ROI mapping not found for slot" None) in H2.
    by rewrite H2.
Qed.
End Resolver.

(** * The search for a rule name *)

Lemma index_ge n needle hay m : String.index n needle hay = Some m -> (n <= m)%nat.
Proof.
  revert n m. induction hay as [|c hay IH]; intros n m; simpl.
  - destruct n; [|done]. destruct needle; [|done]. intros [= <-]. lia.
  - destruct n as [|n]; [lia|].
    destruct (String.index n needle hay) as [k|] eqn:E; [|done]. intros [= <-].
    apply IH in E. lia.
Qed.

Lemma substring_get p n s i :
  (i < n)%nat -> String.get i (String.substring p n s) = String.get (p + i) s.
Proof. intros Hi. rewrite substring_correct1 by done. f_equal. lia. Qed.

(** A bounded occurrence of the needle. *)
Definition occurs_at (haystack needle : string) (p : nat) : Prop :=
  String.substring p (String.length needle) haystack = needle /\
  left_boundary haystack p = true /\ boundary_at haystack (p + String.length needle) = true.

Definition identifier (s : string) : Prop :=
  forall i c, String.get i s = Some c -> identifierCharacter c = true.

Lemma get_lt s i : (i < String.length s)%nat -> exists c, String.get i s = Some c.
Proof. revert i. induction s as [|c s IH]; intros [|i]; simpl; intros Hi; try lia; [by exists c|apply IH; lia]. Qed.

Lemma rule_search_sound fuel hay needle pos :
  rule_search fuel hay needle pos = Some true -> exists p, occurs_at hay needle p.
Proof.
  revert pos. induction fuel as [|fuel IH]; intros pos; simpl;
    destruct (String.index pos needle hay) as [m|] eqn:E; try done;
    destruct (_ && _)%bool eqn:Hb; try done; try apply IH;
    intros _; exists m; apply andb_prop in Hb as [? ?]; split; try done; by eapply index_correct1.
Qed.

(** Occurrences of an identifier cannot be hidden behind an earlier overlapping one. *)
Lemma rule_search_complete fuel hay needle pos p :
  needle <> "" -> identifier needle -> occurs_at hay needle p -> (pos <= p)%nat ->
  (String.length hay <= fuel + pos)%nat ->
  rule_search fuel hay needle pos = Some true.
Proof.
  intros Hne Hid (Hp & Hl & Hr). revert pos. induction fuel as [|fuel IH]; intros pos Hpos Hf.
  all: assert (Hlen : (0 < String.length needle)%nat) by (destruct needle; [done|simpl; lia]).
  all: cbn [rule_search]; destruct (String.index pos needle hay) as [m|] eqn:E;
    [|by destruct (index_correct3 pos p needle hay E Hne Hpos)].
  all: pose proof (index_ge _ _ _ _ E) as Hge; pose proof (index_correct1 _ _ _ _ E) as Hm.
  all: assert (Hle : (m <= p)%nat) by
    (destruct (decide (m <= p)%nat) as [|Hgt]; [done|];
     by destruct (index_correct2 pos m needle hay E p Hpos ltac:(lia))).
  all: assert (Hdone : m = p -> left_boundary hay m && boundary_at hay (m + String.length needle) = true)
    by (intros ->; by rewrite Hl, Hr).
  all: destruct (left_boundary hay m && boundary_at hay (m + String.length needle))%bool eqn:Hb; [done|].
  all: assert (Hlt : (m < p)%nat) by
    (destruct (decide (m = p)) as [He|]; [by specialize (Hdone He)|lia]).
  - exfalso. assert (Hin : (p + String.length needle <= String.length hay)%nat).
    { destruct (get_lt needle (String.length needle - 1)) as [c Hc]; [lia|].
      assert (Hc' : String.get (String.length needle - 1)
        (String.substring p (String.length needle) hay) = Some c) by (by rewrite Hp).
      clear Hc. rename Hc' into Hc. rewrite substring_get in Hc by lia.
      destruct (decide (p + (String.length needle - 1) < String.length hay)%nat) as [|Hge']; [lia|].
      exfalso. clear -Hc Hge'. revert Hc. generalize dependent (p + (String.length needle - 1))%nat.
      induction hay as [|x hay IHh]; intros [|n] Hn; simpl in *; try done; [lia|]. apply IHh. lia. }
    lia.
  - apply IH; [|lia]. destruct (decide (m + String.length needle <= p)%nat) as [|Hov]; [done|]. exfalso.
    destruct p as [|p]; [lia|]. simpl in Hl. unfold boundary_at in Hl.
    destruct (get_lt needle (p - m)) as [c Hc]; [lia|].
    assert (Hg : String.get p hay = Some c).
    { assert (Hc' : String.get (p - m) (String.substring m (String.length needle) hay) = Some c)
        by (by rewrite Hm).
      rewrite substring_get in Hc' by lia. rewrite <-Hc'. f_equal. lia. }
    rewrite Hg, (Hid _ _ Hc) in Hl. done.
Qed.

(** The rule search is exact: for a rule name made of letters, digits, '_' and
    '-', [containsRuleName] answers true exactly when the text holds the name, in any case,
    with no identifier character on either side; "IVA-1" is not found inside "IVA-12". *)
Theorem containsRuleName_exact raw rule :
  raw <> "" -> rule <> "" -> identifier (lowerCopy rule) ->
  containsRuleName raw rule = true <-> exists p, occurs_at (lowerCopy raw) (lowerCopy rule) p.
Proof.
  intros Hraw Hrule Hid. unfold containsRuleName.
  destruct (is_empty raw) eqn:E1; [by destruct raw|].
  destruct (is_empty rule) eqn:E2; [by destruct rule|]. simpl.
  assert (Hne : lowerCopy rule <> "") by (by destruct rule).
  assert (Hlen : String.length (lowerCopy raw) = String.length raw).
  { clear. unfold lowerCopy. induction raw; simpl; congruence. }
  split.
  - destruct (rule_search _ _ _ _) as [[]|] eqn:E; [|done|done]. intros _. by eapply rule_search_sound.
  - intros (p & Hp). by rewrite (rule_search_complete _ _ _ _ p) by (try lia; done).
Qed.

Example containsRuleName_exact_witness :
  identifier (lowerCopy "IVA-1") /\
  (containsRuleName "rule=iva-12" "IVA-1" = false) /\
  exists p, occurs_at (lowerCopy "rule=iva-1;") (lowerCopy "IVA-1") p.
Proof.
  assert (Hid : identifier (lowerCopy "IVA-1")).
  { intros i c. do 5 (destruct i as [|i]; [intros [= <-]; vm_compute; reflexivity|]). simpl. discriminate. }
  split; [exact Hid|]. split; [vm_compute; reflexivity|].
  apply (proj1 (containsRuleName_exact "rule=iva-1;" "IVA-1" ltac:(discriminate) ltac:(discriminate) Hid)).
  vm_compute. reflexivity.
Defined.

(** * The OR of a slot's areas *)

(** [include/event/IvaSlotOccupancyAggregator.hpp:42-46 SlotState] *)
Record SlotState := mkSlotState {
  ss_configuredAreas : gset string;
  ss_observedStates : gmap string bool;
  ss_lastEmitted : option bool
}.

(** [include/event/IvaSlotOccupancyAggregator.hpp:15-21 IvaSlotOccupancyUpdate] *)
Record IvaSlotOccupancyUpdate := mkIvaSlotOccupancyUpdate {
  iou_slotId : string;
  iou_occupied : bool;
  iou_activeAreaCount : nat;
  iou_knownAreaCount : nat;
  iou_configuredAreaCount : nat
}.

Abbreviation Aggregator := (gmap string SlotState).

(** [src/event/IvaSlotOccupancyAggregator.cpp:82-88 IvaSlotOccupancyAggregator::observationKey] *)
Definition observationKey (cameraId videoSourceToken ruleName : string) : string :=
  lowerCopy cameraId +:+ newline +:+ canonicalToken videoSourceToken +:+ newline +:+
  lowerCopy ruleName.

Definition add_area (state : SlotState) (binding : SlotObservationBinding) : SlotState :=
  if negb (sob_enabled binding) then state else
  mkSlotState ({[ observationKey (sob_cameraId binding) (sob_videoSourceToken binding)
                    (sob_ruleName binding) ]} ∪ ss_configuredAreas state)
    (ss_observedStates state) (ss_lastEmitted state).
Definition add_slot (a : Aggregator) (slot : ParkingSlotConfig) : Aggregator :=
  if negb (psc_enabled slot) then a else
  <[psc_slotId slot := foldl add_area (default (mkSlotState ∅ ∅ None) (a !! psc_slotId slot))
                         (psc_cameraBindings slot)]> a.

(** [src/event/IvaSlotOccupancyAggregator.cpp:30-42 IvaSlotOccupancyAggregator] *)
Definition new_aggregator (slots : list ParkingSlotConfig) : Aggregator := foldl add_slot ∅ slots.

Definition active_count (m : gmap string bool) : nat :=
  length (List.filter (fun kv => kv.2) (map_to_list m)).

(** [src/event/IvaSlotOccupancyAggregator.cpp:44-80 IvaSlotOccupancyAggregator::update] *)
Definition aggregator_update (slotId cameraId videoSourceToken ruleName : string) (active : bool)
    (a : Aggregator) : option IvaSlotOccupancyUpdate * Aggregator :=
  let key := observationKey cameraId videoSourceToken ruleName in
  match a !! slotId with
  | None => (None, a)
  | Some state =>
      if negb (bool_decide (key ∈ ss_configuredAreas state)) then (None, a) else
      let observed := <[key := active]> (ss_observedStates state) in
      let activeCount := active_count observed in
      let allAreasKnown := (size observed =? size (ss_configuredAreas state))%nat in
      let store last := <[slotId := mkSlotState (ss_configuredAreas state) observed last]> a in
      if (activeCount =? 0)%nat && negb allAreasKnown
      then (None, store (ss_lastEmitted state)) else
      let occupied := negb (activeCount =? 0)%nat in
      if bool_decide (ss_lastEmitted state = Some occupied)
      then (None, store (ss_lastEmitted state)) else
      (Some (mkIvaSlotOccupancyUpdate slotId occupied activeCount (size observed)
               (size (ss_configuredAreas state))),
       store (Some occupied))
  end.

(** * The confirmation of exits *)

(** [include/event/IvaOccupancyCoordinator.hpp:15-20 IvaOccupancyAction] *)
Inductive IvaOccupancyAction := Enter | Intrusion | Exit | UnsupportedAction.
#[global] Instance IvaOccupancyAction_eq_dec : EqDecision IvaOccupancyAction.
Proof. solve_decision. Defined.

(** [include/event/IvaOccupancyCoordinator.hpp:22-44 IvaOccupancySignal] *)
Record IvaOccupancySignal := mkIvaOccupancySignal {
  ios_slotId : string;
  ios_cameraId : string;
  ios_videoSourceToken : string;
  ios_ruleName : string;
  ios_objectId : string;
  ios_action : IvaOccupancyAction;
  ios_authoritativeExit : bool;
  ios_sourceIdentity : string;
  ios_occurredAtFromSource : bool;
  ios_occurredAt : time_point;
  ios_channelId : string;
  ios_occupancyAuthority : bool;
  ios_sourceTransport : string
}.

(** [include/event/IvaOccupancyCoordinator.hpp:46-54 IvaCoordinationCode] *)
Inductive IvaCoordinationCode :=
| IvaOccupied | ExitPending | ExitCanceled | IvaDuplicate | IgnoredEnter | IgnoredCustomExit
| IvaUnsupported.

(** [include/event/IvaOccupancyCoordinator.hpp:56-62 IvaCoordinationResult] *)
Record IvaCoordinationResult := mkIvaCoordinationResult {
  icr_code : IvaCoordinationCode;
  icr_signal : IvaOccupancySignal;
  icr_activeAreaCount : nat;
  icr_knownAreaCount : nat;
  icr_configuredAreaCount : nat
}.

(** [include/event/IvaOccupancyCoordinator.hpp:71-101 IvaOccupancyCoordinator]
    The pending exits hold a signal and its deadline. *)
Record IvaCoordinator := mkCoordinator {
  co_delay : Z;
  co_aggregator : Aggregator;
  co_pending : gmap string (IvaOccupancySignal * Z)
}.

(** [src/event/IvaOccupancyCoordinator.cpp:8-13 IvaOccupancyCoordinator]
    Times are in milliseconds. *)
Definition new_coordinator (slots : list ParkingSlotConfig) (exitConfirmDelay : Z) : IvaCoordinator :=
  mkCoordinator (Z.max 1 exitConfirmDelay) (new_aggregator slots) ∅.

(** [src/event/IvaOccupancyCoordinator.cpp:15-72 IvaOccupancyCoordinator::handle] *)
Definition iva_handle (signal : IvaOccupancySignal) (now : Z) (c : IvaCoordinator)
    : IvaCoordinationResult * IvaCoordinator :=
  let plain code := mkIvaCoordinationResult code signal 0 0 0 in
  let counted code u := mkIvaCoordinationResult code signal (iou_activeAreaCount u)
                          (iou_knownAreaCount u) (iou_configuredAreaCount u) in
  match ios_action signal with
  | Enter => (plain IgnoredEnter, c)
  | UnsupportedAction => (plain IvaUnsupported, c)
  | Intrusion =>
      let '(aggregate, a) := aggregator_update (ios_slotId signal) (ios_cameraId signal)
        (ios_videoSourceToken signal) (ios_ruleName signal) true (co_aggregator c) in
      let canceled := bool_decide (is_Some (co_pending c !! ios_slotId signal)) in
      let c' := mkCoordinator (co_delay c) a (delete (ios_slotId signal) (co_pending c)) in
      (match aggregate with
       | Some u => counted (if canceled then ExitCanceled else IvaOccupied) u
       | None => plain (if canceled then ExitCanceled else IvaDuplicate)
       end, c')
  | Exit =>
      if negb (ios_authoritativeExit signal) then (plain IgnoredCustomExit, c) else
      let '(aggregate, a) := aggregator_update (ios_slotId signal) (ios_cameraId signal)
        (ios_videoSourceToken signal) (ios_ruleName signal) false (co_aggregator c) in
      let same := mkCoordinator (co_delay c) a (co_pending c) in
      match aggregate with
      | None => (plain IvaDuplicate, same)
      | Some u =>
          if iou_occupied u then (plain IvaDuplicate, same) else
          if bool_decide (is_Some (co_pending c !! ios_slotId signal))
          then (counted IvaDuplicate u, same)
          else (counted ExitPending u,
                mkCoordinator (co_delay c) a
                  (<[ios_slotId signal := (signal, now + co_delay c)]> (co_pending c)))
      end
  end.

(** [src/event/IvaOccupancyCoordinator.cpp:74-84 IvaOccupancyCoordinator::nextDeadline] *)
Definition iva_nextDeadline (c : IvaCoordinator) : option Z :=
  foldl (fun acc kv => earliest acc kv.2.2) None (map_to_list (co_pending c)).

Definition exit_due (now : Z) (p : IvaOccupancySignal * Z) : bool := negb (now <? p.2).

(** [src/event/IvaOccupancyCoordinator.cpp:86-99 IvaOccupancyCoordinator::takeDue] *)
Definition iva_takeDue (now : Z) (c : IvaCoordinator) : list IvaOccupancySignal * IvaCoordinator :=
  ((fun kv => kv.2.1) <$> List.filter (fun kv => exit_due now kv.2) (map_to_list (co_pending c)),
   mkCoordinator (co_delay c) (co_aggregator c)
     (filter (fun kv => exit_due now kv.2 = false) (co_pending c))).

(** * Histories of the coordinator *)

Inductive iva_input :=
| InHandle (signal : IvaOccupancySignal) (now : Z)
| InTakeDue (now : Z).
Definition iva_step (c : IvaCoordinator) (input : iva_input) : IvaCoordinator :=
  match input with
  | InHandle signal now => (iva_handle signal now c).2
  | InTakeDue now => (iva_takeDue now c).2
  end.
Definition iva_run : IvaCoordinator -> list iva_input -> IvaCoordinator := foldl iva_step.

Definition areas_known (a : Aggregator) : Prop :=
  forall slot st, a !! slot = Some st -> dom (ss_observedStates st) ⊆ ss_configuredAreas st.

(** Every configured area of a slot was seen, and none is active. *)
Definition all_vacant (a : Aggregator) (slot : string) : Prop :=
  exists st, a !! slot = Some st /\
    forall key, key ∈ ss_configuredAreas st -> ss_observedStates st !! key = Some false.

Lemma active_count_zero m key b : active_count m = 0%nat -> m !! key = Some b -> b = false.
Proof.
  intros Hc Hk. destruct b; [|done]. exfalso. unfold active_count in Hc.
  assert (Hin : In (key, true) (List.filter (fun kv => kv.2) (map_to_list m))).
  { apply filter_In. split; [|done]. by apply list_elem_of_In, elem_of_map_to_list. }
  destruct (List.filter _ _); [done|discriminate Hc].
Qed.

(** What an update does to the slot's areas, whatever it emits. *)
Lemma aggregator_update_store slot cam tok rule active a :
  let key := observationKey cam tok rule in
  (aggregator_update slot cam tok rule active a).2 = a \/
  exists st last, a !! slot = Some st /\ key ∈ ss_configuredAreas st /\
    (aggregator_update slot cam tok rule active a).2 =
      <[slot := mkSlotState (ss_configuredAreas st) (<[key := active]> (ss_observedStates st)) last]> a.
Proof.
  unfold aggregator_update. destruct (a !! slot) as [st|] eqn:Hst; [|by left].
  case_bool_decide as Hkey; simpl; [|by left]. right.
  destruct (_ && _)%bool; [by eexists _, _|]. case_bool_decide; by eexists _, _.
Qed.

Lemma aggregator_update_known slot cam tok rule active a :
  areas_known a -> areas_known (aggregator_update slot cam tok rule active a).2.
Proof.
  intros Ha. destruct (aggregator_update_store slot cam tok rule active a)
    as [->|(st & last & Hst & Hkey & ->)]; [done|].
  intros s x [[<- <-]|[_ Hx]]%lookup_insert_Some; [|by eapply Ha]. simpl.
  rewrite dom_insert. specialize (Ha _ _ Hst). set_solver.
Qed.

Lemma aggregator_update_vacant slot cam tok rule active a s :
  (s = slot -> active = false) -> all_vacant a s ->
  all_vacant (aggregator_update slot cam tok rule active a).2 s.
Proof.
  intros Hact (st & Hst & Hall). destruct (aggregator_update_store slot cam tok rule active a)
    as [->|(st' & last & Hst' & Hkey & ->)]; [by exists st|].
  destruct (decide (s = slot)) as [->|Hne].
  - assert (st' = st) as -> by congruence. rewrite (Hact eq_refl).
    eexists. split; [apply lookup_insert_eq|]. simpl. intros key Hk.
    destruct (decide (key = observationKey cam tok rule)) as [->|Hn];
      [by rewrite lookup_insert_eq|]. rewrite lookup_insert_ne by done. by apply Hall.
  - exists st. by rewrite lookup_insert_ne.
Qed.

(** A VACANT is emitted only when every configured area is known and inactive. *)
Lemma aggregator_update_emits_vacant slot cam tok rule active a u :
  areas_known a -> (aggregator_update slot cam tok rule active a).1 = Some u ->
  iou_occupied u = false -> all_vacant (aggregator_update slot cam tok rule active a).2 slot.
Proof.
  intros Ha. unfold aggregator_update. destruct (a !! slot) as [st|] eqn:Hst; [|done].
  case_bool_decide as Hkey; [|done]. simpl.
  set (obs := <[_ := active]> (ss_observedStates st)).
  destruct (_ && _)%bool eqn:E; [done|]. case_bool_decide; [done|]. simpl. intros [= <-]. simpl.
  intros Hocc. apply negb_false_iff in Hocc. rewrite Hocc in E. simpl in E.
  apply negb_false_iff, Nat.eqb_eq in E. apply Nat.eqb_eq in Hocc.
  eexists. split; [apply lookup_insert_eq|]. simpl. intros key Hk.
  assert (Hdom : dom obs ⊆ ss_configuredAreas st).
  { unfold obs. rewrite dom_insert. specialize (Ha _ _ Hst). set_solver. }
  assert (Heq : key ∈ dom obs).
  { assert (dom obs ≡ ss_configuredAreas st) as ->; [|done].
    apply set_subseteq_size_equiv; [done|]. rewrite size_dom. lia. }
  apply elem_of_dom in Heq as [b Hb]. rewrite Hb. f_equal. by eapply active_count_zero.
Qed.

(** What the history says of a pending exit. *)
Definition exit_reason (history : list iva_input) (delay : Z) (a : Aggregator)
    (signal : IvaOccupancySignal) (deadline : Z) : Prop :=
  ios_action signal = Exit /\ ios_authoritativeExit signal = true /\
  all_vacant a (ios_slotId signal) /\
  exists pre t0 post, history = pre ++ InHandle signal t0 :: post /\ deadline = t0 + delay /\
    forall signal' t', InHandle signal' t' ∈ post -> ios_action signal' = Intrusion ->
      ios_slotId signal' <> ios_slotId signal.

Record coordinator_ok (history : list iva_input) (c : IvaCoordinator) : Prop := {
  ck_known : areas_known (co_aggregator c);
  ck_pending : forall slot signal deadline, co_pending c !! slot = Some (signal, deadline) ->
    ios_slotId signal = slot /\ exit_reason history (co_delay c) (co_aggregator c) signal deadline
}.

(** One more input that is no INTRUSION of the slot. *)
Lemma exit_reason_snoc history delay a a' signal deadline input :
  (forall s t, input = InHandle s t -> ios_action s = Intrusion -> ios_slotId s <> ios_slotId signal) ->
  (all_vacant a (ios_slotId signal) -> all_vacant a' (ios_slotId signal)) ->
  exit_reason history delay a signal deadline ->
  exit_reason (history ++ [input]) delay a' signal deadline.
Proof.
  intros Hin Hv (H1 & H2 & H3 & pre & t0 & post & -> & Hd & Hpost).
  split; [done|]. split; [done|]. split; [by apply Hv|].
  exists pre, t0, (post ++ [input]). split; [by rewrite <-(assoc_L (++))|]. split; [done|].
  intros s t [Hs|Hs]%elem_of_app; [by eapply Hpost|].
  apply list_elem_of_singleton in Hs. by eapply Hin.
Qed.

Lemma iva_handle_ok history c signal now :
  coordinator_ok history c -> coordinator_ok (history ++ [InHandle signal now]) (iva_handle signal now c).2.
Proof.
  intros [Hk Hp].
  assert (Hkeep : forall a', areas_known a' -> ios_action signal <> Intrusion ->
    (forall s, all_vacant (co_aggregator c) s -> all_vacant a' s) ->
    coordinator_ok (history ++ [InHandle signal now]) (mkCoordinator (co_delay c) a' (co_pending c))).
  { intros a' Ha' Hact Hv. split; [done|]. simpl. intros slot s d Hs.
    destruct (Hp _ _ _ Hs) as [Hsl Hr]. split; [done|].
    apply (exit_reason_snoc _ _ (co_aggregator c)); [|apply Hv|done]. by intros s' t' [= <- _]. }
  unfold iva_handle. destruct (ios_action signal) eqn:Hact.
  - destruct c. by apply (Hkeep co_aggregator0).
  - pose proof (aggregator_update_known (ios_slotId signal) (ios_cameraId signal)
      (ios_videoSourceToken signal) (ios_ruleName signal) true _ Hk) as Hk'.
    assert (Hv : forall s, s <> ios_slotId signal -> all_vacant (co_aggregator c) s ->
      all_vacant (aggregator_update (ios_slotId signal) (ios_cameraId signal)
        (ios_videoSourceToken signal) (ios_ruleName signal) true (co_aggregator c)).2 s)
      by (intros s Hne; by apply aggregator_update_vacant).
    destruct (aggregator_update _ _ _ _ true _) as [agg a']. simpl in *. split; [done|]. simpl.
    intros slot s d [Hne Hs]%lookup_delete_Some. destruct (Hp _ _ _ Hs) as [Hsl Hr]. subst slot.
    split; [done|]. apply (exit_reason_snoc _ _ (co_aggregator c)); [|by apply Hv|done].
    intros s' t' [= <- _] _. done.
  - destruct (ios_authoritativeExit signal) eqn:Hauth; simpl;
      [|destruct c; by apply (Hkeep co_aggregator0)].
    pose proof (aggregator_update_known (ios_slotId signal) (ios_cameraId signal)
      (ios_videoSourceToken signal) (ios_ruleName signal) false _ Hk) as Hk'.
    pose proof (aggregator_update_emits_vacant (ios_slotId signal) (ios_cameraId signal)
      (ios_videoSourceToken signal) (ios_ruleName signal) false (co_aggregator c)) as Hem.
    assert (Hv : forall s, all_vacant (co_aggregator c) s ->
      all_vacant (aggregator_update (ios_slotId signal) (ios_cameraId signal)
        (ios_videoSourceToken signal) (ios_ruleName signal) false (co_aggregator c)).2 s)
      by (intros s; by apply aggregator_update_vacant).
    destruct (aggregator_update _ _ _ _ false _) as [agg a']. simpl in *.
    assert (Hsame := Hkeep a' Hk' ltac:(congruence) Hv).
    destruct agg as [u|]; [|done]. destruct (iou_occupied u) eqn:Hocc; [done|].
    case_bool_decide; [done|]. specialize (Hem u Hk eq_refl Hocc). split; [done|]. simpl.
    intros slot s d [[<- [= <- <-]]|[Hne Hs]]%lookup_insert_Some.
    + split; [done|]. split; [done|]. split; [done|]. split; [done|].
      exists history, now, []. split; [done|]. split; [done|]. by intros ? ? ?%elem_of_nil.
    + destruct Hsame as [_ Hsame]. by apply (Hsame slot s d).
  - destruct c. by apply (Hkeep co_aggregator0).
Qed.

Lemma iva_takeDue_ok history c now :
  coordinator_ok history c -> coordinator_ok (history ++ [InTakeDue now]) (iva_takeDue now c).2.
Proof.
  intros [Hk Hp]. split; [done|]. simpl. intros slot s d [Hs _]%map_lookup_filter_Some.
  destruct (Hp _ _ _ Hs) as [Hsl Hr]. split; [done|].
  by apply (exit_reason_snoc _ _ (co_aggregator c)).
Qed.

Lemma iva_delay_step c input : co_delay (iva_step c input) = co_delay c.
Proof.
  destruct input as [signal now|now]; [|done]. simpl. unfold iva_handle.
  destruct (ios_action signal); try done.
  - by destruct (aggregator_update _ _ _ _ _ _).
  - destruct (negb _); [done|]. destruct (aggregator_update _ _ _ _ _ _) as [[u|] a]; [|done].
    destruct (iou_occupied u); [done|]. by destruct (bool_decide _).
Qed.

Lemma new_aggregator_known slots : areas_known (new_aggregator slots).
Proof.
  unfold new_aggregator. assert (Hgen : forall a : Aggregator,
    (forall slot st, a !! slot = Some st -> ss_observedStates st = ∅) ->
    forall slot st, foldl add_slot a slots !! slot = Some st -> ss_observedStates st = ∅).
  { induction slots as [|s slots IH]; intros a Ha; [done|]. apply IH. unfold add_slot.
    destruct (negb _); [done|]. intros slot st [[<- <-]|[_ Hst]]%lookup_insert_Some; [|by eapply Ha].
    assert (Hadd : forall bs st0, ss_observedStates (foldl add_area st0 bs) = ss_observedStates st0).
    { induction bs as [|b bs IHb]; intros st0; [done|]. simpl. rewrite IHb. unfold add_area.
      by destruct (negb _). }
    rewrite Hadd. destruct (a !! psc_slotId s) eqn:E; [by eapply Ha|done]. }
  intros slot st Hst. rewrite (Hgen ∅ ltac:(by intros ? ? ?%lookup_empty_Some) slot st Hst). set_solver.
Qed.

Lemma iva_run_ok slots delay inputs :
  let c := iva_run (new_coordinator slots delay) inputs in
  coordinator_ok inputs c /\ co_delay c = Z.max 1 delay.
Proof.
  induction inputs as [|input inputs IH] using rev_ind; simpl.
  - split; [|done]. split; [apply new_aggregator_known|]. simpl. by intros ? ? ? ?%lookup_empty_Some.
  - unfold iva_run in *. rewrite foldl_app. simpl. destruct IH as [IH Hd].
    split; [|by rewrite iva_delay_step].
    destruct input as [signal now|now]; [by apply iva_handle_ok|by apply iva_takeDue_ok].
Qed.

(** An exit is confirmed only after a quiet delay: every signal that [takeDue]
    returns is an authoritative EXIT that was handled at least the (positive) confirmation
    delay ago; no INTRUSION of the slot was handled since, and at that moment every
    configured area of the slot has been observed and is inactive. *)
Theorem exit_confirmed_after_quiet slots delay inputs now signal :
  let c := iva_run (new_coordinator slots delay) inputs in
  signal ∈ (iva_takeDue now c).1 ->
  ios_action signal = Exit /\ ios_authoritativeExit signal = true /\
  all_vacant (co_aggregator c) (ios_slotId signal) /\
  exists pre t0 post, inputs = pre ++ InHandle signal t0 :: post /\ t0 + Z.max 1 delay <= now /\
    forall signal' t', InHandle signal' t' ∈ post -> ios_action signal' = Intrusion ->
      ios_slotId signal' <> ios_slotId signal.
Proof.
  intros c Hin. destruct (iva_run_ok slots delay inputs) as [[_ Hp] Hd]. fold c in Hp, Hd.
  simpl in Hin. apply list_elem_of_fmap in Hin as ([slot [s d]] & -> & Hin).
  apply list_elem_of_In, filter_In in Hin as [Hin Hdue]. simpl in *.
  apply list_elem_of_In, elem_of_map_to_list in Hin.
  destruct (Hp _ _ _ Hin) as (_ & H1 & H2 & H3 & pre & t0 & post & Hi & Hdl & Hpost).
  split_and!; try done. exists pre, t0, post. split; [done|]. split; [|done].
  unfold exit_due in Hdue. simpl in Hdue. apply negb_true_iff, Z.ltb_ge in Hdue. lia.
Qed.

(** One slot with one area: INTRUSION at 0, EXIT at 1000, due at 6000. *)
Definition sample_slot : ParkingSlotConfig :=
  mkParkingSlotConfig "A1" true "EV" "s1" [mkSlotObservationBinding "cam" "vs-1" "IVA-1" true 0].
Definition sample_signal (action : IvaOccupancyAction) : IvaOccupancySignal :=
  mkIvaOccupancySignal "A1" "cam" "VideoSourceToken-1" "iva-1" "7" action true "" false 0 "" true
    "camera-mqtt".
Definition sample_inputs : list iva_input :=
  [InHandle (sample_signal Intrusion) 0; InHandle (sample_signal Exit) 1000].

Example exit_confirmed_after_quiet_witness :
  sample_signal Exit ∈ (iva_takeDue 6000 (iva_run (new_coordinator [sample_slot] 5000) sample_inputs)).1 /\
  (iva_takeDue 5999 (iva_run (new_coordinator [sample_slot] 5000) sample_inputs)).1 = [] /\
  all_vacant (co_aggregator (iva_run (new_coordinator [sample_slot] 5000) sample_inputs)) "A1".
Proof.
  assert (H : sample_signal Exit ∈
    (iva_takeDue 6000 (iva_run (new_coordinator [sample_slot] 5000) sample_inputs)).1).
  { replace (iva_takeDue 6000 (iva_run (new_coordinator [sample_slot] 5000) sample_inputs)).1
      with [sample_signal Exit] by (vm_compute; reflexivity). by left. }
  split; [exact H|]. split; [vm_compute; reflexivity|].
  destruct (exit_confirmed_after_quiet [sample_slot] 5000 sample_inputs 6000 (sample_signal Exit) H)
    as (_ & _ & Hv & _). exact Hv.
Defined.
