(* ===== verification/FireStore.v ===== *)
(** The durable tables of the fire alarm and every operation on them:
    [src/event/FirePersistence.cpp] and [src/database/EventDatabaseFire.cpp]. Rows keep the
    columns as the database has them (names of enumerators and sequence numbers are text), so
    reading a row can fail as it does in the code. An operation is a function of the
    database; a transaction that is rolled back returns the database it started from. *)
From stdpp Require Import sorting.
From S2P Require Import Prelude SensorProtocol SequencePolicy SlotConfig OccupancyDb.

(** * Data *)

(** [include/event/FireAlarmEvent.hpp:12-16 FireAlarmLifecycle] *)
Inductive FireAlarmLifecycle := AlarmOpen | AlarmAcknowledged | AlarmResolved.
#[global] Instance FireAlarmLifecycle_eq_dec : EqDecision FireAlarmLifecycle.
Proof. solve_decision. Defined.

(** [include/event/FirePersistence.hpp:15-19 FireProtocolMode] *)
Inductive FireProtocolMode := FireUnseen | FireLegacy | FireVersioned.
#[global] Instance FireProtocolMode_eq_dec : EqDecision FireProtocolMode.
Proof. solve_decision. Defined.

(** [include/event/FirePersistence.hpp:21-24 FireDeliverySinkKind] *)
Inductive FireDeliverySinkKind := RetainedState | LifecycleEvent.
#[global] Instance FireDeliverySinkKind_eq_dec : EqDecision FireDeliverySinkKind.
Proof. solve_decision. Defined.

(** [include/event/FirePersistence.hpp:26-30 FireDeliveryState] *)
Inductive FireDeliveryState := DeliveryPending | DeliveryInFlight | DeliveryAcknowledged.
#[global] Instance FireDeliveryState_eq_dec : EqDecision FireDeliveryState.
Proof. solve_decision. Defined.

(** [include/event/FirePersistence.hpp:12-13 kMaxFireRevision] *)
Definition kMaxFireRevision : N := 9223372036854775807.

(** [include/event/FirePersistence.hpp:32-45 FireAlarmStateRecord] *)
Record FireAlarmStateRecord := mkFireAlarmStateRecord {
  fas_channelId : string;
  fas_sensorId : string;
  fas_retainedTopic : string;
  fas_desiredLifecycle : FireAlarmLifecycle;
  fas_activeAlarmId : string;
  fas_lastEventId : string;
  fas_fireRevision : N;
  fas_protocolMode : FireProtocolMode;
  fas_activeBootId : option string;
  fas_lastSourceSequence : option N;
  fas_lastSignalJson : string;
  fas_updatedAt : string
}.

(** [include/event/FirePersistence.hpp:47-67 FireOutboxRecord] *)
Record FireOutboxRecord := mkFireOutboxRecord {
  fob_deliveryKey : string;
  fob_sinkKind : FireDeliverySinkKind;
  fob_logicalKey : string;
  fob_sensorId : string;
  fob_channelId : string;
  fob_eventId : string;
  fob_alarmId : string;
  fob_fireRevision : N;
  fob_topic : string;
  fob_payloadJson : string;
  fob_qos : Z;
  fob_retain : bool;
  fob_attemptCount : N;
  fob_nextAttemptAt : string;
  fob_lastError : string;
  fob_deliveryState : FireDeliveryState;
  fob_acknowledgedRevision : option N;
  fob_createdAt : string;
  fob_updatedAt : string
}.

(** [include/event/FirePersistence.hpp:69-72 FireChannelBootstrap] *)
Record FireChannelBootstrap := mkFireChannelBootstrap {
  fcb_initialState : FireAlarmStateRecord;
  fcb_retainedDelivery : FireOutboxRecord
}.

(** [include/event/FirePersistence.hpp:74-80 FireStoreMutationOutcome] *)
Inductive FireStoreMutationOutcome :=
| StoreCommitted | StoreIdempotent | StoreConflict | StoreInvalid | StoreFailed.
#[global] Instance FireStoreMutationOutcome_eq_dec : EqDecision FireStoreMutationOutcome.
Proof. solve_decision. Defined.

(** [include/event/FirePersistence.hpp:82-91 FireStoreMutationResult] *)
Record FireStoreMutationResult := mkFireStoreMutationResult {
  fsm_outcome : FireStoreMutationOutcome;
  fsm_fireRevision : N;
  fsm_error : string
}.
Definition store_committed (r : FireStoreMutationResult) : bool :=
  bool_decide (fsm_outcome r = StoreCommitted) || bool_decide (fsm_outcome r = StoreIdempotent).

(** [include/event/FirePersistence.hpp:96-101 FireStateMutation] *)
Record FireStateMutation := mkFireStateMutation {
  fmu_expectedRevision : N;
  fmu_nextState : FireAlarmStateRecord;
  fmu_retainedDelivery : option FireOutboxRecord;
  fmu_lifecycleDelivery : option FireOutboxRecord
}.

(** [src/event/FirePersistence.cpp:5-15 toString] *)
Definition lifecycle_name (lifecycle : FireAlarmLifecycle) : string :=
  match lifecycle with
  | AlarmOpen => "OPEN"
  | AlarmAcknowledged => "ACKNOWLEDGED"
  | AlarmResolved => "RESOLVED"
  end.

(** [src/event/FirePersistence.cpp:17-27 toString] *)
Definition mode_name (mode : FireProtocolMode) : string :=
  match mode with
  | FireUnseen => "UNSEEN"
  | FireLegacy => "LEGACY"
  | FireVersioned => "VERSIONED"
  end.

(** [src/event/FirePersistence.cpp:29-37 toString] *)
Definition sink_name (kind : FireDeliverySinkKind) : string :=
  match kind with
  | RetainedState => "RETAINED_STATE"
  | LifecycleEvent => "LIFECYCLE_EVENT"
  end.

(** [src/event/FirePersistence.cpp:39-49 toString] *)
Definition delivery_name (state : FireDeliveryState) : string :=
  match state with
  | DeliveryPending => "PENDING"
  | DeliveryInFlight => "IN_FLIGHT"
  | DeliveryAcknowledged => "ACKED"
  end.

(** [src/event/FirePersistence.cpp:51-57 fireAlarmLifecycleFromString] *)
Definition fireAlarmLifecycleFromString (value : string) : option FireAlarmLifecycle :=
  if bool_decide (value = "OPEN") then Some AlarmOpen else
  if bool_decide (value = "ACKNOWLEDGED") then Some AlarmAcknowledged else
  if bool_decide (value = "RESOLVED") then Some AlarmResolved else None.

(** [src/event/FirePersistence.cpp:59-65 fireProtocolModeFromString] *)
Definition fireProtocolModeFromString (value : string) : option FireProtocolMode :=
  if bool_decide (value = "UNSEEN") then Some FireUnseen else
  if bool_decide (value = "LEGACY") then Some FireLegacy else
  if bool_decide (value = "VERSIONED") then Some FireVersioned else None.

(** [src/event/FirePersistence.cpp:67-72 fireDeliverySinkFromString] *)
Definition fireDeliverySinkFromString (value : string) : option FireDeliverySinkKind :=
  if bool_decide (value = "RETAINED_STATE") then Some RetainedState else
  if bool_decide (value = "LIFECYCLE_EVENT") then Some LifecycleEvent else None.

(** [src/event/FirePersistence.cpp:74-80 fireDeliveryStateFromString] *)
Definition fireDeliveryStateFromString (value : string) : option FireDeliveryState :=
  if bool_decide (value = "PENDING") then Some DeliveryPending else
  if bool_decide (value = "IN_FLIGHT") then Some DeliveryInFlight else
  if bool_decide (value = "ACKED") then Some DeliveryAcknowledged else None.

(** * Tables *)

(** [src/database/EventDatabaseTimer.cpp:695-710 FIRE_ALARM_STATE] A row without its key,
    channel_id. *)
Record FireStateRow := mkFireStateRow {
  fs_sensor_id : string;
  fs_retained_topic : string;
  fs_desired_lifecycle : string;
  fs_active_alarm_id : option string;
  fs_last_event_id : string;
  fs_fire_revision : Z;
  fs_protocol_mode : string;
  fs_active_boot_id : option string;
  fs_last_source_sequence : option string;
  fs_last_signal_json : string;
  fs_updated_at : string
}.

(** [src/database/EventDatabaseTimer.cpp:711-734 FIRE_MQTT_OUTBOX] A row without its key,
    delivery_key. *)
Record FireOutboxRow := mkFireOutboxRow {
  fo_sink_kind : string;
  fo_logical_key : string;
  fo_sensor_id : string;
  fo_channel_id : string;
  fo_event_id : string;
  fo_alarm_id : string;
  fo_fire_revision : Z;
  fo_topic : string;
  fo_payload_json : string;
  fo_qos : Z;
  fo_retain : Z;
  fo_attempt_count : Z;
  fo_next_attempt_at : string;
  fo_last_error : string;
  fo_delivery_state : string;
  fo_acked_revision : option Z;
  fo_created_at : string;
  fo_updated_at : string
}.

(** The tables of the fire alarm; [fd_retired] is SENSOR_RETIRED_BOOT_ID with its key (source
    kind, (sensor, boot)), and [fd_open] tells whether the connection is open. *)
Record FireDb := mkFireDb {
  fd_open : bool;
  fd_states : gmap string FireStateRow;
  fd_outbox : gmap string FireOutboxRow;
  fd_retired : gset (string * (string * string))
}.
Definition with_states (db : FireDb) x := mkFireDb (fd_open db) x (fd_outbox db) (fd_retired db).
Definition with_outbox (db : FireDb) x := mkFireDb (fd_open db) (fd_states db) x (fd_retired db).
Definition with_retired_boots (db : FireDb) x :=
  mkFireDb (fd_open db) (fd_states db) (fd_outbox db) x.

(** A statement that a constraint of its table refuses; the engine's message is left out. *)
Definition fire_sql_failed : string := "SQLite Fire statement failed".

(** * Reading and writing rows *)

(** [src/database/EventDatabaseFire.cpp:83-95 parseOptionalSequence] *)
Definition parseOptionalSequence (text : option string) : result string (option N) :=
  match text with
  | None => Ok None
  | Some t => match parseUnsigned t with
              | Some n => Ok (Some n)
              | None => Err "invalid Fire source sequence in SQLite"
              end
  end.

(** [src/database/EventDatabaseFire.cpp:97-103 checkedInt64] *)
Definition checkedInt64 (value : N) (field : string) : result string Z :=
  if bool_decide (kMaxFireRevision < value)%N then Err (field +:+ " exceeds SQLite INTEGER")
  else Ok (Z.of_N value).

(** [src/database/EventDatabaseFire.cpp:113-136 readState] *)
Definition readState (channel_id : string) (row : FireStateRow)
    : result string FireAlarmStateRecord :=
  match fireAlarmLifecycleFromString (fs_desired_lifecycle row),
        fireProtocolModeFromString (fs_protocol_mode row) with
  | Some lifecycle, Some protocol =>
      if fs_fire_revision row <=? 0 then Err "invalid Fire state row in SQLite" else
      let? sequence := parseOptionalSequence (fs_last_source_sequence row) in
      Ok (mkFireAlarmStateRecord channel_id (fs_sensor_id row) (fs_retained_topic row) lifecycle
            (default "" (fs_active_alarm_id row)) (fs_last_event_id row)
            (Z.to_N (fs_fire_revision row)) protocol (fs_active_boot_id row) sequence
            (fs_last_signal_json row) (fs_updated_at row))
  | _, _ => Err "invalid Fire state row in SQLite"
  end.

(** [src/database/EventDatabaseFire.cpp:138-174 readDelivery] *)
Definition readDelivery (delivery_key : string) (row : FireOutboxRow)
    : result string FireOutboxRecord :=
  match fireDeliverySinkFromString (fo_sink_kind row),
        fireDeliveryStateFromString (fo_delivery_state row) with
  | Some sink, Some state =>
      if (fo_fire_revision row <=? 0) || (fo_attempt_count row <? 0)
      then Err "invalid Fire outbox row in SQLite" else
      let? acknowledged :=
        match fo_acked_revision row with
        | None => Ok None
        | Some a => if a <=? 0 then Err "invalid acknowledged Fire revision"
                    else Ok (Some (Z.to_N a))
        end in
      Ok (mkFireOutboxRecord delivery_key sink (fo_logical_key row) (fo_sensor_id row)
            (fo_channel_id row) (fo_event_id row) (fo_alarm_id row)
            (Z.to_N (fo_fire_revision row)) (fo_topic row) (fo_payload_json row) (fo_qos row)
            (negb (fo_retain row =? 0)) (Z.to_N (fo_attempt_count row)) (fo_next_attempt_at row)
            (fo_last_error row) state acknowledged (fo_created_at row) (fo_updated_at row))
  | _, _ => Err "invalid Fire outbox row in SQLite"
  end.

(** The columns that a state record is written to. *)
Definition state_row (row : FireAlarmStateRecord) (revision : Z) : FireStateRow :=
  mkFireStateRow (fas_sensorId row) (fas_retainedTopic row)
    (lifecycle_name (fas_desiredLifecycle row))
    (if is_empty (fas_activeAlarmId row) then None else Some (fas_activeAlarmId row))
    (fas_lastEventId row) revision (mode_name (fas_protocolMode row)) (fas_activeBootId row)
    (pretty <$> fas_lastSourceSequence row) (fas_lastSignalJson row) (fas_updatedAt row).

(** The columns that a delivery record is written to. *)
Definition outbox_row (row : FireOutboxRecord) (revision attempts : Z) (acked : option Z)
    : FireOutboxRow :=
  mkFireOutboxRow (sink_name (fob_sinkKind row)) (fob_logicalKey row) (fob_sensorId row)
    (fob_channelId row) (fob_eventId row) (fob_alarmId row) revision (fob_topic row)
    (fob_payloadJson row) (fob_qos row) (if fob_retain row then 1 else 0) attempts
    (fob_nextAttemptAt row) (fob_lastError row) (delivery_name (fob_deliveryState row)) acked
    (fob_createdAt row) (fob_updatedAt row).

(** The unique columns and checks of FIRE_ALARM_STATE. *)
Definition state_clash (db : FireDb) (channel : string) (row : FireStateRow) : bool :=
  bool_decide (is_Some (fd_states db !! channel)) || (fs_fire_revision row <=? 0) ||
  existsb (fun kv => bool_decide (fs_sensor_id kv.2 = fs_sensor_id row) ||
                     bool_decide (fs_retained_topic kv.2 = fs_retained_topic row))
    (map_to_list (fd_states db)).

(** The foreign key, unique indexes and checks of FIRE_MQTT_OUTBOX. *)
Definition outbox_clash (db : FireDb) (key : string) (row : FireOutboxRow) : bool :=
  bool_decide (is_Some (fd_outbox db !! key)) || (fo_fire_revision row <=? 0) ||
  negb (fo_qos row =? 1) || (fo_attempt_count row <? 0) ||
  bool_decide (fd_states db !! fo_channel_id row = None) ||
  existsb (fun kv => bool_decide (fo_sink_kind kv.2 = fo_sink_kind row) &&
      (bool_decide (fo_logical_key kv.2 = fo_logical_key row) ||
       bool_decide (fo_sink_kind row = "LIFECYCLE_EVENT") &&
       bool_decide (fo_event_id kv.2 = fo_event_id row)))
    (map_to_list (fd_outbox db)).

(** [src/database/EventDatabaseFire.cpp:280-309 insertState] *)
Definition insertState (db : FireDb) (row : FireAlarmStateRecord) : result string FireDb :=
  let? revision := checkedInt64 (fas_fireRevision row) "fire revision" in
  let columns := state_row row revision in
  if state_clash db (fas_channelId row) columns then Err fire_sql_failed
  else Ok (with_states db (<[fas_channelId row := columns]> (fd_states db))).

(** [src/database/EventDatabaseFire.cpp:311-345 insertDelivery] *)
Definition insertDelivery (db : FireDb) (row : FireOutboxRecord) : result string FireDb :=
  let? revision := checkedInt64 (fob_fireRevision row) "fire revision" in
  let? attempts := checkedInt64 (fob_attemptCount row) "attempt count" in
  let? acked := match fob_acknowledgedRevision row with
                | Some a => let? z := checkedInt64 a "acknowledged revision" in Ok (Some z)
                | None => Ok None
                end in
  let columns := outbox_row row revision attempts acked in
  if outbox_clash db (fob_deliveryKey row) columns then Err fire_sql_failed
  else Ok (with_outbox db (<[fob_deliveryKey row := columns]> (fd_outbox db))).

(** [src/database/EventDatabaseFire.cpp:254-265 selectState] *)
Definition selectState (db : FireDb) (channel_id : string)
    : result string (option FireAlarmStateRecord) :=
  match fd_states db !! channel_id with
  | None => Ok None
  | Some row => let? r := readState channel_id row in Ok (Some r)
  end.

(** [src/database/EventDatabaseFire.cpp:267-278 selectDelivery] *)
Definition selectDelivery (db : FireDb) (delivery_key : string)
    : result string (option FireOutboxRecord) :=
  match fd_outbox db !! delivery_key with
  | None => Ok None
  | Some row => let? r := readDelivery delivery_key row in Ok (Some r)
  end.

(** [src/database/EventDatabaseFire.cpp:187-200 sameStateSemantic] *)
Definition sameStateSemantic (l r : FireAlarmStateRecord) : bool :=
  bool_decide (fas_channelId l = fas_channelId r) &&
  bool_decide (fas_sensorId l = fas_sensorId r) &&
  bool_decide (fas_retainedTopic l = fas_retainedTopic r) &&
  bool_decide (fas_desiredLifecycle l = fas_desiredLifecycle r) &&
  bool_decide (fas_activeAlarmId l = fas_activeAlarmId r) &&
  bool_decide (fas_lastEventId l = fas_lastEventId r) &&
  bool_decide (fas_fireRevision l = fas_fireRevision r) &&
  bool_decide (fas_protocolMode l = fas_protocolMode r) &&
  bool_decide (fas_activeBootId l = fas_activeBootId r) &&
  bool_decide (fas_lastSourceSequence l = fas_lastSourceSequence r) &&
  bool_decide (fas_lastSignalJson l = fas_lastSignalJson r).

(** [src/database/EventDatabaseFire.cpp:202-215 sameDeliverySemantic] *)
Definition sameDeliverySemantic (l r : FireOutboxRecord) : bool :=
  bool_decide (fob_deliveryKey l = fob_deliveryKey r) &&
  bool_decide (fob_sinkKind l = fob_sinkKind r) &&
  bool_decide (fob_logicalKey l = fob_logicalKey r) &&
  bool_decide (fob_sensorId l = fob_sensorId r) &&
  bool_decide (fob_channelId l = fob_channelId r) &&
  bool_decide (fob_eventId l = fob_eventId r) &&
  bool_decide (fob_alarmId l = fob_alarmId r) &&
  bool_decide (fob_fireRevision l = fob_fireRevision r) &&
  bool_decide (fob_topic l = fob_topic r) &&
  bool_decide (fob_payloadJson l = fob_payloadJson r) &&
  bool_decide (fob_qos l = fob_qos r) && bool_decide (fob_retain l = fob_retain r).

(** [src/database/EventDatabaseFire.cpp:217-228 validDelivery] *)
Definition validDelivery (row : FireOutboxRecord) : bool :=
  negb (is_empty (fob_deliveryKey row)) && negb (is_empty (fob_logicalKey row)) &&
  negb (is_empty (fob_sensorId row)) && negb (is_empty (fob_channelId row)) &&
  negb (is_empty (fob_eventId row)) && negb (is_empty (fob_alarmId row)) &&
  (0 <? fob_fireRevision row)%N && (fob_fireRevision row <=? kMaxFireRevision)%N &&
  negb (is_empty (fob_topic row)) && negb (is_empty (fob_payloadJson row)) &&
  (fob_qos row =? 1) &&
  eqb (fob_retain row) (bool_decide (fob_sinkKind row = RetainedState)) &&
  negb (is_empty (fob_nextAttemptAt row)) && negb (is_empty (fob_createdAt row)) &&
  negb (is_empty (fob_updatedAt row)).

(** [src/database/EventDatabaseFire.cpp:230-252 validBootstrap] *)
Definition validBootstrap (bootstrap : FireChannelBootstrap) : bool :=
  let state := fcb_initialState bootstrap in
  let retained := fcb_retainedDelivery bootstrap in
  negb (is_empty (fas_channelId state)) && negb (is_empty (fas_sensorId state)) &&
  negb (is_empty (fas_retainedTopic state)) && (0 <? fas_fireRevision state)%N &&
  (fas_fireRevision state <=? kMaxFireRevision)%N &&
  bool_decide (fas_desiredLifecycle state = AlarmResolved) &&
  is_empty (fas_activeAlarmId state) && negb (is_empty (fas_lastEventId state)) &&
  bool_decide (fas_protocolMode state = FireUnseen) &&
  bool_decide (fas_activeBootId state = None) &&
  bool_decide (fas_lastSourceSequence state = None) &&
  negb (is_empty (fas_lastSignalJson state)) && negb (is_empty (fas_updatedAt state)) &&
  validDelivery retained && bool_decide (fob_sinkKind retained = RetainedState) &&
  bool_decide (fob_logicalKey retained = fas_retainedTopic state) &&
  bool_decide (fob_sensorId retained = fas_sensorId state) &&
  bool_decide (fob_channelId retained = fas_channelId state) &&
  bool_decide (fob_eventId retained = fas_lastEventId state) &&
  bool_decide (fob_fireRevision retained = fas_fireRevision state) &&
  bool_decide (fob_topic retained = fas_retainedTopic state) &&
  (fob_attemptCount retained =? 0)%N && is_empty (fob_lastError retained) &&
  bool_decide (fob_deliveryState retained = DeliveryPending) &&
  bool_decide (fob_acknowledgedRevision retained = None).

(** [src/database/EventDatabaseFire.cpp:347-352 failure] *)
Definition failure (outcome : FireStoreMutationOutcome) (revision : N) (error : string)
    : FireStoreMutationResult := mkFireStoreMutationResult outcome revision error.

(** * Creating the channels *)

(** [src/database/EventDatabaseFire.cpp:363-377 EventDatabase::initializeFireTopology]
    Every channel, sensor, topic and delivery key is used once. *)
Fixpoint topology_valid (channels sensors topics keys : gset string)
    (topology : list FireChannelBootstrap) : bool :=
  match topology with
  | [] => true
  | b :: rest =>
      let s := fcb_initialState b in
      let key := fob_deliveryKey (fcb_retainedDelivery b) in
      validBootstrap b && negb (bool_decide (fas_channelId s ∈ channels)) &&
      negb (bool_decide (fas_sensorId s ∈ sensors)) &&
      negb (bool_decide (fas_retainedTopic s ∈ topics)) && negb (bool_decide (key ∈ keys)) &&
      topology_valid ({[ fas_channelId s ]} ∪ channels) ({[ fas_sensorId s ]} ∪ sensors)
        ({[ fas_retainedTopic s ]} ∪ topics) ({[ key ]} ∪ keys) rest
  end.

(** What the body of the transaction decides: go on (with the database, whether a row was
    inserted, and the highest revision), or answer and roll back. *)
Inductive topology_step :=
| TopologyGoOn (db : FireDb) (inserted : bool) (highest : N)
| TopologyAnswer (answer : FireStoreMutationResult).

(** [src/database/EventDatabaseFire.cpp:409-422 EventDatabase::initializeFireTopology] *)
Definition retained_agrees (existing : FireAlarmStateRecord) (retained : FireOutboxRecord) : bool :=
  bool_decide (fob_sinkKind retained = RetainedState) &&
  bool_decide (fob_logicalKey retained = fas_retainedTopic existing) &&
  bool_decide (fob_sensorId retained = fas_sensorId existing) &&
  bool_decide (fob_channelId retained = fas_channelId existing) &&
  bool_decide (fob_eventId retained = fas_lastEventId existing) &&
  bool_decide (fob_fireRevision retained = fas_fireRevision existing) &&
  bool_decide (fob_topic retained = fas_retainedTopic existing).

(** [src/database/EventDatabaseFire.cpp:392-431 EventDatabase::initializeFireTopology] *)
Fixpoint topology_loop (db : FireDb) (inserted : bool) (highest : N)
    (topology : list FireChannelBootstrap) : result string topology_step :=
  match topology with
  | [] => Ok (TopologyGoOn db inserted highest)
  | b :: rest =>
      let initial := fcb_initialState b in
      let? found := selectState db (fas_channelId initial) in
      match found with
      | Some existing =>
          if negb (bool_decide (fas_sensorId existing = fas_sensorId initial)) ||
             negb (bool_decide (fas_retainedTopic existing = fas_retainedTopic initial))
          then Ok (TopologyAnswer (failure StoreConflict (fas_fireRevision existing)
                 "configured Fire mapping differs from durable state")) else
          let? retained := selectDelivery db (fob_deliveryKey (fcb_retainedDelivery b)) in
          if match retained with Some r => retained_agrees existing r | None => false end
          then topology_loop db inserted (N.max highest (fas_fireRevision existing)) rest
          else Err "durable Fire state and retained outbox disagree"
      | None =>
          let? db1 := insertState db initial in
          let? db2 := insertDelivery db1 (fcb_retainedDelivery b) in
          topology_loop db2 true (N.max highest (fas_fireRevision initial)) rest
      end
  end.

(** [SELECT COUNT( * ) ... WHERE sink_kind='RETAINED_STATE']. *)
Definition retained_count (db : FireDb) : nat :=
  count_rows (fun r => bool_decide (fo_sink_kind r = "RETAINED_STATE")) (fd_outbox db).

(** [src/database/EventDatabaseFire.cpp:385-483 EventDatabase::initializeFireTopology] *)
Definition topology_body (topology : list FireChannelBootstrap) (db : FireDb)
    : result string (FireStoreMutationResult * FireDb) :=
  let? step := topology_loop db false 0 topology in
  match step with
  | TopologyAnswer answer => Ok (answer, db)
  | TopologyGoOn db' inserted highest =>
      if negb (size (fd_states db') =? length topology)%nat ||
         negb (retained_count db' =? length topology)%nat
      then Ok (failure StoreConflict highest
                 "durable Fire channels do not match configured topology", db)
      else Ok (mkFireStoreMutationResult (if inserted then StoreCommitted else StoreIdempotent)
                 highest "", db')
  end.

(** [src/database/EventDatabaseFire.cpp:356-484 EventDatabase::initializeFireTopology] *)
Definition initializeFireTopology (topology : list FireChannelBootstrap) (db : FireDb)
    : FireStoreMutationResult * FireDb :=
  match topology with
  | [] => (failure StoreInvalid 0 "Fire topology is empty", db)
  | _ =>
      if negb (topology_valid ∅ ∅ ∅ ∅ topology)
      then (failure StoreInvalid 0 "invalid Fire topology bootstrap", db) else
      if negb (fd_open db) then (failure StoreFailed 0 "Fire database is not open", db) else
      match topology_body topology db with
      | Ok answer => answer
      | Err what => (failure StoreFailed 0 what, db)
      end
  end.

(** * One mutation of a channel *)

(** [src/database/EventDatabaseFire.cpp:504-518 EventDatabase::applyFireStateMutation] *)
Definition transition_valid (m : FireStateMutation) (retained lifecycle : FireOutboxRecord) : bool :=
  let next := fmu_nextState m in
  validDelivery retained && validDelivery lifecycle &&
  bool_decide (fob_sinkKind retained = RetainedState) &&
  bool_decide (fob_sinkKind lifecycle = LifecycleEvent) &&
  bool_decide (fob_fireRevision retained = fas_fireRevision next) &&
  bool_decide (fob_fireRevision lifecycle = fas_fireRevision next) &&
  bool_decide (fob_channelId retained = fas_channelId next) &&
  bool_decide (fob_channelId lifecycle = fas_channelId next).

(** [src/database/EventDatabaseFire.cpp:488-518 EventDatabase::applyFireStateMutation] *)
Definition mutation_valid (m : FireStateMutation) : bool :=
  let next := fmu_nextState m in
  (fmu_expectedRevision m <=? kMaxFireRevision)%N &&
  (fas_fireRevision next <=? kMaxFireRevision)%N &&
  negb (is_empty (fas_channelId next)) && negb (is_empty (fas_sensorId next)) &&
  negb (is_empty (fas_retainedTopic next)) && negb (is_empty (fas_lastEventId next)) &&
  negb (is_empty (fas_lastSignalJson next)) && negb (is_empty (fas_updatedAt next)) &&
  match fmu_retainedDelivery m, fmu_lifecycleDelivery m with
  | Some retained, Some lifecycle =>
      negb (fmu_expectedRevision m =? kMaxFireRevision)%N &&
      (fas_fireRevision next =? fmu_expectedRevision m + 1)%N &&
      transition_valid m retained lifecycle
  | None, None => (fas_fireRevision next =? fmu_expectedRevision m)%N
  | _, _ => false
  end.

(** [src/database/EventDatabaseFire.cpp:539-552 EventDatabase::applyFireStateMutation] *)
Definition deliveries_match (db : FireDb) (m : FireStateMutation) : result string bool :=
  match fmu_retainedDelivery m, fmu_lifecycleDelivery m with
  | Some retained, Some lifecycle =>
      let? r := selectDelivery db (fob_deliveryKey retained) in
      let? l := selectDelivery db (fob_deliveryKey lifecycle) in
      Ok (match r, l with
          | Some r, Some l => sameDeliverySemantic r retained && sameDeliverySemantic l lifecycle
          | _, _ => false
          end)
  | _, _ => Ok true
  end.

Definition cursor_changed (current next : FireAlarmStateRecord) : bool :=
  negb (bool_decide (fas_protocolMode current = fas_protocolMode next)) ||
  negb (bool_decide (fas_activeBootId current = fas_activeBootId next)) ||
  negb (bool_decide (fas_lastSourceSequence current = fas_lastSourceSequence next)).

Definition sequence_mode (mode : FireProtocolMode) : SensorSequenceMode :=
  match mode with FireUnseen => Unseen | FireLegacy => Legacy | FireVersioned => Versioned end.

Definition boot_retired (db : FireDb) (source_kind sensor_id boot_id : string) : bool :=
  bool_decide ((source_kind, (sensor_id, boot_id)) ∈ fd_retired db).

(** [src/database/EventDatabaseFire.cpp:590-616 EventDatabase::applyFireStateMutation] *)
Definition mutation_cursor (db : FireDb) (current next : FireAlarmStateRecord)
    : SensorSequenceState :=
  mkSensorSequenceState (sequence_mode (fas_protocolMode current)) (fas_activeBootId current)
    (fas_lastSourceSequence current)
    (match fas_activeBootId next with
     | Some boot => if boot_retired db "FIRE" (fas_sensorId next) boot then {[ boot ]} else ∅
     | None => ∅
     end).

(** [src/database/EventDatabaseFire.cpp:617-623 EventDatabase::applyFireStateMutation] *)
Definition mutation_fact (next : FireAlarmStateRecord) : SensorSequenceFact :=
  mkSensorSequenceFact
    (if bool_decide (fas_protocolMode next = FireVersioned) then BootEpochV2 else LegacyV1)
    (fas_activeBootId next) (fas_lastSourceSequence next).

(** [src/database/EventDatabaseFire.cpp:575-643 EventDatabase::applyFireStateMutation]
    The replay gate: the database with a superseded boot id retired, or the refusal. *)
Definition cursor_gate (db : FireDb) (current next : FireAlarmStateRecord)
    : result FireStoreMutationResult FireDb :=
  if negb (cursor_changed current next ||
           negb (bool_decide (fas_lastSignalJson current = fas_lastSignalJson next)))
  then Ok db else
  if bool_decide (fas_protocolMode next = FireUnseen)
  then Err (failure StoreInvalid (fas_fireRevision current)
              "Fire protocol cannot return to unseen") else
  let cursor := mutation_cursor db current next in
  let fact := mutation_fact next in
  let decision := evaluateSensorSequence cursor fact in
  if negb (accepted decision)
  then Err (failure StoreInvalid (fas_fireRevision current) (ssd_reason decision)) else
  Ok (match sss_activeBootId cursor, ssf_bootId fact with
      | Some active, Some boot =>
          if bool_decide (sss_mode cursor = Versioned) && negb (bool_decide (active = boot))
          then with_retired_boots db ({[ ("FIRE", (fas_sensorId next, active)) ]} ∪ fd_retired db)
          else db
      | _, _ => db
      end).

(** [src/database/EventDatabaseFire.cpp:645-676 EventDatabase::applyFireStateMutation]
    [UPDATE FIRE_ALARM_STATE]; the mapping columns stay. *)
Definition update_state (db : FireDb) (m : FireStateMutation) : result string FireDb :=
  let next := fmu_nextState m in
  let? revision := checkedInt64 (fas_fireRevision next) "fire revision" in
  let? expected := checkedInt64 (fmu_expectedRevision m) "expected revision" in
  match fd_states db !! fas_channelId next with
  | Some row =>
      if negb (fs_fire_revision row =? expected)
      then Err "Fire state compare-and-swap changed no row" else
      if revision <=? 0 then Err fire_sql_failed else
      let written := state_row next revision in
      Ok (with_states db (<[fas_channelId next :=
        mkFireStateRow (fs_sensor_id row) (fs_retained_topic row) (fs_desired_lifecycle written)
          (fs_active_alarm_id written) (fs_last_event_id written) revision
          (fs_protocol_mode written) (fs_active_boot_id written)
          (fs_last_source_sequence written) (fs_last_signal_json written)
          (fs_updated_at written)]> (fd_states db)))
  | None => Err "Fire state compare-and-swap changed no row"
  end.

(** [src/database/EventDatabaseFire.cpp:690-715 EventDatabase::applyFireStateMutation] *)
Definition update_retained (db : FireDb) (delivery : FireOutboxRecord) : result string FireDb :=
  let? revision := checkedInt64 (fob_fireRevision delivery) "fire revision" in
  match fd_outbox db !! fob_deliveryKey delivery with
  | Some row =>
      if (revision <=? 0) || bool_decide (fd_states db !! fob_channelId delivery = None)
      then Err fire_sql_failed else
      Ok (with_outbox db (<[fob_deliveryKey delivery :=
        mkFireOutboxRow (fo_sink_kind row) (fo_logical_key row) (fob_sensorId delivery)
          (fob_channelId delivery) (fob_eventId delivery) (fob_alarmId delivery) revision
          (fob_topic delivery) (fob_payloadJson delivery) 1 1 0 (fob_nextAttemptAt delivery) ""
          "PENDING" (fo_acked_revision row) (fo_created_at row) (fob_updatedAt delivery)]>
        (fd_outbox db)))
  | None => Err "Fire retained delivery update failed"
  end.

(** [src/database/EventDatabaseFire.cpp:678-728 EventDatabase::applyFireStateMutation] *)
Definition write_deliveries (db : FireDb) (next : FireAlarmStateRecord)
    (retained_new lifecycle_new : FireOutboxRecord) : result string FireDb :=
  let? retained := selectDelivery db (fob_deliveryKey retained_new) in
  if match retained with
     | Some r => bool_decide (fob_sinkKind r = RetainedState) &&
                 bool_decide (fob_channelId r = fas_channelId next) &&
                 bool_decide (fob_logicalKey r = fob_logicalKey retained_new)
     | None => false
     end
  then
    let? db1 := update_retained db retained_new in
    let? existing := selectDelivery db1 (fob_deliveryKey lifecycle_new) in
    match existing with
    | Some l => if sameDeliverySemantic l lifecycle_new then Ok db1
                else Err "same Fire lifecycle ID has different payload"
    | None => insertDelivery db1 lifecycle_new
    end
  else Err "Fire retained delivery identity is missing or changed".

(** [src/database/EventDatabaseFire.cpp:530-739 EventDatabase::applyFireStateMutation]
    The transaction; an exception is [Err]. *)
Definition mutation_body (m : FireStateMutation) (db : FireDb)
    : result string (FireStoreMutationResult * FireDb) :=
  let next := fmu_nextState m in
  let? found := selectState db (fas_channelId next) in
  match found with
  | None => Ok (failure StoreConflict 0 "Fire channel has not been initialized", db)
  | Some current =>
      if bool_decide (fas_fireRevision current = fas_fireRevision next) &&
         sameStateSemantic current next then
        let? same := deliveries_match db m in
        if same then Ok (mkFireStoreMutationResult StoreIdempotent (fas_fireRevision current) "", db)
        else Err "same Fire revision has different delivery payload" else
      if negb (bool_decide (fas_fireRevision current = fmu_expectedRevision m))
      then Ok (failure StoreConflict (fas_fireRevision current)
                 "Fire revision compare-and-swap conflict", db) else
      if negb (bool_decide (fas_sensorId current = fas_sensorId next)) ||
         negb (bool_decide (fas_retainedTopic current = fas_retainedTopic next))
      then Ok (failure StoreConflict (fas_fireRevision current)
                 "Fire mapping cannot change during a mutation", db) else
      match cursor_gate db current next with
      | Err refusal => Ok (refusal, db)
      | Ok db1 =>
          let? db2 := update_state db1 m in
          let? db3 := match fmu_retainedDelivery m, fmu_lifecycleDelivery m with
                      | Some retained, Some lifecycle => write_deliveries db2 next retained lifecycle
                      | _, _ => Ok db2
                      end in
          Ok (mkFireStoreMutationResult StoreCommitted (fas_fireRevision next) "", db3)
      end
  end.

(** [src/database/EventDatabaseFire.cpp:486-740 EventDatabase::applyFireStateMutation] *)
Definition applyFireStateMutation (m : FireStateMutation) (db : FireDb)
    : FireStoreMutationResult * FireDb :=
  if negb (mutation_valid m)
  then (failure StoreInvalid (fmu_expectedRevision m) "invalid Fire state mutation", db) else
  if negb (fd_open db)
  then (failure StoreFailed (fmu_expectedRevision m) "Fire database is not open", db) else
  match mutation_body m db with
  | Ok answer => answer
  | Err what => (failure StoreFailed (fmu_expectedRevision m) what, db)
  end.

(** * Queries *)

(** [src/database/EventDatabaseFire.cpp:742-748 EventDatabase::getFireAlarmState] *)
Definition getFireAlarmState (db : FireDb) (channel_id : string)
    : result string (option FireAlarmStateRecord) :=
  if is_empty channel_id || negb (fd_open db) then Ok None else selectState db channel_id.

(** [src/database/EventDatabaseFire.cpp:770-776 EventDatabase::getFireDelivery] *)
Definition getFireDelivery (db : FireDb) (delivery_key : string)
    : result string (option FireOutboxRecord) :=
  if is_empty delivery_key || negb (fd_open db) then Ok None else selectDelivery db delivery_key.

(** Reading the selected rows one after the other. *)
Fixpoint read_all {R A} (read : string -> R -> result string A) (rows : list (string * R))
    : result string (list A) :=
  match rows with
  | [] => Ok []
  | (key, row) :: rest =>
      let? a := read key row in let? others := read_all read rest in Ok (a :: others)
  end.

(** The order of texts under the BINARY collation. *)
Definition text_before (a b : string) : bool :=
  match String.compare a b with Gt => false | _ => true end.

(** [src/database/EventDatabaseFire.cpp:750-768 EventDatabase::listFireAlarmStates] *)
Definition listFireAlarmStates (db : FireDb) : result string (list FireAlarmStateRecord) :=
  if negb (fd_open db) then Ok [] else
  read_all readState (sort_rows (fun a b => text_before a.1 b.1) (map_to_list (fd_states db))).

(** [src/database/EventDatabaseFire.cpp:778-797 EventDatabase::listFireRetainedDeliveries] *)
Definition listFireRetainedDeliveries (db : FireDb) : result string (list FireOutboxRecord) :=
  if negb (fd_open db) then Ok [] else
  read_all readDelivery
    (sort_rows (fun a b => text_before (fo_channel_id a.2) (fo_channel_id b.2))
       (select_rows (fun _ r => bool_decide (fo_sink_kind r = "RETAINED_STATE")) (fd_outbox db))).

(** [ORDER BY fire_revision, created_at, delivery_key]. *)
Definition lifecycle_before (a b : string * FireOutboxRow) : bool :=
  match Z.compare (fo_fire_revision a.2) (fo_fire_revision b.2) with
  | Lt => true
  | Gt => false
  | Eq => match String.compare (fo_created_at a.2) (fo_created_at b.2) with
          | Lt => true
          | Gt => false
          | Eq => text_before a.1 b.1
          end
  end.

(** [src/database/EventDatabaseFire.cpp:799-818 EventDatabase::listFireLifecycleDeliveries] *)
Definition listFireLifecycleDeliveries (db : FireDb) : result string (list FireOutboxRecord) :=
  if negb (fd_open db) then Ok [] else
  read_all readDelivery (sort_rows lifecycle_before
    (select_rows (fun _ r => bool_decide (fo_sink_kind r = "LIFECYCLE_EVENT")) (fd_outbox db))).

(** [src/database/EventDatabaseFire.cpp:820-843 EventDatabase::listPendingFireLifecycleDeliveries] *)
Definition listPendingFireLifecycleDeliveries (db : FireDb) (channel_id : option string)
    : result string (list FireOutboxRecord) :=
  if negb (fd_open db) then Ok [] else
  read_all readDelivery (sort_rows lifecycle_before
    (select_rows (fun _ r => bool_decide (fo_sink_kind r = "LIFECYCLE_EVENT") &&
                             negb (bool_decide (fo_delivery_state r = "ACKED")) &&
                             match channel_id with
                             | Some channel => bool_decide (fo_channel_id r = channel)
                             | None => true
                             end) (fd_outbox db))).

(** [src/database/EventDatabaseFire.cpp:924-945 EventDatabase::isSensorBootIdRetired] *)
Definition isSensorBootIdRetired (db : FireDb) (source_kind sensor_id boot_id : string) : bool :=
  if (negb (bool_decide (source_kind = "HALL")) && negb (bool_decide (source_kind = "FIRE"))) ||
     is_empty sensor_id || is_empty boot_id
  then true else
  if negb (fd_open db) then false else boot_retired db source_kind sensor_id boot_id.

(** * The delivery columns *)

(** The columns that the delivery of a row changes. *)
Definition fo_progress (r : FireOutboxRow) (attempts : Z) (next_attempt error state : string)
    (acked : option Z) (updated : string) : FireOutboxRow :=
  mkFireOutboxRow (fo_sink_kind r) (fo_logical_key r) (fo_sensor_id r) (fo_channel_id r)
    (fo_event_id r) (fo_alarm_id r) (fo_fire_revision r) (fo_topic r) (fo_payload_json r)
    (fo_qos r) (fo_retain r) attempts next_attempt error state acked (fo_created_at r) updated.

(** [UPDATE FIRE_MQTT_OUTBOX SET ... WHERE delivery_key=? AND fire_revision=? AND p]; true when
    a row changed. *)
Definition update_delivery (db : FireDb) (delivery_key : string) (fire_revision : N)
    (p : FireOutboxRow -> bool) (f : FireOutboxRow -> FireOutboxRow) : bool * FireDb :=
  if is_empty delivery_key || (fire_revision =? 0)%N || negb (fd_open db) then (false, db) else
  match checkedInt64 fire_revision "fire revision", fd_outbox db !! delivery_key with
  | Ok revision, Some row =>
      if (fo_fire_revision row =? revision) && p row
      then (true, with_outbox db (<[delivery_key := f row]> (fd_outbox db)))
      else (false, db)
  | _, _ => (false, db)
  end.

(** [src/database/EventDatabaseFire.cpp:845-863 EventDatabase::markFireDeliveryInFlight]
    [stamp] is the engine's CURRENT_TIMESTAMP. *)
Definition markFireDeliveryInFlight (stamp delivery_key : string) (fire_revision : N)
    (db : FireDb) : bool * FireDb :=
  update_delivery db delivery_key fire_revision (fun _ => true)
    (fun r => fo_progress r (fo_attempt_count r + 1) (fo_next_attempt_at r) "" "IN_FLIGHT"
                (fo_acked_revision r) stamp).

(** [src/database/EventDatabaseFire.cpp:865-885 EventDatabase::markFireDeliveryPending] *)
Definition markFireDeliveryPending (stamp delivery_key : string) (fire_revision : N)
    (error : string) (db : FireDb) : bool * FireDb :=
  update_delivery db delivery_key fire_revision (fun _ => true)
    (fun r => fo_progress r (fo_attempt_count r) stamp error "PENDING" (fo_acked_revision r) stamp).

(** [src/database/EventDatabaseFire.cpp:887-906 EventDatabase::acknowledgeFireDelivery] *)
Definition acknowledgeFireDelivery (stamp delivery_key : string) (fire_revision : N)
    (db : FireDb) : bool * FireDb :=
  update_delivery db delivery_key fire_revision
    (fun r => bool_decide (fo_delivery_state r = "IN_FLIGHT"))
    (fun r => fo_progress r (fo_attempt_count r) (fo_next_attempt_at r) "" "ACKED"
                (Some (Z.of_N fire_revision)) stamp).

(** [src/database/EventDatabaseFire.cpp:908-922 EventDatabase::resetFireInFlightDeliveries] *)
Definition resetFireInFlightDeliveries (stamp : string) (db : FireDb) : bool * FireDb :=
  if negb (fd_open db) then (false, db) else
  (true, with_outbox db (update_rows (fun r => bool_decide (fo_delivery_state r = "IN_FLIGHT"))
    (fun r => fo_progress r (fo_attempt_count r) stamp "process restart before PUBACK" "PENDING"
                (fo_acked_revision r) stamp) (fd_outbox db))).

