(* ===== verification/FireService.v ===== *)
(** The fire alarm service: [src/event/FireAlarmService.cpp] with the payloads of
    [src/event/EventPayloadBuilder.cpp]. The mapping of sensors to channels, the signal as the
    durable state keeps it, one definition per kind of command, and the queue that the
    worker serves. A command is a function of the database; what it reads from the rest of the
    process (the clock, the readiness of the delivery actor, whether a readiness boundary
    opens) is an argument. *)
From S2P Require Import Prelude SensorProtocol SequencePolicy SlotConfig OccupancyDb FireStore.

(** [include/event/FireAlarmEvent.hpp:20-33 FireSignal] *)
Record FireSignal := mkFireSignal {
  fsg_sensorId : string;
  fsg_detected : bool;
  fsg_occurredAt : time_point;
  fsg_sourceSequence : option N;
  fsg_sourceProtocolVersion : SensorProtocolVersion;
  fsg_sourceBootId : option string;
  fsg_sourceTransport : string;
  fsg_rawPayload : string
}.

(** [src/main.cpp:120-131 toFireSignal] *)
Definition toFireSignal {double} (message : FireSensorMessage double) : FireSignal :=
  mkFireSignal (fsm_sensorId message) (bool_decide (fsm_state message = Detected))
    (fsm_occurredAt message) (fsm_sequence message) (fsm_protocolVersion message)
    (fsm_bootId message) (fsm_transport message) (fsm_raw message).

(** [include/event/FireAlarmService.hpp:25-29 FireChannelBinding] *)
Record FireChannelBinding := mkFireChannelBinding {
  fcb_sensorId : string;
  fcb_channelId : string;
  fcb_retainedTopic : string
}.
#[global] Instance FireChannelBinding_eq_dec : EqDecision FireChannelBinding.
Proof. solve_decision. Defined.

(** [include/event/FireAlarmService.hpp:44-51 FireCommandStatus] *)
Inductive FireCommandStatus :=
| CommandRejected | CommandQueueFull | CommandQueued | DurablyCommitted | CommandIdempotent
| CommandFailed.
#[global] Instance FireCommandStatus_eq_dec : EqDecision FireCommandStatus.
Proof. solve_decision. Defined.

(** [include/event/FireAlarmService.hpp:53-61 FireCommandResult] *)
Record FireCommandResult := mkFireCommandResult {
  fcr_ticket : N;
  fcr_status : FireCommandStatus;
  fcr_channelId : string;
  fcr_fireRevision : N;
  fcr_error : string;
  fcr_retryable : bool;
  fcr_blocksChannel : bool
}.

(** [include/event/FireAlarmService.hpp:65-71 FireAlarmService::Config] *)
Record FireConfig := mkFireConfig {
  fcf_cameraId : string;
  fcf_lifecycleTopicPrefix : string;
  fcf_commandQueueCapacity : nat;
  fcf_transientFailureRetryDelay : Z
}.

(** [include/event/FireAlarmService.hpp:112-112 FireAlarmService::CommandKind] A kind, with the
    field of the command that only this kind uses. *)
Inductive CommandKind :=
| KindSignal (signal : FireSignal)
| KindAcknowledge (alarmId : string)
| KindManualClear.

(** [include/event/FireAlarmService.hpp:113-122 FireAlarmService::Command] [fc_retryAfter] is a
    steady clock time; zero is the default time point, which means at once. *)
Record FireCommand := mkFireCommand {
  fc_kind : CommandKind;
  fc_ticket : N;
  fc_channelId : string;
  fc_retryCount : nat;
  fc_retryAfter : time_point;
  fc_holdsChannelBlock : bool
}.

(** * Texts *)

Definition is_blank (c : ascii) : bool :=
  bool_decide (c ∈ [" "%char; ascii_of_nat 9; ascii_of_nat 13; ascii_of_nat 10]).
Fixpoint drop_blank (s : string) : string :=
  match s with
  | String c s' => if is_blank c then drop_blank s' else s
  | EmptyString => EmptyString
  end.
Fixpoint drop_blank_end (s : string) : string :=
  match s with
  | EmptyString => EmptyString
  | String c s' =>
      match drop_blank_end s' with
      | EmptyString => if is_blank c then EmptyString else String c EmptyString
      | r => String c r
      end
  end.

(** [src/event/FireAlarmService.cpp:20-25 trim] *)
Definition fire_trim (value : string) : string := drop_blank_end (drop_blank value).

Fixpoint last_char (s : string) : option ascii :=
  match s with
  | EmptyString => None
  | String c EmptyString => Some c
  | String _ s' => last_char s'
  end.

(** [src/event/FireAlarmService.cpp:27-31 joinTopic] *)
Definition joinTopic (prefix suffix : string) : string :=
  match last_char prefix with
  | None => suffix
  | Some c => if bool_decide (c = "/"%char) then prefix +:+ suffix
              else prefix +:+ "/" +:+ suffix
  end.

(** [src/event/FireAlarmService.cpp:33-36 fireEventId] *)
Definition fireEventId (channel_id : string) (revision : N) : string :=
  "fire-event:" +:+ channel_id +:+ ":" +:+ pretty revision.

(** [src/event/FireAlarmService.cpp:38-41 fireAlarmId] *)
Definition fireAlarmId (channel_id : string) (revision : N) : string :=
  "fire-alarm:" +:+ channel_id +:+ ":" +:+ pretty revision.

(** [src/event/FireAlarmService.cpp:43-45 retainedDeliveryId] *)
Definition retainedDeliveryId (channel_id : string) : string := "fire-state:" +:+ channel_id.

(** [src/event/FireAlarmService.cpp:47-49 lifecycleDeliveryId] *)
Definition lifecycleDeliveryId (event_id : string) : string := "fire-lifecycle:" +:+ event_id.

Definition char_in (c : ascii) (s : string) : bool := negb (sall (fun d => negb (bool_decide (d = c))) s).

(** [src/event/FireAlarmService.cpp:215-248 parseFireChannelBindingsStrict] *)
Fixpoint parse_fire_entries (prefix : string) (sensors channels topics : gset string)
    (entries : list string) : result string (list FireChannelBinding) :=
  match entries with
  | [] => Ok []
  | entry :: rest =>
      let normalized := fire_trim entry in
      if is_empty normalized then Err "Fire mapping contains an empty entry" else
      match break_on "=" normalized with
      | None => Err ("Fire mapping entry must be sensor=channel: " +:+ normalized)
      | Some (before, after) =>
          if char_in "=" after
          then Err ("Fire mapping entry must be sensor=channel: " +:+ normalized) else
          let sensorId := fire_trim before in
          let channelId := fire_trim after in
          if is_empty sensorId || is_empty channelId || char_in "/" sensorId || char_in "/" channelId
          then Err ("Fire mapping contains an invalid identifier: " +:+ normalized) else
          let topic := joinTopic prefix channelId in
          if bool_decide (sensorId ∈ sensors) || bool_decide (channelId ∈ channels) ||
             bool_decide (topic ∈ topics)
          then Err "Fire sensor, channel, and retained topic must be one-to-one" else
          let? others := parse_fire_entries prefix ({[ sensorId ]} ∪ sensors)
                           ({[ channelId ]} ∪ channels) ({[ topic ]} ∪ topics) rest in
          Ok (mkFireChannelBinding sensorId channelId topic :: others)
      end
  end.

(** [src/event/FireAlarmService.cpp:201-253 parseFireChannelBindingsStrict] The valid outcome is
    [Ok]; with an error the code's bindings are not used. *)
Definition parseFireChannelBindingsStrict (specification prefix : string)
    : result string (list FireChannelBinding) :=
  if is_empty (fire_trim prefix) then Err "Fire retained topic prefix is empty" else
  let? bindings := parse_fire_entries prefix ∅ ∅ ∅ (getline_fields "," specification) in
  match bindings with
  | [] => Err "Fire alarm is enabled but no mapping is configured"
  | _ => Ok bindings
  end.

(** [src/event/FireAlarmService.cpp:285-298 FireAlarmService::FireAlarmService] *)
Fixpoint bindings_distinct (sensors channels topics : gset string)
    (bindings : list FireChannelBinding) : bool :=
  match bindings with
  | [] => true
  | b :: rest =>
      negb (is_empty (fcb_sensorId b)) && negb (is_empty (fcb_channelId b)) &&
      negb (is_empty (fcb_retainedTopic b)) && negb (bool_decide (fcb_sensorId b ∈ sensors)) &&
      negb (bool_decide (fcb_channelId b ∈ channels)) &&
      negb (bool_decide (fcb_retainedTopic b ∈ topics)) &&
      bindings_distinct ({[ fcb_sensorId b ]} ∪ sensors) ({[ fcb_channelId b ]} ∪ channels)
        ({[ fcb_retainedTopic b ]} ∪ topics) rest
  end.

(** [src/event/FireAlarmService.cpp:255-299 FireAlarmService::FireAlarmService]
    The configuration error; [boundary] tells which of the two boundary callbacks are given. *)
Definition configuration_error (config : FireConfig) (boundary : bool * bool)
    (bindings : list FireChannelBinding) : string :=
  if negb (bindings_distinct ∅ ∅ ∅ bindings)
  then "Fire sensor, channel, and retained topic must be one-to-one" else
  if is_empty (fcf_cameraId config) then "Fire camera ID is empty" else
  if is_empty (fcf_lifecycleTopicPrefix config) then "Fire lifecycle topic prefix is empty" else
  if (fcf_commandQueueCapacity config =? 0)%nat then "Fire command queue capacity is zero" else
  if fcf_transientFailureRetryDelay config <=? 0 then "Fire retry delay must be positive" else
  if negb (eqb boundary.1 boundary.2)
  then "Fire mutation boundary requires both begin and end callbacks" else
  match bindings with [] => "Fire channel mapping is empty" | _ => "" end.

(** [src/event/FireAlarmService.cpp:499-506 FireAlarmService::findBySensor] *)
Definition findBySensor (bindings : list FireChannelBinding) (sensor_id : string)
    : option FireChannelBinding :=
  List.find (fun b => bool_decide (fcb_sensorId b = sensor_id)) bindings.

(** [src/event/FireAlarmService.cpp:508-515 FireAlarmService::findByChannel] *)
Definition findByChannel (bindings : list FireChannelBinding) (channel_id : string)
    : option FireChannelBinding :=
  List.find (fun b => bool_decide (fcb_channelId b = channel_id)) bindings.

(** * Payloads *)

Definition quote_char : ascii := ascii_of_nat 34.
Definition backslash : ascii := ascii_of_nat 92.

(** [src/util/StringUtil.cpp:7-22 jsonEscape] *)
Fixpoint jsonEscape (input : string) : string :=
  match input with
  | EmptyString => EmptyString
  | String c rest =>
      let e := jsonEscape rest in
      if bool_decide (c = backslash) then String backslash (String backslash e) else
      if bool_decide (c = quote_char) then String backslash (String quote_char e) else
      if bool_decide (c = ascii_of_nat 10) then String backslash (String "n"%char e) else
      if bool_decide (c = ascii_of_nat 13) then String backslash (String "r"%char e) else
      if bool_decide (c = ascii_of_nat 9) then String backslash (String "t"%char e) else
      String c e
  end.

Definition quoted (text : string) : string := String quote_char (text +:+ String quote_char "").
(** A member with a text value, and one whose value is printed as it stands. *)
Definition text_member (name text : string) : string := quoted name +:+ ":" +:+ quoted text.
Definition bare_member (name text : string) : string := quoted name +:+ ":" +:+ text.

Section Payload.
(** [util::isoString]: the local time of a clock reading, which depends on the time zone. *)
Variable isoString : time_point -> string.

(** [src/event/EventPayloadBuilder.cpp:68-132 EventPayloadBuilder::buildFireJson] *)
Definition buildFireJson (camera_id channel_id : string) (signal : FireSignal)
    (lifecycle : FireAlarmLifecycle) (event_id alarm_id : string) (fire_revision : N)
    (delivery_id : string) : string :=
  let active := negb (bool_decide (lifecycle = AlarmResolved)) in
  let event_type := match lifecycle with
    | AlarmOpen => "FIRE_SUSPECTED" | AlarmAcknowledged => "FIRE_ACKNOWLEDGED"
    | AlarmResolved => "FIRE_CLEARED" end in
  let alarm_state := match lifecycle with
    | AlarmOpen => "OPEN" | AlarmAcknowledged => "ACKNOWLEDGED" | AlarmResolved => "RESOLVED" end in
  let ack_state := match lifecycle with
    | AlarmOpen => "unacked" | AlarmAcknowledged => "acknowledged" | AlarmResolved => "resolved"
    end in
  "{" +:+ String.concat "," [
    text_member "event_id" (jsonEscape event_id);
    text_member "delivery_id" (jsonEscape delivery_id);
    text_member "alarm_id" (jsonEscape alarm_id);
    bare_member "fire_revision" (pretty fire_revision);
    text_member "camera_id" (jsonEscape camera_id);
    text_member "channel_id" (jsonEscape channel_id);
    text_member "event_channel_id" "";
    text_member "source_type" "sensor_uart";
    text_member "source_id" (jsonEscape (fsg_sensorId signal));
    text_member "event_type" event_type;
    text_member "alarm_kind" (if active then "FIRE_SUSPECTED" else "NONE");
    text_member "alarm" (if active then "FIRE_SUSPECTED" else "NONE");
    text_member "alarm_state" alarm_state;
    text_member "severity" (if active then "critical" else "info");
    bare_member "active" (if active then "true" else "false");
    text_member "scope" "CAMERA_CHANNEL";
    text_member "zone_id" "";
    text_member "iva_area_id" "";
    text_member "slot_id" "";
    text_member "snapshot_mode" "none";
    text_member "snapshot_path" "";
    text_member "clip_path" "";
    text_member "ack_state" ack_state;
    text_member "timestamp" (jsonEscape (isoString (fsg_occurredAt signal)));
    text_member "raw_topic" (jsonEscape (fsg_sourceTransport signal));
    text_member "raw_payload" (jsonEscape (fsg_rawPayload signal))] +:+ "}".
End Payload.

(** * The signal in the durable state *)

Section Service.
Context {JL : JsonLibrary}.
Variable isoString : time_point -> string.
(** [json::dump], which throws on a text that is not UTF-8. *)
Variable signal_dump : json -> result string string.
Variable config : FireConfig.
Variable bindings : list FireChannelBinding.

Definition set_member (object : json) (key : string) (value : option json) : json :=
  match value, object with
  | Some v, JObject members => JObject (members_set members key v)
  | _, _ => object
  end.

(** [src/event/FireAlarmService.cpp:51-67 serializeSignal] *)
Definition signal_document (signal : FireSignal) : json :=
  set_member
    (set_member
       (JObject [("detected", JBool (fsg_detected signal));
                 ("occurred_at_ms", JInteger (Z.quot (fsg_occurredAt signal) 1000000));
                 ("raw_payload", JString (fsg_rawPayload signal));
                 ("sensor_id", JString (fsg_sensorId signal));
                 ("source_protocol",
                  JString (protocol_to_string (fsg_sourceProtocolVersion signal)));
                 ("source_transport", JString (fsg_sourceTransport signal))])
       "source_sequence" ((fun n => JString (pretty n)) <$> fsg_sourceSequence signal))
    "source_boot_id" (JString <$> fsg_sourceBootId signal).
Definition serializeSignal (signal : FireSignal) : result string string :=
  signal_dump (signal_document signal).

(** A text member that is present and a text. *)
Definition find_text (document : json) (key : string) : option string :=
  match json_find document key with Some (JString s) => Some s | _ => None end.

(** [src/event/FireAlarmService.cpp:71-103 deserializeSignal] *)
Definition signal_of_document (document : json) : result store_error (option FireSignal) :=
  if negb (is_object document) then Ok None else
  let? sensorId := value_string document "sensor_id" "" in
  let? detected := value_bool document "detected" false in
  let? occurred := value_int64 document "occurred_at_ms" 0 in
  let? transport := value_string document "source_transport" "unknown" in
  let? protocol := value_string document "source_protocol" "LEGACY_V1" in
  match sensorProtocolVersionFromString protocol with
  | None => Ok None
  | Some version =>
      let? raw := value_string document "raw_payload" "" in
      let signal sequence := mkFireSignal sensorId detected (time_point_of_millis occurred)
        sequence version (find_text document "source_boot_id") transport raw in
      if is_empty sensorId then Ok None else
      match find_text document "source_sequence" with
      | None => Ok (Some (signal None))
      | Some text => match parseUnsigned text with
                     | Some n => Ok (Some (signal (Some n)))
                     | None => Ok None
                     end
      end
  end.

(** [src/event/FireAlarmService.cpp:69-107 deserializeSignal] Every exception gives nothing. *)
Definition deserializeSignal (encoded : string) : option FireSignal :=
  match (let? document := parse_or_throw encoded in signal_of_document document) with
  | Ok answer => answer
  | Err _ => None
  end.

(** [src/event/FireAlarmService.cpp:109-114 protocolFor] *)
Definition protocolFor (signal : FireSignal) : FireProtocolMode :=
  match fsg_sourceProtocolVersion signal with
  | BootEpochV2 => FireVersioned
  | LegacyV1 => FireLegacy
  end.

(** [src/event/FireAlarmService.cpp:116-126 sequenceModeFor] *)
Definition sequenceModeFor (mode : FireProtocolMode) : SensorSequenceMode :=
  match mode with FireUnseen => Unseen | FireLegacy => Legacy | FireVersioned => Versioned end.

(** [src/event/FireAlarmService.cpp:128-131 activeLifecycle] *)
Definition activeLifecycle (lifecycle : FireAlarmLifecycle) : bool :=
  match lifecycle with AlarmOpen | AlarmAcknowledged => true | AlarmResolved => false end.

(** [src/event/FireAlarmService.cpp:133-161 makeDelivery] *)
Definition makeDelivery (sink_kind : FireDeliverySinkKind) (delivery_key logical_key : string)
    (state : FireAlarmStateRecord) (event_id alarm_id topic payload timestamp : string)
    : FireOutboxRecord :=
  mkFireOutboxRecord delivery_key sink_kind logical_key (fas_sensorId state)
    (fas_channelId state) event_id alarm_id (fas_fireRevision state) topic payload 1
    (bool_decide (sink_kind = RetainedState)) 0 timestamp "" DeliveryPending None timestamp
    timestamp.

(** [src/event/FireAlarmService.cpp:163-169 failedResult] *)
Definition failedResult (ticket : N) (channel_id : string) (revision : N) (error : string)
    : FireCommandResult :=
  mkFireCommandResult ticket CommandFailed channel_id revision error false false.

(** [src/event/FireAlarmService.cpp:171-178 retryableResult] *)
Definition retryableResult (ticket : N) (channel_id : string) (revision : N) (error : string)
    (blocks_channel : bool) : FireCommandResult :=
  mkFireCommandResult ticket CommandFailed channel_id revision error true blocks_channel.

Definition plainResult (ticket : N) (status : FireCommandStatus) (channel_id : string)
    (revision : N) (error : string) : FireCommandResult :=
  mkFireCommandResult ticket status channel_id revision error false false.

(** [src/event/FireAlarmService.cpp:180-197 mutationResult] *)
Definition mutationResult (ticket : N) (channel_id : string) (r : FireStoreMutationResult)
    : FireCommandResult :=
  match fsm_outcome r with
  | StoreCommitted => plainResult ticket DurablyCommitted channel_id (fsm_fireRevision r) ""
  | StoreIdempotent => plainResult ticket CommandIdempotent channel_id (fsm_fireRevision r) ""
  | StoreFailed => retryableResult ticket channel_id (fsm_fireRevision r) (fsm_error r) true
  | _ => failedResult ticket channel_id (fsm_fireRevision r) (fsm_error r)
  end.

(** * Bootstrap *)

(** [src/event/FireAlarmService.cpp:314-345 FireAlarmService::initialize] *)
Definition bootstrap_channel (now : time_point) (b : FireChannelBinding)
    : result string FireChannelBootstrap :=
  let signal := mkFireSignal (fcb_sensorId b) false now None LegacyV1 None "bootstrap"
                  "bootstrap-resolved" in
  let timestamp := isoString now in
  let? encoded := serializeSignal signal in
  let state := mkFireAlarmStateRecord (fcb_channelId b) (fcb_sensorId b) (fcb_retainedTopic b)
    AlarmResolved "" (fireEventId (fcb_channelId b) 1) 1 FireUnseen None None encoded timestamp in
  let alarm_id := "fire-alarm:" +:+ fcb_channelId b +:+ ":bootstrap" in
  let delivery_id := retainedDeliveryId (fcb_channelId b) in
  let payload := buildFireJson isoString (fcf_cameraId config) (fcb_channelId b) signal
    AlarmResolved (fas_lastEventId state) alarm_id (fas_fireRevision state) delivery_id in
  Ok (mkFireChannelBootstrap state
        (makeDelivery RetainedState delivery_id (fcb_retainedTopic b) state
           (fas_lastEventId state) alarm_id (fcb_retainedTopic b) payload timestamp)).

Fixpoint bootstrap_topology (now : time_point) (bs : list FireChannelBinding)
    : result string (list FireChannelBootstrap) :=
  match bs with
  | [] => Ok []
  | b :: rest =>
      let? c := bootstrap_channel now b in
      let? cs := bootstrap_topology now rest in Ok (c :: cs)
  end.

(** [src/event/FireAlarmService.cpp:360-368 FireAlarmService::initialize] *)
Definition row_configured (row : FireAlarmStateRecord) : bool :=
  match findByChannel bindings (fas_channelId row) with
  | Some b => bool_decide (fcb_sensorId b = fas_sensorId row) &&
              bool_decide (fcb_retainedTopic b = fas_retainedTopic row)
  | None => false
  end.

(** [src/event/FireAlarmService.cpp:310-370 FireAlarmService::initialize] The work under the
    lock: [inl] is the configuration error that is kept; an exception leaves the function. *)
Definition initialize_work (now : time_point) (db : FireDb)
    : result string ((string + unit) * FireDb) :=
  let? topology := bootstrap_topology now bindings in
  let '(r, db') := initializeFireTopology topology db in
  if negb (store_committed r)
  then Ok (inl (if is_empty (fsm_error r) then "Fire topology bootstrap failed" else fsm_error r),
           db') else
  let? restored := listFireAlarmStates db' in
  if negb (length restored =? length bindings)%nat
  then Ok (inl "durable Fire channels do not match configured topology", db') else
  if forallb row_configured restored then Ok (inr tt, db')
  else Ok (inl "durable Fire mapping differs from configured topology", db').

(** * Commands *)

(** What a command reads from the rest of the process: the wall clock, the answer of the
    readiness test for acknowledgements ([None]: no callback), and whether the readiness
    boundary opens. *)
Record FireEnv := mkFireEnv {
  env_now : time_point;
  env_ack_ready : option bool;
  env_boundary : bool
}.

(** [src/event/FireAlarmService.cpp:930-955 FireAlarmService::applyTransition] *)
Definition applyTransition (env : FireEnv) (m : FireStateMutation) (db : FireDb)
    : FireStoreMutationResult * FireDb :=
  if negb (env_boundary env)
  then (mkFireStoreMutationResult StoreFailed (fmu_expectedRevision m)
          "Fire readiness boundary is unavailable", db)
  else applyFireStateMutation m db.

(** [src/event/FireAlarmService.cpp:754-771 FireAlarmService::processSignal] The mutation of a
    lifecycle transition with its two deliveries; the other two commands build the same. *)
Definition transition_mutation (b : FireChannelBinding) (signal : FireSignal)
    (current next : FireAlarmStateRecord) (alarm_id : string) : FireStateMutation :=
  let channel := fas_channelId next in
  let retained_id := retainedDeliveryId channel in
  let lifecycle_id := lifecycleDeliveryId (fas_lastEventId next) in
  let payload := buildFireJson isoString (fcf_cameraId config) channel signal
    (fas_desiredLifecycle next) (fas_lastEventId next) alarm_id (fas_fireRevision next) in
  mkFireStateMutation (fas_fireRevision current) next
    (Some (makeDelivery RetainedState retained_id (fcb_retainedTopic b) next
             (fas_lastEventId next) alarm_id (fcb_retainedTopic b) (payload retained_id)
             (fas_updatedAt next)))
    (Some (makeDelivery LifecycleEvent lifecycle_id (fas_lastEventId next) next
             (fas_lastEventId next) alarm_id
             (joinTopic (fcf_lifecycleTopicPrefix config) channel) (payload lifecycle_id)
             (fas_updatedAt next))).

(** [src/event/FireAlarmService.cpp:663-673 FireAlarmService::processSignal] *)
Definition protocol_disagrees (signal : FireSignal) : bool :=
  match fsg_sourceProtocolVersion signal with
  | BootEpochV2 => match nonempty_option (fsg_sourceBootId signal), fsg_sourceSequence signal with
                   | Some _, Some _ => false
                   | _, _ => true
                   end
  | LegacyV1 => match fsg_sourceBootId signal with Some _ => true | None => false end
  end.

(** [src/event/FireAlarmService.cpp:675-686 FireAlarmService::processSignal] *)
Definition signal_cursor (db : FireDb) (current : FireAlarmStateRecord) (signal : FireSignal)
    : SensorSequenceState :=
  mkSensorSequenceState (sequenceModeFor (fas_protocolMode current)) (fas_activeBootId current)
    (fas_lastSourceSequence current)
    (match fsg_sourceProtocolVersion signal, fsg_sourceBootId signal with
     | BootEpochV2, Some boot =>
         if isSensorBootIdRetired db "FIRE" (fsg_sensorId signal) boot then {[ boot ]} else ∅
     | _, _ => ∅
     end).
Definition signal_fact (signal : FireSignal) : SensorSequenceFact :=
  mkSensorSequenceFact (fsg_sourceProtocolVersion signal) (fsg_sourceBootId signal)
    (fsg_sourceSequence signal).

(** [src/event/FireAlarmService.cpp:706-774 FireAlarmService::processSignal] A signal that the
    sequence policy accepted. *)
Definition apply_signal (env : FireEnv) (ticket : N) (signal : FireSignal)
    (b : FireChannelBinding) (current : FireAlarmStateRecord) (db : FireDb)
    : result string (FireCommandResult * FireDb) :=
  let channel := fcb_channelId b in
  let currently_active := activeLifecycle (fas_desiredLifecycle current) in
  let transition := negb (eqb (fsg_detected signal) currently_active) in
  let? encoded := serializeSignal signal in
  let updated := isoString (env_now env) in
  let next lifecycle alarm event revision :=
    mkFireAlarmStateRecord (fas_channelId current) (fas_sensorId current)
      (fas_retainedTopic current) lifecycle alarm event revision (protocolFor signal)
      (fsg_sourceBootId signal) (fsg_sourceSequence signal) encoded updated in
  if negb transition then
    let same := next (fas_desiredLifecycle current) (fas_activeAlarmId current)
                  (fas_lastEventId current) (fas_fireRevision current) in
    if negb (cursor_changed current same)
    then Ok (plainResult ticket CommandIdempotent channel (fas_fireRevision current) "", db) else
    let '(r, db') := applyFireStateMutation
                       (mkFireStateMutation (fas_fireRevision current) same None None) db in
    Ok (mutationResult ticket channel r, db')
  else if (fas_fireRevision current =? kMaxFireRevision)%N
  then Ok (failedResult ticket channel (fas_fireRevision current) "Fire revision exhausted", db)
  else
    let revision := (fas_fireRevision current + 1)%N in
    let alarm_id := if fsg_detected signal then fireAlarmId channel revision
                    else fas_activeAlarmId current in
    let state := next (if fsg_detected signal then AlarmOpen else AlarmResolved)
                   (if fsg_detected signal then alarm_id else "") (fireEventId channel revision)
                   revision in
    if is_empty alarm_id
    then Ok (failedResult ticket channel (fas_fireRevision current)
               "resolved Fire transition lost alarm identity", db) else
    let '(r, db') := applyTransition env (transition_mutation b signal current state alarm_id) db in
    Ok (mutationResult ticket channel r, db').

(** [src/event/FireAlarmService.cpp:655-774 FireAlarmService::processSignal] *)
Definition processSignal (env : FireEnv) (ticket : N) (signal : FireSignal)
    (b : FireChannelBinding) (db : FireDb) : result string (FireCommandResult * FireDb) :=
  let channel := fcb_channelId b in
  let? found := getFireAlarmState db channel in
  match found with
  | None => Ok (retryableResult ticket channel 0 "Fire durable state is unavailable" true, db)
  | Some current =>
      let revision := fas_fireRevision current in
      if protocol_disagrees signal
      then Ok (plainResult ticket CommandRejected channel revision
                 "Fire protocol version, boot ID, and sequence disagree", db) else
      let decision := evaluateSensorSequence (signal_cursor db current signal)
                        (signal_fact signal) in
      if bool_decide (ssd_code decision = Duplicate) then
        match deserializeSignal (fas_lastSignalJson current) with
        | Some previous =>
            if negb (eqb (fsg_detected previous) (fsg_detected signal))
            then Ok (plainResult ticket CommandRejected channel revision
                       "same Fire sequence has conflicting state", db)
            else Ok (plainResult ticket CommandIdempotent channel revision "", db)
        | None => Ok (plainResult ticket CommandIdempotent channel revision "", db)
        end
      else if negb (accepted decision)
      then Ok (plainResult ticket CommandRejected channel revision (ssd_reason decision), db)
      else apply_signal env ticket signal b current db
  end.

(** The next state of an acknowledgement or a manual clear: a new lifecycle, event and
    revision; the cursor and the stored signal stay. *)
Definition advance_state (current : FireAlarmStateRecord) (lifecycle : FireAlarmLifecycle)
    (alarm : string) (updated : string) : FireAlarmStateRecord :=
  let revision := (fas_fireRevision current + 1)%N in
  mkFireAlarmStateRecord (fas_channelId current) (fas_sensorId current)
    (fas_retainedTopic current) lifecycle alarm (fireEventId (fas_channelId current) revision)
    revision (fas_protocolMode current) (fas_activeBootId current)
    (fas_lastSourceSequence current) (fas_lastSignalJson current) updated.

Definition set_occurred (s : FireSignal) (now : time_point) : FireSignal :=
  mkFireSignal (fsg_sensorId s) (fsg_detected s) now (fsg_sourceSequence s)
    (fsg_sourceProtocolVersion s) (fsg_sourceBootId s) (fsg_sourceTransport s) (fsg_rawPayload s).

(** [src/event/FireAlarmService.cpp:776-850 FireAlarmService::processAcknowledge] *)
Definition processAcknowledge (env : FireEnv) (ticket : N) (channel alarmId : string)
    (db : FireDb) : result string (FireCommandResult * FireDb) :=
  match findByChannel bindings channel with
  | Some b =>
      if is_empty alarmId
      then Ok (plainResult ticket CommandRejected channel 0 "Fire ACK channel/alarm is invalid", db)
      else
      let? found := getFireAlarmState db channel in
      match found with
      | None => Ok (retryableResult ticket channel 0 "Fire durable state is unavailable" true, db)
      | Some current =>
          let revision := fas_fireRevision current in
          if negb (bool_decide (fas_activeAlarmId current = alarmId)) ||
             negb (activeLifecycle (fas_desiredLifecycle current))
          then Ok (plainResult ticket CommandRejected channel revision
                     "Fire ACK does not match the active alarm", db) else
          if match env_ack_ready env with Some ready => negb ready | None => false end
          then Ok (retryableResult ticket channel revision
                     "Fire ACK is waiting for retained-state synchronization" false, db) else
          if bool_decide (fas_desiredLifecycle current = AlarmAcknowledged)
          then Ok (plainResult ticket CommandIdempotent channel revision "", db) else
          if (revision =? kMaxFireRevision)%N
          then Ok (failedResult ticket channel revision "Fire revision exhausted", db) else
          match deserializeSignal (fas_lastSignalJson current) with
          | None => Ok (failedResult ticket channel revision
                          "active Fire signal cannot be restored", db)
          | Some signal =>
              let next := advance_state current AlarmAcknowledged (fas_activeAlarmId current)
                            (isoString (env_now env)) in
              let '(r, db') := applyTransition env
                (transition_mutation b (set_occurred signal (env_now env)) current next alarmId) db
              in Ok (mutationResult ticket channel r, db')
          end
      end
  | None => Ok (plainResult ticket CommandRejected channel 0 "Fire ACK channel/alarm is invalid", db)
  end.

(** [src/event/FireAlarmService.cpp:879-893 FireAlarmService::processManualClear] *)
Definition manual_signal (env : FireEnv) (channel : string) (current : FireAlarmStateRecord)
    : FireSignal :=
  let manual sensor sequence version boot :=
    mkFireSignal sensor false (env_now env) sequence version boot "manual-control"
      ("MANUAL_FIRE_CLEAR:" +:+ channel) in
  match deserializeSignal (fas_lastSignalJson current) with
  | Some s => manual (fsg_sensorId s) (fsg_sourceSequence s) (fsg_sourceProtocolVersion s)
                (fsg_sourceBootId s)
  | None => manual (fas_sensorId current) (fas_lastSourceSequence current)
              (if bool_decide (fas_protocolMode current = FireVersioned)
               then BootEpochV2 else LegacyV1) (fas_activeBootId current)
  end.

(** [src/event/FireAlarmService.cpp:852-928 FireAlarmService::processManualClear] *)
Definition processManualClear (env : FireEnv) (ticket : N) (channel : string) (db : FireDb)
    : result string (FireCommandResult * FireDb) :=
  match findByChannel bindings channel with
  | None => Ok (plainResult ticket CommandRejected channel 0 "Fire clear channel is invalid", db)
  | Some b =>
      let? found := getFireAlarmState db channel in
      match found with
      | None => Ok (retryableResult ticket channel 0 "Fire durable state is unavailable" true, db)
      | Some current =>
          let revision := fas_fireRevision current in
          if negb (activeLifecycle (fas_desiredLifecycle current))
          then Ok (plainResult ticket CommandIdempotent channel revision "", db) else
          if (revision =? kMaxFireRevision)%N
          then Ok (failedResult ticket channel revision "Fire revision exhausted", db) else
          if is_empty (fas_activeAlarmId current)
          then Ok (failedResult ticket channel revision
                     "manual Fire clear lost alarm identity", db) else
          let next := advance_state current AlarmResolved "" (isoString (env_now env)) in
          let '(r, db') := applyTransition env
            (transition_mutation b (manual_signal env channel current) current next
               (fas_activeAlarmId current)) db in
          Ok (mutationResult ticket channel r, db')
      end
  end.

(** [src/event/FireAlarmService.cpp:640-653 FireAlarmService::process] *)
Definition process (env : FireEnv) (command : FireCommand) (db : FireDb)
    : result string (FireCommandResult * FireDb) :=
  let ticket := fc_ticket command in
  match fc_kind command with
  | KindAcknowledge alarmId => processAcknowledge env ticket (fc_channelId command) alarmId db
  | KindManualClear => processManualClear env ticket (fc_channelId command) db
  | KindSignal signal =>
      match findBySensor bindings (fsg_sensorId signal) with
      | None => Ok (plainResult ticket CommandRejected "" 0 "Fire sensor is not mapped", db)
      | Some b => processSignal env ticket signal b db
      end
  end.

(** [src/event/FireAlarmService.cpp:571-580 FireAlarmService::run] *)
Definition process_caught (env : FireEnv) (command : FireCommand) (db : FireDb)
    : FireCommandResult * FireDb :=
  match process env command db with
  | Ok answer => answer
  | Err what => (retryableResult (fc_ticket command) (fc_channelId command) 0 what true, db)
  end.
End Service.

(** * The queue *)

(** [include/event/FireAlarmService.hpp:137-158 FireAlarmService] The members that change. *)
Record FireQueue := mkFireQueue {
  fq_queue : list FireCommand;
  fq_blocked : gmap string N;
  fq_pending_ack : gmap (string * string) N;
  fq_next_ticket : N;
  fq_initialized : bool;
  fq_running : bool;
  fq_accepting : bool;
  fq_processing : bool;
  fq_stop_requested : bool;
  fq_error : string
}.
Definition fq_set_queue (q : FireQueue) queue blocked pending processing : FireQueue :=
  mkFireQueue queue blocked pending (fq_next_ticket q) (fq_initialized q) (fq_running q)
    (fq_accepting q) processing (fq_stop_requested q) (fq_error q).
Definition fq_set_flags (q : FireQueue) initialized running accepting stop error : FireQueue :=
  mkFireQueue (fq_queue q) (fq_blocked q) (fq_pending_ack q) (fq_next_ticket q) initialized
    running accepting (fq_processing q) stop error.
Definition new_fire_queue (error : string) : FireQueue :=
  mkFireQueue [] ∅ ∅ 1 false false false false false error.

Section Queue.
Variable config : FireConfig.
Variable bindings : list FireChannelBinding.

(** [src/event/FireAlarmService.cpp:305-371 FireAlarmService::initialize] [work] is
    [initialize_work]: the answer, the members and the database; an exception changes neither. *)
Definition initialize (work : FireDb -> result string ((string + unit) * FireDb))
    (q : FireQueue) (db : FireDb) : result string (bool * FireQueue * FireDb) :=
  if negb (is_empty (fq_error q)) || fq_running q then Ok (false, q, db) else
  if fq_initialized q then Ok (true, q, db) else
  let? (answer, db') := work db in
  match answer with
  | inl error => Ok (false, fq_set_flags q (fq_initialized q) (fq_running q) (fq_accepting q)
                              (fq_stop_requested q) error, db')
  | inr _ => Ok (true, fq_set_flags q true (fq_running q) (fq_accepting q)
                         (fq_stop_requested q) (fq_error q), db')
  end.

(** [src/event/FireAlarmService.cpp:373-389 FireAlarmService::start] *)
Definition fire_start (q : FireQueue) : bool * FireQueue :=
  if negb (fq_initialized q) || fq_running q || negb (is_empty (fq_error q)) then (false, q)
  else (true, fq_set_flags q (fq_initialized q) true true false (fq_error q)).

(** [src/event/FireAlarmService.cpp:418-455 FireAlarmService::enqueue] *)
Definition enqueue (kind : CommandKind) (channel : string) (q0 : FireQueue)
    : FireCommandResult * FireQueue :=
  let ticket := fq_next_ticket q0 in
  let q := mkFireQueue (fq_queue q0) (fq_blocked q0) (fq_pending_ack q0)
             ((ticket + 1) mod 2 ^ 64) (fq_initialized q0) (fq_running q0) (fq_accepting q0)
             (fq_processing q0) (fq_stop_requested q0) (fq_error q0) in
  let command := mkFireCommand kind ticket channel 0 0 false in
  let full := (plainResult ticket CommandQueueFull channel 0 "Fire command queue is full", q) in
  let accept pending := (plainResult ticket CommandQueued channel 0 "",
                        fq_set_queue q (fq_queue q ++ [command]) (fq_blocked q) pending
                          (fq_processing q)) in
  let capacity := fcf_commandQueueCapacity config in
  if negb (fq_running q) || negb (fq_accepting q) || is_empty channel
  then (plainResult ticket CommandRejected channel 0 "Fire command ingress is not available", q)
  else
  match kind with
  | KindAcknowledge alarmId =>
      match fq_pending_ack q !! (channel, alarmId) with
      | Some existing => (plainResult existing CommandQueued channel 0 "", q)
      | None =>
          if (capacity - capacity `min` length bindings <=? length (fq_queue q))%nat
          then (plainResult ticket CommandQueueFull channel 0
                  "Fire ACK queue reserve is exhausted", q) else
          if (capacity <=? length (fq_queue q))%nat then full
          else accept (<[(channel, alarmId) := ticket]> (fq_pending_ack q))
      end
  | _ => if (capacity <=? length (fq_queue q))%nat then full else accept (fq_pending_ack q)
  end.

(** [src/event/FireAlarmService.cpp:391-399 FireAlarmService::submitSignal] *)
Definition submitSignal (signal : FireSignal) : FireQueue -> FireCommandResult * FireQueue :=
  enqueue (KindSignal signal)
    (match findBySensor bindings (fsg_sensorId signal) with
     | Some b => fcb_channelId b | None => "" end).

(** [src/event/FireAlarmService.cpp:401-408 FireAlarmService::submitAcknowledge] *)
Definition submitAcknowledge (channel alarmId : string)
    : FireQueue -> FireCommandResult * FireQueue := enqueue (KindAcknowledge alarmId) channel.

(** [src/event/FireAlarmService.cpp:410-416 FireAlarmService::submitManualClear] *)
Definition submitManualClear (channel : string)
    : FireQueue -> FireCommandResult * FireQueue := enqueue KindManualClear channel.

(** [src/event/FireAlarmService.cpp:457-460 FireAlarmService::closeIngress] *)
Definition fire_closeIngress (q : FireQueue) : FireQueue :=
  fq_set_flags q (fq_initialized q) (fq_running q) false (fq_stop_requested q) (fq_error q).

(** [src/event/FireAlarmService.cpp:462-468 FireAlarmService::drainCommitted] The condition that
    the drain and the stop wait for. *)
Definition drained (q : FireQueue) : bool :=
  match fq_queue q with [] => negb (fq_processing q) | _ => false end.

(** [src/event/FireAlarmService.cpp:470-483 FireAlarmService::stop] Its two locked parts:
    the request after a successful drain, and the end after the worker was joined. *)
Definition fire_request_stop (q : FireQueue) : FireQueue :=
  if drained q && fq_running q
  then fq_set_flags q (fq_initialized q) (fq_running q) (fq_accepting q) true (fq_error q)
  else q.
Definition finish_stop (q : FireQueue) : FireQueue :=
  fq_set_flags q (fq_initialized q) false (fq_accepting q) (fq_stop_requested q) (fq_error q).

(** A command that may not run: another ticket holds the block of its channel. *)
Definition blocked_out (q : FireQueue) (c : FireCommand) : bool :=
  match fq_blocked q !! fc_channelId c with
  | Some ticket => negb (ticket =? fc_ticket c)%N
  | None => false
  end.
Definition due (now : time_point) (c : FireCommand) : bool :=
  (fc_retryAfter c =? 0) || (fc_retryAfter c <=? now).

(** [src/event/FireAlarmService.cpp:532-554 FireAlarmService::run] The first command that may
    run now and the commands around it. *)
Fixpoint select_command (q : FireQueue) (now : time_point) (commands : list FireCommand)
    : option (FireCommand * list FireCommand) :=
  match commands with
  | [] => None
  | c :: rest =>
      if negb (blocked_out q c) && due now c then Some (c, rest) else
      match select_command q now rest with
      | Some (chosen, others) => Some (chosen, c :: others)
      | None => None
      end
  end.

(** [src/event/FireAlarmService.cpp:534-554 FireAlarmService::run] When to look again, zero when
    only a notification helps. *)
Definition next_wake (q : FireQueue) (now : time_point) : time_point :=
  foldl (fun wake c => if blocked_out q c then wake else
                       if (wake =? 0) || (fc_retryAfter c <? wake) then fc_retryAfter c else wake)
    0 (fq_queue q).

(** [src/event/FireAlarmService.cpp:521-568 FireAlarmService::run] *)
Definition take_command (now : time_point) (q : FireQueue) : option (FireCommand * FireQueue) :=
  match select_command q now (fq_queue q) with
  | Some (c, others) => Some (c, fq_set_queue q others (fq_blocked q) (fq_pending_ack q) true)
  | None => None
  end.

(** The block of the command's channel, given up if this command holds it. *)
Definition release_block (c : FireCommand) (blocked : gmap string N) : gmap string N :=
  if fc_holdsChannelBlock c then
    match blocked !! fc_channelId c with
    | Some ticket => if (ticket =? fc_ticket c)%N then delete (fc_channelId c) blocked else blocked
    | None => blocked
    end
  else blocked.

(** [src/event/FireAlarmService.cpp:582-633 FireAlarmService::run] What the worker does with the
    result of the command that it took. *)
Definition settle_command (now : time_point) (c : FireCommand) (r : FireCommandResult)
    (q : FireQueue) : FireQueue :=
  if fcr_retryable r then
    let retry holds := mkFireCommand (fc_kind c) (fc_ticket c) (fc_channelId c)
      (S (fc_retryCount c)) (now + fcf_transientFailureRetryDelay config * 1000000) holds in
    if fcr_blocksChannel r
    then fq_set_queue q (fq_queue q ++ [retry true])
           (<[fc_channelId c := fc_ticket c]> (fq_blocked q)) (fq_pending_ack q) false
    else fq_set_queue q (fq_queue q ++ [retry false]) (release_block c (fq_blocked q))
           (fq_pending_ack q) false
  else
    let pending :=
      match fc_kind c with
      | KindAcknowledge alarmId =>
          let key := (fc_channelId c, alarmId) in
          match fq_pending_ack q !! key with
          | Some ticket => if (ticket =? fc_ticket c)%N then delete key (fq_pending_ack q)
                           else fq_pending_ack q
          | None => fq_pending_ack q
          end
      | _ => fq_pending_ack q
      end in
    fq_set_queue q (fq_queue q) (release_block c (fq_blocked q)) pending false.
End Queue.
