(* ===== verification/SystemEvents.v ===== *)
(** The reporter of system events, [src/event/SystemEventReporter.cpp]: threads report errors and recoveries, repeated errors
    are suppressed for a while, and a thread hands the events of the bounded queue to the sink and retries. The sink's
    answer and the clock are arguments. The drop and suppression counters count events and do not wrap. *)
From S2P Require Import Prelude SensorProtocol SequencePolicy SlotConfig OccupancyDb FireStore FireService.

#[local] Open Scope Z_scope.

(** * Events *)

(** [include/event/SystemEventReporter.hpp:17-24 SystemEventSource] *)
Inductive SystemEventSource := SourceHallSensor | SourceUart | SourceLoRa | SourceMqtt | SourceRtsp | SourceDatabase.
#[global] Instance SystemEventSource_eq_dec : EqDecision SystemEventSource.
Proof. solve_decision. Defined.

(** [include/event/SystemEventReporter.hpp:27-31 SystemEventSeverity] *)
Inductive SystemEventSeverity := SeverityWarning | SeverityError | SeverityCritical.
#[global] Instance SystemEventSeverity_eq_dec : EqDecision SystemEventSeverity.
Proof. solve_decision. Defined.

(** [include/event/SystemEventReporter.hpp:34-47 SystemEventCode] *)
Inductive SystemEventCode :=
| SensorMessageInvalid | SensorNotMapped | SensorSequenceRejected | SensorHandlerFailed | HallWorkQueueOverflow
| UartOpenFailed | UartReadFailed | UartWriteFailed | UartBufferOverflow | UartRecovered | LoRaFrameRejected | LoRaRecovered.
#[global] Instance SystemEventCode_eq_dec : EqDecision SystemEventCode.
Proof. solve_decision. Defined.

(** [include/event/SystemEventReporter.hpp:50-62 SystemEvent] *)
Record SystemEvent := mkSystemEvent {
  se_source : SystemEventSource;
  se_code : SystemEventCode;
  se_severity : SystemEventSeverity;
  se_slot_id : string;
  se_transport : string;
  se_device : string;
  se_message : string;
  se_retry_count : N;
  se_suppressed_count : N;
  se_dropped_count : N;
  se_recovered : bool
}.
#[global] Instance SystemEvent_eq_dec : EqDecision SystemEvent.
Proof. solve_decision. Defined.
Definition se_with_counts (e : SystemEvent) (suppressed dropped : N) : SystemEvent :=
  mkSystemEvent (se_source e) (se_code e) (se_severity e) (se_slot_id e) (se_transport e) (se_device e) (se_message e)
    (se_retry_count e) suppressed dropped (se_recovered e).

(** [src/event/SystemEventReporter.cpp:13-23 toString] *)
Definition source_text (source : SystemEventSource) : string :=
  match source with
  | SourceHallSensor => "HALL_SENSOR" | SourceUart => "UART" | SourceLoRa => "LORA" | SourceMqtt => "MQTT"
  | SourceRtsp => "RTSP" | SourceDatabase => "DATABASE"
  end.

(** [src/event/SystemEventReporter.cpp:25-41 toString] *)
Definition system_code_text (code : SystemEventCode) : string :=
  match code with
  | SensorMessageInvalid => "SENSOR_MESSAGE_INVALID"
  | SensorNotMapped => "SENSOR_NOT_MAPPED"
  | SensorSequenceRejected => "SENSOR_SEQUENCE_REJECTED"
  | SensorHandlerFailed => "SENSOR_HANDLER_FAILED"
  | HallWorkQueueOverflow => "HALL_WORK_QUEUE_OVERFLOW"
  | UartOpenFailed => "UART_OPEN_FAILED"
  | UartReadFailed => "UART_READ_FAILED"
  | UartWriteFailed => "UART_WRITE_FAILED"
  | UartBufferOverflow => "UART_BUFFER_OVERFLOW"
  | UartRecovered => "UART_RECOVERED"
  | LoRaFrameRejected => "LORA_FRAME_REJECTED"
  | LoRaRecovered => "LORA_RECOVERED"
  end.

(** [src/event/SystemEventReporter.cpp:43-50 toString] *)
Definition severity_text (severity : SystemEventSeverity) : string :=
  match severity with SeverityWarning => "WARNING" | SeverityError => "ERROR" | SeverityCritical => "CRITICAL" end.

(** [src/event/SystemEventReporter.cpp:52-54 systemAlarmKind] *)
Definition systemAlarmKind (e : SystemEvent) : string := if se_recovered e then "NONE" else "SENSOR_ERROR".

(** [src/event/SystemEventReporter.cpp:56-58 systemAlarmState] *)
Definition systemAlarmState (e : SystemEvent) : string := if se_recovered e then "RESOLVED" else "OPEN".

(** A name and a text of JSON, with the quotation marks. *)
Definition quoted (s : string) : string := String "034" (s +:+ String "034" "").
Definition text_field (name value : string) : string := quoted name +:+ ":" +:+ quoted (jsonEscape value).

(** [src/event/SystemEventReporter.cpp:60-79 serializeSystemEvent] *)
Definition serializeSystemEvent (e : SystemEvent) : string :=
  "{" +:+ text_field "alarm_kind" (systemAlarmKind e) +:+ "," +:+ text_field "alarm_state" (systemAlarmState e) +:+ "," +:+
  text_field "error_code" (system_code_text (se_code e)) +:+ "," +:+ text_field "source" (source_text (se_source e)) +:+ "," +:+
  text_field "severity" (severity_text (se_severity e)) +:+ "," +:+ text_field "transport" (se_transport e) +:+ "," +:+
  text_field "device" (se_device e) +:+ "," +:+ text_field "message" (se_message e) +:+ "," +:+
  quoted "retry_count" +:+ ":" +:+ pretty (se_retry_count e) +:+ "," +:+
  quoted "suppressed_count" +:+ ":" +:+ pretty (se_suppressed_count e) +:+ "," +:+
  quoted "dropped_count" +:+ ":" +:+ pretty (se_dropped_count e) +:+ "," +:+
  quoted "recovered" +:+ ":" +:+ (if se_recovered e then "true" else "false") +:+ "}".

(** * The reporter *)

(** [include/event/SystemEventReporter.hpp:83-87 Config] Times in milliseconds. *)
Record ReporterConfig := mkReporterConfig { rc_queue_capacity : nat; rc_duplicate_window : Z; rc_sink_retry_delay : Z }.

(** [src/event/SystemEventReporter.cpp:84-91 SystemEventReporter::SystemEventReporter] *)
Definition reporter_config (c : ReporterConfig) : ReporterConfig :=
  mkReporterConfig (Nat.max 1 (rc_queue_capacity c)) (Z.max 0 (rc_duplicate_window c)) (Z.max 1 (rc_sink_retry_delay c)).

(** [include/event/SystemEventReporter.hpp:104-107 DuplicateState] *)
Record DuplicateState := mkDuplicateState { ds_last_enqueued : Z; ds_suppressed : N }.

(** Where the thread is: before the lock of its loop, in the sink, after a failure of the sink, or waiting for the next
    try. *)
Inductive ReporterAt := ReporterEnded | ReporterTaking | ReporterPersisting (e : SystemEvent) | ReporterFailed (e : SystemEvent)
| ReporterPausing.

(** What becomes of the events; an event is as it was put into the queue. *)
Inductive ReporterEvent :=
| Suppressed (e : SystemEvent)
| Entered (before : N) (e : SystemEvent)
| Refused (e : SystemEvent)
| Displaced (e : SystemEvent)
| PushedOut (e : SystemEvent)
| Persisted (e : SystemEvent)
| Abandoned (e : SystemEvent).

(** [include/event/SystemEventReporter.hpp:116-125 SystemEventReporter]  *)
Record Reporter := mkReporter {
  rp_queue : list SystemEvent;
  rp_duplicates : gmap string DuplicateState;
  rp_dropped : N;
  rp_running : bool;
  rp_stopping : bool;
  rp_at : ReporterAt
}.
Definition rp_set_queue r q dropped := mkReporter q (rp_duplicates r) dropped (rp_running r) (rp_stopping r) (rp_at r).
Definition rp_set_duplicates r d := mkReporter (rp_queue r) d (rp_dropped r) (rp_running r) (rp_stopping r) (rp_at r).
Definition rp_set_at r a := mkReporter (rp_queue r) (rp_duplicates r) (rp_dropped r) (rp_running r) (rp_stopping r) a.
Definition reporter_new : Reporter := mkReporter [] ∅ 0 false false ReporterEnded.

Section Reporter.
Context (c : ReporterConfig).

(** [src/event/SystemEventReporter.cpp:178-181 SystemEventReporter::deduplicationKey] *)
Definition deduplicationKey (e : SystemEvent) : string :=
  source_text (se_source e) +:+ "|" +:+ system_code_text (se_code e) +:+ "|" +:+ se_transport e +:+ "|" +:+ se_device e +:+
  "|" +:+ se_slot_id e.

(** [find] of a text: it begins somewhere. *)
Fixpoint contains_text (sub s : string) : bool :=
  String.prefix sub s || match s with EmptyString => false | String _ rest => contains_text sub rest end.

(** [src/event/SystemEventReporter.cpp:183-196 SystemEventReporter::clearRecoveredStateLocked] *)
Definition recovered_key (e : SystemEvent) (key : string) : bool :=
  String.prefix (source_text (se_source e) +:+ "|") key &&
  (is_empty (se_device e) || contains_text ("|" +:+ se_device e +:+ "|") key).
Definition clearRecoveredStateLocked (e : SystemEvent) (d : gmap string DuplicateState) : gmap string DuplicateState :=
  filter (fun kv => recovered_key e kv.1 = false) d.

(** The first event of the queue that is not critical, and the queue without it. *)
Fixpoint take_removable (queue : list SystemEvent) : option (SystemEvent * list SystemEvent) :=
  match queue with
  | [] => None
  | e :: queue =>
      if bool_decide (se_severity e = SeverityCritical)
      then '(x, rest) ← take_removable queue; Some (x, e :: rest)
      else Some (e, queue)
  end.

(** [src/event/SystemEventReporter.cpp:198-213 SystemEventReporter::enqueueLocked] *)
Definition enqueueLocked (e : SystemEvent) (r : Reporter) : list ReporterEvent * Reporter :=
  let add queue dropped :=
    let e' := se_with_counts e (se_suppressed_count e) (se_dropped_count e + dropped) in
    (Entered (se_dropped_count e) e', rp_set_queue r (queue ++ [e']) 0%N) in
  if (rc_queue_capacity c <=? length (rp_queue r))%nat then
    match take_removable (rp_queue r) with
    | None => ([Refused e], rp_set_queue r (rp_queue r) (rp_dropped r + 1)%N)
    | Some (x, queue) => let '(entered, r') := add queue (rp_dropped r + 1)%N in ([Displaced x; entered], r')
    end
  else let '(entered, r') := add (rp_queue r) (rp_dropped r) in ([entered], r').

(** [src/event/SystemEventReporter.cpp:134-166 SystemEventReporter::report] *)
Definition report (now : Z) (e : SystemEvent) (r : Reporter) : list ReporterEvent * Reporter :=
  if rp_stopping r then ([], r) else
  if se_recovered e then enqueueLocked e (rp_set_duplicates r (clearRecoveredStateLocked e (rp_duplicates r))) else
  let key := deduplicationKey e in
  match rp_duplicates r !! key with
  | Some position =>
      if now - ds_last_enqueued position <? rc_duplicate_window c
      then ([Suppressed e], rp_set_duplicates r (<[key := mkDuplicateState (ds_last_enqueued position) (ds_suppressed position + 1)]>
                                                   (rp_duplicates r)))
      else enqueueLocked (se_with_counts e (se_suppressed_count e + ds_suppressed position) (se_dropped_count e))
             (rp_set_duplicates r (<[key := mkDuplicateState now 0]> (rp_duplicates r)))
  | None => enqueueLocked e (rp_set_duplicates r (<[key := mkDuplicateState now 0]> (rp_duplicates r)))
  end.

(** [src/event/SystemEventReporter.cpp:97-113 SystemEventReporter::start] [sink]: there is one; [thread]: it starts. *)
Definition reporter_start (sink thread : bool) (r : Reporter) : bool * Reporter :=
  if rp_running r then (true, r) else
  if negb sink then (false, r) else
  if negb thread then (false, mkReporter (rp_queue r) (rp_duplicates r) (rp_dropped r) false false (rp_at r)) else
  (true, mkReporter (rp_queue r) (rp_duplicates r) (rp_dropped r) true false ReporterTaking).

(** [src/event/SystemEventReporter.cpp:115-132 SystemEventReporter::stop] The demand; the thread ends on its own, and the
    caller returns then. *)
Definition reporter_stop (r : Reporter) : Reporter :=
  if negb (rp_running r) then r else
  mkReporter (rp_queue r) (rp_duplicates r) (rp_dropped r) (rp_running r) true (rp_at r).

(** [src/event/SystemEventReporter.cpp:215-241 SystemEventReporter::run] One step, from a lock or the sink to the next;
    [stored]: the sink has taken the event. *)
Definition reporter_step (stored : bool) (r : Reporter) : list ReporterEvent * Reporter :=
  match rp_at r with
  | ReporterEnded => ([], r)
  | ReporterTaking =>
      match rp_queue r with
      | [] => ([], if rp_stopping r
                   then mkReporter [] (rp_duplicates r) (rp_dropped r) false true ReporterEnded else r)
      | e :: queue => ([], rp_set_at (rp_set_queue r queue (rp_dropped r)) (ReporterPersisting e))
      end
  | ReporterPersisting e =>
      if stored then ([Persisted e], rp_set_at r ReporterTaking) else ([], rp_set_at r (ReporterFailed e))
  | ReporterFailed e =>
      if rp_stopping r then ([Abandoned e], rp_set_at r ReporterTaking) else
      if (rc_queue_capacity c <=? length (rp_queue r))%nat then
        match last (rp_queue r) with
        | Some x => ([PushedOut x], rp_set_at (rp_set_queue r (e :: removelast (rp_queue r)) (rp_dropped r + 1)%N) ReporterPausing)
        | None => ([], rp_set_at (rp_set_queue r (e :: rp_queue r) (rp_dropped r)) ReporterPausing)
        end
      else ([], rp_set_at (rp_set_queue r (e :: rp_queue r) (rp_dropped r)) ReporterPausing)
  | ReporterPausing => ([], rp_set_at r ReporterTaking)
  end.

Inductive ReporterOp :=
| RpStart (sink thread : bool)
| RpStop
| RpReport (now : Z) (e : SystemEvent)
| RpStep (stored : bool).
Definition reporter_op (op : ReporterOp) (r : Reporter) : list ReporterEvent * Reporter :=
  match op with
  | RpStart sink thread => ([], (reporter_start sink thread r).2)
  | RpStop => ([], reporter_stop r)
  | RpReport now e => report now e r
  | RpStep stored => reporter_step stored r
  end.
Fixpoint reporter_run (ops : list ReporterOp) (r : Reporter) : list ReporterEvent * Reporter :=
  match ops with
  | [] => ([], r)
  | op :: ops => let '(evs, r1) := reporter_op op r in
                 let '(evs', r2) := reporter_run ops r1 in (evs ++ evs', r2)
  end.
End Reporter.

(** * Accounts *)

Section Accounts.
Context (c : ReporterConfig).

Definition rp_hand (r : Reporter) : list SystemEvent :=
  match rp_at r with ReporterPersisting e | ReporterFailed e => [e] | _ => [] end.
Definition entered_of (x : ReporterEvent) : option SystemEvent := match x with Entered _ e => Some e | _ => None end.
Definition left_of (x : ReporterEvent) : option SystemEvent :=
  match x with Displaced e | PushedOut e | Persisted e | Abandoned e => Some e | _ => None end.
(** The drops that are counted, and those that an entering event announces. *)
Definition drops (evs : list ReporterEvent) : N :=
  N.of_nat (length (List.filter (fun x => match x with Refused _ | Displaced _ | PushedOut _ => true | _ => false end) evs)).
Definition announced (evs : list ReporterEvent) : N :=
  foldr N.add 0%N (omap (fun x => match x with Entered before e => Some (se_dropped_count e - before)%N | _ => None end) evs).

Record reporter_ok (r : Reporter) : Prop := {
  ro_bound : (length (rp_queue r) <= rc_queue_capacity c)%nat;
  ro_running : rp_running r = false -> rp_at r = ReporterEnded
}.

(** What an operation does to the accounts. *)
Definition accounts (r : Reporter) (x : list ReporterEvent * Reporter) : Prop :=
  reporter_ok x.2 /\
  rp_hand r ++ rp_queue r ++ omap entered_of x.1 ≡ₚ omap left_of x.1 ++ rp_hand x.2 ++ rp_queue x.2 /\
  (rp_dropped r + drops x.1 = announced x.1 + rp_dropped x.2)%N.

Lemma drops_cons x evs :
  drops (x :: evs) = ((match x with Refused _ | Displaced _ | PushedOut _ => 1 | _ => 0 end) + drops evs)%N.
Proof. unfold drops. destruct x; cbn [List.filter length]; lia. Qed.
Lemma drops_app a b : drops (a ++ b) = (drops a + drops b)%N.
Proof. induction a as [|x a IH]; [done|]. cbn [app]. rewrite !drops_cons, IH. lia. Qed.
Lemma announced_app a b : announced (a ++ b) = (announced a + announced b)%N.
Proof.
  unfold announced. rewrite omap_app. induction (omap _ a) as [|x l IH]; [done|]. cbn [app foldr]. rewrite IH. lia.
Qed.

#[local] Ltac counts := unfold drops, announced; simpl; lia.

Lemma same_accounts r r' : reporter_ok r' -> rp_queue r' = rp_queue r -> rp_hand r' = rp_hand r -> rp_dropped r' = rp_dropped r ->
  accounts r ([], r').
Proof. intros Hok Hq Hh Hd. split; [done|]. cbn [fst snd]. rewrite Hq, Hh, Hd. split; [by rewrite app_nil_r|counts]. Qed.

Lemma take_removable_spec queue x rest :
  take_removable queue = Some (x, rest) -> queue ≡ₚ x :: rest /\ se_severity x <> SeverityCritical.
Proof.
  revert rest. induction queue as [|e queue IH]; intros rest; [done|]. cbn [take_removable]. case_bool_decide as Hs.
  - destruct (take_removable queue) as [[y l]|]; [|done]. intros [= -> <-]. destruct (IH l eq_refl) as [Hp Hx].
    split; [|done]. rewrite Hp. apply Permutation_swap.
  - by intros [= -> ->].
Qed.

Lemma enqueue_accounts e r : (0 < rc_queue_capacity c)%nat -> reporter_ok r -> accounts r (enqueueLocked c e r).
Proof.
  intros Hcap [Hb Hr]. unfold enqueueLocked. cbv zeta.
  destruct (Nat.leb_spec (rc_queue_capacity c) (length (rp_queue r))) as [Hfull|Hfull].
  - destruct (take_removable (rp_queue r)) as [[x rest]|] eqn:Et.
    + destruct (take_removable_spec _ _ _ Et) as [Hp _]. pose proof (Permutation_length Hp) as Hl. simpl in Hl.
      split; [|split]; cbn [fst snd].
      * split; simpl; [|done]. rewrite length_app. simpl. lia.
      * set (e' := se_with_counts e _ _). change (rp_hand (rp_set_queue r (rest ++ [e']) 0)) with (rp_hand r).
        cbn [omap list_omap entered_of left_of rp_set_queue rp_queue]. rewrite Hp. simpl. solve_Permutation.
      * rewrite !drops_cons. counts.
    + split; [|split]; cbn [fst snd]; [by split|by rewrite app_nil_r|]. rewrite drops_cons. counts.
  - split; [|split]; cbn [fst snd].
    + split; simpl; [|done]. rewrite length_app. simpl. lia.
    + done.
    + rewrite drops_cons. counts.
Qed.

Lemma report_accounts now e r : (0 < rc_queue_capacity c)%nat -> reporter_ok r -> accounts r (report c now e r).
Proof.
  intros Hcap Hr. unfold report. destruct (rp_stopping r); [by apply same_accounts|].
  assert (Hd : forall d x, accounts r (enqueueLocked c x (rp_set_duplicates r d))).
  { intros d x. apply (enqueue_accounts x (rp_set_duplicates r d) Hcap). by destruct Hr. }
  destruct (se_recovered e); [apply Hd|]. cbv zeta. destruct (rp_duplicates r !! _) as [position|]; [|apply Hd].
  destruct (_ <? _); [|apply Hd].
  destruct Hr. split; [by split|]. cbn [fst snd]. split; [by rewrite app_nil_r|counts].
Qed.

Lemma step_accounts stored r : (0 < rc_queue_capacity c)%nat -> reporter_ok r -> accounts r (reporter_step c stored r).
Proof.
  intros Hcap [Hb Hr]. unfold reporter_step. destruct (rp_at r) as [| |e|e|] eqn:Ea.
  - apply same_accounts; [by split; rewrite ?Ea|done..].
  - destruct (rp_queue r) as [|e queue] eqn:Eq.
    + destruct (rp_stopping r); apply same_accounts; unfold rp_hand; simpl; rewrite ?Ea, ?Eq; try done.
      split; [rewrite Eq; simpl; lia|]. rewrite Ea. done.
    + split; [|split]; cbn [fst snd]; unfold rp_hand; simpl; rewrite ?Ea, ?Eq.
      * split; simpl; [simpl in Hb; lia|]. intros H. by specialize (Hr H).
      * by rewrite app_nil_r.
      * counts.
  - destruct stored; (split; [|split]); cbn [fst snd]; unfold rp_hand; simpl; rewrite ?Ea; try done.
    all: try (split; simpl; [done|]; intros H; by specialize (Hr H)).
    all: try (by rewrite app_nil_r); counts.
  - destruct (rp_stopping r).
    { split; [|split]; cbn [fst snd]; unfold rp_hand; simpl; rewrite ?Ea; try done.
      - split; simpl; [done|]. intros H. by specialize (Hr H).
      - by rewrite app_nil_r.
      - counts. }
    destruct (Nat.leb_spec (rc_queue_capacity c) (length (rp_queue r))) as [Hfull|Hfull].
    + destruct (last (rp_queue r)) as [x|] eqn:El.
      * apply last_Some in El as [l El]. rewrite El, removelast_last.
        split; [|split]; cbn [fst snd]; unfold rp_hand; simpl; rewrite ?Ea, ?El.
        -- split; simpl; [rewrite El, length_app in Hb; simpl in Hb; lia|]. intros H. by specialize (Hr H).
        -- rewrite app_nil_r. cbn [app]. rewrite <- Permutation_cons_append. apply Permutation_swap.
        -- rewrite drops_cons. counts.
      * apply last_None in El. split; [|split]; cbn [fst snd]; unfold rp_hand; simpl; rewrite ?Ea, ?El; try done.
        all: rewrite El in Hfull; simpl in Hfull; lia.
    + split; [|split]; cbn [fst snd]; unfold rp_hand; simpl; rewrite ?Ea; try done.
      * split; simpl; [lia|]. intros H. by specialize (Hr H).
      * by rewrite app_nil_r.
      * counts.
  - split; [|split]; cbn [fst snd]; unfold rp_hand; simpl; rewrite ?Ea; try done.
    + split; simpl; [done|]. intros H. by specialize (Hr H).
    + by rewrite app_nil_r.
    + counts.
Qed.

Lemma op_accounts op r : (0 < rc_queue_capacity c)%nat -> reporter_ok r -> accounts r (reporter_op c op r).
Proof.
  intros Hcap Hr. destruct op as [sink thread| |now e|stored]; cbn [reporter_op].
  - unfold reporter_start. destruct (rp_running r) eqn:Er; [by apply same_accounts|].
    pose proof (ro_running r Hr Er) as Ha. destruct Hr as [Hb _].
    destruct (negb sink); [|destruct (negb thread)]; apply same_accounts; unfold rp_hand; simpl; rewrite ?Ha; done.
  - unfold reporter_stop. destruct (negb (rp_running r)) eqn:Er; [by apply same_accounts|].
    apply negb_false_iff in Er. destruct Hr as [Hb _]. apply same_accounts; try done. split; simpl; [done|congruence].
  - by apply report_accounts.
  - by apply step_accounts.
Qed.

(** No event is lost without a trace. After any history of reports, stops and failures of the sink: the queue is within
    its bound; the events that entered it are, each once, those that the sink took, those that were thrown out or
    abandoned, the one in hand and those of the queue; and the drops are counted: what entering events have
    announced and what is still to be announced is their number. *)
Theorem reporter_accounted ops : (0 < rc_queue_capacity c)%nat ->
  let '(evs, r) := reporter_run c ops reporter_new in
  (length (rp_queue r) <= rc_queue_capacity c)%nat /\
  omap entered_of evs ≡ₚ omap left_of evs ++ rp_hand r ++ rp_queue r /\
  drops evs = (announced evs + rp_dropped r)%N.
Proof.
  intros Hcap. assert (H : forall r, reporter_ok r -> accounts r (reporter_run c ops r)).
  { induction ops as [|op ops' IH]; intros r Hr; cbn [reporter_run]; [by apply same_accounts|].
    destruct (op_accounts op r Hcap Hr) as (H1 & H2 & H3). destruct (reporter_op c op r) as [e1 r1]. cbn [fst snd] in *.
    destruct (IH r1 H1) as (K1 & K2 & K3). destruct (reporter_run c ops' r1) as [e2 r2]. unfold accounts. cbn [fst snd] in *.
    split; [done|]. split; [|rewrite drops_app, announced_app; lia].
    rewrite !omap_app, !app_assoc, <- (app_assoc (rp_hand r)), H2, <- !app_assoc. by rewrite <- K2. }
  destruct (H reporter_new ltac:(split; simpl; [lia|done])) as (H1 & H2 & H3).
  destruct (reporter_run c ops reporter_new) as [evs r]. cbn [fst snd] in *. split; [apply H1|]. split; [exact H2|].
  simpl in H3. lia.
Qed.

(** ** What is suppressed *)

Definition report_of_key (key : string) (op : ReporterOp) : bool :=
  match op with RpReport _ e => negb (se_recovered e) && bool_decide (deduplicationKey e = key) | _ => false end.
Definition suppressed_of (key : string) (evs : list ReporterEvent) : N :=
  N.of_nat (length (List.filter (fun x => match x with Suppressed e => bool_decide (deduplicationKey e = key) | _ => false end) evs)).

(** The operations between two passing reports of a key: none recovers it, and those that report it come in time. *)
Definition within (key : string) (t : Z) (op : ReporterOp) : Prop :=
  match op with
  | RpReport now e =>
      if se_recovered e then recovered_key e key = false
      else deduplicationKey e = key -> now - t < rc_duplicate_window c
  | _ => True
  end.

Lemma enqueue_duplicates e r :
  rp_duplicates (enqueueLocked c e r).2 = rp_duplicates r /\ forall key, suppressed_of key (enqueueLocked c e r).1 = 0%N.
Proof.
  unfold enqueueLocked. cbv zeta. destruct (_ <=? _)%nat; [|done]. by destruct (take_removable _) as [[x rest]|].
Qed.

Lemma step_duplicates stored r :
  rp_duplicates (reporter_step c stored r).2 = rp_duplicates r /\ forall key, suppressed_of key (reporter_step c stored r).1 = 0%N.
Proof.
  unfold reporter_step. destruct (rp_at r) as [| |e|e|]; try done.
  - destruct (rp_queue r); [by destruct (rp_stopping r)|done].
  - by destruct stored.
  - destruct (rp_stopping r); [done|]. destruct (_ <=? _)%nat; [|done]. by destruct (last (rp_queue r)).
Qed.

Lemma suppressed_app key a b : suppressed_of key (a ++ b) = (suppressed_of key a + suppressed_of key b)%N.
Proof. unfold suppressed_of. rewrite List.filter_app, length_app. lia. Qed.

Lemma op_suppresses key t n op r :
  rp_duplicates r !! key = Some (mkDuplicateState t n) -> within key t op ->
  rp_duplicates (reporter_op c op r).2 !! key = Some (mkDuplicateState t (n + suppressed_of key (reporter_op c op r).1)%N).
Proof.
  intros Hk Hw.
  assert (H0 : forall r' evs, rp_duplicates r' = rp_duplicates r -> suppressed_of key evs = 0%N ->
    rp_duplicates r' !! key = Some (mkDuplicateState t (n + suppressed_of key evs)%N)).
  { intros r' evs -> ->. by rewrite N.add_0_r. }
  destruct op as [sink thread| |now e|stored]; cbn [reporter_op].
  - apply H0; [|done]. unfold reporter_start. destruct (rp_running r); [done|]. destruct (negb sink); [done|]. by destruct (negb thread).
  - apply H0; [|done]. unfold reporter_stop. by destruct (negb (rp_running r)).
  - unfold report. destruct (rp_stopping r); [by apply H0|]. simpl in Hw. destruct (se_recovered e).
    + destruct (enqueue_duplicates e (rp_set_duplicates r (clearRecoveredStateLocked e (rp_duplicates r)))) as [-> ->].
      rewrite N.add_0_r. simpl. unfold clearRecoveredStateLocked. by apply map_lookup_filter_Some.
    + cbv zeta. destruct (decide (deduplicationKey e = key)) as [He|He].
      * rewrite He, Hk. cbn [ds_last_enqueued ds_suppressed]. rewrite (proj2 (Z.ltb_lt _ _) (Hw He)). cbn [fst snd].
        unfold suppressed_of. cbn [List.filter]. rewrite bool_decide_eq_true_2 by done. simpl. by rewrite lookup_insert_eq.
      * destruct (rp_duplicates r !! deduplicationKey e) as [position|].
        -- destruct (_ <? _); cbn [fst snd].
           ++ unfold suppressed_of. cbn [List.filter]. rewrite bool_decide_eq_false_2 by done. simpl.
              rewrite lookup_insert_ne by done. by rewrite N.add_0_r.
           ++ destruct (enqueue_duplicates (se_with_counts e (se_suppressed_count e + ds_suppressed position) (se_dropped_count e))
                (rp_set_duplicates r (<[deduplicationKey e := mkDuplicateState now 0]> (rp_duplicates r)))) as [-> ->].
              simpl. rewrite lookup_insert_ne by done. by rewrite N.add_0_r.
        -- destruct (enqueue_duplicates e (rp_set_duplicates r (<[deduplicationKey e := mkDuplicateState now 0]> (rp_duplicates r)))) as [-> ->].
           simpl. rewrite lookup_insert_ne by done. by rewrite N.add_0_r.
  - destruct (step_duplicates stored r) as [H1 H2]. apply H0; [exact H1|apply H2].
Qed.

(** Repeated errors. From a report that passed at [t] on, for as long as its key is not recovered and its reports come
    within the window, none of them enters the queue; and the next report of the key after the window brings the exact
    number of those that were suppressed in between. *)
Theorem suppressed_announced key t ops r now e :
  rp_duplicates r !! key = Some (mkDuplicateState t 0) -> Forall (within key t) ops ->
  se_recovered e = false -> deduplicationKey e = key -> rc_duplicate_window c <= now - t ->
  let '(evs, r') := reporter_run c ops r in
  rp_stopping r' = false ->
  report c now e r' =
    enqueueLocked c (se_with_counts e (se_suppressed_count e + suppressed_of key evs) (se_dropped_count e))
      (rp_set_duplicates r' (<[key := mkDuplicateState now 0]> (rp_duplicates r'))).
Proof.
  intros Hk Hops Hrec He Hnow.
  assert (H : forall n r0, rp_duplicates r0 !! key = Some (mkDuplicateState t n) ->
    rp_duplicates (reporter_run c ops r0).2 !! key = Some (mkDuplicateState t (n + suppressed_of key (reporter_run c ops r0).1)%N)).
  { clear Hk. induction Hops as [|op ops' Hw _ IH]; intros n r0 Hk; cbn [reporter_run]; [simpl; by rewrite N.add_0_r|].
    pose proof (op_suppresses key t n op r0 Hk Hw) as H1. destruct (reporter_op c op r0) as [e1 r1]. cbn [fst snd] in *.
    pose proof (IH _ r1 H1) as H2. destruct (reporter_run c ops' r1) as [e2 r2]. cbn [fst snd] in *.
    rewrite H2, suppressed_app. by rewrite N.add_assoc. }
  specialize (H 0%N r Hk). destruct (reporter_run c ops r) as [evs r']. cbn [fst snd] in H. intros Hst.
  unfold report. rewrite Hst, Hrec, He, H. cbn [ds_last_enqueued ds_suppressed]. cbv zeta.
  rewrite (proj2 (Z.ltb_ge _ _)) by lia. by rewrite N.add_0_l.
Qed.
End Accounts.

(** * Critical events *)

(** A retry with a full queue throws out the newest event, also a critical one for a warning. *)
Module ReporterDemo.
Definition event (severity : SystemEventSeverity) (device : string) : SystemEvent :=
  mkSystemEvent SourceUart UartReadFailed severity "" "UART" device "read failed" 0 0 0 false.
Definition config := mkReporterConfig 1 30000 1000.
Definition history : list ReporterOp :=
  [RpStart true true; RpReport 0 (event SeverityWarning "tty1"); RpStep false;
   RpReport 10 (event SeverityCritical "tty2"); RpStep false; RpStep false].
Example critical_pushed_out :
  let '(evs, r) := reporter_run config history reporter_new in
  last evs = Some (PushedOut (event SeverityCritical "tty2")) /\ rp_queue r = [event SeverityWarning "tty1"].
Proof. vm_compute. done. Qed.

(** The count of suppressed events goes with the event that is displaced. *)
Example count_lost :
  let '(evs, r) := reporter_run config
    [RpReport 0 (event SeverityWarning "tty1"); RpReport 10 (event SeverityWarning "tty1"); RpStart true true; RpStep true;
     RpStep true; RpReport 40000 (event SeverityWarning "tty1"); RpReport 40001 (event SeverityError "tty2")] reporter_new in
  se_suppressed_count <$> omap (left_of) evs = [0%N; 1%N] /\ rp_queue r = [se_with_counts (event SeverityError "tty2") 0 1].
Proof. vm_compute. done. Qed.
End ReporterDemo.
