(* ===== verification/SensorLink.v ===== *)
(** The serial device ([src/device/UartDriver.cpp]) and the thread of the sensor link ([src/device/SensorLinkManager.cpp]):
    connecting, reading, the outages with their reports, the commands for the sensors, start and stop. The answers of the
    operating system and of the handler of lines are arguments; framing and cutting are those of LoRa.

    Shown: the reports of failures count each outage and its end exactly; the lines handed on are those of the bytes read;
    a stop ends the thread in three steps with at most one more read; a command is on the wire as a whole or a failure
    is reported. *)
From S2P Require Import Prelude SensorProtocol LoRa SystemEvents.

#[local] Open Scope Z_scope.

(** * The serial device *)

(** [include/device/UartDriver.hpp:14-18 Config] Its time is the system's. *)
Record UartConfig := mkUartConfig { uc_device_path : string; uc_baud_rate : Z }.

(** [src/device/UartDriver.cpp:22-39 baudConstant] *)
Definition baudConstant (baud_rate : Z) : bool :=
  bool_decide (baud_rate ∈ [9600; 19200; 38400; 57600; 115200; 230400; 460800; 921600]).

(** [src/device/UartDriver.cpp:18-20 systemError] *)
Definition systemError (prefix strerror : string) : string := prefix +:+ ": " +:+ strerror.

(** What the system says to opening and setting up the device. *)
Inductive OpenAnswer := OpenFailed (e : string) | GetFailed (e : string) | SetFailed (e : string) | Opened.

(** [src/device/UartDriver.cpp:47-92 UartDriver::connect] [descriptor]: whether there is one. With [Ok] there is one. *)
Definition uart_connect (cfg : UartConfig) (descriptor : bool) (answer : OpenAnswer) : result string unit :=
  if descriptor then Ok tt else
  if is_empty (uc_device_path cfg) then Err "UART device path is empty" else
  if negb (baudConstant (uc_baud_rate cfg)) then Err ("unsupported UART baud rate: " +:+ pretty (uc_baud_rate cfg)) else
  match answer with
  | OpenFailed e => Err (systemError ("cannot open UART " +:+ uc_device_path cfg) e)
  | GetFailed e => Err (systemError "tcgetattr failed" e)
  | SetFailed e => Err (systemError "UART termios configuration failed" e)
  | Opened => Ok tt
  end.

(** One answer of [poll] before a read, and of [read]. *)
Inductive PollAnswer := PollInterrupted | PollTimeout | PollFailed (e : string) | PollReady (trouble pollin : bool).
Inductive ReadAnswer := ReadInterrupted | ReadAgain | ReadFailed (e : string) | ReadBytes (bytes : list Z).

(** The loops that repeat an interrupted call; [None]: the answers are used up, the call goes on. *)
Fixpoint repeat_poll (answers : list PollAnswer) : option PollAnswer :=
  match answers with [] => None | PollInterrupted :: answers => repeat_poll answers | a :: _ => Some a end.
Fixpoint repeat_read (answers : list ReadAnswer) : option ReadAnswer :=
  match answers with [] => None | ReadInterrupted :: answers => repeat_read answers | a :: _ => Some a end.

(** [src/device/UartDriver.cpp:107-142 UartDriver::readSome] [None]: it has not returned. An empty list is a time-out. *)
Definition readSome (descriptor : bool) (size : nat) (polls : list PollAnswer) (reads : list ReadAnswer)
    : option (result string (list Z)) :=
  if negb descriptor then Some (Err "UART is not connected") else
  if (size =? 0)%nat then Some (Ok []) else
  match repeat_poll polls with
  | None | Some PollInterrupted => None
  | Some PollTimeout => Some (Ok [])
  | Some (PollFailed e) => Some (Err (systemError "UART poll failed" e))
  | Some (PollReady true _) => Some (Err "UART disconnected or reported poll error")
  | Some (PollReady false false) => Some (Ok [])
  | Some (PollReady false true) =>
      match repeat_read reads with
      | None | Some ReadInterrupted => None
      | Some ReadAgain => Some (Ok [])
      | Some (ReadFailed e) => Some (Err (systemError "UART read failed" e))
      | Some (ReadBytes bytes) => Some (Ok (take size bytes))
      end
  end.

(** One round of the loop that writes: an interrupted call or one to be repeated, a failure, or so many bytes and one
    more. *)
Inductive WriteRound :=
| WriteRepeat | WriteTimeout | WritePollFailed (e : string) | WriteFailed (e : string) | Wrote (n : nat).

(** The bytes that were written and the end, if it has come. *)
Fixpoint write_rounds (data : list Z) (rounds : list WriteRound) : list Z * option (result string unit) :=
  match data, rounds with
  | [], _ => ([], Some (Ok tt))
  | _, [] => ([], None)
  | _, WriteRepeat :: rounds => write_rounds data rounds
  | _, WriteTimeout :: _ => ([], Some (Err "UART write timeout"))
  | _, WritePollFailed e :: _ => ([], Some (Err (systemError "UART write poll failed" e)))
  | _, WriteFailed e :: _ => ([], Some (Err (systemError "UART write failed" e)))
  | _, Wrote n :: rounds =>
      let '(written, outcome) := write_rounds (drop (S n) data) rounds in (take (S n) data ++ written, outcome)
  end.

(** [src/device/UartDriver.cpp:144-177 UartDriver::writeAll] *)
Definition writeAll (descriptor : bool) (data : list Z) (rounds : list WriteRound) : list Z * option (result string unit) :=
  if negb descriptor then ([], Some (Err "UART is not connected")) else write_rounds data rounds.

Lemma write_rounds_prefix data rounds : let '(written, outcome) := write_rounds data rounds in
  exists rest, data = written ++ rest /\ (outcome = Some (Ok tt) <-> rest = []).
Proof.
  revert data. induction rounds as [|round rounds IH]; intros [|b data]; cbn [write_rounds].
  1,3: by exists [].
  - by exists (b :: data).
  - destruct round as [| |e|e|n]; try by exists (b :: data).
    + apply IH.
    + specialize (IH (drop (S n) (b :: data))). destruct (write_rounds _ rounds) as [written outcome].
      destruct IH as (rest & Hd & Ho). exists rest. split; [|done].
      by rewrite <- app_assoc, <- Hd, take_drop.
Qed.

(** Every round that writes brings the loop forward. *)
Lemma write_rounds_end data ns : (length data <= length ns)%nat -> (write_rounds data (Wrote <$> ns)).2 = Some (Ok tt).
Proof.
  revert data. induction ns as [|n ns IH]; intros [|b data] H; try done; [simpl in H; lia|].
  cbn [fmap list_fmap write_rounds]. specialize (IH (drop (S n) (b :: data))).
  destruct (write_rounds (drop (S n) (b :: data)) (Wrote <$> ns)) as [w o]. apply IH.
  rewrite length_drop. simpl in *. lia.
Qed.

(** * The link *)

(** [include/device/SensorLinkManager.hpp:27-31 Config] Its delay is the condition variable's; [lc_reporter]: there is a
    reporter; [lc_handler]: there is a handler. *)
Record LinkConfig := mkLinkConfig { lc_mode : SensorLinkMode; lc_uart : UartConfig; lc_handler : bool; lc_reporter : bool }.

(** Where the thread is: it does not exist, it is at the head of its loop, it reads, it waits before it connects again, it
    has left the loop, or it has returned. [LkDead]: the program was ended. *)
Inductive LinkPhase := LkNone | LkTop | LkRead | LkWait | LkClose | LkEnded | LkDead.
#[global] Instance LinkPhase_eq_dec : EqDecision LinkPhase.
Proof. solve_decision. Defined.

(** [include/device/SensorLinkManager.hpp:67-80 SensorLinkManager] *)
Record Link := mkLink {
  lk_running : bool;
  lk_descriptor : bool;
  lk_line_buffer : string;
  lk_lora : LoRaDriver;
  lk_reconnect_attempts : N;
  lk_link_failed : bool;
  lk_phase : LinkPhase
}.
Definition new_link : Link := mkLink false false "" lora_init 0 false LkNone.
Definition lk_go (ph : LinkPhase) (l : Link) : Link :=
  mkLink (lk_running l) (lk_descriptor l) (lk_line_buffer l) (lk_lora l) (lk_reconnect_attempts l) (lk_link_failed l) ph.
Definition lk_set_running (b : bool) (l : Link) : Link :=
  mkLink b (lk_descriptor l) (lk_line_buffer l) (lk_lora l) (lk_reconnect_attempts l) (lk_link_failed l) (lk_phase l).
Definition lk_set_descriptor (b : bool) (l : Link) : Link :=
  mkLink (lk_running l) b (lk_line_buffer l) (lk_lora l) (lk_reconnect_attempts l) (lk_link_failed l) (lk_phase l).
Definition lk_set_outage (failed : bool) (attempts : N) (l : Link) : Link :=
  mkLink (lk_running l) (lk_descriptor l) (lk_line_buffer l) (lk_lora l) attempts failed (lk_phase l).
Definition lk_set_buffers (line_buffer : string) (lora : LoRaDriver) (l : Link) : Link :=
  mkLink (lk_running l) (lk_descriptor l) line_buffer lora (lk_reconnect_attempts l) (lk_link_failed l) (lk_phase l).

(** What the link does outwards: reports, lines to the handler, bytes from and to the device. *)
Inductive LinkEvent :=
| LinkReport (e : SystemEvent)
| LinkLine (line transport : string)
| LinkGot (bytes : list Z)
| LinkPut (bytes : list Z).

Section Link.
Context (cfg : LinkConfig).

(** [src/device/SensorLinkManager.cpp:251-270 SensorLinkManager::report] *)
Definition link_report (code : SystemEventCode) (severity : SystemEventSeverity) (message : string) (retry_count : N)
    (recovered : bool) : list LinkEvent :=
  if negb (lc_reporter cfg) then [] else
  [LinkReport (mkSystemEvent (if bool_decide (code = LoRaFrameRejected) then SourceLoRa else SourceUart) code severity ""
     (modeName (lc_mode cfg)) (uc_device_path (lc_uart cfg)) message retry_count 0 0 recovered)].

(** The handler is called for each line; [thrown]: what it throws, call by call, [None] if it returns. *)
Fixpoint handle_lines (transport : string) (lines : list string) (thrown : list (option string)) : list LinkEvent :=
  match lines with
  | [] => []
  | line :: lines =>
      LinkLine line transport ::
      match head thrown with
      | Some (Some what) => link_report SensorHandlerFailed SeverityError what 0 false
      | _ => []
      end ++ handle_lines transport lines (tail thrown)
  end.

(** [src/device/SensorLinkManager.cpp:174-177 SensorLinkManager::run] What was read, with the reports of both consumers. *)
Definition link_consume (bytes : list Z) (thrown : list (option string)) (l : Link) : list LinkEvent * Link :=
  if bool_decide (lc_mode cfg = LoRaFrameMode) then
    let '(lines, rejected, driver) := consumeLoRaFrames (lk_lora l) bytes in
    ((if (rejected =? 0)%N then []
      else link_report LoRaFrameRejected SeverityWarning
             ("LoRa frame failed version, length, or CRC validation; count=" +:+ pretty rejected) 0 false)
       ++ handle_lines "lora" lines thrown,
     lk_set_buffers (lk_line_buffer l) driver l)
  else
    let '(lines, overflow, buffer) := consumeUartLines (lk_line_buffer l) (string_of_bytes bytes) in
    ((if overflow : bool
      then link_report UartBufferOverflow SeverityWarning "sensor UART line buffer exceeded 4096 bytes" 0 false else [])
       ++ handle_lines "uart" lines thrown,
     lk_set_buffers buffer (lk_lora l) l).

(** A failure to connect or to read: counted, and reported with the count. *)
Definition link_fails (code : SystemEventCode) (error : string) (l : Link) : list LinkEvent * Link :=
  let attempts := ((lk_reconnect_attempts l + 1) mod 2 ^ 32)%N in
  (link_report code SeverityError error attempts false, lk_go LkWait (lk_set_outage true attempts l)).

(** What the system answers to one step of the thread. *)
Record LinkAnswers := mkLinkAnswers {
  la_open : OpenAnswer;
  la_polls : list PollAnswer;
  la_reads : list ReadAnswer;
  la_thrown : list (option string)
}.

(** [src/device/SensorLinkManager.cpp:133-180 SensorLinkManager::run] One step of the thread, up to the end of a call that
    can wait. The wait of [waitReconnect] (lines 244-249) ends by its time, or at once when the link was stopped. *)
Definition link_step (a : LinkAnswers) (l : Link) : list LinkEvent * Link :=
  match lk_phase l with
  | LkTop =>
      if negb (lk_running l) then ([], lk_go LkClose l) else
      if lk_descriptor l then ([], lk_go LkRead l) else
      match uart_connect (lc_uart cfg) false (la_open a) with
      | Err error => link_fails UartOpenFailed error l
      | Ok _ =>
          let l1 := lk_go LkRead (lk_set_descriptor true l) in
          if lk_link_failed l
          then (link_report UartRecovered SeverityWarning "sensor UART link recovered" (lk_reconnect_attempts l) true,
                lk_set_outage false 0 l1)
          else ([], l1)
      end
  | LkRead =>
      match readSome (lk_descriptor l) 512 (la_polls a) (la_reads a) with
      | None => ([], l)
      | Some (Err error) =>
          let '(es, l1) := link_fails UartReadFailed error l in (es, lk_set_descriptor false l1)
      | Some (Ok []) => ([], lk_go LkTop l)
      | Some (Ok bytes) =>
          let '(es, l1) := link_consume bytes (la_thrown a) l in (LinkGot bytes :: es, lk_go LkTop l1)
      end
  | LkWait => ([], if lk_running l then lk_go LkTop l else lk_go LkClose l)
  | LkClose => ([], lk_go LkEnded (lk_set_descriptor false l))
  | LkNone | LkEnded | LkDead => ([], l)
  end.

(** [src/device/SensorLinkManager.cpp:73-82 SensorLinkManager::start] A thread that was not joined must not be replaced:
    this ends the program. *)
Definition link_start (l : Link) : bool * Link :=
  if lk_running l then (true, l) else
  if bool_decide (lc_mode cfg = LinkDisabled) || negb (lc_handler cfg) || is_empty (uc_device_path (lc_uart cfg))
  then (false, l) else
  (true, lk_go (if bool_decide (lk_phase l = LkNone) then LkTop else LkDead) (lk_set_running true l)).

(** [src/device/SensorLinkManager.cpp:84-92 SensorLinkManager::stop] Up to the mutex, and from the join on. *)
Definition link_stop (l : Link) : Link := lk_set_running false l.
Definition link_join (l : Link) : Link :=
  if bool_decide (lk_phase l = LkEnded) then lk_go LkNone (lk_set_descriptor false l) else l.

(** [src/device/SensorLinkManager.cpp:96-131 SensorLinkManager::sendAlertCommand] The bytes are those of LoRa; [wanted]: the
    caller asks for the text of the error. [None]: it has not returned. *)
Definition link_send (command : string) (sequence : Z) (wanted : bool) (rounds : list WriteRound) (l : Link)
    : list LinkEvent * option (result string unit) :=
  if is_empty command then ([], Some (Err "alert command is empty")) else
  let text := if bool_decide (lc_mode cfg = LoRaFrameMode) then "LoRa alert command write failed"
              else "UART alert command write failed" in
  let failed error := link_report UartWriteFailed SeverityError (if wanted then error else text) 0 false in
  match sendAlertCommand (lc_mode cfg) command sequence with
  | Err error => (failed error, Some (Err error))
  | Ok bytes =>
      let '(written, outcome) := writeAll (lk_descriptor l) bytes rounds in
      (LinkPut written :: match outcome with Some (Err error) => failed error | _ => [] end, outcome)
  end.

Inductive LinkOp :=
| LoStart
| LoStop
| LoJoin
| LoStep (a : LinkAnswers)
| LoSend (command : string) (sequence : Z) (wanted : bool) (rounds : list WriteRound).

Definition link_op (op : LinkOp) (l : Link) : list LinkEvent * Link :=
  if bool_decide (lk_phase l = LkDead) then ([], l) else
  match op with
  | LoStart => ([], (link_start l).2)
  | LoStop => ([], link_stop l)
  | LoJoin => ([], link_join l)
  | LoStep a => link_step a l
  | LoSend command sequence wanted rounds => ((link_send command sequence wanted rounds l).1, l)
  end.
Fixpoint link_run (ops : list LinkOp) (l : Link) : list LinkEvent * Link :=
  match ops with
  | [] => ([], l)
  | op :: ops => let '(e, l1) := link_op op l in let '(es, l2) := link_run ops l1 in (e ++ es, l2)
  end.
End Link.

(** * The reports of outages *)

(** The failures since the last recovery, told by the reports; [None]: a report that does not fit. Counts are those of a
    32-bit counter. *)
Definition outage_event (n : nat) (e : LinkEvent) : option nat :=
  match e with
  | LinkReport r =>
      match se_code r with
      | UartOpenFailed | UartReadFailed =>
          if bool_decide (se_retry_count r = (N.of_nat (S n) mod 2 ^ 32)%N /\ se_recovered r = false)
          then Some (S n) else None
      | UartRecovered =>
          if bool_decide ((0 < n)%nat /\ se_retry_count r = (N.of_nat n mod 2 ^ 32)%N /\ se_recovered r = true)
          then Some O else None
      | _ => if se_recovered r then None else Some n
      end
  | _ => Some n
  end.
Fixpoint outage_run (n : nat) (es : list LinkEvent) : option nat :=
  match es with [] => Some n | e :: es => match outage_event n e with Some n => outage_run n es | None => None end end.

Lemma outage_run_app n es es' : outage_run n (es ++ es') = (n' ← outage_run n es; outage_run n' es').
Proof. revert n. induction es as [|e es IH]; intros n; simpl; [done|]. by destruct (outage_event n e). Qed.

(** * The bytes and the lines *)

Definition got (es : list LinkEvent) : list (list Z) :=
  omap (fun e => match e with LinkGot bytes => Some bytes | _ => None end) es.
Definition handed (es : list LinkEvent) : list (string * string) :=
  omap (fun e => match e with LinkLine line transport => Some (line, transport) | _ => None end) es.

(** The lines that frames carry. *)
Definition sensor_lines (frames : list LoRaFrame) : list string :=
  omap (fun frame =>
    if negb (bool_decide (lf_type frame = SensorEvent)) then None else
    let line := string_of_bytes (lf_payload frame) in
    if is_empty line then None else Some line) frames.

(** The texts that end with a line feed, and what follows the last one. *)
Fixpoint cut_text (s : string) : list string * string :=
  match s with
  | EmptyString => ([], "")
  | String c rest =>
      let '(lines, last) := cut_text rest in
      if bool_decide (c = newline_char) then ("" :: lines, last)
      else match lines with [] => ([], String c last) | line :: lines => (String c line :: lines, last) end
  end.
Definition unfinished (s : string) : string := (cut_text s).2.
(** A line without the carriage return at its end. *)
Definition chomp (line : string) : string :=
  match rev (list_ascii_of_string line) with
  | c :: front => if bool_decide (c = carriage_return) then string_of_list_ascii (rev front) else line
  | [] => line
  end.
(** The lines of a text that are not empty. *)
Definition text_lines (s : string) : list string :=
  List.filter (fun line => negb (is_empty line)) (chomp <$> (cut_text s).1).

(** What the serial line says: one text, until a read that would make the unfinished line, with all that is read, longer than
    4096 bytes; this read and the unfinished line are lost, and another text begins. The texts that are closed, and the
    last one. *)
Definition next_text (st : list string * string) (data : string) : list string * string :=
  if (4096 <? String.length (unfinished st.2 +:+ data))%nat then (st.1 ++ [st.2], "") else (st.1, st.2 +:+ data).
Definition texts_read (reads : list string) : list string * string := foldl next_text ([], "") reads.

(** The lines in what was read, with their transport. *)
Definition lines_read (mode : SensorLinkMode) (reads : list (list Z)) : list (string * string) :=
  if bool_decide (mode = LoRaFrameMode) then (fun line => (line, "lora")) <$> sensor_lines (drain (mjoin reads)).1.1
  else
    let '(closed, text) := texts_read (string_of_bytes <$> reads) in
    (fun line => (line, "uart")) <$> ((closed ++ [text]) ≫= text_lines).

(** Without a loss there is one text. *)
Lemma texts_whole reads : (texts_read reads).1 = [] -> (texts_read reads).2 = String.concat "" reads.
Proof.
  unfold texts_read. enough (H : forall acc, (foldl next_text ([], acc) reads).1 = [] ->
    (foldl next_text ([], acc) reads).2 = acc +:+ String.concat "" reads) by apply (H "").
  assert (Hgrow : forall reads st, st.1 <> [] -> (foldl next_text st reads).1 <> []).
  { clear. induction reads as [|d reads IH]; intros st Hst; [done|]. apply IH. unfold next_text.
    destruct (_ <? _)%nat; [|done]. cbn. by destruct st.1. }
  induction reads as [|d reads IH]; intros acc; [by rewrite append_nil_r|]. cbn [foldl]. unfold next_text at 2 4.
  cbn [fst snd app].
  destruct (_ <? _)%nat; [intros H; by destruct (Hgrow reads ([acc], "") ltac:(done))|]. intros H%IH. rewrite H, append_assoc.
  f_equal. destruct reads; [by rewrite append_nil_r|done].
Qed.

Lemma cut_text_break s :
  cut_text s = match break_on newline_char s with
               | Some (line, rest) => (line :: (cut_text rest).1, (cut_text rest).2)
               | None => ([], s)
               end.
Proof.
  induction s as [|c s IH]; [done|]. cbn [cut_text break_on]. rewrite IH. case_bool_decide as Hc.
  - rewrite <- IH. by destruct (cut_text s).
  - by destruct (break_on newline_char s) as [[line rest]|].
Qed.

Lemma list_ascii_snoc s c : list_ascii_of_string (s +:+ String c "") = list_ascii_of_string s ++ [c].
Proof. induction s as [|d s IH]; [done|]. cbn. by rewrite <- IH. Qed.
Lemma strip_cr_chomp line : strip_cr line = chomp line.
Proof.
  assert (Hs : line = "" \/ exists s c, line = s +:+ String c "").
  { clear. induction line as [|c line [->|(s & d & ->)]]; [by left|right; by exists "", c|right; by exists (String c s), d]. }
  destruct Hs as [->|(s & c & ->)]; [done|]. unfold chomp. rewrite list_ascii_snoc, rev_app_distr. cbn [rev app].
  rewrite rev_involutive, string_of_list_ascii_of_string.
  induction s as [|d s IH]; cbn [append strip_cr].
  - by case_bool_decide.
  - destruct (s +:+ String c "") eqn:E; [by destruct s|]. rewrite IH. by case_bool_decide.
Qed.

Lemma lines_of_text s : lines_of s = (text_lines s, unfinished s).
Proof.
  remember (String.length s) as n eqn:Hn. revert s Hn.
  induction n as [n IH] using (well_founded_induction lt_wf). intros s ->.
  unfold text_lines, unfinished. rewrite lines_of_eq, cut_text_break.
  destruct (break_on newline_char s) as [[line rest]|] eqn:E; [|done].
  rewrite (IH _ (break_on_length _ _ _ _ E) rest eq_refl). cbn [fst snd fmap list_fmap List.filter].
  rewrite <- strip_cr_chomp. by destruct (is_empty (strip_cr line)).
Qed.
Lemma text_lines_app x y :
  text_lines (x +:+ y) = text_lines x ++ text_lines (unfinished x +:+ y) /\
  unfinished (x +:+ y) = unfinished (unfinished x +:+ y).
Proof.
  pose proof (lines_of_app x y) as H. rewrite !lines_of_text in H. injection H as H1 H2. by rewrite H1, H2.
Qed.

(** The buffers hold what is left of the bytes that were read. *)
Definition buffers_of (mode : SensorLinkMode) (reads : list (list Z)) (l : Link) : Prop :=
  if bool_decide (mode = LoRaFrameMode) then (consume_chunks lora_init reads).2 = lk_lora l
  else unfinished (texts_read (string_of_bytes <$> reads)).2 = lk_line_buffer l.

(** One read more. *)
Lemma texts_read_snoc reads data :
  let '(closed, text) := texts_read reads in
  let '(lines, overflow, buffer) := consumeUartLines (unfinished text) data in
  let '(closed', text') := texts_read (reads ++ [data]) in
  (closed' ++ [text']) ≫= text_lines = ((closed ++ [text]) ≫= text_lines) ++ lines /\ unfinished text' = buffer.
Proof.
  unfold texts_read. rewrite foldl_app. cbn [foldl]. destruct (foldl next_text ([], "") reads) as [closed text].
  rewrite consumeUartLines_lines. unfold next_text. cbn [fst snd]. change (Nat.ltb 4096) with (fun n => 4096 <? n)%nat. cbv beta.
  destruct (4096 <? String.length (unfinished text +:+ data))%nat.
  - rewrite bind_app. by split.
  - rewrite lines_of_text. destruct (text_lines_app text data) as [H1 H2]. cbn [fst snd]. split; [|done].
    rewrite !bind_app. cbn [mbind list_bind]. by rewrite H1, !app_nil_r, app_assoc.
Qed.

Lemma consume_chunks_snoc d chunks chunk :
  consume_chunks d (chunks ++ [chunk]) =
    let '(f1, d1) := consume_chunks d chunks in let '(f2, d2) := consume d1 chunk in (f1 ++ f2, d2).
Proof.
  revert d. induction chunks as [|c cs IH]; intros d; cbn [consume_chunks app].
  - destruct (consume d chunk) as [f d2]. by rewrite app_nil_r.
  - destruct (consume d c) as [f d1]. rewrite IH. destruct (consume_chunks d1 cs) as [f1 d2].
    destruct (consume d2 chunk) as [f2 d3]. by rewrite app_assoc.
Qed.
Lemma consume_chunks_lines chunks : (consume_chunks lora_init chunks).1 = (drain (mjoin chunks)).1.1.
Proof.
  destruct (drain (mjoin chunks)) as [[fs rest] k] eqn:E.
  destruct (consume_chunks_drain [] 0 chunks fs rest k) as [H _]; [done|done|].
  change (mkLoRaDriver [] (0 mod 2 ^ 64)%N) with lora_init in H.
  by rewrite H.
Qed.

Section Safety.
Context (cfg : LinkConfig).
Notation mode := (lc_mode cfg).

(** Events that are no part of an outage. *)
Definition neutral (es : list LinkEvent) : Prop := (forall n, outage_run n es = Some n) /\ got es = [].

Lemma neutral_app es es' : neutral es -> neutral es' -> neutral (es ++ es').
Proof.
  intros [H1 H2] [H3 H4]. split.
  - intros n. rewrite outage_run_app, H1. apply H3.
  - unfold got in *. by rewrite omap_app, H2, H4.
Qed.
Lemma report_neutral code severity message : code ∉ [UartOpenFailed; UartReadFailed; UartRecovered] ->
  neutral (link_report cfg code severity message 0 false) /\ handed (link_report cfg code severity message 0 false) = [].
Proof.
  intros Hc. unfold link_report. destruct (negb (lc_reporter cfg)); [done|]. split; [|done]. split; [|done]. intros n.
  simpl. destruct code; try done; destruct Hc; set_solver.
Qed.
Lemma handle_lines_ok transport lines thrown :
  neutral (handle_lines cfg transport lines thrown) /\
  handed (handle_lines cfg transport lines thrown) = (fun line => (line, transport)) <$> lines.
Proof.
  revert thrown. induction lines as [|line lines IH]; intros thrown; [done|]. cbn [handle_lines].
  destruct (IH (tail thrown)) as [IH1 IH2].
  set (r := match head thrown with Some (Some what) => _ | _ => [] end).
  assert (Hr : neutral r /\ handed r = []).
  { unfold r. destruct (head thrown) as [[what|]|]; [|done|done]. apply report_neutral. set_solver. }
  destruct Hr as [Hr1 Hr2]. split.
  - change (LinkLine line transport :: r ++ handle_lines cfg transport lines (tail thrown)) with
      ([LinkLine line transport] ++ r ++ handle_lines cfg transport lines (tail thrown)).
    apply neutral_app; [done|]. by apply neutral_app.
  - unfold handed in *. cbn [omap list_omap]. rewrite omap_app, Hr2, IH2. done.
Qed.

Record same_outage (l l' : Link) : Prop := {
  so_failed : lk_link_failed l' = lk_link_failed l;
  so_attempts : lk_reconnect_attempts l' = lk_reconnect_attempts l;
  so_running : lk_running l' = lk_running l;
  so_phase : lk_phase l' = lk_phase l
}.

Lemma consume_ok reads bytes thrown l : buffers_of mode reads l ->
  let '(es, l') := link_consume cfg bytes thrown l in
  lines_read mode (reads ++ [bytes]) = lines_read mode reads ++ handed es /\
  buffers_of mode (reads ++ [bytes]) l' /\ neutral es /\ same_outage l l'.
Proof.
  unfold buffers_of, lines_read, link_consume. case_bool_decide as Hm.
  - intros Hb. rewrite <- !consume_chunks_lines, consume_chunks_snoc. unfold consumeLoRaFrames.
    destruct (consume_chunks lora_init reads) as [f1 d1]. simpl in Hb. subst d1.
    destruct (consume (lk_lora l) bytes) as [f2 d2]. cbn [fst snd].
    set (k := if bool_decide _ then _ else 0%N).
    set (r := if (k =? 0)%N then [] else _).
    assert (Hr : neutral r /\ handed r = []).
    { unfold r. destruct (k =? 0)%N; [done|]. apply report_neutral. set_solver. }
    destruct Hr as [Hr1 Hr2]. destruct (handle_lines_ok "lora" (sensor_lines f2) thrown) as [H1 H2].
    split_and!; [|done|by apply neutral_app|done].
    unfold handed in *. rewrite omap_app, Hr2. fold (sensor_lines f2). rewrite H2.
    unfold sensor_lines. by rewrite omap_app, fmap_app.
  - intros Hb. rewrite fmap_app. change (string_of_bytes <$> [bytes]) with [string_of_bytes bytes].
    pose proof (texts_read_snoc (string_of_bytes <$> reads) (string_of_bytes bytes)) as Hs.
    destruct (texts_read (string_of_bytes <$> reads)) as [closed text]. cbn [snd] in Hb. rewrite Hb in Hs.
    destruct (texts_read (_ ++ _)) as [closed' text'].
    destruct (consumeUartLines (lk_line_buffer l) (string_of_bytes bytes)) as [[l2 o2] b2]. destruct Hs as [Hs1 Hs2].
    set (r := if o2 : bool then _ else []).
    assert (Hr : neutral r /\ handed r = []).
    { unfold r. destruct o2; [|done]. apply report_neutral. set_solver. }
    destruct Hr as [Hr1 Hr2]. destruct (handle_lines_ok "uart" l2 thrown) as [H1 H2].
    split_and!; [|done|by apply neutral_app|done].
    unfold handed in *. by rewrite omap_app, Hr2, H2, Hs1, fmap_app.
Qed.

(** The thread of a stopped link has given the device back. *)
Definition at_rest (l : Link) : Prop :=
  match lk_phase l with
  | LkNone | LkEnded => lk_running l = false /\ lk_descriptor l = false
  | LkClose => lk_running l = false
  | _ => True
  end.

Record link_ok (es : list LinkEvent) (l : Link) : Prop := {
  lo_lines : handed es = lines_read mode (got es);
  lo_buffers : buffers_of mode (got es) l;
  lo_outage : exists n, outage_run 0 es = Some n /\
    (lc_reporter cfg = true ->
      (lk_link_failed l = true <-> (0 < n)%nat) /\ lk_reconnect_attempts l = (N.of_nat n mod 2 ^ 32)%N);
  lo_rest : at_rest l
}.

Lemma new_link_ok : link_ok [] new_link.
Proof.
  split; [by unfold lines_read; case_bool_decide|by unfold buffers_of; case_bool_decide| |done].
  exists 0%nat. split; [done|]. intros _. split; [split; [done|lia]|done].
Qed.

(** Steps that neither read nor count. *)
Lemma quiet_ok es e l l' : link_ok es l -> neutral e -> handed e = [] ->
  same_outage l (lk_go (lk_phase l) (lk_set_running (lk_running l) l')) ->
  lk_line_buffer l' = lk_line_buffer l -> lk_lora l' = lk_lora l -> at_rest l' -> link_ok (es ++ e) l'.
Proof.
  intros [HL HB (n & Hn & HR) _] [N1 N2] Hh [S1 S2 _ _] B1 B2 Hr. simpl in S1, S2.
  assert (Hg : got (es ++ e) = got es) by (unfold got in *; by rewrite omap_app, N2, app_nil_r).
  split; rewrite ?Hg.
  - unfold handed in *. by rewrite omap_app, Hh, app_nil_r.
  - unfold buffers_of in *. by rewrite B1, B2.
  - exists n. rewrite outage_run_app, Hn. split; [apply N1|]. by rewrite S1, S2.
  - done.
Qed.
Lemma link_quiet_nil es l l' : link_ok es l -> same_outage l (lk_go (lk_phase l) (lk_set_running (lk_running l) l')) ->
  lk_line_buffer l' = lk_line_buffer l -> lk_lora l' = lk_lora l -> at_rest l' -> link_ok es l'.
Proof. intros. rewrite <- (app_nil_r es). by eapply quiet_ok. Qed.

Lemma fails_ok es l code error : link_ok es l -> code = UartOpenFailed \/ code = UartReadFailed ->
  link_ok (es ++ (link_fails cfg code error l).1) (link_fails cfg code error l).2.
Proof.
  intros [HL HB (n & Hn & HR) _] Hc. unfold link_fails, link_report. cbn [fst snd].
  destruct (lc_reporter cfg) eqn:Er; cbn [negb].
  - assert (Hg : forall r, got (es ++ [LinkReport r]) = got es) by (intros r; unfold got; by rewrite omap_app, app_nil_r).
    split; rewrite ?Hg; try done.
    + unfold handed in *. by rewrite omap_app, app_nil_r.
    + destruct (HR eq_refl) as [_ Ha]. exists (S n).
      assert (Hk : ((lk_reconnect_attempts l + 1) mod 2 ^ 32 = N.of_nat (S n) mod 2 ^ 32)%N).
      { rewrite Ha, N.Div0.add_mod_idemp_l. f_equal. lia. }
      split; [|intros _; split; [split; [lia|done]|exact Hk]].
      rewrite outage_run_app, Hn. cbn [mbind option_bind outage_run outage_event se_code se_retry_count se_recovered].
      rewrite bool_decide_eq_true_2 by done. by destruct Hc as [-> | ->].
  - rewrite app_nil_r. split; try done. exists n. split; [done|]. by rewrite Er.
Qed.

Lemma recovers_ok es l l' message : link_ok es l -> lk_link_failed l = true -> lk_reconnect_attempts l' = 0%N ->
  lk_link_failed l' = false -> lk_line_buffer l' = lk_line_buffer l -> lk_lora l' = lk_lora l -> at_rest l' ->
  link_ok (es ++ link_report cfg UartRecovered SeverityWarning message (lk_reconnect_attempts l) true) l'.
Proof.
  intros [HL HB (n & Hn & HR) _] Hf A1 A2 B1 B2 Hr. unfold link_report.
  assert (Hb : buffers_of mode (got es) l') by (unfold buffers_of in *; by rewrite B1, B2).
  destruct (lc_reporter cfg) eqn:Er; cbn [negb].
  - assert (Hg : forall r, got (es ++ [LinkReport r]) = got es) by (intros r; unfold got; by rewrite omap_app, app_nil_r).
    destruct (HR eq_refl) as [Hn0 Ha]. apply Hn0 in Hf. split; rewrite ?Hg; try done.
    + unfold handed in *. by rewrite omap_app, app_nil_r.
    + exists 0%nat. split; [|intros _; rewrite A1, A2; split; [split; [done|lia]|done]].
      rewrite outage_run_app, Hn. cbn [mbind option_bind outage_run outage_event se_code se_retry_count se_recovered].
      by rewrite bool_decide_eq_true_2.
  - rewrite app_nil_r. split; try done. exists n. split; [done|]. by rewrite Er.
Qed.

Lemma link_step_ok es a l : link_ok es l -> link_ok (es ++ (link_step cfg a l).1) (link_step cfg a l).2.
Proof.
  intros Hl. pose proof (lo_rest _ _ Hl) as Hrest. unfold at_rest in Hrest. unfold link_step.
  destruct (lk_phase l) eqn:Ep; try (by rewrite app_nil_r).
  - destruct (lk_running l) eqn:Er; cbn [negb]; [|rewrite app_nil_r; by eapply link_quiet_nil].
    destruct (lk_descriptor l); [rewrite app_nil_r; by eapply link_quiet_nil|].
    destruct (uart_connect (lc_uart cfg) false (la_open a)) as [[]|error].
    + destruct (lk_link_failed l) eqn:Ef; [by eapply recovers_ok|]. rewrite app_nil_r. by eapply link_quiet_nil.
    + apply fails_ok; [done|by left].
  - destruct (readSome (lk_descriptor l) 512 (la_polls a) (la_reads a)) as [[bytes|error]|];
      [|destruct (link_fails _ _ _ _) eqn:Ef|by rewrite app_nil_r].
    + destruct bytes as [|b bytes]; [rewrite app_nil_r; by eapply link_quiet_nil|].
      pose proof (consume_ok (got es) (b :: bytes) (la_thrown a) l (lo_buffers _ _ Hl)) as Hc.
      destruct (link_consume cfg (b :: bytes) (la_thrown a) l) as [e l']. destruct Hc as (C1 & C2 & [N1 N2] & [S1 S2 _ _]).
      cbn [fst snd]. destruct Hl as [HL HB (n & Hn & HR) _].
      assert (Hg : got (es ++ LinkGot (b :: bytes) :: e) = got es ++ [b :: bytes]).
      { unfold got in *. rewrite omap_app. cbn [omap list_omap]. by rewrite N2. }
      split; rewrite ?Hg; [|done| |done].
      * unfold handed in *. rewrite omap_app. cbn [omap list_omap]. by rewrite HL, C1.
      * exists n. rewrite outage_run_app, Hn. cbn [lk_go lk_link_failed lk_reconnect_attempts]. rewrite S1, S2.
        by split; [apply N1|].
    + pose proof (fails_ok es l UartReadFailed error Hl (or_intror eq_refl)) as Hf. rewrite Ef in Hf. cbn [fst snd] in *.
      eapply link_quiet_nil; try done. unfold link_fails in Ef. injection Ef as _ <-. done.
  - rewrite app_nil_r. destruct (lk_running l) eqn:Er; by eapply link_quiet_nil.
  - rewrite app_nil_r. by eapply link_quiet_nil.
Qed.

Lemma send_neutral command sequence wanted rounds l :
  neutral (link_send cfg command sequence wanted rounds l).1 /\
  handed (link_send cfg command sequence wanted rounds l).1 = [].
Proof.
  unfold link_send. destruct (is_empty command); [done|]. cbv zeta.
  assert (Hf : forall text, neutral (link_report cfg UartWriteFailed SeverityError text 0 false) /\
    handed (link_report cfg UartWriteFailed SeverityError text 0 false) = []) by (intros; apply report_neutral; set_solver).
  destruct (sendAlertCommand mode command sequence) as [bytes|error]; [|apply Hf].
  destruct (writeAll (lk_descriptor l) bytes rounds) as [written outcome]. cbn [fst].
  destruct outcome as [[|error]|]; try done. destruct (Hf (if wanted then error else
    if bool_decide (mode = LoRaFrameMode) then "LoRa alert command write failed"
    else "UART alert command write failed")) as [H1 H2].
  split; [by apply (neutral_app [LinkPut written])|exact H2].
Qed.

Lemma link_op_ok es op l : link_ok es l -> link_ok (es ++ (link_op cfg op l).1) (link_op cfg op l).2.
Proof.
  intros Hl. unfold link_op. destruct (bool_decide (lk_phase l = LkDead)); [by rewrite app_nil_r|].
  pose proof (lo_rest _ _ Hl) as Hrest. unfold at_rest in Hrest.
  destruct op as [| | |a|command sequence wanted rounds]; cbn [fst snd]; rewrite ?app_nil_r.
  - unfold link_start. destruct (lk_running l) eqn:Er; [done|]. destruct (_ || _); [done|]. cbn [snd].
    eapply link_quiet_nil; try done. by case_bool_decide.
  - eapply link_quiet_nil; try done. unfold at_rest in *. simpl. by destruct (lk_phase l); naive_solver.
  - unfold link_join. case_bool_decide as Hp; [|done]. rewrite Hp in Hrest. eapply link_quiet_nil; try done.
    unfold at_rest. simpl. naive_solver.
  - by apply link_step_ok.
  - destruct (send_neutral command sequence wanted rounds l) as [H1 H2]. eapply quiet_ok; try done.
Qed.

Lemma link_run_ok ops es l : link_ok es l -> link_ok (es ++ (link_run cfg ops l).1) (link_run cfg ops l).2.
Proof.
  revert es l. induction ops as [|op ops IH]; intros es l Hl; cbn [link_run]; [by rewrite app_nil_r|].
  pose proof (link_op_ok es op l Hl) as H1. destruct (link_op cfg op l) as [e l1]. cbn [fst snd] in H1.
  specialize (IH _ _ H1). destruct (link_run cfg ops l1) as [es2 l2]. cbn [fst snd] in *. by rewrite app_assoc.
Qed.

(** Frames that a sensor sent, and their texts. *)
Definition sent_texts (fs : list LoRaFrame) : list string :=
  omap (fun f => if bool_decide (lf_type f = SensorEvent /\ lf_payload f <> []) then Some (string_of_bytes (lf_payload f))
              else None) fs.
Lemma sensor_lines_sent fs : sensor_lines (received <$> fs) = sent_texts fs.
Proof.
  induction fs as [|f fs IH]; [done|]. unfold sensor_lines, sent_texts in *. cbn. rewrite IH.
  destruct (decide (lf_type f = SensorEvent)) as [Ht|Ht].
  - rewrite bool_decide_eq_true_2 by done. cbn [negb]. destruct (lf_payload f) as [|b bs]; cbn.
    + by rewrite bool_decide_eq_false_2 by naive_solver.
    + by rewrite bool_decide_eq_true_2 by naive_solver.
  - rewrite bool_decide_eq_false_2 by done. cbn [negb]. by rewrite bool_decide_eq_false_2 by naive_solver.
Qed.


(** * The end of the thread *)

Lemma consume_neutral bytes thrown l :
  let '(es, l') := link_consume cfg bytes thrown l in neutral es /\ same_outage l l'.
Proof.
  unfold link_consume. case_bool_decide.
  - destruct (consumeLoRaFrames (lk_lora l) bytes) as [[lines rejected] driver]. split; [|done]. apply neutral_app.
    + destruct (rejected =? 0)%N; [done|]. apply report_neutral. set_solver.
    + apply handle_lines_ok.
  - destruct (consumeUartLines (lk_line_buffer l) (string_of_bytes bytes)) as [[lines overflow] buffer]. split; [|done].
    apply neutral_app; [|apply handle_lines_ok]. destruct overflow; [|done]. apply report_neutral. set_solver.
Qed.

(** The calls of the device return: neither is interrupted for ever. *)
Definition answered (a : LinkAnswers) : Prop := repeat_poll (la_polls a) <> None /\ repeat_read (la_reads a) <> None.

Lemma answered_returns descriptor a : answered a -> readSome descriptor 512 (la_polls a) (la_reads a) <> None.
Proof.
  intros [Hp Hr]. unfold readSome. destruct descriptor; [|done]. cbn [negb Nat.eqb].
  assert (Hp' : repeat_poll (la_polls a) <> Some PollInterrupted) by (clear; induction (la_polls a) as [|[] ? ?]; done).
  assert (Hr' : repeat_read (la_reads a) <> Some ReadInterrupted) by (clear; induction (la_reads a) as [|[] ? ?]; done).
  destruct (repeat_poll (la_polls a)) as [[| | |[] []]|]; try done.
  by destruct (repeat_read (la_reads a)) as [[]|].
Qed.

Definition rank (ph : LinkPhase) : nat :=
  match ph with LkRead => 3 | LkTop | LkWait => 2 | LkClose => 1 | _ => 0 end.
Definition threaded (ph : LinkPhase) : Prop := match ph with LkNone | LkDead => False | _ => True end.

Lemma stopping_step a l : answered a -> lk_running l = false -> threaded (lk_phase l) ->
  (lk_phase l = LkEnded -> lk_descriptor l = false) ->
  let '(es, l') := link_step cfg a l in
  lk_running l' = false /\ threaded (lk_phase l') /\ (rank (lk_phase l') <= rank (lk_phase l) - 1)%nat /\
  (lk_phase l' = LkEnded -> lk_descriptor l' = false) /\ lk_phase l' <> LkRead /\
  (length (got es) <= if bool_decide (lk_phase l = LkRead) then 1 else 0)%nat.
Proof.
  intros Ha Hr Ht Hd. unfold link_step. destruct (lk_phase l) eqn:Ep; try done; rewrite ?Hr; cbn [negb].
  - split_and!; try done; simpl; lia.
  - pose proof (answered_returns (lk_descriptor l) a Ha) as Hs.
    destruct (readSome (lk_descriptor l) 512 (la_polls a) (la_reads a)) as [[bytes|error]|]; [| |done].
    + destruct bytes as [|b bytes]; [split_and!; try done; simpl; lia|].
      pose proof (consume_neutral (b :: bytes) (la_thrown a) l) as Hc.
      destruct (link_consume cfg (b :: bytes) (la_thrown a) l) as [e l']. destruct Hc as ([_ N2] & [_ _ S3 S4]).
      split_and!; try done; [by rewrite <- Hr|]. change (S (length (got e)) <= 1)%nat. by rewrite N2.
    + unfold link_fails, link_report. destruct (negb (lc_reporter cfg)); split_and!; try done; simpl; lia.
  - split_and!; try done; simpl; lia.
  - by split_and!; rewrite ?Ep.
Qed.

(** A thread that is told to stop ends within three steps that return, hands on the lines of at most one more read, and
    gives the device back. *)
Theorem link_stops l answers : lk_running l = false -> threaded (lk_phase l) -> lk_phase l <> LkEnded ->
  Forall answered answers -> (3 <= length answers)%nat ->
  let '(es, l') := link_run cfg (LoStep <$> answers) l in
  lk_phase l' = LkEnded /\ lk_descriptor l' = false /\ (length (got es) <= 1)%nat.
Proof.
  intros Hr Ht He Ha Hlen.
  assert (Hgen : forall answers l, Forall answered answers -> lk_running l = false -> threaded (lk_phase l) ->
    (lk_phase l = LkEnded -> lk_descriptor l = false) -> (rank (lk_phase l) <= length answers)%nat ->
    let '(es, l') := link_run cfg (LoStep <$> answers) l in
    lk_phase l' = LkEnded /\ lk_descriptor l' = false /\
    (length (got es) <= if bool_decide (lk_phase l = LkRead) then 1 else 0)%nat).
  { clear. intros answers. induction answers as [|a answers IH]; intros l Ha Hr Ht Hd Hk; cbn [fmap list_fmap link_run].
    - simpl in Hk. assert (He : lk_phase l = LkEnded) by (destruct (lk_phase l); simpl in *; done || lia).
      rewrite He. split_and!; [done|by apply Hd|simpl; lia].
    - apply Forall_cons in Ha as [Ha Has]. unfold link_op. rewrite bool_decide_eq_false_2 by (destruct (lk_phase l); done).
      pose proof (stopping_step a l Ha Hr Ht Hd) as Hs. destruct (link_step cfg a l) as [e l1].
      destruct Hs as (S1 & S2 & S3 & S4 & S5 & S6). specialize (IH l1 Has S1 S2 S4 ltac:(simpl in Hk; lia)).
      destruct (link_run cfg (LoStep <$> answers) l1) as [es l2]. destruct IH as (I1 & I2 & I3). split_and!; [done|done|].
      rewrite (bool_decide_eq_false_2 (lk_phase l1 = LkRead)) in I3 by done.
      unfold got in *. rewrite omap_app, length_app. lia. }
  specialize (Hgen answers l Ha Hr Ht ltac:(done)). destruct (link_run cfg (LoStep <$> answers) l) as [es l'].
  destruct Hgen as (H1 & H2 & H3); [destruct (lk_phase l); simpl; lia|]. split_and!; [done|done|]. case_bool_decide; lia.
Qed.

Lemma command_bytes command sequence bytes : sendAlertCommand mode command sequence = Ok bytes -> bytes <> [].
Proof.
  unfold sendAlertCommand. destruct command as [|c command]; [done|]. cbn [is_empty].
  assert (He : forall f b, encode f = Ok b -> b <> []).
  { intros f b. unfold encode. repeat case_match; try done. by intros [= <-]. }
  destruct mode; [|by intros [= <-]; destruct (ends_with_newline _)|].
  - intros [= <-]. by destruct (ends_with_newline _).
  - destruct (resolveAlertDestination _) as [d|]; [|apply He]. unfold lora_sendTo. destruct (encode _) as [b|]; [|done].
    by intros [= <-].
Qed.

(** A command goes out as a whole, without a report; or a proper beginning of it goes out (or nothing, if it cannot be made
    into bytes) and the failure is answered and, if there is a reporter, reported once. *)
Theorem command_sent_whole command sequence wanted rounds l bytes :
  sendAlertCommand mode command sequence = Ok bytes -> command <> "" ->
  let '(es, outcome) := link_send cfg command sequence wanted rounds l in
  exists written rest, bytes = written ++ rest /\
    match outcome with
    | Some (Ok _) => es = [LinkPut written] /\ rest = []
    | Some (Err error) =>
        rest <> [] /\ exists text, es = LinkPut written :: link_report cfg UartWriteFailed SeverityError text 0 false
    | None => rest <> [] /\ es = [LinkPut written]
    end.
Proof.
  intros Hb Hc. unfold link_send. rewrite Hb. destruct command as [|c command]; [done|]. cbn [is_empty]. cbv zeta.
  unfold writeAll. destruct (lk_descriptor l); cbn [negb].
  - pose proof (write_rounds_prefix bytes rounds) as Hp. destruct (write_rounds bytes rounds) as [written outcome].
    destruct Hp as (rest & Hd & Ho). exists written, rest. split; [done|].
    destruct outcome as [[[]|error]|].
    + by split; [|apply Ho].
    + split; [by intros ->; assert (Some (Err error) = Some (Ok tt)) by (by apply Ho)|by eexists].
    + split; [by intros ->; assert (None = Some (Ok (E := string) tt)) by (by apply Ho)|done].
  - exists [], bytes. split; [done|]. split; [|by eexists]. by eapply command_bytes.
Qed.
End Safety.

(** * Examples and witnesses *)

Notation demo_link := (mkLinkConfig UartLine (mkUartConfig "/dev/ttyAMA0" 115200) true true).
Notation opens := (mkLinkAnswers Opened [] [] []).
Notation reads text := (mkLinkAnswers Opened [PollInterrupted; PollReady false true] [ReadBytes (bytes_of_string text)] []).
Notation hangs_up := (mkLinkAnswers Opened [PollReady true false] [ReadAgain] []).
Notation cannot_open := (mkLinkAnswers (OpenFailed "No such device") [] [] []).
Notation demo_report code severity message count recovered :=
  (LinkReport (mkSystemEvent SourceUart code severity "" "uart-line" "/dev/ttyAMA0" message count 0 0 recovered)).

(** Two failures, a recovery that counts them, a message, and the end. *)
Notation demo_ops :=
  [LoStart; LoStep cannot_open; LoStep opens; LoStep cannot_open; LoStep opens; LoStep opens;
   LoStep (reads ("SENSOR:H01:OCCUPIED" +:+ String carriage_return (String newline_char "SENS"))); LoStop; LoStep opens;
   LoStep opens; LoJoin].
Example outage_run_example :
  let '(es, l) := link_run demo_link demo_ops new_link in
  handed es = [("SENSOR:H01:OCCUPIED", "uart")] /\
  omap (fun e => match e with LinkReport r => Some (se_code r, se_retry_count r) | _ => None end) es =
    [(UartOpenFailed, 1%N); (UartOpenFailed, 2%N); (UartRecovered, 2%N)] /\
  l = mkLink false false "SENS" lora_init 0 false LkNone.
Proof. vm_compute. repeat split. Qed.

Notation demo_lora := (mkLinkConfig LoRaFrameMode (mkUartConfig "/dev/ttyAMA0" 115200) true true).
Notation demo_frame := (sensor_frame 7 "SENSOR:H01:VACANT").
Notation demo_lora_ops :=
  [LoStart; LoStep opens; LoStep (reads (string_of_bytes (take 9 (wire demo_frame)))); LoStep opens;
   LoStep (reads (string_of_bytes (drop 9 (wire demo_frame) ++ [0; 170])))].

(** The buffer of a broken line is not emptied when the device is opened again, which drops what came in between: here the
    sensors sent that the first place is occupied and the second is vacant, and the server is told that the first is. *)
Example halves_are_joined :
  let '(es, l) := link_run demo_link
    [LoStart; LoStep opens; LoStep (reads "SENSOR:H01:"); LoStep opens; LoStep hangs_up; LoStep opens; LoStep opens;
     LoStep (reads ("VACANT" +:+ String newline_char ""))] new_link in
  handed es = [(render (HallBare "H01" Vacant), "uart")].
Proof. vm_compute. reflexivity. Qed.

(** A start while a stopped thread was not joined replaces a joinable thread. *)
Example start_while_stopping : lk_phase (link_run demo_link [LoStart; LoStop; LoStart] new_link).2 = LkDead.
Proof. vm_compute. reflexivity. Qed.

(** A command of four bytes of which the device takes two. *)
Example command_torn :
  link_send demo_link "CMD" 0 true [WriteRepeat; Wrote 1; WriteTimeout] (lk_set_descriptor true new_link) =
  ([LinkPut [67; 77]; demo_report UartWriteFailed SeverityError "UART write timeout" 0 false],
   Some (Err "UART write timeout")).
Proof. vm_compute. reflexivity. Qed.
