(* ===== verification/FireInvariant.v ===== *)
(** The invariant that ties the durable state of a fire channel to its deliveries, and its
    preservation by the operations of FireStore and FireService: every channel has one
    state row and one retained delivery that agree, and one lifecycle delivery for every
    revision after the first. *)
From S2P Require Import Prelude SensorProtocol SequencePolicy SlotConfig OccupancyDb FireStore FireService.

(** * Identifiers *)

Lemma digits_no_colon d : sall isdigit d = true -> forall s t, d <> s +:+ String ":"%char t.
Proof.
  intros Hd s t ->. rewrite sall_app in Hd. apply andb_prop in Hd as [_ Hd]. done.
Qed.

Lemma colon_split a b d e :
  sall isdigit d = true -> sall isdigit e = true ->
  a +:+ String ":"%char d = b +:+ String ":"%char e -> a = b /\ d = e.
Proof.
  revert b. induction a as [|c a IH]; intros [|c' b] Hd He; simpl; intros [=]; subst.
  - done.
  - by destruct (digits_no_colon _ Hd b e).
  - by destruct (digits_no_colon _ He a d).
  - destruct (IH b Hd He) as [-> ->]; done.
Qed.

Lemma fireEventId_inj ch ch' k k' : fireEventId ch k = fireEventId ch' k' -> ch = ch' /\ k = k'.
Proof.
  unfold fireEventId. cbn. intros [=H].
  destruct (colon_split _ _ _ _ (pretty_N_digits k) (pretty_N_digits k') H) as [-> Hk].
  split; [done|by apply pretty_N_inj].
Qed.

Lemma retainedDeliveryId_inj ch ch' : retainedDeliveryId ch = retainedDeliveryId ch' -> ch = ch'.
Proof. unfold retainedDeliveryId. cbn. by intros [=]. Qed.
Lemma lifecycleDeliveryId_inj e e' : lifecycleDeliveryId e = lifecycleDeliveryId e' -> e = e'.
Proof. unfold lifecycleDeliveryId. cbn. by intros [=]. Qed.
Lemma delivery_ids_differ ch e : retainedDeliveryId ch <> lifecycleDeliveryId e.
Proof. unfold retainedDeliveryId, lifecycleDeliveryId. cbn. by intros [=]. Qed.

(** * Rows and records *)

Lemma lifecycle_name_roundtrip l : fireAlarmLifecycleFromString (lifecycle_name l) = Some l.
Proof. by destruct l. Qed.
Lemma mode_name_roundtrip m : fireProtocolModeFromString (mode_name m) = Some m.
Proof. by destruct m. Qed.
Lemma sink_name_roundtrip k : fireDeliverySinkFromString (sink_name k) = Some k.
Proof. by destruct k. Qed.
Lemma delivery_name_roundtrip d : fireDeliveryStateFromString (delivery_name d) = Some d.
Proof. by destruct d. Qed.

Lemma parseUnsigned_pretty n : (n <= uint64_max)%N -> parseUnsigned (pretty n) = Some n.
Proof. intros Hn. unfold parseUnsigned. by rewrite digits_value_pretty, bool_decide_eq_true_2. Qed.

(** The widths of the numbers of a state record. *)
Definition state_wf (s : FireAlarmStateRecord) : Prop :=
  (0 < fas_fireRevision s <= kMaxFireRevision)%N /\
  (forall n, fas_lastSourceSequence s = Some n -> (n <= uint64_max)%N).

Definition srow (s : FireAlarmStateRecord) : FireStateRow :=
  state_row s (Z.of_N (fas_fireRevision s)).

Lemma checkedInt64_ok n field : (n <= kMaxFireRevision)%N -> checkedInt64 n field = Ok (Z.of_N n).
Proof. intros. unfold checkedInt64. rewrite bool_decide_eq_false_2; [done|lia]. Qed.

(** What was written to the state table is read back. *)
Lemma readState_srow s : state_wf s -> readState (fas_channelId s) (srow s) = Ok s.
Proof.
  intros [Hr Hn]. unfold readState, srow, state_row. cbn [fs_desired_lifecycle fs_protocol_mode
    fs_fire_revision fs_last_source_sequence fs_active_alarm_id fs_sensor_id fs_retained_topic
    fs_last_event_id fs_active_boot_id fs_last_signal_json fs_updated_at].
  rewrite lifecycle_name_roundtrip, mode_name_roundtrip.
  destruct (Z.leb_spec (Z.of_N (fas_fireRevision s)) 0) as [H|_]; [lia|].
  assert (parseOptionalSequence (pretty <$> fas_lastSourceSequence s)
          = Ok (fas_lastSourceSequence s)) as ->.
  { destruct (fas_lastSourceSequence s) as [n|]; [|done]. simpl.
    by rewrite parseUnsigned_pretty by eauto. }
  simpl. rewrite N2Z.id. destruct s as [? ? ? ? alarm ? ? ? ? ? ? ?]. simpl. by destruct alarm.
Qed.

Definition outbox_row_ok (row : FireOutboxRow) : Prop :=
  (exists k, fo_sink_kind row = sink_name k) /\ (exists d, fo_delivery_state row = delivery_name d) /\
  0 < fo_fire_revision row <= Z.of_N kMaxFireRevision /\ 0 <= fo_attempt_count row /\
  fo_qos row = 1 /\ (forall a, fo_acked_revision row = Some a -> 0 < a).

(** The record that a well-formed row is read as. *)
Definition delivery_of (key : string) (row : FireOutboxRow) : FireOutboxRecord :=
  mkFireOutboxRecord key (default LifecycleEvent (fireDeliverySinkFromString (fo_sink_kind row)))
    (fo_logical_key row) (fo_sensor_id row) (fo_channel_id row) (fo_event_id row)
    (fo_alarm_id row) (Z.to_N (fo_fire_revision row)) (fo_topic row) (fo_payload_json row)
    (fo_qos row) (negb (fo_retain row =? 0)) (Z.to_N (fo_attempt_count row))
    (fo_next_attempt_at row) (fo_last_error row)
    (default DeliveryPending (fireDeliveryStateFromString (fo_delivery_state row)))
    (Z.to_N <$> fo_acked_revision row) (fo_created_at row) (fo_updated_at row).

Lemma readDelivery_ok key row : outbox_row_ok row -> readDelivery key row = Ok (delivery_of key row).
Proof.
  intros ((k & Hk) & (d & Hd) & Hr & Ha & _ & Hack). unfold readDelivery, delivery_of.
  rewrite Hk, Hd, sink_name_roundtrip, delivery_name_roundtrip. simpl.
  destruct (Z.leb_spec (fo_fire_revision row) 0); [lia|].
  destruct (Z.ltb_spec (fo_attempt_count row) 0); [lia|]. simpl.
  destruct (fo_acked_revision row) as [a|]; [|done]. specialize (Hack a eq_refl).
  destruct (Z.leb_spec a 0); [lia|done].
Qed.

Lemma delivery_of_retained key row :
  fo_sink_kind row = "RETAINED_STATE" -> fob_sinkKind (delivery_of key row) = RetainedState.
Proof. unfold delivery_of. simpl. by intros ->. Qed.

(** * The invariant *)

(** A usable mapping: identifiers are present and one-to-one. *)
Record bindings_ok (bs : list FireChannelBinding) : Prop := {
  bo_channels : NoDup (fcb_channelId <$> bs);
  bo_sensors : NoDup (fcb_sensorId <$> bs);
  bo_topics : NoDup (fcb_retainedTopic <$> bs);
  bo_present : Forall (fun b => fcb_channelId b <> "" /\ fcb_sensorId b <> "" /\
                                fcb_retainedTopic b <> "") bs
}.

Definition retained_row_for (b : FireChannelBinding) (s : FireAlarmStateRecord)
    (row : FireOutboxRow) : Prop :=
  fo_sink_kind row = "RETAINED_STATE" /\ fo_logical_key row = fcb_retainedTopic b /\
  fo_sensor_id row = fcb_sensorId b /\ fo_channel_id row = fcb_channelId b /\
  fo_event_id row = fas_lastEventId s /\ fo_fire_revision row = Z.of_N (fas_fireRevision s) /\
  fo_topic row = fcb_retainedTopic b.

Definition lifecycle_row_for (channel : string) (k : N) (row : FireOutboxRow) : Prop :=
  fo_sink_kind row = "LIFECYCLE_EVENT" /\ fo_channel_id row = channel /\
  fo_logical_key row = fireEventId channel k /\ fo_event_id row = fireEventId channel k /\
  fo_fire_revision row = Z.of_N k.

(** The state [s] of the channel of [b] and its deliveries. *)
Record channel_ok (b : FireChannelBinding) (s : FireAlarmStateRecord) (db : FireDb) : Prop := {
  co_row : fd_states db !! fcb_channelId b = Some (srow s);
  co_channel : fas_channelId s = fcb_channelId b;
  co_sensor : fas_sensorId s = fcb_sensorId b;
  co_topic : fas_retainedTopic s = fcb_retainedTopic b;
  co_wf : state_wf s;
  co_alarm : activeLifecycle (fas_desiredLifecycle s) = negb (is_empty (fas_activeAlarmId s));
  co_event : fas_lastEventId s = fireEventId (fcb_channelId b) (fas_fireRevision s);
  co_signal : fas_lastSignalJson s <> "";
  co_retained : exists row, fd_outbox db !! retainedDeliveryId (fcb_channelId b) = Some row /\
    retained_row_for b s row;
  co_lifecycle : forall k, (2 <= k <= fas_fireRevision s)%N -> exists row,
    fd_outbox db !! lifecycleDeliveryId (fireEventId (fcb_channelId b) k) = Some row /\
    lifecycle_row_for (fcb_channelId b) k row
}.

(** What an outbox row is for. *)
Definition outbox_owner (bs : list FireChannelBinding) (db : FireDb) (key : string)
    (row : FireOutboxRow) : Prop :=
  exists b srow, b ∈ bs /\ fo_channel_id row = fcb_channelId b /\
    fd_states db !! fcb_channelId b = Some srow /\
    ((key = retainedDeliveryId (fcb_channelId b) /\ fo_sink_kind row = "RETAINED_STATE" /\
      fo_logical_key row = fcb_retainedTopic b) \/
     exists k, (2 <= k)%N /\ Z.of_N k <= fs_fire_revision srow /\
       key = lifecycleDeliveryId (fireEventId (fcb_channelId b) k) /\
       lifecycle_row_for (fcb_channelId b) k row).

Record fire_ok (bs : list FireChannelBinding) (db : FireDb) : Prop := {
  fk_open : fd_open db = true;
  fk_channels : forall b, b ∈ bs -> exists s, channel_ok b s db;
  fk_states : forall ch row, fd_states db !! ch = Some row -> exists b, b ∈ bs /\ fcb_channelId b = ch;
  fk_outbox : forall key row, fd_outbox db !! key = Some row ->
    outbox_row_ok row /\ outbox_owner bs db key row
}.

Section Invariant.
Variable bs : list FireChannelBinding.
Hypothesis Hbs : bindings_ok bs.

Lemma binding_present b : b ∈ bs ->
  fcb_channelId b <> "" /\ fcb_sensorId b <> "" /\ fcb_retainedTopic b <> "".
Proof. destruct Hbs as [_ _ _ H]. rewrite Forall_forall in H. apply H. Qed.

Lemma binding_channel_inj b b' :
  b ∈ bs -> b' ∈ bs -> fcb_channelId b = fcb_channelId b' -> b = b'.
Proof. apply (NoDup_fmap_inj_on fcb_channelId), bo_channels, Hbs. Qed.

Lemma find_spec (p : FireChannelBinding -> bool) b :
  List.find p bs = Some b -> b ∈ bs /\ p b = true.
Proof. intros H. apply find_some in H as [H ?]. by rewrite list_elem_of_In. Qed.

Lemma findByChannel_some ch b : findByChannel bs ch = Some b -> b ∈ bs /\ fcb_channelId b = ch.
Proof. unfold findByChannel. intros [? ?]%find_spec. by split_bool. Qed.
Lemma findBySensor_some id b : findBySensor bs id = Some b -> b ∈ bs /\ fcb_sensorId b = id.
Proof. unfold findBySensor. intros [? ?]%find_spec. by split_bool. Qed.

Lemma findByChannel_in b : b ∈ bs -> findByChannel bs (fcb_channelId b) = Some b.
Proof.
  intros Hb. destruct (findByChannel bs (fcb_channelId b)) as [b'|] eqn:E.
  - destruct (findByChannel_some _ _ E) as [Hb' He]. by rewrite (binding_channel_inj b b').
  - unfold findByChannel in E. apply list_elem_of_In in Hb. apply (find_none _ _ E) in Hb.
    by apply bool_decide_eq_false_1 in Hb.
Qed.

(** Reading the state of a channel. *)
Lemma channel_select b s db : channel_ok b s db -> selectState db (fcb_channelId b) = Ok (Some s).
Proof.
  intros H. unfold selectState. rewrite (co_row _ _ _ H). rewrite <-(co_channel _ _ _ H).
  by rewrite (readState_srow _ (co_wf _ _ _ H)).
Qed.

Lemma channel_get b s db :
  fire_ok bs db -> b ∈ bs -> channel_ok b s db ->
  getFireAlarmState db (fcb_channelId b) = Ok (Some s).
Proof.
  intros Hok Hb H. unfold getFireAlarmState. rewrite (fk_open _ _ Hok), orb_false_r.
  destruct (binding_present b Hb) as [Hne _].
  rewrite (is_empty_false _ Hne). by apply channel_select.
Qed.

Lemma channel_unique b s s' db : channel_ok b s db -> channel_ok b s' db -> s = s'.
Proof.
  intros H H'. pose proof (channel_select _ _ _ H) as E.
  rewrite (channel_select _ _ _ H') in E. congruence.
Qed.

Lemma outbox_row_read db key row :
  fire_ok bs db -> fd_outbox db !! key = Some row ->
  selectDelivery db key = Ok (Some (delivery_of key row)).
Proof.
  intros Hok Hrow. unfold selectDelivery. rewrite Hrow.
  destruct (fk_outbox _ _ Hok _ _ Hrow) as [Hwf _]. by rewrite readDelivery_ok.
Qed.

(** * Operations that only move deliveries along *)

(** Two rows with the same contents, whatever their delivery columns. *)
Definition same_contents (r r' : FireOutboxRow) : Prop :=
  fo_progress r' (fo_attempt_count r) (fo_next_attempt_at r) (fo_last_error r)
    (fo_delivery_state r) (fo_acked_revision r) (fo_updated_at r) = r.

Lemma same_contents_progress r a n e d k u : same_contents r (fo_progress r a n e d k u).
Proof. by destruct r. Qed.
Lemma same_contents_refl r : same_contents r r.
Proof. by destruct r. Qed.

Lemma same_contents_fields r r' : same_contents r r' ->
  fo_sink_kind r = fo_sink_kind r' /\ fo_logical_key r = fo_logical_key r' /\
  fo_sensor_id r = fo_sensor_id r' /\ fo_channel_id r = fo_channel_id r' /\
  fo_event_id r = fo_event_id r' /\ fo_fire_revision r = fo_fire_revision r' /\
  fo_topic r = fo_topic r' /\ fo_payload_json r = fo_payload_json r' /\
  fo_alarm_id r = fo_alarm_id r' /\ fo_qos r = fo_qos r' /\ fo_created_at r = fo_created_at r'.
Proof. destruct r, r'. unfold same_contents, fo_progress. simpl. intros [=]. by subst. Qed.

(** A step that leaves the state rows alone and moves delivery columns. *)
Record delivery_step (db db' : FireDb) : Prop := {
  ds_open : fd_open db' = fd_open db;
  ds_states : fd_states db' = fd_states db;
  ds_retired : fd_retired db' = fd_retired db;
  ds_rows : forall key, match fd_outbox db !! key, fd_outbox db' !! key with
                        | Some r, Some r' => same_contents r r' /\ (outbox_row_ok r -> outbox_row_ok r')
                        | None, None => True
                        | _, _ => False
                        end
}.

Lemma delivery_step_refl db : delivery_step db db.
Proof.
  split; try done. intros key. destruct (fd_outbox db !! key); [|done].
  split; [apply same_contents_refl|done].
Qed.

Lemma delivery_step_row db db' key r :
  delivery_step db db' -> fd_outbox db !! key = Some r ->
  exists r', fd_outbox db' !! key = Some r' /\ same_contents r r'.
Proof.
  intros H Hr. pose proof (ds_rows _ _ H key) as Hk. rewrite Hr in Hk.
  destruct (fd_outbox db' !! key) as [r'|]; [|done]. exists r'. by destruct Hk.
Qed.

Lemma channel_ok_delivery b s db db' :
  delivery_step db db' -> channel_ok b s db -> channel_ok b s db'.
Proof.
  intros Hd H. destruct H as [Hrow Hch Hse Hto Hwf Hal Hev Hsi (r & Hr & Hret) Hlife].
  split; try done; [by rewrite (ds_states _ _ Hd)| |].
  - destruct (delivery_step_row _ _ _ _ Hd Hr) as (r' & Hr' & Hs). exists r'. split; [done|].
    apply same_contents_fields in Hs. unfold retained_row_for in *. naive_solver congruence.
  - intros k Hk. destruct (Hlife k Hk) as (l & Hl & Hfor).
    destruct (delivery_step_row _ _ _ _ Hd Hl) as (l' & Hl' & Hs). exists l'. split; [done|].
    apply same_contents_fields in Hs. unfold lifecycle_row_for in *. naive_solver congruence.
Qed.

Lemma fire_ok_delivery db db' : delivery_step db db' -> fire_ok bs db -> fire_ok bs db'.
Proof.
  intros Hd [Ho Hc Hst Hout]. split.
  - by rewrite (ds_open _ _ Hd).
  - intros b Hb. destruct (Hc b Hb) as [s Hs]. exists s. by apply (channel_ok_delivery _ _ db).
  - by rewrite (ds_states _ _ Hd).
  - intros key r' Hr'. pose proof (ds_rows _ _ Hd key) as Hk. rewrite Hr' in Hk.
    destruct (fd_outbox db !! key) as [r|] eqn:Hr; [|done]. destruct Hk as [Hs Hok].
    destruct (Hout key r Hr) as [Hrow (b & sr & Hb & Hch & Hsr & Hcase)].
    split; [by apply Hok|]. apply same_contents_fields in Hs.
    exists b, sr. rewrite (ds_states _ _ Hd). split; [done|]. split; [naive_solver congruence|].
    split; [done|]. destruct Hcase as [Hc1|(k & Hk1 & Hk2 & Hk3 & Hk4)];
      [left; naive_solver congruence|].
    right. exists k. split; [done|]. split; [done|]. split; [done|].
    unfold lifecycle_row_for in *. naive_solver congruence.
Qed.

Lemma update_delivery_step db key rev p f :
  (forall r, outbox_row_ok r -> outbox_row_ok (f r)) -> (forall r, same_contents r (f r)) ->
  delivery_step db (update_delivery db key rev p f).2.
Proof.
  intros Hf Hs. unfold update_delivery. destruct (_ || _)%bool; [apply delivery_step_refl|].
  destruct (checkedInt64 _ _) as [z|]; [|apply delivery_step_refl].
  destruct (fd_outbox db !! key) as [row|] eqn:Hrow; [|apply delivery_step_refl].
  destruct (_ && _)%bool; [|apply delivery_step_refl]. split; try done. simpl. intros key'.
  destruct (decide (key' = key)) as [->|Hne].
  - rewrite Hrow, lookup_insert_eq. auto.
  - rewrite lookup_insert_ne by done. destruct (fd_outbox db !! key') as [r|]; [|done].
    split; [apply same_contents_refl|done].
Qed.

Lemma row_ok_progress r a n e d k u :
  0 <= a -> (forall x, k = Some x -> 0 < x) ->
  outbox_row_ok r -> outbox_row_ok (fo_progress r a n e (delivery_name d) k u).
Proof. unfold outbox_row_ok. destruct r. simpl. naive_solver. Qed.

Lemma markInFlight_step stamp key rev db :
  delivery_step db (markFireDeliveryInFlight stamp key rev db).2.
Proof.
  apply update_delivery_step; [|intros; apply same_contents_progress].
  intros r Hr. apply (row_ok_progress _ _ _ _ DeliveryInFlight);
    unfold outbox_row_ok in *; naive_solver lia.
Qed.
Lemma markPending_step stamp key rev error db :
  delivery_step db (markFireDeliveryPending stamp key rev error db).2.
Proof.
  apply update_delivery_step; [|intros; apply same_contents_progress].
  intros r Hr. apply (row_ok_progress _ _ _ _ DeliveryPending);
    unfold outbox_row_ok in *; naive_solver lia.
Qed.
Lemma acknowledge_step stamp key rev db :
  delivery_step db (acknowledgeFireDelivery stamp key rev db).2.
Proof.
  destruct (decide (rev = 0%N)) as [->|Hrev].
  - unfold acknowledgeFireDelivery, update_delivery. simpl. rewrite orb_true_r.
    apply delivery_step_refl.
  - apply update_delivery_step; [|intros; apply same_contents_progress].
    intros r Hr. apply (row_ok_progress _ _ _ _ DeliveryAcknowledged); [|intros ? [= <-]; lia|done].
    unfold outbox_row_ok in *. naive_solver.
Qed.
Lemma reset_step stamp db : delivery_step db (resetFireInFlightDeliveries stamp db).2.
Proof.
  unfold resetFireInFlightDeliveries. destruct (fd_open db) eqn:Ho; simpl; [|apply delivery_step_refl].
  split; try done. simpl. intros key. unfold update_rows. rewrite lookup_fmap.
  destruct (fd_outbox db !! key) as [r|]; [|done]. simpl.
  case_bool_decide; [|split; [apply same_contents_refl|done]].
  split; [apply same_contents_progress|]. intros Hr.
  apply (row_ok_progress _ _ _ _ DeliveryPending); unfold outbox_row_ok in *; naive_solver.
Qed.

(** * One mutation of a channel *)

(** The cursor part of a channel changes and nothing else: no deliveries. *)
Lemma state_update b s next db m :
  channel_ok b s db -> fas_channelId next = fcb_channelId b -> fas_sensorId next = fas_sensorId s ->
  fas_retainedTopic next = fas_retainedTopic s -> state_wf next ->
  fmu_nextState m = next -> fmu_expectedRevision m = fas_fireRevision s ->
  update_state db m = Ok (with_states db (<[fcb_channelId b := srow next]> (fd_states db))).
Proof.
  intros H Hch Hse Hto Hwf Hm He. unfold update_state. rewrite Hm, He, Hch, (co_row _ _ _ H).
  destruct (co_wf _ _ _ H) as [Hs _]. destruct Hwf as [Hn _].
  rewrite !checkedInt64_ok by lia. simpl. rewrite Z.eqb_refl. simpl.
  destruct (Z.leb_spec (Z.of_N (fas_fireRevision next)) 0); [lia|].
  unfold srow, state_row. by rewrite Hse, Hto.
Qed.

Lemma list_existsb_false {A} (f : A -> bool) l : (forall x, x ∈ l -> f x = false) -> existsb f l = false.
Proof.
  intros H. induction l as [|x l IH]; [done|]. simpl. rewrite H by by left.
  apply IH. intros y Hy. apply H. by right.
Qed.

(** The row that [update_retained] leaves. *)
Definition renewed_row (row : FireOutboxRow) (d : FireOutboxRecord) : FireOutboxRow :=
  mkFireOutboxRow (fo_sink_kind row) (fo_logical_key row) (fob_sensorId d) (fob_channelId d)
    (fob_eventId d) (fob_alarmId d) (Z.of_N (fob_fireRevision d)) (fob_topic d)
    (fob_payloadJson d) 1 1 0 (fob_nextAttemptAt d) "" "PENDING" (fo_acked_revision row)
    (fo_created_at row) (fob_updatedAt d).

(** The database after a transition of the channel of [b]. *)
Definition transitioned (db : FireDb) (b : FireChannelBinding) (next : FireAlarmStateRecord)
    (row : FireOutboxRow) (R L : FireOutboxRecord) : FireDb :=
  mkFireDb (fd_open db) (<[fcb_channelId b := srow next]> (fd_states db))
    (<[fob_deliveryKey L := outbox_row L (Z.of_N (fob_fireRevision L)) 0 None]>
       (<[fob_deliveryKey R := renewed_row row R]> (fd_outbox db))) (fd_retired db).

(** The two deliveries that belong to the state [next] of the channel of [b]. *)
Record deliveries_for (b : FireChannelBinding) (next : FireAlarmStateRecord)
    (R L : FireOutboxRecord) : Prop := {
  df_r : fob_deliveryKey R = retainedDeliveryId (fcb_channelId b) /\ fob_sinkKind R = RetainedState /\
    fob_logicalKey R = fcb_retainedTopic b /\ fob_sensorId R = fcb_sensorId b /\
    fob_channelId R = fcb_channelId b /\ fob_eventId R = fas_lastEventId next /\
    fob_fireRevision R = fas_fireRevision next /\ fob_topic R = fcb_retainedTopic b;
  df_l : fob_deliveryKey L = lifecycleDeliveryId (fas_lastEventId next) /\
    fob_sinkKind L = LifecycleEvent /\ fob_logicalKey L = fas_lastEventId next /\
    fob_channelId L = fcb_channelId b /\ fob_eventId L = fas_lastEventId next /\
    fob_fireRevision L = fas_fireRevision next /\ fob_attemptCount L = 0%N /\
    fob_acknowledgedRevision L = None /\ fob_qos L = 1
}.

Lemma lifecycle_id_free b s db :
  fire_ok bs db -> b ∈ bs -> channel_ok b s db ->
  fd_outbox db !! lifecycleDeliveryId (fireEventId (fcb_channelId b) (fas_fireRevision s + 1)) = None.
Proof.
  intros Hok Hb H. destruct (fd_outbox db !! _) as [row|] eqn:E; [|done]. exfalso.
  destruct (fk_outbox _ _ Hok _ _ E) as [_ (b' & sr & Hb' & _ & Hsr & [(Hkey & _)|(k & _ & Hk & Hkey & _)])].
  - by apply (delivery_ids_differ _ _ (eq_sym Hkey)).
  - apply lifecycleDeliveryId_inj, fireEventId_inj in Hkey as [Hch <-].
    rewrite <-Hch, (co_row _ _ _ H) in Hsr. injection Hsr as <-. simpl in Hk. lia.
Qed.

(** No other row clashes with the new lifecycle delivery. *)
Lemma lifecycle_no_clash b s next db row R L :
  fire_ok bs db -> b ∈ bs -> channel_ok b s db -> deliveries_for b next R L ->
  fas_fireRevision next = (fas_fireRevision s + 1)%N -> (fas_fireRevision s < kMaxFireRevision)%N ->
  fas_lastEventId next = fireEventId (fcb_channelId b) (fas_fireRevision next) ->
  fd_outbox db !! fob_deliveryKey R = Some row -> fo_sink_kind row = "RETAINED_STATE" ->
  outbox_clash (mkFireDb (fd_open db) (<[fcb_channelId b := srow next]> (fd_states db))
      (<[fob_deliveryKey R := renewed_row row R]> (fd_outbox db)) (fd_retired db))
    (fob_deliveryKey L) (outbox_row L (Z.of_N (fob_fireRevision L)) 0 None) = false.
Proof.
  intros Hok Hb H [Hr Hl] Hrev Hmax Hev Hrow Hsink.
  destruct Hr as (HRk & _). destruct Hl as (HLk & HLs & HLl & HLc & HLe & HLr & HLa & HLack & HLq).
  pose proof (lifecycle_id_free b s db Hok Hb H) as Hfree. rewrite <-Hrev, <-Hev, <-HLk in Hfree.
  assert (Hne : fob_deliveryKey L <> fob_deliveryKey R)
    by (rewrite HLk, HRk; intros He; by apply (delivery_ids_differ _ _ (eq_sym He))).
  unfold outbox_clash. simpl. rewrite lookup_insert_ne by done. rewrite Hfree. simpl.
  rewrite HLr, HLq. destruct (Z.leb_spec (Z.of_N (fas_fireRevision next)) 0); [lia|]. simpl.
  rewrite HLc, lookup_insert_eq. simpl.
  apply list_existsb_false. intros [key r] Hkr%elem_of_map_to_list. simpl.
  rewrite HLs, HLl, HLe. simpl. apply lookup_insert_Some in Hkr as [[<- <-]|[Hk Hkr]].
  - simpl. rewrite Hsink. by rewrite bool_decide_eq_false_2.
  - destruct (fk_outbox _ _ Hok _ _ Hkr) as [_ (b' & sr & Hb' & _ & Hsr & [(_ & Hs & _)|(k & _ & Hk2 & _ & Hfor)])].
    + rewrite Hs. by rewrite bool_decide_eq_false_2.
    + destruct Hfor as (Hs & _ & Hlog & Hevt & _). rewrite Hlog, Hevt, Hev.
      rewrite bool_decide_eq_true_2 by done. simpl.
      rewrite bool_decide_eq_false_2; [done|]. intros [Hch ->]%fireEventId_inj.
      rewrite Hch, (co_row _ _ _ H) in Hsr. injection Hsr as <-. simpl in Hk2. lia.
Qed.

Lemma write_deliveries_ok b s next db R L :
  fire_ok bs db -> b ∈ bs -> channel_ok b s db -> deliveries_for b next R L ->
  fas_channelId next = fcb_channelId b ->
  fas_fireRevision next = (fas_fireRevision s + 1)%N -> (fas_fireRevision s < kMaxFireRevision)%N ->
  fas_lastEventId next = fireEventId (fcb_channelId b) (fas_fireRevision next) ->
  exists row, fd_outbox db !! retainedDeliveryId (fcb_channelId b) = Some row /\
    fo_sink_kind row = "RETAINED_STATE" /\ fo_logical_key row = fcb_retainedTopic b /\
    write_deliveries (with_states db (<[fcb_channelId b := srow next]> (fd_states db))) next R L
    = Ok (transitioned db b next row R L).
Proof.
  intros Hok Hb H Hd Hch Hrev Hmax Hev.
  destruct (co_retained _ _ _ H) as (row & Hrow & Hfor). exists row.
  destruct Hfor as (Hsink & Hlog & Hsen & Hchan & Hevt & Hr & Htop).
  do 3 (split; [done|]). destruct Hd as [Hdr Hdl]. pose proof (Build_deliveries_for _ _ _ _ Hdr Hdl) as Hd.
  destruct Hdr as (HRk & HRs & HRl & HRse & HRc & HRe & HRr & HRt).
  destruct Hdl as (HLk & HLs & HLl & HLc & HLe & HLr & HLa & HLack & HLq).
  pose proof (fk_outbox _ _ Hok _ _ Hrow) as [Hwf _].
  unfold write_deliveries. unfold selectDelivery at 1. simpl. rewrite HRk, Hrow.
  rewrite readDelivery_ok by done. cbn [rbind].
  rewrite (delivery_of_retained _ _ Hsink). simpl fob_channelId. simpl fob_logicalKey.
  rewrite Hchan, Hlog, Hch, HRl, !bool_decide_eq_true_2 by done. cbn [andb].
  unfold update_retained. rewrite HRr, checkedInt64_ok by lia. cbn [rbind]. simpl fd_outbox.
  rewrite HRk, Hrow. simpl fd_states. rewrite HRc, lookup_insert_eq.
  rewrite (bool_decide_eq_false_2 (Some (srow next) = None)) by done.
  destruct (Z.leb_spec (Z.of_N (fas_fireRevision next)) 0); [lia|]. cbn [orb rbind].
  unfold with_outbox. simpl.
  pose proof (lifecycle_no_clash b s next db row R L Hok Hb H Hd Hrev Hmax Hev) as Hclash.
  rewrite HRk in Hclash. specialize (Hclash Hrow Hsink).
  pose proof (lifecycle_id_free b s db Hok Hb H) as Hfree. rewrite <-Hrev, <-Hev, <-HLk in Hfree.
  assert (Hne : fob_deliveryKey L <> retainedDeliveryId (fcb_channelId b))
    by (rewrite HLk; intros He; by apply (delivery_ids_differ _ _ (eq_sym He))).
  unfold selectDelivery. simpl. rewrite lookup_insert_ne by done. rewrite Hfree. simpl.
  unfold insertDelivery. rewrite HLr, HLa, HLack, !checkedInt64_ok by (unfold kMaxFireRevision in *; lia).
  simpl. unfold renewed_row in Hclash. rewrite HRc, HRr, HLr in Hclash. rewrite Hclash.
  unfold transitioned, with_outbox, renewed_row. simpl. by rewrite HRk, HRc, HRr, HLr.
Qed.

(** A state that may follow [s]: the next revision of the same channel. *)
Record follows (b : FireChannelBinding) (s next : FireAlarmStateRecord) : Prop := {
  fo_same : fas_channelId next = fcb_channelId b /\ fas_sensorId next = fas_sensorId s /\
    fas_retainedTopic next = fas_retainedTopic s;
  fo_next : fas_fireRevision next = (fas_fireRevision s + 1)%N;
  fo_room : (fas_fireRevision s < kMaxFireRevision)%N;
  fo_event : fas_lastEventId next = fireEventId (fcb_channelId b) (fas_fireRevision next);
  fo_alarm : activeLifecycle (fas_desiredLifecycle next) = negb (is_empty (fas_activeAlarmId next));
  fo_json : fas_lastSignalJson next <> "";
  fo_seq : forall n, fas_lastSourceSequence next = Some n -> (n <= uint64_max)%N
}.

Lemma follows_wf b s next : follows b s next -> state_wf next.
Proof. intros [_ Hn Hr _ _ _ Hs]. split; [lia|done]. Qed.

(** The channel after a transition. *)
Lemma transitioned_channel b s next db row R L :
  fire_ok bs db -> b ∈ bs -> channel_ok b s db -> follows b s next -> deliveries_for b next R L ->
  fd_outbox db !! retainedDeliveryId (fcb_channelId b) = Some row ->
  fo_sink_kind row = "RETAINED_STATE" -> fo_logical_key row = fcb_retainedTopic b ->
  channel_ok b next (transitioned db b next row R L).
Proof.
  intros Hok Hb H Hf [Hdr Hdl] Hrow Hsink Hlog.
  destruct Hdr as (HRk & HRs & HRl & HRse & HRc & HRe & HRr & HRt).
  destruct Hdl as (HLk & HLs & HLl & HLc & HLe & HLr & HLa & HLack & HLq).
  pose proof (follows_wf _ _ _ Hf) as Hwf. destruct Hf as [(Hch & Hse & Hto) Hn Hroom Hev Hal Hj Hseq].
  assert (Hne : lifecycleDeliveryId (fas_lastEventId next) <> retainedDeliveryId (fcb_channelId b))
    by (intros He; by apply (delivery_ids_differ _ _ (eq_sym He))).
  split; simpl; try done.
  - by rewrite lookup_insert_eq.
  - by rewrite Hse, (co_sensor _ _ _ H).
  - by rewrite Hto, (co_topic _ _ _ H).
  - exists (renewed_row row R). rewrite HLk, HRk, lookup_insert_ne by done.
    rewrite lookup_insert_eq. split; [done|]. unfold retained_row_for, renewed_row. simpl.
    rewrite HRse, HRc, HRe, HRr, HRt. auto 10.
  - intros k Hk. rewrite HLk, HRk. destruct (decide (k = fas_fireRevision next)) as [->|Hkn].
    + rewrite Hev, lookup_insert_eq. eexists. split; [done|].
      unfold lifecycle_row_for, outbox_row. simpl. rewrite HLs, HLl, HLc, HLe, HLr, Hev. done.
    + rewrite lookup_insert_ne
        by (rewrite Hev; intros [_ ?]%lifecycleDeliveryId_inj%fireEventId_inj; congruence).
      rewrite lookup_insert_ne by (intros He; by apply (delivery_ids_differ _ _ He)).
      apply (co_lifecycle _ _ _ H). lia.
Qed.

(** The other channels after it. *)
Lemma transitioned_others b b' s' next db row R L :
  b ∈ bs -> b' ∈ bs -> b' <> b -> channel_ok b' s' db -> deliveries_for b next R L ->
  fas_lastEventId next = fireEventId (fcb_channelId b) (fas_fireRevision next) ->
  channel_ok b' s' (transitioned db b next row R L).
Proof.
  intros Hb Hb' Hne H [Hdr Hdl] Hev. destruct Hdr as (HRk & _). destruct Hdl as (HLk & _).
  assert (Hch : fcb_channelId b <> fcb_channelId b')
    by (intros He; by destruct Hne; apply (binding_channel_inj b' b)).
  destruct H as [Hrow Hc Hse Hto Hwf Hal Hevt Hsi (r & Hr & Hret) Hlife].
  split; simpl; try done.
  - by rewrite lookup_insert_ne.
  - exists r. rewrite HLk, HRk, lookup_insert_ne by (intros He; by apply (delivery_ids_differ _ _ (eq_sym He))).
    rewrite lookup_insert_ne by (intros ?%retainedDeliveryId_inj; congruence). done.
  - intros k Hk. rewrite HLk, HRk, Hev.
    rewrite lookup_insert_ne by (intros [? _]%lifecycleDeliveryId_inj%fireEventId_inj; congruence).
    rewrite lookup_insert_ne by (intros He; by apply (delivery_ids_differ _ _ He)). by apply Hlife.
Qed.

(** A new state row keeps every delivery of its channel in range. *)
Lemma owner_keep b s next db db' key row :
  channel_ok b s db -> (fas_fireRevision s <= fas_fireRevision next)%N ->
  fd_states db' = <[fcb_channelId b := srow next]> (fd_states db) ->
  outbox_owner bs db key row -> outbox_owner bs db' key row.
Proof.
  intros H Hle Hst (b' & sr & Hb' & Hc & Hsr & Hcase).
  destruct (decide (fcb_channelId b' = fcb_channelId b)) as [He|Hne].
  - exists b', (srow next). rewrite Hst, He, lookup_insert_eq.
    rewrite He, (co_row _ _ _ H) in Hsr. injection Hsr as <-. rewrite He in Hc.
    split; [done|]. split; [done|]. split; [done|]. rewrite He in Hcase.
    destruct Hcase as [?|(k & Hk1 & Hk2 & Hk3)]; [by left|]. right. exists k.
    split; [done|]. split; [simpl in *; lia|done].
  - exists b', sr. rewrite Hst, lookup_insert_ne by congruence. auto.
Qed.

Lemma transitioned_ok b s next db row R L :
  fire_ok bs db -> b ∈ bs -> channel_ok b s db -> follows b s next -> deliveries_for b next R L ->
  fd_outbox db !! retainedDeliveryId (fcb_channelId b) = Some row ->
  fo_sink_kind row = "RETAINED_STATE" -> fo_logical_key row = fcb_retainedTopic b ->
  fob_deliveryState L = DeliveryPending ->
  fire_ok bs (transitioned db b next row R L).
Proof.
  intros Hok Hb H Hf Hd Hrow Hsink Hlog HLd.
  pose proof (transitioned_channel b s next db row R L Hok Hb H Hf Hd Hrow Hsink Hlog) as Hnew.
  split.
  - apply (fk_open _ _ Hok).
  - intros b' Hb'. destruct (decide (fcb_channelId b' = fcb_channelId b)) as [He|Hne].
    + rewrite (binding_channel_inj b' b) by done. by exists next.
    + destruct (fk_channels _ _ Hok b' Hb') as [s' Hs']. exists s'.
      apply transitioned_others; try done; [congruence|apply Hf].
  - intros ch r Hr. simpl in Hr. apply lookup_insert_Some in Hr as [[<- _]|[_ Hr]];
      [by exists b|by apply (fk_states _ _ Hok _ r)].
  - pose proof (follows_wf _ _ _ Hf) as [Hwf _]. destruct Hf as [(Hch & _) Hn Hroom Hev _ _ _].
    assert (Howner : forall key r, outbox_owner bs db key r ->
              outbox_owner bs (transitioned db b next row R L) key r)
      by (intros key r; apply (owner_keep b s next); [done|lia|done]).
    destruct Hd as [(HRk & HRs & HRl & HRse & HRc & HRe & HRr & HRt)
                    (HLk & HLs & HLl & HLc & HLe & HLr & HLa & HLack & HLq)].
    intros key r Hr. simpl in Hr. apply lookup_insert_Some in Hr as [[<- <-]|[_ Hr]].
    + split.
      * unfold outbox_row_ok, outbox_row. simpl. rewrite HLr, HLq.
        split; [by exists (fob_sinkKind L)|]. split; [by exists (fob_deliveryState L)|].
        split; [unfold kMaxFireRevision in *; lia|]. split; [lia|]. split; [done|]. by intros ? [=].
      * exists b, (srow next). simpl. rewrite lookup_insert_eq. split; [done|]. split; [done|].
        split; [done|]. right. exists (fas_fireRevision next).
        split; [destruct (co_wf _ _ _ H); lia|]. split; [done|]. rewrite HLk, Hev. split; [done|].
        unfold lifecycle_row_for, outbox_row. simpl. by rewrite HLs, HLl, HLc, HLe, HLr, Hev.
    + apply lookup_insert_Some in Hr as [[<- <-]|[_ Hr]].
      * destruct (fk_outbox _ _ Hok _ _ Hrow) as [Hrok _]. split.
        -- unfold outbox_row_ok, renewed_row in *. simpl. rewrite HRr.
           split; [naive_solver|]. split; [by exists DeliveryPending|].
           split; [unfold kMaxFireRevision in *; lia|]. split; [lia|]. split; [done|naive_solver].
        -- exists b, (srow next). simpl. rewrite lookup_insert_eq, HRk. repeat split; try done. by left.
      * destruct (fk_outbox _ _ Hok _ _ Hr) as [Hrok Hown]. split; [done|by apply Howner].
Qed.

(** The cursor gate changes at most the retired boot ids. *)
Lemma cursor_gate_shape db s next db1 :
  cursor_gate db s next = Ok db1 -> db1 = db \/ exists X, db1 = with_retired_boots db X.
Proof.
  unfold cursor_gate. destruct (negb _); [intros [= <-]; by left|].
  case_bool_decide; [done|]. destruct (negb _); [done|]. intros [= <-].
  repeat case_match; eauto.
Qed.

(** The invariant does not look at the retired boot ids. *)
Lemma channel_ok_retired b s db X : channel_ok b s db <-> channel_ok b s (with_retired_boots db X).
Proof. split; intros []; split; done. Qed.
Lemma fire_ok_retired db X : fire_ok bs db -> fire_ok bs (with_retired_boots db X).
Proof.
  intros [Ho Hc Hs Hout]. split; try done. intros b Hb. destruct (Hc b Hb) as [s Hcs].
  exists s. by apply (proj1 (channel_ok_retired b s db X)).
Qed.
Lemma cursor_gate_ok b s next db db1 :
  cursor_gate db s next = Ok db1 -> fire_ok bs db -> channel_ok b s db ->
  fire_ok bs db1 /\ channel_ok b s db1 /\ fd_outbox db1 = fd_outbox db /\
  fd_states db1 = fd_states db.
Proof.
  intros [->|[X ->]]%cursor_gate_shape Hok H; [done|].
  split; [by apply fire_ok_retired|]. split; [|done].
  by apply (proj1 (channel_ok_retired b s db X)).
Qed.

Lemma same_rev_differs s next :
  fas_fireRevision next = (fas_fireRevision s + 1)%N ->
  bool_decide (fas_fireRevision s = fas_fireRevision next) = false.
Proof. intros H. apply bool_decide_eq_false_2. lia. Qed.

Section Mutation.
Variable isoString : time_point -> string.
Variable config : FireConfig.

Lemma joinTopic_nonempty p c : c <> "" -> joinTopic p c <> "".
Proof.
  intros Hc. unfold joinTopic. destruct (last_char p) as [d|] eqn:E; [|done].
  destruct p; [done|]. by case_bool_decide.
Qed.

Definition retained_of b signal s next alarm :=
  default (makeDelivery RetainedState "" "" next "" "" "" "" "")
    (fmu_retainedDelivery (transition_mutation isoString config b signal s next alarm)).
Definition lifecycle_of b signal s next alarm :=
  default (makeDelivery LifecycleEvent "" "" next "" "" "" "" "")
    (fmu_lifecycleDelivery (transition_mutation isoString config b signal s next alarm)).

Lemma transition_deliveries_for b signal s next alarm db :
  channel_ok b s db -> follows b s next ->
  deliveries_for b next (retained_of b signal s next alarm) (lifecycle_of b signal s next alarm).
Proof.
  intros H [(Hch & Hse & Hto) _ _ Hev _ _ _]. unfold retained_of, lifecycle_of. simpl.
  split; simpl; rewrite ?Hch, ?Hse, ?(co_sensor _ _ _ H); auto 10.
Qed.

Lemma valid_transition b signal s next alarm db :
  b ∈ bs -> channel_ok b s db -> follows b s next -> alarm <> "" -> fas_updatedAt next <> "" ->
  mutation_valid (transition_mutation isoString config b signal s next alarm) = true.
Proof.
  intros Hb H Hf Ha Hu. pose proof (follows_wf _ _ _ Hf) as [Hw _].
  destruct Hf as [(Hch & Hse & Hto) Hn Hr Hev _ Hj _].
  destruct (binding_present b Hb) as (Hc1 & Hc2 & Hc3).
  assert (Hev' : fas_lastEventId next <> "") by (rewrite Hev; done).
  unfold mutation_valid, transition_valid, validDelivery. simpl.
  rewrite Hch, Hse, Hto, (co_sensor _ _ _ H), (co_topic _ _ _ H), Hn.
  rewrite !(is_empty_false _ Hc1), !(is_empty_false _ Hc2), !(is_empty_false _ Hc3),
    !(is_empty_false _ Hev'), !(is_empty_false _ Ha), !(is_empty_false _ Hu), !(is_empty_false _ Hj).
  rewrite (is_empty_false _ (joinTopic_nonempty (fcf_lifecycleTopicPrefix config) _ Hc1)).
  rewrite !bool_decide_eq_true_2 by done. simpl.
  destruct (N.leb_spec (fas_fireRevision s) kMaxFireRevision); [|lia].
  destruct (N.leb_spec (fas_fireRevision s + 1) kMaxFireRevision); [|lia].
  destruct (N.eqb_spec (fas_fireRevision s) kMaxFireRevision); [lia|].
  rewrite N.eqb_refl. destruct (N.ltb_spec 0 (fas_fireRevision s + 1)); [done|lia].
Qed.

(** A transition whose cursor passes the gate commits, with exactly these changes. *)
Lemma apply_transition_ok b signal s next alarm db db1 :
  fire_ok bs db -> b ∈ bs -> channel_ok b s db -> follows b s next ->
  alarm <> "" -> fas_updatedAt next <> "" -> cursor_gate db s next = Ok db1 ->
  exists row, fd_outbox db !! retainedDeliveryId (fcb_channelId b) = Some row /\
    fo_sink_kind row = "RETAINED_STATE" /\ fo_logical_key row = fcb_retainedTopic b /\
    let db' := transitioned db1 b next row (retained_of b signal s next alarm)
                 (lifecycle_of b signal s next alarm) in
    applyFireStateMutation (transition_mutation isoString config b signal s next alarm) db
      = (mkFireStoreMutationResult StoreCommitted (fas_fireRevision next) "", db') /\
    fire_ok bs db' /\ channel_ok b next db'.
Proof.
  intros Hok Hb H Hf Ha Hu Hgate. pose proof (follows_wf _ _ _ Hf) as Hwf.
  destruct (cursor_gate_ok b s next db db1 Hgate Hok H) as (Hok1 & H1 & Hout1 & Hst1).
  pose proof (transition_deliveries_for b signal s next alarm db H Hf) as Hd.
  pose proof Hf as [(Hch & Hse & Hto) Hn Hr Hev Hal Hj Hsq].
  destruct (write_deliveries_ok b s next db1 _ _ Hok1 Hb H1 Hd Hch Hn Hr Hev)
    as (row & Hrow & Hsink & Hlog & Hw).
  exists row. rewrite <-Hout1. do 3 (split; [done|]). split; [|split].
  - unfold applyFireStateMutation. rewrite (valid_transition _ _ _ _ _ db) by done.
    rewrite (fk_open _ _ Hok). simpl negb. cbn iota.
    change (transition_mutation isoString config b signal s next alarm) with
      (mkFireStateMutation (fas_fireRevision s) next
         (Some (retained_of b signal s next alarm)) (Some (lifecycle_of b signal s next alarm))).
    clear Hd. set (R := retained_of _ _ _ _ _) in *. set (L := lifecycle_of _ _ _ _ _) in *.
    clearbody R L. unfold mutation_body. simpl.
    rewrite Hch, (channel_select _ _ _ H). simpl.
    rewrite same_rev_differs by done. simpl. rewrite bool_decide_eq_true_2 by done.
    rewrite Hse, Hto, !bool_decide_eq_true_2 by done. simpl. rewrite Hgate.
    rewrite (state_update b s next db1) by done. simpl. by rewrite Hw.
  - apply (transitioned_ok b s); done.
  - by apply (transitioned_channel b s).
Qed.
End Mutation.

(** A change of the cursor alone. *)
Lemma apply_cursor_ok b s next db db1 :
  fire_ok bs db -> b ∈ bs -> channel_ok b s db -> state_wf next ->
  fas_channelId next = fcb_channelId b /\ fas_sensorId next = fas_sensorId s /\
    fas_retainedTopic next = fas_retainedTopic s ->
  fas_fireRevision next = fas_fireRevision s -> fas_lastEventId next = fas_lastEventId s ->
  fas_desiredLifecycle next = fas_desiredLifecycle s ->
  fas_activeAlarmId next = fas_activeAlarmId s ->
  fas_lastSignalJson next <> "" -> fas_updatedAt next <> "" -> cursor_changed s next = true ->
  cursor_gate db s next = Ok db1 ->
  let db' := with_states db1 (<[fcb_channelId b := srow next]> (fd_states db1)) in
  applyFireStateMutation (mkFireStateMutation (fas_fireRevision s) next None None) db
    = (mkFireStoreMutationResult StoreCommitted (fas_fireRevision next) "", db') /\
  fire_ok bs db' /\ channel_ok b next db'.
Proof.
  intros Hok Hb H Hwf (Hch & Hse & Hto) Hrev Hev Hdl Hal Hj Hu Hcc Hgate.
  destruct (cursor_gate_ok b s next db db1 Hgate Hok H) as (Hok1 & H1 & Hout1 & Hst1).
  destruct (binding_present b Hb) as (Hc1 & Hc2 & Hc3). pose proof (co_wf _ _ _ H) as [Hw _].
  assert (Hev' : fas_lastEventId s <> "") by (rewrite (co_event _ _ _ H); done).
  split; [|split].
  - unfold applyFireStateMutation, mutation_valid. simpl.
    rewrite Hch, Hse, Hto, (co_sensor _ _ _ H), (co_topic _ _ _ H), Hrev, Hev.
    rewrite !(is_empty_false _ Hc1), !(is_empty_false _ Hc2), !(is_empty_false _ Hc3),
      !(is_empty_false _ Hev'), !(is_empty_false _ Hu), !(is_empty_false _ Hj).
    destruct (N.leb_spec (fas_fireRevision s) kMaxFireRevision); [|lia].
    rewrite N.eqb_refl. simpl. rewrite (fk_open _ _ Hok). simpl. unfold mutation_body. simpl.
    rewrite Hch, (channel_select _ _ _ H). simpl.
    assert (sameStateSemantic s next = false) as ->.
    { unfold sameStateSemantic. unfold cursor_changed in Hcc.
      repeat (apply orb_true_iff in Hcc as [Hcc|Hcc]); apply negb_true_iff in Hcc; rewrite Hcc;
        rewrite ?andb_false_r; done. }
    rewrite andb_false_r, bool_decide_eq_true_2 by done.
    rewrite Hse, Hto, !bool_decide_eq_true_2 by done. simpl. rewrite Hgate.
    rewrite (state_update b s next db1) by done. simpl. by rewrite Hrev.
  - pose proof (fun key row => owner_keep b s next db1 (with_states db1
      (<[fcb_channelId b := srow next]> (fd_states db1))) key row H1) as Howner.
    destruct Hok1 as [Ho1 Hc1' Hs1 Hout]. split; simpl; [done| | |].
    + intros b' Hb'. destruct (decide (fcb_channelId b' = fcb_channelId b)) as [He|Hne].
      * rewrite (binding_channel_inj b' b) by done. exists next.
        destruct H1 as [Hrow Hcx Hsx Htx Hwx Hax Hex Hjx Hret Hlife].
        split; simpl; try done; try congruence; [by rewrite lookup_insert_eq| |].
        -- destruct Hret as (r & Hr & Hfor). exists r. split; [done|]. unfold retained_row_for in *.
           by rewrite Hrev, Hev.
        -- intros k Hk. apply Hlife. lia.
      * destruct (Hc1' b' Hb') as [s' [Hrow ? ? ? ? ? ? ? ? ?]]. exists s'. split; try done. simpl.
        by rewrite lookup_insert_ne by congruence.
    + intros ch r Hr. apply lookup_insert_Some in Hr as [[<- _]|[_ Hr]]; [by exists b|eauto].
    + intros key r Hr. destruct (Hout key r Hr) as [Hrok Hown]. split; [done|].
      apply Howner; [lia|done|done].
  - destruct H1 as [Hrow Hcx Hsx Htx Hwx Hax Hex Hjx Hret Hlife].
    split; simpl; try done; try congruence; [by rewrite lookup_insert_eq| |].
    + destruct Hret as (r & Hr & Hfor). exists r. split; [done|]. unfold retained_row_for in *.
      by rewrite Hrev, Hev.
    + intros k Hk. apply Hlife. lia.
Qed.
End Invariant.
