(* ===== verification/FireTopology.v ===== *)
(** Creating the fire channels: [FireAlarmService::initialize] over
    [EventDatabase::initializeFireTopology] establishes the invariant of FireInvariant on an
    empty database, keeps a database that already has the channels as it is, and adds the
    channels that a longer mapping names. *)
From stdpp Require Import sorting.
From S2P Require Import Prelude SensorProtocol SequencePolicy SlotConfig OccupancyDb FireStore FireService FireInvariant.

(** [proj_simpl] computes the fields of the records that are built on the spot. *)
Ltac proj_simpl :=
  cbn [fob_deliveryKey fob_sinkKind fob_logicalKey fob_sensorId fob_channelId fob_eventId
       fob_alarmId fob_fireRevision fob_topic fob_payloadJson fob_qos fob_retain fob_attemptCount
       fob_nextAttemptAt fob_lastError fob_deliveryState fob_acknowledgedRevision fob_createdAt
       fob_updatedAt makeDelivery].

Section Topology.
Context {JL : JsonLibrary}.
Variable isoString : time_point -> string.
Variable signal_dump : json -> result string string.
Variable config : FireConfig.
Hypothesis Hiso : forall t, isoString t <> "".
Hypothesis Hdump : forall j t, signal_dump j = Ok t -> t <> "".

Notation bootstrap_channel := (bootstrap_channel isoString signal_dump config).
Notation bootstrap_topology := (bootstrap_topology isoString signal_dump config).

(** What a bootstrap looks like. *)
Lemma bootstrap_shape now b boot :
  bootstrap_channel now b = Ok boot ->
  let s := fcb_initialState boot in let r := fcb_retainedDelivery boot in
  fas_channelId s = fcb_channelId b /\ fas_sensorId s = fcb_sensorId b /\
  fas_retainedTopic s = fcb_retainedTopic b /\ fas_fireRevision s = 1%N /\
  fas_desiredLifecycle s = AlarmResolved /\ fas_activeAlarmId s = "" /\
  fas_lastEventId s = fireEventId (fcb_channelId b) 1 /\ fas_lastSourceSequence s = None /\
  fas_lastSignalJson s <> "" /\ fas_protocolMode s = FireUnseen /\ fas_activeBootId s = None /\
  fas_updatedAt s <> "" /\
  exists alarm payload, alarm <> "" /\ payload <> "" /\
    r = makeDelivery RetainedState (retainedDeliveryId (fcb_channelId b)) (fcb_retainedTopic b) s
          (fas_lastEventId s) alarm (fcb_retainedTopic b) payload (fas_updatedAt s).
Proof.
  unfold FireService.bootstrap_channel. destruct (serializeSignal _ _) as [t|] eqn:Ht; [|done].
  cbn [rbind]. intros [= <-]. simpl. do 8 (split; [done|]). split; [by eapply Hdump|].
  do 2 (split; [done|]). split; [apply Hiso|].
  eexists _, _. split; [|split]; [| |reflexivity]; done.
Qed.

Lemma valid_bootstrap now b boot :
  fcb_channelId b <> "" /\ fcb_sensorId b <> "" /\ fcb_retainedTopic b <> "" ->
  bootstrap_channel now b = Ok boot -> validBootstrap boot = true.
Proof.
  intros (H1 & H2 & H3) Hb. destruct (bootstrap_shape now b boot Hb)
    as (Hc & Hs & Ht & Hr & Hl & Ha & He & Hq & Hj & Hp & Hbt & Hu & al & pl & Hal & Hpl & Hret).
  unfold validBootstrap, validDelivery. rewrite Hret. proj_simpl.
  rewrite Hc, Hs, Ht, Hr, Hl, Ha, He, Hq, Hp, Hbt.
  rewrite (is_empty_false _ H1), (is_empty_false _ H2), (is_empty_false _ H3),
    (is_empty_false _ Hj), (is_empty_false _ Hu), (is_empty_false _ Hal), (is_empty_false _ Hpl).
  rewrite !bool_decide_eq_true_2 by done. done.
Qed.

Lemma topology_channels now bs topo :
  bootstrap_topology now bs = Ok topo ->
  Forall2 (fun b boot => bootstrap_channel now b = Ok boot) bs topo.
Proof.
  revert topo. induction bs as [|b bs IH]; simpl; intros topo H; rinv; [constructor|].
  constructor; eauto.
Qed.

Lemma topology_valid_ok now bs topo (C S T K : gset string) :
  bindings_ok bs -> bootstrap_topology now bs = Ok topo ->
  Forall (fun b => fcb_channelId b ∉ C /\ fcb_sensorId b ∉ S /\ fcb_retainedTopic b ∉ T /\
                   retainedDeliveryId (fcb_channelId b) ∉ K) bs ->
  topology_valid C S T K topo = true.
Proof.
  intros Hbs Htopo%topology_channels. revert C S T K. induction Htopo as [|b boot bs topo Hb _ IH];
    intros C S T K Hfresh; [done|]. cbn [topology_valid].
  destruct Hbs as [Hc Hs Ht Hp]. rewrite fmap_cons in Hc, Hs, Ht.
  apply NoDup_cons in Hc as [Hc1 Hc2]. apply NoDup_cons in Hs as [Hs1 Hs2].
  apply NoDup_cons in Ht as [Ht1 Ht2]. apply Forall_cons in Hp as [Hp1 Hp2].
  apply Forall_cons in Hfresh as [(F1 & F2 & F3 & F4) Hfresh].
  rewrite (valid_bootstrap now b boot Hp1 Hb).
  destruct (bootstrap_shape now b boot Hb)
    as (Hbc & Hbs & Hbt & _ & _ & _ & _ & _ & _ & _ & _ & _ & al & pl & _ & _ & Hret).
  rewrite Hret. proj_simpl. rewrite Hbc, Hbs, Hbt, !bool_decide_eq_false_2 by done.
  cbn [negb andb].
  apply IH; [by split|]. apply Forall_forall. intros b' Hb'.
  rewrite Forall_forall in Hfresh. destruct (Hfresh b' Hb') as (G1 & G2 & G3 & G4).
  assert (Hne : forall (f : FireChannelBinding -> string), f b ∉ f <$> bs -> f b' <> f b).
  { intros f Hf He. apply Hf. rewrite <-He. by apply list_elem_of_fmap_2. }
  rewrite !not_elem_of_union, !not_elem_of_singleton.
  pose proof (Hne fcb_channelId Hc1). pose proof (Hne fcb_sensorId Hs1).
  pose proof (Hne fcb_retainedTopic Ht1). repeat split; try done.
  by intros ?%retainedDeliveryId_inj.
Qed.

(** * Adding one channel *)

Lemma empty_fire_ok : fire_ok [] (mkFireDb true ∅ ∅ ∅).
Proof.
  split; [done| | |].
  - by intros b ?%elem_of_nil.
  - intros ch row H. by destruct (lookup_empty_Some _ _ H).
  - intros key row H. by destruct (lookup_empty_Some _ _ H).
Qed.

Lemma channel_ok_insert b s db ch key x y :
  ch <> fcb_channelId b -> key <> retainedDeliveryId (fcb_channelId b) ->
  (forall k, key <> lifecycleDeliveryId (fireEventId (fcb_channelId b) k)) ->
  channel_ok b s db ->
  channel_ok b s (with_outbox (with_states db (<[ch := x]> (fd_states db))) (<[key := y]> (fd_outbox db))).
Proof.
  intros H1 H2 H3 [Hrow ? ? ? ? ? ? ? (r & Hr & Hf) Hlife]. split; simpl; try done.
  - by rewrite lookup_insert_ne.
  - exists r. by rewrite lookup_insert_ne.
  - intros k Hk. rewrite lookup_insert_ne by done. by apply Hlife.
Qed.

(** A database that has new channels, none of which has seen a signal. *)
Definition grown (db db' : FireDb) : Prop :=
  fd_retired db' = fd_retired db /\
  forall ch row, fd_states db' !! ch = Some row -> fd_states db !! ch = Some row \/
    (fs_protocol_mode row = "UNSEEN" /\ fs_active_boot_id row = None /\
     fs_last_source_sequence row = None).

Lemma grown_trans db1 db2 db3 : grown db1 db2 -> grown db2 db3 -> grown db1 db3.
Proof.
  intros [R1 H1] [R2 H2]. split; [congruence|]. intros ch row Hr.
  destruct (H2 ch row Hr) as [Hr2|?]; [|by right]. by apply H1.
Qed.

Lemma bootstrap_insert now X b boot db :
  fire_ok X db -> bindings_ok (b :: X) -> bootstrap_channel now b = Ok boot ->
  let s := fcb_initialState boot in let r := fcb_retainedDelivery boot in
  selectState db (fas_channelId s) = Ok None /\
  exists db1 db2, insertState db s = Ok db1 /\ insertDelivery db1 r = Ok db2 /\
    fire_ok (b :: X) db2 /\ grown db db2.
Proof.
  intros Hok HbX Hboot. destruct (bootstrap_shape now b boot Hboot)
    as (Hbc & Hbs & Hbt & Hr1 & Hl & Ha & He & Hq & Hj & Hp & Hbi & Hu & al & pl & Hal & Hpl & Hret).
  set (s := fcb_initialState boot) in *. set (r := fcb_retainedDelivery boot) in *. intros s' r'.
  subst s' r'. destruct HbX as [Hc Hs Ht _]. rewrite fmap_cons in Hc, Hs, Ht.
  apply NoDup_cons in Hc as [Hc1 Hc2]. apply NoDup_cons in Hs as [Hs1 Hs2].
  apply NoDup_cons in Ht as [Ht1 Ht2].
  assert (Hin : forall b', b' ∈ X -> fcb_channelId b' <> fcb_channelId b /\
            fcb_sensorId b' <> fcb_sensorId b /\ fcb_retainedTopic b' <> fcb_retainedTopic b).
  { intros b' Hb'. repeat split; intros E;
      [apply Hc1|apply Hs1|apply Ht1]; rewrite <-E; by apply list_elem_of_fmap_2. }
  assert (Hfree : fd_states db !! fcb_channelId b = None).
  { destruct (fd_states db !! fcb_channelId b) eqn:E; [|done].
    destruct (fk_states _ _ Hok _ _ E) as (b' & Hb' & Heq). by destruct (Hin b' Hb'). }
  assert (Hkey : fd_outbox db !! retainedDeliveryId (fcb_channelId b) = None).
  { destruct (fd_outbox db !! _) as [row|] eqn:E; [|done]. exfalso.
    destruct (fk_outbox _ _ Hok _ _ E) as [_ (b' & sr & Hb' & _ & _ & [(Hk & _)|(k & _ & _ & Hk & _)])].
    - apply retainedDeliveryId_inj in Hk. by destruct (Hin b' Hb').
    - by apply (delivery_ids_differ _ _ Hk). }
  unfold selectState. rewrite Hbc, Hfree. split; [done|].
  set (columns := srow s). set (row := outbox_row r 1 0 None).
  exists (with_states db (<[fcb_channelId b := columns]> (fd_states db))).
  exists (with_outbox (with_states db (<[fcb_channelId b := columns]> (fd_states db)))
            (<[retainedDeliveryId (fcb_channelId b) := row]> (fd_outbox db))).
  split; [|split; [|split]].
  - unfold insertState. rewrite Hr1, checkedInt64_ok by done. cbn [rbind].
    assert (state_clash db (fas_channelId s) (state_row s (Z.of_N 1)) = false) as ->.
    { unfold state_clash. rewrite Hbc, Hfree. simpl.
      apply list_existsb_false. intros [ch x] Hx%elem_of_map_to_list. simpl.
      destruct (fk_states _ _ Hok _ _ Hx) as (b' & Hb' & <-). destruct (fk_channels _ _ Hok b' Hb') as [s' Hs'].
      rewrite (co_row _ _ _ Hs') in Hx. injection Hx as <-. simpl.
      rewrite (co_sensor _ _ _ Hs'), (co_topic _ _ _ Hs'), Hbs, Hbt.
      destruct (Hin b' Hb') as (_ & ? & ?). by rewrite !bool_decide_eq_false_2. }
    rewrite Hbc. unfold columns, srow. by rewrite Hr1.
  - unfold insertDelivery. rewrite Hret. cbn [fob_fireRevision makeDelivery fob_attemptCount
      fob_acknowledgedRevision fob_deliveryKey]. rewrite Hr1, !checkedInt64_ok by done. cbn [rbind].
    rewrite <-Hret. change (Z.of_N 1) with 1. change (Z.of_N 0) with 0. fold row.
    assert (outbox_clash (with_states db (<[fcb_channelId b:=columns]> (fd_states db)))
              (retainedDeliveryId (fcb_channelId b)) row = false) as ->; [|done].
    unfold outbox_clash, row. rewrite Hret. simpl. rewrite Hkey, Hbc, lookup_insert_eq. simpl.
    apply list_existsb_false. intros [key x] Hx%elem_of_map_to_list. simpl.
    destruct (fk_outbox _ _ Hok _ _ Hx) as [_ (b' & sr & Hb' & _ & _ & [(_ & _ & Hlog)|(k & _ & _ & _ & Hfor)])].
    + rewrite Hlog. destruct (Hin b' Hb') as (_ & _ & ?).
      rewrite (bool_decide_eq_false_2 (fcb_retainedTopic b' = _)) by done. by rewrite andb_false_r.
    + destruct Hfor as (-> & _). by rewrite bool_decide_eq_false_2.
  - assert (Hnew : channel_ok b s (with_outbox (with_states db (<[fcb_channelId b := columns]> (fd_states db)))
                     (<[retainedDeliveryId (fcb_channelId b) := row]> (fd_outbox db)))).
    { split; simpl; try done.
      - by rewrite lookup_insert_eq.
      - split; [by rewrite Hr1|]. by rewrite Hq.
      - by rewrite Hl, Ha.
      - by rewrite He, Hr1.
      - exists row. rewrite lookup_insert_eq. split; [done|]. unfold retained_row_for, row.
        rewrite Hret. simpl. rewrite Hbc, Hbs, Hr1. auto 10.
      - intros k. rewrite Hr1. lia. }
    split.
    + apply (fk_open _ _ Hok).
    + intros b' [->|Hb']%elem_of_cons; [by exists s|].
      destruct (fk_channels _ _ Hok b' Hb') as [s' Hs']. exists s'.
      destruct (Hin b' Hb') as (? & _). apply channel_ok_insert; try done.
      by intros ?%retainedDeliveryId_inj.
    + intros ch x Hx. simpl in Hx. apply lookup_insert_Some in Hx as [[<- _]|[_ Hx]].
      * exists b. split; [by left|done].
      * destruct (fk_states _ _ Hok _ _ Hx) as (b' & Hb' & ?). exists b'. split; [by right|done].
    + intros key x Hx. simpl in Hx. apply lookup_insert_Some in Hx as [[<- <-]|[_ Hx]].
      * split.
        -- unfold outbox_row_ok, row. rewrite Hret. simpl. split; [by exists RetainedState|].
           split; [by exists DeliveryPending|]. unfold kMaxFireRevision. repeat split; done || lia.
        -- exists b, columns. simpl. rewrite lookup_insert_eq. split; [by left|].
           unfold row. rewrite Hret. simpl. rewrite Hbc. repeat split; try done. by left.
      * destruct (fk_outbox _ _ Hok _ _ Hx) as [Hrok (b' & sr & Hb' & Hch & Hsr & Hcase)].
        split; [done|]. exists b', sr. simpl. destruct (Hin b' Hb') as (? & _).
        rewrite lookup_insert_ne by done. split; [by right|done].
  - split; [done|]. intros ch x Hx. simpl in Hx. apply lookup_insert_Some in Hx as [[_ <-]|[_ Hx]];
      [right|by left]. unfold columns, srow, state_row. simpl. by rewrite Hp, Hbi, Hq.
Qed.

(** * The whole mapping *)

Lemma bindings_ok_cons all X b :
  bindings_ok all -> bindings_ok X -> (forall x, x ∈ X -> x ∈ all) -> b ∈ all -> b ∉ X ->
  bindings_ok (b :: X).
Proof.
  intros Hall [H1 H2 H3 H4] Hsub Hb Hn.
  assert (Hf : forall f : FireChannelBinding -> string, NoDup (f <$> all) -> f b ∉ f <$> X).
  { intros f Hf (x & He & Hx)%list_elem_of_fmap. apply Hn.
    rewrite (NoDup_fmap_inj_on f all b x); auto. }
  destruct Hall as [A1 A2 A3 A4]. split; rewrite ?fmap_cons.
  - apply NoDup_cons; auto.
  - apply NoDup_cons; auto.
  - apply NoDup_cons; auto.
  - constructor; [|done]. rewrite Forall_forall in A4. by apply A4.
Qed.

Lemma retained_agrees_ok b s db key row :
  retained_row_for b s row -> channel_ok b s db ->
  retained_agrees s (delivery_of key row) = true.
Proof.
  intros (H1 & H2 & H3 & H4 & H5 & H6 & H7) H. unfold retained_agrees.
  rewrite (delivery_of_retained _ _ H1). cbn [fob_logicalKey fob_sensorId fob_channelId fob_eventId
    fob_fireRevision fob_topic delivery_of].
  rewrite H2, H3, H4, H5, H6, H7, N2Z.id, (co_topic _ _ _ H), (co_sensor _ _ _ H), (co_channel _ _ _ H).
  by rewrite !bool_decide_eq_true_2.
Qed.

(** A channel that exists is left alone. *)
Lemma topology_existing now X b boot db s inserted highest rest :
  fire_ok X db -> b ∈ X -> channel_ok b s db -> bootstrap_channel now b = Ok boot ->
  topology_loop db inserted highest (boot :: rest)
  = topology_loop db inserted (N.max highest (fas_fireRevision s)) rest.
Proof.
  intros Hok Hb H Hboot. destruct (bootstrap_shape now b boot Hboot)
    as (Hbc & Hbs & Hbt & _ & _ & _ & _ & _ & _ & _ & _ & _ & al & pl & _ & _ & Hret).
  cbn [topology_loop]. rewrite Hbc, (channel_select b s db H). cbn [rbind].
  rewrite (co_sensor _ _ _ H), (co_topic _ _ _ H), Hbs, Hbt, !bool_decide_eq_true_2 by done.
  cbn [negb orb]. rewrite Hret. proj_simpl. destruct (co_retained _ _ _ H) as (row & Hrow & Hfor).
  rewrite (outbox_row_read X db _ row Hok Hrow). cbn [rbind].
  by rewrite (retained_agrees_ok b s db).
Qed.

Lemma topology_loop_ok now all X bs topo db inserted highest :
  bindings_ok all -> bindings_ok X -> (forall x, x ∈ X -> x ∈ all) -> (forall x, x ∈ bs -> x ∈ all) ->
  fire_ok X db -> bootstrap_topology now bs = Ok topo ->
  exists db' inserted' highest' X',
    topology_loop db inserted highest topo = Ok (TopologyGoOn db' inserted' highest') /\
    fire_ok X' db' /\ bindings_ok X' /\ (forall b, b ∈ X' <-> b ∈ X \/ b ∈ bs) /\
    ((forall b, b ∈ bs -> b ∈ X) -> db' = db /\ inserted' = inserted) /\ grown db db'.
Proof.
  intros Hall HX Hsub Hbs Hok Htopo%topology_channels. revert X db inserted highest HX Hsub Hok.
  induction Htopo as [|b boot bs topo Hboot _ IH]; intros X db inserted highest HX Hsub Hok.
  - exists db, inserted, highest, X. split; [done|]. split; [done|]. split; [done|].
    split; [intros b; rewrite elem_of_nil; tauto|]. split; [done|]. split; [done|]. by left.
  - assert (Hb : b ∈ all) by (apply Hbs; by left).
    assert (Hbs' : forall x, x ∈ bs -> x ∈ all) by (intros x Hx; apply Hbs; by right).
    destruct (decide (b ∈ X)) as [Hb'|HbX].
    + destruct (fk_channels _ _ Hok b Hb') as [s Hs].
      rewrite (topology_existing now X b boot db s) by done.
      destruct (IH Hbs' X db inserted (N.max highest (fas_fireRevision s)) HX Hsub Hok)
        as (db' & i & h & X' & Hrun & Hok' & HX' & Hmem & Hsame & Hgr).
      exists db', i, h, X'. split; [done|]. split; [done|]. split; [done|]. split; [|split].
      * intros x. rewrite Hmem, elem_of_cons. naive_solver.
      * intros Hin. apply Hsame. intros x Hx. apply Hin. by right.
      * done.
    + pose proof (bindings_ok_cons all X b Hall HX Hsub Hb HbX) as HX1.
      destruct (bootstrap_insert now X b boot db Hok HX1 Hboot)
        as (Hnone & db1 & db2 & Hi1 & Hi2 & Hok2 & Hgr2).
      cbn [topology_loop]. rewrite Hnone. cbn [rbind]. rewrite Hi1. cbn [rbind]. rewrite Hi2.
      cbn [rbind]. destruct (IH Hbs' (b :: X) db2 true
        (N.max highest (fas_fireRevision (fcb_initialState boot))) HX1)
        as (db' & i & h & X' & Hrun & Hok' & HX' & Hmem & _ & Hgr); [|done|].
      { intros x [->|Hx]%elem_of_cons; auto. }
      exists db', i, h, X'. split; [done|]. split; [done|]. split; [done|]. split; [|split].
      * intros x. rewrite Hmem, !elem_of_cons. naive_solver.
      * intros Hin. destruct HbX. apply Hin. by left.
      * by apply (grown_trans _ db2).
Qed.

(** * Counting *)

Lemma perm_of_members {A} (l k : list A) :
  NoDup l -> NoDup k -> (forall x, x ∈ l <-> x ∈ k) -> length l = length k.
Proof. intros Hl Hk H. apply Permutation_length, NoDup_Permutation; done. Qed.

Lemma bindings_NoDup bs : bindings_ok bs -> NoDup bs.
Proof. intros H. eapply NoDup_fmap_1, bo_channels, H. Qed.

Lemma states_size bs db : bindings_ok bs -> fire_ok bs db -> size (fd_states db) = length bs.
Proof.
  intros Hbs Hok. rewrite <-(length_fmap fcb_channelId bs), <-length_map_to_list.
  rewrite <-(length_fmap fst). apply perm_of_members.
  - apply NoDup_fst_map_to_list.
  - apply bo_channels, Hbs.
  - intros ch. rewrite !list_elem_of_fmap. split.
    + intros ([ch' row] & -> & Hrow%elem_of_map_to_list).
      destruct (fk_states _ _ Hok _ _ Hrow) as (b & Hb & He). by exists b.
    + intros (b & -> & Hb). destruct (fk_channels _ _ Hok b Hb) as [s Hs].
      exists (fcb_channelId b, srow s). split; [done|]. apply elem_of_map_to_list, (co_row _ _ _ Hs).
Qed.

Lemma retained_size bs db : bindings_ok bs -> fire_ok bs db -> retained_count db = length bs.
Proof.
  intros Hbs Hok. unfold retained_count, count_rows.
  rewrite <-(length_fmap (fun b => retainedDeliveryId (fcb_channelId b)) bs).
  rewrite <-(length_fmap fst). apply perm_of_members.
  - apply select_rows_NoDup.
  - apply NoDup_fmap_2_strong; [|by apply bindings_NoDup].
    intros b b' Hb Hb' He%retainedDeliveryId_inj. by apply (binding_channel_inj bs Hbs).
  - intros key. rewrite !list_elem_of_fmap. split.
    + intros ([key' row] & -> & [Hrow Hs]%select_rows_elem). split_bool.
      destruct (fk_outbox _ _ Hok _ _ Hrow) as [_ (b & sr & Hb & _ & _ & [(Hk & _)|(k & _ & _ & _ & Hfor)])];
        [by exists b|]. destruct Hfor as (Hl & _). congruence.
    + intros (b & -> & Hb). destruct (fk_channels _ _ Hok b Hb) as [s Hs].
      destruct (co_retained _ _ _ Hs) as (row & Hrow & Hk & _).
      exists (retainedDeliveryId (fcb_channelId b), row). split; [done|].
      apply select_rows_elem. split; [done|]. by rewrite Hk.
Qed.

Lemma read_all_ok {R A} (read : string -> R -> result string A) rows (P : A -> Prop) :
  (forall key row, (key, row) ∈ rows -> exists a, read key row = Ok a /\ P a) ->
  exists l, read_all read rows = Ok l /\ length l = length rows /\ Forall P l.
Proof.
  induction rows as [|[key row] rows IH]; intros H; [by exists []|]. cbn [read_all].
  destruct (H key row) as (a & Ha & HP); [by left|].
  destruct IH as (l & Hl & Hlen & HPl); [intros k r Hk; apply H; by right|].
  rewrite Ha. cbn [rbind]. rewrite Hl. exists (a :: l). cbn [rbind]. simpl. auto.
Qed.

Lemma listStates_ok bs db :
  bindings_ok bs -> fire_ok bs db ->
  exists l, listFireAlarmStates db = Ok l /\ length l = length bs /\
    Forall (fun s => row_configured bs s = true) l.
Proof.
  intros Hbs Hok. unfold listFireAlarmStates. rewrite (fk_open _ _ Hok). cbn [negb].
  destruct (read_all_ok readState
    (sort_rows (fun a b => text_before a.1 b.1) (map_to_list (fd_states db)))
    (fun s => row_configured bs s = true)) as (l & Hl & Hlen & HP).
  - intros key row. rewrite (sort_rows_perm _ _), elem_of_map_to_list. intros Hrow.
    destruct (fk_states _ _ Hok _ _ Hrow) as (b & Hb & <-).
    destruct (fk_channels _ _ Hok b Hb) as [s Hs]. rewrite (co_row _ _ _ Hs) in Hrow.
    injection Hrow as <-. exists s. rewrite <-(co_channel _ _ _ Hs).
    split; [apply readState_srow, (co_wf _ _ _ Hs)|]. unfold row_configured.
    rewrite (co_channel _ _ _ Hs), (findByChannel_in bs Hbs b Hb).
    by rewrite (co_sensor _ _ _ Hs), (co_topic _ _ _ Hs), !bool_decide_eq_true_2.
  - exists l. split; [done|]. split; [|done]. rewrite Hlen, (sort_rows_perm _ _).
    rewrite length_map_to_list. by apply states_size.
Qed.

(** The service starts on any database whose channels are among those of the mapping. *)
Lemma initialize_ok now X bs topo db :
  bindings_ok bs -> bs <> [] -> bindings_ok X -> (forall b, b ∈ X -> b ∈ bs) -> fire_ok X db ->
  bootstrap_topology now bs = Ok topo ->
  exists db', initialize_work isoString signal_dump config bs now db = Ok (inr tt, db') /\
    fire_ok bs db' /\ ((forall b, b ∈ bs -> b ∈ X) -> db' = db) /\ grown db db'.
Proof.
  intros Hbs Hne HX Hsub Hok Htopo.
  destruct (topology_loop_ok now bs X bs topo db false 0 Hbs HX Hsub (fun _ H => H) Hok Htopo)
    as (db' & i & h & X' & Hrun & Hok' & HX' & Hmem & Hsame & Hgr).
  assert (Hok2 : fire_ok bs db').
  { destruct Hok' as [H1 H2 H3 H4]. split; [done| | |].
    - intros b Hb. apply H2, Hmem. by right.
    - intros ch row Hr. destruct (H3 ch row Hr) as (b & Hb & ?). exists b. split; [|done].
      apply Hmem in Hb as [?|?]; auto.
    - intros key row Hr. destruct (H4 key row Hr) as [? (b & sr & Hb & ?)]. split; [done|].
      exists b, sr. split; [|done]. apply Hmem in Hb as [?|?]; auto. }
  exists db'. split; [|split; [done|split; [intros Hin; by destruct (Hsame Hin)|done]]].
  unfold initialize_work. rewrite Htopo. cbn [rbind].
  assert (Hlen : length topo = length bs)
    by (symmetry; eapply Forall2_length; by apply (topology_channels now)).
  assert (initializeFireTopology topo db
          = (mkFireStoreMutationResult (if i then StoreCommitted else StoreIdempotent) h "", db')) as ->.
  { unfold initializeFireTopology. destruct topo as [|boot rest] eqn:E; [by destruct bs|].
    rewrite <-E in *.
    rewrite (topology_valid_ok now bs topo) by (done || (apply Forall_forall; intros; set_solver)).
    cbn [negb]. rewrite (fk_open _ _ Hok). cbn [negb]. unfold topology_body. rewrite Hrun. cbn [rbind].
    rewrite (states_size bs db' Hbs Hok2), (retained_size bs db' Hbs Hok2), Hlen, Nat.eqb_refl.
    done. }
  assert (store_committed (mkFireStoreMutationResult (if i then StoreCommitted else StoreIdempotent) h "")
          = true) as -> by by destruct i.
  cbn [negb]. destruct (listStates_ok bs db' Hbs Hok2) as (l & Hl & Hll & HP). rewrite Hl. cbn [rbind].
  rewrite Hll, Nat.eqb_refl. cbn [negb]. assert (forallb (row_configured bs) l = true) as ->; [|done].
  apply forallb_forall. intros x Hx. rewrite Forall_forall in HP. by apply HP, list_elem_of_In.
Qed.
End Topology.
