(* ===== verification/FireAlarm.v ===== *)
(** What the fire alarm service guarantees: the effect of one command on the durable state, the
    invariant over whole histories with restarts, replays, and the queue of the worker. *)
From S2P Require Import Prelude SensorProtocol SequencePolicy SlotConfig OccupancyDb FireStore FireService FireInvariant FireTopology.

(** * Commands *)

(** The types of the code bound the sequence number. *)
Definition signal_wf (s : FireSignal) : Prop :=
  forall n, fsg_sourceSequence s = Some n -> (n <= uint64_max)%N.
Definition kind_wf (k : CommandKind) : Prop :=
  match k with KindSignal s => signal_wf s | _ => True end.

(** The edges of the alarm's life: which command may move an alarm where, and what becomes of
    its identity. *)
Inductive alarm_edge (channel : string) : CommandKind -> FireAlarmStateRecord ->
    FireAlarmStateRecord -> Prop :=
| edge_open signal s s' :
    fsg_detected signal = true -> fas_desiredLifecycle s = AlarmResolved ->
    fas_desiredLifecycle s' = AlarmOpen ->
    fas_activeAlarmId s' = fireAlarmId channel (fas_fireRevision s') ->
    alarm_edge channel (KindSignal signal) s s'
| edge_clear signal s s' :
    fsg_detected signal = false -> fas_desiredLifecycle s <> AlarmResolved ->
    fas_desiredLifecycle s' = AlarmResolved -> fas_activeAlarmId s' = "" ->
    alarm_edge channel (KindSignal signal) s s'
| edge_acknowledge alarm s s' :
    fas_desiredLifecycle s = AlarmOpen -> fas_activeAlarmId s = alarm ->
    fas_desiredLifecycle s' = AlarmAcknowledged -> fas_activeAlarmId s' = alarm ->
    alarm_edge channel (KindAcknowledge alarm) s s'
| edge_manual s s' :
    fas_desiredLifecycle s <> AlarmResolved ->
    fas_desiredLifecycle s' = AlarmResolved -> fas_activeAlarmId s' = "" ->
    alarm_edge channel KindManualClear s s'.

(** The columns of the alarm, without the sensor's cursor. *)
Definition alarm_of (s : FireAlarmStateRecord) :=
  (fas_desiredLifecycle s, fas_activeAlarmId s, fas_lastEventId s, fas_fireRevision s).

(** The sensor's cursor after a command: the signal's, or the one before. *)
Definition cursor_moved (k : CommandKind) (s s' : FireAlarmStateRecord) : Prop :=
  match k with
  | KindSignal signal =>
      fas_protocolMode s' = protocolFor signal /\ fas_activeBootId s' = fsg_sourceBootId signal /\
      fas_lastSourceSequence s' = fsg_sourceSequence signal
  | _ => fas_protocolMode s' = fas_protocolMode s /\ fas_activeBootId s' = fas_activeBootId s /\
         fas_lastSourceSequence s' = fas_lastSourceSequence s
  end.

Section Commands.
Context {JL : JsonLibrary}.
Variable isoString : time_point -> string.
Variable signal_dump : json -> result string string.
Variable config : FireConfig.
Variable bs : list FireChannelBinding.
Hypothesis Hbs : bindings_ok bs.
(** A printed time and a printed document have at least one character. *)
Hypothesis Hiso : forall t, isoString t <> "".
Hypothesis Hdump : forall j t, signal_dump j = Ok t -> t <> "".

Notation process := (process isoString signal_dump config bs).
Notation process_caught := (process_caught isoString signal_dump config bs).

(** The channel that a command works on. *)
Definition target (c : FireCommand) : option FireChannelBinding :=
  match fc_kind c with
  | KindSignal signal => findBySensor bs (fsg_sensorId signal)
  | _ => findByChannel bs (fc_channelId c)
  end.

Lemma target_in c b : target c = Some b -> b ∈ bs.
Proof.
  unfold target. destruct (fc_kind c); intros H;
    by (apply findBySensor_some in H as [? _] || apply findByChannel_some in H as [? _]).
Qed.

(** The stored signal after a command. *)
Definition signal_stored (k : CommandKind) (s s' : FireAlarmStateRecord) : Prop :=
  match k with
  | KindSignal signal => serializeSignal signal_dump signal = Ok (fas_lastSignalJson s')
  | _ => fas_lastSignalJson s' = fas_lastSignalJson s
  end.

(** What a command did to the channel of [b]: nothing, a change of the cursor only, or one
    transition with its two deliveries. *)
Inductive command_effect (b : FireChannelBinding) (k : CommandKind) (s : FireAlarmStateRecord)
    (db : FireDb) : FireCommandStatus -> N -> FireDb -> Prop :=
| effect_none status revision :
    status <> DurablyCommitted -> command_effect b k s db status revision db
| effect_cursor db1 s' signal :
    k = KindSignal signal -> cursor_gate db s s' = Ok db1 -> cursor_moved k s s' ->
    signal_stored k s s' ->
    fd_states db1 = fd_states db -> fd_outbox db1 = fd_outbox db ->
    fd_open db1 = fd_open db -> alarm_of s' = alarm_of s ->
    fsg_detected signal = activeLifecycle (fas_desiredLifecycle s) ->
    let db' := with_states db1 (<[fcb_channelId b := srow s']> (fd_states db1)) in
    fire_ok bs db' -> channel_ok b s' db' ->
    command_effect b k s db DurablyCommitted (fas_fireRevision s) db'
| effect_transition db1 s' row R L :
    follows b s s' -> alarm_edge (fcb_channelId b) k s s' -> deliveries_for b s' R L ->
    fob_deliveryState L = DeliveryPending -> cursor_gate db s s' = Ok db1 -> cursor_moved k s s' ->
    signal_stored k s s' ->
    fd_states db1 = fd_states db -> fd_outbox db1 = fd_outbox db -> fd_open db1 = fd_open db ->
    fd_outbox db !! retainedDeliveryId (fcb_channelId b) = Some row ->
    let db' := transitioned db1 b s' row R L in
    fire_ok bs db' -> channel_ok b s' db' ->
    command_effect b k s db DurablyCommitted (fas_fireRevision s') db'.

(** The two gates look at the same cursor and the same fact. *)
Lemma gate_of_decision db s signal b next :
  fire_ok bs db -> b ∈ bs -> channel_ok b s db -> fsg_sensorId signal = fcb_sensorId b ->
  protocol_disagrees signal = false ->
  accepted (evaluateSensorSequence (signal_cursor db s signal) (signal_fact signal)) = true ->
  fas_sensorId next = fas_sensorId s -> fas_protocolMode next = protocolFor signal ->
  fas_activeBootId next = fsg_sourceBootId signal ->
  fas_lastSourceSequence next = fsg_sourceSequence signal ->
  exists db1, cursor_gate db s next = Ok db1.
Proof.
  intros Hok Hb H Hsig Hdis Hacc Hse Hmode Hboot Hseq.
  assert (Hcur : mutation_cursor db s next = signal_cursor db s signal).
  { unfold mutation_cursor, signal_cursor. f_equal.
    rewrite Hboot, Hse, (co_sensor _ _ _ H), <-Hsig. unfold protocol_disagrees in Hdis.
    destruct (fsg_sourceProtocolVersion signal); destruct (fsg_sourceBootId signal) as [boot|];
      try done. unfold isSensorBootIdRetired. simpl in Hdis.
    destruct boot as [|c boot]; [by destruct (fsg_sourceSequence signal)|].
    destruct (binding_present bs Hbs b Hb) as (_ & Hne & _).
    rewrite Hsig, (is_empty_false _ Hne), (fk_open _ _ Hok).
    by rewrite (bool_decide_eq_true_2 ("FIRE" = "FIRE")), andb_false_r by done. }
  assert (Hfact : mutation_fact next = signal_fact signal).
  { unfold mutation_fact, signal_fact. rewrite Hmode, Hboot, Hseq. unfold protocolFor.
    by destruct (fsg_sourceProtocolVersion signal). }
  unfold cursor_gate. destruct (negb _); [eauto|].
  rewrite Hmode, Hcur, Hfact, Hacc. unfold protocolFor.
  destruct (fsg_sourceProtocolVersion signal); rewrite bool_decide_eq_false_2 by done;
    simpl; eauto.
Qed.

Lemma mutation_committed ticket ch rev :
  mutationResult ticket ch (mkFireStoreMutationResult StoreCommitted rev "")
  = plainResult ticket DurablyCommitted ch rev "".
Proof. done. Qed.

(** Under a transition that follows [s], either the boundary is closed and nothing happens, or
    the transition commits. *)
Lemma apply_transition_effect b k signal s next alarm db db1 env ticket channel :
  fire_ok bs db -> b ∈ bs -> channel_ok b s db -> follows b s next ->
  alarm_edge (fcb_channelId b) k s next -> cursor_moved k s next -> signal_stored k s next ->
  alarm <> "" -> fas_updatedAt next <> "" -> cursor_gate db s next = Ok db1 ->
  forall r db', applyTransition env (transition_mutation isoString config b signal s next alarm) db
    = (r, db') ->
  (env_boundary env = false /\ db' = db /\
     mutationResult ticket channel r = retryableResult ticket channel (fas_fireRevision s)
       "Fire readiness boundary is unavailable" true) \/
  (env_boundary env = true /\
     mutationResult ticket channel r = plainResult ticket DurablyCommitted channel
       (fas_fireRevision next) "" /\
     command_effect b k s db DurablyCommitted (fas_fireRevision next) db').
Proof.
  intros Hok Hb H Hf He Hcm Hst Ha Hu Hgate r db'. unfold applyTransition.
  destruct (env_boundary env); simpl.
  - intros Heq. right. split; [done|].
    destruct (apply_transition_ok bs Hbs isoString config b signal s next alarm db db1
                Hok Hb H Hf Ha Hu Hgate) as (row & Hrow & Hsink & Hlog & Happ & Hok' & H').
    rewrite Happ in Heq. injection Heq as <- <-. split; [done|].
    destruct (cursor_gate_ok bs b s next db db1 Hgate Hok H) as (Hok1 & _ & Ho1 & Hs1).
    apply (effect_transition b k s db db1 next row); try done.
    + by apply (transition_deliveries_for isoString config b signal s next alarm db).
    + by rewrite (fk_open _ _ Hok1), (fk_open _ _ Hok).
  - intros [= <- <-]. by left.
Qed.

Lemma advance_follows b s db lifecycle alarm updated :
  channel_ok b s db -> (fas_fireRevision s < kMaxFireRevision)%N ->
  activeLifecycle lifecycle = negb (is_empty alarm) ->
  follows b s (advance_state s lifecycle alarm updated).
Proof.
  intros H Hmax Hal. pose proof (co_wf _ _ _ H) as [_ Hseq].
  split; simpl; rewrite ?(co_channel _ _ _ H); try done. apply (co_signal _ _ _ H).
Qed.

Lemma active_alarm b s db :
  channel_ok b s db -> activeLifecycle (fas_desiredLifecycle s) = true -> fas_activeAlarmId s <> "".
Proof. intros H Ha. rewrite (co_alarm _ _ _ H) in Ha. by destruct (fas_activeAlarmId s). Qed.

Lemma rev_not_max s b db :
  channel_ok b s db -> (fas_fireRevision s =? kMaxFireRevision)%N = false ->
  (fas_fireRevision s < kMaxFireRevision)%N.
Proof. intros H He%N.eqb_neq. pose proof (co_wf _ _ _ H) as [? _]. lia. Qed.

(** The gate is open for a state that keeps the cursor and the stored signal. *)
Lemma gate_same db s next :
  fas_protocolMode next = fas_protocolMode s -> fas_activeBootId next = fas_activeBootId s ->
  fas_lastSourceSequence next = fas_lastSourceSequence s ->
  fas_lastSignalJson next = fas_lastSignalJson s -> cursor_gate db s next = Ok db.
Proof.
  intros H1 H2 H3 H4. unfold cursor_gate, cursor_changed.
  rewrite H1, H2, H3, H4, !bool_decide_eq_true_2 by done. done.
Qed.

(** The answer and the effect of a command on its channel. *)
Definition command_outcome (b : FireChannelBinding) (k : CommandKind) (s : FireAlarmStateRecord)
    (db : FireDb) (r : FireCommandResult) (db' : FireDb) : Prop :=
  command_effect b k s db (fcr_status r) (fcr_fireRevision r) db'.

Lemma processManualClear_outcome env ticket b s db r db' :
  fire_ok bs db -> b ∈ bs -> channel_ok b s db ->
  processManualClear isoString config bs env ticket (fcb_channelId b) db = Ok (r, db') ->
  command_outcome b KindManualClear s db r db'.
Proof.
  intros Hok Hb H. unfold processManualClear. rewrite (findByChannel_in bs Hbs b Hb).
  rewrite (channel_get bs Hbs b s db Hok Hb H). cbn [rbind].
  destruct (activeLifecycle (fas_desiredLifecycle s)) eqn:Ha; simpl;
    [|intros [= <- <-]; by apply effect_none].
  destruct (_ =? _)%N eqn:Hm; [intros [= <- <-]; by apply effect_none|].
  rewrite (is_empty_false _ (active_alarm b s db H Ha)).
  destruct (applyTransition _ _ _) as [res db0] eqn:Happ. intros [= <- <-].
  edestruct (apply_transition_effect b KindManualClear) with (11 := Happ)
    (ticket := ticket) (channel := fcb_channelId b) as [(_ & -> & ->)|(_ & -> & He)];
    try done; try by apply effect_none.
  - apply (advance_follows _ _ db); [done|by eapply rev_not_max|done].
  - apply edge_manual; try done. by intros He; rewrite He in Ha.
  - by eapply active_alarm.
  - by apply Hiso.
  - by apply gate_same.
Qed.

Lemma processAcknowledge_outcome env ticket b alarm s db r db' :
  fire_ok bs db -> b ∈ bs -> channel_ok b s db ->
  processAcknowledge isoString config bs env ticket (fcb_channelId b) alarm db = Ok (r, db') ->
  command_outcome b (KindAcknowledge alarm) s db r db'.
Proof.
  intros Hok Hb H. unfold processAcknowledge. rewrite (findByChannel_in bs Hbs b Hb).
  destruct (is_empty alarm) eqn:Hae; [intros [= <- <-]; by apply effect_none|].
  rewrite (channel_get bs Hbs b s db Hok Hb H). cbn [rbind].
  destruct (_ || _)%bool eqn:Hmatch; [intros [= <- <-]; by apply effect_none|]. split_bool.
  destruct (match env_ack_ready env with Some _ => _ | None => _ end);
    [intros [= <- <-]; by apply effect_none|].
  case_bool_decide as Hacked; [intros [= <- <-]; by apply effect_none|].
  destruct (_ =? _)%N eqn:Hm; [intros [= <- <-]; by apply effect_none|].
  destruct (deserializeSignal _) as [signal|]; [|intros [= <- <-]; by apply effect_none].
  destruct (applyTransition _ _ _) as [res db0] eqn:Happ. intros [= <- <-].
  assert (Hopen : fas_desiredLifecycle s = AlarmOpen)
    by (destruct (fas_desiredLifecycle s); done).
  edestruct (apply_transition_effect b (KindAcknowledge alarm)) with (11 := Happ)
    (ticket := ticket) (channel := fcb_channelId b) as [(_ & -> & ->)|(_ & -> & He)];
    try done; try by apply effect_none.
  - apply (advance_follows _ _ db); [done|by eapply rev_not_max|].
    subst alarm. simpl. by rewrite Hae.
  - by apply edge_acknowledge.
  - subst alarm. intros He. by rewrite He in Hae.
  - by apply Hiso.
  - by apply gate_same.
Qed.

(** The state that an accepted signal leads to. *)
Definition signal_state (signal : FireSignal) (s : FireAlarmStateRecord)
    (lifecycle : FireAlarmLifecycle) (alarm event : string) (revision : N)
    (encoded updated : string) : FireAlarmStateRecord :=
  mkFireAlarmStateRecord (fas_channelId s) (fas_sensorId s) (fas_retainedTopic s) lifecycle alarm
    event revision (protocolFor signal) (fsg_sourceBootId signal) (fsg_sourceSequence signal)
    encoded updated.

Lemma signal_gate db s signal b lifecycle alarm event revision encoded updated :
  fire_ok bs db -> b ∈ bs -> channel_ok b s db -> fsg_sensorId signal = fcb_sensorId b ->
  protocol_disagrees signal = false ->
  accepted (evaluateSensorSequence (signal_cursor db s signal) (signal_fact signal)) = true ->
  exists db1, cursor_gate db s
    (signal_state signal s lifecycle alarm event revision encoded updated) = Ok db1.
Proof. intros. by apply (gate_of_decision db s signal b). Qed.

(** Signals that agree with the alarm: at most the cursor moves. *)
Lemma apply_signal_steady env ticket signal b s db r db' :
  fire_ok bs db -> b ∈ bs -> channel_ok b s db -> fsg_sensorId signal = fcb_sensorId b ->
  signal_wf signal -> protocol_disagrees signal = false ->
  accepted (evaluateSensorSequence (signal_cursor db s signal) (signal_fact signal)) = true ->
  fsg_detected signal = activeLifecycle (fas_desiredLifecycle s) ->
  apply_signal isoString signal_dump config env ticket signal b s db = Ok (r, db') ->
  command_outcome b (KindSignal signal) s db r db'.
Proof.
  intros Hok Hb H Hsig Hwf Hdis Hacc Hst. unfold apply_signal.
  destruct (serializeSignal signal_dump signal) as [encoded|] eqn:Henc; [|done]. cbn [rbind].
  rewrite Hst, eqb_reflx. simpl negb. cbn iota.
  set (next := mkFireAlarmStateRecord _ _ _ _ _ _ _ _ _ _ _ _).
  destruct (cursor_changed s next) eqn:Hcc; simpl negb; cbn iota;
    [|intros [= <- <-]; by apply effect_none].
  destruct (signal_gate db s signal b (fas_desiredLifecycle s) (fas_activeAlarmId s)
    (fas_lastEventId s) (fas_fireRevision s) encoded (isoString (env_now env)))
    as [db1 Hgate]; try done.
  destruct (apply_cursor_ok bs Hbs b s next db db1) as (Happ & Hok' & H'); try done.
  - split; [apply (co_wf _ _ _ H)|done].
  - split; [apply (co_channel _ _ _ H)|done].
  - by eapply Hdump.
  - by apply Hiso.
  - rewrite Happ. cbn iota. intros [= <- <-].
    destruct (cursor_gate_ok bs b s next db db1 Hgate Hok H) as (Hok1 & _ & Ho1 & Hs1).
    apply (effect_cursor b _ s db db1 next signal); try done.
    by rewrite (fk_open _ _ Hok1), (fk_open _ _ Hok).
Qed.

(** Signals that change the alarm. *)
Lemma apply_signal_change env ticket signal b s db r db' :
  fire_ok bs db -> b ∈ bs -> channel_ok b s db -> fsg_sensorId signal = fcb_sensorId b ->
  signal_wf signal -> protocol_disagrees signal = false ->
  accepted (evaluateSensorSequence (signal_cursor db s signal) (signal_fact signal)) = true ->
  fsg_detected signal <> activeLifecycle (fas_desiredLifecycle s) ->
  apply_signal isoString signal_dump config env ticket signal b s db = Ok (r, db') ->
  command_outcome b (KindSignal signal) s db r db'.
Proof.
  intros Hok Hb H Hsig Hwf Hdis Hacc Hst. unfold apply_signal.
  destruct (serializeSignal signal_dump signal) as [encoded|] eqn:Henc; [|done]. cbn [rbind].
  assert (eqb (fsg_detected signal) (activeLifecycle (fas_desiredLifecycle s)) = false) as ->
    by (by apply eqb_false_iff).
  simpl negb. cbn iota. destruct (_ =? _)%N eqn:Hm; [intros [= <- <-]; by apply effect_none|].
  set (alarm := if fsg_detected signal then _ else _).
  destruct (is_empty alarm) eqn:Hae; [intros [= <- <-]; by apply effect_none|].
  set (next := mkFireAlarmStateRecord _ _ _ _ _ _ _ _ _ _ _ _).
  destruct (signal_gate db s signal b (fas_desiredLifecycle next) (fas_activeAlarmId next)
    (fas_lastEventId next) (fas_fireRevision next) encoded (isoString (env_now env)))
    as [db1 Hgate]; try done.
  destruct (applyTransition _ _ _) as [res db0] eqn:Happ. intros [= <- <-].
  edestruct (apply_transition_effect b (KindSignal signal)) with (11 := Happ)
    (ticket := ticket) (channel := fcb_channelId b) as [(_ & -> & ->)|(_ & -> & He)];
    try done; try by apply effect_none.
  - split; simpl; rewrite ?(co_channel _ _ _ H); try done; [by eapply rev_not_max| |by eapply Hdump].
    subst alarm. destruct (fsg_detected signal); done.
  - unfold next, alarm. destruct (fsg_detected signal) eqn:Hd.
    + apply edge_open; try done. by destruct (fas_desiredLifecycle s).
    + apply edge_clear; try done. by intros Hr; rewrite Hr in Hst.
  - intros He. by rewrite He in Hae.
  - by apply Hiso.
Qed.

Lemma processSignal_outcome env ticket signal b s db r db' :
  fire_ok bs db -> b ∈ bs -> channel_ok b s db -> fsg_sensorId signal = fcb_sensorId b ->
  signal_wf signal ->
  processSignal isoString signal_dump config env ticket signal b db = Ok (r, db') ->
  command_outcome b (KindSignal signal) s db r db'.
Proof.
  intros Hok Hb H Hsig Hwf. unfold processSignal.
  rewrite (channel_get bs Hbs b s db Hok Hb H). cbn [rbind].
  destruct (protocol_disagrees signal) eqn:Hdis; [intros [= <- <-]; by apply effect_none|].
  case_bool_decide as Hdup.
  { destruct (deserializeSignal _); [destruct (negb _)|]; intros [= <- <-]; by apply effect_none. }
  destruct (accepted _) eqn:Hacc; simpl negb; cbn iota; [|intros [= <- <-]; by apply effect_none].
  destruct (decide (fsg_detected signal = activeLifecycle (fas_desiredLifecycle s))).
  - by apply apply_signal_steady.
  - by apply apply_signal_change.
Qed.

(** One command, whatever it is: the effect on its channel. *)
Lemma process_outcome env c b s db r db' :
  fire_ok bs db -> kind_wf (fc_kind c) -> target c = Some b -> channel_ok b s db ->
  process_caught env c db = (r, db') -> command_outcome b (fc_kind c) s db r db'.
Proof.
  intros Hok Hwf Ht H. pose proof (target_in c b Ht) as Hb. unfold FireService.process_caught.
  destruct (process env c db) as [[r0 db0]|what] eqn:Hp; [|intros [= <- <-]; by apply effect_none].
  intros [= <- <-]. unfold FireService.process in Hp. unfold target in Ht. unfold kind_wf in Hwf.
  destruct (fc_kind c) as [signal|alarm|].
  - rewrite Ht in Hp. apply findBySensor_some in Ht as [_ Hs].
    by eapply processSignal_outcome.
  - apply findByChannel_some in Ht as [_ Hs]. rewrite <-Hs in Hp.
    by eapply processAcknowledge_outcome.
  - apply findByChannel_some in Ht as [_ Hs]. rewrite <-Hs in Hp.
    by eapply processManualClear_outcome.
Qed.

(** A command without a channel of the mapping changes nothing. *)
Lemma process_no_target env c db r db' :
  target c = None -> process_caught env c db = (r, db') ->
  db' = db /\ fcr_status r = CommandRejected /\ fcr_retryable r = false.
Proof.
  unfold target, FireService.process_caught, FireService.process, processAcknowledge,
    processManualClear.
  destruct (fc_kind c); intros ->; by intros [= <- <-].
Qed.
(** * One command *)

(** The deliveries of a channel that a step leaves alone. *)
Definition same_deliveries (b : FireChannelBinding) (db db' : FireDb) : Prop :=
  fd_outbox db' !! retainedDeliveryId (fcb_channelId b)
    = fd_outbox db !! retainedDeliveryId (fcb_channelId b) /\
  forall k, fd_outbox db' !! lifecycleDeliveryId (fireEventId (fcb_channelId b) k)
    = fd_outbox db !! lifecycleDeliveryId (fireEventId (fcb_channelId b) k).

(** A delivery that waits to be published. *)
Definition waits (db : FireDb) (key : string) (revision : N) : Prop :=
  exists d, getFireDelivery db key = Ok (Some d) /\ fob_deliveryState d = DeliveryPending /\
    fob_fireRevision d = revision.

Lemma outbox_waits db key row revision :
  fire_ok bs db -> key <> "" -> fd_outbox db !! key = Some row ->
  fo_delivery_state row = "PENDING" -> fo_fire_revision row = Z.of_N revision ->
  waits db key revision.
Proof.
  intros Hok Hne Hrow Hp Hr. exists (delivery_of key row). unfold getFireDelivery.
  rewrite (is_empty_false _ Hne), (fk_open _ _ Hok). simpl negb. cbn [orb].
  split; [by apply (outbox_row_read bs)|]. unfold delivery_of.
  cbn [fob_deliveryState fob_fireRevision]. rewrite Hp, Hr, N2Z.id. done.
Qed.

(** The channel that a command works on, afterwards. *)
Lemma effect_on_target b k s db status revision db' :
  command_effect b k s db status revision db' -> channel_ok b s db ->
  exists s', channel_ok b s' db' /\
    ((alarm_of s' = alarm_of s /\ same_deliveries b db db') \/
     (alarm_edge (fcb_channelId b) k s s' /\ fas_fireRevision s' = (fas_fireRevision s + 1)%N /\
      status = DurablyCommitted /\ revision = fas_fireRevision s' /\
      waits db' (retainedDeliveryId (fcb_channelId b)) revision /\
      waits db' (lifecycleDeliveryId (fireEventId (fcb_channelId b) revision)) revision)).
Proof.
  intros He H. destruct He as [status revision _|db1 s' signal _ _ _ _ Hs1 Ho1 Hop Hal _ db' Hok' H'
    |db1 s' row R L Hf Hedge Hd HLp _ _ _ Hs1 Ho1 Hop Hrow db' Hok' H'].
  - exists s. split; [done|]. by left.
  - exists s'. split; [done|]. left. split; [done|]. unfold db'. split; simpl; by rewrite Ho1.
  - exists s'. split; [done|]. right. split; [done|]. split; [apply Hf|]. split; [done|].
    split; [done|]. pose proof (fo_event _ _ _ Hf) as Hev.
    destruct Hd as [(HRk & _ & _ & _ & _ & _ & HRr & _) (HLk & _ & _ & _ & _ & HLr & _)]. split.
    + apply (outbox_waits db' _ (renewed_row row R)); try done; [|simpl; by rewrite HRr].
      unfold db'. simpl. rewrite HLk, HRk, lookup_insert_ne, lookup_insert_eq; [done|].
      intros E. by apply (delivery_ids_differ _ _ (eq_sym E)).
    + apply (outbox_waits db' _ (outbox_row L (Z.of_N (fob_fireRevision L)) 0 None)); try done;
        [|simpl; by rewrite HLp|simpl; by rewrite HLr].
      unfold db'. simpl. by rewrite HLk, Hev, lookup_insert_eq.
Qed.

(** The other channels. *)
Lemma effect_on_others b b' k s s' db status revision db' :
  command_effect b k s db status revision db' -> b ∈ bs -> b' ∈ bs -> b' <> b ->
  channel_ok b' s' db -> channel_ok b' s' db' /\ same_deliveries b' db db'.
Proof.
  intros He Hb Hb' Hne H. assert (Hch : fcb_channelId b <> fcb_channelId b')
    by (intros E; by destruct Hne; apply (binding_channel_inj bs Hbs)).
  destruct He as [status revision _|db1 s1 signal _ _ _ _ Hs1 Ho1 Hop Hal _ db' Hok' H'
    |db1 s1 row R L Hf Hedge Hd HLp _ _ _ Hs1 Ho1 Hop Hrow db' Hok' H'].
  - done.
  - split; [|unfold db'; split; simpl; by rewrite Ho1].
    destruct H as [Hr ? ? ? ? ? ? ? Hret Hlife]. split; try done; unfold db'; simpl.
    + by rewrite Hs1, lookup_insert_ne.
    + by rewrite Ho1.
    + by rewrite Ho1.
  - assert (H1 : channel_ok b' s' db1).
    { destruct H as [Hr ? ? ? ? ? ? ? Hret Hlife]. split; try done; by rewrite ?Hs1, ?Ho1. }
    split; [by apply (transitioned_others bs Hbs b b' s' s1 db1 row R L), (fo_event _ _ _ Hf)|].
    destruct Hd as [(HRk & _) (HLk & _)]. rewrite (fo_event _ _ _ Hf) in HLk.
    unfold db', same_deliveries. simpl. rewrite HLk, HRk, Ho1. split.
    + rewrite lookup_insert_ne by (intros E; by apply (delivery_ids_differ _ _ (eq_sym E))).
      by rewrite lookup_insert_ne by (intros ?%retainedDeliveryId_inj; congruence).
    + intros k'.
      rewrite lookup_insert_ne by (intros [? _]%lifecycleDeliveryId_inj%fireEventId_inj; congruence).
      by rewrite lookup_insert_ne by (intros E; by apply (delivery_ids_differ _ _ E)).
Qed.

Lemma effect_ok b k s db status revision db' :
  command_effect b k s db status revision db' -> fire_ok bs db -> fire_ok bs db'.
Proof. by intros []. Qed.

(** C26 [safety] One command moves at most the alarm of its own channel, along an edge of the alarm's
    life cycle, by exactly one revision, and then its retained delivery and a new lifecycle
    delivery of that revision wait in the outbox; every other channel keeps its alarm
    and its deliveries, and an alarm that does not move keeps its deliveries too. *)
Theorem fire_command_step env c db r db' :
  fire_ok bs db -> kind_wf (fc_kind c) -> process_caught env c db = (r, db') ->
  forall b s, b ∈ bs -> channel_ok b s db ->
  exists s', channel_ok b s' db' /\
    ((alarm_of s' = alarm_of s /\ same_deliveries b db db') \/
     (target c = Some b /\ alarm_edge (fcb_channelId b) (fc_kind c) s s' /\
      fas_fireRevision s' = (fas_fireRevision s + 1)%N /\
      fcr_status r = DurablyCommitted /\ fcr_fireRevision r = fas_fireRevision s' /\
      waits db' (retainedDeliveryId (fcb_channelId b)) (fas_fireRevision s') /\
      waits db' (lifecycleDeliveryId (fireEventId (fcb_channelId b) (fas_fireRevision s')))
        (fas_fireRevision s'))).
Proof.
  intros Hok Hwf Hp b s Hb H. destruct (target c) as [bt|] eqn:Ht.
  - pose proof (target_in c bt Ht) as Hbt. destruct (fk_channels _ _ Hok bt Hbt) as [st Hst].
    pose proof (process_outcome env c bt st db r db' Hok Hwf Ht Hst Hp) as He.
    destruct (decide (b = bt)) as [->|Hne].
    + rewrite <-(channel_unique bt s st db H Hst) in *.
      destruct (effect_on_target bt _ s db _ _ db' He H)
        as (s' & H' & [?|(? & ? & ? & Hr & Hw1 & Hw2)]); exists s'; split; auto.
      right. rewrite Hr in *. auto 10.
    + exists s. destruct (effect_on_others bt b _ st s db _ _ db' He Hbt Hb Hne H). auto.
  - destruct (process_no_target env c db r db' Ht Hp) as (-> & _). exists s. split; [done|]. by left.
Qed.

Lemma process_ok env c db r db' :
  fire_ok bs db -> kind_wf (fc_kind c) -> process_caught env c db = (r, db') -> fire_ok bs db'.
Proof.
  intros Hok Hwf Hp. destruct (target c) as [b|] eqn:Ht.
  - pose proof (target_in c b Ht) as Hb. destruct (fk_channels _ _ Hok b Hb) as [s Hs].
    eapply effect_ok; [by eapply process_outcome|done].
  - by destruct (process_no_target env c db r db' Ht Hp) as (-> & _).
Qed.

(** * Histories *)

(** What happens to the durable state over the life of the installation: commands, the
    delivery of rows, and restarts. *)
Inductive FireOp :=
| FireDo (env : FireEnv) (c : FireCommand)
| FireInFlight (stamp key : string) (revision : N)
| FireRequeue (stamp key : string) (revision : N) (error : string)
| FireAcknowledged (stamp key : string) (revision : N)
| FireResetInFlight (stamp : string)
| FireInitialize (now : time_point).

Definition fire_op_wf (op : FireOp) : Prop :=
  match op with FireDo _ c => kind_wf (fc_kind c) | _ => True end.

Definition fire_step (db : FireDb) (op : FireOp) : FireDb :=
  match op with
  | FireDo env c => (process_caught env c db).2
  | FireInFlight stamp key revision => (markFireDeliveryInFlight stamp key revision db).2
  | FireRequeue stamp key revision error => (markFireDeliveryPending stamp key revision error db).2
  | FireAcknowledged stamp key revision => (acknowledgeFireDelivery stamp key revision db).2
  | FireResetInFlight stamp => (resetFireInFlightDeliveries stamp db).2
  | FireInitialize now =>
      match initialize_work isoString signal_dump config bs now db with
      | Ok (_, db') => db'
      | Err _ => db
      end
  end.
Definition fire_run (db : FireDb) (ops : list FireOp) : FireDb := foldl fire_step db ops.

(** Starting again on a database that has the channels changes nothing. *)
Lemma initialize_again now db answer db' :
  bs <> [] -> fire_ok bs db ->
  initialize_work isoString signal_dump config bs now db = Ok (answer, db') ->
  answer = inr tt /\ db' = db.
Proof.
  intros Hne Hok Hi.
  destruct (bootstrap_topology isoString signal_dump config now bs) as [topo|] eqn:Ht.
  - destruct (initialize_ok isoString signal_dump config Hiso Hdump now bs bs topo db Hbs Hne Hbs
      (fun _ H => H) Hok Ht) as (db2 & Hi2 & _ & Hsame & _).
    rewrite Hi in Hi2. injection Hi2 as -> <-. auto.
  - unfold initialize_work in Hi. by rewrite Ht in Hi.
Qed.

Lemma fire_step_ok db op : bs <> [] -> fire_op_wf op -> fire_ok bs db -> fire_ok bs (fire_step db op).
Proof.
  intros Hne Hwf Hok. destruct op as [env c| | | | |now]; simpl.
  - destruct (process_caught env c db) as [r db'] eqn:Hp. by apply (process_ok env c db r).
  - eapply fire_ok_delivery; [apply markInFlight_step|done].
  - eapply fire_ok_delivery; [apply markPending_step|done].
  - eapply fire_ok_delivery; [apply acknowledge_step|done].
  - eapply fire_ok_delivery; [apply reset_step|done].
  - destruct (initialize_work _ _ _ _ _ _) as [[answer db']|] eqn:Hi; [|done].
    by destruct (initialize_again now db answer db' Hne Hok Hi) as [_ ->].
Qed.

Lemma fire_run_ok db ops :
  bs <> [] -> Forall fire_op_wf ops -> fire_ok bs db -> fire_ok bs (fire_run db ops).
Proof.
  intros Hne Hwf. revert db. induction Hwf as [|op ops Hop _ IH]; intros db Hok; [done|].
  by apply IH, fire_step_ok.
Qed.
End Commands.

(** * The mapping *)

Lemma char_in_false c s : char_in c s = false -> sall (fun d => negb (bool_decide (d = c))) s = true.
Proof. unfold char_in. by intros ?%negb_false_iff. Qed.

Lemma parse_fire_entries_ok prefix C S T entries bs :
  parse_fire_entries prefix S C T entries = Ok bs ->
  bindings_ok bs /\
  Forall (fun b => fcb_channelId b ∉ C /\ fcb_sensorId b ∉ S /\ fcb_retainedTopic b ∉ T) bs.
Proof.
  revert C S T bs. induction entries as [|entry entries IH]; intros C S T bs.
  { intros [= <-]. split; [split; constructor|constructor]. }
  cbn [parse_fire_entries]. destruct (is_empty _); [done|].
  destruct (break_on "=" _) as [[before after]|]; [|done]. destruct (char_in "=" after); [done|].
  destruct (_ || _)%bool eqn:Hid; [done|]. split_bool.
  destruct (_ || _)%bool eqn:Hset; [done|]. split_bool. intros Hp. rinv.
  destruct (IH _ _ _ _ E) as [[N1 N2 N3 N4] Hfresh].
  assert (Hf : forall y, y ∈ x -> fcb_channelId y <> fire_trim after /\
    fcb_sensorId y <> fire_trim before /\
    fcb_retainedTopic y <> joinTopic prefix (fire_trim after) /\
    fcb_channelId y ∉ C /\ fcb_sensorId y ∉ S /\ fcb_retainedTopic y ∉ T).
  { rewrite Forall_forall in Hfresh. intros y Hy. specialize (Hfresh y Hy). set_solver. }
  split.
  - split; rewrite ?fmap_cons.
    + apply NoDup_cons. split; [|done]. intros (y & He & Hy)%list_elem_of_fmap. simpl in He.
      destruct (Hf y Hy) as (? & _). congruence.
    + apply NoDup_cons. split; [|done]. intros (y & He & Hy)%list_elem_of_fmap. simpl in He.
      destruct (Hf y Hy) as (_ & ? & _). congruence.
    + apply NoDup_cons. split; [|done]. intros (y & He & Hy)%list_elem_of_fmap. simpl in He.
      destruct (Hf y Hy) as (_ & _ & ? & _). congruence.
    + constructor; [|done]. simpl. assert (Hne : fire_trim after <> "") by by apply is_empty_true_inv.
      split; [done|]. split; [by apply is_empty_true_inv|]. by apply joinTopic_nonempty.
  - constructor; [done|]. apply Forall_forall. intros y Hy. destruct (Hf y Hy) as (_ & _ & _ & ?). done.
Qed.

Lemma fire_bindings_ok specification prefix bs :
  parseFireChannelBindingsStrict specification prefix = Ok bs -> bindings_ok bs /\ bs <> [].
Proof.
  unfold parseFireChannelBindingsStrict. destruct (is_empty _); [done|]. intros H. rinv.
  apply parse_fire_entries_ok in E as [E _]. destruct x; [done|]. injection H as <-. done.
Qed.
