(* ===== verification/FireSignals.v ===== *)
(** Signals of the fire sensors: the round trip through the durable state, the effect of an
    accepted signal, redelivery, and the uniqueness of versioned signals over histories. *)
From S2P Require Import Prelude SensorProtocol SequencePolicy SlotConfig OccupancyDb FireStore FireService FireInvariant FireTopology FireAlarm.

(** * The stored signal *)

(** The signal with its time cut to milliseconds. *)
Definition cut_to_millis (s : FireSignal) : FireSignal :=
  set_occurred s (Z.quot (fsg_occurredAt s) 1000000 * 1000000).

Lemma document_fields s :
  json_find (signal_document s) "sensor_id" = Some (JString (fsg_sensorId s)) /\
  json_find (signal_document s) "detected" = Some (JBool (fsg_detected s)) /\
  json_find (signal_document s) "occurred_at_ms"
    = Some (JInteger (Z.quot (fsg_occurredAt s) 1000000)) /\
  json_find (signal_document s) "source_transport" = Some (JString (fsg_sourceTransport s)) /\
  json_find (signal_document s) "source_protocol"
    = Some (JString (protocol_to_string (fsg_sourceProtocolVersion s))) /\
  json_find (signal_document s) "raw_payload" = Some (JString (fsg_rawPayload s)) /\
  find_text (signal_document s) "source_sequence" = (pretty <$> fsg_sourceSequence s) /\
  find_text (signal_document s) "source_boot_id" = fsg_sourceBootId s /\
  is_object (signal_document s) = true.
Proof.
  unfold signal_document, find_text.
  destruct (fsg_sourceSequence s) as [n|], (fsg_sourceBootId s) as [boot|];
    cbn [fmap option_fmap option_map set_member]; repeat split; reflexivity.
Qed.

Lemma protocol_roundtrip v : sensorProtocolVersionFromString (protocol_to_string v) = Some v.
Proof. by destruct v. Qed.

Lemma cut_in_range t : - 2 ^ 63 <= t < 2 ^ 63 ->
  time_point_of_millis (wrap_int64 (Z.quot t 1000000)) = Z.quot t 1000000 * 1000000.
Proof.
  intros Ht. assert (Hq : Z.abs (Z.quot t 1000000 * 1000000) <= Z.abs t)
    by (Z.to_euclidean_division_equations; lia).
  assert (Hq2 : Z.abs (Z.quot t 1000000) <= Z.abs t) by (Z.to_euclidean_division_equations; lia).
  assert (Hq3 : t = - 2 ^ 63 -> Z.quot t 1000000 * 1000000 <> - 2 ^ 63 /\ True)
    by (intros ->; by vm_compute).
  unfold time_point_of_millis.
  rewrite (wrap_int64_id (Z.quot t 1000000)) by (Z.to_euclidean_division_equations; lia).
  apply wrap_int64_id. Z.to_euclidean_division_equations; lia.
Qed.

(** The document of a signal gives back the signal, with the time cut to milliseconds. *)
Lemma deserialize_document {JL : JsonLibrary} s t :
  fsg_sensorId s <> "" -> signal_wf s -> - 2 ^ 63 <= fsg_occurredAt s < 2 ^ 63 ->
  json_parse t = Ok (signal_document s) -> deserializeSignal t = Some (cut_to_millis s).
Proof.
  intros Hne Hwf Ht Hp. unfold deserializeSignal, parse_or_throw. rewrite Hp. cbn [rbind].
  destruct (document_fields s) as (H1 & H2 & H3 & H4 & H5 & H6 & H7 & H8 & H9).
  unfold signal_of_document, value_string, value_bool, value_int64, value_number.
  rewrite H9, H1, H2, H3, H4, H5, H6, H7, H8. cbn [negb rbind].
  rewrite protocol_roundtrip, (is_empty_false _ Hne), cut_in_range by done.
  destruct (fsg_sourceSequence s) as [n|] eqn:Hn; cbn [fmap option_fmap option_map];
    [rewrite parseUnsigned_pretty by by apply Hwf|];
    unfold cut_to_millis, set_occurred; by rewrite Hn.
Qed.

(** The signal that the durable state keeps is the signal that came in: reading
    back the JSON document that was written gives every field, with the time cut to milliseconds
    (the JSON library is only used for a document that it prints and parses back). *)
Theorem signal_roundtrip {JL : JsonLibrary} (signal_dump : json -> result string string) s t :
  fsg_sensorId s <> "" -> signal_wf s -> - 2 ^ 63 <= fsg_occurredAt s < 2 ^ 63 ->
  serializeSignal signal_dump s = Ok t -> json_parse t = Ok (signal_document s) ->
  deserializeSignal t = Some (cut_to_millis s).
Proof. intros Hne Hwf Ht _ Hp. by apply deserialize_document. Qed.

(** * The durable cursor of a fire sensor *)

(** The boot ids of a sensor that the table of retired ids holds. *)
Definition retired_boots (db : FireDb) (sensor : string) : gset string :=
  set_omap (fun x : string * (string * string) =>
    if bool_decide (x.1 = "FIRE" /\ x.2.1 = sensor) then Some x.2.2 else None) (fd_retired db).

(** The cursor that the database keeps for a channel. *)
Definition fire_cursor (db : FireDb) (s : FireAlarmStateRecord) : SensorSequenceState :=
  mkSensorSequenceState (sequenceModeFor (fas_protocolMode s)) (fas_activeBootId s)
    (fas_lastSourceSequence s) (retired_boots db (fas_sensorId s)).

(** How an accepted fact moves it: as the policy's own commit, except that a legacy fact without a
    sequence number erases the number kept so far. *)
Definition fire_commit (state : SensorSequenceState) (fact : SensorSequenceFact)
    : SensorSequenceState :=
  match ssf_protocolVersion fact with
  | LegacyV1 => mkSensorSequenceState Legacy None (ssf_sequence fact) (sss_retiredBootIds state)
  | BootEpochV2 => commitSensorSequence state fact
  end.

Lemma elem_of_retired_boots db sensor boot :
  boot ∈ retired_boots db sensor <-> ("FIRE", (sensor, boot)) ∈ fd_retired db.
Proof.
  unfold retired_boots. rewrite elem_of_set_omap. split.
  - intros ([k [x y]] & Hx & Hc). case_bool_decide as He; [|done]. simpl in *.
    destruct He as [-> ->]. by injection Hc as ->.
  - intros Hx. eexists. split; [exact Hx|]. by rewrite bool_decide_eq_true_2.
Qed.

Lemma fire_commit_ok s f :
  sequence_ok s -> accepted (evaluateSensorSequence s f) = true -> sequence_ok (fire_commit s f).
Proof.
  intros Hs Ha. pose proof (sequence_step_ok s f Hs) as H. unfold sequence_step in H. rewrite Ha in H.
  unfold fire_commit. destruct (ssf_protocolVersion f) eqn:Hv; [|done].
  apply accepted_true in Ha. rewrite evaluate_legacy in Ha by done.
  apply evaluateLegacy_accept in Ha as (_ & Hm & _). split; simpl; try done.
  intros _. by destruct (so_other s Hs Hm).
Qed.

Lemma fire_commit_passed s f e :
  sequence_ok s -> accepted (evaluateSensorSequence s f) = true -> passed s e ->
  passed (fire_commit s f) e.
Proof.
  intros Hs Ha Hp. pose proof (passed_step s f e Hs Hp) as H. unfold sequence_step in H. rewrite Ha in H.
  unfold fire_commit. destruct (ssf_protocolVersion f) eqn:Hv; [|done].
  apply accepted_true in Ha. rewrite evaluate_legacy in Ha by done.
  apply evaluateLegacy_accept in Ha as (_ & Hm & _). destruct (so_other s Hs Hm) as [_ Hr].
  unfold passed in Hp. rewrite Hr in Hp. set_solver.
Qed.

Lemma fire_commit_new s f e :
  sequence_ok s -> accepted (evaluateSensorSequence s f) = true -> epoch_of f = Some e ->
  ~ passed s e /\ passed (fire_commit s f) e.
Proof.
  intros Hs Ha He. destruct (accepted_passed s f e Hs Ha He) as [H1 H2]. split; [done|].
  unfold sequence_step in H2. rewrite Ha in H2. unfold fire_commit.
  by destruct (epoch_of_versioned _ _ He) as (-> & _).
Qed.

Section Signals.
Context {JL : JsonLibrary}.
Variable isoString : time_point -> string.
Variable signal_dump : json -> result string string.
Variable config : FireConfig.
Variable bs : list FireChannelBinding.
Hypothesis Hbs : bindings_ok bs.
Hypothesis Hiso : forall t, isoString t <> "".
Hypothesis Hdump : forall j t, signal_dump j = Ok t -> t <> "".

Notation process_caught := (process_caught isoString signal_dump config bs).

(** The premises under which the sequence policy lets a signal of the channel through. *)
Record signal_accepted (db : FireDb) (b : FireChannelBinding) (s : FireAlarmStateRecord)
    (signal : FireSignal) : Prop := {
  sa_ok : fire_ok bs db;
  sa_sensor : findBySensor bs (fsg_sensorId signal) = Some b;
  sa_channel : channel_ok b s db;
  sa_wf : signal_wf signal;
  sa_agrees : protocol_disagrees signal = false;
  sa_accepted :
    accepted (evaluateSensorSequence (signal_cursor db s signal) (signal_fact signal)) = true
}.

Lemma not_duplicate d : accepted d = true -> bool_decide (ssd_code d = Duplicate) = false.
Proof. intros ->%accepted_true. done. Qed.

(** The exact answer to an accepted signal that can be stored while the boundary is open. *)
Lemma accepted_answer env c signal b s db text r db' :
  signal_accepted db b s signal -> fc_kind c = KindSignal signal ->
  serializeSignal signal_dump signal = Ok text -> env_boundary env = true ->
  (fas_fireRevision s < kMaxFireRevision)%N -> process_caught env c db = (r, db') ->
  fcr_retryable r = false /\
  (fcr_status r = DurablyCommitted \/
   (fcr_status r = CommandIdempotent /\ db' = db /\
    fsg_detected signal = activeLifecycle (fas_desiredLifecycle s) /\
    cursor_moved (KindSignal signal) s s)).
Proof.
  intros [Hok Hsen H Hwf Hdis Hacc] Hk Htext Henv Hmax.
  pose proof (findBySensor_some bs _ _ Hsen) as [Hb Hsig].
  unfold FireService.process_caught, FireService.process. rewrite Hk, Hsen.
  unfold processSignal. rewrite (channel_get bs Hbs b s db Hok Hb H). cbn [rbind].
  rewrite Hdis, (not_duplicate _ Hacc), Hacc. cbn [negb]. unfold apply_signal. rewrite Htext. cbn [rbind].
  destruct (eqb _ _) eqn:Heq; cbn [negb].
  - apply eqb_prop in Heq. set (next := mkFireAlarmStateRecord _ _ _ _ _ _ _ _ _ _ _ _).
    destruct (cursor_changed s next) eqn:Hcc; cbn [negb].
    + destruct (signal_gate bs Hbs db s signal b (fas_desiredLifecycle s) (fas_activeAlarmId s)
        (fas_lastEventId s) (fas_fireRevision s) text (isoString (env_now env)))
        as [db1 Hgate]; try done.
      destruct (apply_cursor_ok bs Hbs b s next db db1) as (Happ & _); try done.
      * split; [apply (co_wf _ _ _ H)|done].
      * split; [apply (co_channel _ _ _ H)|done].
      * by eapply Hdump.
      * by apply Hiso.
      * rewrite Happ. cbn iota. intros [= <- <-]. by auto.
    + intros [= <- <-]. split; [done|]. right. split; [done|]. split; [done|]. split; [done|].
      unfold cursor_changed in Hcc. split_bool. unfold next in *. simpl in *. auto.
  - rewrite (proj2 (N.eqb_neq _ _)) by lia. set (alarm := if fsg_detected signal then _ else _).
    assert (Hal : alarm <> "").
    { unfold alarm. destruct (fsg_detected signal) eqn:Hd; [done|].
      apply (active_alarm b s db H). by destruct (activeLifecycle (fas_desiredLifecycle s)). }
    rewrite (is_empty_false _ Hal). set (next := mkFireAlarmStateRecord _ _ _ _ _ _ _ _ _ _ _ _).
    destruct (signal_gate bs Hbs db s signal b (fas_desiredLifecycle next) (fas_activeAlarmId next)
      (fas_lastEventId next) (fas_fireRevision next) text (isoString (env_now env)))
      as [db1 Hgate]; try done.
    unfold applyTransition. rewrite Henv. cbn [negb].
    destruct (apply_transition_ok bs Hbs isoString config b signal s next alarm db db1)
      as (row & _ & _ & _ & Happ & _); try done.
    + split; simpl; rewrite ?(co_channel _ _ _ H); try done; [|by eapply Hdump].
      unfold alarm. by destruct (fsg_detected signal).
    + by apply Hiso.
    + rewrite Happ. intros [= <- <-]. by auto.
Qed.

(** An accepted signal decides the alarm: if it can be stored and the readiness boundary is
    open, the command is finished, the alarm of its channel is active afterwards exactly when
    the signal reports fire, and the channel's cursor is the signal's. *)
Theorem fire_signal_decides env c signal b s db text r db' :
  signal_accepted db b s signal -> fc_kind c = KindSignal signal ->
  serializeSignal signal_dump signal = Ok text -> env_boundary env = true ->
  (fas_fireRevision s < kMaxFireRevision)%N -> process_caught env c db = (r, db') ->
  fcr_retryable r = false /\
  (fcr_status r = DurablyCommitted \/ fcr_status r = CommandIdempotent) /\
  exists s', channel_ok b s' db' /\
    activeLifecycle (fas_desiredLifecycle s') = fsg_detected signal /\
    cursor_moved (KindSignal signal) s s'.
Proof.
  intros Hsa Hk Htext Henv Hmax Hp.
  destruct (accepted_answer env c signal b s db text r db' Hsa Hk Htext Henv Hmax Hp)
    as [Hret Hans].
  destruct Hsa as [Hok Hsen H Hwf Hdis Hacc]. split; [done|]. destruct Hans as [Hs|(Hs & -> & Hd & Hc)].
  - split; [by left|].
    assert (Ht : target bs c = Some b) by (unfold target; by rewrite Hk).
    assert (Hkw : kind_wf (fc_kind c)) by (by rewrite Hk).
    pose proof (process_outcome isoString signal_dump config bs Hbs Hiso Hdump env c b s db r db'
      Hok Hkw Ht H Hp) as He. unfold command_outcome in He. rewrite Hk, Hs in He.
    remember (fcr_fireRevision r) as rev. remember DurablyCommitted as st.
    destruct He as [st rev Hn|db1 s' sg Hks Hg Hcm Hst Hs1 Ho1 Hop Hal Hd db' Hok' H'
      |db1 s' row R L Hf Hedge Hd HLp Hg Hcm Hst Hs1 Ho1 Hop Hrow db' Hok' H']; [by subst| |].
    + injection Hks as <-. exists s'. split; [done|]. split; [|done]. unfold alarm_of in Hal.
      injection Hal as Hl _ _ _. by rewrite Hl.
    + exists s'. split; [done|]. split; [|done]. remember (KindSignal signal) as k.
      destruct Hedge as [sg s s' Hdet _ Hl _|sg s s' Hdet _ Hl _| |]; try done;
        injection Heqk as ->; by rewrite Hl, Hdet.
  - split; [by right|]. exists s. split; [done|]. split; [by symmetry|done].
Qed.

(** * Redelivery *)

(** The cursor gate retires at most the boot id that the next state replaces. *)
Lemma gate_retired db s next db1 x :
  cursor_gate db s next = Ok db1 -> x ∈ fd_retired db1 ->
  x ∈ fd_retired db \/
  (fas_protocolMode s = FireVersioned /\ exists active boot,
     fas_activeBootId s = Some active /\ fas_activeBootId next = Some boot /\ active <> boot /\
     x = ("FIRE", (fas_sensorId next, active))).
Proof.
  unfold cursor_gate. destruct (negb _); [intros [= <-]; by left|].
  case_bool_decide; [done|]. destruct (negb _); [done|]. intros [= <-].
  unfold mutation_cursor, mutation_fact. cbn [sss_activeBootId sss_mode ssf_bootId].
  destruct (fas_activeBootId s) as [active|] eqn:Ha; [|by left].
  destruct (fas_activeBootId next) as [boot|] eqn:Hb; [|by left].
  destruct (_ && _)%bool eqn:Hc; [|by left]. split_bool. simpl.
  intros [->%elem_of_singleton|?]%elem_of_union; [|by left]. right.
  split; [by destruct (fas_protocolMode s)|]. eauto 10.
Qed.

(** A signal that the cursor already stands on is a duplicate. *)
Lemma duplicate_again db s signal n :
  cursor_moved (KindSignal signal) s s -> protocol_disagrees signal = false ->
  fsg_sourceSequence signal = Some n ->
  (forall boot, fsg_sourceBootId signal = Some boot ->
     isSensorBootIdRetired db "FIRE" (fsg_sensorId signal) boot = false) ->
  ssd_code (evaluateSensorSequence (signal_cursor db s signal) (signal_fact signal)) = Duplicate.
Proof.
  intros (Hm & Hb & Hq) Hdis Hn Hret. unfold evaluateSensorSequence, signal_fact.
  unfold protocol_disagrees in Hdis. unfold protocolFor in Hm.
  destruct (fsg_sourceProtocolVersion signal) eqn:Hv; cbn [ssf_protocolVersion].
  - destruct (fsg_sourceBootId signal) eqn:Hboot; [done|]. unfold evaluateLegacy, signal_cursor.
    cbn [ssf_bootId ssf_sequence sss_lastSequence sss_mode nonempty_option]. rewrite Hm, Hq, Hn.
    cbn [sequenceModeFor]. rewrite !bool_decide_eq_false_2 by done.
    by rewrite bool_decide_eq_true_2.
  - destruct (fsg_sourceBootId signal) as [boot|] eqn:Hboot; [|done].
    unfold evaluateVersioned, signal_cursor.
    cbn [ssf_bootId ssf_sequence sss_lastSequence sss_mode sss_activeBootId sss_retiredBootIds].
    rewrite Hm, Hb, Hq, Hn, Hv, Hboot in *. destruct (nonempty_option (Some boot)) as [b'|] eqn:Hne; [|done].
    apply nonempty_option_some in Hne as [[= ->] _]. rewrite (Hret b' eq_refl).
    rewrite (bool_decide_eq_false_2 (b' ∈ ∅)) by set_solver. cbn [sequenceModeFor].
    by rewrite !bool_decide_eq_true_2.
Qed.

(** An accepted signal names no retired boot id. *)
Lemma accepted_not_retired db s signal boot :
  accepted (evaluateSensorSequence (signal_cursor db s signal) (signal_fact signal)) = true ->
  protocol_disagrees signal = false -> fsg_sourceBootId signal = Some boot ->
  isSensorBootIdRetired db "FIRE" (fsg_sensorId signal) boot = false.
Proof.
  intros Hacc Hdis Hb. unfold protocol_disagrees in Hdis. unfold evaluateSensorSequence in Hacc.
  destruct (fsg_sourceProtocolVersion signal) eqn:Hv; cbn [ssf_protocolVersion signal_fact] in Hacc;
    rewrite Hv in Hacc; [by rewrite Hb in Hdis|].
  unfold evaluateVersioned, signal_fact, signal_cursor in Hacc.
  cbn [ssf_bootId ssf_sequence sss_retiredBootIds] in Hacc. rewrite Hv, Hb in Hacc. rewrite Hb in Hdis.
  destruct (nonempty_option (Some boot)) as [b'|] eqn:Hne; [|done].
  apply nonempty_option_some in Hne as [[= ->] _]. destruct (fsg_sourceSequence signal); [|done].
  destruct (isSensorBootIdRetired _ _ _ _); [|done].
  by rewrite bool_decide_eq_true_2 in Hacc by set_solver.
Qed.

(** The boot id of a signal stays usable when the signal itself is committed. *)
Lemma commit_not_retired db s next db1 db' signal boot :
  cursor_gate db s next = Ok db1 -> fd_retired db' = fd_retired db1 -> fd_open db' = fd_open db ->
  fd_open db = true -> fas_activeBootId next = fsg_sourceBootId signal ->
  fsg_sourceBootId signal = Some boot ->
  isSensorBootIdRetired db "FIRE" (fsg_sensorId signal) boot = false ->
  fas_sensorId next = fsg_sensorId signal ->
  isSensorBootIdRetired db' "FIRE" (fsg_sensorId signal) boot = false.
Proof.
  intros Hg Hr Ho Hopen Hb Hboot. unfold isSensorBootIdRetired. rewrite Ho, Hopen. cbn [negb].
  destruct (_ || _)%bool; [done|]. intros Hret Hse. unfold boot_retired in *. split_bool.
  apply bool_decide_eq_false_2. rewrite Hr. intros Hin.
  destruct (gate_retired _ _ _ _ _ Hg Hin) as [?|(_ & a & b' & _ & Hb' & Hne & [= _ ?])]; [done|].
  congruence.
Qed.

(** A fire signal that arrives again, as a resent line or as a command that is retried after its
    commit, is recognised: nothing in the database changes and the answer is idempotent.
    (The stored document is one that the JSON library parses back.) *)
Theorem fire_redelivery env env' c c' signal n b s db text r db' :
  signal_accepted db b s signal -> fsg_sourceSequence signal = Some n ->
  fc_kind c = KindSignal signal -> fc_kind c' = KindSignal signal ->
  - 2 ^ 63 <= fsg_occurredAt signal < 2 ^ 63 ->
  serializeSignal signal_dump signal = Ok text -> json_parse text = Ok (signal_document signal) ->
  env_boundary env = true -> (fas_fireRevision s < kMaxFireRevision)%N ->
  process_caught env c db = (r, db') ->
  exists r', process_caught env' c' db' = (r', db') /\ fcr_status r' = CommandIdempotent.
Proof.
  intros Hsa Hn Hk Hk' Hrange Htext Hparse Henv Hmax Hp.
  destruct (accepted_answer env c signal b s db text r db' Hsa Hk Htext Henv Hmax Hp) as [_ Hans].
  destruct Hsa as [Hok Hsen H Hwf Hdis Hacc].
  pose proof (findBySensor_some bs _ _ Hsen) as [Hb Hsig].
  destruct Hans as [Hs|(_ & _ & _ & Hcm)].
  2:{ pose proof (duplicate_again db s signal n Hcm Hdis Hn) as Hd.
      apply accepted_true in Hacc as Hacc'. rewrite Hacc' in Hd. discriminate Hd.
      intros boot Hboot. by apply (accepted_not_retired db s). }
  assert (Ht : target bs c = Some b) by (unfold target; by rewrite Hk).
  assert (Hkw : kind_wf (fc_kind c)) by (by rewrite Hk).
  pose proof (process_outcome isoString signal_dump config bs Hbs Hiso Hdump env c b s db r db'
    Hok Hkw Ht H Hp) as He. unfold command_outcome in He. rewrite Hk, Hs in He.
  assert (exists s', fire_ok bs db' /\ channel_ok b s' db' /\ cursor_moved (KindSignal signal) s s' /\
            fas_lastSignalJson s' = text /\ exists db1, cursor_gate db s s' = Ok db1 /\
            fd_retired db' = fd_retired db1) as (s' & Hok' & H' & Hcm & Htxt & db1 & Hg & Hr).
  { remember (fcr_fireRevision r) as rev. remember DurablyCommitted as st.
    destruct He as [st rev Hne|db1 s' sg Hks Hg Hcm Hst Hs1 Ho1 Hop Hal Hd db' Hok' H'
      |db1 s' row R L Hf Hedge Hd HLp Hg Hcm Hst Hs1 Ho1 Hop Hrow db' Hok' H']; [by subst| |];
      (exists s'; split; [done|]; split; [done|]; split; [done|]; split;
        [simpl in Hst; congruence|by exists db1]). }
  unfold FireService.process_caught, FireService.process. rewrite Hk', Hsen.
  unfold processSignal. rewrite (channel_get bs Hbs b s' db' Hok' Hb H'). cbn [rbind]. rewrite Hdis.
  assert (Hd : ssd_code (evaluateSensorSequence (signal_cursor db' s' signal) (signal_fact signal))
               = Duplicate).
  { apply (duplicate_again db' s' signal n); try done. intros boot Hboot.
    apply (commit_not_retired db s s' db1 db'); try done.
    - by rewrite (fk_open _ _ Hok), (fk_open _ _ Hok').
    - apply (fk_open _ _ Hok).
    - apply Hcm.
    - by apply (accepted_not_retired db s).
    - by rewrite (co_sensor _ _ _ H'). }
  rewrite (bool_decide_eq_true_2 _ Hd), Htxt.
  rewrite (deserialize_document signal text) by
    (try done; rewrite <-Hsig; by apply (binding_present bs Hbs b Hb)).
  cbn [fsg_detected cut_to_millis set_occurred]. rewrite eqb_reflx. cbn [negb]. eauto.
Qed.

(** * Versioned signals over histories *)

(** The cursor of the gate and the durable cursor decide alike. *)
Lemma decision_same db b s signal :
  fire_ok bs db -> b ∈ bs -> channel_ok b s db -> fsg_sensorId signal = fcb_sensorId b ->
  protocol_disagrees signal = false ->
  evaluateSensorSequence (signal_cursor db s signal) (signal_fact signal)
  = evaluateSensorSequence (fire_cursor db s) (signal_fact signal).
Proof.
  intros Hok Hb H Hsig Hdis. unfold evaluateSensorSequence, protocol_disagrees in *.
  destruct (fsg_sourceProtocolVersion signal) eqn:Hv; cbn [ssf_protocolVersion signal_fact];
    rewrite Hv; [done|].
  unfold evaluateVersioned, signal_cursor, fire_cursor, signal_fact.
  cbn [ssf_bootId ssf_sequence sss_lastSequence sss_mode sss_activeBootId sss_retiredBootIds].
  rewrite Hv. destruct (fsg_sourceBootId signal) as [boot|]; [|done].
  destruct (nonempty_option (Some boot)) as [b'|] eqn:Hne; [|done].
  apply nonempty_option_some in Hne as [[= ->] Hbne].
  assert (bool_decide (b' ∈ (if isSensorBootIdRetired db "FIRE" (fsg_sensorId signal) b'
            then {[ b' ]} else ∅ : gset string))
          = bool_decide (b' ∈ retired_boots db (fas_sensorId s))) as ->; [|done].
  apply bool_decide_ext. rewrite elem_of_retired_boots, (co_sensor _ _ _ H), <-Hsig.
  unfold isSensorBootIdRetired. destruct (binding_present bs Hbs b Hb) as (_ & Hse & _).
  rewrite <-Hsig in Hse. rewrite (is_empty_false _ Hse), (is_empty_false _ Hbne), (fk_open _ _ Hok).
  rewrite (bool_decide_eq_true_2 ("FIRE" = "FIRE")) by done. rewrite andb_false_r. cbn [orb negb].
  unfold boot_retired. case_bool_decide; set_solver.
Qed.

(** The gate on the retired ids, as sets. *)
Lemma gate_retired_boots db s next db1 signal sensor :
  cursor_gate db s next = Ok db1 -> cursor_moved (KindSignal signal) s next ->
  retired_boots db1 sensor =
    match fas_activeBootId s, fsg_sourceBootId signal with
    | Some active, Some boot =>
        if bool_decide (fas_protocolMode s = FireVersioned) && negb (bool_decide (active = boot)) &&
           bool_decide (fas_sensorId next = sensor)
        then {[ active ]} ∪ retired_boots db sensor else retired_boots db sensor
    | _, _ => retired_boots db sensor
    end.
Proof.
  intros Hg (Hm & Hb & Hq). apply set_eq. intros x.
  assert (Hmode : bool_decide (sequence_mode (fas_protocolMode s) = Versioned)
                  = bool_decide (fas_protocolMode s = FireVersioned))
    by (apply bool_decide_ext; by destruct (fas_protocolMode s)).
  unfold cursor_gate in Hg. destruct (negb (_ || _)) eqn:Hsame.
  { injection Hg as <-. apply negb_true_iff, orb_false_elim in Hsame as [Hc _].
    unfold cursor_changed in Hc. split_bool. rewrite <-Hb.
    destruct (fas_activeBootId s) as [a|], (fas_activeBootId next) as [b'|]; try done.
    rewrite (bool_decide_eq_true_2 (a = b')) by congruence. by rewrite andb_false_r. }
  destruct (bool_decide (fas_protocolMode next = FireUnseen)); [done|].
  destruct (negb (accepted _)); [done|]. injection Hg as <-.
  unfold mutation_cursor, mutation_fact. cbn [sss_activeBootId sss_mode ssf_bootId]. rewrite Hb.
  destruct (fas_activeBootId s) as [active|]; [|done]. destruct (fsg_sourceBootId signal) as [boot|]; [|done].
  rewrite Hmode. destruct (bool_decide (fas_protocolMode s = FireVersioned) &&
    negb (bool_decide (active = boot)))%bool; [|done].
  rewrite elem_of_retired_boots. simpl. rewrite elem_of_union, elem_of_singleton.
  clear Hmode Hsame. case_bool_decide as Hse; rewrite ?elem_of_union, ?elem_of_singleton, !elem_of_retired_boots;
    naive_solver.
Qed.

(** What one operation does to the cursor of a channel: nothing, or the commit of an accepted
    signal of its sensor. *)
Definition cursor_step (b : FireChannelBinding) (db : FireDb) (op : FireOp) (db' : FireDb)
    (s s' : FireAlarmStateRecord) : Prop :=
  (fire_cursor db' s' = fire_cursor db s /\
   forall env c signal, op = FireDo env c -> fc_kind c = KindSignal signal ->
     fsg_sensorId signal = fcb_sensorId b -> fcr_status (process_caught env c db).1 <> DurablyCommitted) \/
  (exists env c signal, op = FireDo env c /\ fc_kind c = KindSignal signal /\
     fsg_sensorId signal = fcb_sensorId b /\
     accepted (evaluateSensorSequence (fire_cursor db s) (signal_fact signal)) = true /\
     fire_cursor db' s' = fire_commit (fire_cursor db s) (signal_fact signal)).

(** A committed signal was accepted by the policy. *)
Lemma committed_accepted env c signal b s db r db' :
  fire_ok bs db -> fc_kind c = KindSignal signal -> findBySensor bs (fsg_sensorId signal) = Some b ->
  channel_ok b s db -> process_caught env c db = (r, db') -> fcr_status r = DurablyCommitted ->
  protocol_disagrees signal = false /\
  accepted (evaluateSensorSequence (signal_cursor db s signal) (signal_fact signal)) = true.
Proof.
  intros Hok Hk Hsen H. pose proof (findBySensor_some bs _ _ Hsen) as [Hb _].
  unfold FireService.process_caught, FireService.process. rewrite Hk, Hsen. unfold processSignal.
  rewrite (channel_get bs Hbs b s db Hok Hb H). cbn [rbind].
  destruct (protocol_disagrees signal); [by intros [= <- <-]|].
  case_bool_decide; [destruct (deserializeSignal _); [destruct (negb _)|]; by intros [= <- <-]|].
  destruct (accepted _); [done|]. by intros [= <- <-].
Qed.

Lemma commit_cursor db s s' db1 db' signal b :
  fire_ok bs db -> b ∈ bs -> channel_ok b s db -> channel_ok b s' db' ->
  fsg_sensorId signal = fcb_sensorId b -> protocol_disagrees signal = false ->
  cursor_gate db s s' = Ok db1 -> cursor_moved (KindSignal signal) s s' ->
  fd_retired db' = fd_retired db1 ->
  fire_cursor db' s' = fire_commit (fire_cursor db s) (signal_fact signal).
Proof.
  intros Hok Hb H H' Hsig Hdis Hg Hcm Hr. pose proof (gate_retired_boots _ _ _ _ _ (fcb_sensorId b) Hg Hcm) as Hrb.
  destruct Hcm as (Hm & Hbt & Hq). unfold fire_cursor. rewrite Hm, Hbt, Hq.
  assert (retired_boots db' (fas_sensorId s') = retired_boots db1 (fcb_sensorId b)) as ->
    by (rewrite (co_sensor _ _ _ H'); apply set_eq; intros x; by rewrite !elem_of_retired_boots, Hr).
  rewrite Hrb, (co_sensor _ _ _ H), (co_sensor _ _ _ H').
  unfold fire_commit, commitSensorSequence, signal_fact, protocolFor.
  cbn [ssf_protocolVersion ssf_sequence ssf_bootId sss_retiredBootIds sss_activeBootId sss_mode].
  unfold protocol_disagrees in Hdis.
  destruct (fsg_sourceProtocolVersion signal); cbn [sequenceModeFor].
  - destruct (fsg_sourceBootId signal); [done|]. by destruct (fas_activeBootId s).
  - f_equal. destruct (fas_activeBootId s) as [a|], (fsg_sourceBootId signal) as [boot|]; try done.
    rewrite (bool_decide_eq_true_2 (fcb_sensorId b = fcb_sensorId b)) by done. rewrite andb_true_r.
    assert (bool_decide (sequenceModeFor (fas_protocolMode s) = Versioned)
            = bool_decide (fas_protocolMode s = FireVersioned)) as ->; [|done].
    apply bool_decide_ext. by destruct (fas_protocolMode s).
Qed.

(** The cursors of the other sensors. *)
Lemma other_cursor db s db1 db' next signal b b' s' :
  b ∈ bs -> b' ∈ bs -> b' <> b -> channel_ok b' s' db' -> fas_sensorId next = fcb_sensorId b ->
  cursor_gate db s next = Ok db1 -> cursor_moved (KindSignal signal) s next ->
  fd_retired db' = fd_retired db1 -> fire_cursor db' s' = fire_cursor db s'.
Proof.
  intros Hb Hb' Hne H' Hse Hg Hcm Hr. unfold fire_cursor. f_equal.
  assert (Hsen : fcb_sensorId b <> fcb_sensorId b').
  { intros E. apply Hne. apply (NoDup_fmap_inj_on fcb_sensorId bs); [apply bo_sensors, Hbs|done..]. }
  pose proof (gate_retired_boots _ _ _ _ _ (fcb_sensorId b') Hg Hcm) as Hrb.
  rewrite (co_sensor _ _ _ H'). transitivity (retired_boots db1 (fcb_sensorId b')).
  - apply set_eq. intros x. by rewrite !elem_of_retired_boots, Hr.
  - rewrite Hrb. destruct (fas_activeBootId s), (fsg_sourceBootId signal); try done.
    rewrite Hse, (bool_decide_eq_false_2 (fcb_sensorId b = fcb_sensorId b')) by done.
    by rewrite andb_false_r.
Qed.

Notation fire_step := (fire_step isoString signal_dump config bs).
Notation fire_run := (fire_run isoString signal_dump config bs).

Lemma same_cursor db db' s :
  fd_retired db' = fd_retired db -> fire_cursor db' s = fire_cursor db s.
Proof. intros Hr. unfold fire_cursor, retired_boots. by rewrite Hr. Qed.

Lemma same_cursor_fields db s s' :
  fas_protocolMode s' = fas_protocolMode s -> fas_activeBootId s' = fas_activeBootId s ->
  fas_lastSourceSequence s' = fas_lastSourceSequence s -> fas_sensorId s' = fas_sensorId s ->
  fire_cursor db s' = fire_cursor db s.
Proof. intros H1 H2 H3 H4. unfold fire_cursor. by rewrite H1, H2, H3, H4. Qed.

(** A gate that was asked about an unchanged cursor changes nothing. *)
Lemma gate_same_inv db k s s' db1 :
  (forall signal, k <> KindSignal signal) -> cursor_gate db s s' = Ok db1 -> cursor_moved k s s' ->
  signal_stored signal_dump k s s' -> db1 = db.
Proof.
  intros Hk Hg Hcm Hst. destruct k as [signal|alarm|]; [by destruct (Hk signal)| |];
    destruct Hcm as (H1 & H2 & H3); rewrite gate_same in Hg by done; congruence.
Qed.

(** A command that wrote the channel of [bt]: what it did to the cursor of [b]. *)
Lemma written_cursor env c bt st s1 db db1 db' b s s' :
  fire_ok bs db -> fire_ok bs db' -> target bs c = Some bt -> b ∈ bs ->
  channel_ok bt st db -> channel_ok bt s1 db' -> channel_ok b s db -> channel_ok b s' db' ->
  (b <> bt -> s' = s) -> db' = (process_caught env c db).2 ->
  fcr_status (process_caught env c db).1 = DurablyCommitted ->
  cursor_gate db st s1 = Ok db1 -> cursor_moved (fc_kind c) st s1 ->
  signal_stored signal_dump (fc_kind c) st s1 -> fd_retired db' = fd_retired db1 ->
  cursor_step b db (FireDo env c) db' s s'.
Proof.
  intros Hok Hok' Ht Hb Hst Hs1 H H' Hoth Hdb Hstat Hg Hcm Hjs Hr.
  pose proof (target_in bs c bt Ht) as Hbt.
  destruct (fc_kind c) as [signal|alarm|] eqn:Hk.
  - assert (Hsen : findBySensor bs (fsg_sensorId signal) = Some bt)
      by (unfold target in Ht; by rewrite Hk in Ht).
    pose proof (findBySensor_some bs _ _ Hsen) as [_ Hsig].
    destruct (process_caught env c db) as [r dbr] eqn:Hp. simpl in Hdb, Hstat. subst dbr.
    destruct (committed_accepted env c signal bt st db r db' Hok Hk Hsen Hst Hp Hstat) as [Hdis Hacc].
    destruct (decide (b = bt)) as [->|Hne].
    + rewrite (channel_unique bt s st db H Hst), (channel_unique bt s' s1 db' H' Hs1) in *.
      right. exists env, c, signal. do 3 (split; [done|]).
      rewrite <-(decision_same db bt st signal) by done. split; [done|].
      by apply (commit_cursor db st s1 db1 db' signal bt).
    + rewrite (Hoth Hne) in *. left. split.
      * apply (other_cursor db st db1 db' s1 signal bt b s); try done. apply (co_sensor _ _ _ Hs1).
      * intros env0 c0 signal0 [= <- <-] Hk0 Hs0 _. rewrite Hk in Hk0. injection Hk0 as <-.
        apply Hne. apply (NoDup_fmap_inj_on fcb_sensorId bs); [apply bo_sensors, Hbs|done..|congruence].
  - assert (db1 = db) as -> by (by apply (gate_same_inv db (KindAcknowledge alarm) st s1)).
    left. split; [|by intros env0 c0 signal0 [= <- <-]; rewrite Hk].
    rewrite (same_cursor db db') by done. destruct (decide (b = bt)) as [->|Hne]; [|by rewrite (Hoth Hne)].
    rewrite (channel_unique bt s st db H Hst), (channel_unique bt s' s1 db' H' Hs1) in *.
    destruct Hcm as (H1 & H2 & H3). apply same_cursor_fields; try done.
    by rewrite (co_sensor _ _ _ Hs1), (co_sensor _ _ _ Hst).
  - assert (db1 = db) as -> by (by apply (gate_same_inv db KindManualClear st s1)).
    left. split; [|by intros env0 c0 signal0 [= <- <-]; rewrite Hk].
    rewrite (same_cursor db db') by done. destruct (decide (b = bt)) as [->|Hne]; [|by rewrite (Hoth Hne)].
    rewrite (channel_unique bt s st db H Hst), (channel_unique bt s' s1 db' H' Hs1) in *.
    destruct Hcm as (H1 & H2 & H3). apply same_cursor_fields; try done.
    by rewrite (co_sensor _ _ _ Hs1), (co_sensor _ _ _ Hst).
Qed.

(** Operations on the outbox leave every cursor. *)
Lemma delivery_cursor b s s' db db' op :
  delivery_step db db' -> channel_ok b s db -> channel_ok b s' db' ->
  (forall env c, op <> FireDo env c) -> cursor_step b db op db' s s'.
Proof.
  intros Hd H H' Hop. left. split.
  - rewrite (channel_unique b s' s db'); [|done|by apply (channel_ok_delivery _ _ db)].
    apply same_cursor, (ds_retired _ _ Hd).
  - intros env c signal He. by destruct (Hop env c).
Qed.

Lemma fire_step_cursor b db op s s' :
  bs <> [] -> fire_ok bs db -> fire_op_wf op -> b ∈ bs -> channel_ok b s db ->
  channel_ok b s' (fire_step db op) -> cursor_step b db op (fire_step db op) s s'.
Proof.
  intros Hne Hok Hwf Hb H H'. destruct op as [env c| | | | |now]; simpl in H' |- *;
    try (eapply delivery_cursor; [|done|done|done];
         apply markInFlight_step || apply markPending_step || apply acknowledge_step
         || apply reset_step).
  - destruct (target bs c) as [bt|] eqn:Ht.
    + pose proof (target_in bs c bt Ht) as Hbt. destruct (fk_channels _ _ Hok bt Hbt) as [st Hst].
      pose proof (process_outcome isoString signal_dump config bs Hbs Hiso Hdump env c bt st db
        (process_caught env c db).1 (process_caught env c db).2 Hok Hwf Ht Hst
        (surjective_pairing _)) as He. unfold command_outcome in He.
      assert (Hoth : b <> bt -> s' = s).
      { intros Hn. destruct (effect_on_others signal_dump bs Hbs bt b _ st s db _ _ _ He Hbt Hb Hn H)
          as [H2 _]. by apply (channel_unique b s' s (process_caught env c db).2). }
      remember (process_caught env c db).2 as db' eqn:Hdb.
      remember (fcr_status (process_caught env c db).1) as status eqn:Hstat.
      destruct He as [status rev Hn|db1 s1 sg Hks Hg Hcm Hjs Hs1 Ho1 Hop Hal Hd db' Hok' Hch'
        |db1 s1 row R L Hf Hedge Hd HLp Hg Hcm Hjs Hs1 Ho1 Hop Hrow db' Hok' Hch'].
      * left. rewrite (channel_unique b s' s db H' H). split; [done|].
        intros env0 c0 signal [= <- <-] _ _. congruence.
      * eapply written_cursor; try done.
      * eapply written_cursor; try done.
    + destruct (process_caught env c db) as [r db'] eqn:Hp.
      destruct (process_no_target isoString signal_dump config bs env c db r db' Ht Hp) as (-> & Hs & _).
      simpl in *. left. rewrite (channel_unique b s' s db H' H). split; [done|].
      intros env0 c0 signal [= <- <-] _ _. rewrite Hp. simpl. congruence.
  - assert ((match initialize_work isoString signal_dump config bs now db with
             | Ok (_, db') => db' | Err _ => db end) = db) as Hdb.
    { destruct (initialize_work _ _ _ _ _ _) as [[answer db']|] eqn:Hi; [|done].
      by destruct (initialize_again isoString signal_dump config bs Hbs Hiso Hdump now db answer db' Hne Hok Hi). }
    rewrite Hdb in *. left. by rewrite (channel_unique b s' s db H' H).
Qed.

(** The versioned signal that an operation commits, with its sensor. *)
Definition committed_epoch (db : FireDb) (op : FireOp) : option (string * (string * N)) :=
  match op with
  | FireDo env c =>
      match fc_kind c, fcr_status (process_caught env c db).1 with
      | KindSignal signal, DurablyCommitted =>
          match epoch_of (signal_fact signal) with
          | Some e => Some (fsg_sensorId signal, e)
          | None => None
          end
      | _, _ => None
      end
  | _ => None
  end.
Fixpoint committed_epochs (db : FireDb) (ops : list FireOp) : list (string * (string * N)) :=
  match ops with
  | [] => []
  | op :: rest =>
      option_list (committed_epoch db op) ++ committed_epochs (fire_step db op) rest
  end.

Definition cursors_ok (db : FireDb) : Prop :=
  forall b s, b ∈ bs -> channel_ok b s db -> sequence_ok (fire_cursor db s).
(** The sensor's cursor has left the pair behind. *)
Definition left_behind (db : FireDb) (e : string * (string * N)) : Prop :=
  exists b s, b ∈ bs /\ fcb_sensorId b = e.1 /\ channel_ok b s db /\ passed (fire_cursor db s) e.2.

Hypothesis Hne : bs <> [].

Lemma step_channel db op b :
  fire_ok bs db -> fire_op_wf op -> b ∈ bs -> exists s', channel_ok b s' (fire_step db op).
Proof.
  intros Hok Hwf Hb.
  apply (fk_channels _ _ (fire_step_ok isoString signal_dump config bs Hbs Hiso Hdump db op Hne Hwf Hok) b Hb).
Qed.

Lemma channel_before db b : fire_ok bs db -> b ∈ bs -> exists s, channel_ok b s db.
Proof. intros Hok. apply (fk_channels _ _ Hok). Qed.

Lemma cursors_step db op :
  fire_ok bs db -> fire_op_wf op -> cursors_ok db -> cursors_ok (fire_step db op).
Proof.
  intros Hok Hwf Hc b s' Hb H'. destruct (channel_before db b Hok Hb) as [s H].
  destruct (fire_step_cursor b db op s s' Hne Hok Hwf Hb H H')
    as [[-> _]|(env & c & signal & _ & _ & _ & Hacc & ->)]; [by apply (Hc b)|].
  apply fire_commit_ok; [by apply (Hc b)|done].
Qed.

Lemma left_behind_step db op e :
  fire_ok bs db -> fire_op_wf op -> cursors_ok db -> left_behind db e ->
  left_behind (fire_step db op) e.
Proof.
  intros Hok Hwf Hc (b & s & Hb & He & H & Hp). destruct (step_channel db op b Hok Hwf Hb) as [s' H'].
  exists b, s'. split; [done|]. split; [done|]. split; [done|].
  destruct (fire_step_cursor b db op s s' Hne Hok Hwf Hb H H')
    as [[-> _]|(env & c & signal & _ & _ & _ & Hacc & ->)]; [done|].
  by apply fire_commit_passed; [apply (Hc b)| |].
Qed.

Lemma committed_new db op e :
  fire_ok bs db -> fire_op_wf op -> cursors_ok db -> committed_epoch db op = Some e ->
  ~ left_behind db e /\ left_behind (fire_step db op) e.
Proof.
  intros Hok Hwf Hc He. destruct op as [env c| | | | |]; try done. simpl in He.
  destruct (fc_kind c) as [signal| |] eqn:Hk; try done.
  destruct (fcr_status (process_caught env c db).1) eqn:Hs; try done.
  destruct (epoch_of (signal_fact signal)) as [e0|] eqn:Hep; [|done]. injection He as <-.
  destruct (findBySensor bs (fsg_sensorId signal)) as [b|] eqn:Hsen.
  2:{ unfold FireService.process_caught, FireService.process in Hs. by rewrite Hk, Hsen in Hs. }
  pose proof (findBySensor_some bs _ _ Hsen) as [Hb Hsig].
  destruct (channel_before db b Hok Hb) as [s H].
  destruct (step_channel db (FireDo env c) b Hok Hwf Hb) as [s' H'].
  destruct (fire_step_cursor b db (FireDo env c) s s' Hne Hok Hwf Hb H H')
    as [[_ Hn]|(env0 & c0 & signal0 & Heq & Hk0 & _ & Hacc & Hcur)].
  { by destruct (Hn env c signal eq_refl Hk (eq_sym Hsig) Hs). }
  injection Heq as <- <-. rewrite Hk in Hk0. injection Hk0 as <-.
  destruct (fire_commit_new _ _ _ (Hc b s Hb H) Hacc Hep) as [Hnew Hold]. split.
  - intros (b' & s2 & Hb' & He' & H2 & Hp). simpl in He', Hp.
    assert (b' = b) as -> by
      (apply (NoDup_fmap_inj_on fcb_sensorId bs); [apply bo_sensors, Hbs|done..|congruence]).
    by rewrite (channel_unique b s2 s db H2 H) in Hp.
  - exists b, s'. rewrite Hcur. done.
Qed.

Lemma committed_not_behind db ops e :
  fire_ok bs db -> Forall fire_op_wf ops -> cursors_ok db -> left_behind db e ->
  e ∉ committed_epochs db ops.
Proof.
  intros Hok Hwf. revert db Hok. induction Hwf as [|op ops Hop _ IH]; intros db Hok Hc He; simpl;
    [apply not_elem_of_nil|].
  intros [Hin|Hin]%elem_of_app.
  - destruct (committed_epoch db op) as [e'|] eqn:E; simpl in Hin; [|by apply elem_of_nil in Hin].
    apply list_elem_of_singleton in Hin as ->. by destruct (committed_new db op e' Hok Hop Hc E).
  - revert Hin. apply IH; [by apply fire_step_ok|by apply cursors_step|by apply left_behind_step].
Qed.

Lemma committed_epochs_once db ops :
  fire_ok bs db -> Forall fire_op_wf ops -> cursors_ok db -> NoDup (committed_epochs db ops).
Proof.
  intros Hok Hwf. revert db Hok. induction Hwf as [|op ops Hop Hops IH]; intros db Hok Hc; simpl;
    [constructor|].
  assert (Hok' : fire_ok bs (fire_step db op)) by (by apply fire_step_ok).
  assert (Hc' : cursors_ok (fire_step db op)) by (by apply cursors_step).
  destruct (committed_epoch db op) as [e|] eqn:E; simpl; [|by apply IH].
  apply NoDup_cons. split; [|by apply IH].
  apply committed_not_behind; try done. by apply (committed_new db op e).
Qed.

(** A database that was created for the mapping starts with fresh cursors. *)
Lemma created_cursors now db :
  initialize_work isoString signal_dump config bs now (mkFireDb true ∅ ∅ ∅) = Ok (inr tt, db) ->
  fire_ok bs db /\ cursors_ok db.
Proof.
  intros Hi. assert (exists topo, bootstrap_topology isoString signal_dump config now bs = Ok topo)
    as [topo Ht] by (unfold initialize_work in Hi; destruct (bootstrap_topology _ _ _ _ _); [eauto|done]).
  destruct (initialize_ok isoString signal_dump config Hiso Hdump now [] bs topo (mkFireDb true ∅ ∅ ∅))
    as (db' & Hi' & Hok & _ & Hr & Hrows); try done.
  - repeat constructor.
  - by intros b ?%elem_of_nil.
  - apply empty_fire_ok.
  - rewrite Hi in Hi'. injection Hi' as <-. split; [done|]. intros b s Hb H.
    destruct (Hrows _ _ (co_row _ _ _ H)) as [Hx|(Hm & Hbt & Hq)];
      [by destruct (lookup_empty_Some _ _ Hx)|].
    assert (Hcur : fire_cursor db s = fresh_sequence).
    { unfold fire_cursor, fresh_sequence. simpl in Hm, Hbt, Hq. f_equal.
      - by destruct (fas_protocolMode s).
      - done.
      - by destruct (fas_lastSourceSequence s).
      - apply set_eq. intros x. rewrite elem_of_retired_boots, Hr. set_solver. }
    rewrite Hcur. apply fresh_sequence_ok.
Qed.

(** A versioned fire signal changes the durable state at most once: over every history of commands,
    deliveries and restarts that follows the creation of the database, the (sensor, boot id,
    sequence number) triples of the committed signals are pairwise distinct. *)
Theorem fire_epochs_once now db ops :
  initialize_work isoString signal_dump config bs now (mkFireDb true ∅ ∅ ∅) = Ok (inr tt, db) ->
  Forall fire_op_wf ops -> NoDup (committed_epochs db ops).
Proof.
  intros Hi Hwf. destruct (created_cursors now db Hi) as [Hok Hc].
  by apply committed_epochs_once.
Qed.

(** What the database holds for one channel, as its own queries show it. *)
Definition channel_complete (db : FireDb) (b : FireChannelBinding) : Prop :=
  exists s r,
    getFireAlarmState db (fcb_channelId b) = Ok (Some s) /\
    getFireDelivery db (retainedDeliveryId (fcb_channelId b)) = Ok (Some r) /\
    retained_agrees s r = true /\
    (fas_activeAlarmId s <> "" <-> activeLifecycle (fas_desiredLifecycle s) = true) /\
    forall k, (2 <= k <= fas_fireRevision s)%N -> exists l,
      getFireDelivery db (lifecycleDeliveryId (fireEventId (fcb_channelId b) k)) = Ok (Some l) /\
      fob_sinkKind l = LifecycleEvent /\ fob_channelId l = fcb_channelId b /\
      fob_eventId l = fireEventId (fcb_channelId b) k /\ fob_fireRevision l = k.

Lemma delivery_get db key row :
  fire_ok bs db -> key <> "" -> fd_outbox db !! key = Some row ->
  getFireDelivery db key = Ok (Some (delivery_of key row)).
Proof.
  intros Hok Hk Hr. unfold getFireDelivery. rewrite (is_empty_false _ Hk), (fk_open _ _ Hok).
  by apply (outbox_row_read bs).
Qed.

Lemma fire_ok_complete db b : fire_ok bs db -> b ∈ bs -> channel_complete db b.
Proof.
  intros Hok Hb. destruct (fk_channels _ _ Hok b Hb) as [s H].
  destruct (co_retained _ _ _ H) as (row & Hrow & Hfor).
  exists s, (delivery_of (retainedDeliveryId (fcb_channelId b)) row).
  split; [by apply (channel_get bs Hbs)|]. split; [by apply delivery_get|].
  split; [by apply (retained_agrees_ok b s db)|]. split.
  - rewrite (co_alarm _ _ _ H). by destruct (fas_activeAlarmId s).
  - intros k Hk. destruct (co_lifecycle _ _ _ H k Hk) as (l & Hl & Hs & Hc & _ & He & Hr).
    eexists. split; [by apply delivery_get|]. unfold delivery_of. simpl. rewrite Hs, Hr, N2Z.id. done.
Qed.

(** The outbox is complete at all times: after the mapping was created and any history of commands,
    deliveries and restarts, every channel has a readable state, a retained delivery that
    shows exactly that state, an alarm identity exactly while the alarm is active, and one
    durable lifecycle delivery for each transition it ever made; and starting the service
    again changes nothing. *)
Theorem fire_history_complete now db ops :
  initialize_work isoString signal_dump config bs now (mkFireDb true ∅ ∅ ∅) = Ok (inr tt, db) ->
  Forall fire_op_wf ops ->
  (forall b, b ∈ bs -> channel_complete (fire_run db ops) b) /\
  forall now' answer db',
    initialize_work isoString signal_dump config bs now' (fire_run db ops) = Ok (answer, db') ->
    answer = inr tt /\ db' = fire_run db ops.
Proof.
  intros Hi Hwf. destruct (created_cursors now db Hi) as [Hok _].
  assert (Hrun : fire_ok bs (fire_run db ops)) by (by apply fire_run_ok).
  split; [intros b Hb; by apply fire_ok_complete|].
  intros now' answer db' Hi'.
  by apply (initialize_again isoString signal_dump config bs Hbs Hiso Hdump now').
Qed.
End Signals.
