(* ===== verification/FireQueue.v ===== *)
(** The queue of the fire alarm service as a machine: commands are submitted, the worker takes
    one, works on the database and settles it, and the delivery actor changes the outbox in
    between. Nothing is lost or done twice, the commands of a channel are finished in the
    order in which they were submitted, and the queue is bounded. *)
From Stdlib Require Import Sorted.
From S2P Require Import Prelude SensorProtocol SequencePolicy SlotConfig OccupancyDb FireStore FireService FireInvariant FireTopology FireAlarm FireSignals.

(** * The machine *)

(** The service, the command that the worker has taken, the database, and two records of the
    past: the commands that were admitted and those that were finished, oldest first. *)
Record FireMachine := mkFireMachine {
  fm_queue : FireQueue;
  fm_current : option FireCommand;
  fm_db : FireDb;
  fm_admitted : list FireCommand;
  fm_done : list FireCommand
}.

Inductive FireQueueOp :=
| QSignal (signal : FireSignal)
| QAcknowledge (channel alarm : string)
| QManualClear (channel : string)
| QTake (now : time_point)
| QWork (env : FireEnv) (now : time_point)
| QStore (f : FireDb -> FireDb)
| QClose.

(** The three ways to submit a command. *)
Definition submission (bs : list FireChannelBinding) (config : FireConfig) (op : FireQueueOp)
    : option (FireQueue -> FireCommandResult * FireQueue) :=
  match op with
  | QSignal signal => Some (submitSignal config bs signal)
  | QAcknowledge channel alarm => Some (submitAcknowledge config bs channel alarm)
  | QManualClear channel => Some (submitManualClear config bs channel)
  | _ => None
  end.

Section Machine.
Context {JL : JsonLibrary}.
Variable isoString : time_point -> string.
Variable signal_dump : json -> result string string.
Variable config : FireConfig.
Variable bs : list FireChannelBinding.

Notation process_caught := (process_caught isoString signal_dump config bs).

(** A submission adds at most one command, at the end of the queue. *)
Definition queue_submit (m : FireMachine) (f : FireQueue -> FireCommandResult * FireQueue)
    : FireMachine :=
  let q := (f (fm_queue m)).2 in
  mkFireMachine q (fm_current m) (fm_db m)
    (fm_admitted m ++ drop (length (fq_queue (fm_queue m))) (fq_queue q)) (fm_done m).

Definition queue_step (m : FireMachine) (op : FireQueueOp) : FireMachine :=
  match op with
  | QSignal _ | QAcknowledge _ _ | QManualClear _ =>
      match submission bs config op with Some f => queue_submit m f | None => m end
  | QTake now =>
      match fm_current m, take_command now (fm_queue m) with
      | None, Some (c, q) => mkFireMachine q (Some c) (fm_db m) (fm_admitted m) (fm_done m)
      | _, _ => m
      end
  | QWork env now =>
      match fm_current m with
      | Some c =>
          let '(r, db) := process_caught env c (fm_db m) in
          mkFireMachine (settle_command config now c r (fm_queue m)) None db (fm_admitted m)
            (if fcr_retryable r then fm_done m else fm_done m ++ [c])
      | None => m
      end
  | QStore f => mkFireMachine (fm_queue m) (fm_current m) (f (fm_db m)) (fm_admitted m) (fm_done m)
  | QClose => mkFireMachine (fire_closeIngress (fm_queue m)) (fm_current m) (fm_db m)
                (fm_admitted m) (fm_done m)
  end.
Definition queue_run (m : FireMachine) (ops : list FireQueueOp) : FireMachine :=
  foldl queue_step m ops.

(** The service after a successful start. *)
Definition started_machine (db : FireDb) : FireMachine :=
  mkFireMachine (fire_start (fq_set_flags (new_fire_queue "") true false false false "")).2
    None db [] [].

(** The commands that wait or are being worked on. *)
Definition waiting (m : FireMachine) : list FireCommand :=
  fq_queue (fm_queue m) ++ option_list (fm_current m).

Definition is_ack (c : FireCommand) : bool :=
  match fc_kind c with KindAcknowledge _ => true | _ => false end.
(** The commands of a channel that are not acknowledgements. *)
Definition of_channel (channel : string) (cs : list FireCommand) : list FireCommand :=
  List.filter (fun c => negb (is_ack c) && bool_decide (fc_channelId c = channel)) cs.
Definition ack_keys (cs : list FireCommand) : list (string * string) :=
  omap (fun c => match fc_kind c with
                 | KindAcknowledge alarm => Some (fc_channelId c, alarm)
                 | _ => None end) cs.

(** A command that is tried again blocks its channel, unless it is an acknowledgement. *)
Lemma process_blocks env c db :
  is_ack c = false -> fcr_retryable (process_caught env c db).1 = true ->
  fcr_blocksChannel (process_caught env c db).1 = true.
Proof.
  intros Ha. unfold FireService.process_caught.
  destruct (process isoString signal_dump config bs env c db) as [[r db']|what] eqn:Hp; [|done].
  simpl. unfold FireService.process in Hp. unfold is_ack in Ha.
  assert (Hm : forall t ch res, fcr_retryable (mutationResult t ch res) = true ->
                fcr_blocksChannel (mutationResult t ch res) = true).
  { intros t ch res. unfold mutationResult. by destruct (fsm_outcome res). }
  destruct (fc_kind c) as [signal|alarm|]; [|done|].
  - destruct (findBySensor bs _) as [b|]; [|by injection Hp as <- <-].
    unfold processSignal, apply_signal in Hp.
    repeat (case_match || rinv || simplify_eq/=); auto.
  - unfold processManualClear in Hp. repeat (case_match || rinv || simplify_eq/=); auto.
Qed.
End Machine.

(** * The invariant *)

(** What never changes in a command: the retry count, the time and the block do. *)
Definition fc_id (c : FireCommand) : N * string * CommandKind :=
  (fc_ticket c, fc_channelId c, fc_kind c).
Definition holder (c : FireCommand) : bool := fc_holdsChannelBlock c.
(** The order in which the commands of a channel are finished: those that were, the one
    that is worked on, the one that is retried and blocks the channel, the fresh ones. *)
Definition pipeline (channel : string) (m : FireMachine) : list FireCommand :=
  of_channel channel (fm_done m) ++ of_channel channel (option_list (fm_current m)) ++
  List.filter holder (of_channel channel (fq_queue (fm_queue m))) ++
  List.filter (fun c => negb (holder c)) (of_channel channel (fq_queue (fm_queue m))).

Record machine_ok (config : FireConfig) (n : nat) (m : FireMachine) : Prop := {
  mo_next : (fq_next_ticket (fm_queue m) <= N.of_nat n + 1)%N;
  mo_tickets : NoDup (fc_ticket <$> waiting m ++ fm_done m);
  mo_below : Forall (fun c => (fc_ticket c < fq_next_ticket (fm_queue m))%N) (waiting m ++ fm_done m);
  mo_admitted : fc_id <$> fm_admitted m ≡ₚ fc_id <$> waiting m ++ fm_done m;
  mo_blocked : forall channel ticket, fq_blocked (fm_queue m) !! channel = Some ticket ->
    exists c, c ∈ waiting m /\ fc_ticket c = ticket /\ fc_channelId c = channel /\ holder c = true;
  mo_holds : forall c, c ∈ waiting m -> holder c = true ->
    fq_blocked (fm_queue m) !! fc_channelId c = Some (fc_ticket c);
  mo_fresh : forall c, c ∈ fq_queue (fm_queue m) -> is_ack c = false -> holder c = false ->
    fc_retryAfter c = 0;
  mo_current : forall c, fm_current m = Some c -> blocked_out (fm_queue m) c = false;
  mo_acks : forall c alarm, c ∈ waiting m -> fc_kind c = KindAcknowledge alarm ->
    fq_pending_ack (fm_queue m) !! (fc_channelId c, alarm) = Some (fc_ticket c);
  mo_room : (length (waiting m) <= fcf_commandQueueCapacity config + 1)%nat;
  mo_order : forall channel, fc_id <$> pipeline channel m = fc_id <$> of_channel channel (fm_admitted m)
}.

#[local] Arguments of_channel _ _ : simpl nomatch.
Lemma of_channel_app channel l1 l2 :
  of_channel channel (l1 ++ l2) = of_channel channel l1 ++ of_channel channel l2.
Proof. apply List.filter_app. Qed.

Lemma elem_of_of_channel channel l c :
  c ∈ of_channel channel l <-> c ∈ l /\ is_ack c = false /\ fc_channelId c = channel.
Proof.
  unfold of_channel. rewrite !list_elem_of_In, filter_In, andb_true_iff, negb_true_iff, bool_decide_eq_true.
  tauto.
Qed.

Lemma NoDup_fmap_elem {A B} (f : A -> B) l x y :
  NoDup (f <$> l) -> x ∈ l -> y ∈ l -> f x = f y -> x = y.
Proof.
  induction l as [|z l IH]; intros Hnd Hx Hy He; [by apply not_elem_of_nil in Hx|].
  rewrite fmap_cons, NoDup_cons in Hnd. destruct Hnd as [Hz Hnd].
  apply elem_of_cons in Hx as [->|Hx], Hy as [->|Hy]; auto.
  - destruct Hz. rewrite He. by apply list_elem_of_fmap_2.
  - destruct Hz. rewrite <- He. by apply list_elem_of_fmap_2.
Qed.

Lemma select_command_split q now l c others :
  select_command q now l = Some (c, others) ->
  exists l1 l2, l = l1 ++ c :: l2 /\ others = l1 ++ l2 /\ blocked_out q c = false /\
    due now c = true /\ forall x, x ∈ l1 -> negb (blocked_out q x) && due now x = false.
Proof.
  revert c others. induction l as [|x l IH]; intros c others; simpl; [done|].
  destruct (negb (blocked_out q x) && due now x) eqn:Hx.
  - intros [= <- <-]. apply andb_true_iff in Hx as [H1%negb_true_iff H2].
    exists [], l. repeat split; auto. intros y Hy. by apply not_elem_of_nil in Hy.
  - destruct (select_command q now l) as [[c' o']|] eqn:Hs; [|done]. intros [= <- <-].
    destruct (IH _ _ eq_refl) as (l1 & l2 & -> & -> & Hb & Hd & Hall).
    exists (x :: l1), l2. repeat split; auto. intros y [->|Hy]%elem_of_cons; auto.
Qed.

Lemma tickets_of_ids (l1 l2 : list FireCommand) :
  fc_id <$> l1 = fc_id <$> l2 -> fc_ticket <$> l1 = fc_ticket <$> l2.
Proof.
  intros H. change fc_ticket with ((fun x : N * string * CommandKind => x.1.1) ∘ fc_id).
  by rewrite !list_fmap_compose, H.
Qed.

Lemma tickets_Permutation (l1 l2 : list FireCommand) :
  fc_id <$> l1 ≡ₚ fc_id <$> l2 -> fc_ticket <$> l1 ≡ₚ fc_ticket <$> l2.
Proof.
  intros H. change fc_ticket with ((fun x : N * string * CommandKind => x.1.1) ∘ fc_id).
  by rewrite !list_fmap_compose, H.
Qed.

(** Different tickets under one key are impossible when the key determines the ticket. *)
Lemma ack_keys_NoDup (pending : gmap (string * string) N) l :
  (forall c alarm, c ∈ l -> fc_kind c = KindAcknowledge alarm ->
     pending !! (fc_channelId c, alarm) = Some (fc_ticket c)) ->
  NoDup (fc_ticket <$> l) -> NoDup (ack_keys l).
Proof.
  unfold ack_keys. induction l as [|c l IH]; intros Hp Hnd; [constructor|].
  apply NoDup_cons in Hnd as [Hc Hnd]. simpl.
  assert (Hl : NoDup (omap (fun c => match fc_kind c with
    | KindAcknowledge alarm => Some (fc_channelId c, alarm) | _ => None end) l))
    by (apply IH; auto using list_elem_of_further).
  destruct (fc_kind c) as [?|alarm|] eqn:Hk; [done| |done].
  apply NoDup_cons. split; [|done]. intros (x & Hx & Hkey)%list_elem_of_omap.
  destruct (fc_kind x) as [?|al|] eqn:Hkx; [done| |done]. injection Hkey as Hch ->.
  apply Hc. pose proof (Hp c alarm (list_elem_of_here _ _) Hk) as H1.
  pose proof (Hp x alarm (list_elem_of_further _ _ _ Hx) Hkx) as H2. rewrite Hch, H1 in H2.
  injection H2 as ->. by apply list_elem_of_fmap_2.
Qed.

Section Invariant.
Context {JL : JsonLibrary}.
Variable isoString : time_point -> string.
Variable signal_dump : json -> result string string.
Variable config : FireConfig.
Variable bs : list FireChannelBinding.

Notation step := (queue_step isoString signal_dump config bs).
Notation ok := (machine_ok config).

Lemma machine_ok_mono n m : ok n m -> ok (S n) m.
Proof. intros []. split; auto. lia. Qed.

(** Two commands at work with one ticket are one command. *)
Lemma same_ticket n m c c' :
  ok n m -> c ∈ waiting m -> c' ∈ waiting m -> fc_ticket c = fc_ticket c' -> c = c'.
Proof.
  intros Hok Hc Hc'. pose proof (mo_tickets _ _ _ Hok) as Hnd.
  rewrite fmap_app in Hnd. apply NoDup_app in Hnd as (Hnd & _).
  by apply (NoDup_fmap_elem _ _ _ _ Hnd).
Qed.

(** A command that is refused, or an acknowledgement that is pending already, only uses up a
    ticket. *)
Lemma refuse_ok n m q :
  ok n m -> fq_queue q = fq_queue (fm_queue m) -> fq_blocked q = fq_blocked (fm_queue m) ->
  fq_pending_ack q = fq_pending_ack (fm_queue m) ->
  fq_next_ticket q = (fq_next_ticket (fm_queue m) + 1)%N ->
  ok (S n) (mkFireMachine q (fm_current m) (fm_db m) (fm_admitted m ++ []) (fm_done m)).
Proof.
  intros [] Hq Hb Hp Hnx. rewrite app_nil_r.
  split; unfold waiting, pipeline, blocked_out in *; simpl; rewrite ?Hq, ?Hb, ?Hp, ?Hnx; auto.
  - lia.
  - eapply Forall_impl; [done|]. simpl. intros c H. lia.
Qed.

Lemma waiting_snoc m q c current db admitted done :
  fq_queue q = fq_queue (fm_queue m) ++ [c] -> current = fm_current m ->
  waiting (mkFireMachine q current db admitted done) ≡ₚ c :: waiting m.
Proof.
  intros Hq ->. unfold waiting. simpl. rewrite Hq, <- app_assoc. simpl.
  by rewrite <- Permutation_middle.
Qed.

Definition admits (kind : CommandKind) (channel : string) (ticket : N)
    (old new : gmap (string * string) N) : Prop :=
  match kind with
  | KindAcknowledge alarm => old !! (channel, alarm) = None /\
                             new = <[(channel, alarm) := ticket]> old
  | _ => new = old
  end.

Lemma of_channel_one channel c :
  of_channel channel [c] = [c] /\ is_ack c = false /\ fc_channelId c = channel \/
  of_channel channel [c] = [] /\ (is_ack c = true \/ fc_channelId c <> channel).
Proof.
  unfold of_channel. simpl. destruct (is_ack c); simpl; [by auto|].
  case_bool_decide; simpl; auto.
Qed.

(** An admitted command joins the end of the queue under a fresh ticket. *)
Lemma admit_ok n m kind channel q :
  ok n m -> (length (fq_queue (fm_queue m)) < fcf_commandQueueCapacity config)%nat ->
  let c := mkFireCommand kind (fq_next_ticket (fm_queue m)) channel 0 0 false in
  admits kind channel (fc_ticket c) (fq_pending_ack (fm_queue m)) (fq_pending_ack q) ->
  fq_queue q = fq_queue (fm_queue m) ++ [c] -> fq_blocked q = fq_blocked (fm_queue m) ->
  fq_next_ticket q = (fq_next_ticket (fm_queue m) + 1)%N ->
  ok (S n) (mkFireMachine q (fm_current m) (fm_db m) (fm_admitted m ++ [c]) (fm_done m)).
Proof.
  intros Hok Hroom c Hpend Hq Hb Hnx. set (m' := mkFireMachine _ _ _ _ _).
  pose proof (waiting_snoc m q c (fm_current m) (fm_db m) (fm_admitted m ++ [c]) (fm_done m)
                Hq eq_refl) as Hw. fold m' in Hw.
  destruct Hok as [Hnext Hnd Hbelow Hadm Hblk Hhold Hfresh Hcur Hack Hlen Hord].
  assert (Hfreshticket : forall x, x ∈ waiting m -> fc_ticket x <> fc_ticket c).
  { intros x Hx. rewrite Forall_app, !Forall_forall in Hbelow.
    pose proof (proj1 Hbelow x Hx). simpl. lia. }
  split.
  - simpl. rewrite Hnx. lia.
  - rewrite Hw. simpl. apply NoDup_cons. split; [|done].
    intros (x & Hx & Hin)%list_elem_of_fmap_1. rewrite Forall_forall in Hbelow.
    specialize (Hbelow x Hin). simpl in Hx. lia.
  - rewrite Hw. simpl. rewrite Hnx. constructor; [simpl; lia|].
    eapply Forall_impl; [done|]. simpl. intros x H. lia.
  - rewrite Hw. simpl. rewrite fmap_app, Hadm. simpl. by rewrite Permutation_app_comm.
  - simpl. rewrite Hb. intros ch t Ht. destruct (Hblk ch t Ht) as (x & Hx & H).
    exists x. split; [|done]. rewrite Hw. by right.
  - simpl. rewrite Hb. intros x. rewrite Hw. intros [->|Hx]%elem_of_cons Hh; [done|auto].
  - simpl. rewrite Hq. intros x [Hx| ->%list_elem_of_singleton]%elem_of_app Ha Hh; auto.
  - simpl. unfold blocked_out. rewrite Hb. apply Hcur.
  - simpl. intros x alarm. rewrite Hw. intros [->|Hx]%elem_of_cons Hk.
    + simpl in *. subst kind. simpl in Hpend. destruct Hpend as [_ ->]. apply lookup_insert_eq.
    + pose proof (Hack x alarm Hx Hk) as Hold. destruct kind as [?|al|]; simpl in Hpend.
      * by rewrite Hpend.
      * destruct Hpend as [Hnone ->]. rewrite lookup_insert_ne; [done|]. intros He. congruence.
      * by rewrite Hpend.
  - rewrite Hw. simpl. unfold waiting in *. rewrite length_app in *.
    destruct (fm_current m); simpl in *; lia.
  - intros ch. specialize (Hord ch). unfold pipeline in *. simpl.
    rewrite Hq, !of_channel_app, !List.filter_app, !fmap_app, <- Hord, !fmap_app.
    destruct (of_channel_one ch c) as [(-> & _)|(-> & _)]; simpl; by rewrite ?app_nil_r, <- ?app_assoc.
Qed.

(** The two outcomes of a submission for the queue. *)
Lemma enqueue_cases kind channel q :
  (fq_next_ticket q + 1 < 2 ^ 64)%N ->
  let q' := (enqueue config bs kind channel q).2 in
  let c := mkFireCommand kind (fq_next_ticket q) channel 0 0 false in
  fq_blocked q' = fq_blocked q /\ fq_next_ticket q' = (fq_next_ticket q + 1)%N /\
  (fq_queue q' = fq_queue q /\ fq_pending_ack q' = fq_pending_ack q \/
   (length (fq_queue q) < fcf_commandQueueCapacity config)%nat /\
   fq_queue q' = fq_queue q ++ [c] /\
   admits kind channel (fq_next_ticket q) (fq_pending_ack q) (fq_pending_ack q')).
Proof.
  intros Hn. cbv zeta. pose proof (N.mod_small _ _ Hn) as Hmod. unfold enqueue.
  repeat case_match; cbn -[N.modulo N.pow]; simpl in *; rewrite ?Hmod;
    repeat match goal with H : (_ <=? _)%nat = false |- _ => apply Nat.leb_gt in H end; auto 10.
Qed.

(** A submission. *)
Lemma submission_ok n m kind channel :
  (N.of_nat n + 2 < 2 ^ 64)%N -> ok n m ->
  ok (S n) (queue_submit m (enqueue config bs kind channel)).
Proof.
  intros Hn Hok. pose proof (mo_next _ _ _ Hok) as Hnext. unfold queue_submit.
  destruct (enqueue_cases kind channel (fm_queue m)) as (Hb & Hnx & Hcase); [lia|].
  destruct (enqueue config bs kind channel (fm_queue m)) as [r q]. simpl in *.
  destruct Hcase as [[Hq Hp]|(Hroom & Hq & Hadm)]; rewrite Hq.
  - rewrite drop_all. by apply refuse_ok.
  - rewrite drop_app_length. by apply admit_ok.
Qed.

(** While a command that is no acknowledgement may run, no other command of its channel holds a
    block. *)
Lemma no_other_holder n m c l :
  ok n m -> c ∈ waiting m -> blocked_out (fm_queue m) c = false ->
  (forall x, x ∈ l -> x ∈ waiting m /\ fc_ticket x <> fc_ticket c) ->
  List.filter holder (of_channel (fc_channelId c) l) = [].
Proof.
  intros Hok Hc Hb Hl. apply filter_none. intros x (Hx & _ & Hch)%elem_of_of_channel.
  destruct (Hl x Hx) as [Hw Ht]. destruct (holder x) eqn:Hh; [|done]. exfalso.
  pose proof (mo_holds _ _ _ Hok x Hw Hh) as Hblk. unfold blocked_out in Hb.
  rewrite <- Hch, Hblk in Hb. apply negb_false_iff, N.eqb_eq in Hb. done.
Qed.

(** The worker takes the first command that may run: the order of its channel is kept. *)
Lemma take_order n m now c l1 l2 channel :
  ok n m -> fq_queue (fm_queue m) = l1 ++ c :: l2 -> fm_current m = None ->
  blocked_out (fm_queue m) c = false ->
  (forall x, x ∈ l1 -> negb (blocked_out (fm_queue m) x) && due now x = false) ->
  fc_id <$> of_channel channel [c] ++
    List.filter holder (of_channel channel (l1 ++ l2)) ++
    List.filter (fun x => negb (holder x)) (of_channel channel (l1 ++ l2)) =
  fc_id <$> List.filter holder (of_channel channel (l1 ++ c :: l2)) ++
    List.filter (fun x => negb (holder x)) (of_channel channel (l1 ++ c :: l2)).
Proof.
  intros Hok Hq Hcur Hb Hbefore. change (c :: l2) with ([c] ++ l2).
  rewrite !of_channel_app. destruct (of_channel_one channel c) as [(Hone & Hack & Hch)|(-> & _)]; [|done].
  assert (Hc : c ∈ waiting m) by (unfold waiting; rewrite Hq; set_solver).
  assert (Hout : forall x, x ∈ l1 ++ l2 -> x ∈ waiting m /\ fc_ticket x <> fc_ticket c).
  { pose proof (mo_tickets _ _ _ Hok) as Hnd. unfold waiting in *. rewrite Hq, Hcur in *. simpl in *.
    rewrite app_nil_r in *. intros x Hx. split; [set_solver|]. intros He.
    rewrite fmap_app in Hnd. apply NoDup_app in Hnd as (Hnd & _).
    rewrite (fmap_Permutation fc_ticket _ (c :: l1 ++ l2)) in Hnd by (by rewrite Permutation_middle).
    apply NoDup_cons in Hnd as [Hnot _]. apply Hnot. rewrite <- He. by apply list_elem_of_fmap_2. }
  rewrite Hone. subst channel.
  pose proof (no_other_holder n m c (l1 ++ l2) Hok Hc Hb Hout) as Hnone.
  rewrite of_channel_app, List.filter_app in Hnone. apply app_eq_nil in Hnone as [Hn1 Hn2].
  rewrite !List.filter_app, Hn1, Hn2. simpl.
  destruct (holder c) eqn:Hh; simpl; [done|].
  (* fresh and not first: the earlier one would have been taken *)
  assert (Hfirst : of_channel (fc_channelId c) l1 = []).
  { destruct (of_channel (fc_channelId c) l1) as [|x rest] eqn:Hl1; [done|]. exfalso.
    assert (Hx : x ∈ of_channel (fc_channelId c) l1) by (rewrite Hl1; left).
    apply elem_of_of_channel in Hx as (Hx & Hxa & Hxc).
    assert (Hxh : holder x = false).
    { simpl in Hn1. destruct (holder x) eqn:E; [done|done]. }
    pose proof (Hbefore x Hx) as Hno. unfold due in Hno.
    rewrite (mo_fresh _ _ _ Hok x) in Hno by (done || rewrite Hq; set_solver). simpl in Hno.
    rewrite andb_true_r in Hno. apply negb_false_iff in Hno. unfold blocked_out in Hno, Hb.
    rewrite Hxc in Hno. destruct (fq_blocked (fm_queue m) !! fc_channelId c) as [t|] eqn:Ht; [|done].
    apply negb_false_iff, N.eqb_eq in Hb. destruct (mo_blocked _ _ _ Hok _ _ Ht) as (y & Hy & Hty & _ & Hhy).
    assert (y = c) as -> by (apply (same_ticket n m); auto; congruence). congruence. }
  by rewrite Hfirst.
Qed.

Lemma take_ok n m now : ok n m -> ok n (step m (QTake now)).
Proof.
  intros Hok. cbn [queue_step]. destruct (fm_current m) eqn:Hcur; [done|].
  unfold take_command. destruct (select_command _ _ _) as [[c others]|] eqn:Hsel; [|done].
  apply select_command_split in Hsel as (l1 & l2 & Hq & -> & Hb & Hdue & Hbefore).
  set (m' := mkFireMachine _ _ _ _ _).
  assert (Hw : waiting m' ≡ₚ waiting m).
  { unfold waiting. simpl. rewrite Hcur, Hq, app_nil_r. simpl.
    rewrite (Permutation_app_comm _ [c]). simpl. by rewrite Permutation_middle. }
  assert (Hord : forall ch, fc_id <$> pipeline ch m' = fc_id <$> of_channel ch (fm_admitted m)).
  { intros ch. rewrite <- (mo_order _ _ _ Hok ch). unfold pipeline. simpl.
    rewrite Hcur, Hq. rewrite !(fmap_app _ (of_channel ch (fm_done m))). f_equal.
    by apply (take_order n m now). }
  destruct Hok. split; simpl; auto.
  - by rewrite Hw.
  - by rewrite Hw.
  - by rewrite Hw.
  - intros ch t Ht. setoid_rewrite Hw. eauto.
  - intros x. rewrite Hw. auto.
  - intros x Hx. apply mo_fresh0. rewrite Hq. set_solver.
  - by intros ? [= <-].
  - intros x alarm. rewrite Hw. auto.
  - by rewrite Hw.
Qed.

(** ** The end of a turn *)

Section Turn.
Variables (n : nat) (m : FireMachine) (c : FireCommand).
Hypothesis Hok : ok n m.
Hypothesis Hcur : fm_current m = Some c.

Lemma turn_waiting : waiting m = fq_queue (fm_queue m) ++ [c].
Proof. unfold waiting. by rewrite Hcur. Qed.

Lemma turn_in : c ∈ waiting m.
Proof. rewrite turn_waiting. set_solver. Qed.

Lemma turn_queue_in x : x ∈ fq_queue (fm_queue m) -> x ∈ waiting m.
Proof. rewrite turn_waiting. set_solver. Qed.

(** The command that is worked on has its ticket for itself. *)
Lemma turn_others x : x ∈ fq_queue (fm_queue m) -> fc_ticket x <> fc_ticket c.
Proof.
  intros Hx He. pose proof (mo_tickets _ _ _ Hok) as Hnd. rewrite turn_waiting, !fmap_app in Hnd.
  apply NoDup_app in Hnd as (Hnd & _). apply NoDup_app in Hnd as (_ & Hdis & _).
  apply (Hdis (fc_ticket x)); [by apply list_elem_of_fmap_2|]. rewrite He. simpl. by left.
Qed.

(** Nobody else of its channel holds a block. *)
Lemma turn_no_holder x :
  x ∈ fq_queue (fm_queue m) -> fc_channelId x = fc_channelId c -> holder x = false.
Proof.
  intros Hx Hch. destruct (holder x) eqn:Hh; [|done]. exfalso.
  pose proof (mo_holds _ _ _ Hok x (turn_queue_in x Hx) Hh) as Hblk.
  pose proof (mo_current _ _ _ Hok c Hcur) as Hb. unfold blocked_out in Hb.
  rewrite <- Hch, Hblk in Hb. apply negb_false_iff, N.eqb_eq in Hb. by apply (turn_others x).
Qed.

Lemma turn_release :
  release_block c (fq_blocked (fm_queue m)) = delete (fc_channelId c) (fq_blocked (fm_queue m)).
Proof.
  unfold release_block. pose proof (mo_current _ _ _ Hok c Hcur) as Hb. unfold blocked_out in Hb.
  destruct (fq_blocked (fm_queue m) !! fc_channelId c) as [t|] eqn:Ht.
  - apply negb_false_iff, N.eqb_eq in Hb as ->. rewrite N.eqb_refl.
    destruct (mo_blocked _ _ _ Hok _ _ Ht) as (y & Hy & Hty & _ & Hhy).
    assert (y = c) as -> by (apply (same_ticket n m); auto using turn_in). unfold holder in Hhy.
    by rewrite Hhy.
  - rewrite delete_id by done. by destruct (fc_holdsChannelBlock c).
Qed.

(** The blocks of the other channels are those of the commands that wait. *)
Lemma turn_blocked channel ticket :
  channel <> fc_channelId c -> fq_blocked (fm_queue m) !! channel = Some ticket ->
  exists x, x ∈ fq_queue (fm_queue m) /\ fc_ticket x = ticket /\ fc_channelId x = channel /\
    holder x = true.
Proof.
  intros Hne Ht. destruct (mo_blocked _ _ _ Hok _ _ Ht) as (y & Hy & Hty & Hch & Hh).
  exists y. rewrite turn_waiting in Hy. apply elem_of_app in Hy as [Hy|Hy%list_elem_of_singleton]; [auto|].
  congruence.
Qed.
Lemma turn_holds x :
  x ∈ fq_queue (fm_queue m) -> holder x = true -> fc_channelId x <> fc_channelId c /\
  fq_blocked (fm_queue m) !! fc_channelId x = Some (fc_ticket x).
Proof.
  intros Hx Hh. split; [|apply (mo_holds _ _ _ Hok); auto using turn_queue_in].
  intros Hch. by rewrite (turn_no_holder x) in Hh.
Qed.

(** The waiting commands of its channel are all fresh. *)
Lemma turn_split :
  List.filter holder (of_channel (fc_channelId c) (fq_queue (fm_queue m))) = [] /\
  List.filter (fun x => negb (holder x)) (of_channel (fc_channelId c) (fq_queue (fm_queue m))) =
    of_channel (fc_channelId c) (fq_queue (fm_queue m)).
Proof.
  split; [apply filter_none|apply filter_all];
    intros x (Hx & _ & Hch)%elem_of_of_channel; by rewrite (turn_no_holder x).
Qed.

(** Whether a channel counts the command depends on what never changes in it. *)
Lemma of_channel_id channel x :
  fc_id x = fc_id c -> fc_id <$> of_channel channel [x] = fc_id <$> of_channel channel [c].
Proof.
  intros Hid. unfold of_channel, is_ack. simpl. unfold fc_id in *. simplify_eq.
  replace (fc_kind x) with (fc_kind c) by congruence.
  replace (fc_channelId x) with (fc_channelId c) by congruence.
  case_match; simpl; case_bool_decide; simpl; congruence.
Qed.

(** The command goes back to the end of the queue; it holds the block of its channel unless it
    is an acknowledgement that only waits. *)
Lemma retry_ok c' q db :
  fc_id c' = fc_id c -> (is_ack c = false -> holder c' = true) ->
  fq_queue q = fq_queue (fm_queue m) ++ [c'] ->
  fq_blocked q = (if holder c' then <[fc_channelId c := fc_ticket c]> (fq_blocked (fm_queue m))
                  else delete (fc_channelId c) (fq_blocked (fm_queue m))) ->
  fq_pending_ack q = fq_pending_ack (fm_queue m) ->
  fq_next_ticket q = fq_next_ticket (fm_queue m) ->
  ok n (mkFireMachine q None db (fm_admitted m) (fm_done m)).
Proof.
  intros Hid Hhold Hq Hb Hp Hnx. set (m' := mkFireMachine _ _ _ _ _).
  assert (Hids : fc_ticket c' = fc_ticket c /\ fc_channelId c' = fc_channelId c /\
                 fc_kind c' = fc_kind c) by (unfold fc_id in Hid; by simplify_eq).
  destruct Hids as (Ht & Hch & Hk).
  assert (Hack : is_ack c' = is_ack c) by (unfold is_ack; by rewrite Hk).
  assert (Hw : waiting m' = fq_queue (fm_queue m) ++ [c']).
  { unfold waiting. simpl. by rewrite Hq, app_nil_r. }
  assert (Hwid : fc_id <$> waiting m' ++ fm_done m' = fc_id <$> waiting m ++ fm_done m).
  { rewrite Hw, turn_waiting, !fmap_app. simpl. by rewrite Hid. }
  split.
  - simpl. rewrite Hnx. apply Hok.
  - rewrite (tickets_of_ids _ _ Hwid). apply Hok.
  - simpl. rewrite Hnx, Hw. pose proof (mo_below _ _ _ Hok) as Hbelow.
    rewrite turn_waiting, !Forall_app in Hbelow. rewrite !Forall_app.
    destruct Hbelow as ((H1 & H2) & H3). repeat split; auto.
    inversion H2; subst. constructor; [by rewrite Ht|done].
  - rewrite Hwid. apply Hok.
  - simpl. rewrite Hb. intros ch t Hl.
    assert (Hcase : ch <> fc_channelId c /\ fq_blocked (fm_queue m) !! ch = Some t \/
                    ch = fc_channelId c /\ t = fc_ticket c /\ holder c' = true).
    { destruct (decide (ch = fc_channelId c)) as [->|Hne]; destruct (holder c') eqn:Hh.
      - rewrite lookup_insert_eq in Hl. by simplify_eq; auto.
      - by rewrite lookup_delete_eq in Hl.
      - rewrite lookup_insert_ne in Hl by done. auto.
      - rewrite lookup_delete_ne in Hl by done. auto. }
    destruct Hcase as [[Hne Hold]|(-> & -> & Hh)]; rewrite Hw.
    + destruct (turn_blocked ch t Hne Hold) as (x & Hx & H). exists x. split; [set_solver|done].
    + exists c'. split; [set_solver|]. by rewrite Ht, Hch.
  - simpl. rewrite Hb. intros x. rewrite Hw. intros [Hx|Hx%list_elem_of_singleton]%elem_of_app Hh.
    + destruct (turn_holds x Hx Hh) as [Hne Hl].
      destruct (holder c'); [rewrite lookup_insert_ne by done | rewrite lookup_delete_ne by done]; done.
    + subst x. by rewrite Hh, Ht, Hch, lookup_insert_eq.
  - simpl. rewrite Hq. intros x [Hx|Hx%list_elem_of_singleton]%elem_of_app Ha Hh.
    + by apply (mo_fresh _ _ _ Hok).
    + subst x. rewrite Hhold in Hh; congruence.
  - done.
  - simpl. rewrite Hp. intros x alarm. rewrite Hw.
    intros [Hx|Hx%list_elem_of_singleton]%elem_of_app Hka.
    + apply (mo_acks _ _ _ Hok); auto using turn_queue_in.
    + subst x. rewrite Hk in Hka. rewrite Ht, Hch. apply (mo_acks _ _ _ Hok); auto using turn_in.
  - pose proof (mo_room _ _ _ Hok) as Hroom. rewrite turn_waiting in Hroom. rewrite Hw.
    rewrite length_app in *. simpl in *. lia.
  - intros ch. simpl. rewrite <- (mo_order _ _ _ Hok ch). unfold pipeline. simpl.
    rewrite Hq, Hcur, !of_channel_app, !List.filter_app, !fmap_app. simpl. f_equal.
    rewrite <- (of_channel_id ch c' Hid).
    destruct (of_channel_one ch c') as [(-> & Ha & Hcc)|[-> _]]; simpl; rewrite ?app_nil_r; [|done].
    rewrite Hack in Ha. rewrite (Hhold Ha). simpl. rewrite <- Hcc, Hch.
    destruct turn_split as [-> ->]. simpl. by rewrite app_nil_r.
Qed.

(** The command is finished. *)
Lemma finish_ok q db :
  fq_queue q = fq_queue (fm_queue m) ->
  fq_blocked q = delete (fc_channelId c) (fq_blocked (fm_queue m)) ->
  fq_pending_ack q = match fc_kind c with
                     | KindAcknowledge alarm => delete (fc_channelId c, alarm) (fq_pending_ack (fm_queue m))
                     | _ => fq_pending_ack (fm_queue m)
                     end ->
  fq_next_ticket q = fq_next_ticket (fm_queue m) ->
  ok n (mkFireMachine q None db (fm_admitted m) (fm_done m ++ [c])).
Proof.
  intros Hq Hb Hp Hnx. set (m' := mkFireMachine _ _ _ _ _).
  assert (Hw : waiting m' = fq_queue (fm_queue m)).
  { unfold waiting. simpl. by rewrite Hq, app_nil_r. }
  assert (Hall : waiting m' ++ fm_done m' ≡ₚ waiting m ++ fm_done m).
  { rewrite Hw, turn_waiting. simpl. rewrite (Permutation_app_comm (fm_done m)). by rewrite app_assoc. }
  split.
  - simpl. rewrite Hnx. apply Hok.
  - rewrite Hall. apply Hok.
  - rewrite Hall. simpl. rewrite Hnx. apply Hok.
  - rewrite Hall. apply Hok.
  - simpl. rewrite Hb. intros ch t [Hne Hl]%lookup_delete_Some. rewrite Hw.
    destruct (turn_blocked ch t (not_eq_sym Hne) Hl) as (x & Hx & H). eauto.
  - simpl. rewrite Hb. intros x. rewrite Hw. intros Hx Hh.
    destruct (turn_holds x Hx Hh) as [Hne Hl]. by rewrite lookup_delete_ne by done.
  - simpl. rewrite Hq. intros x Hx. by apply (mo_fresh _ _ _ Hok).
  - done.
  - simpl. rewrite Hp. intros x alarm. rewrite Hw. intros Hx Hk.
    pose proof (mo_acks _ _ _ Hok x alarm (turn_queue_in x Hx) Hk) as Hl.
    destruct (fc_kind c) as [?|al|] eqn:Hkc; [done| |done].
    rewrite lookup_delete_ne; [done|]. intros [= He ->].
    pose proof (mo_acks _ _ _ Hok c alarm turn_in Hkc) as Hlc. rewrite He, Hl in Hlc.
    injection Hlc. by apply turn_others.
  - pose proof (mo_room _ _ _ Hok) as Hroom. rewrite turn_waiting in Hroom. rewrite Hw.
    rewrite length_app in *. simpl in *. lia.
  - intros ch. simpl. rewrite <- (mo_order _ _ _ Hok ch). unfold pipeline. simpl.
    by rewrite Hq, Hcur, !of_channel_app, <- !app_assoc.
Qed.
End Turn.

(** A turn of the worker. *)
Lemma work_ok n m env now : ok n m -> ok n (step m (QWork env now)).
Proof.
  intros Hok. cbn [queue_step]. destruct (fm_current m) as [c|] eqn:Hcur; [|done].
  pose proof (process_blocks isoString signal_dump config bs env c (fm_db m)) as Hblocks.
  destruct (process_caught isoString signal_dump config bs env c (fm_db m)) as [r db]. simpl in Hblocks.
  unfold settle_command. rewrite (turn_release n m c Hok Hcur).
  destruct (fcr_retryable r) eqn:Hr.
  - set (retry holds := mkFireCommand (fc_kind c) (fc_ticket c) (fc_channelId c)
      (S (fc_retryCount c)) (now + fcf_transientFailureRetryDelay config * 1000000) holds).
    destruct (fcr_blocksChannel r) eqn:Hbl;
      [apply (retry_ok n m c Hok Hcur (retry true)) | apply (retry_ok n m c Hok Hcur (retry false))];
      auto.
  - apply finish_ok; auto. simpl. destruct (fc_kind c) as [?|alarm|] eqn:Hk; auto.
    rewrite (mo_acks _ _ _ Hok c alarm) by (auto; by apply (turn_in n m c Hok)). by rewrite N.eqb_refl.
Qed.

Lemma store_ok n m q db :
  ok n m -> fq_queue q = fq_queue (fm_queue m) -> fq_blocked q = fq_blocked (fm_queue m) ->
  fq_pending_ack q = fq_pending_ack (fm_queue m) -> fq_next_ticket q = fq_next_ticket (fm_queue m) ->
  ok n (mkFireMachine q (fm_current m) db (fm_admitted m) (fm_done m)).
Proof.
  intros [] Hq Hb Hp Hnx.
  split; unfold waiting, pipeline, blocked_out in *; simpl; rewrite ?Hq, ?Hb, ?Hp, ?Hnx; auto.
Qed.

Lemma queue_step_ok n m op :
  (N.of_nat n + 2 < 2 ^ 64)%N -> ok n m -> ok (S n) (step m op).
Proof.
  intros Hn Hok. destruct op; try (by apply submission_ok); apply machine_ok_mono.
  - by apply take_ok.
  - by apply work_ok.
  - by apply store_ok.
  - by apply store_ok.
Qed.

Lemma queue_run_ok ops : forall n m,
  (N.of_nat n + N.of_nat (length ops) + 1 < 2 ^ 64)%N -> ok n m ->
  ok (n + length ops) (queue_run isoString signal_dump config bs m ops).
Proof.
  induction ops as [|op ops IH]; intros n m Hn Hok; simpl in *; [by rewrite Nat.add_0_r|].
  rewrite Nat.add_succ_r. apply (IH (S n)); [lia|]. apply queue_step_ok; [lia|done].
Qed.

Lemma started_ok db : ok 0 (started_machine db).
Proof.
  split; simpl; try done; try lia; try constructor.
  all: try (by intros ? ?%not_elem_of_nil). by intros ? ? ?%not_elem_of_nil.
Qed.

(** Nothing is lost, repeated or overtaken in the fire queue. Over every history of
    submissions, turns of the worker, failed attempts with their retries and the changes
    that deliveries make to the database: the admitted commands are those that wait and
    those that are finished, each once; the signals and manual clears of a channel are
    finished in the order of their admission; the queue stays within its capacity plus the one command
    that is being retried; and an acknowledgement of an alarm waits at most once. *)
Theorem fire_queue_fifo db ops m :
  m = queue_run isoString signal_dump config bs (started_machine db) ops ->
  (N.of_nat (length ops) + 1 < 2 ^ 64)%N ->
  fc_id <$> fm_admitted m ≡ₚ fc_id <$> waiting m ++ fm_done m /\
  NoDup (fc_ticket <$> fm_admitted m) /\
  (forall channel, fc_id <$> of_channel channel (fm_done m)
                   `prefix_of` fc_id <$> of_channel channel (fm_admitted m)) /\
  (length (waiting m) <= fcf_commandQueueCapacity config + 1)%nat /\
  NoDup (ack_keys (waiting m)).
Proof.
  intros -> Hn. pose proof (queue_run_ok ops 0 (started_machine db) Hn (started_ok db)) as Hok.
  destruct Hok as [Hnext Hnd Hbelow Hadm Hblk Hhold Hfresh Hcur Hack Hlen Hord].
  split; [done|]. split; [|split; [|split; [done|]]].
  - by rewrite (tickets_Permutation _ _ Hadm).
  - intros ch. rewrite <- Hord. unfold pipeline. rewrite fmap_app. by eexists.
  - rewrite fmap_app in Hnd. apply NoDup_app in Hnd as (Hnd & _). by apply ack_keys_NoDup in Hack.
Qed.
End Invariant.

(** * A command that can never be finished *)

(** Errors of the fire alarm service: a command whose processing throws keeps its place and
    blocks its channel. A signal that the policy accepts but that cannot be printed as JSON throws
    every time, and so holds up its channel for good. *)
Section Failure.
Context {JL : JsonLibrary}.
Variable isoString : time_point -> string.
Variable signal_dump : json -> result string string.
Variable config : FireConfig.
Variable bs : list FireChannelBinding.
Hypothesis Hbs : bindings_ok bs.
Hypothesis Hiso : forall t, isoString t <> "".
Hypothesis Hdump : forall j t, signal_dump j = Ok t -> t <> "".

Notation step := (queue_step isoString signal_dump config bs).
Notation run := (queue_run isoString signal_dump config bs).
Notation process_caught := (process_caught isoString signal_dump config bs).

(** * Commands as they are submitted *)

(** A signal is queued under the channel of its sensor. *)
Definition command_wf (id : N * string * CommandKind) : Prop :=
  kind_wf id.2 /\ forall signal b, id.2 = KindSignal signal ->
    findBySensor bs (fsg_sensorId signal) = Some b -> id.1.2 = fcb_channelId b.

Definition queue_op_wf (op : FireQueueOp) : Prop :=
  match op with
  | QSignal signal => signal_wf signal
  | QStore f => forall db, delivery_step db (f db)
  | _ => True
  end.

Lemma fresh_wf op f :
  queue_op_wf op -> submission bs config op = Some f ->
  exists kind channel, f = enqueue config bs kind channel /\ forall t, command_wf (t, channel, kind).
Proof.
  destruct op as [signal|ch alarm|ch|?|? ?|?|]; simpl; intros Hwf [= <-];
    eexists _, _; (split; [done|]); intros t; unfold command_wf; simpl; (split; [done|]);
    intros s b [= <-] Hf; by rewrite Hf.
Qed.

(** A step neither loses nor changes what waits, apart from the command at work. *)
Lemma submit_waiting kind channel m :
  (fq_next_ticket (fm_queue m) + 1 < 2 ^ 64)%N ->
  let m' := queue_submit m (enqueue config bs kind channel) in
  (forall x, x ∈ waiting m -> x ∈ waiting m') /\
  forall x, x ∈ waiting m' -> x ∈ waiting m \/ fc_id x = (fq_next_ticket (fm_queue m), channel, kind).
Proof.
  intros Hn. destruct (enqueue_cases config bs kind channel (fm_queue m) Hn) as (_ & _ & Hcase).
  unfold queue_submit, waiting. simpl in *.
  destruct Hcase as [[-> _]|(_ & -> & _)]; split; set_unfold; naive_solver.
Qed.

Lemma take_waiting now m : waiting (step m (QTake now)) ≡ₚ waiting m.
Proof.
  cbn [queue_step]. destruct (fm_current m) eqn:Hcur; [done|].
  unfold take_command. destruct (select_command _ _ _) as [[c others]|] eqn:Hsel; [|done].
  apply select_command_split in Hsel as (l1 & l2 & Hq & -> & _).
  unfold waiting. simpl. rewrite Hcur, Hq, app_nil_r. simpl.
  rewrite (Permutation_app_comm _ [c]). simpl. by rewrite Permutation_middle.
Qed.

Lemma settle_queue now c r q :
  fq_queue (settle_command config now c r q) = fq_queue q \/
  exists c', fq_queue (settle_command config now c r q) = fq_queue q ++ [c'] /\ fc_id c' = fc_id c.
Proof.
  unfold settle_command. destruct (fcr_retryable r); [|by left]. right.
  destruct (fcr_blocksChannel r); by eexists.
Qed.

Definition commands_wf (m : FireMachine) : Prop :=
  forall x, x ∈ waiting m -> command_wf (fc_id x).

Lemma commands_wf_step n m op :
  (N.of_nat n + 2 < 2 ^ 64)%N -> machine_ok config n m -> queue_op_wf op ->
  commands_wf m -> commands_wf (step m op).
Proof.
  intros Hn Hok Hwf Hc. pose proof (mo_next _ _ _ Hok) as Hnext.
  destruct (submission bs config op) as [f|] eqn:Hsub.
  - destruct (fresh_wf op f Hwf Hsub) as (kind & channel & -> & Hcmd).
    assert (step m op = queue_submit m (enqueue config bs kind channel)) as ->
      by (unfold queue_step; destruct op; try done; by rewrite Hsub).
    destruct (submit_waiting kind channel m) as [_ Hnew]; [lia|].
    intros x [Hx|Hx]%Hnew; [auto|]. by rewrite Hx.
  - destruct op as [?|? ?|?|now|env now|f|]; try done.
    + intros x. rewrite take_waiting. apply Hc.
    + cbn [queue_step]. destruct (fm_current m) as [c|] eqn:Hcur; [|done].
      destruct (process_caught env c (fm_db m)) as [r db]. intros x. unfold waiting. simpl.
      assert (Hq : forall y, y ∈ fq_queue (fm_queue m) -> command_wf (fc_id y))
        by (intros y Hy; apply Hc; unfold waiting; apply elem_of_app; by left).
      rewrite app_nil_r. destruct (settle_queue now c r (fm_queue m)) as [->|(c' & -> & Hid)]; [auto|].
      intros [Hx|Hx%list_elem_of_singleton]%elem_of_app; [auto|]. subst x. rewrite Hid. apply Hc.
      by apply (turn_in config n).
Qed.

Lemma commands_wf_run ops : forall n m,
  (N.of_nat n + N.of_nat (length ops) + 1 < 2 ^ 64)%N -> machine_ok config n m ->
  Forall queue_op_wf ops -> commands_wf m -> commands_wf (run m ops).
Proof.
  induction ops as [|op ops IH]; intros n m Hn Hok Hwf Hc; simpl in *; [done|].
  apply Forall_cons in Hwf as [Hop Hwf]. apply (IH (S n)); try done; [lia| |].
  - apply queue_step_ok; [lia|done].
  - apply (commands_wf_step n); try done. lia.
Qed.

(** * A signal that cannot be stored *)

Variables (b : FireChannelBinding) (signal : FireSignal) (what : string).
Hypothesis Herr : serializeSignal signal_dump signal = Err what.

(** Its processing throws: the database stays, the command is to be tried again and to block. *)
Lemma poison_throws env c db s :
  signal_accepted bs db b s signal -> fc_kind c = KindSignal signal ->
  process_caught env c db = (retryableResult (fc_ticket c) (fc_channelId c) 0 what true, db).
Proof.
  intros [Hok Hsen H Hwf Hdis Hacc] Hk.
  pose proof (findBySensor_some bs _ _ Hsen) as [Hb Hsig].
  unfold FireService.process_caught, FireService.process. rewrite Hk, Hsen.
  unfold processSignal. rewrite (channel_get bs Hbs b s db Hok Hb H). cbn [rbind].
  rewrite Hdis, (not_duplicate _ Hacc), Hacc. cbn [negb]. unfold apply_signal. by rewrite Herr.
Qed.

(** The policy still accepts it after whatever leaves the channel and its cursor. *)
Lemma accepted_stays db db' s :
  signal_accepted bs db b s signal -> fire_ok bs db' -> channel_ok b s db' ->
  fire_cursor db' s = fire_cursor db s -> signal_accepted bs db' b s signal.
Proof.
  intros [Hok Hsen H Hwf Hdis Hacc] Hok' H' Hcur.
  pose proof (findBySensor_some bs _ _ Hsen) as [Hb Hsig]. split; try done.
  rewrite (decision_same isoString signal_dump bs Hbs Hiso Hdump db' b s signal), Hcur by done.
  by rewrite <- (decision_same isoString signal_dump bs Hbs Hiso Hdump db b s signal).
Qed.

Lemma accepted_after_delivery db db' s :
  signal_accepted bs db b s signal -> delivery_step db db' -> signal_accepted bs db' b s signal.
Proof.
  intros Ha Hd. pose proof Ha as [Hok Hsen H _ _ _]. apply (accepted_stays db); try done.
  - by apply (fire_ok_delivery bs db).
  - by apply (channel_ok_delivery _ _ db).
  - apply same_cursor, (ds_retired _ _ Hd).
Qed.

(** Commands of the other channels leave it alone. *)
Lemma accepted_after_other env c db s :
  signal_accepted bs db b s signal -> command_wf (fc_id c) -> fc_channelId c <> fcb_channelId b ->
  signal_accepted bs (process_caught env c db).2 b s signal.
Proof.
  intros Ha [Hkw Hch] Hne. pose proof Ha as [Hok Hsen H _ _ _].
  pose proof (findBySensor_some bs _ _ Hsen) as [Hb Hsig].
  destruct (process_caught env c db) as [r db'] eqn:Hp. simpl.
  assert (Hok' : fire_ok bs db')
    by (by apply (process_ok isoString signal_dump config bs Hbs Hiso Hdump env c db r)).
  assert (Hnt : target bs c <> Some b).
  { intros Ht. apply Hne. unfold target in Ht. unfold fc_id in Hch. simpl in Hch.
    destruct (fc_kind c) as [sg|al|].
    - by apply (Hch sg).
    - by apply findByChannel_some in Ht as [_ ?].
    - by apply findByChannel_some in Ht as [_ ?]. }
  destruct (fk_channels _ _ Hok' b Hb) as [s' H'].
  assert (s' = s) as ->.
  { destruct (target bs c) as [bt|] eqn:Ht.
    - pose proof (target_in bs c bt Ht) as Hbt. destruct (fk_channels _ _ Hok bt Hbt) as [st Hst].
      pose proof (process_outcome isoString signal_dump config bs Hbs Hiso Hdump env c bt st db r db'
        Hok Hkw Ht Hst Hp) as He. unfold command_outcome in He.
      destruct (effect_on_others signal_dump bs Hbs bt b _ st s db _ _ _ He Hbt Hb) as [H2 _];
        [congruence|done|]. by apply (channel_unique b s' s db').
    - destruct (process_no_target isoString signal_dump config bs env c db r db' Ht Hp) as (-> & _).
      by apply (channel_unique b s' s db). }
  apply (accepted_stays db); try done.
  assert (Hbsne : bs <> []) by (intros ->; by apply not_elem_of_nil in Hb).
  destruct (fire_step_cursor isoString signal_dump config bs Hbs Hiso Hdump b db (FireDo env c) s s
    Hbsne Hok Hkw Hb H) as [[Hc _]|(env' & c' & sg & [= <- <-] & Hk & Hsg & _)].
  - simpl. by rewrite Hp.
  - simpl in Hc. by rewrite Hp in Hc.
  - exfalso. apply Hnt. unfold target. by rewrite Hk, Hsg, Hsig, Hsen.
Qed.

(** ** The channel stays blocked *)

(** The finished commands of the channel, acknowledgements included. *)
Definition finished_on (channel : string) (m : FireMachine) : list FireCommand :=
  List.filter (fun c => bool_decide (fc_channelId c = channel)) (fm_done m).

Record poisoned (t : N) (m : FireMachine) : Prop := {
  pz_signal : exists s, signal_accepted bs (fm_db m) b s signal;
  pz_commands : commands_wf m;
  pz_waits : exists c, c ∈ waiting m /\ fc_id c = (t, fcb_channelId b, KindSignal signal) /\
    holder c = true
}.

Lemma poisoned_idle t m m' :
  poisoned t m -> (exists s, signal_accepted bs (fm_db m') b s signal) ->
  waiting m' ≡ₚ waiting m -> poisoned t m'.
Proof. intros [_ Hc Hw] Hs He. split; [done| |]; unfold commands_wf; setoid_rewrite He; done. Qed.

(** A turn on another command. *)
Lemma poisoned_other n t m c env now :
  machine_ok config n m -> poisoned t m -> fm_current m = Some c -> fc_ticket c <> t ->
  poisoned t (step m (QWork env now)) /\
  finished_on (fcb_channelId b) (step m (QWork env now)) = finished_on (fcb_channelId b) m.
Proof.
  intros Hok [[s Hsig] Hcmds (p & Hp & Hid & Hhold)] Hcur Hne. cbn [queue_step]. rewrite Hcur.
  unfold fc_id in Hid. injection Hid as Ht Hch Hk.
  assert (Hcw : c ∈ waiting m) by (by apply (turn_in config n)).
  assert (Hother : fc_channelId c <> fcb_channelId b).
  { intros He. pose proof (mo_current _ _ _ Hok c Hcur) as Hb. unfold blocked_out in Hb.
    pose proof (mo_holds _ _ _ Hok p Hp Hhold) as Hl. rewrite He, <- Hch, Hl in Hb.
    apply negb_false_iff, N.eqb_eq in Hb. congruence. }
  pose proof (accepted_after_other env c (fm_db m) s Hsig (Hcmds c Hcw) Hother) as Hsig'.
  destruct (process_caught env c (fm_db m)) as [r db] eqn:Hpr. simpl in Hsig'.
  pose proof (settle_queue now c r (fm_queue m)) as Hq.
  assert (Hpq : p ∈ fq_queue (fm_queue m)).
  { unfold waiting in Hp. rewrite Hcur in Hp. simpl in Hp.
    apply elem_of_app in Hp as [Hp|Hp%list_elem_of_singleton]; [done|congruence]. }
  split.
  - split; simpl; [by exists s| |].
    + intros x. unfold waiting. simpl. rewrite app_nil_r. intros Hx.
      assert (Hqw : forall y, y ∈ fq_queue (fm_queue m) -> command_wf (fc_id y))
        by (intros y Hy; apply Hcmds; unfold waiting; apply elem_of_app; by left).
      destruct Hq as [Hq|(c' & Hq & Hid')]; rewrite Hq in Hx; [auto|].
      apply elem_of_app in Hx as [Hx|Hx%list_elem_of_singleton]; [auto|].
      subst x. rewrite Hid'. auto.
    + exists p. split; [|by unfold fc_id; rewrite Ht, Hch, Hk]. unfold waiting. simpl.
      rewrite app_nil_r. destruct Hq as [->|(c' & -> & _)]; [done|]. apply elem_of_app. by left.
  - unfold finished_on. simpl. destruct (fcr_retryable r); [done|].
    rewrite List.filter_app. simpl. rewrite bool_decide_eq_false_2 by done. by rewrite app_nil_r.
Qed.

(** A turn on the signal itself. *)
Lemma poisoned_self m c env now :
  (exists s, signal_accepted bs (fm_db m) b s signal) ->
  (forall x, x ∈ waiting m -> command_wf (fc_id x)) ->
  fm_current m = Some c -> fc_channelId c = fcb_channelId b -> fc_kind c = KindSignal signal ->
  poisoned (fc_ticket c) (step m (QWork env now)) /\
  finished_on (fcb_channelId b) (step m (QWork env now)) = finished_on (fcb_channelId b) m.
Proof.
  intros [s Hsig] Hcmds Hcur Hch Hk. cbn [queue_step].
  rewrite Hcur, (poison_throws env c (fm_db m) s Hsig Hk). cbn [retryableResult fcr_retryable].
  split; [|done]. split; simpl; [by exists s| |].
  - intros x. unfold waiting, settle_command. simpl. rewrite app_nil_r.
    intros [Hx|Hx%list_elem_of_singleton]%elem_of_app.
    + apply Hcmds. unfold waiting. apply elem_of_app. by left.
    + subst x. change (fc_id _) with (fc_id c). apply Hcmds. unfold waiting. rewrite Hcur.
      apply elem_of_app. right. by left.
  - eexists. unfold waiting, settle_command. simpl. rewrite app_nil_r.
    split; [apply elem_of_app; right; by left|]. unfold fc_id. simpl. by rewrite Hch, Hk.
Qed.

Lemma poisoned_step n t m op :
  (N.of_nat n + 2 < 2 ^ 64)%N -> machine_ok config n m -> queue_op_wf op -> poisoned t m ->
  poisoned t (step m op) /\
  finished_on (fcb_channelId b) (step m op) = finished_on (fcb_channelId b) m.
Proof.
  intros Hn Hok Hwf Hpz. pose proof (mo_next _ _ _ Hok) as Hnext.
  destruct (submission bs config op) as [f|] eqn:Hsub.
  - destruct (fresh_wf op f Hwf Hsub) as (kind & channel & Hf & Hcmd).
    assert (step m op = queue_submit m f) as ->
      by (unfold queue_step; destruct op; try done; by rewrite Hsub).
    split; [|done]. subst f.
    destruct (submit_waiting kind channel m) as [Hkeep Hnew]; [lia|].
    destruct Hpz as [Hs Hc (p & Hp & Hrest)]. split; [done| |by eauto].
    intros x [Hx|Hx]%Hnew; [auto|]. by rewrite Hx.
  - destruct op as [?|? ?|?|now|env now|f|]; try done.
    + split; [|unfold finished_on; simpl; repeat case_match; done].
      apply (poisoned_idle t m); [done| |by apply take_waiting].
      simpl. repeat case_match; apply Hpz.
    + destruct (fm_current m) as [c|] eqn:Hcur; [|simpl; by rewrite Hcur].
      destruct (decide (fc_ticket c = t)) as [Ht|Ht]; [|by apply (poisoned_other n t m c)].
      destruct Hpz as [Hs Hc (p & Hp & Hid & _)]. unfold fc_id in Hid. injection Hid as Htp Hch Hk.
      assert (p = c) as ->.
      { apply (same_ticket config n m); auto; [by apply (turn_in config n)|congruence]. }
      subst t. by apply poisoned_self.
    + split; [|done]. apply (poisoned_idle t m); [done| |done]. simpl.
      destruct (pz_signal _ _ Hpz) as [s Hs]. exists s. by apply (accepted_after_delivery (fm_db m)).
    + split; [|done]. apply (poisoned_idle t m); [done|apply Hpz|done].
Qed.

Lemma poisoned_run t ops : forall n m,
  (N.of_nat n + N.of_nat (length ops) + 1 < 2 ^ 64)%N -> machine_ok config n m ->
  Forall queue_op_wf ops -> poisoned t m ->
  poisoned t (run m ops) /\
  finished_on (fcb_channelId b) (run m ops) = finished_on (fcb_channelId b) m.
Proof.
  induction ops as [|op ops IH]; intros n m Hn Hok Hwf Hpz; simpl in *; [done|].
  apply Forall_cons in Hwf as [Hop Hwf].
  destruct (poisoned_step n t m op) as [Hpz' Hf']; try done; [lia|].
  rewrite <- Hf'. apply (IH (S n)); try done; [lia|].
  apply queue_step_ok; [lia|done].
Qed.

(** A fire signal that the policy accepts but that cannot be printed as JSON (its
    text is not valid UTF-8, say) is never finished. From the first turn on it, its
    command stays in the queue and no command of its channel is finished any more: no
    later signal, acknowledgement or manual clear, whatever else is submitted, processed or
    delivered. *)
Theorem fire_poison_blocks db ops m c s env now later m' :
  m = run (started_machine db) ops -> Forall queue_op_wf ops -> Forall queue_op_wf later ->
  (N.of_nat (length ops) + N.of_nat (length later) + 2 < 2 ^ 64)%N ->
  fm_current m = Some c -> fc_kind c = KindSignal signal -> signal_accepted bs (fm_db m) b s signal ->
  m' = run m (QWork env now :: later) ->
  fc_id c ∈ fc_id <$> waiting m' /\
  finished_on (fcb_channelId b) m' = finished_on (fcb_channelId b) m.
Proof.
  intros -> Hops Hlater Hlen Hcur Hk Hsig ->.
  assert (Hok : machine_ok config (length ops) (run (started_machine db) ops)).
  { apply (queue_run_ok isoString signal_dump config bs ops 0); [lia|apply started_ok]. }
  assert (Hcmds : commands_wf (run (started_machine db) ops)).
  { apply (commands_wf_run ops 0); try done; [lia|apply started_ok|].
    by intros x Hx%not_elem_of_nil. }
  set (m := run _ ops) in *.
  assert (Hch : fc_channelId c = fcb_channelId b).
  { destruct (Hcmds c) as [_ Hc]; [by apply (turn_in config (length ops))|].
    apply (Hc signal); [done|]. apply Hsig. }
  destruct (poisoned_self m c env now) as [Hpz Hf]; eauto.
  destruct (poisoned_run (fc_ticket c) later (S (length ops)) (step m (QWork env now)))
    as [Hpz' Hf']; try done; [lia|apply queue_step_ok; [lia|done]|].
  cbn [queue_run foldl]. change (foldl _ ?a ?l) with (run a l). rewrite Hf', Hf. split; [|done].
  destruct (pz_waits _ _ Hpz') as (p & Hp & Hid & _).
  replace (fc_id c) with (fc_id p); [by apply list_elem_of_fmap_2|].
  rewrite Hid. unfold fc_id. by rewrite Hch, Hk.
Qed.
End Failure.
