(* ===== verification/FireDelivery.v ===== *)
(** The delivery actor of the fire alarm: [src/event/FireDeliveryCoordinator.cpp]. One definition
    per operation of the other threads (each holds the mutex from start to end, so it is one
    step) and one per step of the worker. A worker step ends where the worker takes the mutex or
    has finished one delivery; between two steps the other threads may run. The fields that only
    the worker touches have no other reader, so a step that changes them and then locks is one
    step. *)
From stdpp Require Import sorting.
From S2P Require Import Prelude SensorProtocol SequencePolicy SlotConfig OccupancyDb FireStore.

(** * Data *)

(** [include/mqtt/MqttTransport.hpp:56-63 MqttTransportFactKind] *)
Inductive MqttTransportFactKind :=
| Connected | Disconnected | SubscriptionAcknowledged | SubscriptionsReady | PublishAcknowledged
| EpochFaulted.
#[global] Instance MqttTransportFactKind_eq_dec : EqDecision MqttTransportFactKind.
Proof. solve_decision. Defined.

(** [include/mqtt/MqttTransport.hpp:69-76 MqttTransportFact] *)
Record MqttTransportFact := mkMqttTransportFact {
  mf_kind : MqttTransportFactKind;
  mf_epoch : N;
  mf_messageId : Z;
  mf_reason : Z;
  mf_subscriptionTopic : string;
  mf_grantedQos : list Z
}.

(** [include/mqtt/MqttTransport.hpp:35-39 MqttPublishCorrelation] *)
Record MqttPublishCorrelation := mkMqttPublishCorrelation {
  mpc_deliveryKey : string;
  mpc_revision : N;
  mpc_attemptId : string
}.
#[global] Instance MqttPublishCorrelation_eq_dec : EqDecision MqttPublishCorrelation.
Proof. solve_decision. Defined.

(** [include/mqtt/MqttTransport.hpp:41-54 MqttTrackedPublishResult] The token and the flag that
    it came with. *)
Record MqttTrackedPublishResult := mkMqttTrackedPublishResult {
  mtr_accepted : bool;
  mtr_epoch : N;
  mtr_messageId : Z;
  mtr_correlation : MqttPublishCorrelation
}.

(** [include/event/FireDeliveryCoordinator.hpp:27-30 RegularEgressGrant] *)
Record RegularEgressGrant := mkRegularEgressGrant {
  reg_epoch : N;
  reg_generation : N
}.

(** [include/event/FireDeliveryCoordinator.hpp:32-41 Config] *)
Record DeliveryConfig := mkDeliveryConfig {
  dcf_channelIds : list string;
  dcf_factQueueCapacity : nat;
  dcf_localFailureRetryDelay : Z;
  dcf_pubAckTimeout : Z;
  dcf_regularEgressDrainTimeout : Z
}.

(** [include/event/FireDeliveryCoordinator.hpp:93-97 Attempt] *)
Record FireAttempt := mkFireAttempt {
  fat_delivery : FireOutboxRecord;
  fat_attemptId : string;
  fat_submittedAt : Z
}.

(** [include/event/FireDeliveryCoordinator.hpp:136-151 ready_by_channel_] The readiness of
    the channels and of the regular egress. *)
Record Readiness := mkReadiness {
  rd_ready : gmap string bool;
  rd_revision : gmap string N;
  rd_depth : gmap string N;
  rd_release : bool;
  rd_egress : N;
  rd_idle : bool;
  rd_outbox_generation : N;
  rd_generation : N;
  rd_egress_epoch : N;
  rd_egress_generation : N
}.

(** [include/event/FireDeliveryCoordinator.hpp:130-144 mutex_] The members that
    the mutex guards. *)
Record Guarded := mkGuarded {
  gd_readiness : Readiness;
  gd_facts : list MqttTransportFact;
  gd_running : bool;
  gd_accepting_facts : bool;
  gd_stop_requested : bool;
  gd_outbox_changed : bool;
  gd_fact_overflow : bool;
  gd_fact_overflow_epoch : option N
}.

(** [include/event/FireDeliveryCoordinator.hpp:153-159 active_epoch_] The members of the
    worker. *)
Record Delivering := mkDelivering {
  dv_active_epoch : N;
  dv_subscriptions_ready : bool;
  dv_synced : gmap string N;
  dv_in_flight : gmap (N * Z) FireAttempt;
  dv_next_attempt_id : N;
  dv_retry_after : gmap string Z
}.

(** What the actor has done outside, oldest first: the publications that the transport took, the
    acknowledgements that were matched to one, and the calls of the fault handler. *)
Inductive DeliveryEvent :=
| Published (epoch : N) (message : Z) (key : string) (revision : N)
| Acked (epoch : N) (message : Z) (key : string) (revision : N)
| Faulted (epoch : N).

Record DeliveryState := mkDeliveryState {
  dl_guarded : Guarded;
  dl_worker : Delivering;
  dl_db : FireDb;
  dl_log : list DeliveryEvent
}.

(** * Under the mutex *)

Definition set_readiness (g : Guarded) (r : Readiness) : Guarded :=
  mkGuarded r (gd_facts g) (gd_running g) (gd_accepting_facts g) (gd_stop_requested g)
    (gd_outbox_changed g) (gd_fact_overflow g) (gd_fact_overflow_epoch g).
Definition set_changed (g : Guarded) (r : Readiness) : Guarded :=
  mkGuarded r (gd_facts g) (gd_running g) (gd_accepting_facts g) (gd_stop_requested g) true
    (gd_fact_overflow g) (gd_fact_overflow_epoch g).

Definition next_outbox_generation (g : N) : N := ((g + 1) mod 2 ^ 64)%N.
(** Zero is never used: it stands for no generation. *)
Definition next_readiness_generation (g : N) : N :=
  let n := ((g + 1) mod 2 ^ 64)%N in if (n =? 0)%N then 1%N else n.

(** [src/event/FireDeliveryCoordinator.cpp:656-664 FireDeliveryCoordinator::invalidateRegularEgressLocked] *)
Definition invalidateRegularEgressLocked (r : Readiness) : Readiness :=
  mkReadiness (rd_ready r) (rd_revision r) (rd_depth r) (rd_release r) (rd_egress r) false
    (next_outbox_generation (rd_outbox_generation r))
    (next_readiness_generation (rd_generation r)) 0 0.

Definition close_channel (channel : string) (r : Readiness) : Readiness :=
  mkReadiness (<[channel := false]> (rd_ready r)) (<[channel := 0%N]> (rd_revision r))
    (rd_depth r) (rd_release r) (rd_egress r) (rd_idle r) (rd_outbox_generation r)
    (rd_generation r) (rd_egress_epoch r) (rd_egress_generation r).

(** [src/event/FireDeliveryCoordinator.cpp:666-672 FireDeliveryCoordinator::failCloseAllReadinessLocked] *)
Definition failCloseAllReadinessLocked (r : Readiness) : Readiness :=
  invalidateRegularEgressLocked
    (mkReadiness ((fun _ => false) <$> rd_ready r)
       (((fun _ => 0%N) <$> rd_ready r) ∪ rd_revision r)
       (rd_depth r) (rd_release r) (rd_egress r) (rd_idle r) (rd_outbox_generation r)
       (rd_generation r) (rd_egress_epoch r) (rd_egress_generation r)).

Definition set_depth (channel : string) (depth : N) (r : Readiness) : Readiness :=
  mkReadiness (rd_ready r) (rd_revision r) (<[channel := depth]> (rd_depth r)) (rd_release r)
    (rd_egress r) (rd_idle r) (rd_outbox_generation r) (rd_generation r) (rd_egress_epoch r)
    (rd_egress_generation r).
Definition set_egress (n : N) (r : Readiness) : Readiness :=
  mkReadiness (rd_ready r) (rd_revision r) (rd_depth r) (rd_release r) n (rd_idle r)
    (rd_outbox_generation r) (rd_generation r) (rd_egress_epoch r) (rd_egress_generation r).
Definition set_release (b : bool) (r : Readiness) : Readiness :=
  mkReadiness (rd_ready r) (rd_revision r) (rd_depth r) b (rd_egress r) (rd_idle r)
    (rd_outbox_generation r) (rd_generation r) (rd_egress_epoch r) (rd_egress_generation r).
Definition set_idle (b : bool) (r : Readiness) : Readiness :=
  mkReadiness (rd_ready r) (rd_revision r) (rd_depth r) (rd_release r) (rd_egress r) b
    (rd_outbox_generation r) (rd_generation r) (rd_egress_epoch r) (rd_egress_generation r).

Definition all_true (m : gmap string bool) : bool := bool_decide (map_Forall (fun _ b => b = true) m).
Definition all_zero (m : gmap string N) : bool := bool_decide (map_Forall (fun _ n => n = 0%N) m).

(** [src/event/FireDeliveryCoordinator.cpp:164-169 FireDeliveryCoordinator::allChannelsReady] *)
Definition allChannelsReady (r : Readiness) : bool :=
  negb (bool_decide (rd_ready r = ∅)) && all_true (rd_ready r).

(** [src/event/FireDeliveryCoordinator.cpp:146-151 FireDeliveryCoordinator::isReady] *)
Definition fire_isReady (channel : string) (r : Readiness) : bool :=
  default false (rd_ready r !! channel).

(** [src/event/FireDeliveryCoordinator.cpp:153-162 FireDeliveryCoordinator::isRevisionSynchronized] *)
Definition isRevisionSynchronized (channel : string) (fire_revision : N) (r : Readiness) : bool :=
  match rd_ready r !! channel, rd_revision r !! channel with
  | Some ready, Some revision => ready && (revision =? fire_revision)%N
  | _, _ => false
  end.

(** * The operations of the other threads *)

Section Delivery.
Variable config : DeliveryConfig.

Definition closes_readiness (kind : MqttTransportFactKind) : bool :=
  match kind with
  | Connected | SubscriptionsReady | Disconnected | EpochFaulted => true
  | SubscriptionAcknowledged | PublishAcknowledged => false
  end.

(** [src/event/FireDeliveryCoordinator.cpp:66-86 FireDeliveryCoordinator::enqueueTransportFact] *)
Definition enqueueTransportFact (fact : MqttTransportFact) (g0 : Guarded) : bool * Guarded :=
  if negb (gd_running g0) || negb (gd_accepting_facts g0) then (false, g0) else
  let g := if closes_readiness (mf_kind fact)
           then set_readiness g0 (failCloseAllReadinessLocked (gd_readiness g0)) else g0 in
  if (dcf_factQueueCapacity config <=? length (gd_facts g))%nat
  then (false, mkGuarded (failCloseAllReadinessLocked (gd_readiness g)) (gd_facts g)
                 (gd_running g) (gd_accepting_facts g) (gd_stop_requested g)
                 (gd_outbox_changed g) true
                 (if (mf_epoch fact =? 0)%N then gd_fact_overflow_epoch g
                  else Some (mf_epoch fact)))
  else (true, mkGuarded (gd_readiness g) (gd_facts g ++ [fact]) (gd_running g)
                (gd_accepting_facts g) (gd_stop_requested g) (gd_outbox_changed g)
                (gd_fact_overflow g) (gd_fact_overflow_epoch g)).

(** [src/event/FireDeliveryCoordinator.cpp:88-100 FireDeliveryCoordinator::notifyOutboxChanged] *)
Definition notifyOutboxChanged (channel : string) (g : Guarded) : Guarded :=
  let r := gd_readiness g in
  set_changed g (invalidateRegularEgressLocked
    (match rd_ready r !! channel with Some _ => close_channel channel r | None => r end)).

(** [src/event/FireDeliveryCoordinator.cpp:102-117 FireDeliveryCoordinator::beginDomainMutation] The part before the wait:
    the depth of the channel that counts this mutation, or the refusal. *)
Definition beginDomainMutation (channel : string) (g : Guarded) : option Guarded :=
  if negb (gd_running g) || gd_stop_requested g then None else
  match rd_depth (gd_readiness g) !! channel with
  | None => None
  | Some depth =>
      if rd_release (gd_readiness g) then None else
      Some (set_changed g (invalidateRegularEgressLocked
        (close_channel channel (set_depth channel (depth + 1) (gd_readiness g)))))
  end.

(** [src/event/FireDeliveryCoordinator.cpp:118-121 FireDeliveryCoordinator::beginDomainMutation] The condition
    of the wait, which is also the answer of the wait when it ends or times out. *)
Definition mutation_may_proceed (g : Guarded) : bool :=
  (rd_egress (gd_readiness g) =? 0)%N || gd_stop_requested g.

Definition lower_depth (channel : string) (g : Guarded) : Guarded :=
  match rd_depth (gd_readiness g) !! channel with
  | Some depth => set_changed g (invalidateRegularEgressLocked
                    (set_depth channel (depth - 1) (gd_readiness g)))
  | None => g
  end.

(** [src/event/FireDeliveryCoordinator.cpp:118-131 FireDeliveryCoordinator::beginDomainMutation] The end of
    the wait and what follows. *)
Definition finish_begin_mutation (channel : string) (g : Guarded) : bool * Guarded :=
  if negb (mutation_may_proceed g) || gd_stop_requested g then (false, lower_depth channel g)
  else (true, g).

(** [src/event/FireDeliveryCoordinator.cpp:133-144 FireDeliveryCoordinator::completeDomainMutation] *)
Definition completeDomainMutation (channel : string) (g : Guarded) : Guarded :=
  match rd_depth (gd_readiness g) !! channel with
  | Some depth => if (depth =? 0)%N then g else lower_depth channel g
  | None => g
  end.

(** [src/event/FireDeliveryCoordinator.cpp:171-189 FireDeliveryCoordinator::beginRegularEgress] *)
Definition beginRegularEgress (g : Guarded) : option (RegularEgressGrant * Guarded) :=
  let r := gd_readiness g in
  if negb (gd_running g) || gd_stop_requested g || bool_decide (rd_ready r = ∅) ||
     negb (rd_idle r) || (rd_egress_epoch r =? 0)%N ||
     negb (rd_egress_generation r =? rd_generation r)%N
  then None else
  if negb (all_true (rd_ready r)) || negb (all_zero (rd_depth r)) then None else
  Some (mkRegularEgressGrant (rd_egress_epoch r) (rd_egress_generation r),
        set_readiness g (set_egress (rd_egress r + 1) r)).

(** [src/event/FireDeliveryCoordinator.cpp:191-207 FireDeliveryCoordinator::isRegularEgressGrantCurrent] *)
Definition isRegularEgressGrantCurrent (grant : RegularEgressGrant) (g : Guarded) : bool :=
  let r := gd_readiness g in
  if negb (gd_running g) || gd_stop_requested g || negb (rd_idle r) ||
     (reg_epoch grant =? 0)%N || negb (reg_epoch grant =? rd_egress_epoch r)%N ||
     negb (reg_generation grant =? rd_egress_generation r)%N ||
     negb (reg_generation grant =? rd_generation r)%N
  then false else all_true (rd_ready r) && all_zero (rd_depth r).

(** [src/event/FireDeliveryCoordinator.cpp:209-214 FireDeliveryCoordinator::completeRegularEgress] *)
Definition completeRegularEgress (g : Guarded) : Guarded :=
  let r := gd_readiness g in
  if (rd_egress r =? 0)%N then g else set_readiness g (set_egress (rd_egress r - 1) r).

(** [src/event/FireDeliveryCoordinator.cpp:234-243 FireDeliveryCoordinator::stop] The request; the worker ends at its next
    wait. *)
Definition request_delivery_stop (g : Guarded) : Guarded :=
  if negb (gd_running g) then g else
  mkGuarded (failCloseAllReadinessLocked (gd_readiness g)) (gd_facts g) (gd_running g) false true
    (gd_outbox_changed g) (gd_fact_overflow g) (gd_fact_overflow_epoch g).

(** [src/event/FireDeliveryCoordinator.cpp:244-248 FireDeliveryCoordinator::stop] After the worker was joined. *)
Definition finish_delivery_stop (g : Guarded) : Guarded :=
  mkGuarded (gd_readiness g) (gd_facts g) false (gd_accepting_facts g) (gd_stop_requested g)
    (gd_outbox_changed g) (gd_fact_overflow g) (gd_fact_overflow_epoch g).

(** [src/event/FireDeliveryCoordinator.cpp:12-26 FireDeliveryCoordinator::FireDeliveryCoordinator] *)
Definition new_guarded : Guarded :=
  let per_channel {A} (a : A) : gmap string A :=
    list_to_map ((fun ch => (ch, a)) <$> dcf_channelIds config) in
  mkGuarded (mkReadiness (per_channel false) (per_channel 0%N) (per_channel 0%N) false 0 false
               0 0 0 0) [] false false false false false None.
Definition new_delivering : Delivering := mkDelivering 0 false ∅ ∅ 1 ∅.

(** [src/event/FireDeliveryCoordinator.cpp:32-64 FireDeliveryCoordinator::start] The thread is started; a
    failure of the operating system to do so is not modelled. [stamp] is the engine's clock. *)
Definition fdc_start (stamp : string) (g : Guarded) (db : FireDb)
    : result string (bool * Guarded * FireDb) :=
  let channels := dcf_channelIds config in
  if gd_running g || bool_decide (channels = []) || (dcf_factQueueCapacity config =? 0)%nat ||
     (dcf_pubAckTimeout config <=? 0) || (dcf_regularEgressDrainTimeout config <=? 0)
  then Ok (false, g, db) else
  if existsb is_empty channels || negb (bool_decide (NoDup channels)) then Ok (false, g, db) else
  let? retained := listFireRetainedDeliveries db in
  if negb (length retained =? length channels)%nat then Ok (false, g, db) else
  if existsb (fun row => negb (bool_decide (fob_channelId row ∈ channels))) retained
  then Ok (false, g, db) else
  let '(reset, db') := resetFireInFlightDeliveries stamp db in
  if negb reset then Ok (false, g, db') else
  Ok (true, mkGuarded (failCloseAllReadinessLocked (gd_readiness g)) (gd_facts g) true true false
              (gd_outbox_changed g) (gd_fact_overflow g) (gd_fact_overflow_epoch g), db').

(** * The worker *)

(** What one step of the worker reads from outside: the steady clock, the engine's clock, and
    the answer of the transport to a publication under an attempt id and an epoch; the transport
    may throw. *)
Record TurnEnv := mkTurnEnv {
  te_now : Z;
  te_stamp : string;
  te_publish : FireOutboxRecord -> MqttPublishCorrelation -> N ->
               result string MqttTrackedPublishResult
}.

Definition set_guarded (s : DeliveryState) (g : Guarded) : DeliveryState :=
  mkDeliveryState g (dl_worker s) (dl_db s) (dl_log s).
Definition set_worker (s : DeliveryState) (w : Delivering) : DeliveryState :=
  mkDeliveryState (dl_guarded s) w (dl_db s) (dl_log s).
Definition set_db (s : DeliveryState) (db : FireDb) : DeliveryState :=
  mkDeliveryState (dl_guarded s) (dl_worker s) db (dl_log s).
Definition log_event (s : DeliveryState) (e : DeliveryEvent) : DeliveryState :=
  mkDeliveryState (dl_guarded s) (dl_worker s) (dl_db s) (dl_log s ++ [e]).
Definition fail_close (s : DeliveryState) : DeliveryState :=
  set_guarded s (set_readiness (dl_guarded s) (failCloseAllReadinessLocked (gd_readiness (dl_guarded s)))).
Definition set_in_flight (w : Delivering) (in_flight : gmap (N * Z) FireAttempt) : Delivering :=
  mkDelivering (dv_active_epoch w) (dv_subscriptions_ready w) (dv_synced w) in_flight
    (dv_next_attempt_id w) (dv_retry_after w).
Definition set_retry (w : Delivering) (retry : gmap string Z) : Delivering :=
  mkDelivering (dv_active_epoch w) (dv_subscriptions_ready w) (dv_synced w) (dv_in_flight w)
    (dv_next_attempt_id w) retry.
Definition set_synced (w : Delivering) (synced : gmap string N) : Delivering :=
  mkDelivering (dv_active_epoch w) (dv_subscriptions_ready w) synced (dv_in_flight w)
    (dv_next_attempt_id w) (dv_retry_after w).

(** [src/event/FireDeliveryCoordinator.cpp:575-579 FireDeliveryCoordinator::scheduleRetry] *)
Definition scheduleRetry (env : TurnEnv) (channel : string) (s : DeliveryState) : DeliveryState :=
  set_worker s (set_retry (dl_worker s)
    (<[channel := te_now env + dcf_localFailureRetryDelay config * 1000000]>
       (dv_retry_after (dl_worker s)))).

(** [src/event/FireDeliveryCoordinator.cpp:581-584 FireDeliveryCoordinator::clearRetry] *)
Definition clearRetry (channel : string) (s : DeliveryState) : DeliveryState :=
  set_worker s (set_retry (dl_worker s) (delete channel (dv_retry_after (dl_worker s)))).

(** [src/event/FireDeliveryCoordinator.cpp:568-573 FireDeliveryCoordinator::retryDeferred] *)
Definition retryDeferred (w : Delivering) (channel : string) (now : Z) : bool :=
  match dv_retry_after w !! channel with Some after => now <? after | None => false end.

(** The entries of [in_flight_] in the order of the map. *)
Definition attempt_before (a b : (N * Z) * FireAttempt) : bool :=
  (a.1.1 <? b.1.1)%N || ((a.1.1 =? b.1.1)%N && (a.1.2 <=? b.1.2)).
Definition attempts (w : Delivering) : list ((N * Z) * FireAttempt) :=
  sort_rows attempt_before (map_to_list (dv_in_flight w)).

Definition in_flight_of (kind : FireDeliverySinkKind) (channel : string) (w : Delivering) : bool :=
  existsb (fun e => bool_decide (fob_channelId (fat_delivery e.2) = channel) &&
                    bool_decide (fob_sinkKind (fat_delivery e.2) = kind)) (attempts w).

(** [src/event/FireDeliveryCoordinator.cpp:586-594 FireDeliveryCoordinator::hasRetainedInFlight] *)
Definition hasRetainedInFlight : string -> Delivering -> bool := in_flight_of RetainedState.

(** [src/event/FireDeliveryCoordinator.cpp:596-604 FireDeliveryCoordinator::hasLifecycleInFlight] *)
Definition hasLifecycleInFlight : string -> Delivering -> bool := in_flight_of LifecycleEvent.

(** [markFireDeliveryPending] for every attempt of a list. *)
Definition requeue_all (stamp reason : string) (l : list ((N * Z) * FireAttempt)) (db : FireDb)
    : FireDb :=
  foldl (fun db e => (markFireDeliveryPending stamp (fob_deliveryKey (fat_delivery e.2))
                        (fob_fireRevision (fat_delivery e.2)) reason db).2) db l.

(** [src/event/FireDeliveryCoordinator.cpp:646-654 FireDeliveryCoordinator::requeueAllInflight] *)
Definition requeueAllInflight (stamp reason : string) (s : DeliveryState) : DeliveryState :=
  set_worker (set_db s (requeue_all stamp reason (attempts (dl_worker s)) (dl_db s)))
    (set_in_flight (dl_worker s) ∅).

(** [src/event/FireDeliveryCoordinator.cpp:397-419 FireDeliveryCoordinator::disconnectEpoch] *)
Definition disconnectEpoch (stamp : string) (epoch : N) (reason : string) (s0 : DeliveryState)
    : DeliveryState :=
  if (epoch =? 0)%N then s0 else
  let w := dl_worker s0 in
  let of_epoch := List.filter (fun e => (e.1.1 =? epoch)%N) (attempts w) in
  let s := set_worker (set_db s0 (requeue_all stamp reason of_epoch (dl_db s0)))
             (set_in_flight w (filter (fun e => e.1.1 <> epoch) (dv_in_flight w))) in
  if (dv_active_epoch w =? epoch)%N
  then fail_close (set_worker s (mkDelivering 0 false ∅ (dv_in_flight (dl_worker s))
                                   (dv_next_attempt_id w) ∅))
  else s.

(** [src/event/FireDeliveryCoordinator.cpp:336-395 FireDeliveryCoordinator::processFact] The state after the
    fact and, when the database threw, its message. *)
Definition processFact (env : TurnEnv) (fact : MqttTransportFact) (s : DeliveryState)
    : DeliveryState * option string :=
  let w := dl_worker s in
  match mf_kind fact with
  | Connected =>
      if (mf_epoch fact <? dv_active_epoch w)%N then (s, None) else
      let s1 := if negb (dv_active_epoch w =? 0)%N && negb (mf_epoch fact =? dv_active_epoch w)%N
                then disconnectEpoch (te_stamp env) (dv_active_epoch w)
                       "fresh MQTT epoch connected" s else s in
      let w1 := dl_worker s1 in
      (fail_close (set_worker s1 (mkDelivering (mf_epoch fact) false ∅ (dv_in_flight w1)
                                    (dv_next_attempt_id w1) (dv_retry_after w1))), None)
  | SubscriptionsReady =>
      if (mf_epoch fact =? dv_active_epoch w)%N && negb (dv_active_epoch w =? 0)%N
      then (set_worker s (mkDelivering (dv_active_epoch w) true (dv_synced w) (dv_in_flight w)
                            (dv_next_attempt_id w) ∅), None)
      else (s, None)
  | Disconnected =>
      if (mf_epoch fact =? dv_active_epoch w)%N
      then (disconnectEpoch (te_stamp env) (mf_epoch fact) "MQTT disconnected before PUBACK" s, None)
      else (s, None)
  | EpochFaulted =>
      if (mf_epoch fact =? dv_active_epoch w)%N
      then (disconnectEpoch (te_stamp env) (mf_epoch fact) "MQTT epoch faulted before PUBACK" s, None)
      else (s, None)
  | PublishAcknowledged =>
      if negb (mf_epoch fact =? dv_active_epoch w)%N then (s, None) else
      let key := (mf_epoch fact, mf_messageId fact) in
      match dv_in_flight w !! key with
      | None => (s, None)
      | Some attempt =>
          let d := fat_delivery attempt in
          let '(acknowledged, db) := acknowledgeFireDelivery (te_stamp env) (fob_deliveryKey d)
                                       (fob_fireRevision d) (dl_db s) in
          let s1 := log_event (set_worker (set_db s db)
                                 (set_in_flight w (delete key (dv_in_flight w))))
                      (Acked (mf_epoch fact) (mf_messageId fact) (fob_deliveryKey d)
                         (fob_fireRevision d)) in
          if acknowledged && bool_decide (fob_sinkKind d = RetainedState) then
            match getFireDelivery db (fob_deliveryKey d) with
            | Err what => (s1, Some what)
            | Ok current =>
                let synced :=
                  match current with
                  | Some row => if (fob_fireRevision row =? fob_fireRevision d)%N
                                then <[fob_channelId d := fob_fireRevision d]> (dv_synced w)
                                else dv_synced w
                  | None => dv_synced w
                  end in
                (clearRetry (fob_channelId d) (set_worker s1 (set_synced (dl_worker s1) synced)), None)
            end
          else (clearRetry (fob_channelId d) s1, None)
      end
  | SubscriptionAcknowledged => (s, None)
  end.

(** [src/event/FireDeliveryCoordinator.cpp:506-511 FireDeliveryCoordinator::publish] *)
Definition token_matches (r : MqttTrackedPublishResult) (epoch : N) (c : MqttPublishCorrelation)
    : bool :=
  mtr_accepted r && (mtr_epoch r =? epoch)%N && negb (mtr_messageId r <? 0) &&
  bool_decide (mtr_correlation r = c).

(** [src/event/FireDeliveryCoordinator.cpp:493-532 FireDeliveryCoordinator::publish] *)
Definition fire_publish (env : TurnEnv) (d : FireOutboxRecord) (s0 : DeliveryState)
    : DeliveryState * option string :=
  let channel := fob_channelId d in
  let '(marked, db) := markFireDeliveryInFlight (te_stamp env) (fob_deliveryKey d)
                         (fob_fireRevision d) (dl_db s0) in
  if negb marked then (scheduleRetry env channel (set_db s0 db), None) else
  let w := dl_worker s0 in
  let s := set_db (set_worker s0 (mkDelivering (dv_active_epoch w) (dv_subscriptions_ready w)
                     (dv_synced w) (dv_in_flight w) ((dv_next_attempt_id w + 1) mod 2 ^ 64)
                     (dv_retry_after w))) db in
  let correlation := mkMqttPublishCorrelation (fob_deliveryKey d) (fob_fireRevision d)
                       ("fire-attempt:" +:+ pretty (dv_next_attempt_id w)) in
  let requeue reason s := set_db s (markFireDeliveryPending (te_stamp env) (fob_deliveryKey d)
                                      (fob_fireRevision d) reason (dl_db s)).2 in
  match te_publish env d correlation (dv_active_epoch w) with
  | Err what => (s, Some what)
  | Ok result =>
      if negb (token_matches result (dv_active_epoch w) correlation)
      then (scheduleRetry env channel
              (requeue "MQTT tracked publish was not accepted in the active epoch" s), None) else
      let key := (mtr_epoch result, mtr_messageId result) in
      match dv_in_flight (dl_worker s) !! key with
      | Some _ =>
          (log_event (disconnectEpoch (te_stamp env) (dv_active_epoch w)
                        "same-epoch MQTT MID collision"
                        (requeue "MQTT reused an in-flight MID in the same epoch" s))
             (Faulted (dv_active_epoch w)), None)
      | None =>
          (clearRetry channel (log_event (set_worker s (set_in_flight (dl_worker s)
             (<[key := mkFireAttempt d (mpc_attemptId correlation) (te_now env)]>
                (dv_in_flight (dl_worker s)))))
             (Published (mtr_epoch result) (mtr_messageId result) (fob_deliveryKey d)
                (fob_fireRevision d))), None)
      end
  end.

(** [src/event/FireDeliveryCoordinator.cpp:534-545 FireDeliveryCoordinator::expirePubAckDeadline] *)
Definition expirePubAckDeadline (env : TurnEnv) (s : DeliveryState) : DeliveryState :=
  let w := dl_worker s in
  if (dv_active_epoch w =? 0)%N then s else
  if existsb (fun e => fat_submittedAt e.2 + dcf_pubAckTimeout config * 1000000 <=? te_now env)
       (attempts w)
  then log_event (disconnectEpoch (te_stamp env) (dv_active_epoch w)
                    "MQTT PUBACK deadline expired" s) (Faulted (dv_active_epoch w))
  else s.

(** [src/event/FireDeliveryCoordinator.cpp:547-566 FireDeliveryCoordinator::nextWakeAt] *)
Definition nextWakeAt (w : Delivering) : Z :=
  let earlier wake t := if (wake =? 0) || (t <? wake) then t else wake in
  foldl (fun wake e => earlier wake (fat_submittedAt e.2 + dcf_pubAckTimeout config * 1000000))
    (foldl (fun wake (e : string * Z) => earlier wake e.2) 0 (map_to_list (dv_retry_after w)))
    (attempts w).

(** [src/event/FireDeliveryCoordinator.cpp:606-633 FireDeliveryCoordinator::recomputeReadiness] *)
Definition channel_ready (retained : list FireOutboxRecord) (observed : N) (w : Delivering)
    (r : Readiness) (channel : string) : option N :=
  match List.find (fun row => bool_decide (fob_channelId row = channel)) retained,
        dv_synced w !! channel, rd_depth r !! channel with
  | Some row, Some synced, Some depth =>
      if (observed =? rd_outbox_generation r)%N && (depth =? 0)%N &&
         negb (dv_active_epoch w =? 0)%N && dv_subscriptions_ready w &&
         (synced =? fob_fireRevision row)%N
      then Some (fob_fireRevision row) else None
  | _, _, _ => None
  end.
Definition recomputeReadiness (retained : list FireOutboxRecord) (observed : N) (w : Delivering)
    (r : Readiness) : Readiness :=
  let ready := map_imap (fun channel _ =>
                 Some (bool_decide (is_Some (channel_ready retained observed w r channel))))
                 (rd_ready r) in
  let revision := map_imap (fun channel _ =>
                    Some (default 0%N (channel_ready retained observed w r channel))) (rd_ready r) in
  let all_ready := negb (bool_decide (rd_ready r = ∅)) && all_true ready in
  mkReadiness ready (revision ∪ rd_revision r) (rd_depth r) (rd_release r) (rd_egress r) (rd_idle r)
    (rd_outbox_generation r) (rd_generation r)
    (if all_ready then dv_active_epoch w else 0%N) (rd_generation r).

(** [src/event/FireDeliveryCoordinator.cpp:467-484 FireDeliveryCoordinator::beginLifecycleRelease] *)
Definition beginLifecycleRelease (observed : N) (w : Delivering) (r : Readiness) : option Readiness :=
  if rd_release r || negb (observed =? rd_outbox_generation r)%N || (dv_active_epoch w =? 0)%N ||
     negb (dv_subscriptions_ready w)
  then None else
  if negb (allChannelsReady r) || negb (all_zero (rd_depth r)) then None
  else Some (set_release true r).

(** [src/event/FireDeliveryCoordinator.cpp:486-491 FireDeliveryCoordinator::endLifecycleRelease] *)
Definition endLifecycleRelease (s : DeliveryState) : DeliveryState :=
  set_guarded s (set_readiness (dl_guarded s) (set_release false (gd_readiness (dl_guarded s)))).

(** [src/event/FireDeliveryCoordinator.cpp:305-334 FireDeliveryCoordinator::recoverActorFailure] *)
Definition recoverActorFailure (env : TurnEnv) (reason : string) (s : DeliveryState)
    : DeliveryState :=
  let epoch := dv_active_epoch (dl_worker s) in
  let s1 := if (epoch =? 0)%N then requeueAllInflight (te_stamp env) reason s
            else disconnectEpoch (te_stamp env) epoch reason s in
  let s2 := foldl (fun s channel => scheduleRetry env channel s) (fail_close s1)
              (dcf_channelIds config) in
  if (epoch =? 0)%N then s2 else log_event s2 (Faulted epoch).

(** Where the worker is in its loop, with its local variables. *)
Inductive WorkerAt :=
| AtWait
| AtFacts (facts : list MqttTransportFact) (overflow : bool) (overflow_epoch : option N)
| AtExpire
| AtPump
| AtList (observed : N) (now : Z)
| AtRetained (retained rest : list FireOutboxRecord) (observed : N) (now : Z) (pending : bool)
| AtRelease (observed : N) (now : Z)
| AtListLifecycle (now : Z)
| AtLifecycle (rest : list FireOutboxRecord) (submitted : list string) (now : Z)
| AtIdle
| AtSetIdle (pending_lifecycle : bool)
| AtEnd.

(** [src/event/FireDeliveryCoordinator.cpp:259-275 FireDeliveryCoordinator::run] The wait ends for a stop, a
    fact, a change, an overflow or the time, and takes the facts. *)
Definition wait_over (env : TurnEnv) (s : DeliveryState) : bool :=
  let g := dl_guarded s in
  gd_stop_requested g || negb (bool_decide (length (gd_facts g) = 0%nat)) || gd_outbox_changed g ||
  gd_fact_overflow g ||
  (negb (nextWakeAt (dl_worker s) =? 0) && (nextWakeAt (dl_worker s) <=? te_now env)).
Definition take_facts (g : Guarded) : Guarded :=
  mkGuarded (gd_readiness g) [] (gd_running g) (gd_accepting_facts g) (gd_stop_requested g) false
    false None.

(** [src/event/FireDeliveryCoordinator.cpp:279-289 FireDeliveryCoordinator::run] *)
Definition handle_overflow (env : TurnEnv) (overflow_epoch : option N) (s : DeliveryState)
    : DeliveryState :=
  let epoch := default (dv_active_epoch (dl_worker s)) overflow_epoch in
  if (epoch =? 0)%N then s else
  log_event (if (epoch =? dv_active_epoch (dl_worker s))%N
             then disconnectEpoch (te_stamp env) epoch "transport fact queue overflow" s else s)
    (Faulted epoch).

(** [src/event/FireDeliveryCoordinator.cpp:421-465 FireDeliveryCoordinator::pump] [pump_*]: its steps. *)
Definition pump_begin (env : TurnEnv) (s : DeliveryState) : WorkerAt :=
  if (dv_active_epoch (dl_worker s) =? 0)%N || negb (dv_subscriptions_ready (dl_worker s))
  then AtIdle
  else AtList (rd_outbox_generation (gd_readiness (dl_guarded s))) (te_now env).

(** [src/event/FireDeliveryCoordinator.cpp:431-443 FireDeliveryCoordinator::pump] One row of the loop over the
    retained states: whether it is pending, and its publication. *)
Definition pump_retained_row (env : TurnEnv) (now : Z) (row : FireOutboxRecord) (s : DeliveryState)
    : bool * (DeliveryState * option string) :=
  let w := dl_worker s in
  match dv_synced w !! fob_channelId row with
  | Some synced =>
      if (synced =? fob_fireRevision row)%N then (false, (s, None)) else
      if retryDeferred w (fob_channelId row) now || hasRetainedInFlight (fob_channelId row) w
      then (true, (s, None)) else (true, fire_publish env row s)
  | None =>
      if retryDeferred w (fob_channelId row) now || hasRetainedInFlight (fob_channelId row) w
      then (true, (s, None)) else (true, fire_publish env row s)
  end.

(** [src/event/FireDeliveryCoordinator.cpp:450-459 FireDeliveryCoordinator::pump] One row of the loop over the
    lifecycle events: the channels seen so far, and its publication. *)
Definition pump_lifecycle_row (env : TurnEnv) (now : Z) (submitted : list string)
    (row : FireOutboxRecord) (s : DeliveryState)
    : list string * (DeliveryState * option string) :=
  let channel := fob_channelId row in
  let w := dl_worker s in
  if bool_decide (channel ∈ submitted) then (submitted, (s, None)) else
  if retryDeferred w channel now || hasLifecycleInFlight channel w
  then (channel :: submitted, (s, None))
  else (channel :: submitted, fire_publish env row s).

(** [src/event/FireDeliveryCoordinator.cpp:635-644 FireDeliveryCoordinator::updateIdleState] The locked part. *)
Definition update_idle (pending_lifecycle : bool) (w : Delivering) (r : Readiness) : Readiness :=
  set_idle (allChannelsReady r && negb pending_lifecycle && bool_decide (dv_in_flight w = ∅)) r.

(** The continuation after a step that may have thrown. *)
Definition or_recover (env : TurnEnv) (next : WorkerAt) (r : DeliveryState * option string)
    : WorkerAt * DeliveryState :=
  match r.2 with
  | None => (next, r.1)
  | Some what => (AtWait, recoverActorFailure env ("Fire delivery actor exception: " +:+ what) r.1)
  end.

(** [src/event/FireDeliveryCoordinator.cpp:250-303 FireDeliveryCoordinator::run] *)
Definition worker_step (env : TurnEnv) (at_ : WorkerAt) (s : DeliveryState)
    : WorkerAt * DeliveryState :=
  let g := dl_guarded s in
  match at_ with
  | AtWait =>
      if negb (wait_over env s) then (AtWait, s) else
      if gd_stop_requested g
      then (AtEnd, requeueAllInflight (te_stamp env)
                     "delivery coordinator stopped before PUBACK" s)
      else (AtFacts (gd_facts g) (gd_fact_overflow g) (gd_fact_overflow_epoch g),
            set_guarded s (take_facts g))
  | AtFacts (fact :: rest) overflow epoch =>
      or_recover env (AtFacts rest overflow epoch) (processFact env fact s)
  | AtFacts [] overflow epoch =>
      (AtExpire, if overflow then handle_overflow env epoch s else s)
  | AtExpire => (AtPump, expirePubAckDeadline env s)
  | AtPump => (pump_begin env s, s)
  | AtList observed now =>
      match listFireRetainedDeliveries (dl_db s) with
      | Ok rows => (AtRetained rows rows observed now false, s)
      | Err what => or_recover env AtWait (s, Some what)
      end
  | AtRetained rows (row :: rest) observed now pending =>
      let '(is_pending, r) := pump_retained_row env now row s in
      or_recover env (AtRetained rows rest observed now (pending || is_pending)) r
  | AtRetained rows [] observed now pending =>
      let r := recomputeReadiness rows observed (dl_worker s) (gd_readiness g) in
      (if pending then AtIdle else AtRelease observed now, set_guarded s (set_readiness g r))
  | AtRelease observed now =>
      match beginLifecycleRelease observed (dl_worker s) (gd_readiness g) with
      | Some r => (AtListLifecycle now, set_guarded s (set_readiness g r))
      | None => (AtIdle, s)
      end
  | AtListLifecycle now =>
      match listPendingFireLifecycleDeliveries (dl_db s) None with
      | Ok rows => (AtLifecycle rows [] now, s)
      | Err what => or_recover env AtWait (endLifecycleRelease s, Some what)
      end
  | AtLifecycle (row :: rest) submitted now =>
      let '(submitted', r) := pump_lifecycle_row env now submitted row s in
      match r.2 with
      | None => (AtLifecycle rest submitted' now, r.1)
      | Some what => or_recover env AtWait (endLifecycleRelease r.1, Some what)
      end
  | AtLifecycle [] _ _ => (AtIdle, endLifecycleRelease s)
  | AtIdle =>
      match listPendingFireLifecycleDeliveries (dl_db s) None with
      | Ok rows => (AtSetIdle (negb (bool_decide (length rows = 0%nat))), s)
      | Err what => or_recover env AtWait (s, Some what)
      end
  | AtSetIdle pending =>
      (AtWait, set_guarded s (set_readiness g (update_idle pending (dl_worker s) (gd_readiness g))))
  | AtEnd => (AtEnd, s)
  end.
End Delivery.
