(* ===== verification/FireDeliveryInv.v ===== *)
(** The invariant of the delivery worker: what is in flight belongs to the active connection and
    to rows of the outbox, acknowledgements were received for publications, and the lifecycle
    events of a channel are acknowledged in the order of their revisions. *)
From S2P Require Import Prelude SensorProtocol SequencePolicy SlotConfig OccupancyDb FireStore FireService FireInvariant FireTopology FireAlarm FireDelivery.

(** * Rows of the outbox *)

Definition lifecycle_key (channel : string) (k : N) : string :=
  lifecycleDeliveryId (fireEventId channel k).

Lemma lifecycle_key_inj ch ch' k k' : lifecycle_key ch k = lifecycle_key ch' k' -> ch = ch' /\ k = k'.
Proof. intros H%lifecycleDeliveryId_inj. by apply fireEventId_inj. Qed.

(** The row of a key has been acknowledged. *)
Definition acked (db : FireDb) (key : string) : Prop :=
  exists row, fd_outbox db !! key = Some row /\ fo_delivery_state row = "ACKED".

Lemma checkedInt64_value n field z : checkedInt64 n field = Ok z -> z = Z.of_N n.
Proof. unfold checkedInt64. by case_match; intros [= <-]. Qed.

Lemma delivery_step_trans db1 db2 db3 :
  delivery_step db1 db2 -> delivery_step db2 db3 -> delivery_step db1 db3.
Proof.
  intros [] []. split; try congruence. intros key.
  specialize (ds_rows key). specialize (ds_rows0 key).
  destruct (fd_outbox db1 !! key) as [r1|], (fd_outbox db2 !! key) as [r2|],
    (fd_outbox db3 !! key) as [r3|]; try done.
  destruct ds_rows as [H1 H1'], ds_rows0 as [H2 H2']. split; [|auto].
  unfold same_contents in *. rewrite <- H1, <- H2. by destruct r1, r3.
Qed.

(** An update of one row: nothing, or the row of the key and revision. *)
Lemma update_delivery_cases db key rev p f :
  let r := update_delivery db key rev p f in
  (r = (false, db)) \/
  (exists row, fd_outbox db !! key = Some row /\ fo_fire_revision row = Z.of_N rev /\ p row = true /\
     r = (true, with_outbox db (<[key := f row]> (fd_outbox db)))).
Proof.
  unfold update_delivery. destruct (_ || _)%bool; [by left|].
  destruct (checkedInt64 rev "fire revision") as [z|] eqn:Hz; [|by left].
  apply checkedInt64_value in Hz as ->.
  destruct (fd_outbox db !! key) as [row|]; [|by left].
  destruct (_ && _)%bool eqn:Hc; [|by left]. split_bool. right. exists row.
  apply Z.eqb_eq in H. auto.
Qed.

(** It happens whenever the row is there with a valid revision. *)
Lemma update_delivery_done db key rev p f row :
  fd_open db = true -> key <> "" -> (0 < rev <= kMaxFireRevision)%N ->
  fd_outbox db !! key = Some row -> fo_fire_revision row = Z.of_N rev -> p row = true ->
  update_delivery db key rev p f = (true, with_outbox db (<[key := f row]> (fd_outbox db))).
Proof.
  intros Ho Hk Hrev Hrow Hr Hp. unfold update_delivery.
  rewrite (is_empty_false _ Hk), Ho, (proj2 (N.eqb_neq _ _)) by lia. cbn [orb negb].
  rewrite checkedInt64_ok by lia. by rewrite Hrow, Hr, Z.eqb_refl, Hp.
Qed.

(** Which rows are acknowledged after an update that does not acknowledge. *)
Lemma acked_update db key rev p f key' :
  (forall r, fo_delivery_state (f r) <> "ACKED") ->
  acked (update_delivery db key rev p f).2 key' -> acked db key'.
Proof.
  intros Hf. destruct (update_delivery_cases db key rev p f) as [->|(row & Hrow & _ & _ & ->)]; [done|].
  unfold acked. simpl. intros (r & Hr & Ha). apply lookup_insert_Some in Hr as [[<- <-]|[Hne Hr]].
  - by destruct (Hf row).
  - by exists r.
Qed.
Lemma acked_update_other db key rev p f key' :
  (key' = key -> ~ acked db key) -> acked db key' -> acked (update_delivery db key rev p f).2 key'.
Proof.
  intros Hno Ha. destruct (update_delivery_cases db key rev p f) as [->|(row & Hrow & _ & _ & ->)]; [done|].
  unfold acked in *. simpl. destruct (decide (key' = key)) as [->|Hne]; [by destruct Hno|].
  destruct Ha as (r & Hr & Hs). exists r. by rewrite lookup_insert_ne.
Qed.

Section Worker.
Variable bs : list FireChannelBinding.
Hypothesis Hbs : bindings_ok bs.

(** Lifecycle rows keep their acknowledgements. *)
Definition same_acks (db db' : FireDb) : Prop :=
  forall b k, b ∈ bs -> acked db' (lifecycle_key (fcb_channelId b) k) <->
                        acked db (lifecycle_key (fcb_channelId b) k).

(** ** What a record of the outbox is *)

(** The channel and the revision of a lifecycle record; a retained record of a channel. *)
Definition lifecycle_of_channel (b : FireChannelBinding) (k : N) (d : FireOutboxRecord) : Prop :=
  fob_sinkKind d = LifecycleEvent /\ fob_channelId d = fcb_channelId b /\ fob_fireRevision d = k /\
  fob_deliveryKey d = lifecycle_key (fcb_channelId b) k /\ (2 <= k)%N.
Definition retained_of_channel (b : FireChannelBinding) (d : FireOutboxRecord) : Prop :=
  fob_sinkKind d = RetainedState /\ fob_channelId d = fcb_channelId b /\
  fob_deliveryKey d = retainedDeliveryId (fcb_channelId b).

Definition of_outbox (db : FireDb) (d : FireOutboxRecord) : Prop :=
  exists b, b ∈ bs /\ is_Some (fd_outbox db !! fob_deliveryKey d) /\
    (retained_of_channel b d \/ lifecycle_of_channel b (fob_fireRevision d) d).

Lemma row_record db key row :
  fire_ok bs db -> fd_outbox db !! key = Some row -> of_outbox db (delivery_of key row).
Proof.
  intros Hok Hrow. destruct (fk_outbox _ _ Hok key row Hrow) as [Hro (b & sr & Hb & Hch & _ & Hcase)].
  exists b. split; [done|]. split; [by exists row|].
  destruct Hcase as [(-> & Hk & _)|(k & Hk2 & _ & -> & Hl)]; [left|right].
  - split; [by apply delivery_of_retained|done].
  - destruct Hl as (Hk & _ & _ & _ & Hrev). unfold lifecycle_of_channel.
    unfold delivery_of. simpl. rewrite Hk, Hrev, N2Z.id. done.
Qed.

Lemma record_key_nonempty db d : of_outbox db d -> fob_deliveryKey d <> "".
Proof. intros (b & _ & _ & [(_ & _ & ->)|(_ & _ & _ & -> & _)]); done. Qed.

Lemma of_outbox_step db db' d : delivery_step db db' -> of_outbox db d -> of_outbox db' d.
Proof.
  intros Hd (b & Hb & [row Hrow] & H). exists b. split; [done|]. split; [|done].
  destruct (delivery_step_row _ _ _ _ Hd Hrow) as (r' & Hr' & _). by exists r'.
Qed.

(** A lifecycle key is no retained key. *)
Lemma retained_not_lifecycle ch ch' k : retainedDeliveryId ch <> lifecycle_key ch' k.
Proof. apply delivery_ids_differ. Qed.

(** A record whose row may be marked as not acknowledged: a retained one, or a lifecycle event
    that is not acknowledged. *)
Definition unsettled (db : FireDb) (d : FireOutboxRecord) : Prop :=
  fob_sinkKind d = LifecycleEvent -> ~ acked db (fob_deliveryKey d).

Lemma same_acks_update db d rev p f :
  of_outbox db d -> unsettled db d -> (forall r, fo_delivery_state (f r) <> "ACKED") ->
  same_acks db (update_delivery db (fob_deliveryKey d) rev p f).2.
Proof.
  intros (b & Hb & _ & Hd) Hun Hf b' k Hb'. split; [by apply acked_update|].
  apply acked_update_other. intros He. destruct Hd as [(_ & _ & Hk)|(Hs & _)]; [|by apply Hun].
  rewrite Hk in He. by destruct (retained_not_lifecycle _ _ _ (eq_sym He)).
Qed.

Lemma same_acks_refl db : same_acks db db.
Proof. done. Qed.
Lemma same_acks_trans db1 db2 db3 : same_acks db1 db2 -> same_acks db2 db3 -> same_acks db1 db3.
Proof. intros H1 H2 b k Hb. rewrite (H2 b k Hb). by apply H1. Qed.

Lemma unsettled_acks db db' d :
  of_outbox db d -> same_acks db db' -> unsettled db d -> unsettled db' d.
Proof.
  intros (b & Hb & _ & Hd) Hs Hun Hk Ha. apply (Hun Hk).
  destruct Hd as [(Hr & _)|(_ & _ & _ & Hkey & _)]; [congruence|]. rewrite Hkey in *. by apply Hs.
Qed.

(** The steps of the worker that are no acknowledgement: they move delivery columns, acknowledge
    nothing, and take no lifecycle event's acknowledgement away. *)
Record calm (db db' : FireDb) : Prop := {
  ca_step : delivery_step db db';
  ca_acks : same_acks db db';
  ca_new : forall key, acked db' key -> acked db key
}.

Lemma calm_refl db : calm db db.
Proof. split; [apply delivery_step_refl|apply same_acks_refl|done]. Qed.
Lemma calm_trans db1 db2 db3 : calm db1 db2 -> calm db2 db3 -> calm db1 db3.
Proof.
  intros [H1 H2 H3] [H4 H5 H6]. split; [by apply (delivery_step_trans db1 db2)|by apply (same_acks_trans db1 db2)|].
  auto.
Qed.

Lemma pending_calm stamp reason db d :
  of_outbox db d -> unsettled db d ->
  calm db (markFireDeliveryPending stamp (fob_deliveryKey d) (fob_fireRevision d) reason db).2.
Proof.
  intros Ho Hu. split; [apply markPending_step|by apply same_acks_update|].
  intros key. by apply acked_update.
Qed.
Lemma in_flight_calm stamp db d :
  of_outbox db d -> unsettled db d ->
  calm db (markFireDeliveryInFlight stamp (fob_deliveryKey d) (fob_fireRevision d) db).2.
Proof.
  intros Ho Hu. split; [apply markInFlight_step|by apply same_acks_update|].
  intros key. by apply acked_update.
Qed.

Lemma of_outbox_calm db db' d : calm db db' -> of_outbox db d -> of_outbox db' d.
Proof. intros Hc. apply of_outbox_step, Hc. Qed.
Lemma unsettled_calm db db' d : of_outbox db d -> calm db db' -> unsettled db d -> unsettled db' d.
Proof. intros Ho Hc. apply unsettled_acks; [done|apply Hc]. Qed.

(** ** The invariant *)

Record worker_ok (w : Delivering) (db : FireDb) (log : list DeliveryEvent) : Prop := {
  wo_db : fire_ok bs db;
  wo_epoch : forall key a, dv_in_flight w !! key = Some a ->
    key.1 = dv_active_epoch w /\ dv_active_epoch w <> 0%N;
  wo_attempt : forall key a, dv_in_flight w !! key = Some a ->
    of_outbox db (fat_delivery a) /\ unsettled db (fat_delivery a) /\
    Published key.1 key.2 (fob_deliveryKey (fat_delivery a)) (fob_fireRevision (fat_delivery a)) ∈ log;
  wo_single : forall key key' a a', dv_in_flight w !! key = Some a -> dv_in_flight w !! key' = Some a' ->
    fob_sinkKind (fat_delivery a) = LifecycleEvent -> fob_sinkKind (fat_delivery a') = LifecycleEvent ->
    fob_channelId (fat_delivery a) = fob_channelId (fat_delivery a') -> key = key';
  wo_lower : forall key a b k j, dv_in_flight w !! key = Some a -> b ∈ bs ->
    lifecycle_of_channel b k (fat_delivery a) -> (2 <= j < k)%N ->
    acked db (lifecycle_key (fcb_channelId b) j);
  wo_prefix : forall b j k, b ∈ bs -> (2 <= j < k)%N ->
    acked db (lifecycle_key (fcb_channelId b) k) -> acked db (lifecycle_key (fcb_channelId b) j);
  wo_synced : forall channel rev, dv_synced w !! channel = Some rev ->
    dv_active_epoch w <> 0%N /\ exists message,
      Acked (dv_active_epoch w) message (retainedDeliveryId channel) rev ∈ log;
  wo_log : forall epoch message key rev, Acked epoch message key rev ∈ log ->
    Published epoch message key rev ∈ log
}.

(** A record that may be published. *)
Definition publishable (w : Delivering) (db : FireDb) (d : FireOutboxRecord) : Prop :=
  of_outbox db d /\ unsettled db d /\
  (fob_sinkKind d = LifecycleEvent ->
   hasLifecycleInFlight (fob_channelId d) w = false /\
   forall b k j, b ∈ bs -> lifecycle_of_channel b k d -> (2 <= j < k)%N ->
     acked db (lifecycle_key (fcb_channelId b) j)).

(** Other contents of the database with the same acknowledgements. *)
Lemma worker_ok_acks w db db' log :
  fire_ok bs db' -> (forall d, of_outbox db d -> of_outbox db' d) -> same_acks db db' ->
  worker_ok w db log -> worker_ok w db' log.
Proof.
  intros Hok' Hout Hs []. split; try done.
  - intros key a Ha. destruct (wo_attempt0 key a Ha) as (H1 & H2 & H3).
    split; [by apply Hout|]. split; [|done]. by apply (unsettled_acks db).
  - intros key a b k j Ha Hb Hl Hj. apply Hs; [done|]. by apply (wo_lower0 key a b k j).
  - intros b j k Hb Hj Ha%Hs; [|done]. apply Hs; [done|]. by apply (wo_prefix0 b j k).
Qed.

(** Moving the delivery columns without touching what is acknowledged. *)
Lemma worker_ok_db w db db' log :
  delivery_step db db' -> same_acks db db' -> worker_ok w db log -> worker_ok w db' log.
Proof.
  intros Hd Hs Hok. apply (worker_ok_acks w db); try done.
  - apply (fire_ok_delivery bs db); [done|apply Hok].
  - intros d. by apply of_outbox_step.
Qed.

Lemma worker_ok_calm w db db' log : calm db db' -> worker_ok w db log -> worker_ok w db' log.
Proof. intros Hc. by apply worker_ok_db; apply Hc. Qed.

(** Fewer attempts, and nothing synchronised any more unless the epoch stays. *)
Lemma worker_ok_less w w' db log :
  worker_ok w db log -> dv_in_flight w' ⊆ dv_in_flight w ->
  (dv_in_flight w' = ∅ \/ dv_active_epoch w' = dv_active_epoch w) ->
  (dv_synced w' = ∅ \/ dv_synced w' = dv_synced w /\ dv_active_epoch w' = dv_active_epoch w) ->
  worker_ok w' db log.
Proof.
  intros [] Hsub Hep Hsyn.
  assert (Hin : forall key a, dv_in_flight w' !! key = Some a -> dv_in_flight w !! key = Some a)
    by (intros key a Ha; by apply (lookup_weaken _ _ _ _ Ha)).
  split; try done; eauto.
  - intros key a Ha. destruct Hep as [He|He]; [|rewrite He; eauto].
    rewrite He in Ha. by destruct (lookup_empty_Some _ _ Ha).
  - intros channel rev Hs. destruct Hsyn as [He|[He He']]; rewrite He in Hs; [|rewrite He'; by eapply wo_synced0].
    by destruct (lookup_empty_Some _ _ Hs).
Qed.

Lemma worker_ok_log w db log e :
  (forall epoch message key rev, e = Acked epoch message key rev ->
     Published epoch message key rev ∈ log) ->
  worker_ok w db log -> worker_ok w db (log ++ [e]).
Proof.
  intros He []. split; try done.
  - intros key a Ha. destruct (wo_attempt0 key a Ha) as (H1 & H2 & H3). repeat split; try done.
    apply elem_of_app. by left.
  - intros channel rev Hs. destruct (wo_synced0 channel rev Hs) as (H1 & m & H2). split; [done|].
    exists m. apply elem_of_app. by left.
  - intros epoch message key rev [H|H%list_elem_of_singleton]%elem_of_app; apply elem_of_app; left; eauto.
Qed.

(** Requeueing attempts. *)
Lemma requeue_all_calm stamp reason l db :
  (forall e, e ∈ l -> of_outbox db (fat_delivery e.2) /\ unsettled db (fat_delivery e.2)) ->
  calm db (requeue_all stamp reason l db).
Proof.
  revert db. induction l as [|e l IH]; intros db Hl; simpl; [apply calm_refl|].
  set (db1 := (markFireDeliveryPending _ _ _ _ _).2).
  assert (Hc : calm db db1).
  { destruct (Hl e (list_elem_of_here _ _)) as [H1 H2]. by apply pending_calm. }
  apply (calm_trans _ db1); [done|]. apply IH. intros e' He'.
  destruct (Hl e' (list_elem_of_further _ _ _ He')) as [H1 H2].
  split; [by apply (of_outbox_calm db)|by apply (unsettled_calm db)].
Qed.

Lemma elem_of_attempts w e : e ∈ attempts w <-> dv_in_flight w !! e.1 = Some e.2.
Proof.
  unfold attempts. rewrite (sort_rows_perm _ _). destruct e as [k a]. apply elem_of_map_to_list.
Qed.

Definition state_ok (s : DeliveryState) : Prop := worker_ok (dl_worker s) (dl_db s) (dl_log s).

Lemma attempts_requeue w db log (p : (N * Z) * FireAttempt -> bool) stamp reason :
  worker_ok w db log -> calm db (requeue_all stamp reason (List.filter p (attempts w)) db).
Proof.
  intros Hok. apply requeue_all_calm. intros e He. rewrite list_elem_of_In, filter_In in He.
  destruct He as [He _]. rewrite <- list_elem_of_In in He. apply elem_of_attempts in He.
  by destruct (wo_attempt _ _ _ Hok _ _ He) as (H1 & H2 & _).
Qed.

Lemma fail_close_ok s : state_ok s -> state_ok (fail_close s).
Proof. done. Qed.

Lemma disconnectEpoch_ok stamp epoch reason s :
  state_ok s -> state_ok (disconnectEpoch stamp epoch reason s).
Proof.
  intros Hok. unfold disconnectEpoch. destruct (epoch =? 0)%N; [done|].
  pose proof (attempts_requeue _ _ _ (fun e => (e.1.1 =? epoch)%N) stamp reason Hok) as Hc.
  pose proof (worker_ok_calm _ _ _ _ Hc Hok) as Hok'.
  assert (Hsub : filter (fun e : (N * Z) * FireAttempt => e.1.1 <> epoch) (dv_in_flight (dl_worker s))
                 ⊆ dv_in_flight (dl_worker s)) by apply map_filter_subseteq.
  destruct (dv_active_epoch (dl_worker s) =? epoch)%N eqn:He.
  - apply N.eqb_eq in He. apply fail_close_ok. unfold state_ok. simpl.
    eapply worker_ok_less; [exact Hok'|done| |by left]. left. simpl. apply map_empty. intros key.
    apply map_lookup_filter_None. right. intros a Ha Hne. apply Hne. simpl.
    destruct (wo_epoch _ _ _ Hok _ _ Ha). congruence.
  - unfold state_ok. simpl. eapply worker_ok_less; [exact Hok'|done|by right|by right].
Qed.

(** A disconnection of the active epoch ends every attempt. *)
Lemma disconnect_empty stamp reason s :
  state_ok s -> dv_active_epoch (dl_worker s) <> 0%N ->
  let s' := disconnectEpoch stamp (dv_active_epoch (dl_worker s)) reason s in
  dv_in_flight (dl_worker s') = ∅ /\ dv_active_epoch (dl_worker s') = 0%N.
Proof.
  intros Hok Hne. unfold disconnectEpoch. rewrite (proj2 (N.eqb_neq _ _)), N.eqb_refl by done. simpl.
  split; [|done]. apply map_empty. intros key.
  apply map_lookup_filter_None. right. intros a Ha H. apply H. simpl.
  by destruct (wo_epoch _ _ _ Hok _ _ Ha).
Qed.

Lemma requeueAllInflight_ok stamp reason s :
  state_ok s -> state_ok (requeueAllInflight stamp reason s).
Proof.
  intros Hok. unfold requeueAllInflight.
  pose proof (attempts_requeue _ _ _ (fun _ => true) stamp reason Hok) as Hc.
  rewrite filter_true in Hc. pose proof (worker_ok_calm _ _ _ _ Hc Hok) as Hok'. unfold state_ok. simpl.
  eapply worker_ok_less; [exact Hok'|by apply map_empty_subseteq|by left|by right].
Qed.

Lemma scheduleRetry_ok config env channel s :
  state_ok s -> state_ok (scheduleRetry config env channel s).
Proof. intros []. by split. Qed.
Lemma clearRetry_ok channel s : state_ok s -> state_ok (clearRetry channel s).
Proof. intros []. by split. Qed.

(** ** A new epoch *)

Lemma connected_ok env fact s :
  state_ok s -> mf_kind fact = Connected -> state_ok (processFact env fact s).1.
Proof.
  intros Hok Hk. unfold processFact. rewrite Hk. destruct (_ <? _)%N eqn:Hlt; [done|].
  apply N.ltb_ge in Hlt. cbn [fst].
  destruct (negb (dv_active_epoch (dl_worker s) =? 0)%N &&
            negb (mf_epoch fact =? dv_active_epoch (dl_worker s))%N) eqn:Hc;
    apply fail_close_ok; unfold state_ok; simpl.
  - split_bool. apply N.eqb_neq in H.
    pose proof (disconnectEpoch_ok (te_stamp env) (dv_active_epoch (dl_worker s))
      "fresh MQTT epoch connected" s Hok) as Hok1.
    destruct (disconnect_empty (te_stamp env) "fresh MQTT epoch connected" s Hok H) as [He _].
    eapply worker_ok_less; [exact Hok1|done|by left|by left].
  - eapply worker_ok_less; [exact Hok|done| |by left]. simpl.
    destruct (decide (dv_in_flight (dl_worker s) = ∅)) as [He|Hne]; [by left|right].
    apply map_choose in Hne as (key & a & Ha). destruct (wo_epoch _ _ _ Hok _ _ Ha) as [_ H0].
    rewrite (proj2 (N.eqb_neq _ _) H0) in Hc. simpl in Hc. apply negb_false_iff, N.eqb_eq in Hc. done.
Qed.

(** ** An acknowledgement *)

Lemma acknowledge_lifecycle w db log key a b k stamp :
  worker_ok w db log -> dv_in_flight w !! key = Some a -> b ∈ bs ->
  lifecycle_of_channel b k (fat_delivery a) ->
  forall b' j, b' ∈ bs ->
  acked (acknowledgeFireDelivery stamp (fob_deliveryKey (fat_delivery a))
           (fob_fireRevision (fat_delivery a)) db).2 (lifecycle_key (fcb_channelId b') j) ->
  acked db (lifecycle_key (fcb_channelId b') j) \/ b' = b /\ j = k.
Proof.
  intros Hok Ha Hb (_ & _ & _ & Hkey & _) b' j Hb'. unfold acknowledgeFireDelivery.
  destruct (update_delivery_cases db (fob_deliveryKey (fat_delivery a))
    (fob_fireRevision (fat_delivery a)) (fun r => bool_decide (fo_delivery_state r = "IN_FLIGHT"))
    (fun r => fo_progress r (fo_attempt_count r) (fo_next_attempt_at r) "" "ACKED"
       (Some (Z.of_N (fob_fireRevision (fat_delivery a)))) stamp))
    as [->|(row & Hrow & _ & _ & ->)]; [by left|].
  unfold acked at 1. simpl. intros (r & Hr & Hs). rewrite Hkey in Hr.
  apply lookup_insert_Some in Hr as [[He _]|[_ Hr]].
  - right. apply lifecycle_key_inj in He as [Hch ->]. split; [|done].
    apply (binding_channel_inj bs Hbs); auto.
  - left. by exists r.
Qed.

(** Acknowledging keeps what is acknowledged. *)
Lemma acknowledge_keeps stamp key rev db key' :
  acked db key' -> acked (acknowledgeFireDelivery stamp key rev db).2 key'.
Proof.
  unfold acknowledgeFireDelivery.
  match goal with |- _ -> acked (update_delivery ?d ?k ?r ?p ?f).2 _ =>
    destruct (update_delivery_cases d k r p f) as [->|(row & Hrow & _ & _ & ->)] end; [done|].
  intros (r & Hr & Hs). unfold acked. simpl. destruct (decide (key' = key)) as [->|Hne].
  - rewrite lookup_insert_eq. by eexists.
  - rewrite lookup_insert_ne by done. by exists r.
Qed.

Lemma acknowledge_retained w db log key a b stamp :
  worker_ok w db log -> dv_in_flight w !! key = Some a -> b ∈ bs ->
  retained_of_channel b (fat_delivery a) ->
  forall b' j, acked (acknowledgeFireDelivery stamp (fob_deliveryKey (fat_delivery a))
           (fob_fireRevision (fat_delivery a)) db).2 (lifecycle_key (fcb_channelId b') j) ->
  acked db (lifecycle_key (fcb_channelId b') j).
Proof.
  intros Hok Ha Hb (_ & _ & Hkey) b' j. unfold acknowledgeFireDelivery.
  match goal with |- acked (update_delivery ?d ?k ?r ?p ?f).2 _ -> _ =>
    destruct (update_delivery_cases d k r p f) as [->|(row & Hrow & _ & _ & ->)] end; [done|].
  unfold acked at 1. simpl. intros (r & Hr & Hs). rewrite Hkey in Hr.
  apply lookup_insert_Some in Hr as [[He _]|[_ Hr]]; [by destruct (retained_not_lifecycle _ _ _ He)|].
  by exists r.
Qed.

(** What an acknowledgement settles: at most the lifecycle event of the attempt. *)
Lemma acknowledge_settles w db log key a stamp b' j :
  worker_ok w db log -> dv_in_flight w !! key = Some a -> b' ∈ bs ->
  acked (acknowledgeFireDelivery stamp (fob_deliveryKey (fat_delivery a))
           (fob_fireRevision (fat_delivery a)) db).2 (lifecycle_key (fcb_channelId b') j) ->
  acked db (lifecycle_key (fcb_channelId b') j) \/ lifecycle_of_channel b' j (fat_delivery a).
Proof.
  intros Hok Ha Hb' Hacked. destruct (wo_attempt _ _ _ Hok _ _ Ha) as ((b & Hb & _ & Hcase) & _).
  destruct Hcase as [Hret|Hlife].
  - left. by eapply acknowledge_retained.
  - destruct (acknowledge_lifecycle w db log key a b _ stamp Hok Ha Hb Hlife b' j Hb' Hacked)
      as [?|[-> ->]]; auto.
Qed.

Lemma acknowledged_ok w db log key a stamp :
  worker_ok w db log -> dv_in_flight w !! key = Some a ->
  let d := fat_delivery a in
  worker_ok (set_in_flight w (delete key (dv_in_flight w)))
    (acknowledgeFireDelivery stamp (fob_deliveryKey d) (fob_fireRevision d) db).2
    (log ++ [Acked key.1 key.2 (fob_deliveryKey d) (fob_fireRevision d)]).
Proof.
  intros Hok Ha d. destruct (wo_attempt _ _ _ Hok _ _ Ha) as (Hout & Hun & Hpub).
  apply worker_ok_log; [by intros ? ? ? ? [= <- <- <- <-]|].
  pose proof (acknowledge_step stamp (fob_deliveryKey d) (fob_fireRevision d) db) as Hd.
  pose proof (fun b' j Hb' => acknowledge_settles w db log key a stamp b' j Hok Ha Hb') as Hset.
  pose proof (acknowledge_keeps stamp (fob_deliveryKey d) (fob_fireRevision d) db) as Hkeep.
  destruct Hok as [Hdb Hep Hat Hsi Hlo Hpre Hsyn Hlog].
  split; simpl; try done.
  - by apply (fire_ok_delivery bs db).
  - intros key' a' [_ Ha']%lookup_delete_Some. eauto.
  - intros key' a' [Hne Ha']%lookup_delete_Some. destruct (Hat key' a' Ha') as (H1 & H2 & H3).
    split; [by apply (of_outbox_step db)|]. split; [|done]. intros Hk Hacked.
    destruct H1 as (b' & Hb' & _ & [(Hr & _)|Hl]); [congruence|].
    pose proof Hl as (_ & Hch & _ & Hkey & _). rewrite Hkey in Hacked.
    destruct (Hset b' _ Hb' Hacked) as [H|Hd'].
    + apply (H2 Hk). by rewrite Hkey.
    + apply Hne. destruct Hd' as (Hk' & Hch' & _). apply (Hsi key key' a a'); auto. congruence.
  - intros k1 k2 a1 a2 [_ H1]%lookup_delete_Some [_ H2]%lookup_delete_Some. by apply Hsi.
  - intros key' a' b k j [_ Ha']%lookup_delete_Some Hb Hl Hj. apply Hkeep. by apply (Hlo key' a' b k j).
  - intros b j k Hb Hj Hacked. apply Hkeep. destruct (Hset b k Hb Hacked) as [H|H].
    + by apply (Hpre b j k).
    + by apply (Hlo key a b k j).
Qed.

Lemma synced_ok w db log channel rev message :
  worker_ok w db log -> dv_active_epoch w <> 0%N ->
  Acked (dv_active_epoch w) message (retainedDeliveryId channel) rev ∈ log ->
  worker_ok (set_synced w (<[channel := rev]> (dv_synced w))) db log.
Proof.
  intros [] Hne Hin. split; try done. simpl. intros ch r [[<- <-]|[_ Hs]]%lookup_insert_Some.
  - split; [done|]. by exists message.
  - by apply wo_synced0.
Qed.

Lemma processFact_ok env fact s : state_ok s -> state_ok (processFact env fact s).1.
Proof.
  intros Hok. destruct (mf_kind fact) eqn:Hk; [by apply connected_ok| | | | |];
    unfold processFact; rewrite Hk.
  - destruct (_ =? _)%N; [by apply disconnectEpoch_ok|done].
  - done.
  - destruct (_ && _)%bool; [|done]. simpl. destruct Hok. by split.
  - destruct (mf_epoch fact =? _)%N eqn:He; [|done]. cbn [negb]. apply N.eqb_eq in He.
    destruct (dv_in_flight (dl_worker s) !! _) as [a|] eqn:Ha; [|done].
    pose proof (acknowledged_ok _ _ _ _ a (te_stamp env) Hok Ha) as Hok'. simpl in Hok'.
    destruct (wo_attempt _ _ _ Hok _ _ Ha) as ((b & Hb & _ & Hcase) & _).
    destruct (wo_epoch _ _ _ Hok _ _ Ha) as [_ Hne].
    destruct (acknowledgeFireDelivery _ _ _ _) as [acknowledged db']. simpl in Hok'.
    destruct (acknowledged && _)%bool eqn:Hret; [|by apply clearRetry_ok].
    apply andb_prop in Hret as [_ Hret%bool_decide_eq_true].
    destruct (getFireDelivery _ _) as [current|what]; [|done].
    apply clearRetry_ok. unfold state_ok. simpl.
    assert (Hsame : worker_ok (set_synced (set_in_flight (dl_worker s)
       (delete (mf_epoch fact, mf_messageId fact) (dv_in_flight (dl_worker s)))) (dv_synced (dl_worker s)))
       db' (dl_log s ++ [Acked (mf_epoch fact) (mf_messageId fact) (fob_deliveryKey (fat_delivery a))
                           (fob_fireRevision (fat_delivery a))])) by (destruct Hok'; by split).
    destruct current as [row|]; [|done]. destruct (_ =? _)%N; [|done].
    eapply (synced_ok _ _ _ _ _ (mf_messageId fact)) in Hok'; [exact Hok'|done|].
    destruct Hcase as [(_ & Hch & Hkey)|(Hl & _)]; [|congruence].
    rewrite <- Hch in Hkey. rewrite Hkey. simpl. rewrite <- He. apply elem_of_app. right. by left.
  - destruct (_ =? _)%N; [by apply disconnectEpoch_ok|done].
Qed.

(** ** A publication *)

(** The transport takes nothing under the epoch zero. *)
Definition publisher_ok (env : TurnEnv) : Prop :=
  forall d c epoch r, te_publish env d c epoch = Ok r -> mtr_accepted r = true -> mtr_epoch r <> 0%N.

Lemma not_lifecycle_in_flight w channel key a :
  hasLifecycleInFlight channel w = false -> dv_in_flight w !! key = Some a ->
  fob_sinkKind (fat_delivery a) = LifecycleEvent -> fob_channelId (fat_delivery a) <> channel.
Proof.
  unfold hasLifecycleInFlight, in_flight_of. intros Hno Ha Hk Hch.
  apply not_true_iff_false in Hno. apply Hno, existsb_exists. exists (key, a).
  split; [apply list_elem_of_In, elem_of_attempts; done|]. simpl.
  by rewrite Hk, Hch, !bool_decide_eq_true_2.
Qed.

Lemma insert_ok w db log d message id now :
  worker_ok w db log -> publishable w db d -> dv_active_epoch w <> 0%N ->
  dv_in_flight w !! (dv_active_epoch w, message) = None ->
  worker_ok (set_in_flight w (<[(dv_active_epoch w, message) := mkFireAttempt d id now]>
                                (dv_in_flight w))) db
    (log ++ [Published (dv_active_epoch w) message (fob_deliveryKey d) (fob_fireRevision d)]).
Proof.
  intros Hok (Hout & Hun & Hlife) Hne Hfree.
  apply worker_ok_log with (e := Published (dv_active_epoch w) message (fob_deliveryKey d)
    (fob_fireRevision d)) in Hok; [|done].
  assert (Hin : Published (dv_active_epoch w) message (fob_deliveryKey d) (fob_fireRevision d)
    ∈ log ++ [Published (dv_active_epoch w) message (fob_deliveryKey d) (fob_fireRevision d)])
    by (apply elem_of_app; right; by left).
  destruct Hok as [Hdb Hep Hat Hsi Hlo Hpre Hsyn Hlog]. split; simpl; try done.
  - intros key a [[<- <-]|[_ Ha]]%lookup_insert_Some; [done|eauto].
  - intros key a [[<- <-]|[_ Ha]]%lookup_insert_Some; [done|eauto].
  - intros k1 k2 a1 a2 [[<- <-]|[Hn1 H1]]%lookup_insert_Some [[<- <-]|[Hn2 H2]]%lookup_insert_Some
      Hk1 Hk2 Hch; try done; simpl in *.
    + destruct (Hlife Hk1) as [Hno _]. exfalso. by apply (not_lifecycle_in_flight w _ k2 a2 Hno H2 Hk2).
    + destruct (Hlife Hk2) as [Hno _]. exfalso. by apply (not_lifecycle_in_flight w _ k1 a1 Hno H1 Hk1).
    + by apply (Hsi k1 k2 a1 a2).
  - intros key a b k j [[<- <-]|[_ Ha]]%lookup_insert_Some Hb Hl Hj; simpl in *.
    + pose proof Hl as (Hk & _). destruct (Hlife Hk) as [_ H]. by apply (H b k j).
    + by apply (Hlo key a b k j).
Qed.

Lemma publishable_calm w w' db db' d :
  calm db db' -> dv_in_flight w' = dv_in_flight w -> publishable w db d -> publishable w' db' d.
Proof.
  intros Hc Hw (Hout & Hun & Hlife). split; [by apply (of_outbox_calm db)|].
  split; [by apply (unsettled_calm db)|]. intros Hk. destruct (Hlife Hk) as [Hno Hlow]. split.
  - unfold hasLifecycleInFlight, in_flight_of, attempts in *. by rewrite Hw.
  - intros b k j Hb Hl Hj. apply (ca_acks _ _ Hc); [done|]. by apply (Hlow b k j).
Qed.

Lemma pending_ok env d reason s :
  state_ok s -> of_outbox (dl_db s) d -> unsettled (dl_db s) d ->
  state_ok (set_db s (markFireDeliveryPending (te_stamp env) (fob_deliveryKey d)
                        (fob_fireRevision d) reason (dl_db s)).2).
Proof.
  intros Hok Ho Hu. apply (worker_ok_calm _ (dl_db s)); [by apply pending_calm|done].
Qed.

Lemma fire_publish_ok config env d s :
  publisher_ok env -> state_ok s -> publishable (dl_worker s) (dl_db s) d ->
  state_ok (fire_publish config env d s).1.
Proof.
  intros Henv Hok Hpub. pose proof Hpub as (Hout & Hun & _). unfold fire_publish.
  pose proof (in_flight_calm (te_stamp env) (dl_db s) d Hout Hun) as Hc.
  destruct (markFireDeliveryInFlight _ _ _ _) as [marked db]. simpl in Hc.
  pose proof (worker_ok_calm _ _ _ _ Hc Hok) as Hok'.
  destruct marked; cbn [negb]; [|by apply scheduleRetry_ok].
  set (w := dl_worker s) in *. set (s1 := set_db _ db).
  assert (Hok1 : state_ok s1) by (destruct Hok'; by split).
  assert (Hpub1 : publishable (dl_worker s1) (dl_db s1) d)
    by (by apply (publishable_calm w _ (dl_db s) db)).
  assert (Hw1 : dv_active_epoch (dl_worker s1) = dv_active_epoch w) by done.
  cbv zeta. destruct (te_publish env d _ _) as [result|what] eqn:Hp; [|done].
  destruct (token_matches _ _ _) eqn:Htok; cbn [negb];
    [|apply scheduleRetry_ok, pending_ok; [done|apply Hpub1..]].
  unfold token_matches in Htok. do 2 apply andb_prop in Htok as [Htok _].
  apply andb_prop in Htok as [Hacc Hep%N.eqb_eq]. pose proof (Henv _ _ _ _ Hp Hacc) as Hne.
  destruct (dv_in_flight (dl_worker s1) !! _) eqn:Hfree.
  - apply worker_ok_log; [done|]. apply disconnectEpoch_ok, pending_ok; [done|apply Hpub1..].
  - apply clearRetry_ok. unfold state_ok. rewrite Hep, <- Hw1 in *.
    apply insert_ok; try done.
Qed.

(** ** The rest of the worker *)

Lemma requeue_step stamp reason l db : delivery_step db (requeue_all stamp reason l db).
Proof.
  revert db. induction l as [|e l IH]; intros db; simpl; [apply delivery_step_refl|].
  eapply delivery_step_trans; [|apply IH]. apply markPending_step.
Qed.

Lemma disconnect_step stamp epoch reason s :
  delivery_step (dl_db s) (dl_db (disconnectEpoch stamp epoch reason s)).
Proof.
  unfold disconnectEpoch. destruct (epoch =? 0)%N; [apply delivery_step_refl|].
  destruct (_ =? epoch)%N; apply requeue_step.
Qed.

Lemma processFact_step env fact s : delivery_step (dl_db s) (dl_db (processFact env fact s).1).
Proof.
  unfold processFact. destruct (mf_kind fact).
  - destruct (_ <? _)%N; [apply delivery_step_refl|].
    destruct (_ && _)%bool; [apply disconnect_step|apply delivery_step_refl].
  - destruct (_ =? _)%N; [apply disconnect_step|apply delivery_step_refl].
  - apply delivery_step_refl.
  - destruct (_ && _)%bool; apply delivery_step_refl.
  - destruct (negb _); [apply delivery_step_refl|].
    destruct (_ !! _) as [a|]; [|apply delivery_step_refl].
    pose proof (acknowledge_step (te_stamp env) (fob_deliveryKey (fat_delivery a))
      (fob_fireRevision (fat_delivery a)) (dl_db s)) as Hd.
    destruct (acknowledgeFireDelivery _ _ _ _). simpl in Hd.
    destruct (_ && _)%bool; [|done]. by destruct (getFireDelivery _ _).
  - destruct (_ =? _)%N; [apply disconnect_step|apply delivery_step_refl].
Qed.

Lemma publish_step config env d s : delivery_step (dl_db s) (dl_db (fire_publish config env d s).1).
Proof.
  unfold fire_publish.
  pose proof (markInFlight_step (te_stamp env) (fob_deliveryKey d) (fob_fireRevision d) (dl_db s)) as Hd.
  destruct (markFireDeliveryInFlight _ _ _ _) as [marked db]. simpl in Hd.
  destruct (negb _); [done|]. cbv zeta. destruct (te_publish _ _ _ _); [|done].
  destruct (negb _); [eapply delivery_step_trans; [exact Hd|apply markPending_step]|].
  destruct (_ !! _); [|done]. eapply delivery_step_trans; [exact Hd|].
  eapply delivery_step_trans; [apply markPending_step|]. apply (disconnect_step _ _ _ (set_db _ _)).
Qed.

Lemma expirePubAckDeadline_ok config env s :
  state_ok s -> state_ok (expirePubAckDeadline config env s).
Proof.
  intros Hok. unfold expirePubAckDeadline. destruct (_ =? _)%N; [done|].
  destruct (existsb _ _); [|done]. apply worker_ok_log; [done|]. by apply disconnectEpoch_ok.
Qed.

Lemma handle_overflow_ok env epoch s : state_ok s -> state_ok (handle_overflow env epoch s).
Proof.
  intros Hok. unfold handle_overflow. destruct (_ =? 0)%N; [done|].
  apply worker_ok_log; [done|]. destruct (_ =? _)%N; [by apply disconnectEpoch_ok|done].
Qed.

Lemma schedule_all_ok config env channels s :
  state_ok s -> state_ok (foldl (fun s channel => scheduleRetry config env channel s) s channels).
Proof.
  revert s. induction channels as [|ch channels IH]; intros s Hok; [done|]. simpl. apply IH.
  by apply scheduleRetry_ok.
Qed.

Lemma recoverActorFailure_ok config env reason s :
  state_ok s -> state_ok (recoverActorFailure config env reason s).
Proof.
  intros Hok. unfold recoverActorFailure.
  assert (Hrec : state_ok (if (dv_active_epoch (dl_worker s) =? 0)%N
                           then requeueAllInflight (te_stamp env) reason s
                           else disconnectEpoch (te_stamp env) (dv_active_epoch (dl_worker s)) reason s)).
  { destruct (_ =? 0)%N; [by apply requeueAllInflight_ok|by apply disconnectEpoch_ok]. }
  assert (Hall : state_ok (foldl (fun s channel => scheduleRetry config env channel s)
            (fail_close (if (dv_active_epoch (dl_worker s) =? 0)%N
                         then requeueAllInflight (te_stamp env) reason s
                         else disconnectEpoch (te_stamp env) (dv_active_epoch (dl_worker s)) reason s))
            (dcf_channelIds config))) by by apply schedule_all_ok.
  destruct (_ =? 0)%N; [done|]. by apply worker_ok_log.
Qed.

Lemma disconnect_calm stamp epoch reason s :
  state_ok s -> calm (dl_db s) (dl_db (disconnectEpoch stamp epoch reason s)).
Proof.
  intros Hok. unfold disconnectEpoch. destruct (epoch =? 0)%N; [apply calm_refl|].
  pose proof (attempts_requeue _ _ _ (fun e => (e.1.1 =? epoch)%N) stamp reason Hok) as H.
  by destruct (_ =? epoch)%N.
Qed.

Lemma requeue_calm stamp reason s :
  state_ok s -> calm (dl_db s) (dl_db (requeueAllInflight stamp reason s)).
Proof.
  intros Hok. pose proof (attempts_requeue _ _ _ (fun _ => true) stamp reason Hok) as H.
  by rewrite filter_true in H.
Qed.

Lemma schedule_all_db config env channels s :
  dl_db (foldl (fun s channel => scheduleRetry config env channel s) s channels) = dl_db s.
Proof. revert s. induction channels as [|ch channels IH]; intros s; [done|]. simpl. by rewrite IH. Qed.

Lemma recover_calm config env reason s :
  state_ok s -> calm (dl_db s) (dl_db (recoverActorFailure config env reason s)).
Proof.
  intros Hok. unfold recoverActorFailure. destruct (_ =? 0)%N; simpl; rewrite schedule_all_db; simpl.
  - by apply requeue_calm.
  - by apply disconnect_calm.
Qed.

Lemma fire_publish_calm config env d s :
  state_ok s -> publishable (dl_worker s) (dl_db s) d ->
  calm (dl_db s) (dl_db (fire_publish config env d s).1).
Proof.
  intros Hok Hpub. pose proof Hpub as (Hout & Hun & _). unfold fire_publish.
  pose proof (in_flight_calm (te_stamp env) (dl_db s) d Hout Hun) as Hc.
  destruct (markFireDeliveryInFlight _ _ _ _) as [marked db]. simpl in Hc.
  pose proof (worker_ok_calm _ _ _ _ Hc Hok) as Hok'.
  destruct marked; cbn [negb]; [|done]. cbv zeta. set (s1 := set_db _ db).
  assert (Hok1 : state_ok s1) by (destruct Hok'; by split).
  assert (Hout1 : of_outbox (dl_db s1) d) by by apply (of_outbox_calm (dl_db s)).
  assert (Hun1 : unsettled (dl_db s1) d) by by apply (unsettled_calm (dl_db s)).
  assert (Hcalm1 : forall reason, calm (dl_db s) (markFireDeliveryPending (te_stamp env)
            (fob_deliveryKey d) (fob_fireRevision d) reason db).2).
  { intros reason. apply (calm_trans _ db); [done|]. by apply pending_calm. }
  destruct (te_publish env d _ _) as [result|what]; [|done].
  destruct (token_matches _ _ _); cbn [negb]; [|apply Hcalm1].
  destruct (dv_in_flight (dl_worker s1) !! _); [|done].
  eapply calm_trans; [apply (Hcalm1 "MQTT reused an in-flight MID in the same epoch")|].
  apply (disconnect_calm (te_stamp env) _ _ (set_db s1 _)). by apply pending_ok.
Qed.
End Worker.
