(* ===== verification/FireDeliveryRun.v ===== *)
(** The delivery actor together with the other threads: the worker of the fire alarm service
    with its readiness boundary, the transport with its facts, and the clients of the regular
    egress. What the service writes to the outbox, the mutual exclusion of mutations,
    regular egress and lifecycle releases, and the order of the lifecycle events. *)
From S2P Require Import Prelude SensorProtocol SequencePolicy SlotConfig OccupancyDb FireStore FireService FireInvariant FireTopology FireAlarm FireDelivery FireDeliveryInv.

(** * What the fire alarm service writes *)

Section Domain.
Context {JL : JsonLibrary}.
Variable isoString : time_point -> string.
Variable signal_dump : json -> result string string.
Variable config : FireConfig.
Variable bs : list FireChannelBinding.
Hypothesis Hbs : bindings_ok bs.
Hypothesis Hiso : forall t, isoString t <> "".
Hypothesis Hdump : forall j t, signal_dump j = Ok t -> t <> "".

Notation process_caught := (process_caught isoString signal_dump config bs).

(** One transition of a channel in the outbox: the retained row is renewed and a lifecycle row
    with a higher revision than all before is added. *)
Definition outbox_written (b : FireChannelBinding) (db db' : FireDb) : Prop :=
  exists k rowR rowL, b ∈ bs /\
    fd_outbox db' = <[lifecycle_key (fcb_channelId b) k := rowL]>
      (<[retainedDeliveryId (fcb_channelId b) := rowR]> (fd_outbox db)) /\
    fo_delivery_state rowR = "PENDING" /\ fo_delivery_state rowL = "PENDING" /\
    fd_outbox db !! lifecycle_key (fcb_channelId b) k = None /\
    forall j, is_Some (fd_outbox db !! lifecycle_key (fcb_channelId b) j) -> (j < k)%N.

(** The lifecycle rows of a channel go up to its revision. *)
Lemma lifecycle_row_bound db b s j :
  fire_ok bs db -> b ∈ bs -> channel_ok b s db ->
  is_Some (fd_outbox db !! lifecycle_key (fcb_channelId b) j) -> (2 <= j <= fas_fireRevision s)%N.
Proof.
  intros Hok Hb H [row Hrow]. destruct (fk_outbox _ _ Hok _ _ Hrow) as [_ (b' & sr & Hb' & Hch & Hsr & Hcase)].
  destruct Hcase as [(Hk & _)|(k & Hk2 & Hle & Hk & _)].
  - by destruct (retained_not_lifecycle _ _ _ (eq_sym Hk)).
  - apply lifecycle_key_inj in Hk as [Hc ->].
    rewrite <- Hc, (co_row _ _ _ H) in Hsr. injection Hsr as <-. simpl in Hle. lia.
Qed.

(** A command leaves the outbox alone or writes one transition of its own channel, and the
    latter only behind an open boundary. *)
Lemma transition_written b k s db status revision db' :
  fire_ok bs db -> b ∈ bs -> channel_ok b s db ->
  command_effect signal_dump bs b k s db status revision db' ->
  fd_outbox db' = fd_outbox db \/ outbox_written b db db'.
Proof.
  intros Hok Hb H He. destruct He as [status revision _|db1 s' sg _ _ _ _ _ Ho1 _ _ _ db' Hok' H'
    |db1 s' row R L Hf Hedge Hd HLp _ _ _ Hs1 Ho1 Hop Hrow db' Hok' H'].
  - by left.
  - left. done.
  - right. exists (fas_fireRevision s'), (renewed_row row R),
      (outbox_row L (Z.of_N (fob_fireRevision L)) 0 None).
    pose proof (fo_event _ _ _ Hf) as Hev. pose proof (fo_next _ _ _ Hf) as Hrev.
    destruct Hd as [(HRk & _) (HLk & _)]. rewrite Hev in HLk.
    split; [done|]. split; [unfold db'; simpl; by rewrite HLk, HRk, Ho1|].
    split; [done|]. split; [simpl; by rewrite HLp|].
    rewrite Hrev. split; [by apply (lifecycle_id_free bs b s db)|].
    intros j Hj. pose proof (lifecycle_row_bound db b s j Hok Hb H Hj). lia.
Qed.

(** Without the boundary the store only moves cursors. *)
Lemma cursor_only_outbox m db :
  fmu_retainedDelivery m = None -> fd_outbox (applyFireStateMutation m db).2 = fd_outbox db.
Proof.
  intros Hr. unfold applyFireStateMutation. destruct (negb _); [done|]. destruct (negb _); [done|].
  unfold mutation_body, update_state, cursor_gate.
  repeat (rewrite ?Hr; case_match || rinv || simplify_eq/=); auto.
Qed.

Lemma closed_boundary_outbox env c db :
  env_boundary env = false -> fd_outbox (process_caught env c db).2 = fd_outbox db.
Proof.
  intros Hb. unfold FireService.process_caught.
  destruct (process isoString signal_dump config bs env c db) as [[r db']|what] eqn:Hp; [|done].
  unfold FireService.process, processSignal, processAcknowledge, processManualClear, apply_signal,
    applyTransition in Hp. rewrite Hb in Hp. cbn [negb] in Hp. simpl.
  repeat (case_match || rinv || simplify_eq/=); try done;
    match goal with H : applyFireStateMutation ?m _ = _ |- _ =>
      pose proof (cursor_only_outbox m db eq_refl) as Ho; by rewrite H in Ho end.
Qed.

(** The effect of a command on the database, with the boundary that its channel needs. *)
Lemma command_writes env c db :
  fire_ok bs db -> kind_wf (fc_kind c) ->
  fire_ok bs (process_caught env c db).2 /\
  (fd_outbox (process_caught env c db).2 = fd_outbox db \/
   env_boundary env = true /\ exists b, target bs c = Some b /\
     outbox_written b db (process_caught env c db).2).
Proof.
  intros Hok Hwf. destruct (process_caught env c db) as [r db'] eqn:Hp. simpl.
  split; [by apply (process_ok isoString signal_dump config bs Hbs Hiso Hdump env c db r)|].
  destruct (target bs c) as [b|] eqn:Ht.
  - pose proof (target_in bs c b Ht) as Hb. destruct (fk_channels _ _ Hok b Hb) as [s Hs].
    pose proof (process_outcome isoString signal_dump config bs Hbs Hiso Hdump env c b s db r db'
      Hok Hwf Ht Hs Hp) as He. unfold command_outcome in He.
    destruct (env_boundary env) eqn:Hbound.
    + destruct (transition_written _ _ _ _ _ _ _ Hok Hb Hs He); [by left|right; eauto].
    + left. pose proof (closed_boundary_outbox env c db Hbound) as Ho. by rewrite Hp in Ho.
  - left. by destruct (process_no_target isoString signal_dump config bs env c db r db' Ht Hp) as (-> & _).
Qed.
End Domain.

(** * The threads *)

(** The worker of the fire alarm service between two locks of the delivery actor: outside a
    mutation, waiting for the regular egress to drain, or inside its transaction. *)
Inductive DomainAt := DomainIdle | DomainWaiting (channel : string) | DomainOpen (channel : string).

Record System := mkSystem {
  sy_at : WorkerAt;
  sy_state : DeliveryState;
  sy_domain : DomainAt;
  sy_clients : list RegularEgressGrant
}.

Inductive SystemOp :=
| SysWorker (env : TurnEnv)
| SysFact (fact : MqttTransportFact)
| SysNotify (channel : string)
| SysBegin (channel : string)
| SysBegun
| SysCommand (env : FireEnv) (c : FireCommand)
| SysComplete
| SysEgress
| SysEgressDone (client : nat)
| SysStop.

Definition system_op_wf (op : SystemOp) : Prop :=
  match op with
  | SysWorker env => publisher_ok env
  | SysCommand _ c => kind_wf (fc_kind c)
  | _ => True
  end.

Section System.
Context {JL : JsonLibrary}.
Variable isoString : time_point -> string.
Variable signal_dump : json -> result string string.
Variable fire_config : FireConfig.
Variable config : DeliveryConfig.
Variable bs : list FireChannelBinding.

Notation process_caught := (process_caught isoString signal_dump fire_config bs).

Definition with_guarded (y : System) (g : Guarded) : System :=
  mkSystem (sy_at y) (set_guarded (sy_state y) g) (sy_domain y) (sy_clients y).
Definition with_domain (y : System) (d : DomainAt) (g : Guarded) : System :=
  mkSystem (sy_at y) (set_guarded (sy_state y) g) d (sy_clients y).

(** Whether the service may run a command now: one that needs the boundary only in the
    transaction of its own channel, others outside a mutation. *)
Definition command_enabled (y : System) (env : FireEnv) (c : FireCommand) : bool :=
  match sy_domain y with
  | DomainIdle => negb (env_boundary env)
  | DomainWaiting _ => false
  | DomainOpen channel =>
      env_boundary env && match target bs c with
                          | Some b => bool_decide (fcb_channelId b = channel)
                          | None => false
                          end
  end.

(** A step of one of the threads; a thread that cannot take it stays where it is. *)
Definition system_step (y : System) (op : SystemOp) : System :=
  let s := sy_state y in
  let g := dl_guarded s in
  match op with
  | SysWorker env =>
      let '(at_, s') := worker_step config env (sy_at y) s in
      mkSystem at_ s' (sy_domain y) (sy_clients y)
  | SysFact fact => with_guarded y (enqueueTransportFact config fact g).2
  | SysNotify channel => with_guarded y (notifyOutboxChanged channel g)
  | SysBegin channel =>
      match sy_domain y, beginDomainMutation channel g with
      | DomainIdle, Some g' => with_domain y (DomainWaiting channel) g'
      | _, _ => y
      end
  | SysBegun =>
      match sy_domain y with
      | DomainWaiting channel =>
          let '(ok, g') := finish_begin_mutation channel g in
          with_domain y (if ok then DomainOpen channel else DomainIdle) g'
      | _ => y
      end
  | SysCommand env c =>
      if command_enabled y env c
      then mkSystem (sy_at y) (set_db s (process_caught env c (dl_db s)).2) (sy_domain y) (sy_clients y)
      else y
  | SysComplete =>
      match sy_domain y with
      | DomainOpen channel => with_domain y DomainIdle (completeDomainMutation channel g)
      | _ => y
      end
  | SysEgress =>
      match beginRegularEgress g with
      | Some (grant, g') => mkSystem (sy_at y) (set_guarded s g') (sy_domain y) (sy_clients y ++ [grant])
      | None => y
      end
  | SysEgressDone client =>
      match sy_clients y !! client with
      | Some _ => mkSystem (sy_at y) (set_guarded s (completeRegularEgress g)) (sy_domain y)
                    (delete client (sy_clients y))
      | None => y
      end
  | SysStop => with_guarded y (request_delivery_stop g)
  end.
Definition system_run (y : System) (ops : list SystemOp) : System := foldl system_step y ops.

(** The actor after a successful start. *)
Definition started_system (g : Guarded) (db : FireDb) : System :=
  mkSystem AtWait (mkDeliveryState g new_delivering db []) DomainIdle [].

Definition releasing (a : WorkerAt) : bool :=
  match a with AtListLifecycle _ | AtLifecycle _ _ _ => true | _ => false end.

(** ** Mutual exclusion *)

Definition domain_depth (d : DomainAt) (channel : string) : N :=
  match d with
  | DomainIdle => 0
  | DomainWaiting ch | DomainOpen ch => if bool_decide (ch = channel) then 1 else 0
  end.

Record exclusive (at_ : WorkerAt) (r : Readiness) (d : DomainAt) (clients : nat) : Prop := {
  ex_egress : rd_egress r = N.of_nat clients;
  ex_depth : forall channel n, rd_depth r !! channel = Some n -> n = domain_depth d channel;
  ex_channel : forall channel, d = DomainWaiting channel \/ d = DomainOpen channel ->
    is_Some (rd_depth r !! channel);
  ex_open : forall channel, d = DomainOpen channel -> rd_egress r = 0%N;
  ex_release : rd_release r = releasing at_;
  ex_releasing : releasing at_ = true -> d = DomainIdle
}.

(** The fields that matter for the exclusion. *)
Lemma exclusive_same at_ at' r r' d n :
  rd_depth r' = rd_depth r -> rd_egress r' = rd_egress r -> rd_release r' = releasing at' ->
  (releasing at' = true -> d = DomainIdle) -> exclusive at_ r d n -> exclusive at' r' d n.
Proof. intros Hd He Hr Hrel []. split; rewrite ?Hd, ?He; try done. Qed.

(** [k] times closed. *)
Definition closed_by (k : nat) (s s' : DeliveryState) : Prop :=
  dl_guarded s' = set_readiness (dl_guarded s)
    (Nat.iter k failCloseAllReadinessLocked (gd_readiness (dl_guarded s))).

Lemma closed_refl s : closed_by 0 s s.
Proof. unfold closed_by. by destruct s as [[] ? ? ?]. Qed.
Lemma closed_same s s' : dl_guarded s' = dl_guarded s -> closed_by 0 s s'.
Proof. unfold closed_by. intros ->. by destruct (dl_guarded s). Qed.
Lemma closed_once s s' : dl_guarded s' = dl_guarded s -> closed_by 1 s (fail_close s').
Proof. unfold closed_by, fail_close. simpl. by intros ->. Qed.
Lemma closed_trans j k s1 s2 s3 : closed_by j s1 s2 -> closed_by k s2 s3 -> closed_by (k + j) s1 s3.
Proof. unfold closed_by. intros H1 ->. rewrite H1. simpl. by rewrite Nat.iter_add. Qed.
Lemma closed_after k s s' s'' : closed_by k s s' -> dl_guarded s'' = dl_guarded s' -> closed_by k s s''.
Proof. unfold closed_by. by intros H ->. Qed.

Lemma iter_close_fields k r :
  let r' := Nat.iter k failCloseAllReadinessLocked r in
  rd_depth r' = rd_depth r /\ rd_egress r' = rd_egress r /\ rd_release r' = rd_release r.
Proof. induction k as [|k (H1 & H2 & H3)]; [done|]. simpl. by rewrite H1, H2, H3. Qed.

Definition closes (n : nat) (s s' : DeliveryState) : Prop := exists k, (k <= n)%nat /\ closed_by k s s'.

Lemma closes_same n s s' : dl_guarded s' = dl_guarded s -> closes n s s'.
Proof. intros H. exists 0%nat. split; [lia|]. by apply closed_same. Qed.
Lemma closes_trans j k s1 s2 s3 : closes j s1 s2 -> closes k s2 s3 -> closes (j + k) s1 s3.
Proof.
  intros (a & Ha & H1) (b & Hb & H2). exists (b + a)%nat. split; [lia|]. by apply (closed_trans a b s1 s2).
Qed.
Lemma closes_after n s s' s'' : closes n s s' -> dl_guarded s'' = dl_guarded s' -> closes n s s''.
Proof. intros (k & Hk & H) He. exists k. split; [done|]. by apply (closed_after k s s'). Qed.
Lemma closes_before n s s' s'' : dl_guarded s' = dl_guarded s -> closes n s' s'' -> closes n s s''.
Proof. intros He (k & Hk & H). exists k. split; [done|]. unfold closed_by in *. by rewrite <- He. Qed.
Lemma closes_le m n s s' : (m <= n)%nat -> closes m s s' -> closes n s s'.
Proof. intros Hmn (k & Hk & H). exists k. split; [lia|done]. Qed.
Lemma closes_fail n s s' : closes n s s' -> closes (S n) s (fail_close s').
Proof.
  intros (k & Hk & H). exists (S k). split; [lia|]. unfold closed_by, fail_close in *. simpl. by rewrite H.
Qed.

Lemma closes_log n s s' e : closes n s s' -> closes n s (log_event s' e).
Proof. intros H. by apply (closes_after n s s'). Qed.

Lemma disconnect_closes stamp epoch reason s : closes 1 s (disconnectEpoch stamp epoch reason s).
Proof.
  unfold disconnectEpoch. destruct (epoch =? 0)%N; [by apply closes_same|].
  destruct (_ =? epoch)%N; [by apply closes_fail, closes_same|by apply closes_same].
Qed.

Lemma processFact_closes env fact s : closes 2 s (processFact env fact s).1.
Proof.
  unfold processFact. destruct (mf_kind fact).
  - destruct (_ <? _)%N; [by apply closes_same|]. apply closes_fail.
    destruct (_ && _)%bool; [|by apply closes_same].
    eapply closes_after; [apply disconnect_closes|done].
  - destruct (_ =? _)%N; [|by apply closes_same]. eapply closes_le; [|apply disconnect_closes]; lia.
  - by apply closes_same.
  - destruct (_ && _)%bool; by apply closes_same.
  - destruct (negb _); [by apply closes_same|]. destruct (_ !! _); [|by apply closes_same].
    destruct (acknowledgeFireDelivery _ _ _ _). destruct (_ && _)%bool; [|by apply closes_same].
    destruct (getFireDelivery _ _); by apply closes_same.
  - destruct (_ =? _)%N; [|by apply closes_same]. eapply closes_le; [|apply disconnect_closes]; lia.
Qed.

Lemma publish_closes env d s : closes 1 s (fire_publish config env d s).1.
Proof.
  unfold fire_publish. destruct (markFireDeliveryInFlight _ _ _ _). destruct (negb _); [by apply closes_same|].
  cbv zeta. destruct (te_publish _ _ _ _); [|by apply closes_same].
  destruct (negb _); [by apply closes_same|]. destruct (_ !! _); [|by apply closes_same].
  apply closes_log. by eapply closes_before; [|apply disconnect_closes].
Qed.

Lemma expire_closes env s : closes 1 s (expirePubAckDeadline config env s).
Proof.
  unfold expirePubAckDeadline. destruct (_ =? _)%N; [by apply closes_same|].
  destruct (existsb _ _); [|by apply closes_same]. apply closes_log, disconnect_closes.
Qed.

Lemma overflow_closes env epoch s : closes 1 s (handle_overflow env epoch s).
Proof.
  unfold handle_overflow. destruct (_ =? 0)%N; [by apply closes_same|].
  destruct (_ =? _)%N; [|by apply closes_same]. eapply closes_after; [apply disconnect_closes|done].
Qed.

Lemma schedule_all_guarded env channels s :
  dl_guarded (foldl (fun s channel => scheduleRetry config env channel s) s channels) = dl_guarded s.
Proof. revert s. induction channels as [|ch channels IH]; intros s; [done|]. simpl. by rewrite IH. Qed.

Lemma recover_closes env reason s : closes 2 s (recoverActorFailure config env reason s).
Proof.
  unfold recoverActorFailure. destruct (_ =? 0)%N.
  - apply (closes_after 2 s (fail_close (requeueAllInflight (te_stamp env) reason s)));
      [by apply closes_fail, closes_same|by rewrite schedule_all_guarded].
  - apply (closes_after 2 s (fail_close (disconnectEpoch (te_stamp env)
      (dv_active_epoch (dl_worker s)) reason s)));
      [apply closes_fail, disconnect_closes|simpl; by rewrite schedule_all_guarded].
Qed.

Lemma or_recover_closes n env next r s :
  closes n s r.1 -> closes (n + 2) s (or_recover config env next r).2.
Proof.
  intros H. unfold or_recover. destruct r as [s' [what|]]; simpl in *.
  - eapply closes_trans; [done|apply recover_closes].
  - eapply closes_le; [|done]. lia.
Qed.

(** Closing keeps the exclusion. *)
Lemma exclusive_closed n at_ at' s s' d clients :
  closes n s s' -> releasing at' = releasing at_ ->
  exclusive at_ (gd_readiness (dl_guarded s)) d clients ->
  exclusive at' (gd_readiness (dl_guarded s')) d clients.
Proof.
  intros (k & _ & ->) Hrel Hex. simpl. destruct (iter_close_fields k (gd_readiness (dl_guarded s))) as (H1 & H2 & H3).
  apply (exclusive_same at_ _ (gd_readiness (dl_guarded s))); try done.
  - by rewrite H3, Hrel, (ex_release _ _ _ _ Hex).
  - rewrite Hrel. apply (ex_releasing _ _ _ _ Hex).
Qed.

Definition system_exclusive (y : System) : Prop :=
  exclusive (sy_at y) (gd_readiness (dl_guarded (sy_state y))) (sy_domain y) (length (sy_clients y)).

Lemma or_recover_at env next r : (or_recover config env next r).1 = next \/ (or_recover config env next r).1 = AtWait.
Proof. unfold or_recover. destruct r as [s' [what|]]; auto. Qed.

(** All depths are zero only outside a mutation. *)
Lemma all_zero_idle at_ r d n : exclusive at_ r d n -> all_zero (rd_depth r) = true -> d = DomainIdle.
Proof.
  intros Hex Hz. unfold all_zero in Hz. apply bool_decide_eq_true in Hz.
  destruct d as [|ch|ch]; [done| |]; exfalso;
    (destruct (ex_channel _ _ _ _ Hex ch) as [k Hk]; [by auto|]);
    pose proof (ex_depth _ _ _ _ Hex ch k Hk) as He; simpl in He; rewrite bool_decide_eq_true_2 in He by done;
    pose proof (Hz ch k Hk); congruence.
Qed.

Lemma exclusive_at at_ at' r d n :
  releasing at' = releasing at_ -> exclusive at_ r d n -> exclusive at' r d n.
Proof. intros Hr []. by split; rewrite ?Hr. Qed.

Lemma exclusive_end at_ at' r d n :
  releasing at' = false -> exclusive at_ r d n -> exclusive at' (set_release false r) d n.
Proof. intros Hr []. by split; rewrite ?Hr. Qed.

(** After a step that may have thrown. *)
Lemma exclusive_recover k env next at_ at' s r s' d n :
  or_recover config env next r = (at', s') -> closes k s r.1 ->
  releasing at_ = false -> releasing next = false ->
  exclusive at_ (gd_readiness (dl_guarded s)) d n -> exclusive at' (gd_readiness (dl_guarded s')) d n.
Proof.
  intros Hr Hk Hrel Hnext Hex.
  pose proof (or_recover_closes k env next r s Hk) as Hc.
  pose proof (or_recover_at env next r) as Hat. rewrite Hr in Hc, Hat. simpl in *.
  apply (exclusive_closed _ at_ _ s _ d n Hc); [|done]. rewrite Hrel. by destruct Hat as [-> | ->].
Qed.

Lemma retained_row_closes env now row s : closes 1 s (pump_retained_row config env now row s).2.1.
Proof.
  unfold pump_retained_row. repeat case_match; try (by apply closes_same); apply publish_closes.
Qed.
Lemma lifecycle_row_closes env now submitted row s :
  closes 1 s (pump_lifecycle_row config env now submitted row s).2.1.
Proof.
  unfold pump_lifecycle_row. repeat case_match; try (by apply closes_same); apply publish_closes.
Qed.

Lemma exclusive_worker env at_ s at' s' d n :
  worker_step config env at_ s = (at', s') ->
  exclusive at_ (gd_readiness (dl_guarded s)) d n -> exclusive at' (gd_readiness (dl_guarded s')) d n.
Proof.
  intros Hw Hex. destruct at_ as [|[|fact facts] over epoch| | |observed now|rows [|row rest] observed now pending
    |observed now|now|[|row rest] submitted now| |pending|]; simpl in Hw.
  - destruct (negb _); [by simplify_eq|].
    destruct (gd_stop_requested _); simplify_eq; by apply (exclusive_at AtWait).
  - simplify_eq. destruct over; [|by apply (exclusive_at (AtFacts [] false epoch))].
    by apply (exclusive_closed 1 (AtFacts [] true epoch) _ s); [apply overflow_closes| |].
  - by apply (exclusive_recover 2 _ _ _ _ _ _ _ d n Hw (processFact_closes env fact s)) in Hex.
  - simplify_eq. by apply (exclusive_closed 1 AtExpire _ s); [apply expire_closes| |].
  - simplify_eq. unfold pump_begin. destruct (_ || _)%bool; by apply (exclusive_at AtPump).
  - destruct (listFireRetainedDeliveries _) as [rows|what]; [simplify_eq; by apply (exclusive_at (AtList observed now))|].
    by apply (exclusive_recover 0 _ _ _ _ _ _ _ d n Hw (closes_same 0 s s eq_refl)) in Hex.
  - simplify_eq. apply (exclusive_same (AtRetained rows [] observed now pending) _ (gd_readiness (dl_guarded s)));
      try done; [|by destruct pending]. pose proof (ex_release _ _ _ _ Hex) as Hrel. simpl in *.
    rewrite Hrel. by destruct pending.
  - pose proof (retained_row_closes env now row s) as Hk.
    destruct (pump_retained_row _ _ _ _ _) as [p r].
    by apply (exclusive_recover 1 _ _ _ _ _ _ _ d n Hw Hk) in Hex.
  - destruct (beginLifecycleRelease _ _ _) as [r|] eqn:Hb; simplify_eq;
      [|by apply (exclusive_at (AtRelease observed now))].
    unfold beginLifecycleRelease in Hb. destruct (_ || _)%bool; [done|].
    destruct (negb _ || _)%bool eqn:Hc; [done|]. simplify_eq. apply orb_false_elim in Hc as [_ Hz%negb_false_iff].
    pose proof (all_zero_idle _ _ _ _ Hex Hz) as ->. simpl.
    by apply (exclusive_same (AtRelease observed now) _ (gd_readiness (dl_guarded s))).
  - destruct (listPendingFireLifecycleDeliveries _ _) as [rows|what];
      [simplify_eq; by apply (exclusive_at (AtListLifecycle now))|].
    apply (exclusive_recover 0 _ _ AtWait _ (endLifecycleRelease s) _ _ d n Hw); try done;
      [by apply closes_same|by apply (exclusive_end (AtListLifecycle now))].
  - simplify_eq. by apply (exclusive_end (AtLifecycle [] submitted now)).
  - pose proof (lifecycle_row_closes env now submitted row s) as Hk.
    destruct (pump_lifecycle_row _ _ _ _ _ _) as [sub [s1 [what|]]]; simpl in *.
    + apply (exclusive_closed 1 _ (AtLifecycle [] submitted now) _ _ d n Hk) in Hex; [|done].
      apply (exclusive_recover 0 _ _ AtWait _ (endLifecycleRelease s1) _ _ d n Hw); try done;
        [by apply closes_same|by apply (exclusive_end (AtLifecycle [] submitted now))].
    + simplify_eq. by apply (exclusive_closed 1 (AtLifecycle (row :: rest) submitted now) _ s _ d n Hk).
  - destruct (listPendingFireLifecycleDeliveries _ _) as [rows|what];
      [simplify_eq; by apply (exclusive_at AtIdle)|].
    by apply (exclusive_recover 0 _ _ _ _ _ _ _ d n Hw (closes_same 0 s s eq_refl)) in Hex.
  - simplify_eq. apply (exclusive_same (AtSetIdle pending) _ (gd_readiness (dl_guarded s))); try done.
    apply (ex_release _ _ _ _ Hex).
  - by simplify_eq.
Qed.

Notation step := system_step.
Notation run := system_run.

Lemma enqueue_closes fact g :
  exists k, (k <= 2)%nat /\ gd_readiness (enqueueTransportFact config fact g).2 =
    Nat.iter k failCloseAllReadinessLocked (gd_readiness g).
Proof.
  unfold enqueueTransportFact. destruct (_ || _)%bool; [by exists 0%nat; split; [lia|]|].
  destruct (closes_readiness _); (destruct (_ <=? _)%nat; simpl).
  - by exists 2%nat.
  - exists 1%nat. split; [lia|done].
  - exists 1%nat. split; [lia|done].
  - exists 0%nat. split; [lia|done].
Qed.

(** Leaving a mutation that was counted. *)
Lemma exclusive_lower at_ g channel d n :
  d = DomainWaiting channel \/ d = DomainOpen channel ->
  exclusive at_ (gd_readiness g) d n ->
  exclusive at_ (gd_readiness (lower_depth channel g)) DomainIdle n.
Proof.
  intros Hd Hex. destruct (ex_channel _ _ _ _ Hex channel) as [k Hk]; [naive_solver|].
  pose proof (ex_depth _ _ _ _ Hex channel k Hk) as Hone.
  assert (k = 1%N) as ->.
  { rewrite Hone. destruct Hd as [-> | ->]; simpl; by rewrite bool_decide_eq_true_2. }
  unfold lower_depth. rewrite Hk. destruct Hex as [He Hdep Hch Hop Hre Hrel]. split; simpl; try done.
  - intros ch m Hm. apply lookup_insert_Some in Hm as [[<- <-]|[Hne Hm]]; [done|].
    rewrite (Hdep ch m Hm). destruct Hd as [-> | ->]; simpl; by rewrite bool_decide_eq_false_2.
  - intros ch [?|?]; done.
Qed.

Lemma exclusive_step y op : system_exclusive y -> system_exclusive (step y op).
Proof.
  unfold system_exclusive. intros Hex. set (g := dl_guarded (sy_state y)) in *. destruct op as [env|fact|channel|channel| |env c| | |client|]; simpl; fold g.
  - destruct (worker_step config env (sy_at y) (sy_state y)) as [at' s'] eqn:Hw. simpl.
    by apply (exclusive_worker env (sy_at y) (sy_state y)).
  - destruct (enqueue_closes fact g) as (k & _ & ->).
    destruct (iter_close_fields k (gd_readiness g)) as (H1 & H2 & H3).
    apply (exclusive_same (sy_at y) _ (gd_readiness g)); try done.
    + rewrite H3. apply Hex.
    + apply Hex.
  - unfold notifyOutboxChanged. apply (exclusive_same (sy_at y) _ (gd_readiness g));
      destruct (rd_ready (gd_readiness g) !! channel); try done; apply Hex.
  - destruct (sy_domain y) eqn:Hd; [|rewrite Hd; done..].
    unfold beginDomainMutation. destruct (_ || _)%bool; [by rewrite Hd|].
    destruct (rd_depth (gd_readiness g) !! channel) as [k|] eqn:Hk; [|by rewrite Hd].
    destruct (rd_release (gd_readiness g)) eqn:Hrel; [by rewrite Hd|]. simpl.
    rewrite (ex_release _ _ _ _ Hex) in Hrel.
    assert (k = 0%N) as -> by (rewrite (ex_depth _ _ _ _ Hex channel k Hk); by rewrite ?Hd).
    destruct Hex as [He Hdep Hch Hop Hre Hrl]. split; simpl; try done.
    + intros ch m Hm. apply lookup_insert_Some in Hm as [[<- <-]|[Hne Hm]].
      * by rewrite bool_decide_eq_true_2.
      * rewrite (Hdep ch m Hm), bool_decide_eq_false_2 by done. by rewrite ?Hd.
    + intros ch [[= ->]|?]; [|done]. rewrite lookup_insert_eq. by eexists.
    + congruence.
  - destruct (sy_domain y) as [|channel|channel] eqn:Hd; [by rewrite Hd| |by rewrite Hd].
    unfold finish_begin_mutation. destruct (_ || _)%bool eqn:Hc; simpl.
    + apply (exclusive_lower _ _ _ (sy_domain y)); [auto|by rewrite ?Hd].
    + apply orb_false_elim in Hc as [Hc Hs]. apply negb_false_iff in Hc. unfold mutation_may_proceed in Hc.
      rewrite Hs, orb_false_r in Hc. apply N.eqb_eq in Hc.
      destruct Hex as [He Hdep Hch Hop Hre Hrl]. split; try done.
      * intros ch [?|[= ->]]; [done|]. apply Hch. by left.
      * intros Hr. by specialize (Hrl Hr).
  - destruct (command_enabled y env c); done.
  - destruct (sy_domain y) as [|channel|channel] eqn:Hd; [by rewrite Hd|by rewrite Hd|].
    unfold completeDomainMutation.
    assert (Hex' : exclusive (sy_at y) (gd_readiness (lower_depth channel g))
                     DomainIdle (length (sy_clients y)))
      by (apply (exclusive_lower _ _ _ (sy_domain y)); [auto|by rewrite ?Hd]).
    destruct (ex_channel _ _ _ _ Hex channel) as [k Hk]; [auto|]. rewrite Hk.
    rewrite (ex_depth _ _ _ _ Hex channel k Hk) in *. simpl. rewrite bool_decide_eq_true_2 by done. done.
  - unfold beginRegularEgress. destruct (_ || _)%bool; [done|].
    destruct (negb _ || _)%bool eqn:Hc; [done|]. apply orb_false_elim in Hc as [_ Hz%negb_false_iff].
    simpl. pose proof (all_zero_idle _ _ _ _ Hex Hz) as Hd. rewrite length_app. simpl.
    destruct Hex as [He Hdep Hch Hop Hre Hrl]. split; simpl; try done.
    + rewrite He. lia.
    + intros ch. rewrite Hd. done.
  - destruct (sy_clients y !! client) as [grant|] eqn:Hg; [|done]. simpl.
    unfold completeRegularEgress. pose proof (lookup_lt_Some _ _ _ Hg) as Hlt.
    destruct Hex as [He Hdep Hch Hop Hre Hrl]. rewrite (proj2 (N.eqb_neq _ _)) by lia.
    rewrite length_delete by (by eexists). split; simpl; try done; [lia|].
    intros ch Ho. rewrite (Hop ch Ho). done.
  - unfold request_delivery_stop. destruct (negb _); [done|].
    apply (exclusive_same (sy_at y) _ (gd_readiness g)); try done; apply Hex.
Qed.

Lemma exclusive_run y ops : system_exclusive y -> system_exclusive (run y ops).
Proof. revert y. induction ops as [|op ops IH]; intros y H; [done|]. apply IH, exclusive_step, H. Qed.

(** The actor as it starts. *)
Lemma start_shape stamp db g db' :
  fdc_start config stamp (new_guarded config) db = Ok (true, g, db') ->
  db' = (resetFireInFlightDeliveries stamp db).2 /\
  gd_readiness g = failCloseAllReadinessLocked (gd_readiness (new_guarded config)) /\
  gd_facts g = [] /\ gd_stop_requested g = false.
Proof.
  unfold fdc_start. destruct (_ || _)%bool; [done|]. destruct (_ || _)%bool; [done|].
  destruct (listFireRetainedDeliveries db) as [rows|]; [|done]. cbn [rbind].
  destruct (negb _); [done|]. destruct (existsb _ _); [done|].
  destruct (resetFireInFlightDeliveries stamp db) as [reset db1]. destruct (negb reset); [done|].
  by intros [= <- <-].
Qed.

Lemma started_exclusive stamp db g db' :
  fdc_start config stamp (new_guarded config) db = Ok (true, g, db') ->
  system_exclusive (started_system g db').
Proof.
  intros (_ & Hr & _)%start_shape. unfold system_exclusive. simpl. rewrite Hr. split; simpl; try done.
  - intros channel n Hn. apply elem_of_list_to_map_2 in Hn.
    apply list_elem_of_fmap_1 in Hn as (ch & [= _ ->] & _). done.
  - intros channel [?|?]; done.
Qed.

(** C14 [safety] The readiness boundary excludes. Whatever the threads do after the start: while the
    transaction of a fire mutation is open, no regular message is on its way out, none is
    admitted, and no lifecycle events are released; while lifecycle events are released
    nobody is inside a mutation and none can begin; and a permit for a regular message that
    is still current implies that nobody is inside a mutation. *)
Theorem fire_boundary_excludes stamp db g db' ops y :
  fdc_start config stamp (new_guarded config) db = Ok (true, g, db') ->
  y = run (started_system g db') ops ->
  (forall channel, sy_domain y = DomainOpen channel ->
     sy_clients y = [] /\ releasing (sy_at y) = false /\
     beginRegularEgress (dl_guarded (sy_state y)) = None) /\
  (releasing (sy_at y) = true ->
     sy_domain y = DomainIdle /\
     forall channel, beginDomainMutation channel (dl_guarded (sy_state y)) = None) /\
  (forall grant, isRegularEgressGrantCurrent grant (dl_guarded (sy_state y)) = true ->
     sy_domain y = DomainIdle).
Proof.
  intros Hs ->. pose proof (exclusive_run _ ops (started_exclusive _ _ _ _ Hs)) as Hex.
  unfold system_exclusive in Hex. set (y := run _ ops) in *.
  split; [|split].
  - intros channel Hd. split; [|split].
    + pose proof (ex_open _ _ _ _ Hex channel Hd) as H0. rewrite (ex_egress _ _ _ _ Hex) in H0.
      apply nil_length_inv. lia.
    + destruct (releasing (sy_at y)) eqn:Hr; [|done].
      pose proof (ex_releasing _ _ _ _ Hex Hr). congruence.
    + unfold beginRegularEgress. destruct (_ || _)%bool; [done|].
      destruct (negb _ || _)%bool eqn:Hc; [done|]. apply orb_false_elim in Hc as [_ Hz%negb_false_iff].
      pose proof (all_zero_idle _ _ _ _ Hex Hz). congruence.
  - intros Hr. split; [by apply (ex_releasing _ _ _ _ Hex)|]. intros channel.
    unfold beginDomainMutation. destruct (_ || _)%bool; [done|]. destruct (rd_depth _ !! channel); [|done].
    by rewrite (ex_release _ _ _ _ Hex), Hr.
  - intros grant Hg. unfold isRegularEgressGrantCurrent in Hg. destruct (_ || _)%bool; [done|].
    apply andb_prop in Hg as [_ Hz]. by apply (all_zero_idle _ _ _ _ Hex).
Qed.
End System.
