(* ===== verification/FireDeliveryOrder.v ===== *)
(** The order of the lifecycle events: whatever the threads do, the acknowledged events of a channel
    are its oldest ones, an acknowledged event stays acknowledged, and an acknowledgement was
    received for a publication of exactly that row. *)
From Stdlib Require Import Sorted.
From stdpp Require Import sorting.
From S2P Require Import Prelude SensorProtocol SequencePolicy SlotConfig OccupancyDb FireStore FireService FireInvariant FireTopology FireAlarm FireDelivery FireDeliveryInv FireDeliveryRun.

(** * The lists that the pump reads *)

Lemma read_all_map {R A} (read : string -> R -> result string A) (f : string * R -> A) rows :
  (forall k r, (k, r) ∈ rows -> read k r = Ok (f (k, r))) -> read_all read rows = Ok (f <$> rows).
Proof.
  induction rows as [|[k r] rows IH]; intros H; [done|]. cbn [read_all].
  rewrite (H k r) by by left. cbn [rbind]. rewrite IH; [done|].
  intros k' r' Hin. apply H. by right.
Qed.

Definition record_of (e : string * FireOutboxRow) : FireOutboxRecord := delivery_of e.1 e.2.

Section Lists.
Variable bs : list FireChannelBinding.

Lemma read_selected db p before :
  fire_ok bs db ->
  read_all readDelivery (sort_rows before (select_rows p (fd_outbox db))) =
    Ok (record_of <$> sort_rows before (select_rows p (fd_outbox db))).
Proof.
  intros Hok. apply (read_all_map _ record_of). intros k r.
  rewrite (sort_rows_perm _ _), select_rows_elem. intros [Hr _].
  apply readDelivery_ok. by apply (fk_outbox _ _ Hok k r).
Qed.

Lemma lifecycle_before_revision a b :
  lifecycle_before a b = true -> fo_fire_revision a.2 <= fo_fire_revision b.2.
Proof.
  unfold lifecycle_before. destruct (Z.compare_spec (fo_fire_revision a.2) (fo_fire_revision b.2)); lia || done.
Qed.

Lemma text_before_total a b : text_before a b = true \/ text_before b a = true.
Proof.
  unfold text_before. rewrite (String.compare_antisym b a). destruct (String.compare a b); auto.
Qed.

#[local] Instance lifecycle_before_total : Total (fun a b => lifecycle_before a b = true).
Proof.
  intros a b. unfold lifecycle_before.
  rewrite (Z.compare_antisym (fo_fire_revision a.2) (fo_fire_revision b.2)).
  destruct (Z.compare (fo_fire_revision a.2) (fo_fire_revision b.2)); simpl; auto.
  rewrite (String.compare_antisym (fo_created_at b.2) (fo_created_at a.2)).
  destruct (String.compare (fo_created_at a.2) (fo_created_at b.2)); simpl; auto.
  apply text_before_total.
Qed.

Definition revision_le (a b : FireOutboxRecord) : Prop := (fob_fireRevision a <= fob_fireRevision b)%N.

Lemma sorted_records l :
  StronglySorted revision_le (record_of <$> sort_rows lifecycle_before l).
Proof.
  apply Sorted_StronglySorted; [intros a b c; unfold revision_le; lia|].
  unfold sort_rows.
  assert (Hs : Sorted (fun a b => lifecycle_before a b = true)
    (merge_sort (fun a b => lifecycle_before a b = true) l)).
  { eapply Sorted_merge_sort. exact lifecycle_before_total. }
  induction Hs as [|a m Hs IH Hhd]; [constructor|]. simpl. constructor; [done|].
  destruct Hhd as [|b m Hab]; [constructor|]. constructor. unfold revision_le, record_of. simpl.
  apply lifecycle_before_revision in Hab. lia.
Qed.

(** ** The lifecycle events that are left to publish *)

Record lifecycle_at (db : FireDb) (rest : list FireOutboxRecord) (submitted : list string) : Prop := {
  la_sorted : StronglySorted revision_le rest;
  la_records : forall d, d ∈ rest -> of_outbox bs db d /\ fob_sinkKind d = LifecycleEvent /\
    (fob_channelId d ∉ submitted -> unsettled db d);
  la_all : forall b k, b ∈ bs -> fcb_channelId b ∉ submitted ->
    is_Some (fd_outbox db !! lifecycle_key (fcb_channelId b) k) ->
    ~ acked db (lifecycle_key (fcb_channelId b) k) ->
    exists d, d ∈ rest /\ lifecycle_of_channel b k d
}.

Lemma list_pending db :
  fire_ok bs db -> exists rows, listPendingFireLifecycleDeliveries db None = Ok rows /\ lifecycle_at db rows [].
Proof.
  intros Hok. unfold listPendingFireLifecycleDeliveries. rewrite (fk_open _ _ Hok). cbn [negb].
  rewrite read_selected by done. eexists. split; [done|].
  assert (Hsel : forall e, e ∈ sort_rows lifecycle_before (select_rows (fun _ r =>
      bool_decide (fo_sink_kind r = "LIFECYCLE_EVENT") &&
      negb (bool_decide (fo_delivery_state r = "ACKED")) && true) (fd_outbox db)) <->
    fd_outbox db !! e.1 = Some e.2 /\ fo_sink_kind e.2 = "LIFECYCLE_EVENT" /\
    fo_delivery_state e.2 <> "ACKED").
  { intros [k r]. rewrite (sort_rows_perm _ _), select_rows_elem. simpl.
    rewrite andb_true_r, andb_true_iff, negb_true_iff, bool_decide_eq_true, bool_decide_eq_false. done. }
  split.
  - apply sorted_records.
  - intros d ((k & r) & -> & (Hr & Hk & Ha)%Hsel)%list_elem_of_fmap_1. simpl in *.
    split; [by apply row_record|]. split; [unfold record_of, delivery_of; simpl; by rewrite Hk|].
    intros _ _ (r' & Hr' & Ha'). unfold record_of in Hr'. simpl in Hr'. congruence.
  - intros b k Hb _ [r Hr] Ha. exists (record_of (lifecycle_key (fcb_channelId b) k, r)).
    destruct (fk_outbox _ _ Hok _ _ Hr) as [_ (b' & sr & _ & _ & _ & Hcase)].
    destruct Hcase as [(He & _)|(k' & Hk2 & _ & He & Hl)];
      [by destruct (retained_not_lifecycle _ _ _ (eq_sym He))|].
    apply lifecycle_key_inj in He as [Hch ->]. rewrite <- Hch in Hl. destruct Hl as (Hs & Hc & _ & _ & Hrev). split.
    + apply list_elem_of_fmap_2, Hsel. simpl. split; [done|]. split; [done|].
      intros Hst. apply Ha. by exists r.
    + unfold lifecycle_of_channel, record_of, delivery_of. simpl. by rewrite Hs, Hc, Hrev, N2Z.id.
Qed.

Lemma lifecycle_at_calm db db' rest submitted :
  calm bs db db' -> lifecycle_at db rest submitted -> lifecycle_at db' rest submitted.
Proof.
  intros [Hd Hs _] [H1 H2 H3]. split; [done| |].
  - intros d Hin. destruct (H2 d Hin) as (Ho & Hk & Hu).
    split; [by apply (of_outbox_step bs db)|]. split; [done|]. intros Hno.
    by apply (unsettled_acks bs db); auto.
  - intros b k Hb Hno [r' Hr'] Ha. apply H3; try done.
    + pose proof (ds_rows _ _ Hd (lifecycle_key (fcb_channelId b) k)) as Hrow. rewrite Hr' in Hrow.
      destruct (fd_outbox db !! _); [by eexists|done].
    + intros Hacked. apply Ha. by apply Hs.
Qed.

(** The first row of a channel that is still open may be published. *)
Lemma head_publishable w db log d rest submitted :
  bindings_ok bs -> worker_ok bs w db log -> lifecycle_at db (d :: rest) submitted ->
  fob_channelId d ∉ submitted -> hasLifecycleInFlight (fob_channelId d) w = false ->
  publishable bs w db d.
Proof.
  intros Hbs Hok [Hsort Hrec Hall] Hnew Hfree.
  destruct (Hrec d (list_elem_of_here _ _)) as (Hout & Hk & Hun). split; [done|]. split; [auto|].
  intros _. split; [done|]. intros b k j Hb (_ & Hch & Hrev & Hkey & _) Hj.
  destruct Hout as (b0 & Hb0 & [row Hrow] & _). rewrite Hkey in Hrow.
  destruct (fk_channels _ _ (wo_db _ _ _ _ Hok) b Hb) as [s Hs].
  pose proof (lifecycle_row_bound bs db b s k (wo_db _ _ _ _ Hok) Hb Hs ltac:(by eexists)) as Hbound.
  destruct (co_lifecycle _ _ _ Hs j) as (rj & Hrj & _); [lia|].
  destruct (decide (fo_delivery_state rj = "ACKED")) as [Ha|Ha]; [by exists rj|exfalso].
  destruct (Hall b j) as (d' & Hd' & (_ & _ & Hrev' & _)); try done; [congruence| |].
  - intros (r' & Hr' & Ha'). unfold lifecycle_key in *. congruence.
  - apply StronglySorted_inv in Hsort as [_ Hmin]. rewrite Forall_forall in Hmin.
    apply elem_of_cons in Hd' as [->|Hd']; [lia|]. specialize (Hmin d' Hd'). unfold revision_le in Hmin. lia.
Qed.

(** The retained rows, each with the revision that the database has. *)
Definition retained_revision (db : FireDb) (channel : string) (rev : N) : Prop :=
  exists row, fd_outbox db !! retainedDeliveryId channel = Some row /\
    fo_fire_revision row = Z.of_N rev.

Lemma list_retained db :
  fire_ok bs db -> exists rows, listFireRetainedDeliveries db = Ok rows /\
    forall d, d ∈ rows -> of_outbox bs db d /\ fob_sinkKind d = RetainedState /\
      retained_revision db (fob_channelId d) (fob_fireRevision d).
Proof.
  intros Hok. unfold listFireRetainedDeliveries. rewrite (fk_open _ _ Hok). cbn [negb].
  rewrite read_selected by done. eexists. split; [done|].
  intros d ((k & r) & -> & Hin)%list_elem_of_fmap_1.
  rewrite (sort_rows_perm _ _), select_rows_elem in Hin. destruct Hin as [Hr Hk%bool_decide_eq_true].
  split; [by apply row_record|]. split; [by apply delivery_of_retained|].
  destruct (fk_outbox _ _ Hok _ _ Hr) as [(_ & _ & Hrev & _) (b & sr & _ & Hch & _ & Hcase)].
  exists r. simpl in *. destruct Hcase as [(He & _)|(k' & _ & _ & _ & Hl & _)]; [|simpl in *; congruence].
  rewrite Hch, <- He. split; [done|]. lia.
Qed.

(** * What a step may do to the acknowledgements *)

Record progress (db : FireDb) (log : list DeliveryEvent) (db' : FireDb) (log' : list DeliveryEvent)
    : Prop := {
  pg_keep : forall b k, b ∈ bs -> acked db (lifecycle_key (fcb_channelId b) k) ->
    acked db' (lifecycle_key (fcb_channelId b) k);
  pg_new : forall key row, fd_outbox db' !! key = Some row -> fo_delivery_state row = "ACKED" ->
    (exists row0, fd_outbox db !! key = Some row0 /\ fo_delivery_state row0 = "ACKED" /\
       fo_fire_revision row0 = fo_fire_revision row) \/
    (exists epoch message rev, fo_fire_revision row = Z.of_N rev /\
       Acked epoch message key rev ∈ log');
  pg_log : forall e, e ∈ log -> e ∈ log'
}.

Lemma progress_refl db log : progress db log db log.
Proof. split; eauto. Qed.

Lemma progress_trans db1 log1 db2 log2 db3 log3 :
  progress db1 log1 db2 log2 -> progress db2 log2 db3 log3 -> progress db1 log1 db3 log3.
Proof.
  intros [H1 H2 H3] [H4 H5 H6]. split; auto. intros key row Hr Ha.
  destruct (H5 key row Hr Ha) as [(r2 & Hr2 & Ha2 & He)|Hnew]; [|by right].
  destruct (H2 key r2 Hr2 Ha2) as [(r1 & Hr1 & Ha1 & He1)|(e & m & rev & He1 & Hin)].
  - left. exists r1. split; [done|]. split; [done|congruence].
  - right. exists e, m, rev. split; [congruence|auto].
Qed.

Lemma progress_log db log db' log' log'' :
  progress db log db' log' -> (forall e, e ∈ log' -> e ∈ log'') -> progress db log db' log''.
Proof.
  intros Hp Hl. apply (progress_trans _ _ db' log'); [done|]. split; eauto.
Qed.

(** Steps that keep the contents and the states of the rows keep the revisions. *)
Lemma delivery_step_revision db db' key row row' :
  delivery_step db db' -> fd_outbox db !! key = Some row -> fd_outbox db' !! key = Some row' ->
  fo_fire_revision row = fo_fire_revision row'.
Proof.
  intros Hd Hr Hr'. destruct (delivery_step_row _ _ _ _ Hd Hr) as (r & Hr2 & Hs).
  assert (r = row') as -> by congruence. apply same_contents_fields in Hs. naive_solver.
Qed.

Lemma calm_progress db db' log : calm bs db db' -> progress db log db' log.
Proof.
  intros [Hd Hs Hn]. split; [intros b k Hb; by apply Hs| |done].
  intros key row Hr Ha. left. destruct (Hn key) as (r0 & Hr0 & Ha0); [by exists row|].
  exists r0. split; [done|]. split; [done|]. by apply (delivery_step_revision db db' key).
Qed.

Lemma written_progress b db db' log :
  outbox_written bs b db db' -> progress db log db' log.
Proof.
  intros (k & rowR & rowL & Hb & Ho & HpR & HpL & Hfree & _). split; [|intros key row Hr Ha|done].
  - intros b' j Hb' (r & Hr & Ha). exists r. rewrite Ho. split; [|done].
    rewrite lookup_insert_ne by (intros E; rewrite E in Hfree; congruence).
    rewrite lookup_insert_ne by apply retained_not_lifecycle. done.
  - left. rewrite Ho in Hr. apply lookup_insert_Some in Hr as [[_ <-]|[_ Hr]]; [congruence|].
    apply lookup_insert_Some in Hr as [[_ <-]|[_ Hr]]; [congruence|]. by exists row.
Qed.

(** An acknowledgement is logged. *)
Lemma acknowledge_progress stamp key rev db log e m :
  progress db log (acknowledgeFireDelivery stamp key rev db).2 (log ++ [Acked e m key rev]).
Proof.
  split; [intros b k _; apply acknowledge_keeps| |intros x Hx; apply elem_of_app; by left].
  intros key' row. unfold acknowledgeFireDelivery.
  match goal with |- context [update_delivery ?d ?k ?r ?p ?f] =>
    destruct (update_delivery_cases d k r p f) as [->|(row0 & Hrow & Hrev & _ & ->)] end;
    [by left; exists row|]. simpl. intros Hr Ha. apply lookup_insert_Some in Hr as [[<- <-]|[_ Hr]].
  - right. exists e, m, rev. split; [done|]. apply elem_of_app. right. by left.
  - left. by exists row.
Qed.
End Lists.

(** * The steps *)

Section Order.
Context {JL : JsonLibrary}.
Variable isoString : time_point -> string.
Variable signal_dump : json -> result string string.
Variable fire_config : FireConfig.
Variable config : DeliveryConfig.
Variable bs : list FireChannelBinding.
Hypothesis Hbs : bindings_ok bs.
Hypothesis Hiso : forall t, isoString t <> "".
Hypothesis Hdump : forall j t, signal_dump j = Ok t -> t <> "".

Notation step := (system_step isoString signal_dump fire_config config bs).
Notation run := (system_run isoString signal_dump fire_config config bs).
Notation state_ok := (state_ok bs).

(** What the worker's local variables promise. *)
Definition at_ok (at_ : WorkerAt) (db : FireDb) : Prop :=
  match at_ with
  | AtRetained _ rest _ _ _ =>
      forall d, d ∈ rest -> of_outbox bs db d /\ fob_sinkKind d = RetainedState
  | AtLifecycle rest submitted _ => lifecycle_at bs db rest submitted
  | _ => True
  end.

Definition moves (s s' : DeliveryState) : Prop :=
  progress bs (dl_db s) (dl_log s) (dl_db s') (dl_log s').

Lemma moves_calm s s' :
  calm bs (dl_db s) (dl_db s') -> (forall e, e ∈ dl_log s -> e ∈ dl_log s') -> moves s s'.
Proof. intros Hc Hl. by apply (progress_log bs _ (dl_log s) _ (dl_log s)); [apply calm_progress|]. Qed.
Lemma moves_same s s' : dl_db s' = dl_db s -> dl_log s' = dl_log s -> moves s s'.
Proof. intros Hd Hl. unfold moves. rewrite Hd, Hl. apply progress_refl. Qed.

(** The log only grows. *)
Lemma disconnect_log stamp epoch reason s : dl_log (disconnectEpoch stamp epoch reason s) = dl_log s.
Proof. unfold disconnectEpoch. by destruct (epoch =? 0)%N, (dv_active_epoch (dl_worker s) =? epoch)%N. Qed.
Lemma schedule_all_log env channels s :
  dl_log (foldl (fun s channel => scheduleRetry config env channel s) s channels) = dl_log s.
Proof. revert s. induction channels as [|ch channels IH]; intros s; [done|]. simpl. by rewrite IH. Qed.

Lemma publish_log env d s e : e ∈ dl_log s -> e ∈ dl_log (fire_publish config env d s).1.
Proof.
  intros He. unfold fire_publish. destruct (markFireDeliveryInFlight _ _ _ _). destruct (negb _); [done|].
  cbv zeta. destruct (te_publish _ _ _ _); [|done]. destruct (negb _); [done|].
  destruct (_ !! _); simpl; rewrite ?disconnect_log; apply elem_of_app; by left.
Qed.

Lemma recover_log env reason s e : e ∈ dl_log s -> e ∈ dl_log (recoverActorFailure config env reason s).
Proof.
  intros He. unfold recoverActorFailure. destruct (_ =? 0)%N; simpl; rewrite schedule_all_log; simpl.
  - done.
  - rewrite disconnect_log. apply elem_of_app. by left.
Qed.

Lemma recover_moves env reason s : state_ok s -> moves s (recoverActorFailure config env reason s).
Proof. intros Hok. apply moves_calm; [by apply recover_calm|]. intros e. apply recover_log. Qed.

Lemma processFact_moves env fact s : state_ok s -> moves s (processFact env fact s).1.
Proof.
  intros Hok. assert (Hdis : forall epoch reason, moves s (disconnectEpoch (te_stamp env) epoch reason s)).
  { intros. apply moves_calm; [by apply disconnect_calm|]. by rewrite disconnect_log. }
  unfold processFact. destruct (mf_kind fact); try (by apply moves_same).
  - destruct (_ <? _)%N; [by apply moves_same|]. destruct (_ && _)%bool; [|by apply moves_same].
    apply Hdis.
  - destruct (_ =? _)%N; [apply Hdis|by apply moves_same].
  - destruct (_ && _)%bool; by apply moves_same.
  - destruct (negb _); [by apply moves_same|]. destruct (_ !! _) as [a|]; [|by apply moves_same].
    pose proof (acknowledge_progress bs (te_stamp env) (fob_deliveryKey (fat_delivery a))
      (fob_fireRevision (fat_delivery a)) (dl_db s) (dl_log s) (mf_epoch fact) (mf_messageId fact)) as Hp.
    destruct (acknowledgeFireDelivery _ _ _ _) as [acknowledged db]. simpl in Hp.
    destruct (_ && _)%bool; [|done]. by destruct (getFireDelivery _ _).
  - destruct (_ =? _)%N; [apply Hdis|by apply moves_same].
Qed.

(** The invariant after a step that may have thrown. *)
Definition good (at_ : WorkerAt) (s s' : DeliveryState) : Prop :=
  state_ok s' /\ at_ok at_ (dl_db s') /\ moves s s'.

Lemma recovered_good env next r s at' s' :
  or_recover config env next r = (at', s') -> state_ok r.1 -> moves s r.1 ->
  (r.2 = None -> at_ok next (dl_db r.1)) -> good at' s s'.
Proof.
  unfold or_recover. destruct r as [s1 [what|]]; simpl; intros [= <- <-] Hok Hm Hat.
  - split; [by apply recoverActorFailure_ok|]. split; [done|].
    eapply progress_trans; [exact Hm|by apply recover_moves].
  - split; [done|]. split; [by apply Hat|done].
Qed.

Lemma at_ok_calm at_ db db' : calm bs db db' -> at_ok at_ db -> at_ok at_ db'.
Proof.
  intros Hc. destruct at_ as [| | | | |rows rest ? ? ?| | |rest submitted ?| | |]; try done; simpl.
  - intros H d Hd. destruct (H d Hd) as [H1 H2]. split; [by apply (of_outbox_calm bs db)|done].
  - by apply lifecycle_at_calm.
Qed.

(** One row of the loop over the retained states. *)
Lemma retained_row_good env now row s :
  publisher_ok env -> state_ok s -> of_outbox bs (dl_db s) row -> fob_sinkKind row = RetainedState ->
  let r := (pump_retained_row config env now row s).2 in
  state_ok r.1 /\ moves s r.1 /\ calm bs (dl_db s) (dl_db r.1).
Proof.
  intros Henv Hok Hout Hk.
  assert (Hpub : publishable bs (dl_worker s) (dl_db s) row)
    by (split; [done|]; split; [intros Hl|intros Hl]; congruence).
  pose proof (fire_publish_ok bs config env row s Henv Hok Hpub) as H1.
  pose proof (fire_publish_calm bs config env row s Hok Hpub) as H2.
  assert (Hidle : state_ok s /\ moves s s /\ calm bs (dl_db s) (dl_db s))
    by (split; [done|]; split; [by apply moves_same|apply calm_refl]).
  assert (Hp : state_ok (fire_publish config env row s).1 /\ moves s (fire_publish config env row s).1 /\
               calm bs (dl_db s) (dl_db (fire_publish config env row s).1)).
  { split; [done|]. split; [|done]. apply moves_calm; [done|]. intros e. apply publish_log. }
  unfold pump_retained_row. destruct (dv_synced _ !! _) as [rev|]; [destruct (_ =? _)%N; [done|]|];
    by destruct (_ || _)%bool.
Qed.

(** One row of the loop over the lifecycle events. *)
Lemma lifecycle_row_good env now submitted row rest s :
  publisher_ok env -> state_ok s -> lifecycle_at bs (dl_db s) (row :: rest) submitted ->
  let '(submitted', r) := pump_lifecycle_row config env now submitted row s in
  state_ok r.1 /\ moves s r.1 /\ lifecycle_at bs (dl_db r.1) rest submitted'.
Proof.
  intros Henv Hok Hat.
  assert (Hdrop : forall db sub, (forall ch, ch ∈ submitted -> ch ∈ sub) -> fob_channelId row ∈ sub ->
            lifecycle_at bs db (row :: rest) submitted -> lifecycle_at bs db rest sub).
  { intros db sub Hsub Hin [Hs Hr Ha]. apply StronglySorted_inv in Hs as [Hs _]. split; [done| |].
    - intros d Hd. destruct (Hr d (list_elem_of_further _ _ _ Hd)) as (H1 & H2 & H3).
      split; [done|]. split; [done|]. intros Hno. apply H3. auto.
    - intros b k Hb Hno Hrow Hna. destruct (Ha b k Hb ltac:(auto) Hrow Hna) as (d & Hd & Hl).
      apply elem_of_cons in Hd as [->|Hd]; [|by exists d]. destruct Hl as (_ & Hch & _).
      rewrite <- Hch in Hno. done. }
  unfold pump_lifecycle_row. case_bool_decide as Hin.
  { split; [done|]. split; [by apply moves_same|]. by apply Hdrop. }
  assert (Hnew : forall db, lifecycle_at bs db (row :: rest) submitted ->
            lifecycle_at bs db rest (fob_channelId row :: submitted)).
  { intros db. apply Hdrop; [intros ch Hch; by right|by left]. }
  destruct (retryDeferred _ _ _); [split; [done|]; split; [by apply moves_same|auto]|].
  destruct (hasLifecycleInFlight _ _) eqn:Hfree; [split; [done|]; split; [by apply moves_same|auto]|].
  pose proof (head_publishable bs _ _ _ row rest submitted Hbs Hok Hat Hin Hfree) as Hpub. cbn [orb].
  pose proof (fire_publish_calm bs config env row s Hok Hpub) as Hc.
  split; [by apply fire_publish_ok|]. split; [apply moves_calm; [done|]; intros e; apply publish_log|].
  apply Hnew. by apply (lifecycle_at_calm bs (dl_db s)).
Qed.

Lemma worker_good env at_ s at' s' :
  publisher_ok env -> worker_step config env at_ s = (at', s') ->
  state_ok s -> at_ok at_ (dl_db s) -> good at' s s'.
Proof.
  intros Henv Hw Hok Hat. assert (Hsame : moves s s) by by apply moves_same.
  destruct at_ as [|[|fact facts] over epoch| | |observed now|rows [|row rest] observed now pending
    |observed now|now|[|row rest] submitted now| |pending|]; simpl in Hw.
  - destruct (negb _); [by simplify_eq|]. destruct (gd_stop_requested _); simplify_eq; [|done].
    split; [by apply requeueAllInflight_ok|]. split; [done|].
    apply moves_calm; [by apply requeue_calm|done].
  - simplify_eq. destruct over; [|done]. split; [by apply handle_overflow_ok|]. split; [done|].
    unfold handle_overflow. destruct (_ =? 0)%N; [done|]. destruct (_ =? _)%N; simpl.
    + apply moves_calm; [by apply disconnect_calm|]. simpl. rewrite disconnect_log.
      intros e He. apply elem_of_app. by left.
    + apply moves_calm; [apply calm_refl|]. intros e He. apply elem_of_app. by left.
  - eapply recovered_good; [exact Hw|by apply processFact_ok|by apply processFact_moves|done].
  - simplify_eq. split; [by apply expirePubAckDeadline_ok|]. split; [done|].
    unfold expirePubAckDeadline. destruct (_ =? _)%N; [done|]. destruct (existsb _ _); [|done].
    apply moves_calm; [by apply disconnect_calm|]. simpl. rewrite disconnect_log.
    intros e He. apply elem_of_app. by left.
  - simplify_eq. unfold pump_begin. destruct (_ || _)%bool; done.
  - destruct (list_retained bs (dl_db s) (wo_db _ _ _ _ Hok)) as (rows & Hrows & Hall).
    rewrite Hrows in Hw. simplify_eq. split; [done|]. split; [|done]. intros d Hd.
    by destruct (Hall d Hd) as (H1 & H2 & _).
  - simplify_eq. split; [done|]. split; [by destruct pending|done].
  - destruct (Hat row (list_elem_of_here _ _)) as [Hout Hk].
    destruct (retained_row_good env now row s Henv Hok Hout Hk) as (H1 & H2 & Hc).
    destruct (pump_retained_row _ _ _ _ _) as [p r]. simpl in *.
    eapply recovered_good; [exact Hw|done|done|]. intros _ d Hd.
    destruct (Hat d (list_elem_of_further _ _ _ Hd)) as [H3 H4].
    split; [by apply (of_outbox_calm bs (dl_db s))|done].
  - destruct (beginLifecycleRelease _ _ _); simplify_eq; done.
  - destruct (list_pending bs (dl_db s) (wo_db _ _ _ _ Hok)) as (rows & Hrows & Hall).
    rewrite Hrows in Hw. by simplify_eq.
  - by simplify_eq.
  - pose proof (lifecycle_row_good env now submitted row rest s Henv Hok Hat) as Hrow.
    destruct (pump_lifecycle_row _ _ _ _ _ _) as [sub [s1 [what|]]]; simpl in *;
      destruct Hrow as (H1 & H2 & H3).
    + by eapply recovered_good; [exact Hw| | |].
    + by simplify_eq.
  - destruct (list_pending bs (dl_db s) (wo_db _ _ _ _ Hok)) as (rows & Hrows & Hall).
    rewrite Hrows in Hw. by simplify_eq.
  - by simplify_eq.
  - by simplify_eq.
Qed.

(** ** The other threads *)

Lemma same_outbox_of db db' d :
  fd_outbox db' = fd_outbox db -> of_outbox bs db d -> of_outbox bs db' d.
Proof. unfold of_outbox. by intros ->. Qed.
Lemma same_outbox_acks db db' : fd_outbox db' = fd_outbox db -> same_acks bs db db'.
Proof. intros He b k _. unfold acked. by rewrite He. Qed.
Lemma same_outbox_at at_ db db' : fd_outbox db' = fd_outbox db -> at_ok at_ db -> at_ok at_ db'.
Proof.
  intros He. destruct at_ as [| | | | |rows rest ? ? ?| | |rest submitted ?| | |]; try done; simpl.
  - intros H d Hd. destruct (H d Hd). split; [by apply (same_outbox_of db)|done].
  - intros [H1 H2 H3]. split; [done| |].
    + intros d Hd. destruct (H2 d Hd) as (Ho & Hk & Hu). split; [by apply (same_outbox_of db)|].
      split; [done|]. intros Hno. unfold unsettled, acked. rewrite He. by apply Hu.
    + unfold acked. rewrite He. exact H3.
Qed.

Lemma written_of b db db' d : outbox_written bs b db db' -> of_outbox bs db d -> of_outbox bs db' d.
Proof.
  intros (k & rowR & rowL & Hb & Ho & _) (b' & Hb' & Hrow & Hd). exists b'. split; [done|].
  split; [|done]. rewrite Ho. apply lookup_insert_is_Some'. right. apply lookup_insert_is_Some'. by right.
Qed.
Lemma written_acks b db db' : outbox_written bs b db db' -> same_acks bs db db'.
Proof.
  intros Hw b' j Hb'. split; [|by apply (pg_keep _ _ _ _ _ (written_progress bs b db db' [] Hw))].
  intros (r & Hr & Ha). destruct (pg_new _ _ _ _ _ (written_progress bs b db db' [] Hw) _ r Hr Ha)
    as [(r0 & Hr0 & Ha0 & _)|(? & ? & ? & _ & Hin)]; [by exists r0|by apply not_elem_of_nil in Hin].
Qed.

Definition system_good (y : System) : Prop :=
  state_ok (sy_state y) /\ at_ok (sy_at y) (dl_db (sy_state y)) /\ system_exclusive y.

Definition system_moves (y y' : System) : Prop := moves (sy_state y) (sy_state y').

Lemma command_good y env c :
  kind_wf (fc_kind c) -> command_enabled bs y env c = true -> system_good y ->
  let db' := (process_caught isoString signal_dump fire_config bs env c (dl_db (sy_state y))).2 in
  state_ok (set_db (sy_state y) db') /\ at_ok (sy_at y) db' /\
  moves (sy_state y) (set_db (sy_state y) db').
Proof.
  intros Hwf Hen (Hok & Hat & Hex). cbv zeta.
  destruct (command_writes isoString signal_dump fire_config bs Hbs Hiso Hdump env c _
    (wo_db _ _ _ _ Hok) Hwf) as [Hok' Hw].
  set (db' := (process_caught _ _ _ _ _ _ _).2) in *.
  destruct Hw as [He|(Hbound & b & Ht & Hw)].
  - split; [|split].
    + apply (worker_ok_acks bs _ (dl_db (sy_state y))); try done.
      * intros d. by apply same_outbox_of.
      * by apply same_outbox_acks.
    + by apply (same_outbox_at _ (dl_db (sy_state y))).
    + unfold moves. simpl. split; [intros b k _; unfold acked; by rewrite He| |done].
      intros key row. rewrite He. intros Hr Ha. left. by exists row.
  - split; [|split].
    + apply (worker_ok_acks bs _ (dl_db (sy_state y))); try done.
      * intros d. by apply (written_of b).
      * by apply (written_acks b).
    + unfold command_enabled in Hen. destruct (sy_domain y) as [| |ch] eqn:Hd; [by rewrite Hbound in Hen|done|].
      destruct (sy_at y) as [| | | | |rows rest ? ? ?| | |rest submitted ?| | |] eqn:Hat'; try done.
      * intros d Hin. destruct (Hat d Hin). split; [by apply (written_of b (dl_db (sy_state y)))|done].
      * exfalso. pose proof (ex_releasing _ _ _ _ Hex) as Hr. rewrite Hat', Hd in Hr. by specialize (Hr eq_refl).
    + by apply (written_progress bs b).
Qed.

Lemma system_good_step y op :
  system_op_wf op -> system_good y -> system_good (step y op) /\ system_moves y (step y op).
Proof.
  intros Hwf Hgood. pose proof Hgood as (Hok & Hat & Hex).
  assert (Hex' : system_exclusive (step y op)) by by apply exclusive_step.
  assert (Hsame : sy_at (step y op) = sy_at y -> dl_db (sy_state (step y op)) = dl_db (sy_state y) ->
    dl_worker (sy_state (step y op)) = dl_worker (sy_state y) ->
    dl_log (sy_state (step y op)) = dl_log (sy_state y) ->
    system_good (step y op) /\ system_moves y (step y op)).
  { intros Ha Hd Hw Hl. split; [|by apply moves_same]. split; [|split; [|done]].
    - unfold FireDeliveryInv.state_ok. by rewrite Hd, Hw, Hl.
    - by rewrite Ha, Hd. }
  destruct op as [env|fact|channel|channel| |env c| | |client|]; try (by apply Hsame).
  - clear Hsame. unfold system_good, system_moves. simpl in *.
    destruct (worker_step config env (sy_at y) (sy_state y)) as [at' s'] eqn:Hw. simpl in *.
    destruct (worker_good env _ _ _ _ Hwf Hw Hok Hat) as (H1 & H2 & H3). done.
  - apply Hsame; simpl; destruct (sy_domain y); try done; by destruct (beginDomainMutation _ _).
  - apply Hsame; simpl; destruct (sy_domain y) as [|ch|ch]; try done;
      by destruct (finish_begin_mutation _ _).
  - simpl in *. destruct (command_enabled bs y env c) eqn:Hen; [|by apply Hsame].
    destruct (command_good y env c Hwf Hen Hgood) as (H1 & H2 & H3). split; [|done]. done.
  - apply Hsame; simpl; by destruct (sy_domain y).
  - apply Hsame; simpl; by destruct (beginRegularEgress _) as [[? ?]|].
  - apply Hsame; simpl; by destruct (sy_clients y !! client).
Qed.

Lemma system_good_run ops : forall y,
  Forall system_op_wf ops -> system_good y -> system_good (run y ops) /\ system_moves y (run y ops).
Proof.
  induction ops as [|op ops IH]; intros y Hwf Hgood; [split; [done|by apply moves_same]|].
  apply Forall_cons in Hwf as [Hop Hwf]. destruct (system_good_step y op Hop Hgood) as [Hg Hm].
  destruct (IH (step y op) Hwf Hg) as [Hg' Hm']. split; [done|]. by eapply progress_trans.
Qed.

(** The acknowledged lifecycle events of every channel are its oldest. *)
Definition acknowledged_in_order (db : FireDb) : Prop :=
  forall b j k, b ∈ bs -> (2 <= j < k)%N -> acked db (lifecycle_key (fcb_channelId b) k) ->
    acked db (lifecycle_key (fcb_channelId b) j).

Lemma started_good stamp db g db' :
  fire_ok bs db -> acknowledged_in_order db ->
  fdc_start config stamp (new_guarded config) db = Ok (true, g, db') ->
  system_good (started_system g db').
Proof.
  intros Hok Hord Hs. pose proof (started_exclusive _ _ _ _ _ Hs) as Hex.
  apply start_shape in Hs as (-> & _). split; [|done].
  pose proof (reset_step stamp db) as Hd. unfold FireDeliveryInv.state_ok. simpl.
  assert (Hack : forall key, acked (resetFireInFlightDeliveries stamp db).2 key <-> acked db key).
  { intros key. unfold resetFireInFlightDeliveries. rewrite (fk_open _ _ Hok). simpl.
    unfold acked. simpl. unfold update_rows. rewrite lookup_fmap. split.
    - intros (r & Hr & Ha). destruct (fd_outbox db !! key) as [r0|]; [|done]. simpl in Hr.
      exists r0. split; [done|]. injection Hr as <-. case_bool_decide; [done|done].
    - intros (r & -> & Ha). simpl. eexists. split; [done|].
      rewrite bool_decide_eq_false_2 by congruence. done. }
  split; simpl; try done.
  - by apply (fire_ok_delivery bs db).
  - intros b j k Hb Hj. rewrite !Hack. by apply Hord.
  - intros e m key rev Hl. by apply not_elem_of_nil in Hl.
Qed.

(** C10 [safety] Lifecycle events reach the broker in order, one at a time, and are settled only by
    an acknowledgement. Over every interleaving of the worker with the transport, the fire
    service and the regular egress: the acknowledged events of a channel are always its
    oldest ones; an acknowledged event stays acknowledged; at most one lifecycle event of a
    channel is in flight; and a row of the outbox that became acknowledged was published under its
    key and revision, in the epoch and under the message id of an acknowledgement that the transport reported. *)
Theorem fire_lifecycle_in_order stamp db g db' ops later y y' :
  fire_ok bs db -> acknowledged_in_order db ->
  fdc_start config stamp (new_guarded config) db = Ok (true, g, db') ->
  Forall system_op_wf ops -> Forall system_op_wf later ->
  y = run (started_system g db') ops -> y' = run y later ->
  acknowledged_in_order (dl_db (sy_state y')) /\
  (forall b k, b ∈ bs -> acked (dl_db (sy_state y)) (lifecycle_key (fcb_channelId b) k) ->
     acked (dl_db (sy_state y')) (lifecycle_key (fcb_channelId b) k)) /\
  (forall key key' a a', dv_in_flight (dl_worker (sy_state y')) !! key = Some a ->
     dv_in_flight (dl_worker (sy_state y')) !! key' = Some a' ->
     fob_sinkKind (fat_delivery a) = LifecycleEvent -> fob_sinkKind (fat_delivery a') = LifecycleEvent ->
     fob_channelId (fat_delivery a) = fob_channelId (fat_delivery a') -> key = key') /\
  (forall key row, fd_outbox (dl_db (sy_state y')) !! key = Some row -> fo_delivery_state row = "ACKED" ->
     (exists row0, fd_outbox db' !! key = Some row0 /\ fo_delivery_state row0 = "ACKED" /\
        fo_fire_revision row0 = fo_fire_revision row) \/
     exists epoch message rev, fo_fire_revision row = Z.of_N rev /\
       Published epoch message key rev ∈ dl_log (sy_state y') /\
       Acked epoch message key rev ∈ dl_log (sy_state y')).
Proof.
  intros Hok Hord Hs Hops Hlater -> ->.
  destruct (system_good_run ops _ Hops (started_good stamp db g db' Hok Hord Hs)) as [Hg Hm].
  destruct (system_good_run later _ Hlater Hg) as [(Hok' & _) Hm'].
  split; [exact (wo_prefix _ _ _ _ Hok')|]. split; [exact (pg_keep _ _ _ _ _ Hm')|].
  split; [exact (wo_single _ _ _ _ Hok')|].
  intros key row Hr Ha.
  destruct (pg_new _ _ _ _ _ (progress_trans _ _ _ _ _ _ _ Hm Hm') key row Hr Ha)
    as [?|(e & m & rev & He & Hin)]; [by left|right].
  exists e, m, rev. split; [done|]. split; [|done]. by apply (wo_log _ _ _ _ Hok').
Qed.
End Order.
