(* ===== verification/FireDeliveryReady.v ===== *)
(** The readiness of a channel is sound: as long as the delivery actor calls a channel synchronised
    at a revision, the database holds exactly this revision, no mutation of the channel has
    begun, and the broker has acknowledged the retained message of this revision in the
    current connection. *)
From S2P Require Import Prelude SensorProtocol SequencePolicy SlotConfig OccupancyDb FireStore FireService FireInvariant FireTopology FireAlarm FireDelivery FireDeliveryInv FireDeliveryRun FireDeliveryOrder.
From S2P Require Import FireSignals FireQueue.

(** * Closing *)

Lemma iter_close_generation k r :
  (rd_outbox_generation r + N.of_nat k < 2 ^ 64)%N ->
  rd_outbox_generation (Nat.iter k failCloseAllReadinessLocked r) =
    (rd_outbox_generation r + N.of_nat k)%N.
Proof.
  induction k as [|k IH]; intros Hk; simpl; [lia|]. rewrite IH by lia.
  unfold next_outbox_generation. rewrite N.mod_small; lia.
Qed.

Lemma iter_close_ready k r channel :
  rd_ready (Nat.iter (S k) failCloseAllReadinessLocked r) !! channel <> Some true.
Proof.
  simpl. rewrite lookup_fmap. destruct (_ !! channel); simpl; congruence.
Qed.

Section Ready.
Context {JL : JsonLibrary}.
Variable isoString : time_point -> string.
Variable signal_dump : json -> result string string.
Variable fire_config : FireConfig.
Variable config : DeliveryConfig.
Variable bs : list FireChannelBinding.
Hypothesis Hbs : bindings_ok bs.
Hypothesis Hiso : forall t, isoString t <> "".
Hypothesis Hdump : forall j t, signal_dump j = Ok t -> t <> "".

Notation step := (system_step isoString signal_dump fire_config config bs).
Notation run := (system_run isoString signal_dump fire_config config bs).
Notation state_ok := (state_ok bs).
Notation system_good := (system_good bs).

Lemma retained_revision_step db db' channel rev :
  delivery_step db db' -> retained_revision db channel rev -> retained_revision db' channel rev.
Proof.
  intros Hd (row & Hr & He). destruct (delivery_step_row _ _ _ _ Hd Hr) as (row' & Hr' & Hs).
  exists row'. split; [done|]. apply same_contents_fields in Hs. naive_solver congruence.
Qed.

Lemma retained_revision_unique db channel rev rev' :
  retained_revision db channel rev -> retained_revision db channel rev' -> rev = rev'.
Proof. intros (r & Hr & He) (r' & Hr' & He'). assert (r = r') as -> by congruence. lia. Qed.

(** A step of the worker closes the readiness some times, or else keeps what it rests on. *)
Definition keeps (n : nat) (s s' : DeliveryState) : Prop :=
  exists k, (k <= n)%nat /\ closed_by k s s' /\
    (k = 0%nat ->
     (dv_subscriptions_ready (dl_worker s) = true -> dv_subscriptions_ready (dl_worker s') = true) /\
     forall channel rev, dv_synced (dl_worker s) !! channel = Some rev ->
       retained_revision (dl_db s) channel rev -> dv_synced (dl_worker s') !! channel = Some rev).

Lemma keeps_same n s s' :
  dl_guarded s' = dl_guarded s -> dv_synced (dl_worker s') = dv_synced (dl_worker s) ->
  dv_subscriptions_ready (dl_worker s') = dv_subscriptions_ready (dl_worker s) -> keeps n s s'.
Proof.
  intros Hg Hs Hr. exists 0%nat. split; [lia|]. split; [by apply closed_same|].
  intros _. rewrite Hs, Hr. done.
Qed.

Lemma keeps_closed n k s s' : (0 < k <= n)%nat -> closed_by k s s' -> keeps n s s'.
Proof. intros Hk Hc. exists k. split; [lia|]. split; [done|]. lia. Qed.

(** It certainly closes. *)
Definition shuts (n : nat) (s s' : DeliveryState) : Prop :=
  exists k, (0 < k <= n)%nat /\ closed_by k s s'.

Lemma shuts_keeps n s s' : shuts n s s' -> keeps n s s'.
Proof. intros (k & Hk & Hc). by apply (keeps_closed n k). Qed.
Lemma shuts_fail n s s' : closes n s s' -> shuts (S n) s (fail_close s').
Proof.
  intros (k & Hk & H). exists (S k). split; [lia|]. unfold closed_by, fail_close in *. simpl. by rewrite H.
Qed.
Lemma shuts_after n s s' s'' : shuts n s s' -> dl_guarded s'' = dl_guarded s' -> shuts n s s''.
Proof. intros (k & Hk & H) He. exists k. split; [done|]. by apply (closed_after k s s'). Qed.

Lemma keeps_trans j k s1 s2 s3 :
  delivery_step (dl_db s1) (dl_db s2) -> keeps j s1 s2 -> keeps k s2 s3 -> keeps (j + k) s1 s3.
Proof.
  intros Hd (a & Ha & H1 & Hk1) (b & Hb & H2 & Hk2). exists (b + a)%nat. split; [lia|].
  split; [by apply (closed_trans a b s1 s2)|]. intros H0. destruct Hk1 as [Hr1 Hs1]; [lia|].
  destruct Hk2 as [Hr2 Hs2]; [lia|]. split; [auto|]. intros channel rev Hs Hrev.
  apply Hs2; [auto|]. by apply (retained_revision_step (dl_db s1)).
Qed.

Lemma keeps_le m n s s' : (m <= n)%nat -> keeps m s s' -> keeps n s s'.
Proof. intros Hmn (k & Hk & H). exists k. split; [lia|done]. Qed.

Lemma keeps_log n s s' e : keeps n s s' -> keeps n s (log_event s' e).
Proof. intros (k & Hk & Hc & H). exists k. split; [done|]. split; [by apply (closed_after k s s')|done]. Qed.

Lemma keeps_before n s s' s'' :
  dl_guarded s' = dl_guarded s -> dv_synced (dl_worker s') = dv_synced (dl_worker s) ->
  dv_subscriptions_ready (dl_worker s') = dv_subscriptions_ready (dl_worker s) ->
  delivery_step (dl_db s) (dl_db s') -> keeps n s' s'' -> keeps n s s''.
Proof.
  intros Hg Hs Hr Hd H. apply (keeps_trans 0 n s s'); [done|by apply keeps_same|done].
Qed.

Lemma disconnect_keeps stamp epoch reason s : keeps 1 s (disconnectEpoch stamp epoch reason s).
Proof.
  unfold disconnectEpoch. destruct (epoch =? 0)%N; [by apply keeps_same|].
  destruct (_ =? epoch)%N; [by apply shuts_keeps, shuts_fail, closes_same|by apply keeps_same].
Qed.

Lemma recover_keeps env reason s : keeps 2 s (recoverActorFailure config env reason s).
Proof.
  apply shuts_keeps. unfold recoverActorFailure. destruct (_ =? 0)%N.
  - apply (shuts_after 2 s (fail_close (requeueAllInflight (te_stamp env) reason s)));
      [by apply shuts_fail, closes_same|by rewrite schedule_all_guarded].
  - apply (shuts_after 2 s (fail_close (disconnectEpoch (te_stamp env)
      (dv_active_epoch (dl_worker s)) reason s)));
      [apply shuts_fail, disconnect_closes|simpl; by rewrite schedule_all_guarded].
Qed.

Lemma overflow_keeps env epoch s : keeps 1 s (handle_overflow env epoch s).
Proof.
  unfold handle_overflow. destruct (_ =? 0)%N; [by apply keeps_same|]. apply keeps_log.
  destruct (_ =? _)%N; [apply disconnect_keeps|by apply keeps_same].
Qed.

Lemma expire_keeps env s : keeps 1 s (expirePubAckDeadline config env s).
Proof.
  unfold expirePubAckDeadline. destruct (_ =? _)%N; [by apply keeps_same|].
  destruct (existsb _ _); [apply keeps_log, disconnect_keeps|by apply keeps_same].
Qed.

Lemma publish_keeps env d s : keeps 1 s (fire_publish config env d s).1.
Proof.
  unfold fire_publish.
  pose proof (markInFlight_step (te_stamp env) (fob_deliveryKey d) (fob_fireRevision d) (dl_db s)) as Hd.
  destruct (markFireDeliveryInFlight _ _ _ _) as [marked db]. simpl in Hd.
  destruct (negb _); [by apply keeps_same|].
  cbv zeta. destruct (te_publish _ _ _ _); [|by apply keeps_same].
  destruct (negb _); [by apply keeps_same|]. destruct (_ !! _); [|by apply keeps_same].
  apply keeps_log. eapply keeps_before; [| | | |apply disconnect_keeps]; try done.
  simpl. eapply delivery_step_trans; [exact Hd|apply markPending_step].
Qed.

(** An acknowledgement synchronises a channel at the revision of its row. *)
Lemma processFact_keeps env fact s : state_ok s -> keeps 2 s (processFact env fact s).1.
Proof.
  intros Hok. unfold processFact. destruct (mf_kind fact).
  - destruct (_ <? _)%N; [by apply keeps_same|]. apply shuts_keeps.
    destruct (_ && _)%bool; (eapply shuts_after; [apply shuts_fail|]); try done;
      [apply (closes_after 1 s (disconnectEpoch (te_stamp env) (dv_active_epoch (dl_worker s))
        "fresh MQTT epoch connected" s)); [apply disconnect_closes|done] |by apply closes_same].
  - destruct (_ =? _)%N; [|by apply keeps_same]. apply (keeps_le 1); [lia|]. apply disconnect_keeps.
  - by apply keeps_same.
  - destruct (_ && _)%bool; [|by apply keeps_same]. exists 0%nat. split; [lia|].
    split; [by apply closed_same|done].
  - destruct (negb _); [by apply keeps_same|]. destruct (_ !! _) as [a|] eqn:Ha; [|by apply keeps_same].
    destruct (wo_attempt _ _ _ _ Hok _ _ Ha) as ((b & Hb & _ & Hcase) & _).
    pose proof (acknowledge_step (te_stamp env) (fob_deliveryKey (fat_delivery a))
      (fob_fireRevision (fat_delivery a)) (dl_db s)) as Hd.
    destruct (acknowledgeFireDelivery _ _ _ _) as [acknowledged db] eqn:Hack. simpl in Hd.
    destruct (acknowledged && _)%bool eqn:Hret; [|by apply keeps_same].
    apply andb_prop in Hret as [_ Hret%bool_decide_eq_true].
    destruct (getFireDelivery db _) as [current|what] eqn:Hget; [|by apply keeps_same].
    exists 0%nat. split; [lia|]. split; [by apply closed_same|]. intros _. split; [done|].
    intros channel rev Hs Hrev. simpl. destruct current as [row|]; [|done].
    destruct (_ =? _)%N eqn:Heq; [|done]. apply N.eqb_eq in Heq.
    destruct (decide (fob_channelId (fat_delivery a) = channel)) as [<-|Hne];
      [|by rewrite lookup_insert_ne].
    rewrite lookup_insert_eq. f_equal. rewrite <- Heq.
    destruct Hcase as [(_ & Hch & Hkey)|(Hl & _)]; [|congruence].
    assert (Hok' : fire_ok bs db) by (apply (fire_ok_delivery bs (dl_db s)); [done|apply Hok]).
    pose proof (retained_revision_step _ _ _ _ Hd Hrev) as (r & Hr & He).
    rewrite Hch, <- Hkey in Hr. unfold getFireDelivery in Hget.
    rewrite (fk_open _ _ Hok'), (is_empty_false (fob_deliveryKey _)) in Hget by by rewrite Hkey.
    cbn [negb orb] in Hget. rewrite (outbox_row_read bs db _ r Hok' Hr) in Hget.
    injection Hget as <-. unfold delivery_of. simpl. lia.
  - destruct (_ =? _)%N; [|by apply keeps_same]. apply (keeps_le 1); [lia|]. apply disconnect_keeps.
Qed.

(** * The invariant *)

(** The generation that the worker has observed, and the rows that it has read since. *)
Definition observed_at (at_ : WorkerAt) : option N :=
  match at_ with
  | AtList observed _ | AtRetained _ _ observed _ _ | AtRelease observed _ => Some observed
  | _ => None
  end.
Definition rows_at (at_ : WorkerAt) : option (list FireOutboxRecord * N) :=
  match at_ with AtRetained rows _ observed _ _ => Some (rows, observed) | _ => None end.

Record ready_ok (at_ : WorkerAt) (r : Readiness) (w : Delivering) (db : FireDb) (n : nat) : Prop := {
  ry_ready : forall channel, rd_ready r !! channel = Some true -> exists rev,
    rd_depth r !! channel = Some 0%N /\ dv_subscriptions_ready w = true /\
    dv_synced w !! channel = Some rev /\ rd_revision r !! channel = Some rev /\
    retained_revision db channel rev;
  ry_generation : (rd_outbox_generation r <= 4 * N.of_nat n + 1)%N;
  ry_observed : forall observed, observed_at at_ = Some observed ->
    (observed <= rd_outbox_generation r)%N;
  ry_rows : forall rows observed, rows_at at_ = Some (rows, observed) ->
    observed = rd_outbox_generation r -> forall channel row, rd_depth r !! channel = Some 0%N ->
    List.find (fun row => bool_decide (fob_channelId row = channel)) rows = Some row ->
    retained_revision db channel (fob_fireRevision row)
}.

Definition state_ready (at_ : WorkerAt) (s : DeliveryState) (n : nat) : Prop :=
  ready_ok at_ (gd_readiness (dl_guarded s)) (dl_worker s) (dl_db s) n.

(** The worker forgets, or moves on without reading. *)
Definition follows_at (at_ at' : WorkerAt) : Prop :=
  (observed_at at' = None \/ observed_at at' = observed_at at_) /\
  (rows_at at' = None \/ rows_at at' = rows_at at_).

Lemma ready_at at_ at' r w db n m :
  (n <= m)%nat -> follows_at at_ at' -> ready_ok at_ r w db n -> ready_ok at' r w db m.
Proof.
  intros Hn [[Ho|Ho] [Hr|Hr]] []; split; rewrite ?Ho, ?Hr; try done; lia.
Qed.

Lemma ready_keeps at_ at' s s' n :
  (4 * N.of_nat n + 5 < 2 ^ 64)%N -> follows_at at_ at' -> delivery_step (dl_db s) (dl_db s') ->
  keeps 4 s s' -> state_ready at_ s n -> state_ready at' s' (S n).
Proof.
  intros Hn Hfol Hd (k & Hk & Hc & Hz) Hry. unfold state_ready in *.
  apply (ready_at at_ at' _ _ _ (S n) (S n)); [lia|done|]. clear Hfol at'.
  rewrite Hc. simpl. set (r := gd_readiness (dl_guarded s)) in *.
  destruct Hry as [H1 H2 H3 H4].
  destruct (iter_close_fields k r) as (Hdep & _ & _).
  assert (Hg : rd_outbox_generation (Nat.iter k failCloseAllReadinessLocked r)
               = (rd_outbox_generation r + N.of_nat k)%N) by (apply iter_close_generation; lia).
  destruct k as [|k].
  - simpl in *. destruct Hz as [Hsub Hsyn]; [done|]. split; try done; [|lia|].
    + intros channel Hr. destruct (H1 channel Hr) as (rev & Hz & Hs & Hy & Hv & Hrev).
      exists rev. repeat split; auto. by apply (retained_revision_step (dl_db s)).
    + intros rows observed Hat Ho channel row Hz Hf.
      apply (retained_revision_step (dl_db s)); [done|]. by apply (H4 rows observed).
  - split.
    + intros channel Hr. by apply iter_close_ready in Hr.
    + rewrite Hg. lia.
    + intros observed Ho. rewrite Hg. specialize (H3 observed Ho). lia.
    + intros rows observed Hat Ho. exfalso. rewrite Hg in Ho.
      assert (Hobs : observed_at at_ = Some observed) by (destruct at_; try done; by injection Hat as _ ->).
      specialize (H3 observed Hobs). lia.
Qed.

(** Other fields of the readiness do not matter. *)
Lemma ready_fields at_ at' r r' w db n m :
  (n <= m)%nat -> follows_at at_ at' ->
  rd_ready r' = rd_ready r -> rd_revision r' = rd_revision r -> rd_depth r' = rd_depth r ->
  rd_outbox_generation r' = rd_outbox_generation r ->
  ready_ok at_ r w db n -> ready_ok at' r' w db m.
Proof.
  intros Hn Hf H1 H2 H3 H4 Hry. apply (ready_at at_ at' _ _ _ n m Hn Hf).
  destruct Hry. split; rewrite ?H1, ?H2, ?H3, ?H4; done.
Qed.

(** Recomputing from rows that are still current. *)
Lemma recompute_ready rows rest observed now pending at' r w db n m :
  (n <= m)%nat -> observed_at at' = Some observed \/ observed_at at' = None -> rows_at at' = None ->
  ready_ok (AtRetained rows rest observed now pending) r w db n ->
  ready_ok at' (recomputeReadiness rows observed w r) w db m.
Proof.
  intros Hn Hobs Hrows [H1 H2 H3 H4]. split; simpl; [|lia| |by rewrite Hrows].
  - intros channel Hr. rewrite map_lookup_imap in Hr.
    destruct (rd_ready r !! channel) as [old|] eqn:Hold; [|done]. simpl in Hr. injection Hr as Hr%bool_decide_eq_true.
    destruct Hr as [rev Hrev]. exists rev. pose proof Hrev as Hrev0. unfold channel_ready in Hrev.
    destruct (List.find _ rows) as [row|] eqn:Hfind; [|done].
    destruct (dv_synced w !! channel) as [synced|] eqn:Hs; [|done].
    destruct (rd_depth r !! channel) as [depth|] eqn:Hd; [|done].
    destruct (_ && _)%bool eqn:Hc; [|done]. injection Hrev as <-.
    apply andb_prop in Hc as [Hc He%N.eqb_eq]. apply andb_prop in Hc as [Hc Hsub].
    apply andb_prop in Hc as [Hc _]. apply andb_prop in Hc as [Ho%N.eqb_eq Hz%N.eqb_eq]. subst.
    split; [done|]. split; [done|]. split; [congruence|]. split.
    + rewrite lookup_union, map_lookup_imap, Hold. simpl. rewrite Hrev0. by destruct (rd_revision r !! channel).
    + by apply (H4 rows (rd_outbox_generation r) eq_refl eq_refl channel row).
  - intros o Ho. destruct Hobs as [Hobs|Hobs]; rewrite Hobs in Ho; [|done]. injection Ho as <-.
    by apply H3.
Qed.

(** ** The steps of the worker *)

Lemma or_recover_keeps k env next r s :
  delivery_step (dl_db s) (dl_db r.1) -> keeps k s r.1 ->
  keeps (k + 2) s (or_recover config env next r).2.
Proof.
  intros Hd H. unfold or_recover. destruct r as [s' [what|]]; simpl in *.
  - apply (keeps_trans k 2 s s'); [done|done|apply recover_keeps].
  - apply (keeps_le k); [lia|done].
Qed.

(** The delivery columns move and nothing else, also when the step throws. *)
Lemma recover_step env reason s :
  delivery_step (dl_db s) (dl_db (recoverActorFailure config env reason s)).
Proof.
  unfold recoverActorFailure. destruct (_ =? 0)%N; simpl; rewrite schedule_all_db; simpl.
  - apply requeue_step.
  - apply disconnect_step.
Qed.
Lemma or_recover_step env next r s :
  delivery_step (dl_db s) (dl_db r.1) -> delivery_step (dl_db s) (dl_db (or_recover config env next r).2).
Proof.
  intros Hd. unfold or_recover. destruct r as [s' [what|]]; simpl in *; [|done].
  eapply delivery_step_trans; [exact Hd|apply recover_step].
Qed.

(** A step that may have thrown, from a place that observes no more than the next one. *)
Lemma recover_ready k env next r at_ at' s s' n :
  (4 * N.of_nat n + 5 < 2 ^ 64)%N -> (k <= 2)%nat ->
  or_recover config env next r = (at', s') -> delivery_step (dl_db s) (dl_db r.1) -> keeps k s r.1 ->
  follows_at at_ next -> state_ready at_ s n -> state_ready at' s' (S n).
Proof.
  intros Hn Hk Hr Hd Hkeep Hfol Hry.
  pose proof (or_recover_keeps k env next r s Hd Hkeep) as Hk'.
  pose proof (or_recover_step env next r s Hd) as Hd'.
  pose proof (or_recover_at config env next r) as Hat. rewrite Hr in Hk', Hd', Hat. simpl in *.
  apply (ready_keeps at_ _ s); [done| |done|by apply (keeps_le (k + 2)); [lia|]|done].
  destruct Hat as [-> | ->]; [done|]. split; by left.
Qed.

Lemma retained_row_keeps env now row s :
  delivery_step (dl_db s) (dl_db (pump_retained_row config env now row s).2.1) /\
  keeps 1 s (pump_retained_row config env now row s).2.1.
Proof.
  assert (H0 : delivery_step (dl_db s) (dl_db s) /\ keeps 1 s s)
    by (split; [apply delivery_step_refl|by apply keeps_same]).
  unfold pump_retained_row. repeat case_match; try done; (split; [apply publish_step|apply publish_keeps]).
Qed.
Lemma lifecycle_row_keeps env now submitted row s :
  delivery_step (dl_db s) (dl_db (pump_lifecycle_row config env now submitted row s).2.1) /\
  keeps 1 s (pump_lifecycle_row config env now submitted row s).2.1.
Proof.
  assert (H0 : delivery_step (dl_db s) (dl_db s) /\ keeps 1 s s)
    by (split; [apply delivery_step_refl|by apply keeps_same]).
  unfold pump_lifecycle_row. repeat case_match; try done; (split; [apply publish_step|apply publish_keeps]).
Qed.

(** A step that changes nothing that the readiness rests on. *)
Lemma ready_idle at_ at' s s' n :
  follows_at at_ at' -> dl_worker s' = dl_worker s -> dl_db s' = dl_db s ->
  rd_ready (gd_readiness (dl_guarded s')) = rd_ready (gd_readiness (dl_guarded s)) ->
  rd_revision (gd_readiness (dl_guarded s')) = rd_revision (gd_readiness (dl_guarded s)) ->
  rd_depth (gd_readiness (dl_guarded s')) = rd_depth (gd_readiness (dl_guarded s)) ->
  rd_outbox_generation (gd_readiness (dl_guarded s')) =
    rd_outbox_generation (gd_readiness (dl_guarded s)) ->
  state_ready at_ s n -> state_ready at' s' (S n).
Proof.
  intros Hf Hw Hd H1 H2 H3 H4. unfold state_ready. rewrite Hw, Hd. apply ready_fields; try done. lia.
Qed.

Lemma ended_ready at_ s n : state_ready at_ s n -> state_ready at_ (endLifecycleRelease s) n.
Proof. by apply ready_fields; [lia|split; right|..]. Qed.

(** The end of the release and the recovery do not interfere. *)
Lemma schedule_all_ended env channels s :
  foldl (fun s channel => scheduleRetry config env channel s) (endLifecycleRelease s) channels =
  endLifecycleRelease (foldl (fun s channel => scheduleRetry config env channel s) s channels).
Proof. revert s. induction channels as [|ch channels IH]; intros s; [done|]. simpl. by rewrite <- IH. Qed.

Lemma disconnect_ended stamp epoch reason s :
  disconnectEpoch stamp epoch reason (endLifecycleRelease s) =
  endLifecycleRelease (disconnectEpoch stamp epoch reason s).
Proof.
  unfold disconnectEpoch. destruct (epoch =? 0)%N; [done|]. simpl.
  by destruct (dv_active_epoch (dl_worker s) =? epoch)%N.
Qed.

Lemma recover_ended env reason s :
  recoverActorFailure config env reason (endLifecycleRelease s) =
  endLifecycleRelease (recoverActorFailure config env reason s).
Proof.
  unfold recoverActorFailure. cbn [dl_worker endLifecycleRelease set_guarded].
  destruct (dv_active_epoch (dl_worker s) =? 0)%N.
  - rewrite <- schedule_all_ended. done.
  - rewrite disconnect_ended.
    change (fail_close (endLifecycleRelease (disconnectEpoch (te_stamp env)
      (dv_active_epoch (dl_worker s)) reason s))) with (endLifecycleRelease (fail_close (disconnectEpoch
      (te_stamp env) (dv_active_epoch (dl_worker s)) reason s))).
    by rewrite schedule_all_ended.
Qed.

(** The rows that the pump has just read are current. *)
Lemma listed_ready observed now rows s n :
  fire_ok bs (dl_db s) -> listFireRetainedDeliveries (dl_db s) = Ok rows ->
  state_ready (AtList observed now) s n ->
  state_ready (AtRetained rows rows observed now false) s (S n).
Proof.
  intros Hok Hl [H1 H2 H3 H4]. destruct (list_retained bs (dl_db s) Hok) as (rows' & Hl' & Hrows).
  assert (rows' = rows) as -> by congruence. split; [done|lia|done|].
  intros rows' o [= <- <-] _ channel row _ (Hin & Hch)%find_some.
  apply bool_decide_eq_true in Hch as <-. by apply Hrows, list_elem_of_In.
Qed.

Lemma worker_ready env at_ s at' s' n :
  (4 * N.of_nat n + 5 < 2 ^ 64)%N -> worker_step config env at_ s = (at', s') ->
  state_ok s -> state_ready at_ s n -> state_ready at' s' (S n).
Proof.
  intros Hn Hw Hok Hry. assert (Hgone : forall a, observed_at a = None -> rows_at a = None -> follows_at at_ a)
    by (intros a H1 H2; split; by left).
  destruct at_ as [|[|fact facts] over epoch| | |observed now|rows [|row rest] observed now pending
    |observed now|now|[|row rest] submitted now| |pending|]; simpl in Hw.
  - destruct (negb _); [simplify_eq; apply (ready_idle AtWait AtWait s' s'); auto|].
    destruct (gd_stop_requested _); simplify_eq; [|apply (ready_idle AtWait _ s); auto].
    apply (ready_keeps AtWait _ s); auto; [apply requeue_step|by apply keeps_same].
  - simplify_eq. apply (ready_keeps (AtFacts [] over epoch) _ s); auto.
    + destruct over; [|apply delivery_step_refl]. unfold handle_overflow. destruct (_ =? 0)%N; [apply delivery_step_refl|].
      simpl. destruct (_ =? _)%N; [apply disconnect_step|apply delivery_step_refl].
    + apply (keeps_le 1); [lia|]. destruct over; [apply overflow_keeps|by apply keeps_same].
  - eapply (recover_ready 2); [done|lia|exact Hw|apply processFact_step|by apply processFact_keeps| |done].
    by apply Hgone.
  - simplify_eq. apply (ready_keeps AtExpire _ s); auto.
    + unfold expirePubAckDeadline. destruct (_ =? _)%N; [apply delivery_step_refl|].
      destruct (existsb _ _); [apply disconnect_step|apply delivery_step_refl].
    + apply (keeps_le 1); [lia|]. apply expire_keeps.
  - simplify_eq. unfold pump_begin. destruct (_ || _)%bool; [apply (ready_idle AtPump _ s' s'); auto|].
    destruct Hry as [H1 H2 H3 H4]. split; [done|lia| |done]. intros o [= <-]. lia.
  - destruct (list_retained bs (dl_db s) (wo_db _ _ _ _ Hok)) as (rows & Hrows & _). rewrite Hrows in Hw.
    simplify_eq. by apply listed_ready; [apply (wo_db _ _ _ _ Hok)| |].
  - simplify_eq. apply (recompute_ready rows [] observed now pending _ _ _ _ n); [lia| | |done];
      destruct pending; auto.
  - destruct (retained_row_keeps env now row s) as [Hd Hk].
    destruct (pump_retained_row _ _ _ _ _) as [p r]. simpl in *.
    eapply (recover_ready 1); [done|lia|exact Hw|done|done| |exact Hry]. split; by right.
  - destruct (beginLifecycleRelease _ _ _) as [r|] eqn:Hb; simplify_eq;
      [|apply (ready_idle (AtRelease observed now) _ s' s'); auto].
    unfold beginLifecycleRelease in Hb. do 2 (destruct (_ || _)%bool; [done|]). simplify_eq.
    apply (ready_idle (AtRelease observed now) _ s); auto.
  - destruct (list_pending bs (dl_db s) (wo_db _ _ _ _ Hok)) as (rows & Hrows & _). rewrite Hrows in Hw.
    simplify_eq. apply (ready_idle (AtListLifecycle now) _ s' s'); auto.
  - simplify_eq. apply (ready_idle (AtLifecycle [] submitted now) _ s); auto.
  - destruct (lifecycle_row_keeps env now submitted row s) as [Hd Hk].
    destruct (pump_lifecycle_row _ _ _ _ _ _) as [sub [s1 [what|]]]; simpl in *.
    + unfold or_recover in Hw. simpl in Hw. simplify_eq. rewrite recover_ended. apply ended_ready.
      apply (ready_keeps (AtLifecycle (row :: rest) submitted now) _ s); auto.
      * eapply delivery_step_trans; [exact Hd|apply recover_step].
      * apply (keeps_le (1 + 2)); [lia|]. apply (keeps_trans 1 2 s s1); [done|done|apply recover_keeps].
    + simplify_eq. apply (ready_keeps (AtLifecycle (row :: rest) submitted now) _ s); auto.
      apply (keeps_le 1); [lia|done].
  - destruct (list_pending bs (dl_db s) (wo_db _ _ _ _ Hok)) as (rows & Hrows & _). rewrite Hrows in Hw.
    simplify_eq. apply (ready_idle AtIdle _ s' s'); auto.
  - simplify_eq. apply (ready_idle (AtSetIdle pending) _ s); auto.
  - simplify_eq. apply (ready_idle AtEnd AtEnd s' s'); auto.
Qed.

(** ** The other threads *)

Lemma ready_closed k at_ r w db n :
  (4 * N.of_nat n + 5 < 2 ^ 64)%N -> (k <= 4)%nat -> ready_ok at_ r w db n ->
  ready_ok at_ (Nat.iter k failCloseAllReadinessLocked r) w db (S n).
Proof.
  intros Hn Hk Hry. pose (g := mkGuarded r [] true true false false false None).
  pose (s := mkDeliveryState g w db []).
  apply (ready_keeps at_ at_ s (set_guarded s (set_readiness g (Nat.iter k failCloseAllReadinessLocked r))) n);
    [done|split; by right|apply delivery_step_refl| |done].
  exists k. split; [done|]. split; [done|]. intros _. done.
Qed.

(** Invalidating: the channels that stay ready keep their fields. *)
Lemma ready_invalidated at_ r r' w db n :
  (4 * N.of_nat n + 5 < 2 ^ 64)%N -> ready_ok at_ r w db n ->
  rd_outbox_generation r' = next_outbox_generation (rd_outbox_generation r) ->
  (forall channel, rd_ready r' !! channel = Some true -> rd_ready r !! channel = Some true /\
     rd_depth r' !! channel = rd_depth r !! channel /\
     rd_revision r' !! channel = rd_revision r !! channel) ->
  ready_ok at_ r' w db (S n).
Proof.
  intros Hn [H1 H2 H3 H4] Hg Hkeep. unfold next_outbox_generation in Hg. rewrite N.mod_small in Hg by lia.
  split.
  - intros channel Hr. destruct (Hkeep channel Hr) as (Hr0 & -> & ->). by apply H1.
  - rewrite Hg. lia.
  - intros o Ho. rewrite Hg. specialize (H3 o Ho). lia.
  - intros rows o Hat Ho. exfalso. rewrite Hg in Ho.
    assert (Hobs : observed_at at_ = Some o) by (destruct at_; try done; by injection Hat as _ ->).
    specialize (H3 o Hobs). lia.
Qed.

Lemma close_channel_keeps channel r ch :
  rd_ready (close_channel channel r) !! ch = Some true ->
  ch <> channel /\ rd_ready r !! ch = Some true /\
  rd_revision (close_channel channel r) !! ch = rd_revision r !! ch.
Proof.
  simpl. intros [[_ ?]|[Hne Hr]]%lookup_insert_Some; [done|]. split; [done|]. split; [done|].
  by rewrite lookup_insert_ne.
Qed.

(** A channel inside a mutation is not ready. *)
Lemma ready_not_domain at_ r w db n d clients channel ch :
  ready_ok at_ r w db n -> exclusive at_ r d clients ->
  d = DomainWaiting channel \/ d = DomainOpen channel -> rd_depth r !! ch = Some 0%N -> ch <> channel.
Proof.
  intros _ Hex Hd Hz ->. pose proof (ex_depth _ _ _ _ Hex channel 0 Hz) as H.
  destruct Hd as [-> | ->]; simpl in H; by rewrite bool_decide_eq_true_2 in H.
Qed.

Lemma ready_lowered at_ g w db n d clients channel :
  (4 * N.of_nat n + 5 < 2 ^ 64)%N -> ready_ok at_ (gd_readiness g) w db n ->
  exclusive at_ (gd_readiness g) d clients ->
  d = DomainWaiting channel \/ d = DomainOpen channel ->
  ready_ok at_ (gd_readiness (lower_depth channel g)) w db (S n).
Proof.
  intros Hn Hry Hex Hd. unfold lower_depth. destruct (rd_depth (gd_readiness g) !! channel) as [k|] eqn:Hk.
  - apply (ready_invalidated _ (gd_readiness g)); try done. simpl. intros ch Hr. split; [done|]. split; [|done].
    destruct (ry_ready _ _ _ _ _ Hry ch Hr) as (rev & Hz & _).
    pose proof (ready_not_domain _ _ _ _ _ _ _ _ _ Hry Hex Hd Hz). by rewrite lookup_insert_ne.
  - by apply (ready_at at_ at_ _ _ _ n); [lia|split; right|].
Qed.

(** Another database in which the channels outside a mutation have the same retained revisions. *)
Lemma ready_db at_ r w db db' n :
  (forall channel rev, rd_depth r !! channel = Some 0%N -> retained_revision db channel rev ->
     retained_revision db' channel rev) ->
  ready_ok at_ r w db n -> ready_ok at_ r w db' (S n).
Proof.
  intros Hdb [H1 H2 H3 H4]. split; try done; [|lia|].
  - intros channel Hr. destruct (H1 channel Hr) as (rev & Hz & Hs & Hy & Hv & Hrev).
    exists rev. repeat split; auto.
  - intros rows o Hat Ho channel row Hz Hf. apply Hdb; [done|]. by apply (H4 rows o).
Qed.

Lemma system_ready_step y op n :
  (4 * N.of_nat n + 5 < 2 ^ 64)%N -> system_op_wf op -> system_good y ->
  state_ready (sy_at y) (sy_state y) n ->
  state_ready (sy_at (step y op)) (sy_state (step y op)) (S n).
Proof.
  intros Hn Hwf Hgood Hry. pose proof Hgood as (Hok & Hat & Hex).
  assert (Hidle : state_ready (sy_at y) (sy_state y) (S n))
    by (by apply (ready_at (sy_at y) (sy_at y) _ _ _ n); [lia|split; right|]).
  unfold state_ready in *. unfold system_exclusive in Hex.
  destruct op as [env|fact|channel|channel| |env c| | |client|]; simpl.
  - destruct (worker_step config env (sy_at y) (sy_state y)) as [at' s'] eqn:Hw. simpl.
    by apply (worker_ready env (sy_at y) (sy_state y)).
  - destruct (enqueue_closes config fact (dl_guarded (sy_state y))) as (k & Hk & ->).
    apply ready_closed; [done|lia|done].
  - eapply ready_invalidated; [done|exact Hry| |]; unfold notifyOutboxChanged; simpl;
      destruct (rd_ready _ !! channel); try done.
    intros ch Hr%close_channel_keeps. destruct Hr as (_ & ? & ?). done.
  - destruct (sy_domain y) eqn:Hd; try done. unfold beginDomainMutation.
    destruct (_ || _)%bool; [done|]. destruct (rd_depth _ !! channel) as [k|] eqn:Hk; [|done].
    destruct (rd_release _); [done|]. simpl.
    eapply ready_invalidated; [done|exact Hry|done|]. intros ch Hr%close_channel_keeps.
    destruct Hr as (Hne & Hr & Hv). simpl in *. split; [done|]. split; [by rewrite lookup_insert_ne|done].
  - destruct (sy_domain y) as [|channel|channel] eqn:Hd; try done.
    unfold finish_begin_mutation. destruct (_ || _)%bool; simpl; [|done].
    eapply ready_lowered; [done|exact Hry|exact Hex|auto].
  - destruct (command_enabled bs y env c) eqn:Hen; [|done]. simpl. apply (ready_db _ _ _ (dl_db (sy_state y)));
      [|done]. intros channel rev Hz (row & Hr & He).
    destruct (command_writes isoString signal_dump fire_config bs Hbs Hiso Hdump env c _
      (wo_db _ _ _ _ Hok) Hwf) as [_ [Ho|(Hbound & b & Ht & k & rowR & rowL & Hb & Ho & _)]];
      exists row; rewrite Ho; [done|]. split; [|done].
    unfold command_enabled in Hen. destruct (sy_domain y) as [| |ch] eqn:Hd; [by rewrite Hbound in Hen|done|].
    rewrite Ht in Hen. apply andb_prop in Hen as [_ Hch%bool_decide_eq_true].
    rewrite lookup_insert_ne by (intros E; by apply (retained_not_lifecycle _ _ _ (eq_sym E))).
    rewrite lookup_insert_ne; [done|]. intros E%retainedDeliveryId_inj. rewrite Hch in E.
    apply (ready_not_domain _ _ _ _ _ _ _ ch channel Hry Hex); auto.
  - destruct (sy_domain y) as [|channel|channel] eqn:Hd; try done. unfold completeDomainMutation.
    destruct (rd_depth _ !! channel); [|done]. destruct (_ =? 0)%N; [done|]. simpl.
    eapply ready_lowered; [done|exact Hry|exact Hex|auto].
  - unfold beginRegularEgress. do 2 (destruct (_ || _)%bool; [done|]). simpl.
    by eapply ready_fields; [| | | | | |exact Hry]; [lia|split; right|..].
  - destruct (sy_clients y !! client); [|done]. simpl. unfold completeRegularEgress.
    destruct (_ =? 0)%N; [done|]. simpl.
    by eapply ready_fields; [| | | | | |exact Hry]; [lia|split; right|..].
  - unfold request_delivery_stop. destruct (negb _); [done|]. simpl.
    by apply (ready_closed 1); [|lia|].
Qed.

Lemma system_ready_run ops : forall y n,
  (4 * (N.of_nat n + N.of_nat (length ops)) + 1 < 2 ^ 64)%N -> Forall system_op_wf ops ->
  system_good y -> state_ready (sy_at y) (sy_state y) n ->
  state_ready (sy_at (run y ops)) (sy_state (run y ops)) (n + length ops).
Proof.
  induction ops as [|op ops IH]; intros y n Hn Hwf Hgood Hry; simpl in *; [by rewrite Nat.add_0_r|].
  apply Forall_cons in Hwf as [Hop Hwf]. rewrite Nat.add_succ_r. apply (IH (step y op) (S n)); try done; [lia| |].
  - by apply (system_good_step isoString signal_dump fire_config config bs Hbs Hiso Hdump y op Hop).
  - apply system_ready_step; try done. lia.
Qed.

Lemma started_ready stamp db g db' :
  fdc_start config stamp (new_guarded config) db = Ok (true, g, db') ->
  state_ready AtWait (sy_state (started_system g db')) 0.
Proof.
  intros (_ & Hr & _)%start_shape. unfold state_ready. simpl. rewrite Hr. split; try done.
  intros channel Hc. by apply (iter_close_ready 0) in Hc.
Qed.

(** C9 [safety] Readiness is sound. Over every interleaving of the worker with the transport, the fire
    service and the regular egress (fewer than 2^60 steps): while a channel counts as
    synchronised at a revision, this is the revision of its alarm and of its retained row in
    the database, no mutation of the channel has begun, the subscriptions are ready, and the
    broker has acknowledged, in the current connection, a publication of the retained message of exactly this revision. *)
Theorem fire_ready_sound stamp db g db' ops y channel rev :
  fire_ok bs db -> acknowledged_in_order bs db ->
  fdc_start config stamp (new_guarded config) db = Ok (true, g, db') ->
  Forall system_op_wf ops -> (N.of_nat (length ops) < 2 ^ 60)%N ->
  y = run (started_system g db') ops ->
  isRevisionSynchronized channel rev (gd_readiness (dl_guarded (sy_state y))) = true ->
  retained_revision (dl_db (sy_state y)) channel rev /\
  (forall b s, b ∈ bs -> fcb_channelId b = channel -> channel_ok b s (dl_db (sy_state y)) ->
     fas_fireRevision s = rev) /\
  sy_domain y <> DomainWaiting channel /\ sy_domain y <> DomainOpen channel /\
  dv_subscriptions_ready (dl_worker (sy_state y)) = true /\
  dv_active_epoch (dl_worker (sy_state y)) <> 0%N /\
  exists message,
    Published (dv_active_epoch (dl_worker (sy_state y))) message (retainedDeliveryId channel) rev
      ∈ dl_log (sy_state y) /\
    Acked (dv_active_epoch (dl_worker (sy_state y))) message (retainedDeliveryId channel) rev
      ∈ dl_log (sy_state y).
Proof.
  intros Hok Hord Hs Hops Hlen -> Hsync.
  pose proof (started_good config bs stamp db g db' Hok Hord Hs) as Hg.
  pose proof (system_ready_run ops _ 0 ltac:(lia) Hops Hg (started_ready stamp db g db' Hs)) as Hry.
  destruct (system_good_run isoString signal_dump fire_config config bs Hbs Hiso Hdump ops _ Hops Hg)
    as [(Hok' & _ & Hex) _].
  set (y := run _ ops) in *. unfold isRevisionSynchronized in Hsync.
  destruct (rd_ready _ !! channel) as [ready|] eqn:Hr; [|done].
  destruct (rd_revision _ !! channel) as [revision|] eqn:Hv; [|done].
  apply andb_prop in Hsync as [-> ->%N.eqb_eq].
  destruct (ry_ready _ _ _ _ _ Hry channel Hr) as (rev' & Hz & Hsub & Hsy & Hv' & Hrev).
  assert (rev' = rev) as -> by congruence.
  destruct (wo_synced _ _ _ _ Hok' channel rev Hsy) as [Hep (message & Hin)].
  split; [done|]. split; [|split; [|split; [|split; [done|split; [done|]]]]].
  - intros b s Hb <- Hch. destruct (co_retained _ _ _ Hch) as (row & Hrow & Hret).
    apply (retained_revision_unique (dl_db (sy_state y)) (fcb_channelId b)); [|done].
    exists row. split; [done|]. apply Hret.
  - intros Hd. by apply (ready_not_domain _ _ _ _ _ _ _ channel channel Hry Hex); auto.
  - intros Hd. by apply (ready_not_domain _ _ _ _ _ _ _ channel channel Hry Hex); auto.
  - exists message. split; [|done]. by apply (wo_log _ _ _ _ Hok').
Qed.
End Ready.

(** * Examples and witnesses *)

(** The theorems on the fire alarm at concrete inputs: one channel, a JSON library that knows
    three documents, and a broker that takes every publication. Each witness runs the
    definitions and applies its theorem. *)
(** * The parameters *)

Definition demo_signal (detected : bool) (sequence : N) (raw : string) : FireSignal :=
  mkFireSignal "s1" detected 5000000 (Some sequence) BootEpochV2 (Some "boot-1") "lora" raw.
Definition demo_fire : FireSignal := demo_signal true 7 "fire".
Definition demo_clear : FireSignal := demo_signal false 8 "clear".
Definition demo_poison : FireSignal := demo_signal true 7 "poison".

#[local] Instance fire_demo_json : JsonLibrary :=
  {| json_parse := fun text =>
       if String.eqb text "fire" then Ok (signal_document demo_fire)
       else if String.eqb text "clear" then Ok (signal_document demo_clear)
       else Err "parse error";
     json_dump := fun _ => "{}"; json_eqb := fun _ _ => false; json_float_to_int := fun _ => 0 |}.

Definition demo_iso (t : time_point) : string := "2026-01-01T00:00:00Z".
Definition demo_dump (j : json) : result string string :=
  match json_find j "raw_payload" with
  | Some (JString "poison") => Err "invalid UTF-8 byte"
  | Some (JString (String c s)) => Ok (String c s)
  | _ => Ok "{}"
  end.
Lemma demo_iso_some t : demo_iso t <> "".
Proof. done. Qed.
Lemma demo_dump_some j t : demo_dump j = Ok t -> t <> "".
Proof. unfold demo_dump. intros H. repeat (case_match || simplify_eq/=); done. Qed.

Definition demo_config : FireConfig := mkFireConfig "cam-1" "parking/fire" 4 1000.
Definition demo_binding : FireChannelBinding := mkFireChannelBinding "s1" "F01" "parking/fire/F01".
Definition demo_bs : list FireChannelBinding := [demo_binding].
Lemma demo_bs_ok : bindings_ok demo_bs.
Proof. split; apply (bool_decide_unpack _); vm_compute; exact I. Qed.
Lemma demo_bs_some : demo_bs <> [].
Proof. done. Qed.

(** The database after the first start of the service. *)
Definition demo_db : FireDb :=
  match initialize_work demo_iso demo_dump demo_config demo_bs 1000000 (mkFireDb true ∅ ∅ ∅) with
  | Ok (_, db) => db
  | Err _ => mkFireDb true ∅ ∅ ∅
  end.
Lemma demo_initialized :
  initialize_work demo_iso demo_dump demo_config demo_bs 1000000 (mkFireDb true ∅ ∅ ∅)
  = Ok (inr tt, demo_db).
Proof. vm_compute. reflexivity. Qed.
Lemma demo_db_ok : fire_ok demo_bs demo_db.
Proof.
  apply (created_cursors demo_iso demo_dump demo_config demo_bs demo_bs_ok demo_iso_some
           demo_dump_some demo_bs_some 1000000). exact demo_initialized.
Qed.

Definition demo_state (db : FireDb) : FireAlarmStateRecord :=
  match getFireAlarmState db "F01" with
  | Ok (Some s) => s
  | _ => mkFireAlarmStateRecord "" "" "" AlarmResolved "" "" 0 FireUnseen None None "" ""
  end.
Lemma demo_channel db : fire_ok demo_bs db -> channel_ok demo_binding (demo_state db) db.
Proof.
  assert (Hb : demo_binding ∈ demo_bs) by apply list_elem_of_here.
  intros Hok. destruct (fk_channels _ _ Hok demo_binding Hb) as [s H].
  enough (demo_state db = s) as -> by done. unfold demo_state.
  pose proof (channel_get demo_bs demo_bs_ok demo_binding s db Hok Hb H) as Hget.
  change (fcb_channelId demo_binding) with "F01" in Hget. by rewrite Hget.
Qed.

(** * Commands and signals *)

Definition demo_env : FireEnv := mkFireEnv 6000000 (Some true) true.
Definition demo_command (kind : CommandKind) : FireCommand :=
  mkFireCommand kind 1 "F01" 0 0 false.
Definition demo_process (kind : CommandKind) (db : FireDb) : FireCommandResult * FireDb :=
  process_caught demo_iso demo_dump demo_config demo_bs demo_env (demo_command kind) db.

Lemma demo_signal_wf detected n raw : (n <= uint64_max)%N -> signal_wf (demo_signal detected n raw).
Proof. intros Hn k [= <-]. done. Qed.
Lemma demo_in_range detected n raw :
  - 2 ^ 63 <= fsg_occurredAt (demo_signal detected n raw) < 2 ^ 63.
Proof. simpl. lia. Qed.
Lemma demo_accepted raw :
  signal_accepted demo_bs demo_db demo_binding (demo_state demo_db) (demo_signal true 7 raw).
Proof.
  split; [exact demo_db_ok|reflexivity|apply (demo_channel _ demo_db_ok)|by apply demo_signal_wf
         |reflexivity|vm_compute; reflexivity].
Qed.

Example signal_roundtrip_witness :
  serializeSignal demo_dump demo_fire = Ok "fire" /\
  deserializeSignal "fire" = Some (cut_to_millis demo_fire).
Proof.
  split; [reflexivity|].
  apply (signal_roundtrip demo_dump demo_fire "fire");
    [done|by apply demo_signal_wf|apply demo_in_range|reflexivity|reflexivity].
Defined.

Example fire_signal_decides_witness :
  let '(r, db') := demo_process (KindSignal demo_fire) demo_db in
  fcr_retryable r = false /\
  exists s', channel_ok demo_binding s' db' /\ activeLifecycle (fas_desiredLifecycle s') = true.
Proof.
  destruct (demo_process (KindSignal demo_fire) demo_db) as [r db'] eqn:Hp.
  destruct (fire_signal_decides demo_iso demo_dump demo_config demo_bs demo_bs_ok demo_iso_some
    demo_dump_some demo_env (demo_command (KindSignal demo_fire)) demo_fire demo_binding
    (demo_state demo_db) demo_db "fire" r db' (demo_accepted "fire") eq_refl eq_refl eq_refl)
    as (Hr & _ & s' & Hs & Ha & _); [by vm_compute|exact Hp|].
  split; [exact Hr|]. exists s'. split; [exact Hs|exact Ha].
Defined.

Example fire_redelivery_witness :
  let db' := (demo_process (KindSignal demo_fire) demo_db).2 in
  fcr_status (demo_process (KindSignal demo_fire) db').1 = CommandIdempotent.
Proof.
  destruct (demo_process (KindSignal demo_fire) demo_db) as [r db'] eqn:Hp.
  destruct (fire_redelivery demo_iso demo_dump demo_config demo_bs demo_bs_ok demo_iso_some
    demo_dump_some demo_env demo_env (demo_command (KindSignal demo_fire))
    (demo_command (KindSignal demo_fire)) demo_fire 7 demo_binding
    (demo_state demo_db) demo_db "fire" r db' (demo_accepted "fire") eq_refl eq_refl eq_refl)
    as (r' & Hp' & Hs); [apply demo_in_range|reflexivity|reflexivity|reflexivity|by vm_compute|exact Hp|].
  unfold demo_process. cbn [snd]. rewrite Hp'. exact Hs.
Defined.

Lemma stored_revision s db row :
  channel_ok demo_binding s db -> fd_states db !! "F01" = Some row ->
  fs_fire_revision row = Z.of_N (fas_fireRevision s).
Proof. intros H Hrow. pose proof (co_row _ _ _ H) as Hs. simpl in Hs. by simplify_eq. Qed.

Lemma same_revision s s' : alarm_of s = alarm_of s' -> fas_fireRevision s = fas_fireRevision s'.
Proof. unfold alarm_of. intros H. by simplify_eq. Qed.

Example fire_command_step_witness :
  let '(r, db') := demo_process (KindSignal demo_fire) demo_db in
  exists s', channel_ok demo_binding s' db' /\ fcr_status r = DurablyCommitted /\
    fas_fireRevision s' = 2%N /\
    waits db' (retainedDeliveryId "F01") 2 /\
    waits db' (lifecycleDeliveryId (fireEventId "F01" 2)) 2.
Proof.
  destruct (demo_process (KindSignal demo_fire) demo_db) as [r db'] eqn:Hp.
  assert (Hnew : exists row, fd_states db' !! "F01" = Some row /\ fs_fire_revision row = 2).
  { change db' with ((r, db').2). rewrite <- Hp. eexists. split; vm_compute; reflexivity. }
  destruct Hnew as (row & Hrow & Hrev).
  assert (Hold : fas_fireRevision (demo_state demo_db) = 1%N) by (vm_compute; reflexivity).
  destruct (fire_command_step demo_iso demo_dump demo_config demo_bs demo_bs_ok demo_iso_some
    demo_dump_some demo_env (demo_command (KindSignal demo_fire)) demo_db r db' demo_db_ok)
    with (b := demo_binding) (s := demo_state demo_db)
    as (s' & Hs' & [[Hsame _] | (_ & _ & Hnext & Hst & _ & Hret & Hlife)]).
  - by apply demo_signal_wf.
  - exact Hp.
  - by apply list_elem_of_here.
  - apply (demo_channel _ demo_db_ok).
  - exfalso. pose proof (stored_revision s' db' row Hs' Hrow) as Heq.
    rewrite (same_revision _ _ Hsame), Hold, Hrev in Heq. discriminate Heq.
  - exists s'. assert (H2 : fas_fireRevision s' = 2%N) by (rewrite Hnext, Hold; reflexivity).
    rewrite H2 in Hret, Hlife. exact (conj Hs' (conj Hst (conj H2 (conj Hret Hlife)))).
Defined.

(** * Histories *)

Definition demo_history : list FireOp :=
  [FireDo demo_env (demo_command (KindSignal demo_fire));
   FireDo demo_env (demo_command (KindSignal demo_fire));
   FireInFlight "now" (retainedDeliveryId "F01") 2;
   FireDo demo_env (demo_command (KindSignal demo_clear));
   FireInitialize 9000000].
Lemma demo_history_wf : Forall fire_op_wf demo_history.
Proof. repeat constructor; by apply demo_signal_wf. Qed.

Example fire_epochs_once_witness :
  committed_epochs demo_iso demo_dump demo_config demo_bs demo_db demo_history
    = [("s1", ("boot-1", 7%N)); ("s1", ("boot-1", 8%N))] /\
  NoDup (committed_epochs demo_iso demo_dump demo_config demo_bs demo_db demo_history).
Proof.
  split; [vm_compute; reflexivity|].
  exact (fire_epochs_once demo_iso demo_dump demo_config demo_bs demo_bs_ok demo_iso_some
    demo_dump_some demo_bs_some 1000000 demo_db demo_history demo_initialized demo_history_wf).
Defined.

Example fire_history_complete_witness :
  channel_complete (fire_run demo_iso demo_dump demo_config demo_bs demo_db demo_history)
    demo_binding.
Proof.
  destruct (fire_history_complete demo_iso demo_dump demo_config demo_bs demo_bs_ok demo_iso_some
    demo_dump_some demo_bs_some 1000000 demo_db demo_history demo_initialized demo_history_wf)
    as [H _].
  apply H, list_elem_of_here.
Defined.

(** * The queue *)

Definition demo_busy : list FireQueueOp :=
  [QSignal demo_fire; QAcknowledge "F01" "fire-alarm:F01:2"; QManualClear "F01"; QTake 0;
   QWork (mkFireEnv 6000000 (Some true) false) 0; QTake 2000000000;
   QWork demo_env 2000000000].

Example fire_queue_fifo_witness :
  let m := queue_run demo_iso demo_dump demo_config demo_bs (started_machine demo_db) demo_busy in
  fc_id <$> fm_admitted m ≡ₚ fc_id <$> waiting m ++ fm_done m /\
  length (fm_admitted m) = 3%nat /\ length (fm_done m) = 1%nat.
Proof.
  split; [|split; vm_compute; reflexivity].
  destruct (fire_queue_fifo demo_iso demo_dump demo_config demo_bs demo_db demo_busy _ eq_refl)
    as (H & _); [by vm_compute|exact H].
Defined.

Definition demo_machine : FireMachine :=
  queue_run demo_iso demo_dump demo_config demo_bs (started_machine demo_db)
    [QSignal demo_poison; QSignal demo_clear; QTake 0].

Definition demo_later : list FireQueueOp :=
  [QTake 1000000; QTake 2000000000; QWork demo_env 2000000000; QManualClear "F01"; QTake 4000000000].
Definition demo_blocked : FireMachine :=
  queue_run demo_iso demo_dump demo_config demo_bs demo_machine (QWork demo_env 0 :: demo_later).

Example fire_poison_blocks_witness :
  finished_on "F01" demo_blocked = [] /\ length (waiting demo_blocked) = 3%nat.
Proof.
  destruct (fire_poison_blocks demo_iso demo_dump demo_config demo_bs demo_bs_ok demo_iso_some
    demo_dump_some demo_binding demo_poison "invalid UTF-8 byte" eq_refl demo_db
    [QSignal demo_poison; QSignal demo_clear; QTake 0] demo_machine
    (mkFireCommand (KindSignal demo_poison) 1 "F01" 0 0 false) (demo_state demo_db) demo_env 0
    demo_later demo_blocked eq_refl)
    as [_ H].
  - repeat constructor; by apply demo_signal_wf.
  - repeat constructor.
  - by vm_compute.
  - vm_compute. reflexivity.
  - reflexivity.
  - apply demo_accepted.
  - reflexivity.
  - split; [exact H|vm_compute; reflexivity].
Defined.

(** * The delivery actor *)

Definition demo_delivery : DeliveryConfig := mkDeliveryConfig ["F01"] 8 250 10000 1000.

(** While a connection is up the broker takes every publication, under a message id that depends on
    the sink. *)
Definition demo_turn : TurnEnv :=
  mkTurnEnv 1000000000 "now" (fun d correlation epoch =>
    Ok (mkMqttTrackedPublishResult (negb (epoch =? 0)%N) epoch
          (if bool_decide (fob_sinkKind d = RetainedState) then 7 else 9) correlation)).
Definition demo_fact (kind : MqttTransportFactKind) (message : Z) : SystemOp :=
  SysFact (mkMqttTransportFact kind 1 message 0 "" []).
Definition demo_turns (n : nat) : list SystemOp := replicate n (SysWorker demo_turn).

Lemma demo_turn_ok : publisher_ok demo_turn.
Proof.
  intros d c epoch r [= <-]. simpl. destruct (N.eqb_spec epoch 0) as [-> | Hne]; [discriminate|done].
Qed.

Definition demo_started : Guarded * FireDb :=
  match fdc_start demo_delivery "now" (new_guarded demo_delivery) demo_db with
  | Ok (_, g, db) => (g, db)
  | Err _ => (new_guarded demo_delivery, demo_db)
  end.
Lemma demo_started_ok :
  fdc_start demo_delivery "now" (new_guarded demo_delivery) demo_db
  = Ok (true, demo_started.1, demo_started.2).
Proof. vm_compute. reflexivity. Qed.

(** The connection comes up, the retained state is published and acknowledged. *)
Definition demo_sync : list SystemOp :=
  [demo_fact Connected 0; demo_fact SubscriptionsReady 0] ++ demo_turns 12 ++
  [demo_fact PublishAcknowledged 7] ++ demo_turns 12.
(** A fire signal is committed, and its deliveries go out and are acknowledged. *)
Definition demo_alarm : list SystemOp :=
  [SysBegin "F01"; SysBegun; SysCommand demo_env (demo_command (KindSignal demo_fire)); SysComplete] ++
  demo_turns 12 ++ [demo_fact PublishAcknowledged 7] ++ demo_turns 16 ++
  [demo_fact PublishAcknowledged 9] ++ demo_turns 16.
Definition demo_system (ops : list SystemOp) : System :=
  system_run demo_iso demo_dump demo_config demo_delivery demo_bs
    (started_system demo_started.1 demo_started.2) ops.
Lemma demo_system_run ops :
  demo_system ops = system_run demo_iso demo_dump demo_config demo_delivery demo_bs
    (started_system demo_started.1 demo_started.2) ops.
Proof. reflexivity. Qed.
Lemma demo_system_app ops later :
  demo_system (ops ++ later) =
  system_run demo_iso demo_dump demo_config demo_delivery demo_bs (demo_system ops) later.
Proof. apply foldl_app. Qed.

Lemma demo_ops_wf ops :
  forallb (fun op => match op with SysWorker _ | SysCommand _ _ => false | _ => true end) ops = true ->
  Forall system_op_wf ops.
Proof.
  intros H. apply Forall_forall. intros op Hop%list_elem_of_In.
  apply (proj1 (forallb_forall _ _) H) in Hop. by destruct op.
Qed.
Lemma demo_turns_wf n : Forall system_op_wf (demo_turns n).
Proof. apply Forall_replicate, demo_turn_ok. Qed.
Lemma demo_sync_wf : Forall system_op_wf demo_sync.
Proof.
  unfold demo_sync. repeat (apply Forall_app; split); try apply demo_turns_wf; by apply demo_ops_wf.
Qed.
Lemma demo_alarm_wf : Forall system_op_wf demo_alarm.
Proof.
  unfold demo_alarm. repeat (apply Forall_app; split); try apply demo_turns_wf; try by apply demo_ops_wf.
  repeat constructor. by apply demo_signal_wf.
Qed.

(** In a new database no lifecycle event is acknowledged. *)
Lemma demo_unacknowledged : acknowledged_in_order demo_bs demo_db.
Proof.
  assert (Hno : map_Forall (fun _ row => fo_delivery_state row <> "ACKED") (fd_outbox demo_db))
    by (apply (bool_decide_unpack _); vm_compute; exact I).
  intros b j k _ _ (row & Hrow & Hst). by destruct (Hno _ _ Hrow).
Qed.

Example fire_ready_sound_witness :
  let y := demo_system demo_sync in
  isRevisionSynchronized "F01" 1 (gd_readiness (dl_guarded (sy_state y))) = true /\
  retained_revision (dl_db (sy_state y)) "F01" 1.
Proof.
  assert (Hready : isRevisionSynchronized "F01" 1
            (gd_readiness (dl_guarded (sy_state (demo_system demo_sync)))) = true)
    by (vm_compute; reflexivity).
  split; [exact Hready|].
  destruct (fire_ready_sound demo_iso demo_dump demo_config demo_delivery demo_bs demo_bs_ok
    demo_iso_some demo_dump_some "now" demo_db demo_started.1 demo_started.2 demo_sync
    (demo_system demo_sync) "F01" 1 demo_db_ok demo_unacknowledged demo_started_ok demo_sync_wf)
    as [H _]; [vm_compute; reflexivity|apply demo_system_run|exact Hready|exact H].
Defined.

Example fire_lifecycle_in_order_witness :
  let y := demo_system demo_sync in
  let y' := demo_system (demo_sync ++ demo_alarm) in
  acked (dl_db (sy_state y')) (lifecycle_key "F01" 2) /\
  acknowledged_in_order demo_bs (dl_db (sy_state y')).
Proof.
  split; [eexists; split; vm_compute; reflexivity|].
  destruct (fire_lifecycle_in_order demo_iso demo_dump demo_config demo_delivery demo_bs demo_bs_ok
    demo_iso_some demo_dump_some "now" demo_db demo_started.1 demo_started.2 demo_sync demo_alarm
    (demo_system demo_sync) (demo_system (demo_sync ++ demo_alarm)) demo_db_ok demo_unacknowledged
    demo_started_ok demo_sync_wf demo_alarm_wf (demo_system_run demo_sync)
    (demo_system_app demo_sync demo_alarm)) as [H _].
  exact H.
Defined.

Definition demo_open : list SystemOp := [SysBegin "F01"; SysBegun].
Example fire_boundary_excludes_witness :
  let y := demo_system (demo_sync ++ demo_open) in
  sy_domain y = DomainOpen "F01" /\ beginRegularEgress (dl_guarded (sy_state y)) = None.
Proof.
  assert (Hopen : sy_domain (demo_system (demo_sync ++ demo_open)) = DomainOpen "F01")
    by (vm_compute; reflexivity).
  split; [exact Hopen|].
  destruct (fire_boundary_excludes demo_iso demo_dump demo_config demo_delivery demo_bs "now" demo_db
    demo_started.1 demo_started.2 (demo_sync ++ demo_open) (demo_system (demo_sync ++ demo_open))
    demo_started_ok (demo_system_run (demo_sync ++ demo_open))) as [H _].
  exact (proj2 (proj2 (H "F01" Hopen))).
Defined.

(** A disconnection closes the readiness when it is reported; a pump that begins before the actor
    has processed the report opens it again, for a connection that is known to be lost. *)
Definition demo_reopen : list SystemOp :=
  demo_sync ++ demo_turns 1 ++ [SysNotify "F01"] ++ demo_turns 1 ++ [demo_fact Disconnected 0].
Example readiness_reopened :
  isRevisionSynchronized "F01" 1
    (gd_readiness (dl_guarded (sy_state (demo_system demo_reopen)))) = false /\
  isRevisionSynchronized "F01" 1
    (gd_readiness (dl_guarded (sy_state (demo_system (demo_reopen ++ demo_turns 6))))) = true /\
  mf_kind <$> gd_facts (dl_guarded (sy_state (demo_system (demo_reopen ++ demo_turns 6))))
    = [Disconnected].
Proof. repeat split; vm_compute; reflexivity. Qed.
