(* ===== verification/Calendar.v ===== *)
(** The calendar that the C library's [gmtime_r] and [strftime] implement (the proleptic Gregorian
    calendar without leap seconds), and the time texts that the program prints with it. *)
From S2P Require Import Prelude.

(** * Days and dates *)

(** Days since 1970-01-01 of a date, and back. Years are counted from March, so that a leap
    day is the last day of its year; 400 years are 146097 days. *)
Definition days_from_civil (y m d : Z) : Z :=
  let y' := if m <=? 2 then y - 1 else y in
  let era := y' / 400 in
  let yoe := y' mod 400 in
  let doy := (153 * (if m >? 2 then m - 3 else m + 9) + 2) / 5 + d - 1 in
  era * 146097 + (yoe * 365 + yoe / 4 - yoe / 100 + doy) - 719468.

Definition date_of_doe (doe : Z) : Z * Z * Z :=
  let yoe := (doe - doe / 1460 + doe / 36524 - doe / 146096) / 365 in
  let doy := doe - (365 * yoe + yoe / 4 - yoe / 100) in
  let mp := (5 * doy + 2) / 153 in
  (yoe, if mp <? 10 then mp + 3 else mp - 9, doy - (153 * mp + 2) / 5 + 1).
Definition civil_from_days (z : Z) : Z * Z * Z :=
  let z' := z + 719468 in
  let '(yoe, m, d) := date_of_doe (z' mod 146097) in
  (yoe + z' / 146097 * 400 + (if m <=? 2 then 1 else 0), m, d).

Definition days_in_month (y m : Z) : Z :=
  if m =? 2 then (if (y mod 4 =? 0) && (negb (y mod 100 =? 0) || (y mod 400 =? 0)) then 29 else 28)
  else if bool_decide (m ∈ [4; 6; 9; 11]) then 30 else 31.

(** The year of a day within the 400 years, and the month within the year. *)
Lemma year_of_doe doe :
  0 <= doe < 146097 ->
  let yoe := (doe - doe / 1460 + doe / 36524 - doe / 146096) / 365 in
  0 <= yoe < 400 /\
  365 * yoe + yoe / 4 - yoe / 100 <= doe <
    365 * (yoe + 1) + (yoe + 1) / 4 - (yoe + 1) / 100 + (yoe + 1) / 400.
Proof. intros H yoe. subst yoe. Z.to_euclidean_division_equations; lia. Qed.

Lemma month_of_doy doy :
  0 <= doy <= 365 ->
  let mp := (5 * doy + 2) / 153 in
  0 <= mp < 12 /\ (153 * mp + 2) / 5 <= doy /\ (mp < 11 -> doy < (153 * (mp + 1) + 2) / 5).
Proof. intros H mp. subst mp. Z.to_euclidean_division_equations; lia. Qed.

Lemma leap_day yoe :
  0 <= yoe < 400 ->
  365 * yoe + yoe / 4 - yoe / 100 + 365 < 365 * (yoe + 1) + (yoe + 1) / 4 - (yoe + 1) / 100 + (yoe + 1) / 400 ->
  days_in_month (yoe + 1) 2 = 29.
Proof.
  intros Hy H. unfold days_in_month. cbn [Z.eqb Pos.eqb].
  destruct (Z.eqb_spec ((yoe + 1) mod 4) 0), (Z.eqb_spec ((yoe + 1) mod 100) 0),
    (Z.eqb_spec ((yoe + 1) mod 400) 0); try done; exfalso; Z.to_euclidean_division_equations; lia.
Qed.

Lemma month_length y m :
  1 <= m <= 12 -> m <> 2 -> days_in_month y m = if bool_decide (m ∈ [4; 6; 9; 11]) then 30 else 31.
Proof. intros _ H. unfold days_in_month. by rewrite (proj2 (Z.eqb_neq m 2) H). Qed.

(** Evaluates the month sums and the conditions without variables. *)
Ltac closed_values :=
  repeat match goal with
  | H : context [(153 * ?k + 2) / 5] |- _ =>
      let v := eval vm_compute in ((153 * k + 2) / 5) in change ((153 * k + 2) / 5) with v in *
  | |- context [(153 * ?k + 2) / 5] =>
      let v := eval vm_compute in ((153 * k + 2) / 5) in change ((153 * k + 2) / 5) with v
  | |- context [if ?b then _ else _] =>
      let v := eval vm_compute in b in change b with v; cbv iota
  end.

Lemma doe_ok doe :
  0 <= doe < 146097 ->
  let '(yoe, m, d) := date_of_doe doe in
  let y := yoe + (if m <=? 2 then 1 else 0) in
  days_from_civil y m d = doe - 719468 /\ 1 <= m <= 12 /\ 1 <= d <= days_in_month y m.
Proof.
  intros H. unfold date_of_doe. destruct (year_of_doe doe H) as [Hy Hd].
  set (yoe := (doe - _ + _ - _) / 365) in *. set (doy := doe - (365 * yoe + yoe / 4 - yoe / 100)).
  assert (Hdoy : 0 <= doy <= 365) by (subst doy; Z.to_euclidean_division_equations; lia).
  destruct (month_of_doy doy Hdoy) as (Hmp & Hlo & Hhi). set (mp := (5 * doy + 2) / 153) in *.
  assert (Hfrom : forall m, (m =? if mp <? 10 then mp + 3 else mp - 9) = true ->
    days_from_civil (yoe + (if m <=? 2 then 1 else 0)) m (doy - (153 * mp + 2) / 5 + 1) = doe - 719468).
  { intros m Hm. apply Z.eqb_eq in Hm. unfold days_from_civil.
    replace (if m <=? 2 then yoe + (if m <=? 2 then 1 else 0) - 1 else yoe + (if m <=? 2 then 1 else 0))
      with yoe by (destruct (m <=? 2); lia).
    replace (if m >? 2 then m - 3 else m + 9) with mp by (destruct (mp <? 10) eqn:?, (m >? 2) eqn:?; lia).
    rewrite Z.div_small, Z.mod_small by lia. subst doy. lia. }
  split; [by apply Hfrom, Z.eqb_refl|]. clear Hfrom.
  assert (Hm : mp = 0 \/ mp = 1 \/ mp = 2 \/ mp = 3 \/ mp = 4 \/ mp = 5 \/ mp = 6 \/ mp = 7 \/ mp = 8 \/
               mp = 9 \/ mp = 10 \/ mp = 11) by lia.
  destruct (decide (mp = 11)) as [He | Hne].
  - rewrite He in *. change (11 <? 10) with false. cbv iota. change (11 - 9) with 2.
    change (2 <=? 2) with true. cbv iota. change ((153 * 11 + 2) / 5) with 337 in *.
    split; [done|]. split; [lia|].
    destruct (decide (doy = 365)) as [H365 | Hn].
    + rewrite leap_day; [lia|done|]. subst doy. lia.
    + assert (28 <= days_in_month (yoe + 1) 2) by (unfold days_in_month; simpl; destruct (_ && _)%bool; lia).
      lia.
  - assert (Hlt : mp < 11) by lia. specialize (Hhi Hlt). rewrite month_length.
    2,3: destruct (Z.ltb_spec mp 10); lia.
    clearbody mp doy. clear Hmp Hdoy Hd Hy Hne Hlt.
    repeat destruct Hm as [Hm | Hm]; try lia; subst mp; closed_values; lia.
Qed.

Lemma days_from_civil_era era y m d :
  days_from_civil (y + era * 400) m d = days_from_civil y m d + era * 146097.
Proof.
  unfold days_from_civil.
  replace (if m <=? 2 then y + era * 400 - 1 else y + era * 400)
    with ((if m <=? 2 then y - 1 else y) + era * 400) by (destruct (m <=? 2); lia).
  rewrite Z.div_add, Z.mod_add by lia. lia.
Qed.

Lemma days_in_month_era era y m : days_in_month (y + era * 400) m = days_in_month y m.
Proof.
  unfold days_in_month. replace (era * 400) with (era * 100 * 4) by lia.
  rewrite Z.mod_add by lia. replace (era * 100 * 4) with (era * 4 * 100) by lia.
  rewrite Z.mod_add by lia. replace (era * 4 * 100) with (era * 400) by lia.
  by rewrite Z.mod_add by lia.
Qed.

(** Every day has one date, which is a date of the calendar. *)
Lemma civil_roundtrip z :
  let '(y, m, d) := civil_from_days z in
  days_from_civil y m d = z /\ 1 <= m <= 12 /\ 1 <= d <= days_in_month y m.
Proof.
  unfold civil_from_days. set (z' := z + 719468).
  assert (Hb : 0 <= z' mod 146097 < 146097) by (apply Z.mod_pos_bound; lia).
  pose proof (doe_ok _ Hb) as Hok. destruct (date_of_doe (z' mod 146097)) as [[yoe m] d].
  replace (yoe + z' / 146097 * 400 + (if m <=? 2 then 1 else 0))
    with (yoe + (if m <=? 2 then 1 else 0) + z' / 146097 * 400) by lia.
  rewrite days_from_civil_era, days_in_month_era. destruct Hok as (Hd & Hm & Hlen).
  split; [|done]. rewrite Hd. pose proof (Z_div_mod_eq_full z' 146097). lia.
Qed.

(** * Texts *)

Definition pad2 (n : Z) : string := (if n <? 10 then "0" else "") +:+ pretty n.

(** [src/auth/AuthService.cpp:152-163 AuthService::formatUtc] [gmtime_r] has no answer for a year that does
    not fit its 32 bits; the text always fits the buffer. *)
Definition formatUtc (epoch_seconds : Z) : option string :=
  let '(y, m, d) := civil_from_days (epoch_seconds / 86400) in
  let s := epoch_seconds mod 86400 in
  if (y - 1900 <? - 2 ^ 31) || (2 ^ 31 <=? y - 1900) then None else
  Some (pretty y +:+ "-" +:+ pad2 m +:+ "-" +:+ pad2 d +:+ "T" +:+
        pad2 (s / 3600) +:+ ":" +:+ pad2 (s / 60 mod 60) +:+ ":" +:+ pad2 (s mod 60) +:+ "Z").

Example formatUtc_epoch : formatUtc 0 = Some "1970-01-01T00:00:00Z".
Proof. reflexivity. Qed.
Example formatUtc_leap : formatUtc 1709251199 = Some "2024-02-29T23:59:59Z".
Proof. reflexivity. Qed.
Example formatUtc_before : formatUtc (-1) = Some "1969-12-31T23:59:59Z".
Proof. reflexivity. Qed.
