(* ===== verification/Auth.v ===== *)
(** Accounts, sessions and logins: [src/auth/AuthService.cpp] and
    [src/database/EventDatabaseAuth.cpp]. The tables [app_users] and [app_sessions] with the
    operations on them, the table of failed logins, and the operations of the service. A login
    takes the database's and the rate table's locks one after the other, so it is a sequence
    of steps between which other requests, and the administrator's tool, may run. *)
From stdpp Require Import sorting.
From S2P Require Import Prelude Calendar.

(** * libsodium *)

(** [pwhash_str] hashes a password with a random salt ([None]: it failed); [pwhash_str_verify]
    compares a password with such a text; [base642bin] answers the bytes it decoded (at most 32)
    and the position at which it stopped, or [None]. *)
Class Sodium := {
  pwhash_str : string -> string -> option string;
  pwhash_str_verify : string -> string -> bool;
  bin2base64 : list Z -> string;
  base642bin : string -> option (list Z * nat);
  sha256 : list Z -> list Z
}.

(** * Tables *)

(** [include/database/EventDatabase.hpp:72-80 AppUserRecord] *)
Record AppUserRecord := mkAppUserRecord {
  aur_user_id : Z;
  aur_account_id : string;
  aur_password_hash : string;
  aur_display_name : string;
  aur_enabled : bool;
  aur_created_at_utc : Z;
  aur_updated_at_utc : Z
}.

(** [include/database/EventDatabase.hpp:83-88 AppSessionPrincipal] *)
Record AppSessionPrincipal := mkAppSessionPrincipal {
  asp_user_id : Z;
  asp_account_id : string;
  asp_display_name : string;
  asp_expires_at_utc : Z
}.

(** [src/database/EventDatabaseTimer.cpp:543-549 app_users] A row without its key, the user id; the
    account id is unique. *)
Record UserRow := mkUserRow {
  us_account_id : string;
  us_password_hash : string;
  us_display_name : string;
  us_enabled : bool;
  us_created_at_utc : Z;
  us_updated_at_utc : Z
}.

(** [src/database/EventDatabaseTimer.cpp:550-555 app_sessions] A row, found by its unique token hash;
    the session id, which nothing reads, is dropped. *)
Record AuthSessionRow := mkAuthSessionRow {
  se_user_id : Z;
  se_created_at_utc : Z;
  se_expires_at_utc : Z;
  se_revoked_at_utc : option Z
}.

Record AuthDb := mkAuthDb {
  ad_open : bool;
  ad_schema_ready : bool;
  ad_users : gmap Z UserRow;
  ad_sessions : gmap (list Z) AuthSessionRow
}.

Definition with_users (db : AuthDb) (users : gmap Z UserRow) : AuthDb :=
  mkAuthDb (ad_open db) (ad_schema_ready db) users (ad_sessions db).
Definition with_auth_sessions (db : AuthDb) (sessions : gmap (list Z) AuthSessionRow) : AuthDb :=
  mkAuthDb (ad_open db) (ad_schema_ready db) (ad_users db) sessions.

(** [src/database/EventDatabaseAuth.cpp:82-92 readUser] *)
Definition readUser (id : Z) (row : UserRow) : AppUserRecord :=
  mkAppUserRecord id (us_account_id row) (us_password_hash row) (us_display_name row)
    (us_enabled row) (us_created_at_utc row) (us_updated_at_utc row).

Definition find_account (account_id : string) (users : gmap Z UserRow) : option (Z * UserRow) :=
  List.find (fun e => bool_decide (us_account_id e.2 = account_id)) (map_to_list users).

(** [src/database/EventDatabaseAuth.cpp:96-111 EventDatabase::findAppUser] *)
Definition findAppUser (account_id : string) (db : AuthDb) : option AppUserRecord :=
  if is_empty account_id || negb (ad_open db) then None else
  (fun e => readUser e.1 e.2) <$> find_account account_id (ad_users db).

(** A new row takes the key after the largest one. *)
Definition next_user_id (users : gmap Z UserRow) : Z :=
  foldr Z.max 0 (fst <$> map_to_list users) + 1.

(** [src/database/EventDatabaseAuth.cpp:113-141 EventDatabase::createAppUser] The id of the new user; an
    account that exists breaks the unique index. *)
Definition createAppUser (account_id password_hash display_name : string) (now : Z) (db : AuthDb)
    : option Z * AuthDb :=
  if is_empty account_id || is_empty password_hash || negb (ad_open db) then (None, db) else
  match find_account account_id (ad_users db) with
  | Some _ => (None, db)
  | None =>
      let id := next_user_id (ad_users db) in
      (Some id, with_users db (<[id := mkUserRow account_id password_hash display_name true now now]>
                                 (ad_users db)))
  end.

Definition user_before (a b : Z * UserRow) : Prop := a.1 <= b.1.
#[global] Instance user_before_dec a b : Decision (user_before a b).
Proof. unfold user_before. apply _. Defined.

(** [src/database/EventDatabaseAuth.cpp:143-159 EventDatabase::listAppUsers] By user id, without the hashes. *)
Definition listAppUsers (db : AuthDb) : list AppUserRecord :=
  if negb (ad_open db) then [] else
  (fun e => readUser e.1 (mkUserRow (us_account_id e.2) "" (us_display_name e.2) (us_enabled e.2)
                            (us_created_at_utc e.2) (us_updated_at_utc e.2)))
    <$> merge_sort user_before (map_to_list (ad_users db)).

(** [src/database/EventDatabaseAuth.cpp:181-188 EventDatabase::setAppUserEnabled] The same statement as in
    [resetAppUserPassword]: the user's sessions are revoked. *)
Definition revoke_sessions (id now : Z) (sessions : gmap (list Z) AuthSessionRow)
    : gmap (list Z) AuthSessionRow :=
  (fun r => if (se_user_id r =? id) && bool_decide (se_revoked_at_utc r = None)
            then mkAuthSessionRow (se_user_id r) (se_created_at_utc r) (se_expires_at_utc r) (Some now)
            else r) <$> sessions.

(** [src/database/EventDatabaseAuth.cpp:161-195 EventDatabase::setAppUserEnabled] *)
Definition setAppUserEnabled (account_id : string) (enabled : bool) (now : Z) (db : AuthDb)
    : bool * AuthDb :=
  if is_empty account_id || negb (ad_open db) then (false, db) else
  match find_account account_id (ad_users db) with
  | None => (false, db)
  | Some (id, row) =>
      let db1 := with_users db (<[id := mkUserRow (us_account_id row) (us_password_hash row)
                                   (us_display_name row) enabled (us_created_at_utc row) now]>
                                  (ad_users db)) in
      (true, if enabled then db1
             else with_auth_sessions db1 (revoke_sessions id now (ad_sessions db1)))
  end.

(** [src/database/EventDatabaseAuth.cpp:197-231 EventDatabase::resetAppUserPassword] *)
Definition resetAppUserPassword (account_id password_hash : string) (now : Z) (db : AuthDb)
    : bool * AuthDb :=
  if is_empty account_id || is_empty password_hash || negb (ad_open db) then (false, db) else
  match find_account account_id (ad_users db) with
  | None => (false, db)
  | Some (id, row) =>
      let db1 := with_users db (<[id := mkUserRow (us_account_id row) password_hash
                                   (us_display_name row) (us_enabled row) (us_created_at_utc row) now]>
                                  (ad_users db)) in
      (true, with_auth_sessions db1 (revoke_sessions id now (ad_sessions db1)))
  end.

(** The sessions that have expired at a time are deleted. *)
Definition cleanup (now : Z) (sessions : gmap (list Z) AuthSessionRow)
    : gmap (list Z) AuthSessionRow :=
  omap (fun r => if se_expires_at_utc r <=? now then None else Some r) sessions.

(** [src/database/EventDatabaseAuth.cpp:233-263 EventDatabase::createAppSession] A token hash that exists, and a
    user that does not, break a constraint; then the cleanup is rolled back as well. *)
Definition createAppSession (user_id : Z) (token_hash : list Z) (created expires : Z) (db : AuthDb)
    : bool * AuthDb :=
  if (user_id <=? 0) || negb (length token_hash =? 32)%nat || (expires <=? created) ||
     negb (ad_open db)
  then (false, db) else
  let sessions := cleanup created (ad_sessions db) in
  match sessions !! token_hash, ad_users db !! user_id with
  | None, Some _ =>
      (true, with_auth_sessions db
               (<[token_hash := mkAuthSessionRow user_id created expires None]> sessions))
  | _, _ => (false, db)
  end.

(** [src/database/EventDatabaseAuth.cpp:265-291 EventDatabase::findActiveAppSession] *)
Definition findActiveAppSession (token_hash : list Z) (now : Z) (db : AuthDb)
    : option AppSessionPrincipal :=
  if negb (length token_hash =? 32)%nat || negb (ad_open db) then None else
  match ad_sessions db !! token_hash with
  | Some s =>
      match ad_users db !! se_user_id s with
      | Some u =>
          if bool_decide (se_revoked_at_utc s = None) && (now <? se_expires_at_utc s) && us_enabled u
          then Some (mkAppSessionPrincipal (se_user_id s) (us_account_id u) (us_display_name u)
                       (se_expires_at_utc s))
          else None
      | None => None
      end
  | None => None
  end.

(** [src/database/EventDatabaseAuth.cpp:293-316 EventDatabase::revokeAppSession] *)
Definition revokeAppSession (token_hash : list Z) (now : Z) (db : AuthDb) : bool * AuthDb :=
  if negb (length token_hash =? 32)%nat || negb (ad_open db) then (false, db) else
  match ad_sessions db !! token_hash with
  | Some s =>
      if bool_decide (se_revoked_at_utc s = None) && (now <? se_expires_at_utc s)
      then (true, with_auth_sessions db
                    (<[token_hash := mkAuthSessionRow (se_user_id s) (se_created_at_utc s)
                                       (se_expires_at_utc s) (Some now)]> (ad_sessions db)))
      else (false, db)
  | None => (false, db)
  end.

(** * Texts *)

(** [src/auth/AuthService.cpp:49-58 AuthService::trim] *)
Definition trim_account (value : string) : string := drop_space_end (drop_space value).

Definition account_char (c : ascii) : bool :=
  islower c || isdigit c || bool_decide (c ∈ ["."; "_"; "-"]%char).

(** [src/auth/AuthService.cpp:60-79 AuthService::normalizeAccountId] *)
Definition normalizeAccountId (account_id : string) : option string :=
  let normalized := smap tolower (trim_account account_id) in
  if (String.length normalized <? 3)%nat || (64 <? String.length normalized)%nat then None else
  match normalized with
  | String c _ => if negb (isalnum c) then None
                  else if sall account_char normalized then Some normalized else None
  | EmptyString => None
  end.

(** [src/auth/AuthService.cpp:81-84 AuthService::validPassword] *)
Definition validPassword (password : string) : bool :=
  (4 <=? String.length password)%nat && (String.length password <=? 1024)%nat.

Definition has_blank (s : string) : bool :=
  negb (sall (fun c => negb (bool_decide (c ∈ [" "; "009"; "013"; "010"]%char))) s).

(** [src/auth/AuthService.cpp:138-150 AuthService::extractBearer] *)
Definition extractBearer (header : string) : option string :=
  if (String.length header <=? 7)%nat || (128 <? String.length header)%nat ||
     negb (String.eqb (String.substring 0 7 header) "Bearer ")
  then None else
  let token := String.substring 7 (String.length header - 7) header in
  if has_blank token then None else Some token.

(** * Failed logins *)

(** [include/auth/AuthService.hpp:17-22 AuthConfig] *)
Record AuthConfig := mkAuthConfig {
  acf_session_ttl_seconds : Z;
  acf_login_window_seconds : Z;
  acf_login_max_failures : Z;
  acf_login_cooldown_seconds : Z
}.

(** [src/auth/AuthService.cpp:35-41 AuthService::AuthService] The configurations that the constructor
    takes. *)
Definition auth_config_valid (c : AuthConfig) : bool :=
  (28800 <=? acf_session_ttl_seconds c) && (acf_session_ttl_seconds c <=? 43200) &&
  (0 <? acf_login_window_seconds c) && (0 <? acf_login_max_failures c) &&
  (0 <? acf_login_cooldown_seconds c).

(** [include/auth/AuthService.hpp:85-89 RateState] *)
Record RateState := mkRateState {
  rt_failures : list Z;
  rt_blocked_until : Z;
  rt_last_seen : Z
}.
Notation RateTable := (gmap string RateState).
Definition new_rate_state : RateState := mkRateState [] 0 0.

Definition kMaximumRateEntries : nat := 4096.

Section Rate.
Variable config : AuthConfig.

Fixpoint drop_until (cutoff : Z) (failures : list Z) : list Z :=
  match failures with
  | t :: rest => if t <=? cutoff then drop_until cutoff rest else failures
  | [] => []
  end.

(** [src/auth/AuthService.cpp:165-170 AuthService::pruneFailures] *)
Definition pruneFailures (now : Z) (state : RateState) : RateState :=
  mkRateState (drop_until (now - acf_login_window_seconds config) (rt_failures state))
    (if rt_blocked_until state <=? now then 0 else rt_blocked_until state) (rt_last_seen state).

(** The first entry that was seen longest ago. *)
Definition oldest_entry (entries : list (string * RateState)) : option (string * RateState) :=
  foldl (fun best e => match best with
                       | Some b => if rt_last_seen e.2 <? rt_last_seen b.2 then Some e else best
                       | None => Some e end) None entries.
Fixpoint evict (fuel : nat) (table : RateTable) : RateTable :=
  match fuel with
  | O => table
  | S fuel =>
      if (size table <? kMaximumRateEntries)%nat then table else
      match oldest_entry (map_to_list table) with
      | Some (key, _) => evict fuel (delete key table)
      | None => table
      end
  end.

(** [src/auth/AuthService.cpp:172-190 AuthService::boundRateTable] Each round of the loop erases an
    entry, so the number of entries is enough fuel. *)
Definition boundRateTable (now : Z) (table : RateTable) : RateTable :=
  let pruned := omap (fun st => let st' := pruneFailures now st in
                      if bool_decide (rt_failures st' = []) && (rt_blocked_until st' =? 0)
                      then None else Some st') table in
  evict (size pruned) pruned.

(** [src/auth/AuthService.cpp:192-205 AuthService::rateLimitRetryAfter] *)
Definition rateLimitRetryAfter (key : string) (now : Z) (table : RateTable)
    : option Z * RateTable :=
  match table !! key with
  | None => (None, table)
  | Some st =>
      let st1 := pruneFailures now st in
      let st2 := mkRateState (rt_failures st1) (rt_blocked_until st1) now in
      (if now <? rt_blocked_until st2
       then Some (Z.min (rt_blocked_until st2 - now) (2 ^ 31 - 1)) else None,
       <[key := st2]> table)
  end.

(** [src/auth/AuthService.cpp:207-216 AuthService::recordFailure] *)
Definition recordFailure (key : string) (now : Z) (table : RateTable) : RateTable :=
  let table1 := match table !! key with None => boundRateTable now table | Some _ => table end in
  let st := pruneFailures now (default new_rate_state (table1 !! key)) in
  let failures := rt_failures st ++ [now] in
  <[key := mkRateState failures
             (if acf_login_max_failures config <=? Z.of_nat (length failures)
              then now + acf_login_cooldown_seconds config else rt_blocked_until st) now]> table1.

(** [src/auth/AuthService.cpp:218-221 AuthService::clearFailures] *)
Definition clearFailures (key : string) (table : RateTable) : RateTable := delete key table.
End Rate.

(** * The service *)

(** [include/auth/AuthService.hpp:24-29 AuthenticatedUser] *)
Record AuthenticatedUser := mkAuthenticatedUser {
  auu_id : Z;
  auu_account_id : string;
  auu_display_name : string;
  auu_expires_at_utc : Z
}.

(** [include/auth/AuthService.hpp:31-37 LoginStatus] *)
Inductive LoginStatus :=
| LoginSuccess | InvalidRequest | InvalidCredentials | RateLimited | LoginUnavailable.
#[global] Instance LoginStatus_eq_dec : EqDecision LoginStatus.
Proof. solve_decision. Defined.

(** [include/auth/AuthService.hpp:39-45 LoginResult] *)
Record LoginResult := mkLoginResult {
  lr_status : LoginStatus;
  lr_access_token : string;
  lr_expires_at : string;
  lr_user : AuthenticatedUser;
  lr_retry_after_seconds : Z
}.
Definition no_user : AuthenticatedUser := mkAuthenticatedUser (-1) "" "" 0.
Definition plain_login (status : LoginStatus) : LoginResult := mkLoginResult status "" "" no_user 0.

(** What happened in the service, oldest first. *)
Inductive AuthEvent :=
| EvAttempt (key : string) (now : Z)
| EvRefused (key : string) (now : Z)
| EvFailure (key : string) (now : Z)
| EvCleared (key : string)
| EvVerified (user : Z) (hash password : string)
| EvSession (digest : list Z) (user created expires : Z)
| EvRevoked (digest : list Z)
| EvDisabled (user : Z)
| EvPassword (user : Z) (hash : string)
| EvRestart.

(** Where a login is: before the user is looked up, before the failure is recorded, before the
    next of three tries to store a session, before the failures are cleared. *)
Inductive LoginAt :=
| LookingUp
| Recording
| Creating (user : AppUserRecord) (attempt : nat)
| Clearing (user : AppUserRecord) (token : string)
| Answered (answer : LoginResult).

Record Login := mkLogin {
  lg_account : string;
  lg_password : string;
  lg_key : string;
  lg_now : Z;
  lg_at : LoginAt
}.
Definition login_at (l : Login) (a : LoginAt) : Login :=
  mkLogin (lg_account l) (lg_password l) (lg_key l) (lg_now l) a.

Record AuthState := mkAuthState {
  as_db : AuthDb;
  as_rate : RateTable;
  as_logins : list Login;
  as_log : list AuthEvent
}.

Section Service.
Context {SO : Sodium}.
Variable config : AuthConfig.
(** The hash that the constructor makes of a password that nobody has. *)
Variable dummy_password_hash : string.

(** [src/auth/AuthService.cpp:114-136 AuthService::tokenDigest] *)
Definition tokenDigest (bearer_token : string) : option (list Z) :=
  if negb (String.length bearer_token =? 43)%nat then None else
  match base642bin bearer_token with
  | Some (raw, stop) =>
      if (length raw =? 32)%nat && (stop =? String.length bearer_token)%nat
      then Some (sha256 raw) else None
  | None => None
  end.

(** [src/auth/AuthService.cpp:103-112 AuthService::generateToken] From 32 random bytes. *)
Definition generateToken (random : list Z) : string := bin2base64 random.

(** [src/auth/AuthService.cpp:223-246 AuthService::login] Up to the rate limit. *)
Definition login_begin (account_id password source_ip : string) (now : Z) (y : AuthState)
    : AuthState :=
  let answer account key rate r log :=
    mkAuthState (as_db y) rate (as_logins y ++ [mkLogin account password key now (Answered r)]) log in
  if negb (ad_open (as_db y) && ad_schema_ready (as_db y))
  then answer account_id "" (as_rate y) (plain_login LoginUnavailable) (as_log y) else
  match normalizeAccountId account_id, validPassword password with
  | Some normalized, true =>
      let key := (if is_empty source_ip then "unknown" else source_ip) +:+ String "010" normalized in
      let '(retry, rate) := rateLimitRetryAfter config key now (as_rate y) in
      match retry with
      | Some seconds => answer normalized key rate (mkLoginResult RateLimited "" "" no_user seconds)
                          (as_log y ++ [EvRefused key now])
      | None => mkAuthState (as_db y) rate
                  (as_logins y ++ [mkLogin normalized password key now LookingUp])
                  (as_log y ++ [EvAttempt key now])
      end
  | _, _ => answer account_id "" (as_rate y) (plain_login InvalidRequest) (as_log y)
  end.

(** [src/auth/AuthService.cpp:248-285 AuthService::login] One step of what follows, with the random bytes of
    a token: where the login is then, the tables, and what happened. *)
Definition login_step (random : list Z) (l : Login) (db : AuthDb) (rate : RateTable)
    : LoginAt * AuthDb * RateTable * list AuthEvent :=
  let expires := lg_now l + acf_session_ttl_seconds config in
  match lg_at l with
  | LookingUp =>
      let user := findAppUser (lg_account l) db in
      let candidate := match user with Some u => aur_password_hash u | None => dummy_password_hash end in
      let matches := pwhash_str_verify candidate (lg_password l) in
      match user with
      | Some u => if aur_enabled u && matches
                  then (Creating u 0, db, rate,
                        [EvVerified (aur_user_id u) (aur_password_hash u) (lg_password l)])
                  else (Recording, db, rate, [])
      | None => (Recording, db, rate, [])
      end
  | Recording =>
      (Answered (plain_login InvalidCredentials), db, recordFailure config (lg_key l) (lg_now l) rate,
       [EvFailure (lg_key l) (lg_now l)])
  | Creating u attempt =>
      let next := if (attempt <? 2)%nat then Creating u (S attempt)
                  else Answered (plain_login LoginUnavailable) in
      let token := generateToken random in
      match tokenDigest token with
      | Some digest =>
          let '(created, db') := createAppSession (aur_user_id u) digest (lg_now l) expires db in
          if created
          then (Clearing u token, db', rate, [EvSession digest (aur_user_id u) (lg_now l) expires])
          else (next, db', rate, [])
      | None => (next, db, rate, [])
      end
  | Clearing u token =>
      let answer :=
        match formatUtc expires with
        | Some text => mkLoginResult LoginSuccess token text
                         (mkAuthenticatedUser (aur_user_id u) (aur_account_id u)
                            (aur_display_name u) expires) 0
        | None => plain_login LoginUnavailable
        end in
      (Answered answer, db, clearFailures (lg_key l) rate, [EvCleared (lg_key l)])
  | Answered r => (Answered r, db, rate, [])
  end.

(** [src/auth/AuthService.cpp:287-302 AuthService::authenticateBearer] *)
Definition authenticateBearer (header : string) (now : Z) (db : AuthDb) : option AuthenticatedUser :=
  match extractBearer header with
  | Some bearer =>
      match tokenDigest bearer with
      | Some digest =>
          (fun p => mkAuthenticatedUser (asp_user_id p) (asp_account_id p) (asp_display_name p)
                      (asp_expires_at_utc p)) <$> findActiveAppSession digest now db
      | None => None
      end
  | None => None
  end.

Definition bearer_digest (header : string) : option (list Z) :=
  match extractBearer header with Some bearer => tokenDigest bearer | None => None end.

(** [src/auth/AuthService.cpp:304-314 AuthService::logoutBearer] *)
Definition logoutBearer (header : string) (now : Z) (db : AuthDb) : bool * AuthDb :=
  match bearer_digest header with
  | Some digest => revokeAppSession digest now db
  | None => (false, db)
  end.

(** [src/auth/AuthService.cpp:316-347 AuthService::addUser] The id of the user, or the message. *)
Definition addUser (account_id password display_name salt : string) (now : Z) (db : AuthDb)
    : result string Z * AuthDb :=
  match normalizeAccountId account_id with
  | None => (Err "account ID format is invalid", db)
  | Some normalized =>
      if negb (validPassword password) then (Err "password must contain at least 4 characters", db) else
      let display := trim_account display_name in
      if (128 <? String.length display)%nat then (Err "display name is too long", db) else
      match pwhash_str salt password with
      | None => (Err "password hashing failed", db)
      | Some hash =>
          match createAppUser normalized hash display now db with
          | (Some id, db') => (Ok id, db')
          | (None, db') => (Err "account already exists or database write failed", db')
          end
      end
  end.

(** [src/auth/AuthService.cpp:353-366 AuthService::setUserEnabled] *)
Definition setUserEnabled (account_id : string) (enabled : bool) (now : Z) (db : AuthDb)
    : result string unit * AuthDb :=
  match normalizeAccountId account_id with
  | None => (Err "account ID format is invalid", db)
  | Some normalized =>
      match setAppUserEnabled normalized enabled now db with
      | (true, db') => (Ok tt, db')
      | (false, db') => (Err "account was not found or database write failed", db')
      end
  end.

(** [src/auth/AuthService.cpp:368-392 AuthService::resetPassword] *)
Definition resetPassword (account_id password salt : string) (now : Z) (db : AuthDb)
    : result string unit * AuthDb :=
  match normalizeAccountId account_id with
  | None => (Err "account ID format is invalid", db)
  | Some normalized =>
      if negb (validPassword password) then (Err "password must contain at least 4 characters", db) else
      match pwhash_str salt password with
      | None => (Err "password hashing failed", db)
      | Some hash =>
          match resetAppUserPassword normalized hash now db with
          | (true, db') => (Ok tt, db')
          | (false, db') => (Err "account was not found or database write failed", db')
          end
      end
  end.

(** ** Requests that interleave *)

Inductive AuthOp :=
| AuLogin (account_id password source_ip : string) (now : Z)
| AuStep (login : nat) (random : list Z)
| AuLogout (header : string) (now : Z)
| AuAddUser (account_id password display_name salt : string) (now : Z)
| AuSetEnabled (account_id : string) (enabled : bool) (now : Z)
| AuReset (account_id password salt : string) (now : Z)
| AuRestart.

Definition user_id_of (account_id : string) (db : AuthDb) : option Z :=
  match normalizeAccountId account_id with
  | Some normalized => fst <$> find_account normalized (ad_users db)
  | None => None
  end.
Definition user_hash (id : Z) (db : AuthDb) : string :=
  match ad_users db !! id with Some row => us_password_hash row | None => "" end.

Definition with_db (y : AuthState) (db : AuthDb) (events : list AuthEvent) : AuthState :=
  mkAuthState db (as_rate y) (as_logins y) (as_log y ++ events).

Definition auth_step (y : AuthState) (op : AuthOp) : AuthState :=
  let db := as_db y in
  match op with
  | AuLogin account password source now => login_begin account password source now y
  | AuStep i random =>
      match as_logins y !! i with
      | Some l =>
          let '(at_, db', rate, events) := login_step random l db (as_rate y) in
          mkAuthState db' rate (<[i := login_at l at_]> (as_logins y)) (as_log y ++ events)
      | None => y
      end
  | AuLogout header now =>
      let '(revoked, db') := logoutBearer header now db in
      with_db y db' (match revoked, bearer_digest header with
                     | true, Some digest => [EvRevoked digest]
                     | _, _ => [] end)
  | AuAddUser account password display salt now =>
      let '(r, db') := addUser account password display salt now db in
      with_db y db' (match r with Ok id => [EvPassword id (user_hash id db')] | Err _ => [] end)
  | AuSetEnabled account enabled now =>
      let '(r, db') := setUserEnabled account enabled now db in
      with_db y db' (match r, user_id_of account db with
                     | Ok _, Some id => if enabled then [] else [EvDisabled id]
                     | _, _ => [] end)
  | AuReset account password salt now =>
      let '(r, db') := resetPassword account password salt now db in
      with_db y db' (match r, user_id_of account db with
                     | Ok _, Some id => [EvPassword id (user_hash id db')]
                     | _, _ => [] end)
  | AuRestart => mkAuthState db ∅ [] (as_log y ++ [EvRestart])
  end.
Definition auth_run (y : AuthState) (ops : list AuthOp) : AuthState := foldl auth_step y ops.

(** The service on new tables. *)
Definition auth_start : AuthState := mkAuthState (mkAuthDb true true ∅ ∅) ∅ [] [].
End Service.
