(* ===== verification/AuthSafety.v ===== *)
(** What a session is worth: the sessions of the database against the history of the service, the
    origin of each session, and the lock-out after failed logins. *)
From S2P Require Import Prelude Calendar Auth.

(** * Sessions of a history *)

(** What ends a session: its logout, the disabling of its user, a new password, and a later login
    that removes what has expired. *)
Definition ends (digest : list Z) (user expires : Z) (e : AuthEvent) : Prop :=
  match e with
  | EvRevoked d => d = digest
  | EvDisabled u | EvPassword u _ => u = user
  | EvSession _ _ created _ => expires <= created
  | _ => False
  end.
Definition live (log : list AuthEvent) (digest : list Z) (user created expires : Z) : Prop :=
  exists pre post, log = pre ++ EvSession digest user created expires :: post /\
    Forall (fun e => ~ ends digest user expires e) post.

(** The hash of the password that a user was given last. *)
Definition last_password (log : list AuthEvent) (user : Z) : option string :=
  foldl (fun found e => match e with
                        | EvPassword u hash => if bool_decide (u = user) then Some hash else found
                        | _ => found end) None log.

Lemma live_snoc log x d u c e :
  live (log ++ [x]) d u c e <->
  (live log d u c e /\ ~ ends d u e x) \/ x = EvSession d u c e.
Proof.
  split.
  - intros (pre & post & H & Hno). apply snoc_split in H as [(-> & -> & <-) | (post' & -> & ->)].
    + by right.
    + left. apply Forall_app in Hno as [Hno Hx]. inversion Hx; subst. split; [|done]. by exists pre, post'.
  - intros [[(pre & post & -> & Hno) Hx] | ->].
    + exists pre, (post ++ [x]). split; [by rewrite app_comm_cons, app_assoc|].
      apply Forall_app. split; [done|by constructor].
    + by exists log, [].
Qed.

Lemma live_other log x d u c e :
  (forall d' u' c' e', x <> EvSession d' u' c' e') -> ~ ends d u e x ->
  live (log ++ [x]) d u c e <-> live log d u c e.
Proof.
  intros Hx Hno. rewrite live_snoc. split; [intros [[H _] | He]; [done|by apply Hx in He]|by left].
Qed.

Lemma last_password_snoc log x user :
  last_password (log ++ [x]) user =
  match x with
  | EvPassword u hash => if bool_decide (u = user) then Some hash else last_password log user
  | _ => last_password log user
  end.
Proof. unfold last_password. by rewrite foldl_app. Qed.

Section Sessions.
Context {SO : Sodium}.
Variable config : AuthConfig.
Variable dummy : string.

(** A password of the user was compared with the hash that was then the current one. *)
Definition verified (log : list AuthEvent) (user : Z) : Prop :=
  exists pre mid hash password, log = pre ++ EvVerified user hash password :: mid /\
    pwhash_str_verify hash password = true /\ last_password pre user = Some hash.

Lemma verified_app log events user : verified log user -> verified (log ++ events) user.
Proof.
  intros (pre & mid & hash & password & -> & H). exists pre, (mid ++ events), hash, password.
  by rewrite <- app_assoc.
Qed.

Record auth_ok (y : AuthState) : Prop := {
  ao_open : ad_open (as_db y) = true;
  ao_live : forall d row, ad_sessions (as_db y) !! d = Some row -> se_revoked_at_utc row = None ->
    live (as_log y) d (se_user_id row) (se_created_at_utc row) (se_expires_at_utc row);
  ao_row : forall d u c e, live (as_log y) d u c e ->
    ad_sessions (as_db y) !! d = Some (mkAuthSessionRow u c e None);
  ao_digest : forall d row, ad_sessions (as_db y) !! d = Some row ->
    length d = 32%nat /\ is_Some (ad_users (as_db y) !! se_user_id row);
  ao_password : forall id row, ad_users (as_db y) !! id = Some row ->
    last_password (as_log y) id = Some (us_password_hash row);
  ao_creating : forall i l u n, as_logins y !! i = Some l -> lg_at l = Creating u n ->
    verified (as_log y) (aur_user_id u);
  ao_origin : forall pre d u c e post, as_log y = pre ++ EvSession d u c e :: post ->
    e = c + acf_session_ttl_seconds config /\ verified pre u
}.

Lemma start_ok : auth_ok auth_start.
Proof.
  split; try done.
  - intros d u c e (pre & post & H & _). by destruct pre.
  - intros pre d u c e post H. by destruct pre.
Qed.

(** ** Operations that leave the sessions *)

(** An event that is neither a session nor the end of one. *)
Definition idle_event (x : AuthEvent) : Prop :=
  match x with
  | EvSession _ _ _ _ | EvRevoked _ | EvDisabled _ | EvPassword _ _ => False
  | _ => True
  end.

Lemma idle_live log events d u c e :
  Forall idle_event events -> live (log ++ events) d u c e <-> live log d u c e.
Proof.
  intros H. revert log. induction H as [|x events Hx H IH]; intros log; [by rewrite app_nil_r|].
  replace (log ++ x :: events) with ((log ++ [x]) ++ events) by (by rewrite <- app_assoc).
  rewrite IH. apply live_other; [by intros ???? -> | intros Hend; by destruct x].
Qed.
Lemma idle_password log events id :
  Forall idle_event events -> last_password (log ++ events) id = last_password log id.
Proof.
  intros H. revert log. induction H as [|x events Hx H IH]; intros log; [by rewrite app_nil_r|].
  replace (log ++ x :: events) with ((log ++ [x]) ++ events) by (by rewrite <- app_assoc).
  rewrite IH, last_password_snoc. by destruct x.
Qed.

Lemma origin_snoc log x :
  (forall pre d u c e post, log = pre ++ EvSession d u c e :: post ->
     e = c + acf_session_ttl_seconds config /\ verified pre u) ->
  (forall d u c e, x = EvSession d u c e -> e = c + acf_session_ttl_seconds config /\ verified log u) ->
  forall pre d u c e post, log ++ [x] = pre ++ EvSession d u c e :: post ->
    e = c + acf_session_ttl_seconds config /\ verified pre u.
Proof.
  intros Hold Hnew pre d u c e post H. apply snoc_split in H as [(-> & -> & H) | (post' & -> & H)].
  - by apply (Hnew d u c e).
  - by apply (Hold pre d u c e post').
Qed.

Lemma origin_idle log events :
  Forall idle_event events ->
  (forall pre d u c e post, log = pre ++ EvSession d u c e :: post ->
     e = c + acf_session_ttl_seconds config /\ verified pre u) ->
  forall pre d u c e post, log ++ events = pre ++ EvSession d u c e :: post ->
    e = c + acf_session_ttl_seconds config /\ verified pre u.
Proof.
  intros H. revert log. induction H as [|x events Hx H IH]; intros log Hold; [by rewrite app_nil_r|].
  replace (log ++ x :: events) with ((log ++ [x]) ++ events) by (by rewrite <- app_assoc).
  apply IH, (origin_snoc log x Hold). intros d u c e ->. done.
Qed.

(** The logins that a step leaves behind: those that wait to store a session were verified. *)
Definition creating_ok (log : list AuthEvent) (logins : list Login) : Prop :=
  forall i l u n, logins !! i = Some l -> lg_at l = Creating u n -> verified log (aur_user_id u).

Lemma creating_app log events logins : creating_ok log logins -> creating_ok (log ++ events) logins.
Proof. intros H i l u n Hl Ha. by apply verified_app, (H i l u n). Qed.

Lemma ok_idle y y' events :
  auth_ok y -> as_db y' = as_db y -> Forall idle_event events -> as_log y' = as_log y ++ events ->
  creating_ok (as_log y') (as_logins y') -> auth_ok y'.
Proof.
  intros [Ho Hl Hr Hd Hp Hc Hs] Hdb Hi Hlog Hcr. split; rewrite ?Hdb; try done.
  - intros d row H1 H2. rewrite Hlog, idle_live by done. by apply Hl.
  - intros d u c e. rewrite Hlog, idle_live by done. apply Hr.
  - intros id row H. rewrite Hlog, idle_password by done. by apply Hp.
  - rewrite Hlog. by apply origin_idle.
Qed.

(** A step of the database with the event that describes it. *)
Lemma ok_event y y' x :
  auth_ok y -> as_log y' = as_log y ++ [x] -> ad_open (as_db y') = true ->
  creating_ok (as_log y') (as_logins y') ->
  (forall d row, ad_sessions (as_db y') !! d = Some row ->
     length d = 32%nat /\ is_Some (ad_users (as_db y') !! se_user_id row)) ->
  (forall d row, ad_sessions (as_db y') !! d = Some row -> se_revoked_at_utc row = None ->
     (ad_sessions (as_db y) !! d = Some row /\ ~ ends d (se_user_id row) (se_expires_at_utc row) x) \/
     x = EvSession d (se_user_id row) (se_created_at_utc row) (se_expires_at_utc row)) ->
  (forall d u c e, ad_sessions (as_db y) !! d = Some (mkAuthSessionRow u c e None) -> ~ ends d u e x ->
     ad_sessions (as_db y') !! d = Some (mkAuthSessionRow u c e None)) ->
  (forall d u c e, x = EvSession d u c e ->
     ad_sessions (as_db y') !! d = Some (mkAuthSessionRow u c e None) /\
     e = c + acf_session_ttl_seconds config /\ verified (as_log y) u) ->
  (forall id row, ad_users (as_db y') !! id = Some row ->
     last_password (as_log y') id = Some (us_password_hash row)) ->
  auth_ok y'.
Proof.
  intros Hok Hlog Hopen Hcr Hdig Hlive Hkeep Hnew Hpass. split; try done.
  - intros d row H1 H2. rewrite Hlog, live_snoc. destruct (Hlive d row H1 H2) as [[H3 H4] | ->]; [|by right].
    left. split; [|done]. by apply (ao_live _ Hok).
  - intros d u c e H. rewrite Hlog, live_snoc in H. destruct H as [[H Hno] | H]; [|by apply Hnew].
    apply Hkeep; [|done]. by apply (ao_row _ Hok).
  - rewrite Hlog. apply origin_snoc; [apply (ao_origin _ Hok)|]. intros d u c e H. by apply (Hnew d).
Qed.

Lemma revoke_lookup id now sessions d row :
  revoke_sessions id now sessions !! d = Some row ->
  exists old, sessions !! d = Some old /\
    (se_revoked_at_utc row = None -> row = old /\ se_user_id old <> id).
Proof.
  unfold revoke_sessions. rewrite lookup_fmap. destruct (sessions !! d) as [old|]; [|done].
  intros [= <-]. exists old. split; [done|]. destruct (Z.eqb_spec (se_user_id old) id) as [He | Hne]; [|done].
  cbn [andb]. case_bool_decide as Hr; [done|]. intros Hn. done.
Qed.
Lemma revoke_kept id now sessions d u c e :
  sessions !! d = Some (mkAuthSessionRow u c e None) -> u <> id ->
  revoke_sessions id now sessions !! d = Some (mkAuthSessionRow u c e None).
Proof.
  intros H Hne. unfold revoke_sessions. rewrite lookup_fmap, H. simpl.
  by rewrite (proj2 (Z.eqb_neq u id) Hne).
Qed.

Lemma find_account_in account users id row :
  find_account account users = Some (id, row) -> users !! id = Some row /\ us_account_id row = account.
Proof.
  intros H. apply find_some in H as [H1 H2]. apply bool_decide_eq_true in H2.
  by apply list_elem_of_In, elem_of_map_to_list in H1.
Qed.

Lemma next_user_id_fresh users : users !! next_user_id users = None.
Proof.
  unfold next_user_id. destruct (users !! _) as [row|] eqn:H; [|done]. exfalso.
  apply elem_of_map_to_list, (list_elem_of_fmap_2 fst) in H.
  assert (Hle : forall l x, x ∈ l -> x <= foldr Z.max 0 l).
  { clear. intros l x Hx. induction Hx as [x l|x z l Hx IH]; simpl; lia. }
  apply Hle in H. simpl in H. lia.
Qed.

(** ** Every operation *)

Lemma login_at_creating logins i l a log :
  logins !! i = Some l -> creating_ok log logins ->
  (forall u n, a = Creating u n -> verified log (aur_user_id u)) ->
  creating_ok log (<[i := login_at l a]> logins).
Proof.
  intros Hl Hc Ha j l' u n Hj Hat. apply list_lookup_insert_Some in Hj as [(-> & <- & _) | [_ Hj]].
  - by apply (Ha u n).
  - by apply (Hc j l' u n).
Qed.

Lemma creating_snoc log logins l :
  creating_ok log logins -> (forall u n, lg_at l <> Creating u n) -> creating_ok log (logins ++ [l]).
Proof.
  intros Hc Hl i l' u n Hi Ha. apply lookup_app_Some in Hi as [Hi | [_ Hi]]; [by apply (Hc i l' u n)|].
  apply list_lookup_singleton_Some in Hi as [_ <-]. by apply Hl in Ha.
Qed.

Lemma login_begin_ok account password source now y :
  auth_ok y -> auth_ok (login_begin config account password source now y).
Proof.
  intros Hok. pose proof (ao_creating _ Hok) as Hc. unfold login_begin.
  assert (Hdone : forall l rate r, lg_at l = Answered r ->
            auth_ok (mkAuthState (as_db y) rate (as_logins y ++ [l]) (as_log y))).
  { intros l rate r Hl. apply (ok_idle y _ []); try done; [by rewrite app_nil_r|].
    apply creating_snoc; [done|]. intros u n. by rewrite Hl. }
  destruct (negb _); [by eapply Hdone|]. destruct (normalizeAccountId account) as [id|]; [|by eapply Hdone].
  destruct (validPassword password); [|by eapply Hdone].
  destruct (rateLimitRetryAfter _ _ _ _) as [[seconds|] rate].
  { eapply (ok_idle y _ [_]); [done|done| |done|]; [by repeat constructor|].
    apply creating_snoc; [by apply creating_app|done]. }
  eapply (ok_idle y _ [_]); [done|done| |done|]; [by repeat constructor|].
  apply creating_snoc; [by apply creating_app|done].
Qed.

Lemma findAppUser_some account db u :
  findAppUser account db = Some u ->
  exists row, ad_users db !! aur_user_id u = Some row /\ us_password_hash row = aur_password_hash u.
Proof.
  unfold findAppUser. destruct (_ || _); [done|]. intros H.
  apply fmap_Some in H as ([id row] & H & ->). apply find_account_in in H as [H _]. by exists row.
Qed.

Lemma createAppSession_cases user d created expires db :
  createAppSession user d created expires db = (false, db) \/
  createAppSession user d created expires db =
    (true, with_auth_sessions db
             (<[d := mkAuthSessionRow user created expires None]> (cleanup created (ad_sessions db)))) /\
  length d = 32%nat /\ cleanup created (ad_sessions db) !! d = None /\ is_Some (ad_users db !! user).
Proof.
  unfold createAppSession. destruct (_ || _) eqn:Hg; [by left|].
  repeat (apply orb_false_elim in Hg as [Hg ?]).
  destruct (cleanup _ _ !! d) eqn:Hd; [by left|]. destruct (ad_users db !! user) eqn:Hu; [|by left].
  right. split; [done|]. split; [|done]. apply Nat.eqb_eq. by destruct (_ =? 32)%nat.
Qed.

Lemma cleanup_lookup now sessions d row :
  cleanup now sessions !! d = Some row <-> sessions !! d = Some row /\ now < se_expires_at_utc row.
Proof.
  unfold cleanup. rewrite lookup_omap. destruct (sessions !! d) as [r|]; simpl; [|by split; [|intros [? _]]].
  destruct (Z.leb_spec (se_expires_at_utc r) now); split.
  - done.
  - intros [[= <-] ?]. lia.
  - intros [= <-]. done.
  - by intros [[= <-] _].
Qed.

Lemma session_created_ok y i l u n d rate logins :
  auth_ok y -> as_logins y !! i = Some l -> lg_at l = Creating u n ->
  creating_ok (as_log y) logins ->
  let expires := lg_now l + acf_session_ttl_seconds config in
  let '(created, db') := createAppSession (aur_user_id u) d (lg_now l) expires (as_db y) in
  auth_ok (mkAuthState db' rate logins
             (as_log y ++ if created then [EvSession d (aur_user_id u) (lg_now l) expires] else [])).
Proof.
  intros Hok Hl Ha Hlog expires.
  destruct (createAppSession_cases (aur_user_id u) d (lg_now l) expires (as_db y)) as [-> | (-> & Hd & Hno & Hu)].
  { apply (ok_idle y _ []); try done. rewrite app_nil_r. done. }
  eapply (ok_event y _); [done|done|apply (ao_open _ Hok)|by apply creating_app|..]; simpl.
  - intros d' row H. apply lookup_insert_Some in H as [[<- <-] | [_ H]]; [done|].
    apply cleanup_lookup in H as [H _]. by apply (ao_digest _ Hok).
  - intros d' row H _. apply lookup_insert_Some in H as [[<- <-] | [_ H]]; [by right|].
    apply cleanup_lookup in H as [H Hlt]. left. split; [done|]. lia.
  - intros d' u' c' e' H Hends. apply lookup_insert_Some. right.
    assert (Hk : cleanup (lg_now l) (ad_sessions (as_db y)) !! d' = Some (mkAuthSessionRow u' c' e' None)).
    { apply cleanup_lookup. split; [done|]. simpl in *. lia. }
    split; [intros ->; congruence|done].
  - intros d' u' c' e' [= <- <- <- <-]. split; [by rewrite lookup_insert_eq|]. split; [done|].
    by apply (ao_creating _ Hok i l u n).
  - intros id row H. rewrite last_password_snoc. by apply (ao_password _ Hok).
Qed.

Lemma login_step_ok y i random :
  auth_ok y -> auth_ok (auth_step config dummy y (AuStep i random)).
Proof.
  intros Hok. pose proof (ao_creating _ Hok) as Hc. simpl.
  destruct (as_logins y !! i) as [l|] eqn:Hl; [|done].
  assert (Hidle : forall at_ rate events, Forall idle_event events ->
    (forall u n, at_ = Creating u n -> verified (as_log y ++ events) (aur_user_id u)) ->
    auth_ok (mkAuthState (as_db y) rate (<[i := login_at l at_]> (as_logins y)) (as_log y ++ events))).
  { intros at_ rate events Hi Ha. apply (ok_idle y _ events); try done.
    apply login_at_creating; [done|by apply creating_app|done]. }
  unfold login_step. destruct (lg_at l) as [| |u n|u token|r] eqn:Ha.
  - destruct (findAppUser _ _) as [u|] eqn:Hu; [|by apply Hidle].
    destruct (aur_enabled u && _) eqn:Hm; [|by apply Hidle].
    apply andb_prop in Hm as [_ Hm]. apply Hidle; [by repeat constructor|]. intros u' n [= <- <-].
    apply findAppUser_some in Hu as (row & Hrow & Hh).
    exists (as_log y), [], (aur_password_hash u), (lg_password l). split; [done|]. split; [done|].
    rewrite <- Hh. by apply (ao_password _ Hok).
  - apply Hidle; [by repeat constructor|done].
  - assert (Hnext : forall u' n', (if (n <? 2)%nat then Creating u (S n) else Answered (plain_login LoginUnavailable))
              = Creating u' n' -> verified (as_log y ++ []) (aur_user_id u')).
    { intros u' n' H. destruct (n <? 2)%nat; [|done]. injection H as <- <-. rewrite app_nil_r. by apply (Hc i l u n). }
    destruct (tokenDigest _) as [d|]; [|by apply Hidle].
    pose proof (fun at_ Hat => session_created_ok y i l u n d (as_rate y)
                  (<[i := login_at l at_]> (as_logins y)) Hok Hl Ha
                  (login_at_creating _ i l at_ _ Hl Hc Hat)) as Hs.
    cbv zeta in Hs.
    destruct (createAppSession _ _ _ _ _) as [[] db'].
    + apply Hs. done.
    + apply Hs. intros u' n' H. rewrite <- (app_nil_r (as_log y)). by apply (Hnext u' n').
  - apply Hidle; [by repeat constructor|done].
  - by apply Hidle.
Qed.

Lemma creating_kept y events : auth_ok y -> creating_ok (as_log y ++ events) (as_logins y).
Proof. intros Hok. apply creating_app. exact (ao_creating _ Hok). Qed.

Lemma same_db_ok y : auth_ok y -> auth_ok (with_db y (as_db y) []).
Proof.
  intros Hok. apply (ok_idle y _ []); try done. exact (creating_kept y _ Hok).
Qed.

Lemma logout_ok y header now : auth_ok y -> auth_ok (auth_step config dummy y (AuLogout header now)).
Proof.
  intros Hok. simpl. unfold logoutBearer. destruct (bearer_digest header) as [d|]; [|by apply same_db_ok].
  unfold revokeAppSession. destruct (_ || _); [by apply same_db_ok|].
  destruct (ad_sessions (as_db y) !! d) as [s|] eqn:Hs; [|by apply same_db_ok].
  destruct (bool_decide _ && _) eqn:Hg; [|by apply same_db_ok].
  eapply (ok_event y _ (EvRevoked d)); [done|done|apply (ao_open _ Hok)|exact (creating_kept y _ Hok)|..]; simpl.
  - intros d' row H. apply lookup_insert_Some in H as [[<- <-] | [_ H]];
      [exact (ao_digest _ Hok d s Hs)|exact (ao_digest _ Hok d' row H)].
  - intros d' row H Hr. apply lookup_insert_Some in H as [[<- <-] | [Hne H]]; [done|]. by left.
  - intros d' u c e H Hne. apply lookup_insert_Some. right. split; [by intros ->|done].
  - done.
  - intros id row H. rewrite last_password_snoc. by apply (ao_password _ Hok).
Qed.

Lemma add_user_ok y account password display salt now :
  auth_ok y -> auth_ok (auth_step config dummy y (AuAddUser account password display salt now)).
Proof.
  intros Hok. simpl. unfold addUser. destruct (normalizeAccountId account) as [id|]; [|by apply same_db_ok].
  destruct (negb _); [by apply same_db_ok|]. destruct (128 <? _)%nat; [by apply same_db_ok|].
  destruct (pwhash_str salt password) as [hash|]; [|by apply same_db_ok].
  unfold createAppUser. destruct (_ || _); [by apply same_db_ok|].
  destruct (find_account _ _); [by apply same_db_ok|]. simpl.
  pose proof (next_user_id_fresh (ad_users (as_db y))) as Hf. set (new := next_user_id _) in *.
  eapply (ok_event y _ _); [done|done|apply (ao_open _ Hok)|exact (creating_kept y _ Hok)|..]; simpl.
  - intros d row H. destruct (ao_digest _ Hok _ _ H) as [H1 [r H2]]. split; [done|].
    exists r. rewrite lookup_insert_ne; [done|]. congruence.
  - intros d row H _. left. split; [done|]. destruct (ao_digest _ Hok _ _ H) as [_ [r H2]]. congruence.
  - done.
  - done.
  - intros u row H. rewrite last_password_snoc. unfold user_hash. simpl. rewrite lookup_insert_eq. simpl.
    apply lookup_insert_Some in H as [[<- <-] | [Hne H]]; [by rewrite bool_decide_eq_true_2|].
    rewrite bool_decide_eq_false_2 by done. by apply (ao_password _ Hok).
Qed.

(** A change of a user's row with the revocation of the user's sessions. *)
Lemma revoking_ok y id row row' now x :
  auth_ok y -> ad_users (as_db y) !! id = Some row ->
  (x = EvDisabled id /\ us_password_hash row' = us_password_hash row) \/
  x = EvPassword id (us_password_hash row') ->
  auth_ok (with_db y (mkAuthDb (ad_open (as_db y)) (ad_schema_ready (as_db y))
                        (<[id := row']> (ad_users (as_db y)))
                        (revoke_sessions id now (ad_sessions (as_db y)))) [x]).
Proof.
  intros Hok Hrow Hx.
  eapply (ok_event y _ x); [done|done|apply (ao_open _ Hok)|exact (creating_kept y _ Hok)|..]; simpl.
  - intros d r H. apply lookup_fmap_Some in H as (old & <- & H). destruct (ao_digest _ Hok _ _ H) as [H1 H2].
    split; [done|]. apply lookup_insert_is_Some. destruct (decide (id = se_user_id old)) as [-> | Hne].
    + left. by destruct (_ && _).
    + right. by destruct (_ && _).
  - intros d r H Hn. apply revoke_lookup in H as (old & H & Hr). destruct (Hr Hn) as [-> Hne]. left.
    split; [done|]. intros Hends. by destruct Hx as [[-> _] | ->].
  - intros d u c e H Hno. apply revoke_kept; [done|]. intros ->. by destruct Hx as [[-> _] | ->]; apply Hno.
  - intros d u c e ->. by destruct Hx as [[? _] | ?].
  - intros u r H. rewrite last_password_snoc. apply lookup_insert_Some in H as [[<- <-] | [Hne H]].
    + destruct Hx as [[-> ->] | ->]; [by apply (ao_password _ Hok)|by rewrite bool_decide_eq_true_2].
    + destruct Hx as [[-> _] | ->]; [by apply (ao_password _ Hok)|].
      rewrite bool_decide_eq_false_2 by done. by apply (ao_password _ Hok).
Qed.

(** Enabling a user changes nothing else. *)
Lemma enabling_ok y id row row' :
  auth_ok y -> ad_users (as_db y) !! id = Some row -> us_password_hash row' = us_password_hash row ->
  auth_ok (with_db y (with_users (as_db y) (<[id := row']> (ad_users (as_db y)))) []).
Proof.
  intros [Ho Hl Hr Hd Hp Hc Hs] Hrow He. split; simpl; rewrite ?app_nil_r; try done.
  - intros d r H. destruct (Hd d r H) as [H1 H2]. split; [done|]. apply lookup_insert_is_Some.
    destruct (decide (id = se_user_id r)); [by left|by right].
  - intros u r H. apply lookup_insert_Some in H as [[<- <-] | [_ H]]; [|by apply Hp].
    rewrite He. by apply Hp.
Qed.

Lemma set_enabled_ok y account enabled now :
  auth_ok y -> auth_ok (auth_step config dummy y (AuSetEnabled account enabled now)).
Proof.
  intros Hok. simpl. unfold setUserEnabled, user_id_of.
  destruct (normalizeAccountId account) as [n|]; [|by apply same_db_ok].
  unfold setAppUserEnabled. destruct (_ || _); [by apply same_db_ok|].
  destruct (find_account n _) as [[id row]|] eqn:Hf; [|by apply same_db_ok]. simpl.
  apply find_account_in in Hf as [Hrow _]. destruct enabled.
  - by apply (enabling_ok y id row).
  - by eapply revoking_ok; [done|done|left].
Qed.

Lemma reset_ok y account password salt now :
  auth_ok y -> auth_ok (auth_step config dummy y (AuReset account password salt now)).
Proof.
  intros Hok. simpl. unfold resetPassword, user_id_of.
  destruct (normalizeAccountId account) as [n|]; [|by apply same_db_ok].
  destruct (negb _); [by apply same_db_ok|]. destruct (pwhash_str salt password) as [hash|]; [|by apply same_db_ok].
  unfold resetAppUserPassword. destruct (_ || _); [by apply same_db_ok|].
  destruct (find_account n _) as [[id row]|] eqn:Hf; [|by apply same_db_ok]. simpl.
  apply find_account_in in Hf as [Hrow _]. unfold user_hash. simpl. rewrite lookup_insert_eq.
  by eapply revoking_ok; [done|done|right].
Qed.

Lemma auth_step_ok y op : auth_ok y -> auth_ok (auth_step config dummy y op).
Proof.
  intros Hok. destruct op.
  - by apply login_begin_ok.
  - by apply login_step_ok.
  - by apply logout_ok.
  - by apply add_user_ok.
  - by apply set_enabled_ok.
  - by apply reset_ok.
  - apply (ok_idle y _ [EvRestart]); try done. by repeat constructor.
Qed.

Lemma auth_run_ok y ops : auth_ok y -> auth_ok (auth_run config dummy y ops).
Proof. unfold auth_run. revert y. induction ops as [|op ops IH]; intros y H; [done|]. by apply IH, auth_step_ok. Qed.

(** ** What the service promises *)

Lemma bearer_answer header now db u :
  authenticateBearer header now db = Some u <->
  exists digest p, bearer_digest header = Some digest /\ findActiveAppSession digest now db = Some p /\
    u = mkAuthenticatedUser (asp_user_id p) (asp_account_id p) (asp_display_name p) (asp_expires_at_utc p).
Proof.
  unfold authenticateBearer, bearer_digest. destruct (extractBearer header) as [b|];
    [|by split; [|intros (? & ? & ? & _)]].
  destruct (tokenDigest b) as [d|]; [|by split; [|intros (? & ? & ? & _)]].
  rewrite fmap_Some. split.
  - intros (p & Hp & ->). by exists d, p.
  - intros (d' & p & [= <-] & Hp & ->). by exists p.
Qed.

Lemma active_session db d now p :
  ad_open db = true -> (forall row, ad_sessions db !! d = Some row -> length d = 32%nat) ->
  findActiveAppSession d now db = Some p <->
  exists created row, ad_sessions db !! d = Some (mkAuthSessionRow (asp_user_id p) created (asp_expires_at_utc p) None) /\
    ad_users db !! asp_user_id p = Some row /\ us_enabled row = true /\ now < asp_expires_at_utc p /\
    asp_account_id p = us_account_id row /\ asp_display_name p = us_display_name row.
Proof.
  intros Hopen Hlen. unfold findActiveAppSession. rewrite Hopen, orb_false_r.
  destruct (ad_sessions db !! d) as [s|] eqn:Hs.
  2:{ destruct (negb _); split; [done|by intros (? & ? & ? & _)|done|by intros (? & ? & ? & _)]. }
  rewrite (Hlen s eq_refl). cbn [Nat.eqb negb]. split.
  - destruct (ad_users db !! se_user_id s) as [row|] eqn:Hu; [|done].
    destruct (_ && us_enabled row) eqn:Hg; [|done]. intros [= <-].
    apply andb_prop in Hg as [Hg He]. apply andb_prop in Hg as [Hr Ht]. apply bool_decide_eq_true in Hr.
    apply Z.ltb_lt in Ht. exists (se_created_at_utc s), row. simpl. destruct s; simpl in *. by subst.
  - intros (created & row & Hrow & Hu & He & Ht & Ha & Hd). simplify_eq. simpl. rewrite Hu, He.
    rewrite (proj2 (Z.ltb_lt _ _) Ht). cbn. destruct p; simpl in *. by subst.
Qed.

(** C11 [refinement] A bearer token is worth exactly what the history of the service says. After any interleaving
    of logins (step by step), logouts, changes of accounts and restarts, a request is
    authenticated as a user if and only if its token is one for which a session of that user
    was stored, the session has not expired, no logout of it, no disabling and no new password of the
    user and no clean-up of expired sessions came after it, and the user is enabled. *)
Theorem auth_decides ops header now y u :
  y = auth_run config dummy auth_start ops ->
  authenticateBearer header now (as_db y) = Some u <->
  exists digest created row, bearer_digest header = Some digest /\
    live (as_log y) digest (auu_id u) created (auu_expires_at_utc u) /\
    now < auu_expires_at_utc u /\
    ad_users (as_db y) !! auu_id u = Some row /\ us_enabled row = true /\
    auu_account_id u = us_account_id row /\ auu_display_name u = us_display_name row.
Proof.
  intros ->. pose proof (auth_run_ok _ ops start_ok) as Hok. set (y := auth_run _ _ _ ops) in *.
  rewrite bearer_answer. split.
  - intros (d & p & Hd & Hp & ->). apply active_session in Hp as (c & row & Hs & Hu & He & Ht & Ha & Hn);
      [|apply (ao_open _ Hok)|intros r Hr; by apply (ao_digest _ Hok d r)].
    exists d, c, row. simpl. pose proof (ao_live _ Hok _ _ Hs eq_refl) as Hlive. done.
  - intros (d & c & row & Hd & Hlive & Ht & Hu & He & Ha & Hn).
    exists d, (mkAppSessionPrincipal (auu_id u) (auu_account_id u) (auu_display_name u) (auu_expires_at_utc u)).
    split; [done|]. split; [|by destruct u].
    apply active_session; [apply (ao_open _ Hok)|intros r Hr; by apply (ao_digest _ Hok d r)|].
    exists c, row. simpl. split; [by apply (ao_row _ Hok)|done].
Qed.

(** Every session comes from a password. Whenever a session of a user was stored, the user's current
    password hash had before that been compared with the password of a login, and had matched; and the
    session lasts for the configured time from the begin of a login. *)
Theorem auth_session_origin ops y digest user created expires pre post :
  y = auth_run config dummy auth_start ops ->
  as_log y = pre ++ EvSession digest user created expires :: post ->
  expires = created + acf_session_ttl_seconds config /\
  exists before after hash password, pre = before ++ EvVerified user hash password :: after /\
    pwhash_str_verify hash password = true /\ last_password before user = Some hash.
Proof.
  intros -> H. exact (ao_origin _ (auth_run_ok _ ops start_ok) pre digest user created expires post H).
Qed.
End Sessions.

(** * The lock-out after failed logins *)

(** The lock-out after failed logins: the table of failures is a function of the history, and a
    key that failed too often within the window has no further login admitted before the cooldown has
    passed. *)
(** The clock reading of an event. *)
Definition event_time (x : AuthEvent) : option Z :=
  match x with
  | EvAttempt _ now | EvRefused _ now | EvFailure _ now => Some now
  | _ => None
  end.
Definition log_times (log : list AuthEvent) : list Z := omap event_time log.

Definition forgets (key : string) (x : AuthEvent) : bool :=
  match x with EvCleared k => bool_decide (k = key) | EvRestart => true | _ => false end.

(** The failures of a key since its last success or the last restart, oldest first. *)
Definition failures_since (log : list AuthEvent) (key : string) : list Z :=
  foldl (fun found x => if forgets key x then [] else
                        match x with
                        | EvFailure k now => if bool_decide (k = key) then found ++ [now] else found
                        | _ => found end) [] log.

Definition failed_keys (log : list AuthEvent) : gset string :=
  list_to_set (omap (fun x => match x with EvFailure k _ => Some k | _ => None end) log).

Section Lockout.
Context {SO : Sodium}.
Variable config : AuthConfig.
Variable dummy : string.

Notation W := (acf_login_window_seconds config).
Notation C := (acf_login_cooldown_seconds config).

(** * The table as a function of the history *)

Definition rate_after (rate : RateTable) (x : AuthEvent) : RateTable :=
  match x with
  | EvAttempt key now | EvRefused key now => (rateLimitRetryAfter config key now rate).2
  | EvFailure key now => recordFailure config key now rate
  | EvCleared key => clearFailures key rate
  | EvRestart => ∅
  | _ => rate
  end.
Definition rate_of (log : list AuthEvent) : RateTable := foldl rate_after ∅ log.

Lemma rate_of_snoc log x : rate_of (log ++ [x]) = rate_after (rate_of log) x.
Proof. unfold rate_of. by rewrite foldl_app. Qed.

(** A login is admitted, to have its password compared later, only for a key that is not blocked then. *)
Definition attempts_allowed (log : list AuthEvent) : Prop :=
  forall pre key now post, log = pre ++ EvAttempt key now :: post ->
    (rateLimitRetryAfter config key now (rate_of pre)).1 = None.

Lemma allowed_snoc log x :
  attempts_allowed log ->
  (forall key now, x = EvAttempt key now -> (rateLimitRetryAfter config key now (rate_of log)).1 = None) ->
  attempts_allowed (log ++ [x]).
Proof.
  intros Hold Hnew pre key now post H. apply snoc_split in H as [(_ & -> & H) | (post' & _ & ->)].
  - by apply Hnew.
  - by apply (Hold pre key now post').
Qed.

Definition rate_ok (y : AuthState) : Prop :=
  as_rate y = rate_of (as_log y) /\ attempts_allowed (as_log y).

Lemma rate_keep db logins y events :
  rate_ok y -> (forall x, x ∈ events -> event_time x = None /\ forall r, rate_after r x = r) ->
  rate_ok (mkAuthState db (as_rate y) logins (as_log y ++ events)).
Proof.
  intros [Hr Ha] Hev. unfold rate_ok. simpl. rewrite Hr. clear Hr. revert Ha Hev.
  generalize (as_log y). induction events as [|x events IH]; intros log Ha Hev; [by rewrite app_nil_r|].
  replace (log ++ x :: events) with ((log ++ [x]) ++ events) by (by rewrite <- app_assoc).
  destruct (Hev x) as [Ht Hs]; [by apply list_elem_of_here|].
  replace (rate_of log) with (rate_of (log ++ [x])) by (by rewrite rate_of_snoc, Hs).
  apply IH; [|intros z Hz; by apply Hev, list_elem_of_further].
  apply allowed_snoc; [done|]. by intros key now ->.
Qed.

Lemma rate_new y db logins rate x :
  rate_ok y -> rate = rate_after (as_rate y) x ->
  (forall key now, x = EvAttempt key now -> (rateLimitRetryAfter config key now (as_rate y)).1 = None) ->
  rate_ok (mkAuthState db rate logins (as_log y ++ [x])).
Proof.
  intros [Hr Ha] -> Hnew. split; simpl; [by rewrite rate_of_snoc, Hr|].
  apply allowed_snoc; [done|]. by rewrite <- Hr.
Qed.

Lemma rate_step_ok y op : rate_ok y -> rate_ok (auth_step config dummy y op).
Proof.
  intros Hok. assert (Hkeep : forall db logins events,
    (forall x, x ∈ events -> event_time x = None /\ forall r, rate_after r x = r) ->
    rate_ok (mkAuthState db (as_rate y) logins (as_log y ++ events))) by (intros; by apply rate_keep).
  assert (Hone : forall db logins x, event_time x = None -> (forall r, rate_after r x = r) ->
    rate_ok (mkAuthState db (as_rate y) logins (as_log y ++ [x]))).
  { intros db logins x H1 H2. apply Hkeep. intros z ->%list_elem_of_singleton. done. }
  assert (Hnil : forall db logins, rate_ok (mkAuthState db (as_rate y) logins (as_log y ++ []))).
  { intros. apply Hkeep. intros x Hx. by apply elem_of_nil in Hx. }
  assert (Hsame : forall db logins, rate_ok (mkAuthState db (as_rate y) logins (as_log y))).
  { intros. by rewrite <- (app_nil_r (as_log y)). }
  destruct op as [account password source now|i random|header now|account password display salt now
                 |account enabled now|account password salt now|]; simpl.
  - unfold login_begin. destruct (negb _); [done|]. destruct (normalizeAccountId _); [|done].
    destruct (validPassword _); [|done]. destruct (rateLimitRetryAfter _ _ _ _) as [[seconds|] rate] eqn:Hr;
      (apply rate_new; [done|by simpl; rewrite Hr|intros key now0 Hx; simplify_eq; by rewrite Hr]).
  - destruct (as_logins y !! i) as [l|]; [|done]. unfold login_step.
    destruct (lg_at l) as [| |u n|u token|r].
    + destruct (findAppUser _ _) as [u|]; [|done]. destruct (_ && _); [by apply Hone|done].
    + by apply rate_new.
    + destruct (tokenDigest _) as [d|]; [|done]. destruct (createAppSession _ _ _ _ _) as [[] db']; [by apply Hone|done].
    + by apply rate_new.
    + done.
  - destruct (logoutBearer _ _ _) as [[] db']; [|apply Hnil].
    destruct (bearer_digest header); [by apply Hone|apply Hnil].
  - destruct (addUser _ _ _ _ _ _) as [[] db']; [by apply Hone|apply Hnil].
  - destruct (setUserEnabled _ _ _ _) as [[] db']; [|apply Hnil]. destruct (user_id_of _ _); [|apply Hnil].
    destruct enabled; [apply Hnil|by apply Hone].
  - destruct (resetPassword _ _ _ _ _) as [[] db']; [|apply Hnil].
    destruct (user_id_of _ _); [by apply Hone|apply Hnil].
  - by apply rate_new.
Qed.

Lemma rate_run_ok ops : rate_ok (auth_run config dummy auth_start ops).
Proof.
  assert (H : rate_ok auth_start) by (split; [done|]; intros [] ????; discriminate).
  unfold auth_run. revert H. generalize auth_start.
  induction ops as [|op ops IH]; intros y H; [done|]. by apply IH, rate_step_ok.
Qed.

(** * One key *)

Definition entry (key : string) (rate : RateTable) : RateState := default new_rate_state (rate !! key).

(** What an event does to the entry of a key. *)
Inductive entry_step (key : string) (x : AuthEvent) (st st' : RateState) : Prop :=
| EntryForgotten : forgets key x = true -> st' = new_rate_state -> entry_step key x st st'
| EntryFailed now :
    x = EvFailure key now ->
    rt_failures st' = drop_until (now - W) (rt_failures st) ++ [now] ->
    rt_blocked_until st' =
      (if acf_login_max_failures config <=? Z.of_nat (length (rt_failures st'))
       then now + C else if rt_blocked_until st <=? now then 0 else rt_blocked_until st) ->
    entry_step key x st st'
| EntryPruned now :
    event_time x = Some now -> (forall t, x <> EvFailure key t) ->
    rt_failures st' = drop_until (now - W) (rt_failures st) ->
    rt_blocked_until st' = (if rt_blocked_until st <=? now then 0 else rt_blocked_until st) ->
    entry_step key x st st'
| EntryKept :
    forgets key x = false -> (forall t, x <> EvFailure key t) -> st' = st -> entry_step key x st st'.

Lemma bound_dom now (rate : RateTable) : dom (boundRateTable config now rate) ⊆ dom rate.
Proof.
  unfold boundRateTable.
  assert (He : forall n (t : RateTable), dom (evict n t) ⊆ dom t).
  { induction n as [|n IHn]; intros t; [done|]. simpl. destruct (_ <? _)%nat; [done|].
    destruct (oldest_entry _) as [[k' ?]|]; [|done].
    rewrite IHn. intros z Hz. apply elem_of_dom in Hz as [st [_ Hz]%lookup_delete_Some].
    apply elem_of_dom. by exists st. }
  rewrite He. intros z Hz. apply elem_of_dom in Hz as [st Hz]. rewrite lookup_omap in Hz.
  apply bind_Some in Hz as (r & Hr & _). apply elem_of_dom. by exists r.
Qed.

Lemma rate_keys log : dom (rate_of log) ⊆ failed_keys log.
Proof.
  induction log as [|x log IH] using rev_ind; [done|].
  assert (Hmono : failed_keys log ⊆ failed_keys (log ++ [x])).
  { unfold failed_keys. rewrite omap_app, list_to_set_app_L. set_solver. }
  rewrite rate_of_snoc. destruct x as [k now|k now|k now|k| | | | | |]; simpl; try set_solver.
  1,2: unfold rateLimitRetryAfter; destruct (rate_of log !! k) eqn:Hk; simpl; [|set_solver];
    rewrite dom_insert; apply elem_of_dom_2 in Hk; set_solver.
  - unfold recordFailure. rewrite dom_insert.
    assert (Hk : k ∈ failed_keys (log ++ [EvFailure k now])).
    { unfold failed_keys. rewrite omap_app, list_to_set_app_L. simpl. set_solver. }
    pose proof (bound_dom now (rate_of log)) as Hb.
    destruct (rate_of log !! k); set_solver.
Qed.

Definition few_keys (log : list AuthEvent) : Prop := (size (failed_keys log) < kMaximumRateEntries)%nat.

Lemma few_keys_app log x : few_keys (log ++ [x]) -> few_keys log.
Proof.
  unfold few_keys. intros H. eapply Nat.le_lt_trans; [|exact H]. apply subseteq_size.
  unfold failed_keys. rewrite omap_app, list_to_set_app_L. set_solver.
Qed.

(** While the table has room the clean-up only drops entries that say nothing. *)
Lemma bound_entry now key log :
  few_keys log ->
  let st := entry key (rate_of log) in let st' := entry key (boundRateTable config now (rate_of log)) in
  rt_failures st' = drop_until (now - W) (rt_failures st) /\
  rt_blocked_until st' = (if rt_blocked_until st <=? now then 0 else rt_blocked_until st).
Proof.
  intros Hfew st st'. subst st st'. unfold boundRateTable, entry.
  set (pruned := omap _ _).
  assert (Hno : forall n, evict n pruned = pruned).
  { intros [|n]; [done|]. simpl.
    assert (Hlt : (size pruned < kMaximumRateEntries)%nat).
    { eapply Nat.le_lt_trans; [|exact Hfew]. rewrite <- (size_dom (D:=gset string)). apply subseteq_size.
      transitivity (dom (rate_of log)); [|apply rate_keys]. intros z Hz. apply elem_of_dom in Hz as [st Hz].
      subst pruned. rewrite lookup_omap in Hz. apply bind_Some in Hz as (r & Hr & _).
      apply elem_of_dom. by exists r. }
    by rewrite (proj2 (Nat.ltb_lt _ _) Hlt). }
  rewrite Hno. subst pruned. rewrite lookup_omap.
  destruct (rate_of log !! key) as [st|] eqn:Hk; simpl; [|by destruct (0 <=? now)].
  case_bool_decide as Hf; simpl; [|done]. destruct (Z.eqb_spec (if rt_blocked_until st <=? now then 0 else rt_blocked_until st) 0) as [Hb|];
    simpl; [by rewrite Hf, Hb|done].
Qed.

Lemma entry_snoc key log x :
  few_keys log -> entry_step key x (entry key (rate_of log)) (entry key (rate_of (log ++ [x]))).
Proof.
  intros Hfew. rewrite rate_of_snoc. unfold entry.
  destruct x as [k now|k now|k now|k| | | | | |]; simpl; try by (apply EntryKept).
  1,2: unfold rateLimitRetryAfter; destruct (rate_of log !! k) as [st|] eqn:Hk; simpl; [|by apply EntryKept];
    destruct (decide (k = key)) as [-> | Hne];
    [rewrite lookup_insert_eq, Hk; by apply (EntryPruned _ _ _ _ now)
    |rewrite lookup_insert_ne by done; by apply EntryKept].
  - unfold recordFailure. destruct (decide (k = key)) as [-> | Hne].
    + rewrite lookup_insert_eq. simpl.
      assert (Ht : match rate_of log !! key with
                   | Some _ => rate_of log | None => boundRateTable config now (rate_of log) end !! key
                   = rate_of log !! key).
      { destruct (rate_of log !! key) eqn:Hk; [done|]. apply not_elem_of_dom. apply not_elem_of_dom in Hk.
        pose proof (bound_dom now (rate_of log)). set_solver. }
      rewrite Ht. by apply (EntryFailed _ _ _ _ now).
    + rewrite lookup_insert_ne by done. destruct (rate_of log !! k) eqn:Hk; [by apply EntryKept; [|congruence|]|].
      destruct (bound_entry now key log Hfew) as [H1 H2].
      apply (EntryPruned _ _ _ _ now); [done|congruence|done|done].
  - unfold clearFailures. destruct (decide (k = key)) as [-> | Hne].
    + apply EntryForgotten; [simpl; by apply bool_decide_eq_true_2|]. by rewrite lookup_delete_eq.
    + rewrite lookup_delete_ne by done. apply EntryKept; [simpl; by apply bool_decide_eq_false_2|done|done].
  - apply EntryForgotten; [done|]. by rewrite lookup_empty.
Qed.

(** * The lock *)

Lemma drop_until_split cutoff l :
  exists dropped, l = dropped ++ drop_until cutoff l /\ Forall (fun t => t <= cutoff) dropped.
Proof.
  induction l as [|t l (dropped & H & Hd)]; [by exists []|]. simpl. destruct (Z.leb_spec t cutoff).
  - exists (t :: dropped). simpl. rewrite <- H. split; [done|]. by constructor.
  - by exists [].
Qed.

Lemma failures_since_snoc log x key :
  failures_since (log ++ [x]) key =
  if forgets key x then [] else
  match x with
  | EvFailure k now => if bool_decide (k = key) then failures_since log key ++ [now] else failures_since log key
  | _ => failures_since log key
  end.
Proof. unfold failures_since. rewrite foldl_app. simpl. by destruct (forgets key x), x. Qed.

(** A failure that some clock reading has left behind by the window. *)
Definition outdated (log : list AuthEvent) (t : Z) : Prop := exists s, s ∈ log_times log /\ t <= s - W.

Lemma outdated_app log x t : outdated log t -> outdated (log ++ [x]) t.
Proof. intros (s & Hs & H). exists s. split; [|done]. unfold log_times. rewrite omap_app. set_solver. Qed.
Lemma outdated_now log x now t : event_time x = Some now -> t <= now - W -> outdated (log ++ [x]) t.
Proof.
  intros Hx H. exists now. split; [|done]. unfold log_times. rewrite omap_app. simpl. rewrite Hx. set_solver.
Qed.

(** Every failure is in the table, or is outdated. *)
Lemma failures_kept log key :
  few_keys log -> exists dropped,
    failures_since log key = dropped ++ rt_failures (entry key (rate_of log)) /\ Forall (outdated log) dropped.
Proof.
  induction log as [|x log IH] using rev_ind; intros Hfew.
  { exists []. unfold entry, rate_of. simpl. by rewrite lookup_empty. }
  pose proof (few_keys_app _ _ Hfew) as Hlog. destruct (IH Hlog) as (dropped & Hd & Hold). clear IH.
  assert (Hold' : Forall (outdated (log ++ [x])) dropped)
    by (eapply Forall_impl; [exact Hold|intros t; apply outdated_app]).
  rewrite failures_since_snoc.
  assert (Hpruned : forall now, event_time x = Some now ->
    exists more, rt_failures (entry key (rate_of log)) = more ++ drop_until (now - W) (rt_failures (entry key (rate_of log)))
      /\ Forall (outdated (log ++ [x])) more).
  { intros now Hx. destruct (drop_until_split (now - W) (rt_failures (entry key (rate_of log)))) as (more & Hm & Hf).
    exists more. split; [done|]. eapply Forall_impl; [exact Hf|]. intros t. by apply outdated_now. }
  destruct (entry_snoc key log x Hlog) as [Hf -> | now -> Hfail Hbl | now Hx Hno Hfail Hbl | Hf Hno ->].
  - exists []. by rewrite Hf.
  - destruct (Hpruned now eq_refl) as (more & Hm & Hmo). exists (dropped ++ more).
    simpl. rewrite bool_decide_eq_true_2, Hd, Hfail by done. rewrite Hm at 1.
    rewrite <- !app_assoc. split; [done|]. by apply Forall_app.
  - destruct (Hpruned now Hx) as (more & Hm & Hmo). exists (dropped ++ more).
    assert (Hnf : forgets key x = false) by (by destruct x). rewrite Hnf, Hfail, <- app_assoc, <- Hm.
    split; [|by apply Forall_app]. rewrite <- Hd. destruct x; try done.
    rewrite bool_decide_eq_false_2; [done|]. intros ->. by eapply Hno.
  - exists dropped. rewrite Hf. split; [|done]. rewrite <- Hd. destruct x; try done.
    rewrite bool_decide_eq_false_2; [done|]. intros ->. by eapply Hno.
Qed.

(** The failures of a key that no clock reading has left behind. *)
Definition recent_failures (log : list AuthEvent) (key : string) : list Z :=
  List.filter (fun t => forallb (fun s => s - W <? t) (log_times log)) (failures_since log key).

Lemma recent_in_table log key :
  few_keys log -> (length (recent_failures log key) <= length (rt_failures (entry key (rate_of log))))%nat.
Proof.
  intros Hfew. destruct (failures_kept log key Hfew) as (dropped & Hd & Hold).
  unfold recent_failures. rewrite Hd, List.filter_app.
  rewrite (filter_none _ dropped); [apply filter_length_le|].
  intros t Ht. apply not_true_iff_false. intros Hall. rewrite Forall_elem in Hold.
  destruct (Hold t Ht) as (s & Hs & Hle). apply list_elem_of_In in Hs.
  apply (proj1 (forallb_forall _ _) Hall) in Hs. lia.
Qed.

Definition key_failures (log : list AuthEvent) (key : string) : list Z :=
  omap (fun x => match x with EvFailure k now => if bool_decide (k = key) then Some now else None
                         | _ => None end) log.

(** Some clock reading has passed a time. *)
Definition passed_time (events : list AuthEvent) (t : Z) : Prop := exists s, s ∈ log_times events /\ t <= s.

Lemma passed_app events x t : passed_time events t -> passed_time (events ++ [x]) t.
Proof. intros (s & Hs & H). exists s. split; [|done]. unfold log_times. rewrite omap_app. set_solver. Qed.
Lemma passed_now events x now t : event_time x = Some now -> t <= now -> passed_time (events ++ [x]) t.
Proof.
  intros Hx H. exists now. split; [|done]. unfold log_times. rewrite omap_app. simpl. rewrite Hx. set_solver.
Qed.

Lemma stays_locked key now pre mid :
  few_keys (pre ++ mid) -> existsb (forgets key) mid = false ->
  (forall t, t ∈ key_failures mid key -> now <= t) ->
  now + C <= rt_blocked_until (entry key (rate_of pre)) ->
  now + C <= rt_blocked_until (entry key (rate_of (pre ++ mid))) \/ passed_time mid (now + C).
Proof.
  intros Hfew Hno Hmono Hlock. induction mid as [|x mid IH] using rev_ind.
  { left. by rewrite app_nil_r. }
  rewrite app_assoc in Hfew. rewrite existsb_app in Hno. apply orb_false_elim in Hno as [Hno Hx].
  simpl in Hx. rewrite orb_false_r in Hx.
  destruct IH as [IH | IH]; [by apply (few_keys_app _ x)|done| | |right; by apply passed_app].
  { intros t Ht. apply Hmono. unfold key_failures. rewrite omap_app. set_solver. }
  pose proof (entry_snoc key (pre ++ mid) x (few_keys_app _ _ Hfew)) as Hs. rewrite app_assoc.
  destruct Hs as [Hf _ | t -> _ Hbl | t Ht _ _ Hbl | _ _ ->].
  - congruence.
  - assert (Hge : now <= t).
    { apply Hmono. unfold key_failures. rewrite omap_app. simpl. rewrite bool_decide_eq_true_2 by done. set_solver. }
    rewrite Hbl. destruct (_ <=? _); [left; lia|].
    destruct (Z.leb_spec (rt_blocked_until (entry key (rate_of (pre ++ mid)))) t); [|by left].
    right. apply (passed_now _ _ t); [done|lia].
  - rewrite Hbl. destruct (Z.leb_spec (rt_blocked_until (entry key (rate_of (pre ++ mid)))) t); [|by left].
    right. apply (passed_now _ _ t); [done|lia].
  - by left.
Qed.

(** No login of the key is admitted between the failure that blocks it and the end of the cooldown. *)
Lemma no_admission_while_blocked ops y pre key failed mid now post :
  auth_config_valid config = true -> 0 <= failed ->
  y = auth_run config dummy auth_start ops ->
  as_log y = pre ++ EvFailure key failed :: mid ++ EvAttempt key now :: post ->
  (size (failed_keys (as_log y)) < kMaximumRateEntries)%nat ->
  existsb (forgets key) mid = false -> (forall t, t ∈ key_failures mid key -> failed <= t) ->
  acf_login_max_failures config <= Z.of_nat (length (recent_failures (pre ++ [EvFailure key failed]) key)) ->
  passed_time (mid ++ [EvAttempt key now]) (failed + C).
Proof.
  intros Hvalid Hpos -> Hlog Hsize Hno Hmono Hcount. destruct (rate_run_ok ops) as [_ Hallowed].
  set (log := as_log _) in *. change (few_keys log) in Hsize.
  assert (Hprefix : forall l r, log = l ++ r -> few_keys l).
  { intros l r H. rewrite H in Hsize. clear - Hsize. revert Hsize. induction r as [|x r IH] using rev_ind.
    - by rewrite app_nil_r.
    - rewrite app_assoc. intros H. by apply IH, (few_keys_app _ x). }
  replace (pre ++ EvFailure key failed :: mid ++ EvAttempt key now :: post)
    with (((pre ++ [EvFailure key failed]) ++ mid) ++ EvAttempt key now :: post) in Hlog
    by (by rewrite <- !app_assoc).
  pose proof (Hallowed _ _ _ _ Hlog) as Hfree.
  assert (Hfirst : few_keys (pre ++ [EvFailure key failed]))
    by (apply (Hprefix _ (mid ++ EvAttempt key now :: post)); by rewrite Hlog, <- app_assoc).
  assert (Hlock : failed + C <= rt_blocked_until (entry key (rate_of (pre ++ [EvFailure key failed])))).
  { pose proof (recent_in_table _ key Hfirst) as Hlen.
    destruct (entry_snoc key pre (EvFailure key failed) (few_keys_app _ _ Hfirst))
      as [Hf _ | t [= <-] _ Hbl | t _ Hn | _ Hn _]; [done| |by destruct (Hn failed)|by destruct (Hn failed)].
    rewrite Hbl. rewrite (proj2 (Z.leb_le _ _)) by lia. lia. }
  destruct (stays_locked key failed (pre ++ [EvFailure key failed]) mid) as [Hl | Hp]; try done.
  { apply (Hprefix _ _ Hlog). }
  2:{ by apply passed_app. }
  apply (passed_now _ _ now); [done|]. unfold rateLimitRetryAfter in Hfree. unfold entry in Hl.
  destruct (rate_of ((pre ++ [EvFailure key failed]) ++ mid) !! key) as [st|] eqn:Hk.
  - simpl in Hfree, Hl. destruct (Z.leb_spec (rt_blocked_until st) now); [lia|].
    rewrite (proj2 (Z.ltb_lt _ _)) in Hfree by lia. done.
  - simpl in Hl. apply andb_prop in Hvalid as [_ HC]. lia.
Qed.

(** * The comparisons of logins that were admitted *)

Definition admissions (log : list AuthEvent) (key : string) : list Z :=
  omap (fun x => match x with EvAttempt k now => if bool_decide (k = key) then Some now else None | _ => None end) log.

(** A login that was admitted and has neither failed nor succeeded. *)
Definition undecided (key : string) (l : Login) : bool :=
  bool_decide (lg_key l = key) && match lg_at l with LookingUp | Recording => true | _ => false end.
Definition undecided_logins (key : string) (logins : list Login) : nat := length (List.filter (undecided key) logins).

Lemma undecided_insert key logins i l l' : logins !! i = Some l ->
  (undecided_logins key (<[i := l']> logins) + (if undecided key l then 1 else 0) =
   undecided_logins key logins + (if undecided key l' then 1 else 0))%nat.
Proof.
  unfold undecided_logins. revert i. induction logins as [|x logins IH]; intros [|i] Hi; try done; cbn in *.
  - injection Hi as ->. destruct (undecided key l), (undecided key l'); cbn; lia.
  - specialize (IH i Hi). destruct (undecided key x); cbn; [f_equal|]; exact IH.
Qed.
Lemma undecided_snoc key logins l :
  undecided_logins key (logins ++ [l]) = (undecided_logins key logins + if undecided key l then 1 else 0)%nat.
Proof. unfold undecided_logins. rewrite List.filter_app, length_app. cbn. by destruct (undecided key l). Qed.

(** Every failure is that of an admission, and so is every login that is undecided. *)
Definition covered (key : string) (y : AuthState) : Prop :=
  (length (key_failures (as_log y) key) + undecided_logins key (as_logins y) <= length (admissions (as_log y) key))%nat.

Lemma covered_log key y db rate logins events :
  covered key y -> key_failures events key = [] -> admissions events key = [] ->
  (undecided_logins key logins <= undecided_logins key (as_logins y))%nat ->
  covered key (mkAuthState db rate logins (as_log y ++ events)).
Proof.
  unfold covered, key_failures, admissions. cbn [as_log as_logins]. intros Hc Hf Ha Hl.
  rewrite !omap_app, !length_app. unfold key_failures in Hf. unfold admissions in Ha. rewrite Hf, Ha. simpl. lia.
Qed.

Lemma covered_begin key y account password source now :
  covered key y -> covered key (login_begin config account password source now y).
Proof.
  intros Hc. unfold login_begin.
  assert (Hans : forall db rate a p k t r events, key_failures events key = [] -> admissions events key = [] ->
    covered key (mkAuthState db rate (as_logins y ++ [mkLogin a p k t (Answered r)]) (as_log y ++ events))).
  { intros db rate a p k t r events Hf Ha. apply covered_log; [done|done|done|]. rewrite undecided_snoc. unfold undecided. cbn.
    rewrite andb_false_r. lia. }
  assert (Hsame : forall db rate a p k t r,
    covered key (mkAuthState db rate (as_logins y ++ [mkLogin a p k t (Answered r)]) (as_log y))).
  { intros. rewrite <- (app_nil_r (as_log y)). by apply Hans. }
  destruct (negb _); [apply Hsame|]. destruct (normalizeAccountId _); [|apply Hsame].
  destruct (validPassword _); [|apply Hsame]. destruct (rateLimitRetryAfter _ _ _ _) as [[seconds|] rate]; [by apply Hans|].
  unfold covered, key_failures, admissions in *. cbn [as_log as_logins]. rewrite undecided_snoc, !omap_app, !length_app.
  unfold undecided. cbn [lg_key lg_at omap list_omap length]. case_bool_decide; cbn [andb length]; lia.
Qed.

Lemma covered_step key y i l at_ db rate events :
  covered key y -> as_logins y !! i = Some l -> admissions events key = [] ->
  (length (key_failures events key) + (if undecided key (login_at l at_) then 1 else 0) <=
     if undecided key l then 1 else 0)%nat ->
  covered key (mkAuthState db rate (<[i := login_at l at_]> (as_logins y)) (as_log y ++ events)).
Proof.
  intros Hc Hi Ha Hd. pose proof (undecided_insert key (as_logins y) i l (login_at l at_) Hi) as Hu.
  unfold covered, key_failures, admissions in *. cbn [as_log as_logins]. rewrite !omap_app, !length_app, Ha. simpl length at 4. lia.
Qed.

Lemma covered_op key y op : covered key y -> covered key (auth_step config dummy y op).
Proof.
  intros Hc. assert (Hkeep : forall db events, key_failures events key = [] -> admissions events key = [] ->
    covered key (with_db y db events)) by (intros; by apply covered_log).
  destruct op as [account password source now|i random|header now|account password display salt now
                 |account enabled now|account password salt now|]; simpl.
  - by apply covered_begin.
  - destruct (as_logins y !! i) as [l|] eqn:Hl; [|done].
    assert (Hs : forall at_ db rate events, admissions events key = [] -> key_failures events key = [] ->
      (undecided key (login_at l at_) = true -> undecided key l = true) ->
      covered key (mkAuthState db rate (<[i := login_at l at_]> (as_logins y)) (as_log y ++ events))).
    { intros at_ db rate events Ha Hf Hu. apply covered_step; [done|done|done|]. rewrite Hf.
      destruct (undecided key (login_at l at_)); [rewrite Hu by done|]; cbn; [done|lia]. }
    assert (Hn : forall a, (forall b, a <> LookingUp /\ a <> Recording \/ b = true) -> undecided key (login_at l a) = false).
    { intros a Ha. unfold undecided. cbn. destruct (Ha false) as [[H1 H2]|?]; [|done]. destruct a; try done; by rewrite andb_false_r. }
    unfold login_step. destruct (lg_at l) as [| |u n|u token|answer] eqn:Hat.
    + assert (Hr : forall b, undecided key (login_at l b) = true -> undecided key l = true).
      { intros b. unfold undecided. rewrite Hat. cbn. case_bool_decide; [done|by destruct b]. }
      destruct (findAppUser _ _) as [u|]; [|apply Hs; [done|done|apply Hr]].
      destruct (_ && _); (apply Hs; [done|done|apply Hr]).
    + apply covered_step; [done|done|done|]. unfold undecided, key_failures. rewrite Hat. cbn.
      case_bool_decide; cbn; [done|done].
    + assert (Hr : forall b, (b = Creating u (S n) \/ exists r, b = Answered r) \/ (exists t, b = Clearing u t) ->
        undecided key (login_at l b) = true -> undecided key l = true).
      { intros b Hb. unfold undecided. cbn. destruct Hb as [[->|[? ->]]|[? ->]]; by rewrite andb_false_r. }
      assert (Hnext : forall db rate events, admissions events key = [] -> key_failures events key = [] ->
        covered key (mkAuthState db rate (<[i := login_at l (if (n <? 2)%nat then Creating u (S n)
          else Answered (plain_login LoginUnavailable))]> (as_logins y)) (as_log y ++ events))).
      { intros db rate events Ha Hf. destruct (n <? 2)%nat; (apply Hs; [done|done|apply Hr]); left; [by left|right; by eexists]. }
      destruct (tokenDigest _) as [d|]; [|by apply Hnext].
      destruct (createAppSession _ _ _ _ _) as [[] db']; [|by apply Hnext]. apply Hs; [done|done|apply Hr]. right. by eexists.
    + apply Hs; [done|done|]. unfold undecided. cbn. by rewrite andb_false_r.
    + apply Hs; [done|done|]. unfold undecided. cbn. by rewrite andb_false_r.
  - destruct (logoutBearer _ _ _) as [[] db']; [|by apply Hkeep]. by destruct (bearer_digest header); apply Hkeep.
  - by destruct (addUser _ _ _ _ _ _) as [[] db']; apply Hkeep.
  - destruct (setUserEnabled _ _ _ _) as [[] db']; [|by apply Hkeep]. destruct (user_id_of _ _); [|by apply Hkeep].
    by destruct enabled; apply Hkeep.
  - destruct (resetPassword _ _ _ _ _) as [[] db']; [|by apply Hkeep]. by destruct (user_id_of _ _); apply Hkeep.
  - apply covered_log; [done|done|done|]. cbn. lia.
Qed.

Lemma covered_run key ops : covered key (auth_run config dummy auth_start ops).
Proof.
  assert (H : covered key auth_start) by (cbv; lia). unfold auth_run. revert H. generalize auth_start.
  induction ops as [|op ops IH]; intros y H; [done|]. by apply IH, covered_op.
Qed.

(** C35 [bounds] The lock-out holds. When a failure of a login is recorded and makes as many failures of its key within the
    window as the configuration allows, then at any later moment, in every interleaving of logins, until the key has a
    success or the service restarts: either some clock reading has passed the cooldown after that failure, or no login of this key
    was admitted since. Logins that were admitted before may still compare their passwords meanwhile: all failures of the
    key together, those during the block included, are at most as many as the logins that were admitted before it. The
    failures of the key are recorded in the order of their times, and fewer keys than the table holds have failed. *)
Theorem auth_lockout ops pre key failed mid :
  auth_config_valid config = true -> 0 <= failed ->
  as_log (auth_run config dummy auth_start ops) = pre ++ EvFailure key failed :: mid ->
  (size (failed_keys (as_log (auth_run config dummy auth_start ops))) < kMaximumRateEntries)%nat ->
  existsb (forgets key) mid = false -> (forall t, t ∈ key_failures mid key -> failed <= t) ->
  acf_login_max_failures config <= Z.of_nat (length (recent_failures (pre ++ [EvFailure key failed]) key)) ->
  passed_time mid (failed + C) \/
  (admissions mid key = [] /\
   (length (key_failures (pre ++ EvFailure key failed :: mid) key) <= length (admissions pre key))%nat).
Proof.
  intros Hvalid Hpos Hlog Hsize Hno Hmono Hcount. destruct (admissions mid key) as [|now rest] eqn:Ha.
  - right. split; [done|]. pose proof (covered_run key ops) as Hc. unfold covered in Hc. rewrite Hlog in Hc.
    assert (Hadm : admissions (pre ++ EvFailure key failed :: mid) key = admissions pre key).
    { unfold admissions in *. rewrite omap_app. cbn [omap list_omap]. by rewrite Ha, app_nil_r. }
    rewrite Hadm in Hc. lia.
  - left. assert (Hin : exists now, EvAttempt key now ∈ mid).
    { exists now. assert (H : now ∈ admissions mid key) by (rewrite Ha; by apply list_elem_of_here).
      apply list_elem_of_omap in H as (x & Hx & H). destruct x; try done. case_bool_decide; [|done]. by simplify_eq. }
    destruct Hin as [now' (m1 & m2 & ->)%list_elem_of_split].
    assert (Hp : passed_time (m1 ++ [EvAttempt key now']) (failed + C)).
    { eapply (no_admission_while_blocked ops _ pre key failed m1 now' m2); [done|done|done|exact Hlog|exact Hsize| | |exact Hcount].
      - rewrite existsb_app in Hno. by apply orb_false_elim in Hno as [? _].
      - intros t Ht. apply Hmono. unfold key_failures. rewrite omap_app. set_solver. }
    destruct Hp as (t & Ht & Hle). exists t. split; [|done]. unfold log_times in *. rewrite omap_app in Ht |- *.
    cbn in *. set_solver.
Qed.
End Lockout.

(** * Examples and witnesses *)

(** The theorems on accounts and sessions at concrete runs, with a toy library in the place of
    libsodium; and two runs in which a login overlaps the work of an administrator. *)
Fixpoint repeat_char (n : nat) (c : ascii) : string :=
  match n with O => "" | S n => String c (repeat_char n c) end.

#[local] Instance toy_sodium : Sodium :=
  {| pwhash_str := fun _ password => Some ("hash of " +:+ password);
     pwhash_str_verify := fun hash password => String.eqb hash ("hash of " +:+ password);
     bin2base64 := fun raw => String (ascii_of_nat (Z.to_nat (hd 0 raw))) (repeat_char 42 "A");
     base642bin := fun text =>
       match text with
       | String c _ => Some (Z.of_nat (nat_of_ascii c) :: replicate 31 0, String.length text)
       | EmptyString => None end;
     sha256 := fun raw => raw |}.

Definition toy_config : AuthConfig := mkAuthConfig 36000 300 3 60.
Definition toy_random (c : Z) : list Z := c :: replicate 31 0.
Definition toy_header (c : ascii) : string := "Bearer " +:+ String c (repeat_char 42 "A").
Definition toy_run (ops : list AuthOp) : AuthState := auth_run toy_config "hash of nobody" auth_start ops.

(** A user logs in at second 1000. *)
Definition toy_login : list AuthOp :=
  [AuAddUser "Alice" "secret" " Alice A. " "salt" 900; AuLogin " ALICE" "secret" "10.0.0.7" 1000;
   AuStep 0 []; AuStep 0 (toy_random 77); AuStep 0 []].
Definition toy_alice : AuthenticatedUser := mkAuthenticatedUser 1 "alice" "Alice A." 37000.

Example auth_decides_witness :
  authenticateBearer (toy_header "M") 1500 (as_db (toy_run toy_login)) = Some toy_alice /\
  exists created, live (as_log (toy_run toy_login)) (toy_random 77) 1 created 37000.
Proof.
  assert (H : authenticateBearer (toy_header "M") 1500 (as_db (toy_run toy_login)) = Some toy_alice)
    by (vm_compute; reflexivity).
  split; [exact H|].
  destruct (proj1 (auth_decides toy_config "hash of nobody" toy_login (toy_header "M") 1500
    (toy_run toy_login) toy_alice eq_refl) H) as (d & c & row & Hd & Hl & _).
  assert (Hd' : d = toy_random 77) by (vm_compute in Hd |- *; congruence). rewrite Hd' in Hl.
  exists c. exact Hl.
Defined.

Example auth_session_origin_witness :
  exists before after hash password,
    take 3 (as_log (toy_run toy_login)) = before ++ EvVerified 1 hash password :: after /\
    pwhash_str_verify hash password = true.
Proof.
  destruct (auth_session_origin toy_config "hash of nobody" toy_login (toy_run toy_login)
    (toy_random 77) 1 1000 37000 (take 3 (as_log (toy_run toy_login)))
    (drop 4 (as_log (toy_run toy_login))) eq_refl) as (_ & before & after & hash & password & H & Hv & _);
    [vm_compute; reflexivity|].
  exists before, after, hash, password. split; [exact H|exact Hv].
Defined.

(** Three wrong passwords within the window; the fourth login waits until the cooldown is over. *)
Definition toy_wrong (i : nat) (now : Z) : list AuthOp :=
  [AuLogin "alice" "wrong" "" now; AuStep i []; AuStep i []].
Definition toy_attack : list AuthOp :=
  [AuAddUser "Alice" "secret" "" "salt" 900] ++ toy_wrong 0 1000 ++ toy_wrong 1 1001 ++ toy_wrong 2 1002 ++
  toy_wrong 3 1010 ++ toy_wrong 4 1062.
Definition toy_key : string := "unknown" +:+ String "010" "alice".

Example auth_lockout_witness :
  let log := as_log (toy_run toy_attack) in
  (passed_time (drop 7 log) (1002 + 60) \/
   (admissions (drop 7 log) toy_key = [] /\
    (length (key_failures (take 6 log ++ EvFailure toy_key 1002 :: drop 7 log) toy_key) <=
       length (admissions (take 6 log) toy_key))%nat)) /\
  admissions (drop 7 log) toy_key <> [].
Proof.
  split; [|vm_compute; congruence].
  apply (auth_lockout toy_config "hash of nobody" toy_attack (take 6 (as_log (toy_run toy_attack))) toy_key 1002
    (drop 7 (as_log (toy_run toy_attack)))).
  - reflexivity.
  - lia.
  - vm_compute. reflexivity.
  - apply Nat.ltb_lt. vm_compute. reflexivity.
  - reflexivity.
  - intros t Ht. vm_compute in Ht. apply list_elem_of_singleton in Ht. lia.
  - apply Z.leb_le. vm_compute. reflexivity.
Defined.

(** A fourth login that was admitted before the third failure compares its password during the block. *)
Example comparison_during_block :
  let y := toy_run ([AuAddUser "Alice" "secret" "" "salt" 900; AuLogin "alice" "secret" "" 1000] ++
    [AuLogin "alice" "wrong" "" 1000; AuStep 1 []; AuStep 1 []] ++ [AuLogin "alice" "wrong" "" 1001; AuStep 2 []; AuStep 2 []] ++
    [AuLogin "alice" "wrong" "" 1002; AuStep 3 []; AuStep 3 []; AuStep 0 []]) in
  last (as_log y) = Some (EvVerified 1 "hash of secret" "secret") /\
  (rateLimitRetryAfter toy_config toy_key 1003 (as_rate y)).1 = Some 59.
Proof. vm_compute. repeat split. Qed.

(** * Logins that overlap an administrator *)

(** A login that was verified before a new password was set stores its session afterwards, so the
    session of the old password survives. *)
Example old_password_survives_reset :
  let y := toy_run [AuAddUser "alice" "secret" "" "salt" 900; AuLogin "alice" "secret" "" 1000;
                    AuStep 0 []; AuReset "alice" "renewed" "salt" 1001;
                    AuStep 0 (toy_random 77); AuStep 0 []] in
  authenticateBearer (toy_header "M") 1500 (as_db y) = Some (mkAuthenticatedUser 1 "alice" "" 37000) /\
  pwhash_str_verify (user_hash 1 (as_db y)) "secret" = false.
Proof. split; vm_compute; reflexivity. Qed.

(** Likewise a session of a user who is disabled meanwhile works when the user is enabled again. *)
Example session_survives_disabling :
  let y := toy_run [AuAddUser "alice" "secret" "" "salt" 900; AuLogin "alice" "secret" "" 1000;
                    AuStep 0 []; AuSetEnabled "alice" false 1001; AuStep 0 (toy_random 77); AuStep 0 [];
                    AuSetEnabled "alice" true 1002] in
  authenticateBearer (toy_header "M") 1500 (as_db y) = Some (mkAuthenticatedUser 1 "alice" "" 37000).
Proof. vm_compute. reflexivity. Qed.
