(* ===== verification/Entrance.v ===== *)
(** Cars at the entrance, before any I/O: [src/entrance/EntranceBestShotCoordinator.cpp], which owns the
    life of each plate picture's object and hands out the right to take the next step, and
    [src/entrance/EntranceImageDeduplicator.cpp], which recognises a picture that the camera sends again
    under another object id. Every operation holds the mutex of its class, so it is one step. *)
From S2P Require Import Prelude.

(** * Data *)

(** [include/entrance/EntranceTypes.hpp:9-9 BestShotKind] *)
Inductive BestShotKind := VehicleShot | PlateShot.
#[global] Instance BestShotKind_eq_dec : EqDecision BestShotKind.
Proof. solve_decision. Defined.

(** [include/entrance/EntranceTypes.hpp:11-20 ObjectState] *)
Inductive ObjectState :=
| EvQueued | EvProcessing | OcrQueued | OcrProcessing | Finalizing | ObjectCompleted | ObjectFailed
| ObjectDuplicate.
#[global] Instance ObjectState_eq_dec : EqDecision ObjectState.
Proof. solve_decision. Defined.

(** [include/entrance/EntranceTypes.hpp:22-31 ObjectKey] *)
Record ObjectKey := mkObjectKey {
  ok_cameraId : string;
  ok_channelId : string;
  ok_objectId : string
}.
#[global] Instance ObjectKey_eq_dec : EqDecision ObjectKey.
Proof. solve_decision. Defined.
#[global] Instance ObjectKey_countable : Countable ObjectKey.
Proof.
  refine (inj_countable' (fun k => (ok_cameraId k, ok_channelId k, ok_objectId k))
            (fun t => mkObjectKey t.1.1 t.1.2 t.2) _).
  by intros [].
Defined.

(** [include/entrance/EntranceTypes.hpp:28-30 ObjectKey::text] *)
Definition object_text (key : ObjectKey) : string :=
  ok_cameraId key +:+ "|" +:+ ok_channelId key +:+ "|" +:+ ok_objectId key.

(** [include/entrance/EntranceTypes.hpp:44-50 BestShotEvent] *)
Record BestShotEvent := mkBestShotEvent {
  bse_key : ObjectKey;
  bse_kind : BestShotKind;
  bse_imageRef : string;
  bse_rtspUrl : string;
  bse_receivedAtEpochMs : Z
}.

(** [include/entrance/EntranceTypes.hpp:52-58 ObserveCode] *)
Inductive ObserveCode :=
| ObservedQueued | ObservedIgnored | DuplicateSuppressed | ObservedInvalid | CapacityRejected.
#[global] Instance ObserveCode_eq_dec : EqDecision ObserveCode.
Proof. solve_decision. Defined.

(** [include/entrance/EntranceTypes.hpp:60-66 ObserveResult] *)
Record ObserveResult := mkObserveResult {
  obr_code : ObserveCode;
  obr_key : ObjectKey;
  obr_state : ObjectState;
  obr_newObject : bool;
  obr_duplicateCount : N
}.

(** [include/entrance/EntranceTypes.hpp:68-73 ExpiredObject] Without the reason, a constant text. *)
Record ExpiredObject := mkExpiredObject {
  exo_key : ObjectKey;
  exo_eventId : Z;
  exo_duplicateCount : N
}.

(** [include/entrance/EntranceBestShotCoordinator.hpp:43-49 EntranceBestShotCoordinator::Entry] *)
Record CoordEntry := mkCoordEntry {
  ce_state : ObjectState;
  ce_eventId : Z;
  ce_firstSeenEpochMs : Z;
  ce_lastUpdatedEpochMs : Z;
  ce_duplicateCount : N
}.
Notation CoordEntries := (gmap ObjectKey CoordEntry).

Definition set_object_state (st : ObjectState) (e : CoordEntry) : CoordEntry :=
  mkCoordEntry st (ce_eventId e) (ce_firstSeenEpochMs e) (ce_lastUpdatedEpochMs e) (ce_duplicateCount e).

Definition terminal (st : ObjectState) : bool :=
  match st with ObjectCompleted | ObjectFailed | ObjectDuplicate => true | _ => false end.
Definition sweepable (st : ObjectState) : bool :=
  match st with EvQueued | EvProcessing | OcrQueued | OcrProcessing => true | _ => false end.

(** * The coordinator *)

Section Coordinator.
(** [objectTtlMs_] and [capacity_], which the constructor raises to at least one. *)
Variable objectTtlMs : Z.
Variable capacity : nat.

(** [src/entrance/EntranceBestShotCoordinator.cpp:181-194 EntranceBestShotCoordinator::eraseExpiredTerminalLocked] *)
Definition eraseExpiredTerminal (now : Z) (m : CoordEntries) : CoordEntries :=
  omap (fun e => if terminal (ce_state e) && (objectTtlMs <=? now - ce_lastUpdatedEpochMs e)
                 then None else Some e) m.

(** [src/entrance/EntranceBestShotCoordinator.cpp:13-55 EntranceBestShotCoordinator::observe] *)
Definition coord_observe (event : BestShotEvent) (m : CoordEntries) : ObserveResult * CoordEntries :=
  let key := bse_key event in
  let now := bse_receivedAtEpochMs event in
  let plain code := mkObserveResult code key EvQueued false 0 in
  if bool_decide (bse_kind event <> PlateShot) then (plain ObservedIgnored, m) else
  if is_empty (ok_cameraId key) || is_empty (ok_channelId key) || is_empty (ok_objectId key) ||
     is_empty (bse_imageRef event) || (now <=? 0)
  then (plain ObservedInvalid, m) else
  let m1 := eraseExpiredTerminal now m in
  match m1 !! key with
  | None =>
      if (capacity <=? size m1)%nat then (plain CapacityRejected, m1) else
      (mkObserveResult ObservedQueued key EvQueued true 0,
       <[key := mkCoordEntry EvQueued (-1) now now 0]> m1)
  | Some e =>
      let e' := mkCoordEntry (ce_state e) (ce_eventId e) (ce_firstSeenEpochMs e) now
                  (ce_duplicateCount e + 1) in
      (mkObserveResult DuplicateSuppressed key (ce_state e) false (ce_duplicateCount e'),
       <[key := e']> m1)
  end.

(** [src/entrance/EntranceBestShotCoordinator.cpp:57-66 EntranceBestShotCoordinator::bindEventId] *)
Definition coord_bindEventId (key : ObjectKey) (eventId : Z) (m : CoordEntries) : bool * CoordEntries :=
  if eventId <? 0 then (false, m) else
  match m !! key with
  | None => (false, m)
  | Some e =>
      if 0 <=? ce_eventId e then (ce_eventId e =? eventId, m) else
      (true, <[key := mkCoordEntry (ce_state e) eventId (ce_firstSeenEpochMs e)
                        (ce_lastUpdatedEpochMs e) (ce_duplicateCount e)]> m)
  end.

(** [src/entrance/EntranceBestShotCoordinator.cpp:68-75 EntranceBestShotCoordinator::eventId] *)
Definition coord_eventId (key : ObjectKey) (m : CoordEntries) : option Z :=
  match m !! key with
  | Some e => if ce_eventId e <? 0 then None else Some (ce_eventId e)
  | None => None
  end.

(** The move from one state to the next, which only one caller gets. *)
Definition coord_move (from to_ : ObjectState) (key : ObjectKey) (m : CoordEntries)
    : bool * CoordEntries :=
  match m !! key with
  | Some e => if bool_decide (ce_state e = from) then (true, <[key := set_object_state to_ e]> m)
              else (false, m)
  | None => (false, m)
  end.

(** [src/entrance/EntranceBestShotCoordinator.cpp:77-84 EntranceBestShotCoordinator::markEvProcessing] *)
Definition markEvProcessing := coord_move EvQueued EvProcessing.
(** [src/entrance/EntranceBestShotCoordinator.cpp:86-93 EntranceBestShotCoordinator::markOcrQueued] *)
Definition markOcrQueued := coord_move EvProcessing OcrQueued.
(** [src/entrance/EntranceBestShotCoordinator.cpp:95-102 EntranceBestShotCoordinator::markOcrProcessing] *)
Definition markOcrProcessing := coord_move OcrQueued OcrProcessing.
(** [src/entrance/EntranceBestShotCoordinator.cpp:104-111 EntranceBestShotCoordinator::beginFinalization] *)
Definition beginFinalization := coord_move OcrProcessing Finalizing.
(** [src/entrance/EntranceBestShotCoordinator.cpp:113-120 EntranceBestShotCoordinator::complete] *)
Definition coord_complete := coord_move Finalizing ObjectCompleted.
(** [src/entrance/EntranceBestShotCoordinator.cpp:132-139 EntranceBestShotCoordinator::markImageDuplicate] *)
Definition markImageDuplicate := coord_move EvQueued ObjectDuplicate.

(** [src/entrance/EntranceBestShotCoordinator.cpp:122-130 EntranceBestShotCoordinator::fail] *)
Definition coord_fail (key : ObjectKey) (m : CoordEntries) : bool * CoordEntries :=
  match m !! key with
  | Some e => if bool_decide (ce_state e = ObjectCompleted) || bool_decide (ce_state e = ObjectFailed)
              then (false, m) else (true, <[key := set_object_state ObjectFailed e]> m)
  | None => (false, m)
  end.

Definition expired (now : Z) (e : CoordEntry) : bool :=
  sweepable (ce_state e) && (objectTtlMs <=? now - ce_firstSeenEpochMs e).

(** [src/entrance/EntranceBestShotCoordinator.cpp:141-159 EntranceBestShotCoordinator::sweep] *)
Definition coord_sweep (now : Z) (m : CoordEntries) : list ExpiredObject * CoordEntries :=
  (omap (fun ke => if expired now ke.2
                   then Some (mkExpiredObject ke.1 (ce_eventId ke.2) (ce_duplicateCount ke.2)) else None)
     (map_to_list m),
   eraseExpiredTerminal now
     ((fun e => if expired now e
                then mkCoordEntry ObjectFailed (ce_eventId e) (ce_firstSeenEpochMs e) now (ce_duplicateCount e)
                else e) <$> m)).

(** [src/entrance/EntranceBestShotCoordinator.cpp:174-179 EntranceBestShotCoordinator::duplicateCount] *)
Definition coord_duplicateCount (key : ObjectKey) (m : CoordEntries) : N :=
  match m !! key with Some e => ce_duplicateCount e | None => 0 end.
End Coordinator.

(** * The deduplicator *)

(** [include/entrance/EntranceImageDeduplicator.hpp:16-23 ImageDedupResult] *)
Record ImageDedupResult := mkImageDedupResult {
  idr_fingerprinted : bool;
  idr_duplicate : bool;
  idr_canonicalKey : ObjectKey;
  idr_hammingDistance : Z;
  idr_duplicateCount : N;
  idr_canonicalEventId : option Z
}.

(** [include/entrance/EntranceImageDeduplicator.hpp:42-48 EntranceImageDeduplicator::Record] The hash is eight
    bytes. *)
Record DedupRecord := mkDedupRecord {
  dr_key : ObjectKey;
  dr_hash : list Z;
  dr_lastSeenEpochMs : Z;
  dr_eventId : Z;
  dr_duplicateCount : N
}.

(** [std::popcount] of a byte. *)
Definition popcount (x : Z) : Z := foldr (fun i acc => Z.b2z (Z.testbit x i) + acc) 0 [0; 1; 2; 3; 4; 5; 6; 7].

(** [src/entrance/EntranceImageDeduplicator.cpp:107-116 EntranceImageDeduplicator::hammingDistance] *)
Definition hammingDistance (left right : list Z) : Z :=
  foldr Z.add 0 (zip_with (fun a b => popcount (Z.lxor a b)) left right).

Section Deduplicator.
Variable windowMs hammingThreshold : Z.
Variable capacity : nat.

Definition same_channel (key : ObjectKey) (r : DedupRecord) : bool :=
  bool_decide (ok_cameraId (dr_key r) = ok_cameraId key) &&
  bool_decide (ok_channelId (dr_key r) = ok_channelId key).

(** The position of the first record of the camera's channel that is closest to the hash. *)
Fixpoint closest (key : ObjectKey) (hash : list Z) (rs : list DedupRecord) (i : nat)
    (best : option (nat * Z)) : option (nat * Z) :=
  match rs with
  | [] => best
  | r :: rest =>
      let d := hammingDistance (dr_hash r) hash in
      closest key hash rest (S i)
        (if negb (same_channel key r) then best else
         match best with
         | Some (_, b) => if d <? b then Some (i, d) else best
         | None => if d <? 2 ^ 31 - 1 then Some (i, d) else None
         end)
  end.

(** The position of the first record that was seen longest ago. *)
Fixpoint oldest_record (rs : list DedupRecord) (i : nat) (best : option (nat * Z)) : option nat :=
  match rs with
  | [] => fst <$> best
  | r :: rest =>
      oldest_record rest (S i)
        (match best with
         | Some (_, b) => if dr_lastSeenEpochMs r <? b then Some (i, dr_lastSeenEpochMs r) else best
         | None => Some (i, dr_lastSeenEpochMs r)
         end)
  end.

(** [src/entrance/EntranceImageDeduplicator.cpp:118-123 EntranceImageDeduplicator::eraseExpiredLocked] *)
Definition eraseExpiredRecords (now : Z) (rs : list DedupRecord) : list DedupRecord :=
  List.filter (fun r => negb (windowMs <=? now - dr_lastSeenEpochMs r)) rs.

(** [src/entrance/EntranceImageDeduplicator.cpp:21-69 EntranceImageDeduplicator::observe] With the fingerprint of
    the picture, if it has one. *)
Definition dedup_observe (key : ObjectKey) (fingerprint : option (list Z)) (now : Z)
    (rs : list DedupRecord) : ImageDedupResult * list DedupRecord :=
  match fingerprint with
  | None => (mkImageDedupResult false false key (-1) 0 None, rs)
  | Some hash =>
      let rs1 := eraseExpiredRecords now rs in
      let fresh :=
        let rs2 := if (capacity <=? length rs1)%nat
                   then match oldest_record rs1 0 None with Some i => delete i rs1 | None => rs1 end
                   else rs1 in
        (mkImageDedupResult true false key (-1) 0 None, rs2 ++ [mkDedupRecord key hash now (-1) 0]) in
      match closest key hash rs1 0 None with
      | Some (i, d) =>
          match rs1 !! i with
          | Some r =>
              if d <=? hammingThreshold then
                let r' := mkDedupRecord (dr_key r) (dr_hash r) now (dr_eventId r)
                            (dr_duplicateCount r + 1) in
                (mkImageDedupResult true true (dr_key r) d (dr_duplicateCount r')
                   (if 0 <=? dr_eventId r then Some (dr_eventId r) else None),
                 <[i := r']> rs1)
              else fresh
          | None => fresh
          end
      | None => fresh
      end
  end.

(** [src/entrance/EntranceImageDeduplicator.cpp:71-82 EntranceImageDeduplicator::bindEventId] *)
Definition dedup_bindEventId (key : ObjectKey) (eventId : Z) (rs : list DedupRecord)
    : bool * list DedupRecord :=
  if eventId <? 0 then (false, rs) else
  match list_find (fun r => dr_key r = key) rs with
  | None => (false, rs)
  | Some (i, r) =>
      if 0 <=? dr_eventId r then (dr_eventId r =? eventId, rs) else
      (true, <[i := mkDedupRecord (dr_key r) (dr_hash r) (dr_lastSeenEpochMs r) eventId
                      (dr_duplicateCount r)]> rs)
  end.
End Deduplicator.
