(* ===== verification/EntranceRights.v ===== *)
(** What the coordinator and the deduplicator of the entrance promise: an object goes along one path,
    so every right is given once; an object is not processed again before it was quiet for the
    time to live; the closest picture decides whether a picture is a duplicate. *)
From stdpp Require Import sorting.
From S2P Require Import Prelude Entrance.

(** * The coordinator's history *)

(** A right that was given for an object, or the end of the object. *)
Inductive ObjectStep := StepEv | StepOcrQueued | StepOcr | StepFinal | StepDone | StepFailed | StepDuplicate.
#[global] Instance ObjectStep_eq_dec : EqDecision ObjectStep.
Proof. solve_decision. Defined.

Inductive CoordEvent :=
| ObjectCreated (key : ObjectKey) (now : Z)
| ObjectStepped (key : ObjectKey) (step : ObjectStep).

Inductive CoordOp :=
| CoObserve (event : BestShotEvent)
| CoBind (key : ObjectKey) (eventId : Z)
| CoStep (key : ObjectKey) (step : ObjectStep)
| CoSweep (now : Z).

Record CoordSystem := mkCoordSystem {
  cs_entries : CoordEntries;
  cs_log : list CoordEvent
}.

(** The operation that gives a right. *)
Definition step_operation (step : ObjectStep) : ObjectKey -> CoordEntries -> bool * CoordEntries :=
  match step with
  | StepEv => markEvProcessing
  | StepOcrQueued => markOcrQueued
  | StepOcr => markOcrProcessing
  | StepFinal => beginFinalization
  | StepDone => coord_complete
  | StepFailed => coord_fail
  | StepDuplicate => markImageDuplicate
  end.

(** The state that a step leads to, where it is allowed. *)
Definition object_next (st : ObjectState) (step : ObjectStep) : option ObjectState :=
  match step, st with
  | StepEv, EvQueued => Some EvProcessing
  | StepOcrQueued, EvProcessing => Some OcrQueued
  | StepOcr, OcrQueued => Some OcrProcessing
  | StepFinal, OcrProcessing => Some Finalizing
  | StepDone, Finalizing => Some ObjectCompleted
  | StepDuplicate, EvQueued => Some ObjectDuplicate
  | StepFailed, (EvQueued | EvProcessing | OcrQueued | OcrProcessing | Finalizing | ObjectDuplicate) =>
      Some ObjectFailed
  | _, _ => None
  end.

Section Rights.
Variable ttl : Z.
Variable capacity : nat.

Definition coord_step (y : CoordSystem) (op : CoordOp) : CoordSystem :=
  let m := cs_entries y in
  match op with
  | CoObserve event =>
      let '(r, m') := coord_observe ttl capacity event m in
      mkCoordSystem m' (cs_log y ++ if obr_newObject r
                                    then [ObjectCreated (bse_key event) (bse_receivedAtEpochMs event)] else [])
  | CoBind key id => mkCoordSystem (coord_bindEventId key id m).2 (cs_log y)
  | CoStep key step =>
      let '(ok, m') := step_operation step key m in
      mkCoordSystem m' (cs_log y ++ if ok then [ObjectStepped key step] else [])
  | CoSweep now =>
      let '(gone, m') := coord_sweep ttl now m in
      mkCoordSystem m' (cs_log y ++ ((fun x => ObjectStepped (exo_key x) StepFailed) <$> gone))
  end.
Definition coord_run (ops : list CoordOp) : CoordSystem := foldl coord_step (mkCoordSystem ∅ []) ops.

(** The steps of a key since its last creation. *)
Definition object_path (log : list CoordEvent) (key : ObjectKey) : option (list ObjectStep) :=
  foldl (fun path x => match x with
                       | ObjectCreated k _ => if bool_decide (k = key) then Some [] else path
                       | ObjectStepped k s => if bool_decide (k = key) then (fun p => p ++ [s]) <$> path else path
                       end) None log.

Definition path_state (path : list ObjectStep) : option ObjectState :=
  foldl (fun st s => st ≫= fun st => object_next st s) (Some EvQueued) path.

Lemma object_path_snoc log x key :
  object_path (log ++ [x]) key =
  match x with
  | ObjectCreated k _ => if bool_decide (k = key) then Some [] else object_path log key
  | ObjectStepped k s => if bool_decide (k = key) then (fun p => p ++ [s]) <$> object_path log key
                         else object_path log key
  end.
Proof. unfold object_path. by rewrite foldl_app. Qed.
Lemma path_state_snoc path s : path_state (path ++ [s]) = path_state path ≫= fun st => object_next st s.
Proof. unfold path_state. by rewrite foldl_app. Qed.

(** The table and the history of a key agree. *)
Definition key_ok (y : CoordSystem) (key : ObjectKey) : Prop :=
  match cs_entries y !! key with
  | Some e => exists path, object_path (cs_log y) key = Some path /\ path_state path = Some (ce_state e)
  | None => forall path, object_path (cs_log y) key = Some path ->
      exists st, path_state path = Some st /\ terminal st = true
  end.

Lemma key_ok_same y y' key :
  key_ok y key -> object_path (cs_log y') key = object_path (cs_log y) key ->
  (ce_state <$> cs_entries y' !! key = ce_state <$> cs_entries y !! key) -> key_ok y' key.
Proof.
  unfold key_ok. intros H Hp He. rewrite Hp.
  destruct (cs_entries y' !! key) as [e'|], (cs_entries y !! key) as [e|]; simpl in He; try done.
  injection He as ->. done.
Qed.

Lemma key_ok_erased y now key log :
  log = cs_log y -> key_ok y key -> key_ok (mkCoordSystem (eraseExpiredTerminal ttl now (cs_entries y)) log) key.
Proof.
  intros ->. unfold key_ok, eraseExpiredTerminal. simpl. rewrite lookup_omap.
  destruct (cs_entries y !! key) as [e|]; simpl; [|done].
  destruct (terminal (ce_state e) && _) eqn:Ht; [|done]. intros (path & Hp & Hst) path' Hp'.
  apply andb_prop in Ht as [Ht _]. simplify_eq. by exists (ce_state e).
Qed.

Lemma step_operation_spec step key m :
  step_operation step key m = (false, m) \/
  exists e st, m !! key = Some e /\ object_next (ce_state e) step = Some st /\
    step_operation step key m = (true, <[key := set_object_state st e]> m).
Proof.
  destruct step; simpl; unfold markEvProcessing, markOcrQueued, markOcrProcessing, beginFinalization,
    coord_complete, markImageDuplicate, coord_move, coord_fail;
    (destruct (m !! key) as [e|] eqn:He; [|by left]);
    destruct (ce_state e) eqn:Hs; simpl; try (by left); right; exists e; eexists; rewrite Hs; done.
Qed.

Lemma key_ok_step y key step k e st :
  cs_entries y !! k = Some e -> object_next (ce_state e) step = Some st -> key_ok y key ->
  key_ok (mkCoordSystem (<[k := set_object_state st e]> (cs_entries y))
            (cs_log y ++ [ObjectStepped k step])) key.
Proof.
  intros He Hn H. unfold key_ok in *. cbn [cs_entries cs_log]. rewrite object_path_snoc.
  destruct (decide (k = key)) as [-> | Hne].
  - rewrite bool_decide_eq_true_2, lookup_insert_eq by done. rewrite He in H.
    destruct H as (path & -> & Hst). exists (path ++ [step]). simpl. split; [done|].
    by rewrite path_state_snoc, Hst.
  - by rewrite bool_decide_eq_false_2, lookup_insert_ne by done.
Qed.

Lemma coord_observe_ok y event key :
  (forall k, key_ok y k) -> key_ok (coord_step y (CoObserve event)) key.
Proof.
  intros Hall. unfold coord_step, coord_observe.
  assert (Hsame : key_ok (mkCoordSystem (cs_entries y) (cs_log y ++ [])) key)
    by (rewrite app_nil_r; by destruct y; apply Hall).
  destruct (bool_decide _); [done|]. destruct (_ || _); [done|].
  set (now := bse_receivedAtEpochMs event). set (k := bse_key event).
  assert (Her : forall k', key_ok (mkCoordSystem (eraseExpiredTerminal ttl now (cs_entries y)) (cs_log y)) k')
    by (intros k'; by apply key_ok_erased).
  destruct (eraseExpiredTerminal ttl now (cs_entries y) !! k) as [e|] eqn:He; simpl.
  - rewrite app_nil_r. eapply (key_ok_same _ _ key (Her key)); [done|]. simpl.
    destruct (decide (k = key)) as [<- | Hne]; [by rewrite lookup_insert_eq, He|by rewrite lookup_insert_ne].
  - destruct (_ <=? _)%nat; simpl; [rewrite app_nil_r; apply Her|].
    unfold key_ok. cbn [cs_entries cs_log]. rewrite object_path_snoc.
    destruct (decide (k = key)) as [<- | Hne].
    + rewrite lookup_insert_eq, bool_decide_eq_true_2 by done. by exists [].
    + rewrite lookup_insert_ne, bool_decide_eq_false_2 by done. apply (Her key).
Qed.

Definition swept (now : Z) (l : list (ObjectKey * CoordEntry)) : list CoordEvent :=
  (fun x => ObjectStepped (exo_key x) StepFailed) <$>
    omap (fun ke => if expired ttl now ke.2
                    then Some (mkExpiredObject ke.1 (ce_eventId ke.2) (ce_duplicateCount ke.2)) else None) l.

Lemma swept_other now l log key :
  key ∉ l.*1 -> object_path (log ++ swept now l) key = object_path log key.
Proof.
  revert log. induction l as [|[k e] l IH]; intros log Hno; [by rewrite app_nil_r|].
  rewrite fmap_cons, not_elem_of_cons in Hno. destruct Hno as [Hne Hno]. unfold swept. simpl.
  destruct (expired ttl now e); [|by apply IH]. simpl.
  replace (log ++ ObjectStepped k StepFailed :: _) with ((log ++ [ObjectStepped k StepFailed]) ++ swept now l)
    by (by rewrite <- app_assoc).
  rewrite IH, object_path_snoc by done. by rewrite bool_decide_eq_false_2 by done.
Qed.

Lemma swept_path now l log key e :
  NoDup l.*1 -> (key, e) ∈ l ->
  object_path (log ++ swept now l) key =
  if expired ttl now e then (fun p => p ++ [StepFailed]) <$> object_path log key else object_path log key.
Proof.
  revert log. induction l as [|[k e'] l IH]; intros log Hnd Hin; [by apply elem_of_nil in Hin|].
  apply NoDup_cons in Hnd as [Hno Hnd]. simpl in Hno. apply elem_of_cons in Hin as [[= <- <-] | Hin].
  - unfold swept. simpl. destruct (expired ttl now e); [|by apply swept_other].
    simpl. replace (log ++ ObjectStepped key StepFailed :: _)
      with ((log ++ [ObjectStepped key StepFailed]) ++ swept now l) by (by rewrite <- app_assoc).
    rewrite swept_other, object_path_snoc by done. by rewrite bool_decide_eq_true_2.
  - assert (Hne : k <> key) by (intros ->; apply Hno; by apply (list_elem_of_fmap_2 fst l (key, e))).
    unfold swept. simpl. destruct (expired ttl now e'); [|by apply IH].
    simpl. replace (log ++ ObjectStepped k StepFailed :: _)
      with ((log ++ [ObjectStepped k StepFailed]) ++ swept now l) by (by rewrite <- app_assoc).
    rewrite IH, object_path_snoc by done. by rewrite bool_decide_eq_false_2 by done.
Qed.

Lemma coord_sweep_ok y now key : (forall k, key_ok y k) -> key_ok (coord_step y (CoSweep now)) key.
Proof.
  intros Hall. unfold coord_step, coord_sweep. cbv zeta beta iota.
  set (m' := _ <$> cs_entries y).
  change (key_ok (mkCoordSystem (eraseExpiredTerminal ttl now m')
                    (cs_log y ++ swept now (map_to_list (cs_entries y)))) key).
  apply (key_ok_erased (mkCoordSystem m' (cs_log y ++ swept now (map_to_list (cs_entries y))))); [done|].
  specialize (Hall key). unfold key_ok in *. cbn [cs_entries cs_log]. subst m'. rewrite lookup_fmap.
  destruct (cs_entries y !! key) as [e|] eqn:He; simpl.
  - rewrite (swept_path now _ _ key e); [|apply NoDup_fst_map_to_list|by apply elem_of_map_to_list].
    destruct Hall as (path & -> & Hst). destruct (expired ttl now e) eqn:Hx; [|by exists path].
    exists (path ++ [StepFailed]). simpl. split; [done|]. rewrite path_state_snoc, Hst. simpl.
    unfold expired in Hx. by destruct (ce_state e).
  - rewrite swept_other; [done|]. intros ((k, e) & -> & Hin)%list_elem_of_fmap_1.
    apply elem_of_map_to_list in Hin. simpl in He. congruence.
Qed.

Lemma coord_step_ok y op : (forall k, key_ok y k) -> forall k, key_ok (coord_step y op) k.
Proof.
  intros Hall key. destruct op as [event|k id|k step|now].
  - by apply coord_observe_ok.
  - eapply (key_ok_same y); [done|done|]. simpl. unfold coord_bindEventId.
    destruct (id <? 0); [done|]. destruct (cs_entries y !! k) as [e|] eqn:He; [|done].
    destruct (0 <=? ce_eventId e); [done|]. simpl.
    destruct (decide (k = key)) as [<- | Hne]; [by rewrite lookup_insert_eq, He|by rewrite lookup_insert_ne].
  - unfold coord_step. destruct (step_operation_spec step k (cs_entries y)) as [-> | (e & st & He & Hn & ->)].
    + rewrite app_nil_r. by destruct y; apply Hall.
    + by apply key_ok_step.
  - by apply coord_sweep_ok.
Qed.

Lemma coord_run_ok ops key : key_ok (coord_run ops) key.
Proof.
  unfold coord_run. assert (H : forall k, key_ok (mkCoordSystem ∅ []) k)
    by (intros k; unfold key_ok; simpl; by rewrite lookup_empty).
  revert key H.
  generalize (mkCoordSystem ∅ []). induction ops as [|op ops IH]; intros y key H; [done|].
  apply IH. by apply coord_step_ok.
Qed.

(** ** One path *)

Definition main_path : list ObjectStep := [StepEv; StepOcrQueued; StepOcr; StepFinal; StepDone].

(** The paths of an object: along the main path, a failure before its end, or a duplicate picture,
    which may still be called a failure. *)
Definition object_path_ok (path : list ObjectStep) : Prop :=
  path `prefix_of` main_path \/
  (exists p s rest, path = p ++ [StepFailed] /\ main_path = p ++ s :: rest) \/
  path = [StepDuplicate] \/ path = [StepDuplicate; StepFailed].

Lemma allowed_path path st : path_state path = Some st -> object_path_ok path.
Proof.
  assert (H : forall path, path_state path <> None ->
    path ∈ [[]; [StepEv]; [StepEv; StepOcrQueued]; [StepEv; StepOcrQueued; StepOcr];
            [StepEv; StepOcrQueued; StepOcr; StepFinal]; main_path; [StepFailed]; [StepEv; StepFailed];
            [StepEv; StepOcrQueued; StepFailed]; [StepEv; StepOcrQueued; StepOcr; StepFailed];
            [StepEv; StepOcrQueued; StepOcr; StepFinal; StepFailed]; [StepDuplicate];
            [StepDuplicate; StepFailed]]).
  { clear. intros path. induction path as [|s path IH] using rev_ind; [set_solver|].
    rewrite path_state_snoc. intros Hp. assert (Hpre : path_state path <> None) by (by destruct (path_state path)).
    specialize (IH Hpre). repeat (apply elem_of_cons in IH as [-> | IH]; [destruct s; cbn in Hp;
      first [by destruct (Hp eq_refl) | apply (bool_decide_unpack _); reflexivity]|]).
    by apply elem_of_nil in IH. }
  intros Hp. assert (Hin : path_state path <> None) by congruence. apply H in Hin. clear H Hp.
  repeat (apply elem_of_cons in Hin as [-> | Hin]).
  1: by left; exists main_path.
  1: left; by eexists.
  1: left; by eexists.
  1: left; by eexists.
  1: left; by eexists.
  1: by left; exists [].
  1: by right; left; exists []; eexists _, _.
  1: by right; left; exists [StepEv]; eexists _, _.
  1: by right; left; exists [StepEv; StepOcrQueued]; eexists _, _.
  1: by right; left; exists [StepEv; StepOcrQueued; StepOcr]; eexists _, _.
  1: by right; left; exists [StepEv; StepOcrQueued; StepOcr; StepFinal]; eexists _, _.
  1: by right; right; left.
  1: by right; right; right.
  by apply elem_of_nil in Hin.
Qed.

(** C29 [safety] An object goes along one path. Over every sequence of operations of the coordinator, the rights
    that were given for an object since it was created are, in this order and each at most once,
    the EV analysis, the queueing of the OCR, the OCR, the finalisation and the completion,
    cut short by at most one failure; or the picture was a duplicate. And the state that the table
    shows is the one that this path leads to. *)
Theorem entrance_single_path ops key path :
  object_path (cs_log (coord_run ops)) key = Some path ->
  object_path_ok path /\ NoDup path /\
  match cs_entries (coord_run ops) !! key with
  | Some e => path_state path = Some (ce_state e)
  | None => exists st, path_state path = Some st /\ terminal st = true
  end.
Proof.
  intros Hp. pose proof (coord_run_ok ops key) as H. unfold key_ok in H.
  assert (Hst : exists st, path_state path = Some st /\
    match cs_entries (coord_run ops) !! key with Some e => st = ce_state e | None => terminal st = true end).
  { destruct (cs_entries (coord_run ops) !! key) as [e|].
    - destruct H as (p & Hp' & Hs). simplify_eq. by exists (ce_state e).
    - destruct (H path Hp) as (st & Hs & Ht). by exists st. }
  destruct Hst as (st & Hs & Hm). pose proof (allowed_path path st Hs) as Hok. split; [done|]. split.
  - assert (Hmain : NoDup main_path) by (apply (bool_decide_unpack _); reflexivity).
    destruct Hok as [[rest Hr] | [(p & s & rest & -> & Hm') | [-> | ->]]].
    + rewrite Hr in Hmain. by apply NoDup_app in Hmain as [? _].
    + assert (Hf : StepFailed ∉ main_path) by (apply (bool_decide_unpack _); reflexivity).
      rewrite Hm' in Hmain, Hf. apply NoDup_app in Hmain as [Hnd _]. apply NoDup_app. split; [done|].
      split; [|apply NoDup_singleton]. intros x Hx ->%list_elem_of_singleton. apply Hf. set_solver.
    + apply NoDup_singleton.
    + apply (bool_decide_unpack _). reflexivity.
  - destruct (cs_entries (coord_run ops) !! key) as [e|]; [by subst|]. by exists st.
Qed.

(** ** Not again within the time to live *)

Definition creation_times (log : list CoordEvent) (key : ObjectKey) : list Z :=
  omap (fun x => match x with ObjectCreated k now => if bool_decide (k = key) then Some now else None
                         | _ => None end) log.

Definition coord_op_time (op : CoordOp) : option Z :=
  match op with
  | CoObserve event => Some (bse_receivedAtEpochMs event)
  | CoSweep now => Some now
  | _ => None
  end.

Definition spaced (a b : Z) : Prop := a + ttl <= b.

(** At a clock reading: an object that is tracked was updated since its creation, one that is not was
    created a time to live ago. *)
Record quiet_ok (clock : Z) (y : CoordSystem) (key : ObjectKey) : Prop := {
  qo_spaced : Sorted spaced (creation_times (cs_log y) key);
  qo_created : forall c, last (creation_times (cs_log y) key) = Some c ->
    match cs_entries y !! key with
    | Some e => c <= ce_lastUpdatedEpochMs e
    | None => c + ttl <= clock
    end;
  qo_updated : forall e, cs_entries y !! key = Some e -> ce_lastUpdatedEpochMs e <= clock
}.

Lemma creation_snoc log x key :
  creation_times (log ++ [x]) key =
  creation_times log key ++ match x with
                            | ObjectCreated k now => if bool_decide (k = key) then [now] else []
                            | _ => [] end.
Proof. unfold creation_times. rewrite omap_app. simpl. by destruct x; [case_bool_decide|]. Qed.

Lemma creation_swept now l log key : creation_times (log ++ swept now l) key = creation_times log key.
Proof.
  unfold creation_times. rewrite omap_app. replace (omap _ (swept now l)) with (@nil Z);
    [by rewrite app_nil_r|].
  induction l as [|[k e] l IH]; [done|]. unfold swept in *. simpl. by destruct (expired ttl now e).
Qed.

Lemma sorted_snoc (l : list Z) x :
  Sorted spaced l -> (forall c, last l = Some c -> spaced c x) -> Sorted spaced (l ++ [x]).
Proof.
  intros Hs Hl. induction l as [|a l IH]; [by repeat constructor|]. simpl. inversion Hs as [|? ? H1 H2]; subst.
  constructor.
  - apply IH; [done|]. intros c Hc. apply Hl. destruct l; [done|]. exact Hc.
  - destruct l as [|b l]; simpl; constructor; [by apply Hl|]. by inversion H2.
Qed.

Lemma quiet_entry clock clock' y key m' :
  quiet_ok clock y key -> clock <= clock' ->
  match cs_entries y !! key, m' !! key with
  | Some e, Some e' => ce_lastUpdatedEpochMs e <= ce_lastUpdatedEpochMs e' <= clock'
  | Some e, None => ce_lastUpdatedEpochMs e + ttl <= clock'
  | None, None => True
  | None, Some _ => False
  end -> quiet_ok clock' (mkCoordSystem m' (cs_log y)) key.
Proof.
  intros [Hs Hc Hu] Hle H. split; simpl; [done| |].
  - intros c Hl. specialize (Hc c Hl). destruct (cs_entries y !! key), (m' !! key); lia.
  - intros e He. rewrite He in H. destruct (cs_entries y !! key); [lia|done].
Qed.
Lemma quiet_later clock clock' y key : quiet_ok clock y key -> clock <= clock' -> quiet_ok clock' y key.
Proof.
  intros Hq Hle. destruct y as [m log]. apply (quiet_entry clock clock' (mkCoordSystem m log)); [done|done|].
  simpl. destruct (m !! key) as [e|] eqn:He; [|done]. pose proof (qo_updated _ _ _ Hq e He). lia.
Qed.

Lemma erase_lookup now (m : CoordEntries) key :
  eraseExpiredTerminal ttl now m !! key = m !! key \/
  eraseExpiredTerminal ttl now m !! key = None /\ exists e, m !! key = Some e /\ ce_lastUpdatedEpochMs e + ttl <= now.
Proof.
  unfold eraseExpiredTerminal. rewrite lookup_omap. destruct (m !! key) as [e|]; simpl; [|by left].
  destruct (_ && _) eqn:H; [|by left]. right. split; [done|]. exists e. split; [done|].
  apply andb_prop in H as [_ H]. lia.
Qed.

Lemma quiet_erased clock now y key :
  quiet_ok clock y key -> clock <= now ->
  quiet_ok now (mkCoordSystem (eraseExpiredTerminal ttl now (cs_entries y)) (cs_log y)) key.
Proof.
  intros Hq Hle. apply (quiet_entry clock); [done|done|].
  destruct (erase_lookup now (cs_entries y) key) as [-> | [-> (e & -> & H)]]; [|done].
  destruct (cs_entries y !! key) as [e|] eqn:He; [|done]. pose proof (qo_updated _ _ _ Hq e He). lia.
Qed.

(** Entries that keep their time and do not appear or vanish. *)
Lemma quiet_same clock y key m' events :
  quiet_ok clock y key ->
  (ce_lastUpdatedEpochMs <$> m' !! key) = (ce_lastUpdatedEpochMs <$> cs_entries y !! key) ->
  creation_times (cs_log y ++ events) key = creation_times (cs_log y) key ->
  quiet_ok clock (mkCoordSystem m' (cs_log y ++ events)) key.
Proof.
  intros [Hs Hc Hu] He Hev. split; simpl; rewrite ?Hev; [done| |].
  - intros c Hl. specialize (Hc c Hl). destruct (m' !! key), (cs_entries y !! key); simpl in He; simplify_eq; lia.
  - intros e' He'. rewrite He' in He. destruct (cs_entries y !! key); simpl in He; simplify_eq.
    rewrite He. by apply Hu.
Qed.

Lemma quiet_observe clock y event key :
  quiet_ok clock y key -> clock <= bse_receivedAtEpochMs event ->
  quiet_ok (bse_receivedAtEpochMs event) (coord_step y (CoObserve event)) key.
Proof.
  intros Hq Hle. unfold coord_step, coord_observe. set (now := bse_receivedAtEpochMs event) in *.
  assert (Hsame : quiet_ok now (mkCoordSystem (cs_entries y) (cs_log y ++ [])) key).
  { rewrite app_nil_r. destruct y. by apply (quiet_later clock). }
  destruct (bool_decide _); [done|]. destruct (_ || _); [done|]. set (k := bse_key event).
  pose proof (quiet_erased clock now y key Hq Hle) as Her.
  destruct (eraseExpiredTerminal ttl now (cs_entries y) !! k) as [e|] eqn:He; simpl.
  - rewrite app_nil_r. apply (quiet_entry now now _ _ _ Her); [done|]. simpl.
    destruct (decide (k = key)) as [<- | Hne].
    + rewrite lookup_insert_eq, He. simpl. pose proof (qo_updated _ _ _ Her e He). lia.
    + rewrite lookup_insert_ne by done. destruct (_ !! key) as [e'|] eqn:He'; [|done].
      pose proof (qo_updated _ _ _ Her e' He'). lia.
  - destruct (_ <=? _)%nat; simpl; [by rewrite app_nil_r|].
    destruct Her as [Hs Hc Hu]. simpl in Hs, Hc, Hu. split; simpl; rewrite ?creation_snoc.
    + destruct (decide (k = key)) as [<- | Hne]; [|by rewrite bool_decide_eq_false_2, app_nil_r].
      rewrite bool_decide_eq_true_2 by done. apply sorted_snoc; [done|]. intros c Hl. specialize (Hc c Hl).
      by rewrite He in Hc.
    + destruct (decide (k = key)) as [<- | Hne].
      * rewrite bool_decide_eq_true_2, last_snoc, lookup_insert_eq by done. intros c [= <-]. simpl. lia.
      * rewrite bool_decide_eq_false_2, app_nil_r, lookup_insert_ne by done. exact Hc.
    + intros e' He'. apply lookup_insert_Some in He' as [[_ <-] | [_ He']]; [simpl; lia|by apply Hu].
Qed.

Lemma quiet_sweep clock y now key :
  quiet_ok clock y key -> clock <= now -> quiet_ok now (coord_step y (CoSweep now)) key.
Proof.
  intros Hq Hle. unfold coord_step, coord_sweep. cbv zeta beta iota. set (m' := _ <$> cs_entries y).
  change (quiet_ok now (mkCoordSystem (eraseExpiredTerminal ttl now m')
                          (cs_log y ++ swept now (map_to_list (cs_entries y)))) key).
  assert (Hm : quiet_ok now (mkCoordSystem m' (cs_log y)) key).
  { apply (quiet_entry clock); [done|done|]. subst m'. rewrite lookup_fmap.
    destruct (cs_entries y !! key) as [e|] eqn:He; [|done]. simpl. pose proof (qo_updated _ _ _ Hq e He).
    destruct (expired ttl now e); simpl; lia. }
  pose proof (quiet_erased now now _ key Hm (Z.le_refl now)) as He. simpl in He.
  destruct He as [Hs Hc Hu]. split; simpl in *; rewrite ?creation_swept; done.
Qed.

Lemma quiet_step clock y op key :
  quiet_ok clock y key -> (forall t, coord_op_time op = Some t -> clock <= t) ->
  quiet_ok (default clock (coord_op_time op)) (coord_step y op) key.
Proof.
  intros Hq Ht. destruct op as [event|k id|k step|now]; simpl in Ht |- *.
  - apply (quiet_observe clock); auto.
  - rewrite <- (app_nil_r (cs_log y)). apply quiet_same; [done| |by rewrite app_nil_r].
    unfold coord_bindEventId. destruct (id <? 0); [done|].
    destruct (cs_entries y !! k) as [e|] eqn:He; [|done]. destruct (0 <=? ce_eventId e); [done|]. simpl.
    destruct (decide (k = key)) as [<- | Hne]; [by rewrite lookup_insert_eq, He|by rewrite lookup_insert_ne].
  - destruct (step_operation_spec step k (cs_entries y)) as [-> | (e & st & He & Hn & ->)];
      (apply quiet_same; [done| |]).
    + done.
    + by rewrite app_nil_r.
    + destruct (decide (k = key)) as [<- | Hne]; [by rewrite lookup_insert_eq, He|by rewrite lookup_insert_ne].
    + by rewrite creation_snoc, app_nil_r.
  - apply (quiet_sweep clock); auto.
Qed.

(** The clock readings of the operations never go back. *)
Fixpoint clocked (clock : Z) (ops : list CoordOp) : Prop :=
  match ops with
  | [] => True
  | op :: rest => (forall t, coord_op_time op = Some t -> clock <= t) /\
                  clocked (default clock (coord_op_time op)) rest
  end.

Lemma quiet_run clock ops y key :
  clocked clock ops -> quiet_ok clock y key -> exists clock', quiet_ok clock' (foldl coord_step y ops) key.
Proof.
  revert clock y. induction ops as [|op ops IH]; intros clock y Hc Hq; [by exists clock|].
  destruct Hc as [Ht Hc]. apply (IH _ _ Hc). by apply quiet_step.
Qed.

Lemma coord_step_size y op :
  (size (cs_entries y) <= capacity)%nat -> (size (cs_entries (coord_step y op)) <= capacity)%nat.
Proof.
  intros Hle.
  assert (Her : forall now (m : CoordEntries), (size m <= capacity)%nat ->
            (size (eraseExpiredTerminal ttl now m) <= capacity)%nat).
  { intros now m H. rewrite <- (size_dom (D:=gset ObjectKey)) in *. etransitivity; [|exact H].
    apply subseteq_size. intros k Hk. apply elem_of_dom in Hk as [e Hk]. apply elem_of_dom.
    unfold eraseExpiredTerminal in Hk. rewrite lookup_omap in Hk. apply bind_Some in Hk as (r & Hr & _). by exists r. }
  assert (Hins : forall (m : CoordEntries) k e e', m !! k = Some e -> (size m <= capacity)%nat ->
            (size (<[k := e']> m) <= capacity)%nat).
  { intros m k e e' H Hs. by rewrite map_size_insert_Some by by eexists. }
  destruct op as [event|k id|k step|now]; simpl.
  - unfold coord_observe. destruct (bool_decide _); [done|]. destruct (_ || _); [done|].
    destruct (_ !! bse_key event) as [e|] eqn:He; simpl; [eapply Hins; [exact He|by apply Her]|].
    destruct (Nat.leb_spec capacity (size (eraseExpiredTerminal ttl (bse_receivedAtEpochMs event) (cs_entries y))));
      simpl; [by apply Her|]. rewrite map_size_insert_None by done. lia.
  - unfold coord_bindEventId. destruct (id <? 0); [done|]. destruct (cs_entries y !! k) as [e|] eqn:He; [|done].
    destruct (0 <=? ce_eventId e); [done|]. simpl. by eapply Hins.
  - destruct (step_operation_spec step k (cs_entries y)) as [-> | (e & st & He & Hn & ->)]; [done|].
    simpl. by eapply Hins.
  - apply Her. by rewrite map_size_fmap.
Qed.

(** An object is not processed again too early: when the clock readings do not go back, two
    creations of the same object are at least the time to live apart; and the table never holds
    more objects than its capacity. *)
Theorem entrance_not_again ops key clock :
  clocked clock ops ->
  Sorted (fun a b => a + ttl <= b) (creation_times (cs_log (coord_run ops)) key) /\
  (size (cs_entries (coord_run ops)) <= capacity)%nat.
Proof.
  intros Hc. split.
  - assert (Hq : quiet_ok clock (mkCoordSystem ∅ []) key) by (split; [constructor|done|done]).
    destruct (quiet_run clock ops _ key Hc Hq) as [clock' [Hs _ _]]. exact Hs.
  - clear Hc. unfold coord_run. assert (H : (size (cs_entries (mkCoordSystem ∅ [])) <= capacity)%nat) by (simpl; rewrite map_size_empty; lia).
    revert H. generalize (mkCoordSystem ∅ []). induction ops as [|op ops IH]; intros y H; [done|].
    by apply IH, coord_step_size.
Qed.
End Rights.

(** * The closest picture *)

Lemma popcount_range x : 0 <= popcount x <= 8.
Proof.
  unfold popcount. cbn [foldr].
  assert (H : forall i, 0 <= Z.b2z (Z.testbit x i) <= 1) by (intros i; destruct (Z.testbit x i); simpl; lia).
  pose proof (H 0). pose proof (H 1). pose proof (H 2). pose proof (H 3). pose proof (H 4). pose proof (H 5).
  pose proof (H 6). pose proof (H 7). lia.
Qed.

Lemma hamming_range left right : length right = 8%nat -> 0 <= hammingDistance left right <= 64.
Proof.
  intros Hr. unfold hammingDistance.
  assert (H : forall l r, 0 <= foldr Z.add 0 (zip_with (fun a b => popcount (Z.lxor a b)) l r)
                            <= 8 * Z.of_nat (length r)).
  { clear. induction l as [|a l IH]; intros r; [simpl; lia|]. destruct r as [|b r]; [simpl; lia|].
    simpl zip_with. simpl foldr. simpl length. specialize (IH r). pose proof (popcount_range (Z.lxor a b)). lia. }
  specialize (H left right). rewrite Hr in H. lia.
Qed.

Section Closest.
Variable windowMs hammingThreshold : Z.
Variable capacity : nat.

Definition distance_of (hash : list Z) (r : DedupRecord) : Z := hammingDistance (dr_hash r) hash.

(** [best] is the position and distance of the first closest record among those of the channel. *)
Definition best_of (key : ObjectKey) (hash : list Z) (rs : list DedupRecord) (best : option (nat * Z)) : Prop :=
  match best with
  | Some (i, d) => exists r, rs !! i = Some r /\ same_channel key r = true /\ distance_of hash r = d /\
                     forall r', r' ∈ rs -> same_channel key r' = true -> d <= distance_of hash r'
  | None => forall r, r ∈ rs -> same_channel key r = false
  end.

Lemma closest_best key hash rs before best :
  length hash = 8%nat -> best_of key hash before best ->
  best_of key hash (before ++ rs) (closest key hash rs (length before) best).
Proof.
  intros Hh. revert before best. induction rs as [|r rs IH]; intros before best Hb; simpl; [by rewrite app_nil_r|].
  replace (before ++ r :: rs) with ((before ++ [r]) ++ rs) by (by rewrite <- app_assoc).
  replace (S (length before)) with (length (before ++ [r])) by (rewrite length_app; simpl; lia).
  apply IH. pose proof (hamming_range (dr_hash r) hash Hh) as Hd. fold (distance_of hash r) in *.
  assert (Hold : forall i d, best_of key hash before (Some (i, d)) ->
            (same_channel key r = true -> d <= distance_of hash r) ->
            best_of key hash (before ++ [r]) (Some (i, d))).
  { intros i d (r0 & H1 & H2 & H3 & H4) Hle. exists r0. split; [by apply lookup_app_l_Some|].
    split; [done|]. split; [done|]. intros r' [Hin | ->%list_elem_of_singleton]%elem_of_app Hs; [by apply H4|by apply Hle]. }
  assert (Hnew : same_channel key r = true ->
            (forall r', r' ∈ before -> same_channel key r' = true -> distance_of hash r <= distance_of hash r') ->
            best_of key hash (before ++ [r]) (Some (length before, distance_of hash r))).
  { intros Hs Hle. exists r. split; [by apply list_lookup_middle|]. split; [done|]. split; [done|].
    intros r' [Hin | ->%list_elem_of_singleton]%elem_of_app Hs'; [by apply Hle|lia]. }
  destruct (same_channel key r) eqn:Hs; cbn [negb].
  - destruct best as [[i d]|].
    + destruct Hb as (r0 & Hb). destruct (Z.ltb_spec (distance_of hash r) d).
      * apply Hnew; [done|]. intros r' Hr' Hs'. destruct Hb as (_ & _ & _ & Hb). specialize (Hb r' Hr' Hs'). lia.
      * apply Hold; [by exists r0|lia].
    + rewrite (proj2 (Z.ltb_lt _ _)) by lia. apply Hnew; [done|]. intros r' Hr' Hs'.
      by rewrite (Hb r' Hr') in Hs'.
  - destruct best as [[i d]|]; [by apply Hold|].
    intros r' [Hin | ->%list_elem_of_singleton]%elem_of_app; [by apply Hb|done].
Qed.

Lemma oldest_in rs i best :
  (match best with Some (j, _) => j < i | None => True end)%nat ->
  match oldest_record rs i best with
  | Some j => (j < i + length rs)%nat
  | None => best = None /\ rs = []
  end.
Proof.
  revert i best. induction rs as [|r rs IH]; intros i best Hb; simpl.
  - destruct best as [[j t]|]; simpl; [lia|done].
  - specialize (IH (S i) (match best with
      | Some (_, b) => if dr_lastSeenEpochMs r <? b then Some (i, dr_lastSeenEpochMs r) else best
      | None => Some (i, dr_lastSeenEpochMs r) end)).
    destruct best as [[j b]|].
    + destruct (dr_lastSeenEpochMs r <? b); (destruct (oldest_record _ _ _); [specialize (IH ltac:(lia)); lia|
        by destruct IH as [? _]; [lia|]]).
    + destruct (oldest_record _ _ _); [specialize (IH ltac:(lia)); lia|by destruct IH as [? _]; [lia|]].
Qed.

Lemma eviction_fits (live : list DedupRecord) x :
  (1 <= capacity)%nat -> (length live <= capacity)%nat ->
  (length ((if (capacity <=? length live)%nat
            then match oldest_record live 0 None with Some i => delete i live | None => live end
            else live) ++ [x]) <= capacity)%nat.
Proof.
  intros Hcap Hlive. rewrite length_app. simpl.
  destruct (Nat.leb_spec capacity (length live)); [|lia].
  pose proof (oldest_in live 0 None I) as Ho. destruct (oldest_record live 0 None) as [i|].
  - destruct (lookup_lt_is_Some_2 live i) as [y Hy]; [lia|].
    rewrite length_delete by (by exists y). lia.
  - destruct Ho as [_ ->]. simpl in *. lia.
Qed.

(** The closest picture decides. A picture counts as a duplicate exactly when a record
    of the same camera and channel that has not expired is within the threshold, and
    then it is attributed to a closest such record; otherwise the picture is recorded itself.
    The records stay within the capacity. *)
Theorem image_dedup_closest key hash now rs r rs' :
  length hash = 8%nat -> (1 <= capacity)%nat -> (length rs <= capacity)%nat ->
  dedup_observe windowMs hammingThreshold capacity key (Some hash) now rs = (r, rs') ->
  (idr_duplicate r = true <->
     exists x, x ∈ eraseExpiredRecords windowMs now rs /\ same_channel key x = true /\
       hammingDistance (dr_hash x) hash <= hammingThreshold) /\
  (idr_duplicate r = true ->
     exists x, x ∈ eraseExpiredRecords windowMs now rs /\ same_channel key x = true /\
       idr_canonicalKey r = dr_key x /\ idr_hammingDistance r = hammingDistance (dr_hash x) hash /\
       forall x', x' ∈ eraseExpiredRecords windowMs now rs -> same_channel key x' = true ->
         idr_hammingDistance r <= hammingDistance (dr_hash x') hash) /\
  (idr_duplicate r = false -> mkDedupRecord key hash now (-1) 0 ∈ rs') /\
  (length rs' <= capacity)%nat.
Proof.
  intros Hh Hcap Hlen. unfold dedup_observe. set (live := eraseExpiredRecords windowMs now rs).
  assert (Hlive : (length live <= capacity)%nat) by (etransitivity; [apply filter_length_le|done]).
  pose proof (closest_best key hash live [] None Hh) as Hbest. simpl in Hbest.
  assert (Hb0 : best_of key hash live (closest key hash live 0 None))
    by (apply Hbest; intros x Hx; by apply elem_of_nil in Hx).
  clear Hbest. pose proof (eviction_fits live (mkDedupRecord key hash now (-1) 0) Hcap Hlive) as Hfit.
  set (recorded := (if (capacity <=? length live)%nat then _ else _) ++ [_]) in *.
  assert (Hin : mkDedupRecord key hash now (-1) 0 ∈ recorded)
    by (apply elem_of_app; right; by apply list_elem_of_singleton).
  destruct (closest key hash live 0 None) as [[i d]|].
  - destruct Hb0 as (x & Hx & Hs & Hd & Hmin). rewrite Hx. unfold distance_of in *.
    apply list_elem_of_lookup_2 in Hx as Hxin. destruct (Z.leb_spec d hammingThreshold) as [Hle | Hgt].
    + intros [= <- <-]. simpl. rewrite length_insert.
      assert (Hnear : hammingDistance (dr_hash x) hash <= hammingThreshold) by (by rewrite Hd).
      split; [split; [by exists x|done]|]. split; [|done]. intros _. exists x. by rewrite Hd.
    + intros [= <- <-]. simpl. split; [|done]. split; [done|]. intros (x' & Hx' & Hs' & Hd').
      specialize (Hmin x' Hx' Hs'). lia.
  - intros [= <- <-]. simpl. split; [|done]. split; [done|]. intros (x' & Hx' & Hs' & _).
    by rewrite (Hb0 x' Hx') in Hs'.
Qed.
End Closest.

(** * Examples and witnesses *)

(** The theorems on the entrance at concrete runs. *)
Definition gate_key (object : string) : ObjectKey := mkObjectKey "cam-1" "ch-0" object.
Definition gate_shot (object : string) (now : Z) : CoordOp :=
  CoObserve (mkBestShotEvent (gate_key object) PlateShot "img/1.jpg" "rtsp://cam" now).

(** An object is analysed and read twice; the second right to read it is refused, and the sweep comes
    before its end. *)
Definition gate_ops : list CoordOp :=
  [gate_shot "7" 1000; gate_shot "7" 1400; CoBind (gate_key "7") 12; CoStep (gate_key "7") StepEv;
   CoStep (gate_key "7") StepOcrQueued; CoStep (gate_key "7") StepOcr; CoStep (gate_key "7") StepOcr;
   gate_shot "8" 1500; CoSweep 11000; gate_shot "7" 12000].
Notation gate_system := (coord_run 10000 4 gate_ops).

Example entrance_single_path_witness :
  object_path (cs_log gate_system) (gate_key "7") = Some [StepEv; StepOcrQueued; StepOcr; StepFailed] /\
  object_path_ok [StepEv; StepOcrQueued; StepOcr; StepFailed].
Proof.
  assert (H : object_path (cs_log gate_system) (gate_key "7") =
                Some [StepEv; StepOcrQueued; StepOcr; StepFailed]) by (vm_compute; reflexivity).
  split; [exact H|]. exact (proj1 (entrance_single_path 10000 4 gate_ops _ _ H)).
Defined.

(** The same object comes back after it was quiet for the time to live. *)
Definition gate_again : list CoordOp := gate_ops ++ [gate_shot "7" 30000].

Example entrance_not_again_witness :
  creation_times (cs_log (coord_run 10000 4 gate_again)) (gate_key "7") = [1000; 30000] /\
  Sorted (fun a b => a + 10000 <= b) [1000; 30000] /\
  (size (cs_entries (coord_run 10000 4 gate_again)) <= 4)%nat.
Proof.
  assert (H : creation_times (cs_log (coord_run 10000 4 gate_again)) (gate_key "7") = [1000; 30000])
    by (vm_compute; reflexivity).
  split; [exact H|]. rewrite <- H at 1. apply (entrance_not_again 10000 4 gate_again (gate_key "7") 0).
  repeat split; intros t [= <-]; simpl; lia.
Defined.

Definition gate_hash (x : Z) : list Z := x :: replicate 7 0.
Definition gate_records : list DedupRecord :=
  [mkDedupRecord (gate_key "1") (gate_hash 255) 100 3 0; mkDedupRecord (gate_key "2") (gate_hash 1) 900 5 2].

(** The picture of object 9 is one bit away from that of object 2. *)
Example image_dedup_closest_witness :
  exists r rs', dedup_observe 1000 4 8 (gate_key "9") (Some (gate_hash 3)) 1050 gate_records = (r, rs') /\
    idr_duplicate r = true /\ idr_canonicalKey r = gate_key "2" /\ idr_canonicalEventId r = Some 5 /\
    (length rs' <= 8)%nat.
Proof.
  destruct (dedup_observe 1000 4 8 (gate_key "9") (Some (gate_hash 3)) 1050 gate_records) as [r rs'] eqn:E.
  exists r, rs'. assert (E' := E). vm_compute in E'. injection E' as Er _.
  assert (H : idr_duplicate r = true) by (by rewrite <- Er).
  split; [done|]. split; [done|]. split; [by rewrite <- Er|]. split; [by rewrite <- Er|].
  apply (image_dedup_closest 1000 4 8 (gate_key "9") (gate_hash 3) 1050 gate_records r rs');
    [done|lia|simpl; lia|exact E].
Defined.
