(* ===== verification/DeadlineQueue.v ===== *)
(** The priority queues of the timer manager and of the evidence worker: [std::priority_queue] with a
    comparison by deadline and, among equal deadlines, by the running number that every item gets when it is
    queued. As the numbers are distinct the order is total, so the queue is its items in that order. *)
From stdpp Require Import sorting.
From S2P Require Import Prelude.

(** What the queue needs to know of an item. *)
Class Timed (A : Type) := { due : A -> Z; ticket : A -> N }.

Section Queue.
Context {A : Type} `{Timed A}.

(** [src/timer/TimerManager.cpp:21-27 TimerManager::LaterDeadline] *)
Definition LaterDeadline (left right : A) : bool :=
  if negb (due left =? due right) then due right <? due left else (ticket right <? ticket left)%N.

(** [src/parking/EvidenceCaptureWorker.cpp:19-23 EvidenceCaptureWorker::Later] *)
Definition Later (left right : A) : bool :=
  if negb (due left =? due right) then due right <? due left else (ticket right <? ticket left)%N.

(** [std::priority_queue::push]. *)
Fixpoint q_push (x : A) (q : list A) : list A :=
  match q with
  | [] => [x]
  | y :: rest => if LaterDeadline y x then x :: q else y :: q_push x rest
  end.

(** The top, when its deadline has come. *)
Definition q_due (now : Z) (q : list A) : option (A * list A) :=
  match q with
  | x :: rest => if due x <=? now then Some (x, rest) else None
  | [] => None
  end.

(** All that is due at one instant, popped one after the other. *)
Fixpoint q_drain (now : Z) (q : list A) : list A * list A :=
  match q with
  | x :: rest => if due x <=? now then let '(out, q') := q_drain now rest in (x :: out, q') else ([], q)
  | [] => ([], [])
  end.

(** A queue that is emptied and filled again. *)
Definition q_build (xs : list A) : list A := foldl (fun q x => q_push x q) [] xs.

(** * The order *)

Definition before (x y : A) : Prop := due x < due y \/ due x = due y /\ (ticket x <= ticket y)%N.

#[global] Instance q_before_dec : RelDecision before.
Proof. intros x y. unfold before. apply _. Defined.
#[global] Instance q_before_trans : Transitive before.
Proof. intros x y z. unfold before. lia. Qed.
#[global] Instance q_before_total : Total before.
Proof. intros x y. unfold before. lia. Qed.

Lemma LaterDeadline_spec x y : if LaterDeadline y x then before x y else before y x.
Proof.
  unfold LaterDeadline, before. destruct (Z.eqb_spec (due y) (due x)); simpl.
  - destruct (N.ltb_spec (ticket x) (ticket y)); lia.
  - destruct (Z.ltb_spec (due x) (due y)); lia.
Qed.

Lemma q_push_perm x q : q_push x q ≡ₚ x :: q.
Proof. induction q as [|y q IH]; simpl; [done|]. destruct (LaterDeadline y x); [done|]. rewrite IH. constructor. Qed.

Lemma elem_of_q_push x y q : y ∈ q_push x q <-> y = x \/ y ∈ q.
Proof. by rewrite q_push_perm, elem_of_cons. Qed.

Lemma q_push_sorted x q : StronglySorted before q -> StronglySorted before (q_push x q).
Proof.
  induction 1 as [|y q Hs IH Hall]; simpl; [by repeat constructor|].
  pose proof (LaterDeadline_spec x y) as Hxy. destruct (LaterDeadline y x).
  - constructor; [by constructor|]. constructor; [done|].
    eapply Forall_impl; [exact Hall|]. intros z Hz. by trans y.
  - constructor; [done|]. apply Forall_forall. intros z [-> | Hz]%elem_of_q_push; [done|].
    rewrite Forall_forall in Hall. by apply Hall.
Qed.

Lemma q_fold_perm xs q : foldl (fun q x => q_push x q) q xs ≡ₚ xs ++ q.
Proof.
  revert q. induction xs as [|x xs IH]; intros q; simpl; [done|].
  rewrite IH, q_push_perm. by rewrite Permutation_middle.
Qed.
Lemma q_build_perm xs : q_build xs ≡ₚ xs.
Proof. unfold q_build. by rewrite q_fold_perm, app_nil_r. Qed.

Lemma q_build_sorted xs : StronglySorted before (q_build xs).
Proof.
  unfold q_build. assert (Hs : StronglySorted before ([] : list A)) by constructor. revert Hs.
  generalize ([] : list A). induction xs as [|x xs IH]; intros q Hs; simpl; [done|].
  by apply IH, q_push_sorted.
Qed.

Lemma q_due_Some now q x rest :
  q_due now q = Some (x, rest) -> q = x :: rest /\ due x <= now.
Proof.
  destruct q as [|y q]; simpl; [done|]. destruct (Z.leb_spec (due y) now); [|done]. by intros [= <- <-].
Qed.

(** Nothing in the queue is due before the item that was popped. *)
Lemma q_due_least now q x rest :
  StronglySorted before q -> q_due now q = Some (x, rest) ->
  StronglySorted before rest /\ forall y, y ∈ rest -> before x y.
Proof.
  intros Hs [-> _]%q_due_Some. inversion Hs; subst. split; [done|]. by apply Forall_forall.
Qed.

(** Items with distinct numbers have one order. *)
Lemma q_order_unique (l1 l2 : list A) :
  NoDup (ticket <$> l1) -> l1 ≡ₚ l2 -> StronglySorted before l1 -> StronglySorted before l2 -> l1 = l2.
Proof.
  intros Hnd Hp H1 H2. apply (StronglySorted_unique_strong before); [|done|done|done].
  intros x y Hx Hy Hxy Hyx. assert (He : ticket x = ticket y) by (unfold before in *; lia).
  rewrite <- Hp in Hy. apply list_elem_of_lookup in Hx as [i Hi], Hy as [j Hj].
  assert (i = j); [|congruence].
  apply (NoDup_lookup _ _ _ (ticket x) Hnd); rewrite list_lookup_fmap, ?Hi, ?Hj; simpl; congruence.
Qed.

Lemma filter_prop_none (P : A -> Prop) `{forall x, Decision (P x)} (l : list A) : (forall x, x ∈ l -> ~ P x) -> filter P l = [].
Proof.
  induction l as [|x l IH]; intros Hl; [done|]. rewrite filter_cons, decide_False by (apply Hl; left).
  apply IH. intros y Hy. apply Hl. by right.
Qed.
Lemma filter_prop_all (P : A -> Prop) `{forall x, Decision (P x)} (l : list A) : (forall x, x ∈ l -> P x) -> filter P l = l.
Proof.
  induction l as [|x l IH]; intros Hl; [done|]. rewrite filter_cons, decide_True by (apply Hl; left).
  f_equal. apply IH. intros y Hy. apply Hl. by right.
Qed.

Lemma q_drain_filter now q :
  StronglySorted before q ->
  q_drain now q = (filter (fun x => due x <= now) q, filter (fun x => ~ due x <= now) q).
Proof.
  induction 1 as [|x q Hs IH Hall]; simpl; [done|]. destruct (Z.leb_spec (due x) now) as [Hle | Hgt].
  - rewrite IH. rewrite !filter_cons. by rewrite decide_True, decide_False by (unfold not; lia).
  - assert (Hlate : forall y, y ∈ q -> now < due y).
    { intros y Hy. rewrite Forall_forall in Hall. specialize (Hall y Hy). unfold before in Hall. lia. }
    rewrite !filter_cons, decide_False, decide_True by lia. f_equal.
    + symmetry. apply filter_prop_none. intros y Hy. specialize (Hlate y Hy). lia.
    + f_equal. symmetry. apply filter_prop_all. intros y Hy. specialize (Hlate y Hy). lia.
Qed.

(** The queue does what sorting does. Items with distinct running numbers, queued in
    any order and popped while they are due, come out as the due items of a stable reference: all
    items sorted by deadline and number, those that are due first; the rest stays. *)
Theorem queue_sorts now xs :
  NoDup (ticket <$> xs) ->
  q_drain now (q_build xs) =
  (filter (fun x => due x <= now) (merge_sort before xs),
   filter (fun x => ~ due x <= now) (merge_sort before xs)).
Proof.
  intros Hnd. replace (merge_sort before xs) with (q_build xs).
  - apply q_drain_filter, q_build_sorted.
  - apply q_order_unique.
    + by rewrite q_build_perm.
    + by rewrite q_build_perm, merge_sort_Permutation.
    + apply q_build_sorted.
    + apply (StronglySorted_merge_sort before).
Qed.
End Queue.
