(* ===== verification/TimeText.v ===== *)
(** The times that the program writes into its tables and reads back from tables and cameras:
    [src/timer/Types.cpp], [src/timer/ParkingSlotManager.cpp], [src/util/TimeUtil.cpp] and the restart in
    [src/main.cpp]. A time point is in nanoseconds; the clock of the library holds 64 bits. *)
From S2P Require Import Prelude SensorProtocol Calendar.

(** * [std::get_time] *)

(** Exactly [len] digits, as the library's extraction of a number of that width demands. *)
Fixpoint take_number (len : nat) (acc : Z) (s : string) : option (Z * string) :=
  match len, s with
  | O, _ => Some (acc, s)
  | S len, String c s => if isdigit c then take_number len (acc * 10 + Z.of_N (digit_value c)) s else None
  | S _, EmptyString => None
  end.
Definition get_number (len : nat) (lo hi : Z) (s : string) : option (Z * string) :=
  match take_number len 0 s with
  | Some (v, rest) => if (lo <=? v) && (v <=? hi) then Some (v, rest) else None
  | None => None
  end.

(** Four digits, or two that count from 1900. *)
Definition get_year (s : string) : option (Z * string) :=
  match take_number 4 0 s with
  | Some r => Some r
  | None =>
      match take_number 2 0 s, take_number 3 0 s with
      | Some (v, rest), None => Some (1900 + v, rest)
      | _, _ => None
      end
  end.

Record Tm := mkTm { tm_year : Z; tm_mon : Z; tm_mday : Z; tm_hour : Z; tm_min : Z; tm_sec : Z }.

Inductive TimeItem := ItYear | ItMon | ItDay | ItHour | ItMin | ItSec | ItChar (c : ascii) | ItSpace.

Definition get_item (item : TimeItem) (s : string) (tm : Tm) : option (Tm * string) :=
  let 'mkTm y mo d h mi se := tm in
  match item with
  | ItYear => (fun r => (mkTm r.1 mo d h mi se, r.2)) <$> get_year s
  | ItMon => (fun r => (mkTm y r.1 d h mi se, r.2)) <$> get_number 2 1 12 s
  | ItDay => (fun r => (mkTm y mo r.1 h mi se, r.2)) <$> get_number 2 1 31 s
  | ItHour => (fun r => (mkTm y mo d r.1 mi se, r.2)) <$> get_number 2 0 23 s
  | ItMin => (fun r => (mkTm y mo d h r.1 se, r.2)) <$> get_number 2 0 59 s
  | ItSec => (fun r => (mkTm y mo d h mi r.1, r.2)) <$> get_number 2 0 60 s
  | ItSpace => Some (tm, drop_space s)
  | ItChar c =>
      match s with
      | String x rest => if bool_decide (tolower x = tolower c) then Some (tm, rest) else None
      | EmptyString => None
      end
  end.

(** The input must not have ended before an item; what follows the last one is not looked at. *)
Fixpoint get_items (items : list TimeItem) (s : string) (tm : Tm) : option Tm :=
  match items with
  | [] => Some tm
  | item :: items =>
      if is_empty s then None else
      match get_item item s tm with Some (tm, s) => get_items items s tm | None => None end
  end.

(** [input >> std::get_time(&utc, format)], which skips leading blanks. *)
Definition get_time (separator : TimeItem) (s : string) : option Tm :=
  get_items [ItYear; ItChar "-"; ItMon; ItChar "-"; ItDay; separator; ItHour; ItChar ":"; ItMin;
             ItChar ":"; ItSec] (drop_space s) (mkTm 1900 0 0 0 0 0).

(** [timegm], whose answer -1 the callers take for an error. *)
Definition timegm (tm : Tm) : Z :=
  days_from_civil (tm_year tm) (tm_mon tm) (tm_mday tm) * 86400 +
  tm_hour tm * 3600 + tm_min tm * 60 + tm_sec tm.
Definition timegm_checked (tm : Tm) : option Z :=
  if timegm tm =? -1 then None else Some (timegm tm).

(** [system_clock::from_time_t], and the addition of a duration. *)
Definition from_time_t (seconds : Z) : time_point := wrap_int64 (seconds * 1000000000).
Definition plus_millis (t ms : Z) : time_point := wrap_int64 (t + ms * 1000000).

(** * Texts of the tables *)

Definition pad3 (n : Z) : string :=
  (if n <? 10 then "00" else if n <? 100 then "0" else "") +:+ pretty n.

(** [src/timer/Types.cpp:36-54 utcString] The conversions of the clock round towards zero. *)
Definition utcString (now : time_point) : string :=
  let millis := Z.rem (Z.quot now 1000000) 1000 in
  let seconds := Z.quot now 1000000000 in
  let '(y, m, d) := civil_from_days (seconds / 86400) in
  let s := seconds mod 86400 in
  pretty y +:+ "-" +:+ pad2 m +:+ "-" +:+ pad2 d +:+ "T" +:+
  pad2 (s / 3600) +:+ ":" +:+ pad2 (s / 60 mod 60) +:+ ":" +:+ pad2 (s mod 60) +:+ "." +:+
  pad3 millis +:+ "Z".

(** [std::string::substr] within the text. *)
Definition substr (from len : nat) (s : string) : string := String.substring from len s.
Definition char_at (s : string) (i : nat) : option ascii := String.get i s.

(** [std::stoi] of a short text; an error is an exception. *)
Fixpoint take_digits (acc : Z) (s : string) : Z :=
  match s with
  | String c s => if isdigit c then take_digits (acc * 10 + Z.of_N (digit_value c)) s else acc
  | EmptyString => acc
  end.
Definition starts_with_digit (s : string) : bool :=
  match s with String c _ => isdigit c | EmptyString => false end.
Definition stoi (text : string) : option Z :=
  let s := drop_space text in
  let '(sign, body) :=
    match s with
    | String "-" rest => (-1, rest)
    | String "+" rest => (1, rest)
    | _ => (1, s)
    end in
  if starts_with_digit body then Some (sign * take_digits 0 body) else None.

Fixpoint set_char (i : nat) (c : ascii) (s : string) : string :=
  match s, i with
  | String _ s, O => String c s
  | String x s, S i => String x (set_char i c s)
  | EmptyString, _ => EmptyString
  end.

(** The seconds of a stored time, with a blank or a [T] between date and time. *)
Definition stored_seconds (value : string) : option time_point :=
  let seconds := substr 0 19 value in
  let seconds := if bool_decide (char_at seconds 10 = Some "T"%char) then set_char 10 " " seconds else seconds in
  match get_time ItSpace seconds with
  | Some tm => from_time_t <$> timegm_checked tm
  | None => None
  end.

(** [src/timer/ParkingSlotManager.cpp:14-37 parseUtc] *)
Definition parseUtc (value : string) : option time_point :=
  if (String.length value <? 19)%nat then None else
  match stored_seconds value with
  | None => None
  | Some parsed =>
      if (23 <=? String.length value)%nat && bool_decide (char_at value 19 = Some "."%char)
      then plus_millis parsed <$> stoi (substr 20 3 value)
      else Some parsed
  end.

(** [src/main.cpp:141-172 restoreMonotonicStart] The start of a session on the steady clock. *)
Definition restoreMonotonicStart (utc_value : string) (fallback_elapsed steady_now wall_now : Z) : Z :=
  match parseUtc utc_value with
  | None => steady_now - fallback_elapsed
  | Some started => if wall_now <=? started then steady_now else steady_now - (wall_now - started)
  end.

(** * Times of cameras *)

(** The digits of the fraction: the value of the first three, and how many there are. *)
Fixpoint fraction_digits (s : string) (milliseconds : Z) (digits : nat) : Z * nat * string :=
  match s with
  | String c rest =>
      if isdigit c then
        fraction_digits rest (if (digits <? 3)%nat then milliseconds * 10 + Z.of_N (digit_value c)
                              else milliseconds) (S digits)
      else (milliseconds, digits, s)
  | EmptyString => (milliseconds, digits, s)
  end.

(** The fraction after the seconds, if there is one, and the rest. *)
Definition parse_fraction (s : string) : option (Z * string) :=
  match s with
  | String "." rest =>
      let '(ms, digits, rest) := fraction_digits rest 0 0 in
      match digits with
      | O => None
      | 1%nat => Some (ms * 100, rest)
      | 2%nat => Some (ms * 10, rest)
      | _ => Some (ms, rest)
      end
  | _ => Some (0, s)
  end.

(** The offset, which must be the rest of the text. *)
Definition parse_offset (s : string) : option Z :=
  match s with
  | String "Z" rest | String "z" rest => if is_empty rest then Some 0 else None
  | String c (String h1 (String h2 (String ":" (String m1 (String m2 EmptyString))))) =>
      if bool_decide (c = "+"%char) || bool_decide (c = "-"%char) then
        if isdigit h1 && isdigit h2 && isdigit m1 && isdigit m2 then
          let hours := Z.of_N (digit_value h1) * 10 + Z.of_N (digit_value h2) in
          let minutes := Z.of_N (digit_value m1) * 10 + Z.of_N (digit_value m2) in
          if (23 <? hours) || (59 <? minutes) then None else
          let offset := (hours * 60 + minutes) * 60 in
          Some (if bool_decide (c = "-"%char) then - offset else offset)
        else None
      else None
  | _ => None
  end.

(** [src/util/TimeUtil.cpp:43-108 parseIso8601Utc] *)
Definition parseIso8601Utc (value : string) : option time_point :=
  if (String.length value <? 20)%nat then None else
  match get_time (ItChar "T") (substr 0 19 value) with
  | None => None
  | Some tm =>
      match parse_fraction (substr 19 (String.length value - 19) value) with
      | None => None
      | Some (fraction, rest) =>
          match parse_offset rest with
          | None => None
          | Some offset =>
              match timegm_checked tm with
              | None => None
              | Some seconds =>
                  Some (wrap_int64 (plus_millis (from_time_t seconds) fraction - offset * 1000000000))
              end
          end
      end
  end.

Example utc_example : utcString 1709251199007000000 = "2024-02-29T23:59:59.007Z".
Proof. reflexivity. Qed.
Example utc_back : parseUtc "2024-02-29T23:59:59.007Z" = Some 1709251199007000000.
Proof. reflexivity. Qed.
Example iso_offset : parseIso8601Utc "2024-02-29T23:59:59.5+09:00" = Some 1709218799500000000.
Proof. reflexivity. Qed.
Example iso_short_year : parseUtc "  24-01-01T00:00:00" = Some (-1451692800000000000).
Proof. reflexivity. Qed.

(** * Round trips *)

(** The character of a digit. *)
Definition dig (n : Z) : ascii := ascii_of_nat (48 + Z.to_nat n).

Fixpoint check_upto (p : Z -> bool) (fuel : nat) (z : Z) : bool :=
  match fuel with O => true | S fuel => p z && check_upto p fuel (z + 1) end.
Lemma check_upto_all p size z n : check_upto p (Z.to_nat size) z = true -> z <= n < z + size -> p n = true.
Proof.
  intros Hp Hn. assert (Hf : z <= n < z + Z.of_nat (Z.to_nat size)) by lia. revert Hp Hf. clear Hn.
  generalize (Z.to_nat size) as fuel. intros fuel. revert z. induction fuel as [|fuel IH]; intros z; simpl; [lia|]. intros [Hp Hrest]%andb_prop Hn.
  destruct (decide (n = z)) as [-> | Hne]; [done|]. apply (IH (z + 1)); [done|lia].
Qed.

Ltac by_digits p fuel lo n :=
  match goal with |- ?a = ?b => apply (proj1 (String.eqb_eq a b)) end;
  apply (check_upto_all p fuel lo n); [vm_compute; reflexivity|lia].

Lemma pad2_digits n : 0 <= n < 100 -> pad2 n = String (dig (n / 10)) (String (dig (n mod 10)) "").
Proof.
  intros Hn.
  by_digits (fun n => String.eqb (pad2 n) (String (dig (n / 10)) (String (dig (n mod 10)) ""))) 100 0 n.
Qed.
Lemma pad3_digits n : 0 <= n < 1000 ->
  pad3 n = String (dig (n / 100)) (String (dig (n / 10 mod 10)) (String (dig (n mod 10)) "")).
Proof.
  intros Hn. by_digits (fun n => String.eqb (pad3 n)
    (String (dig (n / 100)) (String (dig (n / 10 mod 10)) (String (dig (n mod 10)) "")))) 1000 0 n.
Qed.
Lemma year_digits n : 1000 <= n < 10000 ->
  pretty n = String (dig (n / 1000)) (String (dig (n / 100 mod 10))
               (String (dig (n / 10 mod 10)) (String (dig (n mod 10)) ""))).
Proof.
  intros Hn. by_digits (fun n => String.eqb (pretty n) (String (dig (n / 1000)) (String (dig (n / 100 mod 10))
               (String (dig (n / 10 mod 10)) (String (dig (n mod 10)) ""))))) 9000 1000 n.
Qed.

Lemma dig_digit n : 0 <= n < 10 -> isdigit (dig n) = true /\ Z.of_N (digit_value (dig n)) = n.
Proof.
  intros Hn. assert (H : (isdigit (dig n) && (Z.of_N (digit_value (dig n)) =? n)) = true)
    by (apply (check_upto_all (fun n => isdigit (dig n) && (Z.of_N (digit_value (dig n)) =? n)) 10 0 n);
        [reflexivity|lia]).
  apply andb_prop in H as [H1 H2%Z.eqb_eq]. done.
Qed.

Lemma take_number_dig len acc n s :
  0 <= n < 10 -> take_number (S len) acc (String (dig n) s) = take_number len (acc * 10 + n) s.
Proof. intros Hn. cbn [take_number]. by destruct (dig_digit n Hn) as [-> ->]. Qed.

Lemma get_number_pad2 n lo hi s :
  0 <= n < 100 -> lo <= n <= hi -> get_number 2 lo hi (pad2 n +:+ s) = Some (n, s).
Proof.
  intros Hn Hr. rewrite pad2_digits by done. unfold get_number. cbn [String.append].
  rewrite !take_number_dig by (Z.to_euclidean_division_equations; lia). cbn [take_number].
  replace ((0 * 10 + n / 10) * 10 + n mod 10) with n by (Z.to_euclidean_division_equations; lia).
  by rewrite (proj2 (Z.leb_le lo n)), (proj2 (Z.leb_le n hi)) by lia.
Qed.

Lemma get_year_pretty n s : 1000 <= n < 10000 -> get_year (pretty n +:+ s) = Some (n, s).
Proof.
  intros Hn. rewrite year_digits by done. unfold get_year. cbn [String.append].
  rewrite !take_number_dig by (Z.to_euclidean_division_equations; lia). cbn [take_number].
  f_equal. f_equal. Z.to_euclidean_division_equations. lia.
Qed.

(** The date and time of a text as the program prints it. *)
Definition clock_text (sep : ascii) (y m d h mi s : Z) : string :=
  pretty y +:+ "-" +:+ pad2 m +:+ "-" +:+ pad2 d +:+ String sep "" +:+
  pad2 h +:+ ":" +:+ pad2 mi +:+ ":" +:+ pad2 s.

Lemma clock_text_length sep y m d h mi s :
  1000 <= y < 10000 -> 0 <= m < 100 -> 0 <= d < 100 -> 0 <= h < 100 -> 0 <= mi < 100 -> 0 <= s < 100 ->
  String.length (clock_text sep y m d h mi s) = 19%nat.
Proof. intros. unfold clock_text. rewrite year_digits, !pad2_digits by done. reflexivity. Qed.

Lemma pad2_nonempty n s : 0 <= n < 100 -> is_empty (pad2 n +:+ s) = false.
Proof. intros Hn. by rewrite pad2_digits. Qed.
Lemma drop_space_dig n s : 0 <= n < 10 -> drop_space (String (dig n) s) = String (dig n) s.
Proof. intros Hn. cbn [drop_space]. by rewrite (isdigit_not_space _ (proj1 (dig_digit n Hn))). Qed.
Lemma drop_space_pad2 n s : 0 <= n < 100 -> drop_space (pad2 n +:+ s) = pad2 n +:+ s.
Proof. intros Hn. rewrite pad2_digits by done. apply drop_space_dig. Z.to_euclidean_division_equations. lia. Qed.

Lemma get_items_step item items s tm tm' rest :
  is_empty s = false -> get_item item s tm = Some (tm', rest) ->
  get_items (item :: items) s tm = get_items items rest tm'.
Proof. intros Hs Hi. cbn [get_items]. by rewrite Hs, Hi. Qed.

Lemma get_item_char c s tm : get_item (ItChar c) (String c s) tm = Some (tm, s).
Proof. destruct tm. simpl. by rewrite bool_decide_eq_true_2. Qed.

(** The separator is read as itself, or a blank as blanks. *)
Definition reads (item : TimeItem) (sep : ascii) : Prop :=
  match item with ItChar c => c = sep | ItSpace => isspace sep = true | _ => False end.

Lemma get_item_separator item sep n s tm :
  reads item sep -> 0 <= n < 100 ->
  get_item item (String sep (pad2 n +:+ s)) tm = Some (tm, pad2 n +:+ s).
Proof.
  intros Hr Hn. destruct item; try done.
  - simpl in Hr. subst. apply get_item_char.
  - destruct tm. cbn [get_item drop_space]. simpl in Hr. rewrite Hr. by rewrite drop_space_pad2.
Qed.

Lemma get_time_clock item sep y m d h mi s :
  reads item sep -> 1000 <= y < 10000 -> 1 <= m <= 12 -> 1 <= d <= 31 -> 0 <= h < 24 -> 0 <= mi < 60 ->
  0 <= s < 60 -> get_time item (clock_text sep y m d h mi s) = Some (mkTm y m d h mi s).
Proof.
  intros Hsep Hy Hm Hd Hh Hmi Hs. unfold get_time, clock_text. cbn [String.append].
  assert (Hfirst : forall r, drop_space (pretty y +:+ r) = pretty y +:+ r /\ is_empty (pretty y +:+ r) = false).
  { intros r. rewrite year_digits by done. split; [|done]. apply drop_space_dig.
    Z.to_euclidean_division_equations. lia. }
  rewrite (proj1 (Hfirst _)).
  erewrite get_items_step; [|apply Hfirst|cbn [get_item]; rewrite get_year_pretty by done; reflexivity].
  do 2 (erewrite get_items_step; [|reflexivity|apply get_item_char];
        erewrite get_items_step; [|apply pad2_nonempty; lia|
          cbn [get_item fst snd]; rewrite get_number_pad2 by lia; reflexivity]).
  erewrite get_items_step; [|reflexivity|apply get_item_separator; [done|lia]].
  erewrite get_items_step; [|apply pad2_nonempty; lia|
    cbn [get_item fst snd]; rewrite get_number_pad2 by lia; reflexivity].
  erewrite get_items_step; [|reflexivity|apply get_item_char].
  erewrite get_items_step; [|apply pad2_nonempty; lia|
    cbn [get_item fst snd]; rewrite get_number_pad2 by lia; reflexivity].
  erewrite get_items_step; [|reflexivity|apply get_item_char].
  rewrite <- (append_nil_r (pad2 s)).
  erewrite get_items_step; [|apply pad2_nonempty; lia|
    cbn [get_item fst snd]; rewrite get_number_pad2 by lia; reflexivity].
  reflexivity.
Qed.

Lemma days_in_month_31 y m : days_in_month y m <= 31.
Proof. unfold days_in_month. repeat case_match; lia. Qed.

Lemma civil_year y m d :
  1 <= m <= 12 -> 1 <= d <= 31 -> 0 <= days_from_civil y m d <= 200000 -> 1000 <= y < 10000.
Proof.
  unfold days_from_civil. intros Hm Hd.
  assert (Hmp : 0 <= (153 * (if m >? 2 then m - 3 else m + 9) + 2) / 5 <= 340)
    by (destruct (m >? 2) eqn:?; Z.to_euclidean_division_equations; lia).
  set (doy := (153 * _ + 2) / 5) in *. clearbody doy.
  assert (Hy : y - 1 <= (if m <=? 2 then y - 1 else y) <= y) by (destruct (m <=? 2); lia).
  set (y' := if m <=? 2 then y - 1 else y) in *. clearbody y'.
  intros H. Z.to_euclidean_division_equations. lia.
Qed.

(** The text of a time of the years that the clock holds. *)
Definition text_of (sep : ascii) (seconds : Z) : string :=
  let '(y, m, d) := civil_from_days (seconds / 86400) in
  let s := seconds mod 86400 in
  clock_text sep y m d (s / 3600) (s / 60 mod 60) (s mod 60).

Lemma text_of_parts sep item seconds :
  reads item sep -> 0 <= seconds < 2 ^ 34 ->
  String.length (text_of sep seconds) = 19%nat /\
  char_at (text_of sep seconds) 10 = Some sep /\
  (forall c, set_char 10 c (text_of sep seconds) = text_of c seconds) /\
  exists tm, get_time item (text_of sep seconds) = Some tm /\ timegm tm = seconds.
Proof.
  intros Hsep Hs. unfold text_of. pose proof (civil_roundtrip (seconds / 86400)) as Hc.
  destruct (civil_from_days (seconds / 86400)) as [[y m] d]. destruct Hc as (Hz & Hm & Hd).
  pose proof (days_in_month_31 y m) as H31.
  assert (Hy : 1000 <= y < 10000).
  { apply (civil_year y m d); [done|lia|]. rewrite Hz. change (2 ^ 34) with 17179869184 in Hs.
    Z.to_euclidean_division_equations. lia. }
  set (s := seconds mod 86400). assert (Hr : 0 <= s < 86400) by (apply Z.mod_pos_bound; lia).
  assert (Hh : 0 <= s / 3600 < 24 /\ 0 <= s / 60 mod 60 < 60 /\ 0 <= s mod 60 < 60)
    by (Z.to_euclidean_division_equations; lia). destruct Hh as (Hh & Hmi & Hse).
  split; [apply clock_text_length; lia|].
  assert (Hten : forall x, clock_text x y m d (s / 3600) (s / 60 mod 60) (s mod 60) =
    (pretty y +:+ "-" +:+ pad2 m +:+ "-" +:+ pad2 d) +:+ String x
      (pad2 (s / 3600) +:+ ":" +:+ pad2 (s / 60 mod 60) +:+ ":" +:+ pad2 (s mod 60)))
    by (intros x; unfold clock_text; by rewrite !append_assoc).
  split; [rewrite Hten, year_digits, !pad2_digits by lia; reflexivity|].
  split; [intros c; rewrite !Hten, year_digits, !pad2_digits by lia; reflexivity|]. eexists. split; [apply get_time_clock; try done; lia|].
  unfold timegm. cbn [tm_year tm_mon tm_mday tm_hour tm_min tm_sec]. rewrite Hz. subst s.
  clear. Z.to_euclidean_division_equations. lia.
Qed.

Lemma substr_prefix a b n : String.length a = n -> substr 0 n (a +:+ b) = a.
Proof. intros <-. unfold substr. induction a as [|c a IH]; simpl; [by destruct b|by rewrite IH]. Qed.
Lemma substr_rest a b n k : String.length a = n -> substr n k (a +:+ b) = substr 0 k b.
Proof. intros <-. unfold substr. induction a as [|c a IH]; simpl; [done|by rewrite IH]. Qed.
Lemma string_length_app a b : String.length (a +:+ b) = (String.length a + String.length b)%nat.
Proof. induction a as [|c a IH]; simpl; [done|by rewrite IH]. Qed.

Lemma utcString_parts now :
  0 <= now -> utcString now = text_of "T" (now / 1000000000) +:+ ("." +:+ (pad3 (now / 1000000 mod 1000) +:+ "Z")).
Proof.
  intros Hn. unfold utcString, text_of.
  rewrite !Z.quot_div_nonneg, Z.rem_mod_nonneg by (try apply Z.div_pos; lia).
  destruct (civil_from_days _) as [[y m] d]. unfold clock_text. rewrite !append_assoc. done.
Qed.

Lemma stoi_pad3 n : 0 <= n < 1000 -> stoi (pad3 n) = Some n.
Proof.
  intros Hn. assert (H : bool_decide (stoi (pad3 n) = Some n) = true).
  { apply (check_upto_all (fun n => bool_decide (stoi (pad3 n) = Some n)) 1000 0 n);
      [vm_compute; reflexivity|lia]. }
  by apply bool_decide_eq_true in H.
Qed.

Lemma parse_fraction_pad3 n : 0 <= n < 1000 -> parse_fraction (String "." (pad3 n +:+ "Z")) = Some (n, "Z").
Proof.
  intros Hn. assert (H : bool_decide (parse_fraction (String "." (pad3 n +:+ "Z")) = Some (n, "Z")) = true).
  { apply (check_upto_all (fun n => bool_decide (parse_fraction (String "." (pad3 n +:+ "Z")) = Some (n, "Z")))
      1000 0 n); [vm_compute; reflexivity|lia]. }
  by apply bool_decide_eq_true in H.
Qed.
Lemma substr_all s n : String.length s = n -> substr 0 n s = s.
Proof. intros <-. unfold substr. induction s as [|c s IH]; simpl; [done|by rewrite IH]. Qed.

(** The time that the text of a time point keeps. *)
Definition to_millis (now : time_point) : time_point := now / 1000000 * 1000000.

Lemma to_millis_parts now :
  0 <= now < 2 ^ 63 ->
  plus_millis (from_time_t (now / 1000000000)) (now / 1000000 mod 1000) = to_millis now.
Proof.
  intros Hn. unfold plus_millis, from_time_t, to_millis, wrap_int64. change (2 ^ 63) with 9223372036854775808 in *.
  change (2 ^ 64) with 18446744073709551616.
  rewrite (Z.mod_small (now / 1000000000 * 1000000000 + _)) by (Z.to_euclidean_division_equations; lia).
  rewrite Z.mod_small by (Z.to_euclidean_division_equations; lia).
  Z.to_euclidean_division_equations. lia.
Qed.


Lemma stored_text now :
  0 <= now < 2 ^ 63 ->
  exists text, utcString now = text +:+ ("." +:+ (pad3 (now / 1000000 mod 1000) +:+ "Z")) /\
    String.length text = 19%nat /\ String.length (utcString now) = 24%nat /\
    stored_seconds (utcString now) = Some (from_time_t (now / 1000000000)) /\
    exists tm, get_time (ItChar "T") text = Some tm /\ timegm_checked tm = Some (now / 1000000000).
Proof.
  intros Hn. assert (Hs : 0 <= now / 1000000000 < 2 ^ 34).
  { change (2 ^ 63) with 9223372036854775808 in Hn. change (2 ^ 34) with 17179869184.
    Z.to_euclidean_division_equations. lia. }
  destruct (text_of_parts "T" (ItChar "T") _ eq_refl Hs) as (Hl & Hc & Hset & tm & Ht & Hg).
  destruct (text_of_parts " " ItSpace _ eq_refl Hs) as (_ & _ & _ & tm' & Ht' & Hg').
  assert (Hms : 0 <= now / 1000000 mod 1000 < 1000) by (apply Z.mod_pos_bound; lia).
  rewrite (utcString_parts now) by lia. eexists. split; [done|]. split; [done|].
  assert (Hnot : forall t, timegm t = now / 1000000000 -> timegm_checked t = Some (now / 1000000000)).
  { intros t Hq. unfold timegm_checked. rewrite Hq. by rewrite (proj2 (Z.eqb_neq _ _)) by lia. }
  split.
  { rewrite string_length_app, Hl, pad3_digits by done. reflexivity. }
  split; [|exists tm; auto].
  unfold stored_seconds. rewrite substr_prefix, Hc, bool_decide_eq_true_2, Hset, Ht' by done.
  by rewrite Hnot.
Qed.

(** What is written is what is read back. For every time of the clock since 1970, the stored
    text reads back, by the timer and by the parser of camera times, as that time cut to
    milliseconds; so after a restart the start of a session is found again exactly, unless
    it lies in the future. *)
Theorem utc_roundtrip now :
  0 <= now < 2 ^ 63 ->
  parseUtc (utcString now) = Some (to_millis now) /\
  parseIso8601Utc (utcString now) = Some (to_millis now) /\
  forall fallback steady wall, to_millis now <= wall ->
    restoreMonotonicStart (utcString now) fallback steady wall = steady - (wall - to_millis now).
Proof.
  intros Hn. destruct (stored_text now Hn) as (text & Ht & Hl & Hlen & Hs & tm & Hg & Hc).
  assert (Hms : 0 <= now / 1000000 mod 1000 < 1000) by (apply Z.mod_pos_bound; lia).
  assert (Hp : parseUtc (utcString now) = Some (to_millis now)).
  { unfold parseUtc. rewrite Hlen, Hs. cbn [Nat.ltb Nat.leb andb].
    rewrite Ht. unfold char_at. replace (String.get 19 _) with (Some "."%char)
      by (rewrite <- Hl; clear; induction text; done).
    rewrite bool_decide_eq_true_2 by done.
    replace (substr 20 3 _) with (pad3 (now / 1000000 mod 1000)).
    - rewrite stoi_pad3 by done. cbn. by rewrite to_millis_parts.
    - rewrite pad3_digits by done. rewrite <- (append_assoc text "." _), (substr_rest (text +:+ ".") _ 20 3).
      + reflexivity.
      + by rewrite string_length_app, Hl. }
  split; [done|]. split.
  - unfold parseIso8601Utc. rewrite Hlen. cbn [Nat.ltb Nat.leb Nat.sub]. rewrite Ht.
    rewrite substr_prefix, Hg by done. rewrite (substr_rest text _ 19 _ Hl).
    rewrite substr_all by (rewrite string_length_app, pad3_digits by done; reflexivity).
    cbn [String.append]. rewrite parse_fraction_pad3 by done. change (parse_offset "Z") with (Some 0).
    cbv iota. rewrite Hc.
    rewrite to_millis_parts by done. f_equal. unfold to_millis, wrap_int64.
    change (2 ^ 63) with 9223372036854775808 in *. change (2 ^ 64) with 18446744073709551616.
    rewrite Z.mod_small by (Z.to_euclidean_division_equations; lia). lia.
  - intros fallback steady wall Hw. unfold restoreMonotonicStart. rewrite Hp.
    destruct (Z.leb_spec wall (to_millis now)); lia.
Qed.

Example utc_roundtrip_witness :
  0 <= 1709251199007654321 < 2 ^ 63 /\
  parseUtc (utcString 1709251199007654321) = Some (to_millis 1709251199007654321).
Proof.
  assert (H : 0 <= 1709251199007654321 < 2 ^ 63) by lia.
  exact (conj H (proj1 (utc_roundtrip _ H))).
Defined.
