(* ===== verification/ParkingDb.v ===== *)
(** The tables of vehicles, slots, sessions, pictures, events and settings, and the operations of
    [src/database/EventDatabaseTimer.cpp] on them: settings, sessions of the hall sensors, pictures,
    and what the overstay timer needs. The columns are those that these operations read
    or write; the durable occupancy store (OccupancyDb) has its own view of PARKING_SESSION. A statement
    that violates a constraint is an error and rolls its transaction back. *)
From Stdlib Require Import QArith.
From stdpp Require Import sorting.
From S2P Require Import Prelude OccupancyDb.
Open Scope Z_scope.

(** [strftime] on a stored time, as the number of its second. *)
Class SqlSeconds := { sql_epoch_seconds : string -> option Z }.

(** * Tables *)

Record VehicleRow := mkVehicleRow { ve_id : Z; ve_is_ev : bool }.

(** The columns of PARKING_SESSION. [pk_entrance] with the score and the source is written by the plate
    matching (EntranceDb). *)
Record ParkingRow := mkParkingRow {
  pk_vehicle_id : option Z;
  pk_slot_id : string;
  pk_plate_number : option string;
  pk_ocr_plate : option string;
  pk_entrance_event : option Z;
  pk_match_score : option Q;
  pk_resolution_source : string;
  pk_entry_time : string;
  pk_entry_ms : option Z;
  pk_violation_at : option string;
  pk_exit_time : option string;
  pk_duration_sec : option Z;
  pk_status : SessionStatus
}.

(** The columns of IMAGE_LOG, in the order of [image_id]; the columns of the region of interest, which none of the
    operations reads, are left out. *)
Record ImageRow := mkImageRow {
  im_session : option Z;
  im_original : option string;
  im_enhanced : option string;
  im_type : option string;
  im_reason : option string;
  im_ocr_result : option string
}.

Record EventRow := mkEventRow {
  ev_session : option Z; ev_slot : option string; ev_type : string; ev_message : string
}.

Record ParkingDb := mkParkingDb {
  pd_open : bool;
  pd_vehicles : gmap string VehicleRow;
  pd_slots : gmap string string;
  pd_sessions : gmap Z ParkingRow;
  pd_session_seq : Z;
  pd_images : list ImageRow;
  pd_events : list EventRow;
  pd_settings : gmap string string
}.

Definition pd_set_slots (d : ParkingDb) x := mkParkingDb (pd_open d) (pd_vehicles d) x (pd_sessions d)
  (pd_session_seq d) (pd_images d) (pd_events d) (pd_settings d).
Definition pd_set_sessions (d : ParkingDb) x := mkParkingDb (pd_open d) (pd_vehicles d) (pd_slots d) x
  (pd_session_seq d) (pd_images d) (pd_events d) (pd_settings d).
Definition pd_set_session_seq (d : ParkingDb) x := mkParkingDb (pd_open d) (pd_vehicles d) (pd_slots d)
  (pd_sessions d) x (pd_images d) (pd_events d) (pd_settings d).
Definition pd_set_images (d : ParkingDb) x := mkParkingDb (pd_open d) (pd_vehicles d) (pd_slots d)
  (pd_sessions d) (pd_session_seq d) x (pd_events d) (pd_settings d).
Definition pd_set_events (d : ParkingDb) x := mkParkingDb (pd_open d) (pd_vehicles d) (pd_slots d)
  (pd_sessions d) (pd_session_seq d) (pd_images d) x (pd_settings d).
Definition pd_set_settings (d : ParkingDb) x := mkParkingDb (pd_open d) (pd_vehicles d) (pd_slots d)
  (pd_sessions d) (pd_session_seq d) (pd_images d) (pd_events d) x.

Definition pk_with_state (r : ParkingRow) status violation exit_time duration : ParkingRow :=
  mkParkingRow (pk_vehicle_id r) (pk_slot_id r) (pk_plate_number r) (pk_ocr_plate r) (pk_entrance_event r)
    (pk_match_score r) (pk_resolution_source r) (pk_entry_time r) (pk_entry_ms r) violation exit_time duration status.

(** The rows that the unique index of open sessions holds. *)
Definition pk_open (r : ParkingRow) : bool :=
  bool_decide (pk_exit_time r = None) &&
  (bool_decide (pk_status r = StatusActive) || bool_decide (pk_status r = StatusViolation)).

Definition sql_error : store_error := RuntimeError "SQLite statement failed".

(** INSERT INTO PARKING_SESSION: the slot must exist and hold no open session. *)
Definition insert_session (row : ParkingRow) (d : ParkingDb) : result store_error (Z * ParkingDb) :=
  if bool_decide (is_Some (pd_slots d !! pk_slot_id row)) &&
     negb (pk_open row && existsb (fun kv => pk_open kv.2 && bool_decide (pk_slot_id kv.2 = pk_slot_id row))
                            (map_to_list (pd_sessions d)))
  then let id := pd_session_seq d + 1 in
       Ok (id, pd_set_session_seq (pd_set_sessions d (<[id := row]> (pd_sessions d))) id)
  else Err sql_error.

(** INSERT INTO IMAGE_LOG: the session must exist; one picture per session and reason. *)
Definition insert_image (row : ImageRow) (d : ParkingDb) : result store_error ParkingDb :=
  let missing := match im_session row with
                 | Some id => negb (bool_decide (is_Some (pd_sessions d !! id)))
                 | None => false end in
  let clash := match im_session row, im_reason row with
               | Some _, Some _ =>
                   existsb (fun r => bool_decide (im_session r = im_session row) &&
                                     bool_decide (im_reason r = im_reason row)) (pd_images d)
               | _, _ => false end in
  if missing || clash then Err sql_error else Ok (pd_set_images d (pd_images d ++ [row])).

(** INSERT INTO EVENT_LOG: session and slot must exist where they are given. *)
Definition insert_event (row : EventRow) (d : ParkingDb) : result store_error ParkingDb :=
  let session_ok := match ev_session row with
                    | Some id => bool_decide (is_Some (pd_sessions d !! id)) | None => true end in
  let slot_ok := match ev_slot row with
                 | Some s => bool_decide (is_Some (pd_slots d !! s)) | None => true end in
  if session_ok && slot_ok then Ok (pd_set_events d (pd_events d ++ [row])) else Err sql_error.

Definition null_if_empty (s : string) : option string := if is_empty s then None else Some s.

(** [src/database/EventDatabase.cpp:116-131 EventDatabase::insertSystemEvent] What it leaves; [fails]: the disk fails. *)
Definition insertSystemEvent (fails : bool) (event_type slot_id message : string) (d : ParkingDb) : ParkingDb :=
  if negb (pd_open d) || is_empty event_type || fails then d else
  match insert_event (mkEventRow None (null_if_empty slot_id) event_type message) d with Ok d' => d' | Err _ => d end.

(** [src/database/EventDatabase.cpp:214-225 EventDatabase::attachEnhancedPlateImage] With [db_update_image_enhanced_by_path]
    of db_manager.c: an update that finds no row is a failure. [fails]: the disk fails. *)
Definition with_enhanced (image_path enhanced_image_path : string) (row : ImageRow) : ImageRow :=
  if bool_decide (im_original row = Some image_path)
  then mkImageRow (im_session row) (im_original row) (Some enhanced_image_path) (Some "OPENCV_CLAHE_UNSHARP")
         (im_reason row) (im_ocr_result row)
  else row.
Definition attachEnhancedPlateImage (fails : bool) (image_path enhanced_image_path : string) (d : ParkingDb) :
    bool * ParkingDb :=
  if negb (pd_open d) || is_empty image_path || is_empty enhanced_image_path || fails then (false, d) else
  (existsb (fun row => bool_decide (im_original row = Some image_path)) (pd_images d),
   pd_set_images d (with_enhanced image_path enhanced_image_path <$> pd_images d)).

(** * Settings *)

(** [src/database/EventDatabaseTimer.cpp:1123-1136 EventDatabase::getSystemSetting] *)
Definition getSystemSetting (key : string) (d : ParkingDb) : option string :=
  if is_empty key || negb (pd_open d) then None else pd_settings d !! key.

(** [src/database/EventDatabaseTimer.cpp:1138-1156 EventDatabase::upsertSystemSetting] *)
Definition upsertSystemSetting (key value : string) (d : ParkingDb) : bool * ParkingDb :=
  if is_empty key || negb (pd_open d) then (false, d) else
  (true, pd_set_settings d (<[key := value]> (pd_settings d))).

(** * Sessions of the hall sensors *)

(** [src/database/EventDatabaseTimer.cpp:1158-1202 EventDatabase::createHallSession] *)
Definition createHallSession (slot_id source_id entry_time : string) (d : ParkingDb)
    : result store_error (Z * ParkingDb) :=
  if is_empty slot_id || is_empty entry_time
  then Err (InvalidArgument "hall session fields must not be empty") else
  if negb (pd_open d) then Err (RuntimeError "cannot create session in a closed database") else
  match pd_slots d !! slot_id with
  | None => Err (RuntimeError ("hall slot does not exist: " +:+ slot_id))
  | Some _ =>
      let d1 := pd_set_slots d (<[slot_id := "OCCUPIED"]> (pd_slots d)) in
      let? r := insert_session (mkParkingRow None slot_id None None None None "UNRESOLVED" entry_time None
                                  None None (Some 0) StatusActive) d1 in
      let '(id, d2) := r in
      let? d3 := insert_event (mkEventRow (Some id) (Some slot_id) "HALL_OCCUPIED"
                                 ("hall sensor=" +:+ source_id)) d2 in
      Ok (id, d3)
  end.

(** * Pictures *)

(** [include/database/EventDatabase.hpp:121-125 EvidenceInsertResult] *)
Inductive EvidenceInsertResult := EvidenceInserted | EvidenceDuplicate | EvidenceInactiveSession.
#[global] Instance EvidenceInsertResult_eq_dec : EqDecision EvidenceInsertResult.
Proof. solve_decision. Defined.


Definition has_image (session_id : Z) (p : ImageRow -> bool) (d : ParkingDb) : bool :=
  existsb (fun r => bool_decide (im_session r = Some session_id) && p r) (pd_images d).
Definition session_active (session_id : Z) (d : ParkingDb) : bool :=
  match pd_sessions d !! session_id with Some r => pk_open r | None => false end.

(** [src/database/EventDatabaseTimer.cpp:1204-1278 EventDatabase::insertEvidenceImage] *)
Definition insertEvidenceImage (session_id : Z) (original_path evidence_reason captured_at enhanced_path : string)
    (d : ParkingDb) : result store_error (EvidenceInsertResult * ParkingDb) :=
  if (session_id <? 0) || is_empty original_path || is_empty captured_at ||
     negb (bool_decide (evidence_reason = "OCCUPANCY_START_EVIDENCE") ||
           bool_decide (evidence_reason = "OVERSTAY_EVIDENCE"))
  then Err (InvalidArgument "invalid evidence image fields") else
  if negb (pd_open d) then Err (RuntimeError "cannot insert evidence in a closed database") else
  if has_image session_id (fun r => bool_decide (im_reason r = Some evidence_reason)) d
  then Ok (EvidenceDuplicate, d) else
  if negb (session_active session_id d) then Ok (EvidenceInactiveSession, d) else
  let? d1 := insert_image (mkImageRow (Some session_id) (Some original_path) (null_if_empty enhanced_path)
                             (Some (if is_empty enhanced_path then "NONE" else "CAMERA_AUTO"))
                             (Some evidence_reason) None) d in
  Ok (EvidenceInserted, d1).

Definition find_image (session_id : Z) (p : ImageRow -> bool) (d : ParkingDb) : option ImageRow :=
  List.find (fun r => bool_decide (im_session r = Some session_id) && p r) (pd_images d).

(** [src/database/EventDatabaseTimer.cpp:1280-1297 EventDatabase::findEvidenceImagePath] *)
Definition findEvidenceImagePath (session_id : Z) (evidence_reason : string) (d : ParkingDb) : option string :=
  if negb (pd_open d) then None else
  (fun r => default "" (im_original r)) <$>
    find_image session_id (fun r => bool_decide (im_reason r = Some evidence_reason)) d.

(** [src/database/EventDatabaseTimer.cpp:1299-1381 EventDatabase::insertHallCaptureImage] *)
Definition insertHallCaptureImage (session_id : Z) (original_path enhanced_path enhancement_type captured_at : string)
    (d : ParkingDb) : result store_error (EvidenceInsertResult * ParkingDb) :=
  if (session_id <? 0) || is_empty original_path || is_empty captured_at ||
     negb (bool_decide (enhancement_type = "HALL_30S") || bool_decide (enhancement_type = "HALL_60S"))
  then Err (InvalidArgument "invalid hall capture image fields") else
  if negb (pd_open d) then Err (RuntimeError "cannot insert hall capture in a closed database") else
  if has_image session_id (fun r => bool_decide (im_type r = Some enhancement_type)) d
  then Ok (EvidenceDuplicate, d) else
  if negb (session_active session_id d) then Ok (EvidenceInactiveSession, d) else
  let? d1 := insert_image (mkImageRow (Some session_id) (Some original_path) (null_if_empty enhanced_path)
                             (Some enhancement_type) None None) d in
  match pd_sessions d1 !! session_id with
  | Some r =>
      let? d2 := insert_event (mkEventRow (Some session_id) (Some (pk_slot_id r)) "HALL_CAPTURE_STORED"
                                 ("type=" +:+ enhancement_type +:+ " image=" +:+ original_path)) d1 in
      Ok (EvidenceInserted, d2)
  | None => Ok (EvidenceInserted, d1)
  end.

(** [src/database/EventDatabaseTimer.cpp:1383-1410 EventDatabase::markPlateOcrUnresolved] *)
Definition markPlateOcrUnresolved (session_id : Z) (slot_id : string) (attempts : Z) (d : ParkingDb)
    : result store_error (bool * ParkingDb) :=
  if (session_id <? 0) || (attempts <? 1) || negb (pd_open d) then Ok (false, d) else
  if existsb (fun e => bool_decide (ev_session e = Some session_id) &&
                       bool_decide (ev_type e = "PLATE_OCR_UNRESOLVED")) (pd_events d)
  then Ok (true, d) else
  let? d1 := insert_event (mkEventRow (Some session_id) (null_if_empty slot_id) "PLATE_OCR_UNRESOLVED"
                             ("ocr_status=FAILED ev_status=UNKNOWN attempts=" +:+ pretty attempts)) d in
  Ok (true, d1).

(** * Vehicles and the sessions of the timer *)

(** [include/parking_timer/Types.hpp:10-14 VehicleCategory] *)
Inductive VehicleCategory := CategoryEv | CategoryNonEv | CategoryUnknown.
#[global] Instance VehicleCategory_eq_dec : EqDecision VehicleCategory.
Proof. solve_decision. Defined.

(** [src/timer/Types.cpp:17-27 toString] *)
Definition category_text (category : VehicleCategory) : string :=
  match category with CategoryEv => "EV" | CategoryNonEv => "NON_EV" | CategoryUnknown => "UNKNOWN" end.

(** [src/database/EventDatabaseTimer.cpp:1419-1436 EventDatabase::classifyVehicle] *)
Definition classifyVehicle (car_number : string) (d : ParkingDb) : VehicleCategory :=
  match pd_vehicles d !! car_number with
  | None => CategoryUnknown
  | Some v => if ve_is_ev v then CategoryEv else CategoryNonEv
  end.

(** [src/database/EventDatabaseTimer.cpp:1448-1477 EventDatabase::insertParked] *)
Definition insertParked (car_number slot_id parked_at image_path_1 : string) (d : ParkingDb)
    : result store_error (Z * ParkingDb) :=
  if negb (pd_open d) then Err sql_error else
  let? r := insert_session (mkParkingRow (ve_id <$> pd_vehicles d !! car_number) slot_id (Some car_number)
                              None None None "UNRESOLVED" parked_at None None None (Some 0) StatusActive) d in
  let '(id, d1) := r in
  let? d2 := insert_image (mkImageRow (Some id) (Some image_path_1) None (Some "TIMER_ENTRY") None None) d1 in
  Ok (id, d2).

(** [src/database/EventDatabaseTimer.cpp:1488-1522 EventDatabase::markViolation] *)
Definition markViolation (log_id : Z) (violation_at image_path_2 : string) (d : ParkingDb)
    : result store_error (bool * ParkingDb) :=
  if negb (pd_open d) then Err sql_error else
  match pd_sessions d !! log_id with
  | Some r =>
      if bool_decide (pk_status r = StatusActive) && bool_decide (pk_exit_time r = None) then
        let d1 := pd_set_sessions d (<[log_id := pk_with_state r StatusViolation (Some violation_at) None
                                                   (pk_duration_sec r)]> (pd_sessions d)) in
        if negb (is_empty image_path_2) &&
           negb (has_image log_id (fun i => bool_decide (im_original i = Some image_path_2)) d1)
        then let? d2 := insert_image (mkImageRow (Some log_id) (Some image_path_2) None
                                        (Some "TIMER_VIOLATION") None None) d1 in
             Ok (true, d2)
        else Ok (true, d1)
      else Ok (false, d)
  | None => Ok (false, d)
  end.

(** [src/database/EventDatabaseTimer.cpp:1532-1543 EventDatabase::cancelUnscheduled] *)
Definition cancelUnscheduled (log_id : Z) (canceled_at : string) (d : ParkingDb)
    : result store_error (bool * ParkingDb) :=
  if negb (pd_open d) then Err sql_error else
  match pd_sessions d !! log_id with
  | Some r =>
      if bool_decide (pk_status r = StatusActive) && bool_decide (pk_exit_time r = None)
      then Ok (true, pd_set_sessions d (<[log_id := pk_with_state r StatusEnded (pk_violation_at r)
                                                      (Some canceled_at) (pk_duration_sec r)]> (pd_sessions d)))
      else Ok (false, d)
  | None => Ok (false, d)
  end.

(** [include/parking_timer/Types.hpp:16-27 LogRecord] *)
Record LogRecord := mkLogRecord {
  lr_id : Z;
  lr_car_number : string;
  lr_slot_id : string;
  lr_status : string;
  lr_parked_at : string;
  lr_violation_at : option string;
  lr_departed_at : option string;
  lr_image_path_1 : option string;
  lr_image_path_2 : option string;
  lr_is_canceled : bool
}.

(** [src/database/EventDatabaseTimer.cpp:173-185 kLogSelect] The selected columns, as [readLogRecord] reads
    them. *)
Definition kLogSelect (d : ParkingDb) (id : Z) (r : ParkingRow) : LogRecord :=
  let of_session := List.filter (fun i => bool_decide (im_session i = Some id)) (pd_images d) in
  let first := List.find (fun i => bool_decide (im_type i ∈ [Some "TIMER_ENTRY"; Some "HALL_ENTRY";
                                                             Some "BESTSHOT_VEHICLE"]) ||
                                   bool_decide (im_reason i = Some "OCCUPANCY_START_EVIDENCE")) of_session in
  let last := List.find (fun i => bool_decide (im_type i = Some "TIMER_VIOLATION") ||
                                  bool_decide (im_reason i = Some "OVERSTAY_EVIDENCE")) (reverse of_session) in
  mkLogRecord id (default "" (pk_plate_number r)) (pk_slot_id r)
    (match pk_status r with
     | StatusActive => "PARKED" | StatusEnded => "DEPARTS" | StatusViolation => "VIOLATION"
     | StatusUnknown => "UNKNOWN" end)
    (pk_entry_time r) (pk_violation_at r) (pk_exit_time r) (first ≫= im_original) (last ≫= im_original)
    (bool_decide (is_Some (pk_exit_time r))).

(** The newest session of a slot without an exit. *)
Definition newest_open (slot_id : string) (d : ParkingDb) : option (Z * ParkingRow) :=
  last (sort_rows (fun a b => bool_decide (a.1 <= b.1))
          (select_rows (fun _ r => bool_decide (pk_slot_id r = slot_id) && bool_decide (pk_exit_time r = None))
             (pd_sessions d))).

(** [src/database/EventDatabaseTimer.cpp:1554-1614 EventDatabase::departActiveBySlot] *)
Definition departActiveBySlot `{SqlSeconds} (slot_id departed_at : string) (d : ParkingDb)
    : result store_error (option LogRecord * ParkingDb) :=
  if negb (pd_open d) then Err sql_error else
  match newest_open slot_id d with
  | None => Ok (None, d)
  | Some (id, r) =>
      let duration := match sql_epoch_seconds departed_at, sql_epoch_seconds (pk_entry_time r) with
                      | Some a, Some b => Some (Z.max 0 (a - b)) | _, _ => None end in
      let r' := pk_with_state r StatusEnded (pk_violation_at r) (Some departed_at) duration in
      let d1 := pd_set_sessions d (<[id := r']> (pd_sessions d)) in
      let d2 := pd_set_slots d1 (match pd_slots d1 !! slot_id with
                                 | Some _ => <[slot_id := "VACANT"]> (pd_slots d1) | None => pd_slots d1 end) in
      Ok (Some (kLogSelect d2 id r'), d2)
  end.

(** [src/database/EventDatabaseTimer.cpp:1623-1639 EventDatabase::findActiveBySlot] *)
Definition findActiveBySlot (slot_id : string) (d : ParkingDb) : option LogRecord :=
  (fun kv => kLogSelect d kv.1 kv.2) <$> newest_open slot_id d.

(** [src/database/EventDatabaseTimer.cpp:1648-1662 EventDatabase::findLogById] *)
Definition findLogById (log_id : Z) (d : ParkingDb) : option LogRecord :=
  kLogSelect d log_id <$> pd_sessions d !! log_id.

(** [src/database/EventDatabaseTimer.cpp:1670-1687 EventDatabase::listLogs] *)
Definition listLogs (d : ParkingDb) : list LogRecord :=
  (fun kv => kLogSelect d kv.1 kv.2) <$>
    sort_rows (fun a b => bool_decide (a.1 <= b.1)) (map_to_list (pd_sessions d)).

(** [src/database/EventDatabaseTimer.cpp:1695-1714 EventDatabase::listVehicles] *)
Definition listVehicles (d : ParkingDb) : list (string * string) :=
  (fun kv => (kv.1, if ve_is_ev kv.2 then "EV" else "NON_EV")) <$>
    sort_rows (fun a b => String.leb a.1 b.1) (map_to_list (pd_vehicles d)).

(** [src/database/EventDatabaseTimer.cpp:1722-1738 EventDatabase::clearTimerLogs] For a
    database whose other tables do not refer to the sessions that are removed. *)
Definition clearTimerLogs (d : ParkingDb) : ParkingDb :=
  let timer id := has_image id (fun i => bool_decide (im_type i = Some "TIMER_ENTRY")) d in
  let of_timer s := match s with Some id => timer id | None => false end in
  let d1 := pd_set_events d (List.filter (fun e => negb (of_timer (ev_session e))) (pd_events d)) in
  let d2 := pd_set_images d1 (List.filter (fun i => negb (of_timer (im_session i))) (pd_images d1)) in
  let d3 := pd_set_sessions d2 (filter (fun kv => timer kv.1 = false) (pd_sessions d2)) in
  let busy s := existsb (fun kv => bool_decide (pk_exit_time kv.2 = None) && bool_decide (pk_slot_id kv.2 = s))
                  (map_to_list (pd_sessions d3)) in
  pd_set_slots d3 (map_imap (fun s st => Some (if busy s then st else "VACANT")) (pd_slots d3)).

(** * Other writers *)

(** What other parts of the program write into the tables: new sessions, their ends, plates,
    vehicles and pictures. *)
Inductive DbWrite :=
| WriteSession (slot_id entry_time : string)
| WriteEnd (session_id : Z) (exit_time : string)
| WritePlate (session_id : Z) (plate : string) (vehicle : option Z)
| WriteVehicle (plate : string) (row : VehicleRow)
| WriteEvidence (session_id : Z) (path reason captured_at enhanced : string)
| WriteHallImage (session_id : Z) (path enhanced type captured_at : string).

Definition pk_with_plate (r : ParkingRow) (plate : string) (vehicle : option Z) : ParkingRow :=
  mkParkingRow vehicle (pk_slot_id r) (Some plate) (Some plate) (pk_entrance_event r) (pk_match_score r)
    (pk_resolution_source r)
    (pk_entry_time r) (pk_entry_ms r) (pk_violation_at r) (pk_exit_time r) (pk_duration_sec r) (pk_status r).

Definition db_write (w : DbWrite) (d : ParkingDb) : ParkingDb :=
  match w with
  | WriteSession slot_id entry_time =>
      match createHallSession slot_id "" entry_time d with Ok (_, d) => d | Err _ => d end
  | WriteEnd id exit_time =>
      match pd_sessions d !! id with
      | Some r =>
          if pk_open r then
            pd_set_sessions d (<[id := pk_with_state r StatusEnded (pk_violation_at r) (Some exit_time)
                                         (pk_duration_sec r)]> (pd_sessions d))
          else d
      | None => d
      end
  | WritePlate id plate vehicle =>
      match pd_sessions d !! id with
      | Some r => if bool_decide (pk_exit_time r = None)
                  then pd_set_sessions d (<[id := pk_with_plate r plate vehicle]> (pd_sessions d)) else d
      | None => d
      end
  | WriteVehicle plate row =>
      mkParkingDb (pd_open d) (<[plate := row]> (pd_vehicles d)) (pd_slots d) (pd_sessions d) (pd_session_seq d)
        (pd_images d) (pd_events d) (pd_settings d)
  | WriteEvidence id path reason captured enhanced =>
      match insertEvidenceImage id path reason captured enhanced d with Ok (_, d) => d | Err _ => d end
  | WriteHallImage id path enhanced type captured =>
      match insertHallCaptureImage id path enhanced type captured d with Ok (_, d) => d | Err _ => d end
  end.
Definition db_writes (ws : list DbWrite) (d : ParkingDb) : ParkingDb := foldl (fun d w => db_write w d) d ws.
