(* ===== verification/Overstay.v ===== *)
(** Overstay: [src/timer/TimerManager.cpp], the queue of deadlines and its worker, and
    [src/timer/ParkingSlotManager.cpp], which starts and replaces the timers of the sessions. The
    manager's operations and the decision about one expired item hold the transition mutex, so each is one
    step; the worker takes a step to pop an item and a step to queue it again, and other steps come
    between. Steady times are nanoseconds, delays milliseconds. *)
From stdpp Require Import sorting.
From S2P Require Import Prelude SensorProtocol OccupancyDb TimeText DeadlineQueue ParkingDb.

(** * Data *)

(** [include/parking_timer/TimerManager.hpp:77-88 TimerManager::TimerItem] *)
Record TimerItem := mkTimerItem {
  ti_deadline : Z;
  ti_sequence : N;
  ti_generation : N;
  ti_log_id : Z;
  ti_slot_id : string;
  ti_car_number : string;
  ti_retry_count : N;
  ti_evidence_retry_count : N;
  ti_violation_at : string
}.
#[global] Instance timer_item_timed : Timed TimerItem := {| due := ti_deadline; ticket := ti_sequence |}.

(** What the worker thread holds between two steps: an item that it popped, or one that it is about to queue again. *)
Inductive Hand := HandFree | HandExpired (item : TimerItem) | HandEvidence (item : TimerItem)
                | HandDatabase (item : TimerItem).

(** [include/parking_timer/TimerManager.hpp:111-114 TimerManager] The members that change. *)
Record TimerState := mkTimerState {
  tm_queue : list TimerItem;
  tm_started : bool;
  tm_stopping : bool;
  tm_next_sequence : N;
  tm_generations : gmap Z N;
  tm_hand : Hand
}.

Definition u64 (n : N) : N := (n mod 2 ^ 64)%N.

Definition tm_with_queue (t : TimerState) q seq gens hand : TimerState :=
  mkTimerState q (tm_started t) (tm_stopping t) seq gens hand.

(** [EventManager::publish] *)
Record Published := mkPublished {
  pb_type : string;
  pb_slot : string;
  pb_car : string;
  pb_at : string;
  pb_detail : string;
  pb_session : Z
}.

(** [include/parking_timer/Types.hpp:29-34 EntryResult] *)
Record EntryResult := mkEntryResult {
  en_accepted : bool;
  en_category : VehicleCategory;
  en_log_id : option Z;
  en_message : string
}.

(** The history: what was published, at which steady time, and the deadlines that were set. *)
Inductive OverstayLog := LgPublished (event : Published) (now : Z) | LgScheduled (log_id deadline : Z).

(** The manager with the timers that it owns, the database that it shares, and the history. *)
Record Overstay := mkOverstay {
  ov_db : ParkingDb;
  ov_timers : TimerState;
  ov_timeout : Z;
  ov_scheduled : gset Z;
  ov_log : list OverstayLog
}.
Definition ov_set_db (o : Overstay) x :=
  mkOverstay x (ov_timers o) (ov_timeout o) (ov_scheduled o) (ov_log o).
Definition ov_set_timers (o : Overstay) x := mkOverstay (ov_db o) x (ov_timeout o) (ov_scheduled o) (ov_log o).
Definition ov_set_timeout (o : Overstay) x := mkOverstay (ov_db o) (ov_timers o) x (ov_scheduled o) (ov_log o).
Definition ov_set_scheduled (o : Overstay) x := mkOverstay (ov_db o) (ov_timers o) (ov_timeout o) x (ov_log o).
Definition ov_add_log (o : Overstay) x :=
  mkOverstay (ov_db o) (ov_timers o) (ov_timeout o) (ov_scheduled o) (ov_log o ++ [x]).

(** An instant: the steady clock and the system clock. *)
Record Instant := mkInstant { in_steady : Z; in_wall : time_point }.

Definition publish (at_ : Instant) type slot car occurred detail session (o : Overstay) : Overstay :=
  ov_add_log o (LgPublished (mkPublished type slot car occurred detail session) (in_steady at_)).

(** * The queue of deadlines *)

(** [src/timer/TimerManager.cpp:54-73 TimerManager::start] *)
Definition tm_start (t : TimerState) : bool * TimerState :=
  if tm_started t then (true, t) else
  if tm_stopping t then (false, t) else
  (true, mkTimerState (tm_queue t) true (tm_stopping t) (tm_next_sequence t) (tm_generations t) (tm_hand t)).

(** [src/timer/TimerManager.cpp:76-84 TimerManager::stop] The worker ends after the item that it holds. *)
Definition tm_stop (t : TimerState) : TimerState :=
  mkTimerState (tm_queue t) (tm_started t) true (tm_next_sequence t) (tm_generations t) (tm_hand t).

(** [src/timer/TimerManager.cpp:114-143 TimerManager::scheduleImpl] *)
Definition scheduleImpl (now : Z) (log_id : Z) (slot_id car_number : string) (delay : Z) (t : TimerState)
    : result store_error (Z * TimerState) :=
  if delay <=? 0 then Err (InvalidArgument "timer delay must be positive") else
  if tm_stopping t then Err (RuntimeError "TimerManager is stopping") else
  if negb (tm_started t) then Err (RuntimeError "TimerManager is not started") else
  let deadline := now + delay * 1000000 in
  let generation := u64 (default 0%N (tm_generations t !! log_id) + 1) in
  let item := mkTimerItem deadline (tm_next_sequence t) generation log_id slot_id car_number 0 0 "" in
  Ok (deadline,
      tm_with_queue t (q_push item (tm_queue t)) (u64 (tm_next_sequence t + 1))
        (<[log_id := generation]> (tm_generations t)) (tm_hand t)).

(** [src/timer/TimerManager.cpp:164-168 TimerManager::isCurrent] *)
Definition isCurrent (t : TimerState) (item : TimerItem) : bool :=
  match tm_generations t !! ti_log_id item with
  | Some g => bool_decide (g = ti_generation item)
  | None => false
  end.

(** [src/timer/TimerManager.cpp:150-162 TimerManager::pendingCount] *)
Definition pendingCount (t : TimerState) : nat := length (List.filter (isCurrent t) (tm_queue t)).

(** [src/timer/TimerManager.cpp:176-212 TimerManager::run] One pass of the inner loop: the earliest item,
    when it is due. *)
Definition tm_pop (now : Z) (t : TimerState) : TimerState :=
  match tm_hand t with
  | HandFree =>
      if tm_stopping t || negb (tm_started t) then t else
      match q_due now (tm_queue t) with
      | Some (item, rest) =>
          tm_with_queue t rest (tm_next_sequence t) (tm_generations t) (HandExpired item)
      | None => t
      end
  | _ => t
  end.

(** [src/timer/TimerManager.cpp:321-326 TimerManager::retryAfterEvidencePending] The item goes back into the queue with a new deadline, unless the worker is to stop. *)
Definition tm_requeue (item : TimerItem) (t : TimerState) : TimerState :=
  if tm_stopping t then tm_with_queue t (tm_queue t) (tm_next_sequence t) (tm_generations t) HandFree else
  let item' := mkTimerItem (ti_deadline item) (tm_next_sequence t) (ti_generation item) (ti_log_id item)
                 (ti_slot_id item) (ti_car_number item) (ti_retry_count item) (ti_evidence_retry_count item)
                 (ti_violation_at item) in
  tm_with_queue t (q_push item' (tm_queue t)) (u64 (tm_next_sequence t + 1)) (tm_generations t) HandFree.

Definition ti_with_retry (item : TimerItem) deadline retry evidence : TimerItem :=
  mkTimerItem deadline (ti_sequence item) (ti_generation item) (ti_log_id item) (ti_slot_id item)
    (ti_car_number item) retry evidence (ti_violation_at item).
Definition ti_with_violation (item : TimerItem) violation_at : TimerItem :=
  mkTimerItem (ti_deadline item) (ti_sequence item) (ti_generation item) (ti_log_id item) (ti_slot_id item)
    (ti_car_number item) (ti_retry_count item) (ti_evidence_retry_count item) violation_at.

Definition tm_drop_hand (t : TimerState) : TimerState :=
  tm_with_queue t (tm_queue t) (tm_next_sequence t) (tm_generations t) HandFree.
Definition tm_set_hand (hand : Hand) (t : TimerState) : TimerState :=
  tm_with_queue t (tm_queue t) (tm_next_sequence t) (tm_generations t) hand.

(** [src/timer/ParkingSlotManager.cpp:63-83 ParkingSlotManager::ParkingSlotManager] The callback for errors. *)
Definition reportError (at_ : Instant) (item : TimerItem) (message : string) : Overstay -> Overstay :=
  publish at_ "TIMER_ERROR" (ti_slot_id item) (ti_car_number item) (utcString (in_wall at_)) message (-1).

(** [src/timer/TimerManager.cpp:313-334 TimerManager::retryAfterEvidencePending] *)
Definition retryAfterEvidencePending (at_ : Instant) (item : TimerItem) (o : Overstay) : Overstay :=
  let o1 := if (ti_evidence_retry_count item =? 0)%N
            then reportError at_ item "overstay evidence pending; timer retry scheduled" o else o in
  let item' := ti_with_retry item (in_steady at_ + 500 * 1000000) (ti_retry_count item)
                 (ti_evidence_retry_count item + 1) in
  ov_set_timers o1 (tm_requeue item' (ov_timers o1)).

(** [src/timer/TimerManager.cpp:344-378 TimerManager::retryAfterDatabaseError] The message was reported. *)
Definition retryAfterDatabaseError (at_ : Instant) (item : TimerItem) (o : Overstay) : Overstay :=
  let exponent := N.min (ti_retry_count item) 5 in
  let retry_delay := Z.of_N (N.shiftl 1 exponent) in
  let retry := if (ti_retry_count item <? 5)%N then (ti_retry_count item + 1)%N else ti_retry_count item in
  let item' := ti_with_retry item (in_steady at_ + retry_delay * 1000000000) retry
                 (ti_evidence_retry_count item) in
  ov_set_timers o (tm_requeue item' (ov_timers o)).

(** The picture of the violation: from the provider, which may throw, or a name when there is none. *)
Inductive EvidenceAnswer := EvidencePath (path : string) | EvidenceThrows (message : string) | NoProvider.

(** The decision on the item: wait for the picture, or go on with a path after a report. *)
Definition evidence_decision (answer : EvidenceAnswer) (item : TimerItem) : option (string * option string) :=
  match answer with
  | NoProvider =>
      Some ("snapshots/" +:+ ti_car_number item +:+ "_" +:+ pretty (ti_log_id item) +:+ "_violation.jpg", None)
  | EvidenceThrows message => Some ("", Some ("violation Snapshot failed: " +:+ message))
  | EvidencePath path =>
      if is_empty path then
        if (ti_evidence_retry_count item <? 10)%N then None
        else Some ("", Some ("overstay evidence unavailable after bounded retry; " +:+
                             "violation continues without image"))
      else Some (path, None)
  end.

(** [src/timer/TimerManager.cpp:221-311 TimerManager::processExpired] With the answers of the provider and of
    the disk: an SQL failure other than a constraint. *)
Definition processExpired (at_ : Instant) (answer : EvidenceAnswer) (failure : option string) (item : TimerItem)
    (o : Overstay) : Overstay :=
  let t := ov_timers o in
  if negb (isCurrent t item) then ov_set_timers o (tm_drop_hand t) else
  let item := if is_empty (ti_violation_at item) then ti_with_violation item (utcString (in_wall at_))
              else item in
  match evidence_decision answer item with
  | None => ov_set_timers o (tm_set_hand (HandEvidence item) t)
  | Some (image_path, message) =>
      let o1 := match message with Some m => reportError at_ item m o | None => o end in
      let failed m := ov_set_timers
        (reportError at_ item ("violation DB update failed; retry scheduled: " +:+ m) o1)
        (tm_set_hand (HandDatabase item) t) in
      match failure with
      | Some m => failed m
      | None =>
          match markViolation (ti_log_id item) (ti_violation_at item) image_path (ov_db o) with
          | Err _ => failed "SQLite statement failed"
          | Ok (false, _) => ov_set_timers o1 (tm_drop_hand t)
          | Ok (true, d) =>
              publish at_ "VIOLATION_TRIGGERED" (ti_slot_id item) (ti_car_number item) (ti_violation_at item)
                image_path (ti_log_id item)
                (ov_set_timers (ov_set_db o1 d)
                   (tm_with_queue t (tm_queue t) (tm_next_sequence t)
                      (delete (ti_log_id item) (tm_generations t)) HandFree))
          end
      end
  end.

(** One step of the worker with what it holds. *)
Definition worker_step (at_ : Instant) (answer : EvidenceAnswer) (failure : option string) (o : Overstay) : Overstay :=
  match tm_hand (ov_timers o) with
  | HandFree => ov_set_timers o (tm_pop (in_steady at_) (ov_timers o))
  | HandExpired item => processExpired at_ answer failure item o
  | HandEvidence item => retryAfterEvidencePending at_ item o
  | HandDatabase item => retryAfterDatabaseError at_ item o
  end.

(** * The manager *)

(** [src/timer/ParkingSlotManager.cpp:39-49 remainingDelay] *)
Definition remainingDelay (record : LogRecord) (timeout : Z) (wall : time_point) : Z :=
  match parseUtc (lr_parked_at record) with
  | None => timeout
  | Some parked_at =>
      let elapsed := Z.quot (wall - parked_at) 1000000 in
      if elapsed <=? 0 then timeout else if timeout <=? elapsed then 1 else timeout - elapsed
  end.

(** A timer is set, which the history keeps. *)
Definition ov_schedule (at_ : Instant) (log_id : Z) (slot_id car_number : string) (delay : Z) (o : Overstay)
    : result store_error Overstay :=
  let? r := scheduleImpl (in_steady at_) log_id slot_id car_number delay (ov_timers o) in
  Ok (ov_add_log (ov_set_timers o r.2) (LgScheduled log_id r.1)).

(** [src/timer/ParkingSlotManager.cpp:99-153 ParkingSlotManager::handleEntry] Only the stand-alone timer calls
    it, which is alone on its database. *)
Definition handleEntry (at_ : Instant) (slot_id car_number image_path_1 : string) (o : Overstay)
    : result store_error EntryResult * Overstay :=
  if is_empty slot_id then (Err (InvalidArgument "slot_id must not be empty"), o) else
  if is_empty car_number then (Err (InvalidArgument "car_number must not be empty"), o) else
  let category := classifyVehicle car_number (ov_db o) in
  let now := utcString (in_wall at_) in
  match category with
  | CategoryUnknown =>
      (Ok (mkEntryResult false category None "vehicle is not registered"),
       publish at_ "UNKNOWN_VEHICLE" slot_id car_number now "manual confirmation required" (-1) o)
  | CategoryNonEv =>
      (Ok (mkEntryResult false category None "non-EV vehicle"),
       publish at_ "NON_EV_ALERT" slot_id car_number now "not scheduled in the EV overtime timer" (-1) o)
  | CategoryEv =>
      match findActiveBySlot slot_id (ov_db o) with
      | Some _ =>
          (Ok (mkEntryResult false category None "slot is already occupied"),
           publish at_ "ENTRY_REJECTED" slot_id car_number now "slot already has an active session" (-1) o)
      | None =>
          let first_image := if is_empty image_path_1 then "snapshots/" +:+ car_number +:+ "_parked.jpg"
                             else image_path_1 in
          match insertParked car_number slot_id now first_image (ov_db o) with
          | Err e => (Err e, o)
          | Ok (log_id, d) =>
              let o1 := ov_set_db o d in
              match ov_schedule at_ log_id slot_id car_number (ov_timeout o1) o1 with
              | Err e =>
                  (Err e, match cancelUnscheduled log_id now d with
                          | Ok (_, d') => ov_set_db o1 d' | Err _ => o1 end)
              | Ok o2 =>
                  (Ok (mkEntryResult true category (Some log_id) "timer started"),
                   publish at_ "ARRIVAL" slot_id car_number now
                     "PARKING_SESSION inserted; overtime timer started" log_id
                     (ov_set_scheduled o2 ({[log_id]} ∪ ov_scheduled o2)))
              end
          end
      end
  end.

(** [src/timer/ParkingSlotManager.cpp:155-207 ParkingSlotManager::handleRecognizedSession] [between] is what others
    write between its two accesses to the session. *)
Definition handleRecognizedSession (at_ : Instant) (between : list DbWrite) (session_id : Z)
    (slot_id car_number : string) (o : Overstay) : result store_error EntryResult * Overstay :=
  if (session_id <? 0) || is_empty slot_id || is_empty car_number
  then (Err (InvalidArgument "recognized session fields must not be empty"), o) else
  let category := classifyVehicle car_number (ov_db o) in
  let now := utcString (in_wall at_) in
  let record := findLogById session_id (ov_db o) in
  let answer accepted message := Ok (mkEntryResult accepted category (Some session_id) message) in
  let rejected :=
    (answer false "session is not active",
     publish at_ "TIMER_REJECTED" slot_id car_number now
       "session is missing, mismatched, or already ended" (-1) o) in
  match record with
  | None => rejected
  | Some record =>
      if negb (bool_decide (lr_slot_id record = slot_id)) || bool_decide (is_Some (lr_departed_at record))
      then rejected else
      match category with
      | CategoryUnknown =>
          (answer false "vehicle is not registered",
           publish at_ "UNKNOWN_VEHICLE" slot_id car_number now
             "manual confirmation required; timer not started" (-1) o)
      | CategoryNonEv =>
          let o1 := ov_set_db o (db_writes between (ov_db o)) in
          match markViolation session_id now "" (ov_db o1) with
          | Err e => (Err e, o1)
          | Ok (false, _) => (answer false "non-EV violation was already handled or session ended", o1)
          | Ok (true, d) =>
              (answer false "non-EV vehicle",
               publish at_ "NON_EV_ALERT" slot_id car_number now "non-EV vehicle in EV charging slot"
                 session_id (ov_set_db o1 d))
          end
      | CategoryEv =>
          if bool_decide (session_id ∈ ov_scheduled o) then (answer false "timer already scheduled", o) else
          match ov_schedule at_ session_id slot_id car_number
                  (remainingDelay record (ov_timeout o) (in_wall at_)) o with
          | Err e => (Err e, o)
          | Ok o1 =>
              (answer true "timer started",
               publish at_ "TIMER_STARTED" slot_id car_number now
                 "existing PARKING_SESSION scheduled after OCR" session_id
                 (ov_set_scheduled o1 ({[session_id]} ∪ ov_scheduled o1)))
          end
      end
  end.

(** The sessions whose timers are restored or replaced. *)
Definition timer_record (record : LogRecord) : bool :=
  negb (bool_decide (is_Some (lr_departed_at record)) || is_empty (lr_car_number record) ||
        negb (bool_decide (lr_status record = "PARKED") || bool_decide (lr_status record = "ACTIVE"))).

(** [src/timer/ParkingSlotManager.cpp:209-221 ParkingSlotManager::restoreActiveSessions] An exception ends
    the loop. *)
Fixpoint restore_records (at_ : Instant) (records : list LogRecord) (restored : nat) (o : Overstay)
    : result store_error nat * Overstay :=
  match records with
  | [] => (Ok restored, o)
  | record :: records =>
      if negb (timer_record record) then restore_records at_ records restored o else
      match handleRecognizedSession at_ [] (lr_id record) (lr_slot_id record) (lr_car_number record) o with
      | (Err e, o) => (Err e, o)
      | (Ok r, o) => restore_records at_ records (if en_accepted r then S restored else restored) o
      end
  end.
Definition restoreActiveSessions (at_ : Instant) (o : Overstay) : result store_error nat * Overstay :=
  restore_records at_ (listLogs (ov_db o)) 0 o.

Fixpoint reschedule_records (at_ : Instant) (records : list LogRecord) (rescheduled : nat) (o : Overstay)
    : result store_error nat * Overstay :=
  match records with
  | [] => (Ok rescheduled, o)
  | record :: records =>
      if negb (timer_record record) ||
         negb (bool_decide (classifyVehicle (lr_car_number record) (ov_db o) = CategoryEv))
      then reschedule_records at_ records rescheduled o else
      match ov_schedule at_ (lr_id record) (lr_slot_id record) (lr_car_number record)
              (remainingDelay record (ov_timeout o) (in_wall at_)) o with
      | Err e => (Err e, o)
      | Ok o1 =>
          reschedule_records at_ records (S rescheduled)
            (ov_set_scheduled o1 ({[lr_id record]} ∪ ov_scheduled o1))
      end
  end.

(** [src/timer/ParkingSlotManager.cpp:223-250 ParkingSlotManager::updateParkingTimeout] *)
Definition updateParkingTimeout (at_ : Instant) (parking_timeout : Z) (o : Overstay)
    : result store_error nat * Overstay :=
  if parking_timeout <=? 0 then (Err (InvalidArgument "parking timeout must be positive"), o) else
  let o1 := ov_set_timeout o parking_timeout in
  match reschedule_records at_ (listLogs (ov_db o1)) 0 o1 with
  | (Err e, o2) => (Err e, o2)
  | (Ok n, o2) =>
      (Ok n, publish at_ "OVERSTAY_TIMERS_RESCHEDULED" "" "" (utcString (in_wall at_))
               ("active_sessions=" +:+ pretty (N.of_nat n) +:+ " threshold_ms=" +:+ pretty parking_timeout) (-1) o2)
  end.

(** [src/timer/ParkingSlotManager.cpp:266-285 ParkingSlotManager::handleExit] *)
Definition handleExit `{SqlSeconds} (at_ : Instant) (slot_id : string) (o : Overstay)
    : result store_error (option LogRecord) * Overstay :=
  if is_empty slot_id then (Err (InvalidArgument "slot_id must not be empty"), o) else
  let now := utcString (in_wall at_) in
  match departActiveBySlot slot_id now (ov_db o) with
  | Err e => (Err e, o)
  | Ok (None, d) =>
      (Ok None, publish at_ "EXIT_IGNORED" slot_id "" now "no active session" (-1) (ov_set_db o d))
  | Ok (Some record, d) =>
      (Ok (Some record),
       publish at_ "DEPARTURE" slot_id (lr_car_number record) now
         "PARKING_SESSION updated; queued timer lazily canceled" (lr_id record) (ov_set_db o d))
  end.

(** [src/timer/ParkingSlotManager.cpp:287-302 ParkingSlotManager::handleCommittedExit] *)
Definition handleCommittedExit (session_id : Z) (slot_id : string) (o : Overstay)
    : result store_error (option LogRecord) * Overstay :=
  if (session_id <? 0) || is_empty slot_id
  then (Err (InvalidArgument "committed exit session and slot must be valid"), o) else
  match findLogById session_id (ov_db o) with
  | Some record =>
      if negb (bool_decide (lr_slot_id record = slot_id)) || negb (bool_decide (is_Some (lr_departed_at record)))
      then (Ok None, o)
      else (Ok (Some record), ov_set_scheduled o (ov_scheduled o ∖ {[session_id]}))
  | None => (Ok None, o)
  end.

(** [src/timer/ParkingSlotManager.cpp:309-311 ParkingSlotManager::pendingTimerCount] *)
Definition pendingTimerCount (o : Overstay) : nat := pendingCount (ov_timers o).

(** * Histories *)

Inductive OverstayOp :=
| OvStart | OvStop
| OvWorker (at_ : Instant) (answer : EvidenceAnswer) (failure : option string)
| OvEntry (at_ : Instant) (slot_id car_number image : string)
| OvRecognized (at_ : Instant) (between : list DbWrite) (session_id : Z) (slot_id car_number : string)
| OvRestore (at_ : Instant)
| OvTimeout (at_ : Instant) (parking_timeout : Z)
| OvExit (at_ : Instant) (slot_id : string)
| OvCommittedExit (session_id : Z) (slot_id : string)
| OvWrite (w : DbWrite).

Definition overstay_step `{SqlSeconds} (o : Overstay) (op : OverstayOp) : Overstay :=
  match op with
  | OvStart => ov_set_timers o (tm_start (ov_timers o)).2
  | OvStop => ov_set_timers o (tm_stop (ov_timers o))
  | OvWorker at_ answer failure => worker_step at_ answer failure o
  | OvEntry at_ slot car image => (handleEntry at_ slot car image o).2
  | OvRecognized at_ between id slot car => (handleRecognizedSession at_ between id slot car o).2
  | OvRestore at_ => (restoreActiveSessions at_ o).2
  | OvTimeout at_ timeout => (updateParkingTimeout at_ timeout o).2
  | OvExit at_ slot => (handleExit at_ slot o).2
  | OvCommittedExit id slot => (handleCommittedExit id slot o).2
  | OvWrite w => ov_set_db o (db_write w (ov_db o))
  end.

(** A process with an empty queue over a database. *)
Definition overstay_start (d : ParkingDb) (timeout : Z) : Overstay :=
  mkOverstay d (mkTimerState [] false false 0 ∅ HandFree) timeout ∅ [].
Definition overstay_run `{SqlSeconds} (d : ParkingDb) (timeout : Z) (ops : list OverstayOp) : Overstay :=
  foldl overstay_step (overstay_start d timeout) ops.
