(* ===== verification/OverstayDb.v ===== *)
(** What the statements of the timer and of other writers do to the sessions: only [markViolation] sets a time of
    violation, it does so for a session that is active, and a session that is no longer
    active stays so. *)
From stdpp Require Import sorting.
From S2P Require Import Prelude OccupancyDb TimeText DeadlineQueue ParkingDb Overstay.

(** * Sessions in which a violation may still be found *)

Definition row_live (r : ParkingRow) : bool :=
  bool_decide (pk_status r = StatusActive) && bool_decide (pk_exit_time r = None).
Definition live (d : ParkingDb) (id : Z) : Prop := exists r, pd_sessions d !! id = Some r /\ row_live r = true.
Definition violation_at (d : ParkingDb) (id : Z) : option string := pd_sessions d !! id ≫= pk_violation_at.

(** Identifiers are handed out in order, and a live session has no time of violation. *)
Definition db_sound (d : ParkingDb) : Prop :=
  (forall id r, pd_sessions d !! id = Some r -> id <= pd_session_seq d) /\
  (forall id, live d id -> violation_at d id = None).

(** A change that marks nothing. *)
Definition db_quiet (d d' : ParkingDb) : Prop :=
  db_sound d ->
  db_sound d' /\ pd_session_seq d <= pd_session_seq d' /\
  (forall id, violation_at d' id = violation_at d id) /\
  (forall id, id <= pd_session_seq d -> live d' id -> live d id) /\
  (forall id r, pd_sessions d !! id = Some r -> exists r', pd_sessions d' !! id = Some r').

Lemma db_quiet_refl d d' :
  pd_sessions d' = pd_sessions d -> pd_session_seq d' = pd_session_seq d -> db_quiet d d'.
Proof.
  intros Hs Hq H. unfold db_sound, live, violation_at in *. rewrite Hs, Hq.
  split; [done|]. split; [lia|]. split; [done|]. split; [done|]. intros id r Hr. by exists r.
Qed.

Lemma db_quiet_trans d1 d2 d3 : db_quiet d1 d2 -> db_quiet d2 d3 -> db_quiet d1 d3.
Proof.
  intros H12 H23 H1. destruct (H12 H1) as (H2 & Hs & Hv & Hl & Hk).
  destruct (H23 H2) as (H3 & Hs' & Hv' & Hl' & Hk'). split; [done|]. split; [lia|].
  split; [intros id; by rewrite Hv', Hv|]. split; [intros id Hid Hlive; apply Hl; [done|]; apply Hl'; [lia|done]|].
  intros id r Hr. destruct (Hk id r Hr) as [r' Hr']. by apply (Hk' id r').
Qed.

(** A row is rewritten with its time of violation, and not revived. *)
Lemma db_quiet_update d d' id r r' :
  pd_sessions d !! id = Some r -> pd_sessions d' = <[id := r']> (pd_sessions d) ->
  pd_session_seq d' = pd_session_seq d -> pk_violation_at r' = pk_violation_at r ->
  (row_live r' = true -> row_live r = true) -> db_quiet d d'.
Proof.
  intros Hr Hs Hq Hv Hl [Hid Hnone].
  assert (Hviol : forall i, violation_at d' i = violation_at d i).
  { intros i. unfold violation_at. rewrite Hs. destruct (decide (i = id)) as [-> | Hne].
    - rewrite lookup_insert_eq, Hr. simpl. done.
    - by rewrite lookup_insert_ne. }
  assert (Hlive : forall i, live d' i -> live d i).
  { intros i (x & Hx & Hlx). rewrite Hs in Hx. apply lookup_insert_Some in Hx as [[<- <-] | [_ Hx]]; [|by exists x].
    exists r. auto. }
  split; [split|].
  - intros i x Hx. rewrite Hs in Hx. rewrite Hq. apply lookup_insert_Some in Hx as [[<- <-] | [_ Hx]]; eauto.
  - intros i Hi. rewrite Hviol. auto.
  - split; [lia|]. split; [done|]. split; [auto|]. intros i x Hx. rewrite Hs.
    destruct (decide (i = id)) as [-> | Hne]; [by rewrite lookup_insert_eq; eexists|].
    rewrite lookup_insert_ne by done. by exists x.
Qed.

Lemma insert_session_inv row d id d' :
  insert_session row d = Ok (id, d') ->
  id = pd_session_seq d + 1 /\ pd_session_seq d' = id /\ pd_sessions d' = <[id := row]> (pd_sessions d) /\
  pd_images d' = pd_images d.
Proof. unfold insert_session. destruct (_ && _); [|done]. intros [= <- <-]. done. Qed.

Lemma insert_session_quiet row d id d' :
  insert_session row d = Ok (id, d') -> pk_violation_at row = None -> db_quiet d d'.
Proof.
  intros (-> & Hq & Hs & _)%insert_session_inv Hv [Hid Hnone].
  assert (Hfresh : pd_sessions d !! (pd_session_seq d + 1) = None).
  { destruct (pd_sessions d !! (pd_session_seq d + 1)) as [r|] eqn:Hr; [|done]. specialize (Hid _ _ Hr). lia. }
  assert (Hviol : forall i, violation_at d' i = violation_at d i).
  { intros i. unfold violation_at. rewrite Hs. destruct (decide (i = pd_session_seq d + 1)) as [-> | Hne].
    - rewrite lookup_insert_eq, Hfresh. done.
    - by rewrite lookup_insert_ne. }
  split; [split|].
  - intros i x Hx. rewrite Hs in Hx. rewrite Hq.
    apply lookup_insert_Some in Hx as [[<- <-] | [_ Hx]]; [lia|]. specialize (Hid _ _ Hx). lia.
  - intros i (x & Hx & Hl). rewrite Hviol. rewrite Hs in Hx.
    apply lookup_insert_Some in Hx as [[<- <-] | [_ Hx]]; [unfold violation_at; by rewrite Hfresh|].
    apply Hnone. by exists x.
  - split; [lia|]. split; [done|]. split.
    + intros i Hi (x & Hx & Hl). rewrite Hs in Hx.
      apply lookup_insert_Some in Hx as [[<- <-] | [_ Hx]]; [lia|by exists x].
    + intros i x Hx. exists x. rewrite Hs. apply lookup_insert_Some. right. split; [|done].
      intros <-. congruence.
Qed.

Lemma insert_image_inv row d d' :
  insert_image row d = Ok d' -> pd_sessions d' = pd_sessions d /\ pd_session_seq d' = pd_session_seq d.
Proof. unfold insert_image. destruct (_ || _); [done|]. by intros [= <-]. Qed.
Lemma insert_event_inv row d d' :
  insert_event row d = Ok d' -> pd_sessions d' = pd_sessions d /\ pd_session_seq d' = pd_session_seq d.
Proof. unfold insert_event. destruct (_ && _); [|done]. by intros [= <-]. Qed.

(** * The statements *)

Lemma createHallSession_quiet slot source entry d id d' :
  createHallSession slot source entry d = Ok (id, d') -> db_quiet d d'.
Proof.
  unfold createHallSession. destruct (_ || _); [done|]. destruct (negb _); [done|].
  destruct (pd_slots d !! slot); [|done].
  intros ([id1 d2] & E1 & (d3 & E2 & [= <- <-])%rbind_ok_inv)%rbind_ok_inv.
  eapply db_quiet_trans; [|eapply db_quiet_trans].
  - by apply (db_quiet_refl d (pd_set_slots d (<[slot := "OCCUPIED"]> (pd_slots d)))).
  - by eapply insert_session_quiet.
  - apply insert_event_inv in E2 as [Hs Hq]. by apply db_quiet_refl.
Qed.

Lemma insertEvidenceImage_quiet id path reason captured enhanced d r d' :
  insertEvidenceImage id path reason captured enhanced d = Ok (r, d') -> db_quiet d d'.
Proof.
  unfold insertEvidenceImage. destruct (_ || _); [done|]. destruct (negb _); [done|].
  destruct (has_image _ _ _); [intros [= _ <-]; by apply db_quiet_refl|].
  destruct (negb _); [intros [= _ <-]; by apply db_quiet_refl|].
  intros (d1 & [Hs Hq]%insert_image_inv & [= _ <-])%rbind_ok_inv. by apply db_quiet_refl.
Qed.

Lemma insertHallCaptureImage_quiet id path enhanced type captured d r d' :
  insertHallCaptureImage id path enhanced type captured d = Ok (r, d') -> db_quiet d d'.
Proof.
  unfold insertHallCaptureImage. destruct (_ || _); [done|]. destruct (negb _); [done|].
  destruct (has_image _ _ _); [intros [= _ <-]; by apply db_quiet_refl|].
  destruct (negb _); [intros [= _ <-]; by apply db_quiet_refl|].
  intros (d1 & [Hs Hq]%insert_image_inv & H)%rbind_ok_inv.
  destruct (pd_sessions d1 !! id); [|injection H as _ <-; by apply db_quiet_refl].
  apply rbind_ok_inv in H as (d2 & [Hs2 Hq2]%insert_event_inv & [= _ <-]).
  apply db_quiet_refl; congruence.
Qed.

Lemma insertParked_quiet car slot at_ image d id d' :
  insertParked car slot at_ image d = Ok (id, d') ->
  db_quiet d d' /\ id = pd_session_seq d + 1 /\ pd_session_seq d' = id /\ is_Some (pd_sessions d' !! id).
Proof.
  unfold insertParked. destruct (negb _); [done|].
  intros ([id1 d2] & E1 & (d3 & [Hs Hq]%insert_image_inv & [= <- <-])%rbind_ok_inv)%rbind_ok_inv.
  pose proof (insert_session_inv _ _ _ _ E1) as (Hid & Hseq & Hses & _). split.
  - eapply db_quiet_trans; [by eapply insert_session_quiet|by apply db_quiet_refl].
  - rewrite Hs, Hq, Hses, lookup_insert_eq. split; [done|]. split; [done|]. by eexists.
Qed.

Lemma row_live_ended r st v exit_time dur : row_live (pk_with_state r st v (Some exit_time) dur) = false.
Proof. unfold row_live. simpl. by rewrite andb_false_r. Qed.

Lemma cancelUnscheduled_quiet id at_ d b d' : cancelUnscheduled id at_ d = Ok (b, d') -> db_quiet d d'.
Proof.
  unfold cancelUnscheduled. destruct (negb _); [done|].
  destruct (pd_sessions d !! id) as [r|] eqn:Hr; [|intros [= _ <-]; by apply db_quiet_refl].
  destruct (_ && _); [|intros [= _ <-]; by apply db_quiet_refl].
  intros [= _ <-]. eapply (db_quiet_update d _ id r); [done|done|done|done|]. by rewrite row_live_ended.
Qed.

Lemma newest_open_lookup slot d id r : newest_open slot d = Some (id, r) -> pd_sessions d !! id = Some r.
Proof.
  intros H. unfold newest_open in H. apply last_Some_elem_of in H. unfold sort_rows in H.
  rewrite merge_sort_Permutation in H. apply list_elem_of_In, filter_In in H as [H _].
  apply list_elem_of_In in H. by apply elem_of_map_to_list in H.
Qed.

Lemma departActiveBySlot_quiet `{SqlSeconds} slot at_ d r d' :
  departActiveBySlot slot at_ d = Ok (r, d') -> db_quiet d d'.
Proof.
  unfold departActiveBySlot. destruct (negb _); [done|].
  destruct (newest_open slot d) as [[id row]|] eqn:Hn; [|intros [= _ <-]; by apply db_quiet_refl].
  apply newest_open_lookup in Hn. intros [= _ <-].
  eapply (db_quiet_update d _ id row); [done|done|done|done|]. by rewrite row_live_ended.
Qed.

Lemma db_write_quiet w d : db_quiet d (db_write w d).
Proof.
  destruct w; simpl.
  - destruct (createHallSession _ _ _ d) as [[id d']|] eqn:E; [|by apply db_quiet_refl].
    by eapply createHallSession_quiet.
  - destruct (pd_sessions d !! session_id) as [r|] eqn:Hr; [|by apply db_quiet_refl].
    destruct (pk_open r); [|by apply db_quiet_refl].
    eapply (db_quiet_update d _ session_id r); [done|done|done|done|]. by rewrite row_live_ended.
  - destruct (pd_sessions d !! session_id) as [r|] eqn:Hr; [|by apply db_quiet_refl].
    destruct (bool_decide _); [|by apply db_quiet_refl].
    by eapply (db_quiet_update d _ session_id r).
  - by apply db_quiet_refl.
  - destruct (insertEvidenceImage _ _ _ _ _ d) as [[r d']|] eqn:E; [|by apply db_quiet_refl].
    by eapply insertEvidenceImage_quiet.
  - destruct (insertHallCaptureImage _ _ _ _ _ d) as [[r d']|] eqn:E; [|by apply db_quiet_refl].
    by eapply insertHallCaptureImage_quiet.
Qed.

Lemma db_writes_quiet ws d : db_quiet d (db_writes ws d).
Proof.
  unfold db_writes. revert d. induction ws as [|w ws IH]; intros d; simpl; [by apply db_quiet_refl|].
  eapply db_quiet_trans; [apply db_write_quiet|apply IH].
Qed.

(** ** The mark *)

(** What [markViolation] does: one live session gets the time and is live no more; nothing else changes. *)
Definition db_marked (d d' : ParkingDb) (id : Z) (at_ : string) : Prop :=
  live d id /\ violation_at d' id = Some at_ /\ ~ live d' id /\
  pd_session_seq d' = pd_session_seq d /\
  (forall i, i <> id -> pd_sessions d' !! i = pd_sessions d !! i) /\
  (forall i r, pd_sessions d !! i = Some r -> exists r', pd_sessions d' !! i = Some r').

Lemma markViolation_cases id at_ image d :
  match markViolation id at_ image d with
  | Ok (true, d') => db_marked d d' id at_
  | Ok (false, d') => d' = d /\ ~ live d id
  | Err _ => True
  end.
Proof.
  unfold markViolation. destruct (negb _); [done|].
  destruct (pd_sessions d !! id) as [r|] eqn:Hr; [|split; [done|]; intros (r & Hr' & _); congruence].
  destruct (bool_decide _ && _) eqn:Hl; [|split; [done|]; intros (r' & Hr' & Hl');
    rewrite Hr in Hr'; injection Hr' as <-; unfold row_live in Hl'; by rewrite Hl' in Hl].
  set (r' := pk_with_state r StatusViolation (Some at_) None (pk_duration_sec r)).
  assert (Hmark : forall d', pd_sessions d' = <[id := r']> (pd_sessions d) ->
            pd_session_seq d' = pd_session_seq d -> db_marked d d' id at_).
  { intros d' Hs Hq. split; [by exists r|]. unfold violation_at. rewrite Hs, lookup_insert_eq.
    split; [done|]. split.
    - intros (x & Hx & Hlx). rewrite Hs, lookup_insert_eq in Hx. by simplify_eq.
    - split; [done|]. split; [intros i Hi; by rewrite lookup_insert_ne|].
      intros i x Hx. destruct (decide (i = id)) as [-> | Hne]; [rewrite lookup_insert_eq; by eexists|].
      rewrite lookup_insert_ne by done. by exists x. }
  destruct (negb _ && _); [|by apply Hmark].
  destruct (insert_image _ _) as [d2|] eqn:E; simpl; [|done].
  apply insert_image_inv in E as [Hs Hq]. by apply Hmark.
Qed.

Lemma db_marked_sound d d' id at_ : db_marked d d' id at_ -> db_sound d -> db_sound d'.
Proof.
  intros (Hl & Hv & Hno & Hq & Ho & Hk) [Hid Hn]. split.
  - intros i r Hr. rewrite Hq. destruct (decide (i = id)) as [-> | Hne].
    + destruct Hl as (x & Hx & _). by apply (Hid id x).
    + rewrite Ho in Hr by done. by apply (Hid i r).
  - intros i (x & Hx & Hlx). destruct (decide (i = id)) as [-> | Hne]; [destruct Hno; by exists x|].
    rewrite Ho in Hx by done. unfold violation_at. rewrite Ho by done. apply Hn. by exists x.
Qed.
