(* ===== verification/OverstaySafety.v ===== *)
(** Overstay is reported once, not early and not lost: the invariant of histories of the timer and its
    manager, and what follows from it. *)
From stdpp Require Import sorting.
From S2P Require Import Prelude OccupancyDb TimeText DeadlineQueue ParkingDb Overstay OverstayDb.

(** * What a history says *)

(** The items that still exist: in the queue, or in the worker's hand. *)
Definition hand_items (h : Hand) : list TimerItem :=
  match h with HandFree => [] | HandExpired i | HandEvidence i | HandDatabase i => [i] end.
Definition held (t : TimerState) : list TimerItem := tm_queue t ++ hand_items (tm_hand t).

(** The deadline that was set last for a session. *)
Definition last_deadline (id : Z) (log : list OverstayLog) : option Z :=
  foldl (fun found x => match x with
                        | LgScheduled i dl => if bool_decide (i = id) then Some dl else found
                        | LgPublished _ _ => found end) None log.
Definition schedules (log : list OverstayLog) : N :=
  N.of_nat (length (List.filter (fun x => match x with LgScheduled _ _ => true | _ => false end) log)).

(** The reports of a violation of a session, with the times they name. *)
Definition is_violation (id : Z) (e : Published) : bool :=
  (bool_decide (pb_type e = "VIOLATION_TRIGGERED") || bool_decide (pb_type e = "NON_EV_ALERT")) &&
  bool_decide (pb_session e = id).
Definition violations (id : Z) (log : list OverstayLog) : list string :=
  omap (fun x => match x with
                 | LgPublished e _ => if is_violation id e then Some (pb_at e) else None
                 | LgScheduled _ _ => None end) log.

(** An overstay is reported after the deadline that was set last. *)
Definition reports_due (log : list OverstayLog) : Prop :=
  forall pre e now post, log = pre ++ LgPublished e now :: post -> pb_type e = "VIOLATION_TRIGGERED" ->
    exists dl, last_deadline (pb_session e) pre = Some dl /\ dl <= now.

Lemma last_deadline_snoc id log x :
  last_deadline id (log ++ [x]) =
  match x with
  | LgScheduled i dl => if bool_decide (i = id) then Some dl else last_deadline id log
  | LgPublished _ _ => last_deadline id log
  end.
Proof. unfold last_deadline. by rewrite foldl_app. Qed.
Lemma schedules_snoc log x :
  schedules (log ++ [x]) = (schedules log + match x with LgScheduled _ _ => 1 | _ => 0 end)%N.
Proof. unfold schedules. rewrite List.filter_app, length_app. destruct x; simpl; lia. Qed.
Lemma violations_snoc id log x :
  violations id (log ++ [x]) =
  violations id log ++ match x with
                       | LgPublished e _ => if is_violation id e then [pb_at e] else []
                       | LgScheduled _ _ => [] end.
Proof. unfold violations. rewrite omap_app. f_equal. destruct x; simpl; [by destruct (is_violation id event)|done]. Qed.

Lemma is_violation_self e :
  bool_decide (pb_type e = "VIOLATION_TRIGGERED") || bool_decide (pb_type e = "NON_EV_ALERT") = true ->
  is_violation (pb_session e) e = true.
Proof. intros H. unfold is_violation. by rewrite H, bool_decide_eq_true_2. Qed.

Lemma reports_due_snoc log x :
  reports_due log ->
  (forall e now, x = LgPublished e now -> pb_type e = "VIOLATION_TRIGGERED" ->
     exists dl, last_deadline (pb_session e) log = Some dl /\ dl <= now) ->
  reports_due (log ++ [x]).
Proof.
  intros Hold Hnew pre e now post H. apply snoc_split in H as [(_ & -> & H) | (post' & _ & ->)].
  - by apply Hnew.
  - by apply (Hold pre e now post').
Qed.

(** * The invariant *)

(** The longest time until an item that was queued again is due. *)
Definition longest_wait : Z := 32 * 1000000000.

Section Safety.
Variable d0 : ParkingDb.

Record ov_inv (clock : Z) (o : Overstay) : Prop := {
  oi_sound : db_sound (ov_db o);
  oi_viol : forall id, 0 <= id ->
    (violations id (ov_log o) = [] /\ violation_at (ov_db o) id = violation_at d0 id) \/
    (exists t, violations id (ov_log o) = [t] /\ violation_at (ov_db o) id = Some t /\
       violation_at d0 id = None);
  oi_known : forall id dl, last_deadline id (ov_log o) = Some dl -> id <= pd_session_seq (ov_db o);
  oi_item : forall i, i ∈ held (ov_timers o) ->
    ti_log_id i <= pd_session_seq (ov_db o) /\
    (live (ov_db o) (ti_log_id i) -> exists g, tm_generations (ov_timers o) !! ti_log_id i = Some g /\
       (ti_generation i <= g)%N /\
       (ti_generation i = g -> exists dl, last_deadline (ti_log_id i) (ov_log o) = Some dl /\
          dl <= ti_deadline i <= Z.max dl (clock + longest_wait)));
  oi_hand : forall i, i ∈ hand_items (tm_hand (ov_timers o)) -> ti_deadline i <= clock;
  oi_kept : tm_stopping (ov_timers o) = false -> forall id dl, last_deadline id (ov_log o) = Some dl ->
    live (ov_db o) id ->
    exists i, i ∈ held (ov_timers o) /\ ti_log_id i = id /\ isCurrent (ov_timers o) i = true;
  oi_gens : forall id g, tm_generations (ov_timers o) !! id = Some g -> (g <= schedules (ov_log o))%N;
  oi_due : reports_due (ov_log o)
}.

(** ** Changes of the database that mark nothing *)

Lemma inv_db clock clock' o d :
  ov_inv clock o -> clock <= clock' -> db_quiet (ov_db o) d -> ov_inv clock' (ov_set_db o d).
Proof.
  intros I Hle Hq. destruct (Hq (oi_sound _ _ I)) as (Hs & Hseq & Hv & Hl & _). split; simpl.
  - done.
  - intros id Hid. rewrite Hv. by apply (oi_viol _ _ I).
  - intros id dl H. pose proof (oi_known _ _ I id dl H). lia.
  - intros i Hi. destruct (oi_item _ _ I i Hi) as [Hid Hlive]. split; [lia|].
    intros H. destruct (Hlive (Hl _ Hid H)) as (g & Hg & Hle' & Hc). exists g. split; [done|]. split; [done|].
    intros Heq. destruct (Hc Heq) as (dl & Hd & Hb). exists dl. split; [done|lia].
  - intros i Hi. pose proof (oi_hand _ _ I i Hi). lia.
  - intros Hst id dl H Hlive. pose proof (oi_known _ _ I id dl H).
    apply (oi_kept _ _ I Hst id dl H), Hl; done.
  - apply (oi_gens _ _ I).
  - apply (oi_due _ _ I).
Qed.

Lemma inv_clock clock clock' o : ov_inv clock o -> clock <= clock' -> ov_inv clock' o.
Proof.
  intros I Hle. destruct o as [d t to sc lg]. apply (inv_db clock clock' (mkOverstay d t to sc lg) d); [done|done|].
  by apply db_quiet_refl.
Qed.

(** ** Events *)

Definition plain_type (type : string) : bool :=
  negb (bool_decide (type = "VIOLATION_TRIGGERED") || bool_decide (type = "NON_EV_ALERT")).

Lemma inv_publish clock o at_ type slot car occurred detail session :
  ov_inv clock o -> plain_type type = true \/ session < 0 /\ type <> "VIOLATION_TRIGGERED" ->
  ov_inv clock (publish at_ type slot car occurred detail session o).
Proof.
  intros I Hp. set (e := mkPublished type slot car occurred detail session).
  assert (Hno : forall id, 0 <= id -> is_violation id e = false).
  { intros id Hid. unfold is_violation. simpl. destruct Hp as [Hp | [Hp _]].
    - unfold plain_type in Hp. by destruct (_ || _).
    - rewrite (bool_decide_eq_false_2 (session = id)) by lia. apply andb_false_r. }
  assert (Ht : type <> "VIOLATION_TRIGGERED").
  { destruct Hp as [Hp | [_ Hp]]; [|done]. intros ->. by unfold plain_type in Hp. }
  destruct I as [H1 H2 H3 H4 H5 H6 H7 H8].
  split; simpl; fold e; try done.
  - intros id Hid. rewrite violations_snoc, (Hno id Hid), app_nil_r. auto.
  - intros id dl. rewrite last_deadline_snoc. apply H3.
  - intros i Hi. rewrite last_deadline_snoc. apply (H4 i Hi).
  - intros Hst id dl. rewrite last_deadline_snoc. apply (H6 Hst id dl).
  - intros id g Hg. rewrite schedules_snoc. specialize (H7 id g Hg). lia.
  - apply reports_due_snoc; [done|]. by intros e' now' [= <- <-].
Qed.

(** ** Timers that do not change, except that the worker may stop *)

Lemma inv_timers clock o t :
  ov_inv clock o -> tm_queue t = tm_queue (ov_timers o) -> tm_hand t = tm_hand (ov_timers o) ->
  tm_generations t = tm_generations (ov_timers o) ->
  (tm_stopping t = false -> tm_stopping (ov_timers o) = false) -> ov_inv clock (ov_set_timers o t).
Proof.
  intros [H1 H2 H3 H4 H5 H6 H7 H8] Hq Hh Hg Hs.
  assert (Hheld : held t = held (ov_timers o)) by (unfold held; by rewrite Hq, Hh).
  split; simpl; rewrite ?Hheld, ?Hh, ?Hg; try done.
  intros Hst id dl Hd Hl. destruct (H6 (Hs Hst) id dl Hd Hl) as (i & Hi & Hid & Hc).
  exists i. split; [done|]. split; [done|]. unfold isCurrent in *. by rewrite Hg.
Qed.

Lemma inv_scheduled clock o x : ov_inv clock o -> ov_inv clock (ov_set_scheduled o x).
Proof. intros [H1 H2 H3 H4 H5 H6 H7 H8]. by split. Qed.
Lemma inv_timeout clock o x : ov_inv clock o -> ov_inv clock (ov_set_timeout o x).
Proof. intros [H1 H2 H3 H4 H5 H6 H7 H8]. by split. Qed.

(** ** A timer is set *)

Lemma ov_schedule_inv at_ id slot car delay o o' :
  ov_schedule at_ id slot car delay o = Ok o' ->
  0 < delay /\ tm_stopping (ov_timers o) = false /\
  let dl := in_steady at_ + delay * 1000000 in
  let g := u64 (default 0%N (tm_generations (ov_timers o) !! id) + 1) in
  o' = ov_add_log (ov_set_timers o (tm_with_queue (ov_timers o)
         (q_push (mkTimerItem dl (tm_next_sequence (ov_timers o)) g id slot car 0 0 "") (tm_queue (ov_timers o)))
         (u64 (tm_next_sequence (ov_timers o) + 1)) (<[id := g]> (tm_generations (ov_timers o)))
         (tm_hand (ov_timers o)))) (LgScheduled id dl).
Proof.
  unfold ov_schedule, scheduleImpl. destruct (Z.leb_spec delay 0); [done|].
  destruct (tm_stopping (ov_timers o)); [done|]. destruct (negb _); [done|]. simpl. intros [= <-]. done.
Qed.

Lemma inv_schedule clock at_ id slot car delay o o' :
  ov_inv clock o -> ov_schedule at_ id slot car delay o = Ok o' -> id <= pd_session_seq (ov_db o) ->
  (schedules (ov_log o') < 2 ^ 64)%N -> ov_inv clock o'.
Proof.
  intros I Hsch Hid Hlt. apply ov_schedule_inv in Hsch as (_ & Hst & ->).
  set (dl := in_steady at_ + delay * 1000000) in *.
  set (g0 := default 0%N (tm_generations (ov_timers o) !! id)) in *.
  simpl in Hlt. rewrite schedules_snoc in Hlt.
  assert (Hg0 : (g0 <= schedules (ov_log o))%N).
  { unfold g0. destruct (tm_generations (ov_timers o) !! id) as [g|] eqn:Hg; simpl; [|lia]. by apply (oi_gens _ _ I id). }
  assert (Hg : u64 (g0 + 1) = (g0 + 1)%N) by (unfold u64; apply N.mod_small; lia).
  rewrite Hg. set (new := mkTimerItem dl _ _ id slot car 0 0 "").
  destruct I as [H1 H2 H3 H4 H5 H6 H7 H8].
  assert (Hheld : forall i, i ∈ q_push new (tm_queue (ov_timers o)) ++ hand_items (tm_hand (ov_timers o)) <->
                     i = new \/ i ∈ held (ov_timers o)).
  { intros i. unfold held. rewrite !elem_of_app, elem_of_q_push. tauto. }
  split; simpl; unfold held; simpl.
  - done.
  - intros i Hi. rewrite violations_snoc, app_nil_r. auto.
  - intros i dl'. rewrite last_deadline_snoc. case_bool_decide; [intros _; by subst|]. apply H3.
  - intros i [-> | Hi]%Hheld; rewrite last_deadline_snoc.
    + split; [done|]. intros _. simpl. rewrite lookup_insert_eq, bool_decide_eq_true_2 by done.
      exists (g0 + 1)%N. split; [done|]. split; [lia|]. intros _. exists dl. split; [done|lia].
    + destruct (H4 i Hi) as [Hi1 Hi2]. split; [done|]. intros Hl. destruct (Hi2 Hl) as (g & Hgi & Hle & Hc).
      case_bool_decide as Heq.
      * subst id. rewrite lookup_insert_eq. exists (g0 + 1)%N. split; [done|].
        assert (g0 = g) by (unfold g0; by rewrite Hgi). split; [lia|]. intros ?. lia.
      * rewrite lookup_insert_ne by done. by exists g.
  - done.
  - intros _ i dl'. rewrite last_deadline_snoc. case_bool_decide as Heq.
    + intros _ _. subst i. exists new. split; [apply Hheld; by left|]. split; [done|].
      unfold isCurrent. simpl. by rewrite lookup_insert_eq, bool_decide_eq_true_2.
    + intros Hd Hl. destruct (H6 Hst i dl' Hd Hl) as (x & Hx & Hxi & Hc).
      exists x. split; [apply Hheld; by right|]. split; [done|].
      unfold isCurrent in *. simpl. by rewrite lookup_insert_ne by congruence.
  - intros i g. rewrite schedules_snoc, lookup_insert_Some. intros [[_ <-] | [_ Hi]]; [lia|].
    specialize (H7 i g Hi). lia.
  - apply reports_due_snoc; [done|]. by intros.
Qed.

(** ** The worker *)

Lemma isCurrent_spec t i : isCurrent t i = true <-> tm_generations t !! ti_log_id i = Some (ti_generation i).
Proof.
  unfold isCurrent. destruct (tm_generations t !! ti_log_id i) as [g|]; [|done].
  rewrite bool_decide_eq_true. split; [by intros ->|by intros [= ->]].
Qed.

(** Where the items are does not matter, as long as those that count are still held. *)
Lemma inv_move clock clock' o t :
  ov_inv clock o -> clock <= clock' ->
  tm_generations t = tm_generations (ov_timers o) -> tm_stopping t = tm_stopping (ov_timers o) ->
  (forall i, i ∈ held t -> exists j, j ∈ held (ov_timers o) /\ ti_log_id i = ti_log_id j /\
     ti_generation i = ti_generation j /\
     ti_deadline j <= ti_deadline i <= Z.max (ti_deadline j) (clock' + longest_wait)) ->
  (forall i, i ∈ hand_items (tm_hand t) -> ti_deadline i <= clock') ->
  (tm_stopping t = false -> forall j, j ∈ held (ov_timers o) -> live (ov_db o) (ti_log_id j) ->
     isCurrent (ov_timers o) j = true ->
     exists i, i ∈ held t /\ ti_log_id i = ti_log_id j /\ ti_generation i = ti_generation j) ->
  ov_inv clock' (ov_set_timers o t).
Proof.
  intros [H1 H2 H3 H4 H5 H6 H7 H8] Hle Hg Hs Hold Hhand Hnew. split; simpl; try done.
  - intros i (j & Hj & Hid & Hgen & Hdl)%Hold. rewrite Hg, Hid, Hgen. destruct (H4 j Hj) as [Hj1 Hj2].
    split; [done|]. intros Hl. destruct (Hj2 Hl) as (g & Hgj & Hgl & Hc). exists g. split; [done|].
    split; [done|]. intros Heq. destruct (Hc Heq) as (dl & Hd & Hdle). exists dl. split; [done|lia].
  - intros Hst id dl Hd Hl. rewrite Hs in Hst. destruct (H6 Hst id dl Hd Hl) as (j & Hj & <- & Hc).
    destruct (Hnew ltac:(by rewrite Hs) j Hj Hl Hc) as (i & Hi & Hid & Hgen). exists i. split; [done|].
    split; [done|]. apply isCurrent_spec. apply isCurrent_spec in Hc. by rewrite Hg, Hid, Hgen.
  - by rewrite Hg.
Qed.

Lemma inv_pop clock o now : ov_inv clock o -> clock <= now -> ov_inv now (ov_set_timers o (tm_pop now (ov_timers o))).
Proof.
  intros I Hle. unfold tm_pop. destruct (tm_hand (ov_timers o)) eqn:Hh.
  2-4: by destruct o as [d t to sc lg]; apply (inv_clock clock).
  assert (Hsame : ov_inv now (ov_set_timers o (ov_timers o))) by (by destruct o as [d t to sc lg]; apply (inv_clock clock)).
  destruct (_ || _); [done|]. destruct (q_due _ _) as [[item rest]|] eqn:Hq; [|done].
  apply q_due_Some in Hq as [Hq Hdue].
  assert (Hheld : forall i, i ∈ rest ++ [item] <-> i ∈ held (ov_timers o)).
  { intros i. unfold held. rewrite Hh, Hq. simpl. rewrite app_nil_r. set_solver. }
  apply (inv_move clock); try done.
  - intros i Hi%Hheld. exists i. split; [done|]. split; [done|]. split; [done|lia].
  - intros i Hi. apply list_elem_of_singleton in Hi as ->. exact Hdue.
  - intros _ j Hj _ _. exists j. split; [by apply Hheld|done].
Qed.

(** The hand changes to an item of the same timer. *)
Lemma inv_hand clock o hand item item' :
  ov_inv clock o -> hand_items (tm_hand (ov_timers o)) = [item] -> hand_items hand = [item'] ->
  ti_log_id item' = ti_log_id item -> ti_generation item' = ti_generation item ->
  ti_deadline item' = ti_deadline item -> ov_inv clock (ov_set_timers o (tm_set_hand hand (ov_timers o))).
Proof.
  intros I Hh Hh' Hid Hg Hd. pose proof (oi_hand _ _ I) as Hhand. rewrite Hh in Hhand.
  apply (inv_move clock); try done.
  - unfold held, tm_set_hand, tm_with_queue. cbn [tm_queue tm_hand]. rewrite Hh, Hh'.
    intros i [Hi | ->%list_elem_of_singleton]%elem_of_app.
    + exists i. split; [apply elem_of_app; by left|]. split; [done|]. split; [done|lia].
    + exists item. split; [apply elem_of_app; right; left|]. rewrite Hd. split; [done|]. split; [done|lia].
  - cbn [tm_set_hand tm_with_queue tm_hand]. rewrite Hh'. intros i ->%list_elem_of_singleton. rewrite Hd.
    apply Hhand. left.
  - intros _ j Hj _ _. unfold held in *. cbn [tm_set_hand tm_with_queue tm_queue tm_hand]. rewrite Hh'. rewrite Hh in Hj.
    apply elem_of_app in Hj as [Hj | ->%list_elem_of_singleton].
    + exists j. split; [apply elem_of_app; by left|done].
    + exists item'. split; [apply elem_of_app; right; left|]. by rewrite Hid, Hg.
Qed.

(** The item in the hand goes, when it is stale or its session is no longer live. *)
Lemma inv_drop clock o item :
  ov_inv clock o -> hand_items (tm_hand (ov_timers o)) = [item] ->
  isCurrent (ov_timers o) item = false \/ ~ live (ov_db o) (ti_log_id item) \/ tm_stopping (ov_timers o) = true ->
  ov_inv clock (ov_set_timers o (tm_drop_hand (ov_timers o))).
Proof.
  intros I Hh Hgone. apply (inv_move clock); try done.
  - unfold held. cbn [tm_drop_hand tm_with_queue tm_queue tm_hand hand_items]. rewrite app_nil_r.
    intros i Hi. exists i. split; [apply elem_of_app; by left|]. split; [done|]. split; [done|lia].
  - cbn. intros i Hi. by apply elem_of_nil in Hi.
  - cbn [tm_drop_hand tm_with_queue tm_stopping]. intros Hst j Hj Hl Hc. unfold held in *. rewrite Hh in Hj.
    cbn [tm_drop_hand tm_with_queue tm_queue tm_hand hand_items]. rewrite app_nil_r.
    apply elem_of_app in Hj as [Hj | ->%list_elem_of_singleton]; [by exists j|].
    destruct Hgone as [Hno | [Hno | Hno]]; congruence.
Qed.

(** The item in the hand is queued again with a later deadline. *)
Lemma inv_requeue clock o item item' :
  ov_inv clock o -> hand_items (tm_hand (ov_timers o)) = [item] ->
  ti_log_id item' = ti_log_id item -> ti_generation item' = ti_generation item ->
  clock <= ti_deadline item' <= clock + longest_wait ->
  ov_inv clock (ov_set_timers o (tm_requeue item' (ov_timers o))).
Proof.
  intros I Hh Hid Hg Hd. unfold tm_requeue. destruct (tm_stopping (ov_timers o)) eqn:Hst.
  { apply (inv_drop clock o item); auto. }
  pose proof (oi_hand _ _ I) as Hhand. rewrite Hh in Hhand. specialize (Hhand item ltac:(left)).
  set (new := mkTimerItem _ _ _ _ _ _ _ _ _). apply (inv_move clock); try done.
  - unfold held. cbn [tm_with_queue tm_queue tm_hand hand_items]. rewrite app_nil_r.
    intros i [-> | Hi]%elem_of_q_push.
    + exists item. rewrite Hh. split; [apply elem_of_app; right; left|]. simpl. split; [done|]. split; [done|lia].
    + exists i. split; [apply elem_of_app; by left|]. split; [done|]. split; [done|lia].
  - cbn. intros i Hi. by apply elem_of_nil in Hi.
  - intros _ j Hj _ _. unfold held in *. cbn [tm_with_queue tm_queue tm_hand hand_items]. rewrite app_nil_r.
    rewrite Hh in Hj. apply elem_of_app in Hj as [Hj | ->%list_elem_of_singleton].
    + exists j. split; [apply elem_of_q_push; by right|done].
    + exists new. split; [apply elem_of_q_push; by left|]. by simpl.
Qed.

(** ** A session is marked and the report goes out *)

Lemma db_marked_live d d' id at_ i : db_marked d d' id at_ -> live d' i -> i <> id /\ live d i.
Proof.
  intros (_ & _ & Hno & _ & Ho & _) Hl. assert (Hne : i <> id) by (by intros ->). split; [done|].
  destruct Hl as (r & Hr & Hlr). rewrite Ho in Hr by done. by exists r.
Qed.

Lemma inv_mark clock o t d e now :
  ov_inv clock o -> db_marked (ov_db o) d (pb_session e) (pb_at e) ->
  is_violation (pb_session e) e = true ->
  (pb_type e = "VIOLATION_TRIGGERED" ->
     exists dl, last_deadline (pb_session e) (ov_log o) = Some dl /\ dl <= now) ->
  tm_queue t = tm_queue (ov_timers o) -> tm_stopping t = tm_stopping (ov_timers o) ->
  (tm_generations t = tm_generations (ov_timers o) \/
   tm_generations t = delete (pb_session e) (tm_generations (ov_timers o))) ->
  (tm_hand t = tm_hand (ov_timers o) \/
   tm_hand t = HandFree /\ forall i, i ∈ hand_items (tm_hand (ov_timers o)) -> ti_log_id i = pb_session e) ->
  ov_inv clock (ov_add_log (ov_set_timers (ov_set_db o d) t) (LgPublished e now)).
Proof.
  intros [H1 H2 H3 H4 H5 H6 H7 H8] Hm Hv Hdue Hq Hst Hgens Hhand. set (id := pb_session e) in *.
  assert (Hgen : forall i, i <> id -> tm_generations t !! i = tm_generations (ov_timers o) !! i).
  { intros i Hi. destruct Hgens as [-> | ->]; [done|by apply lookup_delete_ne]. }
  assert (Hheld : forall i, i ∈ held t -> i ∈ held (ov_timers o)).
  { intros i. unfold held. rewrite Hq. destruct Hhand as [-> | [-> _]]; [done|]. simpl. rewrite app_nil_r.
    intros Hi. apply elem_of_app. by left. }
  pose proof (db_marked_sound _ _ _ _ Hm H1) as Hsound.
  pose proof Hm as (Hlive & Hat & Hno & Hseq & Hother & _). split; simpl.
  - done.
  - intros i Hi. rewrite violations_snoc. destruct (decide (i = id)) as [-> | Hne].
    + rewrite Hv. right. exists (pb_at e). destruct H1 as [_ Hnone]. specialize (Hnone id Hlive).
      destruct (H2 id Hi) as [[Hz Hw] | (x & _ & Hw & _)]; [|congruence]. rewrite Hz.
      split; [done|]. split; [done|]. by rewrite <- Hw.
    + unfold is_violation. rewrite (bool_decide_eq_false_2 (pb_session e = i)), andb_false_r, app_nil_r by (by intros <-).
      unfold violation_at. rewrite Hother by done. by apply H2.
  - intros i dl. rewrite last_deadline_snoc, Hseq. apply H3.
  - intros i Hi. rewrite last_deadline_snoc, Hseq. destruct (H4 i (Hheld i Hi)) as [Hid Hx]. split; [done|].
    intros Hl. destruct (db_marked_live _ _ _ _ _ Hm Hl) as [Hne Hl']. rewrite Hgen by done. by apply Hx.
  - intros i Hi. apply H5. destruct Hhand as [Hh | [Hh _]]; rewrite Hh in Hi; [done|by apply elem_of_nil in Hi].
  - intros Hs i dl. rewrite last_deadline_snoc. intros Hd Hl. rewrite Hst in Hs.
    destruct (db_marked_live _ _ _ _ _ Hm Hl) as [Hne Hl'].
    destruct (H6 Hs i dl Hd Hl') as (x & Hx & Hxi & Hc). exists x. split.
    + unfold held in *. rewrite Hq. apply elem_of_app in Hx as [Hx | Hx]; apply elem_of_app; [by left|].
      destruct Hhand as [-> | [_ Hall]]; [by right|]. specialize (Hall x Hx). congruence.
    + split; [done|]. apply isCurrent_spec. apply isCurrent_spec in Hc. by rewrite Hgen by congruence.
  - intros i g Hg. rewrite schedules_snoc. assert (Hx : (g <= schedules (ov_log o))%N); [|lia].
    destruct Hgens as [Hgs | Hgs]; rewrite Hgs in Hg; [by apply (H7 i)|].
    apply lookup_delete_Some in Hg as [_ Hg]. by apply (H7 i).
  - apply reports_due_snoc; [done|]. intros e' now' [= <- <-] Ht. by apply Hdue.
Qed.

(** ** Whole operations *)

Lemma report_inv clock o at_ item m : ov_inv clock o -> ov_inv clock (reportError at_ item m o).
Proof. intros I. apply inv_publish; [done|by left]. Qed.

Lemma inv_process o at_ answer failure item :
  ov_inv (in_steady at_) o -> tm_hand (ov_timers o) = HandExpired item ->
  ov_inv (in_steady at_) (processExpired at_ answer failure item o).
Proof.
  intros I Hh. unfold processExpired. assert (Hhi : hand_items (tm_hand (ov_timers o)) = [item]) by (by rewrite Hh).
  destruct (isCurrent (ov_timers o) item) eqn:Hc; cbn [negb]; [|by apply (inv_drop _ o item); auto].
  set (item1 := if is_empty (ti_violation_at item) then _ else item).
  assert (H1 : ti_log_id item1 = ti_log_id item /\ ti_generation item1 = ti_generation item /\
                 ti_deadline item1 = ti_deadline item) by (by unfold item1; destruct (is_empty _)).
  destruct H1 as (Hid & Hgen & Hdl).
  assert (Hset : forall o' hand, ov_inv (in_steady at_) o' -> ov_timers o' = ov_timers o -> hand_items hand = [item1] ->
            ov_inv (in_steady at_) (ov_set_timers o' (tm_set_hand hand (ov_timers o)))).
  { intros o' hand I' Ht Hhand. rewrite <- Ht. apply (inv_hand _ o' hand item item1); try done. by rewrite Ht. }
  destruct (evidence_decision answer item1) as [[path message]|]; [|by apply Hset].
  set (o1 := match message with Some m => _ | None => o end).
  assert (I1 : ov_inv (in_steady at_) o1) by (unfold o1; destruct message; [by apply report_inv|done]).
  assert (Ht1 : ov_timers o1 = ov_timers o) by (by unfold o1; destruct message).
  assert (Hd1 : ov_db o1 = ov_db o) by (by unfold o1; destruct message).
  destruct failure as [m|]; [by apply Hset; [apply report_inv| |]|].
  pose proof (markViolation_cases (ti_log_id item1) (ti_violation_at item1) path (ov_db o)) as Hm.
  destruct (markViolation _ _ _ _) as [[[] d]|]; [| |by apply Hset; [apply report_inv| |]].
  - unfold publish. rewrite Hid in Hm |- *. set (e := mkPublished _ _ _ _ _ _).
    assert (Hl : live (ov_db o) (ti_log_id item)) by apply Hm.
    assert (Hheld : item ∈ held (ov_timers o)) by (unfold held; rewrite Hhi; apply elem_of_app; right; left).
    destruct (oi_item _ _ I item Hheld) as [_ Hx]. destruct (Hx Hl) as (g & Hg & _ & Hdue).
    apply isCurrent_spec in Hc. rewrite Hc in Hg. injection Hg as Hg. destruct (Hdue Hg) as (dl & Hd & Hle).
    assert (Hnow : ti_deadline item <= in_steady at_) by (apply (oi_hand _ _ I); rewrite Hhi; left).
    apply (inv_mark (in_steady at_) o1); rewrite ?Ht1, ?Hd1; try done.
    + by apply is_violation_self.
    + intros _. exists dl. split; [|lia]. simpl. unfold o1. destruct message; [|done]. simpl. by rewrite last_deadline_snoc.
    + right. done.
    + right. split; [done|]. rewrite Hhi. by intros i ->%list_elem_of_singleton.
  - destruct Hm as [_ Hno]. rewrite <- Ht1. apply (inv_drop _ o1 item); [done|by rewrite Ht1|].
    right. left. by rewrite Hd1, <- Hid.
Qed.

Lemma inv_worker clock o at_ answer failure :
  ov_inv clock o -> clock <= in_steady at_ -> ov_inv (in_steady at_) (worker_step at_ answer failure o).
Proof.
  intros I Hle. pose proof (inv_clock _ _ _ I Hle) as I'. unfold worker_step.
  destruct (tm_hand (ov_timers o)) as [|item|item|item] eqn:Hh.
  - by apply (inv_pop clock).
  - by apply inv_process.
  - unfold retryAfterEvidencePending. set (o1 := if (ti_evidence_retry_count item =? 0)%N then _ else o).
    assert (I1 : ov_inv (in_steady at_) o1) by (unfold o1; destruct (_ =? _)%N; [by apply report_inv|done]).
    assert (Ht1 : ov_timers o1 = ov_timers o) by (by unfold o1; destruct (_ =? _)%N).
    apply (inv_requeue _ o1 item); [done|by rewrite Ht1, Hh|done|done|simpl; unfold longest_wait; lia].
  - unfold retryAfterDatabaseError. apply (inv_requeue _ o item); [done|by rewrite Hh|done|done|].
    cbn [ti_with_retry ti_deadline]. unfold longest_wait. rewrite N.shiftl_1_l.
    assert (Hp : (2 ^ N.min (ti_retry_count item) 5 <= 2 ^ 5)%N) by (apply N.pow_le_mono_r; lia).
    change (2 ^ 5)%N with 32%N in Hp. lia.
Qed.

(** The history only grows. *)
Definition grows (o o' : Overstay) : Prop := exists l, ov_log o' = ov_log o ++ l.
#[global] Instance grows_preorder : PreOrder grows.
Proof.
  split.
  - intros o. exists []. by rewrite app_nil_r.
  - intros a b c [l Hl] [l' Hl']. exists (l ++ l'). by rewrite Hl', Hl, app_assoc.
Qed.
Lemma grows_schedules o o' : grows o o' -> (schedules (ov_log o) <= schedules (ov_log o'))%N.
Proof. intros [l ->]. unfold schedules. rewrite List.filter_app, length_app. lia. Qed.
Lemma grows_publish at_ type slot car occurred detail session o o' :
  grows o o' -> grows o (publish at_ type slot car occurred detail session o').
Proof. intros [l Hl]. eexists. simpl. rewrite Hl, <- app_assoc. done. Qed.
Lemma grows_schedule at_ id slot car delay o o' : ov_schedule at_ id slot car delay o = Ok o' -> grows o o'.
Proof. intros (_ & _ & ->)%ov_schedule_inv. by eexists. Qed.

Lemma findLogById_lookup id d record :
  findLogById id d = Some record -> is_Some (pd_sessions d !! id) /\ lr_id record = id.
Proof. unfold findLogById. destruct (pd_sessions d !! id); [|done]. intros [= <-]. split; [by eexists|done]. Qed.


Lemma recognized_grows at_ between id slot car o : grows o (handleRecognizedSession at_ between id slot car o).2.
Proof.
  unfold handleRecognizedSession. destruct (_ || _); [done|]. destruct (findLogById _ _); [|by apply grows_publish].
  destruct (_ || _); [by apply grows_publish|]. destruct (classifyVehicle _ _); [| |by apply grows_publish].
  - destruct (bool_decide _); [done|]. destruct (ov_schedule _ _ _ _ _ _) as [o1|] eqn:E; [|done].
    apply grows_publish. apply grows_schedule in E. done.
  - destruct (markViolation _ _ _ _) as [[[] d]|]; [|exists []; symmetry; apply app_nil_r..]. by eexists.
Qed.

Lemma recognized_ok clock o at_ between id slot car :
  ov_inv clock o ->
  let o' := (handleRecognizedSession at_ between id slot car o).2 in
  (schedules (ov_log o') < 2 ^ 64)%N -> ov_inv clock o'.
Proof.
  intros I. cbv zeta. unfold handleRecognizedSession.
  destruct (Z.ltb_spec id 0); cbn [orb]; [by cbn|]. destruct (is_empty slot || is_empty car); [by cbn|].
  assert (Hplain : forall type detail session, plain_type type = true ->
            ov_inv clock (publish at_ type slot car (utcString (in_wall at_)) detail session o)).
  { intros type detail session Hp. apply inv_publish; [done|by left]. }
  destruct (findLogById id (ov_db o)) as [record|] eqn:Hf; [|by intros; apply Hplain].
  apply findLogById_lookup in Hf as [[r Hr] Hrid]. pose proof (proj1 (oi_sound _ _ I) id r Hr) as Hid.
  destruct (_ || _); [by intros; apply Hplain|].
  destruct (classifyVehicle car (ov_db o)); [| |by intros; apply Hplain].
  - destruct (bool_decide _); [done|].
    destruct (ov_schedule _ _ _ _ _ _) as [o1|e] eqn:Hs; simpl; [|done].
    intros Hlt. apply inv_publish; [|by left]. apply inv_scheduled. eapply inv_schedule; [done|exact Hs|done|].
    rewrite schedules_snoc in Hlt. lia.
  - pose proof (inv_db clock clock o _ I ltac:(lia) (db_writes_quiet between (ov_db o))) as I1.
    set (o1 := ov_set_db o _) in *.
    pose proof (markViolation_cases id (utcString (in_wall at_)) "" (ov_db o1)) as Hm.
    destruct (markViolation _ _ _ _) as [[[] d]|]; [|done..].
    intros _. unfold publish. set (e := mkPublished _ _ _ _ _ _).
    cbn [snd]. assert (Hset : ov_set_db o1 d = ov_set_timers (ov_set_db o1 d) (ov_timers o1)) by done. rewrite Hset.
    apply (inv_mark clock o1); try done; [by apply is_violation_self|by left|by left].
Qed.

Lemma restore_grows at_ records n o : grows o (restore_records at_ records n o).2.
Proof.
  revert n o. induction records as [|record records IH]; intros n o; simpl; [done|].
  destruct (negb (timer_record record)); [done|].
  pose proof (recognized_grows at_ [] (lr_id record) (lr_slot_id record) (lr_car_number record) o) as Hg.
  destruct (handleRecognizedSession _ _ _ _ _ _) as [[r|e] o1]; simpl in *; [|done]. by trans o1.
Qed.

Lemma restore_ok clock at_ records n o :
  ov_inv clock o ->
  let o' := (restore_records at_ records n o).2 in
  (schedules (ov_log o') < 2 ^ 64)%N -> ov_inv clock o'.
Proof.
  revert n o. induction records as [|record records IH]; intros n o I; simpl; [done|].
  destruct (negb (timer_record record)); [by apply IH|].
  pose proof (recognized_ok clock o at_ [] (lr_id record) (lr_slot_id record) (lr_car_number record) I) as Hr.
  destruct (handleRecognizedSession _ _ _ _ _ _) as [[r|e] o1]; simpl in Hr |- *; [|done].
  intros Hlt. pose proof (grows_schedules _ _ (restore_grows at_ records (if en_accepted r then S n else n) o1)).
  apply IH; [|done]. apply Hr. lia.
Qed.

Lemma reschedule_grows at_ records n o : grows o (reschedule_records at_ records n o).2.
Proof.
  revert n o. induction records as [|record records IH]; intros n o; simpl; [done|].
  destruct (_ || _); [done|]. destruct (ov_schedule _ _ _ _ _ _) as [o1|] eqn:E; [|done].
  apply grows_schedule in E. trans o1; [done|]. apply (IH (S n) (ov_set_scheduled o1 _)).
Qed.

Lemma reschedule_ok clock at_ records n o :
  ov_inv clock o -> (forall record, record ∈ records -> lr_id record <= pd_session_seq (ov_db o)) ->
  let o' := (reschedule_records at_ records n o).2 in
  (schedules (ov_log o') < 2 ^ 64)%N -> ov_inv clock o'.
Proof.
  revert n o. induction records as [|record records IH]; intros n o I Hids; simpl; [done|].
  assert (Hrest : forall record, record ∈ records -> lr_id record <= pd_session_seq (ov_db o))
    by (intros r Hr; apply Hids; by right).
  destruct (_ || _); [by apply IH|].
  destruct (ov_schedule _ _ _ _ _ _) as [o1|] eqn:E; simpl; [|done]. intros Hlt.
  pose proof (grows_schedules _ _ (reschedule_grows at_ records (S n)
    (ov_set_scheduled o1 ({[lr_id record]} ∪ ov_scheduled o1)))) as Hle. simpl in Hle.
  apply IH; [| |done].
  - apply inv_scheduled. eapply inv_schedule; [done|exact E|apply Hids; left|lia].
  - simpl. apply ov_schedule_inv in E as (_ & _ & ->). done.
Qed.

Lemma listLogs_ids d record : db_sound d -> record ∈ listLogs d -> lr_id record <= pd_session_seq d.
Proof.
  intros [Hid _] ((id, r) & -> & Hin)%list_elem_of_fmap_1. unfold sort_rows in Hin.
  rewrite merge_sort_Permutation in Hin. apply elem_of_map_to_list in Hin. simpl. by apply (Hid id r).
Qed.

Lemma entry_ok clock o at_ slot car image :
  ov_inv clock o ->
  let o' := (handleEntry at_ slot car image o).2 in (schedules (ov_log o') < 2 ^ 64)%N -> ov_inv clock o'.
Proof.
  intros I. unfold handleEntry. destruct (is_empty slot); [done|]. destruct (is_empty car); [done|].
  destruct (classifyVehicle car (ov_db o)).
  - destruct (findActiveBySlot _ _); [intros _; apply inv_publish; [done|by left]|].
    destruct (insertParked _ _ _ _ _) as [[id d]|] eqn:Hi; [|done].
    apply insertParked_quiet in Hi as (Hq & _ & Hid & _).
    pose proof (inv_db clock clock o d I ltac:(lia) Hq) as I1.
    destruct (ov_schedule _ _ _ _ _ _) as [o2|] eqn:E; simpl.
    + intros Hlt. apply inv_publish; [|by left]. apply inv_scheduled.
      eapply inv_schedule; [exact I1|exact E|simpl; lia|]. rewrite schedules_snoc in Hlt. lia.
    + intros _. destruct (cancelUnscheduled _ _ _) as [[b d']|] eqn:Hc; [|done].
      apply (inv_db clock); [done|lia|]. by eapply cancelUnscheduled_quiet.
  - intros _. apply inv_publish; [done|]. right. split; [lia|done].
  - intros _. apply inv_publish; [done|by left].
Qed.

Definition op_clock (op : OverstayOp) : option Z :=
  match op with
  | OvWorker at_ _ _ | OvEntry at_ _ _ _ | OvRecognized at_ _ _ _ _ | OvRestore at_ | OvTimeout at_ _
  | OvExit at_ _ => Some (in_steady at_)
  | _ => None
  end.

Context `{SqlSeconds}.

Lemma step_ok clock o op :
  ov_inv clock o -> (forall t, op_clock op = Some t -> clock <= t) ->
  (schedules (ov_log (overstay_step o op)) < 2 ^ 64)%N ->
  ov_inv (default clock (op_clock op)) (overstay_step o op).
Proof.
  intros I Ht Hlt.
  assert (I' : ov_inv (default clock (op_clock op)) o).
  { apply (inv_clock clock); [done|]. destruct (op_clock op); simpl; [by apply Ht|lia]. }
  destruct op; cbn [op_clock default overstay_step from_option id] in *.
  - apply inv_timers; [done|..]; unfold tm_start; destruct (tm_started (ov_timers o)), (tm_stopping (ov_timers o)) eqn:Hst; simpl; congruence.
  - by apply inv_timers.
  - apply (inv_worker clock); [done|by apply Ht].
  - by apply entry_ok.
  - by apply recognized_ok.
  - by apply restore_ok.
  - revert Hlt. unfold updateParkingTimeout. destruct (_ <=? 0); [done|].
    pose proof (inv_timeout _ _ parking_timeout I') as I1. set (o1 := ov_set_timeout o parking_timeout) in *.
    pose proof (reschedule_ok _ at_ (listLogs (ov_db o1)) 0 o1 I1) as Hr.
    destruct (reschedule_records _ _ _ _) as [[n|e] o2]; simpl in *.
    + rewrite schedules_snoc. intros Hlt. apply inv_publish; [|by left]. apply Hr; [|lia].
      intros record Hrec. apply listLogs_ids; [apply I'|done].
    + intros Hlt. apply Hr; [|done]. intros record Hrec. apply listLogs_ids; [apply I'|done].
  - unfold handleExit. destruct (is_empty slot_id); [done|].
    destruct (departActiveBySlot _ _ _) as [[[record|] d]|] eqn:E; simpl; [| |done];
      (apply inv_publish; [|by left]; apply (inv_db (in_steady at_)); [done|lia|by eapply departActiveBySlot_quiet]).
  - unfold handleCommittedExit. destruct (_ || _); [done|]. destruct (findLogById _ _); [|done].
    destruct (_ || _); [done|]. by apply inv_scheduled.
  - apply (inv_db clock); [done|lia|apply db_write_quiet].
Qed.
End Safety.

(** * Runs *)

(** The steady clock does not go back. *)
Fixpoint clocked (clock : Z) (ops : list OverstayOp) : Prop :=
  match ops with
  | [] => True
  | op :: rest => (forall t, op_clock op = Some t -> clock <= t) /\ clocked (default clock (op_clock op)) rest
  end.
Definition last_clock (clock : Z) (ops : list OverstayOp) : Z :=
  foldl (fun c op => default c (op_clock op)) clock ops.

Section Runs.
Context `{SqlSeconds}.

Lemma step_grows o op : grows o (overstay_step o op).
Proof.
  destruct op; simpl; try (exists []; symmetry; apply app_nil_r).
  - unfold worker_step. destruct (tm_hand _); [exists []; symmetry; apply app_nil_r| | |].
    + unfold processExpired. destruct (negb _); [exists []; symmetry; apply app_nil_r|].
      set (item1 := if is_empty _ then _ else _).
      destruct (evidence_decision answer item1) as [[path m]|]; [|exists []; symmetry; apply app_nil_r].
      assert (Hm : grows o (match m with Some m => reportError at_ item1 m o | None => o end))
        by (destruct m; [by apply grows_publish|done]).
      set (o1 := match m with Some m => _ | None => o end) in *.
      assert (Ht : forall m' t, grows o (ov_set_timers (reportError at_ item1 m' o1) t))
        by (intros m' t; exact (grows_publish _ _ _ _ _ _ _ _ _ Hm)).
      destruct failure; [apply Ht|]. destruct (markViolation _ _ _ _) as [[[] d]|]; [|exact Hm|apply Ht].
      exact (grows_publish _ _ _ _ _ _ _ o (ov_set_timers (ov_set_db o1 d) _) Hm).
    + unfold retryAfterEvidencePending. destruct (_ =? _)%N; [|exists []; symmetry; apply app_nil_r].
      by eexists.
    + exists []; symmetry; apply app_nil_r.
  - unfold handleEntry. destruct (is_empty slot_id); [done|]. destruct (is_empty car_number); [done|].
    destruct (classifyVehicle _ _); try by eexists.
    destruct (findActiveBySlot _ _); [by eexists|]. destruct (insertParked _ _ _ _ _) as [[id d]|]; [|done].
    destruct (ov_schedule _ _ _ _ _ _) as [o2|] eqn:E.
    + apply grows_publish. apply grows_schedule in E. exact E.
    + destruct (cancelUnscheduled _ _ _) as [[b d']|]; exists []; symmetry; apply app_nil_r.
  - apply recognized_grows.
  - apply restore_grows.
  - unfold updateParkingTimeout. destruct (_ <=? 0); [done|].
    pose proof (reschedule_grows at_ (listLogs (ov_db (ov_set_timeout o parking_timeout))) 0
      (ov_set_timeout o parking_timeout)) as Hg.
    destruct (reschedule_records _ _ _ _) as [[n|e] o2]; simpl in *; [|done]. by apply grows_publish.
  - unfold handleExit. destruct (is_empty slot_id); [done|].
    destruct (departActiveBySlot _ _ _) as [[[record|] d]|]; [by eexists..|done].
  - unfold handleCommittedExit. destruct (_ || _); [done|]. destruct (findLogById _ _); [|done].
    destruct (_ || _); [done|]. exists []; symmetry; apply app_nil_r.
Qed.

Lemma run_grows o ops : grows o (foldl overstay_step o ops).
Proof. revert o. induction ops as [|op ops IH]; intros o; simpl; [done|]. trans (overstay_step o op); [apply step_grows|apply IH]. Qed.

Lemma run_inv d0 clock ops o :
  ov_inv d0 clock o -> clocked clock ops -> (schedules (ov_log (foldl overstay_step o ops)) < 2 ^ 64)%N ->
  ov_inv d0 (last_clock clock ops) (foldl overstay_step o ops).
Proof.
  revert clock o. induction ops as [|op ops IH]; intros clock o I Hc Hlt; simpl in *; [done|].
  destruct Hc as [Ht Hc]. apply IH; [|done|done]. apply step_ok; [done|done|].
  pose proof (grows_schedules _ _ (run_grows (overstay_step o op) ops)). lia.
Qed.

Lemma start_inv d0 clock timeout : db_sound d0 -> ov_inv d0 clock (overstay_start d0 timeout).
Proof.
  intros Hs. split; simpl; try done.
  - intros id Hid. left. done.
  - intros i Hi. by apply elem_of_nil in Hi.
  - intros i Hi. by apply elem_of_nil in Hi.
  - intros pre e now post Hl. by destruct pre.
Qed.

Lemma overstay_inv d0 timeout clock ops :
  db_sound d0 -> clocked clock ops ->
  (schedules (ov_log (overstay_run d0 timeout ops)) < 2 ^ 64)%N ->
  ov_inv d0 (last_clock clock ops) (overstay_run d0 timeout ops).
Proof. intros Hs Hc Hlt. apply run_inv; [by apply start_inv|done|done]. Qed.

(** C8 [invariant] A violation is reported once. Over every history of the timer, the manager, restarts of
    timers, changes of the threshold and other writers, a session's reports and its row agree:
    either nothing was reported and its time of violation is what it was, or there was exactly
    one report (of an overstay or of a car that is not electric), the row holds its time and held none before. *)
Theorem overstay_reported_once d0 timeout clock ops id :
  db_sound d0 -> clocked clock ops -> (schedules (ov_log (overstay_run d0 timeout ops)) < 2 ^ 64)%N -> 0 <= id ->
  let o := overstay_run d0 timeout ops in
  (violations id (ov_log o) = [] /\ violation_at (ov_db o) id = violation_at d0 id) \/
  exists t, violations id (ov_log o) = [t] /\ violation_at (ov_db o) id = Some t /\ violation_at d0 id = None.
Proof. intros Hs Hc Hlt Hid. by apply (oi_viol _ _ _ (overstay_inv d0 timeout clock ops Hs Hc Hlt)). Qed.

(** C27 [safety] No overstay is reported early. Whenever an overstay is reported, the deadline that was set last
    for the session has passed; a deadline that a new threshold or a restart replaced does
    not count, whatever of it is still queued or in the worker's hand. *)
Theorem overstay_not_early d0 timeout clock ops pre e now post :
  db_sound d0 -> clocked clock ops -> (schedules (ov_log (overstay_run d0 timeout ops)) < 2 ^ 64)%N ->
  ov_log (overstay_run d0 timeout ops) = pre ++ LgPublished e now :: post ->
  pb_type e = "VIOLATION_TRIGGERED" ->
  exists dl, last_deadline (pb_session e) pre = Some dl /\ dl <= now.
Proof.
  intros Hs Hc Hlt Hl Ht. pose proof (oi_due _ _ _ (overstay_inv d0 timeout clock ops Hs Hc Hlt)) as Hd.
  by apply (Hd pre e now post).
Qed.

(** C28 [liveness] No timer is lost. While the worker is not told to stop, a session that has a timer and is
    still active in the table has an item that counts, in the queue or in the worker's hand; its
    deadline is not before the one that was set last, nor later than that or 32 seconds from
    now, whatever failures of the database and waits for the picture there were. *)
Theorem overstay_not_lost d0 timeout clock ops id dl :
  db_sound d0 -> clocked clock ops -> (schedules (ov_log (overstay_run d0 timeout ops)) < 2 ^ 64)%N ->
  let o := overstay_run d0 timeout ops in
  tm_stopping (ov_timers o) = false -> last_deadline id (ov_log o) = Some dl -> live (ov_db o) id ->
  exists item, item ∈ held (ov_timers o) /\ ti_log_id item = id /\ isCurrent (ov_timers o) item = true /\
    dl <= ti_deadline item <= Z.max dl (last_clock clock ops + longest_wait).
Proof.
  intros Hs Hc Hlt o Hst Hd Hl. pose proof (overstay_inv d0 timeout clock ops Hs Hc Hlt) as I. fold o in I.
  destruct (oi_kept _ _ _ I Hst id dl Hd Hl) as (i & Hi & <- & Hcur). exists i. split; [done|]. split; [done|].
  split; [done|]. destruct (oi_item _ _ _ I i Hi) as [_ Hx]. destruct (Hx Hl) as (g & Hg & _ & Hdl).
  apply isCurrent_spec in Hcur. rewrite Hcur in Hg. injection Hg as Hg.
  destruct (Hdl Hg) as (dl' & Hd' & Hb). rewrite Hd' in Hd. by injection Hd as ->.
Qed.
End Runs.

(** * Examples and witnesses *)

(** The theorems on overstay at a concrete history. *)
#[local] Instance toy_seconds : SqlSeconds := {| sql_epoch_seconds := fun _ => None |}.

(** An electric car and one slot. *)
Definition toy_db : ParkingDb :=
  mkParkingDb true {["EV-1" := mkVehicleRow 7 true]} {["A1" := "VACANT"]} ∅ 0 [] [] ∅.

Lemma toy_db_sound : db_sound toy_db.
Proof.
  split; [by intros id r Hr; simpl in Hr; rewrite lookup_empty in Hr|].
  intros id (r & Hr & _). simpl in Hr. by rewrite lookup_empty in Hr.
Qed.

Definition sec (n : Z) : Instant := mkInstant (n * 1000000000) (1709251200000000000 + n * 1000000000).

(** A car parks at second 0 and is recognised at second 5 with a limit of one minute; at second 20 the limit
    becomes two minutes, so the timer of the minute is stale when it fires; the picture is late by one try,
    and the disk fails once. *)
Definition toy_ops : list OverstayOp :=
  [OvStart; OvWrite (WriteSession "A1" (utcString (in_wall (sec 0)))); OvWrite (WritePlate 1 "EV-1" (Some 7));
   OvRecognized (sec 5) [] 1 "A1" "EV-1"; OvTimeout (sec 20) 120000;
   OvWorker (sec 61) (EvidencePath "") None; OvWorker (sec 61) (EvidencePath "") None;
   OvWorker (sec 121) (EvidencePath "") None; OvWorker (sec 121) (EvidencePath "") None;
   OvWorker (sec 121) (EvidencePath "") None; OvWorker (sec 122) (EvidencePath "img.jpg") None;
   OvWorker (sec 122) (EvidencePath "img.jpg") (Some "disk I/O error"); OvWorker (sec 122) (EvidencePath "") None;
   OvWorker (sec 124) (EvidencePath "img.jpg") None].
Definition toy_last : list OverstayOp := toy_ops ++ [OvWorker (sec 124) (EvidencePath "img.jpg") None].

Notation toy_run := (overstay_run toy_db 60000).

Lemma toy_clocked : clocked 0 toy_ops /\ clocked 0 toy_last.
Proof. split; repeat split; intros t [= <-]; simpl; lia. Qed.
Lemma toy_short : (schedules (ov_log (toy_run toy_ops)) < 2 ^ 64)%N /\ (schedules (ov_log (toy_run toy_last)) < 2 ^ 64)%N.
Proof. split; apply N.ltb_lt; vm_compute; reflexivity. Qed.

(** The report names the second at which the limit of two minutes was reached. *)
Example overstay_reported_once_witness :
  violations 1 (ov_log (toy_run toy_last)) = ["2024-03-01T00:02:01.000Z"] /\
  violation_at (ov_db (toy_run toy_last)) 1 = Some "2024-03-01T00:02:01.000Z".
Proof.
  assert (H : violations 1 (ov_log (toy_run toy_last)) = ["2024-03-01T00:02:01.000Z"]) by (vm_compute; reflexivity).
  split; [exact H|].
  destruct (overstay_reported_once toy_db 60000 0 toy_last 1 toy_db_sound (proj2 toy_clocked) (proj2 toy_short))
    as [[Hz _] | (t & Ht & Hv & _)]; [lia|by rewrite Hz in H|].
  rewrite H in Ht. injection Ht as <-. exact Hv.
Defined.

Definition is_overstay (x : OverstayLog) : bool :=
  match x with LgPublished e _ => bool_decide (pb_type e = "VIOLATION_TRIGGERED") | _ => false end.

Example overstay_not_early_witness :
  exists pre e now post, ov_log (toy_run toy_last) = pre ++ LgPublished e now :: post /\
    pb_type e = "VIOLATION_TRIGGERED" /\ now = 124000000000 /\
    exists dl, last_deadline (pb_session e) pre = Some dl /\ dl <= now.
Proof.
  set (n := length (ov_log (toy_run toy_last))).
  assert (Hn : n = 7%nat) by (vm_compute; reflexivity).
  destruct (ov_log (toy_run toy_last) !! 6%nat) as [x|] eqn:Hx; [|exfalso; vm_compute in Hx; discriminate Hx].
  assert (Hx' : x = LgPublished (mkPublished "VIOLATION_TRIGGERED" "A1" "EV-1" "2024-03-01T00:02:01.000Z" "img.jpg" 1)
                      124000000000) by (vm_compute in Hx; by injection Hx as <-).
  subst x. apply take_drop_middle in Hx. symmetry in Hx.
  eexists _, _, _, _. split; [exact Hx|]. split; [reflexivity|]. split; [reflexivity|].
  exact (overstay_not_early toy_db 60000 0 toy_last _ _ _ _ toy_db_sound (proj2 toy_clocked) (proj2 toy_short) Hx eq_refl).
Defined.

(** Before its last step the session still has its timer. *)
Example overstay_not_lost_witness :
  exists item, item ∈ held (ov_timers (toy_run toy_ops)) /\ ti_log_id item = 1 /\
    isCurrent (ov_timers (toy_run toy_ops)) item = true.
Proof.
  assert (Hl : live (ov_db (toy_run toy_ops)) 1).
  { destruct (pd_sessions (ov_db (toy_run toy_ops)) !! 1) as [r|] eqn:Hr; [|exfalso; vm_compute in Hr; discriminate Hr].
    exists r. split; [exact Hr|]. vm_compute in Hr. injection Hr as <-. reflexivity. }
  assert (Hd : last_deadline 1 (ov_log (toy_run toy_ops)) = Some 120000000000) by (vm_compute; reflexivity).
  assert (Hs : tm_stopping (ov_timers (toy_run toy_ops)) = false) by (vm_compute; reflexivity).
  destruct (overstay_not_lost toy_db 60000 0 toy_ops 1 _ toy_db_sound (proj1 toy_clocked) (proj1 toy_short) Hs Hd Hl)
    as (item & H1 & H2 & H3 & _). exact (ex_intro _ item (conj H1 (conj H2 H3))).
Defined.

(** The items of a queue come out by deadline, whatever the order of their arrival. *)
Definition toy_item (deadline : Z) (n : N) : TimerItem := mkTimerItem deadline n 1 1 "A1" "EV-1" 0 0 "".
Example queue_sorts_witness :
  NoDup (ticket <$> [toy_item 30 0; toy_item 10 1; toy_item 20 2; toy_item 10 3]) /\
  q_drain 20 (q_build [toy_item 30 0; toy_item 10 1; toy_item 20 2; toy_item 10 3]) =
    ([toy_item 10 1; toy_item 10 3; toy_item 20 2], [toy_item 30 0]).
Proof.
  assert (H : NoDup (ticket <$> [toy_item 30 0; toy_item 10 1; toy_item 20 2; toy_item 10 3]))
    by (apply (bool_decide_unpack _); vm_compute; exact I).
  split; [exact H|]. rewrite (queue_sorts 20 _ H). vm_compute. reflexivity.
Defined.
