(* ===== verification/Evidence.v ===== *)
(** Pictures as evidence: [src/parking/EvidenceCaptureWorker.cpp]. A session gets one picture at its start and one
    when it overstays. The operations hold the mutex of the worker, so each is one step; the worker takes a job,
    looks whether it was cancelled, takes and stores the picture, and finishes, with other steps in between.
    The camera, the file system and the settings answer through arguments. *)
From S2P Require Import Prelude OccupancyDb DeadlineQueue ParkingDb.

(** * Data *)

(** [include/parking/EvidenceCaptureWorker.hpp:24-27 EvidenceReason] *)
Inductive EvidenceReason := OccupancyStart | Overstay.
#[global] Instance EvidenceReason_eq_dec : EqDecision EvidenceReason.
Proof. solve_decision. Defined.

(** [src/parking/EvidenceCaptureWorker.cpp:13-17 toString] *)
Definition reason_text (reason : EvidenceReason) : string :=
  match reason with OccupancyStart => "OCCUPANCY_START_EVIDENCE" | Overstay => "OVERSTAY_EVIDENCE" end.

(** [include/parking/EvidenceCaptureWorker.hpp:31-39 EvidenceCaptureRequest] With the identifier of the channel, if there
    is one; the region of interest is looked up when the picture is taken. *)
Record EvidenceCaptureRequest := mkEvidenceCaptureRequest {
  rq_sessionId : Z;
  rq_slotId : string;
  rq_channel : option string;
  rq_startedAtMonotonic : Z
}.

(** [include/parking/EvidenceCaptureWorker.hpp:41-53 EvidenceCaptureResult] Without the region. *)
Record EvidenceCaptureResult := mkEvidenceCaptureResult {
  er_sessionId : Z;
  er_slotId : string;
  er_channelId : string;
  er_reason : EvidenceReason;
  er_imagePath : string;
  er_enhancedImagePath : string;
  er_stored : bool;
  er_duplicate : bool;
  er_message : string
}.

(** [include/parking/EvidenceCaptureWorker.hpp:96-103 EvidenceCaptureWorker::Job] *)
Record Job := mkJob {
  jb_deadline : Z;
  jb_sequence : N;
  jb_generation : N;
  jb_request : EvidenceCaptureRequest;
  jb_reason : EvidenceReason;
  jb_terminal : bool
}.
#[global] Instance job_timed : Timed Job := {| due := jb_deadline; ticket := jb_sequence |}.

(** Where the worker is with the job that it took. *)
Inductive JobHand := JobFree | JobTaken (job : Job) | JobCapturing (job : Job) | JobDone (job : Job).

(** [include/parking/EvidenceCaptureWorker.hpp:125-133 EvidenceCaptureWorker] The members that change. *)
Record EvidenceState := mkEvidenceState {
  ew_delay : Z;
  ew_max_pending : nat;
  ew_jobs : list Job;
  ew_scheduled : gset Z;
  ew_canceled : gset Z;
  ew_running : bool;
  ew_stopping : bool;
  ew_next_sequence : N;
  ew_generation : N;
  ew_in_flight : option (Z * EvidenceReason);
  ew_hand : JobHand
}.

Definition ew_set (e : EvidenceState) jobs scheduled canceled seq : EvidenceState :=
  mkEvidenceState (ew_delay e) (ew_max_pending e) jobs scheduled canceled (ew_running e) (ew_stopping e) seq
    (ew_generation e) (ew_in_flight e) (ew_hand e).
Definition ew_set_hand (e : EvidenceState) flight hand : EvidenceState :=
  mkEvidenceState (ew_delay e) (ew_max_pending e) (ew_jobs e) (ew_scheduled e) (ew_canceled e) (ew_running e)
    (ew_stopping e) (ew_next_sequence e) (ew_generation e) flight hand.

Definition wrap64 (n : N) : N := (n mod 2 ^ 64)%N.

(** * Scheduling *)

(** [src/parking/EvidenceCaptureWorker.cpp:46-59 EvidenceCaptureWorker::start] *)
Definition ew_start (e : EvidenceState) : EvidenceState :=
  if ew_running e then e else
  mkEvidenceState (ew_delay e) (ew_max_pending e) (ew_jobs e) (ew_scheduled e) (ew_canceled e) true false
    (ew_next_sequence e) (ew_generation e) (ew_in_flight e) (ew_hand e).

(** [src/parking/EvidenceCaptureWorker.cpp:61-76 EvidenceCaptureWorker::stop] First the request; then, when the worker has
    ended, everything is forgotten. *)
Definition ew_stop_begin (e : EvidenceState) : EvidenceState :=
  if negb (ew_running e) then e else
  mkEvidenceState (ew_delay e) (ew_max_pending e) (ew_jobs e) (ew_scheduled e) (ew_canceled e) true true
    (ew_next_sequence e) (ew_generation e) (ew_in_flight e) (ew_hand e).
Definition ew_stop_end (e : EvidenceState) : EvidenceState :=
  match ew_hand e with
  | JobFree =>
      if ew_running e && ew_stopping e then
        mkEvidenceState (ew_delay e) (ew_max_pending e) [] ∅ ∅ false true (ew_next_sequence e) (ew_generation e)
          None JobFree
      else e
  | _ => e
  end.

(** [src/parking/EvidenceCaptureWorker.cpp:98-158 EvidenceCaptureWorker::scheduleSessionImpl] *)
Definition scheduleSessionImpl (now : Z) (request : EvidenceCaptureRequest) (include_start include_overstay : bool)
    (e : EvidenceState) : bool * EvidenceState :=
  let session := rq_sessionId request in
  if (session <? 0) || is_empty (rq_slotId request) || bool_decide (rq_channel request = None) then (false, e) else
  let requested := ((if include_start then 1 else 0) + (if include_overstay then 1 else 0))%nat in
  if (requested =? 0)%nat then (true, e) else
  if negb (ew_running e) || ew_stopping e then (false, e) else
  if bool_decide (session ∈ ew_scheduled e) then (true, e) else
  if (ew_max_pending e <? length (ew_jobs e) + requested)%nat then (false, e) else
  let e1 := if include_start
            then ew_set e (q_push (mkJob now (ew_next_sequence e) 0 request OccupancyStart (negb include_overstay))
                             (ew_jobs e))
                   (ew_scheduled e) (ew_canceled e) (wrap64 (ew_next_sequence e + 1))
            else e in
  let e2 := if include_overstay
            then ew_set e1 (q_push (mkJob (rq_startedAtMonotonic request + ew_delay e1 * 1000000)
                                      (ew_next_sequence e1) (ew_generation e1) request Overstay true) (ew_jobs e1))
                   (ew_scheduled e1) (ew_canceled e1) (wrap64 (ew_next_sequence e1 + 1))
            else e1 in
  (true, ew_set e2 (ew_jobs e2) ({[session]} ∪ ew_scheduled e2) (ew_canceled e2 ∖ {[session]}) (ew_next_sequence e2)).

(** [src/parking/EvidenceCaptureWorker.cpp:78-80 EvidenceCaptureWorker::scheduleSession] *)
Definition scheduleSession (now : Z) (request : EvidenceCaptureRequest) (e : EvidenceState) : bool * EvidenceState :=
  scheduleSessionImpl now request true true e.

(** [src/parking/EvidenceCaptureWorker.cpp:82-96 EvidenceCaptureWorker::restoreSession] *)
Definition restoreSession (now : Z) (request : EvidenceCaptureRequest) (d : ParkingDb) (e : EvidenceState)
    : bool * EvidenceState :=
  let missing reason :=
    match findEvidenceImagePath (rq_sessionId request) (reason_text reason) d with None => true | Some _ => false end in
  scheduleSessionImpl now request (missing OccupancyStart) (missing Overstay) e.

Definition of_session (id : Z) (job : Job) : bool := bool_decide (rq_sessionId (jb_request job) = id).
Definition of_overstay (job : Job) : bool := bool_decide (jb_reason job = Overstay).

(** [src/parking/EvidenceCaptureWorker.cpp:160-187 EvidenceCaptureWorker::cancelSession] *)
Definition cancelSession (session_id : Z) (e : EvidenceState) : EvidenceState :=
  if session_id <? 0 then e else
  let in_flight := match ew_in_flight e with Some (id, _) => bool_decide (id = session_id) | None => false end in
  ew_set e (q_build (List.filter (fun j => negb (of_session session_id j)) (ew_jobs e)))
    (ew_scheduled e ∖ {[session_id]})
    (if in_flight then {[session_id]} ∪ ew_canceled e else ew_canceled e ∖ {[session_id]})
    (ew_next_sequence e).

Definition jb_move (deadline : Z) (generation : N) (job : Job) : Job :=
  mkJob deadline (jb_sequence job) generation (jb_request job) (jb_reason job) (jb_terminal job).

(** [src/parking/EvidenceCaptureWorker.cpp:189-211 EvidenceCaptureWorker::expediteOverstay] *)
Definition expediteOverstay (now session_id : Z) (e : EvidenceState) : bool * EvidenceState :=
  if session_id <? 0 then (false, e) else
  let hit job := of_session session_id job && of_overstay job in
  (bool_decide (ew_in_flight e = Some (session_id, Overstay)) || existsb hit (ew_jobs e),
   ew_set e (q_build ((fun j => if hit j then jb_move now (jb_generation j) j else j) <$> ew_jobs e))
     (ew_scheduled e) (ew_canceled e) (ew_next_sequence e)).

(** [src/parking/EvidenceCaptureWorker.cpp:213-241 EvidenceCaptureWorker::updateOverstayDelay] *)
Definition updateOverstayDelay (delay : Z) (e : EvidenceState) : result store_error (nat * EvidenceState) :=
  if delay <=? 0 then Err (InvalidArgument "overstay evidence delay must be positive") else
  let generation := wrap64 (ew_generation e + 1) in
  let jobs := (fun j => if of_overstay j
                        then jb_move (rq_startedAtMonotonic (jb_request j) + delay * 1000000) generation j
                        else j) <$> ew_jobs e in
  Ok (length (List.filter of_overstay (ew_jobs e)),
      mkEvidenceState delay (ew_max_pending e) (q_build jobs) (ew_scheduled e) (ew_canceled e) (ew_running e)
        (ew_stopping e) (ew_next_sequence e) generation (ew_in_flight e) (ew_hand e)).

(** [src/parking/EvidenceCaptureWorker.cpp:243-246 EvidenceCaptureWorker::pendingCount] *)
Definition ew_pendingCount (e : EvidenceState) : nat := length (ew_jobs e).

(** [src/parking/EvidenceCaptureWorker.cpp:248-251 EvidenceCaptureWorker::canceled] *)
Definition ew_canceled_now (session_id : Z) (e : EvidenceState) : bool :=
  ew_stopping e || bool_decide (session_id ∈ ew_canceled e).

(** * The worker *)

(** [src/parking/EvidenceCaptureWorker.cpp:253-307 EvidenceCaptureWorker::run] One pass up to the capture. *)
Definition ew_take (now : Z) (e : EvidenceState) : EvidenceState :=
  match ew_hand e with
  | JobFree =>
      if negb (ew_running e) || ew_stopping e then e else
      match q_due now (ew_jobs e) with
      | None => e
      | Some (job, rest) =>
          let session := rq_sessionId (jb_request job) in
          let e1 := ew_set e rest (ew_scheduled e) (ew_canceled e) (ew_next_sequence e) in
          if of_overstay job && negb (bool_decide (jb_generation job = ew_generation e)) then e1 else
          if bool_decide (session ∈ ew_canceled e) then
            if jb_terminal job
            then ew_set e1 rest (ew_scheduled e ∖ {[session]}) (ew_canceled e ∖ {[session]}) (ew_next_sequence e)
            else e1
          else ew_set_hand e1 (Some (session, jb_reason job)) (JobTaken job)
      end
  | _ => e
  end.

(** The end of the pass, after the capture. *)
Definition ew_finish (job : Job) (e : EvidenceState) : EvidenceState :=
  let session := rq_sessionId (jb_request job) in
  ew_set_hand (ew_set e (ew_jobs e)
                 (if jb_terminal job then ew_scheduled e ∖ {[session]} else ew_scheduled e)
                 (ew_canceled e ∖ {[session]}) (ew_next_sequence e)) None JobFree.

(** What the capture gives: two paths (the second may be empty) and whether both are files, or an exception. *)
Inductive CaptureAnswer :=
| Captured (original enhanced : string) (files_valid : bool)
| CaptureThrows (message : string).

(** The outside world as the worker changes it. *)
Record EvidenceSystem := mkEvidenceSystem {
  es_worker : EvidenceState;
  es_db : ParkingDb;
  es_results : list EvidenceCaptureResult;
  es_captured : list string;
  es_removed : list string
}.
Definition es_set_worker (s : EvidenceSystem) w :=
  mkEvidenceSystem w (es_db s) (es_results s) (es_captured s) (es_removed s).

Definition paths (original enhanced : string) : list string :=
  List.filter (fun p => negb (is_empty p)) [original; enhanced].

(** [src/parking/EvidenceCaptureWorker.cpp:309-417 EvidenceCaptureWorker::process] After the test for cancellation: the region of
    interest, the capture, and the row; [sql_failure] is a failure of the disk. *)
Definition ew_process (job : Job) (roi_configured : bool) (answer : CaptureAnswer) (captured_at : string)
    (sql_failure : option string) (s : EvidenceSystem) : EvidenceSystem :=
  let request := jb_request job in
  let result original enhanced stored duplicate message :=
    mkEvidenceCaptureResult (rq_sessionId request) (rq_slotId request) (default "" (rq_channel request))
      (jb_reason job) original enhanced stored duplicate message in
  let emit d captured removed r :=
    mkEvidenceSystem (ew_set_hand (es_worker s) (ew_in_flight (es_worker s)) (JobDone job)) d
      (es_results s ++ [r]) (es_captured s ++ captured) (es_removed s ++ removed) in
  if negb roi_configured then emit (es_db s) [] [] (result "" "" false false "runtime ROI is not configured") else
  match answer with
  | CaptureThrows message => emit (es_db s) [] [] (result "" "" false false message)
  | Captured original enhanced files_valid =>
      let all := paths original enhanced in
      if is_empty original || negb files_valid
      then emit (es_db s) all all (result "" "" false false "camera API/FrameBuffer image file save failed") else
      let failed message := emit (es_db s) all all (result "" "" false false message) in
      match sql_failure with
      | Some message => failed message
      | None =>
          match insertEvidenceImage (rq_sessionId request) original (reason_text (jb_reason job)) captured_at
                  enhanced (es_db s) with
          | Err (InvalidArgument message) | Err (RuntimeError message) => failed message
          | Ok (EvidenceInserted, d) => emit d all [] (result original enhanced true false "evidence stored")
          | Ok (EvidenceDuplicate, d) => emit d all all (result "" "" false true "duplicate evidence ignored")
          | Ok (EvidenceInactiveSession, d) =>
              emit d all all (result "" "" false false "session is no longer active")
          end
      end
  end.

Definition ew_worker (now : Z) (roi_configured : bool) (answer : CaptureAnswer) (captured_at : string)
    (sql_failure : option string) (s : EvidenceSystem) : EvidenceSystem :=
  let w := es_worker s in
  match ew_hand w with
  | JobFree => es_set_worker s (ew_take now w)
  | JobTaken job =>
      es_set_worker s (ew_set_hand w (ew_in_flight w)
        (if ew_canceled_now (rq_sessionId (jb_request job)) w then JobDone job else JobCapturing job))
  | JobCapturing job => ew_process job roi_configured answer captured_at sql_failure s
  | JobDone job => es_set_worker s (ew_finish job w)
  end.

(** * Histories *)

Inductive EvidenceOp :=
| EvStart | EvStopBegin | EvStopEnd
| EvSchedule (now : Z) (request : EvidenceCaptureRequest)
| EvRestore (now : Z) (request : EvidenceCaptureRequest)
| EvCancel (session_id : Z)
| EvExpedite (now session_id : Z)
| EvDelay (delay : Z)
| EvWork (now : Z) (roi_configured : bool) (answer : CaptureAnswer) (captured_at : string) (sql_failure : option string)
| EvWrite (w : DbWrite).

Definition evidence_step (s : EvidenceSystem) (op : EvidenceOp) : EvidenceSystem :=
  let w := es_worker s in
  match op with
  | EvStart => es_set_worker s (ew_start w)
  | EvStopBegin => es_set_worker s (ew_stop_begin w)
  | EvStopEnd => es_set_worker s (ew_stop_end w)
  | EvSchedule now request => es_set_worker s (scheduleSession now request w).2
  | EvRestore now request => es_set_worker s (restoreSession now request (es_db s) w).2
  | EvCancel id => es_set_worker s (cancelSession id w)
  | EvExpedite now id => es_set_worker s (expediteOverstay now id w).2
  | EvDelay delay => match updateOverstayDelay delay w with Ok (_, w') => es_set_worker s w' | Err _ => s end
  | EvWork now roi answer at_ failure => ew_worker now roi answer at_ failure s
  | EvWrite write => mkEvidenceSystem w (db_write write (es_db s)) (es_results s) (es_captured s) (es_removed s)
  end.

(** [src/parking/EvidenceCaptureWorker.cpp:25-42 EvidenceCaptureWorker::EvidenceCaptureWorker] *)
Definition evidence_init (delay : Z) (max_pending : nat) : result store_error EvidenceState :=
  if (delay <=? 0) || (max_pending <? 2)%nat then Err (InvalidArgument "invalid evidence capture worker config") else
  Ok (mkEvidenceState delay max_pending [] ∅ ∅ false false 0 1 None JobFree).
Definition evidence_run (w : EvidenceState) (d : ParkingDb) (ops : list EvidenceOp) : EvidenceSystem :=
  foldl evidence_step (mkEvidenceSystem w d [] [] []) ops.

(** * The accounts of pictures *)

(** Evidence is stored once and no file is forgotten: the invariant of histories of the evidence worker, what a
    cancellation achieves, and a concrete run. *)
(** * Pictures are only added *)

Definition images_grow (d d' : ParkingDb) : Prop := exists l, pd_images d' = pd_images d ++ l.
#[global] Instance images_grow_preorder : PreOrder images_grow.
Proof.
  split.
  - intros d. exists []. by rewrite app_nil_r.
  - intros a b c [l Hl] [l' Hl']. exists (l ++ l'). by rewrite Hl', Hl, app_assoc.
Qed.
Lemma images_same d d' : pd_images d' = pd_images d -> images_grow d d'.
Proof. intros H. exists []. by rewrite app_nil_r. Qed.

Lemma has_image_grow id p d d' : images_grow d d' -> has_image id p d = true -> has_image id p d' = true.
Proof. intros [l Hl] H. unfold has_image in *. by rewrite Hl, existsb_app, H. Qed.

Lemma insert_image_grow row d d' : insert_image row d = Ok d' -> pd_images d' = pd_images d ++ [row].
Proof. unfold insert_image. destruct (_ || _); [done|]. by intros [= <-]. Qed.
Lemma insert_event_images row d d' : insert_event row d = Ok d' -> pd_images d' = pd_images d.
Proof. unfold insert_event. destruct (_ && _); [|done]. by intros [= <-]. Qed.
Lemma insert_session_images row d id d' : insert_session row d = Ok (id, d') -> pd_images d' = pd_images d.
Proof. unfold insert_session. destruct (_ && _); [|done]. by intros [= _ <-]. Qed.

Lemma evidence_images id path reason captured enhanced d r d' :
  insertEvidenceImage id path reason captured enhanced d = Ok (r, d') ->
  images_grow d d' /\
  match r with
  | EvidenceInserted =>
      has_image id (fun i => bool_decide (im_reason i = Some reason)) d = false /\
      has_image id (fun i => bool_decide (im_reason i = Some reason)) d' = true
  | _ => d' = d
  end.
Proof.
  unfold insertEvidenceImage. destruct (_ || _); [done|]. destruct (negb _); [done|].
  destruct (has_image id _ d) eqn:Hh; [by intros [= <- <-]|].
  destruct (negb _); [by intros [= <- <-]|].
  intros (d1 & Hi%insert_image_grow & [= <- <-])%rbind_ok_inv. split; [by eexists|]. split; [done|].
  unfold has_image. rewrite Hi, existsb_app. simpl. rewrite !bool_decide_eq_true_2 by done. apply orb_true_r.
Qed.

Lemma db_write_images w d : images_grow d (db_write w d).
Proof.
  destruct w; simpl; try (by apply images_same).
  - unfold createHallSession. destruct (_ || _); [done|]. destruct (negb _); [done|].
    destruct (pd_slots d !! slot_id); [|done].
    destruct (insert_session _ _) as [[id d1]|] eqn:E1; simpl; [|done].
    destruct (insert_event _ d1) as [d2|] eqn:E2; simpl; [|done].
    apply insert_session_images in E1. apply insert_event_images in E2. apply images_same. by rewrite E2, E1.
  - destruct (pd_sessions d !! session_id); [|done]. by destruct (pk_open p); [apply images_same|].
  - destruct (pd_sessions d !! session_id); [|done]. by destruct (bool_decide _); [apply images_same|].
  - destruct (insertEvidenceImage _ _ _ _ _ d) as [[r d']|] eqn:E; [|done]. by apply evidence_images in E as [? _].
  - unfold insertHallCaptureImage. destruct (_ || _); [done|]. destruct (negb _); [done|].
    destruct (has_image _ _ d); [done|]. destruct (negb _); [done|].
    destruct (insert_image _ d) as [d1|] eqn:E; simpl; [|done]. apply insert_image_grow in E.
    destruct (pd_sessions d1 !! session_id); [|by eexists].
    destruct (insert_event _ d1) as [d2|] eqn:E2; simpl; [|done]. apply insert_event_images in E2.
    eexists. by rewrite E2.
Qed.

(** * The invariant *)

Definition stored_for (id : Z) (reason : EvidenceReason) (r : EvidenceCaptureResult) : bool :=
  er_stored r && bool_decide (er_sessionId r = id) && bool_decide (er_reason r = reason).

Lemma stored_for_spec id reason r :
  stored_for id reason r = true -> er_stored r = true /\ id = er_sessionId r /\ reason = er_reason r.
Proof. unfold stored_for. intros H. split_bool. done. Qed.

Record ev_inv (s : EvidenceSystem) : Prop := {
  ei_bound : (length (ew_jobs (es_worker s)) <= ew_max_pending (es_worker s))%nat;
  ei_generation : forall j, j ∈ ew_jobs (es_worker s) -> jb_reason j = Overstay ->
    jb_generation j = ew_generation (es_worker s);
  ei_flight : match ew_hand (es_worker s) with
              | JobFree => ew_in_flight (es_worker s) = None
              | JobTaken j | JobCapturing j | JobDone j =>
                  ew_in_flight (es_worker s) = Some (rq_sessionId (jb_request j), jb_reason j) end;
  ei_files : forall p, p ∈ es_captured s ->
    p ∈ es_removed s \/
    exists r, r ∈ es_results s /\ er_stored r = true /\ (p = er_imagePath r \/ p = er_enhancedImagePath r);
  ei_stored : forall r, r ∈ es_results s -> er_stored r = true ->
    has_image (er_sessionId r) (fun i => bool_decide (im_reason i = Some (reason_text (er_reason r)))) (es_db s) = true;
  ei_once : forall id reason, (length (List.filter (stored_for id reason) (es_results s)) <= 1)%nat
}.

Lemma q_build_in {A} `{Timed A} (x : A) l : x ∈ q_build l <-> x ∈ l.
Proof. by rewrite q_build_perm. Qed.
Lemma q_build_length {A} `{Timed A} (l : list A) : length (q_build l) = length l.
Proof. by rewrite q_build_perm. Qed.
Lemma q_push_length {A} `{Timed A} (x : A) q : length (q_push x q) = S (length q).
Proof. by rewrite q_push_perm. Qed.

Lemma ev_worker_inv s w :
  ev_inv s ->
  (length (ew_jobs w) <= ew_max_pending w)%nat ->
  (forall j, j ∈ ew_jobs w -> jb_reason j = Overstay -> jb_generation j = ew_generation w) ->
  match ew_hand w with
  | JobFree => ew_in_flight w = None
  | JobTaken j | JobCapturing j | JobDone j => ew_in_flight w = Some (rq_sessionId (jb_request j), jb_reason j) end ->
  ev_inv (es_set_worker s w).
Proof. intros [H1 H2 H3 H4 H5 H6]. by split. Qed.

Lemma schedule_inv s now request a b : ev_inv s -> ev_inv (es_set_worker s (scheduleSessionImpl now request a b (es_worker s)).2).
Proof.
  intros I. assert (Hsame : ev_inv (es_set_worker s (es_worker s))) by (by destruct s).
  destruct I as [H1 H2 H3 H4 H5 H6]. set (w := es_worker s) in *.
  unfold scheduleSessionImpl. destruct (_ || _); [done|]. destruct (_ =? 0)%nat; [done|].
  destruct (_ || _); [done|]. destruct (bool_decide _); [done|].
  destruct (Nat.ltb_spec (ew_max_pending w) (length (ew_jobs w) + ((if a then 1 else 0) + (if b then 1 else 0)))%nat);
    [done|].
  apply ev_worker_inv; [done| | |].
  - destruct a, b; cbn [ew_set ew_jobs ew_max_pending snd]; rewrite ?q_push_length; lia.
  - intros j Hj Hr. destruct a, b; cbn [ew_set ew_jobs ew_generation snd] in *;
      rewrite ?elem_of_q_push in Hj; (repeat destruct Hj as [-> | Hj]); try done; by apply H2.
  - by destruct a, b.
Qed.

Lemma filter_length_le' {A} (f : A -> bool) l : (length (List.filter f l) <= length l)%nat.
Proof. induction l as [|x l IH]; simpl; [lia|]. destruct (f x); simpl; lia. Qed.

Lemma process_inv s job roi answer at_ failure :
  ev_inv s -> ew_hand (es_worker s) = JobCapturing job -> ev_inv (ew_process job roi answer at_ failure s).
Proof.
  intros [H1 H2 H3 H4 H5 H6] Hh. rewrite Hh in H3.
  (* A picture that is not stored: its files are removed. *)
  assert (Hlost : forall l r, er_stored r = false ->
    ev_inv (mkEvidenceSystem (ew_set_hand (es_worker s) (ew_in_flight (es_worker s)) (JobDone job)) (es_db s)
      (es_results s ++ [r]) (es_captured s ++ l) (es_removed s ++ l))).
  { intros l r Hr. split; simpl; try done.
    - intros p [Hp | Hp]%elem_of_app; [|left; apply elem_of_app; by right].
      destruct (H4 p Hp) as [Hx | (x & Hx & Hs)]; [left; apply elem_of_app; by left|].
      right. exists x. split; [apply elem_of_app; by left|done].
    - intros x [Hx | ->%list_elem_of_singleton]%elem_of_app Hs; [by apply H5|congruence].
    - intros id reason. rewrite List.filter_app, length_app. simpl. unfold stored_for at 2. rewrite Hr. simpl.
      specialize (H6 id reason). lia. }
  assert (Hno : forall r, er_stored r = false ->
    ev_inv (mkEvidenceSystem (ew_set_hand (es_worker s) (ew_in_flight (es_worker s)) (JobDone job)) (es_db s)
      (es_results s ++ [r]) (es_captured s ++ []) (es_removed s ++ []))) by (intros r Hr; by apply Hlost).
  unfold ew_process. destruct (negb roi); [by apply Hno|]. destruct answer as [original enhanced valid|m]; [|by apply Hno].
  destruct (_ || negb valid); [by apply Hlost|]. destruct failure; [by apply Hlost|].
  destruct (insertEvidenceImage _ _ _ _ _ _) as [[[] d]|[]] eqn:E; try by apply Hlost.
  - apply evidence_images in E as [Hg [Hnew Hold]]. set (r := mkEvidenceCaptureResult _ _ _ _ original _ _ _ _).
    split; simpl; try done.
    + intros p [Hp | Hp]%elem_of_app.
      * rewrite app_nil_r. destruct (H4 p Hp) as [Hx | (x & Hx & Hs)]; [by left|].
        right. exists x. split; [apply elem_of_app; by left|done].
      * right. exists r. split; [apply elem_of_app; right; left|]. split; [done|]. simpl.
        apply list_elem_of_In, filter_In in Hp as [Hp _]. simpl in Hp.
        destruct Hp as [<- | [<- | []]]; [by left|by right].
    + intros x [Hx | ->%list_elem_of_singleton]%elem_of_app Hs; [|done]. eapply has_image_grow; [exact Hg|].
      by apply H5.
    + intros id reason. rewrite List.filter_app, length_app. simpl. specialize (H6 id reason).
      destruct (stored_for id reason r) eqn:Hr; simpl; [|lia].
      apply stored_for_spec in Hr as (_ & -> & ->). simpl in *.
      destruct (List.filter _ (es_results s)) as [|x l] eqn:Hf; simpl; [lia|].
      exfalso. assert (Hx : x ∈ List.filter (stored_for (rq_sessionId (jb_request job)) (jb_reason job)) (es_results s))
        by (rewrite Hf; left).
      apply list_elem_of_In, filter_In in Hx as [Hx Hsx]. apply list_elem_of_In in Hx.
      apply stored_for_spec in Hsx as (Hsx & Hid & Hre). specialize (H5 x Hx Hsx).
      rewrite <- Hid, <- Hre, Hnew in H5. done.
  - apply evidence_images in E as [_ ->]. by apply Hlost.
  - apply evidence_images in E as [_ ->]. by apply Hlost.
Qed.

Lemma work_inv s now roi answer at_ failure : ev_inv s -> ev_inv (ew_worker now roi answer at_ failure s).
Proof.
  intros I. assert (Hsame : ev_inv (es_set_worker s (es_worker s))) by (by destruct s).
  pose proof I as [H1 H2 H3 _ _ _]. unfold ew_worker. destruct (ew_hand (es_worker s)) as [|job|job|job] eqn:Hh.
  - unfold ew_take. rewrite Hh. destruct (_ || _); [done|].
    destruct (q_due now _) as [[job rest]|] eqn:Hq; [|done]. apply q_due_Some in Hq as [Hq _].
    rewrite Hq in H1. simpl in H1.
    assert (Hrest : forall j, j ∈ rest -> jb_reason j = Overstay -> jb_generation j = ew_generation (es_worker s))
      by (intros j Hj; apply H2; rewrite Hq; by right).
    destruct (_ && _); [apply ev_worker_inv; simpl; rewrite ?Hh; done || lia|].
    destruct (bool_decide _); [destruct (jb_terminal job); apply ev_worker_inv; simpl; rewrite ?Hh; done || lia|].
    apply ev_worker_inv; simpl; done || lia.
  - apply ev_worker_inv; [done|done|done|]. simpl. by destruct (ew_canceled_now _ _).
  - by apply process_inv.
  - by apply ev_worker_inv.
Qed.

Lemma evidence_step_inv s op : ev_inv s -> ev_inv (evidence_step s op).
Proof.
  intros I. assert (Hsame : ev_inv (es_set_worker s (es_worker s))) by (by destruct s).
  pose proof I as [H1 H2 H3 H4 H5 H6]. destruct op; cbn [evidence_step].
  - unfold ew_start. destruct (ew_running _); [done|]. by apply ev_worker_inv.
  - unfold ew_stop_begin. destruct (negb _); [done|]. by apply ev_worker_inv.
  - unfold ew_stop_end. destruct (ew_hand _) eqn:Hh; try done. destruct (_ && _); [|done].
    apply ev_worker_inv; simpl; [done|lia| |done]. intros j Hj. by apply elem_of_nil in Hj.
  - by apply schedule_inv.
  - by apply schedule_inv.
  - unfold cancelSession. destruct (_ <? 0); [done|]. apply ev_worker_inv; simpl; [done| | |done].
    + rewrite q_build_length. pose proof (filter_length_le' (fun j => negb (of_session session_id j)) (ew_jobs (es_worker s))). lia.
    + intros j Hj. apply q_build_in, list_elem_of_In, filter_In in Hj as [Hj _]. apply H2. by apply list_elem_of_In.
  - unfold expediteOverstay. destruct (_ <? 0); [done|]. apply ev_worker_inv; simpl; [done| | |done].
    + by rewrite q_build_length, length_fmap.
    + intros j (i & -> & Hi)%q_build_in%list_elem_of_fmap_1 Hr. destruct (_ && _); simpl in *; by apply H2.
  - unfold updateOverstayDelay. destruct (_ <=? 0); [done|]. apply ev_worker_inv; simpl; [done| | |done].
    + by rewrite q_build_length, length_fmap.
    + intros j (i & -> & Hi)%q_build_in%list_elem_of_fmap_1 Hr. destruct (of_overstay i) eqn:Ho; [done|].
      unfold of_overstay in Ho. split_bool. congruence.
  - by apply work_inv.
  - split; simpl; try done. intros r Hr Hs. eapply has_image_grow; [apply db_write_images|]. by apply H5.
Qed.

Lemma evidence_run_inv w d ops delay max_pending :
  evidence_init delay max_pending = Ok w -> ev_inv (evidence_run w d ops).
Proof.
  unfold evidence_init. destruct (_ || _); [done|]. intros [= <-]. unfold evidence_run.
  set (s := mkEvidenceSystem _ d [] [] []).
  assert (I : ev_inv s).
  { split; simpl; try done; try lia; try (intros x Hx; by apply elem_of_nil in Hx). }
  clearbody s. revert s I. induction ops as [|op ops IH]; intros s I; [done|]. by apply IH, evidence_step_inv.
Qed.

(** Every picture is accounted for. Over every history of the evidence worker (schedules, restores,
    cancellations, new delays, failures of camera and database, other writers), a session gets at most
    one picture for its start and one for its overstay, each with its row; every file that the camera
    wrote is either the picture of a stored result or was removed; and the queue
    stays within its capacity. *)
Theorem evidence_accounted delay max_pending w d ops id reason p :
  evidence_init delay max_pending = Ok w ->
  let s := evidence_run w d ops in
  (length (List.filter (stored_for id reason) (es_results s)) <= 1)%nat /\
  (forall r, r ∈ es_results s -> er_stored r = true ->
     has_image (er_sessionId r) (fun i => bool_decide (im_reason i = Some (reason_text (er_reason r)))) (es_db s) = true) /\
  (p ∈ es_captured s ->
     p ∈ es_removed s \/
     exists r, r ∈ es_results s /\ er_stored r = true /\ (p = er_imagePath r \/ p = er_enhancedImagePath r)) /\
  (length (ew_jobs (es_worker s)) <= ew_max_pending (es_worker s))%nat.
Proof.
  intros Hi s. destruct (evidence_run_inv w d ops _ _ Hi) as [H1 H2 H3 H4 H5 H6].
  split; [apply H6|]. split; [exact H5|]. split; [apply H4|exact H1].
Qed.
