(* ===== verification/Threshold.v ===== *)
(** The overstay threshold: [src/settings/OverstayThresholdService.cpp], the one value for the timers and for the
    evidence worker, kept in the settings table; and the callback with which [src/main.cpp] applies it to both. *)
From stdpp Require Import sorting.
From S2P Require Import Prelude SensorProtocol OccupancyDb TimeText DeadlineQueue ParkingDb.
From S2P Require Import Overstay Evidence.
From S2P Require Import OverstayDb Evidence.

(** * Data *)

(** [include/settings/OverstayThresholdService.hpp:14-22 ThresholdUpdateResult] *)
Record ThresholdUpdateResult := mkThresholdUpdateResult {
  tu_success : bool;
  tu_previousSeconds : Z;
  tu_thresholdSeconds : Z;
  tu_appliedRevision : N;
  tu_runtimeApplied : bool;
  tu_runtimeHealthy : bool;
  tu_error : string
}.

(** [include/settings/OverstayThresholdService.hpp:24-29 OverstayThresholdStatus] *)
Record OverstayThresholdStatus := mkOverstayThresholdStatus {
  ts_thresholdSeconds : Z;
  ts_appliedRevision : N;
  ts_runtimeApplied : bool;
  ts_runtimeHealthy : bool
}.

(** [include/settings/OverstayThresholdService.hpp:32-62 OverstayThresholdService] The members that change. *)
Record ThresholdState := mkThresholdState {
  th_bootstrap : Z;
  th_seconds : Z;
  th_revision : N;
  th_applied : bool;
  th_healthy : bool
}.

Definition kDefaultSeconds : Z := 3600.
Definition kMinimumSeconds : Z := 60.
Definition kMaximumSeconds : Z := 86400.
Definition kSettingKey : string := "overstay_threshold_seconds".

(** [src/settings/OverstayThresholdService.cpp:56-58 OverstayThresholdService::isValid] *)
Definition th_isValid (seconds : Z) : bool := (kMinimumSeconds <=? seconds) && (seconds <=? kMaximumSeconds).

(** [src/settings/OverstayThresholdService.cpp:12-17 OverstayThresholdService::OverstayThresholdService] *)
Definition th_init (bootstrap_seconds : Z) : ThresholdState :=
  let seconds := if th_isValid bootstrap_seconds then bootstrap_seconds else kDefaultSeconds in
  mkThresholdState seconds seconds 1 true true.

(** [src/settings/OverstayThresholdService.cpp:50-54 OverstayThresholdService::status] *)
Definition th_status (t : ThresholdState) : OverstayThresholdStatus :=
  mkOverstayThresholdStatus (th_seconds t) (th_revision t) (th_applied t) (th_healthy t).

Definition th_with_seconds (t : ThresholdState) (seconds : Z) : ThresholdState :=
  mkThresholdState (th_bootstrap t) seconds (th_revision t) (th_applied t) (th_healthy t).

(** [std::stoi] with the text behind the number; an exception when there is no number or it does not fit. *)
Definition stoi_rest (text : string) : option (Z * string) :=
  let s := drop_space text in
  let '(sign, body) :=
    match s with
    | String "-" rest => (-1, rest)
    | String "+" rest => (1, rest)
    | _ => (1, s)
    end in
  if starts_with_digit body then
    let '(v, rest) := take_digits_rest 0 body in
    let v := sign * v in
    if (v <? - 2 ^ 31) || (2 ^ 31 - 1 <? v) then None else Some (v, rest)
  else None.

(** * Operations *)

(** [src/settings/OverstayThresholdService.cpp:19-44 OverstayThresholdService::initialize] [sql_fails] is a failure of
    the disk in the write. *)
Definition th_initialize (sql_fails : bool) (t : ThresholdState) (d : ParkingDb) : bool * ThresholdState * ParkingDb :=
  let store :=
    match (if sql_fails then (false, d) else upsertSystemSetting kSettingKey (pretty (th_bootstrap t)) d) with
    | (true, d') => (true, th_with_seconds t (th_bootstrap t), d')
    | (false, _) => (false, t, d)
    end in
  match getSystemSetting kSettingKey d with
  | None => store
  | Some stored =>
      match stoi_rest stored with
      | None => (false, t, d)
      | Some (value, rest) =>
          if is_empty rest && th_isValid value then (true, th_with_seconds t value, d) else store
      end
  end.

(** The service with what its callback reaches. *)
Record Runtime := mkRuntime {
  rt_threshold : ThresholdState;
  rt_evidence : EvidenceState;
  rt_overstay : Overstay.Overstay
}.

(** [src/main.cpp:958-969 setApplyCallback] The callback: first the evidence worker, then the timers. An
    exception leaves what was done before it. *)
Definition apply_policy (at_ : Instant) (delay : Z) (rt : Runtime) : result store_error (nat * nat) * Runtime :=
  match updateOverstayDelay delay (rt_evidence rt) with
  | Err e => (Err e, rt)
  | Ok (evidence_count, w) =>
      let '(r, o) := updateParkingTimeout at_ delay (rt_overstay rt) in
      let rt' := mkRuntime (rt_threshold rt) w o in
      match r with Ok timer_count => (Ok (timer_count, evidence_count), rt') | Err e => (Err e, rt') end
  end.

Definition error_text (e : store_error) : string := match e with InvalidArgument m | RuntimeError m => m end.

Definition rt_set_threshold (rt : Runtime) t : Runtime := mkRuntime t (rt_evidence rt) (rt_overstay rt).
Definition rt_set_db (rt : Runtime) d : Runtime :=
  mkRuntime (rt_threshold rt) (rt_evidence rt) (ov_set_db (rt_overstay rt) d).

(** [src/settings/OverstayThresholdService.cpp:60-117 OverstayThresholdService::update] [callback] tells whether the callback
    was set. *)
Definition th_update (callback sql_fails : bool) (at_ : Instant) (seconds : Z) (rt : Runtime)
    : ThresholdUpdateResult * Runtime :=
  let t := rt_threshold rt in
  let previous := th_seconds t in
  let answer success threshold (t : ThresholdState) error :=
    mkThresholdUpdateResult success previous threshold (th_revision t) (th_applied t) (th_healthy t) error in
  if negb (th_isValid seconds)
  then (answer false previous t "thresholdSeconds must be between 60 and 86400", rt) else
  if (seconds =? previous) && th_applied t && th_healthy t then (answer true previous t "", rt) else
  match (if sql_fails then (false, ov_db (rt_overstay rt))
         else upsertSystemSetting kSettingKey (pretty seconds) (ov_db (rt_overstay rt))) with
  | (false, _) => (answer false previous t "failed to persist setting", rt)
  | (true, d) =>
      let rt1 := rt_set_db (rt_set_threshold rt (th_with_seconds t seconds)) d in
      let '(applied, rt2) := if callback then apply_policy at_ (seconds * 1000) rt1 else (Ok (O, O), rt1) in
      match applied with
      | Err e =>
          let t' := mkThresholdState (th_bootstrap t) seconds (th_revision t) false false in
          (answer false seconds t' ("failed to apply runtime policy: " +:+ error_text e), rt_set_threshold rt2 t')
      | Ok _ =>
          let t' := mkThresholdState (th_bootstrap t) seconds (wrap64 (th_revision t + 1)) true true in
          let message := "old_seconds=" +:+ pretty previous +:+ " new_seconds=" +:+ pretty seconds +:+
                         " changed_at=" +:+ utcString (in_wall at_) +:+ " success=true" in
          let d' := match insert_event (mkEventRow None None "OVERSTAY_THRESHOLD_UPDATED" message)
                            (ov_db (rt_overstay rt2)) with Ok d' => d' | Err _ => ov_db (rt_overstay rt2) end in
          (answer true seconds t' "", rt_set_db (rt_set_threshold rt2 t') d')
      end
  end.

(** * One threshold everywhere *)

(** The timers, the evidence worker, the service and the settings table agree over
    histories, and a restart finds the value again. *)
(** * What leaves the settings alone *)

Definition db_keeps (d d' : ParkingDb) : Prop := pd_settings d' = pd_settings d /\ pd_open d' = pd_open d.
#[global] Instance db_keeps_preorder : PreOrder db_keeps.
Proof. split; [by intros d|]. intros a b c [H1 H2] [H3 H4]. split; congruence. Qed.

Lemma insert_session_keeps row d id d' : insert_session row d = Ok (id, d') -> db_keeps d d'.
Proof. unfold insert_session. destruct (_ && _); [|done]. by intros [= _ <-]. Qed.
Lemma insert_image_keeps row d d' : insert_image row d = Ok d' -> db_keeps d d'.
Proof. unfold insert_image. destruct (_ || _); [done|]. by intros [= <-]. Qed.
Lemma insert_event_keeps row d d' : insert_event row d = Ok d' -> db_keeps d d'.
Proof. unfold insert_event. destruct (_ && _); [|done]. by intros [= <-]. Qed.

(** Takes an operation of the tables apart. *)
Ltac db_keep :=
  repeat match goal with
  | H : rbind ?m _ = Ok _ |- _ => apply rbind_ok_inv in H as (? & ? & H)
  | H : insert_session _ _ = Ok ?p |- _ => destruct p; apply insert_session_keeps in H
  | H : insert_image _ _ = Ok _ |- _ => apply insert_image_keeps in H
  | H : insert_event _ _ = Ok _ |- _ => apply insert_event_keeps in H
  | H : context [match ?x with _ => _ end] |- _ => destruct x eqn:?
  | H : Ok _ = Ok _ |- _ => injection H as ?; subst
  | H : Err _ = Ok _ |- _ => discriminate H
  end;
  unfold db_keeps in *; simpl in *; intuition congruence.

Lemma createHallSession_keeps slot source entry d id d' :
  createHallSession slot source entry d = Ok (id, d') -> db_keeps d d'.
Proof. unfold createHallSession. intros H. db_keep. Qed.
Lemma insertEvidenceImage_keeps id path reason captured enhanced d r d' :
  insertEvidenceImage id path reason captured enhanced d = Ok (r, d') -> db_keeps d d'.
Proof. unfold insertEvidenceImage. intros H. db_keep. Qed.
Lemma insertHallCaptureImage_keeps id path enhanced type captured d r d' :
  insertHallCaptureImage id path enhanced type captured d = Ok (r, d') -> db_keeps d d'.
Proof. unfold insertHallCaptureImage. intros H. db_keep. Qed.
Lemma insertParked_keeps car slot at_ image d id d' : insertParked car slot at_ image d = Ok (id, d') -> db_keeps d d'.
Proof. unfold insertParked. intros H. db_keep. Qed.
Lemma markViolation_keeps id at_ image d b d' : markViolation id at_ image d = Ok (b, d') -> db_keeps d d'.
Proof. unfold markViolation. intros H. db_keep. Qed.
Lemma cancelUnscheduled_keeps id at_ d b d' : cancelUnscheduled id at_ d = Ok (b, d') -> db_keeps d d'.
Proof. unfold cancelUnscheduled. intros H. db_keep. Qed.
Lemma departActiveBySlot_keeps `{SqlSeconds} slot at_ d r d' : departActiveBySlot slot at_ d = Ok (r, d') -> db_keeps d d'.
Proof. unfold departActiveBySlot. intros Hd. db_keep. Qed.
#[export] Hint Resolve createHallSession_keeps insertEvidenceImage_keeps insertHallCaptureImage_keeps
  insertParked_keeps markViolation_keeps cancelUnscheduled_keeps departActiveBySlot_keeps : pi.

Lemma db_write_keeps w d : db_keeps d (db_write w d).
Proof.
  destruct w; simpl.
  - destruct (createHallSession _ _ _ d) as [[id d']|] eqn:E; [eauto with pi|done].
  - destruct (pd_sessions d !! session_id) as [r|]; [|done]. by destruct (pk_open r).
  - destruct (pd_sessions d !! session_id) as [r|]; [|done]. by destruct (bool_decide _).
  - done.
  - destruct (insertEvidenceImage _ _ _ _ _ d) as [[r d']|] eqn:E; [eauto with pi|done].
  - destruct (insertHallCaptureImage _ _ _ _ _ d) as [[r d']|] eqn:E; [eauto with pi|done].
Qed.
Lemma db_writes_keeps ws d : db_keeps d (db_writes ws d).
Proof.
  unfold db_writes. revert d. induction ws as [|w ws IH]; intros d; simpl; [done|].
  trans (db_write w d); [apply db_write_keeps|apply IH].
Qed.

Definition ov_keeps (o o' : Overstay.Overstay) : Prop := ov_timeout o' = ov_timeout o /\ db_keeps (ov_db o) (ov_db o').
#[global] Instance ov_keeps_preorder : PreOrder ov_keeps.
Proof. split; [by intros o|]. intros a b c [H1 H2] [H3 H4]. split; [congruence|by trans (ov_db b)]. Qed.

Lemma ov_schedule_keeps at_ id slot car delay o o' : ov_schedule at_ id slot car delay o = Ok o' -> ov_keeps o o'.
Proof. unfold ov_schedule. destruct (scheduleImpl _ _ _ _ _ _) as [[dl t]|]; simpl; [|done]. by intros [= <-]. Qed.
#[export] Hint Resolve ov_schedule_keeps : pi.

Lemma worker_keeps at_ answer failure o : ov_keeps o (worker_step at_ answer failure o).
Proof.
  unfold worker_step. destruct (tm_hand _) as [|item|item|item]; try done.
  - unfold processExpired. destruct (negb _); [done|]. set (item1 := if is_empty _ then _ else _).
    destruct (evidence_decision answer item1) as [[path m]|]; [|done].
    assert (Hm : ov_keeps o (match m with Some m => reportError at_ item1 m o | None => o end)) by (by destruct m).
    set (o1 := match m with Some m => _ | None => o end) in *.
    destruct failure; [exact Hm|].
    destruct (markViolation _ _ _ _) as [[[] d]|] eqn:E; [|exact Hm|exact Hm].
    split; [exact (proj1 Hm)|]. simpl. eauto with pi.
  - unfold retryAfterEvidencePending. by destruct (_ =? _)%N.
Qed.

Lemma recognized_keeps at_ between id slot car o : ov_keeps o (handleRecognizedSession at_ between id slot car o).2.
Proof.
  unfold handleRecognizedSession. destruct (_ || _); [done|]. destruct (findLogById _ _); [|done].
  destruct (_ || _); [done|]. destruct (classifyVehicle _ _); [| |done].
  - destruct (bool_decide _); [done|]. destruct (ov_schedule _ _ _ _ _ _) as [o1|] eqn:E; [|done].
    apply ov_schedule_keeps in E. exact E.
  - pose proof (db_writes_keeps between (ov_db o)) as Hw.
    destruct (markViolation _ _ _ _) as [[[] d]|] eqn:E; [|by split..].
    split; [done|]. simpl. trans (db_writes between (ov_db o)); [done|]. eauto with pi.
Qed.

Lemma restore_keeps at_ records n o : ov_keeps o (restore_records at_ records n o).2.
Proof.
  revert n o. induction records as [|record records IH]; intros n o; simpl; [done|].
  destruct (negb (timer_record record)); [done|].
  pose proof (recognized_keeps at_ [] (lr_id record) (lr_slot_id record) (lr_car_number record) o) as Hg.
  destruct (handleRecognizedSession _ _ _ _ _ _) as [[r|e] o1]; simpl in *; [|done]. by trans o1.
Qed.

Lemma reschedule_keeps at_ records n o : ov_keeps o (reschedule_records at_ records n o).2.
Proof.
  revert n o. induction records as [|record records IH]; intros n o; simpl; [done|].
  destruct (_ || _); [done|]. destruct (ov_schedule _ _ _ _ _ _) as [o1|] eqn:E; [|done].
  apply ov_schedule_keeps in E. trans o1; [done|]. apply (IH (S n) (ov_set_scheduled o1 _)).
Qed.

(** Every operation but the change of the threshold keeps it. *)
Lemma step_keeps `{SqlSeconds} o op :
  (forall at_ timeout, op <> OvTimeout at_ timeout) -> ov_keeps o (overstay_step o op).
Proof.
  intros Hop. destruct op; simpl; try done.
  - apply worker_keeps.
  - unfold handleEntry. destruct (is_empty slot_id); [done|]. destruct (is_empty car_number); [done|].
    destruct (classifyVehicle _ _); try done. destruct (findActiveBySlot _ _); [done|].
    destruct (insertParked _ _ _ _ _) as [[id d]|] eqn:E1; [|done]. apply insertParked_keeps in E1.
    destruct (ov_schedule _ _ _ _ _ _) as [o2|] eqn:E2.
    + apply ov_schedule_keeps in E2. trans (ov_set_db o d); [by split|exact E2].
    + destruct (cancelUnscheduled _ _ _) as [[b d']|] eqn:E3; [|by split]. apply cancelUnscheduled_keeps in E3.
      split; [done|]. by trans d.
  - apply recognized_keeps.
  - apply restore_keeps.
  - by destruct (Hop at_ parking_timeout).
  - unfold handleExit. destruct (is_empty slot_id); [done|].
    destruct (departActiveBySlot _ _ _) as [[[record|] d]|] eqn:E; [| |done]; (split; [done|]; simpl; eauto with pi).
  - unfold handleCommittedExit. destruct (_ || _); [done|]. destruct (findLogById _ _); [|done]. by destruct (_ || _).
  - split; [done|]. apply db_write_keeps.
Qed.

Lemma scheduleSessionImpl_delay now request a b w : ew_delay (scheduleSessionImpl now request a b w).2 = ew_delay w.
Proof.
  unfold scheduleSessionImpl. destruct (_ || _); [done|]. destruct (_ =? 0)%nat; [done|]. destruct (_ || _); [done|].
  destruct (bool_decide _); [done|]. destruct (_ <? _)%nat; [done|]. by destruct a, b.
Qed.

Lemma evidence_keeps s op :
  (forall delay, op <> EvDelay delay) ->
  ew_delay (es_worker (evidence_step s op)) = ew_delay (es_worker s) /\ db_keeps (es_db s) (es_db (evidence_step s op)).
Proof.
  intros Hop. destruct op; cbn [evidence_step]; try (by destruct (Hop delay)).
  - unfold ew_start. by destruct (ew_running _).
  - unfold ew_stop_begin. by destruct (negb _).
  - unfold ew_stop_end. destruct (ew_hand _); try done. by destruct (_ && _).
  - split; [apply scheduleSessionImpl_delay|done].
  - split; [apply scheduleSessionImpl_delay|done].
  - unfold cancelSession. by destruct (_ <? 0).
  - unfold expediteOverstay. by destruct (_ <? 0).
  - unfold ew_worker. destruct (ew_hand (es_worker s)) as [|job|job|job] eqn:Hh; try done.
    + unfold ew_take. rewrite Hh. destruct (_ || _); [done|]. destruct (q_due _ _) as [[job rest]|]; [|done].
      destruct (_ && _); [done|]. destruct (bool_decide _); [|done]. by destruct (jb_terminal job).
    + unfold ew_process. destruct (negb roi_configured); [done|]. destruct answer as [original enhanced valid|m]; [|done].
      destruct (_ || _); [done|]. destruct sql_failure; [done|].
      destruct (insertEvidenceImage _ _ _ _ _ _) as [[[] d]|[]] eqn:E; try done;
        (apply insertEvidenceImage_keeps in E; by split).
  - split; [done|]. apply db_write_keeps.
Qed.

(** * Histories *)

(** The runtime after its construction: updates of the threshold, and everything else that timers and
    evidence worker do. *)
Inductive RuntimeOp :=
| RtUpdate (sql_fails : bool) (at_ : Instant) (seconds : Z)
| RtTimers (op : OverstayOp)
| RtEvidence (op : EvidenceOp).

(** Only the service changes the delays. *)
Definition other_op (op : RuntimeOp) : Prop :=
  match op with
  | RtUpdate _ _ _ => True
  | RtTimers op => forall at_ timeout, op <> OvTimeout at_ timeout
  | RtEvidence op => forall delay, op <> EvDelay delay
  end.

Definition runtime_step `{SqlSeconds} (rt : Runtime) (op : RuntimeOp) : Runtime :=
  match op with
  | RtUpdate sql_fails at_ seconds => (th_update true sql_fails at_ seconds rt).2
  | RtTimers op => mkRuntime (rt_threshold rt) (rt_evidence rt) (overstay_step (rt_overstay rt) op)
  | RtEvidence op =>
      let s := evidence_step (mkEvidenceSystem (rt_evidence rt) (ov_db (rt_overstay rt)) [] [] []) op in
      mkRuntime (rt_threshold rt) (es_worker s) (ov_set_db (rt_overstay rt) (es_db s))
  end.

(** What the settings table holds is the number. *)
Definition stored_as (seconds : Z) (d : ParkingDb) : Prop :=
  pd_open d = true /\ exists text, pd_settings d !! kSettingKey = Some text /\ stoi_rest text = Some (seconds, "").

Record th_inv (rt : Runtime) : Prop := {
  hi_valid : th_isValid (th_seconds (rt_threshold rt)) = true;
  hi_stored : stored_as (th_seconds (rt_threshold rt)) (ov_db (rt_overstay rt));
  hi_same : th_applied (rt_threshold rt) && th_healthy (rt_threshold rt) = true ->
    ov_timeout (rt_overstay rt) = th_seconds (rt_threshold rt) * 1000 /\
    ew_delay (rt_evidence rt) = th_seconds (rt_threshold rt) * 1000
}.

Lemma stoi_pretty n : th_isValid n = true -> stoi_rest (pretty n) = Some (n, "").
Proof.
  intros Hn. unfold th_isValid, kMinimumSeconds, kMaximumSeconds in Hn. split_bool.
  assert (Hp : pretty n = pretty (Z.to_N n)).
  { by destruct n as [|p|p]. }
  pose proof (digits_value_pretty (Z.to_N n)) as Hd. pose proof (pretty_N_digits (Z.to_N n)) as Hall.
  rewrite Hp. unfold digits_value in Hd. destruct (pretty (Z.to_N n)) as [|c s] eqn:Es; [done|].
  simpl in Hall. apply andb_prop in Hall as [Hc _]. cbn [is_empty] in Hd.
  unfold stoi_rest. cbn [drop_space]. rewrite (isdigit_not_space c Hc).
  assert (Hsign : c <> "-"%char /\ c <> "+"%char) by (split; intros ->; done).
  apply (take_digits_acc (String c s) 0) in Hd. rewrite Z2N.id in Hd by lia.
  replace (match c with "-"%char => (-1, s) | "+"%char => (1, s) | _ => (1, String c s) end)
    with (1, String c s) by (destruct Hsign as [H1 H2]; destruct c as [[] [] [] [] [] [] [] []]; congruence).
  cbn [starts_with_digit]. rewrite Hc. cbn [negb]. cbv beta iota. change (Z.of_N 0) with 0 in Hd. rewrite Hd. cbv beta iota. rewrite Z.mul_1_l.
  by destruct (Z.ltb_spec n (- 2 ^ 31)), (Z.ltb_spec (2 ^ 31 - 1) n); try lia.
Qed.

Lemma stored_upsert seconds d :
  th_isValid seconds = true -> pd_open d = true ->
  exists d', upsertSystemSetting kSettingKey (pretty seconds) d = (true, d') /\ stored_as seconds d'.
Proof.
  intros Hv Ho. unfold upsertSystemSetting. rewrite Ho. eexists. split; [reflexivity|]. split; [done|].
  exists (pretty seconds). split; [apply lookup_insert_eq|]. by apply stoi_pretty.
Qed.

Lemma stored_keeps seconds d d' : db_keeps d d' -> stored_as seconds d -> stored_as seconds d'.
Proof. intros [Hs Ho] [H1 (text & Ht & Hp)]. split; [congruence|]. exists text. by rewrite Hs. Qed.

Lemma initialize_reads b d seconds :
  stored_as seconds d -> th_isValid seconds = true ->
  th_initialize false (th_init b) d = (true, th_with_seconds (th_init b) seconds, d).
Proof.
  intros [Ho (text & Ht & Hp)] Hv. unfold th_initialize, getSystemSetting. rewrite Ho. simpl. rewrite Ht, Hp. simpl.
  by rewrite Hv.
Qed.

Lemma update_timeout_cases at_ timeout o :
  0 < timeout ->
  let r := updateParkingTimeout at_ timeout o in
  ov_timeout r.2 = timeout /\ db_keeps (ov_db o) (ov_db r.2).
Proof.
  intros Ht. unfold updateParkingTimeout. destruct (Z.leb_spec timeout 0); [lia|].
  pose proof (reschedule_keeps at_ (listLogs (ov_db (ov_set_timeout o timeout))) 0 (ov_set_timeout o timeout)) as [H1 H2].
  destruct (reschedule_records _ _ _ _) as [[n|e] o2]; by split.
Qed.

Lemma update_inv sql_fails at_ seconds rt : th_inv rt -> th_inv (th_update true sql_fails at_ seconds rt).2.
Proof.
  intros [Hv Hs Hsame]. unfold th_update. destruct (th_isValid seconds) eqn:Hvs; cbn [negb]; [|by split].
  destruct (_ && _ && _); [by split|]. destruct sql_fails; [by split|].
  destruct (stored_upsert seconds (ov_db (rt_overstay rt)) Hvs (proj1 Hs)) as (d & -> & Hd).
  assert (Hpos : 60 <= seconds) by (unfold th_isValid, kMinimumSeconds in Hvs; split_bool; lia).
  unfold apply_policy, updateOverstayDelay. destruct (Z.leb_spec (seconds * 1000) 0); [lia|].
  set (rt1 := rt_set_db _ d). set (w := mkEvidenceState (seconds * 1000) _ _ _ _ _ _ _ _ _ _).
  pose proof (update_timeout_cases at_ (seconds * 1000) (rt_overstay rt1) ltac:(lia)) as [Hto Hk].
  destruct (updateParkingTimeout _ _ _) as [[n|e] o]; simpl in Hto, Hk |- *.
  - assert (Hdb : stored_as seconds (ov_db o)) by (by eapply stored_keeps).
    split; simpl; [done| |done].
    unfold insert_event. simpl. destruct Hdb as [Ho Hx]. by split.
  - split; simpl; [done| |done]. by eapply stored_keeps.
Qed.

Lemma runtime_step_inv `{SqlSeconds} rt op : other_op op -> th_inv rt -> th_inv (runtime_step rt op).
Proof.
  intros Hop I. destruct op as [sql_fails at_ seconds|op|op]; simpl.
  - by apply update_inv.
  - destruct I as [Hv Hs Hsame]. destruct (step_keeps (rt_overstay rt) op Hop) as [Ht Hk].
    split; simpl; [done|by eapply stored_keeps|]. intros Hh. by rewrite Ht; apply Hsame.
  - destruct I as [Hv Hs Hsame].
    destruct (evidence_keeps (mkEvidenceSystem (rt_evidence rt) (ov_db (rt_overstay rt)) [] [] []) op Hop) as [Hd Hk].
    split; simpl; [done|by eapply stored_keeps|]. intros Hh. simpl in Hd. rewrite Hd. by apply Hsame.
Qed.

Lemma initialize_stored b d t d' :
  pd_open d = true -> th_initialize false (th_init b) d = (true, t, d') ->
  th_isValid (th_seconds t) = true /\ stored_as (th_seconds t) d' /\ th_applied t && th_healthy t = true.
Proof.
  intros Ho. assert (Hb : th_isValid (th_bootstrap (th_init b)) = true)
    by (unfold th_init; simpl; by destruct (th_isValid b) eqn:E).
  destruct (stored_upsert _ d Hb Ho) as (d1 & Hu & Hd1). unfold th_initialize. cbv iota. rewrite Hu.
  unfold getSystemSetting. rewrite Ho. simpl.
  destruct (pd_settings d !! kSettingKey) as [text|] eqn:Ht; [|by intros [= <- <-]].
  destruct (stoi_rest text) as [[value rest]|] eqn:Hp; [|done].
  destruct (is_empty rest && th_isValid value) eqn:Hok; [|by intros [= <- <-]].
  intros [= <- <-]. apply andb_prop in Hok as [Hr Hvv]. destruct rest; [|done].
  split; [done|]. split; [|done]. split; [done|]. by exists text.
Qed.

(** C38 [invariant] One threshold everywhere. From a start with a readable setting on, over every history of updates,
    failed writes, failures while the new value is applied, timers and evidence jobs: the threshold is
    valid, the settings table holds it, and the next start reads it back, whatever its own default; and
    whenever the service calls the runtime applied and healthy, the timers and the evidence worker
    work with exactly this value. *)
Theorem threshold_everywhere `{SqlSeconds} b max_pending d t d' w ops :
  pd_open d = true -> th_initialize false (th_init b) d = (true, t, d') ->
  evidence_init (th_seconds t * 1000) max_pending = Ok w -> Forall other_op ops ->
  let rt := foldl runtime_step (mkRuntime t w (overstay_start d' (th_seconds t * 1000))) ops in
  let seconds := th_seconds (rt_threshold rt) in
  th_isValid seconds = true /\
  (forall b', th_initialize false (th_init b') (ov_db (rt_overstay rt)) =
     (true, th_with_seconds (th_init b') seconds, ov_db (rt_overstay rt))) /\
  (th_applied (rt_threshold rt) && th_healthy (rt_threshold rt) = true ->
     ov_timeout (rt_overstay rt) = seconds * 1000 /\ ew_delay (rt_evidence rt) = seconds * 1000).
Proof.
  intros Ho Hi Hw Hops. destruct (initialize_stored b d t d' Ho Hi) as (Hv & Hs & Hh).
  unfold evidence_init in Hw. destruct (_ || _); [done|]. injection Hw as <-.
  set (rt0 := mkRuntime t _ _). assert (I : th_inv rt0) by (by split).
  assert (Hrun : th_inv (foldl runtime_step rt0 ops)).
  { clearbody rt0. clear -I Hops. revert rt0 I. induction Hops as [|op ops Hop Hops IH]; intros rt0 I; [done|].
    apply IH. by apply runtime_step_inv. }
  destruct Hrun as [H1 H2 H3]. split; [done|]. split; [|done]. intros b'. by apply initialize_reads.
Qed.

(** * Examples and witnesses *)

(** The theorems on the evidence pictures and on the threshold at concrete histories. *)
#[local] Instance shop_seconds : SqlSeconds := {| sql_epoch_seconds := fun _ => None |}.

(** One slot, one open session, and a setting that an earlier run left. *)
Definition shop_db : ParkingDb :=
  db_write (WriteSession "A1" "2024-03-01T00:00:00Z")
    (mkParkingDb true {["EV-1" := mkVehicleRow 7 true]} {["A1" := "VACANT"]} ∅ 0 [] [] {[kSettingKey := "600"]}).

Definition shop_request : EvidenceCaptureRequest := mkEvidenceCaptureRequest 1 "A1" (Some "CH0") 0.

(** The picture of the start is taken and stored. The restored session asks for the overstay picture only;
    the disk refuses its row, so both files go. *)
Definition shop_work (now : Z) (name : string) (failure : option string) : EvidenceOp :=
  EvWork now true (Captured (name ++ ".jpg") (name ++ "-e.jpg") true) "2024-03-01T00:00:01Z" failure.
Definition shop_ops : list EvidenceOp :=
  [EvStart; EvSchedule 0 shop_request; shop_work 1 "a" None; shop_work 1 "a" None; shop_work 1 "a" None;
   shop_work 1 "a" None; EvExpedite 5 1; shop_work 6 "b" (Some "full"); shop_work 6 "b" (Some "full");
   shop_work 6 "b" (Some "full"); shop_work 6 "b" (Some "full")].

Notation shop_worker := (mkEvidenceState 60000 2 [] ∅ ∅ false false 0 1 None JobFree).
Notation shop_run := (evidence_run shop_worker shop_db shop_ops).

Example evidence_accounted_witness :
  evidence_init 60000 2 = Ok shop_worker /\
  es_captured shop_run = ["a.jpg"; "a-e.jpg"; "b.jpg"; "b-e.jpg"] /\ es_removed shop_run = ["b.jpg"; "b-e.jpg"] /\
  exists r, r ∈ es_results shop_run /\ er_stored r = true /\ ("a.jpg" = er_imagePath r \/ "a.jpg" = er_enhancedImagePath r).
Proof.
  assert (Hi : evidence_init 60000 2 = Ok shop_worker) by reflexivity.
  split; [exact Hi|]. split; [vm_compute; reflexivity|]. split; [vm_compute; reflexivity|].
  destruct (proj1 (proj2 (proj2 (evidence_accounted 60000 2 shop_worker shop_db shop_ops 1 OccupancyStart "a.jpg" Hi))))
    as [Hr | Hr]; [apply (bool_decide_unpack _); vm_compute; exact I| |exact Hr].
  exfalso. revert Hr. apply (bool_decide_unpack _). vm_compute. exact I.
Defined.

(** The stored ten minutes win over the default of an hour; then five minutes are set, once with a failing disk. *)
Notation shop_threshold := (mkThresholdState 3600 600 1 true true).
Notation shop_worker600 := (mkEvidenceState 600000 2 [] ∅ ∅ false false 0 1 None JobFree).
Definition shop_at : Instant := mkInstant 0 1709251200000000000.
Definition shop_history : list RuntimeOp :=
  [RtTimers OvStart; RtEvidence EvStart; RtEvidence (EvSchedule 0 shop_request);
   RtUpdate true shop_at 120; RtUpdate false shop_at 300; RtEvidence (shop_work 1 "a" None)].
Notation shop_runtime :=
  (foldl runtime_step (mkRuntime shop_threshold shop_worker600 (overstay_start shop_db (600 * 1000))) shop_history).

Example threshold_everywhere_witness :
  th_seconds (rt_threshold shop_runtime) = 300 /\
  ov_timeout (rt_overstay shop_runtime) = 300 * 1000 /\ ew_delay (rt_evidence shop_runtime) = 300 * 1000.
Proof.
  assert (Ho : pd_open shop_db = true) by (vm_compute; reflexivity).
  assert (Hi : th_initialize false (th_init 3600) shop_db = (true, shop_threshold, shop_db)) by (vm_compute; reflexivity).
  assert (Hw : evidence_init (600 * 1000) 2 = Ok shop_worker600) by reflexivity.
  assert (Hops : Forall other_op shop_history) by (repeat constructor; simpl; intros; discriminate).
  assert (Hs : th_seconds (rt_threshold shop_runtime) = 300) by (vm_compute; reflexivity).
  split; [exact Hs|].
  destruct (proj2 (proj2 (threshold_everywhere 3600 2 shop_db shop_threshold shop_db shop_worker600 shop_history Ho Hi Hw Hops)))
    as [H1 H2]; [vm_compute; reflexivity|].
  split; [exact (eq_trans H1 (f_equal (fun z => z * 1000) Hs))|exact (eq_trans H2 (f_equal (fun z => z * 1000) Hs))].
Defined.
