(* ===== verification/Doubles.v ===== *)
(** The doubles of the source: IEEE 754 binary64, with the operations that the source uses, computed by the
    Standard Library's SpecFloat. A NaN compares false with everything, as in C++. *)
From Stdlib Require Export SpecFloat.
From S2P Require Import Prelude.

Notation double := spec_float.

Definition d_add (x y : double) : double := SFadd 53 1024 x y.
Definition d_sub (x y : double) : double := SFsub 53 1024 x y.
Definition d_lt (x y : double) : bool := SFltb x y.
Definition d_le (x y : double) : bool := SFleb x y.
Definition d_abs (x : double) : double := SFabs x.
Definition d_is_finite (x : double) : bool := match x with S754_zero _ | S754_finite _ _ _ => true | _ => false end.
Definition d_is_nan (x : double) : bool := match x with S754_nan => true | _ => false end.

Definition d_zero : double := S754_zero false.
Definition d_one : double := S754_finite false 4503599627370496 (-52).
(** An integer, and a decimal fraction [m / 10 ^ k] for m below 2^53 and k at most 22, where one
    correctly rounded division of exact operands is the literal of the compiler. *)
Definition d_of_Z (z : Z) : double := binary_normalize 53 1024 z 0 false.
Definition d_literal (m : Z) (k : Z) : double := SFdiv 53 1024 (d_of_Z m) (d_of_Z (10 ^ k)).

Example d_literal_005 : d_literal 5 2 = S754_finite false 7205759403792794 (-57).
Proof. reflexivity. Qed.
