(* ===== verification/EntranceDb.v ===== *)
(** The recognitions at the entrance and the plates of parking sessions:
    [src/database/EventDatabaseEntrance.cpp] over the table ENTRANCE_RECOGNITION and the tables of ParkingDb. The
    current second of the database, in milliseconds, and the identifier that SQLite gives to
    a new vehicle are arguments. Columns that are written and never read (vehicle class at
    the registration, source and reason of the decision, model version, processing time, vision
    error, time of the deletion) are left out. *)
From Stdlib Require Import QArith Qabs.
From stdpp Require Import sorting.
From S2P Require Import Prelude LoRa OccupancyDb Doubles Plate ParkingDb.
Open Scope Z_scope.

(** [julianday] of a stored time, as milliseconds of the epoch, and [std::to_string] of numbers. *)
Class EntranceSql := {
  sql_julian_ms : string -> option Z;
  score_text : Q -> string;
  double_text : double -> string
}.

(** * Tables *)

(** The states of a recognition and of its files. *)
Inductive RecognitionState := RCollecting | ROcrQueued | ROcrProcessing | RCompleted | RFailed.
Inductive ArtifactState := AWorking | ADeletePending | ARetainedFailure | ADeleted.
#[global] Instance RecognitionState_eq_dec : EqDecision RecognitionState.
Proof. solve_decision. Defined.
#[global] Instance ArtifactState_eq_dec : EqDecision ArtifactState.
Proof. solve_decision. Defined.

Definition recognition_text (s : RecognitionState) : string :=
  match s with
  | RCollecting => "COLLECTING" | ROcrQueued => "OCR_QUEUED" | ROcrProcessing => "OCR_PROCESSING"
  | RCompleted => "COMPLETED" | RFailed => "FAILED"
  end.

Record RecognitionRow := mkRecognitionRow {
  rr_camera : string;
  rr_channel : string;
  rr_object : string;
  rr_state : RecognitionState;
  rr_vehicle_image : option string;
  rr_plate_image : option string;
  rr_vision_is_ev : option bool;
  rr_vision_decision : string;
  rr_vision_result_path : option string;
  rr_vehicle_id : option Z;
  rr_plate_number : option string;
  rr_classification : option string;
  rr_resolved_is_ev : option bool;
  rr_artifact_state : ArtifactState;
  rr_confidence : option double;
  rr_ocr_attempts : Z;
  rr_last_error : string;
  rr_first_seen : Z;
  rr_updated_at : Z;
  rr_completed_at : option Z;
  rr_duplicate_count : Z
}.

Record EntranceDb := mkEntranceDb {
  ed_parking : ParkingDb;
  ed_events : gmap Z RecognitionRow;
  ed_event_seq : Z
}.
Definition ed_set_parking (d : EntranceDb) p := mkEntranceDb p (ed_events d) (ed_event_seq d).
Definition ed_set_events (d : EntranceDb) m := mkEntranceDb (ed_parking d) m (ed_event_seq d).

(** UPDATE ... WHERE entrance_event_id = id, and whether it hit a row. *)
Definition update_event (id : Z) (f : RecognitionRow -> RecognitionRow) (d : EntranceDb) : bool * EntranceDb :=
  match ed_events d !! id with
  | Some r => (true, ed_set_events d (<[id := f r]> (ed_events d)))
  | None => (false, d)
  end.

(** A double in a column: SQLite stores NULL for a NaN. *)
Definition bind_real (x : double) : option double := if d_is_nan x then None else Some x.

(** * Recognitions *)

(** [src/database/EventDatabaseEntrance.cpp:73-96 EventDatabase::createEntranceRecognition] *)
Definition createEntranceRecognition (camera_id channel_id object_id : string) (first_seen : Z) (d : EntranceDb)
    : Z * EntranceDb :=
  if negb (pd_open (ed_parking d)) || is_empty camera_id || is_empty channel_id || is_empty object_id
  then (-1, d) else
  let id := ed_event_seq d + 1 in
  (id, mkEntranceDb (ed_parking d)
         (<[id := mkRecognitionRow camera_id channel_id object_id RCollecting None None None "NOT_RUN" None None None
                    None None AWorking None 0 "" first_seen first_seen None 0]> (ed_events d)) id).

Definition with_image (plate : bool) (path : string) (now : Z) (r : RecognitionRow) : RecognitionRow :=
  mkRecognitionRow (rr_camera r) (rr_channel r) (rr_object r) (rr_state r)
    (if plate then rr_vehicle_image r else Some path) (if plate then Some path else rr_plate_image r)
    (rr_vision_is_ev r) (rr_vision_decision r) (rr_vision_result_path r) (rr_vehicle_id r) (rr_plate_number r)
    (rr_classification r) (rr_resolved_is_ev r) (rr_artifact_state r) (rr_confidence r) (rr_ocr_attempts r)
    (rr_last_error r) (rr_first_seen r) now (rr_completed_at r) (rr_duplicate_count r).

(** [src/database/EventDatabaseEntrance.cpp:98-122 EventDatabase::updateEntranceImage] *)
Definition updateEntranceImage (now event_id : Z) (plate : bool) (image_path : string) (d : EntranceDb)
    : bool * EntranceDb :=
  if negb (pd_open (ed_parking d)) || (event_id <? 0) || is_empty image_path then (false, d) else
  update_event event_id (with_image plate image_path now) d.

(** [include/database/EventDatabase.hpp:91-99 EntranceVisionAnalysis] *)
Record EntranceVisionAnalysis := mkEntranceVisionAnalysis {
  va_is_ev : option bool;
  va_decision : string;
  va_reason : string;
  va_model_version : string;
  va_processing_ms : double;
  va_result_path : string;
  va_error : string
}.

(** [src/database/EventDatabaseEntrance.cpp:129-132 EventDatabase::updateEntranceVisionAnalysis] *)
Definition valid_decision (a : EntranceVisionAnalysis) : bool :=
  bool_decide (va_decision a = "EV_CANDIDATE" /\ va_is_ev a = Some true) ||
  bool_decide (va_decision a = "NON_EV_CANDIDATE" /\ va_is_ev a = Some false) ||
  bool_decide (va_decision a = "REVIEW" /\ va_is_ev a = None).

Definition with_vision (a : EntranceVisionAnalysis) (now : Z) (r : RecognitionRow) : RecognitionRow :=
  mkRecognitionRow (rr_camera r) (rr_channel r) (rr_object r) ROcrQueued (rr_vehicle_image r) (rr_plate_image r)
    (va_is_ev a) (va_decision a) (if is_empty (va_result_path a) then None else Some (va_result_path a))
    (rr_vehicle_id r) (rr_plate_number r) (rr_classification r) (rr_resolved_is_ev r) (rr_artifact_state r)
    (rr_confidence r) (rr_ocr_attempts r) (rr_last_error r) (rr_first_seen r) now (rr_completed_at r)
    (rr_duplicate_count r).

(** [src/database/EventDatabaseEntrance.cpp:124-166 EventDatabase::updateEntranceVisionAnalysis] *)
Definition updateEntranceVisionAnalysis (now event_id : Z) (analysis : EntranceVisionAnalysis) (d : EntranceDb)
    : bool * EntranceDb :=
  if negb (pd_open (ed_parking d)) || (event_id <? 0) || d_lt (va_processing_ms analysis) d_zero then (false, d) else
  if negb (valid_decision analysis) then (false, d) else
  update_event event_id (with_vision analysis now) d.

Definition with_failure (plate : option string) (confidence : double) (attempts : Z) (error : string) (now : Z)
    (r : RecognitionRow) : RecognitionRow :=
  mkRecognitionRow (rr_camera r) (rr_channel r) (rr_object r) RFailed (rr_vehicle_image r) (rr_plate_image r)
    (rr_vision_is_ev r) (rr_vision_decision r) (rr_vision_result_path r) (rr_vehicle_id r)
    (match plate with Some p => Some p | None => rr_plate_number r end) (rr_classification r) (rr_resolved_is_ev r)
    ARetainedFailure (bind_real confidence) attempts error (rr_first_seen r) now (Some now)
    (rr_duplicate_count r).
Definition with_completion (vehicle : Z) (plate classification : string) (is_ev : bool) (confidence : double)
    (attempts : Z) (error : string) (now : Z) (r : RecognitionRow) : RecognitionRow :=
  mkRecognitionRow (rr_camera r) (rr_channel r) (rr_object r) RCompleted (rr_vehicle_image r) (rr_plate_image r)
    (rr_vision_is_ev r) (rr_vision_decision r) (rr_vision_result_path r) (Some vehicle) (Some plate)
    (Some classification) (Some is_ev) ADeletePending (bind_real confidence) attempts error (rr_first_seen r) now
    (Some now) (rr_duplicate_count r).

Definition pd_set_vehicles (d : ParkingDb) x := mkParkingDb (pd_open d) x (pd_slots d) (pd_sessions d)
  (pd_session_seq d) (pd_images d) (pd_events d) (pd_settings d).

(** INSERT INTO VEHICLE ... ON CONFLICT(plate_number) DO UPDATE SET is_ev. *)
Definition upsert_vehicle (new_id : Z) (plate : string) (is_ev : bool) (p : ParkingDb) : Z * ParkingDb :=
  let id := match pd_vehicles p !! plate with Some v => ve_id v | None => new_id end in
  (id, pd_set_vehicles p (<[plate := mkVehicleRow id is_ev]> (pd_vehicles p))).

Definition class_text (is_ev : bool) : string := if is_ev then "EV" else "NON_EV".

(** [src/database/EventDatabaseEntrance.cpp:168-273 EventDatabase::finishEntranceRecognition] *)
Definition finishEntranceRecognition (now new_vehicle event_id : Z) (plate_number : string) (confidence : double)
    (attempts : Z) (error : string) (d : EntranceDb) : string * EntranceDb :=
  if negb (pd_open (ed_parking d)) || (event_id <? 0) then ("DB_ERROR", d) else
  let or_rollback (answer : string) (r : bool * EntranceDb) :=
    if r.1 then (answer, r.2) else ("DB_ERROR", d) in
  if is_empty plate_number
  then or_rollback "OCR_FAILED" (update_event event_id (with_failure None confidence attempts error now) d) else
  match ed_events d !! event_id with
  | None => ("DB_ERROR", d)
  | Some r =>
      match rr_vision_is_ev r with
      | None =>
          or_rollback "EV_FAILED"
            (update_event event_id
               (with_failure (Some plate_number) confidence attempts "EV icon decision unavailable" now) d)
      | Some is_ev =>
          let '(vehicle, p) := upsert_vehicle new_vehicle plate_number is_ev (ed_parking d) in
          or_rollback (class_text is_ev)
            (update_event event_id
               (with_completion vehicle plate_number (class_text is_ev) is_ev confidence attempts error now)
               (ed_set_parking d p))
      end
  end.

(** * Plates of parking sessions *)

(** [include/database/EventDatabase.hpp:102-111 ParkingPlateResolution] *)
Record ParkingPlateResolution := mkResolution {
  pr_persisted : bool;
  pr_observed_plate : string;
  pr_canonical_plate : string;
  pr_classification : string;
  pr_source : string;
  pr_match_score : Q;
  pr_entrance_event_id : Z;
  pr_vehicle_id : Z
}.
Definition no_resolution (plate : string) : ParkingPlateResolution :=
  mkResolution false plate plate "OCR_FAILED" "UNRESOLVED" 0 (-1) (-1).

(** [src/database/EventDatabaseEntrance.cpp:59-67 EntranceCandidate] *)
Record EntranceCandidate := mkEntranceCandidate {
  ec_eventId : Z;
  ec_vehicleId : Z;
  ec_plate : string;
  ec_isEv : bool;
  ec_confidence : double;
  ec_firstSeenEpochMs : Z;
  ec_similarity : PlateSimilarity
}.

(** A row as a candidate; a column that is NULL reads as zero, or as an empty text. *)
Definition candidate_of (observed : string) (id : Z) (r : RecognitionRow) : EntranceCandidate :=
  let plate := default "" (rr_plate_number r) in
  mkEntranceCandidate id (default 0 (rr_vehicle_id r)) plate (default false (rr_resolved_is_ev r))
    (default d_zero (rr_confidence r)) (rr_first_seen r)
    (comparePlateNumbers (bytes_of_string observed) (bytes_of_string plate)).

(** [src/database/EventDatabaseEntrance.cpp:350-355 EventDatabase::applyPlateOcrWithEntrance] The WHERE of the candidates. *)
Definition eligible (session_id entry_ms window : Z) (min_confidence : double) (p : ParkingDb) (id : Z)
    (r : RecognitionRow) : bool :=
  bool_decide (rr_state r = RCompleted) && bool_decide (is_Some (rr_vehicle_id r)) &&
  bool_decide (is_Some (rr_resolved_is_ev r)) &&
  match rr_confidence r, bind_real min_confidence with Some c, Some m => d_le m c | _, _ => false end &&
  (entry_ms - window <=? rr_first_seen r) && (rr_first_seen r <=? entry_ms) &&
  negb (existsb (fun kv => bool_decide (pk_entrance_event kv.2 = Some id) && negb (kv.1 =? session_id))
          (map_to_list (pd_sessions p))).

(** ORDER BY first_seen_epoch_ms DESC. *)
Definition newer (a b : Z * RecognitionRow) : bool := rr_first_seen b.2 <=? rr_first_seen a.2.
Definition list_candidates (observed : string) (session_id entry_ms window : Z) (min_confidence : double)
    (d : EntranceDb) : list EntranceCandidate :=
  (fun kv => candidate_of observed kv.1 kv.2) <$>
  sort_rows newer (List.filter (fun kv => eligible session_id entry_ms window min_confidence (ed_parking d) kv.1 kv.2)
                     (map_to_list (ed_events d))).

Definition score_of (c : EntranceCandidate) : Q := ps_score (ec_similarity c).
Definition tolerance : Q := 1 # 1000000.
Definition Qlt_bool (x y : Q) : bool := negb (Qle_bool y x).
Definition same_car (c s : EntranceCandidate) : bool :=
  (ec_vehicleId c =? ec_vehicleId s) && bool_decide (ec_plate c = ec_plate s).
(** The confidences are closer than 0.05. *)
Definition rivals (c s : EntranceCandidate) : bool :=
  negb (d_le (d_literal 5 2) (d_abs (d_sub (ec_confidence c) (ec_confidence s)))).

(** [src/database/EventDatabaseEntrance.cpp:375-403 EventDatabase::applyPlateOcrWithEntrance] One row of the loop. *)
Definition consider (st : option EntranceCandidate * bool) (c : EntranceCandidate)
    : option EntranceCandidate * bool :=
  if negb (ps_comparable (ec_similarity c)) then st else
  match st with
  | (None, _) => (Some c, false)
  | (Some s, ambiguous) =>
      if Qlt_bool (score_of s + tolerance) (score_of c) then (Some c, false) else
      if Qlt_bool tolerance (Qabs.Qabs (score_of c - score_of s)) then st else
      if same_car c s
      then (Some (if ec_firstSeenEpochMs s <? ec_firstSeenEpochMs c then c else s), ambiguous) else
      if negb (rivals c s)
      then (Some (if d_lt d_zero (d_sub (ec_confidence c) (ec_confidence s)) then c else s), false)
      else (Some s, true)
  end.
Definition select_candidate (cs : list EntranceCandidate) : option EntranceCandidate :=
  let '(selected, ambiguous) := foldl consider (None, false) cs in
  if ambiguous then None else selected.

Section Apply.
Context `{EntranceSql}.

(** [COALESCE(entry_time_epoch_ms, julianday ...)], zero when both are NULL. *)
Definition entry_epoch_ms (r : ParkingRow) : Z :=
  match pk_entry_ms r with
  | Some ms => ms
  | None => default 0 (sql_julian_ms (pk_entry_time r))
  end.

(** [src/database/EventDatabaseEntrance.cpp:324-406 EventDatabase::applyPlateOcrWithEntrance] The candidate: the one that the session has already, or the best one. *)
Definition choose_candidate (session_id : Z) (plate : string) (window : Z) (min_confidence : double)
    (row : ParkingRow) (d : EntranceDb) : option EntranceCandidate :=
  let existing := default (-1) (pk_entrance_event row) in
  if 0 <=? existing then
    match ed_events d !! existing with
    | Some r => if bool_decide (rr_state r = RCompleted) then Some (candidate_of plate existing r) else None
    | None => None
    end
  else select_candidate (list_candidates plate session_id (entry_epoch_ms row) window min_confidence d).

(** [src/database/EventDatabaseEntrance.cpp:408-440 EventDatabase::applyPlateOcrWithEntrance] What the candidate, or else the table of vehicles, says of the plate. *)
Definition resolve_plate (plate : string) (row : ParkingRow) (selected : option EntranceCandidate) (p : ParkingDb)
    : ParkingPlateResolution :=
  match selected with
  | Some c =>
      let keeps := (0 <=? default (-1) (pk_entrance_event row)) &&
                   (bool_decide (pk_resolution_source row = "ENTRANCE_EXACT") ||
                    bool_decide (pk_resolution_source row = "ENTRANCE_FUZZY")) in
      mkResolution false plate (ec_plate c) (class_text (ec_isEv c))
        (if keeps then pk_resolution_source row
         else if ps_exact (ec_similarity c) then "ENTRANCE_EXACT" else "ENTRANCE_FUZZY")
        (if keeps then default 0%Q (pk_match_score row)
         else if ps_comparable (ec_similarity c) then score_of c else 1%Q)
        (ec_eventId c) (ec_vehicleId c)
  | None =>
      match pd_vehicles p !! plate with
      | Some v => mkResolution false plate plate (class_text (ve_is_ev v)) "VEHICLE_EXACT" 1 (-1) (ve_id v)
      | None => mkResolution false plate plate "UNKNOWN" "UNRESOLVED" 0 (-1) (-1)
      end
  end.

Definition positive_id (id : Z) : option Z := if 0 <=? id then Some id else None.

Definition with_resolution (r : ParkingPlateResolution) (row : ParkingRow) : ParkingRow :=
  mkParkingRow (positive_id (pr_vehicle_id r)) (pk_slot_id row) (Some (pr_canonical_plate r))
    (Some (pr_observed_plate r)) (positive_id (pr_entrance_event_id r)) (Some (pr_match_score r)) (pr_source r)
    (pk_entry_time row) (pk_entry_ms row) (pk_violation_at row) (pk_exit_time row) (pk_duration_sec row)
    (pk_status row).

(** [src/database/EventDatabaseEntrance.cpp:443-462 EventDatabase::applyPlateOcrWithEntrance] UPDATE PARKING_SESSION: vehicle and recognition must exist, and no other session may have the
    recognition. *)
Definition update_resolution (session_id : Z) (r : ParkingPlateResolution) (row : ParkingRow) (d : EntranceDb)
    (p : ParkingDb) : result store_error ParkingDb :=
  let vehicle_ok := match positive_id (pr_vehicle_id r) with
                    | Some id => existsb (fun kv => ve_id kv.2 =? id) (map_to_list (pd_vehicles p))
                    | None => true end in
  let event_ok := match positive_id (pr_entrance_event_id r) with
                  | Some id => bool_decide (is_Some (ed_events d !! id)) &&
                      negb (existsb (fun kv => bool_decide (pk_entrance_event kv.2 = Some id) &&
                                               negb (kv.1 =? session_id)) (map_to_list (pd_sessions p)))
                  | None => true end in
  if vehicle_ok && event_ok
  then Ok (pd_set_sessions p (<[session_id := with_resolution r row]> (pd_sessions p))) else Err sql_error.

Definition ocr_on_image (path plate : string) (i : ImageRow) : ImageRow :=
  if bool_decide (im_original i = Some path)
  then mkImageRow (im_session i) (im_original i) (im_enhanced i) (im_type i) (im_reason i) (Some plate) else i.

Definition resolution_message (r : ParkingPlateResolution) (confidence : double) (image_path : string) : string :=
  "observed=" +:+ pr_observed_plate r +:+ " canonical=" +:+ pr_canonical_plate r +:+
  " classification=" +:+ pr_classification r +:+ " source=" +:+ pr_source r +:+
  " score=" +:+ score_text (pr_match_score r) +:+ " confidence=" +:+ double_text confidence +:+
  " image=" +:+ image_path.

Definition with_class (r : ParkingPlateResolution) (persisted : bool) (classification : string) :=
  mkResolution persisted (pr_observed_plate r) (pr_canonical_plate r) classification (pr_source r)
    (pr_match_score r) (pr_entrance_event_id r) (pr_vehicle_id r).

(** [src/database/EventDatabaseEntrance.cpp:275-490 EventDatabase::applyPlateOcrWithEntrance] One transaction. *)
Definition applyPlateOcrWithEntrance (session_id : Z) (slot_id image_path plate_number : string)
    (confidence : double) (window : Z) (min_confidence : double) (d : EntranceDb)
    : ParkingPlateResolution * EntranceDb :=
  let result := no_resolution plate_number in
  if (session_id <? 0) || is_empty plate_number || (window <=? 0) || d_lt min_confidence d_zero ||
     d_lt d_one min_confidence
  then (result, d) else
  if negb (pd_open (ed_parking d)) then (result, d) else
  let p := if is_empty image_path then ed_parking d else
           pd_set_images (ed_parking d) (ocr_on_image image_path plate_number <$> pd_images (ed_parking d)) in
  match pd_sessions p !! session_id with
  | Some row =>
      if bool_decide (pk_exit_time row = None) then
        let selected := choose_candidate session_id plate_number window min_confidence row (ed_set_parking d p) in
        let r := resolve_plate plate_number row selected p in
        let written :=
          let? p1 := update_resolution session_id r row d p in
          insert_event (mkEventRow (Some session_id) (null_if_empty slot_id)
                          ("PLATE_OCR_" +:+ pr_classification r) (resolution_message r confidence image_path)) p1 in
        match written with
        | Ok p2 => (with_class r true (pr_classification r), ed_set_parking d p2)
        | Err _ => (with_class r false "DB_ERROR", d)
        end
      else (with_class result false "DB_ERROR", d)
  | None => (with_class result false "DB_ERROR", d)
  end.

(** [src/database/EventDatabase.cpp:227-236 EventDatabase::applyPlateOcr] *)
Definition applyPlateOcr (session_id : Z) (slot_id image_path plate_number : string) (confidence : double)
    (d : EntranceDb) : string * EntranceDb :=
  let '(r, d') := applyPlateOcrWithEntrance session_id slot_id image_path plate_number confidence
                    (30 * 60 * 1000) (d_literal 85 2) d in
  (pr_classification r, d').
End Apply.

(** * Files *)

(** [src/database/EventDatabaseEntrance.cpp:492-510 EventDatabase::incrementEntranceDuplicateCount] *)
Definition incrementEntranceDuplicateCount (now event_id : Z) (d : EntranceDb) : bool * EntranceDb :=
  if negb (pd_open (ed_parking d)) || (event_id <? 0) then (false, d) else
  update_event event_id
    (fun r => mkRecognitionRow (rr_camera r) (rr_channel r) (rr_object r) (rr_state r) (rr_vehicle_image r)
       (rr_plate_image r) (rr_vision_is_ev r) (rr_vision_decision r) (rr_vision_result_path r) (rr_vehicle_id r)
       (rr_plate_number r) (rr_classification r) (rr_resolved_is_ev r) (rr_artifact_state r) (rr_confidence r)
       (rr_ocr_attempts r) (rr_last_error r) (rr_first_seen r) now (rr_completed_at r) (rr_duplicate_count r + 1)) d.

Definition unfinished (s : RecognitionState) : bool :=
  match s with RCollecting | ROcrQueued | ROcrProcessing => true | _ => false end.

Definition with_deletion (now : Z) (r : RecognitionRow) : RecognitionRow :=
  mkRecognitionRow (rr_camera r) (rr_channel r) (rr_object r) (if unfinished (rr_state r) then RFailed else rr_state r)
    None None (rr_vision_is_ev r) (rr_vision_decision r) None (rr_vehicle_id r) (rr_plate_number r)
    (rr_classification r) (rr_resolved_is_ev r) ADeleted (rr_confidence r) (rr_ocr_attempts r)
    (if unfinished (rr_state r) && is_empty (rr_last_error r)
     then "stale entrance artifacts cleaned after retention" else rr_last_error r)
    (rr_first_seen r) now (Some (default now (rr_completed_at r))) (rr_duplicate_count r).

(** [src/database/EventDatabaseEntrance.cpp:512-542 EventDatabase::markEntranceArtifactsDeleted] *)
Definition markEntranceArtifactsDeleted (now event_id : Z) (d : EntranceDb) : bool * EntranceDb :=
  if negb (pd_open (ed_parking d)) || (event_id <? 0) then (false, d) else
  update_event event_id (with_deletion now) d.

(** [include/database/EventDatabase.hpp:114-119 EntranceArtifactRecord] *)
Record EntranceArtifactRecord := mkEntranceArtifactRecord {
  ar_event_id : Z;
  ar_terminal_state : string;
  ar_plate_image_path : string;
  ar_vision_result_path : string
}.

Definition due_for_cleanup (before : Z) (r : RecognitionRow) : bool :=
  match rr_artifact_state r with
  | ADeletePending => true
  | ARetainedFailure => match rr_completed_at r with Some t => t <=? before | None => false end
  | AWorking => rr_updated_at r <=? before
  | ADeleted => false
  end.

(** [src/database/EventDatabaseEntrance.cpp:544-574 EventDatabase::listEntranceArtifactsForCleanup] *)
Definition listEntranceArtifactsForCleanup (failed_before : Z) (d : EntranceDb) : list EntranceArtifactRecord :=
  if negb (pd_open (ed_parking d)) then [] else
  take 100
    ((fun kv => mkEntranceArtifactRecord kv.1 (recognition_text (rr_state kv.2)) (default "" (rr_plate_image kv.2))
                  (default "" (rr_vision_result_path kv.2))) <$>
     sort_rows (fun a b => a.1 <=? b.1)
       (List.filter (fun kv => due_for_cleanup failed_before kv.2) (map_to_list (ed_events d)))).
