(* ===== verification/EntrancePlates.v ===== *)
(** The plates of parking sessions: the candidate that the plate matching chooses, and the
    invariant of recognitions and sessions over every history of the operations of EntranceDb and of
    the other writers. *)
From Stdlib Require Import QArith Qabs Lqa.
From S2P Require Import Prelude LoRa OccupancyDb Doubles Plate ParkingDb EntranceDb.
Open Scope Z_scope.

(** * Scores *)

(** The scores of two comparable candidates for one observed plate are equal or far apart. *)
Definition apart (x y : Q) : Prop := (x + tolerance < y)%Q \/ (x == y)%Q \/ (y + tolerance < x)%Q.

Lemma comparable_score observed plate :
  ps_comparable (comparePlateNumbers observed plate) = true ->
  exists len k, decodeUtf8 observed = Some len /\ (7 <= length len <= 10)%nat /\ (k <= 1)%nat /\
    ps_score (comparePlateNumbers observed plate) = mismatch_score k (length len).
Proof.
  unfold comparePlateNumbers. destruct (decodeUtf8 observed) as [lhs|]; [|done].
  destruct (decodeUtf8 plate) as [rhs|]; [|done].
  destruct (length lhs =? length rhs)%nat; simpl; [|done].
  destruct (plausiblePlateShape lhs) eqn:Hp; simpl; [|done]. destruct (plausiblePlateShape rhs); simpl; [|done].
  assert (Hl : (7 <= length lhs <= 10)%nat).
  { unfold plausiblePlateShape in Hp. destruct (_ || _) eqn:Hb; [done|].
    apply orb_false_elim in Hb as [H1 H2]. apply Nat.ltb_ge in H1, H2. lia. }
  destruct (Nat.eqb_spec (mismatches lhs rhs) 0) as [H0|H0]; simpl.
  { intros _. exists lhs, 0%nat. rewrite H0. repeat split; lia. }
  destruct (Nat.eqb_spec (mismatches lhs rhs) 1) as [H1|H1]; simpl; [|done].
  destruct (length lhs <? 4)%nat; [done|]. destruct (same_digit_suffix lhs rhs); [|done].
  intros _. exists lhs, 1%nat. simpl. rewrite H1. repeat split; lia.
Qed.

Lemma mismatch_scores_apart len j k :
  (7 <= len <= 10)%nat -> (j <= 1)%nat -> (k <= 1)%nat ->
  apart (mismatch_score j len) (mismatch_score k len).
Proof.
  intros Hl Hj Hk.
  assert (Hlen : len = 7%nat \/ len = 8%nat \/ len = 9%nat \/ len = 10%nat) by lia.
  assert (Hj' : j = 0%nat \/ j = 1%nat) by lia. assert (Hk' : k = 0%nat \/ k = 1%nat) by lia.
  unfold apart. destruct Hlen as [-> | [-> | [-> | ->]]], Hj' as [-> | ->], Hk' as [-> | ->];
    first [left; reflexivity | right; left; reflexivity | right; right; reflexivity].
Qed.

Lemma scores_apart observed p q :
  ps_comparable (comparePlateNumbers observed p) = true -> ps_comparable (comparePlateNumbers observed q) = true ->
  apart (ps_score (comparePlateNumbers observed p)) (ps_score (comparePlateNumbers observed q)).
Proof.
  intros (l & j & Hl & Hlen & Hj & ->)%comparable_score (l' & k & Hl' & _ & Hk & ->)%comparable_score.
  rewrite Hl in Hl'. injection Hl' as <-. by apply mismatch_scores_apart.
Qed.

Lemma Qlt_bool_spec x y : Qlt_bool x y = true <-> (x < y)%Q.
Proof.
  unfold Qlt_bool. destruct (Qle_bool y x) eqn:H; simpl.
  - apply Qle_bool_iff in H. split; [done|]. intros H1. exfalso. by apply Qlt_not_le in H1.
  - split; [|done]. intros _. apply Qnot_le_lt. intros H1. apply Qle_bool_iff in H1. congruence.
Qed.

(** * The choice *)

Definition observed_as (plate : string) (c : EntranceCandidate) : Prop :=
  ec_similarity c = comparePlateNumbers (bytes_of_string plate) (bytes_of_string (ec_plate c)).
Definition comparable (c : EntranceCandidate) : Prop := ps_comparable (ec_similarity c) = true.
Definition top (cs : list EntranceCandidate) (c : EntranceCandidate) : Prop :=
  c ∈ cs /\ comparable c /\ forall x, x ∈ cs -> comparable x -> (score_of x <= score_of c)%Q.

(** What the loop knows after the rows [cs]. *)
Definition chosen (cs : list EntranceCandidate) (st : option EntranceCandidate * bool) : Prop :=
  match st with
  | (None, ambiguous) => ambiguous = false /\ forall x, x ∈ cs -> ~ comparable x
  | (Some s, ambiguous) =>
      top cs s /\
      (ambiguous = true -> exists a b, top cs a /\ top cs b /\ same_car a b = false /\ rivals a b = true)
  end.

Lemma top_snoc cs c s : top cs s -> (comparable c -> (score_of c <= score_of s)%Q) -> top (cs ++ [c]) s.
Proof.
  intros (H1 & H2 & H3) Hc. split; [apply elem_of_app; by left|]. split; [done|].
  intros x [Hx | ->%list_elem_of_singleton]%elem_of_app Hcx; [by apply H3|by apply Hc].
Qed.
Lemma top_last cs c s : top cs s -> comparable c -> (score_of s <= score_of c)%Q -> top (cs ++ [c]) c.
Proof.
  intros (H1 & H2 & H3) Hc Hle. split; [apply elem_of_app; right; by apply list_elem_of_singleton|].
  split; [done|]. intros x [Hx | ->%list_elem_of_singleton]%elem_of_app Hcx; [|apply Qle_refl].
  eapply Qle_trans; [by apply H3|done].
Qed.

(** Without ambiguity before, or with the pair of before, when the score of the row does not change the top. *)
Lemma pair_snoc cs c s (P : EntranceCandidate -> EntranceCandidate -> Prop) :
  (score_of c <= score_of s)%Q -> top cs s ->
  (exists a b, top cs a /\ top cs b /\ P a b) ->
  exists a b, top (cs ++ [c]) a /\ top (cs ++ [c]) b /\ P a b.
Proof.
  intros Hle (Hs & Hcs & _) (a & b & Ha & Hb & HP). exists a, b.
  assert (Hup : forall x, top cs x -> top (cs ++ [c]) x).
  { intros x Hx. apply top_snoc; [done|]. intros _. eapply Qle_trans; [exact Hle|]. by apply Hx. }
  split; [by apply Hup|]. split; [by apply Hup|done].
Qed.

Lemma consider_chosen plate cs st c :
  (forall x, x ∈ cs -> observed_as plate x) -> observed_as plate c ->
  chosen cs st -> chosen (cs ++ [c]) (consider st c).
Proof.
  intros Hcs Hc. unfold consider. destruct st as [[s|] ambiguous]; cbn [chosen].
  - intros [Ht Ha]. destruct (ps_comparable (ec_similarity c)) eqn:Hcc; cbn [negb chosen].
    2: { split; [by apply top_snoc; [|intros H; unfold comparable in H; congruence]|].
         intros Hamb. destruct (Ha Hamb) as (a & b & H1 & H2 & H3). exists a, b.
         split; [apply top_snoc; [done|intros H; unfold comparable in H; congruence]|].
         split; [apply top_snoc; [done|intros H; unfold comparable in H; congruence]|done]. }
    pose proof Ht as (Hs & Hsc & _).
    assert (Hap : apart (score_of s) (score_of c)).
    { unfold score_of. rewrite (Hcs s Hs), Hc. apply scores_apart; [by rewrite <- (Hcs s Hs)|by rewrite <- Hc]. }
    destruct (Qlt_bool (score_of s + tolerance) (score_of c)) eqn:Hhi.
    { apply Qlt_bool_spec in Hhi. cbn [chosen]. split; [|done]. apply (top_last _ _ s); [done|done|].
      apply Qlt_le_weak. eapply Qle_lt_trans; [|exact Hhi]. unfold tolerance. lra. }
    assert (Hle : (score_of c <= score_of s)%Q).
    { destruct Hap as [Hlt | [Heq | Hgt]]; [|by rewrite Heq; apply Qle_refl|].
      - apply Qlt_bool_spec in Hlt. congruence.
      - unfold tolerance in Hgt. lra. }
    destruct (Qlt_bool tolerance (Qabs (score_of c - score_of s))) eqn:Hfar.
    { cbn [chosen]. split; [exact (top_snoc cs c s Ht (fun _ => Hle))|]. intros Hamb. apply (pair_snoc _ _ s); auto. }
    assert (Heq : (score_of s <= score_of c)%Q).
    { destruct Hap as [Hlt | [Heq | Hgt]]; [unfold tolerance in Hlt; lra|by rewrite Heq; apply Qle_refl|].
      exfalso. assert (Hb : Qlt_bool tolerance (Qabs (score_of c - score_of s)) = true); [|congruence].
      apply Qlt_bool_spec. rewrite Qabs_Qminus. rewrite Qabs_pos; unfold tolerance in *; lra. }
    pose proof (top_snoc cs c s Ht (fun _ => Hle)) as Hts. pose proof (top_last cs c s Ht Hcc Heq) as Htc.
    destruct (same_car c s) eqn:Hcar.
    { cbn [chosen]. split; [by destruct (_ <? _)|]. intros Hamb. apply (pair_snoc _ _ s); auto. }
    destruct (rivals c s) eqn:Hr; cbn [negb].
    { cbn [chosen]. split; [done|]. intros _. by exists c, s. }
    cbn [chosen]. split; [by destruct (d_lt _ _)|done].
  - intros [-> Hno]. destruct (ps_comparable (ec_similarity c)) eqn:Hcc; cbn [negb chosen].
    + split; [|done]. split; [apply elem_of_app; right; by apply list_elem_of_singleton|]. split; [done|].
      intros x [Hx | ->%list_elem_of_singleton]%elem_of_app Hcx; [by apply Hno in Hx|apply Qle_refl].
    + split; [done|]. intros x [Hx | ->%list_elem_of_singleton]%elem_of_app Hcx; [by apply (Hno x)|].
      unfold comparable in Hcx. congruence.
Qed.

Lemma select_chosen plate cs :
  (forall x, x ∈ cs -> observed_as plate x) -> chosen cs (foldl consider (None, false) cs).
Proof.
  induction cs as [|c cs IH] using rev_ind; intros Hobs.
  - split; [done|]. intros x Hx. by apply elem_of_nil in Hx.
  - rewrite foldl_app. simpl. apply (consider_chosen plate).
    + intros x Hx. apply Hobs, elem_of_app. by left.
    + apply Hobs, elem_of_app. right. by apply list_elem_of_singleton.
    + apply IH. intros x Hx. apply Hobs, elem_of_app. by left.
Qed.

Section Resolution.
Context `{EntranceSql}.

(** The recognitions that may be the car of the session: completed, sure enough, seen in the window before
    the session began, of no other session, and with a plate that compares. *)
Definition possible (session_id : Z) (plate : string) (window : Z) (min_confidence : double) (row : ParkingRow)
    (d : EntranceDb) (c : EntranceCandidate) : Prop :=
  (exists id r, ed_events d !! id = Some r /\
     eligible session_id (entry_epoch_ms row) window min_confidence (ed_parking d) id r = true /\
     c = candidate_of plate id r) /\ comparable c.

Lemma list_candidates_elem plate session_id entry_ms window min_confidence d c :
  c ∈ list_candidates plate session_id entry_ms window min_confidence d <->
  exists id r, ed_events d !! id = Some r /\
    eligible session_id entry_ms window min_confidence (ed_parking d) id r = true /\ c = candidate_of plate id r.
Proof.
  unfold list_candidates. rewrite list_elem_of_fmap. split.
  - intros ([id r] & -> & Hin). rewrite sort_rows_perm, list_elem_of_In, filter_In, <- list_elem_of_In in Hin.
    destruct Hin as [Hin He]. exists id, r. split; [by apply elem_of_map_to_list|done].
  - intros (id & r & Hr & He & ->). exists (id, r). split; [done|].
    rewrite sort_rows_perm, list_elem_of_In, filter_In, <- list_elem_of_In. split; [by apply elem_of_map_to_list|done].
Qed.

(** The choice among the possible recognitions. *)
Lemma select_candidate_spec session_id plate window min_confidence row d :
  let poss := possible session_id plate window min_confidence row d in
  let best c := poss c /\ forall x, poss x -> (score_of x <= score_of c)%Q in
  match select_candidate (list_candidates plate session_id (entry_epoch_ms row) window min_confidence d) with
  | Some c => best c
  | None => (forall c, ~ poss c) \/ exists a b, best a /\ best b /\ same_car a b = false /\ rivals a b = true
  end.
Proof.
  intros poss best. set (cs := list_candidates _ _ _ _ _ _).
  assert (Hin : forall c, poss c <-> c ∈ cs /\ comparable c) by (intros c; unfold cs; by rewrite list_candidates_elem).
  assert (Hbest : forall c, top cs c -> best c).
  { intros c (H1 & H2 & H3). split; [by apply Hin|]. intros x [Hx Hcx]%Hin. by apply H3. }
  pose proof (select_chosen plate cs) as Hch. unfold select_candidate.
  destruct (foldl consider (None, false) cs) as [[s|] ambiguous].
  - destruct Hch as [Ht Ha]; [by intros x (id & r & _ & _ & ->)%list_candidates_elem|].
    destruct ambiguous; [|by apply Hbest]. right. destruct (Ha eq_refl) as (a & b & H1 & H2 & H3).
    exists a, b. split; [by apply Hbest|]. split; [by apply Hbest|done].
  - destruct Hch as [-> Hno]; [by intros x (id & r & _ & _ & ->)%list_candidates_elem|].
    left. intros c [Hc Hcc]%Hin. by apply (Hno c).
Qed.

Lemma choose_images session_id plate window min_confidence row d images :
  choose_candidate session_id plate window min_confidence row
    (ed_set_parking d (pd_set_images (ed_parking d) images)) =
  choose_candidate session_id plate window min_confidence row d.
Proof. done. Qed.

(** What a persisted answer is made of. *)
Lemma apply_persisted session_id slot_id image_path plate confidence window min_confidence d r d' :
  applyPlateOcrWithEntrance session_id slot_id image_path plate confidence window min_confidence d = (r, d') ->
  pr_persisted r = true ->
  exists row images, pd_sessions (ed_parking d) !! session_id = Some row /\ pk_exit_time row = None /\
    let p := pd_set_images (ed_parking d) images in
    let r0 := resolve_plate plate row (choose_candidate session_id plate window min_confidence row d) (ed_parking d) in
    r = with_class r0 true (pr_classification r0) /\
    exists p1 p2 e, update_resolution session_id r0 row d p = Ok p1 /\ insert_event e p1 = Ok p2 /\
      d' = ed_set_parking d p2.
Proof.
  unfold applyPlateOcrWithEntrance. destruct (_ || _); [by intros [= <- <-]|].
  destruct (negb _); [by intros [= <- <-]|]. cbv zeta. set (p := if is_empty image_path then _ else _).
  assert (Hp : exists images, p = pd_set_images (ed_parking d) images).
  { unfold p. destruct (is_empty image_path); [|by eexists].
    exists (pd_images (ed_parking d)). by destruct (ed_parking d). }
  destruct Hp as [images ->]. simpl.
  destruct (pd_sessions (ed_parking d) !! session_id) as [row|] eqn:Hrow; [|by intros [= <- <-]].
  destruct (bool_decide (pk_exit_time row = None)) eqn:Hexit; [|by intros [= <- <-]].
  apply bool_decide_eq_true in Hexit. rewrite choose_images.
  change (resolve_plate plate row ?s (pd_set_images ?p ?i)) with (resolve_plate plate row s p).
  destruct (update_resolution _ _ _ _ _) as [p1|e1] eqn:Hu; simpl; [|by intros [= <- <-]].
  destruct (insert_event _ p1) as [p2|e2] eqn:Hi; intros [= <- <-]; [|done].
  intros _. exists row, images. split; [done|]. split; [done|]. split; [done|].
  by exists p1, p2, (mkEventRow (Some session_id) (null_if_empty slot_id)
    ("PLATE_OCR_" +:+ pr_classification (resolve_plate plate row (choose_candidate session_id plate window min_confidence row d) (ed_parking d)))
    (resolution_message (resolve_plate plate row (choose_candidate session_id plate window min_confidence row d) (ed_parking d)) confidence image_path)).
Qed.

(** The answer when no recognition was chosen. *)
Definition vehicle_answer (plate : string) (p : ParkingDb) : ParkingPlateResolution :=
  match pd_vehicles p !! plate with
  | Some v => mkResolution true plate plate (class_text (ve_is_ev v)) "VEHICLE_EXACT" 1 (-1) (ve_id v)
  | None => mkResolution true plate plate "UNKNOWN" "UNRESOLVED" 0 (-1) (-1)
  end.
Definition entrance_answer (plate : string) (c : EntranceCandidate) : ParkingPlateResolution :=
  mkResolution true plate (ec_plate c) (class_text (ec_isEv c))
    (if ps_exact (ec_similarity c) then "ENTRANCE_EXACT" else "ENTRANCE_FUZZY") (score_of c) (ec_eventId c)
    (ec_vehicleId c).

(** C32 [functional] The best recognition decides. When a plate is stored for a session that has no recognition
    yet, then either the answer is a recognition that is possible for the session and no possible one compares better, with its plate, vehicle and class;
    or the answer is the table of vehicles alone, and then no recognition was possible, or two different cars compare
    equally well, best of all, with confidences less than 0.05 apart. *)
Theorem plate_match_best session_id slot_id image_path plate confidence window min_confidence d row r d' :
  applyPlateOcrWithEntrance session_id slot_id image_path plate confidence window min_confidence d = (r, d') ->
  pr_persisted r = true -> pd_sessions (ed_parking d) !! session_id = Some row -> pk_entrance_event row = None ->
  let poss := possible session_id plate window min_confidence row d in
  let best c := poss c /\ forall x, poss x -> (score_of x <= score_of c)%Q in
  (exists c, best c /\ r = entrance_answer plate c) \/
  (r = vehicle_answer plate (ed_parking d) /\
   ((forall c, ~ poss c) \/ exists a b, best a /\ best b /\ same_car a b = false /\ rivals a b = true)).
Proof.
  intros Ha Hp Hrow Hnone poss best.
  destruct (apply_persisted _ _ _ _ _ _ _ _ _ _ Ha Hp) as (row' & images & Hrow' & _ & Hr & _).
  rewrite Hrow in Hrow'. injection Hrow' as <-. unfold choose_candidate in Hr. rewrite Hnone in Hr. simpl in Hr.
  pose proof (select_candidate_spec session_id plate window min_confidence row d) as Hs. cbv zeta in Hs.
  destruct (select_candidate _) as [c|].
  - left. exists c. split; [exact Hs|]. rewrite Hr. unfold resolve_plate. rewrite Hnone. simpl.
    unfold with_class, entrance_answer. simpl. destruct Hs as [[_ Hc] _]. unfold comparable in Hc. by rewrite Hc.
  - right. split; [|exact Hs]. rewrite Hr. unfold resolve_plate, vehicle_answer. by destruct (pd_vehicles _ !! plate).
Qed.
End Resolution.
