(* ===== verification/EntranceStore.v ===== *)
(** Histories of the recognitions and sessions: which recognition a session may have, and that a plate is
    stored whenever the session is open. *)
From Stdlib Require Import QArith.
From S2P Require Import Prelude LoRa OccupancyDb Doubles Plate ParkingDb OverstayDb EntranceDb EntrancePlates.
Open Scope Z_scope.

(** Everything that writes the tables: the entrance, the plates of the slots, and other parts of
    the program. *)
Inductive EntranceOp :=
| EnCreate (camera channel object : string) (first_seen : Z)
| EnImage (now id : Z) (plate : bool) (path : string)
| EnVision (now id : Z) (analysis : EntranceVisionAnalysis)
| EnFinish (now new_vehicle id : Z) (plate : string) (confidence : double) (attempts : Z) (error : string)
| EnPlate (session_id : Z) (slot_id image_path plate : string) (confidence : double) (window : Z)
    (min_confidence : double)
| EnDuplicate (now id : Z)
| EnDeleted (now id : Z)
| EnWrite (w : DbWrite).

(** Only the entrance writes vehicles while the program runs. *)
Definition no_vehicle_write (op : EntranceOp) : Prop :=
  match op with EnWrite (WriteVehicle _ _) => False | _ => True end.

Definition entrance_step `{EntranceSql} (d : EntranceDb) (op : EntranceOp) : EntranceDb :=
  match op with
  | EnCreate camera channel object first_seen => (createEntranceRecognition camera channel object first_seen d).2
  | EnImage now id plate path => (updateEntranceImage now id plate path d).2
  | EnVision now id analysis => (updateEntranceVisionAnalysis now id analysis d).2
  | EnFinish now new_vehicle id plate confidence attempts error =>
      (finishEntranceRecognition now new_vehicle id plate confidence attempts error d).2
  | EnPlate session_id slot_id image_path plate confidence window min_confidence =>
      (applyPlateOcrWithEntrance session_id slot_id image_path plate confidence window min_confidence d).2
  | EnDuplicate now id => (incrementEntranceDuplicateCount now id d).2
  | EnDeleted now id => (markEntranceArtifactsDeleted now id d).2
  | EnWrite w => ed_set_parking d (db_write w (ed_parking d))
  end.
Definition entrance_run `{EntranceSql} (d : EntranceDb) (ops : list EntranceOp) : EntranceDb :=
  foldl entrance_step d ops.

(** * The invariant *)

Definition vehicle_known (id : Z) (p : ParkingDb) : Prop :=
  exists plate v, pd_vehicles p !! plate = Some v /\ ve_id v = id.

Record entrance_inv (d : EntranceDb) : Prop := {
  ei_seq : forall id r, ed_events d !! id = Some r -> 0 < id <= ed_event_seq d;
  ei_seq_pos : 0 <= ed_event_seq d;
  ei_completed : forall id r, ed_events d !! id = Some r -> rr_state r = RCompleted ->
    exists v, rr_vehicle_id r = Some v /\ vehicle_known v (ed_parking d);
  ei_linked : forall s row e, pd_sessions (ed_parking d) !! s = Some row -> pk_entrance_event row = Some e ->
    is_Some (ed_events d !! e);
  ei_once : forall s1 s2 row1 row2 e, pd_sessions (ed_parking d) !! s1 = Some row1 ->
    pd_sessions (ed_parking d) !! s2 = Some row2 -> pk_entrance_event row1 = Some e ->
    pk_entrance_event row2 = Some e -> s1 = s2
}.

(** What the other writers keep: vehicles stay, and a session's recognition is the old one or none. *)
Definition same_links (p p' : ParkingDb) : Prop :=
  (forall id, vehicle_known id p -> vehicle_known id p') /\
  forall s row', pd_sessions p' !! s = Some row' ->
    pk_entrance_event row' = None \/
    exists row, pd_sessions p !! s = Some row /\ pk_entrance_event row = pk_entrance_event row'.

#[global] Instance same_links_refl : Reflexive same_links.
Proof. intros p. split; [done|]. intros s row Hr. right. by exists row. Qed.
#[global] Instance same_links_trans : Transitive same_links.
Proof.
  intros p q r [Hv1 Hs1] [Hv2 Hs2]. split; [auto|]. intros s row Hr.
  destruct (Hs2 s row Hr) as [? | (row1 & H1 & E1)]; [by left|].
  destruct (Hs1 s row1 H1) as [? | (row2 & H2 & E2)]; [left; congruence|]. right. exists row2. split; [done|congruence].
Qed.

Lemma same_links_tables p p' :
  pd_vehicles p' = pd_vehicles p -> pd_sessions p' = pd_sessions p -> same_links p p'.
Proof.
  intros Hv Hs. split; [by intros id; unfold vehicle_known; rewrite Hv|]. intros s row Hr. rewrite Hs in Hr.
  right. by exists row.
Qed.

Lemma same_links_row p s row f :
  pd_sessions p !! s = Some row -> pk_entrance_event f = pk_entrance_event row ->
  same_links p (pd_set_sessions p (<[s := f]> (pd_sessions p))).
Proof.
  intros Hr Hf. split; [done|]. intros s' row' H. simpl in H.
  apply lookup_insert_Some in H as [[<- <-] | [_ H]]; right; [by exists row|by exists row'].
Qed.

Lemma insert_session_links row p id p' :
  insert_session row p = Ok (id, p') -> pk_entrance_event row = None -> same_links p p'.
Proof.
  unfold insert_session. destruct (_ && _); [|done]. intros [= <- <-] Hn. split; [done|].
  intros s row' H. simpl in H. apply lookup_insert_Some in H as [[_ <-] | [_ H]]; [by left|right; by exists row'].
Qed.
Lemma insert_image_links row p p' : insert_image row p = Ok p' -> same_links p p'.
Proof. unfold insert_image. destruct (_ || _); [done|]. intros [= <-]. by apply same_links_tables. Qed.
Lemma insert_event_links row p p' : insert_event row p = Ok p' -> same_links p p'.
Proof. unfold insert_event. destruct (_ && _); [|done]. intros [= <-]. by apply same_links_tables. Qed.

Lemma createHallSession_links slot source entry p id p' :
  createHallSession slot source entry p = Ok (id, p') -> same_links p p'.
Proof.
  unfold createHallSession. destruct (_ || _); [done|]. destruct (negb _); [done|].
  destruct (pd_slots p !! slot); [|done].
  intros ([id1 d2] & E1 & (d3 & E2%insert_event_links & [= <- <-])%rbind_ok_inv)%rbind_ok_inv.
  apply insert_session_links in E1; [|done]. etrans; [|exact E2]. etrans; [|exact E1].
  by apply same_links_tables.
Qed.
Lemma insertEvidenceImage_links id path reason captured enhanced p r p' :
  insertEvidenceImage id path reason captured enhanced p = Ok (r, p') -> same_links p p'.
Proof.
  unfold insertEvidenceImage. destruct (_ || _); [done|]. destruct (negb _); [done|].
  destruct (has_image _ _ _); [by intros [= _ <-]|]. destruct (negb _); [by intros [= _ <-]|].
  by intros (d1 & ?%insert_image_links & [= _ <-])%rbind_ok_inv.
Qed.
Lemma insertHallCaptureImage_links id path enhanced type captured p r p' :
  insertHallCaptureImage id path enhanced type captured p = Ok (r, p') -> same_links p p'.
Proof.
  unfold insertHallCaptureImage. destruct (_ || _); [done|]. destruct (negb _); [done|].
  destruct (has_image _ _ _); [by intros [= _ <-]|]. destruct (negb _); [by intros [= _ <-]|].
  intros (d1 & H1%insert_image_links & H)%rbind_ok_inv.
  destruct (pd_sessions d1 !! id); [|by injection H as _ <-].
  apply rbind_ok_inv in H as (d2 & H2%insert_event_links & [= _ <-]). by etrans.
Qed.

Lemma db_write_links w p : no_vehicle_write (EnWrite w) -> same_links p (db_write w p).
Proof.
  destruct w; simpl; intros Hw.
  - destruct (createHallSession _ _ _ p) as [[id p']|] eqn:E; [|done]. by eapply createHallSession_links.
  - destruct (pd_sessions p !! session_id) as [r|] eqn:Hr; [|done]. destruct (pk_open r); [|done].
    by apply (same_links_row _ _ r).
  - destruct (pd_sessions p !! session_id) as [r|] eqn:Hr; [|done]. destruct (bool_decide _); [|done].
    by apply (same_links_row _ _ r).
  - done.
  - destruct (insertEvidenceImage _ _ _ _ _ p) as [[r p']|] eqn:E; [|done]. by eapply insertEvidenceImage_links.
  - destruct (insertHallCaptureImage _ _ _ _ _ p) as [[r p']|] eqn:E; [|done].
    by eapply insertHallCaptureImage_links.
Qed.

Lemma inv_links d p : same_links (ed_parking d) p -> entrance_inv d -> entrance_inv (ed_set_parking d p).
Proof.
  intros [Hv Hs] [H1 H2 H3 H4 H5]. split; simpl; [done|done| | |].
  - intros id r Hr Hc. destruct (H3 id r Hr Hc) as (v & Hv1 & Hv2). exists v. auto.
  - intros s row e Hr He. destruct (Hs s row Hr) as [Hn | (row0 & Hr0 & E)]; [congruence|].
    apply (H4 s row0); [done|congruence].
  - intros s1 s2 row1 row2 e Hr1 Hr2 He1 He2.
    destruct (Hs s1 row1 Hr1) as [Hn | (r1 & Hr1' & E1)]; [congruence|].
    destruct (Hs s2 row2 Hr2) as [Hn | (r2 & Hr2' & E2)]; [congruence|].
    apply (H5 s1 s2 r1 r2 e); congruence.
Qed.

(** One recognition changes. *)
Lemma update_event_inv d id f :
  (forall r, ed_events d !! id = Some r -> rr_state (f r) = RCompleted ->
     exists v, rr_vehicle_id (f r) = Some v /\ vehicle_known v (ed_parking d)) ->
  entrance_inv d -> entrance_inv (update_event id f d).2.
Proof.
  intros Hf [H1 H2 H3 H4 H5]. unfold update_event. destruct (ed_events d !! id) as [r|] eqn:Hr; [|by split].
  split; simpl; [|done| | |done].
  - intros i x [[<- <-] | [_ Hx]]%lookup_insert_Some; [by eapply H1|by eapply H1].
  - intros i x [[<- <-] | [_ Hx]]%lookup_insert_Some; [auto|by apply (H3 i)].
  - intros s row e Hs He. destruct (decide (e = id)) as [-> | Hne]; [rewrite lookup_insert_eq; by eexists|].
    rewrite lookup_insert_ne by congruence. by eapply H4.
Qed.

(** A recognition that keeps its state and its vehicle. *)
Lemma update_event_kept d id f :
  (forall r, rr_state (f r) = RCompleted -> rr_state r = RCompleted /\ rr_vehicle_id (f r) = rr_vehicle_id r) ->
  entrance_inv d -> entrance_inv (update_event id f d).2.
Proof.
  intros Hf I. apply update_event_inv; [|done]. intros r Hr Hc. destruct (Hf r Hc) as [Hs ->].
  by apply (ei_completed d I id).
Qed.

Lemma upsert_vehicle_links new plate is_ev p :
  let r := upsert_vehicle new plate is_ev p in same_links p r.2 /\ vehicle_known r.1 r.2.
Proof.
  simpl. split.
  - split; [|intros s row Hr; right; by exists row]. intros id (pl & v & Hv & Hid). simpl.
    destruct (decide (pl = plate)) as [-> | Hne].
    + exists plate, (mkVehicleRow (ve_id v) is_ev). simpl. by rewrite Hv, lookup_insert_eq.
    + exists pl, v. simpl. by rewrite lookup_insert_ne by congruence.
  - eexists plate, _. simpl. split; [apply lookup_insert_eq|done].
Qed.

Lemma finish_inv now new_vehicle id plate confidence attempts error d :
  entrance_inv d -> entrance_inv (finishEntranceRecognition now new_vehicle id plate confidence attempts error d).2.
Proof.
  intros I. unfold finishEntranceRecognition. destruct (_ || _); [done|].
  assert (Hroll : forall answer r, entrance_inv r.2 -> entrance_inv (if r.1 : bool then (answer : string, r.2) else ("DB_ERROR", d)).2)
    by (intros answer [[] d']; simpl; auto).
  destruct (is_empty plate); [by apply Hroll, update_event_kept|].
  destruct (ed_events d !! id) as [r|] eqn:Hr; [|done].
  destruct (rr_vision_is_ev r) as [is_ev|]; [|by apply Hroll, update_event_kept].
  pose proof (upsert_vehicle_links new_vehicle plate is_ev (ed_parking d)) as [Hl Hk].
  destruct (upsert_vehicle _ _ _ _) as [v p]. simpl in Hl, Hk. apply Hroll, update_event_inv.
  - intros x _ _. by exists v.
  - by apply inv_links.
Qed.

Lemma create_inv camera channel object first_seen d :
  entrance_inv d -> entrance_inv (createEntranceRecognition camera channel object first_seen d).2.
Proof.
  intros I. unfold createEntranceRecognition. destruct (_ || _); [done|]. destruct I as [H1 H2 H3 H4 H5].
  split; simpl; [| lia | | | done].
  - intros i x [[<- <-] | [_ Hx]]%lookup_insert_Some; [lia|]. specialize (H1 i x Hx). lia.
  - intros i x [[<- <-] | [_ Hx]]%lookup_insert_Some; [done|by apply (H3 i)].
  - intros s row e Hs He. destruct (decide (e = ed_event_seq d + 1)) as [-> | Hne].
    + rewrite lookup_insert_eq. by eexists.
    + rewrite lookup_insert_ne by congruence. by eapply H4.
Qed.

(** * Plates *)

Lemma existsb_none {A} (f : A -> bool) l : (forall x, x ∈ l -> f x = false) -> existsb f l = false.
Proof.
  intros Hf. destruct (existsb f l) eqn:E; [|done]. apply existsb_exists in E as (x & Hx & Hfx).
  rewrite <- list_elem_of_In in Hx. by rewrite (Hf x Hx) in Hfx.
Qed.
Lemma existsb_false {A} (f : A -> bool) l x : existsb f l = false -> x ∈ l -> f x = false.
Proof.
  intros He Hx. destruct (f x) eqn:E; [|done]. rewrite <- He. symmetry. apply existsb_exists. exists x.
  by rewrite <- list_elem_of_In.
Qed.

(** Another session has the recognition. *)
Definition taken (session_id e : Z) (p : ParkingDb) : bool :=
  existsb (fun kv => bool_decide (pk_entrance_event kv.2 = Some e) && negb (kv.1 =? session_id))
    (map_to_list (pd_sessions p)).
Lemma taken_false session_id e p :
  taken session_id e p = false <->
  forall s row, pd_sessions p !! s = Some row -> pk_entrance_event row = Some e -> s = session_id.
Proof.
  split.
  - intros Hf s row Hs He. apply (existsb_false _ _ (s, row)) in Hf; [|by apply elem_of_map_to_list].
    simpl in Hf. rewrite bool_decide_true in Hf by done. simpl in Hf. apply negb_false_iff in Hf. lia.
  - intros Hf. apply existsb_none. intros [s row] Hin%elem_of_map_to_list. simpl.
    destruct (bool_decide _) eqn:Hb; [|done]. apply bool_decide_eq_true in Hb. rewrite (Hf s row Hin Hb).
    by rewrite Z.eqb_refl.
Qed.

Lemma positive_id_some id e : positive_id id = Some e -> e = id /\ 0 <= id.
Proof. unfold positive_id. destruct (Z.leb_spec 0 id); [by intros [= ->]|done]. Qed.

Lemma update_resolution_inv session_id r row d p p1 :
  update_resolution session_id r row d p = Ok p1 -> entrance_inv (ed_set_parking d p) ->
  entrance_inv (ed_set_parking d p1) /\ pd_sessions p1 = <[session_id := with_resolution r row]> (pd_sessions p).
Proof.
  unfold update_resolution. destruct (_ && _) eqn:Hok; [|done]. intros [= <-] [H1 H2 H3 H4 H5].
  apply andb_prop in Hok as [_ Hev].
  assert (Hlink : forall e, pk_entrance_event (with_resolution r row) = Some e ->
            is_Some (ed_events d !! e) /\ taken session_id e p = false).
  { intros e He. simpl in He. rewrite He in Hev. apply andb_prop in Hev as [Hs Ht]. split.
    - by apply bool_decide_eq_true in Hs.
    - by apply negb_true_iff in Ht. }
  split; [|done]. split; simpl; [done|done|done| |].
  - intros s x e [[<- <-] | [_ Hx]]%lookup_insert_Some He; [by apply Hlink|by apply (H4 s x)].
  - intros s1 s2 x1 x2 e [[<- <-] | [Hn1 Hx1]]%lookup_insert_Some [[<- <-] | [Hn2 Hx2]]%lookup_insert_Some He1 He2;
      [done| | |by apply (H5 s1 s2 x1 x2 e)]; symmetry.
    + destruct (Hlink e He1) as [_ Ht]. rewrite taken_false in Ht. by eapply Ht.
    + destruct (Hlink e He2) as [_ Ht]. rewrite taken_false in Ht. symmetry. by eapply Ht.
Qed.

Section Plates.
Context `{EntranceSql}.

Lemma apply_plate_cases session_id slot_id image_path plate confidence window min_confidence d :
  let a := applyPlateOcrWithEntrance session_id slot_id image_path plate confidence window min_confidence d in
  pr_persisted a.1 = true \/ a.2 = d.
Proof.
  unfold applyPlateOcrWithEntrance. destruct (_ || _); [by right|]. destruct (negb _); [by right|]. cbv zeta.
  destruct (pd_sessions _ !! session_id) as [row|]; [|by right]. destruct (bool_decide _); [|by right].
  destruct (rbind _ _); [by left|by right].
Qed.

Lemma images_inv d images : entrance_inv d -> entrance_inv (ed_set_parking d (pd_set_images (ed_parking d) images)).
Proof. intros I. apply inv_links; [|done]. by apply same_links_tables. Qed.

Lemma apply_inv session_id slot_id image_path plate confidence window min_confidence d :
  entrance_inv d ->
  entrance_inv (applyPlateOcrWithEntrance session_id slot_id image_path plate confidence window min_confidence d).2.
Proof.
  intros I. destruct (applyPlateOcrWithEntrance _ _ _ _ _ _ _ d) as [r d'] eqn:Ha. simpl.
  destruct (apply_plate_cases session_id slot_id image_path plate confidence window min_confidence d) as [Hp | Hd];
    rewrite Ha in *; simpl in *; [|by rewrite Hd].
  destruct (apply_persisted _ _ _ _ _ _ _ _ _ _ Ha Hp) as (row & images & _ & _ & _ & p1 & p2 & e & Hu & He & ->).
  destruct (update_resolution_inv _ _ _ _ _ _ Hu (images_inv d images I)) as [I1 _].
  apply insert_event_links in He. apply (inv_links (ed_set_parking d p1) p2); [exact He|exact I1].
Qed.

Lemma entrance_step_inv d op : no_vehicle_write op -> entrance_inv d -> entrance_inv (entrance_step d op).
Proof.
  intros Hop I. destruct op; simpl.
  - by apply create_inv.
  - unfold updateEntranceImage. destruct (_ || _); [done|]. by apply update_event_kept.
  - unfold updateEntranceVisionAnalysis. destruct (_ || _); [done|]. destruct (negb _); [done|].
    by apply update_event_kept.
  - by apply finish_inv.
  - by apply apply_inv.
  - unfold incrementEntranceDuplicateCount. destruct (_ || _); [done|]. by apply update_event_kept.
  - unfold markEntranceArtifactsDeleted. destruct (_ || _); [done|]. apply update_event_kept; [|done].
    intros r. simpl. by destruct (rr_state r).
  - apply inv_links; [by apply db_write_links|done].
Qed.

Lemma entrance_run_inv d ops : Forall no_vehicle_write ops -> entrance_inv d -> entrance_inv (entrance_run d ops).
Proof.
  intros Hops. revert d. induction Hops as [|op ops Hop Hops IH]; intros d I; [done|]. by apply IH, entrance_step_inv.
Qed.

Definition entrance_start (p : ParkingDb) : EntranceDb := mkEntranceDb p ∅ 0.
Definition unlinked (p : ParkingDb) : Prop :=
  forall s row, pd_sessions p !! s = Some row -> pk_entrance_event row = None.

Lemma entrance_start_inv p : unlinked p -> entrance_inv (entrance_start p).
Proof.
  intros Hu. split; simpl; try done; try (intros id r Hr; by rewrite lookup_empty in Hr).
  - intros s row e Hs He. rewrite (Hu s row Hs) in He. done.
  - intros s1 s2 row1 row2 e Hs1 _ He _. rewrite (Hu s1 row1 Hs1) in He. done.
Qed.

(** The candidate is a completed recognition that no other session has. *)
Lemma chosen_known session_id plate window min_confidence row d c :
  entrance_inv d -> pd_sessions (ed_parking d) !! session_id = Some row ->
  choose_candidate session_id plate window min_confidence row d = Some c ->
  is_Some (ed_events d !! ec_eventId c) /\ taken session_id (ec_eventId c) (ed_parking d) = false /\
  vehicle_known (ec_vehicleId c) (ed_parking d).
Proof.
  intros I Hrow. unfold choose_candidate. destruct (Z.leb_spec 0 (default (-1) (pk_entrance_event row))) as [Hex|Hex].
  - destruct (pk_entrance_event row) as [e|] eqn:He; [|simpl in Hex; lia]. simpl.
    destruct (ed_events d !! e) as [r|] eqn:Hr; [|done]. destruct (bool_decide _) eqn:Hb; [|done].
    apply bool_decide_eq_true in Hb. intros [= <-]. simpl. split; [by eexists|].
    destruct (ei_completed d I e r Hr Hb) as (v & -> & Hv). split; [|exact Hv].
    apply taken_false. intros s x Hx Hxe. by apply (ei_once d I s session_id x row e).
  - intros Hs. pose proof (select_candidate_spec session_id plate window min_confidence row d) as Hspec.
    cbv zeta in Hspec. rewrite Hs in Hspec. destruct Hspec as [[(id & r & Hr & Hel & ->) _] _]. simpl.
    unfold eligible in Hel. split_bool.
    assert (Hc : rr_state r = RCompleted) by done.
    destruct (ei_completed d I id r Hr Hc) as (v & -> & Hv). split; [by eexists|]. split; [|exact Hv].
    done.
Qed.

Lemma vehicle_known_exists id p :
  vehicle_known id p -> existsb (fun kv => ve_id kv.2 =? id) (map_to_list (pd_vehicles p)) = true.
Proof.
  intros (plate & v & Hv & <-). apply existsb_exists. exists (plate, v). rewrite <- list_elem_of_In.
  split; [by apply elem_of_map_to_list|apply Z.eqb_refl].
Qed.

Lemma update_resolution_ok session_id plate window min_confidence row d p :
  entrance_inv d -> pd_sessions (ed_parking d) !! session_id = Some row ->
  pd_sessions p = pd_sessions (ed_parking d) -> pd_vehicles p = pd_vehicles (ed_parking d) ->
  exists p1, update_resolution session_id
    (resolve_plate plate row (choose_candidate session_id plate window min_confidence row d) p) row d p = Ok p1.
Proof.
  intros I Hrow Hs Hv. unfold update_resolution.
  destruct (choose_candidate _ _ _ _ _ _) as [c|] eqn:Hc; simpl.
  - destruct (chosen_known _ _ _ _ _ _ _ I Hrow Hc) as (He & Ht & Hk).
    apply vehicle_known_exists in Hk. rewrite Hv.
    replace (match positive_id (ec_vehicleId c) with Some id => _ | None => true end) with true
      by (destruct (positive_id (ec_vehicleId c)) as [v|] eqn:Hp; [|done]; by apply positive_id_some in Hp as [-> _]).
    destruct (positive_id (ec_eventId c)) as [e|] eqn:Hp; simpl; [|by eexists].
    apply positive_id_some in Hp as [-> _]. rewrite bool_decide_true by done. simpl.
    unfold taken in Ht. rewrite Hs, Ht. by eexists.
  - destruct (pd_vehicles p !! plate) as [v|] eqn:Hpl; simpl; [|by eexists].
    assert (Hk : vehicle_known (ve_id v) p) by (by exists plate, v).
    apply vehicle_known_exists in Hk.
    destruct (positive_id (ve_id v)) as [i|] eqn:Hp; simpl; [|by eexists].
    apply positive_id_some in Hp as [-> _]. rewrite Hk. by eexists.
Qed.

(** C31 [invariant] Recognitions and sessions belong together. After every history of recognitions, plates and other writes
    that starts without links, every session's recognition exists and no other session has it; and a
    plate that is stored for an open session with arguments in range never fails: the session's row takes
    the answer, and no other session changes. *)
Theorem plate_stored p ops session_id slot_id image_path plate confidence window min_confidence row :
  unlinked p -> Forall no_vehicle_write ops ->
  let d := entrance_run (entrance_start p) ops in
  pd_open (ed_parking d) = true -> pd_sessions (ed_parking d) !! session_id = Some row -> pk_exit_time row = None ->
  0 <= session_id -> is_empty plate = false -> 0 < window ->
  d_lt min_confidence d_zero = false -> d_lt d_one min_confidence = false ->
  (slot_id = "" \/ is_Some (pd_slots (ed_parking d) !! slot_id)) ->
  (forall s1 s2 row1 row2 e, pd_sessions (ed_parking d) !! s1 = Some row1 ->
     pd_sessions (ed_parking d) !! s2 = Some row2 -> pk_entrance_event row1 = Some e ->
     pk_entrance_event row2 = Some e -> s1 = s2 /\ is_Some (ed_events d !! e)) /\
  exists r d', applyPlateOcrWithEntrance session_id slot_id image_path plate confidence window min_confidence d = (r, d') /\
    pr_persisted r = true /\
    pd_sessions (ed_parking d') = <[session_id := with_resolution r row]> (pd_sessions (ed_parking d)).
Proof.
  intros Hu Hops d Hopen Hrow Hexit Hid Hpl Hw Hm0 Hm1 Hslot.
  assert (I : entrance_inv d) by (by apply entrance_run_inv, entrance_start_inv).
  split. { intros s1 s2 row1 row2 e H1 H2 H3 H4. split; [by apply (ei_once d I s1 s2 row1 row2 e)|by eapply (ei_linked d I)]. }
  unfold applyPlateOcrWithEntrance. rewrite Hpl, Hm0, Hm1, Hopen.
  destruct (Z.ltb_spec session_id 0); [lia|]. destruct (Z.leb_spec window 0); [lia|]. cbn [orb negb]. cbv zeta.
  set (p1 := if is_empty image_path then _ else _).
  assert (Hs : pd_sessions p1 = pd_sessions (ed_parking d)) by (unfold p1; by destruct (is_empty image_path)).
  assert (Hv : pd_vehicles p1 = pd_vehicles (ed_parking d)) by (unfold p1; by destruct (is_empty image_path)).
  assert (Hsl : pd_slots p1 = pd_slots (ed_parking d)) by (unfold p1; by destruct (is_empty image_path)).
  assert (Hch : choose_candidate session_id plate window min_confidence row (ed_set_parking d p1) =
                choose_candidate session_id plate window min_confidence row d)
    by (unfold p1; by destruct (is_empty image_path), d).
  rewrite Hs, Hrow, Hch. rewrite bool_decide_true by done.
  destruct (update_resolution_ok session_id plate window min_confidence row d p1 I Hrow Hs Hv) as [p2 E].
  set (r0 := resolve_plate _ _ _ _) in E |- *. rewrite E. simpl.
  unfold update_resolution in E. destruct (_ && _) in E; [|done]. injection E as <-.
  unfold insert_event. simpl. rewrite lookup_insert_eq, bool_decide_true by (by eexists). simpl. rewrite Hsl.
  replace (match null_if_empty slot_id with Some s => bool_decide (is_Some (pd_slots (ed_parking d) !! s)) | None => true end) with true
    by (unfold null_if_empty; destruct Hslot as [-> | Hsome]; [done|]; destruct (is_empty slot_id); [done|];
        by rewrite bool_decide_true).
  eexists _, _. split; [reflexivity|]. split; [done|]. simpl. by rewrite Hs.
Qed.
End Plates.

(** * Examples and witnesses *)

(** The theorems on the plates of parking sessions at concrete histories. *)
Open Scope Z_scope.

#[local] Instance plain_texts : EntranceSql :=
  {| sql_julian_ms := fun _ => None; score_text := fun _ => ""; double_text := fun _ => "" |}.

(** One slot, nobody parked. *)
Definition gate_parking : ParkingDb := mkParkingDb true ∅ {["A1" := "VACANT"]} ∅ 0 [] [] ∅.
Definition gate_start : EntranceDb := entrance_start gate_parking.

Definition seen_ev : EntranceVisionAnalysis := mkEntranceVisionAnalysis (Some true) "EV_CANDIDATE" "" "m" d_zero "" "".
Definition car (object : string) (first_seen id : Z) (plate : string) (percent : Z) : list EntranceOp :=
  [EnCreate "cam" "CH0" object first_seen; EnVision first_seen id seen_ev;
   EnFinish first_seen id id plate (d_literal percent 2) 1 ""].

(** Two cars come in; one of them parks, and the camera of the slot reads one character wrong. *)
Definition gate_ops : list EntranceOp :=
  car "1" 1000 1 "12가3456" 95 ++ car "2" 2000 2 "34나7890" 90 ++
  [EnWrite (WriteSession "A1" "1970-01-01T00:00:03Z")].
Notation gate_run ops := (entrance_run gate_start ops).

(** The session's entry time is not readable here and counts as the epoch; the window reaches forward to it. *)
Definition gate_later : list EntranceOp := car "1" (-1000) 1 "12가3456" 95 ++ car "2" (-500) 2 "34나7890" 90 ++
  [EnWrite (WriteSession "A1" "1970-01-01T00:00:00Z")].

Notation gate_answer ops := (applyPlateOcrWithEntrance 1 "A1" "" "12다3456" (d_literal 9 1) 60000 (d_literal 85 2) (gate_run ops)).

Example plate_match_best_witness :
  exists row, pd_sessions (ed_parking (gate_run gate_later)) !! 1 = Some row /\
  exists c, possible 1 "12다3456" 60000 (d_literal 85 2) row (gate_run gate_later) c /\
    (gate_answer gate_later).1 = entrance_answer "12다3456" c /\ ec_plate c = "12가3456".
Proof.
  destruct (pd_sessions (ed_parking (gate_run gate_later)) !! 1) as [row|] eqn:Hrow;
    [|exfalso; vm_compute in Hrow; discriminate Hrow].
  assert (Hn : pk_entrance_event row = None) by (vm_compute in Hrow; by injection Hrow as <-).
  destruct (gate_answer gate_later) as [r d'] eqn:Ha.
  assert (Hp : pr_persisted r = true) by (vm_compute in Ha; by injection Ha as <- _).
  assert (Hc : pr_canonical_plate r = "12가3456") by (vm_compute in Ha; by injection Ha as <- _).
  exists row. split; [reflexivity|].
  destruct (plate_match_best 1 "A1" "" "12다3456" _ _ _ _ row r d' Ha Hp Hrow Hn) as [(c & [Hb _] & Hr) | [Hr _]].
  - exists c. split; [exact Hb|]. split; [exact Hr|]. by rewrite Hr in Hc.
  - exfalso. rewrite Hr in Hc. vm_compute in Hc. discriminate Hc.
Defined.

Example plate_stored_witness :
  exists r d', gate_answer gate_ops = (r, d') /\ pr_persisted r = true.
Proof.
  assert (Hu : unlinked gate_parking) by (intros s row Hs; simpl in Hs; by rewrite lookup_empty in Hs).
  assert (Hops : Forall no_vehicle_write gate_ops) by (repeat constructor).
  assert (Hopen : pd_open (ed_parking (gate_run gate_ops)) = true) by (vm_compute; reflexivity).
  destruct (pd_sessions (ed_parking (gate_run gate_ops)) !! 1) as [row|] eqn:Hrow;
    [|exfalso; vm_compute in Hrow; discriminate Hrow].
  assert (Hexit : pk_exit_time row = None) by (vm_compute in Hrow; by injection Hrow as <-).
  assert (Hslot : "A1" = "" \/ is_Some (pd_slots (ed_parking (gate_run gate_ops)) !! "A1"))
    by (right; exists "OCCUPIED"; vm_compute; reflexivity).
  destruct (plate_stored gate_parking gate_ops 1 "A1" "" "12다3456" (d_literal 9 1) 60000 (d_literal 85 2) row Hu Hops
              Hopen Hrow Hexit ltac:(lia) eq_refl ltac:(lia) eq_refl eq_refl Hslot) as [_ (r & d' & Ha & Hp & _)].
  exists r, d'. exact (conj Ha Hp).
Defined.

(** Three cars whose plates compare equally well, two of them with close confidences: the answer depends on the order
    in which they came. When the doubtful third one came first of all it is read last, and the doubt between the
    other two is forgotten. *)
Definition three_cars (a b c : Z) : list EntranceOp :=
  car "1" a 1 "12가3456" 95 ++ car "2" b 2 "12나3456" 93 ++ car "3" c 3 "12라3456" 86 ++
  [EnWrite (WriteSession "A1" "1970-01-01T00:00:00Z")].
Example ambiguity_forgotten :
  pr_source (gate_answer (three_cars (-1000) (-2000) (-3000))).1 = "ENTRANCE_FUZZY" /\
  pr_canonical_plate (gate_answer (three_cars (-1000) (-2000) (-3000))).1 = "12가3456" /\
  pr_source (gate_answer (three_cars (-2000) (-3000) (-1000))).1 = "UNRESOLVED".
Proof. vm_compute. done. Qed.
