(* ===== verification/Ocr.v ===== *)
(** The reading of plates: the client of the recognition service ([src/ocr/GeminiOcrClient.cpp]) and the thread that
    works on the pictures, with its bounded queue and the cancelling of sessions ([src/ocr/OcrWorker.cpp]). The answers
    of the service, the picture processing, the files and the printing of numbers are arguments. *)
From S2P Require Import Prelude SlotConfig OccupancyDb Doubles ParkingDb EntranceDb Plate.

#[local] Open Scope Z_scope.

(** * The client *)

Module Gemini.

(** [include/ocr/GeminiOcrClient.hpp:8-18 OcrErrorKind] *)
Inductive OcrErrorKind :=
| ErrNone | ErrConfiguration | ErrImage | ErrTransport | ErrAuthentication | ErrRateLimited | ErrServer | ErrClient
| ErrResponseParse.
#[global] Instance OcrErrorKind_eq_dec : EqDecision OcrErrorKind.
Proof. solve_decision. Defined.

(** [include/ocr/GeminiOcrClient.hpp:22-37 OcrResult] *)
Record OcrResult := mkOcrResult {
  or_success : bool;
  or_readable : bool;
  or_plate_number : string;
  or_confidence : double;
  or_raw_text : string;
  or_error : string;
  or_error_kind : OcrErrorKind;
  or_http_status : Z
}.
Definition empty_result : OcrResult := mkOcrResult false false "" d_zero "" "" ErrNone 0.

(** [include/ocr/GeminiOcrClient.hpp:32-36 OcrResult::retryable] *)
Definition retryable (r : OcrResult) : bool :=
  match or_error_kind r with ErrTransport | ErrRateLimited | ErrServer => true | _ => false end.

(** [include/ocr/GeminiOcrClient.hpp:39-45 GeminiHttpRequest] *)
Record GeminiHttpRequest := mkHttpRequest {
  hq_url : string; hq_apiKey : string; hq_body : string; hq_connectTimeoutSec : Z; hq_requestTimeoutSec : Z
}.

(** [include/ocr/GeminiOcrClient.hpp:47-52 GeminiHttpResponse] *)
Record GeminiHttpResponse := mkHttpResponse {
  hr_completed : bool; hr_status : Z; hr_body : string; hr_error : string
}.

(** [include/ocr/GeminiOcrClient.hpp:72-77 GeminiOcrClient] *)
Record Client := mkClient {
  cl_api_key : string;
  cl_model : string;
  cl_fallback_model : string;
  cl_connect_timeout_sec : Z;
  cl_request_timeout_sec : Z
}.

(** [src/ocr/GeminiOcrClient.cpp:14-15 base64Encode] The alphabet. *)
Definition base64_table : string := "ABCDEFGHIJKLMNOPQRSTUVWXYZabcdefghijklmnopqrstuvwxyz0123456789+/".
Definition base64_char (value : Z) : ascii := default "A"%char (String.get (Z.to_nat value) base64_table).

(** [src/ocr/GeminiOcrClient.cpp:13-28 base64Encode] *)
Fixpoint base64Encode (input : list Z) : string :=
  match input with
  | [] => EmptyString
  | [a] =>
      let value := Z.shiftl a 16 in
      String (base64_char (Z.land (Z.shiftr value 18) 0x3F))
        (String (base64_char (Z.land (Z.shiftr value 12) 0x3F)) "==")
  | [a; b] =>
      let value := Z.lor (Z.shiftl a 16) (Z.shiftl b 8) in
      String (base64_char (Z.land (Z.shiftr value 18) 0x3F))
        (String (base64_char (Z.land (Z.shiftr value 12) 0x3F))
           (String (base64_char (Z.land (Z.shiftr value 6) 0x3F)) "="))
  | a :: b :: c :: input =>
      let value := Z.lor (Z.lor (Z.shiftl a 16) (Z.shiftl b 8)) c in
      String (base64_char (Z.land (Z.shiftr value 18) 0x3F))
        (String (base64_char (Z.land (Z.shiftr value 12) 0x3F))
           (String (base64_char (Z.land (Z.shiftr value 6) 0x3F))
              (String (base64_char (Z.land value 0x3F)) (base64Encode input))))
  end.

Definition png_signature : list Z := [0x89; 0x50; 0x4E; 0x47; 0x0D; 0x0A; 0x1A; 0x0A].
Definition is_prefix (p l : list Z) : bool := bool_decide (p = take (length p) l).

(** [src/ocr/GeminiOcrClient.cpp:37-67 appendImagePart] The part of the request, or the text of the error, whose kind
    is Image. [files]: what is in a file that can be opened. *)
Definition appendImagePart (files : string -> option (list Z)) (image_path : string) : result string json :=
  match files image_path with
  | None => Err ("Cannot open plate image: " +:+ image_path)
  | Some bytes =>
      if bool_decide (bytes = []) || (15 * 1024 * 1024 <? Z.of_nat (length bytes))
      then Err ("Plate image is empty or too large: " +:+ image_path) else
      let jpeg := is_prefix [0xFF; 0xD8; 0xFF] bytes in
      let png := is_prefix png_signature bytes in
      if negb jpeg && negb png then Err ("Unsupported plate image encoding: " +:+ image_path) else
      Ok (JObject [("inline_data", JObject [("data", JString (base64Encode bytes));
                                            ("mime_type", JString (if png then "image/png" else "image/jpeg"))])])
  end.

(** [src/ocr/GeminiOcrClient.cpp:135-137 GeminiOcrClient::configured] *)
Definition configured (c : Client) : bool := negb (is_empty (cl_api_key c)) && negb (is_empty (cl_model c)).

Section Client.
Context {JL : JsonLibrary} (json_double : json -> option double).
Context (files : string -> option (list Z)) (http : GeminiHttpRequest -> GeminiHttpResponse) (c : Client).

(** [at] of the JSON library: an exception where there is nothing. *)
Definition at_key (j : json) (key : string) : result string json := of_option "key not found" (json_find j key).
Definition at_index (j : json) (i : nat) : result string json :=
  match j with JArray elements => of_option "array index is out of range" (elements !! i) | _ => Err "cannot use at()" end.
Definition value_double_or (object : json) (key : string) (fallback : double) : result string double :=
  if negb (is_object object) then Err "cannot use value()" else
  match json_find object key with
  | None => Ok fallback
  | Some v => of_option "type must be number" (json_double v)
  end.
Definition as_text {A} (r : result store_error A) : result string A :=
  match r with Ok v => Ok v | Err (InvalidArgument what) | Err (RuntimeError what) => Err what end.

(** [std::clamp(value, 0.0, 1.0)] *)
Definition clamp01 (x : double) : double := if d_lt x d_zero then d_zero else if d_lt d_one x then d_one else x.

(** [src/ocr/GeminiOcrClient.cpp:229-244 GeminiOcrClient::recognizePlateWithModel] What is read of the answer; the
    text stays in the result where reading it fails. *)
Definition gemini_answer (status : Z) (body : string) : OcrResult :=
  let failed raw readable plate what :=
    mkOcrResult false readable plate d_zero raw ("Gemini response parse failed: " +:+ what) ErrResponseParse status in
  let text :=
    let? envelope := json_parse body in
    let? a := at_key envelope "candidates" in
    let? b := at_index a 0 in
    let? d := at_key b "content" in
    let? e := at_key d "parts" in
    let? f := at_index e 0 in
    let? g := at_key f "text" in
    match g with JString s => Ok s | _ => Err "type must be string" end in
  match text with
  | Err what => failed "" false "" what
  | Ok text =>
      match json_parse text with
      | Err what => failed text false "" what
      | Ok value =>
          match as_text (value_bool value "readable" false) with
          | Err what => failed text false "" what
          | Ok readable =>
              match as_text (value_string value "plate_number" "") with
              | Err what => failed text readable "" what
              | Ok plate =>
                  match value_double_or value "confidence" d_zero with
                  | Err what => failed text readable plate what
                  | Ok confidence => mkOcrResult true readable plate (clamp01 confidence) text "" ErrNone status
                  end
              end
          end
      end
  end.

(** [src/ocr/GeminiOcrClient.cpp:217-225 GeminiOcrClient::recognizePlateWithModel] *)
Definition status_kind (status : Z) : OcrErrorKind :=
  if (status =? 401) || (status =? 403) then ErrAuthentication
  else if status =? 429 then ErrRateLimited
  else if 500 <=? status then ErrServer
  else ErrClient.

(** [src/ocr/GeminiOcrClient.cpp:171-177 GeminiOcrClient::recognizePlateWithModel] *)
Definition prompt : string :=
  "대한민국 자동차 번호판 OCR 작업이다. 첫 이미지가 주 OCR 대상이며, " +:+
  "두 번째 이미지가 있으면 같은 장면의 원본 또는 개선본이다. " +:+
  "이미지가 두 장이면 함께 비교해 " +:+
  "번호판 문자만 판독하라. 로/토/도/아, 고/호, 1/7, 3/8처럼 " +:+
  "획이 비슷한 문자를 특히 주의하고 추측하지 마라. 읽을 수 없으면 " +:+
  "readable=false로 반환하고 plate_number는 공백과 하이픈 없이 반환하라.".

(** [src/ocr/GeminiOcrClient.cpp:182-198 GeminiOcrClient::recognizePlateWithModel] The members of an object are
    in the order of their names. *)
Definition request_json (parts : list json) : json :=
  JObject [("contents", JArray [JObject [("parts", JArray parts); ("role", JString "user")]]);
           ("generationConfig",
            JObject [("responseMimeType", JString "application/json");
                     ("responseSchema",
                      JObject [("properties",
                                JObject [("confidence", JObject [("type", JString "NUMBER")]);
                                         ("plate_number", JObject [("type", JString "STRING")]);
                                         ("readable", JObject [("type", JString "BOOLEAN")])]);
                               ("required", JArray [JString "readable"; JString "plate_number"; JString "confidence"]);
                               ("type", JString "OBJECT")]);
                     ("temperature", JInteger 0)])].

(** [src/ocr/GeminiOcrClient.cpp:158-245 GeminiOcrClient::recognizePlateWithModel] The requests that are sent, and the
    result. *)
Definition recognizePlateWithModel (model image_path enhanced_image_path : string) : list GeminiHttpRequest * OcrResult :=
  if negb (configured c)
  then ([], mkOcrResult false false "" d_zero "" "Gemini API is not configured" ErrConfiguration 0) else
  let parts :=
    let? first := appendImagePart files image_path in
    if is_empty enhanced_image_path then Ok [JObject [("text", JString prompt)]; first] else
    let? second := appendImagePart files enhanced_image_path in
    Ok [JObject [("text", JString prompt)]; first; second] in
  match parts with
  | Err what => ([], mkOcrResult false false "" d_zero "" what ErrImage 0)
  | Ok parts =>
      let url := "https://generativelanguage.googleapis.com/v1beta/models/" +:+ model +:+ ":generateContent" in
      let request := mkHttpRequest url (cl_api_key c) (json_dump (request_json parts)) (cl_connect_timeout_sec c)
                       (cl_request_timeout_sec c) in
      let response := http request in
      let status := hr_status response in
      ([request],
       if negb (hr_completed response)
       then mkOcrResult false false "" d_zero ""
              (if is_empty (hr_error response) then "Gemini transport failed" else hr_error response) ErrTransport status
       else if (status <? 200) || (300 <=? status)
       then mkOcrResult false false "" d_zero "" ("Gemini HTTP status " +:+ pretty status) (status_kind status) status
       else gemini_answer status (hr_body response))
  end.

(** [src/ocr/GeminiOcrClient.cpp:139-156 GeminiOcrClient::recognizePlate] *)
Definition recognizePlate (image_path enhanced_image_path : string) : list GeminiHttpRequest * OcrResult :=
  let '(requests, r) := recognizePlateWithModel (cl_model c) image_path enhanced_image_path in
  let fallback_allowed := bool_decide (or_error_kind r = ErrClient) && (or_http_status r =? 404) in
  if negb (or_success r) && fallback_allowed && negb (is_empty (cl_fallback_model c)) &&
     negb (bool_decide (cl_fallback_model c = cl_model c)) then
    let '(requests', r') := recognizePlateWithModel (cl_fallback_model c) image_path enhanced_image_path in
    (requests ++ requests', r')
  else (requests, r).
End Client.
End Gemini.

(** * The worker *)

Import Gemini.

(** [include/ocr/OcrWorker.hpp:17-23 HallCaptureTask] *)
Record HallCaptureTask := mkHallCaptureTask {
  hct_session_id : Z; hct_stage : Z; hct_slot_id : string; hct_image_path : string; hct_enhanced_path : string
}.

(** [include/ocr/OcrWorker.hpp:25-39 HallCaptureResult] *)
Record HallCaptureResult := mkHallCaptureResult {
  hcr_session_id : Z;
  hcr_stage : Z;
  hcr_recognized : bool;
  hcr_ocr_succeeded : bool;
  hcr_plate_unreadable : bool;
  hcr_plate_number : string;
  hcr_confidence : double;
  hcr_classification : string;
  hcr_raw_text : string;
  hcr_error_message : string;
  hcr_processed_at : string
}.

(** [include/ocr/OcrWorker.hpp:43-55 GenericOcrResult] *)
Record GenericResult := mkGenericResult {
  gor_task_id : string;
  gor_recognized : bool;
  gor_ocr_succeeded : bool;
  gor_plate_unreadable : bool;
  gor_plate_number : string;
  gor_confidence : double;
  gor_raw_text : string;
  gor_error_message : string;
  gor_error_kind : OcrErrorKind;
  gor_http_status : Z;
  gor_attempts : Z
}.

(** [include/ocr/OcrWorker.hpp:66-72 RecognitionResult] *)
Record RecognitionResult := mkRecognitionResult {
  rn_session_id : Z; rn_slot_id : string; rn_plate_number : string; rn_classification : string; rn_confidence : double
}.

(** [include/ocr/OcrWorker.hpp:108-119 Task] A callback is named by a number. *)
Record OcrTask := mkOcrTask {
  ot_session_id : Z;
  ot_slot_id : string;
  ot_image_path : string;
  ot_detect_candidate : bool;
  ot_provided_enhanced_path : string;
  ot_hall : bool;
  ot_hall_stage : Z;
  ot_generic : bool;
  ot_generic_task_id : string;
  ot_generic_callback : N
}.

(** [include/ocr/PlateImageEnhancer.hpp:7-10 PlatePreprocessResult] *)
Record PlatePreprocessResult := mkPreprocess { pp_enhanced_path : string; pp_candidate_detected : bool }.

(** What [process] knows of the pictures when its requests begin. *)
Record Pictures := mkPictures {
  pi_input : string; pi_secondary : string; pi_enhanced : string; pi_owned : bool; pi_processed_at : string
}.

(** Where the worker is; it stands before the lock or the call that the constructor names. *)
Inductive OcrAt :=
| NotRunning
| Waiting
| Preparing (t : OcrTask) (processed_at : string)
| CheckStart (t : OcrTask) (p : Pictures)
| CheckAttempt (t : OcrTask) (p : Pictures) (attempt : Z)
| Requesting (t : OcrTask) (p : Pictures) (attempt : Z)
| CheckFailed (t : OcrTask) (p : Pictures) (attempt : Z) (r : OcrResult)
| CheckAnswer (t : OcrTask) (p : Pictures) (attempt : Z) (r : OcrResult)
| Storing (t : OcrTask) (p : Pictures) (attempt : Z) (r : OcrResult) (plate : option string)
| Reporting (t : OcrTask) (h : HallCaptureResult) (g : GenericResult)
| CallingGeneric (t : OcrTask) (g : GenericResult)
| CallingHall (t : OcrTask) (callback : N) (h : HallCaptureResult).

(** Why a task ends without a call: its session is cancelled, there is no callback, or it is a picture that nobody waits
    for. *)
Inductive DropReason := SessionCancelled | NoCallback | NobodyWaits.

(** What the worker and its callers do. *)
Inductive OcrEvent :=
| Accepted (t : OcrTask)
| Cancelled (session : Z)
| Rejected (callback : N) (h : HallCaptureResult)
| Preprocessed (t : OcrTask)
| Requested (t : OcrTask) (attempt : Z) (requests : list GeminiHttpRequest)
| Removed (path : string)
| PlateWritten (t : OcrTask) (plate : string)
| ResultCalled (r : RecognitionResult)
| GenericCalled (t : OcrTask) (g : GenericResult)
| HallCalled (t : OcrTask) (callback : N) (h : HallCaptureResult)
| Dropped (t : OcrTask) (reason : DropReason).

(** [include/ocr/OcrWorker.hpp:126-141 OcrWorker] [os_stop_joins]: a caller of [stop] waits for the thread; the database
    is shared with the other parts of the server. *)
Record OcrState := mkOcrState {
  os_queue : list OcrTask;
  os_accepted_images : gset string;
  os_canceled : gset Z;
  os_hall_callback : option N;
  os_started : bool;
  os_stopping : bool;
  os_stop_joins : bool;
  os_worker : OcrAt;
  os_db : EntranceDb
}.
Definition os_set_queue s x := mkOcrState x (os_accepted_images s) (os_canceled s) (os_hall_callback s) (os_started s)
  (os_stopping s) (os_stop_joins s) (os_worker s) (os_db s).
Definition os_set_images s x := mkOcrState (os_queue s) x (os_canceled s) (os_hall_callback s) (os_started s)
  (os_stopping s) (os_stop_joins s) (os_worker s) (os_db s).
Definition os_set_canceled s x := mkOcrState (os_queue s) (os_accepted_images s) x (os_hall_callback s) (os_started s)
  (os_stopping s) (os_stop_joins s) (os_worker s) (os_db s).
Definition os_set_callback s x := mkOcrState (os_queue s) (os_accepted_images s) (os_canceled s) x (os_started s)
  (os_stopping s) (os_stop_joins s) (os_worker s) (os_db s).
Definition os_set_worker s x := mkOcrState (os_queue s) (os_accepted_images s) (os_canceled s) (os_hall_callback s)
  (os_started s) (os_stopping s) (os_stop_joins s) x (os_db s).
Definition os_set_db s x := mkOcrState (os_queue s) (os_accepted_images s) (os_canceled s) (os_hall_callback s)
  (os_started s) (os_stopping s) (os_stop_joins s) (os_worker s) x.

(** The queue and the images with one task more. *)
Definition os_push (t : OcrTask) (s : OcrState) : OcrState :=
  mkOcrState (os_queue s ++ [t]) ({[ ot_image_path t ]} ∪ os_accepted_images s) (os_canceled s) (os_hall_callback s)
    (os_started s) (os_stopping s) (os_stop_joins s) (os_worker s) (os_db s).

(** [static_cast<int>] of a 64-bit number. *)
Definition to_int (z : Z) : Z := (z + 2 ^ 31) mod 2 ^ 32 - 2 ^ 31.

(** ** The callers *)

Definition queue_limit : Z := 32.
Definition full (s : OcrState) : bool := queue_limit <=? Z.of_nat (length (os_queue s)).

(** [src/ocr/OcrWorker.cpp:42-57 OcrWorker::start] [None] where curl cannot be initialised. *)
Definition ocr_start (c : Client) (curl_ok : bool) (s : OcrState) : OcrState :=
  if negb (configured c) then s else
  if os_started s then s else
  if negb curl_ok
  then mkOcrState (os_queue s) (os_accepted_images s) (os_canceled s) (os_hall_callback s) false false
         (os_stop_joins s) (os_worker s) (os_db s)
  else mkOcrState (os_queue s) (os_accepted_images s) (os_canceled s) (os_hall_callback s) true false
         (os_stop_joins s) Waiting (os_db s).

(** [src/ocr/OcrWorker.cpp:59-65 OcrWorker::stop] The demand. *)
Definition ocr_stop (s : OcrState) : OcrState :=
  if negb (os_started s) then s else
  mkOcrState (os_queue s) (os_accepted_images s) (os_canceled s) (os_hall_callback s) (os_started s) true true
    (os_worker s) (os_db s).

(** [src/ocr/OcrWorker.cpp:66-70 OcrWorker::stop] The thread has ended. *)
Definition ocr_joined (s : OcrState) : OcrState :=
  match os_worker s with
  | NotRunning =>
      if os_stop_joins s
      then mkOcrState (os_queue s) (os_accepted_images s) (os_canceled s) (os_hall_callback s) false (os_stopping s) false
             NotRunning (os_db s)
      else s
  | _ => s
  end.

(** [src/ocr/OcrWorker.cpp:72-89 OcrWorker::enqueue] *)
Definition ocr_enqueue (session_id : Z) (slot_id image_path enhanced_image_path : string) (s : OcrState) :
    list OcrEvent * OcrState :=
  if negb (os_started s) || (session_id <? 0) || is_empty image_path then ([], s) else
  if bool_decide (session_id ∈ os_canceled s) then ([], s) else
  if full s then ([], s) else
  if bool_decide (image_path ∈ os_accepted_images s) then ([], s) else
  let t := mkOcrTask session_id slot_id image_path false enhanced_image_path false 0 false "" 0 in
  ([Accepted t], os_push t s).

(** [src/ocr/OcrWorker.cpp:91-95 OcrWorker::cancelSession] *)
Definition ocr_cancelSession (session_id : Z) (s : OcrState) : list OcrEvent * OcrState :=
  if session_id <? 0 then ([], s) else
  ([Cancelled session_id], os_set_canceled s ({[ session_id ]} ∪ os_canceled s)).

(** [src/ocr/OcrWorker.cpp:97-108 OcrWorker::enqueueScene] *)
Definition ocr_enqueueScene (slot_id image_path enhanced_image_path : string) (s : OcrState) : list OcrEvent * OcrState :=
  if negb (os_started s) || is_empty slot_id || is_empty image_path || is_empty enhanced_image_path then ([], s) else
  if full s || bool_decide (image_path ∈ os_accepted_images s) then ([], s) else
  let t := mkOcrTask (-1) slot_id image_path false enhanced_image_path false 0 false "" 0 in
  ([Accepted t], os_push t s).

(** [src/ocr/OcrWorker.cpp:110-113 OcrWorker::setHallCaptureCallback] *)
Definition setHallCaptureCallback (callback : option N) (s : OcrState) : OcrState := os_set_callback s callback.

(** [src/ocr/OcrWorker.cpp:115-142 OcrWorker::enqueueHallCapture] [now]: the text of the time. *)
Definition ocr_enqueueHallCapture (now : string) (request : HallCaptureTask) (s : OcrState) : list OcrEvent * OcrState :=
  let acceptable := os_started s && (0 <=? hct_session_id request) && negb (is_empty (hct_image_path request)) &&
                    negb (bool_decide (to_int (hct_session_id request) ∈ os_canceled s)) in
  if acceptable && negb (full s) && negb (bool_decide (hct_image_path request ∈ os_accepted_images s)) then
    let t := mkOcrTask (to_int (hct_session_id request)) (hct_slot_id request) (hct_image_path request) false
               (hct_enhanced_path request) true (hct_stage request) false "" 0 in
    ([Accepted t], os_push t s)
  else
    match os_hall_callback s with
    | Some callback =>
        ([Rejected callback (mkHallCaptureResult (hct_session_id request) (hct_stage request) false false false "" d_zero
                               "OCR_FAILED" "" "OCR task was rejected by the bounded queue" now)], s)
    | None => ([], s)
    end.

(** [src/ocr/OcrWorker.cpp:144-156 OcrWorker::enqueueGeneric] [callback]: [None] is an empty function. *)
Definition ocr_enqueueGeneric (task_id image_path : string) (callback : option N) (s : OcrState) :
    bool * list OcrEvent * OcrState :=
  match callback with
  | None => (false, [], s)
  | Some callback =>
      if is_empty task_id || is_empty image_path then (false, [], s) else
      if negb (os_started s) || os_stopping s || full s || bool_decide (image_path ∈ os_accepted_images s)
      then (false, [], s) else
      let t := mkOcrTask (-1) "" image_path false "" false 0 true task_id callback in
      (true, [Accepted t], os_push t s)
  end.

(** ** The thread *)

Section Worker.
Context {JL : JsonLibrary} {ES : EntranceSql} (json_double : json -> option double).

(** [include/ocr/OcrWorker.hpp:126-131 OcrWorker] What the constructor keeps. *)
Record OcrConfig := mkOcrConfig {
  oc_client : Client;
  oc_preprocess_enabled : bool;
  oc_result_callback : bool;
  oc_match_window_ms : Z;
  oc_match_min_confidence : double
}.
Context (cfg : OcrConfig).

(** What is outside of a step: the clock, the picture processing, the size of the improved picture's file ([None]: it
    is no regular file), the disk under the database, and the files and the service that a request meets. *)
Record OcrOutside := mkOcrOutside {
  oo_now : string;
  oo_preprocess : PlatePreprocessResult;
  oo_file_size : option Z;
  oo_attach_fails : bool;
  oo_event_fails : bool;
  oo_files : string -> option (list Z);
  oo_http : GeminiHttpRequest -> GeminiHttpResponse
}.

(** [src/ocr/OcrWorker.cpp:16-21 usableImageFile] *)
Definition usableImageFile (path : string) (o : OcrOutside) : bool :=
  negb (is_empty path) && match oo_file_size o with Some size => 0 <? size | None => false end.

Definition hall_result_of (t : OcrTask) (processed_at : string) : HallCaptureResult :=
  mkHallCaptureResult (ot_session_id t) (ot_hall_stage t) false false false "" d_zero "OCR_FAILED" "" "" processed_at.
Definition generic_result_of (t : OcrTask) (attempts : Z) : GenericResult :=
  mkGenericResult (ot_generic_task_id t) false false false "" d_zero "" "" ErrNone 0 attempts.

(** [src/ocr/OcrWorker.cpp:276-280 OcrWorker::process] *)
Definition session_canceled (t : OcrTask) (s : OcrState) : bool :=
  (0 <=? ot_session_id t) && bool_decide (ot_session_id t ∈ os_canceled s).

(** [src/ocr/OcrWorker.cpp:281-287 OcrWorker::process] *)
Definition remove_owned_enhanced (p : Pictures) : list OcrEvent :=
  if negb (pi_owned p) || is_empty (pi_enhanced p) then [] else [Removed (pi_enhanced p)].

(** [src/ocr/OcrWorker.cpp:222-274 OcrWorker::process] Up to the first check of the session. *)
Definition process_prepare (t : OcrTask) (processed_at : string) (o : OcrOutside) (s : OcrState) :
    list OcrEvent * OcrState :=
  let nothing := Reporting t (hall_result_of t processed_at) (generic_result_of t 0) in
  if negb (oc_preprocess_enabled cfg) && ot_detect_candidate t then ([], os_set_worker s nothing) else
  let made := oc_preprocess_enabled cfg && is_empty (ot_provided_enhanced_path t) in
  let events := if made then [Preprocessed t] else [] in
  if made && ot_detect_candidate t && negb (pp_candidate_detected (oo_preprocess o))
  then (events, os_set_worker s nothing) else
  let enhanced := if made then pp_enhanced_path (oo_preprocess o) else ot_provided_enhanced_path t in
  let d := ed_parking (os_db s) in
  let d1 := if made && negb (is_empty enhanced) && negb (ot_generic t)
            then snd (attachEnhancedPlateImage (oo_attach_fails o) (ot_image_path t) enhanced d) else d in
  if ot_hall t then
    let usable := usableImageFile enhanced o in
    let input := if usable then enhanced else ot_image_path t in
    let input_kind := if usable then
                        if is_empty (ot_provided_enhanced_path t) then "generated_enhanced" else "camera_enhanced"
                      else "original_fallback" in
    let selection := "session=" +:+ pretty (ot_session_id t) +:+ " slot=" +:+ ot_slot_id t +:+ " input=" +:+
                     input_kind +:+ " path=" +:+ input in
    let d2 := insertSystemEvent (oo_event_fails o) "HALL_OCR_INPUT_SELECTED" (ot_slot_id t) selection d1 in
    (events, os_set_worker (os_set_db s (ed_set_parking (os_db s) d2))
               (CheckStart t (mkPictures input "" enhanced (made && negb (is_empty enhanced)) processed_at)))
  else
    (events, os_set_worker (os_set_db s (ed_set_parking (os_db s) d1))
               (CheckStart t (mkPictures (ot_image_path t) enhanced enhanced (made && negb (is_empty enhanced))
                                processed_at))).

(** The result of a task whose answer has come; [recognized]: the plate and its class. *)
Definition hall_answered (t : OcrTask) (p : Pictures) (r : OcrResult) (unreadable : bool)
    (recognized : option (string * string)) : HallCaptureResult :=
  mkHallCaptureResult (ot_session_id t) (ot_hall_stage t) (bool_decide (is_Some recognized)) true unreadable
    (match recognized with Some (plate, _) => plate | None => "" end)
    (if bool_decide (is_Some recognized) then or_confidence r else d_zero)
    (match recognized with Some (_, classification) => classification | None => "OCR_FAILED" end)
    (or_raw_text r) "" (pi_processed_at p).
Definition generic_answered (t : OcrTask) (attempts : Z) (r : OcrResult) (unreadable : bool) (plate : option string) :
    GenericResult :=
  mkGenericResult (ot_generic_task_id t) (bool_decide (is_Some plate)) true unreadable (default "" plate)
    (if bool_decide (is_Some plate) then or_confidence r else d_zero) (or_raw_text r) "" (or_error_kind r)
    (or_http_status r) attempts.

(** [src/ocr/OcrWorker.cpp:316-330 OcrWorker::process] *)
Definition process_failed (t : OcrTask) (p : Pictures) (attempts : Z) (r : OcrResult) : OcrAt :=
  Reporting t
    (mkHallCaptureResult (ot_session_id t) (ot_hall_stage t) false false false "" d_zero "OCR_FAILED" (or_raw_text r)
       (or_error r) (pi_processed_at p))
    (mkGenericResult (ot_generic_task_id t) false false false "" d_zero (or_raw_text r) (or_error r) (or_error_kind r)
       (or_http_status r) attempts).

(** [src/ocr/OcrWorker.cpp:343-361 OcrWorker::process] The session is not cancelled. *)
Definition process_answer (t : OcrTask) (p : Pictures) (attempts : Z) (r : OcrResult) : OcrAt :=
  let plate := normalizePlateNumber (bytes_of_string (or_plate_number r)) in
  if negb (or_readable r) || negb (isPlausibleKoreanPlate plate) then
    if ot_generic t
    then Reporting t (hall_answered t p r true None) (generic_answered t attempts r true None)
    else Storing t p attempts r None
  else if ot_generic t
  then Reporting t (hall_answered t p r false None) (generic_answered t attempts r false (Some (string_of_bytes plate)))
  else Storing t p attempts r (Some (string_of_bytes plate)).

(** [src/ocr/OcrWorker.cpp:352-390 OcrWorker::process] What is written to the database and told the caller. *)
Definition process_store (t : OcrTask) (p : Pictures) (attempts : Z) (r : OcrResult) (plate : option string)
    (s : OcrState) : list OcrEvent * OcrState :=
  match plate with
  | None =>
      let '(_, d) := applyPlateOcr (ot_session_id t) (ot_slot_id t) (ot_image_path t) "" (or_confidence r) (os_db s) in
      ([PlateWritten t ""],
       os_set_worker (os_set_db s d) (Reporting t (hall_answered t p r true None) (generic_answered t attempts r true None)))
  | Some plate =>
      let '(resolution, d) := applyPlateOcrWithEntrance (ot_session_id t) (ot_slot_id t) (ot_image_path t) plate
                                (or_confidence r) (oc_match_window_ms cfg) (oc_match_min_confidence cfg) (os_db s) in
      let canonicalPlate := if is_empty (pr_canonical_plate resolution) then plate else pr_canonical_plate resolution in
      let classification := pr_classification resolution in
      let told := if negb (ot_hall t) && oc_result_callback cfg && (0 <=? ot_session_id t)
                  then [ResultCalled (mkRecognitionResult (ot_session_id t) (ot_slot_id t) canonicalPlate classification
                                        (or_confidence r))]
                  else [] in
      (PlateWritten t plate :: told,
       os_set_worker (os_set_db s d)
         (Reporting t (hall_answered t p r false (Some (canonicalPlate, classification)))
            (generic_answered t attempts r false None)))
  end.

(** [src/ocr/OcrWorker.cpp:158-220 OcrWorker::run] With [OcrWorker::process] (222-390): one step of the thread, from a
    lock or a call to the next. *)
Definition ocr_step (o : OcrOutside) (s : OcrState) : list OcrEvent * OcrState :=
  match os_worker s with
  | NotRunning => ([], s)
  | Waiting =>
      match os_queue s with
      | [] => ([], if os_stopping s then os_set_worker s NotRunning else s)
      | t :: queue =>
          let s := os_set_queue s queue in
          if session_canceled t s then ([Dropped t SessionCancelled], s) else ([], os_set_worker s (Preparing t (oo_now o)))
      end
  | Preparing t processed_at => process_prepare t processed_at o s
  | CheckStart t p =>
      if session_canceled t s
      then (remove_owned_enhanced p,
            os_set_worker s (Reporting t (hall_result_of t (pi_processed_at p)) (generic_result_of t 0)))
      else ([], os_set_worker s (CheckAttempt t p 1))
  | CheckAttempt t p attempt =>
      if session_canceled t s
      then (remove_owned_enhanced p,
            os_set_worker s (Reporting t (hall_result_of t (pi_processed_at p)) (generic_result_of t attempt)))
      else ([], os_set_worker s (Requesting t p attempt))
  | Requesting t p attempt =>
      let '(requests, r) := recognizePlate json_double (oo_files o) (oo_http o) (oc_client cfg) (pi_input p)
                              (pi_secondary p) in
      ([Requested t attempt requests],
       os_set_worker s (if or_success r then CheckAnswer t p attempt r else CheckFailed t p attempt r))
  | CheckFailed t p attempt r =>
      if session_canceled t s
      then (remove_owned_enhanced p,
            os_set_worker s (Reporting t (hall_result_of t (pi_processed_at p)) (generic_result_of t attempt)))
      else ([], os_set_worker s (if (attempt =? 3) || negb (retryable r) then process_failed t p attempt r
                                 else CheckAttempt t p (attempt + 1)))
  | CheckAnswer t p attempt r =>
      if session_canceled t s
      then (remove_owned_enhanced p,
            os_set_worker s (Reporting t (hall_answered t p r false None) (generic_answered t attempt r false None)))
      else ([], os_set_worker s (process_answer t p attempt r))
  | Storing t p attempt r plate => process_store t p attempt r plate s
  | Reporting t h g =>
      if ot_generic t
      then ([], os_set_worker (os_set_images s (os_accepted_images s ∖ {[ ot_image_path t ]})) (CallingGeneric t g)) else
      if ot_hall t then
        if bool_decide (ot_session_id t ∈ os_canceled s) then ([Dropped t SessionCancelled], os_set_worker s Waiting) else
        match os_hall_callback s with
        | Some callback => ([], os_set_worker s (CallingHall t callback h))
        | None => ([Dropped t NoCallback], os_set_worker s Waiting)
        end
      else ([Dropped t NobodyWaits], os_set_worker s Waiting)
  | CallingGeneric t g => ([GenericCalled t g], os_set_worker s Waiting)
  | CallingHall t callback h => ([HallCalled t callback h], os_set_worker s Waiting)
  end.

(** Everything that happens: the calls in any order between the steps of the thread; others write the database. *)
Inductive OcrOp :=
| OpStart (curl_ok : bool)
| OpStop
| OpJoined
| OpEnqueue (session_id : Z) (slot_id image_path enhanced : string)
| OpScene (slot_id image_path enhanced : string)
| OpHall (now : string) (request : HallCaptureTask)
| OpGeneric (task_id image_path : string) (callback : option N)
| OpSetCallback (callback : option N)
| OpCancel (session_id : Z)
| OpOthers (d : EntranceDb)
| OpWorker (o : OcrOutside).

Definition ocr_op (op : OcrOp) (s : OcrState) : list OcrEvent * OcrState :=
  match op with
  | OpStart curl_ok => ([], ocr_start (oc_client cfg) curl_ok s)
  | OpStop => ([], ocr_stop s)
  | OpJoined => ([], ocr_joined s)
  | OpEnqueue session slot image enhanced => ocr_enqueue session slot image enhanced s
  | OpScene slot image enhanced => ocr_enqueueScene slot image enhanced s
  | OpHall now request => ocr_enqueueHallCapture now request s
  | OpGeneric id image callback => let '(_, events, s') := ocr_enqueueGeneric id image callback s in (events, s')
  | OpSetCallback callback => ([], setHallCaptureCallback callback s)
  | OpCancel session => ocr_cancelSession session s
  | OpOthers d => ([], os_set_db s d)
  | OpWorker o => ocr_step o s
  end.

Fixpoint ocr_run (ops : list OcrOp) (s : OcrState) : list OcrEvent * OcrState :=
  match ops with
  | [] => ([], s)
  | op :: ops => let '(events, s1) := ocr_op op s in
                 let '(events', s2) := ocr_run ops s1 in
                 (events ++ events', s2)
  end.

(** [src/ocr/OcrWorker.cpp:25-36 OcrWorker::OcrWorker] *)
Definition ocr_init (d : EntranceDb) : OcrState := mkOcrState [] ∅ ∅ None false false false NotRunning d.
End Worker.
