(* ===== verification/OcrSafety.v ===== *)
(** What the reading of plates guarantees: every accepted picture is worked on once, in its order, and answered; a session
    that is cancelled is left alone; and what is sent to the service is the picture. *)
From S2P Require Import Prelude SlotConfig OccupancyDb Doubles ParkingDb EntranceDb Plate Ocr.
Import Ocr.Gemini.

#[local] Open Scope Z_scope.

Section Worker.
Context {JL : JsonLibrary} {ES : EntranceSql} (json_double : json -> option double) (cfg : OcrConfig).
#[local] Notation run := (ocr_run json_double cfg).
#[local] Notation op := (ocr_op json_double cfg).
#[local] Notation step := (ocr_step json_double cfg).

Lemma ocr_run_app ops1 ops2 s :
  run (ops1 ++ ops2) s = ((run ops1 s).1 ++ (run ops2 (run ops1 s).2).1, (run ops2 (run ops1 s).2).2).
Proof.
  revert s. induction ops1 as [|o ops1 IH]; intros s; cbn [ocr_run app fst snd]; [by destruct (run ops2 s)|].
  destruct (op o s) as [e1 s1]. rewrite IH. destruct (run ops1 s1) as [e2 s2]. simpl. destruct (run ops2 s2). simpl.
  by rewrite app_assoc.
Qed.

(** * Accounts *)

Definition accepted_of (e : OcrEvent) : option OcrTask := match e with Accepted t => Some t | _ => None end.
Definition closed_of (e : OcrEvent) : option OcrTask :=
  match e with GenericCalled t _ | HallCalled t _ _ | Dropped t _ => Some t | _ => None end.
Definition accepted (evs : list OcrEvent) : list OcrTask := omap accepted_of evs.
Definition closed (evs : list OcrEvent) : list OcrTask := omap closed_of evs.

(** The task the worker works on. *)
Definition in_hand (s : OcrState) : list OcrTask :=
  match os_worker s with
  | NotRunning | Waiting => []
  | Preparing t _ | CheckStart t _ | CheckAttempt t _ _ | Requesting t _ _ | CheckFailed t _ _ _ | CheckAnswer t _ _ _
  | Storing t _ _ _ _ | Reporting t _ _ | CallingGeneric t _ | CallingHall t _ _ => [t]
  end.

(** A task of the entrance belongs to no session and is no task of the hall. *)
Definition task_ok (t : OcrTask) : Prop := ot_generic t = true -> ot_session_id t = -1 /\ ot_hall t = false.

(** What a location of the worker knows. *)
Definition at_ok (w : OcrAt) : Prop :=
  match w with
  | CheckAttempt _ _ a | Requesting _ _ a | CheckFailed _ _ a _ | CheckAnswer _ _ a _ => 1 <= a <= 3
  | Storing t _ a _ _ => ot_generic t = false
  | Reporting t h g => gor_task_id g = ot_generic_task_id t /\ hcr_session_id h = ot_session_id t /\ hcr_stage h = ot_hall_stage t
  | CallingGeneric t g => ot_generic t = true /\ gor_task_id g = ot_generic_task_id t
  | CallingHall t _ h => ot_hall t = true /\ hcr_session_id h = ot_session_id t /\ hcr_stage h = ot_hall_stage t
  | _ => True
  end.

(** The picture of the task in hand, as long as it is kept in the set. *)
Definition held_image (s : OcrState) : list string :=
  match os_worker s with CallingGeneric _ _ => [] | _ => ot_image_path <$> in_hand s end.

Record ocr_ok (s : OcrState) : Prop := {
  ok_started : os_started s = false -> os_worker s = NotRunning;
  ok_tasks : Forall task_ok (in_hand s ++ os_queue s);
  ok_at : at_ok (os_worker s);
  ok_limit : Z.of_nat (length (os_queue s)) <= queue_limit;
  ok_images : NoDup (held_image s ++ (ot_image_path <$> os_queue s));
  ok_kept : forall image, image ∈ held_image s ++ (ot_image_path <$> os_queue s) -> image ∈ os_accepted_images s
}.

(** What an event says of its task. *)
Definition event_ok (cancelled : gset Z) (e : OcrEvent) : Prop :=
  match e with
  | Requested _ a requests => 1 <= a <= 3 /\ (length requests <= 2)%nat
  | GenericCalled t g => ot_generic t = true /\ gor_task_id g = ot_generic_task_id t
  | HallCalled t _ h => ot_hall t = true /\ hcr_session_id h = ot_session_id t /\ hcr_stage h = ot_hall_stage t
  | Dropped t SessionCancelled => ot_generic t = false /\ ot_session_id t ∈ cancelled
  | Dropped t NoCallback => ot_generic t = false /\ ot_hall t = true
  | Dropped t NobodyWaits => ot_generic t = false /\ ot_hall t = false
  | _ => True
  end.

(** What an operation does: it keeps the invariant and the accounts. *)
Definition op_spec (s : OcrState) (r : list OcrEvent * OcrState) : Prop :=
  ocr_ok r.2 /\ os_canceled s ⊆ os_canceled r.2 /\
  in_hand s ++ os_queue s ++ accepted r.1 = closed r.1 ++ in_hand r.2 ++ os_queue r.2 /\
  Forall (event_ok (os_canceled s)) r.1.

Lemma push_ok t s :
  ocr_ok s -> task_ok t -> Z.of_nat (length (os_queue s)) < queue_limit -> ot_image_path t ∉ os_accepted_images s ->
  op_spec s ([Accepted t], os_push t s).
Proof.
  intros [Hs Ht Ha Hl Hi Hk] Hok Hq Hn. split; [|split; [done|split]]; simpl.
  - split; simpl; [done| |done| | |].
    + unfold in_hand in *. simpl. rewrite app_assoc. apply Forall_app_2; [done|]. by constructor.
    + rewrite length_app. simpl. lia.
    + unfold held_image, in_hand in *. simpl. rewrite fmap_app, app_assoc. apply NoDup_app. split; [done|].
      split; [|by apply NoDup_singleton]. intros i Hi1%Hk [= ->]%list_elem_of_singleton. done.
    + intros i. unfold held_image, in_hand in *. simpl. rewrite fmap_app, app_assoc, elem_of_app.
      change (ot_image_path <$> [t]) with [ot_image_path t]. rewrite list_elem_of_singleton.
      intros [Hi1%Hk | ->]; set_solver.
  - unfold in_hand. simpl. by rewrite app_assoc.
  - by constructor.
Qed.

Lemma same_spec s : ocr_ok s -> op_spec s ([], s).
Proof. intros Hs. split; [done|]. split; [done|]. by rewrite app_nil_r. Qed.

(** ** The thread *)

(** A step of the worker that keeps its task, the queue and the pictures. *)
Lemma keep_spec s evs w d :
  ocr_ok s -> in_hand (os_set_worker s w) = in_hand s -> held_image (os_set_worker s w) = held_image s -> at_ok w ->
  os_started s = true -> accepted evs = [] -> closed evs = [] -> Forall (event_ok (os_canceled s)) evs ->
  op_spec s (evs, os_set_worker (os_set_db s d) w).
Proof.
  intros [Hs Ht Ha Hl Hi Hk] Hh Hm Hw Hst Hacc Hcl Hev.
  assert (Hh' : in_hand (os_set_worker (os_set_db s d) w) = in_hand s) by done.
  assert (Hm' : held_image (os_set_worker (os_set_db s d) w) = held_image s) by done.
  split; [|split; [done|split; [|done]]]; cbn [fst snd].
  - split; rewrite ?Hh', ?Hm'; simpl; try done. by rewrite Hst.
  - rewrite Hh', Hacc, Hcl. simpl. by rewrite app_nil_r.
Qed.

(** A step that ends the task in hand. *)
Lemma close_spec s t e w :
  ocr_ok s -> in_hand s = [t] -> closed_of e = Some t -> accepted_of e = None -> w = Waiting -> os_started s = true ->
  event_ok (os_canceled s) e -> op_spec s ([e], os_set_worker s w).
Proof.
  intros [Hs Ht Ha Hl Hi Hk] Hh Hc Hacc -> Hst He. split; [|split; [done|split]]; simpl.
  - rewrite Hh in Ht. split; simpl; try done.
    + by rewrite Hst.
    + by inversion Ht.
    + by apply NoDup_app in Hi as (_ & _ & Hi).
    + intros i Hi'. apply Hk. rewrite elem_of_app. by right.
  - rewrite Hh, Hc, Hacc. simpl. by rewrite app_nil_r.
  - by constructor.
Qed.

Lemma canceled_mem t s : session_canceled t s = true -> ot_session_id t ∈ os_canceled s /\ 0 <= ot_session_id t.
Proof. unfold session_canceled. intros [?%Z.leb_le ?%bool_decide_eq_true_1]%andb_prop. done. Qed.

Lemma removed_events p cancelled :
  accepted (remove_owned_enhanced p) = [] /\ closed (remove_owned_enhanced p) = [] /\
  Forall (event_ok cancelled) (remove_owned_enhanced p).
Proof. unfold remove_owned_enhanced. destruct (negb (pi_owned p) || is_empty (pi_enhanced p)); repeat constructor. Qed.

Lemma recognize_length files http c image enhanced :
  (length (recognizePlate json_double files http c image enhanced).1 <= 2)%nat.
Proof.
  assert (H1 : forall m, (length (recognizePlateWithModel json_double files http c m image enhanced).1 <= 1)%nat).
  { intros m. unfold recognizePlateWithModel. destruct (negb (configured c)); [simpl; lia|].
    destruct (let? first := appendImagePart files image in _); simpl; lia. }
  unfold recognizePlate. pose proof (H1 (cl_model c)). pose proof (H1 (cl_fallback_model c)).
  destruct (recognizePlateWithModel _ _ _ _ (cl_model c) _ _) as [a r].
  destruct (recognizePlateWithModel _ _ _ _ (cl_fallback_model c) _ _) as [b r']. cbn [fst] in *.
  destruct (negb (or_success r) && _ && _ && _); cbn [fst]; rewrite ?length_app; lia.
Qed.

Lemma prepare_spec t at_ o s :
  ocr_ok s -> os_worker s = Preparing t at_ -> os_started s = true -> op_spec s (process_prepare cfg t at_ o s).
Proof.
  intros Hs Hw Hst. unfold process_prepare. cbv zeta.
  assert (Hh : forall w, in_hand (os_set_worker s w) = [t] -> in_hand (os_set_worker s w) = in_hand s)
    by (intros w ->; unfold in_hand; by rewrite Hw).
  assert (Hm : held_image s = [ot_image_path t]) by (unfold held_image, in_hand; by rewrite Hw).
  assert (Hev : forall b : bool, let evs := if b then [Preprocessed t] else [] in
    accepted evs = [] /\ closed evs = [] /\ Forall (event_ok (os_canceled s)) evs) by (intros []; repeat constructor).
  assert (Hkeep : forall (b : bool) w d, in_hand (os_set_worker s w) = [t] ->
    held_image (os_set_worker s w) = [ot_image_path t] -> at_ok w ->
    op_spec s (if b then [Preprocessed t] else [], os_set_worker (os_set_db s d) w)).
  { intros b w d H1 H2 H3. destruct (Hev b) as (He1 & He2 & He3).
    apply keep_spec; [done|by apply Hh|by rewrite Hm|done|done|exact He1|exact He2|exact He3]. }
  assert (Hsame : forall w, os_set_worker s w = os_set_worker (os_set_db s (os_db s)) w) by done.
  destruct (negb (oc_preprocess_enabled cfg) && ot_detect_candidate t); [rewrite Hsame; by apply (Hkeep false)|].
  set (made := oc_preprocess_enabled cfg && is_empty (ot_provided_enhanced_path t)).
  destruct (made && ot_detect_candidate t && _); [rewrite Hsame; by apply (Hkeep made)|].
  destruct (ot_hall t); by apply (Hkeep made).
Qed.

Lemma store_spec t p a r plate s :
  ocr_ok s -> os_worker s = Storing t p a r plate -> os_started s = true -> op_spec s (process_store cfg t p a r plate s).
Proof.
  intros Hs Hw Hst. unfold process_store.
  assert (Hh : in_hand s = [t]) by (unfold in_hand; by rewrite Hw).
  assert (Hm : held_image s = [ot_image_path t]) by (unfold held_image, in_hand; by rewrite Hw).
  destruct plate as [plate|].
  - destruct (applyPlateOcrWithEntrance _ _ _ _ _ _ _ _) as [resolution d]. cbv zeta.
    apply keep_spec; [done|by rewrite Hh|by rewrite Hm|done|done| | |]; destruct (negb (ot_hall t) && _ && _); repeat constructor.
  - destruct (applyPlateOcr _ _ _ _ _ _) as [class d]. apply keep_spec; [done|by rewrite Hh|by rewrite Hm|done..|repeat constructor].
Qed.

(** The obligations of a step that keeps its task. *)
Ltac move_tac Hw :=
  try done; try (unfold held_image, in_hand; rewrite Hw; done); try (constructor; [simpl in *; split; [lia|done]|constructor]);
  try (simpl in *; lia); try (simpl in *; naive_solver).

Lemma leave_spec p s w :
  ocr_ok s -> in_hand (os_set_worker s w) = in_hand s -> held_image (os_set_worker s w) = held_image s -> at_ok w ->
  os_started s = true -> op_spec s (remove_owned_enhanced p, os_set_worker s w).
Proof.
  intros Hs H1 H2 H3 Hst. destruct (removed_events p (os_canceled s)) as (He1 & He2 & He3).
  change (os_set_worker s w) with (os_set_worker (os_set_db s (os_db s)) w). by apply keep_spec.
Qed.

(** The next task of the queue: it is dropped, or it is in hand. *)
Lemma pop_spec t queue s :
  ocr_ok s -> os_worker s = Waiting -> os_started s = true -> os_queue s = t :: queue ->
  (session_canceled t (os_set_queue s queue) = true -> op_spec s ([Dropped t SessionCancelled], os_set_queue s queue)) /\
  (forall now, op_spec s ([], os_set_worker (os_set_queue s queue) (Preparing t now))).
Proof.
  intros [Hs Ht Ha Hl Hi Hk] Hw Hst Hq. unfold held_image, in_hand in *. rewrite Hw, Hq in *. simpl in *.
  inversion Ht as [|? ? Ht1 Ht2]; subst. split.
  - intros [Hc Hpos]%canceled_mem. simpl in Hc. split; [|split; [done|split]]; simpl.
    + split; unfold held_image, in_hand; simpl; rewrite ?Hw; simpl; try done; [lia| |].
      * by inversion Hi.
      * intros i Hi'. apply Hk. by right.
    + unfold in_hand. simpl. by rewrite Hw, Hq, app_nil_r.
    + constructor; [|constructor]. simpl. split; [|done]. destruct (ot_generic t) eqn:Eg; [|done]. destruct (Ht1 Eg). lia.
  - intros now. split; [|split; [done|split; [|constructor]]]; simpl.
    + split; unfold held_image, in_hand; simpl; try done; [by rewrite Hst|lia].
    + unfold in_hand. simpl. by rewrite Hw, Hq, app_nil_r.
Qed.

(** The picture of a task of the entrance is given free before its answer. *)
Lemma release_spec t h g s :
  ocr_ok s -> os_worker s = Reporting t h g -> os_started s = true -> ot_generic t = true ->
  gor_task_id g = ot_generic_task_id t ->
  op_spec s ([], os_set_worker (os_set_images s (os_accepted_images s ∖ {[ ot_image_path t ]})) (CallingGeneric t g)).
Proof.
  intros [Hs Ht Ha Hl Hi Hk] Hw Hst Hg Hid. unfold held_image, in_hand in *. rewrite Hw in *. simpl in *.
  split; [|split; [done|split; [|constructor]]]; simpl.
  - split; unfold held_image, in_hand; simpl; try done; [by rewrite Hst|by inversion Hi|].
    intros i Hi'. apply NoDup_cons in Hi as [Hn _]. assert (i <> ot_image_path t) by (intros ->; done).
    assert (i ∈ os_accepted_images s) by (apply Hk; by right). set_solver.
  - unfold in_hand. simpl. by rewrite Hw, app_nil_r.
Qed.

Lemma step_spec o s : ocr_ok s -> op_spec s (step o s).
Proof.
  intros Hs. destruct (os_started s) eqn:Hst.
  2:{ unfold ocr_step. rewrite (ok_started s Hs Hst). by apply same_spec. }
  assert (Hsame : forall w, os_set_worker s w = os_set_worker (os_set_db s (os_db s)) w) by done.
  pose proof (ok_at s Hs) as Hat. pose proof (ok_tasks s Hs) as Htask.
  unfold ocr_step.
  destruct (os_worker s) as [| |t now|t p|t p a|t p a|t p a r|t p a r|t p a r plate|t h g|t g|t cb h] eqn:Hw.
  - by apply same_spec.
  - destruct (os_queue s) as [|t queue] eqn:Hq.
    { destruct (os_stopping s); [|by apply same_spec].
      rewrite Hsame. apply keep_spec; move_tac Hw. }
    destruct (pop_spec t queue s Hs Hw Hst Hq) as [Hdrop Hpop].
    destruct (session_canceled t (os_set_queue s queue)) eqn:Ec; [by apply Hdrop|by apply Hpop].
  - by apply prepare_spec.
  - destruct (session_canceled t s); [apply leave_spec|rewrite Hsame; apply keep_spec]; move_tac Hw.
  - destruct (session_canceled t s); [apply leave_spec|rewrite Hsame; apply keep_spec]; move_tac Hw.
  - pose proof (recognize_length (oo_files o) (oo_http o) (oc_client cfg) (pi_input p) (pi_secondary p)) as Hl.
    destruct (recognizePlate _ _ _ _ _ _) as [requests r]. rewrite Hsame.
    destruct (or_success r); apply keep_spec; move_tac Hw.
  - destruct (session_canceled t s); [apply leave_spec; move_tac Hw|]. rewrite Hsame.
    destruct (Z.eqb_spec a 3); cbn [orb]; [|destruct (negb (retryable r))]; apply keep_spec; move_tac Hw.
  - destruct (session_canceled t s); [apply leave_spec; move_tac Hw|]. rewrite Hsame. unfold process_answer. cbv zeta.
    destruct (negb (or_readable r) || _); destruct (ot_generic t) eqn:Eg; apply keep_spec; move_tac Hw.
  - by apply store_spec.
  - unfold in_hand in Htask. rewrite Hw in Htask. apply Forall_inv in Htask. destruct Hat as (Hg & Hh1 & Hh2).
    destruct (ot_generic t) eqn:Eg; [by apply (release_spec t h g)|].
    assert (Hih : in_hand s = [t]) by (unfold in_hand; by rewrite Hw).
    destruct (ot_hall t) eqn:Eh; [|by apply (close_spec s t)].
    case_bool_decide; [by apply (close_spec s t)|].
    destruct (os_hall_callback s); [|by apply (close_spec s t)].
    rewrite Hsame. apply keep_spec; move_tac Hw.
  - apply (close_spec s t); move_tac Hw.
  - apply (close_spec s t); move_tac Hw.
Qed.

(** ** The callers *)

(** An operation that leaves the queue, the pictures and the task in hand. *)
Lemma frame_spec s s' evs :
  ocr_ok s -> os_queue s' = os_queue s -> os_accepted_images s' = os_accepted_images s ->
  in_hand s' = in_hand s -> held_image s' = held_image s -> at_ok (os_worker s') ->
  (os_started s' = false -> os_worker s' = NotRunning) -> os_canceled s ⊆ os_canceled s' ->
  accepted evs = [] -> closed evs = [] -> Forall (event_ok (os_canceled s)) evs -> op_spec s (evs, s').
Proof.
  intros [Hs Ht Ha Hl Hi Hk] Hq Hp Hh Hm Hw Hst Hc Hacc Hcl Hev. split; [|split; [done|split; [|done]]]; cbn [fst snd].
  - split; rewrite ?Hh, ?Hm, ?Hq, ?Hp; done.
  - rewrite Hh, Hq, Hacc, Hcl. simpl. by rewrite app_nil_r.
Qed.

Lemma start_spec curl_ok s : ocr_ok s -> op_spec s ([], ocr_start (oc_client cfg) curl_ok s).
Proof.
  intros Hs. pose proof (ok_started s Hs) as Hn. unfold ocr_start. destruct (negb (configured (oc_client cfg))); [by apply same_spec|].
  destruct (os_started s) eqn:Hst; [by apply same_spec|]. specialize (Hn eq_refl).
  destruct (negb curl_ok); apply frame_spec; unfold held_image, in_hand; simpl; rewrite ?Hn; done.
Qed.

Lemma not_full s : full s = false -> Z.of_nat (length (os_queue s)) < queue_limit.
Proof. by intros ?%Z.leb_gt. Qed.

Lemma enqueue_spec session slot image enhanced s : ocr_ok s -> op_spec s (ocr_enqueue session slot image enhanced s).
Proof.
  intros Hs. unfold ocr_enqueue. destruct (_ || _ || is_empty image); [by apply same_spec|].
  case_bool_decide; [by apply same_spec|]. destruct (full s) eqn:Hf; [by apply same_spec|].
  case_bool_decide as Hn; [by apply same_spec|]. by apply push_ok; [|done|apply not_full|].
Qed.

Lemma scene_spec slot image enhanced s : ocr_ok s -> op_spec s (ocr_enqueueScene slot image enhanced s).
Proof.
  intros Hs. unfold ocr_enqueueScene. destruct (_ || _ || _ || is_empty enhanced); [by apply same_spec|].
  destruct (full s) eqn:Hf; [by apply same_spec|]. cbn [orb].
  case_bool_decide as Hn; [by apply same_spec|]. by apply push_ok; [|done|apply not_full|].
Qed.

Lemma hall_spec now request s : ocr_ok s -> op_spec s (ocr_enqueueHallCapture now request s).
Proof.
  intros Hs. unfold ocr_enqueueHallCapture. cbv zeta.
  assert (Hrej : op_spec s match os_hall_callback s with
    | Some callback =>
        ([Rejected callback (mkHallCaptureResult (hct_session_id request) (hct_stage request) false false false "" d_zero
                               "OCR_FAILED" "" "OCR task was rejected by the bounded queue" now)], s)
    | None => ([], s)
    end).
  { destruct (os_hall_callback s); [|by apply same_spec].
    apply frame_spec; try done; [exact (ok_at s Hs)|exact (ok_started s Hs)|repeat constructor]. }
  generalize (os_started s && (0 <=? hct_session_id request) && negb (is_empty (hct_image_path request)) &&
              negb (bool_decide (to_int (hct_session_id request) ∈ os_canceled s))) as acceptable.
  intros []; [|done]. cbn [andb].
  destruct (full s) eqn:Hf; [done|]. cbn [negb andb]. case_bool_decide as Hn; [done|]. cbn [negb].
  by apply push_ok; [|done|apply not_full|].
Qed.

Lemma generic_spec id image callback s :
  ocr_ok s -> op_spec s ((ocr_enqueueGeneric id image callback s).1.2, (ocr_enqueueGeneric id image callback s).2).
Proof.
  intros Hs. unfold ocr_enqueueGeneric. destruct callback as [callback|]; [|by apply same_spec].
  destruct (is_empty id || is_empty image); [by apply same_spec|].
  destruct (negb (os_started s) || os_stopping s); [by apply same_spec|]. cbn [orb].
  destruct (full s) eqn:Hf; [by apply same_spec|]. cbn [orb].
  case_bool_decide as Hn; [by apply same_spec|]. by apply push_ok; [|done|apply not_full|].
Qed.

Lemma ocr_op_spec o s : ocr_ok s -> op_spec s (op o s).
Proof.
  intros Hs. pose proof (ok_at s Hs) as Ha. pose proof (ok_started s Hs) as Hst.
  destruct o as [curl| | |session slot image enhanced|slot image enhanced|now request|id image callback|callback|session|d|o];
    cbn [ocr_op].
  - by apply start_spec.
  - unfold ocr_stop. destruct (negb (os_started s)); [by apply same_spec|]. by apply frame_spec.
  - unfold ocr_joined. destruct (os_worker s) eqn:Hw; try by apply same_spec. destruct (os_stop_joins s); [|by apply same_spec].
    apply frame_spec; unfold held_image, in_hand; simpl; rewrite ?Hw; done.
  - by apply enqueue_spec.
  - by apply scene_spec.
  - by apply hall_spec.
  - pose proof (generic_spec id image callback s Hs). by destruct (ocr_enqueueGeneric id image callback s) as [[b evs] s'].
  - by apply frame_spec.
  - unfold ocr_cancelSession. destruct (session <? 0); [by apply same_spec|].
    apply frame_spec; try done; [simpl; set_solver|repeat constructor].
  - by apply frame_spec.
  - by apply step_spec.
Qed.

(** * Histories *)

Lemma event_ok_mono a b e : a ⊆ b -> event_ok a e -> event_ok b e.
Proof. intros Hab. destruct e as [| | | | | | | | | |t []]; simpl; try done. intros [? ?]. split; [done|set_solver]. Qed.

Lemma ocr_run_spec ops s : ocr_ok s ->
  ocr_ok (run ops s).2 /\ os_canceled s ⊆ os_canceled (run ops s).2 /\
  in_hand s ++ os_queue s ++ accepted (run ops s).1 = closed (run ops s).1 ++ in_hand (run ops s).2 ++ os_queue (run ops s).2 /\
  Forall (event_ok (os_canceled (run ops s).2)) (run ops s).1.
Proof.
  revert s. induction ops as [|o ops IH]; intros s Hs; cbn [ocr_run].
  { destruct (same_spec s Hs) as (? & ? & ? & ?). done. }
  destruct (ocr_op_spec o s Hs) as (H1 & H2 & H3 & H4). destruct (op o s) as [e1 s1]. cbn [fst snd] in *.
  destruct (IH s1 H1) as (K1 & K2 & K3 & K4). destruct (run ops s1) as [e2 s2]. cbn [fst snd] in *.
  split; [done|]. split; [by transitivity (os_canceled s1)|]. split.
  - unfold accepted, closed in *. rewrite !omap_app.
    rewrite (app_assoc (os_queue s)), (app_assoc (in_hand s)), H3, <- !app_assoc.
    by rewrite K3.
  - apply Forall_app_2; [|done]. eapply Forall_impl; [exact H4|]. intros e. apply event_ok_mono.
    by transitivity (os_canceled s1).
Qed.

(** What the thread itself does. *)
Definition thread_event (e : OcrEvent) : Prop :=
  match e with Accepted _ | Cancelled _ | Rejected _ _ => False | _ => True end.

Lemma removed_thread p : Forall thread_event (remove_owned_enhanced p).
Proof. unfold remove_owned_enhanced. destruct (negb (pi_owned p) || _); repeat constructor. Qed.

Lemma step_thread_events o s : Forall thread_event (step o s).1.
Proof.
  pose proof removed_thread as Hr.
  unfold ocr_step. destruct (os_worker s); try (repeat constructor; fail).
  - destruct (os_queue s); [constructor|]. destruct (session_canceled _ _); repeat constructor.
  - unfold process_prepare. cbv zeta. destruct (negb (oc_preprocess_enabled cfg) && _); [constructor|].
    destruct (oc_preprocess_enabled cfg && _); cbn [andb]; destruct (ot_detect_candidate t); cbn [andb];
      try destruct (negb _); destruct (ot_hall t); repeat constructor.
  - destruct (session_canceled t s); [apply Hr|constructor].
  - destruct (session_canceled t s); [apply Hr|constructor].
  - destruct (recognizePlate _ _ _ _ _ _). repeat constructor.
  - destruct (session_canceled t s); [apply Hr|constructor].
  - destruct (session_canceled t s); [apply Hr|constructor].
  - unfold process_store. destruct plate as [plate|].
    + destruct (applyPlateOcrWithEntrance _ _ _ _ _ _ _ _). cbv zeta. destruct (negb (ot_hall t) && _ && _); repeat constructor.
    + destruct (applyPlateOcr _ _ _ _ _ _). repeat constructor.
  - destruct (ot_generic t); [constructor|]. destruct (ot_hall t); [|repeat constructor].
    case_bool_decide; [repeat constructor|]. destruct (os_hall_callback s); repeat constructor.
Qed.

Lemma step_accepts_nothing o s : accepted (step o s).1 = [].
Proof.
  pose proof (step_thread_events o s) as H. induction H as [|e evs He _ IH]; [done|].
  unfold accepted in *. by destruct e.
Qed.

Lemma ocr_init_ok d : ocr_ok (ocr_init d).
Proof. split; simpl; try done; try (by constructor). by intros i ?%elem_of_nil. Qed.

(** ** The thread gets to the end of its queue *)

(** The steps the worker still takes for the task in hand. *)
Definition work (w : OcrAt) : nat :=
  match w with
  | NotRunning | Waiting => 0
  | CallingGeneric _ _ | CallingHall _ _ _ => 1
  | Reporting _ _ _ => 2
  | Storing _ _ _ _ _ => 3
  | CheckAnswer _ _ _ _ => 4
  | CheckFailed _ _ a _ => 4 + 3 * Z.to_nat (3 - a)
  | Requesting _ _ a => 5 + 3 * Z.to_nat (3 - a)
  | CheckAttempt _ _ a => 6 + 3 * Z.to_nat (3 - a)
  | CheckStart _ _ => 13
  | Preparing _ _ => 14
  end.
Definition work_left (s : OcrState) : nat := work (os_worker s) + 15 * length (os_queue s).

Lemma step_works o s : ocr_ok s -> os_worker s <> NotRunning -> (0 < work_left s)%nat ->
  (work_left (step o s).2 < work_left s)%nat /\ os_worker (step o s).2 <> NotRunning.
Proof.
  intros Hs Hn Hpos. pose proof (ok_at s Hs) as Ha. unfold work_left, ocr_step in *.
  destruct (os_worker s) as [| |t now|t p|t p a|t p a|t p a r|t p a r|t p a r plate|t h g|t g|t cb h] eqn:Hw; try done.
  - destruct (os_queue s) as [|t queue] eqn:Hq; [simpl in Hpos; lia|].
    destruct (session_canceled _ _); simpl; rewrite ?Hw; simpl; [split; [lia|done]|split; [lia|done]].
  - unfold process_prepare. cbv zeta. destruct (negb (oc_preprocess_enabled cfg) && _); [simpl; split; [lia|done]|].
    destruct (_ && ot_detect_candidate t && _); [simpl; split; [lia|done]|].
    destruct (ot_hall t); simpl; (split; [lia|done]).
  - destruct (session_canceled t s); simpl; (split; [lia|done]).
  - destruct (session_canceled t s); simpl in *; (split; [lia|done]).
  - destruct (recognizePlate _ _ _ _ _ _) as [requests r]. destruct (or_success r); simpl in *; (split; [lia|done]).
  - destruct (session_canceled t s); [simpl; split; [lia|done]|]. simpl in Ha.
    destruct (Z.eqb_spec a 3); cbn [orb]; [simpl; split; [lia|done]|].
    destruct (negb (retryable r)); simpl; (split; [lia|done]).
  - destruct (session_canceled t s); [simpl; split; [lia|done]|]. unfold process_answer. cbv zeta.
    destruct (negb (or_readable r) || _); destruct (ot_generic t); simpl; (split; [lia|done]).
  - unfold process_store. destruct plate as [plate|].
    + destruct (applyPlateOcrWithEntrance _ _ _ _ _ _ _ _). simpl. split; [lia|done].
    + destruct (applyPlateOcr _ _ _ _ _ _). simpl. split; [lia|done].
  - destruct (ot_generic t); [simpl; split; [lia|done]|]. destruct (ot_hall t); [|simpl; split; [lia|done]].
    case_bool_decide; [simpl; split; [lia|done]|]. destruct (os_hall_callback s); simpl; (split; [lia|done]).
  - simpl. split; [lia|done].
  - simpl. split; [lia|done].
Qed.

Lemma no_work s : ocr_ok s -> work_left s = 0%nat -> in_hand s = [] /\ os_queue s = [].
Proof.
  intros Hs. unfold work_left, in_hand. destruct (os_worker s), (os_queue s); simpl; intros H; try (exfalso; lia); done.
Qed.

Lemma idle_step o s : os_worker s = Waiting \/ os_worker s = NotRunning -> os_queue s = [] ->
  (os_worker (step o s).2 = Waiting \/ os_worker (step o s).2 = NotRunning) /\ os_queue (step o s).2 = [].
Proof.
  intros [Hw|Hw] Hq; unfold ocr_step; rewrite Hw, ?Hq; [|by auto]. destruct (os_stopping s); simpl; auto.
Qed.

Lemma drain outs : forall s, ocr_ok s ->
  (os_worker s <> NotRunning \/ os_queue s = []) -> (work_left s <= length outs)%nat ->
  in_hand (run (OpWorker <$> outs) s).2 = [] /\ os_queue (run (OpWorker <$> outs) s).2 = [].
Proof.
  induction outs as [|o outs IH]; intros s Hs Hn Hl; cbn [fmap list_fmap ocr_run] in *.
  { cbn [snd]. apply no_work; [done|]. simpl in Hl. lia. }
  change (ocr_op json_double cfg (OpWorker o) s) with (step o s).
  destruct (step_spec o s Hs) as (H1 & _ & _ & _).
  assert (Hstep : (os_worker (step o s).2 <> NotRunning \/ os_queue (step o s).2 = []) /\
                  (work_left (step o s).2 <= length outs)%nat).
  { destruct (decide (work_left s = 0%nat)) as [Hz|Hz].
    - destruct (no_work s Hs Hz) as [Hh Hq].
      assert (Hi : os_worker s = Waiting \/ os_worker s = NotRunning).
      { unfold work_left in Hz. destruct (os_worker s); simpl in Hz; try (exfalso; lia); auto. }
      destruct (idle_step o s Hi Hq) as [Hi' Hq']. split; [by right|].
      unfold work_left. rewrite Hq'. destruct Hi' as [-> | ->]; simpl; lia.
    - assert (Hw : os_worker s <> NotRunning).
      { destruct Hn as [Hn|Hq]; [done|]. intros Hw. unfold work_left in Hz. by rewrite Hw, Hq in Hz. }
      destruct (step_works o s Hs Hw) as [Hlt Hn']; [lia|]. split; [by left|]. simpl in Hl. lia. }
  destruct Hstep as [Hn' Hl']. destruct (step o s) as [e1 s1]. cbn [snd] in *.
  destruct (IH s1 H1 Hn' Hl') as [K1 K2]. by destruct (run (OpWorker <$> outs) s1) as [e2 s2].
Qed.

(** * The theorems *)


(** What is done for session [k]: a request to the service, a write of its plate (with what the caller is told), an
    answer to the hall. *)
Definition loud (k : Z) (e : OcrEvent) : bool :=
  match e with
  | Requested t _ _ | PlateWritten t _ | HallCalled t _ _ => bool_decide (ot_session_id t = k)
  | _ => false
  end.
Definition taken_on (k : Z) (e : OcrEvent) : bool :=
  match e with Accepted t => bool_decide (ot_session_id t = k) | _ => false end.
Definition poised (k : Z) (w : OcrAt) : nat :=
  match w with
  | Requesting t _ _ | Storing t _ _ _ _ | CallingHall t _ _ => if bool_decide (ot_session_id t = k) then 1 else 0
  | _ => 0
  end.
Definition quieter (k : Z) (s : OcrState) (r : list OcrEvent * OcrState) : Prop :=
  (length (List.filter (loud k) r.1) + poised k (os_worker r.2) <= poised k (os_worker s))%nat /\
  List.filter (taken_on k) r.1 = [].

Lemma canceled_not k t s : k ∈ os_canceled s -> 0 <= k -> session_canceled t s = false -> bool_decide (ot_session_id t = k) = false.
Proof.
  intros Hk Hpos Hc. apply bool_decide_eq_false. intros E. unfold session_canceled in Hc. rewrite E in Hc.
  rewrite (proj2 (Z.leb_le 0 k) Hpos), bool_decide_eq_true_2 in Hc by done. done.
Qed.

Lemma removed_quiet k p : List.filter (loud k) (remove_owned_enhanced p) = [] /\ List.filter (taken_on k) (remove_owned_enhanced p) = [].
Proof. unfold remove_owned_enhanced. by destruct (negb (pi_owned p) || _). Qed.

Lemma step_quieter k o s : k ∈ os_canceled s -> 0 <= k -> quieter k s (step o s).
Proof.
  intros Hk Hpos. unfold quieter, ocr_step.
  destruct (os_worker s) as [| |t now|t p|t p a|t p a|t p a r|t p a r|t p a r plate|t h g|t g|t cb h] eqn:Hw.
  - simpl. rewrite Hw. done.
  - destruct (os_queue s) as [|t queue]; [destruct (os_stopping s); simpl; rewrite ?Hw; done|].
    destruct (session_canceled _ _); simpl; rewrite ?Hw; done.
  - unfold process_prepare. cbv zeta. destruct (negb (oc_preprocess_enabled cfg) && _); [simpl; done|].
    destruct (oc_preprocess_enabled cfg && _); destruct (ot_detect_candidate t); cbn [andb];
      try destruct (negb _); destruct (ot_hall t); simpl; (split; [lia|done]).
  - destruct (removed_quiet k p) as [Hq1 Hq2].
    destruct (session_canceled t s); cbn [fst snd]; rewrite ?Hq1, ?Hq2; simpl; split; try done; lia.
  - destruct (removed_quiet k p) as [Hq1 Hq2].
    destruct (session_canceled t s) eqn:Ec; cbn [fst snd]; rewrite ?Hq1, ?Hq2; simpl; [split; [lia|done]|].
    rewrite (canceled_not k t s Hk Hpos Ec). done.
  - destruct (recognizePlate _ _ _ _ _ _) as [requests r]. simpl.
    destruct (or_success r); case_bool_decide; simpl; (split; [lia|done]).
  - destruct (removed_quiet k p) as [Hq1 Hq2].
    destruct (session_canceled t s); cbn [fst snd]; rewrite ?Hq1, ?Hq2; simpl; [split; [lia|done]|].
    destruct ((a =? 3) || _); simpl; (split; [lia|done]).
  - destruct (removed_quiet k p) as [Hq1 Hq2].
    destruct (session_canceled t s) eqn:Ec; cbn [fst snd]; rewrite ?Hq1, ?Hq2; simpl; [split; [lia|done]|].
    unfold process_answer. cbv zeta. pose proof (canceled_not k t s Hk Hpos Ec) as Hne.
    destruct (negb (or_readable r) || _); destruct (ot_generic t); simpl; rewrite ?Hne; (split; [lia|done]).
  - unfold process_store. destruct plate as [plate|].
    + destruct (applyPlateOcrWithEntrance _ _ _ _ _ _ _ _). cbv zeta. cbn [fst snd].
      destruct (negb (ot_hall t) && _ && _); simpl; case_bool_decide; simpl; (split; [lia|done]).
    + destruct (applyPlateOcr _ _ _ _ _ _). simpl. case_bool_decide; simpl; (split; [lia|done]).
  - destruct (ot_generic t); [simpl; split; [lia|done]|]. destruct (ot_hall t); [|simpl; split; [lia|done]].
    case_bool_decide as Hc; [simpl; split; [lia|done]|]. destruct (os_hall_callback s); simpl; [|split; [lia|done]].
    rewrite bool_decide_eq_false_2 by (by intros <-). split; [lia|done].
  - simpl. split; [lia|done].
  - simpl. case_bool_decide; simpl; (split; [lia|done]).
Qed.

Lemma op_quieter k o s : ocr_ok s -> k ∈ os_canceled s -> 0 <= k -> quieter k s (op o s).
Proof.
  intros Hs Hk Hpos. unfold quieter.
  destruct o as [curl| | |session slot image enhanced|slot image enhanced|now request|id image callback|callback|session|d|o];
    cbn [ocr_op].
  - unfold ocr_start. destruct (negb (configured (oc_client cfg))); [done|].
    destruct (os_started s) eqn:Hst; [done|]. destruct (negb curl); simpl; (split; [lia|done]).
  - unfold ocr_stop. by destruct (negb (os_started s)).
  - unfold ocr_joined. destruct (os_worker s) eqn:Hw; simpl; rewrite ?Hw; try done. destruct (os_stop_joins s); simpl; rewrite ?Hw; done.
  - unfold ocr_enqueue. destruct (_ || _ || is_empty image); [done|]. case_bool_decide as Hc; [done|].
    destruct (full s); [done|]. case_bool_decide; [done|]. simpl. rewrite bool_decide_eq_false_2 by (by intros <-). done.
  - unfold ocr_enqueueScene. destruct (_ || _ || _ || is_empty enhanced); [done|]. destruct (full s || _); [done|].
    simpl. rewrite bool_decide_eq_false_2 by lia. done.
  - unfold ocr_enqueueHallCapture. cbv zeta. case_bool_decide as Hc.
    + rewrite andb_false_r. cbn [andb]. by destruct (os_hall_callback s).
    + destruct (_ && negb (full s) && _); [|by destruct (os_hall_callback s)]. simpl.
      rewrite bool_decide_eq_false_2 by (by intros <-). done.
  - unfold ocr_enqueueGeneric. destruct callback; [|done]. destruct (is_empty id || _); [done|].
    destruct (_ || _ || full s || _); [done|]. simpl. rewrite bool_decide_eq_false_2 by lia. done.
  - done.
  - unfold ocr_cancelSession. by destruct (session <? 0).
  - done.
  - by apply step_quieter.
Qed.

Lemma run_quieter k ops s : ocr_ok s -> k ∈ os_canceled s -> 0 <= k -> quieter k s (run ops s).
Proof.
  revert s. induction ops as [|o ops IH]; intros s Hs Hk Hpos; cbn [ocr_run]; [split; [simpl; lia|done]|].
  destruct (op_quieter k o s Hs Hk Hpos) as [H1 H2]. destruct (ocr_op_spec o s Hs) as (K1 & K2 & _ & _).
  destruct (op o s) as [e1 s1]. cbn [fst snd] in *. assert (Hk1 : k ∈ os_canceled s1) by set_solver.
  destruct (IH s1 K1 Hk1 Hpos) as [J1 J2]. destruct (run ops s1) as [e2 s2]. unfold quieter. cbn [fst snd] in *.
  rewrite !List.filter_app, length_app, H2, J2. split; [lia|done].
Qed.

Lemma cancelled_by_call k o s : Cancelled k ∈ (op o s).1 -> 0 <= k /\ k ∈ os_canceled (op o s).2.
Proof.
  assert (Hone : forall t, Cancelled k ∈ [Accepted t] -> False) by (by intros t ?%list_elem_of_singleton).
  destruct o as [curl| | |session slot image enhanced|slot image enhanced|now request|id image callback|callback|session|d|o];
    cbn [ocr_op]; try by intros ?%elem_of_nil.
  - unfold ocr_enqueue. destruct (_ || _ || is_empty image); [by intros ?%elem_of_nil|].
    do 2 (case_bool_decide; [by intros ?%elem_of_nil|]; try (destruct (full s); [by intros ?%elem_of_nil|])).
    by intros ?%Hone.
  - unfold ocr_enqueueScene. destruct (_ || _ || _ || is_empty enhanced); [by intros ?%elem_of_nil|].
    destruct (full s || _); [by intros ?%elem_of_nil|]. by intros ?%Hone.
  - unfold ocr_enqueueHallCapture. cbv zeta. destruct (_ && negb (full s) && _); [by intros ?%Hone|].
    destruct (os_hall_callback s); [by intros ?%list_elem_of_singleton|by intros ?%elem_of_nil].
  - unfold ocr_enqueueGeneric. destruct callback; [|by intros ?%elem_of_nil].
    destruct (is_empty id || _); [by intros ?%elem_of_nil|].
    destruct (_ || _ || full s || _); [by intros ?%elem_of_nil|]. by intros ?%Hone.
  - unfold ocr_cancelSession. destruct (Z.ltb_spec session 0); [by intros ?%elem_of_nil|].
    intros [= ->]%list_elem_of_singleton. split; [done|]. simpl. set_solver.
  - intros Hin. pose proof (step_thread_events o s) as H. by apply (proj1 (Forall_forall _ _) H) in Hin.
Qed.

Lemma cancelled_in ops s k : ocr_ok s -> Cancelled k ∈ (run ops s).1 -> 0 <= k /\ k ∈ os_canceled (run ops s).2.
Proof.
  revert s. induction ops as [|o ops IH]; intros s Hs; cbn [ocr_run]; [by intros ?%elem_of_nil|].
  pose proof (cancelled_by_call k o s) as Hcall. destruct (ocr_op_spec o s Hs) as (K1 & _).
  destruct (op o s) as [e1 s1]. cbn [fst snd] in *.
  destruct (ocr_run_spec ops s1 K1) as (_ & Hmono & _). pose proof (IH s1 K1) as IH'.
  destruct (run ops s1) as [e2 s2]. cbn [fst snd] in *. rewrite elem_of_app. intros [Hin|Hin]; [|by apply IH'].
  destruct (Hcall Hin). split; [done|set_solver].
Qed.

(** A session that is cancelled is left alone. From the cancelling on, whatever happens, none of its pictures
    is taken on any more, and of all that can be done for it (a request to the service, a write of its plate to the
    database, an answer to the hall) at most one thing still is: the one that was under way. *)
Theorem ocr_cancelled_left_alone ops1 ops2 d k e1 s1 e2 s2 :
  run ops1 (ocr_init d) = (e1, s1) -> Cancelled k ∈ e1 -> run ops2 s1 = (e2, s2) ->
  (length (List.filter (loud k) e2) <= 1)%nat /\ List.filter (taken_on k) e2 = [] /\
  (os_worker s1 = Waiting -> List.filter (loud k) e2 = []).
Proof.
  intros H1 Hin H2. destruct (ocr_run_spec ops1 (ocr_init d) (ocr_init_ok d)) as (K1 & _).
  pose proof (cancelled_in ops1 (ocr_init d) k (ocr_init_ok d)) as Hc. rewrite H1 in K1, Hc. cbn [fst snd] in *.
  destruct (Hc Hin) as [Hpos Hk]. destruct (run_quieter k ops2 s1 K1 Hk Hpos) as [J1 J2]. rewrite H2 in J1, J2.
  cbn [fst snd] in *. split; [|split; [done|]].
  - assert (poised k (os_worker s1) <= 1)%nat; [|lia].
    unfold poised. destruct (os_worker s1); try lia; case_bool_decide; lia.
  - intros Hw. rewrite Hw in J1. simpl in J1. destruct (List.filter (loud k) e2); [done|simpl in J1; lia].
Qed.
End Worker.

(** * What is sent *)

(** The inverse of the encoding, written with arithmetic. *)
Fixpoint char_index (c : ascii) (s : string) (i : Z) : option Z :=
  match s with
  | EmptyString => None
  | String d s => if bool_decide (c = d) then Some i else char_index c s (i + 1)
  end.
Definition base64_value (c : ascii) : option Z := char_index c base64_table 0.
Fixpoint base64_decode (s : string) : option (list Z) :=
  match s with
  | EmptyString => Some []
  | String c1 (String c2 (String c3 (String c4 rest))) =>
      v1 ← base64_value c1; v2 ← base64_value c2;
      if bool_decide (c3 = "="%char) then Some [(v1 * 64 + v2) / 16] else
      v3 ← base64_value c3;
      if bool_decide (c4 = "="%char)
      then Some [(v1 * 64 + v2) / 16; ((v1 * 64 + v2) * 64 + v3) / 4 mod 256] else
      v4 ← base64_value c4;
      let v := ((v1 * 64 + v2) * 64 + v3) * 64 + v4 in
      bytes ← base64_decode rest;
      Some (v / 65536 :: v / 256 mod 256 :: v mod 256 :: bytes)
  | _ => None
  end.

Lemma base64_value_char v : 0 <= v < 64 ->
  base64_value (base64_char v) = Some v /\ bool_decide (base64_char v = "="%char) = false.
Proof.
  intros Hv. assert (H : Forall (fun n => base64_value (base64_char (Z.of_nat n)) = Some (Z.of_nat n) /\
    bool_decide (base64_char (Z.of_nat n) = "="%char) = false) (seq 0 64)) by (repeat constructor).
  rewrite Forall_forall in H. specialize (H (Z.to_nat v)). rewrite Z2Nat.id in H by lia. apply H.
  apply elem_of_seq. lia.
Qed.

Lemma lor_shift a b k : 0 <= k -> 0 <= b < 2 ^ k -> Z.lor (Z.shiftl a k) b = a * 2 ^ k + b.
Proof.
  intros Hk Hb. rewrite <- Z.add_nocarry_lor; [by rewrite Z.shiftl_mul_pow2 by lia|].
  apply Z.bits_inj'. intros n Hn. rewrite Z.land_spec, Z.bits_0.
  destruct (Z.lt_ge_cases n k) as [Hlt|Hge]; [by rewrite Z.shiftl_spec_low by lia|].
  rewrite <- (Z.mod_small b (2 ^ k)), Z.mod_pow2_bits_high by lia. apply andb_false_r.
Qed.

Lemma sextet v k : 0 <= k -> Z.land (Z.shiftr v k) 0x3F = v / 2 ^ k mod 64.
Proof. intros Hk. change 0x3F with (Z.ones 6). rewrite Z.land_ones, Z.shiftr_div_pow2 by lia. done. Qed.

Lemma three_bytes a b c : 0 <= b < 256 -> 0 <= c < 256 ->
  Z.lor (Z.lor (Z.shiftl a 16) (Z.shiftl b 8)) c = a * 65536 + b * 256 + c.
Proof.
  intros Hb Hc. rewrite (Z.shiftl_mul_pow2 b 8) by lia. rewrite (lor_shift a (b * 2 ^ 8) 16) by lia.
  replace (a * 2 ^ 16 + b * 2 ^ 8) with (Z.shiftl (a * 256 + b) 8) by (rewrite Z.shiftl_mul_pow2 by lia; lia).
  rewrite lor_shift by lia. lia.
Qed.

Lemma base64_decode_encode bytes : Forall (fun b => 0 <= b < 256) bytes -> base64_decode (base64Encode bytes) = Some bytes.
Proof.
  assert (Hstep : forall n bytes, (length bytes <= n)%nat -> Forall (fun b => 0 <= b < 256) bytes ->
    base64_decode (base64Encode bytes) = Some bytes); [|by intros H; apply (Hstep (length bytes))].
  clear bytes. induction n as [|n IH]; intros [|a [|b [|c bytes]]] Hl Hb; simpl in Hl; try lia; try done.
  all: repeat match goal with H : Forall _ (_ :: _) |- _ => apply Forall_cons in H as [? H] end.
  - cbn [base64Encode]. cbv zeta. rewrite !sextet by lia. rewrite Z.shiftl_mul_pow2 by lia. cbn [base64_decode].
    destruct (base64_value_char (a * 2 ^ 16 / 2 ^ 18 mod 64)) as [-> _]; [by apply Z.mod_pos_bound|].
    destruct (base64_value_char (a * 2 ^ 16 / 2 ^ 12 mod 64)) as [-> _]; [by apply Z.mod_pos_bound|].
    cbn [mbind option_bind]. rewrite bool_decide_eq_true_2 by done. do 2 f_equal.
    Z.to_euclidean_division_equations; lia.
  - cbn [base64Encode]. cbv zeta. rewrite !sextet by lia. rewrite (Z.shiftl_mul_pow2 b 8) by lia.
    rewrite (lor_shift a (b * 2 ^ 8) 16) by lia. cbn [base64_decode]. set (v := a * 2 ^ 16 + b * 2 ^ 8).
    destruct (base64_value_char (v / 2 ^ 18 mod 64)) as [-> _]; [by apply Z.mod_pos_bound|].
    destruct (base64_value_char (v / 2 ^ 12 mod 64)) as [-> _]; [by apply Z.mod_pos_bound|].
    destruct (base64_value_char (v / 2 ^ 6 mod 64)) as [-> ->]; [by apply Z.mod_pos_bound|].
    cbn [mbind option_bind]. rewrite bool_decide_eq_true_2 by done. subst v.
    f_equal. f_equal; [|f_equal]; Z.to_euclidean_division_equations; lia.
  - cbn [base64Encode]. cbv zeta. rewrite three_bytes by lia. set (v := a * 65536 + b * 256 + c).
    change (Z.land v 63) with (Z.land (Z.shiftr v 0) 0x3F). rewrite !sextet by lia. cbn [base64_decode].
    destruct (base64_value_char (v / 2 ^ 18 mod 64)) as [-> _]; [by apply Z.mod_pos_bound|].
    destruct (base64_value_char (v / 2 ^ 12 mod 64)) as [-> _]; [by apply Z.mod_pos_bound|].
    destruct (base64_value_char (v / 2 ^ 6 mod 64)) as [-> ->]; [by apply Z.mod_pos_bound|].
    destruct (base64_value_char (v / 2 ^ 0 mod 64)) as [-> ->]; [by apply Z.mod_pos_bound|].
    cbn [mbind option_bind]. rewrite IH by (done || lia). cbn [mbind option_bind]. subst v.
    f_equal. f_equal; [|f_equal; [|f_equal]]; Z.to_euclidean_division_equations; lia.
Qed.

(** A picture that is sent is a JPEG or a PNG of at most 15 MiB and carries the bytes of its file. *)
Theorem picture_sent_faithfully files path part :
  (forall bytes, files path = Some bytes -> Forall (fun b => 0 <= b < 256) bytes) ->
  appendImagePart files path = Ok part ->
  exists bytes text mime, files path = Some bytes /\ Z.of_nat (length bytes) <= 15 * 1024 * 1024 /\
    part = JObject [("inline_data", JObject [("data", JString text); ("mime_type", JString mime)])] /\
    base64_decode text = Some bytes /\
    (mime = "image/png" /\ is_prefix png_signature bytes = true \/
     mime = "image/jpeg" /\ is_prefix [0xFF; 0xD8; 0xFF] bytes = true).
Proof.
  intros Hb. unfold appendImagePart. destruct (files path) as [bytes|]; [|done]. specialize (Hb bytes eq_refl).
  destruct (bool_decide (bytes = []) || _) eqn:Es; [done|]. apply orb_false_elim in Es as [_ Es%Z.ltb_ge].
  cbv zeta. destruct (negb (is_prefix [0xFF; 0xD8; 0xFF] bytes) && _) eqn:Ek; [done|]. intros [= <-].
  exists bytes, (base64Encode bytes), (if is_prefix png_signature bytes then "image/png" else "image/jpeg").
  split; [done|]. split; [done|]. split; [done|]. split; [by apply base64_decode_encode|].
  destruct (is_prefix png_signature bytes); [by left|right]. split; [done|].
  rewrite andb_true_r in Ek. by apply negb_false_iff.
Qed.

(** * What is not written *)

(** A picture on which no plate was read leaves no trace in the database, although [process] calls it: the
    database refuses an empty plate. The same holds for the pictures without a session. *)
Lemma unreadable_not_stored {ES : EntranceSql} cfg t p a r s :
  os_db (process_store cfg t p a r None s).2 = os_db s.
Proof. unfold process_store, applyPlateOcr, applyPlateOcrWithEntrance. by rewrite orb_true_r. Qed.
Lemma scene_not_stored {ES : EntranceSql} cfg t p a r plate s :
  ot_session_id t = -1 -> os_db (process_store cfg t p a r plate s).2 = os_db s.
Proof.
  intros H. unfold process_store, applyPlateOcr, applyPlateOcrWithEntrance. rewrite H. by destruct plate.
Qed.

(** * A run *)

Module OcrDemo.
#[local] Instance demo_sql : EntranceSql := {|
  sql_julian_ms := fun _ => None; score_text := fun _ => ""; double_text := fun _ => ""
|}.
Definition answer_text : string := "ANSWER".
Definition answer_json : json :=
  JObject [("confidence", JFloat "0.9"); ("plate_number", JString "12가 3456"); ("readable", JBool true)].
#[local] Instance demo_json : JsonLibrary := {|
  json_parse := fun text =>
    if bool_decide (text = "BODY")
    then Ok (JObject [("candidates", JArray [JObject [("content", JObject [("parts", JArray [JObject [("text", JString "ANSWER")]])])]])])
    else if bool_decide (text = "ANSWER") then Ok answer_json else Err "parse error";
  json_dump := fun _ => "REQUEST";
  json_eqb := fun _ _ => false;
  json_float_to_int := fun _ => 0
|}.
Definition demo_double (j : json) : option double := match j with JFloat _ => Some (d_literal 9 1) | _ => None end.
Definition demo_client := mkClient "key" "model" "" 5 20.
Definition demo_cfg := mkOcrConfig demo_client false true 1800000 (d_literal 85 2).
Definition demo_db := mkEntranceDb (mkParkingDb true ∅ {["A1" := "OCCUPIED"]} ∅ 0 [] [] ∅) ∅ 0.
(** The service is overloaded or answers. *)
Definition busy := mkOcrOutside "now" (mkPreprocess "" false) None false false (fun _ => Some [0xFF; 0xD8; 0xFF; 1])
  (fun _ => mkHttpResponse true 503 "" "").
Definition fine := mkOcrOutside "now" (mkPreprocess "" false) None false false (fun _ => Some [0xFF; 0xD8; 0xFF; 1])
  (fun _ => mkHttpResponse true 200 "BODY" "").
Definition opening : list OcrOp :=
  [OpStart true; OpSetCallback (Some 7%N); OpGeneric "entrance-1" "p1.jpg" (Some 3%N);
   OpHall "t0" (mkHallCaptureTask 11 30 "A1" "p2.jpg" "");
   OpWorker fine; OpWorker fine; OpWorker fine; OpWorker busy; OpWorker busy; OpWorker busy; OpWorker fine;
   OpWorker fine; OpWorker fine; OpWorker fine; OpWorker fine].
Definition opened := ocr_run demo_double demo_cfg opening (ocr_init demo_db).

(** The first request fails, the second is answered; the picture of the hall is in the queue. *)
Example entrance_answered :
  closed opened.1 = [mkOcrTask (-1) "" "p1.jpg" false "" false 0 true "entrance-1" 3%N] /\
  omap (fun e => match e with GenericCalled _ g => Some (gor_plate_number g, gor_attempts g) | _ => None end) opened.1
    = [("12가3456", 2)].
Proof. split; vm_compute; reflexivity. Qed.

Definition hall_task := mkOcrTask 11 "A1" "p2.jpg" false "" true 30 false "" 0.
Definition rest := ocr_run demo_double demo_cfg (OpWorker <$> replicate 30 fine) opened.2.
Definition cancelled := ocr_run demo_double demo_cfg (opening ++ [OpCancel 11]) (ocr_init demo_db).
Definition after_cancel := ocr_run demo_double demo_cfg
  (OpHall "t1" (mkHallCaptureTask 11 60 "A1" "p3.jpg" "") :: (OpWorker <$> replicate 20 fine)) cancelled.2.

(** A picture that the hall hands over after the thread has ended and before [stop] is over is taken on, but nobody
    works on it or answers it. *)
Definition late : list OcrOp :=
  [OpStart true; OpSetCallback (Some 7%N); OpStop; OpWorker fine;
   OpHall "t0" (mkHallCaptureTask 11 30 "A1" "p2.jpg" ""); OpJoined].
Example late_picture_lost :
  let '(evs, s) := ocr_run demo_double demo_cfg late (ocr_init demo_db) in
  evs = [Accepted hall_task] /\ os_queue s = [hall_task] /\ os_started s = false /\
  (ocr_run demo_double demo_cfg [OpWorker fine; OpStop; OpWorker fine] s).1 = [].
Proof. vm_compute. repeat split. Qed.
(** The entrance is told that its picture is not taken. *)
Example late_entrance_refused :
  let s := (ocr_run demo_double demo_cfg [OpStart true; OpStop; OpWorker fine] (ocr_init demo_db)).2 in
  (ocr_enqueueGeneric "entrance-1" "p1.jpg" (Some 3%N) s).1.1 = false.
Proof. vm_compute. reflexivity. Qed.
End OcrDemo.


Theorem ocr_cancelled_left_alone_witness :
  Cancelled 11 ∈ OcrDemo.cancelled.1 /\
  List.filter (taken_on 11) OcrDemo.after_cancel.1 = [] /\ List.filter (loud 11) OcrDemo.after_cancel.1 = [].
Proof.
  assert (Hin : Cancelled 11 ∈ OcrDemo.cancelled.1).
  { apply list_elem_of_In. vm_compute. repeat (first [left; reflexivity | right]). }
  destruct (ocr_cancelled_left_alone (JL := OcrDemo.demo_json) (ES := OcrDemo.demo_sql) OcrDemo.demo_double OcrDemo.demo_cfg (OcrDemo.opening ++ [OpCancel 11])
    (OpHall "t1" (mkHallCaptureTask 11 60 "A1" "p3.jpg" "") :: (OpWorker <$> replicate 20 OcrDemo.fine)) OcrDemo.demo_db 11
    OcrDemo.cancelled.1 OcrDemo.cancelled.2 OcrDemo.after_cancel.1 OcrDemo.after_cancel.2)
    as (_ & Htaken & Hloud); [exact (surjective_pairing OcrDemo.cancelled)|exact Hin|exact (surjective_pairing OcrDemo.after_cancel)|].
  split; [exact Hin|]. split; [exact Htaken|]. apply Hloud. vm_compute. reflexivity.
Defined.
