(* ===== verification/HallParking.v ===== *)
(** The hall parking service, [src/sensor/HallParkingService.cpp]: the commands that it builds from sensor lines
    and camera signals for the slot transition actor, and what it does with a committed transition. *)
From stdpp Require Import sorting.
From S2P Require Import Prelude Digest SensorProtocol SequencePolicy SlotConfig Occupancy Iva OccupancyDb SlotActor TimeText DeadlineQueue ParkingDb Overstay Evidence.

(** * The work queue *)

(** [include/sensor/HallParkingService.hpp:29-34 HallParkingWorkItem] *)
Record HallParkingWorkItem := mkHallParkingWorkItem {
  hwi_event : ParkingSensorEvent;
  hwi_transition : ParkingTransitionResult;
  hwi_expectedSessionId : option Z
}.
Inductive PushResult := PushAdded | PushCoalesced | PushFull.

Definition same_work (event : ParkingSensorEvent) (queued : HallParkingWorkItem) : bool :=
  bool_decide (pse_slotId (hwi_event queued) = pse_slotId event) &&
  bool_decide (pse_state (hwi_event queued) = pse_state event).

(** [src/sensor/HallParkingService.cpp:73-74 HallParkingWorkQueue::HallParkingWorkQueue] *)
Definition work_capacity (capacity : nat) : nat := Nat.max 1 capacity.

Section WorkQueue.
Variable capacity : nat.

(** [src/sensor/HallParkingService.cpp:76-84 HallParkingWorkQueue::canAccept] *)
Definition wq_canAccept (event : ParkingSensorEvent) (items : list HallParkingWorkItem) : bool :=
  (length items <? capacity)%nat || existsb (same_work event) items.

(** [src/sensor/HallParkingService.cpp:86-101 HallParkingWorkQueue::push] *)
Definition wq_push (item : HallParkingWorkItem) (items : list HallParkingWorkItem)
    : PushResult * list HallParkingWorkItem :=
  match list_find (fun queued => same_work (hwi_event item) queued = true) items with
  | Some (i, _) => (PushCoalesced, <[i := item]> items)
  | None => if (capacity <=? length items)%nat then (PushFull, items) else (PushAdded, items ++ [item])
  end.

(** [src/sensor/HallParkingService.cpp:103-108 HallParkingWorkQueue::pop] *)
Definition wq_pop (items : list HallParkingWorkItem) : option HallParkingWorkItem * list HallParkingWorkItem :=
  match items with
  | [] => (None, [])
  | item :: rest => (Some item, rest)
  end.
End WorkQueue.

(** * Identities *)

(** [src/sensor/HallParkingService.cpp:35-39 epochMs] *)
Definition epochMs (value : time_point) : Z := Z.quot value 1000000.

(** [src/sensor/HallParkingService.cpp:41-50 stableHash] *)
Definition stableHash (value : string) : string := hex_digits 16 (fnv1a 14695981039346656037 value).

Example stableHash_empty : stableHash "" = "cbf29ce484222325".
Proof. reflexivity. Qed.
Example stableHash_a : stableHash "a" = "af63dc4c8601ec8c".
Proof. vm_compute. reflexivity. Qed.

(** [src/sensor/HallParkingService.cpp:52-55 areaKey] *)
Definition areaKey (signal : IvaOccupancySignal) : string :=
  ios_cameraId signal +:+ "|" +:+ ios_videoSourceToken signal +:+ "|" +:+ ios_ruleName signal.

(** [src/sensor/HallParkingService.cpp:57-69 actionName] *)
Definition actionName (action : IvaOccupancyAction) : string :=
  match action with
  | Enter => "ENTER" | Intrusion => "INTRUSION" | Exit => "EXIT" | UnsupportedAction => "UNSUPPORTED"
  end.

(** * The commands *)

(** The members of AppConfig that the service reads; an area is its slot, its channel and whether that channel
    exists. *)
Record HallArea := mkHallArea { ha_slot : string; ha_channel : string }.
Record HallConfig := mkHallConfig {
  hc_occupancy_source : string;
  hc_confirm_ms : Z;
  hc_exit_confirm_ms : Z;
  hc_correlation_window_ms : Z;
  hc_queue_capacity : Z;
  hc_retention_days : Z;
  hc_areas : list HallArea;
  hc_channels : list string
}.

(** The printer of JSON throws on a text that is no UTF-8. *)
Class JsonTexts := { json_printable : json -> bool }.

(** An object from its members; the library keeps them in key order. *)
Definition json_of (members : list (string * json)) : json :=
  JObject (foldl (fun m kv => members_set m kv.1 kv.2) [] members).

Section Commands.
Context `{JsonLibrary} `{JsonTexts}.
Variable cfg : HallConfig.
Variable slot_configs : list ParkingSlotConfig.

Definition dump (payload : json) : result string string :=
  if json_printable payload then Ok (json_dump payload) else Err "invalid UTF-8 byte".

(** [src/sensor/HallParkingService.cpp:186-198 HallParkingService::makeHallCommand] *)
Definition hall_identity (event : ParkingSensorEvent) (raw_line : string) (received_ms : Z) (counter : N)
    : string * N :=
  match pse_sourceProtocolVersion event, pse_sourceBootId event, pse_sourceSequence event with
  | BootEpochV2, Some boot, Some sequence =>
      (pse_sensorId event +:+ ":v2:" +:+ boot +:+ ":" +:+ pretty sequence, counter)
  | _, _, Some sequence => (pse_sensorId event +:+ ":v1:" +:+ pretty sequence, counter)
  | _, _, None =>
      (pse_sensorId event +:+ ":unsequenced:" +:+ stableHash raw_line +:+ ":" +:+ pretty received_ms +:+ ":" +:+
       pretty counter, ((counter + 1) mod 2 ^ 64)%N)
  end.

(** [src/sensor/HallParkingService.cpp:199-206 HallParkingService::makeHallCommand] *)
Definition hall_payload (event : ParkingSensorEvent) : json :=
  json_of ([("state", JString (state_name (pse_state event)));
            ("occupancy_policy", JString (hc_occupancy_source cfg));
            ("source_protocol", JString (protocol_to_string (pse_sourceProtocolVersion event)));
            ("transport", JString (pse_sourceTransport event));
            ("occurred_at_epoch_ms", JInteger (epochMs (pse_occurredAt event)))] ++
           match pse_sourceBootId event with Some boot => [("source_boot_id", JString boot)] | None => [] end).

(** [src/sensor/HallParkingService.cpp:181-222 HallParkingService::makeHallCommand] *)
Definition makeHallCommand (received_ms : Z) (event : ParkingSensorEvent) (raw_line : string) (counter : N)
    : result string SlotTransitionCommand * N :=
  let '(identity, counter) := hall_identity event raw_line received_ms counter in
  (match dump (hall_payload event) with
   | Err what => Err what
   | Ok text =>
       Ok (mkSlotTransitionCommand ("hall:" +:+ stableHash identity) HallObservation (pse_slotId event)
             (pse_sensorId event) identity (pse_sourceSequence event) (utcString (pse_occurredAt event)) text
             (match pse_state event with
              | Occupied => received_ms + Z.max 0 (hc_confirm_ms cfg)
              | Vacant => received_ms
              end))
   end, counter).

Definition find_slot (slot_id : string) : option ParkingSlotConfig :=
  List.find (fun c => psc_enabled c && bool_decide (psc_slotId c = slot_id)) slot_configs.

(** [std::unique] after [std::sort]. *)
Fixpoint unique_sorted (l : list string) : list string :=
  match l with
  | x :: ((y :: _) as rest) => if bool_decide (x = y) then unique_sorted rest else x :: unique_sorted rest
  | _ => l
  end.

(** [src/sensor/HallParkingService.cpp:237-255 HallParkingService::makeCameraCommand] *)
Definition configured_areas (signal : IvaOccupancySignal) : list string :=
  let areas := match find_slot (ios_slotId signal) with
               | Some slot =>
                   (fun b => sob_cameraId b +:+ "|" +:+ sob_videoSourceToken b +:+ "|" +:+ sob_ruleName b) <$>
                   List.filter sob_enabled (psc_cameraBindings slot)
               | None => [] end in
  unique_sorted (merge_sort (fun a b => String.leb a b = true)
                   (match areas with [] => [areaKey signal] | _ => areas end)).

(** [src/sensor/HallParkingService.cpp:257-264 HallParkingService::makeCameraCommand] *)
Definition camera_identity (signal : IvaOccupancySignal) (counter : N) : string :=
  if is_empty (ios_sourceIdentity signal) then
    "camera-fallback:" +:+ stableHash
      (ios_slotId signal +:+ "|" +:+ areaKey signal +:+ "|" +:+ ios_objectId signal +:+ "|" +:+
       actionName (ios_action signal) +:+ "|" +:+ pretty (epochMs (ios_occurredAt signal)) +:+ "|" +:+ pretty counter)
  else ios_sourceIdentity signal.

(** [src/sensor/HallParkingService.cpp:265-288 HallParkingService::makeCameraCommand] *)
Definition camera_payload (received_ms : Z) (signal : IvaOccupancySignal) (identity : string) : json :=
  let occurred := epochMs (ios_occurredAt signal) in
  json_of
    [("action", JString (actionName (ios_action signal)));
     ("authoritative_exit", JBool (ios_authoritativeExit signal));
     ("occupancy_authority", JBool (ios_occupancyAuthority signal));
     ("occupancy_policy", JString (hc_occupancy_source cfg));
     ("area_key", JString (areaKey signal));
     ("configured_areas", JArray (JString <$> configured_areas signal));
     ("camera_id", JString (ios_cameraId signal));
     ("channel_id", JString (ios_channelId signal));
     ("video_source_token", JString (ios_videoSourceToken signal));
     ("rule_name", JString (ios_ruleName signal));
     ("object_id", JString (ios_objectId signal));
     ("correlation_id", JString ("correlation:" +:+ stableHash identity));
     ("correlation_expires_at_epoch_ms", JInteger (occurred + Z.max 1 (hc_correlation_window_ms cfg)));
     ("transport", JString (ios_sourceTransport signal));
     ("occurred_at_epoch_ms", JInteger occurred);
     ("timestamp_authority", JString (if ios_occurredAtFromSource signal then "CAMERA_UTC" else "RECEIVE_FALLBACK"));
     ("deadline_due_at_epoch_ms",
       JInteger (received_ms + (if bool_decide (ios_action signal = Exit) && ios_authoritativeExit signal
                                then Z.max 0 (hc_exit_confirm_ms cfg) else 0)))].

(** [src/sensor/HallParkingService.cpp:224-304 HallParkingService::makeCameraCommand] *)
Definition makeCameraCommand (received_ms : Z) (signal : IvaOccupancySignal) (counter : N)
    : result string SlotTransitionCommand * N :=
  let identity := camera_identity signal counter in
  (match dump (camera_payload received_ms signal identity) with
   | Err what => Err what
   | Ok text =>
       Ok (mkSlotTransitionCommand ("camera:" +:+ stableHash identity) CameraObservation (ios_slotId signal)
             (match find_slot (ios_slotId signal) with Some slot => psc_sensorId slot | None => "" end) identity None
             (utcString (ios_occurredAt signal)) text received_ms)
   end, ((counter + 1) mod 2 ^ 64)%N).

(** * Ingress *)

Inductive HallReportCode :=
| SensorMessageInvalid | SensorNotMapped | SensorSequenceRejected | HallWorkQueueOverflow | SensorHandlerFailed.
Inductive HallSeverity := HallWarning | HallError.

(** [src/sensor/HallParkingService.cpp:509-527 HallParkingService::report] What reaches the reporter. *)
Record HallReport := mkHallReport {
  hr_from_mqtt : bool;
  hr_code : HallReportCode;
  hr_severity : HallSeverity;
  hr_message : string;
  hr_transport : string;
  hr_slot : string
}.
Definition hall_report code severity message transport slot : HallReport :=
  mkHallReport (bool_decide (transport = "camera-mqtt")) code severity message transport slot.

(** The service's own state: the actor and the counter of unsequenced identities. *)
Record HallIngress := mkHallIngress { hi_actor : Actor; hi_counter : N; hi_reports : list HallReport }.

(** [include/parking/SlotTransitionActor.hpp:35-40 SlotSubmitResult::accepted] *)
Definition submit_accepted (r : SlotSubmitResult) : bool :=
  match ssr_code r with
  | TransportQueued | SubmitAdmitted | SubmitExisting | SubmitAlreadyTerminal => true
  | _ => false
  end.

Definition hall_source (source : string) : bool :=
  bool_decide (source = "HALL") || bool_decide (source = "HYBRID_OR").
Definition camera_source (source : string) : bool :=
  bool_decide (source = "CAMERA_IVA") || bool_decide (source = "HYBRID_OR").

(** [src/sensor/HallParkingService.cpp:143-149 HallParkingService::HallParkingService] The actor's configuration. *)
Definition actor_config : ActorConfig :=
  normalise_config (mkActorConfig (Z.to_nat (Z.max 1 (hc_queue_capacity cfg))) (Z.to_N (Z.max 1 (hc_queue_capacity cfg)))
    50 (24 * 3600000 * Z.max 1 (hc_retention_days cfg)) 3600000 2000).

Definition submit_command (made : result string SlotTransitionCommand * N) (transport slot : string)
    (code_of : SlotSubmitCode -> HallReportCode * HallSeverity) (s : HallIngress)
    : result string bool * HallIngress :=
  match made.1 with
  | Err what => (Err what, mkHallIngress (hi_actor s) made.2 (hi_reports s))
  | Ok command =>
      let '(r, actor) := submit actor_config command (hi_actor s) in
      if submit_accepted r then (Ok true, mkHallIngress actor made.2 (hi_reports s)) else
      let '(code, severity) := code_of (ssr_code r) in
      (Ok false, mkHallIngress actor made.2
                   (hi_reports s ++ [hall_report code severity (ssr_message r) transport slot]))
  end.

(** [src/sensor/HallParkingService.cpp:306-350 HallParkingService::handleLine] With the clocks that it reads: the system clock
    and the steady clock of the parser, and the receive time of the command. *)
Definition handleLine (index : gmap string SensorSlotMatch) (receivedAt mono : time_point) (received_ms : Z)
    (line transport : string) (s : HallIngress) : result string bool * HallIngress :=
  if negb (hall_source (hc_occupancy_source cfg)) then (Ok false, s) else
  let refuse code message := (Ok false, mkHallIngress (hi_actor s) (hi_counter s)
    (hi_reports s ++ [hall_report code HallWarning message transport ""])) in
  match parse line receivedAt mono with
  | Err error => refuse SensorMessageInvalid error
  | Ok message =>
      let message := mkSensorProtocolMessage (spm_sensorId message) (spm_state message) (spm_occurredAt message)
                       (spm_sequence message) (spm_protocolVersion message) (spm_bootId message) transport
                       (spm_node message) (spm_receivedMonotonic message) in
      match adapt index message with
      | Err error => refuse SensorNotMapped (error +:+ "; sensor_id=" +:+ spm_sensorId message)
      | Ok event =>
          submit_command (makeHallCommand received_ms event line (hi_counter s)) transport (pse_slotId event)
            (fun code => if bool_decide (code = SubmitRejectedStale) then (SensorSequenceRejected, HallWarning)
                         else (HallWorkQueueOverflow, HallError)) s
      end
  end.

(** [src/sensor/HallParkingService.cpp:352-390 HallParkingService::handleCameraIvaSignal] *)
Definition handleCameraIvaSignal (received_ms : Z) (signal : IvaOccupancySignal) (s : HallIngress)
    : result string bool * HallIngress :=
  let camera := camera_source (hc_occupancy_source cfg) in
  if (negb camera && negb (hall_source (hc_occupancy_source cfg))) ||
     negb (Bool.eqb (ios_occupancyAuthority signal) camera)
  then (Ok false, s) else
  match find_slot (ios_slotId signal) with
  | None => (Ok false, s)
  | Some _ =>
      if bool_decide (ios_action signal = UnsupportedAction) then (Ok false, s) else
      if bool_decide (hc_occupancy_source cfg = "HALL") && negb (bool_decide (ios_action signal = Intrusion))
      then (Ok false, s) else
      submit_command (makeCameraCommand received_ms signal (hi_counter s)) (ios_sourceTransport signal)
        (ios_slotId signal) (fun _ => (HallWorkQueueOverflow, HallError)) s
  end.
End Commands.

(** * Committed transitions *)

(** What the effects of a transition reach: the evidence worker, the timers with the database that they share and
    the history of published events, the sink of transitions, the OCR queue, the files, the reports. *)
Record HallWorld := mkHallWorld {
  hw_evidence : EvidenceState;
  hw_overstay : Overstay.Overstay;
  hw_transitions : list ParkingTransitionResult;
  hw_ocr_canceled : list Z;
  hw_removed : list string;
  hw_reports : list HallReport
}.
Definition hw_set_evidence (w : HallWorld) e : HallWorld :=
  mkHallWorld e (hw_overstay w) (hw_transitions w) (hw_ocr_canceled w) (hw_removed w) (hw_reports w).
Definition hw_set_overstay (w : HallWorld) o : HallWorld :=
  mkHallWorld (hw_evidence w) o (hw_transitions w) (hw_ocr_canceled w) (hw_removed w) (hw_reports w).
Definition hw_add_transition (w : HallWorld) t : HallWorld :=
  mkHallWorld (hw_evidence w) (hw_overstay w) (hw_transitions w ++ [t]) (hw_ocr_canceled w) (hw_removed w) (hw_reports w).
Definition hw_cancel_ocr (w : HallWorld) id : HallWorld :=
  mkHallWorld (hw_evidence w) (hw_overstay w) (hw_transitions w) (hw_ocr_canceled w ++ [id]) (hw_removed w) (hw_reports w).
Definition hw_remove (w : HallWorld) paths : HallWorld :=
  mkHallWorld (hw_evidence w) (hw_overstay w) (hw_transitions w) (hw_ocr_canceled w) (hw_removed w ++ paths) (hw_reports w).
Definition hw_report (w : HallWorld) r : HallWorld :=
  mkHallWorld (hw_evidence w) (hw_overstay w) (hw_transitions w) (hw_ocr_canceled w) (hw_removed w) (hw_reports w ++ [r]).

(** What the outside answers to one delivery: the clocks, whether the publisher of events takes an event of a type, and
    whether a file is gone or can be removed. *)
Record Outside := mkOutside {
  ou_at : Instant;
  ou_publish : string -> bool;
  ou_removable : string -> bool
}.

Section Effects.
Variable cfg : HallConfig.
Variable out : Outside.

(** [src/sensor/HallParkingService.cpp:20-25 findArea] *)
Definition findArea (slot_id : string) : option HallArea :=
  List.find (fun a => bool_decide (ha_slot a = slot_id)) (hc_areas cfg).
(** [src/sensor/HallParkingService.cpp:27-33 findChannel] *)
Definition findChannel (channel_id : string) : option string :=
  List.find (fun c => bool_decide (c = channel_id)) (hc_channels cfg).

Definition hall_publish type slot car occurred detail session (w : HallWorld) : bool * HallWorld :=
  (ou_publish out type, hw_set_overstay w (publish (ou_at out) type slot car occurred detail session (hw_overstay w))).

(** The files of the session's pictures. *)
Definition session_files (session_id : Z) (d : ParkingDb) : list string :=
  List.filter (fun p => negb (is_empty p))
    (mbind (fun i => [default "" (im_original i); default "" (im_enhanced i)])
       (List.filter (fun i => bool_decide (im_session i = Some session_id)) (pd_images d))).

(** [src/sensor/HallParkingService.cpp:485-507 HallParkingService::removeEarlyDepartureImages] With the listing and the deletion of
    the rows, [src/database/EventDatabase.cpp:286-290] and [309-312]. *)
Definition removeEarlyDepartureImages (session_id : Z) (w : HallWorld) : bool * HallWorld :=
  let d := ov_db (hw_overstay w) in
  if negb (pd_open d) || (session_id <? 0) then (false, w) else
  let files := session_files session_id d in
  let w1 := hw_remove w (List.filter (ou_removable out) files) in
  if negb (forallb (ou_removable out) files) then (false, w1) else
  (true, hw_set_overstay w1 (ov_set_db (hw_overstay w1)
           (pd_set_images d (List.filter (fun i => negb (bool_decide (im_session i = Some session_id))) (pd_images d))))).

(** The session of a committed start. *)
Definition started_monotonic (committed : CommittedOccupancyTransition) : time_point :=
  let started := cot_occurredAtEpochMs committed * 1000000 in
  in_steady (ou_at out) - (if started <? in_wall (ou_at out) then in_wall (ou_at out) - started else 0).

Definition fail_report message (committed : CommittedOccupancyTransition) : HallReport :=
  hall_report SensorHandlerFailed HallError message (cot_sourceTransport committed) (cot_slotId committed).

(** [src/sensor/HallParkingService.cpp:401-448 HallParkingService::applyCommittedEffects] *)
Definition start_effects (committed : CommittedOccupancyTransition) (w : HallWorld) : result string bool * HallWorld :=
  match findArea (cot_slotId committed) with
  | None => (Ok false, hw_report w (fail_report "no ROI mapping for committed occupied slot" committed))
  | Some area =>
      match findChannel (ha_channel area) with
      | None => (Ok false, hw_report w (fail_report "no RTSP channel for committed occupied slot" committed))
      | Some channel =>
          let mono := started_monotonic committed in
          match new_session (pretty (cot_sessionId committed)) (cot_slotId committed) (cot_sensorId committed)
                  (cot_occurredAtEpochMs committed * 1000000) mono with
          | Err what => (Err what, w)
          | Ok session =>
              let w1 := hw_add_transition w
                (mkParkingTransitionResult SessionStarted (cot_slotId committed) (pretty (cot_sessionId committed))
                   (cot_message committed) (Some session)) in
              let '(scheduled, e) := scheduleSession (in_steady (ou_at out))
                (mkEvidenceCaptureRequest (cot_sessionId committed) (cot_slotId committed) (Some channel) mono)
                (hw_evidence w1) in
              let w2 := hw_set_evidence w1 e in
              if negb scheduled
              then (Ok false, hw_report w2 (fail_report ("evidence capture scheduling failed after occupancy commit; " +:+
                                                         "session retained for retry") committed))
              else let '(sent, w3) := hall_publish "SLOT_OCCUPIED" (cot_slotId committed) "" (cot_occurredAt committed)
                                        "authoritative occupancy commit" (cot_sessionId committed) w2 in
                   (Ok sent, w3)
          end
      end
  end.

(** [src/sensor/HallParkingService.cpp:454-482 HallParkingService::applyCommittedEffects] *)
Definition end_effects (committed : CommittedOccupancyTransition) (w : HallWorld) : result string bool * HallWorld :=
  let '(departed, o) := handleCommittedExit (cot_sessionId committed) (cot_slotId committed) (hw_overstay w) in
  let w0 := hw_set_overstay w o in
  match departed with
  | Err (InvalidArgument what) | Err (RuntimeError what) => (Err what, w0)
  | Ok None =>
      (Ok false, hw_report w0 (fail_report "committed session end could not rebuild timer projection" committed))
  | Ok (Some record) =>
      let w1 := hw_set_evidence w0 (cancelSession (lr_id record) (hw_evidence w0)) in
      let w2 := hw_cancel_ocr (hw_add_transition w1
        (mkParkingTransitionResult SessionCompleted (cot_slotId committed) (pretty (cot_sessionId committed))
           (cot_message committed) None)) (lr_id record) in
      let '(departure, w3) := hall_publish "DEPARTURE" (cot_slotId committed) (lr_car_number record)
        (default (cot_occurredAt committed) (lr_departed_at record))
        "authoritative occupancy transaction committed; timer projection lazily canceled" (lr_id record) w2 in
      match lr_violation_at record with
      | Some _ => (Ok departure, w3)
      | None =>
          match removeEarlyDepartureImages (lr_id record) w3 with
          | (false, w4) => (Ok false, w4)
          | (true, w4) =>
              let '(cleanup, w5) := hall_publish "EARLY_DEPARTURE_IMAGES_DELETED" (cot_slotId committed)
                (lr_car_number record) (cot_occurredAt committed) "temporary entry images removed" (lr_id record) w4 in
              (Ok (departure && cleanup), w5)
          end
      end
  end.

(** [src/sensor/HallParkingService.cpp:392-483 HallParkingService::applyCommittedEffects] *)
Definition applyCommittedEffects (committed : CommittedOccupancyTransition) (w : HallWorld)
    : result string bool * HallWorld :=
  match cot_code committed with
  | CommittedStarted => start_effects committed w
  | CommittedEnded => end_effects committed w
  | _ => (Ok true, w)
  end.
End Effects.
