(* ===== verification/HallSafety.v ===== *)
(** The hall parking service: what the store reads from the commands that the service builds, a fact that
    arrives again, and what a delivered transition leaves behind. *)
From stdpp Require Import countable.
From stdpp Require Import sorting.
From S2P Require Import Prelude SensorProtocol SequencePolicy SlotConfig Occupancy Iva OccupancyDb OccupancyAdmission OccupancyApply OccupancyStore SlotActor TimeText DeadlineQueue ParkingDb Overstay Evidence HallParking.

(** What the service relies on of the JSON library: a text that was printed is parsed back, the empty text is
    no JSON, and equality is reflexive. *)
Class JsonLaws (JL : JsonLibrary) (JT : JsonTexts) : Prop := {
  json_roundtrip : forall j, json_printable j = true -> json_parse (json_dump j) = Ok j;
  json_no_text : forall j, json_parse "" <> Ok j;
  json_eqb_refl : forall j, json_eqb j j = true
}.

Lemma wrap_int64_small z : - 2 ^ 63 <= z < 2 ^ 63 -> wrap_int64 z = z.
Proof. intros Hz. unfold wrap_int64. rewrite Z.mod_small by lia. lia. Qed.

Section Commands.
Context `{JL : JsonLibrary} `{JT : JsonTexts} `{!JsonLaws JL JT} {SQL : SqlFunctions}.
Variable cfg : HallConfig.

(** ** Reading a hall command *)

Lemma find_state event : json_find (hall_payload cfg event) "state" = Some (JString (state_name (pse_state event))).
Proof. unfold hall_payload. by destruct (pse_sourceBootId event). Qed.
Lemma find_policy event : json_find (hall_payload cfg event) "occupancy_policy" = Some (JString (hc_occupancy_source cfg)).
Proof. unfold hall_payload. by destruct (pse_sourceBootId event). Qed.
Lemma find_protocol event :
  json_find (hall_payload cfg event) "source_protocol" = Some (JString (protocol_to_string (pse_sourceProtocolVersion event))).
Proof. unfold hall_payload. by destruct (pse_sourceBootId event). Qed.
Lemma find_transport event : json_find (hall_payload cfg event) "transport" = Some (JString (pse_sourceTransport event)).
Proof. unfold hall_payload. by destruct (pse_sourceBootId event). Qed.
Lemma find_occurred event :
  json_find (hall_payload cfg event) "occurred_at_epoch_ms" = Some (JInteger (epochMs (pse_occurredAt event))).
Proof. unfold hall_payload. by destruct (pse_sourceBootId event). Qed.
Lemma find_boot event : json_find (hall_payload cfg event) "source_boot_id" = JString <$> pse_sourceBootId event.
Proof. unfold hall_payload. by destruct (pse_sourceBootId event). Qed.

Lemma hall_payload_object event : is_object (hall_payload cfg event) = true.
Proof. done. Qed.

Lemma protocol_back v : sensorProtocolVersionFromString (protocol_to_string v) = Some v.
Proof. by destruct v. Qed.

Lemma sequence_fact_back command event :
  stc_sourceSequence command = pse_sourceSequence event ->
  hallSequenceFact command (hall_payload cfg event) = Ok (fact_of_event event).
Proof.
  intros Hs. unfold hallSequenceFact, value_string. rewrite hall_payload_object, find_protocol, find_boot.
  cbn [negb rbind]. rewrite protocol_back, Hs. unfold fact_of_event. by destruct (pse_sourceBootId event).
Qed.

(** The parts of a hall command. *)
Record hall_made (received_ms : Z) (event : ParkingSensorEvent) (raw_line : string) (counter : N)
    (command : SlotTransitionCommand) : Prop := {
  hm_id : stc_commandId command = "hall:" +:+ stableHash (hall_identity event raw_line received_ms counter).1;
  hm_kind : stc_kind command = HallObservation;
  hm_slot : stc_slotId command = pse_slotId event;
  hm_sensor : stc_sensorId command = pse_sensorId event;
  hm_identity : stc_sourceIdentity command = (hall_identity event raw_line received_ms counter).1;
  hm_sequence : stc_sourceSequence command = pse_sourceSequence event;
  hm_time : stc_occurredAt command = utcString (pse_occurredAt event);
  hm_payload : json_parse (stc_payloadJson command) = Ok (hall_payload cfg event)
}.

Lemma make_hall received_ms event raw_line counter command counter' :
  makeHallCommand cfg received_ms event raw_line counter = (Ok command, counter') ->
  hall_made received_ms event raw_line counter command.
Proof.
  unfold makeHallCommand, dump. destruct (hall_identity event raw_line received_ms counter) as [identity n] eqn:Hi.
  destruct (json_printable (hall_payload cfg event)) eqn:Hp; [|done]. intros [= <- <-].
  split; simpl; try done; try (by rewrite Hi). by apply json_roundtrip.
Qed.

(** The store reads what the service wrote. A hall command that was admitted is read back from its row as the event
    that it was made from: its slot, its sensor, transport, time, state and the configured policy; and the sequence
    gate of the store decides on it exactly as the sequence policy decides on the event. *)
Theorem hall_command_understood received_ms event raw_line counter command counter' ordinal correlation now s :
  makeHallCommand cfg received_ms event raw_line counter = (Ok command, counter') ->
  - 2 ^ 63 <= epochMs (pse_occurredAt event) < 2 ^ 63 ->
  let row := admitted_row command ordinal correlation now in
  exists payload,
    read_payload row = Ok (payload, pse_sourceTransport event, epochMs (pse_occurredAt event)) /\
    value_string payload "state" "" = Ok (state_name (pse_state event)) /\
    value_string payload "occupancy_policy" "" = Ok (hc_occupancy_source cfg) /\
    (ib_slot_id row, ib_sensor_id row) = (pse_slotId event, pse_sensorId event) /\
    (hall_sequence_gate s command = Ok None <->
     pse_sensorId event <> "" /\
     accepted (evaluateSensorSequence (loadHallSequenceState s (pse_sensorId event)) (fact_of_event event)) = true).
Proof.
  intros Hm Hms row. apply make_hall in Hm. destruct Hm as [_ _ Hslot Hsensor _ Hseq _ Hpay].
  exists (hall_payload cfg event). unfold row, read_payload, parse_or_throw. cbn [ib_payload admitted_row].
  rewrite Hpay. cbn [rbind]. unfold value_string, value_int64, value_number.
  rewrite find_transport, find_occurred, find_state, find_policy, hall_payload_object. cbn [negb rbind].
  rewrite wrap_int64_small by done.
  split; [done|]. split; [done|]. split; [done|]. split; [simpl; by rewrite Hslot, Hsensor|].
  unfold hall_sequence_gate, parse_or_throw. rewrite Hsensor, Hpay. cbn [rbind]. rewrite sequence_fact_back by done.
  destruct (pse_sensorId event) as [|c id] eqn:Hid; simpl; [split; [done|by intros [? _]]|].
  destruct (accepted _); simpl; split; try done. by intros [_ ?].
Qed.

(** ** A fact that arrives again *)

(** The same fact, read at another time. *)
Definition same_fact (e e' : ParkingSensorEvent) : Prop :=
  pse_slotId e' = pse_slotId e /\ pse_sensorId e' = pse_sensorId e /\ pse_state e' = pse_state e /\
  pse_sourceSequence e' = pse_sourceSequence e /\ pse_sourceProtocolVersion e' = pse_sourceProtocolVersion e /\
  pse_sourceBootId e' = pse_sourceBootId e /\ pse_sourceTransport e' = pse_sourceTransport e.

Lemma same_fact_identity e e' raw raw' ms ms' n n' :
  same_fact e e' -> is_Some (pse_sourceSequence e) -> (hall_identity e raw ms n).1 = (hall_identity e' raw' ms' n').1.
Proof.
  intros (_ & H2 & _ & H4 & H5 & H6 & _) [sequence Hs]. unfold hall_identity. rewrite H2, H4, H5, H6, Hs.
  by destruct (pse_sourceProtocolVersion e), (pse_sourceBootId e).
Qed.

Lemma same_fact_payload e e' :
  same_fact e e' ->
  json_erase (hall_payload cfg e) "occurred_at_epoch_ms" = json_erase (hall_payload cfg e') "occurred_at_epoch_ms".
Proof.
  intros (_ & _ & H3 & _ & H5 & H6 & H7). unfold hall_payload. rewrite H3, H5, H6, H7.
  by destruct (pse_sourceBootId e).
Qed.

Lemma is_empty_app_r a b : is_empty b = false -> is_empty (a +:+ b) = false.
Proof. by destruct a. Qed.
Lemma utcString_nonempty t : is_empty (utcString t) = false.
Proof.
  unfold utcString. destruct (Calendar.civil_from_days _) as [[y m] d]. by apply is_empty_app_r.
Qed.

Lemma hall_made_same ms ms' e e' raw raw' n n' c c' :
  hall_made ms e raw n c -> hall_made ms' e' raw' n' c' -> same_fact e e' -> is_Some (pse_sourceSequence e) ->
  admissible c -> admissible c' /\ sameSlotSourceFact c c' = true.
Proof.
  intros [a1 a2 a3 a4 a5 a6 a7 a8] [b1 b2 b3 b4 b5 b6 b7 b8] Hf Hs [Hc _].
  pose proof (same_fact_identity e e' raw raw' ms ms' n n' Hf Hs) as Hi.
  assert (E1 : stc_commandId c' = stc_commandId c) by congruence.
  assert (E2 : stc_sourceIdentity c' = stc_sourceIdentity c) by congruence.
  pose proof (same_fact_payload e e' Hf) as Hp.
  destruct Hf as (H1 & H2 & _ & H4 & _).
  assert (E3 : stc_slotId c' = stc_slotId c) by congruence.
  assert (E4 : stc_sensorId c' = stc_sensorId c) by congruence.
  assert (E5 : stc_sourceSequence c' = stc_sourceSequence c) by congruence.
  split.
  - split; [|by rewrite b2]. rewrite E1, E2, E3, b7, utcString_nonempty. split_bool.
    repeat match goal with E : is_empty _ = false |- _ => rewrite E; clear E end. simpl.
    destruct (stc_payloadJson c') eqn:Ep; [|done]. by apply json_no_text in b8.
  - unfold sameSlotSourceFact. rewrite E1, E2, E3, E4, E5, a2, b2, a8, b8.
    rewrite !bool_decide_eq_true_2 by done. rewrite !hall_payload_object. cbn [andb]. rewrite Hp. apply json_eqb_refl.
Qed.

Lemma hall_storable ms e raw n c :
  hall_made ms e raw n c -> (forall q, pse_sourceSequence e = Some q -> (q <= uint64_max)%N) -> storable c.
Proof.
  intros [a1 a2 a3 a4 a5 a6 a7 a8] Hq. split; [intros q; rewrite a6; apply Hq|]. by eexists.
Qed.

(** C5 [safety] A sequenced fact is admitted once. Once the command of a fact was admitted, the command that the
    service makes when the same fact arrives again, at any later time and after any other operations of the store
    except the purge, is answered as the command already there, and nothing is stored. *)
Theorem hall_redelivery ms ms' e e' raw raw' n n' c c' k k' now now' capacity capacity' s ops :
  unique_inbox (st_inbox s) -> same_fact e e' -> is_Some (pse_sourceSequence e) ->
  (forall q, pse_sourceSequence e = Some q -> (q <= uint64_max)%N) ->
  makeHallCommand cfg ms e raw n = (Ok c, k) -> makeHallCommand cfg ms' e' raw' n' = (Ok c', k') ->
  sar_code (admitSlotTransitionCommand true now c capacity s).1 = CommandAdmitted ->
  forallb (fun op => negb (is_purge op)) ops = true -> capacity' <> 0%N ->
  let s' := store_run (admitSlotTransitionCommand true now c capacity s).2 ops in
  let '(r, s'') := admitSlotTransitionCommand true now' c' capacity' s' in
  s'' = s' /\ (sar_code r = Existing \/ sar_code r = AlreadyTerminal) /\ sar_commandId r = stc_commandId c.
Proof.
  intros Hu Hf Hs Hq Hm Hm' Hcode Hops Hcap. apply make_hall in Hm, Hm'.
  destruct (hall_made_same _ _ _ _ _ _ _ _ _ _ Hm Hm' Hf Hs (admitted_admissible _ _ _ _ Hcode)) as [Ha Hsame].
  destruct (admission_kept now c capacity s ops Hu (hall_storable _ _ _ _ _ Hm Hq) Hcode Hops)
    as (Hu' & row & Hrow & Hsc & Hkey).
  by apply (readmission now' c c' capacity' _ row).
Qed.
End Commands.

(** * Delivered transitions *)

Lemma schedule_scheduled now request e :
  (scheduleSession now request e).1 = true -> rq_sessionId request ∈ ew_scheduled (scheduleSession now request e).2.
Proof.
  unfold scheduleSession, scheduleSessionImpl. destruct (_ || _ || _); [done|]. cbn [Nat.add Nat.eqb].
  destruct (_ || _); [done|]. destruct (bool_decide _) eqn:Hb; [intros _; by apply bool_decide_eq_true in Hb|].
  destruct (_ <? _)%nat; [done|]. intros _. simpl. set_solver.
Qed.

Lemma cancel_forgets id e :
  0 <= id ->
  (forall j, j ∈ ew_jobs (cancelSession id e) -> rq_sessionId (jb_request j) <> id) /\
  id ∉ ew_scheduled (cancelSession id e) /\
  (forall reason, ew_in_flight e = Some (id, reason) -> id ∈ ew_canceled (cancelSession id e)).
Proof.
  intros Hid. unfold cancelSession. destruct (Z.ltb_spec id 0); [lia|]. simpl. split; [|split].
  - intros j Hj. rewrite q_build_perm, list_elem_of_In, filter_In in Hj. destruct Hj as [_ Hj].
    unfold of_session in Hj. by split_bool.
  - set_solver.
  - intros reason ->. rewrite bool_decide_eq_true_2 by done. set_solver.
Qed.

Definition published (o : Overstay.Overstay) type slot session : Prop :=
  exists car at_ detail now, LgPublished (mkPublished type slot car at_ detail session) now ∈ ov_log o.

(** What is left of a session that ended: nothing to photograph, to time or to read; its departure was published;
    and the pictures of a car that left in time are gone, rows and files. *)
Record session_gone (id : Z) (slot : string) (w w' : HallWorld) : Prop := {
  sg_jobs : forall j, j ∈ ew_jobs (hw_evidence w') -> rq_sessionId (jb_request j) <> id;
  sg_scheduled : id ∉ ew_scheduled (hw_evidence w');
  sg_flying : forall reason, ew_in_flight (hw_evidence w) = Some (id, reason) -> id ∈ ew_canceled (hw_evidence w');
  sg_timer : id ∉ ov_scheduled (hw_overstay w');
  sg_ocr : id ∈ hw_ocr_canceled w';
  sg_published : published (hw_overstay w') "DEPARTURE" slot id;
  sg_images : forall row, pd_sessions (ov_db (hw_overstay w)) !! id = Some row -> pk_violation_at row = None ->
    (forall i, i ∈ pd_images (ov_db (hw_overstay w')) -> im_session i <> Some id) /\
    (forall p, p ∈ session_files id (ov_db (hw_overstay w)) -> p ∈ hw_removed w')
}.

Lemma handleCommittedExit_some id slot o record o' :
  handleCommittedExit id slot o = (Ok (Some record), o') ->
  0 <= id /\ lr_id record = id /\ id ∉ ov_scheduled o' /\ ov_db o' = ov_db o /\
  exists row, pd_sessions (ov_db o) !! id = Some row /\ lr_violation_at record = pk_violation_at row.
Proof.
  unfold handleCommittedExit. destruct (_ || _) eqn:Hb; [done|]. split_bool. unfold findLogById.
  destruct (pd_sessions (ov_db o) !! id) as [row|] eqn:Hr; [|done]. cbn [fmap option_fmap option_map].
  destruct (_ || _); [done|]. intros [= <- <-]. split; [lia|]. split; [done|]. simpl. split; [set_solver|].
  split; [done|]. by exists row.
Qed.

Lemma remove_images out id w w' :
  removeEarlyDepartureImages out id w = (true, w') ->
  hw_evidence w' = hw_evidence w /\ hw_ocr_canceled w' = hw_ocr_canceled w /\
  ov_scheduled (hw_overstay w') = ov_scheduled (hw_overstay w) /\ ov_log (hw_overstay w') = ov_log (hw_overstay w) /\
  (forall i, i ∈ pd_images (ov_db (hw_overstay w')) -> im_session i <> Some id) /\
  (forall p, p ∈ session_files id (ov_db (hw_overstay w)) -> p ∈ hw_removed w').
Proof.
  unfold removeEarlyDepartureImages. destruct (_ || _); [done|]. destruct (forallb _ _) eqn:Hall; [|done].
  intros [= <-]. repeat (split; [done|]). simpl. split.
  - intros i Hi. rewrite list_elem_of_In, filter_In in Hi. destruct Hi as [_ Hi]. by split_bool.
  - intros p Hp. apply elem_of_app. right. rewrite list_elem_of_In, filter_In, <- list_elem_of_In.
    split; [done|]. rewrite forallb_forall in Hall. apply Hall. by rewrite <- list_elem_of_In.
Qed.

Lemma end_delivered out committed w w' :
  end_effects out committed w = (Ok true, w') ->
  session_gone (cot_sessionId committed) (cot_slotId committed) w w'.
Proof.
  unfold end_effects. destruct (handleCommittedExit _ _ _) as [[[record|]|[m|m]] o] eqn:He; try done.
  apply handleCommittedExit_some in He as (Hid & Hlr & Hsch & Hdb & row & Hrow & Hv).
  destruct (cancel_forgets (cot_sessionId committed) (hw_evidence w) Hid) as (Hc1 & Hc2 & Hc3).
  unfold hall_publish. rewrite Hlr. destruct (lr_violation_at record) as [at_|].
  - intros [= Hp <-]. split; simpl; try done; [set_solver| |].
    + eexists _, _, _, _. apply elem_of_app. right. by apply list_elem_of_singleton.
    + intros row' Hrow' Hn. congruence.
  - destruct (removeEarlyDepartureImages _ _ _) as [[] w4] eqn:Hr; [|done].
    apply remove_images in Hr as (R1 & R2 & R3 & R4 & R5 & R6). intros [= Hp <-].
    split; simpl; rewrite ?R1, ?R2, ?R3, ?R4; simpl; try done; [set_solver| |].
    + eexists _, _, _, _. apply elem_of_app. left. rewrite R4. apply elem_of_app. right. by apply list_elem_of_singleton.
    + intros row' _ _. split; [exact R5|]. intros p Hp'. apply R6. simpl. by rewrite Hdb.
Qed.

(** What a delivered transition leaves behind. When the service reports the effects of a committed
    transition as delivered, then: of a start the evidence worker knows the session and the
    occupation was published; of an end nothing waits for the session any more, a picture being taken is disowned,
    the departure was published, and the pictures of a car that left before its limit are gone; of any other outcome nothing
    changed. *)
Theorem effects_delivered cfg out committed w w' :
  applyCommittedEffects cfg out committed w = (Ok true, w') ->
  match cot_code committed with
  | CommittedStarted =>
      cot_sessionId committed ∈ ew_scheduled (hw_evidence w') /\
      published (hw_overstay w') "SLOT_OCCUPIED" (cot_slotId committed) (cot_sessionId committed)
  | CommittedEnded => session_gone (cot_sessionId committed) (cot_slotId committed) w w'
  | _ => w' = w
  end.
Proof.
  unfold applyCommittedEffects. destruct (cot_code committed); try (by intros [= <-]).
  - unfold start_effects. destruct (findArea _ _) as [area|]; [|done]. destruct (findChannel _ _) as [channel|]; [|done].
    destruct (new_session _ _ _ _ _) as [session|]; [|done].
    set (request := mkEvidenceCaptureRequest _ _ _ _).
    pose proof (schedule_scheduled (in_steady (ou_at out)) request (hw_evidence w)) as Hs. simpl.
    destruct (scheduleSession _ request (hw_evidence w)) as [[] e]; [|done]. unfold hall_publish. simpl.
    intros [= Hp <-]. simpl. split; [by apply Hs|].
    eexists _, _, _, _. apply elem_of_app. right. by apply list_elem_of_singleton.
  - apply end_delivered.
Qed.

(** * Examples and witnesses *)

(** The theorems on the hall parking service at concrete events, with a JSON library that prints a value as the
    number of its code. *)
(** * A library of JSON *)

Definition leaf : Type := bool + (Z + string).
Fixpoint tree_of (j : json) : gen_tree leaf :=
  match j with
  | JNull => GenNode 0 []
  | JBool b => GenNode 1 [GenLeaf (inl b)]
  | JInteger z => GenNode 2 [GenLeaf (inr (inl z))]
  | JFloat t => GenNode 3 [GenLeaf (inr (inr t))]
  | JString s => GenNode 4 [GenLeaf (inr (inr s))]
  | JArray l => GenNode 5 (tree_of <$> l)
  | JObject m => GenNode 6 ((fun kv => GenNode 0 [GenLeaf (inr (inr kv.1)); tree_of kv.2]) <$> m)
  end.
Fixpoint of_tree (t : gen_tree leaf) : json :=
  match t with
  | GenNode 1 [GenLeaf (inl b)] => JBool b
  | GenNode 2 [GenLeaf (inr (inl z))] => JInteger z
  | GenNode 3 [GenLeaf (inr (inr t))] => JFloat t
  | GenNode 4 [GenLeaf (inr (inr s))] => JString s
  | GenNode 5 l => JArray (of_tree <$> l)
  | GenNode 6 m => JObject ((fun kv => match kv with
                                       | GenNode _ [GenLeaf (inr (inr k)); v] => (k, of_tree v)
                                       | _ => ("", JNull) end) <$> m)
  | _ => JNull
  end.

Lemma of_tree_of : forall j, of_tree (tree_of j) = j.
Proof.
  fix IH 1. intros [|b|z|t|t|l|m]; [reflexivity..| |]; cbn [tree_of of_tree]; f_equal.
  - induction l as [|x l IHl]; [done|]. cbn. by rewrite IH, IHl.
  - induction m as [|[k x] m IHm]; [done|]. cbn. by rewrite IH, IHm.
Qed.

#[local] Instance json_eq_dec : EqDecision json.
Proof. refine (inj_eq_dec tree_of). intros x y H. by rewrite <- (of_tree_of x), H, of_tree_of. Defined.
#[local] Instance json_countable : Countable json := inj_countable' tree_of of_tree of_tree_of.

Definition number_dump (j : json) : string := pretty (N.pos (encode j)).
Definition number_parse (text : string) : result string json :=
  match digits_value text with
  | Some (N.pos p) => match decode p with Some j => Ok j | None => Err "no JSON" end
  | _ => Err "no JSON"
  end.
#[local] Instance number_json : JsonLibrary :=
  {| json_parse := number_parse; json_dump := number_dump; json_eqb := fun a b => bool_decide (a = b);
     json_float_to_int := fun _ => 0 |}.
#[local] Instance number_texts : JsonTexts := {| json_printable := fun _ => true |}.
#[local] Instance number_laws : JsonLaws number_json number_texts.
Proof.
  split.
  - intros j _. simpl. unfold number_parse, number_dump. by rewrite digits_value_pretty, decode_encode.
  - by intros j.
  - intros j. simpl. by rewrite bool_decide_eq_true_2.
Qed.
#[local] Instance number_sql : SqlFunctions :=
  {| OccupancyDb.sql_iso_utc := fun _ => ""; OccupancyDb.sql_julian_ms := fun _ => 0; sql_json_text := fun _ _ => None |}.

(** * One sensor *)

Definition lot_config : HallConfig :=
  mkHallConfig "HALL" 0 5000 60000 16 7 [mkHallArea "A1" "CH0"] ["CH0"].
Definition lot_event (at_ : time_point) : ParkingSensorEvent :=
  mkParkingSensorEvent "A1" "H01" Vacant at_ (Some 7%N) BootEpochV2 (Some "b0") "uart" 0.
Notation made ms at_ raw n := (makeHallCommand lot_config ms (lot_event at_) raw n).

Notation lot_store := (mkStore {["A1" := "OCCUPIED"]} ∅ 0 ∅ ∅ ∅ ∅ ∅ ∅ []).

(** The command of the event, and the command of the same fact that comes again half a second later. *)
Definition command_of (r : result string SlotTransitionCommand * N) : SlotTransitionCommand :=
  match r.1 with Ok c => c | Err _ => mkSlotTransitionCommand "" ExitDeadline "" "" "" None "" "" 0 end.
Notation first_command := (command_of (made 1000 1000000000 "line" 0%N)).
Notation again_command := (command_of (made 1500 1500000000 "line again" 3%N)).
Lemma first_made : made 1000 1000000000 "line" 0%N = (Ok first_command, 0%N).
Proof. reflexivity. Qed.
Lemma again_made : made 1500 1500000000 "line again" 3%N = (Ok again_command, 3%N).
Proof. reflexivity. Qed.

Example hall_command_understood_witness :
  exists payload, read_payload (admitted_row first_command 1 "" 0) = Ok (payload, "uart", 1000) /\
    value_string payload "state" "" = Ok "VACANT".
Proof.
  assert (Hms : - 2 ^ 63 <= epochMs (pse_occurredAt (lot_event 1000000000)) < 2 ^ 63) by (vm_compute; by split).
  destruct (hall_command_understood lot_config 1000 (lot_event 1000000000) "line" 0 first_command 0 1 "" 0
              lot_store first_made Hms) as (payload & H1 & H2 & _).
  exists payload. exact (conj H1 H2).
Defined.

Lemma lot_store_unique : unique_inbox (st_inbox lot_store).
Proof. split; intros i1 i2 r1 r2 Hr; by destruct (lookup_empty_Some _ _ Hr). Qed.
Lemma admitted_text id identity time text :
  json_parse text = Ok (hall_payload lot_config (lot_event 1000000000)) ->
  is_empty id = false -> is_empty identity = false -> is_empty time = false ->
  sar_code (admitSlotTransitionCommand true 0
    (mkSlotTransitionCommand id HallObservation "A1" "H01" identity (Some 7%N) time text 1000) 5 lot_store).1 = CommandAdmitted.
Proof.
  intros Hp H1 H2 H3. assert (He : is_empty text = false) by (by destruct text).
  unfold admitSlotTransitionCommand, admit_transaction, hall_sequence_gate, hall_confirmation, parse_or_throw.
  cbn [stc_commandId stc_kind stc_slotId stc_sensorId stc_sourceIdentity stc_sourceSequence stc_occurredAt
       stc_payloadJson stc_dueAtEpochMs]. rewrite He, Hp, H1, H2, H3. clear. vm_compute. reflexivity.
Qed.
Lemma first_admitted : sar_code (admitSlotTransitionCommand true 0 first_command 5 lot_store).1 = CommandAdmitted.
Proof.
  apply admitted_text; [|reflexivity..]. by apply (json_roundtrip (hall_payload lot_config (lot_event 1000000000))).
Qed.
Lemma lot_fact : same_fact (lot_event 1000000000) (lot_event 1500000000).
Proof. repeat split. Qed.
Lemma lot_width q : pse_sourceSequence (lot_event 1000000000) = Some q -> (q <= uint64_max)%N.
Proof. intros [= <-]. vm_compute. discriminate. Qed.

Example hall_redelivery_witness :
  exists r, admitSlotTransitionCommand true 9 again_command 5
      (store_run (admitSlotTransitionCommand true 0 first_command 5 lot_store).2 [OpApply "x"]) =
      (r, store_run (admitSlotTransitionCommand true 0 first_command 5 lot_store).2 [OpApply "x"]) /\
    (sar_code r = Existing \/ sar_code r = AlreadyTerminal).
Proof.
  assert (Hops : forallb (fun op => negb (is_purge op)) [OpApply "x"] = true) by reflexivity.
  pose proof (hall_redelivery lot_config 1000 1500 (lot_event 1000000000) (lot_event 1500000000) "line" "line again" 0 3
                first_command again_command 0 3 0 9 5 5 lot_store [OpApply "x"] lot_store_unique lot_fact
                (ex_intro _ 7%N eq_refl) lot_width first_made again_made first_admitted Hops ltac:(discriminate)) as H.
  cbv zeta in H. destruct (admitSlotTransitionCommand true 9 again_command 5 _) as [r s''] eqn:E.
  destruct H as (Hs & Hr & _). subst s''. exists r. exact (conj eq_refl Hr).
Defined.

(** * One car that leaves in time *)

Definition lot_parking : ParkingDb :=
  db_write (WriteEnd 1 "1970-01-01T00:00:09Z")
    (db_write (WriteEvidence 1 "a.jpg" "OCCUPANCY_START_EVIDENCE" "1970-01-01T00:00:02Z" "a-e.jpg")
       (db_write (WriteSession "A1" "1970-01-01T00:00:01Z")
          (mkParkingDb true ∅ {["A1" := "VACANT"]} ∅ 0 [] [] ∅))).
Definition lot_request : EvidenceCaptureRequest := mkEvidenceCaptureRequest 1 "A1" (Some "CH0") 0.
Definition lot_world : HallWorld :=
  mkHallWorld (scheduleSession 0 lot_request (mkEvidenceState 60000 4 [] ∅ ∅ true false 0 1 None JobFree)).2
    (overstay_start lot_parking 60000) [] [] [] [].
Definition lot_outside : Outside := mkOutside (mkInstant 9000000000 9000000000) (fun _ => true) (fun _ => true).
Definition lot_end : CommittedOccupancyTransition :=
  mkCommittedOccupancyTransition CommittedEnded "h2" HallObservation "A1" "H01" 1 "" "" 0 "1970-01-01T00:00:09Z" 9000
    "uart" "left".
Notation lot_left := (applyCommittedEffects lot_config lot_outside lot_end lot_world).

Example effects_delivered_witness :
  lot_left.1 = Ok true /\ session_gone 1 "A1" lot_world lot_left.2 /\
  hw_removed lot_left.2 = ["a.jpg"; "a-e.jpg"] /\ length (ew_jobs (hw_evidence lot_world)) = 2%nat.
Proof.
  assert (He : lot_left = (Ok true, lot_left.2)) by (vm_compute; reflexivity).
  split; [vm_compute; reflexivity|].
  split; [exact (effects_delivered lot_config lot_outside lot_end lot_world lot_left.2 He)|].
  split; vm_compute; reflexivity.
Defined.
