(* ===== verification/Correlation.v ===== *)
(** Best shots of the cameras and the sessions that they belong to: the lookup of a correlation and the attachment of
    a picture, [src/database/EventDatabaseCorrelation.cpp], over the tables of the durable occupancy store, with
    the facade [src/parking/ParkingTriggerCoordinator.cpp]. *)
From S2P Require Import Prelude SensorProtocol SequencePolicy SlotConfig OccupancyDb OccupancyStore.

(** What SQLite reads from the payload of a command, where a text that is no JSON counts as an empty object: whether
    json_extract at a key equals a text, and the integer of json_extract at a key, NULL as [None]. *)
Class CorrelationSql := {
  sql_json_is : string -> string -> string -> bool;
  sql_json_integer : string -> string -> option Z
}.

(** * Data *)

(** [include/parking/ParkingCorrelation.hpp:19-31 CommittedCorrelationLease] *)
Record CommittedCorrelationLease := mkLease {
  cl_correlationId : string;
  cl_occupancyAttemptId : string;
  cl_sessionId : Z;
  cl_slotId : string;
  cl_cameraId : string;
  cl_videoSourceToken : string;
  cl_ruleName : string;
  cl_objectId : string;
  cl_channelId : string;
  cl_bindingRevision : Z;
  cl_expiresAtEpochMs : Z
}.

(** [include/parking/ParkingCorrelation.hpp:33-38 ParkingCorrelationMatchKind] *)
Inductive ParkingCorrelationMatchKind := Unmatched | MatchPending | UniqueMatch | Ambiguous.

(** [include/parking/ParkingCorrelation.hpp:40-44 ParkingCorrelationMatch] *)
Record ParkingCorrelationMatch := mkMatch {
  pm_kind : ParkingCorrelationMatchKind;
  pm_lease : option CommittedCorrelationLease;
  pm_candidates : list string
}.

(** [include/parking/ParkingCorrelation.hpp:46-49 BestShotEvidenceKind] *)
Inductive BestShotEvidenceKind := VehicleEvidence | PlateEvidence.
#[global] Instance BestShotEvidenceKind_eq_dec : EqDecision BestShotEvidenceKind.
Proof. solve_decision. Defined.

(** [src/database/EventDatabaseCorrelation.cpp:84-92 evidenceKindName] *)
Definition evidenceKindName (kind : BestShotEvidenceKind) : string :=
  match kind with VehicleEvidence => "BESTSHOT_VEHICLE" | PlateEvidence => "BESTSHOT_PLATE" end.

(** [src/parking/ParkingCorrelation.cpp:5-13 toString] *)
Definition kind_toString (kind : BestShotEvidenceKind) : string :=
  match kind with VehicleEvidence => "BESTSHOT_VEHICLE" | PlateEvidence => "BESTSHOT_PLATE" end.

(** [include/parking/ParkingCorrelation.hpp:51-59 BestShotAttachCode] *)
Inductive BestShotAttachCode :=
| Attached | AlreadyAttached | AttachUnmatched | AttachInactive | AttachExpired | AttachConflict | AttachRetryable.
#[global] Instance BestShotAttachCode_eq_dec : EqDecision BestShotAttachCode.
Proof. solve_decision. Defined.

(** [include/parking/ParkingCorrelation.hpp:61-70 BestShotAttachResult] *)
Record BestShotAttachResult := mkAttach { at_code : BestShotAttachCode; at_imageId : Z; at_message : string }.
(** [include/parking/ParkingCorrelation.hpp:66-69 BestShotAttachResult::accepted] *)
Definition at_accepted (r : BestShotAttachResult) : bool :=
  bool_decide (at_code r = Attached) || bool_decide (at_code r = AlreadyAttached).

(** The columns of IMAGE_LOG that a best shot has. *)
Record BestShotImage := mkBestShotImage {
  bs_id : Z;
  bs_session : option Z;
  bs_path : string;
  bs_kind : string;
  bs_ocr : option string;
  bs_captured_ms : Z;
  bs_correlation : string;
  bs_object : string;
  bs_ref : string;
  bs_revision : option Z
}.

(** The occupancy tables with the best shots of IMAGE_LOG; [cd_open] tells that the database is open and its schema
    ready. *)
Record CorrelationDb := mkCorrelationDb {
  cd_open : bool;
  cd_store : Store;
  cd_images : list BestShotImage
}.

(** * The lookup *)

Section Resolve.
Context `{CorrelationSql}.

(** The commands that have not been applied yet. *)
Definition pending_match (camera_id channel_id object_id : string) (now : Z) (r : InboxRow) : bool :=
  bool_decide (ib_kind r = CameraObservation) &&
  (bool_decide (ib_status r = PendingUnprepared) || bool_decide (ib_status r = PendingPrepared)) &&
  negb (is_empty (ib_correlation_id r)) &&
  sql_json_is (ib_payload r) "action" "INTRUSION" &&
  sql_json_is (ib_payload r) "camera_id" camera_id &&
  sql_json_is (ib_payload r) "channel_id" channel_id &&
  sql_json_is (ib_payload r) "object_id" object_id &&
  (now <? match sql_json_integer (ib_payload r) "correlation_expires_at_epoch_ms" with
          | Some z => z
          | None => default 0 (sql_json_integer (ib_payload r) "expires_at_epoch_ms")
          end).

Definition committed_match (camera_id channel_id object_id : string) (now : Z) (b : BindingRow) : bool :=
  bool_decide (bi_state b = BindingCommitted) && bool_decide (bi_camera b = camera_id) &&
  bool_decide (bi_channel b = channel_id) && bool_decide (bi_object b = object_id) && (now <? bi_expires_ms b).

Definition lease_of (id : string) (b : BindingRow) : CommittedCorrelationLease :=
  mkLease id (bi_attempt_id b) (default 0 (bi_session b)) (bi_slot_id b) (bi_camera b) (bi_token b) (bi_rule b)
    (bi_object b) (bi_channel b) (bi_revision b mod 2 ^ 64) (bi_expires_ms b).

(** The candidates by correlation; a committed one replaces a pending one. *)
Definition candidates (camera_id channel_id object_id : string) (now : Z) (s : Store)
    : gmap string (option CommittedCorrelationLease) :=
  list_to_map ((fun kv => (kv.1, Some (lease_of kv.1 kv.2))) <$>
                 select_rows (fun _ b => committed_match camera_id channel_id object_id now b) (st_bindings s)) ∪
  list_to_map ((fun kv => (ib_correlation_id kv.2, None)) <$>
                 select_rows (fun _ r => pending_match camera_id channel_id object_id now r) (st_inbox s)).

(** [src/database/EventDatabaseCorrelation.cpp:108-220 EventDatabase::resolveParkingCorrelation] *)
Definition resolveParkingCorrelation (camera_id channel_id object_id : string) (now : Z) (d : CorrelationDb)
    : ParkingCorrelationMatch :=
  if is_empty camera_id || is_empty channel_id || is_empty object_id then mkMatch Unmatched None [] else
  if negb (cd_open d) then mkMatch Unmatched None [] else
  let found := sort_rows (fun a b => String.leb a.1 b.1)
                 (map_to_list (candidates camera_id channel_id object_id now (cd_store d))) in
  let ids := fst <$> found in
  match found with
  | [] => mkMatch Unmatched None ids
  | [(_, None)] => mkMatch MatchPending None ids
  | [(_, Some lease)] => mkMatch UniqueMatch (Some lease) ids
  | _ => mkMatch Ambiguous None ids
  end.
End Resolve.

(** * The attachment *)

Definition lease_complete (lease : CommittedCorrelationLease) (image_ref image_path : string) : bool :=
  negb (is_empty (cl_correlationId lease) || is_empty (cl_occupancyAttemptId lease) || (cl_sessionId lease <? 0) ||
        is_empty (cl_slotId lease) || is_empty (cl_cameraId lease) || is_empty (cl_videoSourceToken lease) ||
        is_empty (cl_ruleName lease) || is_empty (cl_objectId lease) || is_empty (cl_channelId lease) ||
        (cl_bindingRevision lease =? 0) || is_empty image_ref || is_empty image_path ||
        (2 ^ 63 - 1 <? cl_bindingRevision lease)).

Definition lease_matches (lease : CommittedCorrelationLease) (b : BindingRow) : bool :=
  bool_decide (bi_attempt_id b = cl_occupancyAttemptId lease) && (default (-1) (bi_session b) =? cl_sessionId lease) &&
  bool_decide (bi_slot_id b = cl_slotId lease) && bool_decide (bi_camera b = cl_cameraId lease) &&
  bool_decide (bi_token b = cl_videoSourceToken lease) && bool_decide (bi_rule b = cl_ruleName lease) &&
  bool_decide (bi_object b = cl_objectId lease) && bool_decide (bi_channel b = cl_channelId lease) &&
  (bi_revision b =? cl_bindingRevision lease) && (bi_expires_ms b =? cl_expiresAtEpochMs lease).

Definition same_shot (correlation kind image_ref : string) (i : BestShotImage) : bool :=
  bool_decide (bs_correlation i = correlation) && bool_decide (bs_kind i = kind) && bool_decide (bs_ref i = image_ref).

Definition canonical (lease : CommittedCorrelationLease) (image_path plate_text : string) (i : BestShotImage) : bool :=
  (default (-1) (bs_session i) =? cl_sessionId lease) && bool_decide (bs_path i = image_path) &&
  bool_decide (bs_object i = cl_objectId lease) && (default (-1) (bs_revision i) =? cl_bindingRevision lease) &&
  bool_decide (default "" (bs_ocr i) = plate_text).

(** [src/database/EventDatabaseCorrelation.cpp:222-422 EventDatabase::attachBestShotIfActive] [fresh] is the identifier that
    SQLite gives to the new row. *)
Definition db_attachBestShot (lease : CommittedCorrelationLease) (kind : BestShotEvidenceKind)
    (image_ref image_path plate_text : string) (now fresh : Z) (d : CorrelationDb) : BestShotAttachResult * CorrelationDb :=
  let answer code message := (mkAttach code (-1) message, d) in
  if negb (lease_complete lease image_ref image_path)
  then answer AttachConflict "BestShot lease or evidence identity is incomplete" else
  if negb (cd_open d) then answer AttachRetryable "parking correlation database is not ready" else
  match st_bindings (cd_store d) !! cl_correlationId lease with
  | None => answer AttachUnmatched "committed correlation does not exist"
  | Some b =>
      if negb (lease_matches lease b)
      then answer AttachConflict "committed correlation lease is stale or mismatched" else
      let kind_name := evidenceKindName kind in
      match List.find (same_shot (cl_correlationId lease) kind_name image_ref) (cd_images d) with
      | Some i =>
          if canonical lease image_path plate_text i
          then (mkAttach AlreadyAttached (bs_id i) "BestShot evidence was already attached", d)
          else answer AttachConflict "BestShot evidence identity conflicts with its canonical row"
      | None =>
          if bool_decide (bi_state b = BindingExpired) || (bi_expires_ms b <=? now)
          then answer AttachExpired "committed correlation has expired" else
          if negb (bool_decide (bi_state b = BindingCommitted))
          then answer (if bool_decide (bi_state b = BindingEnded) then AttachInactive else AttachUnmatched)
                 "correlation is not attachable" else
          match st_sessions (cd_store d) !! cl_sessionId lease with
          | None => answer AttachInactive "bound parking session does not exist"
          | Some r =>
              if negb (bool_decide (sr_slot_id r = cl_slotId lease)) ||
                 negb (bool_decide (default "" (sr_attempt_id r) = cl_occupancyAttemptId lease))
              then answer AttachConflict "binding and parking session identity disagree" else
              if bool_decide (is_Some (sr_exit_time r)) ||
                 (negb (bool_decide (sr_status r = StatusActive)) && negb (bool_decide (sr_status r = StatusViolation)))
              then answer AttachInactive "bound parking session is no longer active" else
              (mkAttach Attached fresh "BestShot evidence attached to active exact session",
               mkCorrelationDb (cd_open d) (cd_store d)
                 (cd_images d ++
                  [mkBestShotImage fresh (Some (cl_sessionId lease)) image_path kind_name
                     (if is_empty plate_text then None else Some plate_text) now (cl_correlationId lease)
                     (cl_objectId lease) image_ref (Some (cl_bindingRevision lease))]))
          end
      end
  end.

(** What SQLite does with the transaction: it runs; it fails and is rolled back; its commit takes effect but
    reports a failure. *)
Inductive SqlOutcome := SqlRuns | SqlRolledBack (what : string) | SqlCommitLost (what : string).

Definition sql_attach (o : SqlOutcome) (lease : CommittedCorrelationLease) (kind : BestShotEvidenceKind)
    (image_ref image_path plate_text : string) (now fresh : Z) (d : CorrelationDb) : BestShotAttachResult * CorrelationDb :=
  if negb (lease_complete lease image_ref image_path) || negb (cd_open d)
  then db_attachBestShot lease kind image_ref image_path plate_text now fresh d else
  match o with
  | SqlRuns => db_attachBestShot lease kind image_ref image_path plate_text now fresh d
  | SqlRolledBack what => (mkAttach AttachRetryable (-1) what, d)
  | SqlCommitLost what =>
      (mkAttach AttachRetryable (-1) what,
       (db_attachBestShot lease kind image_ref image_path plate_text now fresh d).2)
  end.

(** What the OCR worker's answer does to the pictures, [src/database/EventDatabaseEntrance.cpp:293-300]. *)
Definition ocr_on_shot (path plate : string) (i : BestShotImage) : BestShotImage :=
  if bool_decide (bs_path i = path)
  then mkBestShotImage (bs_id i) (bs_session i) (bs_path i) (bs_kind i) (Some plate) (bs_captured_ms i)
         (bs_correlation i) (bs_object i) (bs_ref i) (bs_revision i)
  else i.

Definition ocr_on_shots (path plate : string) (d : CorrelationDb) : CorrelationDb :=
  mkCorrelationDb (cd_open d) (cd_store d) (ocr_on_shot path plate <$> cd_images d).

(** * The facade *)

Section Facade.
Context `{CorrelationSql}.

(** [src/parking/ParkingTriggerCoordinator.cpp:11-21 ParkingTriggerCoordinator::ParkingTriggerCoordinator] The window, which the
    receiver reads. *)
Definition correlation_window (correlation_window_ms : Z) : Z :=
  if 0 <? correlation_window_ms then correlation_window_ms else 8000.

(** [src/parking/ParkingTriggerCoordinator.cpp:23-32 ParkingTriggerCoordinator::resolve] *)
Definition trigger_resolve (camera_id channel_id object_id : string) (now : Z) (d : CorrelationDb)
    : ParkingCorrelationMatch :=
  if is_empty camera_id || is_empty channel_id || is_empty object_id then mkMatch Unmatched None [] else
  resolveParkingCorrelation camera_id channel_id object_id now d.

(** [src/parking/ParkingTriggerCoordinator.cpp:34-48 ParkingTriggerCoordinator::attachBestShotIfActive] *)
Definition attachBestShotIfActive (o : SqlOutcome) (lease : CommittedCorrelationLease) (kind : BestShotEvidenceKind)
    (image_ref image_path plate_text : string) (now fresh : Z) (d : CorrelationDb) : BestShotAttachResult * CorrelationDb :=
  if is_empty (cl_correlationId lease) || is_empty (cl_occupancyAttemptId lease) || (cl_sessionId lease <? 0) ||
     is_empty (cl_slotId lease) || is_empty image_ref || is_empty image_path
  then (mkAttach AttachConflict (-1) "incomplete committed correlation lease or evidence identity", d) else
  sql_attach o lease kind image_ref image_path plate_text now fresh d.
End Facade.
