(* ===== verification/CorrelationSafety.v ===== *)
(** Properties of the best shots of sessions: what an attachment guarantees, that a retry finds it again, and that a
    correlation with one committed candidate can be attached. *)
From S2P Require Import Prelude SensorProtocol SequencePolicy SlotConfig OccupancyDb OccupancyInvariant OccupancyStore Correlation.

(** * The attachment *)

(** The row that the answer [Attached] adds. *)
Definition new_shot (lease : CommittedCorrelationLease) (kind : BestShotEvidenceKind) (image_ref image_path plate_text : string)
    (now fresh : Z) : BestShotImage :=
  mkBestShotImage fresh (Some (cl_sessionId lease)) image_path (evidenceKindName kind)
    (if is_empty plate_text then None else Some plate_text) now (cl_correlationId lease) (cl_objectId lease) image_ref
    (Some (cl_bindingRevision lease)).

Definition add_shot (i : BestShotImage) (d : CorrelationDb) : CorrelationDb :=
  mkCorrelationDb (cd_open d) (cd_store d) (cd_images d ++ [i]).

(** The binding of a lease is committed and not expired, and its session is open in the slot and attempt of the lease. *)
Record attachable (lease : CommittedCorrelationLease) (now : Z) (s : Store) : Prop := {
  aa_binding : exists b, st_bindings s !! cl_correlationId lease = Some b /\ lease_matches lease b = true /\
    bi_state b = BindingCommitted /\ now < bi_expires_ms b;
  aa_session : exists r, open_session_of s (cl_slotId lease) (cl_sessionId lease) r /\
    default "" (sr_attempt_id r) = cl_occupancyAttemptId lease
}.

Lemma session_open_spec r :
  session_open r = true <-> sr_exit_time r = None /\ (sr_status r = StatusActive \/ sr_status r = StatusViolation).
Proof. unfold session_open. rewrite andb_true_iff, orb_true_iff, !bool_decide_eq_true. done. Qed.

Section Attach.
Variables (lease : CommittedCorrelationLease) (kind : BestShotEvidenceKind) (image_ref image_path plate_text : string).

Lemma attach_cases now fresh d answer d' :
  db_attachBestShot lease kind image_ref image_path plate_text now fresh d = (answer, d') ->
  (d' = d /\ at_code answer <> Attached) \/
  (answer = mkAttach Attached fresh "BestShot evidence attached to active exact session" /\
   d' = add_shot (new_shot lease kind image_ref image_path plate_text now fresh) d /\
   lease_complete lease image_ref image_path = true /\ cd_open d = true /\ attachable lease now (cd_store d) /\
   List.find (same_shot (cl_correlationId lease) (evidenceKindName kind) image_ref) (cd_images d) = None).
Proof.
  unfold db_attachBestShot. cbv zeta.
  destruct (lease_complete _ _ _) eqn:Hl; cbn [negb]; [|intros [= <- <-]; by left].
  destruct (cd_open d) eqn:Ho; cbn [negb]; [|intros [= <- <-]; by left].
  destruct (st_bindings _ !! _) as [b|] eqn:Hb; [|intros [= <- <-]; by left].
  destruct (lease_matches lease b) eqn:Hm; cbn [negb]; [|intros [= <- <-]; by left].
  destruct (List.find _ _) as [i|] eqn:Hf; [destruct (canonical _ _ _ _); intros [= <- <-]; by left|].
  case_match eqn:Hx; [intros [= <- <-]; by left|].
  case_match eqn:Hs; [intros [= <- <-]; left; split; [done|]; by case_match|].
  destruct (st_sessions _ !! _) as [r|] eqn:Hr; [|intros [= <- <-]; by left].
  case_match eqn:Hi; [intros [= <- <-]; by left|].
  case_match eqn:Hc; [intros [= <- <-]; by left|].
  intros [= <- <-]. right. apply orb_false_iff in Hx as [_ Hx%Z.leb_gt].
  apply negb_false_iff, bool_decide_eq_true in Hs.
  apply orb_false_iff in Hi as [Hi1%negb_false_iff%bool_decide_eq_true Hi2%negb_false_iff%bool_decide_eq_true].
  apply orb_false_iff in Hc as [Hc1%bool_decide_eq_false Hc2].
  repeat split; [by rewrite <- Ho|by exists b|]. exists r. repeat split; [done| |done|done].
  apply session_open_spec. split; [by apply eq_None_not_Some|].
  destruct (decide (sr_status r = StatusActive)) as [?|Hn1]; [by left|]. right.
  rewrite (bool_decide_eq_false_2 _ Hn1) in Hc2. by apply negb_false_iff, bool_decide_eq_true in Hc2.
Qed.

Lemma attach_runs now fresh d :
  lease_complete lease image_ref image_path = true -> cd_open d = true -> attachable lease now (cd_store d) ->
  List.find (same_shot (cl_correlationId lease) (evidenceKindName kind) image_ref) (cd_images d) = None ->
  db_attachBestShot lease kind image_ref image_path plate_text now fresh d =
    (mkAttach Attached fresh "BestShot evidence attached to active exact session",
     add_shot (new_shot lease kind image_ref image_path plate_text now fresh) d).
Proof.
  intros Hl Ho [(b & Hb & Hm & Hs & Hx) (r & (Hr & Hopen & Hslot) & Ha)] Hf.
  unfold db_attachBestShot, add_shot. cbv zeta. rewrite Hl, Ho, Hb, Hm, Hf, Hs, Hr, Hslot, Ha.
  apply session_open_spec in Hopen as [He Hopen].
  rewrite He, (proj2 (Z.leb_gt _ _) Hx), (bool_decide_eq_false_2 (BindingCommitted = BindingExpired)) by done.
  rewrite (bool_decide_eq_true_2 (BindingCommitted = _)), !(bool_decide_eq_true_2 (@eq string _ _)),
    (bool_decide_eq_false_2 (is_Some None)) by (done || by intros []).
  destruct Hopen as [-> | ->]; reflexivity.
Qed.

Lemma find_snoc {A} (p : A -> bool) l x : List.find p l = None -> p x = true -> List.find p (l ++ [x]) = Some x.
Proof. induction l as [|y l IH]; cbn; intros Hf Hx; [by rewrite Hx|]. destruct (p y); [done|]. by apply IH. Qed.

(** A row that was found and is canonical answers again. *)
Lemma attach_again now fresh d i b :
  lease_complete lease image_ref image_path = true -> cd_open d = true ->
  st_bindings (cd_store d) !! cl_correlationId lease = Some b -> lease_matches lease b = true ->
  List.find (same_shot (cl_correlationId lease) (evidenceKindName kind) image_ref) (cd_images d) = Some i ->
  db_attachBestShot lease kind image_ref image_path plate_text now fresh d =
    if canonical lease image_path plate_text i
    then (mkAttach AlreadyAttached (bs_id i) "BestShot evidence was already attached", d)
    else (mkAttach AttachConflict (-1) "BestShot evidence identity conflicts with its canonical row", d).
Proof. intros Hl Ho Hb Hm Hf. unfold db_attachBestShot. cbv zeta. rewrite Hl, Ho, Hb, Hm, Hf. done. Qed.

Lemma new_shot_same now fresh :
  same_shot (cl_correlationId lease) (evidenceKindName kind) image_ref
    (new_shot lease kind image_ref image_path plate_text now fresh) = true.
Proof. unfold same_shot. cbn. by rewrite !bool_decide_eq_true_2. Qed.

Lemma new_shot_canonical now fresh :
  canonical lease image_path plate_text (new_shot lease kind image_ref image_path plate_text now fresh) = true.
Proof.
  unfold canonical. cbn. rewrite !Z.eqb_refl, !bool_decide_eq_true_2; [done| |done|done].
  by destruct plate_text.
Qed.

(** What other threads do to the table of pictures after an attachment: rows are added, and the recognised text of a
    picture is written over. *)
Inductive ShotWrite := ShotAdded (i : BestShotImage) | ShotRecognised (path plate : string).
Definition shot_write (images : list BestShotImage) (w : ShotWrite) : list BestShotImage :=
  match w with ShotAdded i => images ++ [i] | ShotRecognised path plate => ocr_on_shot path plate <$> images end.
(** The text of a picture after such writes. *)
Definition shot_text (path text : string) (ws : list ShotWrite) : string :=
  foldl (fun t w => match w with ShotRecognised p plate => if bool_decide (p = path) then plate else t | _ => t end) text ws.

Definition with_text (text : option string) (i : BestShotImage) : BestShotImage :=
  mkBestShotImage (bs_id i) (bs_session i) (bs_path i) (bs_kind i) text (bs_captured_ms i) (bs_correlation i) (bs_object i)
    (bs_ref i) (bs_revision i).

Lemma find_fmap {A} (p : A -> bool) (f : A -> A) l :
  (forall x, p (f x) = p x) -> List.find p (f <$> l) = f <$> List.find p l.
Proof. intros Hp. induction l as [|x l IH]; [done|]. rewrite fmap_cons. cbn. rewrite Hp. by destruct (p x). Qed.

Lemma find_app_some {A} (p : A -> bool) l k x : List.find p l = Some x -> List.find p (l ++ k) = Some x.
Proof. induction l as [|y l IH]; cbn; [done|]. destruct (p y); [done|exact IH]. Qed.

(** The first row of an identity stays the first; only its text changes. *)
Lemma find_after_writes correlation name ws images i :
  List.find (same_shot correlation name image_ref) images = Some i ->
  exists text, List.find (same_shot correlation name image_ref) (foldl shot_write images ws) = Some (with_text text i) /\
    default "" text = shot_text (bs_path i) (default "" (bs_ocr i)) ws.
Proof.
  revert images i. induction ws as [|w ws IH]; intros images i Hf.
  - exists (bs_ocr i). split; [|done]. by destruct i.
  - destruct w as [x|path plate]; cbn [foldl shot_write shot_text].
    + apply IH. by apply find_app_some.
    + destruct (IH (ocr_on_shot path plate <$> images) (ocr_on_shot path plate i)) as (text & H1 & H2).
      { rewrite find_fmap; [by rewrite Hf|]. intros y. unfold ocr_on_shot. by case_match. }
      exists text. unfold ocr_on_shot in H1, H2. unfold shot_text in *. cbn [foldl].
      rewrite (bool_decide_ext (path = bs_path i) (bs_path i = path)) by done. by case_bool_decide.
Qed.

Lemma canonical_text text now fresh :
  canonical lease image_path plate_text (with_text text (new_shot lease kind image_ref image_path plate_text now fresh)) =
    bool_decide (default "" text = plate_text).
Proof.
  unfold canonical. cbn. rewrite !Z.eqb_refl, (bool_decide_eq_true_2 (image_path = image_path)),
    (bool_decide_eq_true_2 (cl_objectId lease = cl_objectId lease)) by done. done.
Qed.

(** C7 [safety] A best shot is attached only to the session that its lease names: the binding of the correlation agrees
    with the lease in every column, is committed and not expired, and the session is open, in the slot and the
    attempt of the lease. The attachment adds exactly one row, the first of its correlation, kind and picture. The same request
    later, with the binding still agreeing with the lease, changes nothing, whatever the sessions and the bindings' states
    have become, and however many rows were added and texts recognised in between: it answers with the same row, AlreadyAttached,
    if the text of the picture is (again) the one of the request, and Conflict if the recognition has left another one.
    Every answer but Attached changes nothing. *)
Theorem bestshot_exact now fresh d :
  let r := db_attachBestShot lease kind image_ref image_path plate_text now fresh d in
  (at_code r.1 <> Attached -> r.2 = d) /\
  (at_code r.1 = Attached ->
     attachable lease now (cd_store d) /\
     r.2 = add_shot (new_shot lease kind image_ref image_path plate_text now fresh) d /\
     (forall i, In i (cd_images d) -> same_shot (cl_correlationId lease) (evidenceKindName kind) image_ref i = false) /\
     (forall later fresh' store b ws,
        st_bindings store !! cl_correlationId lease = Some b -> lease_matches lease b = true ->
        let d1 := mkCorrelationDb true store (foldl shot_write (cd_images r.2) ws) in
        db_attachBestShot lease kind image_ref image_path plate_text later fresh' d1 =
          (if bool_decide (shot_text image_path plate_text ws = plate_text)
           then mkAttach AlreadyAttached fresh "BestShot evidence was already attached"
           else mkAttach AttachConflict (-1) "BestShot evidence identity conflicts with its canonical row", d1))).
Proof.
  cbv zeta. destruct (db_attachBestShot _ _ _ _ _ now fresh d) as [answer d'] eqn:E.
  destruct (attach_cases _ _ _ _ _ E) as [[-> Hn]|(-> & -> & Hl & Ho & Ha & Hf)]; [done|].
  split; [done|]. intros _. cbn [fst snd]. repeat split; [apply Ha|apply Ha|by apply List.find_none|].
  intros later fresh' store b ws Hb Hm. set (i := new_shot lease kind image_ref image_path plate_text now fresh).
  destruct (find_after_writes (cl_correlationId lease) (evidenceKindName kind) ws (cd_images d ++ [i]) i) as (text & H1 & H2).
  { apply find_snoc; [done|apply new_shot_same]. }
  rewrite (attach_again later fresh' _ (with_text text i) b); [|done..]. unfold i. rewrite canonical_text, H2.
  assert (Ht : default "" (if is_empty plate_text then None else Some plate_text) = plate_text) by by destruct plate_text.
  unfold i. cbn [bs_path bs_ocr new_shot]. rewrite Ht. by case_bool_decide.
Qed.
End Attach.

(** * The lookup *)

Section Lookup.
Context `{CorrelationSql}.

Lemma candidates_some camera_id channel_id object_id now s id lease :
  candidates camera_id channel_id object_id now s !! id = Some (Some lease) ->
  exists b, st_bindings s !! id = Some b /\ committed_match camera_id channel_id object_id now b = true /\
    lease = lease_of id b.
Proof.
  unfold candidates. rewrite lookup_union_Some_raw.
  intros [Hl%elem_of_list_to_map_2|[_ Hl%elem_of_list_to_map_2]];
    apply list_elem_of_fmap in Hl as ([k b] & [= -> ->] & Hb%select_rows_elem).
  exists b. naive_solver.
Qed.

(** A lease comes from the only candidate. *)
Lemma resolve_lease camera_id channel_id object_id now d lease :
  pm_lease (resolveParkingCorrelation camera_id channel_id object_id now d) = Some lease ->
  cd_open d = true /\ candidates camera_id channel_id object_id now (cd_store d) = {[cl_correlationId lease := Some lease]} /\
  exists b, st_bindings (cd_store d) !! cl_correlationId lease = Some b /\
    committed_match camera_id channel_id object_id now b = true /\ lease = lease_of (cl_correlationId lease) b.
Proof.
  unfold resolveParkingCorrelation. case_match; [done|]. destruct (cd_open d); cbn [negb]; [|done]. cbv zeta.
  set (m := candidates _ _ _ _ _).
  assert (Hp := sort_rows_perm (fun a b => String.leb a.1 b.1) (map_to_list m)).
  destruct (sort_rows _ _) as [|[id [l|]] [|? ?]]; cbn; try done. intros [= ->].
  symmetry in Hp. apply Permutation_singleton_r in Hp.
  assert (Hm : m = {[id := Some lease]}) by (rewrite <- (list_to_map_to_list m), Hp; cbn; by rewrite insert_empty).
  assert (Hid : m !! id = Some (Some lease)) by (rewrite Hm; apply lookup_singleton_eq).
  apply candidates_some in Hid as (b & Hb & Hc & Hl). split; [done|].
  assert (Hid : cl_correlationId lease = id) by by rewrite Hl. rewrite Hid. split; [done|]. by exists b.
Qed.

Lemma matches_lease_of id b z :
  bi_session b = Some z -> 0 < bi_revision b < 2 ^ 63 -> lease_matches (lease_of id b) b = true.
Proof.
  intros Hs Hr. unfold lease_matches. cbn. rewrite Hs. cbn. rewrite Z.mod_small by lia.
  rewrite !Z.eqb_refl, !bool_decide_eq_true_2 by done. done.
Qed.

Lemma resolved_attachable camera_id channel_id object_id now d lease :
  invariant (cd_store d) ->
  (forall cid b, st_bindings (cd_store d) !! cid = Some b -> 0 < bi_revision b < 2 ^ 63) ->
  pm_lease (resolveParkingCorrelation camera_id channel_id object_id now d) = Some lease ->
  cl_occupancyAttemptId lease <> "" ->
  attachable lease now (cd_store d).
Proof.
  intros [_ [Ho _] _] Hrev (_ & _ & b & Hb & Hc & Hl)%resolve_lease Hne. unfold committed_match in Hc. split_bool.
  destruct (Ho _ _ Hb) as (id & Hs & r & Hr & Ha); [done|]. rewrite Hl. split.
  - exists b. split; [done|]. split; [|by split; [|lia]]. apply (matches_lease_of _ _ id); [done|by apply (Hrev (cl_correlationId lease))].
  - exists r. cbn. rewrite Hs. cbn. split; [done|]. unfold attempt_of in Ha. done.
Qed.

(** A camera object that resolves to one committed correlation can be attached at once: in a store that
    satisfies the invariants of the occupancy tables, if the lookup gives a lease, then no other correlation of that object
    is pending or committed, and the attachment of a picture that the lease's correlation does not have yet succeeds: it
    finds the session open and adds the row. *)
Theorem resolved_lease_attaches camera_id channel_id object_id now d lease kind image_ref image_path plate_text fresh :
  invariant (cd_store d) ->
  (forall cid b, st_bindings (cd_store d) !! cid = Some b -> 0 < bi_revision b < 2 ^ 63) ->
  pm_lease (trigger_resolve camera_id channel_id object_id now d) = Some lease ->
  lease_complete lease image_ref image_path = true ->
  (forall i, In i (cd_images d) -> same_shot (cl_correlationId lease) (evidenceKindName kind) image_ref i = false) ->
  candidates camera_id channel_id object_id now (cd_store d) = {[cl_correlationId lease := Some lease]} /\
  attachBestShotIfActive SqlRuns lease kind image_ref image_path plate_text now fresh d =
    (mkAttach Attached fresh "BestShot evidence attached to active exact session",
     add_shot (new_shot lease kind image_ref image_path plate_text now fresh) d).
Proof.
  intros Hi Hrev Hres Hl Hnew. unfold trigger_resolve in Hres. case_match; [done|].
  pose proof (resolve_lease _ _ _ _ _ _ Hres) as (Ho & Hm & _). split; [done|].
  unfold attachBestShotIfActive, sql_attach. pose proof Hl as Hc. unfold lease_complete in Hc.
  rewrite negb_true_iff, !orb_false_iff in Hc. destruct_and? Hc.
  repeat match goal with E : ?x = false |- context [?x] => rewrite E end. cbn [orb]. rewrite Hl, Ho. cbn [negb orb].
  apply attach_runs; [done|done| |].
  - eapply resolved_attachable; [done|done|done|]. intros E. by rewrite E in *.
  - destruct (List.find _ _) as [i|] eqn:Hf; [|done]. apply List.find_some in Hf as [Hin Hs]. by rewrite Hnew in Hs.
Qed.
End Lookup.
