(* ===== verification/BestShot.v ===== *)
(** The best shots that the cameras announce, [src/bestshot/BestShotReceiver.cpp]: the framing of the metadata stream,
    the pictures of a document, the bounded quarantine of the pictures whose correlation is not committed yet, the
    reservation against parallel work on one picture, and the download, attachment and clean-up of one picture over the
    tables of [Correlation]. *)
From S2P Require Import Prelude Digest OccupancyDb Correlation.

(** * Data *)

(** [include/bestshot/BestShotReceiver.hpp:73-85 PendingMetadata] *)
Record PendingMetadata := mkMetadata {
  md_evidenceIdentity : string;
  md_exactIdentityKey : string;
  md_cameraId : string;
  md_channelId : string;
  md_objectId : string;
  md_imageRef : string;
  md_plateText : string;
  md_rtspUrl : string;
  md_kind : BestShotEvidenceKind;
  md_createdAtEpochMs : Z
}.

(** [include/bestshot/BestShotMetadata.hpp:24-36 BestShotProcessCode] *)
Inductive BestShotProcessCode :=
| RoutedExternally | ProcessAttached | ProcessAlreadyAttached | DuplicateInFlight | ProcessPending | ProcessAmbiguous
| ProcessUnmatched | DownloadFailed | AttachRejected | ExpiredPending | InvalidMetadata.
#[global] Instance BestShotProcessCode_eq_dec : EqDecision BestShotProcessCode.
Proof. solve_decision. Defined.

(** [include/bestshot/BestShotMetadata.hpp:38-54 BestShotProcessResult] The identity fields are those of the metadata. *)
Record BestShotProcessResult := mkProcess {
  pr_code : BestShotProcessCode;
  pr_metadata : PendingMetadata;
  pr_attachCode : BestShotAttachCode;
  pr_correlationId : string;
  pr_sessionId : Z;
  pr_imagePath : string;
  pr_message : string;
  pr_candidateCorrelationIds : list string
}.

(** A picture that the OCR worker is asked to read. *)
Record OcrJob := mkOcrJob { oj_session : Z; oj_slot_id : string; oj_image_path : string }.

(** The receiver with the tables and the files it works on. *)
Record Receiver := mkReceiver {
  rv_pending : list PendingMetadata;
  rv_index : gset string;
  rv_in_flight : gset string;
  rv_db : CorrelationDb;
  rv_files : gset string;
  rv_ocr : list OcrJob
}.

Definition rv_set_quarantine (r : Receiver) (pending : list PendingMetadata) (index : gset string) : Receiver :=
  mkReceiver pending index (rv_in_flight r) (rv_db r) (rv_files r) (rv_ocr r).
Definition rv_set_in_flight (r : Receiver) (x : gset string) : Receiver :=
  mkReceiver (rv_pending r) (rv_index r) x (rv_db r) (rv_files r) (rv_ocr r).
Definition rv_set_db (r : Receiver) (d : CorrelationDb) : Receiver :=
  mkReceiver (rv_pending r) (rv_index r) (rv_in_flight r) d (rv_files r) (rv_ocr r).
Definition rv_set_files (r : Receiver) (x : gset string) : Receiver :=
  mkReceiver (rv_pending r) (rv_index r) (rv_in_flight r) (rv_db r) x (rv_ocr r).
Definition rv_add_ocr (r : Receiver) (job : OcrJob) : Receiver :=
  mkReceiver (rv_pending r) (rv_index r) (rv_in_flight r) (rv_db r) (rv_files r) (rv_ocr r ++ [job]).

(** * Texts *)

Definition dquote : string := String "034"%char "".

(** [src/bestshot/BestShotReceiver.cpp:34-42 between] *)
Definition between (text first last : string) : string :=
  match cut_at first text with
  | None => ""
  | Some (_, rest) => match cut_at last rest with None => "" | Some (inner, _) => inner end
  end.

(** [src/bestshot/BestShotReceiver.cpp:44-46 attribute] *)
Definition attribute (text name : string) : string := between text (name +:+ "=" +:+ dquote) dquote.

Definition needs_escape (c : ascii) : bool := bool_decide (c = "\"%char) || bool_decide (c = "034"%char).

(** [src/bestshot/BestShotReceiver.cpp:48-56 configEscape] *)
Fixpoint configEscape (value : string) : string :=
  match value with
  | "" => ""
  | String c rest => if needs_escape c then String "\" (String c (configEscape rest)) else String c (configEscape rest)
  end.

(** [src/bestshot/BestShotReceiver.cpp:683-701 BestShotReceiver::exactIdentityKey] with its local function. *)
Definition key_component (value : string) : string :=
  pretty (N.of_nat (String.length value)) +:+ ":" +:+ value +:+ "|".
Definition exactIdentityKey (camera_id channel_id object_id : string) (kind : BestShotEvidenceKind) (image_ref : string)
    : string :=
  key_component camera_id +:+ key_component channel_id +:+ key_component object_id +:+
  key_component (kind_toString kind) +:+ key_component image_ref.

(** [src/bestshot/BestShotReceiver.cpp:716-725 BestShotReceiver::stableDigest] *)
Definition stableDigest (value : string) : string := hex_digits 16 (fnv1a 14695981039346656037 value).

(** [src/bestshot/BestShotReceiver.cpp:678-681 BestShotReceiver::evidenceIdentity] *)
Definition evidenceIdentity (key : string) : string := "bestshot:" +:+ stableDigest key.

Definition safe_char (c : ascii) : ascii :=
  if isalnum c || bool_decide (c = "-"%char) || bool_decide (c = "_"%char) then c else "_"%char.
Fixpoint safe_prefix (room : nat) (value : string) : string :=
  match room, value with
  | S room', String c rest => String (safe_char c) (safe_prefix room' rest)
  | _, _ => ""
  end.

(** [src/bestshot/BestShotReceiver.cpp:703-714 BestShotReceiver::safePathComponent] *)
Definition safePathComponent (value : string) : string :=
  let safe := safe_prefix 64 value in if is_empty safe then "unknown" else safe.

(** std::filesystem::path's operator/ for a relative right side. *)
Fixpoint ends_with_slash (s : string) : bool :=
  match s with
  | "" => false
  | String c "" => bool_decide (c = "/"%char)
  | String _ rest => ends_with_slash rest
  end.
Definition path_join (a b : string) : string :=
  if is_empty a || ends_with_slash a then a +:+ b else a +:+ "/" +:+ b.

Definition shot_kind_name (kind : BestShotEvidenceKind) : string :=
  match kind with PlateEvidence => "plate" | VehicleEvidence => "vehicle" end.

(** The file name of [BestShotReceiver::processOne]. *)
Definition shot_file_name (m : PendingMetadata) (correlation : string) : string :=
  safePathComponent (md_channelId m) +:+ "_" +:+ shot_kind_name (md_kind m) +:+ "_obj" +:+
  safePathComponent (md_objectId m) +:+ "_" +:+ stableDigest (md_evidenceIdentity m +:+ "|" +:+ correlation) +:+ ".jpg".
Definition shot_destination (root : string) (m : PendingMetadata) (correlation : string) : string :=
  path_join (path_join root (shot_kind_name (md_kind m))) (shot_file_name m correlation).

(** * The camera's address *)

Record CameraAddress := mkAddress { ca_user : string; ca_password : string; ca_host : string }.

(** The text before the last occurrence of a character and the text after it. *)
Fixpoint break_last (d : ascii) (s : string) : option (string * string) :=
  match s with
  | "" => None
  | String c rest =>
      match break_last d rest with
      | Some (a, b) => Some (String c a, b)
      | None => if bool_decide (c = d) then Some ("", rest) else None
      end
  end.

Definition before_char (d : ascii) (s : string) : string :=
  match break_on d s with Some (a, _) => a | None => s end.

(** [src/bestshot/BestShotReceiver.cpp:92-120 parseRtspAddress] *)
Definition parseRtspAddress (url : string) : CameraAddress :=
  let rest := match cut_at "://" url with Some (_, r) => r | None => url end in
  let authority := before_char "/" rest in
  let '(user, password, host_port) :=
    match break_last "@" authority with
    | None => ("", "", authority)
    | Some (credentials, host_port) =>
        match break_on ":" credentials with
        | Some (user, password) => (user, password, host_port)
        | None => (credentials, "", host_port)
        end
    end in
  let host :=
    match host_port with
    | String "[" _ => match break_on "]" host_port with Some (a, _) => a +:+ "]" | None => "" end
    | _ => before_char ":" host_port
    end in
  mkAddress user password host.

(** What the process, the pipe and the files answer to a download. *)
Record CurlAnswer := mkCurlAnswer {
  cu_pipe : bool;
  cu_fork : bool;
  cu_config_written : bool;
  cu_exit_ok : bool;
  cu_part_exists : bool;
  cu_first_bytes : list Z;
  cu_rename : bool
}.

Definition newline : string := String "010"%char "".

(** The configuration that curl reads. *)
Definition curl_config (camera : CameraAddress) (image_ref temporary : string) : string :=
  "user = " +:+ dquote +:+ configEscape (ca_user camera +:+ ":" +:+ ca_password camera) +:+ dquote +:+ newline +:+
  "url = " +:+ dquote +:+ "https://" +:+ configEscape (ca_host camera +:+ image_ref) +:+ dquote +:+ newline +:+
  "output = " +:+ dquote +:+ configEscape temporary +:+ dquote +:+ newline.

(** [src/bestshot/BestShotReceiver.cpp:727-801 BestShotReceiver::downloadImageReference] The answer, the configuration handed to curl,
    and the files. *)
Definition downloadImageReference (rtsp_url image_ref destination : string) (o : CurlAnswer) (files : gset string)
    : bool * option string * gset string :=
  let camera := parseRtspAddress rtsp_url in
  if is_empty (ca_user camera) || is_empty (ca_host camera) || is_empty image_ref then (false, None, files) else
  let temporary := destination +:+ ".part" in
  if negb (cu_pipe o) then (false, None, files) else
  if negb (cu_fork o) then (false, None, files) else
  let config := curl_config camera image_ref temporary in
  let written := if cu_part_exists o then files ∪ {[temporary]} else files in
  if negb (cu_exit_ok o) || negb (cu_config_written o) then (false, Some config, written ∖ {[temporary]}) else
  if negb (bool_decide (take 3 (cu_first_bytes o) = [255; 216; 255]))
  then (false, Some config, written ∖ {[temporary]}) else
  if negb (cu_rename o) then (false, Some config, written ∖ {[temporary]}) else
  (true, Some config, (written ∖ {[temporary]}) ∪ {[destination]}).

(** * One picture *)

(** The metadata of an object of a document. *)
Definition make_metadata (camera_id channel_id object rtsp_url : string) (is_plate : bool) (now : Z) : PendingMetadata :=
  let object_id := attribute object "ObjectId" in
  let image_ref := between object "<tt:ImageRef>" "</tt:ImageRef>" in
  let kind := if is_plate then PlateEvidence else VehicleEvidence in
  let key := exactIdentityKey camera_id channel_id object_id kind image_ref in
  mkMetadata (evidenceIdentity key) key camera_id channel_id object_id image_ref
    (between object "<tt:PlateNumber>" "</tt:PlateNumber>") rtsp_url kind now.

Definition initial_result (m : PendingMetadata) : BestShotProcessResult :=
  mkProcess InvalidMetadata m AttachUnmatched "" (-1) "" "" [].
Definition pr_answer (r : BestShotProcessResult) (code : BestShotProcessCode) (message : string) : BestShotProcessResult :=
  mkProcess code (pr_metadata r) (pr_attachCode r) (pr_correlationId r) (pr_sessionId r) (pr_imagePath r) message
    (pr_candidateCorrelationIds r).
Definition pr_set_attach (r : BestShotProcessResult) (code : BestShotAttachCode) : BestShotProcessResult :=
  mkProcess (pr_code r) (pr_metadata r) code (pr_correlationId r) (pr_sessionId r) (pr_imagePath r) (pr_message r)
    (pr_candidateCorrelationIds r).
Definition pr_set_candidates (r : BestShotProcessResult) (ids : list string) : BestShotProcessResult :=
  mkProcess (pr_code r) (pr_metadata r) (pr_attachCode r) (pr_correlationId r) (pr_sessionId r) (pr_imagePath r)
    (pr_message r) ids.
Definition pr_set_lease (r : BestShotProcessResult) (lease : CommittedCorrelationLease) : BestShotProcessResult :=
  mkProcess (pr_code r) (pr_metadata r) (pr_attachCode r) (cl_correlationId lease) (cl_sessionId lease) (pr_imagePath r)
    (pr_message r) (pr_candidateCorrelationIds r).
Definition pr_set_path (r : BestShotProcessResult) (path : string) : BestShotProcessResult :=
  mkProcess (pr_code r) (pr_metadata r) (pr_attachCode r) (pr_correlationId r) (pr_sessionId r) path (pr_message r)
    (pr_candidateCorrelationIds r).

Inductive DownloadAnswer := Downloaded | DownloadRefused | DownloadThrew (what : string).

(** What a call of [processOne] meets outside: an exception of the lookup, the clock at the lookup, at the age check
    and at the two attempts to attach, an error of the file inspection, the downloader's answer, what the other threads do
    to the tables between the lookup and the attachment, the outcomes of the two transactions with the identifiers they
    would give, an error of the clean-up. *)
Record Outside := mkOutside {
  ou_lookup_error : option string;
  ou_lookup_now : Z;
  ou_age_now : Z;
  ou_inspect_error : option string;
  ou_download : DownloadAnswer;
  ou_others : CorrelationDb -> CorrelationDb;
  ou_attach1 : SqlOutcome;
  ou_attach1_now : Z;
  ou_attach1_id : Z;
  ou_attach2 : SqlOutcome;
  ou_attach2_now : Z;
  ou_attach2_id : Z;
  ou_cleanup_error : option string
}.

Section Receiver.
Context `{CorrelationSql}.
Variables (output_root : string) (capacity : nat) (window : Z).

(** [src/bestshot/BestShotReceiver.cpp:126-158 BestShotReceiver::BestShotReceiver] *)
Definition pending_capacity (pending_capacity : nat) : nat := Nat.max 1 pending_capacity.

(** [src/bestshot/BestShotReceiver.cpp:577-602 BestShotReceiver::enqueuePending] *)
Definition enqueuePending (m : PendingMetadata) (r : Receiver) : bool * Receiver :=
  if bool_decide (md_exactIdentityKey m ∈ rv_index r) then (false, r) else
  if (capacity <=? size (rv_index r))%nat then
    match rv_pending r with
    | [] => (false, r)
    | front :: rest =>
        (true, rv_set_quarantine r (rest ++ [m])
                 ({[md_exactIdentityKey m]} ∪ (rv_index r ∖ {[md_exactIdentityKey front]})))
    end
  else (true, rv_set_quarantine r (rv_pending r ++ [m]) ({[md_exactIdentityKey m]} ∪ rv_index r)).

Definition in_flight_identity (lease : CommittedCorrelationLease) (m : PendingMetadata) : string :=
  pretty (N.of_nat (String.length (cl_correlationId lease))) +:+ ":" +:+ cl_correlationId lease +:+ "|" +:+
  md_exactIdentityKey m.

(** Removing a file, fs::remove. *)
Definition remove_file (path : string) (r : Receiver) : Receiver := rv_set_files r (rv_files r ∖ {[path]}).

(** The two attempts to attach. *)
Definition attach_twice (lease : CommittedCorrelationLease) (m : PendingMetadata) (destination : string) (o : Outside)
    (d : CorrelationDb) : BestShotAttachResult * CorrelationDb :=
  let first := attachBestShotIfActive (ou_attach1 o) lease (md_kind m) (md_imageRef m) destination (md_plateText m)
                 (ou_attach1_now o) (ou_attach1_id o) d in
  if bool_decide (at_code first.1 = AttachRetryable)
  then attachBestShotIfActive (ou_attach2 o) lease (md_kind m) (md_imageRef m) destination (md_plateText m)
         (ou_attach2_now o) (ou_attach2_id o) first.2
  else first.

(** [src/bestshot/BestShotReceiver.cpp:343-575 BestShotReceiver::processOne] The part from the reservation's success on. *)
Definition processReserved (lease : CommittedCorrelationLease) (m : PendingMetadata) (result : BestShotProcessResult)
    (o : Outside) (r : Receiver) : BestShotProcessResult * Receiver :=
  let destination := shot_destination output_root m (cl_correlationId lease) in
  let result := pr_set_path result destination in
  let existed := bool_decide (destination ∈ rv_files r) in
  match ou_inspect_error o with
  | Some what => (pr_answer result DownloadFailed ("BestShot destination could not be inspected: " +:+ what), r)
  | None =>
      let download_failed message :=
        (pr_answer result DownloadFailed message, if existed then r else remove_file destination r) in
      match ou_download o with
      | DownloadRefused => download_failed "BestShot image download failed"
      | DownloadThrew what => download_failed what
      | Downloaded =>
          let r := rv_set_files r (rv_files r ∪ {[destination]}) in
          let '(attached, d) := attach_twice lease m destination o (ou_others o (rv_db r)) in
          let r := rv_set_db r d in
          let result := pr_answer (pr_set_attach result (at_code attached)) (pr_code result) (at_message attached) in
          if negb (at_accepted attached) then
            match ou_cleanup_error o with
            | Some what =>
                (pr_answer result AttachRejected (pr_message result +:+ "; artifact cleanup failed: " +:+ what), r)
            | None => (pr_answer result AttachRejected (pr_message result), remove_file destination r)
            end
          else if bool_decide (at_code attached = AlreadyAttached)
          then (pr_answer result ProcessAlreadyAttached (pr_message result), r)
          else
            (pr_answer result ProcessAttached (pr_message result),
             match md_kind m with
             | PlateEvidence =>
                 if 2 ^ 31 - 1 <? cl_sessionId lease then r
                 else rv_add_ocr r (mkOcrJob (cl_sessionId lease) (cl_slotId lease) destination)
             | VehicleEvidence => r
             end)
      end
  end.

(** [src/bestshot/BestShotReceiver.cpp:343-575 BestShotReceiver::processOne] *)
Definition processOne (m : PendingMetadata) (may_requeue : bool) (o : Outside) (r : Receiver)
    : BestShotProcessResult * Receiver :=
  let result := initial_result m in
  match ou_lookup_error o with
  | Some what =>
      (pr_answer (pr_set_attach result AttachRetryable) AttachRejected what,
       if may_requeue && (ou_age_now o - md_createdAtEpochMs m <? window) then (enqueuePending m r).2 else r)
  | None =>
      let match_ := trigger_resolve (md_cameraId m) (md_channelId m) (md_objectId m) (ou_lookup_now o) (rv_db r) in
      let result := pr_set_candidates result (pm_candidates match_) in
      match pm_kind match_ with
      | Unmatched => (pr_answer result ProcessUnmatched "no live correlation candidate", r)
      | Ambiguous => (pr_answer result ProcessAmbiguous "multiple live correlation candidates", r)
      | MatchPending =>
          if window <=? ou_age_now o - md_createdAtEpochMs m
          then (pr_answer result ExpiredPending "pending correlation window expired", r)
          else (pr_answer result ProcessPending "correlation has not committed",
                if may_requeue then (enqueuePending m r).2 else r)
      | UniqueMatch =>
          match pm_lease match_ with
          | None => (pr_answer (pr_set_attach result AttachConflict) AttachRejected
                       "unique match omitted its committed lease", r)
          | Some lease =>
              let result := pr_set_lease result lease in
              let identity := in_flight_identity lease m in
              if bool_decide (identity ∈ rv_in_flight r)
              then (pr_answer result DuplicateInFlight "same correlation evidence is already in flight", r)
              else
                let '(answer, r') := processReserved lease m result o (rv_set_in_flight r (rv_in_flight r ∪ {[identity]})) in
                (answer, rv_set_in_flight r' (rv_in_flight r' ∖ {[identity]}))
          end
      end
  end.

(** * A document *)

(** The objects of a document, from an opening tag to the next closing tag; the fuel bounds their number. *)
Fixpoint document_objects (fuel : nat) (xml : string) : list string :=
  match fuel with
  | O => []
  | S fuel' =>
      match cut_at "<tt:Object " xml with
      | None => []
      | Some (_, rest) =>
          match cut_at "</tt:Object>" ("<tt:Object " +:+ rest) with
          | None => []
          | Some (body, after) => (body +:+ "</tt:Object>") :: document_objects fuel' after
          end
      end
  end.

Definition object_is_plate (object : string) : bool :=
  contains "LicensePlate" object || contains ">License Plate<" object.
Definition object_is_vehicle (object : string) : bool := contains ">Vehicle<" object.

Definition metadata_incomplete (m : PendingMetadata) : bool :=
  is_empty (md_cameraId m) || is_empty (md_channelId m) || is_empty (md_objectId m) || is_empty (md_imageRef m).

(** What an object of a document meets: the clock, the answer of the metadata callback (false without one), and the rest. *)
Record ObjectOutside := mkObjectOutside { oo_now : Z; oo_routed : bool; oo_rest : Outside }.

(** The body of the loop of [processMetadataDocument]. *)
Definition process_object (camera_id channel_id rtsp_url object : string) (o : ObjectOutside) (r : Receiver)
    : list BestShotProcessResult * Receiver :=
  let is_plate := object_is_plate object in
  if negb (object_is_vehicle object) && negb is_plate then ([], r) else
  let m := make_metadata camera_id channel_id object rtsp_url is_plate (oo_now o) in
  if metadata_incomplete m
  then ([pr_answer (initial_result m) InvalidMetadata "BestShot metadata lacks camera/channel/ObjectId/ImageRef"], r) else
  if oo_routed o
  then ([pr_answer (initial_result m) RoutedExternally "handled by entrance BestShot pipeline"], r) else
  let '(result, r') := processOne m true (oo_rest o) r in ([result], r').

Fixpoint process_objects (camera_id channel_id rtsp_url : string) (objects : list string) (outside : nat -> ObjectOutside)
    (r : Receiver) : list BestShotProcessResult * Receiver :=
  match objects with
  | [] => ([], r)
  | object :: rest =>
      let '(results, r1) := process_object camera_id channel_id rtsp_url object (outside O) r in
      let '(results', r2) := process_objects camera_id channel_id rtsp_url rest (fun i => outside (S i)) r1 in
      (results ++ results', r2)
  end.

(** [src/bestshot/BestShotReceiver.cpp:255-341 BestShotReceiver::processMetadataDocument] *)
Definition processMetadataDocument (camera_id channel_id xml rtsp_url : string) (outside : nat -> ObjectOutside)
    (r : Receiver) : list BestShotProcessResult * Receiver :=
  process_objects camera_id channel_id rtsp_url (document_objects (String.length xml) xml) outside r.

(** * The quarantine *)

(** Whether [reconcilePending] keeps an item after its attempt. *)
Definition must_retry (result : BestShotProcessResult) : bool :=
  bool_decide (pr_code result = ProcessPending) || bool_decide (pr_code result = DownloadFailed) ||
  (bool_decide (pr_code result = AttachRejected) && bool_decide (pr_attachCode result = AttachRetryable)).

Definition release (m : PendingMetadata) (r : Receiver) : Receiver :=
  rv_set_quarantine r (rv_pending r) (rv_index r ∖ {[md_exactIdentityKey m]}).
Definition keep_pending (m : PendingMetadata) (r : Receiver) : Receiver :=
  rv_set_quarantine r (rv_pending r ++ [m]) (rv_index r).

(** The body of the loop of [reconcilePending] for one item that was taken. *)
Definition reconcile_one (now : Z) (m : PendingMetadata) (o : Outside) (r : Receiver) : BestShotProcessResult * Receiver :=
  if window <=? now - md_createdAtEpochMs m
  then (pr_answer (initial_result m) ExpiredPending "pending correlation window expired", release m r)
  else
    let '(result, r') := processOne m false o r in
    (result, if must_retry result then keep_pending m r' else release m r').

(** The pictures that the stream threads put into the quarantine meanwhile. *)
Definition enqueue_all (l : list PendingMetadata) (r : Receiver) : Receiver :=
  foldl (fun r m => (enqueuePending m r).2) r l.

Fixpoint reconcile_items (now : Z) (items : list PendingMetadata) (outside : nat -> list PendingMetadata * Outside)
    (r : Receiver) : list BestShotProcessResult * Receiver :=
  match items with
  | [] => ([], r)
  | m :: rest =>
      let '(arrived, o) := outside O in
      let '(result, r1) := reconcile_one now m o (enqueue_all arrived r) in
      let '(results, r2) := reconcile_items now rest (fun i => outside (S i)) r1 in
      (result :: results, r2)
  end.

(** [src/bestshot/BestShotReceiver.cpp:604-655 BestShotReceiver::reconcilePending] *)
Definition reconcilePending (now : Z) (outside : nat -> list PendingMetadata * Outside) (r : Receiver)
    : list BestShotProcessResult * Receiver :=
  reconcile_items now (rv_pending r) outside (rv_set_quarantine r [] (rv_index r)).
End Receiver.

(** * The stream *)

Definition stream_closing : string := "</tt:MetadataStream>".

(** The documents of a buffer and what stays in it; the fuel bounds their number. *)
Fixpoint take_documents (fuel : nat) (buffer : string) : list string * string :=
  match fuel with
  | O => ([], buffer)
  | S fuel' =>
      match cut_at stream_closing buffer with
      | None => ([], buffer)
      | Some (body, rest) =>
          let '(documents, left_over) := take_documents fuel' rest in
          ((body +:+ stream_closing) :: documents, left_over)
      end
  end.

Definition buffer_limit : Z := 4 * 1024 * 1024.

(** [src/bestshot/BestShotReceiver.cpp:191-253 BestShotReceiver::receiveLoop] One packet of the data stream: the documents that it
    completes and the buffer. *)
Definition receive_packet (data buffer : string) : list string * string :=
  let buffer := buffer +:+ data in
  let '(documents, rest) := take_documents (String.length buffer) buffer in
  (documents, if buffer_limit <? Z.of_nat (String.length rest) then "" else rest).

Fixpoint receive_packets (packets : list string) (buffer : string) : list string * string :=
  match packets with
  | [] => ([], buffer)
  | data :: more =>
      let '(documents, rest) := receive_packet data buffer in
      let '(documents', rest') := receive_packets more rest in
      (documents ++ documents', rest')
  end.

(** * Properties of the texts *)

(** The framing of the stream does not depend on the packets, the
    identity key names one picture, and the files stay in the receiver's directory. *)
(** * The identity key *)

Lemma append_inj_length (a b s t : string) :
  a +:+ s = b +:+ t -> String.length a = String.length b -> a = b /\ s = t.
Proof.
  revert b. induction a as [|c a IH]; intros [|d b]; cbn; intros H Hl; try (discriminate || done).
  injection H as -> H. injection Hl as Hl. destruct (IH b H Hl) as [-> ->]. done.
Qed.

Lemma key_digits s : sall isdigit s = true -> sall (fun c => negb (bool_decide (c = ":"%char))) s = true.
Proof.
  apply sall_impl. intros c Hc. apply negb_true_iff, bool_decide_eq_false. by intros ->.
Qed.

Lemma key_component_app value s :
  key_component value +:+ s = pretty (N.of_nat (String.length value)) +:+ String ":" (value +:+ String "|" s).
Proof. unfold key_component. by rewrite !append_assoc. Qed.

Lemma key_component_inj a b s t : key_component a +:+ s = key_component b +:+ t -> a = b /\ s = t.
Proof.
  rewrite !key_component_app. intros H.
  assert (Hb : forall v u, break_on ":" (pretty (N.of_nat (String.length v)) +:+ String ":" u) =
                 Some (pretty (N.of_nat (String.length v)), u)).
  { intros v u. apply break_on_app. apply key_digits, pretty_N_digits. }
  pose proof (f_equal (break_on ":") H) as E. rewrite !Hb in E. injection E as E1 E2.
  apply pretty_N_inj in E1. apply append_inj_length in E2 as [-> E2]; [|lia]. by injection E2 as ->.
Qed.

Lemma exactIdentityKey_inj c1 h1 o1 k1 i1 c2 h2 o2 k2 i2 :
  exactIdentityKey c1 h1 o1 k1 i1 = exactIdentityKey c2 h2 o2 k2 i2 ->
  c1 = c2 /\ h1 = h2 /\ o1 = o2 /\ k1 = k2 /\ i1 = i2.
Proof.
  unfold exactIdentityKey. intros H.
  apply key_component_inj in H as [-> H]. apply key_component_inj in H as [-> H].
  apply key_component_inj in H as [-> H]. apply key_component_inj in H as [Hk H].
  rewrite <- (append_nil_r (key_component i1)), <- (append_nil_r (key_component i2)) in H.
  apply key_component_inj in H as [-> _]. by destruct k1, k2.
Qed.

(** * The stream *)

Lemma stream_closing_shorter s a b : cut_at stream_closing s = Some (a, b) -> (String.length b < String.length s)%nat.
Proof. by apply cut_at_shorter. Qed.

(** Any fuel that is at least the length of the buffer gives the same documents. *)
Lemma take_documents_fuel n m s :
  (String.length s <= n)%nat -> (String.length s <= m)%nat -> take_documents n s = take_documents m s.
Proof.
  revert m s. induction n as [|n IH]; intros m s Hn Hm.
  - destruct s; cbn in Hn; [|lia]. by destruct m.
  - destruct m as [|m]; [destruct s; cbn in Hm; [done|lia]|]. cbn [take_documents].
    destruct (cut_at _ s) as [[a b]|] eqn:E; [|done]. apply stream_closing_shorter in E.
    by rewrite (IH m b ltac:(lia) ltac:(lia)).
Qed.

(** The documents of a text and what is left of it. *)
Definition documents_of (s : string) : list string * string := take_documents (String.length s) s.

Lemma documents_of_cut s a b :
  cut_at stream_closing s = Some (a, b) ->
  documents_of s = ((a +:+ stream_closing) :: (documents_of b).1, (documents_of b).2).
Proof.
  intros E. unfold documents_of. pose proof (stream_closing_shorter _ _ _ E) as Hl.
  destruct (String.length s) as [|n] eqn:Hs; [lia|]. cbn [take_documents]. rewrite E.
  rewrite (take_documents_fuel n (String.length b) b) by lia. by destruct (take_documents _ b).
Qed.

Lemma documents_of_none s : cut_at stream_closing s = None -> documents_of s = ([], s).
Proof. intros E. unfold documents_of. destruct (String.length s); cbn [take_documents]; [done|]. by rewrite E. Qed.

(** Text that arrives later only completes what was left over. *)
Lemma documents_of_app s t :
  documents_of (s +:+ t) =
    ((documents_of s).1 ++ (documents_of ((documents_of s).2 +:+ t)).1, (documents_of ((documents_of s).2 +:+ t)).2).
Proof.
  remember (String.length s) as n eqn:Hn. assert (Hle : (String.length s <= n)%nat) by lia. clear Hn. revert s Hle.
  induction n as [|n IH]; intros s Hle.
  - destruct s; cbn in Hle; [|lia]. apply surjective_pairing.
  - destruct (cut_at stream_closing s) as [[a b]|] eqn:E.
    + pose proof (stream_closing_shorter _ _ _ E) as Hl.
      rewrite (documents_of_cut _ _ _ E), (documents_of_cut _ _ _ (cut_at_app _ _ t _ _ E)), (IH b) by lia. done.
    + rewrite (documents_of_none _ E). apply surjective_pairing.
Qed.

Definition join_packets (packets : list string) : string := foldr String.append "" packets.

(** C37 [equivalence] The stream does not depend on how the network cuts it: as long as no prefix of it leaves more than the
    limit of four megabytes without a closing tag, the packets give exactly the documents of their concatenation, in order,
    and leave the same text in the buffer. *)
Theorem metadata_framing packets :
  (forall n, Z.of_nat (String.length (documents_of (join_packets (take n packets))).2) <= buffer_limit) ->
  receive_packets packets "" = documents_of (join_packets packets).
Proof.
  assert (Hgen : forall packets s,
    (forall n, Z.of_nat (String.length (documents_of (s +:+ join_packets (take n packets))).2) <= buffer_limit) ->
    receive_packets packets (documents_of s).2 =
      ((documents_of ((documents_of s).2 +:+ join_packets packets)).1,
       (documents_of ((documents_of s).2 +:+ join_packets packets)).2)).
  { clear packets. induction packets as [|p packets IH]; intros s Hfit.
    - cbn. rewrite append_nil_r. pose proof (documents_of_app s "") as H. rewrite !append_nil_r in H.
      rewrite (surjective_pairing (documents_of s)) in H at 1. injection H as H1 H2.
      rewrite <- H2. f_equal. symmetry. apply (app_inv_head (documents_of s).1). by rewrite app_nil_r.
    - cbn [receive_packets]. unfold receive_packet. fold (documents_of ((documents_of s).2 +:+ p)).
      pose proof (documents_of_app s p) as Hp. pose proof (Hfit 1%nat) as Hf. cbn in Hf. rewrite append_nil_r, Hp in Hf.
      cbn [snd] in Hf. destruct (documents_of ((documents_of s).2 +:+ p)) as [docs rest] eqn:Ed. cbn [snd fst] in *.
      rewrite (proj2 (Z.ltb_ge _ _) Hf).
      specialize (IH (s +:+ p)). rewrite Hp in IH. cbn [snd] in IH. rewrite IH.
      + change (join_packets (p :: packets)) with (p +:+ join_packets packets).
        rewrite <- append_assoc. rewrite (documents_of_app ((documents_of s).2 +:+ p)). by rewrite Ed.
      + intros n. specialize (Hfit (S n)). cbn in Hfit. by rewrite append_assoc. }
  intros Hfit. specialize (Hgen packets "" Hfit). cbn in Hgen.
  rewrite Hgen. symmetry. apply surjective_pairing.
Qed.

(** * The files *)

Definition file_char (c : ascii) : bool :=
  isalnum c || bool_decide (c = "-"%char) || bool_decide (c = "_"%char) || bool_decide (c = "."%char).

Lemma safe_prefix_chars n s : sall file_char (safe_prefix n s) = true.
Proof.
  revert s. induction n as [|n IH]; intros [|c s]; [done..|]. cbn [safe_prefix sall]. rewrite IH, andb_true_r.
  unfold safe_char. destruct (isalnum c || _ || _) eqn:E; [|done]. unfold file_char. by rewrite E.
Qed.

Lemma safe_prefix_length n s : (String.length (safe_prefix n s) <= n)%nat.
Proof. revert s. induction n as [|n IH]; intros [|c s]; cbn; [lia..|]. specialize (IH s). lia. Qed.

Lemma safePathComponent_spec s :
  sall file_char (safePathComponent s) = true /\ (1 <= String.length (safePathComponent s) <= 64)%nat.
Proof.
  unfold safePathComponent. destruct (safe_prefix 64 s) as [|c t] eqn:E; cbn [is_empty]; [split; [done|cbn; lia]|].
  rewrite <- E. split; [apply safe_prefix_chars|]. pose proof (safe_prefix_length 64 s). rewrite E in *. cbn in *. lia.
Qed.

Lemma stableDigest_spec s : sall file_char (stableDigest s) = true /\ String.length (stableDigest s) = 16%nat.
Proof.
  split; [|apply hex_digits_length]. eapply sall_impl; [|apply hex_digits_alnum].
  intros c Hc. unfold file_char. by rewrite Hc.
Qed.

(** A camera cannot choose where its picture is stored: whatever the channel, the object and the identities
    of an announcement, the file is a direct child of the directory of its kind below the receiver's root, its name consists
    of letters, digits, '-', '_' and '.', is at most 161 bytes long and ends in the digest and ".jpg". *)
Theorem destination_confined root m correlation :
  let name := shot_file_name m correlation in
  shot_destination root m correlation = path_join (path_join root (shot_kind_name (md_kind m))) name /\
  sall file_char name = true /\ (String.length name <= 161)%nat /\
  exists stem, name = stem +:+ stableDigest (md_evidenceIdentity m +:+ "|" +:+ correlation) +:+ ".jpg" /\ stem <> "".
Proof.
  cbv zeta. destruct (safePathComponent_spec (md_channelId m)) as [C1 L1].
  destruct (safePathComponent_spec (md_objectId m)) as [C2 L2].
  destruct (stableDigest_spec (md_evidenceIdentity m +:+ "|" +:+ correlation)) as [C3 L3].
  unfold shot_file_name. split; [done|]. split; [|split].
  - rewrite !sall_app, C1, C2, C3. by destruct (md_kind m).
  - rewrite !length_append. assert (String.length (shot_kind_name (md_kind m)) <= 7)%nat by (destruct (md_kind m); cbn; lia).
    cbn in *. lia.
  - eexists (safePathComponent (md_channelId m) +:+ "_" +:+ shot_kind_name (md_kind m) +:+ "_obj" +:+
             safePathComponent (md_objectId m) +:+ "_").
    split; [by rewrite !append_assoc|]. destruct (safePathComponent (md_channelId m)); [cbn in L1; lia|done].
Qed.
