(* ===== verification/BestShotSafety.v ===== *)
(** Properties of the best-shot receiver: the bounded quarantine under any interleaving, the two attempts to attach, and
    what a repeated announcement does to the stored picture. *)
From S2P Require Import Prelude Digest OccupancyDb Correlation CorrelationSafety BestShot.
From S2P Require Import SensorProtocol SequencePolicy SlotConfig OccupancyInvariant OccupancyStore BestShot.

(** * The quarantine *)

Section Quarantine.
Context `{CorrelationSql}.
Variables (root : string) (capacity : nat) (window : Z).

(** The receiver with the items that [reconcilePending] has taken and not settled yet. *)
Definition quarantine : Type := list PendingMetadata * Receiver.
Definition quarantined (q : quarantine) : list PendingMetadata := q.1 ++ rv_pending q.2.

(** The steps of the stream threads and of the one thread that reconciles. *)
Inductive quarantine_step : quarantine -> quarantine -> Prop :=
| QStream taken r m o : quarantine_step (taken, r) (taken, (processOne root capacity window m true o r).2)
| QTake r : quarantine_step ([], r) (rv_pending r, rv_set_quarantine r [] (rv_index r))
| QSettle taken r now m o : quarantine_step (m :: taken, r) (taken, (reconcile_one root capacity window now m o r).2).

(** The identities are distinct, the index holds exactly them, and there are at most [capacity]. *)
Record quarantine_ok (q : quarantine) : Prop := {
  qo_distinct : NoDup (md_exactIdentityKey <$> quarantined q);
  qo_index : rv_index q.2 = list_to_set (md_exactIdentityKey <$> quarantined q);
  qo_bound : (length (quarantined q) <= capacity)%nat
}.

Definition same_quarantine (r r' : Receiver) : Prop := rv_pending r' = rv_pending r /\ rv_index r' = rv_index r.

Lemma processReserved_quarantine lease m result o r :
  same_quarantine r (processReserved root lease m result o r).2.
Proof.
  unfold processReserved. cbv zeta. destruct (ou_inspect_error o); [done|].
  destruct (ou_download o); [|by case_match..].
  destruct (attach_twice _ _ _ _ _) as [attached d]. case_match; [by case_match|]. case_match; [done|].
  destruct (md_kind m); [done|]. by case_match.
Qed.

Lemma processOne_quarantine m may_requeue o r :
  let r' := (processOne root capacity window m may_requeue o r).2 in
  same_quarantine r r' \/ (may_requeue = true /\ r' = (enqueuePending capacity m r).2).
Proof.
  cbv zeta. unfold processOne. destruct (ou_lookup_error o).
  { cbn [snd]. destruct may_requeue; cbn [andb]; [|by left]. case_match; [by right|by left]. }
  cbv zeta. destruct (pm_kind _); [by left| | |by left].
  - case_match; [by left|]. destruct may_requeue; [by right|by left].
  - destruct (pm_lease _) as [lease|]; [|by left]. case_match; [by left|].
    match goal with |- context [processReserved root lease m ?res o ?r0] =>
      pose proof (processReserved_quarantine lease m res o r0) as Hq;
      destruct (processReserved root lease m res o r0) as [answer r'] end.
    left. exact Hq.
Qed.

Definition key_set (l : list PendingMetadata) : gset string := list_to_set (md_exactIdentityKey <$> l).

Lemma key_set_size l : NoDup (md_exactIdentityKey <$> l) -> size (key_set l) = length l.
Proof. intros H1. unfold key_set. by rewrite size_list_to_set, length_fmap. Qed.

Lemma same_quarantine_ok taken r r' : same_quarantine r r' -> quarantine_ok (taken, r) -> quarantine_ok (taken, r').
Proof. intros [E1 E2] [H1 H2 H3]. split; unfold quarantined in *; cbn in *; by rewrite ?E1, ?E2. Qed.

Lemma enqueue_ok taken m r : quarantine_ok (taken, r) -> quarantine_ok (taken, (enqueuePending capacity m r).2).
Proof.
  intros Hok. pose proof Hok as [H1 H2 H3]. unfold enqueuePending. case_bool_decide as Hin; [done|].
  unfold quarantined in *. cbn [fst snd] in *.
  assert (Hfresh : md_exactIdentityKey m ∉ md_exactIdentityKey <$> taken ++ rv_pending r).
  { intros Hm. apply Hin. rewrite H2. by apply elem_of_list_to_set. }
  assert (Hsize : size (rv_index r) = length (taken ++ rv_pending r)) by (rewrite H2; by apply key_set_size).
  destruct (capacity <=? size (rv_index r))%nat eqn:Hc.
  - destruct (rv_pending r) as [|front rest] eqn:Hp; [done|]. cbn [snd].
    assert (Hp' : taken ++ front :: rest ≡ₚ front :: (taken ++ rest)) by (symmetry; apply Permutation_middle).
    rewrite Hp' in H1, Hfresh. rewrite fmap_cons in H1, Hfresh. apply NoDup_cons in H1 as [Hf H1].
    split; unfold quarantined; cbn [fst snd rv_pending rv_index rv_set_quarantine].
    + rewrite app_assoc, fmap_app. apply NoDup_app. split; [done|]. split; [|apply NoDup_singleton].
      intros x Hx [= ->]%list_elem_of_singleton. apply Hfresh. by apply list_elem_of_further.
    + assert (Hi : rv_index r = {[md_exactIdentityKey front]} ∪ key_set (taken ++ rest)).
      { rewrite H2. unfold key_set. by rewrite (list_to_set_perm_L _ _ (fmap_Permutation md_exactIdentityKey _ _ Hp')). }
      assert (Hf' : md_exactIdentityKey front ∉ key_set (taken ++ rest)) by (by unfold key_set; rewrite elem_of_list_to_set).
      rewrite Hi, app_assoc, fmap_app, list_to_set_app_L. fold (key_set (taken ++ rest)). cbn. set_solver.
    + rewrite app_assoc, length_app. rewrite Hp' in H3. cbn in *. lia.
  - apply Nat.leb_gt in Hc. cbn [snd]. split; unfold quarantined; cbn [fst snd rv_pending rv_index rv_set_quarantine].
    + rewrite app_assoc, fmap_app. apply NoDup_app. split; [done|]. split; [|apply NoDup_singleton].
      intros x Hx [= ->]%list_elem_of_singleton. done.
    + rewrite H2, app_assoc, (fmap_app _ (taken ++ _)), list_to_set_app_L. cbn. set_solver.
    + rewrite app_assoc, length_app. cbn. lia.
Qed.

Lemma quarantine_ok_perm q q' :
  quarantined q' ≡ₚ quarantined q -> rv_index q'.2 = rv_index q.2 -> quarantine_ok q -> quarantine_ok q'.
Proof.
  intros Hp Hi [H1 H2 H3]. split; [by rewrite Hp| |by rewrite Hp]. rewrite Hi, H2.
  apply list_to_set_perm_L. by rewrite Hp.
Qed.

Lemma settle_ok taken r now m o :
  quarantine_ok (m :: taken, r) -> quarantine_ok (taken, (reconcile_one root capacity window now m o r).2).
Proof.
  intros Hok. unfold reconcile_one.
  assert (Hrel : forall r0, same_quarantine r r0 -> quarantine_ok (taken, release m r0)).
  { intros r0 [E1 E2]. destruct Hok as [H1 H2 H3]. unfold quarantined in *. cbn in *. apply NoDup_cons in H1 as [Hm H1].
    split; unfold quarantined; cbn; rewrite ?E1, ?E2; [done| |lia].
    assert (Hi : rv_index r = {[md_exactIdentityKey m]} ∪ key_set (taken ++ rv_pending r)) by exact H2.
    assert (Hm' : md_exactIdentityKey m ∉ key_set (taken ++ rv_pending r)) by (by unfold key_set; rewrite elem_of_list_to_set).
    rewrite Hi. fold (key_set (taken ++ rv_pending r)). set_solver. }
  assert (Hkeep : forall r0, same_quarantine r r0 -> quarantine_ok (taken, keep_pending m r0)).
  { intros r0 [E1 E2]. eapply quarantine_ok_perm; [| |exact Hok]; unfold quarantined; cbn; rewrite ?E1; [|done].
    rewrite app_assoc, Permutation_app_comm. done. }
  case_match; [by apply Hrel|].
  destruct (processOne_quarantine m false o r) as [Hs|[? _]]; [|done]. cbv zeta in Hs.
  destruct (processOne _ _ _ m false o r) as [result r']. cbn [snd] in *. case_match; auto.
Qed.

Lemma quarantine_step_ok q q' : quarantine_step q q' -> quarantine_ok q -> quarantine_ok q'.
Proof.
  intros [taken r m o|r|taken r now m o] Hok.
  - destruct (processOne_quarantine m true o r) as [Hs|[_ ->]]; [by eapply same_quarantine_ok|by apply enqueue_ok].
  - eapply quarantine_ok_perm; [| |exact Hok]; [|done]. unfold quarantined. cbn. by rewrite app_nil_r.
  - by apply settle_ok.
Qed.

(** What is quarantined after a step was before, or nothing of its identity was. *)
Lemma quarantine_step_old q q' y :
  quarantine_step q q' -> quarantine_ok q -> y ∈ quarantined q' ->
  y ∈ quarantined q \/ md_exactIdentityKey y ∉ md_exactIdentityKey <$> quarantined q.
Proof.
  intros [taken r m o|r|taken r now m o] [_ Hi _]; unfold quarantined in *; cbn [fst snd] in *; intros Hy.
  - destruct (processOne_quarantine m true o r) as [[E _]|[_ E]]; [cbv zeta in E; rewrite E in Hy; by left|].
    rewrite E in Hy. unfold enqueuePending in Hy. case_bool_decide as Hin; [by left|].
    rewrite Hi, elem_of_list_to_set in Hin.
    assert (Hnew : y ∈ taken ++ rv_pending r \/ y = m).
    { clear Hi Hin E. destruct (_ <=? _)%nat; [destruct (rv_pending r) as [|front rest] eqn:Ep|]; cbn in Hy;
        rewrite ?Ep in Hy; rewrite ?elem_of_app, ?list_elem_of_singleton, ?elem_of_cons in *; tauto. }
    destruct Hnew as [Hnew| ->]; [by left|by right].
  - left. cbn in Hy. by rewrite app_nil_r in Hy.
  - left. unfold reconcile_one in Hy. case_match; [cbn in Hy; set_solver|].
    destruct (processOne_quarantine m false o r) as [[E _]|[? _]]; [|done]. cbv zeta in E.
    destruct (processOne _ _ _ m false o r) as [result r']. cbn [snd] in *.
    case_match; cbn in Hy; rewrite E in Hy; set_solver.
Qed.

(** The reconciliation is a run of such steps, with the steps of the stream threads in between. *)
Lemma enqueue_all_ok taken l r :
  quarantine_ok (taken, r) -> quarantine_ok (taken, enqueue_all capacity l r).
Proof. revert r. induction l as [|m l IH]; intros r Hok; [done|]. by apply IH, enqueue_ok. Qed.

Lemma reconcile_items_ok now items outside r :
  quarantine_ok (items, r) -> quarantine_ok ([], (reconcile_items root capacity window now items outside r).2).
Proof.
  revert outside r. induction items as [|m items IH]; intros outside r Hok; [done|]. cbn [reconcile_items].
  destruct (outside O) as [arrived o]. apply (enqueue_all_ok _ arrived), (settle_ok _ _ now _ o) in Hok.
  destruct (reconcile_one _ _ _ now m o _) as [result r1]. apply (IH (fun i => outside (S i))) in Hok.
  cbn [snd] in Hok. by destruct (reconcile_items _ _ _ now items _ r1).
Qed.

(** The quarantine stays within its capacity under any interleaving of the stream threads with the thread that
    reconciles: its pictures, those taken for reconciliation included, have distinct identities, the index holds
    exactly these, and they are never more than the capacity. A picture that is announced again while it is
    quarantined keeps its record, and with it the time from which its window counts. A whole
    reconciliation, with announcements arriving between its items, keeps the same invariant. *)
Theorem quarantine_bounded q :
  quarantine_ok q ->
  (forall q', rtc quarantine_step q q' -> quarantine_ok q') /\
  (forall q1 q2 x y, rtc quarantine_step q q1 -> quarantine_step q1 q2 -> x ∈ quarantined q1 -> y ∈ quarantined q2 ->
     md_exactIdentityKey x = md_exactIdentityKey y -> x = y) /\
  (q.1 = [] -> forall now outside, quarantine_ok ([], (reconcilePending root capacity window now outside q.2).2)).
Proof.
  intros Hq.
  assert (Hrun : forall q', rtc quarantine_step q q' -> quarantine_ok q').
  { intros q' Hr. revert Hq. induction Hr; [done|]. eauto using quarantine_step_ok. }
  split; [exact Hrun|]. split.
  - intros q1 q2 x y H1%Hrun H2 Hx Hy Hk. destruct (quarantine_step_old _ _ _ H2 H1 Hy) as [Hold|Hnew].
    + destruct H1 as [Hd _ _]. by eapply (NoDup_fmap_inj_on md_exactIdentityKey).
    + destruct Hnew. rewrite <- Hk. by apply list_elem_of_fmap_2.
  - intros E now outside. destruct q as [taken r]. cbn in E. subst taken. unfold reconcilePending. cbn [snd].
    apply reconcile_items_ok. eapply quarantine_ok_perm; [| |exact Hq]; [|done]. unfold quarantined. cbn. by rewrite app_nil_r.
Qed.
End Quarantine.

(** * One picture *)

Section Pipeline.
Context `{CorrelationSql}.
Variables (root : string) (capacity : nat) (window : Z).

(** Nothing fails outside: the lookup, the file system and the download work and nobody changes the tables meanwhile. *)
Record quiet (o : Outside) : Prop := {
  qt_lookup : ou_lookup_error o = None;
  qt_inspect : ou_inspect_error o = None;
  qt_download : ou_download o = Downloaded;
  qt_others : forall d, ou_others o d = d;
  qt_cleanup : ou_cleanup_error o = None
}.

Lemma pm_lease_unique camera_id channel_id object_id now d lease :
  pm_lease (trigger_resolve camera_id channel_id object_id now d) = Some lease ->
  pm_kind (trigger_resolve camera_id channel_id object_id now d) = UniqueMatch.
Proof.
  unfold trigger_resolve, resolveParkingCorrelation. repeat (case_match; try done).
Qed.

(** The answer of a call whose two attempts end in [attached] and [d]. *)
Definition outcome_of (lease : CommittedCorrelationLease) (m : PendingMetadata) (attached : BestShotAttachResult)
    (d : CorrelationDb) (code : BestShotProcessCode) (r : Receiver) (answer : BestShotProcessResult * Receiver) : Prop :=
  let destination := shot_destination root m (cl_correlationId lease) in
  pr_code answer.1 = code /\ pr_attachCode answer.1 = at_code attached /\ rv_db answer.2 = d /\
  rv_pending answer.2 = rv_pending r /\ rv_index answer.2 = rv_index r /\
  rv_in_flight answer.2 = (rv_in_flight r ∪ {[in_flight_identity lease m]}) ∖ {[in_flight_identity lease m]} /\
  rv_files answer.2 = (if at_accepted attached then rv_files r ∪ {[destination]}
                       else (rv_files r ∪ {[destination]}) ∖ {[destination]}) /\
  rv_ocr answer.2 =
    (if bool_decide (code = ProcessAttached) && bool_decide (md_kind m = PlateEvidence) && (cl_sessionId lease <? 2 ^ 31)
     then rv_ocr r ++ [mkOcrJob (cl_sessionId lease) (cl_slotId lease) destination] else rv_ocr r).

Definition code_of (attached : BestShotAttachResult) : BestShotProcessCode :=
  if at_accepted attached
  then if bool_decide (at_code attached = AlreadyAttached) then ProcessAlreadyAttached else ProcessAttached
  else AttachRejected.

Lemma processOne_quiet m may_requeue o r lease :
  quiet o ->
  pm_lease (trigger_resolve (md_cameraId m) (md_channelId m) (md_objectId m) (ou_lookup_now o) (rv_db r)) = Some lease ->
  in_flight_identity lease m ∉ rv_in_flight r ->
  let both := attach_twice lease m (shot_destination root m (cl_correlationId lease)) o (rv_db r) in
  outcome_of lease m both.1 both.2 (code_of both.1) r (processOne root capacity window m may_requeue o r).
Proof.
  intros [Q1 Q2 Q3 Q4 Q5] Hl Hf. cbv zeta. unfold processOne. rewrite Q1. cbv zeta.
  rewrite (pm_lease_unique _ _ _ _ _ _ Hl), Hl, bool_decide_eq_false_2 by done.
  unfold processReserved. rewrite Q2, Q3, Q4, Q5. cbv zeta.
  cbn [rv_set_in_flight rv_set_files rv_db rv_files rv_in_flight].
  destruct (attach_twice _ _ _ _ _) as [attached d]. cbn [fst snd]. unfold code_of, outcome_of, at_accepted.
  destruct attached as [code id message]. cbn [at_code].
  destruct code; cbn; try (repeat split; reflexivity).
  destruct (md_kind m); cbn; [repeat split; reflexivity|].
  destruct (2 ^ 31 - 1 <? cl_sessionId lease) eqn:E;
    [rewrite (proj2 (Z.ltb_ge (cl_sessionId lease) (2 ^ 31))) by (apply Z.ltb_lt in E; lia)
    |rewrite (proj2 (Z.ltb_lt (cl_sessionId lease) (2 ^ 31))) by (apply Z.ltb_ge in E; lia)];
    repeat split; reflexivity.
Qed.

Lemma attach_facade o lease kind image_ref image_path plate_text now fresh d :
  lease_complete lease image_ref image_path = true -> cd_open d = true ->
  attachBestShotIfActive o lease kind image_ref image_path plate_text now fresh d =
    match o with
    | SqlRuns => db_attachBestShot lease kind image_ref image_path plate_text now fresh d
    | SqlRolledBack what => (mkAttach AttachRetryable (-1) what, d)
    | SqlCommitLost what =>
        (mkAttach AttachRetryable (-1) what, (db_attachBestShot lease kind image_ref image_path plate_text now fresh d).2)
    end.
Proof.
  intros Hl Ho. unfold attachBestShotIfActive, sql_attach. rewrite Hl, Ho. unfold lease_complete in Hl.
  rewrite negb_true_iff, !orb_false_iff in Hl. destruct_and? Hl.
  repeat match goal with E : ?x = false |- context [?x] => rewrite E end. done.
Qed.

Lemma attach_retryable lease kind image_ref image_path plate_text now fresh d :
  lease_complete lease image_ref image_path = true -> cd_open d = true ->
  at_code (db_attachBestShot lease kind image_ref image_path plate_text now fresh d).1 <> AttachRetryable.
Proof.
  intros Hl Ho. unfold db_attachBestShot. cbv zeta. rewrite Hl, Ho. cbn [negb].
  repeat (case_match; cbn; try done).
Qed.

Lemma db_attach_open lease kind image_ref image_path plate_text now fresh d :
  cd_open (db_attachBestShot lease kind image_ref image_path plate_text now fresh d).2 = cd_open d.
Proof.
  destruct (db_attachBestShot _ _ _ _ _ _ _ d) as [answer d'] eqn:E.
  by destruct (attach_cases _ _ _ _ _ _ _ _ _ _ E) as [[-> _]|(_ & -> & _)].
Qed.

Lemma facade_open o lease kind image_ref image_path plate_text now fresh d :
  cd_open (attachBestShotIfActive o lease kind image_ref image_path plate_text now fresh d).2 = cd_open d.
Proof.
  unfold attachBestShotIfActive, sql_attach. case_match; [done|]. case_match; [apply db_attach_open|].
  destruct o; [apply db_attach_open|done|apply db_attach_open].
Qed.

Lemma facade_attached o lease kind image_ref image_path plate_text now fresh d :
  at_code (attachBestShotIfActive o lease kind image_ref image_path plate_text now fresh d).1 = Attached ->
  lease_complete lease image_ref image_path = true /\ cd_open d = true.
Proof.
  unfold attachBestShotIfActive, sql_attach. case_match; [done|].
  assert (Hdb : at_code (db_attachBestShot lease kind image_ref image_path plate_text now fresh d).1 = Attached ->
    lease_complete lease image_ref image_path = true /\ cd_open d = true).
  { destruct (db_attachBestShot _ _ _ _ _ _ _ d) as [answer d'] eqn:E.
    by destruct (attach_cases _ _ _ _ _ _ _ _ _ _ E) as [[_ ?]|(_ & _ & ? & ? & _)]. }
  case_match; [done|]. by destruct o.
Qed.

Lemma attach_twice_attached lease m destination o d :
  at_code (attach_twice lease m destination o d).1 = Attached ->
  lease_complete lease (md_imageRef m) destination = true /\ cd_open d = true.
Proof.
  unfold attach_twice. case_match; [|apply facade_attached]. intros Ha%facade_attached. by rewrite facade_open in Ha.
Qed.

(** A transaction whose outcome is lost is reconciled by the second attempt: if the first attempt committed but
    reported a failure, the second finds the row, the picture stays and there is exactly one row; if the first
    attempt was rolled back, the second adds the one row. Only in the second case does the OCR worker get the
    picture of a plate. *)
Theorem lost_outcome_reconciled m may_requeue o r lease what :
  quiet o ->
  pm_lease (trigger_resolve (md_cameraId m) (md_channelId m) (md_objectId m) (ou_lookup_now o) (rv_db r)) = Some lease ->
  in_flight_identity lease m ∉ rv_in_flight r ->
  ou_attach2 o = SqlRuns ->
  let destination := shot_destination root m (cl_correlationId lease) in
  let shot now fresh := new_shot lease (md_kind m) (md_imageRef m) destination (md_plateText m) now fresh in
  let attempt now fresh :=
    (db_attachBestShot lease (md_kind m) (md_imageRef m) destination (md_plateText m) now fresh (rv_db r)).1 in
  let answer := processOne root capacity window m may_requeue o r in
  (ou_attach1 o = SqlCommitLost what -> at_code (attempt (ou_attach1_now o) (ou_attach1_id o)) = Attached ->
     pr_code answer.1 = ProcessAlreadyAttached /\ rv_ocr answer.2 = rv_ocr r /\ destination ∈ rv_files answer.2 /\
     rv_db answer.2 = add_shot (shot (ou_attach1_now o) (ou_attach1_id o)) (rv_db r)) /\
  (ou_attach1 o = SqlRolledBack what -> at_code (attempt (ou_attach2_now o) (ou_attach2_id o)) = Attached ->
     pr_code answer.1 = ProcessAttached /\ destination ∈ rv_files answer.2 /\
     (md_kind m = PlateEvidence -> cl_sessionId lease < 2 ^ 31 ->
        rv_ocr answer.2 = rv_ocr r ++ [mkOcrJob (cl_sessionId lease) (cl_slotId lease) destination]) /\
     rv_db answer.2 = add_shot (shot (ou_attach2_now o) (ou_attach2_id o)) (rv_db r)).
Proof.
  intros Hq Hl Hf H2. cbv zeta.
  pose proof (processOne_quiet m may_requeue o r lease Hq Hl Hf) as Hout. cbv zeta in Hout.
  set (destination := shot_destination root m (cl_correlationId lease)) in *.
  unfold attach_twice in Hout. rewrite H2 in Hout.
  split; intros H1 Ha; rewrite H1 in Hout.
  - destruct (db_attachBestShot lease (md_kind m) (md_imageRef m) destination (md_plateText m) (ou_attach1_now o)
      (ou_attach1_id o) (rv_db r)) as [answer d'] eqn:E.
    destruct (attach_cases _ _ _ _ _ _ _ _ _ _ E) as [[_ Hn]|(-> & -> & Hc & Ho & [(b & Hb & Hm & _) _] & Hnone)]; [done|].
    rewrite (attach_facade (SqlCommitLost what)), E in Hout by done. cbn [fst snd at_code] in Hout.
    rewrite bool_decide_eq_true_2, attach_facade in Hout by done.
    rewrite (attach_again lease (md_kind m) (md_imageRef m) destination (md_plateText m) _ _ _
      (new_shot lease (md_kind m) (md_imageRef m) destination (md_plateText m) (ou_attach1_now o) (ou_attach1_id o)) b)
      in Hout; [|done..|apply find_snoc; [done|apply new_shot_same]].
    rewrite new_shot_canonical in Hout. cbn [fst snd bs_id] in Hout.
    destruct Hout as (E1 & _ & E3 & _ & _ & _ & E7 & E8). cbn in E1, E7, E8. rewrite E1, E3, E7, E8. repeat split. set_solver.
  - destruct (db_attachBestShot lease (md_kind m) (md_imageRef m) destination (md_plateText m) (ou_attach2_now o)
      (ou_attach2_id o) (rv_db r)) as [answer d'] eqn:E.
    destruct (attach_cases _ _ _ _ _ _ _ _ _ _ E) as [[_ Hn]|(-> & -> & Hc & Ho & _)]; [done|].
    rewrite !attach_facade in Hout by done. cbn [fst snd at_code] in Hout.
    rewrite bool_decide_eq_true_2, E in Hout by done.
    destruct Hout as (E1 & _ & E3 & _ & _ & _ & E7 & E8). cbn in E1, E7. rewrite E1, E3, E7, E8. repeat split; [set_solver|].
    intros -> Hs. apply Z.ltb_lt in Hs. by rewrite Hs.
Qed.

(** The tables after an attachment, seen by a repeated announcement, possibly after the OCR worker's answer. *)
Lemma announced_again m may_requeue o r lease i b :
  quiet o -> ou_attach1 o = SqlRuns ->
  pm_lease (trigger_resolve (md_cameraId m) (md_channelId m) (md_objectId m) (ou_lookup_now o) (rv_db r)) = Some lease ->
  in_flight_identity lease m ∉ rv_in_flight r ->
  lease_complete lease (md_imageRef m) (shot_destination root m (cl_correlationId lease)) = true -> cd_open (rv_db r) = true ->
  st_bindings (cd_store (rv_db r)) !! cl_correlationId lease = Some b -> lease_matches lease b = true ->
  List.find (same_shot (cl_correlationId lease) (evidenceKindName (md_kind m)) (md_imageRef m)) (cd_images (rv_db r)) = Some i ->
  let destination := shot_destination root m (cl_correlationId lease) in
  let answer := processOne root capacity window m may_requeue o r in
  rv_db answer.2 = rv_db r /\
  if canonical lease destination (md_plateText m) i
  then pr_code answer.1 = ProcessAlreadyAttached /\ destination ∈ rv_files answer.2
  else pr_code answer.1 = AttachRejected /\ pr_attachCode answer.1 = AttachConflict /\ destination ∉ rv_files answer.2.
Proof.
  intros Hq H1 Hl Hf Hc Ho Hb Hm Hi. cbv zeta.
  pose proof (processOne_quiet m may_requeue o r lease Hq Hl Hf) as Hout. cbv zeta in Hout.
  unfold attach_twice in Hout. rewrite H1, !attach_facade in Hout by done.
  rewrite (attach_again _ _ _ _ _ _ _ _ _ _ Hc Ho Hb Hm Hi) in Hout.
  destruct (canonical _ _ _ i); cbn in Hout; destruct Hout as (E1 & E2 & E3 & _ & _ & _ & E7 & _);
    rewrite E1, ?E2, E3, E7; repeat split; set_solver.
Qed.

(** What a camera's repetition of a plate picture does, once the picture has been attached and while its correlation
    is still the only candidate. Without an answer of the OCR worker it is recognised: the tables and the file stay. But
    if the worker has meanwhile recorded another text for the picture than the camera announces, the repetition is
    taken for a conflict and the stored file is removed, although the row of the session still names it. *)
Theorem repeated_plate_after_ocr m may1 may2 o1 o2 r lease :
  let r1 := (processOne root capacity window m may1 o1 r).2 in
  let destination := shot_destination root m (cl_correlationId lease) in
  quiet o1 -> ou_attach1 o1 = SqlRuns -> quiet o2 -> ou_attach1 o2 = SqlRuns ->
  in_flight_identity lease m ∉ rv_in_flight r ->
  pm_lease (trigger_resolve (md_cameraId m) (md_channelId m) (md_objectId m) (ou_lookup_now o1) (rv_db r)) = Some lease ->
  pm_lease (trigger_resolve (md_cameraId m) (md_channelId m) (md_objectId m) (ou_lookup_now o2) (rv_db r)) = Some lease ->
  pr_code (processOne root capacity window m may1 o1 r).1 = ProcessAttached ->
  (let again := processOne root capacity window m may2 o2 r1 in
   pr_code again.1 = ProcessAlreadyAttached /\ rv_db again.2 = rv_db r1 /\ destination ∈ rv_files again.2) /\
  (forall text, text <> md_plateText m ->
   let again := processOne root capacity window m may2 o2 (rv_set_db r1 (ocr_on_shots destination text (rv_db r1))) in
   pr_code again.1 = AttachRejected /\ pr_attachCode again.1 = AttachConflict /\ destination ∉ rv_files again.2 /\
   exists i, In i (cd_images (rv_db again.2)) /\ bs_session i = Some (cl_sessionId lease) /\ bs_path i = destination).
Proof.
  cbv zeta. intros Hq1 Hr1 Hq2 Hr2 Hf Hl1 Hl2 Hcode.
  pose proof (processOne_quiet m may1 o1 r lease Hq1 Hl1 Hf) as Hout. cbv zeta in Hout.
  set (destination := shot_destination root m (cl_correlationId lease)) in *.
  assert (Hcomplete : lease_complete lease (md_imageRef m) destination = true /\ cd_open (rv_db r) = true).
  { apply (attach_twice_attached lease m destination o1). destruct Hout as (E1 & _). rewrite E1 in Hcode.
    unfold code_of, at_accepted in Hcode. by destruct (at_code _). }
  destruct Hcomplete as [Hc Ho].
  unfold attach_twice in Hout. rewrite Hr1, !attach_facade in Hout by done.
  pose proof (attach_retryable lease (md_kind m) (md_imageRef m) destination (md_plateText m) (ou_attach1_now o1)
    (ou_attach1_id o1) (rv_db r) Hc Ho) as Hne.
  rewrite bool_decide_eq_false_2 in Hout by done.
  destruct (db_attachBestShot _ _ _ destination _ (ou_attach1_now o1) _ _) as [answer d'] eqn:E. cbn [fst snd] in Hout.
  destruct (attach_cases _ _ _ _ _ _ _ _ _ _ E) as [[_ Hn]|(-> & -> & _ & _ & [(b & Hb & Hm & _) _] & Hnone)].
  { destruct Hout as (E1 & _). rewrite E1 in Hcode. unfold code_of, at_accepted in Hcode.
    destruct (at_code answer); cbn in Hcode; done. }
  destruct Hout as (_ & _ & E3 & _ & _ & E6 & _).
  set (r1 := (processOne root capacity window m may1 o1 r).2) in *.
  set (i := new_shot lease (md_kind m) (md_imageRef m) destination (md_plateText m) (ou_attach1_now o1) (ou_attach1_id o1)) in *.
  assert (Hf1 : in_flight_identity lease m ∉ rv_in_flight r1) by (rewrite E6; set_solver).
  assert (Hfind : List.find (same_shot (cl_correlationId lease) (evidenceKindName (md_kind m)) (md_imageRef m))
                    (cd_images (rv_db r) ++ [i]) = Some i) by (apply find_snoc; [done|apply new_shot_same]).
  split.
  - pose proof (announced_again m may2 o2 r1 lease i b) as Ha. cbv zeta in Ha. fold destination in Ha. rewrite E3 in Ha.
    assert (Hcan : canonical lease destination (md_plateText m) i = true) by apply new_shot_canonical.
    rewrite E3. rewrite Hcan in Ha. destruct Ha as (? & ? & ?); auto.
  - intros text Ht. set (r2 := rv_set_db r1 _).
    assert (Er : rv_db r2 = ocr_on_shots destination text (add_shot i (rv_db r))) by (unfold r2; cbn; by rewrite E3).
    assert (Ef : rv_in_flight r2 = rv_in_flight r1) by done. clearbody r2.
    pose proof (announced_again m may2 o2 r2 lease (ocr_on_shot destination text i) b) as Ha.
    cbv zeta in Ha. fold destination in Ha.
    assert (Hcan : canonical lease destination (md_plateText m) (ocr_on_shot destination text i) = false).
    { unfold ocr_on_shot. cbn. rewrite bool_decide_eq_true_2 by done. unfold canonical. cbn.
      rewrite (bool_decide_eq_false_2 _ Ht). by rewrite !andb_false_r. }
    rewrite Hcan, Er, Ef in Ha. cbn [ocr_on_shots add_shot cd_open cd_store cd_images] in Ha.
    destruct Ha as (Edb & Ecode & Eattach & Efile); try done.
    { rewrite find_fmap, Hfind; [done|]. intros x. unfold ocr_on_shot. by case_match. }
    split; [done|]. split; [done|]. split; [done|]. exists (ocr_on_shot destination text i).
    rewrite Edb. cbn [ocr_on_shots add_shot cd_images].
    split; [|unfold ocr_on_shot; cbn; by rewrite bool_decide_eq_true_2].
    apply list_elem_of_In, list_elem_of_fmap. exists i. split; [done|]. apply elem_of_app. right. by apply list_elem_of_singleton.
Qed.
End Pipeline.

(** * Examples and witnesses *)

(** Concrete runs of the best-shot receiver: the theorems of [CorrelationSafety], [BestShot] and [BestShotSafety]
    applied to one slot with an open session and a committed correlation. *)
#[local] Instance demo_json_sql : CorrelationSql :=
  {| sql_json_is := fun payload key value => String.eqb payload (key +:+ "=" +:+ value);
     sql_json_integer := fun payload key => if String.eqb payload key then Some 1 else None |}.

Notation shot_session :=
  (mkSessionRow "A1" "t1" None StatusActive (Some "occupancy:i1") (Some "i1") None (Some 1000) None 0 false true false true).
Notation shot_binding :=
  (mkBindingRow "i1" "occupancy:i1" (Some 1) "A1" "cam1" "tok" "rule" "7" "ch1" 1 BindingCommitted 1000 60000 1000 None).
Notation shot_store :=
  (mkStore {["A1" := "OCCUPIED"]} {[1 := shot_session]} 1 ∅ ∅ ∅ ∅ ∅ {["c1" := shot_binding]} []).
Notation shot_db := (mkCorrelationDb true shot_store []).
Notation shot_lease := (mkLease "c1" "occupancy:i1" 1 "A1" "cam1" "tok" "rule" "7" "ch1" 1 60000).

Lemma shot_open_session slot id r : open_session_of shot_store slot id r -> slot = "A1" /\ id = 1 /\ r = shot_session.
Proof. intros (Hr & _ & Hslot). cbn [st_sessions st_slots st_bindings] in Hr. apply lookup_singleton_Some in Hr as [<- <-]. by rewrite <- Hslot. Qed.

Lemma shot_session_open : open_session_of shot_store "A1" 1 shot_session.
Proof. repeat split. Qed.

Lemma shot_store_invariant : invariant shot_store.
Proof.
  split; [split|split|split].
  - intros slot id1 id2 r1 r2 (_ & -> & _)%shot_open_session (_ & -> & _)%shot_open_session. done.
  - intros id r Hr. cbn [st_sessions st_slots st_bindings] in Hr. apply lookup_singleton_Some in Hr as [<- _]. done.
  - intros slot status Hs. cbn [st_sessions st_slots st_bindings] in Hs. apply lookup_singleton_Some in Hs as [<- <-]. split; [|done].
    intros _. exists 1, shot_session. apply shot_session_open.
  - intros slot id r (-> & _)%shot_open_session. by exists "OCCUPIED".
  - intros id1 id2 d1 d2 Hd. by destruct (lookup_empty_Some _ _ Hd).
  - intros cid b Hb _. cbn [st_sessions st_slots st_bindings] in Hb. apply lookup_singleton_Some in Hb as [_ <-]. exists 1. split; [done|].
    exists shot_session. split; [apply shot_session_open|done].
  - intros slot r id Hr. by destruct (lookup_empty_Some _ _ Hr).
  - intros id1 id2 r1 r2 Hr. by destruct (lookup_empty_Some _ _ Hr).
  - intros id1 id2 r1 r2 Hr. by destruct (lookup_empty_Some _ _ Hr).
Qed.

Lemma shot_revisions cid b : st_bindings shot_store !! cid = Some b -> 0 < bi_revision b < 2 ^ 63.
Proof. intros Hb. cbn [st_sessions st_slots st_bindings] in Hb. apply lookup_singleton_Some in Hb as [_ <-]. done. Qed.

Notation shot_recognised ws := (mkCorrelationDb true shot_store
  (foldl shot_write (cd_images (db_attachBestShot shot_lease PlateEvidence "ref" "/p.jpg" "" 2000 5 shot_db).2) ws)).
Example bestshot_exact_witness :
  at_code (db_attachBestShot shot_lease PlateEvidence "ref" "/p.jpg" "" 2000 5 shot_db).1 = Attached /\
  attachable shot_lease 2000 shot_store /\
  db_attachBestShot shot_lease PlateEvidence "ref" "/p.jpg" "" 90000 6 (shot_recognised []) =
    (mkAttach AlreadyAttached 5 "BestShot evidence was already attached", shot_recognised []) /\
  db_attachBestShot shot_lease PlateEvidence "ref" "/p.jpg" "" 90000 6 (shot_recognised [ShotRecognised "/p.jpg" "34B"]) =
    (mkAttach AttachConflict (-1) "BestShot evidence identity conflicts with its canonical row",
     shot_recognised [ShotRecognised "/p.jpg" "34B"]).
Proof.
  assert (H : at_code (db_attachBestShot shot_lease PlateEvidence "ref" "/p.jpg" "" 2000 5 shot_db).1 = Attached)
    by (vm_compute; reflexivity).
  destruct (proj2 (bestshot_exact shot_lease PlateEvidence "ref" "/p.jpg" "" 2000 5 shot_db) H) as (Ha & _ & _ & Hl).
  split; [exact H|]. split; [exact Ha|].
  split; [exact (Hl 90000 6 shot_store shot_binding [] eq_refl eq_refl)|].
  exact (Hl 90000 6 shot_store shot_binding [ShotRecognised "/p.jpg" "34B"] eq_refl eq_refl).
Defined.

Example resolved_lease_attaches_witness :
  pm_lease (trigger_resolve "cam1" "ch1" "7" 2000 shot_db) = Some shot_lease /\
  attachBestShotIfActive SqlRuns shot_lease PlateEvidence "ref" "/p.jpg" "" 2000 5 shot_db =
    (mkAttach Attached 5 "BestShot evidence attached to active exact session",
     add_shot (new_shot shot_lease PlateEvidence "ref" "/p.jpg" "" 2000 5) shot_db).
Proof.
  assert (H : pm_lease (trigger_resolve "cam1" "ch1" "7" 2000 shot_db) = Some shot_lease) by (vm_compute; reflexivity).
  split; [exact H|].
  refine (proj2 (resolved_lease_attaches "cam1" "ch1" "7" 2000 shot_db shot_lease PlateEvidence "ref" "/p.jpg" "" 5
    shot_store_invariant shot_revisions H eq_refl _)).
  intros i [].
Defined.

(** Two cameras see one object: no lease. *)
Example two_candidates :
  pm_kind (trigger_resolve "cam1" "ch1" "7" 2000
    (mkCorrelationDb true
       (mkStore ∅ ∅ 1 ∅ ∅ ∅ ∅ ∅ {["c1" := shot_binding; "c2" := shot_binding]} []) [])) = Ambiguous.
Proof. vm_compute. reflexivity. Qed.

Notation shot_packets := ["<a/></tt:Metadata"; "Stream><b/>"].
Example metadata_framing_witness :
  receive_packets shot_packets "" = (["<a/></tt:MetadataStream>"], "<b/>") /\
  receive_packets shot_packets "" = documents_of (join_packets shot_packets).
Proof.
  split; [vm_compute; reflexivity|]. apply (metadata_framing shot_packets).
  intros [|[|[|n]]]; vm_compute; discriminate.
Defined.

(** A document with a plate and a bicycle. *)
Definition shot_document : string :=
  "<x><tt:Object ObjectId=" +:+ dquote +:+ "7" +:+ dquote +:+
  "><tt:Type>LicensePlate</tt:Type><tt:ImageRef>/img/7.jpg</tt:ImageRef><tt:PlateNumber>12A</tt:PlateNumber></tt:Object>" +:+
  "<tt:Object ObjectId=" +:+ dquote +:+ "8" +:+ dquote +:+ "><tt:Type>Bicycle</tt:Type></tt:Object></x>".

Notation shot_metadata := (make_metadata "cam1" "ch1" (hd "" (document_objects (String.length shot_document) shot_document))
                             "rtsp://u:p@host:554/1" true 1500).

Example shot_document_objects :
  length (document_objects (String.length shot_document) shot_document) = 2%nat /\
  (md_objectId shot_metadata, md_imageRef shot_metadata, md_plateText shot_metadata) = ("7", "/img/7.jpg", "12A") /\
  parseRtspAddress "rtsp://u:p@host:554/1" = mkAddress "u" "p" "host".
Proof. vm_compute. auto. Qed.

Notation plate_shot :=
  (mkMetadata "bestshot:1" "k7" "cam1" "ch1" "7" "/img/7.jpg" "12A" "rtsp://u:p@host:554/1" PlateEvidence 1500).
Notation shot_receiver := (mkReceiver [] ∅ ∅ shot_db ∅ []).
Definition shot_outside (first second : SqlOutcome) (now : Z) : Outside :=
  mkOutside None now now None Downloaded (fun d => d) first now 5 second now 6 None.

Lemma shot_quiet first second now : quiet (shot_outside first second now).
Proof. done. Qed.

Lemma shot_resolves now :
  now = 2000 \/ now = 3000 ->
  pm_lease (trigger_resolve (md_cameraId plate_shot) (md_channelId plate_shot) (md_objectId plate_shot) now
    (rv_db shot_receiver)) = Some shot_lease.
Proof. intros [-> | ->]; vm_compute; reflexivity. Qed.

Example quarantine_bounded_witness :
  quarantine_ok 2 ([], shot_receiver) /\
  quarantine_ok 2 ([], (enqueuePending 2 plate_shot shot_receiver).2).
Proof.
  assert (H : quarantine_ok 2 ([], shot_receiver)) by (split; [constructor|done|cbn; lia]).
  split; [exact H|].
  pose proof (proj1 (quarantine_bounded "shots" 2 8000 ([], shot_receiver) H)) as Hr.
  specialize (Hr ([], (processOne "shots" 2 8000 plate_shot true
    (mkOutside (Some "busy") 2000 2000 None Downloaded (fun d => d) SqlRuns 0 0 SqlRuns 0 0 None) shot_receiver).2)).
  apply Hr, rtc_once. constructor.
Defined.

Example lost_outcome_reconciled_witness :
  pr_code (processOne "shots" 2 8000 plate_shot true (shot_outside (SqlCommitLost "io") SqlRuns 2000) shot_receiver).1 =
    ProcessAlreadyAttached /\
  rv_ocr (processOne "shots" 2 8000 plate_shot true (shot_outside (SqlCommitLost "io") SqlRuns 2000) shot_receiver).2 = [].
Proof.
  pose proof (lost_outcome_reconciled "shots" 2 8000 plate_shot true (shot_outside (SqlCommitLost "io") SqlRuns 2000)
    shot_receiver shot_lease "io" (shot_quiet _ _ _) (shot_resolves 2000 (or_introl eq_refl)) (not_elem_of_empty _) eq_refl) as [H _].
  destruct H as (H1 & H2 & _); [reflexivity|vm_compute; reflexivity|]. exact (conj H1 H2).
Defined.

Example repeated_plate_after_ocr_witness :
  exists r1, r1 = (processOne "shots" 2 8000 plate_shot true (shot_outside SqlRuns SqlRuns 2000) shot_receiver).2 /\
  pr_attachCode (processOne "shots" 2 8000 plate_shot true (shot_outside SqlRuns SqlRuns 3000)
    (rv_set_db r1 (ocr_on_shots (shot_destination "shots" plate_shot "c1") "34B" (rv_db r1)))).1 = AttachConflict.
Proof.
  eexists. split; [reflexivity|].
  pose proof (repeated_plate_after_ocr "shots" 2 8000 plate_shot true true (shot_outside SqlRuns SqlRuns 2000)
    (shot_outside SqlRuns SqlRuns 3000) shot_receiver shot_lease (shot_quiet _ _ _) eq_refl (shot_quiet _ _ _) eq_refl
    (not_elem_of_empty _) (shot_resolves 2000 (or_introl eq_refl)) (shot_resolves 3000 (or_intror eq_refl))) as [_ H];
    [vm_compute; reflexivity|].
  destruct (H "34B") as (_ & H2 & _); [discriminate|]. exact H2.
Defined.
