(* ===== verification/EntranceService.v ===== *)
(** The vehicle service of the entrance, [src/entrance/EntranceVehicleService.cpp], over the coordinator and the
    deduplicator of [Entrance] and the tables of [EntranceDb], with the ports that main.cpp gives it. The ingress, the
    callbacks of the EV and OCR workers and the clean-up run in different threads, so each of them is an activity
    that is advanced one call at a time. *)
From S2P Require Import Prelude OccupancyDb Doubles ParkingDb Entrance EntranceDb.

(** * Data *)

(** [include/entrance/EntranceEvWorker.hpp:21-31 EntranceEvResult] *)
Record EntranceEvResult := mkEvResult {
  er_isEv : option bool;
  er_decision : string;
  er_reason : string;
  er_modelVersion : string;
  er_processingMs : double;
  er_resultPath : string;
  er_error : string;
  er_runtimeSucceeded : bool
}.

(** The part of [include/ocr/OcrWorker.hpp:43-55] that the service reads. *)
Record GenericOcrResult := mkOcrResult {
  gr_recognized : bool;
  gr_plate_number : string;
  gr_confidence : double;
  gr_error_message : string;
  gr_attempts : Z
}.

(** What a thread of the service still has to do for one object, from its next call on; the last two are calls of
    [failEvent] whose object is already marked, and clean-ups. *)
Inductive Activity :=
| InDownload (event : BestShotEvent)
| InCreate (event : BestShotEvent) (fingerprinted : bool)
| InBind (event : BestShotEvent) (fingerprinted : bool) (id : Z)
| InSave (event : BestShotEvent) (id : Z)
| InMark (event : BestShotEvent) (id : Z)
| InEnqueue (event : BestShotEvent) (id : Z)
| EvJob (key : ObjectKey) (id : Z) (image directory : string)
| EvSave (key : ObjectKey) (id : Z) (image directory : string) (result : EntranceEvResult)
| EvMark (key : ObjectKey) (id : Z) (image directory : string)
| EvEnqueue (key : ObjectKey) (id : Z) (image directory : string)
| OcrJob (key : ObjectKey) (image directory : string)
| OcrBegin (key : ObjectKey) (id : Z) (directory : string) (result : GenericOcrResult)
| OcrFinish (key : ObjectKey) (id : Z) (directory : string) (result : GenericOcrResult)
| OcrComplete (key : ObjectKey) (id : Z) (directory : string) (success : bool)
| FailFinish (id : Z) (reason : string)
| CleanUp (id : Z) (directory : string).

(** The state that the threads share. *)
Record Service := mkService {
  sv_coord : CoordEntries;
  sv_dedup : list DedupRecord;
  sv_db : EntranceDb;
  sv_dirs : gset string;
  sv_trash : gset string
}.
Definition sv_set_coord (s : Service) x := mkService x (sv_dedup s) (sv_db s) (sv_dirs s) (sv_trash s).
Definition sv_set_dedup (s : Service) x := mkService (sv_coord s) x (sv_db s) (sv_dirs s) (sv_trash s).
Definition sv_set_db (s : Service) x := mkService (sv_coord s) (sv_dedup s) x (sv_dirs s) (sv_trash s).
Definition sv_set_dirs (s : Service) x := mkService (sv_coord s) (sv_dedup s) (sv_db s) x (sv_trash s).
Definition sv_set_trash (s : Service) x := mkService (sv_coord s) (sv_dedup s) (sv_db s) (sv_dirs s) x.

(** What a step meets outside: the file system and the downloader, the fingerprint of the picture, whether SQLite runs the
    statement, the queues, the workers' results, the clock and the identifier of a new vehicle. *)
Record StepOutside := mkStepOutside {
  so_now : Z;
  so_downloaded : bool;
  so_fingerprint : option (list Z);
  so_sql : bool;
  so_queued : bool;
  so_ev : EntranceEvResult;
  so_ocr : GenericOcrResult;
  so_new_vehicle : Z;
  so_directory_found : option bool;
  so_renamed : bool;
  so_restored : bool;
  so_trash_removed : bool
}.

(** * Paths *)

(** [src/entrance/EntranceVehicleService.cpp:17-28 safeComponent] *)
Definition safeComponent (value : string) : string :=
  let result := smap (fun c => if isalnum c || bool_decide (c = "-"%char) || bool_decide (c = "_"%char) then c else "_"%char)
                  value in
  if is_empty result then "unknown" else result.

Fixpoint last_is_slash (s : string) : bool :=
  match s with "" => false | String c "" => bool_decide (c = "/"%char) | String _ rest => last_is_slash rest end.
(** std::filesystem::path's operator/ for a relative right side. *)
Definition join (a b : string) : string := if is_empty a || last_is_slash a then a +:+ b else a +:+ "/" +:+ b.

(** [src/entrance/EntranceVehicleService.cpp:344-352 EntranceVehicleService::imagePath] The directory of the work and the picture in it. *)
Definition workDirectory (output_root : string) (event : BestShotEvent) : string :=
  let key := bse_key event in
  join (join (join output_root ".work") (safeComponent (ok_channelId key)))
    (safeComponent (ok_cameraId key) +:+ "_" +:+ safeComponent (ok_objectId key) +:+ "_" +:+
     pretty (bse_receivedAtEpochMs event)).
Definition imagePath (output_root : string) (event : BestShotEvent) : string :=
  join (workDirectory output_root event) "plate.jpg".

Definition raw_components (s : string) : list string := getline_fields "/" s.

(** The components of a path after std::filesystem::absolute and lexically_normal; a path that ends in a separator ends
    in an empty component. *)
Fixpoint normal_from (acc raw : list string) (trailing : bool) : list string * bool :=
  match raw with
  | [] => (acc, trailing)
  | c :: rest =>
      if bool_decide (c = "") then normal_from acc rest trailing
      else if bool_decide (c = ".") then normal_from acc rest true
      else if bool_decide (c = "..") then normal_from (removelast acc) rest true
      else normal_from (acc ++ [c]) rest false
  end.
Definition normal_components (cwd : list string) (path : string) : list string :=
  let start := match path with String "/" _ => [] | _ => cwd end in
  let '(parts, trailing) := normal_from start (raw_components path) false in
  if (trailing || last_is_slash path) && negb (bool_decide (parts = [])) then parts ++ [""] else parts.

Fixpoint components_inside (root candidate : list string) : bool :=
  match root, candidate with
  | [], [] => false
  | [], _ :: _ => true
  | r :: root', c :: candidate' => bool_decide (r = c) && components_inside root' candidate'
  | _ :: _, [] => false
  end.

(** [src/entrance/EntranceVehicleService.cpp:34-47 isInside] *)
Definition isInside (cwd : list string) (root candidate : string) : bool :=
  components_inside (normal_components cwd root) (normal_components cwd candidate).

(** std::filesystem::path's parent_path and filename of a path without a trailing or a doubled separator. *)
Fixpoint split_last (s : string) : option (string * string) :=
  match s with
  | "" => None
  | String c rest =>
      match split_last rest with
      | Some (a, b) => Some (String c a, b)
      | None => if bool_decide (c = "/"%char) then Some ("", rest) else None
      end
  end.
Definition parent_path (s : string) : string :=
  match split_last s with Some ("", _) => "/" | Some (a, _) => a | None => "" end.
Definition file_name (s : string) : string := match split_last s with Some (_, b) => b | None => s end.

(** [src/entrance/EntranceVehicleService.cpp:414-425 EntranceVehicleService::artifactDirectory] *)
Definition artifactDirectory (record : EntranceArtifactRecord) : string :=
  if negb (is_empty (ar_plate_image_path record)) then parent_path (ar_plate_image_path record) else
  if negb (is_empty (ar_vision_result_path record)) then
    let parent := parent_path (ar_vision_result_path record) in
    if bool_decide (file_name parent = "ev_analysis") then parent_path parent else parent
  else "".

(** * The ingress *)

Section Service.
(** The configuration of the coordinator, the deduplicator and the service. *)
Variables (objectTtlMs : Z) (coordCapacity : nat) (windowMs hammingThreshold : Z) (dedupCapacity : nat).
Variables (outputRoot : string) (cwd : list string) (deleteArtifactsOnSuccess : bool) (failureRetentionMs : Z).

(** A statement that fails changes nothing and answers [error]. *)
Definition sql {A} (works : bool) (error : A) (op : EntranceDb -> A * EntranceDb) (s : Service) : A * Service :=
  if works then let '(a, d) := op (sv_db s) in (a, sv_set_db s d) else (error, s).

Definition remove_work (event : BestShotEvent) (s : Service) : Service :=
  sv_set_dirs s (sv_dirs s ∖ {[workDirectory outputRoot event]}).

(** [src/entrance/EntranceVehicleService.cpp:223-229 EntranceVehicleService::failEvent] Its call of the database is an activity of its
    own. *)
Definition failEvent (id : Z) (key : ObjectKey) (reason : string) (s : Service) : list Activity * Service :=
  let '(failed, m) := coord_fail key (sv_coord s) in
  (if failed && (0 <=? id) then [FailFinish id reason] else [], sv_set_coord s m).

(** [src/entrance/EntranceVehicleService.cpp:84-108 EntranceVehicleService::handle] Up to the download: the answer to the router. *)
Definition handle_begin (event : BestShotEvent) (s : Service) : bool * list Activity * Service :=
  if bool_decide (bse_kind event <> PlateShot) then (true, [], s) else
  let '(observed, m) := coord_observe objectTtlMs coordCapacity event (sv_coord s) in
  let s := sv_set_coord s m in
  match obr_code observed with
  | ObservedInvalid => (false, [], s)
  | ObservedIgnored | CapacityRejected | DuplicateSuppressed => (true, [], s)
  | ObservedQueued => if obr_newObject observed then (true, [InDownload event], s) else (true, [], s)
  end.

(** [src/entrance/EntranceVehicleService.cpp:110-152 EntranceVehicleService::handle] The download and the deduplicator. *)
Definition in_download (event : BestShotEvent) (o : StepOutside) (s : Service) : list Activity * Service :=
  let key := bse_key event in
  if negb (so_downloaded o)
  then ([], remove_work event (sv_set_coord s (coord_fail key (sv_coord s)).2)) else
  let s := sv_set_dirs s (sv_dirs s ∪ {[workDirectory outputRoot event]}) in
  let '(dedup, rs) := dedup_observe windowMs hammingThreshold dedupCapacity key (so_fingerprint o)
                        (bse_receivedAtEpochMs event) (sv_dedup s) in
  let s := sv_set_dedup s rs in
  if idr_fingerprinted dedup && idr_duplicate dedup then
    let s := remove_work event (sv_set_coord s (markImageDuplicate key (sv_coord s)).2) in
    ([], match idr_canonicalEventId dedup with
         | Some id => (sql (so_sql o) false (incrementEntranceDuplicateCount (so_now o) id) s).2
         | None => s
         end)
  else ([InCreate event (idr_fingerprinted dedup)], s).

(** [src/entrance/EntranceVehicleService.cpp:154-164 EntranceVehicleService::handle] The row of the recognition. *)
Definition in_create (event : BestShotEvent) (fingerprinted : bool) (o : StepOutside) (s : Service)
    : list Activity * Service :=
  let key := bse_key event in
  let '(id, s) := sql (so_sql o) (-1) (createEntranceRecognition (ok_cameraId key) (ok_channelId key) (ok_objectId key)
                    (bse_receivedAtEpochMs event)) s in
  if id <? 0 then ([], remove_work event (sv_set_coord s (coord_fail key (sv_coord s)).2))
  else ([InBind event fingerprinted id], s).

(** [src/entrance/EntranceVehicleService.cpp:166-179 EntranceVehicleService::handle] The row's number in the coordinator and the
    deduplicator. *)
Definition in_bind (event : BestShotEvent) (fingerprinted : bool) (id : Z) (s : Service) : list Activity * Service :=
  let key := bse_key event in
  let '(bound, m) := coord_bindEventId key id (sv_coord s) in
  let s := sv_set_coord s m in
  let '(bound2, rs) := if bound && fingerprinted then dedup_bindEventId key id (sv_dedup s) else (bound, sv_dedup s) in
  let s := sv_set_dedup s rs in
  if bound && bound2 then ([InSave event id], s) else
  let '(acts, s) := failEvent id key "Entrance event binding failed" s in (acts, remove_work event s).

(** [src/entrance/EntranceVehicleService.cpp:181-187 EntranceVehicleService::handle] The path of the picture. *)
Definition in_save (event : BestShotEvent) (id : Z) (o : StepOutside) (s : Service) : list Activity * Service :=
  let '(saved, s) := sql (so_sql o) false (updateEntranceImage (so_now o) id true (imagePath outputRoot event)) s in
  if saved then ([InMark event id], s) else
  let '(acts, s) := failEvent id (bse_key event) "Plate image path persistence failed" s in (acts, remove_work event s).

(** [src/entrance/EntranceVehicleService.cpp:189-197 EntranceVehicleService::handle] The right to analyse the picture. *)
Definition in_mark (event : BestShotEvent) (id : Z) (s : Service) : list Activity * Service :=
  let '(marked, m) := markEvProcessing (bse_key event) (sv_coord s) in
  let s := sv_set_coord s m in
  if marked then ([InEnqueue event id], s)
  else failEvent id (bse_key event) "EV processing state transition failed" s.

(** [src/entrance/EntranceVehicleService.cpp:199-221 EntranceVehicleService::handle] The queue of the EV worker. *)
Definition in_enqueue (event : BestShotEvent) (id : Z) (o : StepOutside) (s : Service) : list Activity * Service :=
  if so_queued o
  then ([EvJob (bse_key event) id (imagePath outputRoot event) (workDirectory outputRoot event)], s)
  else failEvent id (bse_key event) "EV analysis queue rejected" s.

(** * The callbacks *)

(** [src/main.cpp:1052-1064 ports.saveEvAnalysis] *)
Definition analysis_of (r : EntranceEvResult) : EntranceVisionAnalysis :=
  mkEntranceVisionAnalysis (er_isEv r) (er_decision r) (er_reason r) (er_modelVersion r) (er_processingMs r)
    (er_resultPath r) (er_error r).

(** [src/main.cpp:1040-1051 ports.finishEvent] *)
Definition finish_port (id : Z) (plate : string) (confidence : double) (attempts : Z) (error : string) (o : StepOutside)
    (s : Service) : bool * Service :=
  let '(classification, s) := sql (so_sql o) "DB_ERROR"
    (finishEntranceRecognition (so_now o) (so_new_vehicle o) id plate confidence attempts error) s in
  (negb (bool_decide (classification = "DB_ERROR")), s).

(** [src/entrance/EntranceVehicleService.cpp:231-237 EntranceVehicleService::handleEvResult] The right to the result. *)
Definition ev_job (key : ObjectKey) (id : Z) (image directory : string) (o : StepOutside) (s : Service)
    : list Activity * Service :=
  let '(marked, m) := markOcrQueued key (sv_coord s) in
  (if marked then [EvSave key id image directory (so_ev o)] else [], sv_set_coord s m).

(** [src/entrance/EntranceVehicleService.cpp:238-260 EntranceVehicleService::handleEvResult] The result in the row. *)
Definition ev_save (key : ObjectKey) (id : Z) (image directory : string) (result : EntranceEvResult) (o : StepOutside)
    (s : Service) : list Activity * Service :=
  let '(persisted, s) := sql (so_sql o) false (updateEntranceVisionAnalysis (so_now o) id (analysis_of result)) s in
  if negb persisted then failEvent id key "EV result persistence failed" s else
  if negb (er_runtimeSucceeded result) || bool_decide (er_isEv result = None)
  then failEvent id key (if is_empty (er_error result) then "EV icon decision unavailable" else er_error result) s
  else ([EvMark key id image directory], s).

(** [src/entrance/EntranceVehicleService.cpp:262-265 EntranceVehicleService::handleEvResult] The right to read the plate. *)
Definition ev_mark (key : ObjectKey) (id : Z) (image directory : string) (s : Service) : list Activity * Service :=
  let '(marked, m) := markOcrProcessing key (sv_coord s) in
  let s := sv_set_coord s m in
  if marked then ([EvEnqueue key id image directory], s)
  else failEvent id key "OCR processing state transition failed" s.

(** [src/entrance/EntranceVehicleService.cpp:266-280 EntranceVehicleService::handleEvResult] The queue of the OCR worker. *)
Definition ev_enqueue (key : ObjectKey) (id : Z) (image directory : string) (o : StepOutside) (s : Service)
    : list Activity * Service :=
  if so_queued o then ([OcrJob key image directory], s)
  else failEvent id key "OCR queue rejected entrance object" s.

(** [src/entrance/EntranceVehicleService.cpp:303-316 EntranceVehicleService::handleOcrResult] The row of the object. *)
Definition ocr_job (key : ObjectKey) (directory : string) (o : StepOutside) (s : Service) : list Activity * Service :=
  match coord_eventId key (sv_coord s) with
  | None => ([], s)
  | Some id =>
      if negb (gr_recognized (so_ocr o))
      then failEvent id key
             (if is_empty (gr_error_message (so_ocr o)) then "Gemini OCR did not recognize a plate"
              else gr_error_message (so_ocr o)) s
      else ([OcrBegin key id directory (so_ocr o)], s)
  end.

(** [src/entrance/EntranceVehicleService.cpp:317-318 EntranceVehicleService::handleOcrResult] The right to finish. *)
Definition ocr_begin (key : ObjectKey) (id : Z) (directory : string) (result : GenericOcrResult) (s : Service)
    : list Activity * Service :=
  let '(begun, m) := beginFinalization key (sv_coord s) in
  (if begun then [OcrFinish key id directory result] else [], sv_set_coord s m).

(** [src/entrance/EntranceVehicleService.cpp:319-323 EntranceVehicleService::handleOcrResult] The plate in the row. *)
Definition ocr_finish (key : ObjectKey) (id : Z) (directory : string) (result : GenericOcrResult) (o : StepOutside)
    (s : Service) : list Activity * Service :=
  let '(success, s) := finish_port id (gr_plate_number result) (gr_confidence result) (gr_attempts result)
                         (gr_error_message result) o s in
  ([OcrComplete key id directory success], s).

(** [src/entrance/EntranceVehicleService.cpp:323-342 EntranceVehicleService::handleOcrResult] The end of the object. *)
Definition ocr_complete (key : ObjectKey) (id : Z) (directory : string) (success : bool) (s : Service)
    : list Activity * Service :=
  let '(completed, m) := if success then coord_complete key (sv_coord s) else (false, sv_coord s) in
  let s := sv_set_coord s m in
  if completed then (if deleteArtifactsOnSuccess then [CleanUp id directory] else [], s)
  else failEvent id key "Entrance vehicle DB finalization failed" s.

(** * The clean-up *)

Definition trash_name (id now : Z) : string :=
  join (join outputRoot ".trash") ("event_" +:+ pretty id +:+ "_" +:+ pretty now).

(** [src/entrance/EntranceVehicleService.cpp:354-392 EntranceVehicleService::cleanupArtifacts] [so_directory_found] is the answer of
    fs::exists, [None] for an error. *)
Definition cleanupArtifacts (id : Z) (directory : string) (o : StepOutside) (s : Service) : bool * Service :=
  let mark := sql (so_sql o) false (markEntranceArtifactsDeleted (so_now o) id) in
  if id <? 0 then (false, s) else
  if is_empty directory then mark s else
  if negb (isInside cwd outputRoot directory) then (false, s) else
  match so_directory_found o with
  | None => (false, s)
  | Some false => mark s
  | Some true =>
      if negb (so_renamed o) then (false, s) else
      let trash := trash_name id (so_now o) in
      let moved := sv_set_trash (sv_set_dirs s (sv_dirs s ∖ {[directory]})) (sv_trash s ∪ {[trash]}) in
      let '(marked, s1) := mark moved in
      if negb marked
      then (false, if so_restored o
                   then sv_set_trash (sv_set_dirs s1 (sv_dirs s1 ∪ {[directory]})) (sv_trash s1 ∖ {[trash]}) else s1)
      else (true, if so_trash_removed o then sv_set_trash s1 (sv_trash s1 ∖ {[trash]}) else s1)
  end.

Fixpoint cleanup_records (records : list EntranceArtifactRecord) (outside : nat -> StepOutside) (s : Service) : Service :=
  match records with
  | [] => s
  | r :: rest =>
      let s1 := if bool_decide (ar_terminal_state r = "COMPLETED") && negb deleteArtifactsOnSuccess then s
                else (cleanupArtifacts (ar_event_id r) (artifactDirectory r) (outside O) s).2 in
      cleanup_records rest (fun i => outside (S i)) s1
  end.

(** [src/entrance/EntranceVehicleService.cpp:394-412 EntranceVehicleService::cleanupDueArtifacts] *)
Definition cleanupDueArtifacts (now : Z) (outside : nat -> StepOutside) (s : Service) : Service :=
  let s := cleanup_records (listEntranceArtifactsForCleanup (now - failureRetentionMs) (sv_db s)) outside s in
  sv_set_trash s ∅.

(** [src/entrance/EntranceVehicleService.cpp:282-301 EntranceVehicleService::cleanupLoop] The sweep of one round; the calls of the database
    for the expired objects follow one by one. *)
Definition sweep_round (now : Z) (s : Service) : list Activity * Service :=
  let '(gone, m) := coord_sweep objectTtlMs now (sv_coord s) in
  (omap (fun x => if 0 <=? exo_eventId x then Some (FailFinish (exo_eventId x) "entrance plate processing TTL expired") else None) gone,
   sv_set_coord s m).

(** * Activities *)

(** One call of an activity, and what is left of it. *)
Definition advance (a : Activity) (o : StepOutside) (s : Service) : list Activity * Service :=
  match a with
  | InDownload event => in_download event o s
  | InCreate event fingerprinted => in_create event fingerprinted o s
  | InBind event fingerprinted id => in_bind event fingerprinted id s
  | InSave event id => in_save event id o s
  | InMark event id => in_mark event id s
  | InEnqueue event id => in_enqueue event id o s
  | EvJob key id image directory => ev_job key id image directory o s
  | EvSave key id image directory result => ev_save key id image directory result o s
  | EvMark key id image directory => ev_mark key id image directory s
  | EvEnqueue key id image directory => ev_enqueue key id image directory o s
  | OcrJob key image directory => ocr_job key directory o s
  | OcrBegin key id directory result => ocr_begin key id directory result s
  | OcrFinish key id directory result => ocr_finish key id directory result o s
  | OcrComplete key id directory success => ocr_complete key id directory success s
  | FailFinish id reason => ([], (finish_port id "" d_zero 0 reason o s).2)
  | CleanUp id directory => ([], (cleanupArtifacts id directory o s).2)
  end.

(** The activities of the ingress thread, which holds [ingressMutex_]. *)
Definition is_ingress (a : Activity) : bool :=
  match a with
  | InDownload _ | InCreate _ _ | InBind _ _ _ | InSave _ _ | InMark _ _ | InEnqueue _ _ => true
  | _ => false
  end.

(** The ingress thread alone, until it leaves the service. *)
Fixpoint ingress_run (fuel : nat) (acts : list Activity) (outside : nat -> StepOutside) (s : Service)
    : list Activity * Service :=
  match fuel, acts with
  | S fuel', [a] =>
      if is_ingress a then
        let '(acts', s') := advance a (outside O) s in ingress_run fuel' acts' (fun i => outside (S i)) s'
      else (acts, s)
  | _, _ => (acts, s)
  end.

(** [src/entrance/EntranceVehicleService.cpp:84-221 EntranceVehicleService::handle] Without other threads in between. *)
Definition service_handle (event : BestShotEvent) (outside : nat -> StepOutside) (s : Service) : bool * list Activity * Service :=
  let '(answer, acts, s) := handle_begin event s in
  let '(acts, s) := ingress_run 6 acts outside s in (answer, acts, s).

(** * The router *)

(** [src/main.cpp:1088-1106 entrance_router] *)
Definition entrance_router (camera_id source_channel channel : string) (bestshot_enabled : bool)
    (metadata_camera metadata_channel object_id : string) (plate : bool) (image_ref rtsp_url : string) (received : Z)
    (s : Service) : bool * list Activity * Service :=
  if negb (bool_decide (metadata_camera = camera_id)) || negb (bool_decide (metadata_channel = source_channel))
  then (negb bestshot_enabled, [], s)
  else handle_begin (mkBestShotEvent (mkObjectKey metadata_camera channel object_id)
                       (if plate then PlateShot else VehicleShot) image_ref rtsp_url received) s.
End Service.
