(* ===== verification/EntranceServiceInv.v ===== *)
(** The entrance under any interleaving of its threads: what the calls of the database do to the rows, the invariant that
    ties activities, objects and rows together, and that a call of one activity keeps it. *)
From S2P Require Import Prelude OccupancyDb Doubles ParkingDb Entrance EntranceDb EntranceService.

(** * The rows of the recognitions *)

Definition row_key (r : RecognitionRow) : ObjectKey := mkObjectKey (rr_camera r) (rr_channel r) (rr_object r).

(** What a completed recognition says. *)
Definition outcome (r : RecognitionRow)
    : RecognitionState * option string * option Z * option string * option bool * option double :=
  (rr_state r, rr_plate_number r, rr_vehicle_id r, rr_classification r, rr_resolved_is_ev r, rr_confidence r).

Definition completed (d : EntranceDb) (id : Z) : Prop :=
  exists r, ed_events d !! id = Some r /\ rr_state r = RCompleted.

Definition numbered (d : EntranceDb) : Prop :=
  0 <= ed_event_seq d /\ forall id r, ed_events d !! id = Some r -> 0 < id <= ed_event_seq d.

(** A call of the database that may write the outcome of the rows [W] and complete the rows [C]. *)
Record rows_step (W C : Z -> Prop) (d d' : EntranceDb) : Prop := {
  rs_old : forall id r, ed_events d !! id = Some r ->
    exists r', ed_events d' !! id = Some r' /\ row_key r' = row_key r /\
      (rr_state r = RCompleted -> ~ W id -> outcome r' = outcome r);
  rs_done : forall id, completed d' id -> completed d id \/ C id;
  rs_numbered : numbered d -> numbered d'
}.

Definition none (id : Z) : Prop := False.
Definition only (i id : Z) : Prop := id = i.

Lemma rows_step_refl W C d : rows_step W C d d.
Proof. split; [intros id r Hr; by exists r|by left|done]. Qed.

Lemma rows_step_weaken (W W' C C' : Z -> Prop) d d' :
  (forall id, W id -> W' id) -> (forall id, C id -> C' id) -> rows_step W C d d' -> rows_step W' C' d d'.
Proof.
  intros HW HC [H1 H2 H3]. split; [|naive_solver|done]. intros id r Hr.
  destruct (H1 id r Hr) as (r' & ? & ? & Ho). exists r'. split; [done|]. split; [done|]. intros Hs Hn. apply Ho; [done|].
  intros Hw. by apply Hn, HW.
Qed.

Lemma update_event_step (W C : Z -> Prop) id f d :
  (forall r, row_key (f r) = row_key r) ->
  (forall r, rr_state r = RCompleted -> W id \/ outcome (f r) = outcome r) ->
  (forall r, rr_state (f r) = RCompleted -> rr_state r = RCompleted \/ C id) ->
  rows_step W C d (update_event id f d).2.
Proof.
  intros Hk Ho Hs. unfold update_event. destruct (ed_events d !! id) as [r0|] eqn:E; [|apply rows_step_refl].
  split; cbn.
  - intros id' r Hr. destruct (decide (id = id')) as [<-|Hne].
    + rewrite lookup_insert_eq. exists (f r0). rewrite E in Hr. injection Hr as ->.
      split; [done|]. split; [done|]. intros Hc Hn. by destruct (Ho r Hc).
    + rewrite lookup_insert_ne by done. by exists r.
  - intros id' (r' & Hr' & Hc). cbn in Hr'. apply lookup_insert_Some in Hr' as [[-> <-]|[Hne Hr']]; [|left; by exists r'].
    destruct (Hs r0 Hc); [left; by exists r0|by right].
  - intros [Hn1 Hn2]. split; [done|]. cbn. intros id' r [[-> _]|[_ Hr]]%lookup_insert_Some; [by apply (Hn2 _ r0)|by apply (Hn2 _ r)].
Qed.

Lemma increment_step now id d : rows_step none none d (incrementEntranceDuplicateCount now id d).2.
Proof.
  unfold incrementEntranceDuplicateCount. case_match; [apply rows_step_refl|].
  apply update_event_step; [done|by right|by left].
Qed.

Lemma image_step now id plate path d : rows_step none none d (updateEntranceImage now id plate path d).2.
Proof.
  unfold updateEntranceImage. case_match; [apply rows_step_refl|].
  apply update_event_step; [done|by right|by left].
Qed.

Lemma deletion_step now id d : rows_step none none d (markEntranceArtifactsDeleted now id d).2.
Proof.
  unfold markEntranceArtifactsDeleted. case_match; [apply rows_step_refl|].
  apply update_event_step; [done| |].
  - intros r Hc. right. unfold outcome, with_deletion. cbn. by rewrite Hc.
  - intros r. cbn. destruct (rr_state r); cbn; intros; (by left) || done.
Qed.

Lemma vision_step now id analysis d : rows_step (only id) none d (updateEntranceVisionAnalysis now id analysis d).2.
Proof.
  unfold updateEntranceVisionAnalysis. case_match; [apply rows_step_refl|]. case_match; [apply rows_step_refl|].
  apply update_event_step; [done|by left|done].
Qed.

Lemma events_step W C d d1 d' : ed_events d1 = ed_events d -> ed_event_seq d1 = ed_event_seq d -> rows_step W C d1 d' -> rows_step W C d d'.
Proof.
  intros E1 E2 [H1 H2 H3]. unfold completed, numbered in *. rewrite E1, E2 in *. by split.
Qed.

Lemma or_rollback_step W C (answer : string) (r : bool * EntranceDb) d :
  rows_step W C d r.2 -> rows_step W C d (if r.1 then (answer, r.2) else ("DB_ERROR", d)).2.
Proof. destruct r as [[] d']; [done|]. intros _. apply rows_step_refl. Qed.

(** Only a call with a plate can complete the row. *)
Lemma finish_step now new_vehicle id plate confidence attempts error d :
  rows_step (only id) (if is_empty plate then none else only id) d
    (finishEntranceRecognition now new_vehicle id plate confidence attempts error d).2.
Proof.
  unfold finishEntranceRecognition. destruct (negb _ || _); [apply rows_step_refl|]. cbv zeta.
  destruct (is_empty plate).
  { apply or_rollback_step, update_event_step; [done|by left|done]. }
  destruct (ed_events d !! id) as [r|] eqn:E; [|apply rows_step_refl].
  destruct (rr_vision_is_ev r) as [is_ev|].
  - destruct (upsert_vehicle _ _ _ _) as [vehicle p] eqn:Eu. apply or_rollback_step.
    apply (events_step _ _ d (ed_set_parking d p)); [done|done|].
    apply update_event_step; [done|by left|by right].
  - apply or_rollback_step, update_event_step; [done|by left|done].
Qed.

Lemma create_step camera channel object first_seen d :
  let '(id, d') := createEntranceRecognition camera channel object first_seen d in
  (id = -1 /\ d' = d) \/
  (id = ed_event_seq d + 1 /\ (exists r, ed_events d' !! id = Some r /\ row_key r = mkObjectKey camera channel object) /\
   (numbered d -> rows_step none none d d')).
Proof.
  unfold createEntranceRecognition. destruct (negb _ || _ || _ || _); [by left|]. right. split; [done|]. split.
  { eexists. cbn. by rewrite lookup_insert_eq. }
  intros Hn. pose proof Hn as [Hn1 Hn2]. split; cbn.
  - intros id r Hr. exists r. rewrite lookup_insert_ne; [done|]. intros <-. apply Hn2 in Hr. lia.
  - intros id (r' & Hr' & Hc). cbn in Hr'. apply lookup_insert_Some in Hr' as [[<- <-]|[_ Hr']]; [done|]. left. by exists r'.
  - intros _. split; cbn; [lia|]. intros id r Hr. apply lookup_insert_Some in Hr as [[<- _]|[_ Hr]]; [lia|].
    apply Hn2 in Hr. lia.
Qed.

Lemma rows_step_trans W C d1 d2 d3 :
  rows_step none none d1 d2 -> rows_step W C d2 d3 -> rows_step W C d1 d3.
Proof.
  intros [A1 A2 A3] [B1 B2 B3].
  split; [|intros id Hc; destruct (B2 id Hc) as [H|H]; [destruct (A2 id H) as [|[]]; by left|by right]|auto].
  intros id r Hr. destruct (A1 id r Hr) as (r2 & Hr2 & K2 & O2). destruct (B1 id r2 Hr2) as (r3 & Hr3 & K3 & O3).
  exists r3. split; [done|]. split; [congruence|]. intros Hc Hw. assert (O : outcome r2 = outcome r) by (apply O2; [done|intros []]).
  rewrite <- O. apply O3; [|done]. unfold outcome in O. congruence.
Qed.

Lemma sql_step {A} W C works (error : A) op s :
  (forall d, rows_step W C d (op d).2) -> rows_step W C (sv_db s) (sv_db (sql works error op s).2).
Proof.
  intros H. unfold sql. destruct works; [|apply rows_step_refl]. specialize (H (sv_db s)). by destruct (op (sv_db s)).
Qed.

(** What such a call leaves alone. *)
Lemma sql_frame {A} works (error : A) op s :
  sv_coord (sql works error op s).2 = sv_coord s.
Proof. unfold sql. destruct works; [|done]. by destruct (op (sv_db s)). Qed.

(** * The activities *)

Definition act_key (a : Activity) : option ObjectKey :=
  match a with
  | InDownload event | InCreate event _ | InBind event _ _ | InSave event _ | InMark event _ | InEnqueue event _ =>
      Some (bse_key event)
  | EvJob key _ _ _ | EvSave key _ _ _ _ | EvMark key _ _ _ | EvEnqueue key _ _ _ | OcrJob key _ _ | OcrBegin key _ _ _
  | OcrFinish key _ _ _ | OcrComplete key _ _ _ => Some key
  | FailFinish _ _ | CleanUp _ _ => None
  end.
Definition act_row (a : Activity) : option Z :=
  match a with
  | InDownload _ | InCreate _ _ | OcrJob _ _ _ => None
  | InBind _ _ id | InSave _ id | InMark _ id | InEnqueue _ id | EvJob _ id _ _ | EvSave _ id _ _ _ | EvMark _ id _ _
  | EvEnqueue _ id _ _ | OcrBegin _ id _ _ | OcrFinish _ id _ _ | OcrComplete _ id _ _ | FailFinish id _ | CleanUp id _ =>
      Some id
  end.
(** The state in which the object of an activity is, unless the object has failed meanwhile. *)
Definition held (a : Activity) : ObjectState :=
  match a with
  | InDownload _ | InCreate _ _ | InBind _ _ _ | InSave _ _ | InMark _ _ => EvQueued
  | InEnqueue _ _ | EvJob _ _ _ _ => EvProcessing
  | EvSave _ _ _ _ _ | EvMark _ _ _ _ => OcrQueued
  | EvEnqueue _ _ _ _ | OcrJob _ _ _ | OcrBegin _ _ _ _ => OcrProcessing
  | OcrFinish _ _ _ _ | OcrComplete _ _ _ _ => Finalizing
  | FailFinish _ _ | CleanUp _ _ => ObjectFailed
  end.
(** The activities that come after the row's number was stored in the coordinator. *)
Definition is_bound (a : Activity) : bool :=
  match a with InDownload _ | InCreate _ _ | InBind _ _ _ | OcrJob _ _ _ | FailFinish _ _ | CleanUp _ _ => false | _ => true end.

Definition pool : Type := list Activity * Service.
Notation coord p := (sv_coord p.2).
Notation rows p := (ed_events (sv_db p.2)).

(** An object refers to a row: by its entry, or by what an activity still has to do. *)
Definition refers (p : pool) (key : ObjectKey) (id : Z) : Prop :=
  (exists e, coord p !! key = Some e /\ ce_eventId e = id) \/
  (exists a, a ∈ p.1 /\ act_key a = Some key /\ act_row a = Some id).

(** What the entry of an activity's object looks like. *)
Definition entry_ok (a : Activity) (entry : option CoordEntry) : Prop :=
  match entry with
  | None => held a <> Finalizing
  | Some e => (ce_state e = held a /\ (is_bound a = true -> act_row a = Some (ce_eventId e))) \/
              (ce_state e = ObjectFailed /\ held a <> Finalizing)
  end.

Definition may_end (id : Z) (a : Activity) : Prop :=
  (exists key directory, a = OcrComplete key id directory true) \/ (exists directory, a = CleanUp id directory).

Record sound (p : pool) : Prop := {
  sd_keys : NoDup (omap act_key p.1);
  sd_held : forall a key, a ∈ p.1 -> act_key a = Some key -> entry_ok a (coord p !! key);
  sd_rows : forall key id, 0 <= id -> refers p key id -> exists r, rows p !! id = Some r /\ row_key r = key;
  sd_fail : forall id reason key e, FailFinish id reason ∈ p.1 -> refers p key id -> coord p !! key = Some e ->
    ce_state e = ObjectFailed;
  sd_done : forall id, completed (sv_db p.2) id ->
    (forall key e, coord p !! key = Some e -> ce_eventId e = id -> ce_state e = Finalizing \/ ce_state e = ObjectCompleted) /\
    (forall a, a ∈ p.1 -> act_row a = Some id -> may_end id a);
  sd_numbered : numbered (sv_db p.2);
  sd_row_ids : forall a id, a ∈ p.1 -> act_row a = Some id -> 0 <= id /\ is_Some (rows p !! id)
}.

(** One activity per object. *)
Lemma one_activity l1 a l2 b key :
  NoDup (omap act_key (l1 ++ a :: l2)) -> act_key a = Some key -> b ∈ l1 ++ l2 -> act_key b <> Some key.
Proof.
  intros Hnd Ha Hb Hk. rewrite omap_app in Hnd. cbn in Hnd. rewrite Ha in Hnd.
  rewrite <- Permutation_middle in Hnd. apply NoDup_cons in Hnd as [Hn _]. apply Hn.
  rewrite <- omap_app. apply list_elem_of_omap. by exists b.
Qed.

(** The rows that a step of [a] may touch: its own, that of its object's entry, a new one. *)
Definition touched (p : pool) (a : Activity) (key : ObjectKey) (id : Z) : Prop :=
  act_row a = Some id \/ (exists e, coord p !! key = Some e /\ ce_eventId e = id) \/ rows p !! id = None.

Lemma touched_not_completed l1 a l2 s key id :
  sound (l1 ++ a :: l2, s) -> act_key a = Some key ->
  (forall k i d, a <> OcrComplete k i d true) -> touched (l1 ++ a :: l2, s) a key id -> ~ completed (sv_db s) id.
Proof.
  intros [Hk Hh Hr Hf Hd Hn Hi] Ha Hno Ht Hc. destruct (Hd id Hc) as [He Hacts]. cbn [fst snd] in *.
  assert (Hin : a ∈ l1 ++ a :: l2) by set_solver.
  assert (Hown : act_row a <> Some id).
  { intros Hrow. destruct (Hacts a Hin Hrow) as [(k & d & E)|(d & E)]; [by apply (Hno k id d)|by subst a]. }
  destruct Ht as [Ht|[(e & Hke & Hid)|Ht]]; [done| |].
  - specialize (Hh a key Hin Ha). cbn [fst snd] in Hke. rewrite Hke in Hh. unfold entry_ok in Hh.
    destruct (He key e Hke Hid) as [Hs|Hs]; rewrite Hs in Hh.
    + destruct Hh as [[Hheld Hb]|[? _]]; [|done].
      destruct a; cbn in Hheld, Hb; try done; apply Hown; cbn; rewrite <- Hid; by apply Hb.
    + destruct Hh as [[Hheld _]|[? _]]; [|done]. by destruct a.
  - destruct Hc as (r & Hc & _). cbn in Ht. congruence.
Qed.

(** What a step of one activity may do. *)
Record transition (l1 : list Activity) (a : Activity) (l2 : list Activity) (s : Service) (key : ObjectKey)
    (W C : Z -> Prop) (new : list Activity) (s' : Service) : Prop := {
  tr_elsewhere : forall k, k <> key -> sv_coord s' !! k = sv_coord s !! k;
  tr_entry : match sv_coord s !! key, sv_coord s' !! key with
             | Some e, Some e' => ce_state e = ObjectFailed -> ce_state e' = ObjectFailed
             | None, None => True
             | _, _ => False
             end;
  tr_rows : rows_step W C (sv_db s) (sv_db s');
  tr_event : forall e', sv_coord s' !! key = Some e' -> 0 <= ce_eventId e' ->
    touched (l1 ++ a :: l2, s) a key (ce_eventId e') /\
    exists r, ed_events (sv_db s') !! ce_eventId e' = Some r /\ row_key r = key;
  tr_new : new = [] \/ exists b, new = [b] /\
    (forall id, act_row b = Some id -> 0 <= id /\ touched (l1 ++ a :: l2, s) a key id /\
       exists r, ed_events (sv_db s') !! id = Some r /\ row_key r = key) /\
    ((act_key b = Some key /\ entry_ok b (sv_coord s' !! key)) \/
     (exists id reason, b = FailFinish id reason /\
        forall e', sv_coord s' !! key = Some e' -> ce_state e' = ObjectFailed));
  tr_done : forall id, C id -> act_row a = Some id /\
    (completed (sv_db s') id -> exists d e', new = [OcrComplete key id d true] /\ sv_coord s' !! key = Some e' /\
       ce_state e' = Finalizing)
}.

Lemma in_pool_old (l1 new l2 : list Activity) a b :
  b ∈ l1 ++ new ++ l2 -> b ∈ new \/ (b ∈ l1 ++ l2 /\ b ∈ l1 ++ a :: l2).
Proof. rewrite !elem_of_app, elem_of_cons. tauto. Qed.

Lemma rows_persist (W C : Z -> Prop) d d' key id :
  rows_step W C d d' -> (exists r, ed_events d !! id = Some r /\ row_key r = key) ->
  exists r, ed_events d' !! id = Some r /\ row_key r = key.
Proof. intros [H _ _] (r & Hr & Hk). destruct (H id r Hr) as (r' & ? & ? & _). exists r'. split; [done|congruence]. Qed.

Lemma transition_rows l1 a l2 s key W C new s' k id :
  sound (l1 ++ a :: l2, s) -> act_key a = Some key -> transition l1 a l2 s key W C new s' ->
  0 <= id -> refers (l1 ++ new ++ l2, s') k id -> exists r, ed_events (sv_db s') !! id = Some r /\ row_key r = k.
Proof.
  intros Hs Ha [T1 T2 T3 T4 T6 T7] Hid [(e & He & Hev)|(b & Hb & Hbk & Hbr)].
  - cbn in He. destruct (decide (k = key)) as [->|Hne]; [subst id; by apply T4|].
    apply (rows_persist _ _ _ _ k id T3). apply (sd_rows _ Hs k id Hid). left. exists e. cbn. by rewrite <- T1.
  - destruct (in_pool_old _ _ _ a b Hb) as [Hn|[_ Ho]].
    + destruct T6 as [->|(b' & -> & Hrow & Hcase)]; [by apply elem_of_nil in Hn|].
      apply list_elem_of_singleton in Hn as ->. destruct Hcase as [[Hk' _]|(i & r & -> & _)]; [|done].
      rewrite Hbk in Hk'. injection Hk' as ->. by apply Hrow.
    + apply (rows_persist _ _ _ _ k id T3). apply (sd_rows _ Hs k id Hid). right. by exists b.
Qed.

(** A touched row that is older than the step was referred to by the same object. *)
Lemma touched_refers l1 a l2 s key id :
  act_key a = Some key -> touched (l1 ++ a :: l2, s) a key id -> is_Some (ed_events (sv_db s) !! id) ->
  refers (l1 ++ a :: l2, s) key id.
Proof.
  intros Ha [Ht|[Ht|Ht]] [r Hr].
  - right. exists a. split; [set_solver|done].
  - left. done.
  - cbn in Ht. congruence.
Qed.

Lemma transition_fail l1 a l2 s key W C new s' :
  sound (l1 ++ a :: l2, s) -> act_key a = Some key -> transition l1 a l2 s key W C new s' ->
  forall id reason k e, FailFinish id reason ∈ l1 ++ new ++ l2 -> refers (l1 ++ new ++ l2, s') k id ->
    sv_coord s' !! k = Some e -> ce_state e = ObjectFailed.
Proof.
  intros Hs Ha Htr id reason k e' Hin Href He'. pose proof Htr as [T1 T2 T3 T4 T6 T7].
  destruct (in_pool_old _ _ _ a _ Hin) as [Hn|[_ Ho]].
  - destruct T6 as [->|(b' & -> & Hrow & Hcase)]; [by apply elem_of_nil in Hn|].
    apply list_elem_of_singleton in Hn as <-.
    destruct (Hrow id eq_refl) as (Hid & _ & r & Hr & Hk).
    destruct (transition_rows _ _ _ _ _ _ _ _ _ k id Hs Ha Htr Hid Href) as (r' & Hr' & Hk'). simplify_eq.
    destruct Hcase as [[? _]|(i & r0 & _ & Hf)]; [done|]. by apply Hf.
  - destruct (sd_row_ids _ Hs _ id Ho eq_refl) as [Hid Hsome].
    assert (Hkey : touched (l1 ++ a :: l2, s) a key id -> forall e'', sv_coord s' !! key = Some e'' -> ce_state e'' = ObjectFailed).
    { intros Ht e'' He''. rewrite He'' in T2. destruct (sv_coord s !! key) as [e|] eqn:He; [|done]. apply T2.
      apply (sd_fail _ Hs id reason key e Ho); [|done]. by apply touched_refers. }
    destruct (decide (k = key)) as [->|Hne].
    + destruct Href as [(e & He & Hev)|(b & Hb & Hbk & Hbr)].
      * cbn in He. apply Hkey; [|done]. subst id. by apply T4.
      * destruct (in_pool_old _ _ _ a b Hb) as [Hn|[_ Hbo]].
        -- destruct T6 as [->|(b' & -> & Hrow & Hcase)]; [by apply elem_of_nil in Hn|].
           apply list_elem_of_singleton in Hn as ->. apply Hkey; [|done]. by apply Hrow.
        -- rewrite He' in T2. destruct (sv_coord s !! key) as [e|] eqn:He; [|done]. apply T2.
           apply (sd_fail _ Hs id reason key e Ho); [|done]. right. by exists b.
    + rewrite T1 in He' by done. apply (sd_fail _ Hs id reason k e' Ho); [|done].
      destruct Href as [(e & He & Hev)|(b & Hb & Hbk & Hbr)]; [left; exists e; cbn in *; by rewrite <- T1|].
      right. exists b. split; [|done]. destruct (in_pool_old _ _ _ a b Hb) as [Hn|[_ Hbo]]; [|done].
      destruct T6 as [->|(b' & -> & Hrow & Hcase)]; [by apply elem_of_nil in Hn|].
      apply list_elem_of_singleton in Hn as ->. destruct Hcase as [[Hk' _]|(i & r0 & -> & _)]; [congruence|done].
Qed.

Lemma transition_done l1 a l2 s key W C new s' :
  sound (l1 ++ a :: l2, s) -> act_key a = Some key -> (forall k i d, a <> OcrComplete k i d true) ->
  transition l1 a l2 s key W C new s' ->
  forall id, completed (sv_db s') id ->
    (forall k e, sv_coord s' !! k = Some e -> ce_eventId e = id -> ce_state e = Finalizing \/ ce_state e = ObjectCompleted) /\
    (forall b, b ∈ l1 ++ new ++ l2 -> act_row b = Some id -> may_end id b).
Proof.
  intros Hs Ha Hno Htr id Hc. pose proof Htr as [T1 T2 T3 T4 T6 T7].
  destruct (rs_done _ _ _ _ T3 id Hc) as [Hold|Hnew].
  - assert (Hnt : ~ touched (l1 ++ a :: l2, s) a key id) by (intros Ht; exact (touched_not_completed _ _ _ _ _ _ Hs Ha Hno Ht Hold)).
    destruct (sd_done _ Hs id Hold) as [He Hacts]. cbn [fst snd] in He, Hacts. split.
    + intros k e Hk Hev. destruct (decide (k = key)) as [->|Hne]; [|rewrite T1 in Hk by done; by eapply He].
      destruct Hnt. subst id. apply T4; [done|]. destruct Hold as (r & Hr & _).
      apply (proj2 (sd_numbered _ Hs)) in Hr. lia.
    + intros b Hb Hrow. destruct (in_pool_old _ _ _ a b Hb) as [Hn|[_ Hbo]]; [|by apply Hacts].
      destruct T6 as [->|(b' & -> & Hrows & _)]; [by apply elem_of_nil in Hn|].
      apply list_elem_of_singleton in Hn as ->. destruct Hnt. by apply Hrows.
  - destruct (T7 id Hnew) as [Hrow Hcase]. destruct (Hcase Hc) as (d & e' & -> & He' & Hst).
    assert (Hin : a ∈ l1 ++ a :: l2) by set_solver.
    destruct (sd_row_ids _ Hs a id Hin Hrow) as [Hid [r0 Hr0]].
    destruct (sd_rows _ Hs key id Hid) as (r & Hr & Hrk); [right; by exists a|].
    assert (Huniq : forall k, refers (l1 ++ a :: l2, s) k id -> k = key).
    { intros k Hk. destruct (sd_rows _ Hs k id Hid Hk) as (r' & Hr' & Hk'). congruence. }
    split.
    + intros k e Hk Hev. destruct (decide (k = key)) as [->|Hne]; [left; congruence|].
      exfalso. apply Hne, Huniq. left. exists e. cbn. by rewrite <- T1.
    + intros b Hb Hbr. destruct (in_pool_old _ _ _ a b Hb) as [Hn|[Hbo1 Hbo]].
      { apply list_elem_of_singleton in Hn as ->. left. by exists key, d. }
      destruct (act_key b) as [k|] eqn:Hbk.
      * assert (k = key) as -> by (apply Huniq; right; by exists b).
        by destruct (one_activity _ _ _ _ _ (sd_keys _ Hs) Ha Hbo1).
      * destruct b; try done; injection Hbr as ->; [|right; by eexists].
        exfalso. rewrite He' in T2. destruct (sv_coord s !! key) as [e|] eqn:He; [|done].
        rewrite T2 in Hst; [done|]. apply (sd_fail _ Hs id reason key e Hbo); [|done]. right. by exists a.
Qed.

Lemma transition_sound l1 a l2 s key W C new s' :
  sound (l1 ++ a :: l2, s) -> act_key a = Some key -> (forall k i d, a <> OcrComplete k i d true) ->
  transition l1 a l2 s key W C new s' -> sound (l1 ++ new ++ l2, s').
Proof.
  intros Hs Ha Hno Htr. split; cbn [fst snd].
  - pose proof (sd_keys _ Hs) as Hnd. cbn [fst] in Hnd. rewrite !omap_app in *. cbn in Hnd. rewrite Ha in Hnd.
    destruct (tr_new _ _ _ _ _ _ _ _ _ Htr) as [->|(b & -> & _ & Hcase)]; cbn.
    + rewrite <- Permutation_middle in Hnd. by apply NoDup_cons in Hnd as [_ Hnd].
    + destruct Hcase as [[-> _]|(i & r & -> & _)]; [done|]. cbn. rewrite <- Permutation_middle in Hnd.
      by apply NoDup_cons in Hnd as [_ Hnd].
  - intros b k Hb Hk. destruct (in_pool_old _ _ _ a b Hb) as [Hn|[Hbo1 Hbo]].
    + destruct (tr_new _ _ _ _ _ _ _ _ _ Htr) as [->|(b' & -> & _ & Hcase)]; [by apply elem_of_nil in Hn|].
      apply list_elem_of_singleton in Hn as ->. destruct Hcase as [[Hk' He]|(i & r & -> & _)]; [|done]. congruence.
    + assert (k <> key) by (intros ->; by destruct (one_activity _ _ _ _ _ (sd_keys _ Hs) Ha Hbo1)).
      rewrite (tr_elsewhere _ _ _ _ _ _ _ _ _ Htr) by done. by apply (sd_held _ Hs b k).
  - intros k id Hid Href. by eapply transition_rows.
  - intros id reason k e. by eapply transition_fail.
  - by eapply transition_done.
  - apply (rs_numbered _ _ _ _ (tr_rows _ _ _ _ _ _ _ _ _ Htr)), (sd_numbered _ Hs).
  - intros b id Hb Hrow. destruct (in_pool_old _ _ _ a b Hb) as [Hn|[_ Hbo]].
    + destruct (tr_new _ _ _ _ _ _ _ _ _ Htr) as [->|(b' & -> & Hrows & _)]; [by apply elem_of_nil in Hn|].
      apply list_elem_of_singleton in Hn as ->. destruct (Hrows id Hrow) as (? & _ & r & ? & _). split; [done|]. by exists r.
    + destruct (sd_row_ids _ Hs b id Hbo Hrow) as [Hid [r Hr]]. split; [done|].
      destruct (rs_old _ _ _ _ (tr_rows _ _ _ _ _ _ _ _ _ Htr) id r Hr) as (r' & Hr' & _). by exists r'.
Qed.
