(* ===== verification/EntranceServiceSafety.v ===== *)
(** The entrance under any interleaving of its threads: a recognition that was completed with a plate keeps it. *)
From S2P Require Import Prelude OccupancyDb Doubles ParkingDb Entrance EntranceDb EntranceService EntranceServiceInv.

(** * The steps of the activities *)

(** A call of the coordinator on one object that keeps the entry and its row, or gives it the row [own]. *)
Record coord_change (own : option Z) (key : ObjectKey) (m m' : CoordEntries) : Prop := {
  cc_elsewhere : forall k, k <> key -> m' !! k = m !! k;
  cc_entry : match m !! key, m' !! key with
             | Some e, Some e' => (ce_eventId e' = ce_eventId e \/ own = Some (ce_eventId e')) /\ (ce_state e = ObjectFailed -> ce_state e' = ObjectFailed)
             | None, None => True
             | _, _ => False
             end
}.

Lemma coord_change_refl own key m : coord_change own key m m.
Proof. split; [done|]. destruct (m !! key); [|done]. by split; [left|]. Qed.

Lemma coord_change_trans own key m1 m2 m3 :
  coord_change own key m1 m2 -> coord_change own key m2 m3 -> coord_change own key m1 m3.
Proof.
  intros [A1 A2] [B1 B2]. split; [intros k Hk; by rewrite B1, A1|].
  destruct (m1 !! key) as [e1|], (m2 !! key) as [e2|], (m3 !! key) as [e3|]; try done.
  destruct A2 as [[A2|A2] A3], B2 as [[B2|B2] B3]; (split; [|auto]); rewrite ?B2; auto.
Qed.

Lemma bind_change key id m : coord_change (Some id) key m (coord_bindEventId key id m).2.
Proof.
  unfold coord_bindEventId. case_match; [apply coord_change_refl|].
  destruct (m !! key) as [e|] eqn:E; [|apply coord_change_refl]. case_match; [apply coord_change_refl|]. split; cbn.
  - intros k Hk. by rewrite lookup_insert_ne.
  - rewrite E, lookup_insert_eq. by split; [right|].
Qed.

Lemma coord_move_change own from to key m : from <> ObjectFailed -> coord_change own key m (coord_move from to key m).2.
Proof.
  intros Hf. unfold coord_move. destruct (m !! key) as [e|] eqn:E; [|apply coord_change_refl].
  case_bool_decide as Hs; [|apply coord_change_refl]. split; cbn.
  - intros k Hk. by rewrite lookup_insert_ne.
  - rewrite E, lookup_insert_eq. split; [by left|]. intros ?. congruence.
Qed.

Lemma coord_fail_change own key m : coord_change own key m (coord_fail key m).2.
Proof.
  unfold coord_fail. destruct (m !! key) as [e|] eqn:E; [|apply coord_change_refl].
  case_match; [apply coord_change_refl|]. split; cbn.
  - intros k Hk. by rewrite lookup_insert_ne.
  - rewrite E, lookup_insert_eq. by split; [left|].
Qed.

Lemma coord_fail_failed key m e :
  (coord_fail key m).1 = true -> (coord_fail key m).2 !! key = Some e -> ce_state e = ObjectFailed.
Proof.
  unfold coord_fail. destruct (m !! key) as [e0|] eqn:E; [|done]. case_match; [done|]. cbn. intros _.
  rewrite lookup_insert_eq. by intros [= <-].
Qed.

Lemma activity_in (l1 : list Activity) a l2 : a ∈ l1 ++ a :: l2.
Proof. set_solver. Qed.

Lemma coord_move_false from to key m : (coord_move from to key m).1 = false -> (coord_move from to key m).2 = m.
Proof. unfold coord_move. destruct (m !! key); [|done]. by case_bool_decide. Qed.

Section Config.
Variables (objectTtlMs : Z) (coordCapacity : nat) (windowMs hammingThreshold : Z) (dedupCapacity : nat).
Variables (outputRoot : string) (cwd : list string) (deleteArtifactsOnSuccess : bool) (failureRetentionMs : Z).
Notation step_of := (advance windowMs hammingThreshold dedupCapacity outputRoot cwd deleteArtifactsOnSuccess).

Section Steps.
Variables (l1 : list Activity) (a : Activity) (l2 : list Activity) (s : Service) (key : ObjectKey).
Hypothesis Hs : sound (l1 ++ a :: l2, s).
Hypothesis Ha : act_key a = Some key.

(** A row that belongs to the object. *)
Definition own_row (id : Z) : Prop :=
  act_row a = Some id \/ (exists e, sv_coord s !! key = Some e /\ ce_eventId e = id).

Lemma own_touched id : own_row id -> touched (l1 ++ a :: l2, s) a key id.
Proof. intros [?|?]; [by left|by right; left]. Qed.

Lemma own_row_exists W C d' id :
  rows_step W C (sv_db s) d' -> own_row id -> 0 <= id -> exists r, ed_events d' !! id = Some r /\ row_key r = key.
Proof.
  intros Hr Ho Hid. apply (rows_persist _ _ _ _ key id Hr). apply (sd_rows _ Hs key id Hid).
  destruct Ho as [Ho|Ho]; [right; exists a; split; [set_solver|done]|by left].
Qed.

Lemma build W new s' :
  coord_change (act_row a) key (sv_coord s) (sv_coord s') -> rows_step W none (sv_db s) (sv_db s') ->
  (new = [] \/ exists b, new = [b] /\ (forall id, act_row b = Some id -> 0 <= id /\ own_row id) /\
     ((act_key b = Some key /\ entry_ok b (sv_coord s' !! key)) \/
      (exists id reason, b = FailFinish id reason /\
         forall e', sv_coord s' !! key = Some e' -> ce_state e' = ObjectFailed))) ->
  transition l1 a l2 s key W none new s'.
Proof.
  intros [C1 C2] Hr Hnew. split; [done| |done| | |done].
  - destruct (sv_coord s !! key), (sv_coord s' !! key); naive_solver.
  - intros e' He' Hid. rewrite He' in C2. destruct (sv_coord s !! key) as [e|] eqn:He; [|done].
    destruct C2 as [Hev _]. assert (Ho : own_row (ce_eventId e')) by (destruct Hev as [->|Hev]; [right; by exists e|by left]).
    split; [by apply own_touched|by eapply own_row_exists].
  - destruct Hnew as [->|(b & -> & Hrow & Hcase)]; [by left|]. right. exists b. split; [done|]. split; [|done].
    intros id Hid. destruct (Hrow id Hid) as [H0 Ho]. split; [done|]. split; [by apply own_touched|by eapply own_row_exists].
Qed.

(** The object is marked as failed, after calls that leave the coordinator alone. *)
Lemma fail_transition W id reason s1 :
  coord_change (act_row a) key (sv_coord s) (sv_coord s1) -> rows_step W none (sv_db s) (sv_db s1) -> own_row id ->
  transition l1 a l2 s key W none (failEvent id key reason s1).1 (failEvent id key reason s1).2.
Proof.
  intros E Hr Ho. unfold failEvent.
  pose proof (coord_change_trans _ _ _ _ _ E (coord_fail_change (act_row a) key (sv_coord s1))) as Hc.
  pose proof (coord_fail_failed key (sv_coord s1)) as Hf.
  destruct (coord_fail key (sv_coord s1)) as [failed m]. cbn [fst snd] in *. apply build; [done|done|].
  destruct (failed && (0 <=? id)) eqn:Eb; [|by left]. split_bool. right. eexists. split; [done|]. split.
  - intros i [= <-]. split; [lia|done].
  - right. exists id, reason. split; [done|]. intros e' He'. by apply Hf.
Qed.

(** The same state of the object, the next call. *)
Lemma stay_transition W b s' :
  sv_coord s' = sv_coord s -> rows_step W none (sv_db s) (sv_db s') ->
  act_key b = Some key -> held b = held a -> (is_bound b = true -> is_bound a = true) -> act_row b = act_row a ->
  transition l1 a l2 s key W none [b] s'.
Proof.
  intros E Hr Hk Hh Hb Hrow. apply build; [rewrite E; apply coord_change_refl|done|].
  right. exists b. split; [done|]. rewrite Hrow. split.
  - intros id Hid. split; [|by left]. by destruct (sd_row_ids _ Hs a id (activity_in _ _ _) Hid).
  - left. split; [done|]. rewrite E. pose proof (sd_held _ Hs a key (activity_in _ _ _) Ha) as He. cbn [fst snd] in He.
    unfold entry_ok in *. destruct (sv_coord s !! key) as [e|]; rewrite Hh; [|done].
    destruct He as [[He1 He2]|He]; [left|by right]. split; [done|]. intros Hb'. rewrite Hrow. auto.
Qed.

(** A right of the coordinator. *)
Lemma move_transition from to b :
  from <> ObjectFailed -> held a = from -> act_key b = Some key -> held b = to -> act_row b = act_row a ->
  is_bound a = true \/ (exists e, sv_coord s !! key = Some e /\ act_row a = Some (ce_eventId e)) \/ (is_bound b = false) ->
  let r := coord_move from to key (sv_coord s) in
  transition l1 a l2 s key none none (if r.1 then [b] else []) (sv_set_coord s r.2).
Proof.
  intros Hf Hh Hk Hb Hrow Hbound. cbv zeta. pose proof (coord_move_change (act_row a) from to key (sv_coord s) Hf) as Hc.
  apply build; [done|apply rows_step_refl|].
  pose proof (sd_held _ Hs a key (activity_in _ _ _) Ha) as He. cbn [fst snd] in He.
  unfold coord_move in *. destruct (sv_coord s !! key) as [e|] eqn:E; [|by left].
  case_bool_decide as Hst; [|by left]. cbn [fst snd] in *. right. exists b. split; [done|]. split.
  - intros id Hid. rewrite Hrow in Hid. split; [|by left]. by destruct (sd_row_ids _ Hs a id (activity_in _ _ _) Hid).
  - left. split; [done|]. cbn. rewrite lookup_insert_eq. left. split; [done|]. cbn. rewrite Hrow. intros Hbb.
    unfold entry_ok in He. destruct He as [[_ He]|[He _]]; [|congruence].
    destruct Hbound as [Hbound|[(e0 & He0 & Hbound)|Hbound]]; [auto|congruence|congruence].
Qed.
End Steps.

(** The rows whose outcome a call may write. *)
Definition writes (a : Activity) : Z -> Prop :=
  match a with EvSave _ id _ _ _ | OcrFinish _ id _ _ | FailFinish id _ => only id | _ => none end.

(** What one call makes of the pool. *)
Definition moves (a : Activity) (o : StepOutside) : Prop := forall l1 l2 s key,
  sound (l1 ++ a :: l2, s) -> act_key a = Some key ->
  exists C, transition l1 a l2 s key (writes a) C (step_of a o s).1 (step_of a o s).2.

Lemma moves_download event o : moves (InDownload event) o.
Proof.
  intros l1 l2 s key Hs [= <-]. exists none. cbn [advance]. unfold in_download.
  destruct (so_downloaded o); cbn [negb].
  2: { apply (build _ _ _ _ _ Hs eq_refl); [apply coord_fail_change|apply rows_step_refl|by left]. }
  destruct (dedup_observe _ _ _ _ _ _ _) as [dedup rs]. cbv zeta. case_match.
  - apply (build _ _ _ _ _ Hs eq_refl); cbn [fst snd]; [| |by left].
    + destruct (idr_canonicalEventId dedup); rewrite ?sql_frame; by apply (coord_move_change _ EvQueued ObjectDuplicate).
    + destruct (idr_canonicalEventId dedup); [|apply rows_step_refl].
      match goal with |- context [sql _ _ _ ?s0] => change (sv_db s) with (sv_db s0) end.
      apply sql_step. intros d. apply increment_step.
  - apply (stay_transition _ _ _ _ _ Hs eq_refl); try done. apply rows_step_refl.
Qed.

Lemma moves_save event id o : moves (InSave event id) o.
Proof.
  intros l1 l2 s key Hs [= <-]. exists none. cbn [advance]. unfold in_save.
  pose proof (sql_step none none (so_sql o) false (updateEntranceImage (so_now o) id true (imagePath outputRoot event)) s) as Hr.
  pose proof (sql_frame (so_sql o) false (updateEntranceImage (so_now o) id true (imagePath outputRoot event)) s) as Hf.
  destruct (sql _ _ _ s) as [saved s1]. cbn [snd] in *. specialize (Hr (fun d => image_step _ _ _ _ d)). destruct saved.
  - apply (stay_transition _ _ _ _ _ Hs eq_refl); done.
  - pose proof (fail_transition _ _ _ _ _ Hs eq_refl none id "Plate image path persistence failed" s1) as Ht.
    rewrite Hf in Ht. specialize (Ht (coord_change_refl _ _ _) Hr (or_introl eq_refl)).
    destruct (failEvent _ _ _ s1) as [acts s2]. destruct Ht as [T1 T2 T3 T4 T6 T7]. by split.
Qed.

Lemma moves_mark event id o : moves (InMark event id) o.
Proof.
  intros l1 l2 s key Hs [= <-]. exists none. cbn [advance]. unfold in_mark, markEvProcessing.
  pose proof (move_transition _ _ _ _ _ Hs eq_refl EvQueued EvProcessing (InEnqueue event id)) as Ht. cbv zeta in Ht.
  specialize (Ht ltac:(done) eq_refl eq_refl eq_refl eq_refl (or_introl eq_refl)).
  pose proof (coord_move_false EvQueued EvProcessing (bse_key event) (sv_coord s)) as Hsame.
  destruct (coord_move _ _ _ _) as [marked m]. cbn [fst snd] in *. destruct marked; [done|].
  apply (fail_transition _ _ _ _ _ Hs eq_refl); [cbn; rewrite Hsame by done; apply coord_change_refl|apply rows_step_refl|by left].
Qed.

Lemma moves_enqueue event id o : moves (InEnqueue event id) o.
Proof.
  intros l1 l2 s key Hs [= <-]. exists none. cbn [advance]. unfold in_enqueue. destruct (so_queued o).
  - apply (stay_transition _ _ _ _ _ Hs eq_refl); try done. apply rows_step_refl.
  - apply (fail_transition _ _ _ _ _ Hs eq_refl); [apply coord_change_refl|apply rows_step_refl|by left].
Qed.

Lemma moves_ev_job key0 id image directory o : moves (EvJob key0 id image directory) o.
Proof.
  intros l1 l2 s key Hs [= <-]. exists none. cbn [advance]. unfold ev_job, markOcrQueued.
  pose proof (move_transition _ _ _ _ _ Hs eq_refl EvProcessing OcrQueued (EvSave key0 id image directory (so_ev o))) as Ht.
  cbv zeta in Ht. specialize (Ht ltac:(done) eq_refl eq_refl eq_refl eq_refl (or_introl eq_refl)).
  destruct (coord_move _ _ _ _) as [marked m]. exact Ht.
Qed.

Lemma moves_ev_save key0 id image directory result o : moves (EvSave key0 id image directory result) o.
Proof.
  intros l1 l2 s key Hs [= <-]. exists none. cbn [advance]. unfold ev_save.
  pose proof (sql_step (only id) none (so_sql o) false (updateEntranceVisionAnalysis (so_now o) id (analysis_of result)) s) as Hr.
  pose proof (sql_frame (so_sql o) false (updateEntranceVisionAnalysis (so_now o) id (analysis_of result)) s) as Hf.
  destruct (sql _ _ _ s) as [persisted s1]. cbn [snd] in *. specialize (Hr (fun d => vision_step _ _ _ d)).
  destruct persisted; cbn [negb]; [case_match|];
    try (apply (fail_transition _ _ _ _ _ Hs eq_refl); [rewrite Hf; apply coord_change_refl|done|by left]).
  apply (stay_transition _ _ _ _ _ Hs eq_refl); done.
Qed.

Lemma moves_ev_mark key0 id image directory o : moves (EvMark key0 id image directory) o.
Proof.
  intros l1 l2 s key Hs [= <-]. exists none. cbn [advance]. unfold ev_mark, markOcrProcessing.
  pose proof (move_transition _ _ _ _ _ Hs eq_refl OcrQueued OcrProcessing (EvEnqueue key0 id image directory)) as Ht.
  cbv zeta in Ht. specialize (Ht ltac:(done) eq_refl eq_refl eq_refl eq_refl (or_introl eq_refl)).
  pose proof (coord_move_false OcrQueued OcrProcessing key0 (sv_coord s)) as Hsame.
  destruct (coord_move _ _ _ _) as [marked m]. cbn [fst snd] in *. destruct marked; [done|].
  apply (fail_transition _ _ _ _ _ Hs eq_refl); [cbn; rewrite Hsame by done; apply coord_change_refl|apply rows_step_refl|by left].
Qed.

Lemma moves_ev_enqueue key0 id image directory o : moves (EvEnqueue key0 id image directory) o.
Proof.
  intros l1 l2 s key Hs [= <-]. exists none. cbn [advance]. unfold ev_enqueue. destruct (so_queued o).
  - apply (build _ _ _ _ _ Hs eq_refl); [apply coord_change_refl|apply rows_step_refl|]. right. eexists. split; [done|].
    split; [done|]. left. split; [done|]. pose proof (sd_held _ Hs _ key0 (activity_in _ _ _) eq_refl) as He.
    unfold entry_ok in *. cbn in *. destruct (sv_coord s !! key0); [|done]. destruct He as [[He _]|He]; [by left|by right].
  - apply (fail_transition _ _ _ _ _ Hs eq_refl); [apply coord_change_refl|apply rows_step_refl|by left].
Qed.

Lemma moves_ocr_job key0 image directory o : moves (OcrJob key0 image directory) o.
Proof.
  intros l1 l2 s key Hs [= <-]. exists none. cbn [advance]. unfold ocr_job, coord_eventId.
  pose proof (sd_held _ Hs _ key0 (activity_in _ _ _) eq_refl) as He. cbn [fst snd] in He.
  destruct (sv_coord s !! key0) as [e|] eqn:E;
    [|apply (build _ _ _ _ _ Hs eq_refl); [apply coord_change_refl|apply rows_step_refl|by left]].
  destruct (ce_eventId e <? 0) eqn:E0;
    [apply (build _ _ _ _ _ Hs eq_refl); [apply coord_change_refl|apply rows_step_refl|by left]|].
  case_match.
  - apply (fail_transition _ _ _ _ _ Hs eq_refl); [apply coord_change_refl|apply rows_step_refl|right; by exists e].
  - apply (build _ _ _ _ _ Hs eq_refl); [apply coord_change_refl|apply rows_step_refl|]. right. eexists. split; [done|]. split.
    + intros id [= <-]. split; [lia|]. right. by exists e.
    + left. split; [done|]. cbn [fst snd]. rewrite E. unfold entry_ok in *. cbn in *. destruct He as [[He _]|He]; [by left|by right].
Qed.

Lemma moves_ocr_begin key0 id directory result o : moves (OcrBegin key0 id directory result) o.
Proof.
  intros l1 l2 s key Hs [= <-]. exists none. cbn [advance]. unfold ocr_begin, beginFinalization.
  pose proof (move_transition _ _ _ _ _ Hs eq_refl OcrProcessing Finalizing (OcrFinish key0 id directory result)) as Ht.
  cbv zeta in Ht. specialize (Ht ltac:(done) eq_refl eq_refl eq_refl eq_refl (or_introl eq_refl)).
  destruct (coord_move _ _ _ _) as [begun m]. exact Ht.
Qed.

Lemma moves_create event fingerprinted o : moves (InCreate event fingerprinted) o.
Proof.
  intros l1 l2 s key Hs [= <-]. exists none. cbn [advance]. unfold in_create. cbv zeta.
  pose proof (create_step (ok_cameraId (bse_key event)) (ok_channelId (bse_key event)) (ok_objectId (bse_key event))
    (bse_receivedAtEpochMs event) (sv_db s)) as Hc.
  assert (Hfail : transition l1 (InCreate event fingerprinted) l2 s (bse_key event) none none []
                    (remove_work outputRoot event (sv_set_coord s (coord_fail (bse_key event) (sv_coord s)).2)))
    by (apply (build _ _ _ _ _ Hs eq_refl); [apply coord_fail_change|apply rows_step_refl|by left]).
  unfold sql. destruct (so_sql o); [|exact Hfail].
  destruct (createEntranceRecognition _ _ _ _ (sv_db s)) as [id d].
  destruct Hc as [[-> ->]|(-> & (r & Hr & Hrk) & Hrows)]; [by destruct s|].
  pose proof (sd_numbered _ Hs) as Hn. cbn [snd] in Hn. pose proof (proj1 Hn) as Hn0.
  replace (ed_event_seq (sv_db s) + 1 <? 0) with false by lia.
  pose proof (build l1 (InCreate event fingerprinted) l2 s (bse_key event) Hs eq_refl none [] (sv_set_db s d)
    (coord_change_refl _ _ _) (Hrows Hn) (or_introl eq_refl)) as [T1 T2 T3 T4 _ T7]. split; try done.
  right. eexists. split; [done|]. split.
  - intros id [= <-]. split; [lia|]. split.
    + right. right. cbn. destruct (ed_events (sv_db s) !! _) as [r0|] eqn:E; [|done]. apply (proj2 Hn) in E. lia.
    + exists r. split; [done|]. by destruct (bse_key event).
  - left. split; [done|]. pose proof (sd_held _ Hs _ _ (activity_in _ _ _) eq_refl) as He. unfold entry_ok in *. cbn in *.
    destruct (sv_coord s !! _); [|done]. destruct He as [[He _]|He]; [by left|by right].
Qed.

Lemma moves_bind event fingerprinted id o : moves (InBind event fingerprinted id) o.
Proof.
  intros l1 l2 s key Hs [= <-]. exists none. cbn [advance]. unfold in_bind. cbv zeta.
  pose proof (bind_change (bse_key event) id (sv_coord s)) as Hc.
  pose proof (sd_held _ Hs _ _ (activity_in _ _ _) eq_refl) as He. cbn [fst snd] in He.
  destruct (sd_row_ids _ Hs _ id (activity_in _ _ _) eq_refl) as [Hid _].
  assert (Hentry : (coord_bindEventId (bse_key event) id (sv_coord s)).1 = true ->
    entry_ok (InSave event id) ((coord_bindEventId (bse_key event) id (sv_coord s)).2 !! bse_key event)).
  { unfold coord_bindEventId in *. case_match; [done|]. destruct (sv_coord s !! bse_key event) as [e|] eqn:E; [|done].
    unfold entry_ok in He. case_match; cbn [fst snd].
    - intros Hi. apply Z.eqb_eq in Hi. rewrite E. cbn. destruct He as [[He _]|He]; [left|by right]. split; [done|congruence].
    - intros _. rewrite lookup_insert_eq. cbn. destruct He as [[He _]|He]; [by left|by right]. }
  destruct (coord_bindEventId _ _ _) as [bound m]. cbn [fst snd] in *.
  destruct (if bound && fingerprinted then _ else _) as [bound2 rs].
  assert (Hgo : bound = true -> transition l1 (InBind event fingerprinted id) l2 s (bse_key event) none none [InSave event id]
                  (sv_set_dedup (sv_set_coord s m) rs)).
  { intros ->. apply (build _ _ _ _ _ Hs eq_refl); [done|apply rows_step_refl|]. right. eexists. split; [done|]. split.
    - intros i [= <-]. split; [done|by left].
    - left. split; [done|]. by apply Hentry. }
  destruct (bound && bound2) eqn:Eb; [apply Hgo; by destruct bound|].
  pose proof (fail_transition _ _ _ _ _ Hs eq_refl none id "Entrance event binding failed"
    (sv_set_dedup (sv_set_coord s m) rs) Hc (rows_step_refl _ _ _) (or_introl eq_refl)) as Ht.
  destruct (failEvent _ _ _ _) as [acts s2]. destruct Ht as [T1 T2 T3 T4 T6 T7]. by split.
Qed.

Lemma finish_error now new_vehicle id plate confidence attempts error d :
  (finishEntranceRecognition now new_vehicle id plate confidence attempts error d).1 = "DB_ERROR" ->
  (finishEntranceRecognition now new_vehicle id plate confidence attempts error d).2 = d.
Proof.
  unfold finishEntranceRecognition. destruct (negb _ || _); [done|]. cbv zeta.
  destruct (is_empty plate); [by case_match|].
  destruct (ed_events d !! id) as [r|]; [|done]. destruct (rr_vision_is_ev r) as [[]|]; try (by case_match);
    destruct (upsert_vehicle _ _ _ _); by case_match.
Qed.

Lemma finish_port_spec id plate confidence attempts error o s :
  let r := finish_port id plate confidence attempts error o s in
  sv_coord r.2 = sv_coord s /\
  rows_step (only id) (if is_empty plate then none else only id) (sv_db s) (sv_db r.2) /\
  (r.1 = false -> sv_db r.2 = sv_db s).
Proof.
  cbv zeta. unfold finish_port.
  pose proof (sql_frame (so_sql o) "DB_ERROR"
    (finishEntranceRecognition (so_now o) (so_new_vehicle o) id plate confidence attempts error) s) as Hf.
  pose proof (sql_step (only id) (if is_empty plate then none else only id) (so_sql o) "DB_ERROR"
    (finishEntranceRecognition (so_now o) (so_new_vehicle o) id plate confidence attempts error) s
    (fun d => finish_step _ _ _ _ _ _ _ d)) as Hr.
  pose proof (finish_error (so_now o) (so_new_vehicle o) id plate confidence attempts error (sv_db s)) as He.
  unfold sql in *. destruct (so_sql o); [|done].
  destruct (finishEntranceRecognition _ _ _ _ _ _ _ (sv_db s)) as [classification d]. cbn [fst snd] in *.
  split; [done|]. split; [done|]. case_bool_decide; [|done]. intros _. by apply He.
Qed.

Lemma moves_ocr_finish key0 id directory result o : moves (OcrFinish key0 id directory result) o.
Proof.
  intros l1 l2 s key Hs [= <-]. cbn [advance]. unfold ocr_finish.
  destruct (finish_port_spec id (gr_plate_number result) (gr_confidence result) (gr_attempts result)
    (gr_error_message result) o s) as (Hf & Hr & Hfalse).
  destruct (finish_port _ _ _ _ _ o s) as [success s1]. cbn [fst snd] in *.
  exists (if is_empty (gr_plate_number result) then none else only id).
  pose proof (sd_held _ Hs _ _ (activity_in _ _ _) eq_refl) as He. cbn [fst snd] in He.
  destruct (sd_row_ids _ Hs _ id (activity_in _ _ _) eq_refl) as [Hid [r0 Hr0]]. cbn [fst snd] in Hr0.
  unfold entry_ok in He. destruct (sv_coord s !! key0) as [e|] eqn:E; [|done]. cbn in He.
  destruct He as [[Hst Hev]|[_ ?]]; [|done]. injection (Hev eq_refl) as Hev'.
  assert (Hrow : exists r, ed_events (sv_db s1) !! id = Some r /\ row_key r = key0).
  { apply (own_row_exists _ _ _ _ _ Hs eq_refl _ _ _ id Hr); [by left|done]. }
  split; rewrite ?Hf, ?E; try done.
  - intros e' [= <-] _. rewrite <- Hev'. split; [by left|done].
  - right. eexists. split; [done|]. split; [intros i [= <-]; split; [done|]; split; [by left|done]|].
    left. split; [done|]. left. by split.
  - intros i Hi. destruct (is_empty (gr_plate_number result)); [done|]. unfold only in Hi. subst i.
    split; [done|]. intros Hc. exists directory, e. split; [|by rewrite Hst].
    destruct success; [done|]. rewrite Hfalse in Hc by done.
    destruct (touched_not_completed _ _ _ _ _ id Hs eq_refl (fun _ _ _ => ltac:(discriminate)) (or_introl eq_refl) Hc).
Qed.

Lemma moves_ocr_failed key0 id directory o : moves (OcrComplete key0 id directory false) o.
Proof.
  intros l1 l2 s key Hs [= <-]. exists none. cbn [advance]. unfold ocr_complete.
  apply (fail_transition _ _ _ _ _ Hs eq_refl); [apply coord_change_refl|apply rows_step_refl|by left].
Qed.

(** The other changes: calls that leave the coordinator alone, and the end of an object. *)
Lemma db_sound W acts acts' s s' :
  sound (acts, s) -> acts' `sublist_of` acts -> sv_coord s' = sv_coord s -> rows_step W none (sv_db s) (sv_db s') ->
  sound (acts', s').
Proof.
  intros [S1 S2 S3 S4 S5 S6 S7] Hsub Hc Hr.
  assert (Hin : forall a, a ∈ acts' -> a ∈ acts) by (intros a Ha; by apply (elem_of_sublist acts' acts)).
  assert (Href : forall key id, refers (acts', s') key id -> refers (acts, s) key id).
  { intros key id [(e & He & Hev)|(a & Hb & Hk)]; [left; exists e; cbn in *; by rewrite <- Hc|right; exists a; auto]. }
  split; cbn [fst snd] in *; rewrite ?Hc.
  - eapply sublist_NoDup; [exact S1|]. clear -Hsub. induction Hsub; cbn; [done|case_match; [by constructor|done]|].
    case_match; [by constructor|done].
  - intros a key Ha. apply S2. auto.
  - intros key id Hid Hk. apply (rows_persist _ _ _ _ key id Hr). apply S3; auto.
  - intros id reason key e Hf Hk. eapply S4; eauto.
  - intros id Hd. destruct (rs_done _ _ _ _ Hr id Hd) as [Hd'|[]]. destruct (S5 id Hd') as [H1 H2]. split; [done|]. auto.
  - by apply (rs_numbered _ _ _ _ Hr).
  - intros a id Ha Hrow. destruct (S7 a id (Hin a Ha) Hrow) as [Hid [r Hr0]]. split; [done|].
    destruct (rs_old _ _ _ _ Hr id r Hr0) as (r' & Hr' & _). by exists r'.
Qed.

Lemma complete_sound l1 key id directory l2 s :
  sound (l1 ++ OcrComplete key id directory true :: l2, s) ->
  let r := ocr_complete deleteArtifactsOnSuccess key id directory true s in sound (l1 ++ r.1 ++ l2, r.2).
Proof.
  intros Hs. cbv zeta. unfold ocr_complete, coord_complete, coord_move.
  pose proof (sd_held _ Hs _ _ (activity_in _ _ _) eq_refl) as He. cbn [fst snd] in He. unfold entry_ok in He.
  destruct (sv_coord s !! key) as [e|] eqn:E; [|done]. destruct He as [[Hst Hev]|[_ ?]]; [|done]. cbn in Hst, Hev.
  injection (Hev eq_refl) as Hev'. rewrite bool_decide_eq_true_2 by done. cbn [fst snd].
  set (m := <[key := set_object_state ObjectCompleted e]> (sv_coord s)).
  assert (Hin : forall b, b ∈ l1 ++ (if deleteArtifactsOnSuccess then [CleanUp id directory] else []) ++ l2 ->
    b = CleanUp id directory \/ (b ∈ l1 ++ l2 /\ b ∈ l1 ++ OcrComplete key id directory true :: l2)).
  { intros b. rewrite !elem_of_app, elem_of_cons. destruct deleteArtifactsOnSuccess; rewrite ?list_elem_of_singleton, ?elem_of_nil; tauto. }
  assert (Href : forall k i, refers (l1 ++ (if deleteArtifactsOnSuccess then [CleanUp id directory] else []) ++ l2,
      sv_set_coord s m) k i -> refers (l1 ++ OcrComplete key id directory true :: l2, s) k i).
  { intros k i [(e' & He' & Hi)|(b & Hb & Hk & Hrow)].
    - left. cbn in He'. apply lookup_insert_Some in He' as [[<- <-]|[_ He']]; [by exists e|by exists e'].
    - right. destruct (Hin b Hb) as [->|[_ Hb']]; [done|]. by exists b. }
  split; cbn [fst snd].
  - pose proof (sd_keys _ Hs) as Hnd. cbn [fst] in Hnd. rewrite !omap_app in *. cbn in Hnd.
    rewrite <- Permutation_middle in Hnd. apply NoDup_cons in Hnd as [_ Hnd]. by destruct deleteArtifactsOnSuccess.
  - intros b k Hb Hk. destruct (Hin b Hb) as [->|[Hb1 Hb2]]; [done|].
    assert (k <> key) by (intros ->; by destruct (one_activity _ _ _ _ _ (sd_keys _ Hs) eq_refl Hb1)).
    unfold m. cbn. rewrite lookup_insert_ne by done. by apply (sd_held _ Hs b k).
  - intros k i Hi Hk. apply (sd_rows _ Hs k i Hi). by apply Href.
  - intros i reason k e' Hf Hk He'. destruct (Hin _ Hf) as [?|[_ Hf']]; [done|].
    unfold m in He'. cbn in He'. apply lookup_insert_Some in He' as [[<- <-]|[_ He']].
    + exfalso. pose proof (sd_fail _ Hs i reason key e Hf' (Href _ _ Hk) E) as H. cbn in H. congruence.
    + by apply (sd_fail _ Hs i reason k e' Hf' (Href _ _ Hk)).
  - intros i Hd. destruct (sd_done _ Hs i Hd) as [H1 H2]. cbn [fst snd] in *. split.
    + intros k e' He' Hi. unfold m in He'. cbn in He'. apply lookup_insert_Some in He' as [[<- <-]|[_ He']]; [by right|by eapply H1].
    + intros b Hb Hrow. destruct (Hin b Hb) as [->|[_ Hb']]; [|by apply H2]. injection Hrow as ->. right. by eexists.
  - apply (sd_numbered _ Hs).
  - intros b i Hb Hrow. destruct (Hin b Hb) as [->|[_ Hb']]; [|by apply (sd_row_ids _ Hs b)].
    injection Hrow as <-. by apply (sd_row_ids _ Hs _ id (activity_in _ _ _)).
Qed.

Lemma cleanup_step id directory o s :
  sv_coord (cleanupArtifacts outputRoot cwd id directory o s).2 = sv_coord s /\
  rows_step none none (sv_db s) (sv_db (cleanupArtifacts outputRoot cwd id directory o s).2).
Proof.
  unfold cleanupArtifacts. cbv zeta.
  assert (Hmark : forall s0, sv_coord (sql (so_sql o) false (markEntranceArtifactsDeleted (so_now o) id) s0).2 = sv_coord s0 /\
    rows_step none none (sv_db s0) (sv_db (sql (so_sql o) false (markEntranceArtifactsDeleted (so_now o) id) s0).2)).
  { intros s0. split; [apply sql_frame|]. apply sql_step. intros d. apply deletion_step. }
  case_match; [split; [done|apply rows_step_refl]|]. case_match; [apply Hmark|].
  case_match; [split; [done|apply rows_step_refl]|].
  destruct (so_directory_found o) as [[]|]; [|apply Hmark|split; [done|apply rows_step_refl]].
  case_match; [split; [done|apply rows_step_refl]|].
  match goal with |- context [sql _ _ _ ?s0] => specialize (Hmark s0); destruct (sql _ _ _ s0) as [marked s1] end.
  cbn [fst snd] in *. destruct marked; cbn [negb]; by case_match.
Qed.

Lemma cleanup_due_step now outside s :
  let s' := cleanupDueArtifacts outputRoot cwd deleteArtifactsOnSuccess failureRetentionMs now outside s in
  sv_coord s' = sv_coord s /\ rows_step none none (sv_db s) (sv_db s').
Proof.
  cbv zeta. unfold cleanupDueArtifacts. cbn. generalize (listEntranceArtifactsForCleanup (now - failureRetentionMs) (sv_db s)).
  intros records. revert outside s. induction records as [|r records IH]; intros outside s; [split; [done|apply rows_step_refl]|].
  cbn [cleanup_records]. destruct (_ && _); [apply IH|].
  destruct (cleanup_step (ar_event_id r) (artifactDirectory r) (outside O) s) as [E1 R1].
  destruct (IH (fun i => outside (S i)) (cleanupArtifacts outputRoot cwd (ar_event_id r) (artifactDirectory r) (outside O) s).2)
    as [E2 R2].
  split; [congruence|]. by eapply rows_step_trans.
Qed.

(** Every call of an activity. *)
Lemma advance_sound l1 a l2 o s :
  sound (l1 ++ a :: l2, s) -> sound (l1 ++ (step_of a o s).1 ++ l2, (step_of a o s).2).
Proof.
  intros Hs.
  assert (Hmoves : forall key, act_key a = Some key -> (forall k i d, a <> OcrComplete k i d true) -> moves a o ->
    sound (l1 ++ (step_of a o s).1 ++ l2, (step_of a o s).2)).
  { intros key Hk Hno Hm. destruct (Hm l1 l2 s key Hs Hk) as [C Ht]. by eapply transition_sound. }
  assert (Hidle : forall W s', sv_coord s' = sv_coord s -> rows_step W none (sv_db s) (sv_db s') -> sound (l1 ++ [] ++ l2, s')).
  { intros W s' Hc Hr. eapply db_sound; [exact Hs| |exact Hc|exact Hr]. cbn. apply sublist_app; [done|]. by apply sublist_cons. }
  destruct a; try (eapply Hmoves; [done|done|]; auto using moves_download, moves_create, moves_bind, moves_save, moves_mark,
    moves_enqueue, moves_ev_job, moves_ev_save, moves_ev_mark, moves_ev_enqueue, moves_ocr_job, moves_ocr_begin,
    moves_ocr_finish).
  - destruct success; [by apply complete_sound|]. eapply Hmoves; [done|done|apply moves_ocr_failed].
  - destruct (finish_port_spec id "" d_zero 0 reason o s) as (Hc & Hr & _). by eapply (Hidle (only id)).
  - destruct (cleanup_step id directory o s) as [Hc Hr]. by eapply (Hidle none).
Qed.

(** A completed row is not among those that a call may write. *)
Lemma advance_keeps l1 a l2 o s id r :
  sound (l1 ++ a :: l2, s) -> ed_events (sv_db s) !! id = Some r -> rr_state r = RCompleted ->
  exists r', ed_events (sv_db (step_of a o s).2) !! id = Some r' /\ outcome r' = outcome r.
Proof.
  intros Hs Hr Hc.
  assert (Hrows : exists C, rows_step (writes a) C (sv_db s) (sv_db (step_of a o s).2)).
  { assert (Hmoves : forall key, act_key a = Some key -> moves a o -> exists C, rows_step (writes a) C (sv_db s) (sv_db (step_of a o s).2)).
    { intros key Hk Hm. destruct (Hm l1 l2 s key Hs Hk) as [C Ht]. exists C. apply (tr_rows _ _ _ _ _ _ _ _ _ Ht). }
    destruct a; try solve [eapply Hmoves; [done|]; auto using moves_download, moves_create, moves_bind, moves_save, moves_mark,
      moves_enqueue, moves_ev_job, moves_ev_save, moves_ev_mark, moves_ev_enqueue, moves_ocr_job, moves_ocr_begin,
      moves_ocr_finish].
    - destruct success; [|exact (Hmoves key eq_refl (moves_ocr_failed _ _ _ _))]. exists none. cbn [advance]. unfold ocr_complete, failEvent.
      destruct (coord_complete key (sv_coord s)) as [[] m]; [apply rows_step_refl|].
      destruct (coord_fail _ _). apply rows_step_refl.
    - exists none. apply (finish_port_spec id0 "" d_zero 0 reason o s).
    - exists none. apply cleanup_step. }
  destruct Hrows as [C Hrows]. destruct (rs_old _ _ _ _ Hrows id r Hr) as (r' & Hr' & _ & Ho).
  exists r'. split; [done|]. apply Ho; [done|]. intros Hw.
  assert (Hin : a ∈ (l1 ++ a :: l2, s).1) by apply activity_in.
  assert (Hrow : act_row a = Some id) by (destruct a; cbn in Hw; unfold only in Hw; subst; done).
  destruct (sd_done _ Hs id) as [_ Hacts]; [by exists r|].
  destruct (Hacts a Hin Hrow) as [(k & d & ->)|(d & ->)]; done.
Qed.

(** * The other steps *)

(** Entries are only forgotten at their end, and only an object that is not being finished fails. *)
Definition relaxed (m m' : CoordEntries) : Prop := forall key,
  match m !! key, m' !! key with
  | None, None => True
  | Some e, None => terminal (ce_state e) = true
  | Some e, Some e' => ce_eventId e' = ce_eventId e /\
      (ce_state e' = ce_state e \/ (ce_state e' = ObjectFailed /\ sweepable (ce_state e) = true))
  | None, Some _ => False
  end.

Lemma relaxed_some m m' key e' :
  relaxed m m' -> m' !! key = Some e' -> exists e, m !! key = Some e /\ ce_eventId e' = ce_eventId e /\
    (ce_state e' = ce_state e \/ (ce_state e' = ObjectFailed /\ sweepable (ce_state e) = true)).
Proof. intros H He. specialize (H key). rewrite He in H. destruct (m !! key) as [e|]; [|done]. by exists e. Qed.

Lemma relax_sound acts s m' : relaxed (sv_coord s) m' -> sound (acts, s) -> sound (acts, sv_set_coord s m').
Proof.
  intros Hrel [S1 S2 S3 S4 S5 S6 S7].
  assert (Href : forall key id, refers (acts, sv_set_coord s m') key id -> refers (acts, s) key id).
  { intros key id [(e & He & Hev)|Hb]; [|by right]. cbn in He. destruct (relaxed_some _ _ _ _ Hrel He) as (e0 & He0 & E & _).
    left. exists e0. split; [done|congruence]. }
  split; cbn [fst snd] in *; try done.
  - intros a key Ha Hk. specialize (S2 a key Ha Hk). specialize (Hrel key). unfold entry_ok in *. cbn.
    destruct (sv_coord s !! key) as [e|]; destruct (m' !! key) as [e'|]; try done.
    + destruct Hrel as [Hev [Hst|[Hst Hsw]]]; rewrite ?Hev, ?Hst; [done|]. right. split; [done|].
      intros Hfin. destruct S2 as [[Hs2 _]|[_ ?]]; [|done]. rewrite Hs2, Hfin in Hsw. done.
    + destruct S2 as [[Hs2 _]|[_ ?]]; [|done]. intros Hfin. rewrite Hs2, Hfin in Hrel. done.
  - intros key id Hid Hk. apply S3; auto.
  - intros id reason key e' Hf Hk He'. destruct (relaxed_some _ _ _ _ Hrel He') as (e & He & _ & [Hst|[Hst _]]); [|done].
    rewrite Hst. eapply S4; eauto.
  - intros id Hd. destruct (S5 id Hd) as [H1 H2]. split; [|done]. intros key e' He' Hev.
    destruct (relaxed_some _ _ _ _ Hrel He') as (e & He & E & Hst). rewrite E in Hev.
    destruct (H1 key e He Hev) as [Hs|Hs]; destruct Hst as [Hst|[_ Hsw]]; rewrite ?Hst, ?Hs in *; auto; done.
Qed.

Lemma fails_sound acts fails s :
  sound (acts, s) ->
  (forall a, a ∈ fails -> exists id reason key e, a = FailFinish id reason /\ 0 <= id /\ sv_coord s !! key = Some e /\
     ce_eventId e = id /\ ce_state e = ObjectFailed) ->
  sound (acts ++ fails, s).
Proof.
  intros Hs Hfails. pose proof Hs as [S1 S2 S3 S4 S5 S6 S7]. cbn [fst snd] in *.
  assert (Hno : forall a, a ∈ fails -> act_key a = None) by (intros a Ha; by destruct (Hfails a Ha) as (id & r & k & e & -> & _)).
  assert (Href : forall key id, refers (acts ++ fails, s) key id -> refers (acts, s) key id).
  { intros key id [He|(a & Ha & Hk & Hrow)]; [by left|]. cbn [fst] in Ha. apply elem_of_app in Ha as [Ha|Ha].
    - right. by exists a.
    - rewrite Hno in Hk by done. done. }
  split; cbn [fst snd].
  - rewrite omap_app. replace (omap act_key fails) with (@nil ObjectKey); [by rewrite app_nil_r|].
    clear -Hno. induction fails as [|a fails IH]; [done|]. cbn. rewrite Hno by apply list_elem_of_here.
    apply IH. intros b Hb. apply Hno. by apply list_elem_of_further.
  - intros a key [Ha|Ha]%elem_of_app Hk; [by apply S2|]. rewrite Hno in Hk by done. done.
  - intros key id Hid Hk. apply S3; auto.
  - intros id reason key e [Ha|Ha]%elem_of_app Hk He; [by eapply S4; eauto|].
    destruct (Hfails _ Ha) as (id' & r' & k' & e' & [= -> ->] & Hid & He' & Hev & Hst).
    destruct (S3 key id' Hid) as (r1 & Hr1 & Hk1); [auto|].
    destruct (S3 k' id' Hid) as (r2 & Hr2 & Hk2); [left; by exists e'|]. simplify_eq. done.
  - intros id Hd. destruct (S5 id Hd) as [H1 H2]. split; [done|]. intros a [Ha|Ha]%elem_of_app Hrow; [by apply H2|].
    destruct (Hfails _ Ha) as (id' & r' & k' & e' & -> & Hid & He' & Hev & Hst). injection Hrow as ->.
    destruct (H1 k' e' He' Hev) as [?|?]; congruence.
  - done.
  - intros a id [Ha|Ha]%elem_of_app Hrow; [by eapply S7|].
    destruct (Hfails _ Ha) as (id' & r' & k' & e' & -> & Hid & He' & Hev & Hst). injection Hrow as ->. split; [done|].
    destruct (S3 k' id Hid) as (r & Hr & _); [left; by exists e'|]. by exists r.
Qed.

Lemma erase_relaxed now m : relaxed m (eraseExpiredTerminal objectTtlMs now m).
Proof.
  intros key. unfold eraseExpiredTerminal. rewrite lookup_omap. destruct (m !! key) as [e|]; cbn; [|done].
  destruct (terminal (ce_state e) && _) eqn:E; [by split_bool|]. split; [done|by left].
Qed.

Lemma sweep_sound acts s now :
  sound (acts, s) -> sound (acts ++ (sweep_round objectTtlMs now s).1, (sweep_round objectTtlMs now s).2).
Proof.
  intros Hs. unfold sweep_round, coord_sweep. cbn [fst snd].
  set (m1 := (fun e => if expired objectTtlMs now e then _ else e) <$> sv_coord s).
  assert (Hrel : relaxed (sv_coord s) m1).
  { intros key. unfold m1. rewrite lookup_fmap. destruct (sv_coord s !! key) as [e|]; cbn; [|done].
    destruct (expired objectTtlMs now e) eqn:E; cbn; split; try done; [right|by left]. unfold expired in E. by split_bool. }
  apply (relax_sound _ _ _ Hrel) in Hs.
  change (sv_set_coord s (eraseExpiredTerminal objectTtlMs now m1))
    with (sv_set_coord (sv_set_coord s m1) (eraseExpiredTerminal objectTtlMs now m1)).
  apply relax_sound; [apply erase_relaxed|]. apply fails_sound; [done|].
  intros a Ha. apply list_elem_of_omap in Ha as (x & Hx & Hax). apply list_elem_of_omap in Hx as ([k e] & Hke & Hx).
  apply elem_of_map_to_list in Hke. cbn in Hx. destruct (expired objectTtlMs now e) eqn:E; [|done].
  injection Hx as <-. cbn in Hax. destruct (0 <=? ce_eventId e) eqn:E0; [|done]. injection Hax as <-.
  exists (ce_eventId e), "entrance plate processing TTL expired", k. eexists. split; [done|]. split; [lia|].
  split; [unfold m1; cbn; rewrite lookup_fmap, Hke; cbn; by rewrite E|]. done.
Qed.

(** A new object, whose key no thread is working on. *)
Lemma arrival_sound acts s event now :
  sound (acts, s) -> sv_coord s !! bse_key event = None ->
  (forall a, a ∈ acts -> act_key a <> Some (bse_key event)) ->
  sound (acts ++ [InDownload event],
         sv_set_coord s (<[bse_key event := mkCoordEntry EvQueued (-1) now now 0]> (sv_coord s))).
Proof.
  intros Hs Hnone Hfree. pose proof Hs as [S1 S2 S3 S4 S5 S6 S7]. cbn [fst snd] in *.
  set (m := <[_ := _]> (sv_coord s)).
  assert (Hin : forall a, a ∈ acts ++ [InDownload event] -> a = InDownload event \/ a ∈ acts).
  { intros a. rewrite elem_of_app, list_elem_of_singleton. tauto. }
  assert (Hm : forall key e id, m !! key = Some e -> 0 <= id -> ce_eventId e = id -> sv_coord s !! key = Some e).
  { intros key e id He Hid Hev. unfold m in He. apply lookup_insert_Some in He as [[<- <-]|[_ He]]; [cbn in Hev; lia|done]. }
  assert (Href : forall key id, 0 <= id -> refers (acts ++ [InDownload event], sv_set_coord s m) key id -> refers (acts, s) key id).
  { intros key id Hid [(e & He & Hev)|(a & Ha & Hk & Hrow)].
    - left. exists e. split; [|done]. by eapply Hm.
    - right. destruct (Hin a Ha) as [->|Ha']; [done|]. by exists a. }
  split; cbn [fst snd].
  - rewrite omap_app. cbn. apply NoDup_app. split; [done|]. split; [|apply NoDup_singleton].
    intros k Hk [= ->]%list_elem_of_singleton. apply list_elem_of_omap in Hk as (a & Ha & Hk). by destruct (Hfree a Ha).
  - intros a key Ha Hk. cbn. destruct (Hin a Ha) as [->|Ha'].
    + injection Hk as <-. unfold m. rewrite lookup_insert_eq. left. done.
    + unfold m. rewrite lookup_insert_ne; [by apply S2|]. intros <-. by destruct (Hfree a Ha').
  - intros key id Hid Hk. apply S3; auto.
  - intros id reason key e Hf Hk He. destruct (Hin _ Hf) as [?|Hf']; [done|].
    destruct (S7 _ id Hf' eq_refl) as [Hid _]. unfold m in He. cbn in He.
    apply lookup_insert_Some in He as [[<- <-]|[_ He]]; [|by eapply S4; eauto]. exfalso.
    destruct (Href _ _ Hid Hk) as [(e0 & He0 & _)|(a & Ha & Hka & _)]; [cbn in He0; congruence|by destruct (Hfree a Ha)].
  - intros id Hd. destruct (S5 id Hd) as [H1 H2]. destruct Hd as (r & Hr & _). apply (proj2 S6) in Hr. split.
    + intros key e He Hev. eapply H1; [|done]. eapply (Hm key e id); [done|lia|done].
    + intros a Ha Hrow. destruct (Hin a Ha) as [->|Ha']; [done|]. by apply H2.
  - done.
  - intros a id Ha Hrow. destruct (Hin a Ha) as [->|Ha']; [done|]. by apply (S7 a).
Qed.

Lemma handle_begin_sound acts s event :
  sound (acts, s) ->
  let r := handle_begin objectTtlMs coordCapacity event s in
  (r.1.2 <> [] -> forall a, a ∈ acts -> act_key a <> Some (bse_key event)) -> sound (acts ++ r.1.2, r.2).
Proof.
  intros Hs. cbv zeta. unfold handle_begin. case_bool_decide; [by rewrite app_nil_r|].
  unfold coord_observe. cbv zeta. rewrite bool_decide_eq_false_2 by (by intros ?).
  destruct (_ || _ || _ || _ || _); [cbn; intros _; rewrite app_nil_r; by destruct s|].
  set (m1 := eraseExpiredTerminal _ _ _).
  assert (H1 : sound (acts, sv_set_coord s m1)) by (apply relax_sound; [apply erase_relaxed|done]).
  destruct (m1 !! bse_key event) as [e|] eqn:E.
  - cbn. intros _. rewrite app_nil_r.
    change (sv_set_coord s ?m) with (sv_set_coord (sv_set_coord s m1) m). apply relax_sound; [|done].
    intros key. cbn. destruct (decide (bse_key event = key)) as [<-|Hne].
    + rewrite E, lookup_insert_eq. split; [done|by left].
    + rewrite lookup_insert_ne by done. destruct (m1 !! key); [|done]. split; [done|by left].
  - destruct (coordCapacity <=? size m1)%nat; cbn; intros Hfree; [by rewrite app_nil_r|].
    change (sv_set_coord s ?m) with (sv_set_coord (sv_set_coord s m1) m). apply arrival_sound; [done|done|]. by apply Hfree.
Qed.

(** * Histories *)

(** The ingress thread handles one event at a time, under [ingressMutex_]; a new object starts only when no thread works
    on an older one with the same key; the plates of the slots change the parking tables only. *)
Inductive service_step : pool -> pool -> Prop :=
| SvHandle acts s event :
    Forall (fun a => is_ingress a = false) acts ->
    let r := handle_begin objectTtlMs coordCapacity event s in
    (r.1.2 <> [] -> forall a, a ∈ acts -> act_key a <> Some (bse_key event)) ->
    service_step (acts, s) (acts ++ r.1.2, r.2)
| SvAdvance l1 a l2 o s : service_step (l1 ++ a :: l2, s) (l1 ++ (step_of a o s).1 ++ l2, (step_of a o s).2)
| SvSweep acts s now :
    service_step (acts, s) (acts ++ (sweep_round objectTtlMs now s).1, (sweep_round objectTtlMs now s).2)
| SvClean acts s now outside :
    service_step (acts, s)
      (acts, cleanupDueArtifacts outputRoot cwd deleteArtifactsOnSuccess failureRetentionMs now outside s)
| SvParking acts s p : service_step (acts, s) (acts, sv_set_db s (ed_set_parking (sv_db s) p)).

Lemma service_step_sound p p' : service_step p p' -> sound p -> sound p'.
Proof.
  intros [acts s event _ r Hfree|l1 a l2 o s|acts s now|acts s now outside|acts s parking] Hs.
  - by apply handle_begin_sound.
  - by apply advance_sound.
  - by apply sweep_sound.
  - destruct (cleanup_due_step now outside s) as [Hc Hr]. by eapply (db_sound none).
  - eapply (db_sound none); [done|done|done|]. apply (events_step _ _ (sv_db s) (ed_set_parking (sv_db s) parking));
      [done|done|apply rows_step_refl].
Qed.

Lemma service_step_keeps p p' id r :
  service_step p p' -> sound p -> ed_events (sv_db p.2) !! id = Some r -> rr_state r = RCompleted ->
  exists r', ed_events (sv_db p'.2) !! id = Some r' /\ outcome r' = outcome r.
Proof.
  intros [acts s event _ r0 Hfree|l1 a l2 o s|acts s now|acts s now outside|acts s parking] Hs Hr Hc; cbn [fst snd] in *.
  - exists r. split; [|done]. rewrite <- Hr. subst r0. unfold handle_begin. case_bool_decide; [done|].
    destruct (coord_observe _ _ _ _) as [observed m]. by destruct (obr_code observed); try done; destruct (obr_newObject observed).
  - by apply (advance_keeps l1 a l2 o s).
  - exists r. split; [|done]. rewrite <- Hr. unfold sweep_round. by destruct (coord_sweep _ _ _).
  - destruct (cleanup_due_step now outside s) as [_ Hrows]. destruct (rs_old _ _ _ _ Hrows id r Hr) as (r' & Hr' & _ & Ho).
    exists r'. split; [done|]. apply Ho; [done|by intros []].
  - by exists r.
Qed.

Definition service_start (d : EntranceDb) : pool := ([], mkService ∅ [] d ∅ ∅).

Lemma start_sound d : numbered d -> sound (service_start d).
Proof.
  intros Hn. split; cbn.
  - constructor.
  - intros a key Ha. by destruct (not_elem_of_nil _ Ha).
  - intros key id _ [(e & He & _)|(a & Ha & _)]; cbn in *; [by rewrite lookup_empty in He|].
    by destruct (not_elem_of_nil _ Ha).
  - intros id reason key e Ha. by destruct (not_elem_of_nil _ Ha).
  - intros id _. split; [intros key e He; by rewrite lookup_empty in He|].
    intros a Ha. by destruct (not_elem_of_nil _ Ha).
  - done.
  - intros a id Ha. by destruct (not_elem_of_nil _ Ha).
Qed.

(** C30 [safety] A recognition that was completed keeps its plate, class and vehicle for ever. The ingress thread, the callbacks
    of the EV and OCR workers, the sweep and the clean-up may be interleaved between any two of their calls, and any
    call may fail: neither a late result nor an expiry nor a failed step of another thread changes the outcome of a
    completed row, as long as no new object takes over a key while a thread still works on it. *)
Theorem completed_kept d p p' id r :
  numbered d -> rtc service_step (service_start d) p -> rtc service_step p p' ->
  ed_events (sv_db p.2) !! id = Some r -> rr_state r = RCompleted ->
  exists r', ed_events (sv_db p'.2) !! id = Some r' /\ outcome r' = outcome r.
Proof.
  intros Hn H1 H2. assert (Hs : sound p).
  { apply start_sound in Hn. induction H1; eauto using service_step_sound. }
  clear H1. revert r. induction H2 as [|p q q' Hpq _ IH]; intros r Hr Hc; [by exists r|].
  destruct (service_step_keeps _ _ id r Hpq Hs Hr Hc) as (r1 & Hr1 & E1).
  apply service_step_sound in Hpq; [|done].
  destruct (IH Hpq r1 Hr1) as (r2 & Hr2 & E2); [unfold outcome in E1; congruence|]. exists r2. split; [done|congruence].
Qed.
End Config.

(** * Examples and witnesses *)

(** Concrete runs of the entrance's vehicle service: a car from its picture to the completed row, and two interleavings
    that reach a row they should leave alone. *)
Definition lane_db : EntranceDb := mkEntranceDb (mkParkingDb true ∅ {["A1" := "VACANT"]} ∅ 0 [] [] ∅) ∅ 0.

Lemma lane_numbered : numbered lane_db.
Proof. split; [done|]. intros id r Hr. cbn in Hr. by rewrite lookup_empty in Hr. Qed.

Notation lane_step := (advance 20000 10 64 "data" ["srv"] true).
Notation lane_steps := (service_step 10000 4 20000 10 64 "data" ["srv"] true 86400000).
Notation lane_handle event p := ((handle_begin 10000 4 event p.2).1.2, (handle_begin 10000 4 event p.2).2).

Definition lane_ev : EntranceEvResult := mkEvResult (Some true) "EV_CANDIDATE" "" "m" d_zero "" "" true.
Definition lane_ocr : GenericOcrResult := mkOcrResult true "12가3456" (d_literal 95 2) "" 1.
Definition lane_out (now : Z) : StepOutside :=
  mkStepOutside now true None true true lane_ev lane_ocr 1 (Some true) true true true.
Definition lane_car : BestShotEvent :=
  mkBestShotEvent (mkObjectKey "cam" "entry" "7") PlateShot "/img/7.jpg" "rtsp://u:p@host/1" 1000.

(** The first activity goes on. *)
Definition go_on (p : pool) (o : StepOutside) : pool :=
  match p.1 with [] => p | a :: rest => ((lane_step a o p.2).1 ++ rest, (lane_step a o p.2).2) end.

Lemma go_on_steps p os : rtc lane_steps p (foldl go_on p os).
Proof.
  revert p. induction os as [|o os IH]; intros p; [apply rtc_refl|]. cbn [foldl].
  destruct p as [[|a rest] s]; [apply IH|]. eapply rtc_l; [|apply IH].
  apply (SvAdvance 10000 4 20000 10 64 "data" ["srv"] true 86400000 [] a rest o s).
Qed.

Lemma sweep_step p now :
  rtc lane_steps p (p.1 ++ (sweep_round 10000 now p.2).1, (sweep_round 10000 now p.2).2).
Proof. destruct p as [acts s]. apply rtc_once. exact (SvSweep 10000 4 20000 10 64 "data" ["srv"] true 86400000 acts s now). Qed.

Notation lane_arrived := (lane_handle lane_car (service_start lane_db)).
Notation lane_finished := (foldl go_on lane_arrived (lane_out <$> seqZ 1001 15)).

Lemma arrival_steps : rtc lane_steps (service_start lane_db) lane_arrived.
Proof.
  apply rtc_once.
  apply (SvHandle 10000 4 20000 10 64 "data" ["srv"] true 86400000 [] (mkService ∅ [] lane_db ∅ ∅) lane_car); [constructor|].
  intros _ a Ha. by destruct (not_elem_of_nil _ Ha).
Qed.

(** The whole way: the row is completed, the work directory is gone, nothing is left to do. *)
Example lane_completed :
  (rr_state <$> ed_events (sv_db lane_finished.2) !! 1) = Some RCompleted /\
  (ed_events (sv_db lane_finished.2) !! 1 ≫= rr_plate_number) = Some "12가3456" /\ lane_finished.1 = [] /\
  bool_decide (sv_dirs lane_finished.2 = ∅) = true.
Proof. vm_compute. repeat split. Qed.

Example completed_kept_witness :
  exists r r', ed_events (sv_db lane_finished.2) !! 1 = Some r /\ rr_state r = RCompleted /\
    ed_events (sv_db (sweep_round 10000 99999 lane_finished.2).2) !! 1 = Some r' /\ outcome r' = outcome r.
Proof.
  assert (H : exists r, ed_events (sv_db lane_finished.2) !! 1 = Some r /\ rr_state r = RCompleted)
    by (vm_compute; eexists; split; reflexivity).
  destruct H as (r & Hr & Hc).
  assert (H1 : rtc lane_steps (service_start lane_db) lane_finished)
    by (etrans; [apply arrival_steps|apply go_on_steps]).
  destruct (completed_kept 10000 4 20000 10 64 "data" ["srv"] true 86400000 lane_db _ _ 1 r lane_numbered H1
    (sweep_step lane_finished 99999) Hr Hc) as (r' & Hr' & Ho).
  exists r, r'. exact (conj Hr (conj Hc (conj Hr' Ho))).
Defined.

(** The sweep comes between the right to an EV result and its storing: the row that has failed is open again, and
    nobody is left to finish it. *)
Notation lane_at_save := (foldl go_on lane_arrived (lane_out <$> seqZ 1001 7)).
Notation lane_swept := ((sweep_round 10000 20000 lane_at_save.2).1 ++ lane_at_save.1, (sweep_round 10000 20000 lane_at_save.2).2).
Notation lane_failed := (foldl go_on lane_swept [lane_out 20001]).
Notation lane_reopened := (foldl go_on lane_failed (lane_out <$> seqZ 20002 3)).

Example failed_row_reopened :
  (rr_state <$> ed_events (sv_db lane_failed.2) !! 1) = Some RFailed /\
  (rr_state <$> ed_events (sv_db lane_reopened.2) !! 1) = Some ROcrQueued /\ lane_reopened.1 = [].
Proof. vm_compute. repeat split. Qed.

(** A root that ends in a separator: no directory below it counts as inside. *)
Example root_with_separator :
  isInside ["srv"] "data" (workDirectory "data" lane_car) = true /\
  isInside ["srv"] "data/" (workDirectory "data/" lane_car) = false.
Proof. vm_compute. repeat split. Qed.
