(* ===== verification/Alert.v ===== *)
(** The parking alerts: the commands of the character device [driver/parking_alert/parking_alert.c], the adapter
    that opens it ([src/device/LinuxDriverAdapter.cpp]) and the controller that turns parking events into bits of
    its mask ([src/device/ParkingAlertController.cpp]). The controller is stated over a class of backends; the
    opened adapter is one. *)
From S2P Require Import Prelude.

#[local] Open Scope Z_scope.

(** * The driver *)
Module Driver.

Definition PARKING_ALERT_API_VERSION : Z := 1.
Definition PARKING_ALERT_MAX_SLOTS : Z := 32.
Definition PARKING_ALERT_NO_SLOT : Z := 2 ^ 32 - 1.
Definition PARKING_ALERT_OP_SET_SLOT : Z := 1.
Definition PARKING_ALERT_OP_CLEAR_SLOT : Z := 2.
Definition PARKING_ALERT_OP_CLEAR_ALL : Z := 3.

Definition EAGAIN : Z := 11.
Definition EFAULT : Z := 14.
Definition EINVAL : Z := 22.
Definition ENOTTY : Z := 25.

(** [include/uapi/parking_alert.h:22-27 parking_alert_command] *)
Record parking_alert_command := mkCommand { ac_version : Z; ac_operation : Z; ac_slot : Z; ac_event : Z }.

(** [include/uapi/parking_alert.h:30-38 parking_alert_state] *)
Record parking_alert_state := mkState {
  as_version : Z; as_active_mask : Z; as_last_operation : Z; as_last_slot : Z; as_generation : Z; as_event : Z
}.

(** [driver/parking_alert/parking_alert.c:25-37 parking_alert_device] *)
Record Device := mkDevice {
  dv_active_mask : Z; dv_last_operation : Z; dv_last_slot : Z; dv_generation : Z; dv_last_event_id : Z
}.

(** [driver/parking_alert/parking_alert.c:39-42 parking_alert_file_context] *)
Record FileContext := mkFileContext { fc_observed_generation : Z; fc_initial_read_pending : bool }.

(** [driver/parking_alert/parking_alert.c:252-258 parking_alert_init] the state of a new module. *)
Definition new_device : Device := mkDevice 0 0 PARKING_ALERT_NO_SLOT 0 0.

(** [driver/parking_alert/parking_alert.c:46-55 parking_alert_fill_state_locked] *)
Definition fill_state (d : Device) : parking_alert_state :=
  mkState PARKING_ALERT_API_VERSION (dv_active_mask d) (dv_last_operation d) (dv_last_slot d) (dv_generation d)
    (dv_last_event_id d).

(** [driver/parking_alert/parking_alert.c:57-71 parking_alert_validate_command] *)
Definition validate_command (c : parking_alert_command) : Z :=
  if negb (ac_version c =? PARKING_ALERT_API_VERSION) then - EINVAL else
  if (ac_operation c =? PARKING_ALERT_OP_SET_SLOT) || (ac_operation c =? PARKING_ALERT_OP_CLEAR_SLOT) then
    if ac_slot c <? PARKING_ALERT_MAX_SLOTS then 0 else - EINVAL
  else if ac_operation c =? PARKING_ALERT_OP_CLEAR_ALL then 0
  else - EINVAL.

(** [BIT(n)] and the assignments to a 32-bit mask. *)
Definition BIT (n : Z) : Z := Z.shiftl 1 n.
Definition u32 (x : Z) : Z := x mod 2 ^ 32.

(** [driver/parking_alert/parking_alert.c:85-98 parking_alert_apply_command] The new mask. *)
Definition next_mask (c : parking_alert_command) (mask : Z) : Z :=
  if ac_operation c =? PARKING_ALERT_OP_SET_SLOT then u32 (Z.lor mask (BIT (ac_slot c)))
  else if ac_operation c =? PARKING_ALERT_OP_CLEAR_SLOT then u32 (Z.land mask (Z.lnot (BIT (ac_slot c))))
  else 0.

(** [driver/parking_alert/parking_alert.c:73-115 parking_alert_apply_command] The answer, whether the readers are
    woken, and the device. *)
Definition apply_command (c : parking_alert_command) (d : Device) : Z * bool * Device :=
  let ret := validate_command c in
  if negb (ret =? 0) then (ret, false, d) else
  let mask := next_mask c (dv_active_mask d) in
  if negb (dv_active_mask d =? mask) then
    (0, true,
     mkDevice mask (ac_operation c)
       (if ac_operation c =? PARKING_ALERT_OP_CLEAR_ALL then PARKING_ALERT_NO_SLOT else ac_slot c)
       ((dv_generation d + 1) mod 2 ^ 64) (ac_event c))
  else (0, false, d).

(** [driver/parking_alert/parking_alert.c:117-128 parking_alert_open] with the memory it asks for. *)
Definition open_file : FileContext := mkFileContext 0 true.

Definition changed (f : FileContext) (d : Device) : bool :=
  negb (dv_generation d =? fc_observed_generation f).

(** What a read ends with: bytes, an error, or it sleeps until the next change. *)
Inductive ReadResult := ReadState (s : parking_alert_state) | ReadError (e : Z) | ReadSleeps.

(** [driver/parking_alert/parking_alert.c:138-171 parking_alert_read] [enough]: the buffer has room for the state;
    [copied]: it can be written. *)
Definition device_read (nonblock enough copied : bool) (f : FileContext) (d : Device) : ReadResult * FileContext :=
  if negb enough then (ReadError (- EINVAL), f) else
  if negb (fc_initial_read_pending f) && negb (changed f d) then
    (if nonblock then ReadError (- EAGAIN) else ReadSleeps, f)
  else
    let state := fill_state d in
    (if copied then ReadState state else ReadError (- EFAULT), mkFileContext (as_generation state) false).

(** [driver/parking_alert/parking_alert.c:173-188 parking_alert_write] [None]: the buffer cannot be read. *)
Definition device_write (count : Z) (buffer : option parking_alert_command) (d : Device) : Z * Device :=
  if negb (count =? 16) then (- EINVAL, d) else
  match buffer with
  | None => (- EFAULT, d)
  | Some command =>
      let '(ret, _, d') := apply_command command d in
      (if ret =? 0 then count else ret, d')
  end.

(** [driver/parking_alert/parking_alert.c:190-200 parking_alert_poll] Is there something to read? *)
Definition device_poll (f : FileContext) (d : Device) : bool := fc_initial_read_pending f || changed f d.

(** The requests of [ioctl], with what the argument points to. *)
Inductive Request :=
| IOC_SET_SLOT (argument : option parking_alert_command)
| IOC_CLEAR_SLOT (argument : option parking_alert_command)
| IOC_CLEAR_ALL
| IOC_GET_STATE (copied : bool)
| IOC_OTHER.

Definition with_operation (c : parking_alert_command) (operation : Z) : parking_alert_command :=
  mkCommand (ac_version c) operation (ac_slot c) (ac_event c).
Definition clear_all_command : parking_alert_command :=
  mkCommand PARKING_ALERT_API_VERSION PARKING_ALERT_OP_CLEAR_ALL PARKING_ALERT_NO_SLOT 0.

(** [driver/parking_alert/parking_alert.c:202-237 parking_alert_ioctl] The answer, the state that is copied out, and
    the device. *)
Definition ioctl (r : Request) (d : Device) : Z * option parking_alert_state * Device :=
  let applied c := let '(ret, _, d') := apply_command c d in (ret, None, d') in
  match r with
  | IOC_SET_SLOT (Some c) => applied (with_operation c PARKING_ALERT_OP_SET_SLOT)
  | IOC_CLEAR_SLOT (Some c) => applied (with_operation c PARKING_ALERT_OP_CLEAR_SLOT)
  | IOC_SET_SLOT None | IOC_CLEAR_SLOT None => (- EFAULT, None, d)
  | IOC_CLEAR_ALL => applied clear_all_command
  | IOC_GET_STATE true => (0, Some (fill_state d), d)
  | IOC_GET_STATE false => (- EFAULT, None, d)
  | IOC_OTHER => (- ENOTTY, None, d)
  end.

End Driver.

(** * The controller *)
Module Controller.

(** What the controller is given to reach the device; [false]: the function throws. *)
Class Backend (St : Type) := {
  setSlot : Z -> Z -> St -> bool * St;
  clearSlot : Z -> Z -> St -> bool * St;
  clearAll : St -> bool * St
}.

(** [src/device/ParkingAlertController.cpp:13-19 trim] *)
Definition alert_trim (value : string) : string := drop_space_end (drop_space value).

(** [src/device/ParkingAlertController.cpp:21-23 eventId] *)
Definition eventId (sessionId : Z) : Z := if 0 <? sessionId then sessionId else 0.

(** [std::stoul], 64 bits wide, with the text behind the number; a sign is accepted and negates modulo 2^64. *)
Definition stoul (text : string) : option (Z * string) :=
  let body := drop_space text in
  let '(negative, digits) := match body with
                             | String "-" rest => (true, rest)
                             | String "+" rest => (false, rest)
                             | _ => (false, body)
                             end in
  match digits with
  | String c _ =>
      if isdigit c then
        let '(v, rest) := take_digits_rest 0 digits in
        if v <? 2 ^ 64 then Some (if negative : bool then (- v) mod 2 ^ 64 else v, rest) else None
      else None
  | EmptyString => None
  end.

(** [src/device/ParkingAlertController.cpp:83-97 parseSlotMap] An entry of the map. *)
Definition parse_entry (token : string) : option (string * Z) :=
  match break_on ":" token with
  | None => None
  | Some (before, behind) =>
      match stoul (alert_trim behind) with
      | Some (index, "") => if is_empty (alert_trim before) || (32 <=? index) then None else Some (alert_trim before, index)
      | _ => None
      end
  end.

(** [src/device/ParkingAlertController.cpp:76-104 parseSlotMap] [None]: it throws. *)
Fixpoint parse_entries (tokens : list string) (result : gmap string Z) (indexes : gset Z) : option (gmap string Z) :=
  match tokens with
  | [] => Some result
  | token :: tokens =>
      match parse_entry token with
      | None => None
      | Some (slot, index) =>
          if bool_decide (slot ∈ dom result) || bool_decide (index ∈ indexes) then None
          else parse_entries tokens (<[slot := index]> result) ({[index]} ∪ indexes)
      end
  end.
Definition parseSlotMap (value : string) : option (gmap string Z) :=
  match parse_entries (getline_fields "," value) ∅ ∅ with
  | Some result => if bool_decide (result = ∅) then None else Some result
  | None => None
  end.

Section Operations.
Context {St : Type} `{Backend St} (slotMap : gmap string Z).

(** [src/device/ParkingAlertController.cpp:34-48 ParkingAlertController::initialize] *)
Fixpoint alert_restore (activeAlerts : list (string * Z)) (st : St) : bool * St :=
  match activeAlerts with
  | [] => (true, st)
  | (slot, session) :: activeAlerts =>
      match slotMap !! slot with
      | None => alert_restore activeAlerts st
      | Some index =>
          let '(ok, st') := setSlot index (eventId session) st in
          if ok then alert_restore activeAlerts st' else (false, st')
      end
  end.
Definition alert_initialize (activeAlerts : list (string * Z)) (st : St) : bool * St :=
  let '(ok, st') := clearAll st in
  if ok then alert_restore activeAlerts st' else (false, st').

Definition activates (eventType : string) : bool :=
  bool_decide (eventType = "NON_EV_ALERT") || bool_decide (eventType = "VIOLATION_TRIGGERED").
Definition deactivates (eventType : string) : bool := bool_decide (eventType = "DEPARTURE").

(** [src/device/ParkingAlertController.cpp:50-70 ParkingAlertController::handleEvent] *)
Definition handleEvent (eventType : string) (sessionId : Z) (slotId : string) (st : St) : bool * St :=
  if negb (activates eventType) && negb (deactivates eventType) then (true, st) else
  match slotMap !! slotId with
  | None => (false, st)
  | Some index =>
      if activates eventType then setSlot index (eventId sessionId) st
      else clearSlot index (eventId sessionId) st
  end.

End Operations.
End Controller.

(** * The adapter *)
Module Adapter.
Import Driver.

(** The adapter with the device behind its descriptor. *)
Record OpenAdapter := mkAdapter { ad_open : bool; ad_device : Device }.

(** [src/device/LinuxDriverAdapter.cpp:74-90 LinuxDriverAdapter::updateSlot] *)
Definition updateSlot (request : option parking_alert_command -> Request) (operation slotIndex eventId : Z) (a : OpenAdapter) :
    bool * OpenAdapter :=
  if negb (ad_open a) then (false, a) else
  if PARKING_ALERT_MAX_SLOTS <=? slotIndex then (false, a) else
  let '(ret, _, d) := ioctl (request (Some (mkCommand PARKING_ALERT_API_VERSION operation slotIndex eventId)))
                        (ad_device a) in
  (0 <=? ret, mkAdapter (ad_open a) d).

(** [src/device/LinuxDriverAdapter.cpp:92-95 LinuxDriverAdapter::setSlot] *)
Definition set_slot (slotIndex eventId : Z) (a : OpenAdapter) : bool * OpenAdapter :=
  updateSlot IOC_SET_SLOT PARKING_ALERT_OP_SET_SLOT slotIndex eventId a.

(** [src/device/LinuxDriverAdapter.cpp:97-100 LinuxDriverAdapter::clearSlot] *)
Definition clear_slot (slotIndex eventId : Z) (a : OpenAdapter) : bool * OpenAdapter :=
  updateSlot IOC_CLEAR_SLOT PARKING_ALERT_OP_CLEAR_SLOT slotIndex eventId a.

(** [src/device/LinuxDriverAdapter.cpp:102-107 LinuxDriverAdapter::clearAll] *)
Definition clear_all (a : OpenAdapter) : bool * OpenAdapter :=
  if negb (ad_open a) then (false, a) else
  let '(ret, _, d) := ioctl IOC_CLEAR_ALL (ad_device a) in (0 <=? ret, mkAdapter (ad_open a) d).

(** [src/device/LinuxDriverAdapter.cpp:109-126 LinuxDriverAdapter::state] [None]: it throws. *)
Definition adapter_state (a : OpenAdapter) : option parking_alert_state :=
  if negb (ad_open a) then None else
  match ioctl (IOC_GET_STATE true) (ad_device a) with
  | (ret, Some raw, _) =>
      if (ret <? 0) || negb (as_version raw =? PARKING_ALERT_API_VERSION) then None else Some raw
  | _ => None
  end.

End Adapter.

(** [src/main.cpp:426-438 main] The backend of the server: the functions of the adapter. *)
#[global] Instance adapter_backend : Controller.Backend Adapter.OpenAdapter := {
  Controller.setSlot := Adapter.set_slot;
  Controller.clearSlot := Adapter.clear_slot;
  Controller.clearAll := Adapter.clear_all
}.
