(* ===== verification/RoiSettings.v ===== *)
(** The regions of the parking slots, [src/settings/ParkingRoiSettingsService.cpp]: kept in memory and in the settings of
    the database, each with a revision that the pictures carry. The reading and the printing of a floating-point
    number by the library's streams are arguments. *)
From stdpp Require Import sorting.
From S2P Require Import Prelude OccupancyDb TimeText DeadlineQueue ParkingDb Doubles.
From S2P Require Import Alert.

#[local] Open Scope Z_scope.

(** [include/snapshot/NormalizedRoi.hpp:5-10 NormalizedRoi] *)
Record NormalizedRoi := mkNormalizedRoi { nr_x : double; nr_y : double; nr_width : double; nr_height : double }.
Definition default_roi : NormalizedRoi := mkNormalizedRoi d_zero d_zero d_one d_one.

(** [include/parking/AppliedParkingRoi.hpp:11-15 AppliedParkingRoi] *)
Record AppliedRoi := mkAppliedRoi { ar_slotId : string; ar_value : NormalizedRoi; ar_revision : Z }.

(** [src/settings/ParkingRoiSettingsService.cpp:147-154 ParkingRoiSettingsService::isValid] *)
Definition roi_isValid (roi : NormalizedRoi) : bool :=
  d_is_finite (nr_x roi) && d_is_finite (nr_y roi) && d_is_finite (nr_width roi) && d_is_finite (nr_height roi) &&
  d_le d_zero (nr_x roi) && d_le d_zero (nr_y roi) && d_lt d_zero (nr_width roi) && d_lt d_zero (nr_height roi) &&
  d_lt (nr_x roi) d_one && d_lt (nr_y roi) d_one &&
  d_le (d_add (nr_x roi) (nr_width roi)) d_one && d_le (d_add (nr_y roi) (nr_height roi)) d_one.

(** [src/settings/ParkingRoiSettingsService.cpp:156-159 ParkingRoiSettingsService::settingKey] *)
Definition settingKey (slot_id : string) : string := "parking_slot_roi." +:+ slot_id.

Section Texts.
(** [operator>>] for a double: the number and the text behind it; [operator<<] with 17 digits. *)
Context (get_double : string -> option (double * string)) (put_double : double -> string).

(** [src/settings/ParkingRoiSettingsService.cpp:161-168 ParkingRoiSettingsService::serialize] *)
Definition roi_serialize (applied : AppliedRoi) : string :=
  let roi := ar_value applied in
  put_double (nr_x roi) +:+ "," +:+ put_double (nr_y roi) +:+ "," +:+ put_double (nr_width roi) +:+ "," +:+
  put_double (nr_height roi) +:+ "," +:+ pretty (Z.to_N (ar_revision applied)).

(** [operator>>] for a character, which is to be a comma: what is behind it. *)
Definition get_comma (text : string) : option string :=
  match drop_space text with String "," rest => Some rest | _ => None end.

(** [src/settings/ParkingRoiSettingsService.cpp:170-193 ParkingRoiSettingsService::parse] *)
Definition roi_parse (slot_id value : string) : option AppliedRoi :=
  '(x, t1) ← get_double value;
  t2 ← get_comma t1;
  '(y, t3) ← get_double t2;
  t4 ← get_comma t3;
  '(width, t5) ← get_double t4;
  t6 ← get_comma t5;
  '(height, t7) ← get_double t6;
  '(revision, t8) ← (if is_empty (drop_space t7) then Some (1, "")
                     else t ← get_comma t7;
                          '(revision, rest) ← Alert.Controller.stoul t;
                          if revision =? 0 then None else Some (revision, rest));
  let roi := mkNormalizedRoi x y width height in
  if negb (is_empty (drop_space t8)) || negb (roi_isValid roi) then None
  else Some (mkAppliedRoi slot_id roi revision).

(** * The service *)

(** [include/settings/ParkingRoiSettingsService.hpp:62-65 ParkingRoiSettingsService] The slots in the order of the set. *)
Record RoiSettings := mkRoiSettings {
  rs_known : list string;
  rs_bootstrap : gmap string NormalizedRoi;
  rs_rois : gmap string AppliedRoi
}.

(** [src/settings/ParkingRoiSettingsService.cpp:27-74 ParkingRoiSettingsService::initialize] The slots one by one;
    [fails]: the disk fails in the write for a slot. [None]: the server does not start. *)
Fixpoint roi_load (fails : string -> bool) (bootstrap : gmap string NormalizedRoi) (slots : list string)
    (loaded : gmap string AppliedRoi) (d : ParkingDb) : option (gmap string AppliedRoi) * ParkingDb :=
  match slots with
  | [] => (Some loaded, d)
  | slot_id :: slots =>
      let fallback := bootstrap !! slot_id in
      if (match fallback with Some roi => negb (roi_isValid roi) | None => false end) then (None, d) else
      let stored := match getSystemSetting (settingKey slot_id) d with
                    | Some text => roi_parse slot_id text
                    | None => None
                    end in
      match stored, fallback with
      | Some roi, _ => roi_load fails bootstrap slots (<[slot_id := roi]> loaded) d
      | None, Some value =>
          let roi := mkAppliedRoi slot_id value 1 in
          match (if fails slot_id then (false, d) else upsertSystemSetting (settingKey slot_id) (roi_serialize roi) d) with
          | (true, d') => roi_load fails bootstrap slots (<[slot_id := roi]> loaded) d'
          | (false, d') => (None, d')
          end
      | None, None => roi_load fails bootstrap slots loaded d
      end
  end.
Definition roi_initialize (fails : string -> bool) (s : RoiSettings) (d : ParkingDb) : bool * RoiSettings * ParkingDb :=
  match roi_load fails (rs_bootstrap s) (rs_known s) ∅ d with
  | (Some loaded, d') => (true, mkRoiSettings (rs_known s) (rs_bootstrap s) loaded, d')
  | (None, d') => (false, s, d')
  end.

(** [src/settings/ParkingRoiSettingsService.cpp:83-89 ParkingRoiSettingsService::resolveForUse] *)
Definition roi_resolveForUse (slot_id : string) (s : RoiSettings) : option AppliedRoi := rs_rois s !! slot_id.

(** [src/settings/ParkingRoiSettingsService.cpp:91-103 ParkingRoiSettingsService::list] In the order of the slots' names. *)
Definition slot_before (a b : AppliedRoi) : Prop := String.leb (ar_slotId a) (ar_slotId b) = true.
#[global] Instance slot_before_dec : RelDecision slot_before.
Proof. intros a b. unfold slot_before. apply _. Defined.
Definition roi_list (s : RoiSettings) : list AppliedRoi := merge_sort slot_before (snd <$> map_to_list (rs_rois s)).

(** [include/settings/ParkingRoiSettingsService.hpp:25-31 ParkingRoiUpdateResult] *)
Record RoiUpdateResult := mkRoiUpdateResult {
  ru_success : bool; ru_slotFound : bool; ru_roi : NormalizedRoi; ru_revision : Z; ru_error : string
}.

(** [src/settings/ParkingRoiSettingsService.cpp:105-145 ParkingRoiSettingsService::update] [fails], [log_fails]: the
    disk fails in the write of the setting, of the row in the log of events, whose answer is not used. [put_fixed]:
    a number with six decimals. *)
Definition roi_update (put_fixed : double -> string) (changed_at : string) (fails log_fails : bool) (slot_id : string) (roi : NormalizedRoi) (s : RoiSettings) (d : ParkingDb) :
    RoiUpdateResult * RoiSettings * ParkingDb :=
  if negb (bool_decide (slot_id ∈ rs_known s)) then (mkRoiUpdateResult false false default_roi 0 "parking slot is not configured", s, d) else
  if negb (roi_isValid roi) then (mkRoiUpdateResult false true default_roi 0 "ROI must be normalized and remain inside the image", s, d) else
  let next_revision := match rs_rois s !! slot_id with
                       | Some current => (ar_revision current + 1) mod 2 ^ 64
                       | None => 1
                       end in
  let applied := mkAppliedRoi slot_id roi next_revision in
  match (if fails then (false, d) else upsertSystemSetting (settingKey slot_id) (roi_serialize applied) d) with
  | (false, d') => (mkRoiUpdateResult false true default_roi 0 "failed to persist ROI", s, d')
  | (true, d') =>
      let message := "x=" +:+ put_fixed (nr_x roi) +:+ " y=" +:+ put_fixed (nr_y roi) +:+ " width=" +:+
                     put_fixed (nr_width roi) +:+ " height=" +:+ put_fixed (nr_height roi) +:+ " revision=" +:+
                     pretty (Z.to_N next_revision) +:+ " changed_at=" +:+ changed_at +:+ " success=true" in
      (mkRoiUpdateResult true true roi next_revision "",
       mkRoiSettings (rs_known s) (rs_bootstrap s) (<[slot_id := applied]> (rs_rois s)),
       insertSystemEvent log_fails "PARKING_ROI_UPDATED" slot_id message d')
  end.

(** * A restart *)

(** The streams read back what they have printed, in front of a comma. *)
Definition double_prints (x : double) : Prop :=
  forall rest, get_double (put_double x +:+ String "," rest) = Some (x, String "," rest).
Definition roi_prints (roi : NormalizedRoi) : Prop :=
  double_prints (nr_x roi) /\ double_prints (nr_y roi) /\ double_prints (nr_width roi) /\ double_prints (nr_height roi).

Lemma stoul_pretty n : 0 <= n < 2 ^ 64 -> Alert.Controller.stoul (pretty (Z.to_N n)) = Some (n, "").
Proof.
  intros Hn. pose proof (digits_value_pretty (Z.to_N n)) as Hd. pose proof (pretty_N_digits (Z.to_N n)) as Hall.
  unfold digits_value in Hd. destruct (pretty (Z.to_N n)) as [|c s]; [done|].
  simpl in Hall. apply andb_prop in Hall as [Hc _]. cbn [is_empty] in Hd.
  unfold Alert.Controller.stoul. cbn [drop_space]. rewrite (isdigit_not_space c Hc).
  apply (take_digits_acc (String c s) 0) in Hd. rewrite Z2N.id in Hd by lia. change (Z.of_N 0) with 0 in Hd.
  replace (match c with "-"%char => (true, s) | "+"%char => (false, s) | _ => (false, String c s) end)
    with (false, String c s) by (by destruct c as [[] [] [] [] [] [] [] []]).
  rewrite Hc, Hd. by rewrite (proj2 (Z.ltb_lt n (2 ^ 64))) by lia.
Qed.

Lemma get_comma_comma rest : get_comma (String "," rest) = Some rest.
Proof. reflexivity. Qed.

Lemma roi_parse_serialize slot a :
  roi_prints (ar_value a) -> roi_isValid (ar_value a) = true -> 0 < ar_revision a < 2 ^ 64 ->
  roi_parse slot (roi_serialize a) = Some (mkAppliedRoi slot (ar_value a) (ar_revision a)).
Proof.
  destruct a as [sid [x y w h] rev]. cbn [ar_value ar_revision]. intros (Hx & Hy & Hw & Hh) Hv Hr.
  unfold roi_parse, roi_serialize. cbn [ar_value ar_revision nr_x nr_y nr_width nr_height] in *.
  unfold double_prints in *. cbn [String.append].
  rewrite Hx. cbn [mbind option_bind]. rewrite get_comma_comma. cbn [mbind option_bind].
  rewrite Hy. cbn [mbind option_bind]. rewrite get_comma_comma. cbn [mbind option_bind].
  rewrite Hw. cbn [mbind option_bind]. rewrite get_comma_comma. cbn [mbind option_bind].
  rewrite Hh. cbn [mbind option_bind]. rewrite get_comma_comma. cbn [mbind option_bind].
  change (is_empty (drop_space (String "," (pretty (Z.to_N rev))))) with false. cbn [mbind option_bind].
  rewrite stoul_pretty by lia. cbn [mbind option_bind]. rewrite (proj2 (Z.eqb_neq rev 0)) by lia.
  cbn [mbind option_bind]. by rewrite Hv.
Qed.

(** Each slot of the service has the region that is stored, and none if there is nothing to read. *)
Record roi_mirrors (s : RoiSettings) (d : ParkingDb) : Prop := {
  rm_open : pd_open d = true;
  rm_nodup : NoDup (rs_known s);
  rm_bootstrap : forall slot roi, slot ∈ rs_known s -> rs_bootstrap s !! slot = Some roi -> roi_isValid roi = true;
  rm_known : forall slot a, rs_rois s !! slot = Some a -> slot ∈ rs_known s;
  rm_roi : forall slot a, rs_rois s !! slot = Some a ->
    0 < ar_revision a < 2 ^ 64 /\
    exists text, getSystemSetting (settingKey slot) d = Some text /\ roi_parse slot text = Some a;
  rm_none : forall slot, slot ∈ rs_known s -> rs_rois s !! slot = None ->
    rs_bootstrap s !! slot = None /\
    (getSystemSetting (settingKey slot) d ≫= roi_parse slot) = None
}.

Lemma settingKey_inj a b : settingKey a = settingKey b -> a = b.
Proof. unfold settingKey. cbn. congruence. Qed.

Lemma setting_stored slot key text d d' :
  upsertSystemSetting (settingKey slot) text d = (true, d') ->
  pd_open d' = true /\
  getSystemSetting (settingKey key) d' = if bool_decide (key = slot) then Some text else getSystemSetting (settingKey key) d.
Proof.
  unfold upsertSystemSetting, getSystemSetting. cbn [is_empty settingKey String.append orb].
  destruct (pd_open d) eqn:Eo; [|done]. intros [= <-]. simpl. rewrite Eo. split; [done|]. simpl.
  case_bool_decide as E; [by subst; rewrite lookup_insert_eq|].
  rewrite lookup_insert_ne; [done|]. intros H. apply E. symmetry. by apply (settingKey_inj slot key).
Qed.

Lemma stoul_range text v rest : Alert.Controller.stoul text = Some (v, rest) -> 0 <= v < 2 ^ 64.
Proof.
  unfold Alert.Controller.stoul. destruct (match drop_space text with String "-" r => _ | _ => _ end) as [neg digits].
  destruct digits as [|c r]; [done|]. destruct (isdigit c); [|done].
  assert (Hn : 0 <= (take_digits_rest 0 (String c r)).1).
  { assert (Hacc : forall s acc, 0 <= acc -> 0 <= (take_digits_rest acc s).1); [|by apply Hacc].
    clear. induction s as [|c s IH]; intros acc Ha; simpl; [done|]. destruct (isdigit c); [|done]. apply IH. lia. }
  destruct (take_digits_rest 0 (String c r)) as [w t]. destruct (Z.ltb_spec w (2 ^ 64)); [|done].
  intros [= <- <-]. destruct neg; [by apply Z.mod_pos_bound|]. simpl in Hn. lia.
Qed.

Lemma roi_parse_ok slot text a :
  roi_parse slot text = Some a -> ar_slotId a = slot /\ roi_isValid (ar_value a) = true /\ 0 < ar_revision a < 2 ^ 64.
Proof.
  unfold roi_parse. intros ([x t1] & _ & H)%bind_Some. apply bind_Some in H as (t2 & _ & H).
  apply bind_Some in H as ([y t3] & _ & H). apply bind_Some in H as (t4 & _ & H).
  apply bind_Some in H as ([w t5] & _ & H). apply bind_Some in H as (t6 & _ & H).
  apply bind_Some in H as ([h t7] & _ & H). apply bind_Some in H as ([rev t8] & Hr & H).
  destruct (negb (is_empty (drop_space t8)) || negb (roi_isValid _)) eqn:E; [done|]. injection H as <-.
  apply orb_false_elim in E as [_ E%negb_false_iff]. split; [done|]. split; [done|]. simpl.
  destruct (is_empty (drop_space t7)); [injection Hr as <- <-; lia|].
  apply bind_Some in Hr as (t & _ & Hr). apply bind_Some in Hr as ([v rest] & Hv%stoul_range & Hr).
  destruct (Z.eqb_spec v 0); [done|]. injection Hr as <- <-. lia.
Qed.

(** ** The start *)

Lemma roi_load_ok fails bootstrap slots : forall loaded d m d',
  (forall slot roi, bootstrap !! slot = Some roi -> roi_prints roi) -> pd_open d = true ->
  roi_load fails bootstrap slots loaded d = (Some m, d') ->
  pd_open d' = true /\
  (forall slot roi, slot ∈ slots -> bootstrap !! slot = Some roi -> roi_isValid roi = true) /\
  (forall key, key ∉ slots -> m !! key = loaded !! key /\
     getSystemSetting (settingKey key) d' = getSystemSetting (settingKey key) d) /\
  (forall slot, slot ∈ slots -> NoDup slots -> loaded !! slot = None ->
     match m !! slot with
     | Some a => (getSystemSetting (settingKey slot) d' ≫= roi_parse slot) = Some a
     | None => bootstrap !! slot = None /\ (getSystemSetting (settingKey slot) d' ≫= roi_parse slot) = None
     end).
Proof.
  induction slots as [|slot slots IH]; intros loaded d m d' Hp Ho; cbn [roi_load].
  { intros [= <- <-]. split; [done|]. split; [by intros ? ? ?%elem_of_nil|]. split; [done|]. by intros ? ?%elem_of_nil. }
  destruct (match bootstrap !! slot with Some roi => negb (roi_isValid roi) | None => false end) eqn:Ev; [done|].
  assert (Hvalid : forall roi, bootstrap !! slot = Some roi -> roi_isValid roi = true).
  { intros roi Hr. rewrite Hr in Ev. by apply negb_false_iff. }
  assert (Hread : match getSystemSetting (settingKey slot) d with Some text => roi_parse slot text | None => None end
                  = (getSystemSetting (settingKey slot) d ≫= roi_parse slot)) by (by destruct (getSystemSetting _ d)).
  rewrite Hread. destruct (getSystemSetting (settingKey slot) d ≫= roi_parse slot) as [a|] eqn:Ea;
    [|destruct (bootstrap !! slot) as [value|] eqn:Eb].
  - intros H. destruct (IH _ _ _ _ Hp Ho H) as (H1 & H2 & H3 & H4). split; [done|]. split; [|split].
    + intros s roi [->|Hs]%elem_of_cons Hb; [by apply Hvalid|by eapply H2].
    + intros key Hk. apply not_elem_of_cons in Hk as [Hne Hk]. rewrite <- (proj2 (H3 key Hk)). split; [|done].
      rewrite (proj1 (H3 key Hk)). by rewrite lookup_insert_ne.
    + intros s Hs [Hni Hnd]%NoDup_cons Hl. destruct (decide (s = slot)) as [->|Hne].
      * destruct (H3 slot Hni) as [-> ->]. rewrite lookup_insert_eq. done.
      * apply elem_of_cons in Hs as [?|Hs]; [done|]. apply H4; [done|done|]. by rewrite lookup_insert_ne.
  - destruct (if fails slot then (false, d) else _) as [ok d1] eqn:Eu. destruct ok; [|done].
    assert (Hu : upsertSystemSetting (settingKey slot) (roi_serialize (mkAppliedRoi slot value 1)) d = (true, d1))
      by (by destruct (fails slot)).
    destruct (setting_stored slot slot _ _ _ Hu) as [Ho1 Hget]. rewrite bool_decide_eq_true_2 in Hget by done.
    intros H. destruct (IH _ _ _ _ Hp Ho1 H) as (H1 & H2 & H3 & H4). split; [done|]. split; [|split].
    + intros s roi [->|Hs]%elem_of_cons Hb; [by apply Hvalid; congruence|by eapply H2].
    + intros key Hk. apply not_elem_of_cons in Hk as [Hne Hk].
      destruct (setting_stored slot key _ _ _ Hu) as [_ Hget']. rewrite bool_decide_eq_false_2 in Hget' by done.
      rewrite <- Hget', <- (proj2 (H3 key Hk)). split; [|done]. rewrite (proj1 (H3 key Hk)). by rewrite lookup_insert_ne.
    + intros s Hs [Hni Hnd]%NoDup_cons Hl. destruct (decide (s = slot)) as [->|Hne].
      * destruct (H3 slot Hni) as [-> ->]. rewrite lookup_insert_eq, Hget. simpl.
        rewrite roi_parse_serialize; [done|by eapply Hp|by apply Hvalid|simpl; lia].
      * apply elem_of_cons in Hs as [?|Hs]; [done|]. apply H4; [done|done|]. by rewrite lookup_insert_ne.
  - intros H. destruct (IH _ _ _ _ Hp Ho H) as (H1 & H2 & H3 & H4). split; [done|]. split; [|split].
    + intros s roi [->|Hs]%elem_of_cons Hb; [congruence|by eapply H2].
    + intros key Hk. apply not_elem_of_cons in Hk as [Hne Hk]. by apply H3.
    + intros s Hs [Hni Hnd]%NoDup_cons Hl. destruct (decide (s = slot)) as [->|Hne].
      * destruct (H3 slot Hni) as [-> ->]. by rewrite Hl.
      * apply elem_of_cons in Hs as [?|Hs]; [done|]. by apply H4.
Qed.

Lemma initialize_mirrors fails s d s' d' :
  NoDup (rs_known s) -> (forall slot roi, rs_bootstrap s !! slot = Some roi -> roi_prints roi) -> pd_open d = true ->
  roi_initialize fails s d = (true, s', d') -> roi_mirrors s' d'.
Proof.
  intros Hnd Hp Ho. unfold roi_initialize.
  destruct (roi_load fails (rs_bootstrap s) (rs_known s) ∅ d) as [[m|] d1] eqn:E; [|done]. intros [= <- <-].
  destruct (roi_load_ok _ _ _ _ _ _ _ Hp Ho E) as (H1 & H2 & H3 & H4).
  assert (Hk : forall slot a, m !! slot = Some a -> slot ∈ rs_known s).
  { intros slot a Hm. destruct (decide (slot ∈ rs_known s)) as [|Hn]; [done|]. destruct (H3 slot Hn) as [Hl _].
    by rewrite Hm, lookup_empty in Hl. }
  split; simpl; [done|done|done|done| |].
  - intros slot a Hm. pose proof (H4 slot (Hk slot a Hm) Hnd (lookup_empty _)) as H. rewrite Hm in H.
    apply bind_Some in H as (text & Ht & Hq). split; [by eapply roi_parse_ok|by exists text].
  - intros slot Hs Hm. pose proof (H4 slot Hs Hnd (lookup_empty _)) as H. by rewrite Hm in H.
Qed.

Lemma restart_load fails s d : roi_mirrors s d -> forall slots loaded,
  (forall slot, slot ∈ slots -> slot ∈ rs_known s) ->
  exists m, roi_load fails (rs_bootstrap s) slots loaded d = (Some m, d) /\
    forall key, m !! key = match bool_decide (key ∈ slots), rs_rois s !! key with
                           | true, Some a => Some a
                           | _, _ => loaded !! key
                           end.
Proof.
  intros M. induction slots as [|slot slots IH]; intros loaded Hin; cbn [roi_load]; [by exists loaded|].
  assert (Hs : slot ∈ rs_known s) by (apply Hin; left).
  destruct (match rs_bootstrap s !! slot with Some roi => negb (roi_isValid roi) | None => false end) eqn:Ev.
  { destruct (rs_bootstrap s !! slot) as [roi|] eqn:Eb; [|done]. by rewrite (rm_bootstrap s d M slot roi Hs Eb) in Ev. }
  assert (Hin' : forall k, k ∈ slots -> k ∈ rs_known s) by (intros k Hk; apply Hin; by right).
  destruct (rs_rois s !! slot) as [a|] eqn:Ea.
  - destruct (rm_roi s d M slot a Ea) as (_ & text & -> & ->).
    destruct (IH (<[slot := a]> loaded) Hin') as (m & -> & Hm). exists m. split; [done|]. intros key. rewrite Hm.
    destruct (decide (key = slot)) as [->|Hne].
    + rewrite Ea, lookup_insert_eq, (bool_decide_eq_true_2 (slot ∈ slot :: slots)) by left. by case_bool_decide.
    + rewrite lookup_insert_ne by done.
      by rewrite (bool_decide_ext (key ∈ slot :: slots) (key ∈ slots)) by (rewrite elem_of_cons; naive_solver).
  - destruct (rm_none s d M slot Hs Ea) as [-> Hn].
    assert (Hread : match getSystemSetting (settingKey slot) d with Some text => roi_parse slot text | None => None end = None)
      by (by destruct (getSystemSetting (settingKey slot) d)).
    rewrite Hread. destruct (IH loaded Hin') as (m & -> & Hm). exists m. split; [done|]. intros key. rewrite Hm.
    destruct (decide (key = slot)) as [->|Hne]; [rewrite Ea; by do 2 case_bool_decide|].
    by rewrite (bool_decide_ext (key ∈ slot :: slots) (key ∈ slots)) by (rewrite elem_of_cons; naive_solver).
Qed.

(** A restart reads the state of the service back and writes nothing. *)
Lemma restart_same fails s d :
  roi_mirrors s d -> roi_initialize fails (mkRoiSettings (rs_known s) (rs_bootstrap s) ∅) d = (true, s, d).
Proof.
  intros M. unfold roi_initialize. simpl. destruct (restart_load fails s d M (rs_known s) ∅) as (m & -> & Hm); [done|].
  do 2 f_equal. destruct s as [known boot rois]. simpl in *. f_equal. apply map_eq. intros key. rewrite Hm, lookup_empty.
  destruct (rois !! key) as [a|] eqn:Ea; [|by case_bool_decide].
  by rewrite bool_decide_eq_true_2 by (by eapply (rm_known _ d M)).
Qed.

(** ** An update *)

Lemma system_event_settings fails type slot message d :
  pd_open (insertSystemEvent fails type slot message d) = pd_open d /\
  forall key, getSystemSetting key (insertSystemEvent fails type slot message d) = getSystemSetting key d.
Proof.
  unfold insertSystemEvent. destruct (negb (pd_open d) || is_empty type || fails); [done|].
  unfold insert_event. cbv zeta. by destruct (_ && _).
Qed.

Lemma update_mirrors put_fixed changed_at fails log_fails slot roi s d r s' d' :
  roi_mirrors s d -> roi_prints roi ->
  (forall a, rs_rois s !! slot = Some a -> ar_revision a < 2 ^ 64 - 1) ->
  roi_update put_fixed changed_at fails log_fails slot roi s d = (r, s', d') ->
  roi_mirrors s' d' /\
  (if ru_success r then
     slot ∈ rs_known s /\ roi_isValid roi = true /\
     ru_revision r = match rs_rois s !! slot with Some a => ar_revision a + 1 | None => 1 end /\
     s' = mkRoiSettings (rs_known s) (rs_bootstrap s) (<[slot := mkAppliedRoi slot roi (ru_revision r)]> (rs_rois s))
   else s' = s /\ d' = d).
Proof.
  intros M Hp Hmax. unfold roi_update. case_bool_decide as Hk; cbn [negb]; [|by intros [= <- <- <-]].
  destruct (roi_isValid roi) eqn:Hv; cbn [negb]; [|by intros [= <- <- <-]].
  set (next := match rs_rois s !! slot with Some current => (ar_revision current + 1) mod 2 ^ 64 | None => 1 end).
  assert (Hnext : next = match rs_rois s !! slot with Some a => ar_revision a + 1 | None => 1 end /\ 0 < next < 2 ^ 64).
  { subst next. destruct (rs_rois s !! slot) as [a|] eqn:Ea; [|lia]. pose proof (Hmax a eq_refl).
    pose proof (proj1 (rm_roi s d M slot a Ea)). rewrite Z.mod_small by lia. lia. }
  cbv zeta. destruct (if fails then (false, d) else _) as [ok d1] eqn:Eu. destruct ok; intros [= <- <- <-]; simpl.
  2:{ destruct fails; [by injection Eu as <-|]. unfold upsertSystemSetting in Eu. rewrite (rm_open s d M) in Eu. done. }
  assert (Hu : upsertSystemSetting (settingKey slot) (roi_serialize (mkAppliedRoi slot roi next)) d = (true, d1))
    by (by destruct fails).
  set (d2 := insertSystemEvent _ _ _ _ d1). destruct (system_event_settings log_fails "PARKING_ROI_UPDATED" slot
    ("x=" +:+ put_fixed (nr_x roi) +:+ " y=" +:+ put_fixed (nr_y roi) +:+ " width=" +:+ put_fixed (nr_width roi) +:+
     " height=" +:+ put_fixed (nr_height roi) +:+ " revision=" +:+ pretty (Z.to_N next) +:+ " changed_at=" +:+
     changed_at +:+ " success=true") d1) as [Hopen2 Hget2].
  assert (Hget : forall key, pd_open d2 = true /\ getSystemSetting (settingKey key) d2 =
    if bool_decide (key = slot) then Some (roi_serialize (mkAppliedRoi slot roi next))
    else getSystemSetting (settingKey key) d).
  { intros key. destruct (setting_stored slot key _ _ _ Hu) as [Ho1 Hg]. rewrite <- Hg. by split; [rewrite <- Ho1|]. }
  split; [|by destruct Hnext].
  split; simpl; [by destruct (Hget slot)|exact (rm_nodup s d M)|exact (rm_bootstrap s d M)| | |].
  - intros key a. rewrite lookup_insert_Some. intros [[<- _]|[_ Ha]]; [done|by eapply (rm_known s d M)].
  - intros key a. rewrite lookup_insert_Some. destruct (Hget key) as [_ ->]. intros [[<- <-]|[Hne Ha]].
    + split; [simpl; lia|]. eexists. rewrite bool_decide_eq_true_2 by done. split; [done|].
      apply (roi_parse_serialize slot (mkAppliedRoi slot roi next)); simpl; [done|done|by apply Hnext].
    + rewrite bool_decide_eq_false_2 by done. exact (rm_roi s d M key a Ha).
  - intros key Hin. rewrite lookup_insert_None. intros [Ha Hne]. destruct (Hget key) as [_ ->].
    rewrite bool_decide_eq_false_2 by done. exact (rm_none s d M key Hin Ha).
Qed.

(** C33 [roundtrip] After any change of a region the service and the database agree: a change that fails leaves both as
    they were; one that succeeds was of a known slot and a region inside the picture, replaces the region of that slot
    alone and raises its revision by one; and the server that is started again on the database, with the disk failing
    or not, reads back every region with its revision and writes nothing. *)
Theorem roi_survives_restart put_fixed changed_at fails log_fails slot roi s d r s' d' fails' :
  roi_mirrors s d -> roi_prints roi ->
  (forall a, rs_rois s !! slot = Some a -> ar_revision a < 2 ^ 64 - 1) ->
  roi_update put_fixed changed_at fails log_fails slot roi s d = (r, s', d') ->
  (if ru_success r then
     slot ∈ rs_known s /\ roi_isValid roi = true /\
     ru_revision r = match rs_rois s !! slot with Some a => ar_revision a + 1 | None => 1 end /\
     roi_resolveForUse slot s' = Some (mkAppliedRoi slot roi (ru_revision r)) /\
     (forall other, other <> slot -> roi_resolveForUse other s' = roi_resolveForUse other s)
   else s' = s /\ d' = d) /\
  roi_mirrors s' d' /\
  roi_initialize fails' (mkRoiSettings (rs_known s') (rs_bootstrap s') ∅) d' = (true, s', d').
Proof.
  intros M Hp Hmax H. destruct (update_mirrors _ _ _ _ _ _ _ _ _ _ _ M Hp Hmax H) as [M' Hr].
  split; [|split; [done|by apply restart_same]].
  destruct (ru_success r); [|done]. destruct Hr as (H1 & H2 & H3 & ->). repeat split; try done; unfold roi_resolveForUse; simpl.
  - by rewrite lookup_insert_eq.
  - intros other Hne. by rewrite lookup_insert_ne.
Qed.
End Texts.

(** * A slot with a region and one without *)

Module RoiDemo.
Definition quarter : double := S754_finite false 4503599627370496 (-54).
Definition half : double := S754_finite false 4503599627370496 (-53).
(** Streams that print and read the two numbers. *)
Definition put_demo (x : double) : string := if d_lt x half then "0.25" else "0.5".
Definition get_demo (text : string) : option (double * string) :=
  match text with
  | String "0" (String "." (String "2" (String "5" rest))) => Some (quarter, rest)
  | String "0" (String "." (String "5" rest)) => Some (half, rest)
  | _ => None
  end.
Definition left_half := mkNormalizedRoi quarter quarter half half.
Definition right_half := mkNormalizedRoi half half half quarter.
Definition empty_db := mkParkingDb true ∅ {["A1" := "VACANT"; "B1" := "VACANT"]} ∅ 0 [] [] ∅.
Definition installed := mkRoiSettings ["A1"; "B1"] {["A1" := left_half]} ∅.
Definition started := roi_initialize get_demo put_demo (fun _ => false) installed empty_db.
Definition updated := roi_update put_demo put_demo "2025-01-01T00:00:00Z" false false "A1" right_half (started.1).2 started.2.

Lemma left_prints : roi_prints get_demo put_demo left_half.
Proof. by repeat split. Qed.
Lemma right_prints : roi_prints get_demo put_demo right_half.
Proof. by repeat split. Qed.

Lemma started_mirrors : roi_mirrors get_demo (started.1).2 started.2.
Proof.
  apply (initialize_mirrors get_demo put_demo (fun _ => false) installed empty_db); [|
    intros slot roi Hb; cbn in Hb; apply lookup_singleton_Some in Hb as [_ <-]; exact left_prints|done|].
  - apply (bool_decide_eq_true_1 _). vm_compute. reflexivity.
  - vm_compute. reflexivity.
Qed.
End RoiDemo.

(** The region of A1 is replaced, with revision 2, and read back at the next start. *)
Theorem roi_survives_restart_witness :
  (RoiDemo.updated.1).1 = mkRoiUpdateResult true true RoiDemo.right_half 2 "" /\
  roi_mirrors RoiDemo.get_demo (RoiDemo.updated.1).2 RoiDemo.updated.2 /\
  roi_initialize RoiDemo.get_demo RoiDemo.put_demo (fun _ => true)
    (mkRoiSettings ["A1"; "B1"] {["A1" := RoiDemo.left_half]} ∅) RoiDemo.updated.2 =
  (true, (RoiDemo.updated.1).2, RoiDemo.updated.2).
Proof.
  assert (E : (RoiDemo.updated.1).1 = mkRoiUpdateResult true true RoiDemo.right_half 2 "") by (vm_compute; reflexivity).
  assert (Hrev : forall a, rs_rois (RoiDemo.started.1).2 !! "A1" = Some a -> ar_revision a < 2 ^ 64 - 1).
  { assert (H : rs_rois (RoiDemo.started.1).2 !! "A1" = Some (mkAppliedRoi "A1" RoiDemo.left_half 1))
      by (vm_compute; reflexivity).
    intros a Ha. rewrite H in Ha. injection Ha as <-. done. }
  destruct (roi_survives_restart RoiDemo.get_demo RoiDemo.put_demo RoiDemo.put_demo "2025-01-01T00:00:00Z" false false "A1" RoiDemo.right_half (RoiDemo.started.1).2
    RoiDemo.started.2 (RoiDemo.updated.1).1 (RoiDemo.updated.1).2 RoiDemo.updated.2 (fun _ => true)
    RoiDemo.started_mirrors RoiDemo.right_prints Hrev) as (_ & M & R); [vm_compute; reflexivity|].
  split; [exact E|]. split; [exact M|]. exact R.
Defined.
