(* ===== verification/Shutdown.v ===== *)
(** The end of the server: the state machine that runs the fifteen stops in their order
    ([src/app/RuntimeShutdown.cpp]) for whoever asks first, and the stops that [src/main.cpp] gives it. Threads call
    [shutdown] whenever they like, also from within a stop. *)
From S2P Require Import Prelude.

(** * The stops *)

(** The calls that the stops of the server make, in groups. *)
Inductive StopCall :=
| HttpCloseIngress | MqttCloseIngress | HttpStop
| MqttQuiesceIngress
| OnvifStop | SensorLinkStop
| HallStop
| CaptureStop
| BestShotStop | EntranceStop | EvWorkerStop
| EvidenceStop
| OcrStop
| TimerStop
| RtspStop
| FireCloseIngress | FireStop | FireDrain | MqttQuiesceObservers | FireDeliveryStop
| ReporterStop | TelegramStop
| MqttStop
| TargetsDestroyed
| DatabaseClosed.
#[global] Instance StopCall_eq_dec : EqDecision StopCall.
Proof. solve_decision. Defined.

(** The parts of the server that may not be there, or not be started. *)
Record Present := mkPresent {
  pr_http : bool; pr_onvif : bool; pr_sensor_link : bool; pr_hall : bool; pr_capture : bool; pr_bestshot : bool;
  pr_entrance : bool; pr_ev_worker : bool; pr_fire : bool; pr_fire_delivery : bool; pr_telegram : bool
}.

(** What a stop does: its calls in their order, those whose answer [false] makes it throw marked. *)
Definition when (b : bool) (l : list (StopCall * bool)) : list (StopCall * bool) := if b then l else [].

(** [src/main.cpp:1238-1336 main] The stops of the server. *)
Definition server_stops (p : Present) : list (list (StopCall * bool)) :=
  [ when (pr_http p) [(HttpCloseIngress, false)] ++ [(MqttCloseIngress, false)] ++ when (pr_http p) [(HttpStop, true)];
    [(MqttQuiesceIngress, true)];
    when (pr_onvif p) [(OnvifStop, false)] ++ when (pr_sensor_link p) [(SensorLinkStop, false)];
    when (pr_hall p) [(HallStop, true)];
    when (pr_capture p) [(CaptureStop, false)];
    when (pr_bestshot p) [(BestShotStop, false)] ++ when (pr_entrance p) [(EntranceStop, false)] ++
      when (pr_ev_worker p) [(EvWorkerStop, false)];
    [(EvidenceStop, false)];
    [(OcrStop, false)];
    [(TimerStop, false)];
    [(RtspStop, false)];
    when (pr_fire p) [(FireCloseIngress, false); (FireStop, true)] ++
      when (pr_fire_delivery p) [(FireDrain, false); (MqttQuiesceObservers, true); (FireDeliveryStop, true)];
    [(ReporterStop, true)] ++ when (pr_telegram p) [(TelegramStop, false)];
    [(MqttStop, true)];
    [(TargetsDestroyed, false)];
    [(DatabaseClosed, false)] ].

(** A stop, with the answers of its calls: the calls it makes, and whether it returns. *)
Fixpoint run_stop (answers : StopCall -> bool) (calls : list (StopCall * bool)) : list StopCall * bool :=
  match calls with
  | [] => ([], true)
  | (call, checked) :: calls =>
      if checked && negb (answers call) then ([call], false)
      else let '(made, ok) := run_stop answers calls in (call :: made, ok)
  end.

(** * The state machine *)

(** [include/app/RuntimeShutdown.hpp:40-40 State] *)
Inductive ShutdownState := ShutRunning | ShutStopping | ShutStopped | ShutFailed.
#[global] Instance ShutdownState_eq_dec : EqDecision ShutdownState.
Proof. solve_decision. Defined.

(** [include/app/RuntimeShutdown.hpp:42-46 RuntimeShutdown] with the stops begun, each with its calls and its end, the
    threads that wait, the answers given, and the calls from within a stop, which are rejected (answered [false]). *)
Record Shutdown := mkShutdown {
  sh_state : ShutdownState;
  sh_stopper : option nat;
  sh_done : list (list StopCall * bool);
  sh_waiting : list nat;
  sh_answers : list (nat * bool);
  sh_rejected : list nat
}.
Definition new_shutdown : Shutdown := mkShutdown ShutRunning None [] [] [] [].

Section Machine.
Context (stops : list (list (StopCall * bool))).

(** [src/app/RuntimeShutdown.cpp:40-57 RuntimeShutdown::shutdown] A call of thread [t], up to its wait or its first
    stop. *)
Definition shutdown_call (t : nat) (s : Shutdown) : Shutdown :=
  let answered a := mkShutdown (sh_state s) (sh_stopper s) (sh_done s) (sh_waiting s) (sh_answers s ++ [(t, a)])
                        (sh_rejected s) in
  match sh_state s with
  | ShutStopped => answered true
  | ShutFailed => answered false
  | ShutStopping =>
      if bool_decide (sh_stopper s = Some t) then mkShutdown (sh_state s) (sh_stopper s) (sh_done s) (sh_waiting s) (sh_answers s) (sh_rejected s ++ [t])
      else mkShutdown (sh_state s) (sh_stopper s) (sh_done s) (sh_waiting s ++ [t]) (sh_answers s) (sh_rejected s)
  | ShutRunning => mkShutdown ShutStopping (Some t) (sh_done s) (sh_waiting s) (sh_answers s) (sh_rejected s)
  end.

(** [src/app/RuntimeShutdown.cpp:77-95 RuntimeShutdown::shutdown] The stopping thread runs its next stop, or, behind the
    last one, ends. *)
Definition shutdown_next (answers : StopCall -> bool) (s : Shutdown) : Shutdown :=
  match sh_state s, sh_stopper s with
  | ShutStopping, Some t =>
      match stops !! length (sh_done s) with
      | None => mkShutdown ShutStopped None (sh_done s) (sh_waiting s) (sh_answers s ++ [(t, true)])
                  (sh_rejected s)
      | Some calls =>
          let '(made, ok) := run_stop answers calls in
          if ok then mkShutdown ShutStopping (Some t) (sh_done s ++ [(made, true)]) (sh_waiting s) (sh_answers s) (sh_rejected s)
          else mkShutdown ShutFailed None (sh_done s ++ [(made, false)]) (sh_waiting s) (sh_answers s ++ [(t, false)])
                 (sh_rejected s)
      end
  | _, _ => s
  end.

(** [src/app/RuntimeShutdown.cpp:50-54 RuntimeShutdown::shutdown] A waiting thread wakes up. *)
Definition shutdown_wake (s : Shutdown) : Shutdown :=
  match sh_waiting s, sh_state s with
  | t :: rest, (ShutStopped | ShutFailed) =>
      mkShutdown (sh_state s) (sh_stopper s) (sh_done s) rest
        (sh_answers s ++ [(t, bool_decide (sh_state s = ShutStopped))]) (sh_rejected s)
  | _, _ => s
  end.

Inductive ShutdownOp := ShutCall (t : nat) | ShutNext (answers : StopCall -> bool) | ShutWake.
Definition shutdown_step (s : Shutdown) (op : ShutdownOp) : Shutdown :=
  match op with
  | ShutCall t => shutdown_call t s
  | ShutNext answers => shutdown_next answers s
  | ShutWake => shutdown_wake s
  end.
Definition shutdown_run (s : Shutdown) (ops : list ShutdownOp) : Shutdown := foldl shutdown_step s ops.
End Machine.

(** * In order, once, with one answer *)

(** A stop that returns has made all of its calls; one that throws has made a call that answered [false]. *)
Lemma run_stop_true answers calls made : run_stop answers calls = (made, true) ->
  made = calls.*1 /\ forall call, (call, true) ∈ calls -> answers call = true.
Proof.
  revert made. induction calls as [|[call checked] calls IH]; intros made; simpl.
  - intros [= <-]. split; [done|]. by intros ? ?%elem_of_nil.
  - destruct (checked && negb (answers call)) eqn:Ec; [done|].
    destruct (run_stop answers calls) as [made' ok] eqn:Er. intros [= <- ->]. destruct (IH _ eq_refl) as [-> Ha].
    split; [done|]. intros c [[= -> <-]|Hc]%elem_of_cons; [|auto]. by destruct (answers call).
Qed.
Lemma run_stop_false answers calls made : run_stop answers calls = (made, false) ->
  exists call, call ∈ made /\ (call, true) ∈ calls /\ answers call = false.
Proof.
  revert made. induction calls as [|[call checked] calls IH]; intros made; simpl; [done|].
  destruct (checked && negb (answers call)) eqn:Ec.
  - intros [= <-]. apply andb_prop in Ec as [-> ?%negb_true_iff]. exists call. set_solver.
  - destruct (run_stop answers calls) as [made' ok] eqn:Er. intros [= <- ->].
    destruct (IH _ eq_refl) as (c & ? & ? & ?). exists c. set_solver.
Qed.

Section Order.
Context (stops : list (list (StopCall * bool))).

(** What the [i]-th stop has done. *)
Definition stop_ran (i : nat) (made : list StopCall) (ok : bool) : Prop :=
  exists calls answers, stops !! i = Some calls /\ run_stop answers calls = (made, ok).

Record shutdown_ok (s : Shutdown) : Prop := {
  sk_ran : forall i made ok, sh_done s !! i = Some (made, ok) -> stop_ran i made ok;
  sk_last : forall i made, sh_done s !! i = Some (made, false) -> S i = length (sh_done s) /\ sh_state s = ShutFailed;
  sk_failed : sh_state s = ShutFailed -> exists made, last (sh_done s) = Some (made, false);
  sk_stopped : sh_state s = ShutStopped -> (length stops <= length (sh_done s))%nat;
  sk_running : sh_state s = ShutRunning -> sh_done s = [] /\ sh_answers s = [];
  sk_stopper : sh_state s = ShutStopping -> is_Some (sh_stopper s);
  sk_answers : forall t a, (t, a) ∈ sh_answers s ->
    (sh_state s = ShutStopped \/ sh_state s = ShutFailed) /\ a = bool_decide (sh_state s = ShutStopped)
}.

Lemma next_ok answers s : shutdown_ok s -> shutdown_ok (shutdown_next stops answers s).
Proof.
  intros Hs. unfold shutdown_next. destruct (sh_state s) eqn:Est; try exact Hs.
  destruct (sh_stopper s) as [t|] eqn:Et; [|exact Hs].
  assert (Hno : forall t a, (t, a) ∉ sh_answers s).
  { intros t' a Hin. destruct (sk_answers s Hs _ _ Hin) as [[?|?] _]; congruence. }
  assert (Hall : forall i made, sh_done s !! i <> Some (made, false)).
  { intros i made Hi. destruct (sk_last s Hs _ _ Hi). congruence. }
  destruct (stops !! length (sh_done s)) as [calls|] eqn:Ec.
  - destruct (run_stop answers calls) as [made ok] eqn:Er.
    assert (Hran : forall i m o, (sh_done s ++ [(made, ok)]) !! i = Some (m, o) -> stop_ran i m o).
    { intros i m o [Hi|(Hl & Hi)]%lookup_app_Some; [by apply (sk_ran s Hs)|].
      apply list_lookup_singleton_Some in Hi as [Hz [= <- <-]].
      assert (i = length (sh_done s)) as -> by lia. by exists calls, answers. }
    destruct ok; split; simpl; try done.
    + intros i m [Hi|(Hl & Hi)]%lookup_app_Some; [by destruct (Hall i m)|].
      by apply list_lookup_singleton_Some in Hi as [_ ?].
    + intros t' a Hin. by destruct (Hno t' a).
    + intros i m [Hi|(Hl & Hi)]%lookup_app_Some; [by destruct (Hall i m)|].
      apply list_lookup_singleton_Some in Hi as [Hz _]. rewrite length_app. simpl. split; [lia|done].
    + intros _. exists made. apply last_snoc.
    + intros t' a [Hin|[= -> ->]%list_elem_of_singleton]%elem_of_app; [by destruct (Hno t' a)|]. by split; [right|].
  - apply lookup_ge_None in Ec. split; simpl; try done.
    + apply (sk_ran s Hs).
    + intros i made Hi. by destruct (Hall i made).
    + intros t' a [Hin|[= -> ->]%list_elem_of_singleton]%elem_of_app; [by destruct (Hno t' a)|]. by split; [left|].
Qed.

Lemma shutdown_step_ok s op : shutdown_ok s -> shutdown_ok (shutdown_step stops s op).
Proof.
  intros Hs. destruct op as [t|answers|]; simpl; [|by apply next_ok|].
  - pose proof Hs as [H1 H2 H3 H4 H5 H6 H7]. unfold shutdown_call. destruct (sh_state s) eqn:Est.
    + destruct (H5 eq_refl) as [Hd Ha]. split; simpl; rewrite ?Hd, ?Ha; try done. by intros ? ? ?%elem_of_nil.
    + cbv zeta. destruct (bool_decide (sh_stopper s = Some t)); split; simpl; rewrite ?Est; done.
    + split; simpl; try done. intros t' a [Hin|[= -> ->]%list_elem_of_singleton]%elem_of_app; [by eapply H7|].
      by split; [left|].
    + split; simpl; try done. intros t' a [Hin|[= -> ->]%list_elem_of_singleton]%elem_of_app; [by eapply H7|].
      by split; [right|].
  - pose proof Hs as [H1 H2 H3 H4 H5 H6 H7]. unfold shutdown_wake. destruct (sh_waiting s) as [|t rest]; [done|].
    destruct (sh_state s) eqn:Est; try exact Hs; split; simpl; try done;
      intros t' a [Hin|[= -> ->]%list_elem_of_singleton]%elem_of_app; try (by eapply H7);
      by split; auto.
Qed.
Lemma shutdown_run_ok ops : forall s, shutdown_ok s -> shutdown_ok (shutdown_run stops s ops).
Proof. induction ops as [|op ops IH]; intros s Hs; [done|]. by apply IH, shutdown_step_ok. Qed.
Lemma new_shutdown_ok : shutdown_ok new_shutdown.
Proof. split; simpl; try done. by intros ? ? ?%elem_of_nil. Qed.

Lemma done_length s : shutdown_ok s -> (length (sh_done s) <= length stops)%nat.
Proof.
  intros Hs. apply Nat.nlt_ge. intros Hlt. destruct (lookup_lt_is_Some_2 _ _ Hlt) as [[made ok] Hm].
  destruct (sk_ran s Hs _ _ _ Hm) as (calls & _ & Hc & _). apply lookup_lt_Some in Hc. lia.
Qed.

Definition ended (s : Shutdown) : Prop := sh_state s = ShutStopped \/ sh_state s = ShutFailed.

Lemma ended_stays l : forall s, ended s -> ended (shutdown_run stops s (ShutNext <$> l)).
Proof.
  induction l as [|x l IH]; intros s Hs; [done|]. apply IH. simpl. unfold shutdown_next.
  destruct Hs as [Hs|Hs]; rewrite Hs; [by left|by right].
Qed.

(** The thread that stops ends: one step for each stop and one more. *)
Lemma stopping_ends l : forall s,
  shutdown_ok s -> sh_state s = ShutStopping -> (length stops < length (sh_done s) + length l)%nat ->
  ended (shutdown_run stops s (ShutNext <$> l)).
Proof.
  induction l as [|x l IH]; intros s Hs Est Hl.
  - pose proof (done_length s Hs). simpl in Hl. lia.
  - simpl. pose proof (next_ok x s Hs) as Hn. destruct (sk_stopper s Hs Est) as [t Et].
    unfold shutdown_next in *. rewrite Est, Et in *.
    destruct (stops !! length (sh_done s)) as [calls|] eqn:Ec; [|by apply ended_stays; left].
    destruct (run_stop x calls) as [made []]; [|by apply ended_stays; right].
    apply IH; [done|done|]. simpl in *. rewrite length_app. simpl. lia.
Qed.
End Order.

Lemma run_stop_incl answers calls : forall made ok,
  run_stop answers calls = (made, ok) -> forall call, call ∈ made -> call ∈ calls.*1.
Proof.
  induction calls as [|[c checked] calls IH]; intros made ok; simpl; [intros [= <- <-]; set_solver|].
  destruct (checked && _); [intros [= <- <-]; set_solver|].
  destruct (run_stop answers calls) as [made' ok']. intros [= <- <-] call [->|Hc]%elem_of_cons; [set_solver|].
  apply elem_of_cons. right. by eapply IH.
Qed.

(** The database is closed by the last stop, which checks nothing. *)
Lemma database_last p i calls :
  server_stops p !! i = Some calls -> DatabaseClosed ∈ calls.*1 -> i = 14%nat.
Proof.
  intros Hi Hd. do 15 (destruct i as [|i]; [try done; exfalso; injection Hi as <-; revert Hd; destruct p; unfold when;
    simpl; repeat case_match; rewrite ?fmap_app, ?elem_of_app; simpl; rewrite ?elem_of_cons, ?elem_of_nil;
    intros ?; destruct_or?; done|]). done.
Qed.


Definition full_server : Present := mkPresent true true true true true true true true true true true.
(** Two threads ask, the first also from within a stop; the fire service does not drain. *)
Definition demo_shutdown : list ShutdownOp :=
  [ShutCall 1; ShutNext (fun _ => true); ShutCall 2; ShutCall 1] ++ repeat (ShutNext (fun _ => true)) 9 ++
  [ShutNext (fun c => negb (bool_decide (c = FireStop))); ShutWake; ShutCall 3].
Notation demo_shutdown_end := (shutdown_run (server_stops full_server) new_shutdown demo_shutdown).

