(* ===== verification/EvWorker.v ===== *)
(** The worker that asks a child process whether a vehicle is electric, [src/entrance/EntranceEvWorker.cpp]: its bounded
    queue, the life of the child, and one line of JSON to it and from it for each task. What the child, the pipes and
    the operating system answer is an argument: the answers to a read are chunks of text, [None] ends it (the time is
    over, the pipe is closed, an error). *)
From S2P Require Import Prelude SlotConfig OccupancyDb Doubles ParkingDb Entrance EntranceDb EntranceService.

#[local] Open Scope Z_scope.

(** [include/entrance/EntranceEvWorker.hpp:14-19 EntranceEvTask] *)
Record EntranceEvTask := mkEvTask {
  et_requestId : string;
  et_imagePath : string;
  et_outputDirectory : string;
  et_sourceMode : string
}.

(** The child process and what was read from it but not used. *)
Record Child := mkChild { ch_alive : bool; ch_buffer : string }.

(** What a task is answered: the identifier of the request and the rest of the result. *)
Definition EvAnswer : Type := string * EntranceEvResult.

Section Worker.
Context {JL : JsonLibrary}.
(** The library's conversion of a JSON value to a floating-point number; [None]: it is none. *)
Context (json_double : json -> option double).

(** [src/entrance/EntranceEvWorker.cpp:33-33 kMaximumResponseBytes] *)
Definition kMaximumResponseBytes : nat := 256 * 1024.

(** [src/entrance/EntranceEvWorker.cpp:305-334 EntranceEvWorker::readResponseLine] The line, the buffer behind it. *)
Fixpoint readResponseLine (buffer : string) (chunks : list (option string)) : option string * string :=
  match break_on "010" buffer with
  | Some (line, rest) => (Some line, rest)
  | None =>
      match chunks with
      | Some data :: chunks =>
          let buffer := buffer +:+ data in
          if (kMaximumResponseBytes <? String.length buffer)%nat then (None, buffer)
          else readResponseLine buffer chunks
      | _ => (None, buffer)
      end
  end.

(** [src/entrance/EntranceEvWorker.cpp:267-288 EntranceEvWorker::stopChild] The child is waited for, asked to end and at
    last killed. *)
Definition stopChild : Child := mkChild false "".

(** [value(key, 0.0)] *)
Definition value_double (object : json) (key : string) : result store_error double :=
  match json_find object key with
  | None => Ok d_zero
  | Some v => of_option (RuntimeError "type must be number") (json_double v)
  end.

Definition parse_line (line : string) : result store_error json :=
  match json_parse line with Ok v => Ok v | Err what => Err (RuntimeError what) end.

(** The first line of a child: is it ready? *)
Definition ready_line (line : string) : result store_error bool :=
  let? payload := parse_line line in
  if negb (is_object payload) then Ok false else
  let? schema := value_string payload "schema" "" in
  if negb (bool_decide (schema = "entrance_ev_worker_ready_v1")) then Ok false else
  let? status := value_string payload "status" "" in
  Ok (bool_decide (status = "ready")).

(** [src/entrance/EntranceEvWorker.cpp:197-265 EntranceEvWorker::spawnChild] [None]: no pipe or no process. *)
Definition spawnChild (answers : option (list (option string))) : bool * Child :=
  match answers with
  | None => (false, stopChild)
  | Some chunks =>
      match readResponseLine "" chunks with
      | (Some line, buffer) =>
          match ready_line line with
          | Ok true => (true, mkChild true buffer)
          | _ => (false, stopChild)
          end
      | (None, _) => (false, stopChild)
      end
  end.

(** [src/entrance/EntranceEvWorker.cpp:336-343 EntranceEvWorker::reviewResult] *)
Definition reviewResult (task : EntranceEvTask) (error : string) : EvAnswer :=
  (et_requestId task, mkEvResult None "REVIEW" error "" d_zero "" error false).

Definition what_of (e : store_error) : string := match e with InvalidArgument w | RuntimeError w => w end.

(** What the answer to a request says; [None]: it is not the answer to this request. *)
Definition read_answer (task : EntranceEvTask) (line : string) : result store_error (option EntranceEvResult) :=
  let? payload := parse_line line in
  if negb (is_object payload) then Ok None else
  let? schema := value_string payload "schema" "" in
  if negb (bool_decide (schema = "low_quality_presence_runtime_result_v1")) then Ok None else
  let? id := value_string payload "request_id" "" in
  if negb (bool_decide (id = et_requestId task)) then Ok None else
  let? decision := value_string payload "ev_prescreen_decision" "REVIEW" in
  let? reason := value_string payload "reason" "" in
  let? modelVersion := value_string payload "model_version" "" in
  let? processingMs := value_double payload "processing_ms" in
  let? resultPath := value_string payload "result_path" "" in
  let? error := value_string payload "error" "" in
  let? status := value_string payload "status" "" in
  Ok (Some (mkEvResult None decision reason modelVersion processingMs resultPath error
              (bool_decide (status = "ok") && is_empty error))).

Definition with_decision (r : EntranceEvResult) (isEv : option bool) (decision : string) : EntranceEvResult :=
  mkEvResult isEv decision (er_reason r) (er_modelVersion r) (er_processingMs r) (er_resultPath r) (er_error r)
    (er_runtimeSucceeded r).

(** What the surroundings answer while a task is processed. *)
Record Attempt := mkAttempt {
  ap_spawn : option (list (option string));
  ap_written : bool;
  ap_reply : list (option string)
}.

(** [src/entrance/EntranceEvWorker.cpp:155-194 EntranceEvWorker::process] The answer of a child that has the request. *)
Definition process_line (task : EntranceEvTask) (line : string) (child : Child) : EvAnswer * Child :=
  match read_answer task line with
  | Err e => (reviewResult task ("worker_json_invalid:" +:+ what_of e), stopChild)
  | Ok None => (reviewResult task "worker_response_contract_mismatch", child)
  | Ok (Some r) =>
      if negb (er_runtimeSucceeded r) then ((et_requestId task, with_decision r None "REVIEW"), child) else
      if bool_decide (er_decision r = "EV_CANDIDATE")
      then ((et_requestId task, with_decision r (Some true) (er_decision r)), child) else
      if bool_decide (er_decision r = "NON_EV_CANDIDATE")
      then ((et_requestId task, with_decision r (Some false) (er_decision r)), child) else
      if bool_decide (er_decision r = "REVIEW") then ((et_requestId task, r), child)
      else (reviewResult task "worker_decision_invalid", stopChild)
  end.

(** [src/entrance/EntranceEvWorker.cpp:135-195 EntranceEvWorker::process] *)
Definition ev_process (task : EntranceEvTask) (a : Attempt) (child : Child) : EvAnswer * Child :=
  let '(alive, child) := if ch_alive child then (true, child) else spawnChild (ap_spawn a) in
  if negb alive then (reviewResult task "worker_start_failed", child) else
  if negb (ap_written a) then (reviewResult task "worker_write_failed", stopChild) else
  match readResponseLine (ch_buffer child) (ap_reply a) with
  | (None, _) => (reviewResult task "worker_timeout_or_closed", stopChild)
  | (Some line, buffer) => process_line task line (mkChild true buffer)
  end.

(** * The queue *)

(** [include/entrance/EntranceEvWorker.hpp:37-46 Config] What is read of it; [ec_valid]: the files exist and the numbers
    are positive. *)
Record EvConfig := mkEvConfig { ec_valid : bool; ec_queueCapacity : nat }.

(** Where the thread is: there is none, it waits for work, or it has a task. *)
Inductive ThreadAt := NoThread | Waiting | Working (task : EntranceEvTask).

(** [include/entrance/EntranceEvWorker.hpp:74-85 EntranceEvWorker] with the tasks it has accepted and the answers it has
    given, oldest first. *)
Record EvWorker := mkEvWorker {
  wk_queue : list EntranceEvTask;
  wk_thread : ThreadAt;
  wk_started : bool;
  wk_stopping : bool;
  wk_child : Child;
  wk_accepted : list EntranceEvTask;
  wk_answered : list (EntranceEvTask * EvAnswer)
}.
Definition new_worker : EvWorker := mkEvWorker [] NoThread false false stopChild [] [].

Context (config : EvConfig).

(** [src/entrance/EntranceEvWorker.cpp:55-71 EntranceEvWorker::start] *)
Definition ev_start (spawn : option (list (option string))) (w : EvWorker) : bool * EvWorker :=
  if wk_started w then (true, w) else
  if negb (ec_valid config) then (false, w) else
  let '(ok, child) := spawnChild spawn in
  if ok then (true, mkEvWorker (wk_queue w) Waiting true false child (wk_accepted w) (wk_answered w))
  else (false, mkEvWorker (wk_queue w) (wk_thread w) (wk_started w) (wk_stopping w) child (wk_accepted w) (wk_answered w)).

(** [src/entrance/EntranceEvWorker.cpp:90-100 EntranceEvWorker::enqueue] *)
Definition worker_enqueue (task : EntranceEvTask) (callback : bool) (w : EvWorker) : bool * EvWorker :=
  if is_empty (et_requestId task) || is_empty (et_imagePath task) || is_empty (et_outputDirectory task) || negb callback
  then (false, w) else
  if negb (wk_started w) || wk_stopping w || (ec_queueCapacity config <=? length (wk_queue w))%nat then (false, w) else
  (true, mkEvWorker (wk_queue w ++ [task]) (wk_thread w) (wk_started w) (wk_stopping w) (wk_child w)
           (wk_accepted w ++ [task]) (wk_answered w)).

(** [src/entrance/EntranceEvWorker.cpp:73-82 EntranceEvWorker::stop] up to the wait for the thread. *)
Definition ev_stop (w : EvWorker) : EvWorker :=
  if negb (wk_started w)
  then mkEvWorker (wk_queue w) (wk_thread w) false (wk_stopping w) stopChild (wk_accepted w) (wk_answered w)
  else mkEvWorker (wk_queue w) (wk_thread w) true true (wk_child w) (wk_accepted w) (wk_answered w).

(** [src/entrance/EntranceEvWorker.cpp:83-88 EntranceEvWorker::stop] when the thread has ended. *)
Definition ev_stopped (w : EvWorker) : EvWorker :=
  mkEvWorker (wk_queue w) NoThread false false stopChild (wk_accepted w) (wk_answered w).

(** [src/entrance/EntranceEvWorker.cpp:107-133 EntranceEvWorker::run] A step of the thread: it takes a task, ends, or
    answers the task that it has; an exception of the callback is logged. *)
Definition ev_thread (a : Attempt) (w : EvWorker) : EvWorker :=
  match wk_thread w with
  | NoThread => w
  | Waiting =>
      match wk_queue w with
      | [] => if wk_stopping w then ev_stopped w else w
      | task :: queue =>
          mkEvWorker queue (Working task) (wk_started w) (wk_stopping w) (wk_child w) (wk_accepted w) (wk_answered w)
      end
  | Working task =>
      let '(answer, child) := ev_process task a (wk_child w) in
      mkEvWorker (wk_queue w) Waiting (wk_started w) (wk_stopping w) child (wk_accepted w)
        (wk_answered w ++ [(task, answer)])
  end.

Inductive EvOp :=
| EvStart (spawn : option (list (option string)))
| EvEnqueue (task : EntranceEvTask) (callback : bool)
| EvStop
| EvThread (a : Attempt).

Definition ev_step (w : EvWorker) (op : EvOp) : EvWorker :=
  match op with
  | EvStart spawn => (ev_start spawn w).2
  | EvEnqueue task callback => (worker_enqueue task callback w).2
  | EvStop => ev_stop w
  | EvThread a => ev_thread a w
  end.
Definition ev_run (w : EvWorker) (ops : list EvOp) : EvWorker := foldl ev_step w ops.

(** * Every task is answered *)

(** The child has said in a line of JSON that the request of [task] is a vehicle of this kind. *)
Definition ev_told (task : EntranceEvTask) (b : bool) : Prop :=
  exists line payload, json_parse line = Ok payload /\
    json_find payload "schema" = Some (JString "low_quality_presence_runtime_result_v1") /\
    json_find payload "request_id" = Some (JString (et_requestId task)) /\
    json_find payload "status" = Some (JString "ok") /\
    json_find payload "ev_prescreen_decision" = Some (JString (if b then "EV_CANDIDATE" else "NON_EV_CANDIDATE")).

Definition answer_ok (task : EntranceEvTask) (a : EvAnswer) : Prop :=
  a.1 = et_requestId task /\ forall b, er_isEv a.2 = Some b -> er_runtimeSucceeded a.2 = true /\ ev_told task b.

Lemma review_ok task error : answer_ok task (reviewResult task error).
Proof. by split. Qed.

Lemma value_string_found j key d v : value_string j key d = Ok v -> v <> d -> json_find j key = Some (JString v).
Proof. unfold value_string. repeat case_match; congruence. Qed.

Lemma read_answer_ok task line r :
  et_requestId task <> "" -> read_answer task line = Ok (Some r) ->
  er_isEv r = None /\
  forall b : bool, er_runtimeSucceeded r = true -> er_decision r = (if b then "EV_CANDIDATE" else "NON_EV_CANDIDATE") ->
    ev_told task b.
Proof.
  intros Hid H. unfold read_answer in H. apply rbind_ok_inv in H as (payload & Hp & H).
  unfold parse_line in Hp. destruct (json_parse line) eqn:Ep; [|done]. injection Hp as ->.
  destruct (negb (is_object payload)); [done|].
  apply rbind_ok_inv in H as (schema & Hs & H). case_bool_decide; [|done]. subst schema. simpl in H.
  apply rbind_ok_inv in H as (id & Hr & H). case_bool_decide; [|done]. subst id. simpl in H.
  apply rbind_ok_inv in H as (decision & Hd & H). do 3 (apply rbind_ok_inv in H as (? & _ & H)).
  apply rbind_ok_inv in H as (? & _ & H). apply rbind_ok_inv in H as (? & _ & H).
  apply rbind_ok_inv in H as (status & Hst & [= <-]). simpl. split; [done|]. intros b Hok ->.
  apply andb_prop in Hok as [->%bool_decide_eq_true_1 _].
  exists line, payload. split; [done|]. split; [by eapply value_string_found|]. split; [by eapply value_string_found|].
  split; [by eapply value_string_found|]. eapply value_string_found; [done|]. by destruct b.
Qed.

Lemma process_line_ok task line child :
  et_requestId task <> "" -> answer_ok task (process_line task line child).1.
Proof.
  intros Hid. unfold process_line. destruct (read_answer task line) as [[r|]|e] eqn:E; [|apply review_ok..].
  destruct (read_answer_ok _ _ _ Hid E) as [Hn Ht].
  destruct (er_runtimeSucceeded r) eqn:Es; simpl; [|split; [done|by intros ?]].
  repeat case_bool_decide; simpl.
  - split; [done|]. intros b [= <-]. by split; [|apply (Ht true)].
  - split; [done|]. intros b [= <-]. by split; [|apply (Ht false)].
  - split; [done|]. simpl. rewrite Hn. by intros ?.
  - apply review_ok.
Qed.

Lemma ev_process_ok task a child : et_requestId task <> "" -> answer_ok task (ev_process task a child).1.
Proof.
  intros Hid. unfold ev_process. destruct (if ch_alive child then _ else _) as [alive c].
  destruct alive; simpl; [|apply review_ok]. destruct (ap_written a); simpl; [|apply review_ok].
  destruct (readResponseLine _ _) as [[line|] buffer]; [by apply process_line_ok|apply review_ok].
Qed.

Definition working (w : EvWorker) : list EntranceEvTask :=
  match wk_thread w with Working task => [task] | _ => [] end.

Record ev_ok (w : EvWorker) : Prop := {
  ek_tasks : wk_accepted w = (wk_answered w).*1 ++ working w ++ wk_queue w;
  ek_answers : Forall (fun p => answer_ok p.1 p.2) (wk_answered w);
  ek_ids : Forall (fun t => et_requestId t <> "") (wk_accepted w);
  ek_bound : (length (wk_queue w) <= ec_queueCapacity config)%nat;
  ek_started : wk_started w = false -> wk_thread w = NoThread /\ wk_queue w = [] /\ wk_stopping w = false;
  ek_thread : wk_started w = true -> wk_thread w <> NoThread
}.

Lemma ev_thread_ok a w : ev_ok w -> ev_ok (ev_thread a w).
Proof.
  intros [Ht Ha Hi Hb Hs Hr]. unfold ev_thread, working in *. destruct (wk_thread w) as [| |task] eqn:Et.
  - split; unfold working; rewrite ?Et; done.
  - destruct (wk_queue w) as [|task queue] eqn:Eq.
    + destruct (wk_stopping w) eqn:Es; split; unfold working; simpl; rewrite ?Et, ?Eq, ?Es; try done; try lia.
    + split; simpl in *; try done; try lia. intros H. by destruct (Hs H) as (? & ? & _).
  - assert (Hid : et_requestId task <> "").
    { rewrite Forall_forall in Hi. apply Hi. rewrite Ht. set_solver. }
    pose proof (ev_process_ok task a (wk_child w) Hid) as Hp.
    destruct (ev_process task a (wk_child w)) as [answer child]. split; simpl in *; try done.
    + rewrite Ht, fmap_app. by rewrite <- app_assoc.
    + apply Forall_app. split; [done|]. constructor; [exact Hp|constructor].
    + intros H. by destruct (Hs H).
Qed.

Lemma ev_step_ok w op : ev_ok w -> ev_ok (ev_step w op).
Proof.
  intros Hw. destruct op as [spawn|task callback| |a]; simpl; [| | |by apply ev_thread_ok].
  - unfold ev_start. destruct (wk_started w) eqn:Es; [done|]. destruct (ec_valid config); [|done].
    destruct Hw as [Ht Ha Hi Hb Hs Hr]. destruct (Hs Es) as (Hth & Hq & Hst). destruct (spawnChild spawn) as [[] child]; simpl.
    + split; unfold working in *; simpl; rewrite ?Hth, ?Hq in *; done.
    + split; unfold working in *; simpl; rewrite ?Hth, ?Hq in *; done.
  - unfold worker_enqueue. destruct (is_empty _ || _ || _ || _) eqn:Ee; [done|].
    destruct (negb (wk_started w) || wk_stopping w || _) eqn:Eg; [done|]. split_bool.
    destruct Hw as [Ht Ha Hi Hb Hs Hr]. split; simpl; try done.
    + rewrite Ht. unfold working. simpl. by rewrite <- !app_assoc.
    + apply Forall_app. split; [done|]. constructor; [|done]. intros Hn. by rewrite Hn in *.
    + rewrite length_app. simpl. match goal with H : (_ <=? _)%nat = false |- _ => apply Nat.leb_gt in H end. lia.
    + congruence.
  - unfold ev_stop. destruct Hw as [Ht Ha Hi Hb Hs Hr]. destruct (wk_started w) eqn:Es; split; simpl; done.
Qed.
Lemma ev_run_ok ops : forall w, ev_ok w -> ev_ok (ev_run w ops).
Proof. induction ops as [|op ops IH]; intros w Hw; [done|]. by apply IH, ev_step_ok. Qed.
Lemma new_worker_ok : ev_ok new_worker.
Proof. split; simpl; try done. lia. Qed.

(** The steps that the thread still needs to end. *)
Definition ev_left (w : EvWorker) : nat :=
  match wk_thread w with
  | NoThread => 0
  | Waiting => 2 * length (wk_queue w) + 1
  | Working _ => 2 * length (wk_queue w) + 2
  end.

Lemma ev_drains attempts : forall w,
  ev_ok w -> (wk_started w = true -> wk_stopping w = true) -> (ev_left w <= length attempts)%nat ->
  wk_started (ev_run w (EvThread <$> attempts)) = false.
Proof.
  induction attempts as [|a attempts IH]; intros w Hw Hst Hl; simpl.
  - destruct (wk_started w) eqn:Es; [|done]. destruct (ek_thread w Hw Es). unfold ev_left in Hl.
    destruct (wk_thread w); [done|simpl in Hl; lia..].
  - apply IH; [by apply ev_thread_ok|..]; unfold ev_thread, ev_left in *; destruct (wk_thread w) as [| |task] eqn:Et.
    + done.
    + destruct (wk_queue w) eqn:Eq; [destruct (wk_stopping w) eqn:Es; simpl; [done|by rewrite Es]|done].
    + by destruct (ev_process task a (wk_child w)).
    + rewrite Et. lia.
    + destruct (wk_queue w) as [|t q] eqn:Eq; simpl in *; [|lia]. destruct (wk_stopping w) eqn:Es; simpl; [lia|].
      rewrite Et. destruct (wk_started w) eqn:Ew; [by specialize (Hst eq_refl)|].
      destruct (ek_started w Hw Ew) as (Hn & _). congruence.
    + destruct (ev_process task a (wk_child w)). simpl in *. lia.
Qed.

(** Every task that the worker has accepted is answered once, in its order, whatever the child does: the
    tasks accepted so far are those answered, then the one that is processed, then the queue, which never exceeds its
    capacity; an answer carries its task's request, and it says that the vehicle is or is not electric only if a child
    has said so, in a line with the identifier of this very request, without an error; and a worker that is stopping ends after a
    bounded number of steps of its thread, with every task answered. *)
Theorem ev_tasks_answered (ops : list EvOp) :
  let w := ev_run new_worker ops in
  wk_accepted w = (wk_answered w).*1 ++ working w ++ wk_queue w /\
  (length (wk_queue w) <= ec_queueCapacity config)%nat /\
  (forall task id r, (task, (id, r)) ∈ wk_answered w ->
     id = et_requestId task /\ forall b, er_isEv r = Some b -> er_runtimeSucceeded r = true /\ ev_told task b) /\
  (forall attempts, wk_stopping w = true -> (2 * length (wk_queue w) + 2 <= length attempts)%nat ->
     let e := ev_run w (EvThread <$> attempts) in
     wk_started e = false /\ wk_queue e = [] /\ wk_accepted e = (wk_answered e).*1).
Proof.
  intros w. pose proof (ev_run_ok ops _ new_worker_ok) as Hw. fold w in Hw.
  split; [apply (ek_tasks w Hw)|]. split; [apply (ek_bound w Hw)|]. split.
  - intros task id r Hin. eapply Forall_forall in Hin; [|apply (ek_answers w Hw)]. exact Hin.
  - intros attempts Hst Hl e. pose proof (ev_run_ok (EvThread <$> attempts) w Hw) as He. fold e in He.
    assert (Hs : wk_started e = false).
    { apply ev_drains; [done|done|]. unfold ev_left. destruct (wk_thread w); lia. }
    destruct (ek_started e He Hs) as (Hth & Hq & _). split; [done|]. split; [done|].
    rewrite (ek_tasks e He). unfold working. rewrite Hth, Hq. apply app_nil_r.
Qed.
End Worker.

(** * Witness *)

Notation ready_json := (JObject [("schema", JString "entrance_ev_worker_ready_v1"); ("status", JString "ready")]).
Notation answer_json id := (JObject
  [("schema", JString "low_quality_presence_runtime_result_v1"); ("request_id", JString id);
   ("ev_prescreen_decision", JString "EV_CANDIDATE"); ("status", JString "ok")]).
#[local] Instance ev_json : JsonLibrary := {|
  json_parse := fun text =>
    if bool_decide (text = "READY") then Ok ready_json else
    if bool_decide (text = "ANSWER r1") then Ok (answer_json "r1") else
    if bool_decide (text = "ANSWER r2") then Ok (answer_json "r2") else Err "parse error";
  json_dump := fun _ => "";
  json_eqb := fun _ _ => false;
  json_float_to_int := fun _ => 0
|}.
Definition no_double (_ : json) : option double := None.
Definition ev_demo_config : EvConfig := mkEvConfig true 4.
Definition ev_demo_task (id : string) : EntranceEvTask := mkEvTask id "p.jpg" "out" "rgb".
Definition ev_line (text : string) : option string := Some (text +:+ newline).

(** Two tasks, a stop, and answers in two parts. *)
Definition ev_demo : list EvOp :=
  [EvStart (Some [Some "REA"; ev_line "DY"]); EvEnqueue (ev_demo_task "r1") true; EvEnqueue (ev_demo_task "r2") true; EvStop].
Notation ev_demo_worker := (ev_run no_double ev_demo_config new_worker ev_demo).
Definition ev_demo_attempts : list Attempt :=
  [mkAttempt None true []; mkAttempt None true [Some "ANSWER "; ev_line "r1"]; mkAttempt None true [];
   mkAttempt None true [None]; mkAttempt None true []; mkAttempt None true []].

Lemma ev_tasks_answered_witness :
  wk_stopping ev_demo_worker = true /\
  (er_isEv ∘ snd ∘ snd <$> wk_answered (ev_run no_double ev_demo_config ev_demo_worker (EvThread <$> ev_demo_attempts)))
    = [Some true; None] /\
  wk_started (ev_run no_double ev_demo_config ev_demo_worker (EvThread <$> ev_demo_attempts)) = false.
Proof.
  assert (Hs : wk_stopping ev_demo_worker = true) by (vm_compute; reflexivity).
  split; [exact Hs|]. split; [vm_compute; reflexivity|].
  pose proof (ev_tasks_answered no_double ev_demo_config ev_demo) as H. cbv zeta in H.
  destruct H as (_ & _ & _ & H). refine (proj1 (H ev_demo_attempts Hs _)).
  assert (Hq : length (wk_queue ev_demo_worker) = 2%nat) by (vm_compute; reflexivity). rewrite Hq. simpl. lia.
Defined.

(** A line too many of a child is never caught up: the worker keeps the child, so each task reads the answer to the one
    before it and is put to review. *)
Example ev_line_too_many :
  (er_error ∘ snd ∘ snd <$> wk_answered (ev_run no_double ev_demo_config new_worker
    [EvStart (Some [ev_line "READY"]); EvEnqueue (ev_demo_task "r1") true; EvEnqueue (ev_demo_task "r2") true;
     EvThread (mkAttempt None true []);
     EvThread (mkAttempt None true [ev_line "ANSWER r2"; ev_line "ANSWER r1"]);
     EvThread (mkAttempt None true []);
     EvThread (mkAttempt None true [ev_line "ANSWER r1"; ev_line "ANSWER r2"])]))
  = ["worker_response_contract_mismatch"; "worker_response_contract_mismatch"].
Proof. vm_compute. reflexivity. Qed.
