(* ===== verification/HallExecutor.v ===== *)
(** A due capture of a parking session: the light on the plate ([src/parking/PlateIlluminator.cpp]), the run of one
    request ([src/parking/HallCaptureExecutor.cpp]) with the coordinator that stores its picture, and a pass of the
    thread that runs the due requests ([src/parking/CaptureSchedulerRuntime.cpp]). A computation writes what it does
    to a trace and may end in an exception; what cameras, disk, sender and database answer is an environment. *)
From S2P Require Import Prelude SensorProtocol SequencePolicy SlotConfig Occupancy Capture HallOcr.

#[local] Open Scope Z_scope.

(** * The light *)

(** [src/parking/PlateIlluminator.cpp:27-34 isNightWindow] *)
Definition isNightWindow (hour startHour endHour : Z) : bool :=
  if (hour <? 0) || (23 <? hour) then false else
  if startHour =? endHour then false else
  if endHour <? startHour then (startHour <=? hour) || (hour <? endHour)
  else (startHour <=? hour) && (hour <? endHour).

(** [include/parking/PlateIlluminator.hpp:22-27 PlateIlluminatorConfig] The delay after the light is on is left out. *)
Record PlateIlluminatorConfig := mkIlluminatorConfig {
  il_enabled : bool; il_nightStartHour : Z; il_nightEndHour : Z
}.

(** [include/parking/PlateIlluminator.hpp:98-101 SessionOcr] *)
Inductive SessionOcr := PlateUnreadable | Resolved.

(** [include/parking/PlateIlluminator.hpp:111-115 sequence_] *)
Record PlateIlluminator := mkIlluminator {
  il_config : PlateIlluminatorConfig;
  il_sender : bool;
  il_sequence : Z;
  il_session_ocr : gmap Z SessionOcr
}.

(** [src/parking/PlateIlluminator.cpp:83-97 PlateIlluminator::needsLight] at the local hour [hour]. *)
Definition needsLight (sessionId : string) (hour : Z) (p : PlateIlluminator) : bool :=
  let night := isNightWindow hour (il_nightStartHour (il_config p)) (il_nightEndHour (il_config p)) in
  match parseSessionId sessionId with
  | Some id =>
      match il_session_ocr p !! id with
      | Some Resolved => false
      | Some PlateUnreadable => true
      | None => night
      end
  | None => night
  end.

Definition with_session_ocr (p : PlateIlluminator) (m : gmap Z SessionOcr) : PlateIlluminator :=
  mkIlluminator (il_config p) (il_sender p) (il_sequence p) m.

(** [src/parking/PlateIlluminator.cpp:129-134 PlateIlluminator::note] *)
Definition note (sessionId : Z) (state : SessionOcr) (p : PlateIlluminator) : PlateIlluminator :=
  if sessionId <? 0 then p else with_session_ocr p (<[sessionId := state]> (il_session_ocr p)).

(** [src/parking/PlateIlluminator.cpp:136-138 PlateIlluminator::markPlateUnreadable] *)
Definition markPlateUnreadable (sessionId : Z) (p : PlateIlluminator) : PlateIlluminator :=
  note sessionId PlateUnreadable p.

(** [src/parking/PlateIlluminator.cpp:140-142 PlateIlluminator::markResolved] *)
Definition markResolved (sessionId : Z) (p : PlateIlluminator) : PlateIlluminator := note sessionId Resolved p.

(** [src/parking/PlateIlluminator.cpp:144-147 PlateIlluminator::forget] *)
Definition forget (sessionId : Z) (p : PlateIlluminator) : PlateIlluminator :=
  with_session_ocr p (delete sessionId (il_session_ocr p)).

(** [src/parking/PlateIlluminator.cpp:149-151 PlateIlluminator::forget] *)
Definition forget_text (sessionId : string) (p : PlateIlluminator) : PlateIlluminator :=
  match parseSessionId sessionId with Some parsed => forget parsed p | None => p end.

(** [src/parking/PlateIlluminator.cpp:99-106 PlateIlluminator::send] The text of a command. *)
Definition led_payload (sensorId state : string) (sequence : Z) : string :=
  "ALERT:" +:+ sensorId +:+ ":LED:" +:+ state +:+ ":" +:+ pretty (Z.to_N sequence).

(** * Computations *)

Section Executor.
Context {double : Type}.

(** [include/parking/AppliedParkingRoi.hpp:11-15 AppliedParkingRoi] The region of a picture: x, y, width, height. *)
Record Roi := mkRoi { roi_x : double; roi_y : double; roi_width : double; roi_height : double }.

(** [None]: an exception instead of an answer. *)
Definition Answer (A : Type) : Type := option A.

(** What a run does, in its order. *)
Inductive Event :=
| LedSent (payload : string) (sequence : Z) (answer : Answer bool)
| Exposed (api : option Z)
| DraftSent (target : CaptureTarget double)
| Saved (paths : list string)
| Offered (image : CapturedImage Roi) (result : CaptureImageResult)
| Called (effect : hall_effect Roi)
| Removed (path : string) (gone : bool).

(** What the surroundings of a run answer. *)
Record Env := mkEnv {
  en_channels : list (option string);
  en_roi : option (string -> Answer (option (Roi * N)));
  en_api : option (Answer bool);
  en_api_paths : Answer (string * string);
  en_fallback : bool;
  en_draft : option (Answer bool);
  en_rtsp_path : Answer string;
  en_stored : ImageStoreResult;
  en_lamp : bool;
  en_hour : option Z -> Z;
  en_led : string -> Z -> Answer bool;
  en_removed : string -> bool
}.

Record World := mkWorld { wd_lamp : PlateIlluminator; wd_coordinator : Coordinator Roi }.

Definition Exec (A : Type) : Type := World -> list Event * option A * World.
Definition exec_ret {A} (a : A) : Exec A := fun w => ([], Some a, w).
Definition exec_throw {A} : Exec A := fun w => ([], None, w).
Definition exec_bind {A B} (m : Exec A) (k : A -> Exec B) : Exec B := fun w =>
  let '(out, a, w1) := m w in
  match a with
  | Some a => let '(out', b, w2) := k a w1 in (out ++ out', b, w2)
  | None => (out, None, w1)
  end.
Notation "'let!' x ':=' m 'in' k" := (exec_bind m (fun x => k)) (at level 10, x pattern, m at level 100, k at level 200).
Definition exec_tell (e : Event) : Exec unit := fun w => ([e], Some tt, w).
Definition exec_answer {A} (a : Answer A) : Exec A := fun w => ([], a, w).

(** The destructor of a guard: [last] runs when [m] has ended, with a value or with an exception, and throws none. *)
Definition exec_finally {A} (m : Exec A) (last : World -> list Event) : Exec A := fun w =>
  let '(out, a, w1) := m w in (out ++ last w1, a, w1).

(** ** The guard of the light *)

Definition next_sequence : Exec Z := fun w =>
  let p := wd_lamp w in
  let sequence := (il_sequence p + 1) mod 2 ^ 32 in
  ([], Some sequence,
   mkWorld (mkIlluminator (il_config p) (il_sender p) sequence (il_session_ocr p)) (wd_coordinator w)).

(** [src/parking/PlateIlluminator.cpp:108-122 PlateIlluminator::illuminate] The guard: the sensor and the sequence of
    the command; [None]: an empty guard. *)
Definition illuminate (env : Env) (request : CaptureRequest double) (hour : Z) : Exec (option (string * Z)) := fun w =>
  let p := wd_lamp w in
  (if negb (il_enabled (il_config p)) || negb (il_sender p) || is_empty (cr_sensorId _ request)
   then exec_ret None
   else if negb (needsLight (cr_sessionId request) hour p) then exec_ret None
   else let! sequence := next_sequence in
        let payload := led_payload (cr_sensorId _ request) "ON" sequence in
        let! _ := exec_tell (LedSent payload sequence (en_led env payload sequence)) in
        let! sent := exec_answer (en_led env payload sequence) in
        exec_ret (if sent : bool then Some (cr_sensorId _ request, sequence) else None)) w.

(** [src/parking/PlateIlluminator.cpp:67-77 PlateIlluminator::Scope::release] *)
Definition release_guard (env : Env) (guard : option (string * Z)) (_ : World) : list Event :=
  match guard with
  | None => []
  | Some (sensorId, sequence) =>
      let payload := led_payload sensorId "OFF" sequence in
      [LedSent payload sequence (en_led env payload sequence)]
  end.

(** [src/parking/HallCaptureExecutor.cpp:34-38 HallCaptureExecutor::illuminate] and the block that holds the guard. *)
Definition with_lamp {A} (env : Env) (request : CaptureRequest double) (api : option Z) (exposure : Exec A) : Exec A :=
  let! guard := if en_lamp env then illuminate env request (en_hour env api) else exec_ret None in
  exec_finally exposure (release_guard env guard).

(** ** One request *)

(** [std::stoll] with the text behind the number; an exception when there is no number or it does not fit. *)
Definition stoll (text : string) : option (Z * string) :=
  let s := drop_space text in
  let '(sign, body) := match s with
                       | String "-" rest => (-1, rest)
                       | String "+" rest => (1, rest)
                       | _ => (1, s)
                       end in
  match body with
  | String c _ =>
      if isdigit c then
        let '(v, rest) := take_digits_rest 0 body in
        if (- 2 ^ 63 <=? sign * v) && (sign * v <? 2 ^ 63) then Some (sign * v, rest) else None
      else None
  | EmptyString => None
  end.

(** [src/parking/HallCaptureExecutor.cpp:11-17 findChannel] *)
Definition capture_channel (env : Env) (channelId : string) : option string :=
  match List.find (fun c => bool_decide (c = Some channelId)) (en_channels env) with
  | Some found => found
  | None => None
  end.

Definition offer (env : Env) (image : CapturedImage Roi) : Exec CaptureImageResult := fun w =>
  let '(result, effects, c) := onCaptureImage (wd_coordinator w) image (en_stored env) in
  (Offered image result :: (Called <$> effects), Some result, mkWorld (wd_lamp w) c).

(** The calls of [std::filesystem::remove], whose errors are ignored: a file that is not [gone] stays. *)
Fixpoint remove_files (env : Env) (paths : list string) : Exec unit :=
  match paths with
  | [] => exec_ret tt
  | path :: paths => let! _ := exec_tell (Removed path (en_removed env path)) in remove_files env paths
  end.

(** [src/parking/HallCaptureExecutor.cpp:142-149 HallCaptureExecutor::execute] What follows a picture on the disk: it is offered to the coordinator and, unless it is stored, its removal is tried. *)
Definition finish_picture (env : Env) (image : CapturedImage Roi) (paths : list string) : Exec bool :=
  let! result := offer env image in
  match result with
  | CaptureStored => exec_ret true
  | CaptureDuplicate | CaptureInactive => let! _ := remove_files env paths in exec_ret true
  | CaptureFailed => let! _ := remove_files env paths in exec_ret false
  end.

Definition with_roi (t : CaptureTarget double) (roi : Roi) (revision : N) : CaptureTarget double :=
  mkCaptureTarget (ct_cameraId _ t) (ct_channelId _ t) (ct_areaName _ t) (roi_x roi) (roi_y roi) (roi_width roi)
    (roi_height roi) (ct_snapshotApiChannel _ t) revision.

(** [src/parking/HallCaptureExecutor.cpp:126-149 HallCaptureExecutor::execute] The capture from the stream. *)
Definition execute_rtsp (env : Env) (request : CaptureRequest double) (sessionId : Z) (roi : Roi) (revision : N) :
    Exec bool :=
  let! _ := match en_draft env with
            | None => exec_ret false
            | Some answer =>
                let! _ := exec_tell (DraftSent (with_roi (cr_target _ request) roi revision)) in exec_answer answer
            end in
  let! path := with_lamp env request None (let! _ := exec_tell (Exposed None) in exec_answer (en_rtsp_path env)) in
  if is_empty path then exec_ret false else
  let! _ := exec_tell (Saved [path]) in
  finish_picture env (mkCapturedImage sessionId (cr_slotId request) (toStage (cr_reason request)) path "" roi revision) [path].

(** [src/parking/HallCaptureExecutor.cpp:77-124 HallCaptureExecutor::execute] The capture through the camera's own
    interface, or the other one. *)
Definition execute_captures (env : Env) (request : CaptureRequest double) (sessionId : Z) (roi : Roi) (revision : N) :
    Exec bool :=
  match en_api env with
  | None => execute_rtsp env request sessionId roi revision
  | Some answer =>
      let api := Some (ct_snapshotApiChannel _ (cr_target _ request)) in
      let! captured := with_lamp env request api (let! _ := exec_tell (Exposed api) in exec_answer answer) in
      if captured : bool then
        let! (original, enhanced) := exec_answer (en_api_paths env) in
        if is_empty original || is_empty enhanced then exec_ret false else
        let! _ := exec_tell (Saved [original; enhanced]) in
        finish_picture env (mkCapturedImage sessionId (cr_slotId request) (toStage (cr_reason request)) original enhanced roi
                      revision) [original; enhanced]
      else if negb (en_fallback env) then exec_ret false
      else execute_rtsp env request sessionId roi revision
  end.

(** [src/parking/HallCaptureExecutor.cpp:40-75 HallCaptureExecutor::execute] The checks of the request. *)
Definition execute_checked (env : Env) (request : CaptureRequest double) : Exec bool :=
  let! (sessionId, rest) := exec_answer (stoll (cr_sessionId request)) in
  if negb (is_empty rest) || (sessionId <? 0) then exec_ret false else
  match capture_channel env (ct_channelId _ (cr_target _ request)) with
  | None => exec_ret false
  | Some _ =>
      let t := cr_target _ request in
      match en_roi env with
      | None =>
          execute_captures env request sessionId
            (mkRoi (ct_roiX _ t) (ct_roiY _ t) (ct_roiWidth _ t) (ct_roiHeight _ t)) (ct_roiRevision _ t)
      | Some resolver =>
          let! current := exec_answer (resolver (cr_slotId request)) in
          match current with
          | None => exec_ret false
          | Some (roi, revision) => execute_captures env request sessionId roi revision
          end
      end
  end.

(** [src/parking/HallCaptureExecutor.cpp:40-158 HallCaptureExecutor::execute] An exception is the answer [false]. *)
Definition execute (env : Env) (request : CaptureRequest double) (w : World) : list Event * bool * World :=
  let '(out, a, w') := execute_checked env request w in (out, default false a, w').

(** ** A pass of the capture thread *)

(** [src/parking/CaptureSchedulerRuntime.cpp:78-107 CaptureSchedulerRuntime::run] What is done with the due requests:
    each is run, with its own environment, and its answer goes back to the scheduler with the time after it. *)
Fixpoint run_due (config : CaptureSchedulerConfig) (requests : list (CaptureRequest double)) (envs : list (Env * Z))
    (s : gmap string (SessionState double)) (w : World) :
    list (CaptureRequest double * list Event * bool) * gmap string (SessionState double) * World :=
  match requests, envs with
  | request :: requests, (env, after) :: envs =>
      let '(out, accepted, w1) := execute env request w in
      let '(_, s1) := onDispatchResult config s request accepted after in
      let '(rest, s2, w2) := run_due config requests envs s1 w1 in
      ((request, out, accepted) :: rest, s2, w2)
  | _, _ => ([], s, w)
  end.

End Executor.
