(* ===== verification/HallExecutorSafety.v ===== *)
(** What a due capture guarantees: the light on the plate is on for the exposure only and only where it is needed, and
    the files on the disk are those of the image log. *)
From S2P Require Import Prelude SensorProtocol SequencePolicy SlotConfig Occupancy Capture HallOcr HallExecutor.

#[local] Open Scope Z_scope.

(** The hours of the night, over midnight or not, are those that come after the first hour and before the
    last one going round the clock; a night that starts and ends at the same hour is empty. *)
Theorem night_window_circular (hour startHour endHour : Z)
    (Hh : 0 <= hour < 24) (Hs : 0 <= startHour < 24) (He : 0 <= endHour < 24) :
  isNightWindow hour startHour endHour = ((hour - startHour) mod 24 <? (endHour - startHour) mod 24).
Proof.
  assert (Hm : forall x, -24 < x < 24 -> x mod 24 = if x <? 0 then x + 24 else x).
  { intros x Hx. destruct (Z.ltb_spec x 0); [|apply Z.mod_small; lia].
    rewrite <- (Z_mod_plus_full x 1), Z.mod_small; lia. }
  rewrite !Hm by lia. unfold isNightWindow.
  destruct (Z.ltb_spec (hour - startHour) 0), (Z.ltb_spec (endHour - startHour) 0);
    repeat match goal with
    | |- context [?a <? ?b] => destruct (Z.ltb_spec a b)
    | |- context [?a =? ?b] => destruct (Z.eqb_spec a b)
    | |- context [?a <=? ?b] => destruct (Z.leb_spec a b)
    end; simpl; try done; lia.
Qed.

Section Executor.
Context {double : Type}.
Abbreviation Event := (@Event double).
Abbreviation Env := (@Env double).
Abbreviation World := (@World double).
Abbreviation Exec := (@Exec double).
Abbreviation Roi := (@HallExecutor.Roi double).

(** * Computations and their traces *)

(** Whatever [m] starts from, it keeps [I] and what it does is a trace of [T]. *)
Definition exec_ok {A} (I : World -> Prop) (T : list Event -> Prop) (m : Exec A) : Prop :=
  forall w, I w -> T (m w).1.1 /\ I (m w).2.

Section Triples.
Context (I : World -> Prop) (T : list Event -> Prop) (Tnil : T []) (Tapp : forall t u, T t -> T u -> T (t ++ u)).

Lemma ret_ok {A} (a : A) : exec_ok I T (exec_ret a).
Proof. by intros w Hw. Qed.
Lemma answer_ok {A} (a : Answer A) : exec_ok I T (exec_answer a).
Proof. by intros w Hw. Qed.
Lemma tell_ok e : T [e] -> exec_ok I T (exec_tell e).
Proof. by intros He w Hw. Qed.
Lemma bind_ok {A B} (m : Exec A) (k : A -> Exec B) :
  exec_ok I T m -> (forall a, exec_ok I T (k a)) -> exec_ok I T (exec_bind m k).
Proof.
  intros Hm Hk w Hw. unfold exec_bind. destruct (Hm w Hw) as [H1 H2].
  destruct (m w) as [[out [a|]] w1]; [|done]. simpl in *. destruct (Hk a w1 H2) as [H3 H4].
  destruct (k a w1) as [[out' b] w2]. simpl in *. auto.
Qed.
Lemma remove_ok env paths : (forall p gone, T [Removed p gone]) -> exec_ok I T (remove_files env paths).
Proof.
  intros Hr. induction paths as [|p paths IH]; simpl; [apply ret_ok|].
  apply bind_ok; [by apply tell_ok|]. by intros _.
Qed.

(** A run is made of its calls: the guards, the offers and the rest. *)
Context (env : Env) (request : CaptureRequest double).
Context (Tlamp : forall api answer,
  T [Exposed api] -> exec_ok I T (with_lamp (A := bool) env request api (exec_bind (exec_tell (Exposed api)) (fun _ => exec_answer answer)))).
Context (Tlamp' : forall api answer,
  T [Exposed api] -> exec_ok I T (with_lamp (A := string) env request api (exec_bind (exec_tell (Exposed api)) (fun _ => exec_answer answer)))).
Context (Toffer : forall image, exec_ok I T (offer env image)).
Context (Tquiet : forall e, match e with LedSent _ _ _ => False | _ => True end -> T [e]).

Lemma capture_finish_ok image paths : exec_ok I T (finish_picture env image paths).
Proof.
  apply bind_ok; [apply Toffer|]. intros []; try apply ret_ok; (apply bind_ok; [|intros _; apply ret_ok]);
    apply remove_ok; intros p gone; by apply Tquiet.
Qed.
Lemma execute_rtsp_ok id roi rev : exec_ok I T (execute_rtsp env request id roi rev).
Proof.
  unfold execute_rtsp. apply bind_ok.
  { destruct (en_draft env); [|apply ret_ok]. apply bind_ok; [by apply tell_ok, Tquiet|]. intros _. apply answer_ok. }
  intros _. apply bind_ok; [by apply Tlamp', Tquiet|]. intros path. destruct (is_empty path); [apply ret_ok|].
  apply bind_ok; [by apply tell_ok, Tquiet|]. intros _. apply capture_finish_ok.
Qed.
Lemma execute_checked_ok : exec_ok I T (execute_checked env request).
Proof.
  unfold execute_checked. apply bind_ok; [apply answer_ok|]. intros [id rest].
  destruct (negb (is_empty rest) || (id <? 0)); [apply ret_ok|].
  destruct (capture_channel _ _); [|apply ret_ok].
  assert (Hc : forall roi rev, exec_ok I T (execute_captures env request id roi rev)).
  { intros roi rev. unfold execute_captures. destruct (en_api env) as [answer|]; [|apply execute_rtsp_ok].
    apply bind_ok; [by apply Tlamp, Tquiet|]. intros [].
    - apply bind_ok; [apply answer_ok|]. intros [o e]. destruct (is_empty o || is_empty e); [apply ret_ok|].
      apply bind_ok; [by apply tell_ok, Tquiet|]. intros _. apply capture_finish_ok.
    - destruct (negb (en_fallback env)); [apply ret_ok|apply execute_rtsp_ok]. }
  destruct (en_roi env) as [resolver|]; [|apply Hc].
  apply bind_ok; [apply answer_ok|]. intros [[roi rev]|]; [apply Hc|apply ret_ok].
Qed.
End Triples.

(** * The light *)

(** The traces in which a light that is switched on is for one exposure and is switched off right after it. *)
Inductive lamp_trace (sensor : string) : list Event -> Prop :=
| lt_nil : lamp_trace sensor []
| lt_quiet e t : match e with LedSent _ _ _ => False | _ => True end -> lamp_trace sensor t -> lamp_trace sensor (e :: t)
| lt_failed q a t : a <> Some true -> lamp_trace sensor t ->
    lamp_trace sensor (LedSent (led_payload sensor "ON" q) q a :: t)
| lt_lit q api a t : lamp_trace sensor t ->
    lamp_trace sensor (LedSent (led_payload sensor "ON" q) q (Some true) :: Exposed api ::
                       LedSent (led_payload sensor "OFF" q) q a :: t).

Lemma lamp_trace_app sensor t u : lamp_trace sensor t -> lamp_trace sensor u -> lamp_trace sensor (t ++ u).
Proof. induction 1; intros Hu; simpl; auto using lamp_trace. Qed.

(** A light may be switched on in the world [w]. *)
Definition lamp_wanted (env : Env) (request : CaptureRequest double) (p : PlateIlluminator) : Prop :=
  en_lamp env = true /\ il_enabled (il_config p) = true /\ il_sender p = true /\ cr_sensorId _ request <> "" /\
  exists api, needsLight (cr_sessionId request) (en_hour env api) p = true.

Definition same_lamp (p : PlateIlluminator) (w : World) : Prop :=
  il_config (wd_lamp w) = il_config p /\ il_sender (wd_lamp w) = il_sender p /\
  il_session_ocr (wd_lamp w) = il_session_ocr p.

Lemma needsLight_same p w id hour : same_lamp p w -> needsLight id hour (wd_lamp w) = needsLight id hour p.
Proof. intros (Hc & _ & Hm). unfold needsLight. by rewrite Hc, Hm. Qed.

Definition lamp_events (env : Env) (request : CaptureRequest double) (p : PlateIlluminator) (t : list Event) : Prop :=
  lamp_trace (cr_sensorId _ request) t /\
  ((exists payload q a, LedSent payload q a ∈ t) -> lamp_wanted env request p).

Lemma with_lamp_ok {A} env request p api (answer : Answer A) :
  exec_ok (same_lamp p) (lamp_events env request p)
    (with_lamp env request api (exec_bind (exec_tell (Exposed api)) (fun _ => exec_answer answer))).
Proof.
  intros w Hw.
  assert (Hnone : lamp_events env request p [Exposed api]).
  { split; [by apply lt_quiet; [|constructor]|]. intros (payload & q & a & Hin%list_elem_of_singleton). done. }
  unfold with_lamp, exec_bind. destruct (en_lamp env) eqn:El; [|by destruct answer].
  unfold illuminate. cbv beta zeta. destruct (negb (il_enabled (il_config (wd_lamp w))) || negb (il_sender (wd_lamp w)) ||
    is_empty (cr_sensorId double request)) eqn:Eg;
    [destruct answer; exact (conj Hnone Hw)|].
  destruct (needsLight (cr_sessionId request) (en_hour env api) (wd_lamp w)) eqn:En; cbn [negb];
    [|destruct answer; exact (conj Hnone Hw)].
  split_bool.
  assert (Hwant : lamp_wanted env request p).
  { rewrite (needsLight_same _ _ _ _ Hw) in En. destruct Hw as (Hc & Hs & _). rewrite Hc, Hs in *.
    split; [done|]. split; [done|]. split; [done|]. split; [by intros Hn; rewrite Hn in *|]. by exists api. }
  unfold illuminate, next_sequence, exec_tell, exec_answer. cbn -[Z.modulo Z.add].
  set (q := (il_sequence (wd_lamp w) + 1) mod 2 ^ 32).
  destruct (en_led env _ q) as [[]|] eqn:Ea; destruct answer; cbn; (split; [|exact Hw]); (split; [|done]);
    first [apply lt_lit; constructor | apply lt_failed; [done|]; first [apply lt_nil | apply lt_quiet; [done|apply lt_nil]]].
Qed.

Lemma offer_ok env request p image : exec_ok (same_lamp p) (lamp_events env request p) (offer env image).
Proof.
  intros w Hw. unfold offer. destruct (onCaptureImage _ _ _) as [[result effects] c]. cbn. split; [|exact Hw]. split.
  - apply lt_quiet; [done|]. induction effects; simpl; [constructor|by apply lt_quiet].
  - intros (payload & q & a & [?|(? & ? & ?)%list_elem_of_fmap]%elem_of_cons); done.
Qed.


(** * The files *)

Definition saved_of (e : Event) : option (list string) := match e with Saved paths => Some paths | _ => None end.
Definition removed_of (e : Event) : option string := match e with Removed path _ => Some path | _ => None end.
Definition left_of (e : Event) : option string := match e with Removed path false => Some path | _ => None end.
(** The files that [fs::remove] does not remove. *)
Definition refused (env : Env) (paths : list string) : list string :=
  List.filter (fun p => negb (en_removed env p)) paths.
Definition image_files (image : CapturedImage Roi) : list string :=
  ci_originalPath _ image :: (if is_empty (ci_enhancedPath _ image) then [] else [ci_enhancedPath _ image]).

(** Nothing is written to the disk or removed from it. *)
Definition quiet (t : list Event) : Prop := omap saved_of t = [] /\ omap removed_of t = [].

Lemma nothing_left (t : list Event) : omap removed_of t = [] -> omap left_of t = [].
Proof. induction t as [|[] t IH]; simpl; by auto. Qed.

Lemma quiet_nil : quiet [].
Proof. done. Qed.
Lemma quiet_app t u : quiet t -> quiet u -> quiet (t ++ u).
Proof. intros [H1 H2] [H3 H4]. unfold quiet. by rewrite !omap_app, H1, H2, H3, H4. Qed.
Hint Resolve quiet_nil quiet_app : core.

Section Files.
Context (env : Env) (request : CaptureRequest double) (c : Coordinator Roi).

Definition at_c (w : World) : Prop := wd_coordinator w = c.

Lemma illuminate_quiet hour : exec_ok at_c quiet (illuminate env request hour).
Proof.
  intros w Hw. unfold illuminate. cbv beta zeta. destruct (negb (il_enabled _) || _ || _); [done|].
  destruct (negb (needsLight _ _ _)); [done|].
  refine (bind_ok at_c quiet quiet_app _ _ _ _ w Hw); [by intros v Hv|]. intros q.
  apply (bind_ok at_c quiet quiet_app); [by apply tell_ok|]. intros _. apply (bind_ok at_c quiet quiet_app); [by apply answer_ok|].
  intros sent. by apply ret_ok.
Qed.
Lemma with_lamp_quiet {A} api (answer : Answer A) :
  exec_ok at_c quiet (with_lamp env request api (exec_bind (exec_tell (Exposed api)) (fun _ => exec_answer answer))).
Proof.
  apply (bind_ok at_c quiet quiet_app).
  { destruct (en_lamp env); [apply illuminate_quiet|by apply ret_ok]. }
  intros guard w Hw. destruct answer, guard as [[sensor q]|]; done.
Qed.

(** Either no picture is written, or one, which is offered as it is. *)
Definition files_spec (m : Exec bool) : Prop := forall w, at_c w ->
  let '(out, a, w') := m w in
  (quiet out /\ at_c w' /\ a <> Some true) \/
  exists pre image out' w1, quiet pre /\ at_c w1 /\ out = pre ++ Saved (image_files image) :: out' /\
    Forall (fun p => p <> "") (image_files image) /\
    finish_picture env image (image_files image) w1 = (out', a, w').

Lemma files_bind {A} (m : Exec A) (k : A -> Exec bool) :
  exec_ok at_c quiet m -> (forall a, files_spec (k a)) -> files_spec (exec_bind m k).
Proof.
  intros Hm Hk w Hw. unfold exec_bind. destruct (Hm w Hw) as [H1 H2].
  destruct (m w) as [[out [a|]] w1]; simpl in *; [|by left]. specialize (Hk a w1 H2).
  destruct (k a w1) as [[out2 b] w2]. destruct Hk as [(H3 & H4 & H5)|(pre & image & out' & v & H3 & H4 & -> & H5 & H6)].
  - left. split; [by apply quiet_app|done].
  - right. exists (out ++ pre), image, out', v. split; [by apply quiet_app|]. by rewrite <- app_assoc.
Qed.
Lemma files_false : files_spec (exec_ret false).
Proof. intros w Hw. by left. Qed.
Lemma files_saved image paths :
  paths = image_files image -> Forall (fun p => p <> "") paths ->
  files_spec (exec_bind (exec_tell (Saved paths)) (fun _ => finish_picture env image paths)).
Proof.
  intros -> Hne w Hw. unfold exec_bind, exec_tell. destruct (finish_picture env image _ w) as [[out a] w'] eqn:E.
  right. by exists [], image, out, w.
Qed.

Lemma execute_rtsp_files id roi rev : files_spec (execute_rtsp env request id roi rev).
Proof.
  apply files_bind.
  { destruct (en_draft env); [|by apply ret_ok]. apply (bind_ok at_c quiet quiet_app); [by apply tell_ok|]. intros _. by apply answer_ok. }
  intros _. apply files_bind; [apply with_lamp_quiet|]. intros path. destruct (is_empty path) eqn:E; [apply files_false|].
  apply files_saved; [done|]. constructor; [by intros ->|done].
Qed.
Lemma execute_checked_files : files_spec (execute_checked env request).
Proof.
  apply files_bind; [by apply answer_ok|]. intros [id rest].
  destruct (negb (is_empty rest) || (id <? 0)); [apply files_false|].
  destruct (capture_channel _ _); [|apply files_false].
  assert (Hc : forall roi rev, files_spec (execute_captures env request id roi rev)).
  { intros roi rev. unfold execute_captures. destruct (en_api env) as [answer|]; [|apply execute_rtsp_files].
    apply files_bind; [apply with_lamp_quiet|]. intros [].
    - apply files_bind; [by apply answer_ok|]. intros [o e].
      destruct (is_empty o || is_empty e) eqn:E; [apply files_false|]. split_bool.
      assert (e <> "") by (by intros ->). assert (o <> "") by (by intros ->).
      apply files_saved; [|by repeat constructor]. unfold image_files. simpl.
      destruct (is_empty e) eqn:Ee; [done|reflexivity].
    - destruct (negb (en_fallback env)); [apply files_false|apply execute_rtsp_files]. }
  destruct (en_roi env) as [resolver|]; [|apply Hc].
  apply files_bind; [by apply answer_ok|]. intros [[roi rev]|]; [apply Hc|apply files_false].
Qed.

(** What becomes of a picture that is offered. *)
Definition tracked (image : CapturedImage Roi) : bool :=
  bool_decide (is_Some (hc_bindings c !! keyFor (ci_sessionId image))).

Definition removals (paths : list string) : list Event :=
  (fun p => Removed p (en_removed env p)) <$> paths.

Lemma remove_files_run paths w : remove_files env paths w = (removals paths, Some tt, w).
Proof. induction paths as [|p paths IH]; [done|]. simpl. unfold exec_bind, exec_tell. by rewrite IH. Qed.

Lemma offer_result image stored :
  (tracked image = true -> is_Some (hc_policy c !! keyFor (ci_sessionId image))) ->
  (onCaptureImage c image stored).1.1 =
  if tracked image then
    match stored with
    | ImageInserted => CaptureStored
    | ImageDuplicate => CaptureDuplicate
    | ImageInactiveSession => CaptureInactive
    | ImageFailed => CaptureFailed
    end
  else CaptureInactive.
Proof.
  intros Hp. unfold onCaptureImage, tracked in *.
  destruct (hc_bindings c !! keyFor (ci_sessionId image)) as [b|] eqn:Eb.
  - rewrite bool_decide_eq_true_2 in * by eauto. destruct (Hp eq_refl) as [s Es].
    destruct stored; try done. unfold onImageArrived. rewrite Es. unfold image_arrived.
    by repeat case_match; simplify_eq.
  - by rewrite bool_decide_eq_false_2 by (by intros [? ?]).
Qed.

Lemma finish_run image paths w :
  at_c w ->
  (tracked image = true -> is_Some (hc_policy c !! keyFor (ci_sessionId image))) ->
  let '(out, a, w') := finish_picture env image paths w in
  wd_coordinator w' = (onCaptureImage c image (en_stored env)).2 /\ omap saved_of out = [] /\
  if tracked image && bool_decide (en_stored env = ImageInserted)
  then omap removed_of out = [] /\ a = Some true
  else omap removed_of out = paths /\ omap left_of out = refused env paths /\
       a = Some (negb (tracked image && bool_decide (en_stored env = ImageFailed))).
Proof.
  intros Hw Hp. pose proof (offer_result image (en_stored env) Hp) as Ho.
  unfold finish_picture, exec_bind, offer. rewrite Hw.
  destruct (onCaptureImage c image (en_stored env)) as [[result effects] c']. simpl in Ho. subst result.
  assert (Hr : quiet (Called <$> effects)) by (induction effects; done).
  assert (Hl : omap left_of (Called (double := double) <$> effects) = []) by (clear; induction effects; done).
  assert (Hf : omap saved_of (removals paths) = [] /\ omap removed_of (removals paths) = paths /\
               omap left_of (removals paths) = refused env paths).
  { clear. induction paths as [|p l (IH1 & IH2 & IH3)]; [done|]. unfold removals, refused in *. rewrite fmap_cons.
    cbn [omap list_omap removed_of left_of saved_of List.filter]. split; [done|]. split; [by f_equal|].
    destruct (en_removed env p); [done|]. cbn [negb]. by f_equal. }
  destruct Hf as (Hf1 & Hf2 & Hf3).
  destruct Hr as [Hr1 Hr2].
  destruct (tracked image), (en_stored env); simpl; rewrite ?remove_files_run; simpl;
    rewrite ?app_nil_r, ?omap_app, ?Hr1, ?Hr2, ?Hl, ?Hf1, ?Hf2, ?Hf3; done.
Qed.
End Files.

Lemma hall_run_app {roi} max (calls calls' : list (hall_call roi)) : forall c,
  (hall_run max c (calls ++ calls')).2 = (hall_run max (hall_run max c calls).2 calls').2.
Proof.
  induction calls as [|call calls IH]; intros c; [done|]. simpl. destruct (hall_step max c call) as [o c1].
  specialize (IH c1). destruct (hall_run max c1 (calls ++ calls')), (hall_run max c1 calls). done.
Qed.

(** Every session that the coordinator tracks is known to the policy. *)
Definition policy_knows {roi} (c : Coordinator roi) : Prop :=
  forall k, is_Some (hc_bindings c !! k) -> is_Some (hc_policy c !! k).

Lemma policy_insert (p : gmap string OcrSession) {A} (m : gmap string A) k s :
  (forall k, is_Some (m !! k) -> is_Some (p !! k)) -> forall j, is_Some (m !! j) -> is_Some (<[k := s]> p !! j).
Proof. intros H j Hj. rewrite lookup_insert_is_Some. destruct (decide (k = j)); auto. Qed.

Lemma hall_step_knows {roi} max (c : Coordinator roi) call :
  policy_knows c -> policy_knows (hall_step max c call).2.
Proof.
  intros Hc. destruct call as [t|image stored|o]; simpl.
  - unfold hall_onTransition. destruct (ptr_code t); try exact Hc; (destruct (parseSessionId _) as [z|]; [|exact Hc]).
    + intros k. simpl. unfold openSession. destruct (hc_bindings c !! keyFor z) eqn:Eb.
      * destruct (Hc (keyFor z)) as [s Es]; [eauto|]. rewrite Es. apply Hc.
      * destruct (hc_policy c !! keyFor z) eqn:Es; rewrite !lookup_insert_is_Some';
          intros [<-|Hk]; rewrite ?Es; eauto.
    + destruct (hc_bindings c !! keyFor z) as [b|] eqn:Eb; [|exact Hc].
      unfold closeSession. destruct (Hc (keyFor z)) as [s Es]; [eauto|]. rewrite Es. intros k. simpl.
      rewrite !lookup_delete_is_Some. intros [? ?]. auto.
  - unfold onCaptureImage. destruct (hc_bindings c !! _) as [b|] eqn:Eb; [|exact Hc]. destruct stored; try exact Hc.
    unfold onImageArrived. destruct (Hc _ (mk_is_Some _ _ Eb)) as [s Es]. rewrite Es.
    destruct (image_arrived s _) as [[] s']; intros k; simpl; try (by apply policy_insert).
    rewrite !lookup_insert_is_Some'. intros [<-|Hk]; auto.
  - unfold onOcrOutcome. destruct (hc_bindings c !! _) as [b|] eqn:Eb; [|exact Hc]. unfold onOcrResult.
    destruct (Hc _ (mk_is_Some _ _ Eb)) as [s Es]. rewrite Es. destruct (ocr_result _ _ _ _) as [fold s'].
    assert (Hx : policy_knows (mkCoordinator (<[keyFor (hoo_sessionId o) := s']> (hc_policy c))
                   (<[keyFor (hoo_sessionId o) := mkBinding (bd_sessionId b) (bd_slotId b) None]> (hc_bindings c)))).
    { intros k. simpl. rewrite !lookup_insert_is_Some'. intros [<-|Hk]; auto. }
    destruct (negb (of_tracked fold)); [intros k; by apply policy_insert|].
    by repeat case_match; simplify_eq.
Qed.
Lemma hall_run_knows {roi} max (calls : list (hall_call roi)) : forall c,
  policy_knows c -> policy_knows (hall_run max c calls).2.
Proof.
  induction calls as [|call calls IH]; intros c Hc; [done|]. simpl.
  pose proof (hall_step_knows max c call Hc). destruct (hall_step max c call) as [o c1].
  specialize (IH c1 H). by destruct (hall_run max c1 calls).
Qed.

(** C21 [error] The files of a run are those of the image log, whatever fails on the way: a run writes no picture, and then
    it answers [false] and the coordinator is untouched, or one, whose files it offers to the coordinator. If the log
    has stored the picture of a session that is tracked, its files stay and the request is done; otherwise the removal
    of every file of the picture is tried, exactly the files whose removal fails are left behind, and the request is to
    be repeated only when the log has failed. *)
Theorem capture_files_accounted (maxAttempts : nat) (calls : list (hall_call Roi)) (env : Env)
    (request : CaptureRequest double) (w : World)
    (Hw : wd_coordinator w = (hall_run maxAttempts hall_init calls).2) :
  let '(out, accepted, w') := execute env request w in
  match omap saved_of out with
  | [] => omap removed_of out = [] /\ accepted = false /\ wd_coordinator w' = wd_coordinator w
  | [paths] =>
      exists image, paths = image_files image /\ Forall (fun p => p <> "") paths /\
        wd_coordinator w' = (hall_run maxAttempts hall_init (calls ++ [HallImage image (en_stored env)])).2 /\
        if tracked (wd_coordinator w) image && bool_decide (en_stored env = ImageInserted)
        then omap removed_of out = [] /\ accepted = true
        else omap removed_of out = paths /\ omap left_of out = refused env paths /\
             accepted = negb (tracked (wd_coordinator w) image && bool_decide (en_stored env = ImageFailed))
  | _ => False
  end.
Proof.
  pose proof (execute_checked_files env request (wd_coordinator w) w eq_refl) as H. unfold execute.
  destruct (execute_checked env request w) as [[out a] w'].
  destruct H as [([-> ->] & Hc & Ha)|(pre & image & out' & w1 & [Hp1 Hp2] & Hc & -> & Hne & Hf)].
  { split; [done|]. split; [by destruct a as [[]|]|done]. }
  pose proof (finish_run env (wd_coordinator w) image (image_files image) w1 Hc) as Hr. rewrite Hf in Hr.
  rewrite !omap_app, Hp1, Hp2, (nothing_left pre Hp2). cbn [app].
  change (omap saved_of (Saved (image_files image) :: out')) with (image_files image :: omap saved_of out').
  change (omap removed_of (Saved (image_files image) :: out')) with (omap removed_of out').
  change (omap left_of (Saved (image_files image) :: out')) with (omap left_of out').
  destruct Hr as (Hw' & -> & Hr).
  { unfold tracked. intros Ht%bool_decide_eq_true_1. revert Ht. rewrite Hw. apply hall_run_knows.
    intros k [b Hk]. unfold hall_init in Hk. simpl in Hk. by rewrite lookup_empty in Hk. }
  exists image. split; [done|]. split; [done|]. split.
  - rewrite Hw', Hw. rewrite hall_run_app. cbn [hall_run hall_step]. by destruct (onCaptureImage (hall_run maxAttempts hall_init calls).2 image (en_stored env)) as [[? ?] ?].
  - destruct (tracked _ image && _); [by destruct Hr as [-> ->]|by destruct Hr as (-> & -> & ->)].
Qed.
End Executor.

(** * Witnesses *)

Lemma night_window_circular_witness :
  isNightWindow 3 19 6 = true /\ isNightWindow 12 19 6 = ((12 - 19) mod 24 <? (6 - 19) mod 24).
Proof.
  split; [vm_compute; reflexivity|]. apply (night_window_circular 12 19 6); lia.
Defined.

(** A run in the night that falls back from the camera's interface to the stream. *)
Definition demo_capture_env (stored : ImageStoreResult) : @Env unit :=
  mkEnv [None; Some "front"] None (Some (Some false)) None true (Some (Some false)) (Some "p.jpg") stored true
    (fun _ => 23) (fun payload _ => Some true) (fun p => negb (bool_decide (p = "p.jpg"))).
Definition demo_capture_request : CaptureRequest unit :=
  mkCaptureRequest "7" "A1" "H01" (mkCaptureTarget "cam" "front" "area" tt tt tt tt 0 0) HallOccupied30s 1 0 0 3000.
Definition demo_capture_world : @World unit :=
  mkWorld (mkIlluminator (mkIlluminatorConfig true 19 6) true 4 ∅)
    (hall_run 2 hall_init [HallTransition sample_started]).2.


Lemma capture_files_accounted_witness :
  (execute (demo_capture_env ImageFailed) demo_capture_request demo_capture_world).1.2 = false /\
  exists image, ["p.jpg"] = image_files (double := unit) image /\
    omap removed_of (execute (demo_capture_env ImageFailed) demo_capture_request demo_capture_world).1.1 = ["p.jpg"] /\
    omap left_of (execute (demo_capture_env ImageFailed) demo_capture_request demo_capture_world).1.1 = ["p.jpg"].
Proof.
  split; [vm_compute; reflexivity|].
  pose proof (capture_files_accounted 2 [HallTransition sample_started] (demo_capture_env ImageFailed)
                demo_capture_request demo_capture_world eq_refl) as H.
  destruct (execute (demo_capture_env ImageFailed) demo_capture_request demo_capture_world) as [[out a] w'] eqn:E.
  assert (Hs : omap saved_of out = [["p.jpg"]]).
  { change out with (out, a, w').1.1. rewrite <- E. vm_compute. reflexivity. }
  rewrite Hs in H. destruct H as (image & Hp & _ & _ & H). exists image. split; [exact Hp|].
  rewrite andb_false_r in H. destruct H as (H1 & H2 & _). exact (conj H1 H2).
Defined.
