(* ===== verification/AlertSafety.v ===== *)
(** What the parking alerts guarantee: the map of slots is well formed, the mask of the device is exactly the set of
    slots with an alert, and a reader that is told nothing new has the current state. *)
From S2P Require Import Prelude Alert.
Import Alert.Driver Alert.Controller Alert.Adapter.

#[local] Open Scope Z_scope.

(** * The map of slots *)

Record slot_map_ok (m : gmap string Z) : Prop := {
  sm_range : forall s i, m !! s = Some i -> 0 <= i < 32;
  sm_names : forall s i, m !! s = Some i -> s <> "" /\ clean s;
  sm_inj : forall s t i, m !! s = Some i -> m !! t = Some i -> s = t
}.

Lemma take_digits_nonneg s : forall acc, 0 <= acc -> 0 <= (take_digits_rest acc s).1.
Proof.
  induction s as [|c s IH]; intros acc Ha; simpl; [done|]. case_match; [|done]. apply IH. lia.
Qed.
Lemma stoul_nonneg s v rest : stoul s = Some (v, rest) -> 0 <= v.
Proof.
  unfold stoul. set (body := drop_space s). destruct (match body with String "-" r => _ | _ => _ end) as [neg digits].
  destruct digits as [|c r]; [done|]. destruct (isdigit c); [|done].
  pose proof (take_digits_nonneg (String c r) 0 ltac:(lia)) as Hn.
  destruct (take_digits_rest 0 (String c r)) as [w t]. destruct (w <? 2 ^ 64); [|done].
  intros [= <- <-]. destruct neg; [|done]. by apply Z.mod_pos_bound.
Qed.

Lemma parse_entry_ok token s i :
  parse_entry token = Some (s, i) -> 0 <= i < 32 /\ s <> "" /\ clean s.
Proof.
  unfold parse_entry. destruct (break_on ":" token) as [[before behind]|]; [|done].
  destruct (stoul _) as [[v [|]]|] eqn:E; [|done|done].
  destruct (is_empty (alert_trim before)) eqn:Ee; [done|]. simpl. destruct (Z.leb_spec 32 v); [done|].
  intros [= <- <-]. apply stoul_nonneg in E. split; [lia|]. split; [by intros Hs; rewrite Hs in Ee|].
  apply trim_clean.
Qed.

Lemma parse_entries_ok tokens : forall result indexes m,
  parse_entries tokens result indexes = Some m -> slot_map_ok result ->
  (forall s i, result !! s = Some i -> i ∈ indexes) -> slot_map_ok m.
Proof.
  induction tokens as [|token tokens IH]; intros result indexes m; simpl; [by intros [= <-]|].
  destruct (parse_entry token) as [[s i]|] eqn:E; [|done].
  destruct (bool_decide (s ∈ _)) eqn:E1; [done|]. destruct (bool_decide (i ∈ _)) eqn:E2; [done|]. simpl. split_bool.
  intros Hm Hr Hi. apply parse_entry_ok in E as (Hrange & Hname).
  apply (IH _ _ _ Hm); [|intros t j [[<- <-]|[_ Hj]]%lookup_insert_Some; set_solver].
  split.
  - intros t j [[<- <-]|[_ Hj]]%lookup_insert_Some; [done|]. by eapply sm_range.
  - intros t j [[<- <-]|[_ Hj]]%lookup_insert_Some; [done|]. by eapply sm_names.
  - intros t u j [[<- <-]|[_ Ht]]%lookup_insert_Some [[<- Hj]|[_ Hu]]%lookup_insert_Some; try done; subst.
    + by apply Hi in Hu.
    + by apply Hi in Ht.
    + by eapply sm_inj.
Qed.

Lemma parse_map_ok value m : parseSlotMap value = Some m -> m <> ∅ /\ slot_map_ok m.
Proof.
  unfold parseSlotMap. destruct (parse_entries _ _ _) as [r|] eqn:E; [|done].
  destruct (bool_decide (r = ∅)) eqn:Er; [done|]. intros [= ->]. split_bool. split; [done|].
  by apply parse_entries_ok in E.
Qed.

(** A map of slots that the controller accepts is well formed: it has an entry, each name is trimmed and not
    empty, each index is a bit of the device's 32-bit mask, and no two slots share one. *)
Theorem slot_map_typed (value : string) (m : gmap string Z) (H : parseSlotMap value = Some m) :
  m <> ∅ /\ (forall s i, m !! s = Some i -> s <> "" /\ clean s /\ 0 <= i < 32) /\
  (forall s t i, m !! s = Some i -> m !! t = Some i -> s = t).
Proof.
  destruct (parse_map_ok _ _ H) as [? []]. naive_solver.
Qed.

(** * The mask *)

Lemma u32_testbit x j : 0 <= j -> Z.testbit (u32 x) j = (j <? 32) && Z.testbit x j.
Proof.
  intros Hj. unfold u32. destruct (Z.ltb_spec j 32).
  - by rewrite Z.mod_pow2_bits_low by lia.
  - by rewrite Z.mod_pow2_bits_high by lia.
Qed.
Lemma u32_high x j : 0 <= x < 2 ^ 32 -> 32 <= j -> Z.testbit x j = false.
Proof. intros Hx Hj. rewrite <- (Z.mod_small x (2 ^ 32)) by done. by apply Z.mod_pow2_bits_high. Qed.
Lemma u32_range x : 0 <= u32 x < 2 ^ 32.
Proof. by apply Z.mod_pos_bound. Qed.
Lemma BIT_testbit i j : 0 <= i -> Z.testbit (BIT i) j = (j =? i).
Proof.
  intros Hi. unfold BIT. rewrite Z.shiftl_1_l, Z.pow2_bits_eqb by done. by rewrite Z.eqb_sym.
Qed.

(** The contract between the controller and its backend. *)
Class AlertLaws (St : Type) `{Backend St} (opened ready : St -> Prop) (lit : St -> Z -> bool) : Prop := {
  set_law st i e : ready st -> 0 <= i < 32 ->
    exists st', setSlot i e st = (true, st') /\ ready st' /\ forall j, 0 <= j -> lit st' j = (j =? i) || lit st j;
  clear_law st i e : ready st -> 0 <= i < 32 ->
    exists st', clearSlot i e st = (true, st') /\ ready st' /\
      forall j, 0 <= j -> lit st' j = negb (j =? i) && lit st j;
  clear_all_law st : opened st ->
    exists st', clearAll st = (true, st') /\ ready st' /\ forall j, lit st' j = false
}.

Definition adapter_ready (a : OpenAdapter) : Prop :=
  ad_open a = true /\ 0 <= dv_active_mask (ad_device a) < 2 ^ 32.
Definition adapter_lit (a : OpenAdapter) (j : Z) : bool := Z.testbit (dv_active_mask (ad_device a)) j.

Lemma apply_valid c d : validate_command c = 0 ->
  exists woken d', apply_command c d = (0, woken, d') /\ dv_active_mask d' = next_mask c (dv_active_mask d).
Proof.
  intros Hv. unfold apply_command. rewrite Hv. simpl. destruct (Z.eqb_spec (dv_active_mask d) (next_mask c (dv_active_mask d)));
    simpl; eauto.
Qed.

Lemma updateSlot_ok (set : bool) i e a :
  adapter_ready a -> 0 <= i < 32 ->
  exists a', (if set then set_slot else clear_slot) i e a = (true, a') /\ ad_open a' = true /\
    dv_active_mask (ad_device a') = next_mask (mkCommand PARKING_ALERT_API_VERSION
      (if set then PARKING_ALERT_OP_SET_SLOT else PARKING_ALERT_OP_CLEAR_SLOT) i e) (dv_active_mask (ad_device a)).
Proof.
  intros [Ho _] Hi. assert (Hlt : PARKING_ALERT_MAX_SLOTS <=? i = false) by (apply Z.leb_gt; unfold PARKING_ALERT_MAX_SLOTS; lia).
  destruct (apply_valid (mkCommand PARKING_ALERT_API_VERSION
    (if set then PARKING_ALERT_OP_SET_SLOT else PARKING_ALERT_OP_CLEAR_SLOT) i e) (ad_device a)) as (w & d & E & Hd).
  { unfold validate_command. cbn [ac_version ac_slot ac_operation]. rewrite Z.leb_antisym in Hlt.
    apply negb_false_iff in Hlt. by destruct set; simpl; rewrite Hlt. }
  destruct set; unfold set_slot, clear_slot, updateSlot; rewrite Ho, Hlt; simpl;
    unfold with_operation; simpl; rewrite E; simpl; eauto.
Qed.

#[global] Instance adapter_laws : AlertLaws OpenAdapter (fun a => ad_open a = true) adapter_ready adapter_lit.
Proof.
  split.
  - intros a i e Ha Hi. destruct (updateSlot_ok true i e a Ha Hi) as (a' & E & Ho & Hm). exists a'.
    split; [done|]. unfold adapter_ready, adapter_lit. rewrite Hm. unfold next_mask. simpl.
    split; [split; [done|apply u32_range]|]. intros j Hj. rewrite u32_testbit, Z.lor_spec, BIT_testbit by lia.
    destruct Ha as [_ Hr]. destruct (Z.ltb_spec j 32); [apply orb_comm|].
    rewrite (u32_high _ _ Hr) by lia. destruct (Z.eqb_spec j i); [lia|done].
  - intros a i e Ha Hi. destruct (updateSlot_ok false i e a Ha Hi) as (a' & E & Ho & Hm). exists a'.
    split; [done|]. unfold adapter_ready, adapter_lit. rewrite Hm. unfold next_mask. simpl.
    split; [split; [done|apply u32_range]|]. intros j Hj. rewrite u32_testbit, Z.land_spec, Z.lnot_spec, BIT_testbit by lia.
    destruct Ha as [_ Hr]. destruct (Z.ltb_spec j 32); [rewrite andb_true_l; apply andb_comm|].
    rewrite (u32_high _ _ Hr) by lia. by destruct (j =? i).
  - intros a Ho. destruct (apply_valid clear_all_command (ad_device a) eq_refl) as (w & d & E & Hd).
    exists (mkAdapter true d). simpl. unfold clear_all. rewrite Ho. simpl. rewrite E. split; [done|].
    unfold adapter_ready, adapter_lit. simpl. rewrite Hd. split; [done|]. intros j. apply Z.testbit_0_l.
Qed.

(** The controller against the contract. [alert_on]: the slots with an alert, as the events say. *)
Definition alert_event : Type := string * Z * string.
Definition alert_after (slot : string) (lit : bool) (ev : alert_event) : bool :=
  let '(eventType, _, s) := ev in
  if bool_decide (s = slot) then
    if activates eventType then true else if deactivates eventType then false else lit
  else lit.
Definition alert_on (slot : string) (restored : list (string * Z)) (events : list alert_event) : bool :=
  foldl (alert_after slot) (bool_decide (slot ∈ restored.*1)) events.

Section Control.
Context {St : Type} `{AlertLaws St opened ready lit} (m : gmap string Z) (Hm : slot_map_ok m).

Definition handle_all (events : list alert_event) (st : St) : St :=
  foldl (fun st '(eventType, session, slot) => (handleEvent m eventType session slot st).2) st events.

(** The backend shows the alerts [on] of the mapped slots, and no other. *)
Definition shows (st : St) (on : string -> bool) : Prop :=
  forall i, 0 <= i -> lit st i = true <-> exists slot, m !! slot = Some i /\ on slot = true.

Lemma shows_ext st on on' : shows st on -> (forall s, on s = on' s) -> shows st on'.
Proof.
  intros Hs Ho i Hi. rewrite (Hs i Hi). split; intros (s & E & Hl); exists s; by rewrite Ho in *.
Qed.

Lemma set_shows st i e slot on :
  ready st -> m !! slot = Some i -> shows st on ->
  exists st', setSlot i e st = (true, st') /\ ready st' /\
    shows st' (fun s => bool_decide (s = slot) || on s).
Proof.
  intros Hr Hs Hsh. destruct (set_law st i e Hr (sm_range m Hm _ _ Hs)) as (st' & E & Hr' & Hl).
  exists st'. split; [done|]. split; [done|]. intros j Hj. rewrite Hl, orb_true_iff, (Hsh j Hj) by done. split.
  - intros [->%Z.eqb_eq|(t & Ht & Ho)]; [exists slot|exists t; by rewrite Ho, orb_true_r].
    by rewrite bool_decide_eq_true_2.
  - intros (t & Ht & [->%bool_decide_eq_true_1|Ho]%orb_true_iff); [left; apply Z.eqb_eq; congruence|eauto].
Qed.

Lemma clear_shows st i e slot on :
  ready st -> m !! slot = Some i -> shows st on ->
  exists st', clearSlot i e st = (true, st') /\ ready st' /\
    shows st' (fun s => negb (bool_decide (s = slot)) && on s).
Proof.
  intros Hr Hs Hsh. destruct (clear_law st i e Hr (sm_range m Hm _ _ Hs)) as (st' & E & Hr' & Hl).
  exists st'. split; [done|]. split; [done|]. intros j Hj. rewrite Hl, andb_true_iff, (Hsh j Hj) by done. split.
  - intros [Hne (t & Ht & Ho)]. exists t. split; [done|]. apply negb_true_iff, Z.eqb_neq in Hne.
    rewrite bool_decide_eq_false_2 by congruence. done.
  - intros (t & Ht & [Hne Ho]%andb_prop). split; [|eauto]. apply negb_true_iff, bool_decide_eq_false_1 in Hne.
    apply negb_true_iff, Z.eqb_neq. intros ->. apply Hne. by apply (sm_inj m Hm _ _ i).
Qed.

Lemma restore_shows restored : forall st on,
  ready st -> shows st on ->
  exists st', alert_restore m restored st = (true, st') /\ ready st' /\
    shows st' (fun s => on s || bool_decide (s ∈ restored.*1)).
Proof.
  induction restored as [|[slot session] restored IH]; intros st on Hr Hs; simpl.
  - exists st. split; [done|]. split; [done|]. eapply shows_ext; [done|]. intros s. by rewrite orb_false_r.
  - destruct (m !! slot) as [i|] eqn:Ei.
    + destruct (set_shows st i (eventId session) slot on Hr Ei Hs) as (st1 & -> & Hr1 & Hs1).
      destruct (IH st1 _ Hr1 Hs1) as (st2 & -> & Hr2 & Hs2). exists st2. split; [done|]. split; [done|].
      eapply shows_ext; [exact Hs2|]. intros s.
      transitivity (on s || (bool_decide (s = slot) || bool_decide (s ∈ restored.*1))).
      { by destruct (on s), (bool_decide (s = slot)). }
      f_equal. rewrite <- bool_decide_or. apply bool_decide_ext. symmetry. apply elem_of_cons.
    + destruct (IH st _ Hr Hs) as (st2 & -> & Hr2 & Hs2). exists st2. split; [done|]. split; [done|].
      intros j Hj. rewrite (Hs2 j Hj). split; intros (t & Ht & Hl); exists t; (split; [done|]).
      * apply orb_true_iff in Hl as [->|Hl%bool_decide_eq_true_1]; [done|].
        rewrite bool_decide_eq_true_2 by set_solver. apply orb_true_r.
      * apply orb_true_iff in Hl as [->|Hl%bool_decide_eq_true_1]; [done|].
        rewrite bool_decide_eq_true_2; [apply orb_true_r|].
        apply elem_of_cons in Hl as [->|]; [congruence|done].
Qed.

Lemma initialize_shows restored st :
  opened st -> exists st', alert_initialize m restored st = (true, st') /\ ready st' /\
    shows st' (fun s => bool_decide (s ∈ restored.*1)).
Proof.
  intros Ho. unfold alert_initialize. destruct (clear_all_law st Ho) as (st1 & -> & Hr & Hl).
  destruct (restore_shows restored st1 (fun _ => false) Hr) as (st2 & E & Hr2 & Hs2); [|by exists st2].
  intros i Hi. rewrite Hl. split; [done|]. by intros (? & _ & ?).
Qed.

Lemma handle_shows eventType session slot st on :
  ready st -> shows st on ->
  let st' := (handleEvent m eventType session slot st).2 in
  ready st' /\ shows st' (fun s => alert_after s (on s) (eventType, session, slot)).
Proof.
  intros Hr Hs. unfold handleEvent, alert_after.
  destruct (activates eventType) eqn:Ea, (deactivates eventType) eqn:Ed; simpl;
    destruct (m !! slot) as [i|] eqn:Ei; simpl;
    try (split; [done|]; intros j Hj; rewrite (Hs j Hj); split; intros (t & Ht & Hl); exists t; (split; [done|]);
         revert Hl; case_bool_decide; congruence).
  - destruct (set_shows st i (eventId session) slot on Hr Ei Hs) as (st' & -> & Hr' & Hs'). split; [done|].
    eapply shows_ext; [exact Hs'|]. intros s. simpl. by repeat case_bool_decide; simplify_eq.
  - destruct (set_shows st i (eventId session) slot on Hr Ei Hs) as (st' & -> & Hr' & Hs'). split; [done|].
    eapply shows_ext; [exact Hs'|]. intros s. simpl. by repeat case_bool_decide; simplify_eq.
  - destruct (clear_shows st i (eventId session) slot on Hr Ei Hs) as (st' & -> & Hr' & Hs'). split; [done|].
    eapply shows_ext; [exact Hs'|]. intros s. simpl. by repeat case_bool_decide; simplify_eq.
Qed.

Lemma handle_all_shows events : forall st on,
  ready st -> shows st on ->
  ready (handle_all events st) /\ shows (handle_all events st) (fun s => foldl (alert_after s) (on s) events).
Proof.
  induction events as [|[[ty session] slot] events IH]; intros st on Hr Hs; [done|]. simpl.
  destruct (handle_shows ty session slot st on Hr Hs) as [Hr' Hs']. by apply IH.
Qed.
End Control.

(** The server: the adapter has opened the device, whatever its state was. *)
Definition alerts_from (m : gmap string Z) (restored : list (string * Z)) (events : list alert_event) (d : Device) :
    OpenAdapter :=
  handle_all m events (alert_initialize m restored (mkAdapter true d)).2.

(** C18 [refinement] From any state of the device, the mask of the driver is exactly the set of the alerts: after the
    restart with the stored violations and any sequence of parking events, bit [i] is set if and only if some slot
    that is mapped to [i] has an alert, that is, the last of its events that set or cleared one set it, or none did
    and it was restored. An event is refused only when it would set or clear the alert of a slot without a bit. *)
Theorem alert_mask_exact (value : string) (m : gmap string Z) (restored : list (string * Z))
    (events : list alert_event) (d : Device) (H : parseSlotMap value = Some m) :
  let a := alerts_from m restored events d in
  (alert_initialize m restored (mkAdapter true d)).1 = true /\
  (exists s, adapter_state a = Some s /\ 0 <= as_active_mask s < 2 ^ 32 /\
     forall i, 0 <= i -> Z.testbit (as_active_mask s) i = true <->
                         exists slot, m !! slot = Some i /\ alert_on slot restored events = true) /\
  (forall eventType session slot, (handleEvent m eventType session slot a).1 = false <->
     activates eventType || deactivates eventType = true /\ m !! slot = None).
Proof.
  intros a. destruct (parse_map_ok _ _ H) as [_ Hm].
  destruct (initialize_shows (opened := fun a => ad_open a = true) m Hm restored (mkAdapter true d) eq_refl) as (a0 & E & Hr & Hs).
  destruct (handle_all_shows m Hm events a0 _ Hr Hs) as [[Ho Hb] Hs'].
  assert (Ha : a = handle_all m events a0) by (unfold a, alerts_from; by rewrite E). rewrite <- Ha in *.
  rewrite E. split; [done|]. split.
  - exists (fill_state (ad_device a)). split; [by unfold adapter_state; rewrite Ho|]. split; [done|]. exact Hs'.
  - intros ty session slot. unfold handleEvent.
    destruct (activates ty) eqn:Ea, (deactivates ty) eqn:Ed; simpl; destruct (m !! slot) as [i|] eqn:Ei;
      try (split; [done|by intros [? ?]]); try done.
    + destruct (updateSlot_ok true i (eventId session) a (conj Ho Hb) (sm_range m Hm _ _ Ei)) as (? & -> & _).
      split; [done|by intros [? ?]].
    + destruct (updateSlot_ok true i (eventId session) a (conj Ho Hb) (sm_range m Hm _ _ Ei)) as (? & -> & _).
      split; [done|by intros [? ?]].
    + destruct (updateSlot_ok false i (eventId session) a (conj Ho Hb) (sm_range m Hm _ _ Ei)) as (? & -> & _).
      split; [done|by intros [? ?]].
Qed.

(** * The readers *)

Inductive DeviceOp := DoIoctl (r : Request) | DoWrite (count : Z) (buffer : option parking_alert_command).
Definition device_step (d : Device) (op : DeviceOp) : Device :=
  match op with
  | DoIoctl r => (ioctl r d).2
  | DoWrite count buffer => (device_write count buffer d).2
  end.
Definition device_run (d : Device) (ops : list DeviceOp) : Device := foldl device_step d ops.

(** [n] changes of the state. *)
Definition advanced (d d' : Device) (n : Z) : Prop :=
  dv_generation d' = (dv_generation d + n) mod 2 ^ 64 /\ (n = 0 -> d' = d).

Lemma apply_advanced c d : 0 <= dv_generation d < 2 ^ 64 ->
  exists n, 0 <= n <= 1 /\ advanced d (apply_command c d).2 n.
Proof.
  intros Hd. unfold apply_command, advanced.
  assert (H0 : dv_generation d = (dv_generation d + 0) mod 2 ^ 64) by (rewrite Z.add_0_r, Z.mod_small by done; done).
  destruct (negb (validate_command c =? 0)); [by exists 0|].
  destruct (negb _); [exists 1; simpl; split; [lia|]; split; [done|lia]|by exists 0].
Qed.
Lemma step_advanced op d : 0 <= dv_generation d < 2 ^ 64 ->
  exists n, 0 <= n <= 1 /\ advanced d (device_step d op) n.
Proof.
  intros Hd.
  assert (Hsame : exists n, 0 <= n <= 1 /\ advanced d d n).
  { exists 0. split; [lia|]. split; [by rewrite Z.add_0_r, Z.mod_small|done]. }
  destruct op as [[[c|]|[c|]| |[]|]|count [c|]]; simpl; try exact Hsame.
  - pose proof (apply_advanced (with_operation c PARKING_ALERT_OP_SET_SLOT) d Hd) as Ha.
    by destruct (apply_command _ d) as [[ret w] d'].
  - pose proof (apply_advanced (with_operation c PARKING_ALERT_OP_CLEAR_SLOT) d Hd) as Ha.
    by destruct (apply_command _ d) as [[ret w] d'].
  - pose proof (apply_advanced clear_all_command d Hd) as Ha. by destruct (apply_command _ d) as [[ret w] d'].
  - unfold device_write. destruct (negb (count =? 16)); [exact Hsame|].
    pose proof (apply_advanced c d Hd) as Ha. by destruct (apply_command _ d) as [[ret w] d'].
  - unfold device_write. by destruct (negb (count =? 16)).
Qed.
Lemma run_advanced ops : forall d, 0 <= dv_generation d < 2 ^ 64 ->
  exists n, 0 <= n <= Z.of_nat (length ops) /\ advanced d (device_run d ops) n.
Proof.
  induction ops as [|op ops IH]; intros d Hd.
  - exists 0. split; [simpl; lia|]. split; [simpl; by rewrite Z.add_0_r, Z.mod_small|done].
  - destruct (step_advanced op d Hd) as (n & Hn & Hg & Hz).
    assert (Hd' : 0 <= dv_generation (device_step d op) < 2 ^ 64) by (rewrite Hg; by apply Z.mod_pos_bound).
    destruct (IH _ Hd') as (k & Hk & Hg' & Hz'). exists (n + k). cbn [length]. split; [lia|]. split.
    + simpl. fold (device_run (device_step d op) ops). rewrite Hg', Hg, Zplus_mod_idemp_l. f_equal. lia.
    + intros ?. simpl. fold (device_run (device_step d op) ops). rewrite Hz', Hz by lia. done.
Qed.

(** A reader of the device is never told that there is nothing new while its picture is out of date: after a
    read, and fewer than 2^64 requests of anybody, either the device says that there is something to read, and then
    a read gives the current state at once, or the state is still the one that was read, and a read does not return
    it a second time. *)
Theorem alert_reader_current (f f' : FileContext) (d : Device) (s : parking_alert_state) (nonblock : bool)
    (ops : list DeviceOp)
    (Hgen : 0 <= dv_generation d < 2 ^ 64)
    (Hread : device_read nonblock true true f d = (ReadState s, f'))
    (Hfew : Z.of_nat (length ops) < 2 ^ 64) :
  let d' := device_run d ops in
  if device_poll f' d'
  then (device_read nonblock true true f' d').1 = ReadState (fill_state d')
  else s = fill_state d' /\
       (device_read nonblock true true f' d').1 = (if nonblock then ReadError (- EAGAIN) else ReadSleeps).
Proof.
  intros d'. destruct (run_advanced ops d Hgen) as (n & Hn & Hg & Hz). fold d' in Hg, Hz.
  unfold device_read in Hread. cbn [negb] in Hread. destruct (negb (fc_initial_read_pending f) && _); [by destruct nonblock|].
  injection Hread as [= <- <-]. unfold device_poll, device_read, changed.
  cbn [fc_initial_read_pending fc_observed_generation negb orb andb as_generation fill_state].
  destruct (Z.eqb_spec (dv_generation d') (dv_generation d)) as [E|]; [|done]. simpl. split; [|by destruct nonblock].
  rewrite E in Hg. enough (n = 0) as ?%Hz by congruence.
  destruct (Z.lt_ge_cases (dv_generation d + n) (2 ^ 64)); [rewrite Z.mod_small in Hg by lia; lia|].
  rewrite <- (Z_mod_plus_full _ (-1)), Z.mod_small in Hg by lia. lia.
Qed.

(** * Witnesses *)

Definition demo_alert_text : string := " A1:0, B2 : 31,A3:-18446744073709551613".
Notation demo_alert_map := (<["A3" := 3]> (<["B2" := 31]> (<["A1" := 0]> ∅))).
Lemma demo_alert_parse : parseSlotMap demo_alert_text = Some demo_alert_map.
Proof. vm_compute. reflexivity. Qed.

Lemma slot_map_typed_witness : (demo_alert_map : gmap string Z) <> ∅.
Proof. exact (proj1 (slot_map_typed demo_alert_text _ demo_alert_parse)). Defined.

Lemma alert_mask_exact_witness :
  let a := alerts_from demo_alert_map [("A1", 7); ("Z9", 8)]
             [("NON_EV_ALERT", 9, "B2"); ("DEPARTURE", 7, "A1"); ("PARKED", 1, "A3")] (mkDevice 9 1 3 5 5) in
  Z.testbit (dv_active_mask (ad_device a)) 31 = true /\ Z.testbit (dv_active_mask (ad_device a)) 0 = false /\
  (alert_initialize demo_alert_map [("A1", 7); ("Z9", 8)] (mkAdapter true (mkDevice 9 1 3 5 5))).1 = true.
Proof.
  split; [vm_compute; reflexivity|]. split; [vm_compute; reflexivity|].
  exact (proj1 (alert_mask_exact demo_alert_text _ [("A1", 7); ("Z9", 8)] [] (mkDevice 9 1 3 5 5) demo_alert_parse)).
Defined.

Lemma alert_reader_current_witness :
  device_poll (mkFileContext 0 false) (device_run new_device
    [DoIoctl IOC_CLEAR_ALL; DoWrite 16 (Some (mkCommand 1 1 5 42))]) = true /\
  (device_read true true true (mkFileContext 0 false) (device_run new_device
    [DoIoctl IOC_CLEAR_ALL; DoWrite 16 (Some (mkCommand 1 1 5 42))])).1 = ReadState (mkState 1 32 1 5 1 42).
Proof.
  split; [vm_compute; reflexivity|].
  refine (alert_reader_current open_file _ new_device _ true
            [DoIoctl IOC_CLEAR_ALL; DoWrite 16 (Some (mkCommand 1 1 5 42))] _ eq_refl _).
  - vm_compute. by split.
  - vm_compute. reflexivity.
Defined.
