(* ===== verification/MqttEndpoint.v ===== *)
(** The life cycle of the MQTT endpoint, [src/mqtt/MqttEndpoint.cpp], with the lease gates of
    [include/app/CallbackLeaseGate.hpp]. The callbacks of the transport, the tracked publications and the one
    operation that holds the life-cycle mutex are threads; a step goes from one lock to the
    next. A wait with a time limit ends when the gate is drained or by the answer [Timeout]. *)
From S2P Require Import Prelude.

(** * The gate *)

(** [include/app/CallbackLeaseGate.hpp:14-19 State] *)
Record Gate := mkGate { gt_open : bool; gt_active : nat }.
Definition new_gate : Gate := mkGate true 0.

(** [include/app/CallbackLeaseGate.hpp:66-71 tryAcquire] *)
Definition tryAcquire (g : Gate) : option Gate :=
  if gt_open g then Some (mkGate (gt_open g) (S (gt_active g))) else None.

(** [include/app/CallbackLeaseGate.hpp:51-58 release] *)
Definition gate_release (g : Gate) : Gate := mkGate (gt_open g) (Nat.pred (gt_active g)).

(** [include/app/CallbackLeaseGate.hpp:73-77 close] *)
Definition gate_close (g : Gate) : Gate := mkGate false (gt_active g).

(** [include/app/CallbackLeaseGate.hpp:84-89 waitForDrainedFor] The answer when the wait may end. *)
Definition gate_drained (g : Gate) : bool := (gt_active g =? 0)%nat.

(** * The endpoint *)

(** [include/mqtt/MqttEndpoint.hpp:15-15 MqttEndpointState] *)
Inductive MqttEndpointState := Constructed | Running | Quiescing | Stopped.
#[global] Instance MqttEndpointState_eq_dec : EqDecision MqttEndpointState.
Proof. solve_decision. Defined.

(** A callback with its lease: before it reads the handler, or in the handler. *)
Inductive CallbackAt := Leased | InHandler.
(** A tracked publication with its lease: before the test of the state, or in the transport. *)
Inductive PublicationAt := PubLeased | InTransport.

(** Where the holder of the life-cycle mutex is; [stop]: whether it is stopping the endpoint. *)
Inductive LifeAt :=
| LifeIdle
| LifeStarting
| LifeClosing (stop wait : bool)
| LifeIngress (stop : bool)
| LifeTracked
| LifeTransport
| LifeObserverTracked (stop : bool)
| LifeObservers (stop : bool)
| LifeFinish.

(** [include/mqtt/MqttEndpoint.hpp:71-81 MqttEndpoint] *)
Record Endpoint := mkEndpoint {
  en_app : Gate;
  en_tracked : Gate;
  en_observer : Gate;
  en_state : MqttEndpointState;
  en_handler : bool;
  en_observers : bool;
  en_transport_stopped : bool;
  en_quiesced : bool;
  en_apps : list CallbackAt;
  en_obs : list CallbackAt;
  en_pubs : list PublicationAt;
  en_life : LifeAt
}.

(** A new endpoint whose handlers are bound before the start (the constructor of the bridge does so). *)
Definition new_endpoint : Endpoint :=
  mkEndpoint new_gate new_gate new_gate Constructed true true false false [] [] [] LifeIdle.

Definition set_app (e : Endpoint) (g : Gate) (l : list CallbackAt) : Endpoint :=
  mkEndpoint g (en_tracked e) (en_observer e) (en_state e) (en_handler e) (en_observers e)
    (en_transport_stopped e) (en_quiesced e) l (en_obs e) (en_pubs e) (en_life e).
Definition set_obs (e : Endpoint) (g : Gate) (l : list CallbackAt) : Endpoint :=
  mkEndpoint (en_app e) (en_tracked e) g (en_state e) (en_handler e) (en_observers e)
    (en_transport_stopped e) (en_quiesced e) (en_apps e) l (en_pubs e) (en_life e).
Definition set_pubs (e : Endpoint) (g : Gate) (l : list PublicationAt) : Endpoint :=
  mkEndpoint (en_app e) g (en_observer e) (en_state e) (en_handler e) (en_observers e)
    (en_transport_stopped e) (en_quiesced e) (en_apps e) (en_obs e) l (en_life e).
Definition set_life (e : Endpoint) (state : MqttEndpointState) (quiesced : bool) (life : LifeAt) : Endpoint :=
  mkEndpoint (en_app e) (en_tracked e) (en_observer e) state (en_handler e) (en_observers e)
    (en_transport_stopped e) quiesced (en_apps e) (en_obs e) (en_pubs e) life.

(** ** Callbacks and publications *)

(** What a thread with a lease does next: it reads the handler and goes into it, or, without a handler or
    after it, gives the lease back. *)
Definition callback_next (bound : bool) (c : CallbackAt) : option CallbackAt :=
  match c with Leased => if bound then Some InHandler else None | InHandler => None end.

Definition advance {A} (next : A -> option A) (i : nat) (g : Gate) (l : list A) : Gate * list A :=
  match l !! i with
  | None => (g, l)
  | Some c => match next c with
              | Some c' => (g, <[i := c']> l)
              | None => (gate_release g, delete i l)
              end
  end.

(** [src/mqtt/MqttEndpoint.cpp:205-215 MqttEndpoint::dispatchApplication] It begins with the lease ... *)
Definition dispatch_begin (e : Endpoint) : Endpoint :=
  match tryAcquire (en_app e) with Some g => set_app e g (en_apps e ++ [Leased]) | None => e end.
(** ... and goes on step by step. *)
Definition dispatch_next (i : nat) (e : Endpoint) : Endpoint :=
  let '(g, l) := advance (callback_next (en_handler e)) i (en_app e) (en_apps e) in set_app e g l.

(** [src/mqtt/MqttEndpoint.cpp:217-259 MqttEndpoint::dispatchTransportFact] and the three others for the older
    observers. *)
Definition observe_begin (e : Endpoint) : Endpoint :=
  match tryAcquire (en_observer e) with Some g => set_obs e g (en_obs e ++ [Leased]) | None => e end.
Definition observe_next (i : nat) (e : Endpoint) : Endpoint :=
  let '(g, l) := advance (callback_next (en_observers e)) i (en_observer e) (en_obs e) in set_obs e g l.

(** [src/mqtt/MqttEndpoint.cpp:134-146 MqttEndpoint::publish] The test before the transport is called. *)
Definition may_publish (e : Endpoint) : bool :=
  match en_state e with Running | Quiescing => true | _ => false end.

(** [src/mqtt/MqttEndpoint.cpp:166-184 MqttEndpoint::publishTracked] *)
Definition publish_begin (e : Endpoint) : Endpoint :=
  match tryAcquire (en_tracked e) with Some g => set_pubs e g (en_pubs e ++ [PubLeased]) | None => e end.
Definition publication_next (e : Endpoint) (p : PublicationAt) : option PublicationAt :=
  match p with
  | PubLeased => if may_publish e && negb (en_quiesced e) then Some InTransport else None
  | InTransport => None
  end.
Definition publish_next (i : nat) (e : Endpoint) : Endpoint :=
  let '(g, l) := advance (publication_next e) i (en_tracked e) (en_pubs e) in set_pubs e g l.

(** ** The life cycle *)

Inductive LifeOp := DoStart | DoCloseIngress | DoQuiesceIngress | DoQuiesceObservers | DoStop.

(** What the holder of the mutex is told: nothing, that the time of a wait is over, whether the transport has
    started, whether it was joined. *)
Inductive LifeAnswer := Proceed | Timeout | Started (ok : bool) | Joined (ok : bool).

Definition close_app (e : Endpoint) (life : LifeAt) : Endpoint :=
  set_life (set_app e (gate_close (en_app e)) (en_apps e)) (en_state e) (en_quiesced e) life.
Definition close_tracked (e : Endpoint) (life : LifeAt) : Endpoint :=
  set_life (set_pubs e (gate_close (en_tracked e)) (en_pubs e)) (en_state e) (en_quiesced e) life.
Definition idle (e : Endpoint) : Endpoint := set_life e (en_state e) (en_quiesced e) LifeIdle.

(** [src/mqtt/MqttEndpoint.cpp:111-132 MqttEndpoint::stopLocked] up to the closing of the gate. *)
Definition stop_begin (e : Endpoint) : Endpoint :=
  match en_state e with Stopped => idle e | _ => close_app e (LifeClosing true true) end.

(** [src/mqtt/MqttEndpoint.cpp:28-62 MqttEndpoint::start] and the other operations, up to their first unlock. *)
Definition life_begin (op : LifeOp) (e : Endpoint) : Endpoint :=
  match en_life e with
  | LifeIdle =>
      match op with
      | DoStart =>
          match en_state e with
          | Constructed => if en_handler e then set_life e Running (en_quiesced e) LifeStarting else e
          | _ => e
          end
      | DoCloseIngress => close_app e (LifeClosing false false)
      | DoQuiesceIngress => close_app e (LifeClosing false true)
      | DoQuiesceObservers => close_tracked e (LifeObserverTracked false)
      | DoStop => stop_begin e
      end
  | _ => e
  end.

(** [src/mqtt/MqttEndpoint.cpp:81-132 MqttEndpoint::stopLocked] A step of the operation that holds the
    mutex. *)
Definition life_next (a : LifeAnswer) (e : Endpoint) : Endpoint :=
  match en_life e, a with
  | LifeStarting, Started true => idle e
  | LifeStarting, Started false => stop_begin e
  | LifeClosing stop wait, Proceed =>
      set_life e (match en_state e with Stopped => Stopped | _ => Quiescing end) (en_quiesced e)
        (if wait then LifeIngress stop else LifeIdle)
  | LifeIngress stop, Proceed =>
      if negb (gate_drained (en_app e)) then e else
      if stop then close_tracked e LifeTracked else idle e
  | LifeTracked, Proceed =>
      if negb (gate_drained (en_tracked e)) then e else
      if en_transport_stopped e then close_tracked e (LifeObserverTracked true)
      else set_life e (en_state e) (en_quiesced e) LifeTransport
  | LifeTransport, Joined true =>
      close_tracked (mkEndpoint (en_app e) (en_tracked e) (en_observer e) (en_state e) (en_handler e)
                       (en_observers e) true (en_quiesced e) (en_apps e) (en_obs e) (en_pubs e) (en_life e))
        (LifeObserverTracked true)
  | LifeTransport, Joined false => idle e
  | LifeObserverTracked stop, Proceed =>
      if negb (gate_drained (en_tracked e)) then e else
      set_life (set_obs e (gate_close (en_observer e)) (en_obs e)) (en_state e) true (LifeObservers stop)
  | LifeObservers stop, Proceed =>
      if negb (gate_drained (en_observer e)) then e else
      if stop then set_life e (en_state e) (en_quiesced e) LifeFinish else idle e
  | LifeFinish, Proceed =>
      mkEndpoint (en_app e) (en_tracked e) (en_observer e) Stopped false false (en_transport_stopped e)
        (en_quiesced e) (en_apps e) (en_obs e) (en_pubs e) LifeIdle
  | (LifeIngress _ | LifeTracked | LifeObserverTracked _ | LifeObservers _), Timeout => idle e
  | _, _ => e
  end.

Inductive EndpointOp :=
| OpDispatch | OpDispatchNext (i : nat)
| OpObserve | OpObserveNext (i : nat)
| OpPublishTracked | OpPublishNext (i : nat)
| OpLife (op : LifeOp) | OpLifeNext (a : LifeAnswer).

Definition endpoint_step (e : Endpoint) (op : EndpointOp) : Endpoint :=
  match op with
  | OpDispatch => dispatch_begin e
  | OpDispatchNext i => dispatch_next i e
  | OpObserve => observe_begin e
  | OpObserveNext i => observe_next i e
  | OpPublishTracked => publish_begin e
  | OpPublishNext i => publish_next i e
  | OpLife op => life_begin op e
  | OpLifeNext a => life_next a e
  end.
Definition endpoint_run (e : Endpoint) (ops : list EndpointOp) : Endpoint := foldl endpoint_step e ops.

(** * Quiet after the stop *)

(** A gate that nobody can pass and nobody holds. *)
Definition shut {A} (g : Gate) (l : list A) : Prop := gt_open g = false /\ l = [].

Record endpoint_ok (e : Endpoint) : Prop := {
  eo_app : gt_active (en_app e) = length (en_apps e);
  eo_tracked : gt_active (en_tracked e) = length (en_pubs e);
  eo_observer : gt_active (en_observer e) = length (en_obs e);
  eo_quiesced : en_quiesced e = true -> shut (en_tracked e) (en_pubs e);
  eo_observers_last : gt_open (en_observer e) = false -> en_quiesced e = true;
  eo_ingress : forall stop, en_life e = LifeIngress stop \/ en_life e = LifeClosing stop true ->
    gt_open (en_app e) = false;
  eo_stopping : match en_life e with
                | LifeTracked | LifeTransport | LifeObserverTracked true | LifeObservers true | LifeFinish =>
                    shut (en_app e) (en_apps e)
                | _ => True
                end;
  eo_publications : match en_life e with
                    | LifeTracked | LifeObserverTracked _ => gt_open (en_tracked e) = false
                    | LifeTransport => shut (en_tracked e) (en_pubs e)
                    | LifeObservers _ | LifeFinish => en_quiesced e = true /\ gt_open (en_observer e) = false
                    | _ => True
                    end;
  eo_finish : en_life e = LifeFinish -> en_obs e = [];
  eo_stopped : en_state e = Stopped ->
    shut (en_app e) (en_apps e) /\ shut (en_tracked e) (en_pubs e) /\ shut (en_observer e) (en_obs e)
}.

Lemma drained_empty {A} g (l : list A) : gate_drained g = true -> gt_active g = length l -> l = [].
Proof. intros H%Nat.eqb_eq Hl. destruct l; [done|]. simpl in Hl. lia. Qed.

(** A thread of a gate moves or enters: the count stays right, and nobody enters a closed gate. *)
Definition moved {A} (g : Gate) (l : list A) (g' : Gate) (l' : list A) : Prop :=
  gt_active g' = length l' /\ gt_open g' = gt_open g /\ (gt_open g = false -> l = [] -> l' = []).

Lemma moved_same {A} g (l : list A) : gt_active g = length l -> moved g l g l.
Proof. by split. Qed.
Lemma moved_shut {A} g (l : list A) g' l' : moved g l g' l' -> shut g l -> shut g' l'.
Proof. intros (_ & Ho & Hl) [H1 H2]. split; [congruence|auto]. Qed.

Lemma advance_moved {A} (next : A -> option A) i g l g' l' :
  advance next i g l = (g', l') -> gt_active g = length l -> moved g l g' l'.
Proof.
  unfold advance. destruct (l !! i) as [c|] eqn:Hi; [|intros [= <- <-]; apply moved_same].
  pose proof (lookup_lt_Some _ _ _ Hi). destruct (next c) as [c'|]; intros [= <- <-] Hl; split.
  - by rewrite length_insert.
  - split; [done|]. by intros _ ->.
  - simpl. rewrite length_delete by eauto. lia.
  - split; [done|]. by intros _ ->.
Qed.
Lemma acquire_moved {A} g g' (l : list A) c :
  tryAcquire g = Some g' -> gt_active g = length l -> moved g l g' (l ++ [c]).
Proof.
  unfold tryAcquire. destruct (gt_open g) eqn:Ho; [|done]. intros [= <-] Hl. split; simpl.
  - rewrite length_app. simpl. lia.
  - by rewrite Ho.
Qed.

(** The threads of the three gates move; the life cycle stays where it is. *)
Lemma threads_ok e ga la gt lt go lo :
  endpoint_ok e -> moved (en_app e) (en_apps e) ga la -> moved (en_tracked e) (en_pubs e) gt lt ->
  moved (en_observer e) (en_obs e) go lo ->
  endpoint_ok (mkEndpoint ga gt go (en_state e) (en_handler e) (en_observers e) (en_transport_stopped e)
                 (en_quiesced e) la lo lt (en_life e)).
Proof.
  intros [] Ha Ht Ho.
  pose proof (moved_shut _ _ _ _ Ha). pose proof (moved_shut _ _ _ _ Ht). pose proof (moved_shut _ _ _ _ Ho).
  destruct Ha as (Ha & Hao & _), Ht as (Ht & Hto & _), Ho as (Ho & Hoo & Hoe).
  split; simpl; rewrite ?Hao, ?Hto, ?Hoo; auto.
  - destruct (en_life e) as [| | | | | |[]|[]|]; auto.
  - destruct (en_life e); auto.
  - intros Hf. apply Hoe; [|auto]. rewrite Hf in eo_publications0. by destruct eo_publications0.
  - intros Hs. destruct (eo_stopped0 Hs) as (? & ? & ?). auto.
Qed.

Lemma endpoint_threads e op :
  endpoint_ok e -> match op with OpLife _ | OpLifeNext _ => False | _ => True end ->
  endpoint_ok (endpoint_step e op).
Proof.
  intros He. pose proof He as [].
  destruct op as [|i| |i| |i|op|a]; simpl; try done; intros _;
    unfold dispatch_begin, dispatch_next, observe_begin, observe_next, publish_begin, publish_next.
  - destruct (tryAcquire _) as [g|] eqn:Hg; [|done]. apply threads_ok; eauto using moved_same, acquire_moved.
  - destruct (advance _ _ _ _) as [g l] eqn:Hg. apply threads_ok; eauto using moved_same, advance_moved.
  - destruct (tryAcquire _) as [g|] eqn:Hg; [|done]. apply threads_ok; eauto using moved_same, acquire_moved.
  - destruct (advance _ _ _ _) as [g l] eqn:Hg. apply threads_ok; eauto using moved_same, advance_moved.
  - destruct (tryAcquire _) as [g|] eqn:Hg; [|done]. apply threads_ok; eauto using moved_same, acquire_moved.
  - destruct (advance _ _ _ _) as [g l] eqn:Hg. apply threads_ok; eauto using moved_same, advance_moved.
Qed.

(** The operation that holds the mutex: each part of the invariant by computation or from the part before. *)
Ltac endpoint_parts :=
  split; simpl in *; auto;
  try (by intros ? [?|?]); try (by intros ? [[= ->]|[= ->]]; eauto);
  try (by intros ?; exfalso; congruence);
  try match goal with
  | H : _ -> shut ?g _ /\ _ |- ?X = Stopped -> _ =>
      let S := fresh in let A := fresh in let B := fresh in let C := fresh in
      intros S; destruct (H S) as ([A ?] & [B ?] & [C ?]); repeat split; simpl; auto
  end;
  try (by intros Q; match goal with H : _ = true -> shut _ _ |- _ => destruct (H Q); by split end);
  try (by split).

Lemma life_begin_ok op e : endpoint_ok e -> endpoint_ok (life_begin op e).
Proof.
  intros He. pose proof He as []. unfold life_begin, stop_begin.
  destruct (en_life e) eqn:Hl; try exact He.
  destruct op; [destruct (en_state e) eqn:Hs; try exact He; destruct (en_handler e); try exact He| | | |
                destruct (en_state e) eqn:Hs]; endpoint_parts.
Qed.

Lemma life_next_ok a e : endpoint_ok e -> endpoint_ok (life_next a e).
Proof.
  intros He. pose proof He as []. unfold life_next, stop_begin, idle.
  pose proof (fun D => drained_empty _ _ D eo_app0) as Da.
  pose proof (fun D => drained_empty _ _ D eo_tracked0) as Dt.
  pose proof (fun D => drained_empty _ _ D eo_observer0) as Do.
  destruct (en_life e) as [| |stop []|[]| | |[]|[]|] eqn:Hl, a as [| |[]|[]]; try exact He;
    repeat match goal with
    | |- context [if negb (gate_drained (en_app e)) then _ else _] =>
        destruct (gate_drained (en_app e)); cbn [negb]; [specialize (Da eq_refl)|exact He]
    | |- context [if negb (gate_drained (en_tracked e)) then _ else _] =>
        destruct (gate_drained (en_tracked e)); cbn [negb]; [specialize (Dt eq_refl)|exact He]
    | |- context [if negb (gate_drained (en_observer e)) then _ else _] =>
        destruct (gate_drained (en_observer e)); cbn [negb]; [specialize (Do eq_refl)|exact He]
    | |- context [match en_state e with Constructed => _ | _ => _ end] => destruct (en_state e) eqn:?
    | |- context [if en_transport_stopped e then _ else _] => destruct (en_transport_stopped e) eqn:?
    end; endpoint_parts.
  - split; [apply (eo_ingress0 true); by left|exact Da].
  - destruct eo_publications0 as [Q ?]. intros _. split; [done|]. split; [by apply eo_quiesced0|]. split; auto.
Qed.

Lemma endpoint_step_ok e op : endpoint_ok e -> endpoint_ok (endpoint_step e op).
Proof.
  intros He. destruct op; [apply endpoint_threads; done..| |].
  - by apply life_begin_ok.
  - by apply life_next_ok.
Qed.
Lemma endpoint_run_ok ops : forall e, endpoint_ok e -> endpoint_ok (endpoint_run e ops).
Proof. induction ops as [|op ops IH]; intros e He; [done|]. by apply IH, endpoint_step_ok. Qed.
Lemma new_endpoint_ok : endpoint_ok new_endpoint.
Proof. split; try done. by intros ? [?|?]. Qed.

(** Stopped is for ever. *)
Lemma stopped_step e op : en_state e = Stopped -> en_state (endpoint_step e op) = Stopped.
Proof.
  intros Hs. destruct op as [|i| |i| |i|op|a]; simpl;
    unfold dispatch_begin, dispatch_next, observe_begin, observe_next, publish_begin, publish_next;
    try (by destruct (tryAcquire _)); try (by destruct (advance _ _ _ _)).
  - unfold life_begin, stop_begin. destruct (en_life e); try done. destruct op; rewrite ?Hs; done.
  - unfold life_next, stop_begin, idle. rewrite Hs. by repeat case_match.
Qed.
Lemma stopped_run ops : forall e, en_state e = Stopped -> en_state (endpoint_run e ops) = Stopped.
Proof. induction ops as [|op ops IH]; intros e He; [done|]. by apply IH, stopped_step. Qed.

(** C17 [safety] The quiet of a stopping endpoint, whatever the order in which its callbacks, its publications and
    the operation with the mutex run, and whatever waits run out of time: once the gate of the observers is closed
    no tracked publication is under way, so that none reports to an observer that is gone; while the transport is
    joined neither the application's handler nor a tracked publication runs; and once the endpoint says that it is
    stopped, no callback, no observer and no tracked publication runs any more, whatever is tried. *)
Theorem endpoint_quiet (before after : list EndpointOp) :
  let e := endpoint_run new_endpoint before in
  (gt_open (en_observer e) = false -> en_pubs e = []) /\
  (en_life e = LifeTransport -> en_apps e = [] /\ en_pubs e = []) /\
  (en_state e = Stopped ->
     let later := endpoint_run e after in
     en_state later = Stopped /\ en_apps later = [] /\ en_obs later = [] /\ en_pubs later = []).
Proof.
  intros e. pose proof (endpoint_run_ok before _ new_endpoint_ok) as He. fold e in He.
  split; [|split].
  - intros Ho. by apply (eo_quiesced e He), (eo_observers_last e He).
  - intros Hl. pose proof (eo_stopping e He) as Ha. pose proof (eo_publications e He) as Hp.
    rewrite Hl in Ha, Hp. split; [apply Ha|apply Hp].
  - intros Hs later. pose proof (stopped_run after e Hs) as Hl.
    destruct (eo_stopped _ (endpoint_run_ok after e He) Hl) as ([_ ?] & [_ ?] & [_ ?]). by repeat split.
Qed.

(** A stop with a callback and a tracked publication under way, with one wait that runs out of time. *)
Definition demo_stop : list EndpointOp :=
  [OpLife DoStart; OpLifeNext (Started true); OpDispatch; OpPublishTracked; OpPublishNext 0; OpObserve;
   OpLife DoStop; OpLifeNext Proceed; OpLifeNext Proceed; OpLifeNext Timeout; OpDispatchNext 0; OpDispatchNext 0;
   OpLife DoStop; OpLifeNext Proceed; OpLifeNext Proceed; OpLifeNext Proceed; OpPublishNext 0; OpLifeNext Proceed;
   OpLifeNext (Joined true); OpLifeNext Proceed; OpObserveNext 0; OpObserveNext 0; OpLifeNext Proceed;
   OpLifeNext Proceed].
Lemma endpoint_quiet_witness :
  en_state (endpoint_run new_endpoint demo_stop) = Stopped /\
  en_life (endpoint_run new_endpoint (take 18 demo_stop)) = LifeTransport /\
  en_pubs (endpoint_run new_endpoint (take 18 demo_stop)) = [] /\
  en_apps (endpoint_run (endpoint_run new_endpoint demo_stop) [OpDispatch; OpLife DoStart; OpObserve]) = [].
Proof.
  assert (Hs : en_state (endpoint_run new_endpoint demo_stop) = Stopped) by (vm_compute; reflexivity).
  assert (Hl : en_life (endpoint_run new_endpoint (take 18 demo_stop)) = LifeTransport)
    by (vm_compute; reflexivity).
  split; [exact Hs|]. split; [exact Hl|].
  split.
  - exact (proj2 (proj1 (proj2 (endpoint_quiet (take 18 demo_stop) [])) Hl)).
  - exact (proj1 (proj2 (proj2 (proj2 (endpoint_quiet demo_stop [OpDispatch; OpLife DoStart; OpObserve])) Hs))).
Defined.
