(* ===== verification/Http.v ===== *)
(** The interface to the app, [src/http/ParkingHttpServer.cpp]: the routes with the guard in front of their handlers, the
    handlers with the answers they give, and the life of the server. The handlers are stated over the services they
    call (class [HttpServices]); the file system, the regular expressions of the HTTP library and the printing of numbers
    are arguments or written out here. *)
From S2P Require Import Prelude SlotConfig OccupancyDb Doubles ParkingDb Auth Evidence Overstay Threshold RoiSettings MqttEndpoint.
From S2P Require Import SensorProtocol.

#[local] Open Scope Z_scope.

(** * Data *)

(** [include/database/EventDatabase.hpp:45-55 ParkingSlotView] *)
Record ParkingSlotView := mkParkingSlotView {
  sv_slot_id : string;
  sv_slot_type : string;
  sv_parking_status : string;
  sv_sensor_type : string;
  sv_updated_at : string;
  sv_session_id : Z;
  sv_plate_number : string;
  sv_entry_time : string;
  sv_is_ev : Z
}.

(** [include/database/EventDatabase.hpp:58-69 ImageView] *)
Record ImageView := mkImageView {
  iv_image_id : Z;
  iv_session_id : Z;
  iv_original_path : string;
  iv_enhanced_path : string;
  iv_enhancement_type : string;
  iv_evidence_reason : string;
  iv_ocr_result : string;
  iv_captured_at : string;
  iv_applied_roi : option NormalizedRoi;
  iv_roi_revision : Z
}.

(** What the library hands to a handler; the path is decoded. *)
Inductive Method := Get | Head | Post | Put | OtherMethod.
#[global] Instance Method_eq_dec : EqDecision Method.
Proof. solve_decision. Defined.
(** The handlers that a method is looked up in: a HEAD request runs the handler of the GET. *)
Definition routed_method (m : Method) : Method := match m with Head => Get | m => m end.
Record Request := mkRequest {
  rq_method : Method;
  rq_path : string;
  rq_headers : list (string * string);
  rq_body : string;
  rq_remote_addr : string
}.
(** The names of headers are compared without case. *)
Definition header_values (name : string) (r : Request) : list string :=
  snd <$> List.filter (fun h => bool_decide (upper (fst h) = upper name)) (rq_headers r).
Definition get_header_value (name : string) (r : Request) : string := default "" (head (header_values name r)).

Inductive Content := NoContent | CJson (body : json) | CFile (mime body : string).
Record Response := mkResponse { rs_status : Z; rs_content : Content; rs_headers : list (string * string) }.

(** [src/http/ParkingHttpServer.cpp:23-26 sendJson] *)
Definition sendJson (body : json) (status : Z) : Response := mkResponse status (CJson body) [].

(** [src/http/ParkingHttpServer.cpp:27-30 sendError] *)
Definition sendError (status : Z) (code message : string) : Response :=
  sendJson (JObject [("error", JString code); ("message", JString message)]) status.

(** [src/http/ParkingHttpServer.cpp:31-33 optionalText] *)
Definition optionalText (value : string) : json := if is_empty value then JNull else JString value.

(** [src/http/ParkingHttpServer.cpp:34-37 evStatus] *)
Definition evStatus (is_ev : Z) : json :=
  if is_ev <? 0 then JNull else if is_ev =? 1 then JString "EV" else JString "NON_EV".

(** [src/http/ParkingHttpServer.cpp:39-52 slotJson] *)
Definition slotJson (slot : ParkingSlotView) : json :=
  JObject [("slot_id", JString (sv_slot_id slot)); ("slot_type", JString (sv_slot_type slot));
           ("parking_status", JString (sv_parking_status slot)); ("sensor_type", optionalText (sv_sensor_type slot));
           ("updated_at", optionalText (sv_updated_at slot));
           ("active_session",
            if 0 <=? sv_session_id slot
            then JObject [("session_id", JInteger (sv_session_id slot));
                          ("plate_number", optionalText (sv_plate_number slot));
                          ("ev_status", evStatus (sv_is_ev slot));
                          ("entry_time", optionalText (sv_entry_time slot))]
            else JNull)].

(** [src/http/ParkingHttpServer.cpp:70-77 isInside] Paths as the lists of their components. *)
Fixpoint path_isInside (child parent : list string) : bool :=
  match parent, child with
  | [], _ => true
  | p :: parent, c :: child => bool_decide (c = p) && path_isInside child parent
  | _ :: _, [] => false
  end.

(** [extension] of a file's name: from its last dot on, unless that is its first character. *)
Fixpoint last_dot (s : string) : string :=
  match s with
  | EmptyString => EmptyString
  | String c rest => let found := last_dot rest in
                     if negb (is_empty found) then found else if bool_decide (c = "."%char) then s else EmptyString
  end.
Definition extension (name : string) : string := match name with EmptyString => EmptyString | String _ rest => last_dot rest end.

(** [src/http/ParkingHttpServer.cpp:78-83 mimeType] *)
Definition mimeType (path : list string) : string :=
  let extension := extension (default "" (last path)) in
  if bool_decide (extension = ".png") || bool_decide (extension = ".PNG") then "image/png"
  else if bool_decide (extension = ".webp") || bool_decide (extension = ".WEBP") then "image/webp"
  else "image/jpeg".

(** [src/http/ParkingHttpServer.cpp:84-92 parsePositiveId] *)
Definition parsePositiveId (value : string) : option Z :=
  match stoi_rest value with
  | Some (parsed, rest) => if (parsed <? 0) || negb (is_empty rest) then None else Some parsed
  | None => None
  end.

(** [src/http/ParkingHttpServer.cpp:93-99 normalizedSlotId] *)
Definition normalizedSlotId (value : string) : string := upper value.

(** [src/http/ParkingHttpServer.cpp:104-107 isLoopbackAddress] *)
Definition isLoopbackAddress (address : string) : bool :=
  bool_decide (address = "127.0.0.1") || bool_decide (address = "::1") || bool_decide (address = "localhost").

(** [src/http/ParkingHttpServer.cpp:108-110 preventAuthenticationCaching] *)
Definition preventAuthenticationCaching (r : Response) : Response :=
  mkResponse (rs_status r) (rs_content r) (("Cache-Control", "no-store") :: rs_headers r).

(** [src/http/ParkingHttpServer.cpp:111-116 sendAuthenticationRequired] *)
Definition authentication_required : Response :=
  preventAuthenticationCaching
    (sendJson (JObject [("success", JBool false); ("error", JString "authentication required")]) 401).

(** [include/http/ParkingHttpServer.hpp:22-30 ServerConfig] *)
Record ServerConfig := mkServerConfig {
  sc_listen_address : string;
  sc_port : Z;
  sc_tls_certificate_path : string;
  sc_tls_private_key_path : string;
  sc_data_root : string;
  sc_max_image_bytes : Z;
  sc_require_tls : bool
}.

(** * The services behind the routes *)

(** What the handlers call, over the state [S] of the server. *)
Class HttpServices (S : Type) := {
  hs_authenticateBearer : string -> S -> bool;
  hs_login : string -> string -> string -> S -> LoginResult * S;
  hs_logoutBearer : string -> S -> bool * S;
  hs_threshold_status : S -> OverstayThresholdStatus;
  hs_threshold_update : Z -> S -> ThresholdUpdateResult * S;
  hs_roi_list : S -> list AppliedRoi;
  hs_roi_resolve : string -> S -> option AppliedRoi;
  hs_roi_update : string -> NormalizedRoi -> S -> RoiUpdateResult * S;
  hs_listParkingSlots : S -> option (list ParkingSlotView);
  hs_getParkingSlot : string -> S -> option ParkingSlotView;
  hs_listSessionImages : Z -> S -> option (list ImageView);
  hs_getImage : Z -> S -> option ImageView
}.

(** What the file system answers: [weakly_canonical] of the data directory and of a path that is made absolute, as
    components ([None]: an error), whether there is a regular file, its size and its bytes ([None]: an error). *)
Record FileSystem := mkFileSystem {
  fs_root : option (list string);
  fs_canonical : string -> option (list string);
  fs_is_regular_file : list string -> bool;
  fs_file_size : list string -> option Z;
  fs_read : list string -> option string
}.

(** * The handlers *)

Section Handlers.
Context {S : Type} {HS : HttpServices S} {JL : JsonLibrary}.
(** Reading and writing numbers of JSON: [get<double>] ([None]: no number), a double as a number. *)
Context (json_double : json -> option double) (double_json : double -> json).
Context (config : ServerConfig) (files : FileSystem).

Notation Answer := (Response * S)%type.

(** [src/http/ParkingHttpServer.cpp:100-103 roiJson] *)
Definition roiJson (roi : NormalizedRoi) : json :=
  JObject [("x", double_json (nr_x roi)); ("y", double_json (nr_y roi)); ("width", double_json (nr_width roi));
           ("height", double_json (nr_height roi))].

(** [src/http/ParkingHttpServer.cpp:53-69 imageJson] *)
Definition imageJson (image : ImageView) : json :=
  let base := "/api/v1/images/" +:+ pretty (iv_image_id image) in
  let '(roi, revision) := match iv_applied_roi image with
                          | Some roi => if 0 <? iv_roi_revision image
                                        then (roiJson roi, JInteger (iv_roi_revision image)) else (JNull, JNull)
                          | None => (JNull, JNull)
                          end in
  JObject [("image_id", JInteger (iv_image_id image));
           ("session_id", if iv_session_id image <? 0 then JNull else JInteger (iv_session_id image));
           ("original_url", if is_empty (iv_original_path image) then JNull else JString (base +:+ "/original"));
           ("enhanced_url", if is_empty (iv_enhanced_path image) then JNull else JString (base +:+ "/enhanced"));
           ("enhancement_type", optionalText (iv_enhancement_type image));
           ("evidence_reason", optionalText (iv_evidence_reason image));
           ("ocr_result", optionalText (iv_ocr_result image)); ("captured_at", optionalText (iv_captured_at image));
           ("roi", roi); ("roi_revision", revision)].

Definition refusal (text : string) (status : Z) : Response :=
  sendJson (JObject [("success", JBool false); ("error", JString text)]) status.
Definition items_json (items : list json) : list (string * json) :=
  [("items", JArray items); ("count", JInteger (Z.of_nat (length items)))].

(** [src/http/ParkingHttpServer.cpp:281-284 ParkingHttpServer::registerRoutes] *)
Definition health (_ : list string) (_ : Request) (s : S) : Answer :=
  (sendJson (JObject [("success", JBool true); ("status", JString "ok")]) 200, s).

(** [src/http/ParkingHttpServer.cpp:316-344 ParkingHttpServer::registerRoutes] *)
Definition login_answer (r : LoginResult) : Response :=
  match lr_status r with
  | LoginSuccess =>
      sendJson (JObject [("success", JBool true); ("accessToken", JString (lr_access_token r));
                         ("tokenType", JString "Bearer"); ("expiresAt", JString (lr_expires_at r));
                         ("user", JObject [("id", JInteger (auu_id (lr_user r)));
                                           ("accountId", JString (auu_account_id (lr_user r)));
                                           ("displayName", JString (auu_display_name (lr_user r)))])]) 200
  | InvalidRequest => refusal "invalid request" 400
  | InvalidCredentials => refusal "invalid account or password" 401
  | RateLimited =>
      let r' := refusal "too many login attempts; retry later" 429 in
      mkResponse (rs_status r') (rs_content r') [("Retry-After", pretty (Z.max 1 (lr_retry_after_seconds r)))]
  | LoginUnavailable => refusal "authentication service unavailable" 500
  end.

(** [src/http/ParkingHttpServer.cpp:285-345 ParkingHttpServer::registerRoutes] *)
Definition login (_ : list string) (r : Request) (s : S) : Answer :=
  let invalid := (preventAuthenticationCaching (refusal "invalid request" 400), s) in
  if (4096 <? Z.of_nat (String.length (rq_body r))) ||
     negb (String.prefix "application/json" (get_header_value "Content-Type" r)) then invalid else
  match json_parse (rq_body r) with
  | Err _ => invalid
  | Ok body =>
      match json_find body "accountId", json_find body "password" with
      | Some (JString account), Some (JString password) =>
          let '(result, s') := hs_login account password (rq_remote_addr r) s in
          (preventAuthenticationCaching (login_answer result), s')
      | _, _ => invalid
      end
  end.

(** [src/http/ParkingHttpServer.cpp:346-355 ParkingHttpServer::registerRoutes] *)
Definition logout (_ : list string) (r : Request) (s : S) : Answer :=
  let '(ok, s') := hs_logoutBearer (get_header_value "Authorization" r) s in
  if ok then (preventAuthenticationCaching (sendJson (JObject [("success", JBool true)]) 200), s')
  else (authentication_required, s').

Definition minutes (seconds : Z) : json := double_json (SFdiv 53 1024 (d_of_Z seconds) (d_of_Z 60)).

(** [src/http/ParkingHttpServer.cpp:357-367 ParkingHttpServer::registerRoutes] *)
Definition get_threshold (_ : list string) (_ : Request) (s : S) : Answer :=
  let status := hs_threshold_status s in
  (sendJson (JObject [("thresholdSeconds", JInteger (ts_thresholdSeconds status));
                      ("effectiveSeconds", JInteger (ts_thresholdSeconds status));
                      ("thresholdMinutes", minutes (ts_thresholdSeconds status));
                      ("appliedRevision", JInteger (Z.of_N (ts_appliedRevision status)));
                      ("runtimeApplied", JBool (ts_runtimeApplied status));
                      ("runtimeHealthy", JBool (ts_runtimeHealthy status));
                      ("applyPolicy", JString "ACTIVE_AND_NEW_SESSIONS")]) 200, s).

(** [get<std::int64_t>] of an integer. *)
Definition to_int64 (z : Z) : Z := (z + 2 ^ 63) mod 2 ^ 64 - 2 ^ 63.

(** [src/http/ParkingHttpServer.cpp:368-424 ParkingHttpServer::registerRoutes] *)
Definition put_threshold (_ : list string) (r : Request) (s : S) : Answer :=
  match json_parse (rq_body r) with
  | Err _ => (refusal "request body must be valid JSON" 400, s)
  | Ok body =>
      match json_find body "thresholdSeconds" with
      | Some (JInteger z) =>
          let raw := to_int64 z in
          if (raw <? 60) || (86400 <? raw)
          then (refusal "thresholdSeconds must be between 60 and 86400" 400, s) else
          let '(result, s') := hs_threshold_update raw s in
          let common := [("requestedSeconds", JInteger raw); ("effectiveSeconds", JInteger (tu_thresholdSeconds result));
                         ("thresholdSeconds", JInteger (tu_thresholdSeconds result))] in
          let state := [("appliedRevision", JInteger (Z.of_N (tu_appliedRevision result)));
                        ("runtimeApplied", JBool (tu_runtimeApplied result));
                        ("runtimeHealthy", JBool (tu_runtimeHealthy result));
                        ("applyPolicy", JString "ACTIVE_AND_NEW_SESSIONS")] in
          if negb (tu_success result)
          then (sendJson (JObject (("success", JBool false) :: common ++ state ++ [("error", JString (tu_error result))])) 503,
                s')
          else (sendJson (JObject (("success", JBool true) :: common ++
                                   ("thresholdMinutes", minutes (tu_thresholdSeconds result)) :: state)) 200, s')
      | _ => (refusal "thresholdSeconds must be an integer" 400, s)
      end
  end.

(** [src/http/ParkingHttpServer.cpp:432-441 ParkingHttpServer::registerRoutes] *)
Definition list_rois (_ : list string) (_ : Request) (s : S) : Answer :=
  (sendJson (JObject (items_json ((fun setting => JObject [("slotId", JString (ar_slotId setting));
                                                           ("roi", roiJson (ar_value setting));
                                                           ("revision", JInteger (ar_revision setting))])
                                    <$> hs_roi_list s))) 200, s).

(** [src/http/ParkingHttpServer.cpp:442-456 ParkingHttpServer::registerRoutes] *)
Definition get_roi (matches : list string) (_ : Request) (s : S) : Answer :=
  let slot_id := normalizedSlotId (default "" (head matches)) in
  match hs_roi_resolve slot_id s with
  | None => (sendError 404 "SLOT_NOT_FOUND" "ROI가 설정된 주차면을 찾을 수 없습니다.", s)
  | Some roi => (sendJson (JObject [("slotId", JString slot_id); ("roi", roiJson (ar_value roi));
                                    ("revision", JInteger (ar_revision roi))]) 200, s)
  end.

Definition is_number (j : json) : bool := match j with JInteger _ | JFloat _ => true | _ => false end.

(** [src/http/ParkingHttpServer.cpp:457-507 ParkingHttpServer::registerRoutes] *)
Definition put_roi (matches : list string) (r : Request) (s : S) : Answer :=
  match json_parse (rq_body r) with
  | Err _ => (refusal "request body must be valid JSON" 400, s)
  | Ok body =>
      let field name := match json_find body name with Some v => if is_number v then Some v else None | None => None end in
      match List.find (fun name => negb (bool_decide (is_Some (field name)))) ["x"; "y"; "width"; "height"] with
      | Some name => (refusal (name +:+ " must be a number") 400, s)
      | None =>
          let number name := v ← field name; json_double v in
          match number "x", number "y", number "width", number "height" with
          | Some x, Some y, Some width, Some height =>
              let roi := mkNormalizedRoi x y width height in
              let slot_id := normalizedSlotId (default "" (head matches)) in
              let '(result, s') := hs_roi_update slot_id roi s in
              if negb (ru_slotFound result) then (refusal (ru_error result) 404, s') else
              if negb (ru_success result) then (refusal (ru_error result) (if roi_isValid roi then 500 else 400), s') else
              (sendJson (JObject [("success", JBool true); ("slotId", JString slot_id); ("appliedImmediately", JBool true);
                                  ("revision", JInteger (ru_revision result)); ("roi", roiJson (ru_roi result))]) 200, s')
          | _, _, _, _ => (refusal "ROI values are invalid" 400, s)
          end
      end
  end.

(** [src/http/ParkingHttpServer.cpp:509-517 ParkingHttpServer::registerRoutes] *)
Definition list_slots (_ : list string) (_ : Request) (s : S) : Answer :=
  match hs_listParkingSlots s with
  | None => (sendError 503 "DATABASE_UNAVAILABLE" "주차면을 조회할 수 없습니다.", s)
  | Some slots => (sendJson (JObject (items_json (slotJson <$> slots))) 200, s)
  end.

(** [src/http/ParkingHttpServer.cpp:518-524 ParkingHttpServer::registerRoutes] *)
Definition get_slot (matches : list string) (_ : Request) (s : S) : Answer :=
  match hs_getParkingSlot (default "" (head matches)) s with
  | None => (sendError 404 "SLOT_NOT_FOUND" "주차면을 찾을 수 없습니다.", s)
  | Some slot => (sendJson (slotJson slot) 200, s)
  end.

(** [src/http/ParkingHttpServer.cpp:525-533 ParkingHttpServer::registerRoutes] *)
Definition active_sessions (_ : list string) (_ : Request) (s : S) : Answer :=
  match hs_listParkingSlots s with
  | None => (sendError 503 "DATABASE_UNAVAILABLE" "활성 세션을 조회할 수 없습니다.", s)
  | Some slots =>
      (sendJson (JObject (items_json (slotJson <$> List.filter (fun slot => 0 <=? sv_session_id slot) slots))) 200, s)
  end.

(** [src/http/ParkingHttpServer.cpp:534-546 ParkingHttpServer::registerRoutes] *)
Definition session_images (matches : list string) (_ : Request) (s : S) : Answer :=
  match parsePositiveId (default "" (head matches)) with
  | None => (sendError 400 "INVALID_SESSION_ID" "session_id 형식이 잘못되었습니다.", s)
  | Some session_id =>
      match hs_listSessionImages session_id s with
      | None => (sendError 503 "DATABASE_UNAVAILABLE" "이미지를 조회할 수 없습니다.", s)
      | Some images =>
          (sendJson (JObject (("session_id", JInteger session_id) :: items_json (imageJson <$> images))) 200, s)
      end
  end.

(** [src/http/ParkingHttpServer.cpp:547-579 ParkingHttpServer::registerRoutes] The error of the data directory's path is
    overwritten by the call for the picture's path, and an error leaves an empty path. *)
Definition get_image (matches : list string) (_ : Request) (s : S) : Answer :=
  match parsePositiveId (default "" (head matches)) with
  | None => (sendError 400 "INVALID_IMAGE_ID" "image_id 형식이 잘못되었습니다.", s)
  | Some image_id =>
      match hs_getImage image_id s with
      | None => (sendError 404 "IMAGE_NOT_FOUND" "이미지 기록을 찾을 수 없습니다.", s)
      | Some image =>
          let stored_path := if bool_decide (matches !! 1%nat = Some "enhanced")
                             then iv_enhanced_path image else iv_original_path image in
          if is_empty stored_path
          then (sendError 404 "IMAGE_VARIANT_NOT_FOUND" "요청한 이미지 종류가 없습니다.", s) else
          let root := default [] (fs_root files) in
          let not_found :=
            (sendError 404 "IMAGE_FILE_NOT_FOUND" "이미지 파일이 없거나 허용된 data 경로 밖입니다.", s) in
          match fs_canonical files stored_path with
          | None => not_found
          | Some candidate =>
              if negb (path_isInside candidate root) || negb (fs_is_regular_file files candidate) then not_found else
              let too_large := (sendError 413 "IMAGE_TOO_LARGE" "이미지 크기 제한을 초과했습니다.", s) in
              match fs_file_size files candidate with
              | None => too_large
              | Some size =>
                  if sc_max_image_bytes config <? size then too_large else
                  match fs_read files candidate with
                  | None => (sendError 500 "IMAGE_READ_FAILED" "이미지 파일을 읽지 못했습니다.", s)
                  | Some body => (mkResponse 200 (CFile (mimeType candidate) body) [], s)
                  end
              end
          end
      end
  end.

(** * The routes *)

(** The parts of a path; a group of the pattern is kept. *)
Inductive Segment := Literal (text : string) | AnySegment | DigitsSegment | OneOf (texts : list string).

Definition is_slash (c : ascii) : bool := bool_decide (c = "/"%char).
Fixpoint path_segments (s : string) : list string :=
  match s with
  | EmptyString => [""]
  | String c rest =>
      match path_segments rest with
      | first :: others => if is_slash c then "" :: first :: others else String c first :: others
      | [] => [""]
      end
  end.
Definition match_segment (p : Segment) (text : string) : option (list string) :=
  match p with
  | Literal t => if bool_decide (t = text) then Some [] else None
  | AnySegment => if is_empty text then None else Some [text]
  | DigitsSegment => if is_empty text || negb (sall isdigit text) then None else Some [text]
  | OneOf texts => if bool_decide (text ∈ texts) then Some [text] else None
  end.
Fixpoint match_pattern (pattern : list Segment) (segments : list string) : option (list string) :=
  match pattern, segments with
  | [], [] => Some []
  | p :: pattern, text :: segments =>
      groups ← match_segment p text; others ← match_pattern pattern segments; Some (groups ++ others)
  | _, _ => None
  end.

Record Route := mkRoute {
  ro_method : Method;
  ro_pattern : list Segment;
  ro_authentication : bool;
  ro_handler : list string -> Request -> S -> Answer
}.

Definition literals (path : string) : list Segment := Literal <$> path_segments path.

(** [src/http/ParkingHttpServer.cpp:281-579 ParkingHttpServer::registerRoutes] In the order of their registration;
    [overstay], [roi]: the server has these services. *)
Definition routes (overstay roi : bool) : list Route :=
  [mkRoute Get (literals "/api/v1/health") false health;
   mkRoute Post (literals "/api/v1/auth/login") false login;
   mkRoute Post (literals "/api/v1/auth/logout") true logout] ++
  (if overstay then
     [mkRoute Get (literals "/api/v1/settings/overstay-threshold") true get_threshold;
      mkRoute Put (literals "/api/v1/settings/overstay-threshold") true put_threshold;
      mkRoute Get (literals "/api/settings/overstay-threshold") true get_threshold;
      mkRoute Put (literals "/api/settings/overstay-threshold") true put_threshold]
   else []) ++
  (if roi then
     [mkRoute Get (literals "/api/v1/settings/parking-slots/roi") true list_rois;
      mkRoute Get (literals "/api/v1/settings/parking-slots" ++ [AnySegment; Literal "roi"]) true get_roi;
      mkRoute Put (literals "/api/v1/settings/parking-slots" ++ [AnySegment; Literal "roi"]) true put_roi]
   else []) ++
  [mkRoute Get (literals "/api/v1/parking-slots") true list_slots;
   mkRoute Get (literals "/api/v1/parking-slots" ++ [AnySegment]) true get_slot;
   mkRoute Get (literals "/api/v1/parking-sessions/active") true active_sessions;
   mkRoute Get (literals "/api/v1/parking-sessions" ++ [DigitsSegment; Literal "images"]) true session_images;
   mkRoute Get (literals "/api/v1/images" ++ [DigitsSegment; OneOf ["original"; "enhanced"]]) true get_image].

(** [src/http/ParkingHttpServer.cpp:258-279 ParkingHttpServer::registerRoutes] The guard in front of a handler; [open]:
    the gate of the server gives a lease. *)
Definition guarded (open : bool) (route : Route) (groups : list string) (r : Request) (s : S) : Answer :=
  if negb open then (sendError 503 "SERVER_QUIESCING" "서버가 종료 중이어서 요청을 처리할 수 없습니다.", s) else
  if ro_authentication route &&
     (negb (length (header_values "Authorization" r) =? 1)%nat ||
      negb (hs_authenticateBearer (get_header_value "Authorization" r) s))
  then (authentication_required, s) else
  ro_handler route groups r s.

(** [src/http/ParkingHttpServer.cpp:580-582 ParkingHttpServer::registerRoutes] The handler of errors. *)
Definition error_handler (r : Response) : Response :=
  if rs_status r =? 404
  then mkResponse 404 (rs_content (sendError 404 "ENDPOINT_NOT_FOUND" "API 경로를 찾을 수 없습니다.")) (rs_headers r)
  else r.

(** The route that the library chooses: the first one that matches. *)
Fixpoint find_route (table : list Route) (r : Request) : option (Route * list string) :=
  match table with
  | [] => None
  | route :: table =>
      if bool_decide (ro_method route = routed_method (rq_method r)) then
        match match_pattern (ro_pattern route) (path_segments (rq_path r)) with
        | Some groups => Some (route, groups)
        | None => find_route table r
        end
      else find_route table r
  end.

(** A request that is not refused by the library itself. The library calls the handler of errors for every answer of
    status 400 or more; of an answer to HEAD it sends the status and the headers only. *)
Definition dispatch (open overstay roi : bool) (r : Request) (s : S) : Answer :=
  let '(response, s') := match find_route (routes overstay roi) r with
                         | Some (route, groups) => guarded open route groups r s
                         | None => (mkResponse 404 NoContent [], s)
                         end in
  ((if 400 <=? rs_status response then error_handler response else response), s').
End Handlers.

(** * The services of this server *)

(** The tables of the accounts with the failed logins, the regions, and the timers with the rest of the database. *)
Record ServerState := mkServerState {
  ss_auth : AuthDb;
  ss_rate : RateTable;
  ss_roi : RoiSettings;
  ss_runtime : Runtime
}.
Definition ss_db (s : ServerState) : ParkingDb := ov_db (rt_overstay (ss_runtime s)).

(** The outside of one request: the clocks, the random bytes of each attempt at a token, the disk under the database,
    the streams of [RoiSettings], and the rows that the queries of db_manager.c find. *)
Record ServerOutside := mkServerOutside {
  so_now : Z;
  so_at : Instant;
  so_changed_at : string;
  so_random : nat -> list Z;
  so_sql_fails : bool;
  so_get_double : string -> option (double * string);
  so_put_double : double -> string;
  so_put_fixed : double -> string;
  so_slots : ParkingDb -> option (list ParkingSlotView);
  so_images : ParkingDb -> Z -> option (list ImageView);
  so_image : ParkingDb -> Z -> option ImageView
}.

Section Server.
Context {SO : Sodium} (auth_config : AuthConfig) (dummy_password_hash : string) (o : ServerOutside).

(** [login] from its first step to its answer; a login takes at most six steps: the account, three attempts at a token,
    the clearing of the failures. *)
Fixpoint login_loop (fuel : nat) (l : Login) (db : AuthDb) (rate : RateTable) : LoginResult * AuthDb * RateTable :=
  match lg_at l, fuel with
  | Answered r, _ => (r, db, rate)
  | _, O => (plain_login LoginUnavailable, db, rate)
  | _, S fuel =>
      let '(at_, db', rate', _) := login_step auth_config dummy_password_hash (so_random o fuel) l db rate in
      login_loop fuel (login_at l at_) db' rate'
  end.
Definition server_login (account password source : string) (s : ServerState) : LoginResult * ServerState :=
  let y := login_begin auth_config account password source (so_now o) (mkAuthState (ss_auth s) (ss_rate s) [] []) in
  match as_logins y with
  | l :: _ =>
      let '(r, db, rate) := login_loop 6 l (as_db y) (as_rate y) in
      (r, mkServerState db rate (ss_roi s) (ss_runtime s))
  | [] => (plain_login LoginUnavailable, s)
  end.

#[export] Instance server_services : HttpServices ServerState := {|
  hs_authenticateBearer := fun header s => bool_decide (is_Some (authenticateBearer header (so_now o) (ss_auth s)));
  hs_login := server_login;
  hs_logoutBearer := fun header s =>
    let '(ok, db) := logoutBearer header (so_now o) (ss_auth s) in (ok, mkServerState db (ss_rate s) (ss_roi s) (ss_runtime s));
  hs_threshold_status := fun s => th_status (rt_threshold (ss_runtime s));
  hs_threshold_update := fun seconds s =>
    let '(r, rt) := th_update true (so_sql_fails o) (so_at o) seconds (ss_runtime s) in
    (r, mkServerState (ss_auth s) (ss_rate s) (ss_roi s) rt);
  hs_roi_list := fun s => roi_list (ss_roi s);
  hs_roi_resolve := fun slot s => roi_resolveForUse slot (ss_roi s);
  hs_roi_update := fun slot roi s =>
    let '(r, settings, d) := roi_update (so_put_double o) (so_put_fixed o) (so_changed_at o) (so_sql_fails o)
                               (so_sql_fails o) slot roi (ss_roi s) (ss_db s) in
    (r, mkServerState (ss_auth s) (ss_rate s) settings (rt_set_db (ss_runtime s) d));
  hs_listParkingSlots := fun s => so_slots o (ss_db s);
  hs_getParkingSlot := fun slot s =>
    rows ← so_slots o (ss_db s); List.find (fun row => bool_decide (sv_slot_id row = slot)) rows;
  hs_listSessionImages := fun id s => so_images o (ss_db s) id;
  hs_getImage := fun id s => so_image o (ss_db s) id
|}.
End Server.

(** * The life of the server *)

(** [include/http/ParkingHttpServer.hpp:20-20 HttpServerState] *)
Inductive HttpServerState := HttpConstructed | HttpRunning | HttpQuiescing | HttpStopped.
#[global] Instance HttpServerState_eq_dec : EqDecision HttpServerState.
Proof. solve_decision. Defined.

(** Where the caller of [stop] is, who holds the stop mutex; he stands before the lock or wait that is named. *)
Inductive HttpStopAt := HttpIdle | HttpClosing | HttpListener | HttpDraining | HttpJoining | HttpFinishing.

(** [include/http/ParkingHttpServer.hpp:56-64 ParkingHttpServer] [hl_handlers]: the requests that hold a lease;
    [hl_answers]: what the calls of [stop] have answered. *)
Record HttpLife := mkHttpLife {
  hl_state : HttpServerState;
  hl_gate : Gate;
  hl_server : bool;
  hl_thread : bool;
  hl_uses_tls : bool;
  hl_handlers : list nat;
  hl_stop : HttpStopAt;
  hl_answers : list bool
}.
Definition http_new : HttpLife := mkHttpLife HttpConstructed new_gate false false false [] HttpIdle [].

(** [src/http/ParkingHttpServer.cpp:133-195 ParkingHttpServer::start] With the answers of the outside: the library has TLS,
    the certificate is valid, the port can be bound, the thread starts. *)
Definition http_start (c : ServerConfig) (tls_support valid bound thread : bool) (l : HttpLife) : bool * HttpLife :=
  if bool_decide (hl_state l = HttpRunning) then (true, l) else
  if negb (bool_decide (hl_state l = HttpConstructed)) then (false, l) else
  let cert_set := negb (is_empty (sc_tls_certificate_path c)) in
  let key_set := negb (is_empty (sc_tls_private_key_path c)) in
  if negb (eqb cert_set key_set) then (false, l) else
  if sc_require_tls c && negb cert_set && negb (isLoopbackAddress (sc_listen_address c)) then (false, l) else
  if cert_set && (negb tls_support || negb valid) then (false, l) else
  let with_server server state thread :=
    mkHttpLife state (hl_gate l) server thread cert_set (hl_handlers l) (hl_stop l) (hl_answers l) in
  if negb bound then (false, with_server false (hl_state l) (hl_thread l)) else
  if negb thread then (false, with_server false HttpConstructed (hl_thread l)) else
  (true, with_server true HttpRunning true).

Definition hl_set_stop (l : HttpLife) (at_ : HttpStopAt) (answers : list bool) : HttpLife :=
  mkHttpLife (hl_state l) (hl_gate l) (hl_server l) (hl_thread l) (hl_uses_tls l) (hl_handlers l) at_ answers.

(** [src/http/ParkingHttpServer.cpp:201-208 ParkingHttpServer::closeIngressLocked] *)
Definition closeIngressLocked (l : HttpLife) : HttpLife :=
  if bool_decide (hl_state l = HttpStopped) then l else
  mkHttpLife HttpQuiescing (gate_close (hl_gate l)) (hl_server l) (hl_thread l) (hl_uses_tls l) (hl_handlers l) (hl_stop l)
    (hl_answers l).

(** [src/http/ParkingHttpServer.cpp:196-199 ParkingHttpServer::closeIngress] It waits for a caller of [stop]. *)
Definition http_closeIngress (l : HttpLife) : HttpLife :=
  match hl_stop l with HttpIdle => closeIngressLocked l | _ => l end.

(** [src/http/ParkingHttpServer.cpp:219-246 ParkingHttpServer::stop] With [stopListenerLocked] (210-217): one step, from a
    lock or wait to the next. [timeout]: the time for the requests is over; [join_fails]: the thread cannot be
    joined. *)
Definition http_stop_step (timeout join_fails : bool) (l : HttpLife) : HttpLife :=
  match hl_stop l with
  | HttpIdle =>
      if bool_decide (hl_state l = HttpStopped) then hl_set_stop l HttpIdle (hl_answers l ++ [true])
      else hl_set_stop l HttpClosing (hl_answers l)
  | HttpClosing => hl_set_stop (closeIngressLocked l) HttpListener (hl_answers l)
  | HttpListener => hl_set_stop l HttpDraining (hl_answers l)
  | HttpDraining =>
      if gate_drained (hl_gate l) then hl_set_stop l HttpJoining (hl_answers l)
      else if timeout then hl_set_stop l HttpIdle (hl_answers l ++ [false]) else l
  | HttpJoining =>
      if hl_thread l && join_fails then hl_set_stop l HttpIdle (hl_answers l ++ [false])
      else mkHttpLife (hl_state l) (hl_gate l) (hl_server l) false (hl_uses_tls l) (hl_handlers l) HttpFinishing (hl_answers l)
  | HttpFinishing =>
      mkHttpLife HttpStopped (hl_gate l) false (hl_thread l) (hl_uses_tls l) (hl_handlers l) HttpIdle (hl_answers l ++ [true])
  end.

(** A request comes to the guard of a route, and leaves its handler. *)
Definition http_enter (id : nat) (l : HttpLife) : bool * HttpLife :=
  match tryAcquire (hl_gate l) with
  | Some g => (true, mkHttpLife (hl_state l) g (hl_server l) (hl_thread l) (hl_uses_tls l) (hl_handlers l ++ [id]) (hl_stop l)
                       (hl_answers l))
  | None => (false, l)
  end.
Definition http_leave (i : nat) (l : HttpLife) : HttpLife :=
  match hl_handlers l !! i with
  | Some _ => mkHttpLife (hl_state l) (gate_release (hl_gate l)) (hl_server l) (hl_thread l) (hl_uses_tls l)
                (delete i (hl_handlers l)) (hl_stop l) (hl_answers l)
  | None => l
  end.

Inductive HttpOp :=
| HttpStart (c : ServerConfig) (tls_support valid bound thread : bool)
| HttpClose
| HttpStop (timeout join_fails : bool)
| HttpEnter (id : nat)
| HttpLeave (i : nat).
Definition http_life_step (l : HttpLife) (op : HttpOp) : HttpLife :=
  match op with
  | HttpStart c tls valid bound thread => (http_start c tls valid bound thread l).2
  | HttpClose => http_closeIngress l
  | HttpStop timeout join_fails => http_stop_step timeout join_fails l
  | HttpEnter id => (http_enter id l).2
  | HttpLeave i => http_leave i l
  end.
Definition http_life_run (l : HttpLife) (ops : list HttpOp) : HttpLife := foldl http_life_step l ops.
