(* ===== verification/HttpSafety.v ===== *)
(** What the interface to the app guarantees, for any services behind it: nothing is done or told without an accepted
    token, and only pictures of the data directory are given out; and the services of this server as an instance. *)
From S2P Require Import Prelude SlotConfig OccupancyDb Doubles ParkingDb Auth Evidence Overstay Threshold RoiSettings MqttEndpoint.
From S2P Require Import SensorProtocol Http.

#[local] Open Scope Z_scope.

(** * Paths *)

Fixpoint join_segments (l : list string) : string :=
  match l with
  | [] => ""
  | [x] => x
  | x :: l => x +:+ String "/" (join_segments l)
  end.

Lemma path_segments_cons s : exists first others, path_segments s = first :: others.
Proof.
  induction s as [|c s (first & others & IH)]; simpl; [by exists "", []|]. rewrite IH.
  destruct (is_slash c); [by exists "", (first :: others)|by exists (String c first), others].
Qed.

Lemma join_path_segments s : join_segments (path_segments s) = s.
Proof.
  induction s as [|c s IH]; [done|]. cbn [path_segments].
  destruct (path_segments_cons s) as (first & others & E). rewrite E in *. unfold is_slash. case_bool_decide as Hc.
  - subst c. change (join_segments ("" :: first :: others)) with (String "/" (join_segments (first :: others))). by rewrite IH.
  - destruct others; simpl in *; by rewrite IH.
Qed.

Lemma path_segments_inj a b : path_segments a = path_segments b -> a = b.
Proof. intros H. rewrite <- (join_path_segments a), <- (join_path_segments b). by rewrite H. Qed.

Lemma match_literals l segments groups : match_pattern (Literal <$> l) segments = Some groups -> segments = l /\ groups = [].
Proof.
  revert segments groups. induction l as [|x l IH]; intros [|y segments] groups; cbn [fmap list_fmap match_pattern match_segment]; try done.
  { by intros [= <-]. }
  case_bool_decide as Hx; [subst y|done]. cbn [mbind option_bind].
  destruct (match_pattern (Literal <$> l) segments) as [others|] eqn:E; [|done]. intros [= <-].
  by destruct (IH _ _ E) as [-> ->].
Qed.

(** A pattern without groups is met by its own path only. *)
Lemma match_path path request groups :
  match_pattern (literals path) (path_segments request) = Some groups -> request = path.
Proof. intros [H _]%match_literals. by apply path_segments_inj. Qed.

Lemma path_inside_prefix child parent : path_isInside child parent = true <-> exists rest, child = parent ++ rest.
Proof.
  revert child. induction parent as [|p parent IH]; intros child; [destruct child; simpl; (split; [intros _; by eexists|done])|].
  destruct child as [|c child]; simpl; [split; [done|by intros (rest & ?)]|].
  rewrite andb_true_iff, bool_decide_eq_true, IH. split.
  - intros (-> & rest & ->). by exists rest.
  - intros (rest & [= -> ->]). split; [done|by exists rest].
Qed.

Section Routes.
Context {S : Type} {HS : HttpServices S} {JL : JsonLibrary}.
Context (json_double : json -> option double) (double_json : double -> json) (config : ServerConfig) (files : FileSystem).
#[local] Notation routes := (routes json_double double_json config files).
#[local] Notation dispatch := (dispatch json_double double_json config files).
#[local] Notation get_image := (get_image config files).

(** The request has one Authorization header, and its token is accepted. *)
Definition authorised (r : Request) (s : S) : bool :=
  (length (header_values "Authorization" r) =? 1)%nat && hs_authenticateBearer (get_header_value "Authorization" r) s.

(** ** What each handler does *)

(** A handler that only reads, and answers with JSON. *)
Definition reads (h : list string -> Request -> S -> Response * S) : Prop :=
  forall groups r s, (h groups r s).2 = s.
Definition no_file (h : list string -> Request -> S -> Response * S) : Prop :=
  forall groups r s mime body, rs_content (h groups r s).1 <> CFile mime body.

Lemma login_no_file : no_file login.
Proof.
  intros groups r s mime body. unfold login. cbv zeta. destruct (_ || _); [done|]. destruct (json_parse (rq_body r)) as [v|]; [|done].
  destruct (json_find v "accountId") as [[]|]; try done. destruct (json_find v "password") as [[]|]; try done.
  destruct (hs_login _ _ _ _) as [result s']. unfold login_answer. by destruct (lr_status result).
Qed.

Lemma put_threshold_no_file : no_file (put_threshold double_json).
Proof.
  intros groups r s mime body. unfold put_threshold. destruct (json_parse (rq_body r)) as [v|]; [|done].
  destruct (json_find v "thresholdSeconds") as [[]|]; try done. cbv zeta. destruct (_ || _); [done|].
  destruct (hs_threshold_update _ _) as [result s']. by destruct (negb (tu_success result)).
Qed.

Lemma put_roi_no_file : no_file (put_roi json_double double_json).
Proof.
  intros groups r s mime body. unfold put_roi. destruct (json_parse (rq_body r)) as [v|]; [|done]. cbv zeta.
  destruct (List.find _ _); [done|]. repeat (case_match; try done).
Qed.

Lemma get_image_reads : reads get_image.
Proof.
  intros groups r s. unfold Http.get_image. destruct (parsePositiveId _); [|done]. destruct (hs_getImage _ _); [|done].
  cbv zeta. destruct (is_empty _); [done|]. destruct (fs_canonical files _); [|done]. destruct (_ || _); [done|].
  destruct (fs_file_size files _); [|done]. destruct (_ <? _); [done|]. by destruct (fs_read files _).
Qed.

(** Every route: a GET only reads; a file comes from the route of the pictures; and two routes need no token. *)
Definition route_ok (route : Route (S := S)) : Prop :=
  (ro_method route = Get -> reads (ro_handler route)) /\
  (ro_handler route = get_image \/ no_file (ro_handler route)) /\
  (ro_authentication route = true \/
   route = mkRoute Get (literals "/api/v1/health") false health \/
   route = mkRoute Post (literals "/api/v1/auth/login") false login).

(** The handlers that read, but for the pictures. *)
Lemma readers :
  Forall (fun h => reads h /\ no_file h)
    [health; get_threshold double_json; list_rois double_json; get_roi double_json; list_slots; get_slot; active_sessions;
     session_images double_json].
Proof.
  repeat constructor; try (by intros groups r s); intros groups r s.
  - unfold get_roi. cbv zeta. by destruct (hs_roi_resolve _ _).
  - intros mime body. unfold get_roi. cbv zeta. by destruct (hs_roi_resolve _ _).
  - unfold list_slots. by destruct (hs_listParkingSlots s).
  - intros mime body. unfold list_slots. by destruct (hs_listParkingSlots s).
  - unfold get_slot. by destruct (hs_getParkingSlot _ s).
  - intros mime body. unfold get_slot. by destruct (hs_getParkingSlot _ s).
  - unfold active_sessions. by destruct (hs_listParkingSlots s).
  - intros mime body. unfold active_sessions. by destruct (hs_listParkingSlots s).
  - unfold session_images. destruct (parsePositiveId _); [|done]. by destruct (hs_listSessionImages _ s).
  - intros mime body. unfold session_images. destruct (parsePositiveId _); [|done]. by destruct (hs_listSessionImages _ s).
Qed.

Lemma logout_no_file : no_file logout.
Proof. intros groups r s mime body. unfold logout. destruct (hs_logoutBearer _ _) as [[] s']; done. Qed.

Lemma route_reader pattern auth h :
  reads h /\ no_file h -> (auth = true \/ mkRoute Get pattern auth h = mkRoute Get (literals "/api/v1/health") false health) ->
  route_ok (mkRoute Get pattern auth h).
Proof. intros [Hr Hf] Ha. split; [done|]. split; [by right|]. destruct Ha as [Ha|Ha]; [by left|right; by left]. Qed.
Lemma route_writer method pattern h : method <> Get -> no_file h -> route_ok (mkRoute method pattern true h).
Proof. intros Hm Hf. split; [done|]. split; [by right|by left]. Qed.

Lemma routes_ok overstay roi : Forall route_ok (routes overstay roi).
Proof.
  pose proof readers as Hread. rewrite !Forall_cons in Hread. destruct Hread as (H1 & H2 & H3 & H4 & H5 & H6 & H7 & H8 & _).
  unfold Http.routes.
  repeat apply Forall_app_2; [| destruct overstay | destruct roi |]; repeat apply Forall_cons_2; try apply Forall_nil_2.
  all: try (apply route_writer; [done|first [exact logout_no_file | exact put_threshold_no_file | exact put_roi_no_file]]).
  all: try (apply route_reader; [done|auto; fail]).
  - split; [done|]. split; [right; exact login_no_file|]. by right; right.
  - split; [intros _; exact get_image_reads|]. split; [by left|by left].
Qed.

Lemma find_route_in (table : list (Route (S := S))) r route groups :
  find_route table r = Some (route, groups) ->
  In route table /\ ro_method route = routed_method (rq_method r) /\
  match_pattern (ro_pattern route) (path_segments (rq_path r)) = Some groups.
Proof.
  induction table as [|x table IH]; [done|]. cbn [find_route]. case_bool_decide as Hm.
  - destruct (match_pattern (ro_pattern x) (path_segments (rq_path r))) as [g|] eqn:E.
    + intros [= -> ->]. split; [by left|done].
    + intros (? & ? & ?)%IH. split; [by right|done].
  - intros (? & ? & ?)%IH. split; [by right|done].
Qed.

Lemma error_handler_file r mime body :
  rs_content (if 400 <=? rs_status r then error_handler r else r) = CFile mime body -> rs_content r = CFile mime body.
Proof. destruct (400 <=? rs_status r); [|done]. unfold error_handler. by destruct (rs_status r =? 404). Qed.

(** C12 [safety] Nothing without a token. Whatever the request, the services and the files: if the state of the server
    changes, or the answer is a success, then the server was open, a route met the request, and either the request has
    one Authorization header whose token is accepted, or it is the login (by POST), or the question for the health of
    the server, which changes nothing. A GET or a HEAD never changes anything. And a route behind the guard answers a request
    without a good token with 401, that must not be cached, and does nothing. *)
Theorem http_guarded open overstay roi r s response s' :
  dispatch open overstay roi r s = (response, s') ->
  (s' <> s \/ 200 <= rs_status response < 300 ->
     open = true /\
     (authorised r s = true \/
      rq_path r = "/api/v1/auth/login" /\ rq_method r = Post \/
      rq_path r = "/api/v1/health" /\ routed_method (rq_method r) = Get /\ s' = s)) /\
  (routed_method (rq_method r) = Get -> s' = s) /\
  (open = true -> authorised r s = false ->
   forall route groups, find_route (routes overstay roi) r = Some (route, groups) -> ro_authentication route = true ->
   response = authentication_required /\ s' = s).
Proof.
  unfold Http.dispatch. destruct (find_route (routes overstay roi) r) as [[route groups]|] eqn:E.
  2:{ intros [= <- <-]. split; [intros [?|?]; [done|simpl in *; lia]|done]. }
  destruct (find_route_in _ _ _ _ E) as (Hin & Hm & Hp).
  pose proof (routes_ok overstay roi) as Hok. rewrite List.Forall_forall in Hok. destruct (Hok route Hin) as (Hget & _ & Hauth).
  unfold Http.guarded. destruct open; cbn [negb].
  2:{ intros [= <- <-]. split; [intros [?|?]; [done|simpl in *; lia]|done]. }
  assert (Hguard : negb (length (header_values "Authorization" r) =? 1)%nat ||
                   negb (hs_authenticateBearer (get_header_value "Authorization" r) s) = negb (authorised r s)).
  { unfold authorised. by rewrite negb_andb. }
  rewrite Hguard. destruct (ro_authentication route && negb (authorised r s)) eqn:Ea.
  - apply andb_prop in Ea as [Ea1 Ea2]. intros [= <- <-]. split; [intros [?|?]; [done|simpl in *; lia]|].
    split; [done|]. intros _ Hno route' groups' [= <- <-] _. done.
  - destruct (ro_handler route groups r s) as [response1 s1] eqn:Eh. intros [= <- <-]. split; [|split].
    + intros _. split; [done|]. destruct (authorised r s) eqn:Eauth; [by left|]. right.
      rewrite andb_true_r in Ea. destruct Hauth as [Hauth|[-> | ->]]; [congruence| |].
      * right. simpl in *. split; [by eapply match_path|]. split; [done|]. injection Eh as _ <-. done.
      * left. simpl in *. split; [by eapply match_path|by destruct (rq_method r)].
    + intros Hmg. rewrite Hmg in Hm. pose proof (Hget Hm groups r s) as H. by rewrite Eh in H.
    + intros _ Hno route' groups' [= <- <-] Hra. rewrite Hra, Hno in Ea. done.
Qed.

(** C13 [safety] Only pictures of the data directory. If an answer carries a file, then the request is one for a picture
    with an accepted token, the picture is a row of the image log, the file is regular, not larger than the limit, and
    its canonical path continues that of the data directory (which is empty where the directory's path could not be
    resolved). *)
Theorem image_confined open overstay roi r s response s' mime body :
  dispatch open overstay roi r s = (response, s') -> rs_content response = CFile mime body ->
  authorised r s = true /\ s' = s /\
  exists id image stored candidate size rest,
    hs_getImage id s = Some image /\ (stored = iv_original_path image \/ stored = iv_enhanced_path image) /\ stored <> "" /\
    fs_canonical files stored = Some candidate /\ candidate = default [] (fs_root files) ++ rest /\
    fs_is_regular_file files candidate = true /\ fs_file_size files candidate = Some size /\
    size <= sc_max_image_bytes config /\ fs_read files candidate = Some body /\ mime = mimeType candidate.
Proof.
  unfold Http.dispatch. destruct (find_route (routes overstay roi) r) as [[route groups]|] eqn:E.
  2:{ by intros [= <- <-]. }
  destruct (find_route_in _ _ _ _ E) as (Hin & Hm & Hp).
  pose proof (routes_ok overstay roi) as Hok. rewrite List.Forall_forall in Hok. destruct (Hok route Hin) as (_ & Hfile & Hauth).
  unfold Http.guarded. destruct open; cbn [negb]; [|by intros [= <- <-]].
  destruct (ro_authentication route && _) eqn:Ea; [by intros [= <- <-]|].
  destruct (ro_handler route groups r s) as [response1 s1] eqn:Eh. intros [= <- <-] Hc%error_handler_file.
  destruct Hfile as [Hfile|Hfile]; [|pose proof (Hfile groups r s mime body) as Hn; by rewrite Eh in Hn].
  destruct Hauth as [Hauth|[-> | ->]]; [|by injection Eh as <- _|].
  2:{ pose proof (login_no_file groups r s mime body) as Hn. simpl in Eh. by rewrite Eh in Hn. }
  split.
  { rewrite Hauth in Ea. cbn [andb] in Ea. apply orb_false_elim in Ea as [Ea1 Ea2].
    unfold authorised. by rewrite (proj1 (negb_false_iff _) Ea1), (proj1 (negb_false_iff _) Ea2). }
  rewrite Hfile in Eh. pose proof (get_image_reads groups r s) as Hs. rewrite Eh in Hs. split; [done|].
  revert Eh. unfold Http.get_image. destruct (parsePositiveId _) as [id|]; [|by intros [= <- _]].
  destruct (hs_getImage id s) as [image|] eqn:Ei; [|by intros [= <- _]]. cbv zeta.
  set (stored := if bool_decide (groups !! 1%nat = Some "enhanced") then iv_enhanced_path image else iv_original_path image).
  destruct (is_empty stored) eqn:Ee; [by intros [= <- _]|].
  destruct (fs_canonical files stored) as [candidate|] eqn:Ec; [|by intros [= <- _]].
  destruct (negb (path_isInside candidate _) || _) eqn:Ein; [by intros [= <- _]|].
  apply orb_false_elim in Ein as [Ein Ereg]. apply negb_false_iff in Ein, Ereg. apply path_inside_prefix in Ein as [rest Hrest].
  destruct (fs_file_size files candidate) as [size|] eqn:Esize; [|by intros [= <- _]].
  destruct (Z.ltb_spec (sc_max_image_bytes config) size); [by intros [= <- _]|].
  destruct (fs_read files candidate) as [bytes|] eqn:Er; [|by intros [= <- _]].
  intros [= <- _]. simpl in Hc. injection Hc as <- <-.
  exists id, image, stored, candidate, size, rest. split; [done|]. split; [subst stored; case_bool_decide; auto|].
  split; [by intros Hst; rewrite Hst in Ee|]. by repeat split.
Qed.
End Routes.

(** * The end of the server *)

Definition http_closed (s : HttpServerState) : bool :=
  match s with HttpQuiescing | HttpStopped => true | _ => false end.

Record http_life_ok (l : HttpLife) : Prop := {
  hk_gate : gt_active (hl_gate l) = length (hl_handlers l);
  hk_open : gt_open (hl_gate l) = negb (http_closed (hl_state l));
  hk_stop : match hl_stop l with
            | HttpIdle => True
            | HttpClosing => hl_state l <> HttpStopped
            | HttpListener | HttpDraining => hl_state l = HttpQuiescing
            | HttpJoining | HttpFinishing => hl_state l = HttpQuiescing /\ hl_handlers l = []
            end;
  hk_stopped : hl_state l = HttpStopped -> hl_handlers l = [];
  hk_answers : true ∈ hl_answers l -> hl_state l = HttpStopped
}.

Lemma new_answer (a : bool) l (P : Prop) : true ∈ l ++ [a] -> (true ∈ l -> P) -> (a = true -> P) -> P.
Proof. rewrite elem_of_app, list_elem_of_singleton. naive_solver. Qed.

Lemma http_stop_step_ok timeout join_fails l : http_life_ok l -> http_life_ok (http_stop_step timeout join_fails l).
Proof.
  intros [Hg Ho Hs Hd Ha]. unfold http_stop_step. destruct (hl_stop l) eqn:Es.
  - case_bool_decide as Hst; split; simpl; try done.
  - unfold closeIngressLocked. rewrite bool_decide_eq_false_2 by done. split; simpl; try done. by intros H%Ha.
  - split; simpl; done.
  - destruct (gate_drained (hl_gate l)) eqn:Eg; [|destruct timeout; [|by split; rewrite ?Es]].
    + split; simpl; try done. split; [done|by eapply drained_empty].
    + split; simpl; try done. intros H. by apply (new_answer _ _ _ H).
  - destruct Hs as [Hq He]. destruct (hl_thread l && join_fails); split; simpl; try done. intros H. by apply (new_answer _ _ _ H).
  - destruct Hs as [Hq He]. split; simpl; try done. by rewrite Ho, Hq.
Qed.

Lemma http_life_step_ok l op : http_life_ok l -> http_life_ok (http_life_step l op).
Proof.
  intros Hok. pose proof Hok as [Hg Ho Hs Hd Ha]. destruct op as [c tls valid bound thread| |timeout join_fails|id|i]; simpl.
  - unfold http_start. case_bool_decide as H1; [done|]. case_bool_decide as H2; [|done]. cbn [negb]. cbv zeta.
    destruct (negb (eqb _ _)); [done|].
    all: repeat match goal with |- context [if ?b then _ else _] => destruct b end; try done.
    all: simpl; rewrite H2 in *; split; simpl; try done.
    all: destruct (hl_stop l); try done; naive_solver.
  - unfold http_closeIngress. destruct (hl_stop l) eqn:Es; try done. unfold closeIngressLocked. case_bool_decide as H1; [done|].
    split; simpl; rewrite ?Es; try done. intros H%Ha. done.
  - by apply http_stop_step_ok.
  - unfold http_enter, tryAcquire. destruct (gt_open (hl_gate l)) eqn:Eo; [|done]. simpl.
    split; simpl; try done.
    + rewrite length_app. simpl. lia.
    + destruct (hl_stop l); try done; [destruct Hs as [Hq _]|destruct Hs as [Hq _]]; by rewrite Hq in Ho.
    + intros Hq. by rewrite Hq in Ho.
  - unfold http_leave. destruct (hl_handlers l !! i) as [id|] eqn:Ei; [|done]. pose proof (lookup_lt_Some _ _ _ Ei).
    split; simpl; try done.
    + rewrite Hg, length_delete by done. lia.
    + destruct (hl_stop l); try done; destruct Hs as [Hq He]; by rewrite He in Ei.
    + intros Hq%Hd. by rewrite Hq in Ei.
Qed.

Lemma http_life_run_ok ops l : http_life_ok l -> http_life_ok (http_life_run l ops).
Proof. revert l. induction ops as [|op ops IH]; intros l H; [done|]. apply IH. by apply http_life_step_ok. Qed.

Lemma http_closed_forever ops l :
  http_closed (hl_state l) = true -> http_closed (hl_state (http_life_run l ops)) = true.
Proof.
  revert l. induction ops as [|op ops IH]; intros l H; [done|]. apply IH.
  destruct op as [c tls valid bound thread| |timeout join_fails|id|i]; simpl.
  - unfold http_start. case_bool_decide as H1; [done|]. case_bool_decide as H2; [by rewrite H2 in H|done].
  - unfold http_closeIngress, closeIngressLocked. destruct (hl_stop l); try done. by case_bool_decide.
  - unfold http_stop_step, closeIngressLocked. destruct (hl_stop l); simpl; try done; try (by case_bool_decide).
    + destruct (gate_drained _); [done|]. by destruct timeout.
    + by destruct (hl_thread l && join_fails).
  - unfold http_enter. by destruct (tryAcquire (hl_gate l)).
  - unfold http_leave. by destruct (hl_handlers l !! i).
Qed.

(** The end of the server. Whatever comes in between: once the ingress is closed, no request gets to a handler any more;
    and once a [stop] has answered true, no handler runs, and none ever will. *)
Theorem http_stop_quiet ops1 ops2 :
  let l1 := http_life_run http_new ops1 in
  let l2 := http_life_run l1 ops2 in
  (http_closed (hl_state l1) = true -> forall id, (http_enter id l2).1 = false) /\
  (true ∈ hl_answers l1 -> hl_handlers l2 = [] /\ forall id, (http_enter id l2).1 = false).
Proof.
  cbv zeta. set (l1 := http_life_run http_new ops1). set (l2 := http_life_run l1 ops2).
  assert (H1 : http_life_ok l1) by (apply http_life_run_ok; split; simpl; try done; by intros ?%elem_of_nil).
  assert (H2 : http_life_ok l2) by (by apply http_life_run_ok).
  assert (Hclosed : http_closed (hl_state l1) = true -> forall id, (http_enter id l2).1 = false).
  { intros Hc id. unfold http_enter, tryAcquire. rewrite (hk_open l2 H2).
    pose proof (http_closed_forever ops2 l1 Hc) as E. fold l2 in E. by rewrite E. }
  split; [done|]. intros Hin. pose proof (hk_answers l1 H1 Hin) as Hs.
  assert (Hc : http_closed (hl_state l1) = true) by (by rewrite Hs). split; [|by apply Hclosed].
  clear Hclosed Hc. subst l2. clear H2. revert Hin Hs. generalize dependent l1. clear. intros l1 H1 Hin Hs.
  assert (Hrun : hl_state (http_life_run l1 ops2) = HttpStopped).
  { revert l1 H1 Hin Hs. induction ops2 as [|op ops IH]; intros l1 H1 Hin Hs; [done|].
    assert (Hst : hl_state (http_life_step l1 op) = HttpStopped).
    { pose proof (hk_stop l1 H1) as Hstop. destruct op as [c tls valid bound thread| |timeout join_fails|id|i]; simpl.
      - unfold http_start. rewrite bool_decide_eq_false_2, bool_decide_eq_false_2 by congruence. done.
      - unfold http_closeIngress, closeIngressLocked. destruct (hl_stop l1); try done. by rewrite bool_decide_eq_true_2.
      - unfold http_stop_step. destruct (hl_stop l1); try (by rewrite Hs in Hstop); try (by destruct Hstop; congruence).
        by rewrite bool_decide_eq_true_2.
      - unfold http_enter. by destruct (tryAcquire (hl_gate l1)).
      - unfold http_leave. by destruct (hl_handlers l1 !! i). }
    apply IH; [by apply http_life_step_ok| |done].
    destruct op as [c tls valid bound thread| |timeout join_fails|id|i]; simpl.
    - unfold http_start. rewrite bool_decide_eq_false_2, bool_decide_eq_false_2 by congruence. done.
    - unfold http_closeIngress, closeIngressLocked. destruct (hl_stop l1); try done. by rewrite bool_decide_eq_true_2.
    - unfold http_stop_step, closeIngressLocked. destruct (hl_stop l1); simpl; rewrite ?Hs; simpl; try done;
        repeat (case_match; simpl; try done); rewrite elem_of_app; by left.
    - unfold http_enter. by destruct (tryAcquire (hl_gate l1)).
    - unfold http_leave. by destruct (hl_handlers l1 !! i). }
  by apply (hk_stopped _ (http_life_run_ok ops2 l1 H1)).
Qed.

(** A server that must use TLS is never started in the clear towards the outside. *)
Lemma http_start_secure c tls valid bound thread l l' :
  http_start c tls valid bound thread l = (true, l') -> hl_state l = HttpConstructed -> sc_require_tls c = true ->
  hl_uses_tls l' = true \/ isLoopbackAddress (sc_listen_address c) = true.
Proof.
  unfold http_start. intros H Hc Ht. rewrite Hc, Ht in H. cbn in H.
  destruct (negb (eqb _ _)); [done|]. destruct (is_empty (sc_tls_certificate_path c)); cbn in H.
  - right. by destruct (isLoopbackAddress (sc_listen_address c)).
  - left. destruct (negb tls || negb valid); [done|]. destruct (negb bound); [done|]. destruct (negb thread); [done|].
    by injection H as <-.
Qed.

(** * The login ends *)

(** The steps that a login still takes. *)
Definition login_left (a : LoginAt) : nat :=
  match a with LookingUp => 5 | Creating _ attempt => 4 - Nat.min 2 attempt | Recording | Clearing _ _ => 1 | Answered _ => 0 end.

Lemma login_step_left {SO : Sodium} auth_config dummy random l db rate a db' rate' log :
  login_step auth_config dummy random l db rate = (a, db', rate', log) -> (forall r, lg_at l <> Answered r) ->
  (login_left a < login_left (lg_at l))%nat.
Proof.
  intros H Hn. unfold login_step in H. destruct (lg_at l) as [| |u attempt|u token|r] eqn:Ea; [| | | |by destruct (Hn r)].
  - destruct (findAppUser (lg_account l) db) as [u|]; [|injection H as <- _ _ _; simpl; lia].
    destruct (aur_enabled u && _); injection H as <- _ _ _; cbn [login_left]; lia.
  - injection H as <- _ _ _. simpl. lia.
  - assert (Hnext : (login_left (if (attempt <? 2)%nat then Creating u (S attempt)
                                  else Answered (plain_login LoginUnavailable)) < login_left (Creating u attempt))%nat).
    { destruct (Nat.ltb_spec attempt 2); cbn [login_left]; lia. }
    cbv zeta in H. destruct (tokenDigest (generateToken random)) as [digest|]; [|by injection H as <- _ _ _].
    destruct (createAppSession _ _ _ _ db) as [[] d1]; injection H as <- _ _ _; [cbn [login_left]; lia|done].
  - injection H as <- _ _ _. simpl. lia.
Qed.

(** More steps than that change nothing: [login_loop] in [server_login] ends with the answer of the login. *)
Lemma login_fuel_enough {SO : Sodium} auth_config dummy o fuel : forall l db rate,
  (login_left (lg_at l) <= fuel)%nat ->
  exists r db' rate', login_loop auth_config dummy o fuel l db rate = (r, db', rate') /\
    ((exists log, lg_at l = Answered r \/ exists random l1 db1 rate1,
       login_step auth_config dummy random l1 db1 rate1 = (Answered r, db', rate', log))).
Proof.
  induction fuel as [|fuel IH]; intros l db rate Hl; cbn [login_loop].
  - destruct (lg_at l) as [| |u attempt|u token|r] eqn:Ea; cbn [login_left] in Hl; try lia.
    exists r, db, rate. split; [done|]. exists []. by left.
  - destruct (lg_at l) as [| |u attempt|u token|r] eqn:Ea.
    5:{ exists r, db, rate. split; [done|]. exists []. by left. }
    all: destruct (login_step auth_config dummy (so_random o fuel) l db rate) as [[[a db1] rate1] log] eqn:Es.
    all: assert (Hlt := login_step_left _ _ _ _ _ _ _ _ _ _ Es); rewrite Ea in Hlt.
    all: specialize (Hlt ltac:(done)).
    all: destruct (IH (login_at l a) db1 rate1) as (r & db2 & rate2 & E & log2 & H);
      [change (lg_at (login_at l a)) with a; lia|].
    all: exists r, db2, rate2; split; [done|].
    all: destruct H as [H|H]; [|exists log2; by right].
    all: change (lg_at (login_at l a)) with a in H; subst a.
    all: assert (Hstop : login_loop auth_config dummy o fuel (login_at l (Answered r)) db1 rate1 = (r, db1, rate1))
      by (by destruct fuel).
    all: rewrite Hstop in E; injection E as <- <-; exists log; right; by exists (so_random o fuel), l, db, rate.
Qed.

(** * A server *)

Module HttpDemo.
Fixpoint chars (n : nat) (c : ascii) : string := match n with O => "" | S n => String c (chars n c) end.
#[local] Instance demo_sodium : Sodium :=
  {| pwhash_str := fun _ password => Some ("hash of " +:+ password);
     pwhash_str_verify := fun hash password => String.eqb hash ("hash of " +:+ password);
     bin2base64 := fun raw => String (ascii_of_nat (Z.to_nat (hd 0 raw))) (chars 42 "A");
     base642bin := fun text =>
       match text with
       | String c _ => Some (Z.of_nat (nat_of_ascii c) :: replicate 31 0, String.length text)
       | EmptyString => None
       end;
     sha256 := fun raw => raw |}.
Definition auth_config := mkAuthConfig 36000 300 3 60.
Definition login_json : json := JObject [("accountId", JString "alice"); ("password", JString "secret")].
#[local] Instance demo_json : JsonLibrary := {|
  json_parse := fun text => if bool_decide (text = "LOGIN") then Ok login_json else Err "parse error";
  json_dump := fun _ => ""; json_eqb := fun _ _ => false; json_float_to_int := fun _ => 0
|}.
Definition picture := mkImageView 5 11 "data/p.jpg" "" "" "" "" "" None 0.
Definition outside := mkServerOutside 1000 (mkInstant 0 0) "now" (fun _ => 77 :: replicate 31 0) false
  (fun _ => None) (fun _ => "") (fun _ => "") (fun _ => Some []) (fun _ _ => Some [picture])
  (fun _ id => if id =? 5 then Some picture else None).
#[local] Instance demo_services : HttpServices ServerState := server_services auth_config "hash of nobody" outside.
Definition db := mkParkingDb true ∅ {["A1" := "VACANT"]} ∅ 0 [] [] ∅.
Definition accounts : AuthDb :=
  (createAppUser "alice" "hash of secret" "Alice" 900 (mkAuthDb true true ∅ ∅)).2.
Definition start : ServerState :=
  mkServerState accounts ∅ (mkRoiSettings ["A1"] ∅ ∅)
    (mkRuntime (mkThresholdState 3600 3600 1 true true) (mkEvidenceState 600000 2 [] ∅ ∅ false false 0 1 None JobFree)
       (overstay_start db 3600000)).
Definition config := mkServerConfig "127.0.0.1" 8080 "" "" "data" 1000 true.
Definition disk := mkFileSystem (Some ["/"; "srv"; "data"])
  (fun p => if bool_decide (p = "data/p.jpg") then Some ["/"; "srv"; "data"; "p.jpg"] else None)
  (fun _ => true) (fun _ => Some 4) (fun _ => Some "JPEG").
Definition ask (files : FileSystem) (r : Request) (s : ServerState) : Response * ServerState :=
  dispatch (fun _ => None) (fun _ => JNull) config files true true true r s.
Definition login_request := mkRequest Post "/api/v1/auth/login" [("Content-Type", "application/json")] "LOGIN" "10.0.0.7".
Definition logged_in := ask disk login_request start.
Definition token : string := "Bearer " +:+ String "M" (chars 42 "A").
Definition picture_request (headers : list (string * string)) :=
  mkRequest Get "/api/v1/images/5/original" headers "" "10.0.0.7".
Definition answered := ask disk (picture_request [("authorization", token)]) logged_in.2.
Definition unasked := ask disk (picture_request []) logged_in.2.
Definition doubled := ask disk (picture_request [("Authorization", token); ("authorization", token)]) logged_in.2.

Example demo_answers :
  rs_status logged_in.1 = 200 /\ answered.1 = mkResponse 200 (CFile "image/jpeg" "JPEG") [] /\
  unasked.1 = authentication_required /\ doubled.1 = authentication_required.
Proof. vm_compute. repeat split. Qed.

(** When the path of the data directory cannot be resolved, every path of the image log is inside of it. *)
Definition broken_disk := mkFileSystem None (fun _ => Some ["/"; "etc"; "passwd"]) (fun _ => true) (fun _ => Some 4)
  (fun _ => Some "root").
Example outside_file_served :
  (ask broken_disk (picture_request [("authorization", token)]) logged_in.2).1 =
  mkResponse 200 (CFile "image/jpeg" "root") [].
Proof. vm_compute. reflexivity. Qed.
(** The answer for a slot that is not there is replaced by that for a route that is not there. *)
Example slot_not_found_replaced :
  (ask disk (mkRequest Get "/api/v1/parking-slots/Z9" [("authorization", token)] "" "") logged_in.2).1 =
  sendError 404 "ENDPOINT_NOT_FOUND" "API 경로를 찾을 수 없습니다.".
Proof. vm_compute. reflexivity. Qed.
End HttpDemo.

#[local] Notation demo_dispatch := (dispatch (HS := HttpDemo.demo_services) (JL := HttpDemo.demo_json) (fun _ => None)
  (fun _ => JNull) HttpDemo.config HttpDemo.disk true true true).
#[local] Notation with_token := (HttpDemo.picture_request [("authorization", HttpDemo.token)]).
#[local] Notation without_token := (HttpDemo.picture_request []).

Theorem http_guarded_witness :
  rs_status HttpDemo.answered.1 = 200 /\
  authorised (HS := HttpDemo.demo_services) with_token HttpDemo.logged_in.2 = true /\
  HttpDemo.unasked.1 = authentication_required.
Proof.
  assert (H200 : rs_status HttpDemo.answered.1 = 200) by (vm_compute; reflexivity).
  assert (E1 : demo_dispatch with_token HttpDemo.logged_in.2 = (HttpDemo.answered.1, HttpDemo.answered.2))
    by (unfold HttpDemo.answered, HttpDemo.ask; apply surjective_pairing).
  assert (E2 : demo_dispatch without_token HttpDemo.logged_in.2 = (HttpDemo.unasked.1, HttpDemo.unasked.2))
    by (unfold HttpDemo.unasked, HttpDemo.ask; apply surjective_pairing).
  destruct (http_guarded _ _ _ _ _ _ _ _ _ _ _ E1) as ([_ H] & _); [right; rewrite H200; lia|].
  destruct (http_guarded _ _ _ _ _ _ _ _ _ _ _ E2) as (_ & _ & Hno).
  assert (Hun : authorised (HS := HttpDemo.demo_services) without_token HttpDemo.logged_in.2 = false)
    by (vm_compute; reflexivity).
  split; [exact H200|]. split.
  { destruct H as [H|[[H _]|[H _]]]; [exact H|vm_compute in H; discriminate|vm_compute in H; discriminate]. }
  eapply (proj1 (Hno eq_refl Hun (mkRoute Get _ true _) _ eq_refl eq_refl)).
Defined.

Theorem image_confined_witness :
  exists id image, hs_getImage (HttpServices := HttpDemo.demo_services) id HttpDemo.logged_in.2 = Some image /\
    rs_content HttpDemo.answered.1 = CFile "image/jpeg" "JPEG".
Proof.
  assert (Hc : rs_content HttpDemo.answered.1 = CFile "image/jpeg" "JPEG") by (vm_compute; reflexivity).
  assert (E1 : demo_dispatch with_token HttpDemo.logged_in.2 = (HttpDemo.answered.1, HttpDemo.answered.2))
    by (unfold HttpDemo.answered, HttpDemo.ask; apply surjective_pairing).
  destruct (image_confined _ _ _ _ _ _ _ _ _ _ _ _ _ E1 Hc) as (_ & _ & id & image & _ & _ & _ & _ & Hi & _).
  exists id, image. split; [exact Hi|exact Hc].
Defined.
