(* ===== verification/Config.v ===== *)
(** The configuration of the server ([src/app/AppConfig.cpp]): every setting comes from the environment, some also from
    the files .env.public and .env.private, and has a default. The settings are read once, before anything else runs.

    Shown: whatever environment and files hold, the settings that the code limits are within their limits, and the
    channels and areas have the names the rest of the server relies on; a file that is written as KEY='VALUE' lines is
    read back; a relative path stays below the root of the installation. *)
From S2P Require Import Prelude SensorProtocol OccupancyDb TimeText DeadlineQueue ParkingDb Doubles Threshold Correlation BestShot.

(** * Data *)

(** [include/app/AppConfig.hpp:34-64 AppConfig] The inputs: brokers, sensor link, occupancy. *)
Record InputConfig := mkInputConfig {
  cf_camera_id : string;
  cf_mqtt_host : string;
  cf_mqtt_port : Z;
  cf_mqtt_event_sub_topic : string;
  cf_qt_event_topic_prefix : string;
  cf_default_channel_id : string;
  cf_hall_mqtt_input_enabled : bool;
  cf_hall_mqtt_topic : string;
  cf_parking_slot_config_path : string;
  cf_sensor_link_mode : string;
  cf_sensor_uart_device : string;
  cf_sensor_uart_baud_rate : Z;
  cf_sensor_uart_read_timeout_ms : Z;
  cf_sensor_uart_reconnect_ms : Z;
  cf_parking_occupancy_confirm_ms : Z;
  cf_parking_occupancy_source : string;
  cf_camera_iva_event_source : string;
  cf_camera_onvif_event_url : string;
  cf_camera_iva_exit_confirm_ms : Z
}.

(** [include/app/AppConfig.hpp:66-102 AppConfig] Captures, the plate light and the snapshot API of the cameras. *)
Record CaptureConfig := mkCaptureConfig {
  cf_capture_sched_enabled : bool;
  cf_capture_topic_prefix : string;
  cf_capture_response_timeout_ms : Z;
  cf_capture_retry_interval_ms : Z;
  cf_capture_max_retries : Z;
  cf_hall_capture_ocr_enabled : bool;
  cf_capture_offsets_sec : string;
  cf_capture_ocr_max_attempts : Z;
  cf_plate_led_enabled : bool;
  cf_plate_led_night_start_hour : Z;
  cf_plate_led_night_end_hour : Z;
  cf_plate_led_settle_ms : Z;
  cf_camera_snapshot_api_enabled : bool;
  cf_camera_snapshot_api_rtsp_fallback : bool;
  cf_camera_open_api_base : string;
  cf_camera_image_base : string;
  cf_camera_api_username : string;
  cf_camera_api_password : string;
  cf_camera_image_server_port : Z;
  cf_camera_snapshot_connect_timeout_ms : Z;
  cf_camera_snapshot_request_timeout_ms : Z;
  cf_camera_snapshot_jpeg_timeout_ms : Z;
  cf_camera_snapshot_max_retries : Z;
  cf_camera_snapshot_retry_delay_ms : Z;
  cf_bestshot_enabled : bool
}.

(** [include/app/AppConfig.hpp:104-138 AppConfig] The entrance, retention, plate matching and the EV worker. *)
Record EntranceConfig := mkEntranceConfig {
  cf_entrance_enabled : bool;
  cf_entrance_camera_id : string;
  cf_entrance_source_channel_id : string;
  cf_entrance_channel_id : string;
  cf_entrance_output_root : string;
  cf_entrance_object_ttl_seconds : Z;
  cf_entrance_pending_capacity : Z;
  cf_entrance_image_dedup_window_seconds : Z;
  cf_entrance_image_dedup_phash_threshold : Z;
  cf_entrance_delete_artifacts_on_success : bool;
  cf_entrance_failure_retention_hours : Z;
  cf_occupancy_inbox_retention_days : Z;
  cf_entrance_plate_match_window_minutes : Z;
  cf_entrance_plate_match_min_confidence : double;
  cf_entrance_ev_analysis_enabled : bool;
  cf_entrance_ev_python : string;
  cf_entrance_ev_worker_script : string;
  cf_entrance_ev_model_bundle : string;
  cf_entrance_ev_template_cache : string;
  cf_entrance_ev_thresholds : string;
  cf_entrance_ev_timeout_ms : Z;
  cf_entrance_ev_queue_capacity : Z;
  cf_entrance_ev_opencv_threads : Z
}.

(** [include/app/AppConfig.hpp:140-162 AppConfig] Fire alarm, hall sensors, parking alerts. *)
Record AlarmConfig := mkAlarmConfig {
  cf_fire_alarm_enabled : bool;
  cf_fire_uart_device : string;
  cf_fire_uart_baud : Z;
  cf_fire_uart_reopen_delay_ms : Z;
  cf_fire_topic_prefix : string;
  cf_fire_command_topic_prefix : string;
  cf_fire_sensor_channel_map : string;
  cf_parking_hall_enabled : bool;
  cf_parking_slots_config_path : string;
  cf_parking_hall_work_queue_capacity : Z;
  cf_parking_alert_driver_enabled : bool;
  cf_parking_alert_device_path : string;
  cf_parking_alert_slot_map : string
}.

(** [include/app/AppConfig.hpp:164-190 AppConfig] Paths, recognition, streams, notifications. *)
Record ServiceConfig := mkServiceConfig {
  cf_snapshot_dir : string;
  cf_db_path : string;
  cf_gemini_api_key : string;
  cf_gemini_model : string;
  cf_gemini_fallback_model : string;
  cf_plate_preprocess_mode : string;
  cf_preview_width : Z;
  cf_preview_height : Z;
  cf_rtsp_retry_delay_ms : Z;
  cf_empty_frame_delay_ms : Z;
  cf_initial_frame_timeout_sec : Z;
  cf_snapshot_frame_wait_ms : Z;
  cf_max_consecutive_read_failures : Z;
  cf_bestshot_correlation_window_ms : Z;
  cf_iva_duplicate_suppression_ms : Z;
  cf_gemini_connect_timeout_sec : Z;
  cf_gemini_request_timeout_sec : Z;
  cf_telegram_enabled : bool;
  cf_telegram_bot_token : string;
  cf_telegram_channel : string;
  cf_telegram_connect_timeout_ms : Z;
  cf_telegram_request_timeout_ms : Z;
  cf_telegram_retry_count : Z;
  cf_telegram_retry_delay_ms : Z;
  cf_telegram_queue_capacity : Z
}.

(** [include/app/AppConfig.hpp:192-209 AppConfig] Timer, HTTP and accounts. *)
Record ApiConfig := mkApiConfig {
  cf_parking_timer_enabled : bool;
  cf_parking_overstay_threshold_seconds : Z;
  cf_http_api_enabled : bool;
  cf_http_listen_address : string;
  cf_http_port : Z;
  cf_http_tls_certificate_path : string;
  cf_http_tls_private_key_path : string;
  cf_http_data_root : string;
  cf_http_max_image_mb : Z;
  cf_http_require_tls : bool;
  cf_auth_session_ttl_seconds : Z;
  cf_auth_login_window_seconds : Z;
  cf_auth_login_max_failures : Z;
  cf_auth_login_cooldown_seconds : Z
}.

(** [include/app/AppConfig.hpp:8-12 RtspChannelConfig] *)
Record RtspChannelConfig := mkRtspChannelConfig { rc_channel_id : string; rc_rtsp_url : string }.

(** [include/app/AppConfig.hpp:14-30 IvaAreaConfig] What the resolver of Iva reads of it is its [IvaAreaConfig]. *)
Record AreaSettings := mkAreaSettings {
  ia_slot_id : string;
  ia_area_name : string;
  ia_channel_id : string;
  ia_roi_x : double;
  ia_roi_y : double;
  ia_roi_width : double;
  ia_roi_height : double;
  ia_snapshot_api_channel : Z;
  ia_roi_configured : bool
}.

(** [include/app/AppConfig.hpp:32-215 AppConfig] The members in groups, in the order of the source. *)
Record AppConfig := mkAppConfig {
  cf_inputs : InputConfig;
  cf_capture : CaptureConfig;
  cf_entrance : EntranceConfig;
  cf_alarm : AlarmConfig;
  cf_services : ServiceConfig;
  cf_api : ApiConfig;
  cf_rtsp_channels : list RtspChannelConfig;
  cf_iva_areas : list AreaSettings
}.

(** * Texts and paths *)

(** [find_first_not_of] and [find_last_not_of] with the characters of the function below. *)
Definition setting_space (c : ascii) : bool :=
  bool_decide (c = " "%char) || bool_decide (c = "009"%char) || bool_decide (c = "013"%char) || bool_decide (c = "010"%char).
Fixpoint skip_space (s : string) : string :=
  match s with
  | String c s' => if setting_space c then skip_space s' else s
  | EmptyString => EmptyString
  end.
Fixpoint skip_space_end (s : string) : string :=
  match s with
  | EmptyString => EmptyString
  | String c s' =>
      match skip_space_end s' with
      | EmptyString => if setting_space c then EmptyString else String c EmptyString
      | r => String c r
      end
  end.

(** [src/app/AppConfig.cpp:40-45 trim] *)
Definition setting_trim (value : string) : string := skip_space_end (skip_space value).

(** std::clamp, on int and on double; a NaN is neither below nor above. *)
Definition clamp (v lo hi : Z) : Z := if v <? lo then lo else if hi <? v then hi else v.
Definition clamp_double (v lo hi : double) : double := if d_lt v lo then lo else if d_lt hi v then hi else v.

(** std::filesystem::path on POSIX: is_absolute, operator/ with a relative right side ([path_join] of BestShot), and
    lexically_normal. *)
Definition is_absolute (path : string) : bool := match path with String c _ => bool_decide (c = "/"%char) | _ => false end.
(** The components so far, the last one first. *)
Definition normal_component (absolute : bool) (kept : list string) (c : string) : list string :=
  if bool_decide (c = "" \/ c = ".") then kept else
  if bool_decide (c = "..") then
    match kept with
    | k :: rest => if bool_decide (k = "..") then ".." :: kept else rest
    | [] => if absolute then [] else [".."]
    end
  else c :: kept.
Definition lexically_normal (path : string) : string :=
  if is_empty path then "" else
  let components := getline_fields "/" path in
  let kept := foldl (normal_component (is_absolute path)) [] components in
  let name := default "" (last components) in
  let directory := ends_with_slash path || bool_decide (name = "." \/ name = "..") in
  let result :=
    (if is_absolute path then "/" else "") +:+ String.concat "/" (rev kept) +:+
    (if directory && match kept with [] => false | k :: _ => negb (bool_decide (k = "..")) end then "/" else "") in
  if is_empty result then "." else result.

(** * Reading a setting *)

Section Load.
(** getenv; the text of a file, if it can be opened; std::stod, [None]: it throws. *)
Variables (getenv : string -> option string) (read_file : string -> option string) (stod : string -> option double).

(** [src/app/AppConfig.cpp:13-21 getEnvOrDefault] *)
Definition getEnvOrDefault (key default_value : string) : string :=
  match getenv key with
  | None => default_value
  | Some value => if is_empty value then default_value else value
  end.

(** [src/app/AppConfig.cpp:23-32 resolveProjectPath] The path that is configured, below the root. *)
Definition resolve_configured (configured : string) : string :=
  if is_empty configured || is_absolute configured then configured else
  let root := getEnvOrDefault "PI_SERVER_ROOT" "" in
  if is_empty root then configured else lexically_normal (path_join root configured).
Definition resolveProjectPath (key default_value : string) : string :=
  resolve_configured (getEnvOrDefault key default_value).

(** [src/app/AppConfig.cpp:34-38 localSettingPath] *)
Definition localSettingPath (file_name : string) : string :=
  let env_dir := getEnvOrDefault "PI_SERVER_ENV_DIR" "" in
  if is_empty env_dir then file_name else path_join env_dir file_name.

(** The quotes around a value: two of the same kind. *)
Fixpoint drop_last (s : string) : string :=
  match s with
  | EmptyString => EmptyString
  | String c EmptyString => EmptyString
  | String c s' => String c (drop_last s')
  end.
Fixpoint last_char (s : string) : option ascii :=
  match s with
  | EmptyString => None
  | String c EmptyString => Some c
  | String _ s' => last_char s'
  end.
Definition double_quote : ascii := "034"%char.
(** [src/app/AppConfig.cpp:66-69 getEnvOrLocalSetting] *)
Definition unquote (value : string) : string :=
  match value with
  | String q (String _ _ as rest) =>
      if (bool_decide (q = "'"%char) || bool_decide (q = double_quote)) && bool_decide (last_char rest = Some q)
      then drop_last rest else value
  | _ => value
  end.

(** [src/app/AppConfig.cpp:58-71 getEnvOrLocalSetting] One line: [None] goes on with the next one. *)
Definition setting_line (key default_value line : string) : option string :=
  let line := setting_trim line in
  match line with
  | EmptyString => None
  | String c _ =>
      if bool_decide (c = "#"%char) then None else
      let line := if String.prefix "export " line then setting_trim (substring 7 (String.length line) line) else line in
      match break_on "=" line with
      | None => None
      | Some (name, rest) =>
          if negb (bool_decide (setting_trim name = key)) then None else
          let value := unquote (setting_trim rest) in
          Some (if is_empty value then default_value else value)
      end
  end.
Fixpoint first_setting (key default_value : string) (lines : list string) : string :=
  match lines with
  | [] => default_value
  | line :: lines =>
      match setting_line key default_value line with
      | Some value => value
      | None => first_setting key default_value lines
      end
  end.

(** [src/app/AppConfig.cpp:50-73 getEnvOrLocalSetting] A file that cannot be opened has no line. *)
Definition getEnvOrLocalSetting (key default_value path : string) : string :=
  let environment := getEnvOrDefault key "" in
  if negb (is_empty environment) then environment else
  first_setting key default_value (getline_fields "010" (default "" (read_file path))).

(** [src/app/AppConfig.cpp:75-85 resolveProjectLocalPath] *)
Definition resolveProjectLocalPath (key default_value settings_path : string) : string :=
  resolve_configured (getEnvOrLocalSetting key default_value settings_path).

(** std::stoi with both exceptions caught. *)
Definition stoi_or (value : string) (default_value : Z) : Z :=
  match stoi_rest value with Some (v, _) => v | None => default_value end.

(** [src/app/AppConfig.cpp:87-99 getEnvIntOrDefault] *)
Definition getEnvIntOrDefault (key : string) (default_value : Z) : Z :=
  match getenv key with
  | None => default_value
  | Some value => if is_empty value then default_value else stoi_or value default_value
  end.

Definition bool_text (b : bool) : string := if b then "true" else "false".
Definition parse_bool (value : string) (default_value : bool) : bool :=
  if bool_decide (value ∈ ["1"; "true"; "TRUE"; "on"]) then true else
  if bool_decide (value ∈ ["0"; "false"; "FALSE"; "off"]) then false else default_value.

(** [src/app/AppConfig.cpp:101-106 getEnvBoolOrDefault] *)
Definition getEnvBoolOrDefault (key : string) (default_value : bool) : bool :=
  parse_bool (setting_trim (getEnvOrDefault key (bool_text default_value))) default_value.

(** [src/app/AppConfig.cpp:108-116 getEnvOrLocalBoolOrDefault] *)
Definition getEnvOrLocalBoolOrDefault (key : string) (default_value : bool) (path : string) : bool :=
  parse_bool (setting_trim (getEnvOrLocalSetting key (bool_text default_value) path)) default_value.

(** [src/app/AppConfig.cpp:118-128 getEnvOrLocalIntOrDefault] *)
Definition getEnvOrLocalIntOrDefault (key : string) (default_value : Z) (path : string) : Z :=
  let value := getEnvOrLocalSetting key "" path in
  if is_empty value then default_value else stoi_or value default_value.

(** [src/app/AppConfig.cpp:130-137 parseDoubleOrDefault] *)
Definition parseDoubleOrDefault (value : string) (default_value : double) : double :=
  if is_empty value then default_value else default default_value (stod value).

(** * The settings *)

(** [src/app/AppConfig.cpp:172-197 AppConfig::loadFromEnv] A choice between names, in capitals; the first one otherwise. *)
Definition choose (value : string) (names : list string) : string :=
  let value := smap toupper value in
  if bool_decide (value ∈ names) then value else default "" (head names).

#[local] Notation public := (localSettingPath ".env.public").
#[local] Notation private := (localSettingPath ".env.private").

(** [src/app/AppConfig.cpp:144-200 AppConfig::loadFromEnv] *)
Definition load_inputs : InputConfig := {|
  cf_camera_id := getEnvOrDefault "CAMERA_ID" "cam01";
  cf_mqtt_host := getEnvOrDefault "MQTT_HOST" "localhost";
  cf_mqtt_port := getEnvIntOrDefault "MQTT_PORT" 1883;
  cf_mqtt_event_sub_topic := getEnvOrDefault "CAMERA_EVENT_SUB_TOPIC" "+/onvif-ej/#";
  cf_qt_event_topic_prefix := getEnvOrDefault "QT_EVENT_TOPIC_PREFIX" "parking/camera";
  cf_default_channel_id := getEnvOrDefault "DEFAULT_CHANNEL_ID" "ch01";
  cf_hall_mqtt_input_enabled := getEnvBoolOrDefault "HALL_MQTT_INPUT_ENABLED" true;
  cf_hall_mqtt_topic := getEnvOrDefault "HALL_MQTT_TOPIC" "parking/sensor/hall";
  cf_parking_slot_config_path :=
    resolveProjectPath "PARKING_SLOT_CONFIG" (getEnvOrDefault "PARKING_SLOTS_CONFIG" "config/parking_slots.json");
  cf_sensor_link_mode := getEnvOrDefault "SENSOR_LINK_MODE" "off";
  cf_sensor_uart_device := getEnvOrDefault "SENSOR_UART_DEVICE" "/dev/ttyAMA0";
  cf_sensor_uart_baud_rate := getEnvIntOrDefault "SENSOR_UART_BAUD" 115200;
  cf_sensor_uart_read_timeout_ms := Z.max 1 (getEnvIntOrDefault "SENSOR_UART_READ_TIMEOUT_MS" 250);
  cf_sensor_uart_reconnect_ms := Z.max 1 (getEnvIntOrDefault "SENSOR_UART_RECONNECT_MS" 1000);
  cf_parking_occupancy_confirm_ms := Z.max 0 (getEnvIntOrDefault "PARKING_OCCUPANCY_CONFIRM_MS" 5000);
  cf_parking_occupancy_source :=
    choose (getEnvOrDefault "PARKING_OCCUPANCY_SOURCE" "HALL") ["HALL"; "CAMERA_IVA"; "HYBRID_OR"];
  cf_camera_iva_event_source := choose (getEnvOrLocalSetting "CAMERA_IVA_EVENT_SOURCE" "MQTT" public) ["MQTT"; "ONVIF"];
  cf_camera_onvif_event_url := getEnvOrLocalSetting "CAMERA_ONVIF_EVENT_URL" "" private;
  cf_camera_iva_exit_confirm_ms := clamp (getEnvIntOrDefault "CAMERA_IVA_EXIT_CONFIRM_MS" 10000) 1000 60000
|}.

(** [src/app/AppConfig.cpp:201-252 AppConfig::loadFromEnv] *)
Definition load_capture : CaptureConfig := {|
  cf_capture_sched_enabled := getEnvBoolOrDefault "CAPTURE_SCHED_ENABLED" false;
  cf_capture_topic_prefix := getEnvOrDefault "CAPTURE_TOPIC_PREFIX" "parking/capture";
  cf_capture_response_timeout_ms := Z.max 1 (getEnvIntOrDefault "CAPTURE_RESPONSE_TIMEOUT_MS" 3000);
  cf_capture_retry_interval_ms := Z.max 1 (getEnvIntOrDefault "CAPTURE_RETRY_INTERVAL_MS" 2000);
  cf_capture_max_retries := Z.max 0 (getEnvIntOrDefault "CAPTURE_MAX_RETRIES" 2);
  cf_hall_capture_ocr_enabled := getEnvBoolOrDefault "HALL_CAPTURE_OCR_ENABLED" true;
  cf_capture_offsets_sec := getEnvOrDefault "CAPTURE_OFFSETS_SEC" "30,60";
  cf_capture_ocr_max_attempts := clamp (getEnvIntOrDefault "CAPTURE_OCR_MAX_ATTEMPTS" 2) 1 2;
  cf_plate_led_enabled := getEnvBoolOrDefault "PLATE_LED_ENABLED" false;
  cf_plate_led_night_start_hour := clamp (getEnvIntOrDefault "PLATE_LED_NIGHT_START_HOUR" 19) 0 23;
  cf_plate_led_night_end_hour := clamp (getEnvIntOrDefault "PLATE_LED_NIGHT_END_HOUR" 6) 0 23;
  cf_plate_led_settle_ms := clamp (getEnvIntOrDefault "PLATE_LED_SETTLE_MS" 200) 0 2000;
  cf_camera_snapshot_api_enabled := getEnvBoolOrDefault "CAMERA_SNAPSHOT_API_ENABLED" false;
  cf_camera_snapshot_api_rtsp_fallback := getEnvBoolOrDefault "CAMERA_SNAPSHOT_API_RTSP_FALLBACK" false;
  cf_camera_open_api_base := getEnvOrLocalSetting "CAMERA_OPEN_API_BASE" "" private;
  cf_camera_image_base := getEnvOrLocalSetting "CAMERA_IMAGE_BASE" "" private;
  cf_camera_api_username := getEnvOrLocalSetting "CAMERA_API_USERNAME" "" private;
  cf_camera_api_password := getEnvOrLocalSetting "CAMERA_API_PASSWORD" "" private;
  cf_camera_image_server_port := clamp (getEnvIntOrDefault "CAMERA_IMAGE_SERVER_PORT" 8080) 1024 65535;
  cf_camera_snapshot_connect_timeout_ms := Z.max 1 (getEnvIntOrDefault "CAMERA_SNAPSHOT_CONNECT_TIMEOUT_MS" 3000);
  cf_camera_snapshot_request_timeout_ms := Z.max 1 (getEnvIntOrDefault "CAMERA_SNAPSHOT_REQUEST_TIMEOUT_MS" 30000);
  cf_camera_snapshot_jpeg_timeout_ms := Z.max 1 (getEnvIntOrDefault "CAMERA_SNAPSHOT_JPEG_TIMEOUT_MS" 10000);
  cf_camera_snapshot_max_retries := clamp (getEnvIntOrDefault "CAMERA_SNAPSHOT_MAX_RETRIES" 2) 0 5;
  cf_camera_snapshot_retry_delay_ms := Z.max 1 (getEnvIntOrDefault "CAMERA_SNAPSHOT_RETRY_DELAY_MS" 250);
  cf_bestshot_enabled := getEnvBoolOrDefault "BESTSHOT_ENABLED" false
|}.

(** [src/app/AppConfig.cpp:253-334 AppConfig::loadFromEnv] *)
Definition load_entrance : EntranceConfig := {|
  cf_entrance_enabled := getEnvOrLocalBoolOrDefault "ENTRANCE_ENABLED" false public;
  cf_entrance_camera_id := getEnvOrLocalSetting "ENTRANCE_CAMERA_ID" (cf_camera_id load_inputs) public;
  cf_entrance_source_channel_id := getEnvOrLocalSetting "ENTRANCE_SOURCE_CHANNEL_ID" "ch02" public;
  cf_entrance_channel_id := getEnvOrLocalSetting "ENTRANCE_CHANNEL_ID" "ch02" public;
  cf_entrance_output_root := resolveProjectPath "ENTRANCE_OUTPUT_ROOT" "data/entrance";
  cf_entrance_object_ttl_seconds := clamp (getEnvOrLocalIntOrDefault "ENTRANCE_OBJECT_TTL_SECONDS" 60 public) 5 3600;
  cf_entrance_pending_capacity := clamp (getEnvOrLocalIntOrDefault "ENTRANCE_PENDING_CAPACITY" 64 public) 1 4096;
  cf_entrance_image_dedup_window_seconds :=
    clamp (getEnvOrLocalIntOrDefault "ENTRANCE_IMAGE_DEDUP_WINDOW_SECONDS" 20 public) 1 300;
  cf_entrance_image_dedup_phash_threshold :=
    clamp (getEnvOrLocalIntOrDefault "ENTRANCE_IMAGE_DEDUP_PHASH_THRESHOLD" 10 public) 0 64;
  cf_entrance_delete_artifacts_on_success := getEnvOrLocalBoolOrDefault "ENTRANCE_DELETE_ARTIFACTS_ON_SUCCESS" true public;
  cf_entrance_failure_retention_hours :=
    clamp (getEnvOrLocalIntOrDefault "ENTRANCE_FAILURE_RETENTION_HOURS" 24 public) 1 168;
  cf_occupancy_inbox_retention_days := clamp (getEnvOrLocalIntOrDefault "OCCUPANCY_INBOX_RETENTION_DAYS" 30 public) 1 365;
  cf_entrance_plate_match_window_minutes :=
    clamp (getEnvOrLocalIntOrDefault "ENTRANCE_PLATE_MATCH_WINDOW_MINUTES" 30 public) 1 180;
  cf_entrance_plate_match_min_confidence :=
    clamp_double (parseDoubleOrDefault (getEnvOrLocalSetting "ENTRANCE_PLATE_MATCH_MIN_CONFIDENCE" "0.85" public)
      (d_literal 85 2)) (d_literal 5 1) d_one;
  cf_entrance_ev_analysis_enabled := getEnvOrLocalBoolOrDefault "ENTRANCE_EV_ANALYSIS_ENABLED" false public;
  cf_entrance_ev_python := getEnvOrLocalSetting "ENTRANCE_EV_PYTHON" "/usr/bin/python3" public;
  cf_entrance_ev_worker_script :=
    resolveProjectLocalPath "ENTRANCE_EV_WORKER_SCRIPT" "tools/cv/low_quality_presence_v1/runtime/pi_worker.py" public;
  cf_entrance_ev_model_bundle :=
    resolveProjectLocalPath "ENTRANCE_EV_MODEL_BUNDLE" "tools/cv/low_quality_presence_v1/model_bundle" public;
  cf_entrance_ev_template_cache :=
    resolveProjectLocalPath "ENTRANCE_EV_TEMPLATE_CACHE" "tools/cv/low_quality_presence_v1/model_bundle/runtime_template_cache.json" public;
  cf_entrance_ev_thresholds :=
    resolveProjectLocalPath "ENTRANCE_EV_THRESHOLDS" "tools/cv/low_quality_presence_v1/model_bundle/default_thresholds.json" public;
  cf_entrance_ev_timeout_ms := clamp (getEnvOrLocalIntOrDefault "ENTRANCE_EV_TIMEOUT_MS" 5000 public) 500 30000;
  cf_entrance_ev_queue_capacity := clamp (getEnvOrLocalIntOrDefault "ENTRANCE_EV_QUEUE_CAPACITY" 16 public) 1 256;
  cf_entrance_ev_opencv_threads := clamp (getEnvOrLocalIntOrDefault "ENTRANCE_EV_OPENCV_THREADS" 1 public) 1 4
|}.

(** [src/app/AppConfig.cpp:336-362 AppConfig::loadFromEnv] *)
Definition load_alarm : AlarmConfig := {|
  cf_fire_alarm_enabled := getEnvBoolOrDefault "FIRE_ALARM_ENABLED" false;
  cf_fire_uart_device := getEnvOrDefault "FIRE_UART_DEVICE" "/dev/ttyAMA0";
  cf_fire_uart_baud := getEnvIntOrDefault "FIRE_UART_BAUD" 115200;
  cf_fire_uart_reopen_delay_ms := getEnvIntOrDefault "FIRE_UART_REOPEN_DELAY_MS" 2000;
  cf_fire_topic_prefix := getEnvOrDefault "FIRE_TOPIC_PREFIX" "parking/fire";
  cf_fire_command_topic_prefix := getEnvOrDefault "FIRE_COMMAND_TOPIC_PREFIX" "parking/v1/commands/fire";
  cf_fire_sensor_channel_map := getEnvOrDefault "FIRE_SENSOR_CHANNEL_MAP" "";
  cf_parking_hall_enabled := getEnvBoolOrDefault "PARKING_HALL_ENABLED" false;
  cf_parking_slots_config_path := cf_parking_slot_config_path load_inputs;
  cf_parking_hall_work_queue_capacity := Z.max 1 (getEnvIntOrDefault "PARKING_HALL_WORK_QUEUE_CAPACITY" 100);
  cf_parking_alert_driver_enabled := getEnvBoolOrDefault "PARKING_ALERT_DRIVER_ENABLED" false;
  cf_parking_alert_device_path := getEnvOrDefault "PARKING_ALERT_DEVICE_PATH" "/dev/parking_alert";
  cf_parking_alert_slot_map :=
    getEnvOrDefault "PARKING_ALERT_SLOT_MAP" "EV01:0,EV02:1,EV03:2,EV04:3,EV05:4,EV06:5,EV07:6,EV08:7"
|}.

(** [src/app/AppConfig.cpp:364-413 AppConfig::loadFromEnv] *)
Definition load_services : ServiceConfig := {|
  cf_snapshot_dir := resolveProjectPath "SNAPSHOT_DIR" (getEnvOrDefault "SNAPSHOT_DIR" "data/snapshots");
  cf_db_path := resolveProjectPath "EVENT_DB_PATH" "data/db/parking.db";
  cf_gemini_api_key := getEnvOrLocalSetting "GEMINI_API_KEY" "" private;
  cf_gemini_model := getEnvOrLocalSetting "GEMINI_MODEL" "gemini-3-flash-preview" public;
  cf_gemini_fallback_model := getEnvOrLocalSetting "GEMINI_FALLBACK_MODEL" "gemini-3.1-flash-lite-preview" public;
  cf_plate_preprocess_mode := getEnvOrLocalSetting "PLATE_PREPROCESS_MODE" "pipeline" public;
  cf_preview_width := getEnvIntOrDefault "PREVIEW_WIDTH" 640;
  cf_preview_height := getEnvIntOrDefault "PREVIEW_HEIGHT" 360;
  cf_rtsp_retry_delay_ms := getEnvIntOrDefault "RTSP_RETRY_DELAY_MS" 1000;
  cf_empty_frame_delay_ms := getEnvIntOrDefault "EMPTY_FRAME_DELAY_MS" 200;
  cf_initial_frame_timeout_sec := getEnvIntOrDefault "INITIAL_FRAME_TIMEOUT_SEC" 30;
  cf_snapshot_frame_wait_ms := getEnvIntOrDefault "SNAPSHOT_FRAME_WAIT_MS" 2500;
  cf_max_consecutive_read_failures := getEnvIntOrDefault "MAX_CONSECUTIVE_READ_FAILURES" 30;
  cf_bestshot_correlation_window_ms := getEnvIntOrDefault "BESTSHOT_CORRELATION_WINDOW_MS" 8000;
  cf_iva_duplicate_suppression_ms := getEnvIntOrDefault "IVA_DUPLICATE_SUPPRESSION_MS" 1500;
  cf_gemini_connect_timeout_sec := getEnvIntOrDefault "GEMINI_CONNECT_TIMEOUT_SEC" 5;
  cf_gemini_request_timeout_sec := getEnvIntOrDefault "GEMINI_REQUEST_TIMEOUT_SEC" 30;
  cf_telegram_enabled := getEnvOrLocalBoolOrDefault "TELEGRAM_ENABLED" false public;
  cf_telegram_bot_token := getEnvOrLocalSetting "TELEGRAM_BOT_TOKEN" "" private;
  cf_telegram_channel := getEnvOrLocalSetting "TELEGRAM_CHANNEL" "" private;
  cf_telegram_connect_timeout_ms := Z.max 1 (getEnvOrLocalIntOrDefault "TELEGRAM_CONNECT_TIMEOUT_MS" 3000 public);
  cf_telegram_request_timeout_ms := Z.max 1 (getEnvOrLocalIntOrDefault "TELEGRAM_REQUEST_TIMEOUT_MS" 10000 public);
  cf_telegram_retry_count := Z.max 0 (getEnvOrLocalIntOrDefault "TELEGRAM_RETRY_COUNT" 2 public);
  cf_telegram_retry_delay_ms := Z.max 1 (getEnvOrLocalIntOrDefault "TELEGRAM_RETRY_DELAY_MS" 500 public);
  cf_telegram_queue_capacity := Z.max 1 (getEnvOrLocalIntOrDefault "TELEGRAM_QUEUE_CAPACITY" 256 public)
|}.

(** [src/app/AppConfig.cpp:415-443 AppConfig::loadFromEnv] *)
Definition load_api : ApiConfig := {|
  cf_parking_timer_enabled := getEnvBoolOrDefault "PARKING_TIMER_ENABLED" true;
  cf_parking_overstay_threshold_seconds :=
    clamp (getEnvIntOrDefault "PARKING_OVERSTAY_THRESHOLD_SECONDS" (getEnvIntOrDefault "PARKING_TIMEOUT_SECONDS" 3600)) 60 86400;
  cf_http_api_enabled := getEnvBoolOrDefault "HTTP_API_ENABLED" true;
  cf_http_listen_address := getEnvOrDefault "HTTP_LISTEN_ADDRESS" "0.0.0.0";
  cf_http_port := getEnvIntOrDefault "HTTP_PORT" 8080;
  cf_http_tls_certificate_path := resolveProjectPath "HTTP_TLS_CERT_PATH" "";
  cf_http_tls_private_key_path := resolveProjectPath "HTTP_TLS_KEY_PATH" "";
  cf_http_data_root := resolveProjectPath "HTTP_DATA_ROOT" "data";
  cf_http_max_image_mb := getEnvIntOrDefault "HTTP_MAX_IMAGE_MB" 10;
  cf_http_require_tls := getEnvBoolOrDefault "HTTP_REQUIRE_TLS" true;
  cf_auth_session_ttl_seconds := getEnvIntOrDefault "AUTH_SESSION_TTL_SECONDS" 36000;
  cf_auth_login_window_seconds := getEnvIntOrDefault "AUTH_LOGIN_WINDOW_SECONDS" 300;
  cf_auth_login_max_failures := getEnvIntOrDefault "AUTH_LOGIN_MAX_FAILURES" 5;
  cf_auth_login_cooldown_seconds := getEnvIntOrDefault "AUTH_LOGIN_COOLDOWN_SECONDS" 60
|}.

(** [src/app/AppConfig.cpp:445-466 AppConfig::loadFromEnv] One round of the loop over the channels. *)
Definition load_channel (i : N) : option RtspChannelConfig :=
  let rtsp_url := getEnvOrDefault ("CAMERA_RTSP_CH" +:+ pretty i) "" in
  let rtsp_url := if bool_decide (i = 1%N) && is_empty rtsp_url then getEnvOrDefault "CAMERA_RTSP" "" else rtsp_url in
  if is_empty rtsp_url then None else Some (mkRtspChannelConfig ("ch0" +:+ pretty i) rtsp_url).
Definition load_channels : list RtspChannelConfig := omap load_channel [1; 2; 3; 4]%N.

(** [src/app/AppConfig.cpp:471-507 AppConfig::loadFromEnv] One round of the loop over the areas. *)
Definition load_area (i : N) : AreaSettings :=
  let slot := "EV0" +:+ pretty i in
  let channel := if (i <=? 4)%N then "ch01" else "ch03" in
  let snapshot_api_channel := if (i <=? 4)%N then 0 else 2 in
  let default_area_name := "name" +:+ pretty i in
  let prefix := "IVA_" +:+ slot +:+ "_" in
  let public_env_path := localSettingPath ".env.public" in
  let roi_x := getEnvOrLocalSetting (prefix +:+ "ROI_X") "" public_env_path in
  let roi_y := getEnvOrLocalSetting (prefix +:+ "ROI_Y") "" public_env_path in
  let roi_width := getEnvOrLocalSetting (prefix +:+ "ROI_WIDTH") "" public_env_path in
  let roi_height := getEnvOrLocalSetting (prefix +:+ "ROI_HEIGHT") "" public_env_path in
  let roi_configured := negb (is_empty roi_x) || negb (is_empty roi_y) || negb (is_empty roi_width) || negb (is_empty roi_height) in
  mkAreaSettings slot
    (getEnvOrLocalSetting (prefix +:+ "AREA_NAME") default_area_name public_env_path)
    (getEnvOrLocalSetting (prefix +:+ "CHANNEL_ID") channel public_env_path)
    (parseDoubleOrDefault roi_x d_zero) (parseDoubleOrDefault roi_y d_zero)
    (parseDoubleOrDefault roi_width d_one) (parseDoubleOrDefault roi_height d_one)
    (Z.max 0 (getEnvIntOrDefault (prefix +:+ "SNAPSHOT_API_CHANNEL") snapshot_api_channel))
    roi_configured.
Definition load_areas : list AreaSettings := load_area <$> [1; 2; 3; 4; 5; 6; 7; 8]%N.

(** [src/app/AppConfig.cpp:143-510 AppConfig::loadFromEnv] *)
Definition loadFromEnv : AppConfig :=
  mkAppConfig load_inputs load_capture load_entrance load_alarm load_services load_api load_channels load_areas.
End Load.

(** * Limits *)

Lemma clamp_range v lo hi : lo <= hi -> lo <= clamp v lo hi <= hi.
Proof. intros H. unfold clamp. destruct (v <? lo) eqn:E1; [lia|]. destruct (hi <? v) eqn:E2; lia. Qed.

Lemma SFcompare_opp x y : SFcompare y x = CompOpp <$> SFcompare x y.
Proof.
  destruct x as [[]|[]| |[] m e], y as [[]|[]| |[] m' e']; try done; cbn [SFcompare fmap option_fmap option_map]; f_equal;
    rewrite (Z.compare_antisym e e'); destruct (e ?= e')%Z; cbn [CompOpp]; try done;
    pose proof (Pos.compare_cont_antisym m m' Eq) as H; cbn [CompOpp] in H; by rewrite <- H.
Qed.

Lemma d_lt_false_le x y : d_is_nan x = false -> d_is_nan y = false -> d_lt x y = false -> d_le y x = true.
Proof.
  intros Hx Hy. unfold d_lt, d_le, SFltb, SFleb. rewrite (SFcompare_opp x y).
  destruct (SFcompare x y) as [[]|] eqn:E; try done. by destruct x as [[]|[]| |[] ? ?], y as [[]|[]| |[] ? ?].
Qed.

Lemma clamp_double_range v lo hi : d_is_nan lo = false -> d_is_nan hi = false -> d_le lo lo = true -> d_le hi hi = true ->
  d_le lo hi = true ->
  d_is_nan (clamp_double v lo hi) = true \/ d_le lo (clamp_double v lo hi) = true /\ d_le (clamp_double v lo hi) hi = true.
Proof.
  intros Hl Hh Hll Hhh Hlh. unfold clamp_double. destruct (d_lt v lo) eqn:E1; [by right|].
  destruct (d_lt hi v) eqn:E2; [by right|]. destruct (d_is_nan v) eqn:Hn; [by left|right].
  split; [by apply d_lt_false_le|]. by apply d_lt_false_le.
Qed.

Section Theorems.
Context (getenv : string -> option string) (read_file : string -> option string) (stod : string -> option double).

Definition fits_int (v : Z) : Prop := - 2 ^ 31 <= v <= 2 ^ 31 - 1.

Lemma stoi_rest_fits value v rest : stoi_rest value = Some (v, rest) -> fits_int v.
Proof.
  unfold stoi_rest. match goal with |- context [let '(_, _) := ?g in _] => destruct g as [sign body] end.
  destruct (starts_with_digit body); [|done]. destruct (take_digits_rest 0 body) as [n rest']. cbv zeta.
  destruct (_ || _) eqn:E; [done|]. intros [= <- _]. apply orb_false_iff in E. unfold fits_int. lia.
Qed.

Lemma stoi_or_fits value d : fits_int d -> fits_int (stoi_or value d).
Proof.
  intros Hd. unfold stoi_or. destruct (stoi_rest value) as [[v rest]|] eqn:E; [by apply stoi_rest_fits in E|done].
Qed.

Lemma env_int_fits key d : fits_int d -> fits_int (getEnvIntOrDefault getenv key d).
Proof. intros Hd. unfold getEnvIntOrDefault. repeat case_match; try done. by apply stoi_or_fits. Qed.

Lemma choose_in value first names : choose value (first :: names) ∈ first :: names.
Proof. unfold choose. case_bool_decide; [done|]. by left. Qed.

(** Limits of the configuration. Whatever the environment and the files hold, every setting that the
    code limits is within its limits: times and capacities that must be positive are, the clamped ones are in their
    ranges, the two choices are among their names, an unsigned quantity fits an int; and the least confidence of a plate
    is between one half and one, unless the text in the configuration is a NaN. *)
Theorem config_limits :
  let c := loadFromEnv getenv read_file stod in
  let i := cf_inputs c in let s := cf_capture c in let e := cf_entrance c in
  let a := cf_alarm c in let v := cf_services c in let p := cf_api c in
  (1 <= cf_sensor_uart_read_timeout_ms i /\ 1 <= cf_sensor_uart_reconnect_ms i /\ 0 <= cf_parking_occupancy_confirm_ms i /\
   1000 <= cf_camera_iva_exit_confirm_ms i <= 60000 /\
   cf_parking_occupancy_source i ∈ ["HALL"; "CAMERA_IVA"; "HYBRID_OR"] /\ cf_camera_iva_event_source i ∈ ["MQTT"; "ONVIF"]) /\
  (1 <= cf_capture_response_timeout_ms s /\ 1 <= cf_capture_retry_interval_ms s /\ 0 <= cf_capture_max_retries s /\
   1 <= cf_capture_ocr_max_attempts s <= 2 /\ 0 <= cf_plate_led_night_start_hour s <= 23 /\
   0 <= cf_plate_led_night_end_hour s <= 23 /\ 0 <= cf_plate_led_settle_ms s <= 2000 /\
   1024 <= cf_camera_image_server_port s <= 65535 /\ 1 <= cf_camera_snapshot_connect_timeout_ms s /\
   1 <= cf_camera_snapshot_request_timeout_ms s /\ 1 <= cf_camera_snapshot_jpeg_timeout_ms s /\
   0 <= cf_camera_snapshot_max_retries s <= 5 /\ 1 <= cf_camera_snapshot_retry_delay_ms s) /\
  (5 <= cf_entrance_object_ttl_seconds e <= 3600 /\ 1 <= cf_entrance_pending_capacity e <= 4096 /\
   1 <= cf_entrance_image_dedup_window_seconds e <= 300 /\ 0 <= cf_entrance_image_dedup_phash_threshold e <= 64 /\
   1 <= cf_entrance_failure_retention_hours e <= 168 /\ 1 <= cf_occupancy_inbox_retention_days e <= 365 /\
   1 <= cf_entrance_plate_match_window_minutes e <= 180 /\
   500 <= cf_entrance_ev_timeout_ms e <= 30000 /\ 1 <= cf_entrance_ev_queue_capacity e <= 256 /\
   1 <= cf_entrance_ev_opencv_threads e <= 4 /\
   let confidence := cf_entrance_plate_match_min_confidence e in
   (d_is_nan confidence = true \/ d_le (d_literal 5 1) confidence = true /\ d_le confidence d_one = true)) /\
  (1 <= cf_parking_hall_work_queue_capacity a /\
   1 <= cf_telegram_connect_timeout_ms v /\ 1 <= cf_telegram_request_timeout_ms v /\ 0 <= cf_telegram_retry_count v /\
   1 <= cf_telegram_retry_delay_ms v /\ 1 <= cf_telegram_queue_capacity v /\
   60 <= cf_parking_overstay_threshold_seconds p <= 86400) /\
  Forall fits_int [cf_mqtt_port i; cf_sensor_uart_baud_rate i; cf_fire_uart_baud a; cf_http_port p; cf_http_max_image_mb p;
    cf_auth_session_ttl_seconds p; cf_auth_login_window_seconds p; cf_auth_login_max_failures p;
    cf_auth_login_cooldown_seconds p].
Proof.
  cbv zeta. unfold loadFromEnv. cbn [cf_inputs cf_capture cf_entrance cf_alarm cf_services cf_api]. cbv [load_inputs load_capture
    load_entrance load_alarm load_services load_api]; cbn -[getEnvIntOrDefault getEnvOrLocalIntOrDefault clamp clamp_double
    choose parseDoubleOrDefault getEnvOrLocalSetting getEnvOrDefault localSettingPath Z.max d_literal d_one fits_int Z.le].
  split_and!; try apply clamp_range; try apply choose_in; try lia.
  - apply clamp_double_range; by vm_compute.
  - repeat constructor; by apply env_int_fits.
Qed.
End Theorems.

(** * Names *)

Section Names.
Context (getenv : string -> option string) (read_file : string -> option string) (stod : string -> option double).

(** The channels are some of ch01 to ch04, in that order and each once, and each has an address; the areas are those of
    EV01 to EV08, and their channel at the snapshot API is not negative. *)
Theorem config_names :
  let c := loadFromEnv getenv read_file stod in
  sublist (rc_channel_id <$> cf_rtsp_channels c) ["ch01"; "ch02"; "ch03"; "ch04"] /\
  Forall (fun r => rc_rtsp_url r <> "") (cf_rtsp_channels c) /\
  (ia_slot_id <$> cf_iva_areas c) = ["EV01"; "EV02"; "EV03"; "EV04"; "EV05"; "EV06"; "EV07"; "EV08"] /\
  Forall (fun a => 0 <= ia_snapshot_api_channel a) (cf_iva_areas c).
Proof.
  cbv zeta. unfold loadFromEnv. cbn [cf_rtsp_channels cf_iva_areas].
  assert (Hc : forall i r, load_channel getenv i = Some r -> rc_channel_id r = "ch0" +:+ pretty i /\ rc_rtsp_url r <> "").
  { intros i r. unfold load_channel. cbv zeta. match goal with |- (if is_empty ?u then _ else _) = _ -> _ => generalize u end.
    intros [|x u]; [done|]. by intros [= <-]. }
  split; [|split; [|split; [vm_compute; reflexivity|]]].
  - change ["ch01"; "ch02"; "ch03"; "ch04"] with ((fun i => "ch0" +:+ pretty i) <$> [1; 2; 3; 4]%N). unfold load_channels.
    induction [1; 2; 3; 4]%N as [|i l IH]; [constructor|]. cbn [omap list_omap fmap list_fmap].
    destruct (load_channel getenv i) as [r|] eqn:E; [|by apply sublist_cons].
    cbn [fmap list_fmap]. destruct (Hc _ _ E) as [-> _]. by apply sublist_skip.
  - apply Forall_forall. intros r Hr. apply list_elem_of_omap in Hr as (i & _ & Hr). by apply Hc in Hr as [_ Hr].
  - repeat constructor; apply Z.le_max_l.
Qed.
End Names.

(** * A written file is read back *)

Lemma skip_space_end_app s t : skip_space_end t <> "" -> skip_space_end (s +:+ t) = s +:+ skip_space_end t.
Proof.
  intros Ht. induction s as [|c s IH]; simpl; [done|]. rewrite IH.
  destruct s as [|c' s']; simpl; [|done]. by destruct (skip_space_end t).
Qed.

(** A text between two visible characters is not changed. *)
Lemma setting_trim_solid c s e : setting_space c = false -> setting_space e = false ->
  setting_trim (String c (s +:+ String e "")) = String c (s +:+ String e "").
Proof.
  intros Hc He. unfold setting_trim. cbn [skip_space]. rewrite Hc.
  change (String c (s +:+ String e "")) with ((String c s) +:+ String e "").
  rewrite skip_space_end_app; cbn [skip_space_end]; by rewrite He.
Qed.

Lemma last_char_snoc s c : last_char (s +:+ String c "") = Some c.
Proof. induction s as [|x s IH]; [done|]. simpl. destruct (s +:+ String c "") eqn:E; [by destruct s|done]. Qed.
Lemma drop_last_snoc s c : drop_last (s +:+ String c "") = s.
Proof. induction s as [|x s IH]; [done|]. simpl. destruct (s +:+ String c "") eqn:E; [by destruct s|by rewrite IH]. Qed.

Lemma unquote_quoted v : unquote ("'" +:+ v +:+ "'") = v.
Proof.
  unfold unquote. simpl. destruct (v +:+ "'") eqn:E; [by destruct v|]. rewrite <- E. rewrite last_char_snoc.
  rewrite bool_decide_eq_true_2 by done. apply drop_last_snoc.
Qed.

(** A line of a settings file, as the comment of the source has it: KEY='VALUE', with or without export. *)
Definition render_setting (export : bool) (key value : string) : string :=
  (if export then "export " else "") +:+ key +:+ "='" +:+ value +:+ "'".
Definition key_char (c : ascii) : bool := isalnum c || bool_decide (c = "_"%char).
Definition valid_key (key : string) : Prop := key <> "" /\ sall key_char key = true.
Definition one_line (s : string) : Prop := sall (fun c => negb (bool_decide (c = "010"%char))) s = true.

Lemma key_char_facts c : key_char c = true ->
  setting_space c = false /\ c <> "="%char /\ c <> "#"%char /\ c <> " "%char /\ c <> "010"%char.
Proof.
  destruct c as [[] [] [] [] [] [] [] []]; vm_compute; intros H; try discriminate H; repeat split; congruence.
Qed.

Lemma no_export_prefix k t : sall key_char k = true -> String.prefix "export " (k +:+ String "="%char t) = false.
Proof.
  intros Hk. enough (H : forall p, sall (fun c => negb (bool_decide (c = "="%char))) p = true ->
    forall k, sall key_char k = true -> String.prefix (p +:+ " ") (k +:+ String "="%char t) = false) by (by apply (H "export")).
  clear. induction p as [|c p IH]; intros Hp k Hk.
  - destruct k as [|x k]; [done|]. cbn [sall] in Hk. cbn [String.prefix String.append]. apply andb_prop in Hk as [Hx _].
    destruct (ascii_dec " " x) as [<-|]; [|done]. by apply key_char_facts in Hx as (_ & _ & _ & Hx & _).
  - cbn [sall] in Hp. apply andb_prop in Hp as [Hc Hp]. destruct k as [|x k]; cbn [String.prefix String.append].
    + destruct (ascii_dec c "=") as [->|]; done.
    + cbn [sall] in Hk. apply andb_prop in Hk as [Hx Hk]. destruct (ascii_dec c x); [by apply IH|done].
Qed.

Lemma sall_key_no_eq k : sall key_char k = true -> sall (fun c => negb (bool_decide (c = "="%char))) k = true.
Proof. apply sall_impl. intros c Hc. apply key_char_facts in Hc as (_ & H & _). by rewrite bool_decide_eq_false_2. Qed.

Lemma key_split k : valid_key k -> exists c s, k = String c s /\ key_char c = true.
Proof. intros [H1 H2]. destruct k as [|c s]; [done|]. simpl in H2. apply andb_prop in H2 as [H2 _]. eauto. Qed.

Lemma setting_trim_key k : valid_key k -> setting_trim k = k.
Proof.
  intros Hk. destruct (key_split k Hk) as (c & s & -> & Hc). destruct Hk as [_ Hk].
  assert (He : forall t, sall key_char t = true -> skip_space_end t = t).
  { induction t as [|x t IH]; [done|]. simpl. intros [Hx Ht]%andb_prop. rewrite (IH Ht).
    destruct t; [|done]. by destruct (key_char_facts _ Hx) as [-> _]. }
  unfold setting_trim. cbn [skip_space]. destruct (key_char_facts _ Hc) as [-> _]. by apply He.
Qed.

Lemma substring_export s : substring 7 (String.length ("export " +:+ s)) ("export " +:+ s) = s.
Proof.
  change (substring 7 (String.length ("export " +:+ s)) ("export " +:+ s)) with (substring 0 (7 + String.length s) s).
  generalize 7%nat. induction s as [|c s IH]; intros n; [by destruct n|].
  rewrite <- (Nat.add_comm (String.length (String c s))). simpl. f_equal. rewrite Nat.add_comm. apply IH.
Qed.

(** What one line says. *)
Lemma setting_line_render export key key' value d : valid_key key' ->
  setting_line key d (render_setting export key' value) =
    if bool_decide (key' = key) then Some (if is_empty value then d else value) else None.
Proof.
  intros Hk. destruct (key_split key' Hk) as (c & s & E & Hc). destruct (key_char_facts c Hc) as (Hs & _ & Hh & _ & _).
  assert (Hbody : setting_trim (key' +:+ "='" +:+ value +:+ "'") = key' +:+ "='" +:+ value +:+ "'").
  { rewrite E. replace (String c s +:+ "='" +:+ value +:+ "'") with (String c ((s +:+ "='" +:+ value) +:+ "'"));
      [by apply setting_trim_solid|]. simpl. by rewrite !append_assoc. }
  assert (Hrest : forall line, line = key' +:+ "='" +:+ value +:+ "'" ->
    match break_on "=" line with
    | None => None
    | Some (name, rest) =>
        if negb (bool_decide (setting_trim name = key)) then None else
        let value := unquote (setting_trim rest) in
        Some (if is_empty value then d else value)
    end = if bool_decide (key' = key) then Some (if is_empty value then d else value) else None).
  { intros line ->. change ("='" +:+ value +:+ "'") with (String "="%char ("'" +:+ value +:+ "'")).
    rewrite break_on_app by (apply sall_key_no_eq, Hk). rewrite (setting_trim_key _ Hk).
    change ("'" +:+ value +:+ "'") with (String "'"%char (value +:+ "'")). rewrite setting_trim_solid by done.
    change (String "'"%char (value +:+ "'")) with ("'" +:+ value +:+ "'"). rewrite unquote_quoted.
    by case_bool_decide. }
  unfold setting_line, render_setting. destruct export.
  - replace ("export " +:+ key' +:+ "='" +:+ value +:+ "'") with (String "e"%char (("xport " +:+ key' +:+ "='" +:+ value) +:+ "'"))
      by (simpl; by rewrite !append_assoc).
    rewrite setting_trim_solid by done.
    replace (String "e"%char (("xport " +:+ key' +:+ "='" +:+ value) +:+ "'")) with ("export " +:+ (key' +:+ "='" +:+ value +:+ "'"))
      by (simpl; by rewrite !append_assoc).
    cbv zeta. rewrite substring_export, Hbody. rewrite bool_decide_eq_false_2 by done.
    assert (Hp : forall t, String.prefix "export " ("export " +:+ t) = true) by (intros t; by destruct t).
    rewrite Hp. exact (Hrest _ eq_refl).
  - change ("" +:+ key' +:+ "='" +:+ value +:+ "'") with (key' +:+ "='" +:+ value +:+ "'"). rewrite Hbody.
    pose proof (Hrest _ eq_refl) as H1. pose proof (no_export_prefix key' ("'" +:+ value +:+ "'") (proj2 Hk)) as H2.
    change (String "="%char ("'" +:+ value +:+ "'")) with ("='" +:+ value +:+ "'") in H2.
    destruct (key' +:+ "='" +:+ value +:+ "'") as [|x line] eqn:El; [by rewrite E in El|].
    rewrite E in El. injection El as -> _. rewrite bool_decide_eq_false_2 by done. cbv zeta. rewrite H2. exact H1.
Qed.

(** A file of such lines. *)
Fixpoint render_settings (settings : list (bool * (string * string))) : string :=
  match settings with
  | [] => ""
  | (export, (key, value)) :: settings => render_setting export key value +:+ String "010"%char (render_settings settings)
  end.

Lemma render_setting_one_line export key value : valid_key key -> one_line value -> one_line (render_setting export key value).
Proof.
  intros [_ Hk] Hv. unfold one_line, render_setting in *. rewrite !sall_app, Hv.
  rewrite (sall_impl key_char _ key); [by destruct export| |done].
  intros c Hc. apply key_char_facts in Hc as (_ & _ & _ & _ & Hc). by rewrite bool_decide_eq_false_2.
Qed.

Definition setting_ok (s : bool * (string * string)) : Prop := valid_key s.2.1 /\ one_line s.2.2.

Lemma first_setting_render settings key d : Forall setting_ok settings ->
  first_setting key d (getline_fields "010" (render_settings settings)) =
  match List.find (fun s => bool_decide (s.2.1 = key)) settings with
  | Some (_, (_, value)) => if is_empty value then d else value
  | None => d
  end.
Proof.
  induction settings as [|[export [key' value]] settings IH]; [done|].
  intros [[Hk Hv] Hs]%Forall_cons. cbn [render_settings].
  rewrite getline_fields_app by (by apply render_setting_one_line). cbn [first_setting List.find snd fst].
  rewrite setting_line_render by done. simpl in Hk. case_bool_decide; [done|by apply IH].
Qed.

Section Reading.
Context (getenv : string -> option string) (read_file : string -> option string).

(** C34 [roundtrip] A settings file that is written as the comment of the source says, one KEY='VALUE' in each line, with
    or without export, is read back: unless the environment has the setting, the value of its first line is answered,
    whatever characters but a line end it has, also quotes, blanks, = and #; and the default if there is no line or an
    empty value. *)
Theorem settings_roundtrip settings key default_value path :
  Forall setting_ok settings -> read_file path = Some (render_settings settings) ->
  getEnvOrLocalSetting getenv read_file key default_value path =
  match getenv key with
  | Some (String c value) => String c value
  | _ =>
      match List.find (fun s => bool_decide (s.2.1 = key)) settings with
      | Some (_, (_, value)) => if is_empty value then default_value else value
      | None => default_value
      end
  end.
Proof.
  intros Hs Hf. unfold getEnvOrLocalSetting, getEnvOrDefault. rewrite Hf. cbn [default].
  destruct (getenv key) as [[|c value]|]; cbn [is_empty negb]; [|done|]; by apply first_setting_render.
Qed.
End Reading.

(** * Below the root *)

Definition nontrivial (c : string) : bool := negb (bool_decide (c = "" \/ c = ".")).
Definition normal_components (path : string) : list string :=
  foldl (normal_component (is_absolute path)) [] (getline_fields "/" path).

Lemma getline_fields_join s t :
  (ends_with_slash s = true -> getline_fields "/" (s +:+ t) = getline_fields "/" s ++ getline_fields "/" t) /\
  (ends_with_slash s = false -> s <> "" ->
   getline_fields "/" (s +:+ String "/"%char t) = getline_fields "/" s ++ getline_fields "/" t).
Proof.
  induction s as [|c s [IH1 IH2]]; [done|]. destruct (decide (s = "")) as [->|Hs].
  - simpl. split; [intros Hc; by rewrite Hc|]. intros Hc _. by rewrite Hc.
  - assert (He : ends_with_slash (String c s) = ends_with_slash s) by (by destruct s). rewrite He.
    assert (Hn : getline_fields "/" s <> []).
    { destruct s as [|x s]; [done|]. simpl. case_bool_decide; [done|]. by destruct (getline_fields _ s). }
    cbn [getline_fields String.append]. case_bool_decide.
    + split; [intros H1; by rewrite IH1|intros H1 _; by rewrite IH2].
    + split; [intros H1; rewrite IH1 by done|intros H1 _; rewrite IH2 by done];
        by destruct (getline_fields "/" s).
Qed.

Lemma foldl_normal_plain absolute components : Forall (fun c => c <> "..") components -> forall kept,
  foldl (normal_component absolute) kept components = rev (List.filter nontrivial components) ++ kept.
Proof.
  induction 1 as [|c l Hc _ IH]; intros kept; [done|]. cbn [foldl List.filter]. rewrite IH. unfold normal_component, nontrivial.
  case_bool_decide; cbn [negb]; [done|]. rewrite bool_decide_eq_false_2 by done. simpl. by rewrite <- app_assoc.
Qed.

(** A relative path of the configuration without a component .. names a place below the root: normalised, the joined path
    has the components of the root and then its own. *)
Theorem path_below_root root configured : is_absolute root = true ->
  Forall (fun c => c <> "..") (getline_fields "/" configured) ->
  normal_components (path_join root configured) =
    rev (List.filter nontrivial (getline_fields "/" configured)) ++ normal_components root.
Proof.
  intros Hr Hc. destruct root as [|c root]; [done|]. unfold normal_components.
  assert (Ha : is_absolute (path_join (String c root) configured) = true)
    by (unfold path_join; cbn [is_empty orb]; by destruct (ends_with_slash _)). rewrite Ha, Hr.
  rewrite <- (foldl_normal_plain true) by done. rewrite <- foldl_app. f_equal. unfold path_join. cbn [is_empty orb].
  destruct (getline_fields_join (String c root) configured) as [H1 H2].
  destruct (ends_with_slash (String c root)); [by apply H1|by apply H2].
Qed.

(** * The settings at concrete inputs *)

(** The text of a settings file, and an environment. *)
Definition demo_settings : list (bool * (string * string)) :=
  [(false, ("GEMINI_API_KEY", "k='# 1' ")); (true, ("ENTRANCE_EV_TIMEOUT_MS", "99999")); (false, ("GEMINI_API_KEY", "late"));
   (false, ("ENTRANCE_PLATE_MATCH_MIN_CONFIDENCE", "nan"))].
Definition demo_file (path : string) : option string :=
  if bool_decide (path = "/etc/pi/.env.private") || bool_decide (path = "/etc/pi/.env.public")
  then Some (render_settings demo_settings) else None.
Definition demo_env (key : string) : option string :=
  if bool_decide (key = "PI_SERVER_ENV_DIR") then Some "/etc/pi" else
  if bool_decide (key = "PI_SERVER_ROOT") then Some "/srv/pi/" else
  if bool_decide (key = "EVENT_DB_PATH") then Some "./data//db/../x.db" else
  if bool_decide (key = "MQTT_PORT") then Some "18830000000" else
  if bool_decide (key = "PARKING_OCCUPANCY_SOURCE") then Some "hybrid_or" else
  if bool_decide (key = "CAMERA_RTSP_CH3") then Some "rtsp://three" else
  if bool_decide (key = "CAMERA_RTSP") then Some "rtsp://one" else None.
Definition demo_stod (text : string) : option double := if bool_decide (text = "nan") then Some S754_nan else None.
Definition demo_loaded : AppConfig := loadFromEnv demo_env demo_file demo_stod.

Lemma demo_settings_ok : Forall setting_ok demo_settings.
Proof. repeat constructor; done. Qed.

Lemma settings_roundtrip_witness :
  demo_file "/etc/pi/.env.private" = Some (render_settings demo_settings) /\
  getEnvOrLocalSetting demo_env demo_file "GEMINI_API_KEY" "" "/etc/pi/.env.private" = "k='# 1' ".
Proof.
  assert (Hf : demo_file "/etc/pi/.env.private" = Some (render_settings demo_settings)) by (vm_compute; reflexivity).
  split; [exact Hf|].
  pose proof (settings_roundtrip demo_env demo_file demo_settings "GEMINI_API_KEY" "" "/etc/pi/.env.private" demo_settings_ok Hf) as H.
  etransitivity; [exact H|]. vm_compute. reflexivity.
Defined.

(** A port that does not fit an int falls back to the default, a limit is kept, a path is below the root. *)
Example demo_values :
  cf_mqtt_port (cf_inputs demo_loaded) = 1883 /\
  cf_parking_occupancy_source (cf_inputs demo_loaded) = "HYBRID_OR" /\
  cf_entrance_ev_timeout_ms (cf_entrance demo_loaded) = 30000 /\
  cf_db_path (cf_services demo_loaded) = "/srv/pi/data/x.db" /\
  cf_snapshot_dir (cf_services demo_loaded) = "/srv/pi/data/snapshots" /\
  cf_gemini_api_key (cf_services demo_loaded) = "k='# 1' " /\
  cf_rtsp_channels demo_loaded = [mkRtspChannelConfig "ch01" "rtsp://one"; mkRtspChannelConfig "ch03" "rtsp://three"].
Proof. vm_compute. repeat split. Qed.

(** The least confidence of a plate that is configured as nan passes the limits. *)
Example confidence_nan : cf_entrance_plate_match_min_confidence (cf_entrance demo_loaded) = S754_nan.
Proof. vm_compute. reflexivity. Qed.

Example normal_paths :
  lexically_normal "a/./b//../c/" = "a/c/" /\ lexically_normal "/.." = "/" /\ lexically_normal "a/.." = "." /\
  lexically_normal "../x/.." = ".." /\ lexically_normal "x/.." = "." /\ lexically_normal "a/b/.." = "a/".
Proof. repeat split; vm_compute; reflexivity. Qed.
