(* ===== verification/Snapshot.v ===== *)
(** The storage of pictures ([src/snapshot/SnapshotStorage.cpp]): where a region lies in a picture, the names of the files,
    and the writing of two pictures as one. OpenCV and the disk answer (class [ImageLibrary], the answers of a call).

    Shown: whatever region and picture, a cut lies within the picture; whatever the disk answers, both pictures are there
    or none, and a caller that gets names gets those of the cut pictures; the files of different calls are different;
    waiting for a frame ends. *)
From S2P Require Import Prelude OccupancyDb TimeText DeadlineQueue ParkingDb Doubles Alert Threshold RoiSettings Correlation BestShot Config.

(** * Numbers *)

Definition d_mul (x y : double) : double := SFmul 53 1024 x y.

(** std::min and std::max: the first one if they are not ordered. *)
Definition d_min (x y : double) : double := if d_lt y x then y else x.
Definition d_max (x y : double) : double := if d_lt x y then y else x.

(** static_cast<int> and std::lround of a finite double: towards zero; to the nearest, halves away from zero. What an
    infinity or a NaN gives is undefined; here it is 0. *)
Definition d_trunc (x : double) : Z :=
  match x with
  | S754_finite s m e =>
      let v := if 0 <=? e then Z.pos m * 2 ^ e else Z.pos m / 2 ^ (- e) in if s then - v else v
  | _ => 0
  end.
Definition d_lround (x : double) : Z :=
  match x with
  | S754_finite s m e =>
      let v := if 0 <=? e then Z.pos m * 2 ^ e else (2 * Z.pos m + 2 ^ (- e)) / (2 * 2 ^ (- e)) in if s then - v else v
  | _ => 0
  end.

(** * The region of a picture *)

(** A rectangle of pixels: left, top, width, height. *)
Record Rect := mkRect { rc_x : Z; rc_y : Z; rc_width : Z; rc_height : Z }.

(** [src/snapshot/SnapshotStorage.cpp:22-22 kMinimumCropPixels] *)
Definition kMinimumCropPixels : Z := 8.

(** [src/snapshot/SnapshotStorage.cpp:54-60 validNormalizedRoi] *)
Definition validNormalizedRoi (roi : NormalizedRoi) : bool :=
  d_is_finite (nr_x roi) && d_is_finite (nr_y roi) && d_is_finite (nr_width roi) && d_is_finite (nr_height roi) &&
  d_le d_zero (nr_x roi) && d_le d_zero (nr_y roi) && d_lt d_zero (nr_width roi) && d_lt d_zero (nr_height roi) &&
  d_lt (nr_x roi) d_one && d_lt (nr_y roi) d_one &&
  d_le (d_add (nr_x roi) (nr_width roi)) d_one && d_le (d_add (nr_y roi) (nr_height roi)) d_one.

(** [src/snapshot/SnapshotStorage.cpp:69-82 cropJpeg] *)
Definition crop_rect (roi : NormalizedRoi) (cols rows : Z) : option Rect :=
  let left := clamp (d_lround (d_mul (nr_x roi) (d_of_Z cols))) 0 (cols - 1) in
  let top := clamp (d_lround (d_mul (nr_y roi) (d_of_Z rows))) 0 (rows - 1) in
  let right := clamp (d_lround (d_mul (d_add (nr_x roi) (nr_width roi)) (d_of_Z cols))) (left + 1) cols in
  let bottom := clamp (d_lround (d_mul (d_add (nr_y roi) (nr_height roi)) (d_of_Z rows))) (top + 1) rows in
  if (right - left <? kMinimumCropPixels) || (bottom - top <? kMinimumCropPixels) then None
  else Some (mkRect left top (right - left) (bottom - top)).

(** [src/snapshot/SnapshotStorage.cpp:336-365 SnapshotStorage::saveAreaSnapshot] The check of the region comes before the
    frame is waited for. *)
Definition area_invalid (roi : NormalizedRoi) : bool :=
  d_lt (nr_x roi) d_zero || d_lt (nr_y roi) d_zero || d_le (nr_width roi) d_zero || d_le (nr_height roi) d_zero ||
  d_le d_one (nr_x roi) || d_le d_one (nr_y roi) || d_lt d_one (d_add (nr_x roi) (nr_width roi)) ||
  d_lt d_one (d_add (nr_y roi) (nr_height roi)).
Definition area_rect (roi : NormalizedRoi) (cols rows : Z) : option Rect :=
  let x := d_max d_zero (d_min d_one (nr_x roi)) in
  let y := d_max d_zero (d_min d_one (nr_y roi)) in
  let right := d_max x (d_min d_one (d_add x (nr_width roi))) in
  let bottom := d_max y (d_min d_one (d_add y (nr_height roi))) in
  let px := d_trunc (d_mul x (d_of_Z cols)) in
  let py := d_trunc (d_mul y (d_of_Z rows)) in
  let pw := Z.min (cols - px) (Z.max 1 (d_trunc (d_mul (d_sub right x) (d_of_Z cols)))) in
  let ph := Z.min (rows - py) (Z.max 1 (d_trunc (d_mul (d_sub bottom y) (d_of_Z rows)))) in
  if (px <? 0) || (py <? 0) || (cols <=? px) || (rows <=? py) || (pw <=? 0) || (ph <=? 0) then None else
  if (pw <? kMinimumCropPixels) || (ph <? kMinimumCropPixels) then None
  else Some (mkRect px py pw ph).

(** * Names *)

(** find_first_not_of('0', 2), with what is behind. *)
Fixpoint skip_zeros (s : string) : string :=
  match s with
  | String c s' => if bool_decide (c = "0"%char) then skip_zeros s' else s
  | EmptyString => EmptyString
  end.

(** [src/snapshot/SnapshotStorage.cpp:24-31 channelDirectoryName] *)
Definition channelDirectoryName (channel_id : string) : string :=
  match channel_id with
  | String "c" (String "h" (String _ _ as number)) =>
      let number := skip_zeros number in if is_empty number then "ch0" else "ch" +:+ number
  | _ => if is_empty channel_id then "unknown" else channel_id
  end.

(** [src/snapshot/SnapshotStorage.cpp:43-52 stageDirectoryName] *)
Definition stageDirectoryName (value : string) : string :=
  if bool_decide (value = "OCCUPANCY_START_EVIDENCE") then "occupancy_start" else
  if bool_decide (value = "OVERSTAY_EVIDENCE") then "overstay" else
  if bool_decide (value = "HALL_30S") then "occupied_30s" else
  if bool_decide (value = "HALL_60S") then "occupied_60s" else "capture".

(** std::filesystem::path's operator/: an absolute right side replaces the left one. *)
Definition path_div (a b : string) : string := if is_absolute b then b else path_join a b.

(** [std::to_string] of a signed number. *)
Definition to_string (n : Z) : string := if n <? 0 then "-" +:+ pretty (Z.to_N (- n)) else pretty (Z.to_N n).

(** * OpenCV and the disk *)

(** Pictures of type [Image], their JPEG texts of type [B]; an empty picture is [None]. *)
Class ImageLibrary (B Image : Type) := {
  bytes_empty : B -> bool;
  imdecode : B -> option Image;
  cols : Image -> Z;
  rows : Image -> Z;
  crop_image : Image -> Rect -> Image;
  imencode : Image -> option B;
  imwrite_bytes : Image -> B
}.

(** What opening, writing and flushing a file comes to; a failed one may leave a part of the bytes. *)
Inductive WriteAnswer (B : Type) := WriteDone | WriteNotOpened | WriteFailed (part : B).
Arguments WriteDone {B}.
Arguments WriteNotOpened {B}.
Arguments WriteFailed {B} part.

Section Disk.
Context {B : Type}.

(** [src/snapshot/SnapshotStorage.cpp:33-41 writeBytes] *)
Definition writeBytes (answer : WriteAnswer B) (path : string) (bytes : B) (disk : gmap string B) : bool * gmap string B :=
  match answer with
  | WriteDone => (true, <[path := bytes]> disk)
  | WriteNotOpened => (false, disk)
  | WriteFailed part => (false, <[path := part]> disk)
  end.

(** std::filesystem::rename and remove with an error code. *)
Definition disk_rename (answer : bool) (from to : string) (disk : gmap string B) : bool * gmap string B :=
  match (if answer then disk !! from else None) with
  | Some bytes => (true, <[to := bytes]> (delete from disk))
  | None => (false, disk)
  end.
Definition disk_remove (answer : bool) (path : string) (disk : gmap string B) : gmap string B :=
  if answer then delete path disk else disk.
End Disk.

(** * The operations *)

(** [include/snapshot/SnapshotStorage.hpp:14-17 StoredImagePair] *)
Record StoredImagePair := mkStoredImagePair { originalPath : string; enhancedPath : string }.
Definition no_images : StoredImagePair := mkStoredImagePair "" "".

(** [include/snapshot/SnapshotStorage.hpp:85-88 SnapshotStorage] *)
Record SnapshotStorage := mkSnapshotStorage {
  ss_snapshot_dir : string;
  ss_frame_wait_ms : Z;
  ss_next_file_sequence : Z
}.
Definition fetch_sequence (s : SnapshotStorage) : string * SnapshotStorage :=
  (pretty (Z.to_N (ss_next_file_sequence s)),
   mkSnapshotStorage (ss_snapshot_dir s) (ss_frame_wait_ms s) ((ss_next_file_sequence s + 1) mod 2 ^ 64)).

(** The answers of the disk while two pictures are stored; [true]: done. *)
Record PairAnswers (B : Type) := mkPairAnswers {
  pa_dir_original : bool;
  pa_dir_enhanced : bool;
  pa_write_original : WriteAnswer B;
  pa_write_enhanced : WriteAnswer B;
  pa_rename_original : bool;
  pa_rename_enhanced : bool;
  pa_remove_first : bool;
  pa_remove_second : bool
}.
Arguments mkPairAnswers {B}.
Arguments pa_dir_original {B}.
Arguments pa_dir_enhanced {B}.
Arguments pa_write_original {B}.
Arguments pa_write_enhanced {B}.
Arguments pa_rename_original {B}.
Arguments pa_rename_enhanced {B}.
Arguments pa_remove_first {B}.
Arguments pa_remove_second {B}.

(** The channel as a picture needs it. *)
Record Channel := mkChannel { ch_camera_id : string; ch_channel_id : string }.

(** The answers of the disk while one picture is stored. *)
Record AreaAnswers (B : Type) := mkAreaAnswers { aa_directory : bool; aa_write : WriteAnswer B }.
Arguments mkAreaAnswers {B}.
Arguments aa_directory {B}.
Arguments aa_write {B}.

Section Storage.
Context {B Image : Type} {IL : ImageLibrary B Image}.
Notation Files := (gmap string B).

(** [src/snapshot/SnapshotStorage.cpp:62-91 cropJpeg] *)
Definition cropJpeg (jpeg : B) (roi : NormalizedRoi) : option B :=
  if bytes_empty jpeg || negb (validNormalizedRoi roi) then None else
  image ← imdecode jpeg;
  rect ← crop_rect roi (cols image) (rows image);
  imencode (crop_image image rect).

(** The names of the two files and of their temporary files. *)
Definition pair_path (directory : string) (prefix unique kind : string) : string :=
  path_div (path_div directory kind) (prefix +:+ unique +:+ "_" +:+ kind +:+ ".jpg").

(** [src/snapshot/SnapshotStorage.cpp:215-248 SnapshotStorage::saveCameraApiHallCapture] The writing, once the names are
    known. *)
Definition write_pair (o : PairAnswers B) (original_path enhanced_path : string) (original enhanced : B) (disk : Files)
    : StoredImagePair * Files :=
  let original_temp := original_path +:+ ".tmp" in
  let enhanced_temp := enhanced_path +:+ ".tmp" in
  let '(ok, disk) := writeBytes (pa_write_original o) original_temp original disk in
  let '(ok, disk) := if ok then writeBytes (pa_write_enhanced o) enhanced_temp enhanced disk else (false, disk) in
  if negb ok then
    (no_images, disk_remove (pa_remove_second o) enhanced_temp (disk_remove (pa_remove_first o) original_temp disk)) else
  let '(ok, disk) := disk_rename (pa_rename_original o) original_temp original_path disk in
  if negb ok then
    (no_images, disk_remove (pa_remove_second o) enhanced_temp (disk_remove (pa_remove_first o) original_temp disk)) else
  let '(ok, disk) := disk_rename (pa_rename_enhanced o) enhanced_temp enhanced_path disk in
  if negb ok then
    (no_images, disk_remove (pa_remove_second o) enhanced_temp (disk_remove (pa_remove_first o) original_path disk)) else
  (mkStoredImagePair original_path enhanced_path, disk).

(** The directories, the names and the writing. *)
Definition store_pair (o : PairAnswers B) (directory prefix now : string) (original enhanced : B)
    (s : SnapshotStorage) (disk : Files) : StoredImagePair * SnapshotStorage * Files :=
  if negb (pa_dir_original o) then (no_images, s, disk) else
  if negb (pa_dir_enhanced o) then (no_images, s, disk) else
  let '(sequence, s) := fetch_sequence s in
  let unique := now +:+ "_" +:+ sequence in
  let '(images, disk) := write_pair o (pair_path directory prefix unique "original") (pair_path directory prefix unique "enhanced")
                         original enhanced disk in
  (images, s, disk).

(** [src/snapshot/SnapshotStorage.cpp:169-249 SnapshotStorage::saveCameraApiHallCapture] [now] is the text of the time. *)
Definition saveCameraApiHallCapture (o : PairAnswers B) (now channel_id : string) (session_id : Z) (slot_id capture_stage : string)
    (roi : NormalizedRoi) (original_jpeg enhanced_jpeg : B) (s : SnapshotStorage) (disk : Files)
    : StoredImagePair * SnapshotStorage * Files :=
  if is_empty channel_id || (session_id <? 0) || is_empty slot_id || is_empty capture_stage || bytes_empty original_jpeg ||
     bytes_empty enhanced_jpeg
  then (no_images, s, disk) else
  match cropJpeg original_jpeg roi, cropJpeg enhanced_jpeg roi with
  | Some original, Some enhanced =>
      let stage_dir := path_div (path_div (path_div (ss_snapshot_dir s) (channelDirectoryName channel_id)) slot_id)
                         (stageDirectoryName capture_stage) in
      let prefix := "session_" +:+ to_string session_id +:+ "_slot_" +:+ slot_id +:+ "_" +:+ capture_stage +:+ "_CAMERA_API_" in
      store_pair o stage_dir prefix now original enhanced s disk
  | _, _ => (no_images, s, disk)
  end.

(** [src/snapshot/SnapshotStorage.cpp:251-326 SnapshotStorage::saveCameraApiIvaSnapshot] *)
Definition saveCameraApiIvaSnapshot (o : PairAnswers B) (now channel_id slot_id : string)
    (roi : NormalizedRoi) (original_jpeg enhanced_jpeg : B) (s : SnapshotStorage) (disk : Files)
    : StoredImagePair * SnapshotStorage * Files :=
  if is_empty channel_id || is_empty slot_id || bytes_empty original_jpeg || bytes_empty enhanced_jpeg
  then (no_images, s, disk) else
  match cropJpeg original_jpeg roi, cropJpeg enhanced_jpeg roi with
  | Some original, Some enhanced =>
      let iva_dir := path_div (path_div (path_div (path_div (ss_snapshot_dir s) (channelDirectoryName channel_id)) slot_id)
                       "events") "iva" in
      let prefix := "slot_" +:+ slot_id +:+ "_IVA_CAMERA_API_" in
      store_pair o iva_dir prefix now original enhanced s disk
  | _, _ => (no_images, s, disk)
  end.

(** One look of the waiting thread: whether the server runs, the latest frame, and the time since the start of the wait. *)
Record FramePoll := mkFramePoll { fp_running : bool; fp_frame : option Image; fp_elapsed_ms : Z }.

(** [src/snapshot/SnapshotStorage.cpp:399-429 SnapshotStorage::waitForFullFrame] [None]: it still waits after these looks. *)
Fixpoint waitForFullFrame (wait_ms : Z) (polls : list FramePoll) : option (option Image) :=
  match polls with
  | [] => None
  | p :: polls =>
      if negb (fp_running p) then Some None else
      match fp_frame p with
      | Some frame => Some (Some frame)
      | None => if wait_ms <=? fp_elapsed_ms p then Some None else waitForFullFrame wait_ms polls
      end
  end.

(** [src/snapshot/SnapshotStorage.cpp:367-396 SnapshotStorage::saveAreaSnapshot] The writing of the cut picture; [Err]: the
    directory cannot be made, which throws. *)
Definition store_area (o : AreaAnswers B) (now : string) (channel : Channel) (slot_id : string) (cropped : Image)
    (filename_prefix : string) (session_id : Z) (stage_directory : string) (s : SnapshotStorage) (disk : Files)
    : result unit (string * SnapshotStorage * Files) :=
  let directory := path_div (path_div (ss_snapshot_dir s) (channelDirectoryName (ch_channel_id channel))) slot_id in
  let directory :=
    if 0 <=? session_id then path_div directory (if is_empty stage_directory then "capture" else stage_directory)
    else path_div (path_div directory "events") (if is_empty stage_directory then "iva" else stage_directory) in
  if negb (aa_directory o) then Err tt else
  let '(filename, s) :=
    if is_empty filename_prefix then
      (ch_camera_id channel +:+ "_" +:+ ch_channel_id channel +:+ "_" +:+ slot_id +:+ "_IVA_ROI_" +:+
       to_string (cols cropped) +:+ "x" +:+ to_string (rows cropped) +:+ "_" +:+ now +:+ ".jpg", s)
    else
      let '(sequence, s) := fetch_sequence s in (filename_prefix +:+ "_" +:+ now +:+ "_" +:+ sequence +:+ ".jpg", s) in
  let path := path_div directory filename in
  let '(ok, disk) := writeBytes (aa_write o) path (imwrite_bytes cropped) disk in
  Ok (if ok then path else "", s, disk).

(** [src/snapshot/SnapshotStorage.cpp:328-397 SnapshotStorage::saveAreaSnapshot] [polls] are the looks of the wait, and
    [None] that it goes on after them. *)
Definition saveAreaSnapshot (o : AreaAnswers B) (polls : list FramePoll) (now : string) (channel : option Channel)
    (slot_id : string) (roi : NormalizedRoi) (filename_prefix : string) (session_id : Z) (stage_directory : string)
    (s : SnapshotStorage) (disk : Files) : option (result unit (string * SnapshotStorage * Files)) :=
  match channel with
  | None => Some (Ok ("", s, disk))
  | Some channel =>
      if is_empty slot_id || area_invalid roi then Some (Ok ("", s, disk)) else
      match waitForFullFrame (ss_frame_wait_ms s) polls with
      | None => None
      | Some None => Some (Ok ("", s, disk))
      | Some (Some frame) =>
          match area_rect roi (cols frame) (rows frame) with
          | None => Some (Ok ("", s, disk))
          | Some rect =>
              Some (store_area o now channel slot_id (crop_image frame rect) filename_prefix session_id stage_directory s disk)
          end
      end
  end.

(** [src/snapshot/SnapshotStorage.cpp:133-139 SnapshotStorage::saveIvaAreaSnapshot] *)
Definition saveIvaAreaSnapshot (o : AreaAnswers B) (polls : list FramePoll) (now : string) (channel : option Channel)
    (slot_id : string) (roi : NormalizedRoi) (s : SnapshotStorage) (disk : Files) :=
  saveAreaSnapshot o polls now channel slot_id roi "" (-1) "iva" s disk.

(** The name and the directory of a picture of a session. *)
Definition session_prefix (session_id : Z) (slot_id stage : string) : string :=
  "session_" +:+ to_string session_id +:+ "_slot_" +:+ slot_id +:+ "_" +:+ stage.

(** [src/snapshot/SnapshotStorage.cpp:141-153 SnapshotStorage::saveEvidenceSnapshot] *)
Definition saveEvidenceSnapshot (o : AreaAnswers B) (polls : list FramePoll) (now : string) (channel : option Channel)
    (session_id : Z) (slot_id evidence_reason : string) (roi : NormalizedRoi) (s : SnapshotStorage) (disk : Files) :=
  if (session_id <? 0) || is_empty evidence_reason then Some (Ok ("", s, disk)) else
  saveAreaSnapshot o polls now channel slot_id roi (session_prefix session_id slot_id evidence_reason) session_id
    (stageDirectoryName evidence_reason +:+ "/original") s disk.

(** [src/snapshot/SnapshotStorage.cpp:155-167 SnapshotStorage::saveHallCaptureSnapshot] *)
Definition saveHallCaptureSnapshot (o : AreaAnswers B) (polls : list FramePoll) (now : string) (channel : option Channel)
    (session_id : Z) (slot_id capture_stage : string) (roi : NormalizedRoi) (s : SnapshotStorage) (disk : Files) :=
  if (session_id <? 0) || is_empty capture_stage then Some (Ok ("", s, disk)) else
  saveAreaSnapshot o polls now channel slot_id roi (session_prefix session_id slot_id capture_stage) session_id
    (stageDirectoryName capture_stage +:+ "/original") s disk.

(** [src/snapshot/SnapshotStorage.cpp:107-131 SnapshotStorage::saveFullSizeSnapshot] *)
Definition saveFullSizeSnapshot (o : AreaAnswers B) (polls : list FramePoll) (now : string) (channel : option Channel)
    (s : SnapshotStorage) (disk : Files) : option (result unit (string * Files)) :=
  match channel with
  | None => Some (Ok ("", disk))
  | Some channel =>
      match waitForFullFrame (ss_frame_wait_ms s) polls with
      | None => None
      | Some None => Some (Ok ("", disk))
      | Some (Some frame) =>
          let channel_dir := path_div (ss_snapshot_dir s) (channelDirectoryName (ch_channel_id channel)) in
          if negb (aa_directory o) then Some (Err tt) else
          let filename := ch_camera_id channel +:+ "_" +:+ ch_channel_id channel +:+ "_FULL_" +:+ to_string (cols frame) +:+
            "x" +:+ to_string (rows frame) +:+ "_" +:+ now +:+ ".jpg" in
          let path := path_div channel_dir filename in
          let '(ok, disk) := writeBytes (aa_write o) path (imwrite_bytes frame) disk in
          Some (Ok (if ok then path else "", disk))
      end
  end.
End Storage.

(** * A cut lies within the picture *)

Definition rect_within (r : Rect) (width height : Z) : Prop :=
  0 <= rc_x r /\ 0 <= rc_y r /\ kMinimumCropPixels <= rc_width r /\ kMinimumCropPixels <= rc_height r /\
  rc_x r + rc_width r <= width /\ rc_y r + rc_height r <= height.

Lemma clamp_cut v w : 0 < w -> 0 <= clamp v 0 (w - 1) /\ clamp v 0 (w - 1) + 1 <= w.
Proof. intros Hw. pose proof (clamp_range v 0 (w - 1)). lia. Qed.

Lemma crop_rect_within roi width height r : 0 < width -> 0 < height ->
  crop_rect roi width height = Some r -> rect_within r width height.
Proof.
  intros Hw Hh. unfold crop_rect. cbv zeta.
  generalize (d_lround (d_mul (nr_x roi) (d_of_Z width))) (d_lround (d_mul (nr_y roi) (d_of_Z height)))
    (d_lround (d_mul (d_add (nr_x roi) (nr_width roi)) (d_of_Z width)))
    (d_lround (d_mul (d_add (nr_y roi) (nr_height roi)) (d_of_Z height))). intros a b c d.
  destruct (_ || _) eqn:E; [done|]. intros [= <-]. apply orb_false_iff in E.
  pose proof (clamp_cut a width Hw). pose proof (clamp_cut b height Hh).
  pose proof (clamp_range c (clamp a 0 (width - 1) + 1) width). pose proof (clamp_range d (clamp b 0 (height - 1) + 1) height).
  unfold rect_within. cbn [rc_x rc_y rc_width rc_height]. lia.
Qed.

Lemma area_rect_within roi width height r : area_rect roi width height = Some r -> rect_within r width height.
Proof.
  unfold area_rect. cbv zeta.
  generalize (d_trunc (d_mul (d_max d_zero (d_min d_one (nr_x roi))) (d_of_Z width)))
    (d_trunc (d_mul (d_max d_zero (d_min d_one (nr_y roi))) (d_of_Z height))).
  intros px py.
  match goal with |- context [Z.min (width - px) ?u] => generalize u end.
  match goal with |- context [Z.min (height - py) ?u] => generalize u end. intros h w.
  destruct (_ || _) eqn:E; [done|]. destruct ((_ <? kMinimumCropPixels) || _) eqn:F; [done|]. intros [= <-].
  rewrite !orb_false_iff in E. apply orb_false_iff in F. unfold rect_within. cbn [rc_x rc_y rc_width rc_height]. lia.
Qed.

(** Whatever numbers the region consists of, also infinities and NaNs, and however large the picture is: a
    rectangle that is cut from a picture, of a camera or of a stream, lies within the picture and has at least eight
    pixels in both directions. *)
Theorem cut_within_picture roi width height r : 0 < width -> 0 < height ->
  crop_rect roi width height = Some r \/ area_rect roi width height = Some r -> rect_within r width height.
Proof. intros Hw Hh [H|H]; [by apply (crop_rect_within roi)|by apply (area_rect_within roi)]. Qed.

(** * Both pictures or none *)

Section Pairs.
Context {B Image : Type} {IL : ImageLibrary B Image}.
Notation Files := (gmap string B).

Definition removals_done (o : PairAnswers B) : Prop := pa_remove_first o = true /\ pa_remove_second o = true.

(** The four names of a pair are different. *)
Definition four_names (p q : string) : Prop :=
  p <> q /\ p <> q +:+ ".tmp" /\ q <> p +:+ ".tmp" /\ p +:+ ".tmp" <> q +:+ ".tmp".

Lemma tmp_other p : p <> p +:+ ".tmp".
Proof. induction p as [|c p IH]; [done|]. simpl. congruence. Qed.

Ltac disk_eq := cbn [negb]; apply map_eq; intros i; rewrite ?lookup_insert, ?lookup_delete;
  repeat (case_decide; rewrite ?lookup_insert, ?lookup_delete); simplify_eq; try done; try congruence.

Lemma write_pair_spec (o : PairAnswers B) p q (a b : B) (disk : Files) : four_names p q ->
  disk !! p = None -> disk !! q = None -> disk !! (p +:+ ".tmp") = None -> disk !! (q +:+ ".tmp") = None ->
  let '(images, disk') := write_pair o p q a b disk in
  (images = mkStoredImagePair p q /\ disk' = <[q := b]> (<[p := a]> disk)) \/
  (images = no_images /\ (removals_done o -> disk' = disk)).
Proof.
  intros (Hpq & Hpt & Hqt & Htt) Hp Hq Ht Hu. pose proof (tmp_other p) as Hp'. pose proof (tmp_other q) as Hq'.
  set (t := p +:+ ".tmp") in *. set (u := q +:+ ".tmp") in *.
  unfold write_pair. fold t u. unfold writeBytes, disk_rename, disk_remove, removals_done.
  destruct (pa_write_original o) as [| |part]; [|right; split; [done|intros [-> ->]; disk_eq]..].
  destruct (pa_write_enhanced o) as [| |part]; cbn [negb]; [|right; split; [done|intros [-> ->]; disk_eq]..].
  destruct (pa_rename_original o); [|right; split; [done|intros [-> ->]; cbn [negb]; disk_eq]].
  rewrite lookup_insert_ne, lookup_insert_eq by done. cbn [negb].
  destruct (pa_rename_enhanced o); [|right; split; [done|intros [-> ->]; cbn [negb]; disk_eq]].
  rewrite lookup_insert_ne, lookup_delete_ne, lookup_insert_eq by done. cbn [negb]. left. split; [done|]. disk_eq.
Qed.
End Pairs.

(** * Names are used once *)

Lemma append_same_end s t a b : String.length a = String.length b -> s +:+ a = t +:+ b -> s = t /\ a = b.
Proof.
  assert (Hlen : forall u v : string, String.length (u +:+ v) = (String.length u + String.length v)%nat)
    by (induction u as [|c u IH]; intros v; simpl; [done|by rewrite IH]).
  intros Hl. revert t. induction s as [|c s IH]; intros [|d t]; simpl; intros H.
  - done.
  - apply (f_equal String.length) in H. simpl in H. rewrite Hlen in H. lia.
  - apply (f_equal String.length) in H. simpl in H. rewrite Hlen in H. lia.
  - injection H as -> H. by destruct (IH t H) as [-> ->].
Qed.

(** What is behind the last separator is determined. *)
Lemma last_separator d s t a b :
  sall (fun c => negb (bool_decide (c = d))) a = true -> sall (fun c => negb (bool_decide (c = d))) b = true ->
  s +:+ String d a = t +:+ String d b -> a = b.
Proof.
  intros Ha Hb. revert t. induction s as [|c s IH]; intros [|e t]; simpl; intros H.
  - by injection H.
  - injection H as <- ->. rewrite sall_app in Ha. simpl in Ha. rewrite bool_decide_eq_true_2 in Ha by done.
    by rewrite andb_false_r in Ha.
  - injection H as -> <-. rewrite sall_app in Hb. simpl in Hb. rewrite bool_decide_eq_true_2 in Hb by done.
    by rewrite andb_false_r in Hb.
  - injection H as _ H. by apply (IH t).
Qed.

Definition pair_kind (kind : string) : Prop := kind = "original" \/ kind = "enhanced".

Lemma path_div_suffix a b : exists x, path_div a b = x +:+ b.
Proof.
  unfold path_div, path_join. destruct (is_absolute b); [by exists ""|].
  destruct (is_empty a || ends_with_slash a); [by exists a|]. exists (a +:+ "/"). by rewrite append_assoc.
Qed.

(** The end of a name: the number of the call, the kind and the extension. *)
Lemma pair_path_suffix directory prefix now n kind : exists x,
  pair_path directory prefix (now +:+ "_" +:+ pretty n) kind = (x +:+ String "_" (pretty (n : N))) +:+ ("_" +:+ kind +:+ ".jpg").
Proof.
  unfold pair_path. match goal with |- context [path_div ?a ?b] => destruct (path_div_suffix a b) as [x ->] end.
  exists (x +:+ prefix +:+ now). by rewrite !append_assoc.
Qed.

Lemma pair_path_inj d p now n k d' p' now' n' k' : pair_kind k -> pair_kind k' ->
  pair_path d p (now +:+ "_" +:+ pretty (n : N)) k = pair_path d' p' (now' +:+ "_" +:+ pretty (n' : N)) k' -> n = n' /\ k = k'.
Proof.
  intros Hk Hk' H. destruct (pair_path_suffix d p now n k) as [x Hx]. destruct (pair_path_suffix d' p' now' n' k') as [x' Hx'].
  rewrite Hx, Hx' in H. apply append_same_end in H as [H Hkk]; [|by destruct Hk as [->| ->], Hk' as [->| ->]].
  assert (Hd : forall m : N, sall (fun c => negb (bool_decide (c = "_"%char))) (pretty m) = true).
  { intros m. eapply sall_impl; [|apply pretty_N_digits]. intros c Hc. apply negb_true_iff, bool_decide_eq_false. by intros ->. }
  apply last_separator in H; [|done..]. split; [by apply pretty_N_inj|].
  destruct Hk as [->| ->], Hk' as [->| ->]; try done; discriminate Hkk.
Qed.

(** No name of a picture is one of a temporary file. *)
Lemma pair_path_not_tmp d p now n k t : pair_kind k -> pair_path d p (now +:+ "_" +:+ pretty (n : N)) k <> t +:+ ".tmp".
Proof.
  intros Hk H. destruct (pair_path_suffix d p now n k) as [x Hx]. rewrite Hx in H.
  assert (E : exists y, (x +:+ String "_" (pretty n)) +:+ ("_" +:+ k +:+ ".jpg") = y +:+ ".jpg").
  { eexists. by rewrite <- !append_assoc. }
  destruct E as [y Ey]. rewrite Ey in H. by apply append_same_end in H as [_ H].
Qed.

Lemma pair_four_names d p now n :
  four_names (pair_path d p (now +:+ "_" +:+ pretty (n : N)) "original") (pair_path d p (now +:+ "_" +:+ pretty n) "enhanced").
Proof.
  unfold four_names. split; [|split; [|split]].
  - intros H. apply pair_path_inj in H as [_ H]; [done|by left|by right].
  - apply pair_path_not_tmp. by left.
  - apply pair_path_not_tmp. by right.
  - intros H. apply append_same_end in H as [H _]; [|done]. apply pair_path_inj in H as [_ H]; [done|by left|by right].
Qed.

(** * The pictures of a run *)

Section Run.
Context {B Image : Type} {IL : ImageLibrary B Image}.
Notation Files := (gmap string B).

(** A call for two pictures of a camera: of a session and its stage, or of an event. *)
Record PairCall := mkPairCall {
  pc_answers : PairAnswers B;
  pc_now : string;
  pc_channel_id : string;
  pc_session : option (Z * string);
  pc_slot_id : string;
  pc_roi : NormalizedRoi;
  pc_original : B;
  pc_enhanced : B
}.

Definition pair_call (c : PairCall) (s : SnapshotStorage) (disk : Files) : StoredImagePair * SnapshotStorage * Files :=
  match pc_session c with
  | Some (session_id, stage) =>
      saveCameraApiHallCapture (pc_answers c) (pc_now c) (pc_channel_id c) session_id (pc_slot_id c) stage (pc_roi c)
        (pc_original c) (pc_enhanced c) s disk
  | None =>
      saveCameraApiIvaSnapshot (pc_answers c) (pc_now c) (pc_channel_id c) (pc_slot_id c) (pc_roi c)
        (pc_original c) (pc_enhanced c) s disk
  end.

(** The two files that an answer promises, with the cut pictures. *)
Definition promised (c : PairCall) (images : StoredImagePair) : list (string * B) :=
  if bool_decide (originalPath images = "" /\ enhancedPath images = "") then [] else
  match cropJpeg (pc_original c) (pc_roi c), cropJpeg (pc_enhanced c) (pc_roi c) with
  | Some a, Some b => [(originalPath images, a); (enhancedPath images, b)]
  | _, _ => []
  end.

Fixpoint pair_run (calls : list PairCall) (s : SnapshotStorage) (disk : Files) : list (string * B) * SnapshotStorage * Files :=
  match calls with
  | [] => ([], s, disk)
  | c :: calls =>
      let '(images, s1, disk1) := pair_call c s disk in
      let '(log, s2, disk2) := pair_run calls s1 disk1 in (promised c images ++ log, s2, disk2)
  end.

(** The files of the disk have names with smaller numbers than the next one. *)
Definition disk_ok (s : SnapshotStorage) (disk : Files) : Prop := forall path, is_Some (disk !! path) ->
  exists d p now n k, pair_kind k /\ path = pair_path d p (now +:+ "_" +:+ pretty (n : N)) k /\ Z.of_N n < ss_next_file_sequence s.

Lemma disk_ok_fresh s disk d p now k : 0 <= ss_next_file_sequence s -> disk_ok s disk -> pair_kind k ->
  let path := pair_path d p (now +:+ "_" +:+ pretty (Z.to_N (ss_next_file_sequence s))) k in
  disk !! path = None /\ disk !! (path +:+ ".tmp") = None.
Proof.
  intros Hn Hok Hk path. split; apply eq_None_not_Some; intros Hs; apply Hok in Hs as (d' & p' & now' & n & k' & Hk' & E & Hlt).
  - apply pair_path_inj in E as [<- _]; [lia|done|done].
  - symmetry in E. by apply pair_path_not_tmp in E.
Qed.

Lemma pair_path_not_empty d p now n k : pair_path d p (now +:+ "_" +:+ pretty (n : N)) k <> "".
Proof. destruct (pair_path_suffix d p now n k) as [x ->]. by destruct x. Qed.

Lemma store_pair_step o d p now (a b : B) s disk : removals_done o -> 0 <= ss_next_file_sequence s < 2 ^ 64 - 1 -> disk_ok s disk ->
  let '(images, s', disk') := store_pair o d p now a b s disk in
  disk_ok s' disk' /\ ss_next_file_sequence s <= ss_next_file_sequence s' <= ss_next_file_sequence s + 1 /\
  (images = no_images /\ disk' = disk \/
   exists x y, images = mkStoredImagePair x y /\ x <> "" /\ x <> y /\ disk !! x = None /\ disk !! y = None /\
     disk' = <[y := b]> (<[x := a]> disk)).
Proof.
  intros Hr Hn Hok. unfold store_pair. destruct (pa_dir_original o); [|by repeat split; [..|lia|lia|left]].
  destruct (pa_dir_enhanced o); [|by repeat split; [..|lia|lia|left]]. cbn [negb fetch_sequence].
  set (unique := now +:+ "_" +:+ pretty (Z.to_N (ss_next_file_sequence s))).
  destruct (disk_ok_fresh s disk d p now "original" ltac:(lia) Hok ltac:(by left)) as [H1 H2]. fold unique in H1, H2.
  destruct (disk_ok_fresh s disk d p now "enhanced" ltac:(lia) Hok ltac:(by right)) as [H3 H4]. fold unique in H3, H4.
  pose proof (pair_four_names d p now (Z.to_N (ss_next_file_sequence s))) as H4n. fold unique in H4n.
  pose proof (write_pair_spec o _ _ a b disk H4n H1 H3 H2 H4) as Hw.
  destruct (write_pair o _ _ a b disk) as [images disk']. cbn [ss_next_file_sequence].
  rewrite Z.mod_small by lia.
  assert (Hold : forall path, is_Some (disk !! path) -> exists d p now n k,
    pair_kind k /\ path = pair_path d p (now +:+ "_" +:+ pretty (n : N)) k /\ Z.of_N n < ss_next_file_sequence s + 1).
  { intros path (d' & p' & now' & n & k & Hk & E & Hlt)%Hok. exists d', p', now', n, k. repeat split; [done|done|lia]. }
  destruct Hw as [[-> ->]|[-> Hw]].
  - split; [|split; [lia|right]].
    + intros path. unfold disk_ok in *. cbn [ss_next_file_sequence]. rewrite lookup_insert, lookup_insert.
      case_decide as E1; [intros _|case_decide as E2; [intros _|by apply Hold]]; subst;
        do 5 eexists; (split; [|split; [reflexivity|lia]]); [by right|by left].
    + do 2 eexists. split; [done|]. split; [apply pair_path_not_empty|]. by destruct H4n.
  - rewrite Hw by done. split; [|split; [lia|by left]]. intros path Hp. apply Hold. done.
Qed.

(** The calls of the program come to [store_pair]. *)
Lemma pair_call_cases c s disk :
  pair_call c s disk = (no_images, s, disk) \/
  exists d p a b, cropJpeg (pc_original c) (pc_roi c) = Some a /\ cropJpeg (pc_enhanced c) (pc_roi c) = Some b /\
    pair_call c s disk = store_pair (pc_answers c) d p (pc_now c) a b s disk.
Proof.
  unfold pair_call. destruct (pc_session c) as [[session_id stage]|];
    [unfold saveCameraApiHallCapture|unfold saveCameraApiIvaSnapshot]; (destruct (_ || _); [by left|]);
    (destruct (cropJpeg (pc_original c) (pc_roi c)) as [a|]; [|by left]);
    (destruct (cropJpeg (pc_enhanced c) (pc_roi c)) as [b|]; [|by left]); right; cbv zeta; do 4 eexists; by repeat split.
Qed.

Lemma pair_call_step c s disk : removals_done (pc_answers c) -> 0 <= ss_next_file_sequence s < 2 ^ 64 - 1 -> disk_ok s disk ->
  let '(images, s', disk') := pair_call c s disk in
  disk_ok s' disk' /\ ss_next_file_sequence s <= ss_next_file_sequence s' <= ss_next_file_sequence s + 1 /\
  NoDup (promised c images).*1 /\ Forall (fun path => disk !! path = None) (promised c images).*1 /\
  disk' = list_to_map (promised c images) ∪ disk.
Proof.
  intros Hr Hn Hok.
  assert (Hnone : promised c no_images = []) by done.
  destruct (pair_call_cases c s disk) as [->|(d & p & a & b & Ha & Hb & ->)].
  { rewrite Hnone. simpl. split_and!; try done; try lia; [apply NoDup_nil_2|by rewrite map_empty_union]. }
  pose proof (store_pair_step (pc_answers c) d p (pc_now c) a b s disk Hr Hn Hok) as H.
  destruct (store_pair _ _ _ _ _ _ _ _) as [[images s'] disk']. destruct H as (H1 & H2 & H).
  split; [done|]. split; [done|]. destruct H as [[-> ->]|(x & y & -> & Hx & Hxy & Hdx & Hdy & ->)].
  - rewrite Hnone. simpl. split_and!; [apply NoDup_nil_2|done|by rewrite map_empty_union].
  - unfold promised. cbn [originalPath enhancedPath]. rewrite bool_decide_eq_false_2 by (by intros [? _]). rewrite Ha, Hb.
    cbn [fmap list_fmap fst]. split_and!.
    + apply NoDup_cons. split; [|apply NoDup_singleton]. by intros ?%list_elem_of_singleton.
    + by repeat constructor.
    + cbn [list_to_map foldr uncurry]. rewrite <- !insert_union_l, map_empty_union.
      by rewrite insert_insert_ne.
Qed.

Lemma pair_run_spec calls : forall s disk, Forall (fun c => removals_done (pc_answers c)) calls ->
  0 <= ss_next_file_sequence s -> ss_next_file_sequence s + Z.of_nat (length calls) < 2 ^ 64 -> disk_ok s disk ->
  let '(log, s', disk') := pair_run calls s disk in
  NoDup log.*1 /\ Forall (fun path => disk !! path = None) log.*1 /\ disk' = list_to_map log ∪ disk.
Proof.
  induction calls as [|c calls IH]; intros s disk Hr Hn Hlen Hok; cbn [pair_run].
  { simpl. split_and!; [apply NoDup_nil_2|done|by rewrite map_empty_union]. }
  apply Forall_cons in Hr as [Hc Hr]. cbn [length] in Hlen.
  pose proof (pair_call_step c s disk Hc ltac:(lia) Hok) as H. destruct (pair_call c s disk) as [[images s1] disk1].
  destruct H as (Hok1 & Hn1 & Hnd & Hfresh & ->).
  specialize (IH s1 _ Hr ltac:(lia) ltac:(lia) Hok1). destruct (pair_run calls s1 _) as [[log s2] disk2].
  destruct IH as (Hnd2 & Hfresh2 & ->). rewrite fmap_app.
  assert (Hother : forall path, path ∈ log.*1 -> path ∉ (promised c images).*1 /\ disk !! path = None).
  { intros path Hp. rewrite Forall_forall in Hfresh2. apply Hfresh2 in Hp. apply lookup_union_None in Hp as [Hp ->].
    split; [by apply not_elem_of_list_to_map|done]. }
  split; [|split].
  - apply NoDup_app. split; [done|]. split; [|done]. intros path H1 H2. by apply (Hother path).
  - apply Forall_app. split; [done|]. apply Forall_forall. intros path Hp. by apply Hother.
  - rewrite list_to_map_app, map_union_assoc. f_equal. apply map_union_comm. apply map_disjoint_list_to_map_l.
    apply Forall_forall. intros [path bytes] Hp. cbn. apply not_elem_of_list_to_map, Hother. apply list_elem_of_fmap.
    by exists (path, bytes).
Qed.

(** C22 [error] The pictures of a run are accounted for. Whatever calls for pictures of sessions and events come, and
    whatever the disk answers to making directories, writing and renaming: as long as what is to be removed can be
    removed, the files on the disk are exactly those that were answered, each with the cut picture of its call and under a
    name of its own; a call that fails leaves nothing behind, neither half a pair nor a temporary file. *)
Theorem pictures_accounted calls directory wait_ms :
  Forall (fun c => removals_done (pc_answers c)) calls -> Z.of_nat (length calls) < 2 ^ 64 ->
  let '(log, _, disk) := pair_run calls (mkSnapshotStorage directory wait_ms 0) ∅ in
  NoDup log.*1 /\ disk = list_to_map log.
Proof.
  intros Hr Hlen.
  pose proof (pair_run_spec calls (mkSnapshotStorage directory wait_ms 0) ∅ Hr) as H. cbn [ss_next_file_sequence] in H.
  specialize (H ltac:(lia) ltac:(lia)). destruct (pair_run _ _ _) as [[log s] disk].
  destruct H as (H1 & _ & H2); [intros path [? Hp]; by rewrite lookup_empty in Hp|]. split; [done|]. by rewrite H2, map_union_empty.
Qed.
End Run.

(** * Waiting for a frame ends *)

(** The looks come at least a tenth of a second apart. *)
Fixpoint polls_from {Image} (elapsed : Z) (polls : list (FramePoll (Image := Image))) : Prop :=
  match polls with
  | [] => True
  | p :: polls => elapsed <= fp_elapsed_ms p /\ polls_from (fp_elapsed_ms p + 100) polls
  end.

(** A wait is over after one look more than it has tenths of a second, with a frame or without one. *)
Theorem frame_wait_ends {Image} wait_ms (polls : list (FramePoll (Image := Image))) elapsed : polls_from elapsed polls ->
  polls <> [] -> wait_ms - elapsed <= 100 * (Z.of_nat (length polls) - 1) -> is_Some (waitForFullFrame wait_ms polls).
Proof.
  revert elapsed. induction polls as [|p polls IH]; intros elapsed Hp Hne Hl; cbn [length polls_from] in *; [done|].
  destruct Hp as [H1 H2]. cbn [waitForFullFrame]. destruct (negb (fp_running p)); [done|].
  destruct (fp_frame p); [done|]. destruct (wait_ms <=? fp_elapsed_ms p) eqn:E; [done|]. apply Z.leb_gt in E.
  apply (IH (fp_elapsed_ms p + 100) H2); [|lia]. intros ->. cbn in Hl. lia.
Qed.

(** * Runs *)

(** Pictures are their sizes, and a JPEG is such a size with a number; everything can be decoded. *)
#[local] Instance toy_images : ImageLibrary (Z * Z * Z) (Z * Z * Z) := {|
  bytes_empty := fun b => bool_decide (b = (0, 0, 0));
  imdecode := Some;
  cols := fun i => i.1.1;
  rows := fun i => i.1.2;
  crop_image := fun i r => (rc_width r, rc_height r, i.2);
  imencode := Some;
  imwrite_bytes := fun i => i
|}.
Definition half : double := d_literal 5 1.
Definition toy_roi : NormalizedRoi := mkNormalizedRoi half half half half.
Definition all_done : PairAnswers (Z * Z * Z) := mkPairAnswers true true WriteDone WriteDone true true true true.
Definition rename_fails : PairAnswers (Z * Z * Z) := mkPairAnswers true true WriteDone WriteDone true false true true.
Definition write_fails : PairAnswers (Z * Z * Z) := mkPairAnswers true true WriteDone (WriteFailed (1, 1, 1)) true true true true.
Definition toy_call (o : PairAnswers (Z * Z * Z)) (session : option (Z * string)) : PairCall :=
  mkPairCall o "20240301_120000_000" "ch01" session "EV01" toy_roi (1920, 1080, 1) (640, 480, 2).
Definition toy_calls : list PairCall :=
  [toy_call all_done (Some (7, "HALL_30S")); toy_call rename_fails (Some (7, "HALL_60S")); toy_call write_fails None;
   toy_call all_done None].

Lemma pictures_accounted_witness :
  Forall (fun c => removals_done (pc_answers c)) toy_calls /\
  (let '(log, _, disk) := pair_run toy_calls (mkSnapshotStorage "data/snapshots" 2500 0) ∅ in
   NoDup log.*1 /\ disk = list_to_map log /\ length log = 4%nat /\
   disk !! "data/snapshots/ch1/EV01/occupied_30s/original/session_7_slot_EV01_HALL_30S_CAMERA_API_20240301_120000_000_0_original.jpg"
     = Some (960, 540, 1)).
Proof.
  assert (Hr : Forall (fun c => removals_done (pc_answers c)) toy_calls) by (repeat constructor).
  split; [exact Hr|].
  pose proof (pictures_accounted toy_calls "data/snapshots" 2500 Hr ltac:(vm_compute; reflexivity)) as H.
  assert (Hv : let '(log, _, disk) := pair_run toy_calls (mkSnapshotStorage "data/snapshots" 2500 0) ∅ in length log = 4%nat /\
   disk !! "data/snapshots/ch1/EV01/occupied_30s/original/session_7_slot_EV01_HALL_30S_CAMERA_API_20240301_120000_000_0_original.jpg"
     = Some (960, 540, 1)) by (vm_compute; split; reflexivity).
  destruct (pair_run toy_calls (mkSnapshotStorage "data/snapshots" 2500 0) ∅) as [[log s] disk].
  destruct H as [H1 H2]. destruct Hv as [H3 H4]. exact (conj H1 (conj H2 (conj H3 H4))).
Defined.

Lemma cut_within_picture_witness : exists r, crop_rect toy_roi 1920 1080 = Some r /\ rect_within r 1920 1080.
Proof.
  eexists. split; [vm_compute; reflexivity|].
  apply (cut_within_picture toy_roi 1920 1080); [lia|lia|left; vm_compute; reflexivity].
Defined.

(** The same region of the same picture is cut differently for a picture of the camera and for a frame of the stream. *)
Example cuts_differ :
  let roi := mkNormalizedRoi (d_literal 333 3) d_zero half d_one in
  crop_rect roi 100 100 = Some (mkRect 33 0 50 100) /\ crop_rect roi 200 100 = Some (mkRect 67 0 100 100) /\
  area_rect roi 200 100 = Some (mkRect 66 0 99 100).
Proof. vm_compute. repeat split. Qed.
