(* ===== verification/MqttTransport.v ===== *)
(** The MQTT transport: [src/mqtt/MosquittoTransport.cpp]. One thread, the supervisor, makes a
    libmosquitto handle per connection epoch, runs its network loop and so makes all the callbacks; other
    threads publish, retire the epoch and stop the transport. A step of the supervisor goes from one lock of
    the mutex to the next; what a callback does after its lock (facts for the observers, messages for
    the application) waits in a list and is done one by one, so that other threads come in between. The
    answers of libmosquitto are arguments of the steps; a handle and its context are named by
    the epoch they were made for. The log is what the transport gave away, oldest first. *)
From S2P Require Import Prelude SensorProtocol SequencePolicy SlotConfig OccupancyDb FireStore FireDelivery.

(** * Data *)

(** [include/mqtt/MqttTransport.hpp:12-17 MqttConnectionOptions] *)
Record MqttConnectionOptions := mkMqttConnectionOptions {
  mco_clientId : string;
  mco_host : string;
  mco_port : Z;
  mco_keepAliveSeconds : Z
}.

(** [include/mqtt/MqttTransport.hpp:19-22 MqttSubscription] *)
Record MqttSubscription := mkMqttSubscription { ms_topic : string; ms_qos : Z }.

(** [include/mqtt/MqttTransport.hpp:24-27 MqttPublishResult] *)
Record MqttPublishResult := mkMqttPublishResult { mpr_accepted : bool; mpr_messageId : Z }.
Definition rejected_publish : MqttPublishResult := mkMqttPublishResult false (-1).
Definition rejected_tracked : MqttTrackedPublishResult :=
  mkMqttTrackedPublishResult false 0 (-1) (mkMqttPublishCorrelation "" 0 "").

(** [src/mqtt/MosquittoTransport.cpp:213-216 BufferedMessage] *)
Record BufferedMessage := mkBufferedMessage { bm_topic : string; bm_payload : string }.

(** [src/mqtt/MosquittoTransport.cpp:30-32 kPublishNone] What a message identifier is in
    use for; an identifier that is not in the table is kPublishNone. *)
Inductive PublishKind := kPublishRegular | kPublishTracked.
#[global] Instance PublishKind_eq_dec : EqDecision PublishKind.
Proof. solve_decision. Defined.

(** [src/mqtt/MosquittoTransport.cpp:23-29 kNetworkLoopTimeoutMs] and the error codes of
    mosquitto.h that the code names. *)
Definition kSubscriptionRejected : Z := 128.
Definition kPreReadyMessageCapacity : nat := 256.
Definition kPreReadyByteCapacity : N := 2097152.
Definition kMqttMidSlots : Z := 65536.
Definition kRegularPublishInFlightCapacity : nat := 32.
Definition MOSQ_ERR_SUCCESS : Z := 0.
Definition MOSQ_ERR_NOMEM : Z := 1.
Definition MOSQ_ERR_INVAL : Z := 3.
Definition MOSQ_ERR_CONN_LOST : Z := 7.
Definition MOSQ_ERR_PAYLOAD_SIZE : Z := 9.

(** The members that belong to the connection. *)
Record Epoch := mkEpoch {
  ep_mosq : option N;
  ep_context : option N;
  ep_active : N;
  ep_connected : bool;
  ep_submitted : bool;
  ep_ready : bool;
  ep_abort : bool;
  ep_disconnected : bool;
  ep_subscriptions : gmap Z MqttSubscription;
  ep_kinds : gmap Z PublishKind;
  ep_regular : nat;
  ep_buffer : list BufferedMessage;
  ep_bytes : N
}.

(** What the supervisor still has to do outside the mutex before it goes on. *)
Inductive SupAction :=
| Emit (fact : MqttTransportFact)
| Hand (epoch : N) (m : BufferedMessage) (caught : bool)
| Redeliver (epoch : N) (ms : list BufferedMessage).

(** Where the supervisor is: the thread does not exist, it is before the test of the outer loop, before
    the number of the next epoch, before the handle of an epoch, before its connection, before the test
    of the inner loop, in the network loop, after it, before the subscription of the
    topics that are left, before the end of the epoch, in its pause, or it has returned. *)
Inductive SupAt :=
| SupAbsent | SupTop | SupNumber | SupCreate (epoch : N) | SupConnect (epoch : N)
| SupLoop (epoch : N) (loopResult : Z) | SupNetwork (epoch : N) | SupSubmit (epoch : N)
| SupReady (epoch : N) | SupSubscribe (epoch : N) (rest : list MqttSubscription)
| SupRetire (epoch : N) (loopResult : Z) | SupWait | SupDone.

(** What the transport gave away: facts and the older observers, messages that came in and
    messages that the application got, publications that were accepted. *)
Inductive TransportEvent :=
| EvInstalled (epoch : N)
| EvFact (fact : MqttTransportFact)
| EvOnConnected
| EvOnDisconnected (reason : Z)
| EvOnPublished (messageId : Z)
| EvArrived (epoch : N) (m : BufferedMessage)
| EvHanded (epoch : N) (m : BufferedMessage)
| EvRegular (epoch : N) (messageId : Z)
| EvTracked (epoch : N) (messageId : Z) (c : MqttPublishCorrelation).

(** [src/mqtt/MosquittoTransport.cpp:741-765 mutex_] The members of the transport and of its threads. *)
Record Transport := mkTransport {
  mt_library : bool;
  mt_started : bool;
  mt_stopping : bool;
  mt_joining : bool;
  mt_options : MqttConnectionOptions;
  mt_subscriptions : list MqttSubscription;
  mt_counter : N;
  mt_ep : Epoch;
  mt_at : SupAt;
  mt_todo : list SupAction;
  mt_log : list TransportEvent
}.

Definition no_epoch : Epoch :=
  mkEpoch None None 0 false false false false false ∅ ∅ 0 [] 0.
Definition no_options : MqttConnectionOptions := mkMqttConnectionOptions "" "" 1883 60.
Definition new_transport : Transport :=
  mkTransport false false false false no_options [] 0 no_epoch SupAbsent [] [].

Definition set_ep (t : Transport) (e : Epoch) : Transport :=
  mkTransport (mt_library t) (mt_started t) (mt_stopping t) (mt_joining t) (mt_options t)
    (mt_subscriptions t) (mt_counter t) e (mt_at t) (mt_todo t) (mt_log t).
Definition go (t : Transport) (at_ : SupAt) (todo : list SupAction) : Transport :=
  mkTransport (mt_library t) (mt_started t) (mt_stopping t) (mt_joining t) (mt_options t)
    (mt_subscriptions t) (mt_counter t) (mt_ep t) at_ todo (mt_log t).
Definition say (t : Transport) (l : list TransportEvent) : Transport :=
  mkTransport (mt_library t) (mt_started t) (mt_stopping t) (mt_joining t) (mt_options t)
    (mt_subscriptions t) (mt_counter t) (mt_ep t) (mt_at t) (mt_todo t) (mt_log t ++ l).

(** The flags of the connection. *)
Definition set_link (e : Epoch) (connected submitted ready abort disconnected : bool) : Epoch :=
  mkEpoch (ep_mosq e) (ep_context e) (ep_active e) connected submitted ready abort disconnected
    (ep_subscriptions e) (ep_kinds e) (ep_regular e) (ep_buffer e) (ep_bytes e).
Definition set_kinds (e : Epoch) (kinds : gmap Z PublishKind) (regular : nat) : Epoch :=
  mkEpoch (ep_mosq e) (ep_context e) (ep_active e) (ep_connected e) (ep_submitted e) (ep_ready e)
    (ep_abort e) (ep_disconnected e) (ep_subscriptions e) kinds regular (ep_buffer e) (ep_bytes e).
Definition set_buffer (e : Epoch) (buffer : list BufferedMessage) (bytes : N) : Epoch :=
  mkEpoch (ep_mosq e) (ep_context e) (ep_active e) (ep_connected e) (ep_submitted e) (ep_ready e)
    (ep_abort e) (ep_disconnected e) (ep_subscriptions e) (ep_kinds e) (ep_regular e) buffer bytes.
Definition set_subscriptions (e : Epoch) (subs : gmap Z MqttSubscription) : Epoch :=
  mkEpoch (ep_mosq e) (ep_context e) (ep_active e) (ep_connected e) (ep_submitted e) (ep_ready e)
    (ep_abort e) (ep_disconnected e) subs (ep_kinds e) (ep_regular e) (ep_buffer e) (ep_bytes e).

Definition plain_fact (kind : MqttTransportFactKind) (epoch : N) (messageId reason : Z)
    : MqttTransportFact :=
  mkMqttTransportFact kind epoch messageId reason "" [].

(** * Under the mutex *)

(** [src/mqtt/MosquittoTransport.cpp:707-710 canPublishUnlocked] *)
Definition canPublishUnlocked (t : Transport) : bool :=
  mt_started t && negb (mt_stopping t) && ep_connected (mt_ep t) &&
  bool_decide (is_Some (ep_mosq (mt_ep t))) && negb (ep_active (mt_ep t) =? 0)%N.

(** [src/mqtt/MosquittoTransport.cpp:712-717 isActiveEpochUnlocked] *)
Definition isActiveEpochUnlocked (handle context : N) (e : Epoch) : bool :=
  bool_decide (ep_mosq e = Some handle) && bool_decide (ep_context e = Some context) &&
  (ep_active e =? context)%N.

(** [src/mqtt/MosquittoTransport.cpp:231-238 abortEpochUnlocked] The call of mosquitto_disconnect only
    queues a packet. *)
Definition abortEpochUnlocked (e : Epoch) : Epoch :=
  if (ep_active e =? 0)%N then e else
  set_link e false (ep_submitted e) false true (ep_disconnected e).

(** [src/mqtt/MosquittoTransport.cpp:218-229 registerPublishUnlocked] *)
Definition registerPublishUnlocked (messageId : Z) (kind : PublishKind) (e : Epoch) : option Epoch :=
  if (messageId <=? 0) || (kMqttMidSlots <=? messageId) ||
     bool_decide (is_Some (ep_kinds e !! messageId)) then None
  else Some (set_kinds e (<[messageId := kind]> (ep_kinds e))
               (if bool_decide (kind = kPublishRegular) then S (ep_regular e) else ep_regular e)).

(** [src/mqtt/MosquittoTransport.cpp:719-739 resetStoppedStateUnlocked] *)
Definition resetStoppedStateUnlocked (t : Transport) : Transport :=
  mkTransport (mt_library t) false false (mt_joining t) no_options [] (mt_counter t) no_epoch
    (mt_at t) (mt_todo t) (mt_log t).

(** * The operations of the other threads *)

(** [mosquitto_publish]: the handle, topic, payload, qos and retain give a result code and
    a message identifier. *)
Definition MosquittoPublish : Type := option N -> string -> string -> Z -> bool -> Z * Z.

(** A submission that has passed the guards. *)
Definition submit (lib : MosquittoPublish) (topic payload : string) (qos : Z) (retain : bool)
    (kind : PublishKind) (t : Transport) : option Z * Transport :=
  let '(rc, messageId) := lib (ep_mosq (mt_ep t)) topic payload qos retain in
  match (if rc =? MOSQ_ERR_SUCCESS then registerPublishUnlocked messageId kind (mt_ep t) else None) with
  | Some e => (Some messageId, set_ep t e)
  | None => (None, set_ep t (abortEpochUnlocked (mt_ep t)))
  end.
Definition submit_regular (lib : MosquittoPublish) (topic payload : string) (qos : Z) (retain : bool)
    (t : Transport) : MqttPublishResult * Transport :=
  match submit lib topic payload qos retain kPublishRegular t with
  | (Some messageId, t') =>
      (mkMqttPublishResult true messageId, say t' [EvRegular (ep_active (mt_ep t)) messageId])
  | (None, t') => (rejected_publish, t')
  end.

(** [src/mqtt/MosquittoTransport.cpp:96-118 publish] *)
Definition publish (lib : MosquittoPublish) (topic payload : string) (qos : Z) (retain : bool)
    (t : Transport) : MqttPublishResult * Transport :=
  if negb (canPublishUnlocked t) || negb (qos =? 1) ||
     (kRegularPublishInFlightCapacity <=? ep_regular (mt_ep t))%nat
  then (rejected_publish, t)
  else submit_regular lib topic payload qos retain t.

(** [src/mqtt/MosquittoTransport.cpp:120-142 publishInEpoch] *)
Definition publishInEpoch (lib : MosquittoPublish) (topic payload : string) (qos : Z) (retain : bool)
    (expectedEpoch : N) (t : Transport) : MqttPublishResult * Transport :=
  if negb (canPublishUnlocked t) || negb (ep_ready (mt_ep t)) || negb (qos =? 1) ||
     (expectedEpoch =? 0)%N || negb (ep_active (mt_ep t) =? expectedEpoch)%N ||
     (kRegularPublishInFlightCapacity <=? ep_regular (mt_ep t))%nat
  then (rejected_publish, t)
  else submit_regular lib topic payload qos retain t.

(** [src/mqtt/MosquittoTransport.cpp:144-170 publishTracked] *)
Definition publishTracked (lib : MosquittoPublish) (topic payload : string) (retain : bool)
    (c : MqttPublishCorrelation) (expectedEpoch : N) (t : Transport)
    : MqttTrackedPublishResult * Transport :=
  if negb (canPublishUnlocked t) || negb (ep_ready (mt_ep t)) || (expectedEpoch =? 0)%N ||
     negb (ep_active (mt_ep t) =? expectedEpoch)%N || is_empty (mpc_deliveryKey c) ||
     (mpc_revision c =? 0)%N || is_empty (mpc_attemptId c)
  then (rejected_tracked, t)
  else match submit lib topic payload 1 retain kPublishTracked t with
       | (Some messageId, t') =>
           (mkMqttTrackedPublishResult true (ep_active (mt_ep t')) messageId c,
            say t' [EvTracked (ep_active (mt_ep t')) messageId c])
       | (None, t') => (rejected_tracked, t')
       end.

(** [src/mqtt/MosquittoTransport.cpp:172-179 abortActiveEpoch] *)
Definition abortActiveEpoch (expectedEpoch : N) (t : Transport) : bool * Transport :=
  if negb (canPublishUnlocked t) || negb (ep_active (mt_ep t) =? expectedEpoch)%N then (false, t)
  else (true, set_ep t (abortEpochUnlocked (mt_ep t))).

(** [src/mqtt/MosquittoTransport.cpp:58-94 start] [library] and [thread] are the answers of
    mosquitto_lib_init and of the operating system. The mutex of stopping is held throughout. *)
Definition transport_start (options : MqttConnectionOptions) (subs : list MqttSubscription)
    (library thread : bool) (t : Transport) : bool * Transport :=
  if mt_started t || mt_library t || negb match mt_at t with SupAbsent => true | _ => false end
  then (false, t)
  else if negb library then (false, t)
  else let t' := mkTransport true true false (mt_joining t) options subs 0 (mt_ep t) (mt_at t)
                   (mt_todo t) (mt_log t) in
       if thread then (true, go t' SupTop (mt_todo t'))
       else let r := resetStoppedStateUnlocked t' in
            (false, mkTransport false (mt_started r) (mt_stopping r) (mt_joining r) (mt_options r)
                      (mt_subscriptions r) (mt_counter r) (mt_ep r) (mt_at r) (mt_todo r) (mt_log r)).

(** [src/mqtt/MosquittoTransport.cpp:181-193 stopAndJoin] up to the join; a transport that was not
    started has nothing to stop. *)
Definition request_transport_stop (t : Transport) : Transport :=
  if negb (mt_library t) then t else
  let e := mt_ep t in
  mkTransport (mt_library t) false true true (mt_options t) (mt_subscriptions t) (mt_counter t)
    (set_link e false (ep_submitted e) false (ep_abort e) (ep_disconnected e)) (mt_at t) (mt_todo t)
    (mt_log t).

(** [src/mqtt/MosquittoTransport.cpp:194-205 stopAndJoin] after the join. *)
Definition joined (t : Transport) : Transport :=
  let r := resetStoppedStateUnlocked t in
  mkTransport false (mt_started r) (mt_stopping r) false (mt_options r) (mt_subscriptions r)
    (mt_counter r) (mt_ep r) SupAbsent [] (mt_log r).

(** * The callbacks, in the supervisor's thread *)

(** A callback of libmosquitto with its arguments; the list of granted levels is empty where the
    code gets none. *)
Inductive MosquittoCallback :=
| OnMessage (topic payload : string)
| OnConnect (result : Z)
| OnDisconnect (reason : Z)
| OnSubscribe (messageId : Z) (grantedQos : list Z)
| OnPublish (messageId : Z).

Definition message_size (m : BufferedMessage) : N :=
  N.of_nat (String.length (bm_topic m)) + N.of_nat (String.length (bm_payload m)).
Definition fault (epoch : N) (reason : Z) : SupAction :=
  Emit (plain_fact EpochFaulted epoch (-1) reason).
(** Retire the epoch if the callback belongs to the active one. *)
Definition abort_if_active (handle context : N) (t : Transport) : Transport :=
  if isActiveEpochUnlocked handle context (mt_ep t) then set_ep t (abortEpochUnlocked (mt_ep t)) else t.

(** [src/mqtt/MosquittoTransport.cpp:478-544 handleMessage] *)
Definition handleMessage (handle context : N) (m : BufferedMessage) (t : Transport) : Transport :=
  let e := mt_ep t in
  if (kPreReadyByteCapacity <? message_size m)%N
  then go (abort_if_active handle context t) (mt_at t) [fault context MOSQ_ERR_PAYLOAD_SIZE]
  else if negb (isActiveEpochUnlocked handle context e) || negb (ep_connected e) || mt_stopping t then t
  else if negb (ep_ready e)
  then if (kPreReadyMessageCapacity <=? length (ep_buffer e))%nat ||
          (kPreReadyByteCapacity - message_size m <? ep_bytes e)%N
       then go (set_ep t (abortEpochUnlocked e)) (mt_at t) [fault context MOSQ_ERR_NOMEM]
       else say (set_ep t (set_buffer e (ep_buffer e ++ [m]) (ep_bytes e + message_size m)))
              [EvArrived context m]
  else go (say t [EvArrived context m]) (mt_at t) [Hand context m false].

(** [src/mqtt/MosquittoTransport.cpp:546-565 handleConnect] *)
Definition handleConnect (handle context : N) (result : Z) (t : Transport) : Transport :=
  let e := mt_ep t in
  if negb (isActiveEpochUnlocked handle context e) || mt_stopping t then t else
  if result =? 0
  then go (set_ep t (set_link e true (ep_submitted e) (ep_ready e) (ep_abort e) (ep_disconnected e)))
         (mt_at t) [Emit (plain_fact Connected context (-1) 0)]
  else go (set_ep t (set_link e false (ep_submitted e) (ep_ready e) true (ep_disconnected e)))
         (mt_at t) [fault context result].

(** [src/mqtt/MosquittoTransport.cpp:567-583 handleDisconnect] *)
Definition handleDisconnect (handle context : N) (reason : Z) (t : Transport) : Transport :=
  let e := mt_ep t in
  if negb (isActiveEpochUnlocked handle context e) || ep_disconnected e then t else
  go (set_ep t (set_link e false (ep_submitted e) false true true)) (mt_at t)
    [Emit (plain_fact Disconnected context (-1) reason)].

(** [src/mqtt/MosquittoTransport.cpp:585-652 handleSubscribe] The buffered messages are delivered by the
    action [Redeliver]. *)
Definition handleSubscribe (handle context : N) (messageId : Z) (granted : list Z) (t : Transport)
    : Transport :=
  let e := mt_ep t in
  if negb (isActiveEpochUnlocked handle context e) || negb (ep_connected e) || mt_stopping t then t else
  match ep_subscriptions e !! messageId with
  | None => t
  | Some sub =>
      let failed := bool_decide (granted = []) || existsb (Z.eqb kSubscriptionRejected) granted in
      let acknowledged := Emit (mkMqttTransportFact SubscriptionAcknowledged context messageId
        (if failed then kSubscriptionRejected else 0) (ms_topic sub) granted) in
      let e' := set_subscriptions e (delete messageId (ep_subscriptions e)) in
      if failed
      then go (set_ep t (set_link e' false (ep_submitted e) (ep_ready e) true (ep_disconnected e)))
             (mt_at t)
             [acknowledged; Emit (mkMqttTransportFact EpochFaulted context messageId kSubscriptionRejected
                                    (ms_topic sub) granted)]
      else if bool_decide (ep_subscriptions e' = ∅)
      then go (set_ep t (set_buffer (set_link e' (ep_connected e) (ep_submitted e) true (ep_abort e)
                                       (ep_disconnected e)) [] 0))
             (mt_at t)
             [acknowledged; Emit (plain_fact SubscriptionsReady context (-1) 0);
              Redeliver context (ep_buffer e)]
      else go (set_ep t e') (mt_at t) [acknowledged]
  end.

(** [src/mqtt/MosquittoTransport.cpp:654-677 handlePublish] *)
Definition handlePublish (handle context : N) (messageId : Z) (t : Transport) : Transport :=
  let e := mt_ep t in
  if negb (isActiveEpochUnlocked handle context e) || negb (ep_connected e) || mt_stopping t ||
     (messageId <=? 0) || (kMqttMidSlots <=? messageId) then t else
  match ep_kinds e !! messageId with
  | None => t
  | Some kPublishRegular =>
      set_ep t (set_kinds e (delete messageId (ep_kinds e)) (Nat.pred (ep_regular e)))
  | Some kPublishTracked =>
      go (set_ep t (set_kinds e (delete messageId (ep_kinds e)) (ep_regular e))) (mt_at t)
        [Emit (plain_fact PublishAcknowledged context messageId 0)]
  end.

(** [src/mqtt/MosquittoTransport.cpp:435-476 onMessage] The trampolines: the callback of a handle with the context
    that the handle was made with. *)
Definition run_callback (handle : N) (cb : MosquittoCallback) (t : Transport) : Transport :=
  match cb with
  | OnMessage topic payload => handleMessage handle handle (mkBufferedMessage topic payload) t
  | OnConnect result => handleConnect handle handle result t
  | OnDisconnect reason => handleDisconnect handle handle reason t
  | OnSubscribe messageId granted => handleSubscribe handle handle messageId granted t
  | OnPublish messageId => handlePublish handle handle messageId t
  end.

(** [src/mqtt/MosquittoTransport.cpp:679-705 emitFact] [throws]: whether the observer of facts throws; then
    the older observer is not called. *)
Definition observer_events (fact : MqttTransportFact) (throws : bool) : list TransportEvent :=
  EvFact fact ::
  (if throws then [] else
   match mf_kind fact with
   | Connected => [EvOnConnected]
   | Disconnected => [EvOnDisconnected (mf_reason fact)]
   | PublishAcknowledged => [EvOnPublished (mf_messageId fact)]
   | _ => []
   end).

(** One action outside the mutex. A message of the network loop that the application throws
    on retires the epoch (the catch of handleMessage); the exceptions for a buffered message are
    swallowed. A buffered message goes out only while the connection still stands. *)
Definition run_action (throws : bool) (act : SupAction) (rest : list SupAction) (t : Transport)
    : Transport :=
  match act with
  | Emit fact => say (go t (mt_at t) rest) (observer_events fact throws)
  | Hand epoch m caught =>
      let t1 := say t [EvHanded epoch m] in
      if throws && negb caught
      then go (abort_if_active epoch epoch t1) (mt_at t) (fault epoch MOSQ_ERR_NOMEM :: rest)
      else go t1 (mt_at t) rest
  | Redeliver epoch [] => go t (mt_at t) rest
  | Redeliver epoch (m :: ms) =>
      if negb (isActiveEpochUnlocked epoch epoch (mt_ep t)) || negb (ep_connected (mt_ep t)) ||
         negb (ep_ready (mt_ep t)) || mt_stopping t
      then go t (mt_at t) rest
      else go t (mt_at t) (Hand epoch m true :: Redeliver epoch ms :: rest)
  end.

(** * The supervisor *)

(** [src/mqtt/MosquittoTransport.cpp:355-360 nextEpoch] *)
Definition nextEpoch (counter : N) : N :=
  let next := ((counter + 1) mod 2 ^ 64)%N in if (next =? 0)%N then 1%N else next.

(** What the supervisor is told in a step: nothing, whether the handle was made and could be used from
    threads, the result of the connection, a callback of the network loop or its end, the answer to a
    subscription, whether an observer or the application threw. *)
Inductive SupAnswer :=
| Proceed
| Made (handle threaded : bool)
| Connects (rc : Z)
| Calls (cb : MosquittoCallback)
| Returns (rc : Z)
| Subscribed (rc messageId : Z)
| Threw (throws : bool).

(** [src/mqtt/MosquittoTransport.cpp:277-296 supervisorLoop] The installation of a new handle. *)
Definition install (epoch : N) (t : Transport) : Transport :=
  say (go (set_ep t (mkEpoch (Some epoch) (Some epoch) epoch false false false false false ∅ ∅ 0 [] 0))
         (SupConnect epoch) []) [EvInstalled epoch].

(** [src/mqtt/MosquittoTransport.cpp:322-346 supervisorLoop] The end of an epoch. *)
Definition retire (epoch : N) (loopResult : Z) (t : Transport) : Transport :=
  let e := mt_ep t in
  if bool_decide (ep_mosq e = Some epoch) && (ep_active e =? epoch)%N
  then let reason := if ep_abort e && (loopResult =? MOSQ_ERR_SUCCESS) then MOSQ_ERR_CONN_LOST
                     else loopResult in
       go (set_ep t (mkEpoch None None 0 false (ep_submitted e) false (ep_abort e) (ep_disconnected e)
                       ∅ ∅ 0 [] 0)) SupWait
         (if ep_disconnected e then [] else [Emit (plain_fact Disconnected epoch (-1) reason)])
  else go t SupWait [].

(** [src/mqtt/MosquittoTransport.cpp:368-379 submitSubscriptionsIfConnected] up to the first unlock. *)
Definition submitSubscriptionsIfConnected (epoch : N) (t : Transport) : Transport :=
  let e := mt_ep t in
  if negb (bool_decide (ep_mosq e = Some epoch)) || negb (ep_active e =? epoch)%N ||
     negb (ep_connected e) || ep_submitted e || mt_stopping t || ep_abort e
  then go t (SupLoop epoch MOSQ_ERR_SUCCESS) []
  else let t' := set_ep t (set_link e (ep_connected e) true (ep_ready e) (ep_abort e)
                             (ep_disconnected e)) in
       go t' (match mt_subscriptions t with [] => SupReady epoch | subs => SupSubscribe epoch subs end) [].

(** [src/mqtt/MosquittoTransport.cpp:381-391 submitSubscriptionsIfConnected] Without subscriptions. *)
Definition submit_none (epoch : N) (t : Transport) : Transport :=
  let e := mt_ep t in
  if negb (bool_decide (ep_mosq e = Some epoch)) || negb (ep_active e =? epoch)%N ||
     negb (ep_connected e)
  then go t (SupLoop epoch MOSQ_ERR_SUCCESS) []
  else go (set_ep t (set_link e (ep_connected e) (ep_submitted e) true (ep_abort e)
                       (ep_disconnected e)))
         (SupLoop epoch MOSQ_ERR_SUCCESS) [Emit (plain_fact SubscriptionsReady epoch (-1) 0)].

(** [src/mqtt/MosquittoTransport.cpp:393-433 submitSubscriptionsIfConnected] One topic. *)
Definition subscribe_one (epoch : N) (sub : MqttSubscription) (rest : list MqttSubscription)
    (rc messageId : Z) (t : Transport) : Transport :=
  let e := mt_ep t in
  let back := SupLoop epoch MOSQ_ERR_SUCCESS in
  let aborted := set_link e false (ep_submitted e) (ep_ready e) true (ep_disconnected e) in
  let faulted reason := Emit (mkMqttTransportFact EpochFaulted epoch messageId reason (ms_topic sub) []) in
  let active := bool_decide (ep_mosq e = Some epoch) && (ep_active e =? epoch)%N in
  if negb (rc =? MOSQ_ERR_SUCCESS)
  then go (if active then set_ep t aborted else t) back [faulted rc]
  else if negb active || mt_stopping t || ep_abort e then go t back []
  else match ep_subscriptions e !! messageId with
       | Some _ => go (set_ep t aborted) back [faulted MOSQ_ERR_INVAL]
       | None =>
           go (set_ep t (set_subscriptions e (<[messageId := sub]> (ep_subscriptions e))))
             (match rest with [] => back | _ => SupSubscribe epoch rest end) []
       end.

(** [src/mqtt/MosquittoTransport.cpp:240-353 supervisorLoop] A step of the supervisor. An answer that does not
    fit leaves it where it is. *)
Definition supervisor_step (a : SupAnswer) (t : Transport) : Transport :=
  match mt_todo t, a with
  | act :: rest, Threw throws => run_action throws act rest t
  | _ :: _, _ => t
  | [], _ =>
      match mt_at t, a with
      | SupTop, Proceed => go t (if mt_stopping t then SupDone else SupNumber) []
      | SupNumber, Proceed =>
          let epoch := nextEpoch (mt_counter t) in
          mkTransport (mt_library t) (mt_started t) (mt_stopping t) (mt_joining t) (mt_options t)
            (mt_subscriptions t) epoch (mt_ep t) (SupCreate epoch) [] (mt_log t)
      | SupCreate epoch, Made false _ => go t SupWait [fault epoch MOSQ_ERR_NOMEM]
      | SupCreate epoch, Made true false => go t SupWait [fault epoch MOSQ_ERR_INVAL]
      | SupCreate epoch, Made true true =>
          if mt_stopping t then go t SupDone [] else install epoch t
      | SupConnect epoch, Connects rc =>
          if rc =? MOSQ_ERR_SUCCESS then go t (SupLoop epoch rc) []
          else go t (SupRetire epoch rc) [fault epoch rc]
      | SupLoop epoch rc, Proceed =>
          if mt_stopping t || ep_abort (mt_ep t) then go t (SupRetire epoch rc) []
          else go t (SupNetwork epoch) []
      | SupNetwork epoch, Calls cb => run_callback epoch cb t
      | SupNetwork epoch, Returns rc =>
          go t (if rc =? MOSQ_ERR_SUCCESS then SupSubmit epoch else SupRetire epoch rc) []
      | SupSubmit epoch, Proceed => submitSubscriptionsIfConnected epoch t
      | SupReady epoch, Proceed => submit_none epoch t
      | SupSubscribe epoch (sub :: rest), Subscribed rc messageId =>
          subscribe_one epoch sub rest rc messageId t
      | SupRetire epoch rc, Proceed => retire epoch rc t
      | SupWait, Proceed => go t (if mt_stopping t then SupDone else SupTop) []
      | _, _ => t
      end
  end.

(** * The threads together *)

Inductive TransportOp :=
| TStart (options : MqttConnectionOptions) (subs : list MqttSubscription) (library thread : bool)
| TPublish (lib : MosquittoPublish) (topic payload : string) (qos : Z) (retain : bool)
| TPublishInEpoch (lib : MosquittoPublish) (topic payload : string) (qos : Z) (retain : bool)
    (expectedEpoch : N)
| TPublishTracked (lib : MosquittoPublish) (topic payload : string) (retain : bool)
    (c : MqttPublishCorrelation) (expectedEpoch : N)
| TAbort (expectedEpoch : N)
| TStop
| TJoined
| TSupervisor (a : SupAnswer).

(** While the transport is being stopped nobody can start it or stop it again; the join is over when
    the supervisor has returned. *)
Definition transport_step (t : Transport) (op : TransportOp) : Transport :=
  match op with
  | TStart options subs library thread =>
      if mt_joining t then t else (transport_start options subs library thread t).2
  | TPublish lib topic payload qos retain => (publish lib topic payload qos retain t).2
  | TPublishInEpoch lib topic payload qos retain epoch =>
      (publishInEpoch lib topic payload qos retain epoch t).2
  | TPublishTracked lib topic payload retain c epoch =>
      (publishTracked lib topic payload retain c epoch t).2
  | TAbort epoch => (abortActiveEpoch epoch t).2
  | TStop => if mt_joining t then t else request_transport_stop t
  | TJoined =>
      match mt_joining t, mt_at t, mt_todo t with
      | true, SupDone, [] => joined t
      | _, _, _ => t
      end
  | TSupervisor a => supervisor_step a t
  end.
Definition transport_run (t : Transport) (ops : list TransportOp) : Transport :=
  foldl transport_step t ops.
