(* ===== verification/MqttTransportSafety.v ===== *)
(** What the observers and the application see of the transport: the log of every
    interleaving of the supervisor with the other threads is a log of the
    machine [MqttSpec], which knows one connection at a time; and the bounds of the transport's tables. *)
From stdpp Require Import gmultiset.
From S2P Require Import Prelude SensorProtocol SequencePolicy SlotConfig OccupancyDb FireStore FireDelivery MqttTransport.

(** * The specification *)

(** The current epoch, whether its subscriptions are ready and its end was reported, the messages
    that came in and are not yet handed over, and the tracked publications without an answer. *)
Record MqttSpec := mkMqttSpec {
  sp_epoch : N;
  sp_ready : bool;
  sp_closed : bool;
  sp_queue : list BufferedMessage;
  sp_tokens : gmultiset Z
}.
Definition no_connection : MqttSpec := mkMqttSpec 0 false true [] ∅.

#[global] Instance BufferedMessage_eq_dec : EqDecision BufferedMessage.
Proof. solve_decision. Defined.

Definition spec_open (epoch : N) (sp : MqttSpec) : bool :=
  (epoch =? sp_epoch sp)%N && negb (sp_closed sp).

(** A fact belongs to the open epoch, except a fault, which changes nothing. The subscriptions
    become ready once; an acknowledgement answers a publication that waits for it; nothing but
    faults follows the end. *)
Definition spec_fact (f : MqttTransportFact) (sp : MqttSpec) : option MqttSpec :=
  match mf_kind f with
  | EpochFaulted => Some sp
  | kind =>
      if negb (spec_open (mf_epoch f) sp) then None else
      match kind with
      | SubscriptionsReady =>
          if sp_ready sp then None
          else Some (mkMqttSpec (sp_epoch sp) true false (sp_queue sp) (sp_tokens sp))
      | PublishAcknowledged =>
          if bool_decide (mf_messageId f ∈ sp_tokens sp)
          then Some (mkMqttSpec (sp_epoch sp) (sp_ready sp) false (sp_queue sp)
                       (sp_tokens sp ∖ {[+ mf_messageId f +]}))
          else None
      | Disconnected => Some (mkMqttSpec (sp_epoch sp) (sp_ready sp) true (sp_queue sp) (sp_tokens sp))
      | _ => Some sp
      end
  end.

Definition spec_step (ev : TransportEvent) (sp : MqttSpec) : option MqttSpec :=
  match ev with
  | EvInstalled epoch =>
      if (epoch =? 0)%N || negb (sp_closed sp) then None
      else Some (mkMqttSpec epoch false false [] ∅)
  | EvFact f => spec_fact f sp
  | EvOnConnected | EvOnDisconnected _ | EvOnPublished _ => Some sp
  | EvArrived epoch m =>
      if negb (spec_open epoch sp) then None
      else Some (mkMqttSpec (sp_epoch sp) (sp_ready sp) false (sp_queue sp ++ [m]) (sp_tokens sp))
  | EvHanded epoch m =>
      if negb (spec_open epoch sp) || negb (sp_ready sp) then None
      else match sp_queue sp with
           | m' :: queue => if bool_decide (m = m')
                            then Some (mkMqttSpec (sp_epoch sp) true false queue (sp_tokens sp))
                            else None
           | [] => None
           end
  | EvRegular epoch messageId =>
      if negb (spec_open epoch sp) || negb ((0 <? messageId) && (messageId <? kMqttMidSlots)) then None
      else Some sp
  | EvTracked epoch messageId c =>
      if negb (spec_open epoch sp) || negb ((0 <? messageId) && (messageId <? kMqttMidSlots)) ||
         is_empty (mpc_deliveryKey c) || (mpc_revision c =? 0)%N then None
      else Some (mkMqttSpec (sp_epoch sp) (sp_ready sp) false (sp_queue sp)
                   ({[+ messageId +]} ⊎ sp_tokens sp))
  end.

Fixpoint spec_run (l : list TransportEvent) (sp : MqttSpec) : option MqttSpec :=
  match l with
  | [] => Some sp
  | ev :: l' => match spec_step ev sp with Some sp' => spec_run l' sp' | None => None end
  end.

Lemma spec_run_app l1 l2 sp sp1 :
  spec_run l1 sp = Some sp1 -> spec_run (l1 ++ l2) sp = spec_run l2 sp1.
Proof.
  revert sp. induction l1 as [|ev l1 IH]; simpl; intros sp; [by intros [= ->]|].
  destruct (spec_step ev sp); [apply IH|done].
Qed.
Lemma spec_run_app_inv l1 l2 sp sp2 :
  spec_run (l1 ++ l2) sp = Some sp2 ->
  exists sp1, spec_run l1 sp = Some sp1 /\ spec_run l2 sp1 = Some sp2.
Proof.
  revert sp. induction l1 as [|ev l1 IH]; simpl; intros sp; [eauto|].
  destruct (spec_step ev sp); [apply IH|done].
Qed.

(** What the supervisor still owes. *)
Definition owed (act : SupAction) : list TransportEvent :=
  match act with
  | Emit f => [EvFact f]
  | Hand epoch m _ => [EvHanded epoch m]
  | Redeliver epoch ms => EvHanded epoch <$> ms
  end.
Definition owed_all (todo : list SupAction) : list TransportEvent := todo ≫= owed.

(** The buffered messages are the last thing a callback does. *)
Fixpoint ends_well (todo : list SupAction) : bool :=
  match todo with
  | [] => true
  | Redeliver _ _ :: rest => match rest with [] => true | _ => false end
  | _ :: rest => ends_well rest
  end.

(** Events of the supervisor's thread after its callback. *)
Definition is_owed (ev : TransportEvent) : bool :=
  match ev with EvFact _ | EvHanded _ _ => true | _ => false end.

Lemma owed_is_owed todo : Forall (fun ev => is_owed ev = true) (owed_all todo).
Proof.
  induction todo as [|[f|e m c|e ms] todo IH]; simpl; [done| | |].
  1,2: by constructor.
  apply Forall_app. split; [|done]. by induction ms; constructor.
Qed.

Definition add_token (messageId : Z) (sp : MqttSpec) : MqttSpec :=
  mkMqttSpec (sp_epoch sp) (sp_ready sp) (sp_closed sp) (sp_queue sp) ({[+ messageId +]} ⊎ sp_tokens sp).

(** A publication of another thread commutes with what the supervisor owes. *)
Lemma add_token_step m ev sp sp' :
  is_owed ev = true -> spec_step ev sp = Some sp' ->
  spec_step ev (add_token m sp) = Some (add_token m sp') /\ (sp_closed sp = true -> sp_closed sp' = true) /\
  sp_epoch sp' = sp_epoch sp.
Proof.
  destruct ev as [|f| | | | |e q| |]; try done; intros _; simpl.
  - unfold spec_fact, spec_open, add_token. destruct (mf_kind f); simpl;
      repeat case_match; intros [= <-]; simpl; split_bool; try (split; [done|]; split; congruence).
    + split; [|split; [congruence|done]]. do 2 f_equal. multiset_solver.
    + exfalso. multiset_solver.
  - unfold spec_open. simpl. repeat case_match; try done. intros [= <-]. simpl. split; [done|].
    split; [|done]. split_bool. congruence.
Qed.

Lemma add_token_run m l sp sp' :
  Forall (fun ev => is_owed ev = true) l -> spec_run l sp = Some sp' ->
  spec_run l (add_token m sp) = Some (add_token m sp') /\ (sp_closed sp = true -> sp_closed sp' = true) /\
  sp_epoch sp' = sp_epoch sp.
Proof.
  intros Hl. revert sp. induction Hl as [|ev l Hev Hl IH]; simpl; intros sp; [by intros [= ->]|].
  destruct (spec_step ev sp) as [sp1|] eqn:Hs; [|done]. intros Hr.
  destruct (add_token_step m ev sp sp1 Hev Hs) as (H1 & H2 & H3). rewrite H1.
  destruct (IH sp1 Hr) as (H4 & H5 & H6). split; [done|]. split; [auto|congruence].
Qed.

Lemma handed_run e ms sp sp' :
  spec_run (EvHanded e <$> ms) sp = Some sp' ->
  sp_epoch sp' = sp_epoch sp /\ sp_ready sp' = sp_ready sp /\ sp_closed sp' = sp_closed sp /\
  sp_tokens sp' = sp_tokens sp.
Proof.
  revert sp. induction ms as [|m ms IH]; simpl; intros sp; [by intros [= ->]|].
  destruct (negb (spec_open e sp) || negb (sp_ready sp)) eqn:Hg; [done|]. unfold spec_open in Hg. split_bool.
  destruct (sp_queue sp); [done|]. case_bool_decide; [|done]. intros (-> & -> & -> & ->)%IH. simpl.
  split_and!; congruence.
Qed.

(** * The relation of the two machines *)

Definition at_epoch (a : SupAt) : option N :=
  match a with
  | SupConnect e | SupLoop e _ | SupNetwork e | SupSubmit e | SupReady e | SupSubscribe e _
  | SupRetire e _ => Some e
  | _ => None
  end.
Definition subscribing (a : SupAt) : bool :=
  match a with SupReady _ | SupSubscribe _ _ => true | _ => false end.

(** Without a connection. *)
Record tied_idle (t : Transport) (sp : MqttSpec) : Prop := {
  ti_mosq : ep_mosq (mt_ep t) = None;
  ti_active : ep_active (mt_ep t) = 0%N;
  ti_connected : ep_connected (mt_ep t) = false;
  ti_closed : sp_closed sp = true
}.

(** In the connection of epoch [e]; [g]: libmosquitto has called back for the connection or its end. *)
Record tied (g : bool) (t : Transport) (e : N) (sp : MqttSpec) : Prop := {
  td_mosq : ep_mosq (mt_ep t) = Some e;
  td_context : ep_context (mt_ep t) = Some e;
  td_active : ep_active (mt_ep t) = e;
  td_positive : e <> 0%N;
  td_epoch : sp_epoch sp = e;
  td_closed : sp_closed sp = ep_disconnected (mt_ep t);
  td_tokens : forall m, multiplicity m (sp_tokens sp) =
    if bool_decide (ep_kinds (mt_ep t) !! m = Some kPublishTracked) then 1%nat else 0%nat;
  td_open : ep_connected (mt_ep t) = true -> ep_disconnected (mt_ep t) = false /\ g = true;
  td_fresh : g = false -> ep_disconnected (mt_ep t) = false;
  td_ready : ep_ready (mt_ep t) = true -> sp_ready sp = true /\ ep_buffer (mt_ep t) = [];
  td_once : sp_ready sp = true -> ep_submitted (mt_ep t) = true /\ ep_subscriptions (mt_ep t) = ∅ /\
    subscribing (mt_at t) = false;
  td_submitted : subscribing (mt_at t) = true \/ ep_subscriptions (mt_ep t) <> ∅ ->
    ep_submitted (mt_ep t) = true;
  td_queue : (g = false \/ ep_connected (mt_ep t) = true /\ mt_stopping t = false) ->
    sp_queue sp = ep_buffer (mt_ep t)
}.

Definition tie (g : bool) (t : Transport) (sp : MqttSpec) : Prop :=
  match at_epoch (mt_at t) with None => tied_idle t sp | Some e => tied g t e sp end.

(** While buffered messages are owed, the subscriptions of a standing connection are ready. *)
Definition redelivering (g : bool) (t : Transport) : Prop :=
  existsb (fun act => match act with Redeliver _ _ => true | _ => false end) (mt_todo t) = true ->
  g = true /\ (ep_connected (mt_ep t) = true -> ep_ready (mt_ep t) = true).

Definition simulates (g : bool) (t : Transport) : Prop :=
  ends_well (mt_todo t) = true /\ redelivering g t /\
  exists sp, spec_run (mt_log t ++ owed_all (mt_todo t)) no_connection = Some sp /\ tie g t sp.

(** ** Changes that the specification does not see *)

(** Cutting the connection (the flags connected and ready go down or stay). *)
Lemma tied_cut g t e sp ready abort :
  tied g t e sp -> (ready = true -> ep_ready (mt_ep t) = true) ->
  tied g (set_ep t (set_link (mt_ep t) false (ep_submitted (mt_ep t)) ready abort
                      (ep_disconnected (mt_ep t)))) e sp.
Proof.
  intros [] Hr. split; simpl; auto; try done.
  intros [->|[? _]]; [by apply td_queue0; left|done].
Qed.

Lemma tie_cut g t sp ready abort :
  tie g t sp -> (ready = true -> ep_ready (mt_ep t) = true) ->
  tie g (set_ep t (set_link (mt_ep t) false (ep_submitted (mt_ep t)) ready abort
                     (ep_disconnected (mt_ep t)))) sp.
Proof.
  unfold tie. simpl. destruct (at_epoch _); [apply tied_cut|]. intros [] _. by split.
Qed.

Lemma tie_abort g t sp : tie g t sp -> tie g (set_ep t (abortEpochUnlocked (mt_ep t))) sp.
Proof.
  intros H. unfold abortEpochUnlocked. case_match; [by destruct t|]. by apply tie_cut.
Qed.

(** The list of what is owed and the log are not part of the relation; nor is the place, as long as it is of the same
    epoch. *)
Lemma tie_same g t t' sp :
  mt_ep t' = mt_ep t -> mt_stopping t' = mt_stopping t -> at_epoch (mt_at t') = at_epoch (mt_at t) ->
  (subscribing (mt_at t') = true -> subscribing (mt_at t) = true \/
     sp_ready sp = false /\ ep_submitted (mt_ep t) = true) ->
  tie g t sp -> tie g t' sp.
Proof.
  unfold tie. intros He Hs Ha Hsub. rewrite Ha. destruct (at_epoch (mt_at t)); intros []; split; rewrite ?He, ?Hs; auto.
  - intros Hr. destruct (td_once0 Hr) as (? & ? & Hn). split_and!; [done..|].
    destruct (subscribing (mt_at t')) eqn:E; [|done]. destruct Hsub as [|[]]; congruence.
  - intros [Hn|Hn]; [|auto]. destruct (Hsub Hn) as [|[]]; auto.
Qed.

Lemma tie_go g t sp at_ todo :
  at_epoch at_ = at_epoch (mt_at t) ->
  (subscribing at_ = true -> subscribing (mt_at t) = true \/
     sp_ready sp = false /\ ep_submitted (mt_ep t) = true) ->
  tie g t sp -> tie g (go t at_ todo) sp.
Proof. intros Ha Hs. by apply tie_same. Qed.

Lemma simulates_same g t t' :
  mt_log t' = mt_log t -> mt_todo t' = mt_todo t ->
  (ep_connected (mt_ep t') = true -> ep_connected (mt_ep t) = true /\ ep_ready (mt_ep t') = ep_ready (mt_ep t)) ->
  (forall sp, tie g t sp -> tie g t' sp) -> simulates g t -> simulates g t'.
Proof.
  unfold simulates, redelivering. intros -> -> Hlink Ht (Hw & Hd & sp & Hr & Hs).
  split_and!; [done| |eauto]. intros He. destruct (Hd He) as [? Hrd]. split; [done|].
  intros Hc. destruct (Hlink Hc) as [? ->]. auto.
Qed.

Lemma simulates_abort g t : simulates g t -> simulates g (set_ep t (abortEpochUnlocked (mt_ep t))).
Proof.
  apply simulates_same; [done|done| |apply tie_abort].
  unfold abortEpochUnlocked. simpl. by case_match.
Qed.

(** ** The other threads *)

Lemma can_publish_tied g t sp :
  canPublishUnlocked t = true -> tie g t sp ->
  exists e, at_epoch (mt_at t) = Some e /\ tied g t e sp /\ ep_connected (mt_ep t) = true.
Proof.
  unfold canPublishUnlocked, tie. intros Hc Ht. split_bool.
  destruct (at_epoch (mt_at t)) as [e|]; [by exists e|]. destruct Ht. congruence.
Qed.

Lemma registered m kind e e' :
  registerPublishUnlocked m kind e = Some e' ->
  0 < m < kMqttMidSlots /\ ep_kinds e !! m = None /\
  e' = set_kinds e (<[m := kind]> (ep_kinds e))
         (if bool_decide (kind = kPublishRegular) then S (ep_regular e) else ep_regular e).
Proof.
  unfold registerPublishUnlocked. case_match eqn:Hg; [done|]. split_bool. intros [= <-].
  split_and!; [lia|lia| |done]. by apply eq_None_not_Some.
Qed.

Lemma submitted lib topic payload qos retain kind t r t' :
  submit lib topic payload qos retain kind t = (r, t') ->
  r = None /\ t' = set_ep t (abortEpochUnlocked (mt_ep t)) \/
  exists m, r = Some m /\ 0 < m < kMqttMidSlots /\ ep_kinds (mt_ep t) !! m = None /\
    t' = set_ep t (set_kinds (mt_ep t) (<[m := kind]> (ep_kinds (mt_ep t)))
           (if bool_decide (kind = kPublishRegular) then S (ep_regular (mt_ep t)) else ep_regular (mt_ep t))).
Proof.
  unfold submit. destruct (lib _ _ _ _ _) as [rc m]. case_match eqn:Hr; intros [= <- <-]; [right|by left].
  destruct (rc =? MOSQ_ERR_SUCCESS); [|done]. apply registered in Hr as (? & ? & ->). eauto.
Qed.

(** A publication is logged before what the supervisor owes. *)
Lemma simulates_publication g t e sp kinds regular ev sp' :
  ends_well (mt_todo t) = true -> redelivering g t ->
  spec_run (mt_log t ++ owed_all (mt_todo t)) no_connection = Some sp ->
  at_epoch (mt_at t) = Some e -> tied g t e sp -> ep_connected (mt_ep t) = true ->
  (forall spl, sp_epoch spl = e -> sp_closed spl = false ->
     exists spl', spec_step ev spl = Some spl' /\
       (spec_run (owed_all (mt_todo t)) spl = Some sp -> spec_run (owed_all (mt_todo t)) spl' = Some sp')) ->
  tied g (set_ep t (set_kinds (mt_ep t) kinds regular)) e sp' ->
  simulates g (say (set_ep t (set_kinds (mt_ep t) kinds regular)) [ev]).
Proof.
  intros Hw Hd Hrun Ha Ht Hc Hev Ht'. apply spec_run_app_inv in Hrun as (spl & Hl & Ho).
  destruct (add_token_run 0 _ _ _ (owed_is_owed _) Ho) as (_ & Hcl & Hep).
  destruct (Hev spl) as (spl' & Hs & Hrest).
  { rewrite <- Hep. apply Ht. }
  { destruct (sp_closed spl); [|done]. specialize (Hcl eq_refl).
    rewrite (td_closed _ _ _ _ Ht) in Hcl. destruct (td_open _ _ _ _ Ht Hc). congruence. }
  split; [done|]. split; [done|]. exists sp'. simpl. split.
  - rewrite <- app_assoc, (spec_run_app _ _ _ _ Hl). simpl. rewrite Hs. auto.
  - unfold tie. simpl. rewrite Ha. destruct Ht'. by split.
Qed.

Lemma publish_regular_simulates g lib topic payload qos retain t :
  canPublishUnlocked t = true -> simulates g t ->
  simulates g (submit_regular lib topic payload qos retain t).2.
Proof.
  intros Hc Hsim. pose proof Hsim as (Hw & Hd & sp & Hrun & Ht). destruct (can_publish_tied _ _ _ Hc Ht) as (e & Ha & Htd & Hcon).
  unfold submit_regular. destruct (submit _ _ _ _ _ _ t) as [r t'] eqn:Hs.
  apply submitted in Hs as [(-> & ->)|(m & -> & Hm & Hfree & ->)]; simpl.
  { revert Hsim. apply simulates_abort. }
  eapply (simulates_publication g t e sp); [done..| |].
  - intros spl He Hcl. exists spl. split; [|done]. simpl. unfold spec_open.
    rewrite (td_active _ _ _ _ Htd), He, Hcl, N.eqb_refl, !(proj2 (Z.ltb_lt _ _)) by lia. done.
  - destruct Htd. split; simpl; auto. intros m'. rewrite td_tokens0. destruct (decide (m' = m)) as [->|].
    + rewrite Hfree, lookup_insert_eq. by rewrite !bool_decide_eq_false_2.
    + by rewrite lookup_insert_ne.
Qed.

Lemma publish_tracked_simulates g lib topic payload retain c epoch t :
  simulates g t -> simulates g (publishTracked lib topic payload retain c epoch t).2.
Proof.
  intros Hsim. unfold publishTracked. case_match eqn:Hg; [done|]. split_bool.
  pose proof Hsim as (Hw & Hd & sp & Hrun & Ht).
  destruct (can_publish_tied _ _ _ ltac:(eassumption) Ht) as (e & Ha & Htd & Hcon).
  destruct (submit _ _ _ _ _ _ t) as [r t'] eqn:Hs.
  apply submitted in Hs as [(-> & ->)|(m & -> & Hm & Hfree & ->)]; simpl.
  { revert Hsim. apply simulates_abort. }
  eapply (simulates_publication g t e sp _ _ _ (add_token m sp)); [done..| |].
  - intros spl He Hcl. exists (add_token m spl). split.
    + simpl. unfold spec_open, add_token.
      rewrite (td_active _ _ _ _ Htd), He, Hcl, N.eqb_refl, !(proj2 (Z.ltb_lt _ _)) by lia. simpl.
      destruct (is_empty (mpc_deliveryKey c)); [congruence|]. by destruct (mpc_revision c =? 0)%N.
    + intros Ho. by apply (add_token_run m _ _ _ (owed_is_owed _) Ho).
  - destruct Htd. split; simpl; auto. intros m'. rewrite multiplicity_disj_union, td_tokens0.
    destruct (decide (m' = m)) as [->|].
    + rewrite Hfree, lookup_insert_eq, multiplicity_singleton, decide_True, bool_decide_eq_false_2 by done.
      by rewrite bool_decide_eq_true_2.
    + rewrite lookup_insert_ne, multiplicity_singleton, decide_False by done. done.
Qed.

(** ** The supervisor *)

(** A step without a word: the place and the members may change while nothing is owed. *)
Lemma simulates_step g g' t t' l :
  mt_todo t = [] -> mt_log t' = mt_log t ++ l -> ends_well (mt_todo t') = true -> redelivering g' t' ->
  (forall sp, tie g t sp -> exists sp', spec_run (l ++ owed_all (mt_todo t')) sp = Some sp' /\ tie g' t' sp') ->
  simulates g t -> simulates g' t'.
Proof.
  intros Htodo Hlog Hw' Hd' Hstep (Hw & _ & sp & Hrun & Ht). split; [done|]. split; [done|].
  rewrite Htodo in Hrun. simpl in Hrun. rewrite app_nil_r in Hrun.
  destruct (Hstep sp Ht) as (sp' & Hr & Ht'). exists sp'. split; [|done].
  by rewrite Hlog, <- app_assoc, (spec_run_app _ _ _ _ Hrun).
Qed.

(** Facts of the epoch that change nothing in the specification. *)
Definition quiet_fact (f : MqttTransportFact) : Prop :=
  mf_kind f = Connected \/ mf_kind f = SubscriptionAcknowledged \/ mf_kind f = EpochFaulted.

Lemma quiet_facts fs sp :
  Forall quiet_fact fs ->
  Forall (fun f => mf_kind f = EpochFaulted \/ mf_epoch f = sp_epoch sp /\ sp_closed sp = false) fs ->
  spec_run (EvFact <$> fs) sp = Some sp.
Proof.
  induction fs as [|f fs IH]; simpl; intros Hq Ho; [done|].
  apply Forall_cons_1 in Hq as [Hq Hqs]. apply Forall_cons_1 in Ho as [Ho Hos].
  assert (spec_fact f sp = Some sp) as ->; [|by apply IH].
  unfold spec_fact, spec_open. destruct Ho as [->|[-> ->]]; [done|]. rewrite N.eqb_refl. simpl.
  by destruct Hq as [->|[->| ->]].
Qed.

Lemma owed_emits fs : owed_all (Emit <$> fs) = EvFact <$> fs.
Proof.
  induction fs as [|f fs IH]; [done|].
  change (EvFact f :: owed_all (Emit <$> fs) = EvFact f :: (EvFact <$> fs)). by rewrite IH.
Qed.
Lemma ends_well_emits fs : ends_well (Emit <$> fs) = true.
Proof. by induction fs. Qed.

(** A callback, or a step, that reports quiet facts. *)
Lemma simulates_facts g g' t t' fs :
  mt_todo t = [] -> mt_log t' = mt_log t -> mt_todo t' = Emit <$> fs -> Forall quiet_fact fs ->
  (forall sp, tie g t sp ->
     Forall (fun f => mf_kind f = EpochFaulted \/ mf_epoch f = sp_epoch sp /\ sp_closed sp = false) fs /\
     tie g' t' sp) ->
  simulates g t -> simulates g' t'.
Proof.
  intros Htodo Hlog Hfs Hq Hstep. apply (simulates_step g g' t t' []); [done|by rewrite app_nil_r|..].
  - by rewrite Hfs, ends_well_emits.
  - unfold redelivering. rewrite Hfs. clear. by induction fs.
  - intros sp Ht. destruct (Hstep sp Ht). exists sp. split; [|done]. simpl. rewrite Hfs, owed_emits.
    by apply quiet_facts.
Qed.

Lemma active_at g t e sp handle :
  tied g t e sp -> isActiveEpochUnlocked handle handle (mt_ep t) = true -> handle = e.
Proof. unfold isActiveEpochUnlocked. intros [] Ha. split_bool. congruence. Qed.

Lemma tied_active g t e sp : tied g t e sp -> isActiveEpochUnlocked e e (mt_ep t) = true.
Proof.
  unfold isActiveEpochUnlocked. intros []. by rewrite td_mosq0, td_context0, td_active0, !bool_decide_eq_true_2, N.eqb_refl.
Qed.

Lemma tie_abort_if_active g t sp handle : tie g t sp -> tie g (abort_if_active handle handle t) sp.
Proof. unfold abort_if_active. intros H. case_match; [by apply tie_abort|done]. Qed.
Lemma abort_if_active_rest handle context t :
  mt_todo (abort_if_active handle context t) = mt_todo t /\ mt_log (abort_if_active handle context t) = mt_log t /\
  mt_at (abort_if_active handle context t) = mt_at t /\
  mt_stopping (abort_if_active handle context t) = mt_stopping t.
Proof. unfold abort_if_active. by case_match. Qed.

Lemma tied_heard g t e sp : tied g t e sp -> tied true t e sp.
Proof. intros []. split; naive_solver. Qed.

(** The connection becomes ready: the buffered messages go out in their order. *)
Lemma ready_run e m topic granted sp :
  e = sp_epoch sp -> sp_closed sp = false -> sp_ready sp = false ->
  spec_run (owed_all [Emit (mkMqttTransportFact SubscriptionAcknowledged e m 0 topic granted);
                      Emit (plain_fact SubscriptionsReady e (-1) 0); Redeliver e (sp_queue sp)]) sp =
  Some (mkMqttSpec (sp_epoch sp) true false [] (sp_tokens sp)).
Proof.
  destruct sp as [e' r c q tokens]. simpl. intros -> -> ->. unfold owed_all. simpl.
  unfold spec_fact, spec_open. simpl. rewrite N.eqb_refl. simpl. rewrite N.eqb_refl, app_nil_r. simpl.
  induction q as [|x q IH]; [done|]. simpl. unfold spec_open. simpl.
  rewrite N.eqb_refl, bool_decide_eq_true_2 by done. apply IH.
Qed.

(** ** The callbacks *)

Section Callbacks.
Variable g : bool.
Variable t : Transport.
Variable e : N.
Hypothesis Hat : mt_at t = SupNetwork e.
Hypothesis Htodo : mt_todo t = [].
Hypothesis Hsim : simulates g t.

Lemma network_tie g' t' sp : mt_at t' = SupNetwork e -> tied g' t' e sp -> tie g' t' sp.
Proof. unfold tie. by intros ->. Qed.
Lemma network_tied sp : tie g t sp -> tied g t e sp.
Proof. unfold tie. by rewrite Hat. Qed.

Lemma connected_heard : ep_connected (mt_ep t) = true -> g = true.
Proof. destruct Hsim as (_ & _ & sp & _ & []%network_tied). intros Hc. by destruct (td_open0 Hc). Qed.

Lemma message_simulates m : simulates g (handleMessage e e m t).
Proof.
  unfold handleMessage. destruct (abort_if_active_rest e e t) as (Htd & Hlg & Hpl & Hst).
  case_match.
  { apply (simulates_facts g g t _ [plain_fact EpochFaulted e (-1) MOSQ_ERR_PAYLOAD_SIZE]); [done|done|done| | |done].
    - by repeat constructor; right; right.
    - intros sp Ht. split; [by repeat constructor; left|].
      apply (tie_abort_if_active _ _ _ e) in Ht. revert Ht. apply tie_same; simpl; rewrite ?Hpl; auto. }
  case_match eqn:Hg; [done|]. split_bool.
  assert (Hopen : forall sp, tied g t e sp -> sp_epoch sp = e /\ sp_closed sp = false /\
            sp_queue sp = ep_buffer (mt_ep t)).
  { intros sp []. destruct td_open0 as [Hd _]; [done|]. split_and!; [done|congruence|].
    apply td_queue0. by right. }
  destruct (ep_ready (mt_ep t)) eqn:Hready; simpl.
  - apply (simulates_step g g t _ [EvArrived e m]); [done|done|done|done| |done].
    intros sp Ht%network_tied. destruct (Hopen sp Ht) as (Hep & Hcl & Hq).
    destruct (td_ready _ _ _ _ Ht Hready) as [Hspr Hb]. exists sp. split.
    + simpl. unfold spec_open. simpl. rewrite Hep, Hcl, N.eqb_refl. simpl. unfold spec_open. simpl.
      rewrite N.eqb_refl, Hspr, Hq, Hb. simpl. rewrite bool_decide_eq_true_2 by done.
      destruct sp. simpl in *. subst. by rewrite Hb.
    + apply network_tie; [done|]. destruct Ht. by split.
  - case_match.
    + apply (simulates_facts g g t _ [plain_fact EpochFaulted e (-1) MOSQ_ERR_NOMEM]); [done|done|done| | |done].
      * by repeat constructor; right; right.
      * intros sp Ht. split; [by repeat constructor; left|]. apply tie_abort in Ht. revert Ht. apply tie_same; simpl; auto.
    + apply (simulates_step g g t _ [EvArrived e m]); [done|done|simpl; by rewrite Htodo|unfold redelivering; simpl; by rewrite Htodo| |done].
      intros sp Ht%network_tied. destruct (Hopen sp Ht) as (Hep & Hcl & Hq).
      eexists. simpl. rewrite Htodo. simpl. unfold spec_open. rewrite Hep, Hcl, N.eqb_refl. simpl. split; [done|].
      apply network_tie; [done|]. destruct Ht. split; simpl; auto; try congruence.
Qed.

Lemma connect_simulates rc :
  g = false -> simulates true (handleConnect e e rc t).
Proof.
  intros Hg. unfold handleConnect.
  assert (Hweak : forall sp, tie g t sp -> tie true t sp).
  { intros sp Ht%network_tied. apply network_tie; [done|]. by apply (tied_heard g). }
  case_match eqn:Hgd.
  { destruct Hsim as (Hw & Hd & sp & Hr & Ht). split; [done|]. split; [unfold redelivering; by rewrite Htodo|]. exists sp. auto. }
  split_bool. case_match.
  - apply (simulates_facts g true t _ [plain_fact Connected e (-1) 0]); [done|done|done| | |done].
    + by repeat constructor; left.
    + intros sp Ht%network_tied. split.
      * constructor; [right|done]. destruct Ht. simpl. split; [done|]. rewrite td_closed0. auto.
      * apply network_tie; [done|]. destruct Ht. split; simpl; auto.
  - apply (simulates_facts g true t _ [plain_fact EpochFaulted e (-1) rc]); [done|done|done| | |done].
    + by repeat constructor; right; right.
    + intros sp Ht. split; [by repeat constructor; left|].
      pose proof (tie_cut true t sp (ep_ready (mt_ep t)) true (Hweak sp Ht) (fun H => H)) as Hc.
      revert Hc. apply tie_same; simpl; auto.
Qed.

Lemma disconnect_simulates reason : simulates true (handleDisconnect e e reason t).
Proof.
  unfold handleDisconnect. case_match eqn:Hgd; split_bool.
  - destruct Hsim as (Hw & Hd & sp & Hr & Ht%network_tied). split; [done|].
    split; [unfold redelivering; by rewrite Htodo|]. exists sp. split; [done|].
    apply network_tie; [done|]. by apply (tied_heard g).
  - apply (simulates_step g true t _ []); [done|by rewrite app_nil_r|done|done| |done].
    intros sp Ht%network_tied. eexists. simpl. unfold spec_fact, spec_open. simpl.
    destruct Ht. rewrite td_epoch0, N.eqb_refl, td_closed0.
    match goal with H : ep_disconnected _ = false |- _ => rewrite H end. simpl. split; [done|].
    apply network_tie; [done|]. split; simpl; auto; try done. by intros [|[]].
Qed.

Lemma puback_simulates m : simulates g (handlePublish e e m t).
Proof.
  unfold handlePublish. case_match eqn:Hgd; [done|]. split_bool.
  destruct (ep_kinds (mt_ep t) !! m) as [[]|] eqn:Hk; [| |done].
  - revert Hsim. apply simulates_same; [done..|]. intros sp Ht%network_tied. apply network_tie; [done|].
    destruct Ht. split; simpl; auto. intros m'. rewrite td_tokens0. destruct (decide (m' = m)) as [->|].
    + by rewrite lookup_delete_eq, Hk.
    + by rewrite lookup_delete_ne.
  - apply (simulates_step g g t _ []); [done|by rewrite app_nil_r|done|done| |done].
    intros sp Ht%network_tied. destruct Ht. destruct td_open0 as [Hd Hg]; [done|].
    eexists. simpl. unfold spec_fact, spec_open. simpl.
    rewrite td_epoch0, N.eqb_refl, td_closed0, Hd. simpl. rewrite bool_decide_eq_true_2.
    2:{ apply elem_of_multiplicity. rewrite td_tokens0, bool_decide_eq_true_2 by done. lia. }
    split; [done|]. apply network_tie; [done|]. split; simpl; auto.
    intros m'. rewrite multiplicity_difference, td_tokens0, multiplicity_singleton.
    destruct (decide (m' = m)) as [->|].
    + by rewrite lookup_delete_eq, Hk, bool_decide_eq_true_2, bool_decide_eq_false_2 by done.
    + rewrite lookup_delete_ne by done. lia.
Qed.

Lemma suback_simulates m granted : simulates g (handleSubscribe e e m granted t).
Proof.
  unfold handleSubscribe. case_match eqn:Hgd; [done|]. split_bool.
  destruct (ep_subscriptions (mt_ep t) !! m) as [sub|] eqn:Hsub; [|done].
  assert (Hopen : forall sp, tied g t e sp -> sp_closed sp = false /\ sp_ready sp = false /\
            sp_queue sp = ep_buffer (mt_ep t) /\ ep_submitted (mt_ep t) = true).
  { intros sp []. destruct td_open0 as [Hd _]; [done|].
    split_and!; [congruence| |apply td_queue0; by right|apply td_submitted0; right].
    2:{ intros Hemp. by rewrite Hemp in Hsub. }
    destruct (sp_ready sp) eqn:Hr; [|done]. destruct (td_once0 eq_refl) as (_ & Hemp & _).
    rewrite Hemp in Hsub. done. }
  assert (Hack : forall reason sp, tied g t e sp ->
            let f := mkMqttTransportFact SubscriptionAcknowledged e m reason (ms_topic sub) granted in
            quiet_fact f /\ (mf_epoch f = sp_epoch sp /\ sp_closed sp = false)).
  { intros reason sp Ht. split; [by right; left|]. destruct (Hopen sp Ht) as (? & _). by destruct Ht. }
  case_match eqn:Hfailed.
  - eapply (simulates_facts g g t _ [_; _]); [done|done|done| | |done].
    + constructor; [by right; left|]. constructor; [by right; right|done].
    + intros sp Ht%network_tied. split.
      * constructor; [right; by apply Hack|]. by repeat constructor; left.
      * apply network_tie; [done|]. destruct (Hopen sp Ht) as (Hcl & Hr & Hq & Hsm). destruct Ht.
        split; simpl; auto; try congruence; naive_solver.
  - case_match eqn:Hlast; split_bool.
    + apply (simulates_step g g t _ []); [done|by rewrite app_nil_r|done| | |done].
      { intros _. split; [by apply connected_heard|done]. }
      intros sp Ht%network_tied. destruct (Hopen sp Ht) as (Hcl & Hr & Hq & Hsm).
      destruct (Hack 0 sp Ht) as [_ [Hep _]].
      exists (mkMqttSpec (sp_epoch sp) true false [] (sp_tokens sp)). split.
      * simpl in Hep |- *. rewrite <- Hq. by apply ready_run.
      * apply network_tie; [done|]. destruct Ht. simpl in *. split; simpl; auto; try congruence.
        intros _. split_and!; [done|done|by rewrite Hat].
    + eapply (simulates_facts g g t _ [_]); [done|done|done| | |done].
      * constructor; [by right; left|done].
      * intros sp Ht%network_tied. split; [constructor; [right; by apply Hack|done]|].
        apply network_tie; [done|]. destruct (Hopen sp Ht) as (Hcl & Hr & Hq & Hsm). destruct Ht.
        split; simpl; auto; congruence.
Qed.
End Callbacks.

(** ** The actions outside the mutex *)

Lemma observer_run f throws l sp :
  spec_run (observer_events f throws ++ l) sp = spec_run (EvFact f :: l) sp.
Proof.
  unfold observer_events. simpl. destruct (spec_fact f sp); [|done].
  destruct throws; [done|]. by destruct (mf_kind f).
Qed.

Lemma action_simulates g throws act rest t :
  mt_todo t = act :: rest -> simulates g t -> simulates g (run_action throws act rest t).
Proof.
  intros Htodo (Hw & Hd & sp & Hrun & Ht). unfold redelivering in Hd. rewrite Htodo in Hw, Hd, Hrun.
  assert (Hgo : forall t', mt_ep t' = mt_ep t -> mt_stopping t' = mt_stopping t -> mt_at t' = mt_at t ->
            tie g t' sp).
  { intros t' H1 H2 H3. revert Ht. apply tie_same; rewrite ?H3; auto. }
  apply spec_run_app_inv in Hrun as (spl & Hl & Ho).
  destruct act as [f|e m caught|e ms].
  - split; [done|]. split; [done|]. exists sp. simpl. split; [|by apply Hgo].
    rewrite <- app_assoc, (spec_run_app _ _ _ _ Hl), observer_run. apply Ho.
  - change (spec_run (EvHanded e m :: owed_all rest) spl = Some sp) in Ho. simpl in Hw, Hd.
    unfold run_action. destruct (throws && negb caught).
    + pose proof (abort_if_active_rest e e (say t [EvHanded e m])) as (H1 & H2 & H3 & H4).
      split; [done|]. split.
      { unfold redelivering. simpl. intros Hr. destruct (Hd Hr) as [? Hrd]. split; [done|].
        unfold abort_if_active, abortEpochUnlocked. simpl. repeat case_match; done. }
      exists sp. cbn [go mt_log mt_todo]. rewrite H2. simpl. split.
      * rewrite <- app_assoc, (spec_run_app _ _ _ _ Hl). simpl in *.
        destruct (if negb _ || _ then _ else _); done.
      * assert (Ht1 : tie g (say t [EvHanded e m]) sp) by (by apply Hgo).
        apply (tie_abort_if_active _ _ _ e) in Ht1. revert Ht1. apply tie_same; simpl; rewrite ?H3; auto.
    + split; [done|]. split; [done|]. exists sp. split; [|by apply Hgo]. simpl.
      by rewrite <- app_assoc, (spec_run_app _ _ _ _ Hl).
  - destruct rest as [|? ?]; [|done]. specialize (Hd eq_refl) as [Hg Hready].
    unfold owed_all in Ho. simpl in Ho. rewrite app_nil_r in Ho. destruct ms as [|m ms]; simpl.
    { split; [done|]. split; [done|]. exists sp. split; [|by apply Hgo]. simpl. by rewrite app_nil_r, Hl. }
    case_match eqn:Hgd.
    + split; [done|]. split; [done|]. simpl. rewrite app_nil_r.
      destruct (handed_run e (m :: ms) _ _ Ho) as (He & Hr & Hc & Htk).
      assert (Hep : e = sp_epoch spl).
      { simpl in Ho. unfold spec_open in Ho. destruct (e =? sp_epoch spl)%N eqn:E; [|done]. by apply N.eqb_eq. }
      exists spl. split; [done|]. unfold tie in *. simpl. destruct (at_epoch (mt_at t)) as [e'|] eqn:Ha.
      * assert (e = e') as -> by (destruct Ht; congruence).
        pose proof (tied_active _ _ _ _ Ht) as Hact. rewrite Hact in Hgd. simpl in Hgd.
        destruct Ht. split; simpl; rewrite <- ?He, <- ?Hr, <- ?Hc, <- ?Htk; auto.
        intros [|[Hcon Hst]]; [congruence|]. exfalso. by rewrite Hcon, Hst, Hready in Hgd.
      * destruct Ht. split; simpl; congruence.
    + split; [done|]. split; [by intros _|]. exists sp. split; [|by apply Hgo]. simpl.
      rewrite (spec_run_app _ _ _ _ Hl). unfold owed_all. simpl. by rewrite app_nil_r.
Qed.

(** ** Every step *)

(** Whether libmosquitto has called back for the connection of the current handle or its end. *)
Definition heard (g : bool) (t : Transport) (op : TransportOp) : bool :=
  match mt_todo t, mt_at t, op with
  | [], SupCreate _, TSupervisor (Made _ _) => false
  | [], SupNetwork _, TSupervisor (Calls (OnConnect _)) => true
  | [], SupNetwork _, TSupervisor (Calls (OnDisconnect _)) => true
  | _, _, _ => g
  end.

(** What is relied on: a handle whose network loop the program runs by hand connects once, so its
    connection is reported at most once and not after its end. *)
Definition connects_once (g : bool) (t : Transport) (op : TransportOp) : bool :=
  match mt_todo t, mt_at t, op with
  | [], SupNetwork _, TSupervisor (Calls (OnConnect _)) => negb g
  | _, _, _ => true
  end.

Fixpoint library_run (g : bool) (t : Transport) (ops : list TransportOp) : bool :=
  match ops with
  | [] => true
  | op :: ops' => connects_once g t op && library_run (heard g t op) (transport_step t op) ops'
  end.

Lemma callback_simulates g e cb t :
  mt_at t = SupNetwork e -> mt_todo t = [] -> connects_once g t (TSupervisor (Calls cb)) = true ->
  simulates g t -> simulates (heard g t (TSupervisor (Calls cb))) (run_callback e cb t).
Proof.
  unfold connects_once, heard. intros Ha Ht. rewrite Ha, Ht. intros Hc Hsim.
  destruct cb; simpl; eauto using message_simulates, disconnect_simulates, suback_simulates, puback_simulates.
  apply (connect_simulates g); [done..|]. by apply negb_true_iff.
Qed.

(** The supervisor goes on to another place of the same connection, or without one. *)
Lemma go_simulates g t at_ :
  mt_todo t = [] -> at_epoch at_ = at_epoch (mt_at t) -> subscribing at_ = false ->
  simulates g t -> simulates g (go t at_ []).
Proof.
  intros Htodo Ha Hsub. apply simulates_same; [done|by rewrite Htodo|done|].
  intros sp. apply tie_go; [done|]. congruence.
Qed.

Lemma fault_simulates g t t' f :
  mt_todo t = [] -> mt_log t' = mt_log t -> mt_todo t' = [Emit f] -> mf_kind f = EpochFaulted ->
  (forall sp, tie g t sp -> tie g t' sp) -> simulates g t -> simulates g t'.
Proof.
  intros Htodo Hlog Htodo' Hk Ht. apply (simulates_facts g g t t' [f]); [done..| |].
  - constructor; [by right; right|done].
  - intros sp Hs. split; [constructor; [by left|done]|auto].
Qed.

Lemma install_simulates g e t :
  mt_todo t = [] -> mt_at t = SupCreate e -> e <> 0%N -> simulates g t -> simulates false (install e t).
Proof.
  intros Htodo Ha He. apply (simulates_step g false t _ [EvInstalled e]); [done..|].
  intros sp Ht. unfold tie in Ht. rewrite Ha in Ht. destruct Ht.
  exists (mkMqttSpec e false false [] ∅). simpl. rewrite ti_closed0, (proj2 (N.eqb_neq _ _)) by done.
  split; [done|]. unfold tie. simpl. split; simpl; auto; try done.
  by intros [].
Qed.

Lemma retire_simulates g e rc t :
  mt_todo t = [] -> mt_at t = SupRetire e rc -> simulates g t -> simulates g (retire e rc t).
Proof.
  intros Htodo Ha. unfold retire.
  assert (Hact : forall sp, tie g t sp -> tied g t e sp) by (intros sp; unfold tie; by rewrite Ha).
  intros Hsim. case_match eqn:Hown.
  - revert Hsim. apply (simulates_step g g t _ []); [done|by rewrite app_nil_r|by case_match| |].
    { unfold redelivering. simpl. by case_match. }
    intros sp []%Hact. destruct (ep_disconnected (mt_ep t)) eqn:Hd.
    + exists sp. by split.
    + eexists. simpl. unfold spec_fact, spec_open. simpl. rewrite td_epoch0, N.eqb_refl, td_closed0. by split.
  - exfalso. destruct Hsim as (_ & _ & sp & _ & []%Hact). rewrite td_mosq0, td_active0 in Hown.
    by rewrite bool_decide_eq_true_2, N.eqb_refl in Hown.
Qed.

Lemma subscriptions_simulates g e t :
  mt_todo t = [] -> mt_at t = SupSubmit e -> simulates g t ->
  simulates g (submitSubscriptionsIfConnected e t).
Proof.
  intros Htodo Ha Hsim. unfold submitSubscriptionsIfConnected. case_match eqn:Hgd.
  - apply go_simulates; [done|by rewrite Ha|done|done].
  - split_bool. revert Hsim. apply simulates_same; [done|by rewrite Htodo|done|].
    intros sp. unfold tie. rewrite Ha. simpl.
    destruct (mt_subscriptions t); simpl; intros []; split; simpl; auto; intros Hr;
      destruct (td_once0 Hr) as (? & ? & ?); congruence.
Qed.

Lemma subscribe_simulates g e sub rest rc m t :
  mt_todo t = [] -> mt_at t = SupSubscribe e (sub :: rest) -> simulates g t ->
  simulates g (subscribe_one e sub rest rc m t).
Proof.
  intros Htodo Ha Hsim. unfold subscribe_one.
  set (aborted := set_ep t (set_link (mt_ep t) false (ep_submitted (mt_ep t)) (ep_ready (mt_ep t)) true
                              (ep_disconnected (mt_ep t)))).
  assert (Hfault : forall f t', mf_kind f = EpochFaulted -> t' = t \/ t' = aborted ->
            simulates g (go t' (SupLoop e MOSQ_ERR_SUCCESS) [Emit f])).
  { intros f t' Hk Ht'. revert Hsim. apply (fault_simulates g t _ f); [done| |done|done|].
    - by destruct Ht' as [-> | ->].
    - intros sp Ht. assert (tie g t' sp) as Hs by (destruct Ht' as [-> | ->]; [done|by apply tie_cut]).
      revert Hs. apply tie_same; simpl; [done..| |done]. destruct Ht' as [-> | ->]; simpl; by rewrite Ha. }
  case_match; [case_match; apply Hfault; auto|].
  case_match; [apply go_simulates; [done|by rewrite Ha|done|done]|].
  case_match eqn:Hsub; [apply Hfault; auto|].
  revert Hsim. apply simulates_same; [done|by rewrite Htodo|done|].
  intros sp. unfold tie. rewrite Ha. assert (Hat : at_epoch (match rest with
    | [] => SupLoop e MOSQ_ERR_SUCCESS | _ :: _ => SupSubscribe e rest end) = Some e) by by destruct rest.
  simpl. rewrite Hat. intros [].
  assert (Hnr : sp_ready sp = false).
  { destruct (sp_ready sp) eqn:E; [|done]. destruct (td_once0 eq_refl) as (_ & _ & ?). by rewrite Ha in *. }
  split; simpl; auto; [congruence|]. intros _. apply td_submitted0. left. by rewrite Ha.
Qed.

(** ** Histories *)

(** The only caller of the start subscribes to at least one topic (MqttEventBridge::start). *)
Definition op_subscribes (op : TransportOp) : bool :=
  match op with TStart _ subs _ _ => negb (bool_decide (subs = [])) | _ => true end.

#[global] Instance MqttSubscription_eq_dec : EqDecision MqttSubscription.
Proof. solve_decision. Defined.

(** The places that are reached: never the one without subscriptions, and an epoch has a number. *)
Definition placed (subs : list MqttSubscription) (at_ : SupAt) : Prop :=
  match at_ with
  | SupAbsent => True
  | SupReady _ => False
  | SupCreate e => e <> 0%N /\ subs <> []
  | _ => subs <> []
  end.

Lemma nextEpoch_positive c : nextEpoch c <> 0%N.
Proof. unfold nextEpoch. case_match eqn:E; [done|]. by apply N.eqb_neq. Qed.

Lemma placed_callback subs e cb t :
  mt_subscriptions t = subs -> placed subs (mt_at t) ->
  mt_subscriptions (run_callback e cb t) = subs /\ placed subs (mt_at (run_callback e cb t)).
Proof.
  intros Hs Hp. destruct cb; simpl;
    unfold handleMessage, handleConnect, handleDisconnect, handleSubscribe, handlePublish, abort_if_active;
    repeat case_match; done.
Qed.

Lemma placed_supervisor a t :
  placed (mt_subscriptions t) (mt_at t) ->
  placed (mt_subscriptions (supervisor_step a t)) (mt_at (supervisor_step a t)).
Proof.
  intros Hp. unfold supervisor_step. destruct (mt_todo t) as [|act rest].
  - destruct (mt_at t) eqn:Ha; simpl in Hp; try done; destruct a; simpl; rewrite ?Ha; try done;
      try solve [repeat case_match; simpl; rewrite ?Ha; done].
    + split; [apply nextEpoch_positive|done].
    + repeat case_match; simpl; rewrite ?Ha; simpl; by destruct Hp.
    + destruct (placed_callback (mt_subscriptions t) epoch cb t eq_refl) as [-> ?]; [by rewrite Ha|done].
    + unfold submitSubscriptionsIfConnected. repeat case_match; simpl; congruence.
    + unfold subscribe_one. destruct rest as [|sub [|sub' rest]]; simpl; [by rewrite Ha|..];
        repeat case_match; done.
    + unfold retire. repeat case_match; done.
  - destruct a; try done. unfold run_action, abort_if_active. repeat case_match; simpl; done.
Qed.

Lemma placed_step t op :
  op_subscribes op = true -> placed (mt_subscriptions t) (mt_at t) ->
  placed (mt_subscriptions (transport_step t op)) (mt_at (transport_step t op)).
Proof.
  intros Hw Hp. destruct op as [o subs l th|lib tp p q r|lib tp p q r ep|lib tp p r c ep|ep| | |a]; simpl.
  - destruct (mt_joining t); [done|]. unfold transport_start. simpl in Hw. split_bool.
    destruct (mt_started t || mt_library t || _) eqn:Hg; [done|]. split_bool.
    destruct l; [|done]. destruct th; [done|]. simpl. by destruct (mt_at t).
  - unfold publish, submit_regular. repeat case_match; simpl; try done;
      match goal with H : submit _ _ _ _ _ _ _ = _ |- _ =>
        apply submitted in H as [(? & ->)|(? & ? & _ & _ & ->)] end; done.
  - unfold publishInEpoch, submit_regular. repeat case_match; simpl; try done;
      match goal with H : submit _ _ _ _ _ _ _ = _ |- _ =>
        apply submitted in H as [(? & ->)|(? & ? & _ & _ & ->)] end; done.
  - unfold publishTracked. repeat case_match; simpl; try done;
      match goal with H : submit _ _ _ _ _ _ _ = _ |- _ =>
        apply submitted in H as [(? & ->)|(? & ? & _ & _ & ->)] end; done.
  - unfold abortActiveEpoch. by case_match.
  - unfold request_transport_stop. by repeat case_match.
  - destruct (mt_joining t), (mt_at t) eqn:Ha, (mt_todo t); simpl; rewrite ?Ha; done.
  - by apply placed_supervisor.
Qed.

Lemma supervisor_simulates g a t :
  connects_once g t (TSupervisor a) = true -> placed (mt_subscriptions t) (mt_at t) -> simulates g t ->
  simulates (heard g t (TSupervisor a)) (supervisor_step a t).
Proof.
  intros Hc Hp Hsim. unfold supervisor_step. destruct (mt_todo t) as [|act rest] eqn:Htodo.
  2:{ assert (heard g t (TSupervisor a) = g) as -> by (unfold heard; by rewrite Htodo).
      destruct a; try done. by apply action_simulates. }
  assert (Hgo : forall at_, at_epoch at_ = at_epoch (mt_at t) -> subscribing at_ = false -> simulates g (go t at_ [])).
  { intros at_ Ha Hs. by apply go_simulates. }
  destruct a as [|h th|rc|cb|rc|rc m|th].
  - assert (heard g t (TSupervisor Proceed) = g) as ->.
    { unfold heard. rewrite Htodo. by destruct (mt_at t). }
    destruct (mt_at t) as [| | | | | | | | |? []| | |] eqn:Ha; try done.
    + by case_match; apply Hgo.
    + revert Hsim. apply simulates_same; [done|by rewrite Htodo|done|]. intros sp. unfold tie. rewrite Ha.
      intros []. by split.
    + by case_match; apply Hgo.
    + by apply subscriptions_simulates.
    + by apply retire_simulates.
    + by case_match; apply Hgo.
  - unfold heard. rewrite Htodo. destruct (mt_at t) as [| | | | | | | | |? []| | |] eqn:Ha; try done. destruct Hp as [He _].
    assert (Hidle : forall g' at_ sp todo, at_epoch at_ = None -> tie g t sp -> tie g' (go t at_ todo) sp).
    { intros g' at_ sp todo Hat. unfold tie. rewrite Ha. simpl. rewrite Hat. intros []. by split. }
    assert (Hmove : forall at_ fs, at_epoch at_ = None ->
              Forall (fun f => mf_kind f = EpochFaulted) fs -> simulates false (go t at_ (Emit <$> fs))).
    { intros at_ fs Hat Hfs. revert Hsim. apply (simulates_facts g false t _ fs); [done..| |].
      - eapply Forall_impl; [done|]. intros f Hf. by right; right.
      - intros sp Ht. split; [|by apply Hidle]. eapply Forall_impl; [done|]. intros f Hf. by left. }
    destruct h, th.
    + case_match; [by apply (Hmove SupDone [])|]. by apply (install_simulates g).
    + by apply (Hmove SupWait [_]); [|constructor].
    + by apply (Hmove SupWait [_]); [|constructor].
    + by apply (Hmove SupWait [_]); [|constructor].
  - assert (heard g t (TSupervisor (Connects rc)) = g) as ->.
    { unfold heard. rewrite Htodo. by destruct (mt_at t). }
    destruct (mt_at t) as [| | | | | | | | |? []| | |] eqn:Ha; try done. case_match; [by apply Hgo|].
    revert Hsim. eapply fault_simulates; [done..|]. intros sp. apply tie_go; [by rewrite Ha|done].
  - destruct (mt_at t) as [| | | | | | | | |? []| | |] eqn:Ha; try (unfold heard; rewrite Htodo, Ha; done).
    by apply callback_simulates.
  - assert (heard g t (TSupervisor (Returns rc)) = g) as ->.
    { unfold heard. rewrite Htodo. by destruct (mt_at t). }
    destruct (mt_at t) as [| | | | | | | | |? []| | |] eqn:Ha; try done. by case_match; apply Hgo.
  - assert (heard g t (TSupervisor (Subscribed rc m)) = g) as ->.
    { unfold heard. rewrite Htodo. by destruct (mt_at t). }
    destruct (mt_at t) as [| | | | | | | | |e subs| | |] eqn:Ha; try done. destruct subs as [|sub rest]; [done|].
    by apply subscribe_simulates.
  - assert (heard g t (TSupervisor (Threw th)) = g) as ->.
    { unfold heard. rewrite Htodo. by destruct (mt_at t). }
    by destruct (mt_at t) as [| | | | | | | | |? []| | |].
Qed.

Lemma transport_simulates g op t :
  connects_once g t op = true -> placed (mt_subscriptions t) (mt_at t) -> simulates g t ->
  simulates (heard g t op) (transport_step t op).
Proof.
  intros Hc Hp Hsim.
  assert (Hheard : heard g t op = g \/ exists a, op = TSupervisor a).
  { unfold heard. destruct op; try (left; by destruct (mt_todo t), (mt_at t)). eauto. }
  destruct Hheard as [Hh|[a ->]]; [|by apply supervisor_simulates]. rewrite Hh.
  destruct op as [o subs l th|lib tp p q r|lib tp p q r ep|lib tp p r c ep|ep| | |a]; simpl.
  - destruct (mt_joining t); [done|]. unfold transport_start.
    destruct (mt_started t || mt_library t || _) eqn:Hg; [done|]. split_bool.
    destruct l; [|done]. assert (Ha : mt_at t = SupAbsent) by by destruct (mt_at t).
    destruct th; simpl.
    + revert Hsim. apply simulates_same; [done..|]. intros sp. unfold tie. rewrite Ha. intros []. by split.
    + revert Hsim. apply simulates_same; [done..|]. intros sp. unfold tie. simpl. rewrite Ha. intros []. by split.
  - unfold publish. case_match eqn:Hg; [done|]. split_bool. by apply publish_regular_simulates.
  - unfold publishInEpoch. case_match eqn:Hg; [done|]. split_bool. by apply publish_regular_simulates.
  - by apply publish_tracked_simulates.
  - unfold abortActiveEpoch. case_match; [done|]. by apply simulates_abort.
  - case_match; [done|]. unfold request_transport_stop. case_match; [done|].
    revert Hsim. apply simulates_same; [done..|]. intros sp. unfold tie. simpl.
    destruct (at_epoch (mt_at t)); intros []; split; simpl; auto; try done. intros [|[]]; [auto|done].
  - case_match; [|done]. destruct (mt_at t) as [| | | | | | | | |? []| | |] eqn:Ha; try done. destruct (mt_todo t) eqn:Htodo; [|done].
    revert Hsim. apply simulates_same; [done|by rewrite Htodo|done|]. intros sp. unfold tie. rewrite Ha. simpl.
    intros []. by split.
  - rewrite <- Hh. by apply supervisor_simulates.
Qed.

Lemma run_simulates g t ops :
  library_run g t ops = true -> forallb op_subscribes ops = true ->
  placed (mt_subscriptions t) (mt_at t) -> simulates g t ->
  exists g', simulates g' (transport_run t ops).
Proof.
  revert g t. induction ops as [|op ops IH]; simpl; intros g t Hl Hs Hp Hsim; [by exists g|].
  split_bool. eapply IH; [done|done|by apply placed_step|by apply transport_simulates].
Qed.

Lemma new_simulates : simulates false new_transport.
Proof. split; [done|]. split; [done|]. exists no_connection. by split. Qed.


(** What the delivery actor asks of its publisher: an accepted publication carries a real epoch, here even
    the one that was asked for. *)
Lemma publishTracked_epoch lib topic payload retain c epoch t r t' :
  publishTracked lib topic payload retain c epoch t = (r, t') -> mtr_accepted r = true ->
  mtr_epoch r = epoch /\ epoch <> 0%N /\ mtr_correlation r = c.
Proof.
  unfold publishTracked. case_match eqn:Hg; [by intros [= <- <-]|]. split_bool.
  destruct (submit _ _ _ _ _ _ t) as [o t1] eqn:Hs.
  apply submitted in Hs as [(-> & ->)|(m & -> & _ & _ & ->)]; intros [= <- <-]; [done|]. intros _. simpl.
  split_and!; [by apply N.eqb_eq|by apply N.eqb_neq|done].
Qed.

(** * The bounds of the tables *)

Definition regular_in (kinds : gmap Z PublishKind) : nat :=
  size (filter (fun kv => kv.2 = kPublishRegular) kinds).
Definition total_size (l : list BufferedMessage) : N :=
  foldr (fun m n => message_size m + n)%N 0%N l.

Record bounded (e : Epoch) : Prop := {
  bd_regular : ep_regular e = regular_in (ep_kinds e);
  bd_capacity : (ep_regular e <= kRegularPublishInFlightCapacity)%nat;
  bd_mids : forall m k, ep_kinds e !! m = Some k -> 0 < m < kMqttMidSlots;
  bd_buffer : (length (ep_buffer e) <= kPreReadyMessageCapacity)%nat;
  bd_bytes : ep_bytes e = total_size (ep_buffer e);
  bd_byte_capacity : (ep_bytes e <= kPreReadyByteCapacity)%N
}.

Lemma total_size_app l m : total_size (l ++ [m]) = (total_size l + message_size m)%N.
Proof. induction l as [|x l IH]; simpl; [lia|]. rewrite IH. lia. Qed.

Lemma regular_insert m k kinds :
  kinds !! m = None ->
  regular_in (<[m := k]> kinds) =
  if bool_decide (k = kPublishRegular) then S (regular_in kinds) else regular_in kinds.
Proof.
  intros Hm. unfold regular_in. case_bool_decide as Hk.
  - rewrite map_filter_insert_True by done. rewrite map_size_insert_None; [done|].
    apply map_lookup_filter_None. by left.
  - rewrite map_filter_insert_False by done. f_equal. rewrite delete_id; [done|]. done.
Qed.

Lemma regular_delete m k kinds :
  kinds !! m = Some k ->
  regular_in (delete m kinds) =
  if bool_decide (k = kPublishRegular) then Nat.pred (regular_in kinds) else regular_in kinds.
Proof.
  intros Hm. pose proof (regular_insert m k (delete m kinds) (lookup_delete_eq _ _)) as H.
  rewrite insert_delete_id in H by done. rewrite H. by case_bool_decide.
Qed.

Lemma bounded_link e c s r a d : bounded e -> bounded (set_link e c s r a d).
Proof. by intros []. Qed.
Lemma bounded_abort e : bounded e -> bounded (abortEpochUnlocked e).
Proof. intros H. unfold abortEpochUnlocked. case_match; [done|]. by apply bounded_link. Qed.
Lemma bounded_subscriptions e subs : bounded e -> bounded (set_subscriptions e subs).
Proof. by intros []. Qed.
Lemma bounded_empty mosq context active c s r a d subs :
  bounded (mkEpoch mosq context active c s r a d subs ∅ 0 [] 0).
Proof. split; simpl; unfold kRegularPublishInFlightCapacity, kPreReadyMessageCapacity, kPreReadyByteCapacity; try done; lia. Qed.
Lemma bounded_no_epoch : bounded no_epoch.
Proof. apply bounded_empty. Qed.
Lemma bounded_kinds e m kind :
  bounded e -> 0 < m < kMqttMidSlots -> ep_kinds e !! m = None ->
  (kind = kPublishRegular -> (ep_regular e < kRegularPublishInFlightCapacity)%nat) ->
  bounded (set_kinds e (<[m := kind]> (ep_kinds e))
             (if bool_decide (kind = kPublishRegular) then S (ep_regular e) else ep_regular e)).
Proof.
  intros [] Hm Hfree Hcap. split; simpl; auto.
  - rewrite regular_insert, bd_regular0 by done. done.
  - case_bool_decide; [by apply Hcap|done].
  - intros m' k [[<- _]|[_ Hk]]%lookup_insert_Some; [done|eauto].
Qed.
Lemma bounded_settle e m kind :
  bounded e -> ep_kinds e !! m = Some kind ->
  bounded (set_kinds e (delete m (ep_kinds e))
             (if bool_decide (kind = kPublishRegular) then Nat.pred (ep_regular e) else ep_regular e)).
Proof.
  intros [] Hk. split; simpl; auto.
  - by rewrite (regular_delete m kind), bd_regular0.
  - case_bool_decide; lia.
  - intros m' k [_ ?]%lookup_delete_Some. eauto.
Qed.
Lemma bounded_clear e : bounded e -> bounded (set_buffer e [] 0).
Proof. intros []. split; simpl; auto; unfold kPreReadyMessageCapacity, kPreReadyByteCapacity; lia. Qed.
Lemma bounded_arrival e m :
  bounded e -> (kPreReadyByteCapacity <? message_size m)%N = false ->
  (kPreReadyMessageCapacity <=? length (ep_buffer e))%nat = false ->
  (kPreReadyByteCapacity - message_size m <? ep_bytes e)%N = false ->
  bounded (set_buffer e (ep_buffer e ++ [m]) (ep_bytes e + message_size m)).
Proof.
  intros [] H1%N.ltb_ge H2%Nat.leb_gt H3%N.ltb_ge. split; simpl; auto.
  - rewrite length_app. simpl. lia.
  - by rewrite total_size_app, bd_bytes0.
  - lia.
Qed.

#[export] Hint Resolve bounded_link bounded_abort bounded_subscriptions bounded_empty bounded_no_epoch bounded_clear : pi.

Lemma bounded_submit lib topic payload qos retain kind t r t' :
  bounded (mt_ep t) ->
  (kind = kPublishRegular -> (ep_regular (mt_ep t) < kRegularPublishInFlightCapacity)%nat) ->
  submit lib topic payload qos retain kind t = (r, t') -> bounded (mt_ep t').
Proof.
  intros Hb Hcap [(-> & ->)|(m & -> & Hm & Hfree & ->)]%submitted; simpl; [auto with pi|].
  by apply bounded_kinds.
Qed.

Lemma bounded_callback e cb t : bounded (mt_ep t) -> bounded (mt_ep (run_callback e cb t)).
Proof.
  intros Hb. destruct cb; simpl.
  - unfold handleMessage, abort_if_active. repeat case_match; simpl; auto with pi.
    split_bool. by apply bounded_arrival.
  - unfold handleConnect. repeat case_match; simpl; auto with pi.
  - unfold handleDisconnect. repeat case_match; simpl; auto with pi.
  - unfold handleSubscribe. repeat case_match; simpl; auto with pi.
  - unfold handlePublish. case_match; [done|]. destruct (ep_kinds (mt_ep t) !! messageId) as [[]|] eqn:Hk; [| |done].
    + exact (bounded_settle _ _ _ Hb Hk).
    + exact (bounded_settle _ _ _ Hb Hk).
Qed.

Lemma bounded_supervisor a t : bounded (mt_ep t) -> bounded (mt_ep (supervisor_step a t)).
Proof.
  intros Hb. unfold supervisor_step. destruct (mt_todo t) as [|act rest].
  - destruct (mt_at t), a; simpl; try done; try (repeat case_match; simpl; auto with pi; done).
    + by apply bounded_callback.
    + unfold submitSubscriptionsIfConnected. repeat case_match; simpl; auto with pi.
    + unfold submit_none. repeat case_match; simpl; auto with pi.
    + unfold subscribe_one. repeat case_match; simpl; auto with pi.
    + unfold retire. repeat case_match; simpl; auto with pi.
  - destruct a; try done. unfold run_action, abort_if_active. repeat case_match; simpl; auto with pi.
Qed.

(** Whatever the broker, the library and the threads do: the count of regular publications in flight is exact and
    at most 32, a message identifier in use is a packet identifier (1 to 65535), and the messages
    kept until the subscriptions are ready are at most 256 and at most 2 MiB, with their size counted exactly. *)
Theorem transport_bounded ops : bounded (mt_ep (transport_run new_transport ops)).
Proof.
  assert (H : bounded (mt_ep new_transport)) by apply bounded_empty. revert H. unfold transport_run.
  generalize new_transport. induction ops as [|op ops IH]; simpl; intros t Hb; [done|]. apply IH.
  destruct op as [o subs l th|lib tp p q r|lib tp p q r ep|lib tp p r c ep|ep| | |a]; simpl.
  - unfold transport_start. destruct (mt_joining t); [done|].
    destruct (mt_started t || mt_library t || _), l, th; simpl; auto with pi.
  - unfold publish, submit_regular. case_match eqn:Hg; [done|]. split_bool.
    destruct (submit _ _ _ _ _ _ t) as [[m|] t'] eqn:Hs; apply bounded_submit in Hs; try done;
      intros _; by apply Nat.leb_gt.
  - unfold publishInEpoch, submit_regular. case_match eqn:Hg; [done|]. split_bool.
    destruct (submit _ _ _ _ _ _ t) as [[m|] t'] eqn:Hs; apply bounded_submit in Hs; try done;
      intros _; by apply Nat.leb_gt.
  - unfold publishTracked. case_match eqn:Hg; [done|].
    destruct (submit _ _ _ _ _ _ t) as [[m|] t'] eqn:Hs; apply bounded_submit in Hs; done.
  - unfold abortActiveEpoch. case_match; simpl; auto with pi.
  - unfold request_transport_stop. repeat case_match; simpl; auto with pi.
  - destruct (mt_joining t), (mt_at t), (mt_todo t); simpl; auto with pi.
  - by apply bounded_supervisor.
Qed.

(** * Examples and witnesses *)

(** Concrete runs of the MQTT transport: a connection with a message that comes before the
    subscriptions are ready, a tracked publication with its acknowledgement, a disconnection with the
    next connection, and the stop. *)
Notation lib_answers mid := (fun _ _ _ _ _ => (0, mid)).
Notation demo_topic := (mkMqttSubscription "cam/#" 0).
Notation demo_correlation := (mkMqttPublishCorrelation "fire:ch01:state" 3 "a1").

(** The supervisor up to the network loop of a new connection, and the subscription of the topic under [mid]. *)
Notation to_network := [TSupervisor Proceed; TSupervisor Proceed; TSupervisor (Made true true);
  TSupervisor (Connects 0); TSupervisor Proceed].
Notation connect_and_subscribe mid := [TSupervisor (Calls (OnConnect 0)); TSupervisor (Threw false);
  TSupervisor (Calls (OnMessage "cam/1" "early")); TSupervisor (Returns 0); TSupervisor Proceed;
  TSupervisor (Subscribed 0 mid); TSupervisor Proceed].
Notation demo_ops := ([TStart (mkMqttConnectionOptions "pi" "localhost" 1883 60) [demo_topic] true true] ++
  to_network ++ connect_and_subscribe 7 ++
  [TPublishTracked (lib_answers 8) "fire/ch01" "{}" true demo_correlation 1;
   TSupervisor (Calls (OnSubscribe 7 [0])); TSupervisor (Threw false); TSupervisor (Threw false);
   TPublishTracked (lib_answers 9) "fire/ch01" "{}" true demo_correlation 1;
   TPublishTracked (lib_answers 9) "fire/ch01" "{}" true demo_correlation 2;
   TSupervisor (Threw false); TSupervisor (Threw false); TSupervisor (Threw false);
   TSupervisor (Calls (OnMessage "cam/1" "late")); TSupervisor (Threw false);
   TSupervisor (Calls (OnPublish 9)); TSupervisor (Threw false); TSupervisor (Calls (OnPublish 9));
   TPublishTracked (lib_answers 10) "fire/ch01" "{}" true demo_correlation 1]).

(** Before the subscriptions are ready a tracked publication is refused, and so is one for another epoch; the
    early message goes out before the late one; the second acknowledgement says nothing. *)
Example demo_log :
  mt_log (transport_run new_transport demo_ops) =
  [EvInstalled 1;
   EvFact (plain_fact Connected 1 (-1) 0); EvOnConnected;
   EvArrived 1 (mkBufferedMessage "cam/1" "early");
   EvFact (mkMqttTransportFact SubscriptionAcknowledged 1 7 0 "cam/#" [0]);
   EvFact (plain_fact SubscriptionsReady 1 (-1) 0);
   EvTracked 1 9 demo_correlation;
   EvHanded 1 (mkBufferedMessage "cam/1" "early");
   EvArrived 1 (mkBufferedMessage "cam/1" "late"); EvHanded 1 (mkBufferedMessage "cam/1" "late");
   EvFact (plain_fact PublishAcknowledged 1 9 0); EvOnPublished 9;
   EvTracked 1 10 demo_correlation].
Proof. vm_compute. reflexivity. Qed.


Notation reconnect_ops := (demo_ops ++ [TSupervisor (Calls (OnDisconnect 7)); TSupervisor (Threw false);
  TPublish (lib_answers 11) "events" "{}" 1 false; TSupervisor (Returns 7); TSupervisor Proceed;
  TSupervisor Proceed] ++ to_network ++
  [TPublishTracked (lib_answers 12) "fire/ch01" "{}" true demo_correlation 1; TStop;
   TSupervisor (Returns 0); TSupervisor Proceed; TSupervisor Proceed; TSupervisor Proceed;
   TSupervisor (Threw false); TSupervisor Proceed; TJoined]).

(** The old publication has no effect on the new connection; every connection ends once. *)
Example reconnect_log :
  drop 13 (mt_log (transport_run new_transport reconnect_ops)) =
  [EvFact (plain_fact Disconnected 1 (-1) 7); EvOnDisconnected 7; EvInstalled 2;
   EvFact (plain_fact Disconnected 2 (-1) 0); EvOnDisconnected 0] /\
  mt_at (transport_run new_transport reconnect_ops) = SupAbsent.
Proof. vm_compute. split; reflexivity. Qed.

(** Without subscriptions the connection becomes ready, but a message that came before stays in the
    buffer, while a later one is handed over. *)
Example no_subscription_keeps_buffer :
  let t := transport_run new_transport
    ([TStart no_options [] true true] ++ to_network ++
     [TSupervisor (Calls (OnConnect 0)); TSupervisor (Threw false);
      TSupervisor (Calls (OnMessage "a" "1")); TSupervisor (Returns 0); TSupervisor Proceed;
      TSupervisor Proceed; TSupervisor (Threw false); TSupervisor Proceed;
      TSupervisor (Calls (OnMessage "a" "2")); TSupervisor (Threw false)]) in
  ep_buffer (mt_ep t) = [mkBufferedMessage "a" "1"] /\
  last (mt_log t) = Some (EvHanded 1 (mkBufferedMessage "a" "2")).
Proof. vm_compute. split; reflexivity. Qed.
