(* ===== verification/CameraEvents.v ===== *)
(** The parser of camera messages, [src/event/CameraEventParser.cpp]: the kind of an event from the
    words of its topic and payload, the two JSON forms of an area event, and the cutting of a bundle of
    ONVIF notifications. A text may make the parser throw: [Err] carries the exception. *)
From S2P Require Import Prelude Digest SensorProtocol SequencePolicy SlotConfig OccupancyDb Iva TimeText.

(** * Data *)

(** [include/event/CameraEvent.hpp:7-37 CameraEvent] The two members protocol_valid and protocol_error are
    one option; the parser leaves iva_area_id alone. *)
Record CameraMessage := mkCameraMessage {
  cm_raw_topic : string;
  cm_raw_payload : string;
  cm_timestamp : string;
  cm_timestamp_from_source : bool;
  cm_event_channel_id : string;
  cm_video_source_token : string;
  cm_rule_name : string;
  cm_declared_camera_id : string;
  cm_action : string;
  cm_object_id : string;
  cm_is_smart_parking_iva : bool;
  cm_protocol_error : option string;
  cm_source_type : string;
  cm_source_id : string;
  cm_event_type : string;
  cm_severity : string;
  cm_is_iva_area_event : bool;
  cm_is_active : bool;
  cm_slot_id : string
}.

Definition protocol_valid (e : CameraMessage) : bool := bool_decide (cm_protocol_error e = None).

(** The groups of members that the parser writes. *)
Definition set_declared (e : CameraMessage) (camera rule slot action : string) : CameraMessage :=
  mkCameraMessage (cm_raw_topic e) (cm_raw_payload e) (cm_timestamp e) (cm_timestamp_from_source e)
    (cm_event_channel_id e) (cm_video_source_token e) rule camera action (cm_object_id e)
    (cm_is_smart_parking_iva e) (cm_protocol_error e) (cm_source_type e) (cm_source_id e) (cm_event_type e)
    (cm_severity e) (cm_is_iva_area_event e) (cm_is_active e) slot.
Definition set_object (e : CameraMessage) (object : string) : CameraMessage :=
  mkCameraMessage (cm_raw_topic e) (cm_raw_payload e) (cm_timestamp e) (cm_timestamp_from_source e)
    (cm_event_channel_id e) (cm_video_source_token e) (cm_rule_name e) (cm_declared_camera_id e) (cm_action e)
    object (cm_is_smart_parking_iva e) (cm_protocol_error e) (cm_source_type e) (cm_source_id e)
    (cm_event_type e) (cm_severity e) (cm_is_iva_area_event e) (cm_is_active e) (cm_slot_id e).
Definition set_token (e : CameraMessage) (token : string) : CameraMessage :=
  mkCameraMessage (cm_raw_topic e) (cm_raw_payload e) (cm_timestamp e) (cm_timestamp_from_source e)
    (cm_event_channel_id e) token (cm_rule_name e) (cm_declared_camera_id e) (cm_action e)
    (cm_object_id e) (cm_is_smart_parking_iva e) (cm_protocol_error e) (cm_source_type e) (cm_source_id e)
    (cm_event_type e) (cm_severity e) (cm_is_iva_area_event e) (cm_is_active e) (cm_slot_id e).
Definition set_protocol (e : CameraMessage) (smart : bool) (error : option string) : CameraMessage :=
  mkCameraMessage (cm_raw_topic e) (cm_raw_payload e) (cm_timestamp e) (cm_timestamp_from_source e)
    (cm_event_channel_id e) (cm_video_source_token e) (cm_rule_name e) (cm_declared_camera_id e) (cm_action e)
    (cm_object_id e) smart error (cm_source_type e) (cm_source_id e)
    (cm_event_type e) (cm_severity e) (cm_is_iva_area_event e) (cm_is_active e) (cm_slot_id e).
Definition set_kind (e : CameraMessage) (event_type : string) (active : bool) : CameraMessage :=
  mkCameraMessage (cm_raw_topic e) (cm_raw_payload e) (cm_timestamp e) (cm_timestamp_from_source e)
    (cm_event_channel_id e) (cm_video_source_token e) (cm_rule_name e) (cm_declared_camera_id e) (cm_action e)
    (cm_object_id e) (cm_is_smart_parking_iva e) (cm_protocol_error e) (cm_source_type e) (cm_source_id e)
    event_type (cm_severity e) (cm_is_iva_area_event e) active (cm_slot_id e).
Definition set_time (e : CameraMessage) (timestamp : string) : CameraMessage :=
  mkCameraMessage (cm_raw_topic e) (cm_raw_payload e) timestamp true
    (cm_event_channel_id e) (cm_video_source_token e) (cm_rule_name e) (cm_declared_camera_id e) (cm_action e)
    (cm_object_id e) (cm_is_smart_parking_iva e) (cm_protocol_error e) (cm_source_type e) (cm_source_id e)
    (cm_event_type e) (cm_severity e) (cm_is_iva_area_event e) (cm_is_active e) (cm_slot_id e).
Definition set_class (e : CameraMessage) (action severity : string) (area : bool) : CameraMessage :=
  mkCameraMessage (cm_raw_topic e) (cm_raw_payload e) (cm_timestamp e) (cm_timestamp_from_source e)
    (cm_event_channel_id e) (cm_video_source_token e) (cm_rule_name e) (cm_declared_camera_id e) action
    (cm_object_id e) (cm_is_smart_parking_iva e) (cm_protocol_error e) (cm_source_type e) (cm_source_id e)
    (cm_event_type e) severity area (cm_is_active e) (cm_slot_id e).

(** * Words *)

(** [src/event/CameraEventParser.cpp:42-48 upperCopy] *)
Definition upperCopy (value : string) : string := smap toupper value.

Definition dquote : string := String (ascii_of_nat 34) "".
Definition quoted (s : string) : string := dquote +:+ s +:+ dquote.

(** [src/event/CameraEventParser.cpp:20-28 parseActiveState] *)
Definition parseActiveState (payload : string) : bool :=
  let value := lowerCopy payload in
  negb (existsb (fun word => contains word value)
    ["value=" +:+ quoted "false"; "value='false'"; quoted "active" +:+ ":false"; quoted "state" +:+ ":false";
     ">false<"]).

Fixpoint take_while (p : ascii -> bool) (s : string) : string :=
  match s with
  | String c rest => if p c then String c (take_while p rest) else ""
  | "" => ""
  end.

(** [src/event/CameraEventParser.cpp:30-40 canonicalVideoSourceToken] *)
Definition canonicalVideoSourceToken (token : string) : string :=
  let token := canonicalToken token in
  if negb (String.prefix "vs-" token) || (String.length token <=? 3)%nat then ""
  else if sall isdigit (sdrop 3 token) then token else "".

(** [src/event/CameraEventParser.cpp:300-325 parseVideoSourceToken] *)
Definition parseVideoSourceToken (topic : string) : string :=
  let lower := lowerCopy topic in
  match (match cut_at "videosourcetoken-" lower with
         | Some (_, rest) => Some rest
         | None => snd <$> cut_at "vs-" lower
         end) with
  | Some rest => if is_empty (take_while isdigit rest) then "" else "vs-" +:+ take_while isdigit rest
  | None => ""
  end.

(** [src/event/CameraEventParser.cpp:327-335 parseSourceId] *)
Definition parseSourceId (topic : string) : string :=
  match break_on "/" topic with Some (source, _) => source | None => topic end.

(** std::setw(2) with '0'. *)
Definition pad2 (n : Z) : string :=
  let text := pretty n in if (String.length text <? 2)%nat then "0" +:+ text else text.

(** [src/event/CameraEventParser.cpp:337-357 parseEventChannelId] The sum is one of 32-bit integers; its
    overflow, undefined in C++, is written as the wrap-around. *)
Definition parseEventChannelId (topic default_channel_id : string) : string :=
  let token := parseVideoSourceToken topic in
  if is_empty token then default_channel_id else
  match stoi (sdrop 3 token) with
  | None => default_channel_id
  | Some token_index =>
      if (2 ^ 31 <=? token_index) then default_channel_id
      else "ch" +:+ pad2 (wrap_int32 (token_index + 1))
  end.

(** [src/event/CameraEventParser.cpp:359-413 parseEventType] *)
Definition parseEventType (topic payload : string) : string :=
  let combined := lowerCopy (topic +:+ newline +:+ payload) in
  let has word := contains word combined in
  let area := has "virtualarea" || has "virtual area" || has "iva" || has "fielddetector" ||
              has "objectsinside" || has "regiondetector" in
  if area && has "enter" then "camera_iva_area_enter" else
  if area && has "exit" then "camera_iva_area_exit" else
  if area && has "intrusion" then "camera_iva_area_intrusion" else
  if area && (has "objectsinside" || has "inside") then "camera_iva_area_occupied" else
  if has "ivaarea" then "camera_iva_area_occupied" else
  if contains "MotionAlarm" topic then "camera_motion_alarm" else
  if contains "MotionDetection" topic then "camera_motion_detection" else
  if contains "ObjectDetection" topic then "camera_object_detection" else
  if contains "DigitalInput" topic then "camera_digital_input" else
  if contains "Relay" topic then "camera_relay" else
  if contains "ImageTooBlurry" topic then "camera_image_too_blurry" else
  if contains "Tampering" topic then "camera_tampering" else
  "camera_event".

(** [src/event/CameraEventParser.cpp:415-429 parseSeverity] *)
Definition parseSeverity (event_type : string) : string :=
  if bool_decide (event_type = "camera_tampering") then "warning" else
  if bool_decide (event_type = "camera_digital_input") then "warning" else
  if bool_decide (event_type = "camera_image_too_blurry") then "warning" else
  "info".

(** * The JSON forms *)

Section Json.
Context {JL : JsonLibrary}.

(** A member that is there and a text, and the text. *)
Definition text_member (object : json) (key : string) : option string :=
  match json_find object key with Some (JString s) => Some s | _ => None end.

(** The object identifier: a text as it is, an integer as it is printed. *)
Definition with_object (object : json) (key : string) (e : CameraMessage) : CameraMessage :=
  match json_find object key with
  | Some (JString s) => set_object e s
  | Some (JInteger n) => set_object e (json_dump (JInteger n))
  | _ => e
  end.

Definition reject (e : CameraMessage) (message : string) : CameraMessage :=
  set_protocol e (cm_is_smart_parking_iva e) (Some message).

(** The first of the required members that is missing, no text or empty. *)
Definition missing_member (body : json) : option string :=
  List.find (fun key => match text_member body key with Some s => is_empty s | None => true end)
    ["camera_id"; "video_source_token"; "rule_name"; "slot_id"; "event_type"; "action"].
Definition member (body : json) (key : string) : string := default "" (text_member body key).

(** [src/event/CameraEventParser.cpp:50-120 parseSmartParkingIva] *)
Definition parseSmartParkingIva (payload : string) (e0 : CameraMessage) : result string CameraMessage :=
  match json_parse payload with
  | Err _ => Ok e0
  | Ok body =>
      if negb (is_object body) then Ok e0 else
      match value_string body "schema" "" with
      | Err _ => Err "type_error"
      | Ok schema =>
          if negb (bool_decide (schema = "smart-parking-iva-v1")) then Ok e0 else
          let e1 := set_protocol e0 true (cm_protocol_error e0) in
          match missing_member body with
          | Some key => Ok (reject e1 ("missing or invalid " +:+ key))
          | None =>
              match json_find body "active" with
              | Some (JBool active) =>
                  let action := upperCopy (member body "action") in
                  let e2 := with_object body "object_id"
                              (set_declared e1 (member body "camera_id") (member body "rule_name")
                                 (member body "slot_id") action) in
                  let e3 := set_kind e2 (cm_event_type e2) active in
                  let token := canonicalVideoSourceToken (member body "video_source_token") in
                  if is_empty token then Ok (reject e3 "invalid video_source_token") else
                  if negb (is_empty (cm_video_source_token e3)) &&
                     negb (bool_decide (cm_video_source_token e3 = token))
                  then Ok (reject e3 "topic/payload video_source_token mismatch") else
                  let e4 := set_token e3 token in
                  if negb (bool_decide (upperCopy (member body "event_type") = "IVA_AREA"))
                  then Ok (reject e4 "unsupported event_type") else
                  if bool_decide (action = "ENTER") && active
                  then Ok (set_kind e4 "camera_iva_area_enter" active) else
                  if bool_decide (action = "INTRUSION") && active
                  then Ok (set_kind e4 "camera_iva_area_intrusion" active) else
                  if bool_decide (action = "EXIT") && negb active
                  then Ok (set_kind e4 "camera_iva_area_exit" active) else
                  Ok (reject e4 "action and active are inconsistent")
              | _ => Ok (reject e1 "missing or invalid active")
              end
          end
      end
  end.

(** The kind of an area event by its action. *)
Definition action_kind (action : string) (e : CameraMessage) : CameraMessage :=
  if bool_decide (action = "INTRUSION") then set_kind e "camera_iva_area_intrusion" true else
  if bool_decide (action = "EXIT") then set_kind e "camera_iva_area_exit" false else
  set_kind e "camera_iva_area_enter" true.

(** [src/event/CameraEventParser.cpp:122-190 parseWiseAiIvaJson] *)
Definition parseWiseAiIvaJson (topic payload : string) (e0 : CameraMessage) : CameraMessage :=
  if negb (contains "ivaarea" (lowerCopy topic)) then e0 else
  match json_parse payload with
  | Err _ => e0
  | Ok body =>
      match json_find body "Source", json_find body "Data" with
      | Some source, Some data =>
          if negb (is_object body && is_object source && is_object data) then e0 else
          match text_member data "Action" with
          | None => e0
          | Some text =>
              let action := upperCopy text in
              if negb (bool_decide (action ∈ ["ENTER"; "INTRUSION"; "EXIT"])) then e0 else
              let rule := default (cm_rule_name e0) (text_member source "RuleName") in
              let e1 := set_declared e0 (cm_declared_camera_id e0) rule (cm_slot_id e0) action in
              let token := match text_member source "VideoSourceToken" with
                           | Some t => canonicalVideoSourceToken t | None => "" end in
              if negb (is_empty token) && negb (is_empty (cm_video_source_token e1)) &&
                 negb (bool_decide (token = cm_video_source_token e1))
              then reject e1 "topic/payload video_source_token mismatch" else
              let e2 := if is_empty token then e1 else set_token e1 token in
              let e3 := with_object data "ObjectId" e2 in
              let e4 := match text_member body "UtcTime" with Some t => set_time e3 t | None => e3 end in
              action_kind action e4
          end
      | _, _ => e0
      end
  end.

(** [src/event/CameraEventParser.cpp:192-201 inferIvaAction] *)
Definition inferIvaAction (e : CameraMessage) : string :=
  if negb (is_empty (cm_action e)) then cm_action e else
  if bool_decide (cm_event_type e = "camera_iva_area_intrusion") then "INTRUSION" else
  if bool_decide (cm_event_type e = "camera_iva_area_exit") then "EXIT" else
  if bool_decide (cm_event_type e = "camera_iva_area_enter") then "ENTER" else
  "".

Definition area_event_types : list string :=
  ["camera_iva_area_enter"; "camera_iva_area_exit"; "camera_iva_area_intrusion"; "camera_iva_area_occupied"].

(** [src/event/CameraEventParser.cpp:249-280 CameraEventParser::parse] with the text of the current time. *)
Definition camera_parse (now_text raw_topic raw_payload default_channel_id : string)
    : result string CameraMessage :=
  let e0 := mkCameraMessage raw_topic raw_payload now_text false
    (parseEventChannelId raw_topic default_channel_id) (parseVideoSourceToken raw_topic) "" "" "" "" false None
    "camera_mqtt" (parseSourceId raw_topic) (parseEventType raw_topic raw_payload) "" false
    (parseActiveState raw_payload) "" in
  let? e1 := parseSmartParkingIva raw_payload e0 in
  let e2 := if cm_is_smart_parking_iva e1 then e1 else parseWiseAiIvaJson raw_topic raw_payload e1 in
  Ok (set_class e2 (inferIvaAction e2) (parseSeverity (cm_event_type e2))
        (bool_decide (cm_event_type e2 ∈ area_event_types))).
End Json.

(** * Bundles *)

(** std::string::find from a position, and std::string::rfind of a character. *)
Definition find_from (pattern text : string) (position : nat) : option nat :=
  if (String.length text <? position)%nat then None else
  (fun p => (position + String.length p.1)%nat) <$> cut_at pattern (sdrop position text).
Fixpoint last_index (c : ascii) (s : string) : option nat :=
  match s with
  | "" => None
  | String d rest => match last_index c rest with
                     | Some k => Some (S k)
                     | None => if bool_decide (d = c) then Some O else None
                     end
  end.
Definition rfind_char (c : ascii) (text : string) (position : nat) : option nat :=
  last_index c (String.substring 0 (S position) text).

Definition in_tag_name (c : ascii) : bool :=
  negb (isspace c || bool_decide (c = ">"%char) || bool_decide (c = "/"%char)).

(** [src/event/CameraEventParser.cpp:203-243 splitNotificationMessages] The loop from a position; [None] is out of
    fuel. *)
Fixpoint split_loop (fuel : nat) (payload lower : string) (searchPosition : nat) : option (list string) :=
  match fuel with
  | O => None
  | S fuel =>
      if (String.length lower <=? searchPosition)%nat then Some [] else
      match find_from "notificationmessage" lower searchPosition with
      | None => Some []
      | Some namePosition =>
          match rfind_char "<" lower namePosition with
          | None => split_loop fuel payload lower (S namePosition)
          | Some tagStart =>
              if (String.length lower <=? S tagStart)%nat ||
                 bool_decide (String.get (S tagStart) lower = Some "/"%char)
              then split_loop fuel payload lower (S namePosition) else
              let tagName := take_while in_tag_name (sdrop (S tagStart) lower) in
              let tagEnd := (S tagStart + String.length tagName)%nat in
              if is_empty tagName then split_loop fuel payload lower (S namePosition) else
              let closingTag := "</" +:+ tagName +:+ ">" in
              match find_from closingTag lower tagEnd with
              | None => Some []
              | Some closingStart =>
                  let messageEnd := (closingStart + String.length closingTag)%nat in
                  (fun messages => String.substring tagStart (messageEnd - tagStart) payload :: messages) <$>
                    split_loop fuel payload lower messageEnd
              end
          end
      end
  end.
Definition splitNotificationMessages (payload : string) : list string :=
  default [] (split_loop (S (String.length payload)) payload (lowerCopy payload) 0).

Section Json.
Context {JL : JsonLibrary}.

(** The events of a list of texts; an exception in one of them is an exception of all. *)
Fixpoint parse_each (now_text : nat -> string) (raw_topic default_channel_id : string) (i : nat)
    (payloads : list string) : result string (list CameraMessage) :=
  match payloads with
  | [] => Ok []
  | payload :: rest =>
      let? e := camera_parse (now_text i) raw_topic payload default_channel_id in
      let? es := parse_each now_text raw_topic default_channel_id (S i) rest in
      Ok (e :: es)
  end.

(** [src/event/CameraEventParser.cpp:282-298 CameraEventParser::parseMany] *)
Definition parseMany (now_text : nat -> string) (raw_topic raw_payload default_channel_id : string)
    : result string (list CameraMessage) :=
  match splitNotificationMessages raw_payload with
  | [] => parse_each now_text raw_topic default_channel_id 0 [raw_payload]
  | messages => parse_each now_text raw_topic default_channel_id 0 messages
  end.
End Json.

Example split_two :
  splitNotificationMessages "<w><a:NotificationMessage x>one</a:NotificationMessage>
<a:NotificationMessage>two</a:NotificationMessage></w>" =
  ["<a:NotificationMessage x>one</a:NotificationMessage>"; "<a:NotificationMessage>two</a:NotificationMessage>"].
Proof. vm_compute. reflexivity. Qed.
(** The kind of an XML event is a matter of words: the name of the rule counts. *)
Example exit_of_center :
  parseEventType "cam/VideoSource/vs-0/IvaArea" "<RuleName>center</RuleName><Action>Exit</Action>" =
  "camera_iva_area_enter".
Proof. vm_compute. reflexivity. Qed.
Example channel_wraps : parseEventChannelId "cam/vs-2147483647" "ch01" = "ch-2147483648".
Proof. vm_compute. reflexivity. Qed.
