(* ===== verification/CameraEventText.v ===== *)
(** The cutting of a bundle of notifications: it always ends, and it gives back the notifications
    that a bundle was made of, in their order. *)
From S2P Require Import Prelude Digest SensorProtocol SequencePolicy SlotConfig OccupancyDb Iva TimeText CameraEvents.

(** * Positions *)

Lemma last_index_bound c s k : last_index c s = Some k -> (k < String.length s)%nat.
Proof.
  revert k. induction s as [|d s IH]; intros k; simpl; [done|].
  destruct (last_index c s) as [j|]; [intros [= <-]; specialize (IH j eq_refl); lia|].
  case_bool_decide; [intros [= <-]; lia|done].
Qed.

Lemma last_index_max c s k i : last_index c s = Some k -> String.get i s = Some c -> (i <= k)%nat.
Proof.
  revert k i. induction s as [|d s IH]; intros k i; simpl; [done|].
  destruct (last_index c s) as [j|] eqn:E.
  - intros [= <-]. destruct i as [|i]; [lia|]. intros Hi. specialize (IH j i eq_refl Hi). lia.
  - assert (Hno : forall i, String.get i s <> Some c).
    { clear -E. induction s as [|e s IH]; intros i; simpl; [done|]. simpl in E.
      destruct (last_index c s); [done|]. case_bool_decide; [done|]. destruct i; [congruence|by apply IH]. }
    case_bool_decide; [|done]. intros [= <-]. destruct i as [|i]; [lia|]. intros Hi. by destruct (Hno i).
Qed.

Lemma last_index_app c a b :
  sall (fun d => negb (bool_decide (d = c))) b = true ->
  last_index c (a +:+ String c b) = Some (String.length a).
Proof.
  intros Hb. assert (Hnone : last_index c b = None).
  { induction b as [|d b IH]; [done|]. simpl in *. apply andb_prop in Hb as [Hd Hb].
    rewrite (IH Hb). by apply negb_true_iff in Hd as ->. }
  induction a as [|d a IH]; simpl; [by rewrite Hnone, bool_decide_eq_true_2|]. by rewrite IH.
Qed.

Lemma get_app_right a s i : String.get (String.length a + i) (a +:+ s) = String.get i s.
Proof. by induction a. Qed.

Lemma sdrop_length_app a s : sdrop (String.length a) (a +:+ s) = s.
Proof. by induction a. Qed.

Lemma sdrop_split n s : (n <= String.length s)%nat -> exists a, s = a +:+ sdrop n s /\ String.length a = n.
Proof.
  revert s. induction n as [|n IH]; intros s Hn; [by exists ""|]. destruct s as [|c s]; simpl in *; [lia|].
  destruct (IH s) as (a & Ha & Hl); [lia|]. exists (String c a). simpl. split; [by rewrite <- Ha|lia].
Qed.

Lemma substring_middle a m b : String.substring (String.length a) (String.length m) (a +:+ m +:+ b) = m.
Proof.
  induction a as [|c a IH]; simpl; [|done]. induction m as [|c m IH]; simpl; [by destruct b|by rewrite IH].
Qed.

Lemma substring_front a b : String.substring 0 (String.length a) (a +:+ b) = a.
Proof. apply (substring_middle "" a b). Qed.

Lemma lowerCopy_app a b : lowerCopy (a +:+ b) = lowerCopy a +:+ lowerCopy b.
Proof. apply smap_app. Qed.
Lemma lowerCopy_length a : String.length (lowerCopy a) = String.length a.
Proof. unfold lowerCopy. by induction a; simpl; f_equal. Qed.

(** An occurrence that was found. *)
Lemma find_from_some p s i k :
  find_from p s i = Some k ->
  (i <= k)%nat /\ (k + String.length p <= String.length s)%nat /\
  forall j c, String.get j p = Some c -> String.get (k + j) s = Some c.
Proof.
  unfold find_from. destruct (String.length s <? i)%nat eqn:Hi; [done|]. apply Nat.ltb_ge in Hi.
  destruct (cut_at p (sdrop i s)) as [[a b]|] eqn:E; [|done]. intros [= <-]. apply cut_at_some in E.
  destruct (sdrop_split i s Hi) as (x & Hs & Hx). rewrite E in Hs. simpl. split; [lia|].
  rewrite Hs, !length_append. split; [lia|]. intros j c Hj.
  rewrite <- Hx, <- append_assoc. rewrite <- length_append.
  rewrite get_app_right. revert j Hj. clear. induction p as [|d p IH]; intros j; [done|].
  destruct j; simpl; [done|apply IH].
Qed.

Lemma find_from_at p a x y b : cut_at p x = Some (y, b) -> find_from p (a +:+ x) (String.length a) = Some (String.length a + String.length y)%nat.
Proof.
  intros H. unfold find_from. rewrite length_append, (proj2 (Nat.ltb_ge _ _)) by lia.
  by rewrite sdrop_length_app, H.
Qed.
Lemma find_from_none p a x : cut_at p x = None -> find_from p (a +:+ x) (String.length a) = None.
Proof.
  intros H. unfold find_from. case_match; [done|]. by rewrite sdrop_length_app, H.
Qed.

Lemma rfind_char_some c s n k :
  rfind_char c s n = Some k -> forall i, (i <= n)%nat -> String.get i s = Some c -> (i <= k)%nat.
Proof.
  intros Hk i Hi Hg. eapply last_index_max; [done|]. rewrite substring_get by lia. done.
Qed.

(** * The loop ends *)

Lemma split_loop_ends fuel payload lower position :
  (position <= String.length lower)%nat -> (String.length lower < fuel + position)%nat ->
  exists ms, split_loop fuel payload lower position = Some ms.
Proof.
  revert position. induction fuel as [|fuel IH]; intros position Hp Hf; [lia|].
  cbn [split_loop]. destruct (_ <=? _)%nat eqn:Hend; [by eexists|]. apply Nat.leb_gt in Hend.
  destruct (find_from _ lower position) as [name|] eqn:Hname; [|by eexists].
  apply find_from_some in Hname as (Hge & Hle & _). cbn [String.length] in Hle.
  destruct (rfind_char _ _ _) as [tag|] eqn:Htag; [|apply IH; lia].
  destruct (_ || _) eqn:Hskip; [apply IH; lia|].
  set (tagName := take_while in_tag_name (sdrop (S tag) lower)). cbv zeta.
  destruct (is_empty tagName); [apply IH; lia|].
  destruct (find_from ("</" +:+ tagName +:+ ">") lower (S tag + String.length tagName)) as [close|] eqn:Hclose;
    [|by eexists].
  apply find_from_some in Hclose as (Hcge & Hcle & Hocc).
  assert (name < close)%nat.
  { destruct (le_lt_dec close name) as [Hcn|]; [|done].
    assert (close <= tag)%nat; [|lia]. apply (rfind_char_some _ _ _ _ Htag); [done|].
    specialize (Hocc 0%nat "<"%char eq_refl). by rewrite Nat.add_0_r in Hocc. }
  destruct (IH (close + String.length ("</" +:+ tagName +:+ ">"))%nat) as [ms Hms]; [done|lia|].
  rewrite Hms. by eexists.
Qed.

(** C39 [termination] The cutting of a bundle ends for every text: the loop, in as many rounds as the text has
    characters and one more, has come to its end, although it looks back for the start of a tag. *)
Theorem split_ends payload :
  exists ms, split_loop (S (String.length payload)) payload (lowerCopy payload) 0 = Some ms.
Proof. apply split_loop_ends; rewrite lowerCopy_length; lia. Qed.

(** * The round trip *)

(** A notification: its tag, and what stands between the name of the tag and the closing tag. *)
Record Notification := mkNotification {
  nt_before : string;
  nt_tag : string;
  nt_inner : string
}.
Definition notification_text (n : Notification) : string :=
  "<" +:+ nt_tag n +:+ nt_inner n +:+ "</" +:+ nt_tag n +:+ ">".

(** The bundle: the notifications, each with the text before it, and the text after them. *)
Fixpoint bundle (ns : list Notification) (after : string) : string :=
  match ns with
  | [] => after
  | n :: rest => nt_before n +:+ notification_text n +:+ bundle rest after
  end.

Definition name_word : string := "notificationmessage".

(** A notification that is well formed: the name of the tag is followed by a space, a slash or the end of the tag;
    the first time that the word stands in the text is inside that name; the first closing tag of that name is its own. *)
Definition well_formed (n : Notification) : bool :=
  let tag := lowerCopy (nt_tag n) in
  let inner := lowerCopy (nt_inner n) in
  let closing := "</" +:+ tag +:+ ">" in
  sall (fun c => in_tag_name c && negb (bool_decide (c = "<"%char))) tag &&
  match inner with String c _ => negb (in_tag_name c) | "" => false end &&
  match cut_at name_word tag with
  | Some (pre, post) =>
      bool_decide (cut_at name_word (lowerCopy (nt_before n) +:+ "<" +:+ tag) =
                   Some (lowerCopy (nt_before n) +:+ "<" +:+ pre, post))
  | None => false
  end &&
  bool_decide (cut_at closing (inner +:+ closing) = Some (inner, "")).

Lemma take_while_app p a b :
  sall p a = true -> match b with String c _ => negb (p c) | "" => false end = true ->
  take_while p (a +:+ b) = a.
Proof.
  intros Ha Hb. induction a as [|c a IH]; simpl in *.
  - destruct b as [|c b]; [done|]. simpl. apply negb_true_iff in Hb. by rewrite Hb.
  - apply andb_prop in Ha as [-> Ha]. by rewrite IH.
Qed.

(** What a round of the loop does on a well-formed notification. The text in lower case: what is done, the
    text before, the tag, its inside and its end, and the rest. *)
Section Round.
Variables done_ before tag inner rest pre post : string.
Let lower := done_ +:+ before +:+ "<" +:+ tag +:+ inner +:+ "</" +:+ tag +:+ ">" +:+ rest.
Hypothesis Htag : sall (fun c => in_tag_name c && negb (bool_decide (c = "<"%char))) tag = true.
Hypothesis Hinner : match inner with String c _ => negb (in_tag_name c) | "" => false end = true.
Hypothesis Hname : cut_at name_word tag = Some (pre, post).
Hypothesis Hword : cut_at name_word (before +:+ "<" +:+ tag) = Some (before +:+ "<" +:+ pre, post).
Hypothesis Hclose : cut_at ("</" +:+ tag +:+ ">") (inner +:+ "</" +:+ tag +:+ ">") = Some (inner, "").

Lemma round_tag : tag = pre +:+ name_word +:+ post.
Proof. by apply cut_at_some. Qed.
Lemma round_name_chars : sall in_tag_name tag = true.
Proof. eapply sall_impl; [|exact Htag]. by intros c [? _]%andb_prop. Qed.
Lemma round_pre : sall (fun d => negb (bool_decide (d = "<"%char))) (pre +:+ "n") = true.
Proof.
  rewrite sall_app. apply andb_true_intro. split; [|done].
  assert (H := Htag). rewrite round_tag, sall_app in H. apply andb_prop in H as [H _].
  eapply sall_impl; [|exact H]. by intros c [_ ?]%andb_prop.
Qed.

Lemma round_find :
  find_from name_word lower (String.length done_) =
  Some (String.length done_ + String.length (before +:+ "<" +:+ pre))%nat.
Proof.
  unfold lower. eapply find_from_at.
  apply (cut_at_app _ _ (inner +:+ "</" +:+ tag +:+ ">" +:+ rest)) in Hword.
  rewrite !append_assoc in Hword. exact Hword.
Qed.

Lemma round_rfind :
  rfind_char "<" lower (String.length done_ + String.length (before +:+ "<" +:+ pre)) =
  Some (String.length (done_ +:+ before)).
Proof.
  unfold rfind_char.
  assert (Hl : lower = ((done_ +:+ before) +:+ "<" +:+ (pre +:+ "n")) +:+
                       ("otificationmessage" +:+ post +:+ inner +:+ "</" +:+ tag +:+ ">" +:+ rest)).
  { unfold lower. rewrite round_tag at 1. unfold name_word. by rewrite !append_assoc. }
  rewrite Hl. replace (S _) with (String.length ((done_ +:+ before) +:+ "<" +:+ (pre +:+ "n"))).
  2:{ rewrite !length_append. cbn. lia. }
  rewrite substring_front. apply last_index_app, round_pre.
Qed.

Lemma round_sdrop :
  sdrop (S (String.length (done_ +:+ before))) lower = tag +:+ inner +:+ "</" +:+ tag +:+ ">" +:+ rest.
Proof.
  replace (S _) with (String.length ((done_ +:+ before) +:+ "<")) by (rewrite !length_append; cbn; lia).
  unfold lower. rewrite <- sdrop_length_app with (a := (done_ +:+ before) +:+ "<"). f_equal.
  by rewrite !append_assoc.
Qed.

Lemma round_get : String.get (S (String.length (done_ +:+ before))) lower <> Some "/"%char.
Proof.
  assert (Hl : lower = ((done_ +:+ before) +:+ "<") +:+ tag +:+ inner +:+ "</" +:+ tag +:+ ">" +:+ rest)
    by (unfold lower; by rewrite !append_assoc).
  replace (S _) with (String.length ((done_ +:+ before) +:+ "<") + 0)%nat by (rewrite !length_append; cbn; lia).
  rewrite Hl, get_app_right. pose proof round_name_chars as Hc. pose proof round_tag as Ht.
  destruct tag as [|c t].
  { exfalso. apply (f_equal String.length) in Ht. rewrite !length_append in Ht. cbn in Ht. lia. }
  cbn. cbn in Hc. apply andb_prop in Hc as [Hc _]. intros [= ->]. done.
Qed.

Lemma round_closing :
  find_from ("</" +:+ tag +:+ ">") lower (S (String.length (done_ +:+ before)) + String.length tag) =
  Some (S (String.length (done_ +:+ before)) + String.length tag + String.length inner)%nat.
Proof.
  assert (Hl : lower = ((done_ +:+ before) +:+ "<" +:+ tag) +:+ (inner +:+ "</" +:+ tag +:+ ">") +:+ rest)
    by (unfold lower; by rewrite !append_assoc).
  replace (S _ + String.length tag)%nat with (String.length ((done_ +:+ before) +:+ "<" +:+ tag))
    by (rewrite !length_append; cbn; lia).
  rewrite Hl. eapply find_from_at. apply (cut_at_app _ _ rest) in Hclose. exact Hclose.
Qed.

Lemma split_round fuel payload text :
  String.length payload = String.length lower ->
  String.substring (String.length (done_ +:+ before)) (String.length text) payload = text ->
  String.length text = String.length ("<" +:+ tag +:+ inner +:+ "</" +:+ tag +:+ ">") ->
  split_loop (S fuel) payload lower (String.length done_) =
  (fun ms => text :: ms) <$>
    split_loop fuel payload lower (String.length (done_ +:+ before) + String.length text).
Proof.
  intros Hp Hsub Hlen. cbn [split_loop].
  assert (Htag0 : is_empty tag = false).
  { pose proof round_tag as Ht. destruct (is_empty tag) eqn:E; [|done]. exfalso.
    assert (Hl : String.length tag = 0%nat) by (clear -E; by destruct tag).
    rewrite Ht, !length_append in Hl. cbn in Hl. lia. }
  assert (Hlong : (String.length done_ + String.length before + 2 < String.length lower)%nat).
  { unfold lower. rewrite !length_append. cbn. lia. }
  rewrite (proj2 (Nat.leb_gt _ _)) by lia.
  change "notificationmessage" with name_word. rewrite round_find, round_rfind.
  rewrite (proj2 (Nat.leb_gt _ _)) by (rewrite length_append; lia).
  rewrite bool_decide_eq_false_2 by apply round_get. cbn [orb].
  rewrite round_sdrop, (take_while_app in_tag_name tag); [|apply round_name_chars|].
  2:{ by destruct inner. }
  cbv zeta. rewrite Htag0, round_closing. rewrite !length_append in Hlen. cbn in Hlen.
  rewrite !length_append in *. cbn [String.length].
  match goal with |- context [split_loop _ _ _ ?n] =>
    replace n with (String.length done_ + String.length before + String.length text)%nat
      by (cbn; rewrite ?length_append; cbn; lia) end.
  rewrite (Nat.add_comm (String.length done_ + String.length before) (String.length text)), Nat.add_sub.
  by rewrite Hsub.
Qed.
End Round.

Lemma round_of_notification fuel done_ n rest :
  well_formed n = true ->
  let payload := done_ +:+ nt_before n +:+ notification_text n +:+ rest in
  split_loop (S fuel) payload (lowerCopy payload) (String.length done_) =
  (fun ms => notification_text n :: ms) <$>
    split_loop fuel payload (lowerCopy payload)
      (String.length (done_ +:+ nt_before n +:+ notification_text n)).
Proof.
  destruct n as [g tag inner]. unfold well_formed, notification_text. cbn [nt_before nt_tag nt_inner].
  intros Hwf. cbv zeta in Hwf. apply andb_prop in Hwf as [Hwf Hclose%bool_decide_eq_true_1].
  apply andb_prop in Hwf as [Hwf Hword]. apply andb_prop in Hwf as [Htag Hinner].
  destruct (cut_at name_word (lowerCopy tag)) as [[pre post]|] eqn:Hname; [|done].
  apply bool_decide_eq_true_1 in Hword. cbv zeta.
  set (text := "<" +:+ tag +:+ inner +:+ "</" +:+ tag +:+ ">").
  set (payload := done_ +:+ g +:+ text +:+ rest).
  assert (Hlower : lowerCopy payload = lowerCopy done_ +:+ lowerCopy g +:+ "<" +:+ lowerCopy tag +:+
            lowerCopy inner +:+ "</" +:+ lowerCopy tag +:+ ">" +:+ lowerCopy rest).
  { unfold payload, text. rewrite !lowerCopy_app, !append_assoc. done. }
  pose proof (split_round (lowerCopy done_) (lowerCopy g) (lowerCopy tag) (lowerCopy inner) (lowerCopy rest)
    pre post Htag Hinner Hname Hword Hclose fuel payload text) as Hround.
  rewrite <- Hlower in Hround. rewrite lowerCopy_length, length_append, !lowerCopy_length in Hround.
  rewrite Hround; [|done| |].
  - do 2 f_equal. rewrite !length_append. lia.
  - rewrite <- length_append. unfold payload. rewrite <- append_assoc. apply substring_middle.
  - unfold text. rewrite !length_append, !lowerCopy_length. done.
Qed.

Lemma bundle_loop ns after done_ fuel :
  forallb well_formed ns = true -> cut_at name_word (lowerCopy after) = None -> (length ns < fuel)%nat ->
  split_loop fuel (done_ +:+ bundle ns after) (lowerCopy (done_ +:+ bundle ns after)) (String.length done_) =
  Some (notification_text <$> ns).
Proof.
  intros Hwf Hafter. revert done_ fuel. induction ns as [|n ns IH]; intros done_ fuel Hf.
  - destruct fuel as [|fuel]; [simpl in Hf; lia|]. cbn [split_loop bundle]. case_match; [done|].
    rewrite lowerCopy_app, <- (lowerCopy_length done_). change "notificationmessage" with name_word.
    by rewrite find_from_none.
  - cbn [forallb] in Hwf. apply andb_prop in Hwf as [Hn Hns]. simpl in Hf.
    destruct fuel as [|fuel]; [lia|]. cbn [bundle].
    rewrite (round_of_notification fuel done_ n (bundle ns after) Hn).
    assert (Hassoc : done_ +:+ nt_before n +:+ notification_text n +:+ bundle ns after =
                     (done_ +:+ nt_before n +:+ notification_text n) +:+ bundle ns after)
      by (by rewrite !append_assoc).
    rewrite Hassoc, (IH Hns) by lia. done.
Qed.

(** A bundle gives back its notifications. For notifications that are well formed, whatever the case of
    their letters, the prefix of their names and the text between them, cutting the bundle gives exactly
    these notifications, each one whole, in the order in which the camera sent them. *)
Theorem notifications_split ns after :
  forallb well_formed ns = true -> cut_at name_word (lowerCopy after) = None ->
  splitNotificationMessages (bundle ns after) = notification_text <$> ns.
Proof.
  intros Hwf Hafter. unfold splitNotificationMessages.
  pose proof (bundle_loop ns after "" (S (String.length (bundle ns after))) Hwf Hafter) as H.
  cbn [String.append String.length] in H. rewrite H; [done|].
  clear H Hafter. induction ns as [|n ns IH]; [cbn; lia|]. cbn [forallb] in Hwf.
  apply andb_prop in Hwf as [_ Hns]. specialize (IH Hns).
  cbn [length bundle]. unfold notification_text. rewrite !length_append. cbn [String.length]. lia.
Qed.

(** Two notifications with different prefixes inside an envelope. *)
Notation demo_notifications := [
  mkNotification "<env:Envelope><env:Body>" "wsnt:NotificationMessage" " id='1'><tt:Message>EXIT</tt:Message>";
  mkNotification "
" "NOTIFICATIONMESSAGE" "><Rule>notificationmessage</Rule>"].

Lemma notifications_split_witness :
  splitNotificationMessages (bundle demo_notifications "</env:Body></env:Envelope>") =
  ["<wsnt:NotificationMessage id='1'><tt:Message>EXIT</tt:Message></wsnt:NotificationMessage>";
   "<NOTIFICATIONMESSAGE><Rule>notificationmessage</Rule></NOTIFICATIONMESSAGE>"].
Proof. rewrite notifications_split; [reflexivity|vm_compute; reflexivity|vm_compute; reflexivity]. Defined.
