(* ===== verification/MqttBridge.v ===== *)
(** The bridge between MQTT and the services, [src/mqtt/MqttEventBridge.cpp]: which message goes to which
    service, what an area event becomes for the parking service, and the gate of regular publications.
    The calls that the bridge makes are a list; [Err] is an exception that leaves the callback. *)
From S2P Require Import Prelude Digest SensorProtocol SequencePolicy SlotConfig Occupancy OccupancyDb Iva TimeText CameraEvents FireStore FireDelivery MqttTransport.

(** * Data *)

Section Bridge.
Context {R : Type}.

(** The members of AppConfig that the bridge reads; an area with its channel of the snapshot API. *)
Record BridgeConfig := mkBridgeConfig {
  bc_fire_alarm_enabled : bool;
  bc_fire_command_topic_prefix : string;
  bc_hall_mqtt_input_enabled : bool;
  bc_hall_mqtt_topic : string;
  bc_mqtt_event_sub_topic : string;
  bc_parking_occupancy_source : string;
  bc_camera_iva_event_source : string;
  bc_camera_id : string;
  bc_default_channel_id : string;
  bc_mqtt_host : string;
  bc_mqtt_port : Z;
  bc_iva_areas : list (@IvaAreaConfig R)
}.

(** [src/mqtt/MqttEventBridge.cpp:119-125 MqttEventBridge::bindSensorMessageHandler] Which handlers are bound. *)
Record BridgeHandlers := mkBridgeHandlers {
  bh_sensor : bool;
  bh_fire_ack : bool;
  bh_fire_clear : bool;
  bh_iva : bool;
  bh_facts : bool;
  bh_egress : bool
}.

(** What the bridge calls: the sensor service, the two fire commands, the parking service, and the
    evidence of an area event that the parking service took (hall mode). *)
Inductive BridgeCall :=
| CallSensor (payload : string)
| CallFireAck (channel alarm : string)
| CallFireClear (channel : string)
| CallIva (signal : IvaOccupancySignal)
| CallScene (target : @IvaResolvedTarget R) (event : CameraMessage).

Context {JL : JsonLibrary}.
Variable cfg : BridgeConfig.
Variable slots : list ParkingSlotConfig.
Variable handlers : BridgeHandlers.

(** * Start *)

Definition source_is (sources : list string) : bool := bool_decide (bc_parking_occupancy_source cfg ∈ sources).
Definition wants_hall : bool := bc_hall_mqtt_input_enabled cfg && source_is ["HALL"; "HYBRID_OR"].
Definition wants_camera : bool := source_is ["CAMERA_IVA"; "HYBRID_OR"].

(** [src/mqtt/MqttEventBridge.cpp:186-254 MqttEventBridge::start] The subscriptions, or the refusal for a
    missing target. *)
Definition bridge_start : result string (MqttConnectionOptions * list MqttSubscription) :=
  if bc_fire_alarm_enabled cfg && negb (bh_fire_ack handlers)
  then Err "MQTT start rejected: Fire ACK target is not bound" else
  if bc_fire_alarm_enabled cfg && negb (bh_facts handlers)
  then Err "MQTT start rejected: Fire delivery fact target is not bound" else
  if bc_fire_alarm_enabled cfg && negb (bh_egress handlers)
  then Err "MQTT start rejected: Fire-priority egress gate is not bound" else
  if wants_hall && negb (bh_sensor handlers) then Err "MQTT start rejected: Hall target is not bound" else
  if wants_camera && negb (bh_iva handlers) then Err "MQTT start rejected: CAMERA_IVA target is not bound" else
  Ok (mkMqttConnectionOptions ("pi-server-" +:+ bc_camera_id cfg) (bc_mqtt_host cfg) (bc_mqtt_port cfg) 60,
      (if wants_hall then [mkMqttSubscription (bc_hall_mqtt_topic cfg) 1] else []) ++
      (if bc_fire_alarm_enabled cfg
       then [mkMqttSubscription (bc_fire_command_topic_prefix cfg +:+ "/+") 1] else []) ++
      [mkMqttSubscription (bc_mqtt_event_sub_topic cfg) 0]).

(** * Messages *)

(** The parts of a topic between its slashes. *)
Fixpoint segments (s : string) : list string :=
  match s with
  | "" => [""]
  | String c rest =>
      if bool_decide (c = "/"%char) then "" :: segments rest
      else match segments rest with f :: fs => String c f :: fs | [] => [] end
  end.

(** [src/mqtt/MqttEventBridge.cpp:35-45 hasTopicSegment] *)
Definition hasTopicSegment (topic segment : string) : bool :=
  negb (is_empty segment) && bool_decide (segment ∈ segments topic).

(** [src/mqtt/MqttEventBridge.cpp:47-52 toOccupancyAction] *)
Definition toOccupancyAction (action : string) : IvaOccupancyAction :=
  if bool_decide (action = "ENTER") then Enter else
  if bool_decide (action = "INTRUSION") then Intrusion else
  if bool_decide (action = "EXIT") then Exit else
  UnsupportedAction.

(** [src/mqtt/MqttEventBridge.cpp:94-113 stableEventIdentity] *)
Definition stableEventIdentity (topic payload discriminator : string) : string :=
  let add value hash := fnv1a hash value in
  "camera-mqtt:" +:+ hex_digits 16
    (add discriminator (add newline (add payload (add newline (add topic 14695981039346656037%N))))).

(** The view of an event that the resolver has. *)
Definition resolver_view (e : CameraMessage) : CameraEvent :=
  mkCameraEvent (cm_video_source_token e) (cm_raw_topic e) (cm_raw_payload e) (cm_is_smart_parking_iva e)
    (cm_slot_id e) (cm_rule_name e) (cm_event_channel_id e).

(** A signal of a resolved event. *)
Definition bridge_signal (target : @IvaResolvedTarget R) (object : string) (action : IvaOccupancyAction)
    (authoritative authority from_source : bool) (identity : string) (occurred : time_point)
    : IvaOccupancySignal :=
  mkIvaOccupancySignal (irt_slotId target) (bc_camera_id cfg) (irt_observationVideoSourceToken target)
    (irt_ruleName target) object action authoritative identity from_source occurred (irt_channelId target)
    authority "camera-mqtt".
Definition identity_text (target : @IvaResolvedTarget R) (rest : list string) : string :=
  String.concat "|" (irt_slotId target :: irt_observationVideoSourceToken target :: irt_ruleName target :: rest).

(** [src/mqtt/MqttEventBridge.cpp:375-566 MqttEventBridge::processCameraEvent] up to the evidence of the scene.
    [received]: the clock; [accepts]: the answer of the parking service. *)
Definition processCameraEvent (received : time_point) (accepts : IvaOccupancySignal -> bool)
    (e : CameraMessage) : list BridgeCall :=
  if negb (cm_is_iva_area_event e) then [] else
  if bool_decide (bc_camera_iva_event_source cfg = "ONVIF") then [] else
  if negb (protocol_valid e) then [] else
  match (if cm_is_smart_parking_iva e
         then resolveSmartParkingPublication (bc_camera_id cfg) (resolver_view e) slots (bc_iva_areas cfg)
         else resolve (bc_camera_id cfg) (resolver_view e) slots (bc_iva_areas cfg)) with
  | Err _ => []
  | Ok target =>
      if cm_is_smart_parking_iva e then
        if negb (bool_decide (cm_declared_camera_id e = bc_camera_id cfg)) ||
           negb (bool_decide (cm_source_id e = bc_camera_id cfg)) ||
           negb (bool_decide (cm_slot_id e = irt_slotId target)) ||
           negb (hasTopicSegment (cm_raw_topic e) (irt_slotId target)) ||
           negb (hasTopicSegment (cm_raw_topic e)
                   (if bool_decide (cm_action e = "ENTER") then "enter"
                    else if bool_decide (cm_action e = "INTRUSION") then "intrusion" else "exit"))
        then [] else
        if negb (bool_decide (cm_action e = "INTRUSION")) || negb (cm_is_active e) then [] else
        if negb wants_camera then [] else
        if negb (bh_iva handlers) then [] else
        [CallIva (bridge_signal target (cm_object_id e) Intrusion false true false
           (stableEventIdentity (cm_raw_topic e) (cm_raw_payload e)
              (identity_text target ["INTRUSION"; cm_timestamp e])) received)]
      else
      let iva_action := toOccupancyAction (cm_action e) in
      if wants_camera then
        if negb (bh_iva handlers) then [] else
        if negb (cm_timestamp_from_source e) then [] else
        match parseIso8601Utc (cm_timestamp e) with
        | None => []
        | Some source_time =>
            [CallIva (bridge_signal target (cm_object_id e) iva_action true true true
               (stableEventIdentity (cm_raw_topic e) ""
                  (identity_text target [cm_action e; cm_timestamp e])) source_time)]
        end
      else
      if negb (bool_decide (iva_action = Intrusion)) || negb (cm_is_active e) then [] else
      if negb (bh_iva handlers) || negb (cm_timestamp_from_source e) || is_empty (cm_object_id e) then [] else
      match parseIso8601Utc (cm_timestamp e) with
      | None => []
      | Some source_time =>
          let signal := bridge_signal target (cm_object_id e) iva_action false false true
            (stableEventIdentity (cm_raw_topic e) (cm_raw_payload e)
               (identity_text target [cm_object_id e; cm_action e; cm_timestamp e])) source_time in
          CallIva signal :: (if accepts signal then [CallScene target e] else [])
      end
  end.

(** [src/mqtt/MqttEventBridge.cpp:310-354 MqttEventBridge::onMessage] The command of the control room: it may not be JSON,
    no object, or have members of another type; then nothing is called. *)
Definition fire_command (channel payload : string) : list BridgeCall :=
  if is_empty channel || bool_decide ("/"%char ∈ list_ascii_of_string channel) then [] else
  match json_parse payload with
  | Err _ => []
  | Ok body =>
      if negb (is_object body) then [] else
      match value_string body "command" "", value_string body "channel_id" "" with
      | Ok command, Ok payload_channel =>
          if negb (is_empty payload_channel) && negb (bool_decide (payload_channel = channel)) then [] else
          if bool_decide (command = "ALARM_CLEAR")
          then if bh_fire_clear handlers then [CallFireClear channel] else [] else
          if negb (bool_decide (command = "ALARM_ACK")) then [] else
          match value_string body "event_id" "" with
          | Ok event_id => match value_string body "alarm_id" event_id with
                           | Ok alarm_id => [CallFireAck channel alarm_id]
                           | Err _ => []
                           end
          | Err _ => []
          end
      | _, _ => []
      end
  end.

(** [src/mqtt/MqttEventBridge.cpp:297-373 MqttEventBridge::onMessage] [now_text], [received]: the clock for each event
    of a bundle. *)
Definition onMessage (now_text : nat -> string) (received : nat -> time_point)
    (accepts : IvaOccupancySignal -> bool) (topic payload : string) : result string (list BridgeCall) :=
  if bc_hall_mqtt_input_enabled cfg && bool_decide (topic = bc_hall_mqtt_topic cfg)
  then Ok (if bh_sensor handlers then [CallSensor payload] else []) else
  let prefix := bc_fire_command_topic_prefix cfg +:+ "/" in
  if bc_fire_alarm_enabled cfg && bh_fire_ack handlers && String.prefix prefix topic
  then Ok (fire_command (sdrop (String.length prefix) topic) payload) else
  let? events := parseMany now_text topic payload (bc_default_channel_id cfg) in
  Ok (mjoin (imap (fun i e => processCameraEvent (received i) accepts e) events)).

(** * Publications *)

(** [include/mqtt/MqttEventBridge.hpp:30-96 RegularEgressPermit] The grant of the fire delivery and whether it is
    current when it is asked for. *)
Record RegularEgressPermit := mkRegularEgressPermit { rp_epoch : N; rp_current : bool }.

(** [src/mqtt/MqttEventBridge.cpp:701-734 MqttEventBridge::publish] [admission]: what the fire delivery
    grants, [lib]: libmosquitto. While fire alarms are on, a message goes out only under a current permit and in its
    epoch. *)
Definition bridge_publish (admission : option RegularEgressPermit) (lib : MosquittoPublish)
    (topic payload : string) (qos : Z) (retain : bool) (t : Transport) : bool * Transport :=
  if bc_fire_alarm_enabled cfg then
    if negb (bh_egress handlers) then (false, t) else
    match admission with
    | None => (false, t)
    | Some permit =>
        if (rp_epoch permit =? 0)%N then (false, t) else
        if negb (rp_current permit) then (false, t) else
        let '(r, t') := publishInEpoch lib topic payload qos retain (rp_epoch permit) t in
        (mpr_accepted r, t')
    end
  else let '(r, t') := publish lib topic payload qos retain t in (mpr_accepted r, t').
End Bridge.
