(* ===== verification/MqttBridgeSafety.v ===== *)
(** What the bridge tells the parking service, when a message makes it throw, and what that costs. *)
From S2P Require Import Prelude Digest SensorProtocol SequencePolicy SlotConfig Occupancy OccupancyDb Iva TimeText CameraEvents FireStore FireDelivery MqttTransport MqttBridge.
From S2P Require Import CameraEventText MqttTransportSafety.

Section Bridge.
Context {R : Type} {JL : JsonLibrary}.
Variable cfg : @BridgeConfig R.
Variable slots : list ParkingSlotConfig.
Variable handlers : BridgeHandlers.

(** * Signals *)

(** A target is a configured area of an enabled slot. *)
Definition configured_target (target : @IvaResolvedTarget R) : Prop :=
  exists slot binding,
    slot ∈ slots /\ psc_enabled slot = true /\ binding ∈ psc_cameraBindings slot /\ sob_enabled binding = true /\
    sob_cameraId binding = bc_camera_id cfg /\ irt_slotId target = psc_slotId slot /\
    irt_ruleName target = sob_ruleName binding /\
    irt_observationVideoSourceToken target = sob_videoSourceToken binding.

Lemma filter_one {A} (p : A -> bool) l x : List.filter p l = [x] -> x ∈ l /\ p x = true.
Proof.
  intros H. assert (Hin : In x (List.filter p l)) by (rewrite H; by left).
  apply filter_In in Hin as [? ?]. split; [by apply list_elem_of_In|done].
Qed.

Lemma resolve_configured e target :
  resolve (bc_camera_id cfg) e slots (bc_iva_areas cfg) = Ok target -> configured_target target.
Proof.
  intros (_ & slot & binding & area & Hb & _ & ->)%resolve_unique.
  apply filter_one in Hb as [Hin Hm]. unfold binding_matches in Hm. simpl in Hm. split_bool.
  unfold slot_bindings in Hin. apply list_elem_of_bind in Hin as (s & Hs & Hslot).
  destruct (psc_enabled s) eqn:He; [|by apply elem_of_nil in Hs].
  apply list_elem_of_fmap in Hs as (b & [= -> ->] & Hbin). exists s, b. done.
Qed.

Lemma publication_configured e target :
  resolveSmartParkingPublication (bc_camera_id cfg) e slots (bc_iva_areas cfg) = Ok target ->
  configured_target target.
Proof.
  unfold resolveSmartParkingPublication. case_match; [done|]. case_match; [done|].
  intros (slot & Hs & Hres)%rbind_ok_inv. apply rbind_ok_inv in Hres as (binding & Hb & Hres).
  apply rbind_ok_inv in Hres as (area & _ & Hres). case_match; [done|]. injection Hres as <-.
  apply pick_one_ok, filter_one in Hs as [? ?]. apply pick_one_ok, filter_one in Hb as [? ?]. split_bool.
  exists slot, binding. done.
Qed.

(** What holds of every signal that the bridge gives to the parking service. *)
Record signal_sound (s : IvaOccupancySignal) : Prop := {
  ss_source : bc_camera_iva_event_source cfg <> "ONVIF";
  ss_camera : ios_cameraId s = bc_camera_id cfg;
  ss_configured : exists target : @IvaResolvedTarget R, configured_target target /\
    ios_slotId s = irt_slotId target /\ ios_ruleName s = irt_ruleName target /\
    ios_videoSourceToken s = irt_observationVideoSourceToken target;
  ss_authority : ios_occupancyAuthority s = wants_camera cfg;
  ss_exit : ios_action s = Exit -> wants_camera cfg = true /\ ios_authoritativeExit s = true /\
    ios_occurredAtFromSource s = true;
  ss_hall : wants_camera cfg = false -> ios_action s = Intrusion /\ ios_occurredAtFromSource s = true /\
    ios_objectId s <> ""
}.

(** A guard of the code: behind it nothing is called. *)
Ltac next_guard :=
  match goal with |- _ ∈ (if ?b then [] else _) -> _ =>
    let G := fresh "G" in destruct b eqn:G; [by intros ?%elem_of_nil|] end.

Lemma event_signals received accepts e s :
  CallIva s ∈ processCameraEvent cfg slots handlers received accepts e -> signal_sound s.
Proof.
  unfold processCameraEvent. next_guard.
  case_bool_decide as Honvif; [by intros ?%elem_of_nil|]. next_guard.
  destruct (if cm_is_smart_parking_iva e then _ else _) as [target|] eqn:Ht; [|by intros ?%elem_of_nil].
  assert (Hconf : configured_target target).
  { destruct (cm_is_smart_parking_iva e); [by eapply publication_configured|by eapply resolve_configured]. }
  assert (Hsig : forall object action authoritative from identity occurred,
            (action = Exit -> wants_camera cfg = true /\ authoritative = true /\ from = true) ->
            (wants_camera cfg = false -> action = Intrusion /\ from = true /\ object <> "") ->
            signal_sound (bridge_signal cfg target object action authoritative (wants_camera cfg) from identity occurred)).
  { intros. split; try done. exists target. done. }
  destruct (cm_is_smart_parking_iva e).
  - do 2 next_guard. destruct (wants_camera cfg) eqn:Hw; [|by intros ?%elem_of_nil]. simpl. next_guard.
    intros [= ->]%list_elem_of_singleton. rewrite ?Hw in Hsig. by apply Hsig.
  - destruct (wants_camera cfg) eqn:Hw; rewrite ?Hw in Hsig.
    + do 2 next_guard. case_match; [|by intros ?%elem_of_nil].
      intros [= ->]%list_elem_of_singleton. by apply Hsig.
    + do 2 next_guard. split_bool. case_match; [|by intros ?%elem_of_nil].
      assert (cm_object_id e <> "") by (by destruct (cm_object_id e)).
      match goal with H : toOccupancyAction _ = Intrusion |- _ => rewrite H end.
      rewrite elem_of_cons. intros [[= ->]|Hin]; [by apply Hsig|].
      case_match; [|by apply elem_of_nil in Hin]. by apply list_elem_of_singleton in Hin.
Qed.

Lemma fire_calls channel payload s : CallIva s ∉ fire_command (R := R) handlers channel payload.
Proof.
  unfold fire_command. repeat case_match; intros Hin;
    repeat first [by apply elem_of_nil in Hin | apply elem_of_cons in Hin as [Hin|Hin]]; done.
Qed.

(** C16 [safety] A camera message on MQTT can move a slot only as configured. Whatever the topic and payload, a
    signal that reaches the parking service names an enabled slot and an enabled binding of this camera; it has
    authority over the occupancy exactly when the cameras are an occupancy source; an exit needs
    that authority and the camera's own time; when the hall sensors alone decide, only an intrusion with its object and time gets
    through, without authority; and nothing gets through while ONVIF is the event source. *)
Theorem camera_signal_sound now_text received accepts topic payload calls s :
  onMessage cfg slots handlers now_text received accepts topic payload = Ok calls ->
  CallIva s ∈ calls -> signal_sound s.
Proof.
  unfold onMessage. case_match.
  { intros [= <-]. case_match; rewrite ?elem_of_cons, ?elem_of_nil; by intros ?; destruct_or?. }
  case_match; [intros [= <-] Hin; by apply fire_calls in Hin|].
  intros (events & _ & [= <-])%rbind_ok_inv Hin. apply list_elem_of_join in Hin as (l & Hs & Hl).
  apply elem_of_lookup_imap in Hl as (i & e & -> & _). by eapply event_signals.
Qed.

(** * Exceptions *)

(** A text that makes the parser throw: a JSON object whose schema is no text. *)
Definition throws_on (payload : string) : Prop :=
  exists body v, json_parse payload = Ok body /\ json_find body "schema" = Some v /\
    forall s, v <> JString s.

Lemma camera_parse_throws now_text topic payload default_channel :
  (exists what, camera_parse now_text topic payload default_channel = Err what) <-> throws_on payload.
Proof.
  unfold camera_parse, throws_on. split.
  - intros [what Hp]. destruct (parseSmartParkingIva payload _) as [e|x] eqn:E; [done|]. clear Hp.
    unfold parseSmartParkingIva in E. destruct (json_parse payload) as [body|]; [|done].
    destruct (is_object body) eqn:Ho; [|done]. simpl in E. unfold value_string in E. rewrite Ho in E. simpl in E.
    destruct (json_find body "schema") as [v|] eqn:Hv; [|done]. exists body, v. split_and!; [done|done|].
    intros s ->. simpl in E. repeat case_match; done.
  - intros (body & v & Hp & Hv & Hno). assert (Ho : is_object body = true) by (by destruct body).
    unfold parseSmartParkingIva. rewrite Hp, Ho. simpl. unfold value_string. rewrite Ho, Hv. simpl.
    destruct v; try (by eexists). by destruct (Hno s).
Qed.

Lemma parse_each_throws now_text topic default_channel i payloads :
  (exists what, parse_each now_text topic default_channel i payloads = Err what) <-> Exists throws_on payloads.
Proof.
  revert i. induction payloads as [|p ps IH]; intros i.
  - split; [by intros []|by intros ?%Exists_nil].
  - rewrite Exists_cons, <- (IH (S i)), <- (camera_parse_throws (now_text i) topic p default_channel).
    cbn [parse_each]. destruct (camera_parse _ _ _ _) as [e|x]; simpl.
    + destruct (parse_each _ _ _ _ ps) as [es|y]; simpl; naive_solver.
    + split; [intros _; left; by eexists|intros _; by eexists].
Qed.

(** The messages of a payload. *)
Definition notifications (payload : string) : list string :=
  match splitNotificationMessages payload with [] => [payload] | ms => ms end.

(** A message for the cameras: not the hall's topic and no fire command. *)
Definition camera_topic (topic : string) : Prop :=
  bc_hall_mqtt_input_enabled cfg && bool_decide (topic = bc_hall_mqtt_topic cfg) = false /\
  bc_fire_alarm_enabled cfg && bh_fire_ack handlers &&
    String.prefix (bc_fire_command_topic_prefix cfg +:+ "/") topic = false.

Lemma on_message_throws now_text received accepts topic payload :
  camera_topic topic ->
  (exists what, onMessage cfg slots handlers now_text received accepts topic payload = Err what) <->
  Exists throws_on (notifications payload).
Proof.
  intros [Hh Hf]. unfold onMessage. rewrite Hh, Hf. unfold parseMany, notifications.
  rewrite <- (parse_each_throws now_text topic (bc_default_channel_id cfg) 0).
  destruct (splitNotificationMessages payload);
    destruct (parse_each _ _ _ _ _); simpl; split; intros [? ?]; try done; by eexists.
Qed.

(** Whether the application throws on a message. *)
Definition application_throws now_text received accepts (topic payload : string) : bool :=
  match onMessage cfg slots handlers now_text received accepts topic payload with Err _ => true | Ok _ => false end.

(** One camera message can cost the connection. A message that comes in on a standing connection is handed over; the
    connection is given up after it exactly when one of its parts is a JSON object whose schema
    is no text: the parser throws, nothing on the way catches it but the
    transport, which retires the epoch. No other message does this. *)
Theorem bad_schema_retires_connection now_text received accepts topic payload t e :
  camera_topic topic ->
  mt_at t = SupNetwork e -> mt_todo t = [] -> ep_mosq (mt_ep t) = Some e -> ep_context (mt_ep t) = Some e ->
  ep_active (mt_ep t) = e -> e <> 0%N -> ep_connected (mt_ep t) = true -> ep_ready (mt_ep t) = true ->
  mt_stopping t = false -> (message_size (mkBufferedMessage topic payload) <= kPreReadyByteCapacity)%N ->
  let t' := transport_run t
    [TSupervisor (Calls (OnMessage topic payload));
     TSupervisor (Threw (application_throws now_text received accepts topic payload))] in
  mt_log t' = mt_log t ++ [EvArrived e (mkBufferedMessage topic payload); EvHanded e (mkBufferedMessage topic payload)] /\
  (ep_connected (mt_ep t') = false <-> Exists throws_on (notifications payload)) /\
  (ep_connected (mt_ep t') = false -> ep_abort (mt_ep t') = true /\
     mt_todo t' = [Emit (plain_fact EpochFaulted e (-1) MOSQ_ERR_NOMEM)]).
Proof.
  intros Htopic Hat Htodo Hm Hc Ha He Hcon Hready Hstop Hsize.
  assert (Hstep : transport_step t (TSupervisor (Calls (OnMessage topic payload))) =
            go (say t [EvArrived e (mkBufferedMessage topic payload)]) (mt_at t)
              [Hand e (mkBufferedMessage topic payload) false]).
  { simpl. unfold supervisor_step. rewrite Htodo, Hat. simpl. unfold handleMessage, isActiveEpochUnlocked.
    rewrite (proj2 (N.ltb_ge _ _) Hsize), Hm, Hc, Ha, Hcon, Hready, Hstop, N.eqb_refl.
    rewrite bool_decide_eq_true_2, Hat by done. reflexivity. }
  unfold transport_run. cbn [foldl]. rewrite Hstep. rewrite Hat. simpl. unfold run_action.
  rewrite <- (on_message_throws now_text received accepts topic payload Htopic). unfold application_throws.
  destruct (onMessage _ _ _ _ _ _ _ _) as [calls|what]; simpl.
  - rewrite <- app_assoc. split; [done|]. rewrite Hcon. split; [|done]. split; [done|by intros []].
  - unfold abort_if_active, isActiveEpochUnlocked, abortEpochUnlocked. simpl. rewrite Hm, Hc, Ha, N.eqb_refl.
    rewrite bool_decide_eq_true_2, (proj2 (N.eqb_neq _ _) He) by done. simpl. rewrite <- app_assoc.
    split; [done|]. split; [|done]. split; [by eexists|done].
Qed.
End Bridge.

(** * Examples and witnesses *)

(** Concrete camera messages: an exit on a bound area, and a message that costs the connection. *)
(** A library that knows three texts. *)
Notation demo_exit := (JObject [("Source", JObject [("RuleName", JString "A1"); ("VideoSourceToken", JString "VideoSourceToken-0")]);
  ("Data", JObject [("Action", JString "Exit"); ("ObjectId", JInteger 7); ("State", JBool true)]);
  ("UtcTime", JString "2024-02-29T23:59:59.5Z")]).
#[local] Instance bridge_json : JsonLibrary := {|
  json_parse := fun text =>
    if bool_decide (text = "EXIT A1") then Ok demo_exit else
    if bool_decide (text = "NUMBER") then Ok (JObject [("schema", JInteger 5)]) else
    Err "parse error";
  json_dump := fun j => match j with JInteger n => pretty n | _ => "" end;
  json_eqb := fun _ _ => false;
  json_float_to_int := fun _ => 0
|}.

Notation demo_area := (mkIvaAreaConfig "S1" "area1" "ch01" (tt, tt, tt, tt)).
Notation demo_slot := (mkParkingSlotConfig "S1" true "EV" "s1" [mkSlotObservationBinding "cam" "vs-0" "a1" true 0]).
Notation demo_bridge source := (mkBridgeConfig false "fire/cmd" false "hall" "cam/#" source "MQTT" "cam" "ch01" "h" 1883 [demo_area]).
Notation all_bound := (mkBridgeHandlers true true true true true true).
Notation demo_now := (fun _ : nat => "2024-03-01T00:00:00.000Z").
Notation demo_received := (fun _ : nat => 0).
Notation accepts_all := (fun _ : IvaOccupancySignal => true).
Notation demo_topic_1 := "cam/onvif-ej/VideoSource/VideoSourceToken-0/IvaArea".

(** The exit of the area of slot S1, with the camera's time and the authority of the cameras. The identity is computed. *)
Notation demo_exit_signal := (mkIvaOccupancySignal "S1" "cam" "vs-0" "a1" "7" Exit true
  (stableEventIdentity demo_topic_1 "" "S1|vs-0|a1|EXIT|2024-02-29T23:59:59.5Z") true 1709251199500000000 "ch01" true
  "camera-mqtt").

Lemma camera_signal_sound_witness :
  onMessage (demo_bridge "HYBRID_OR") [demo_slot] all_bound demo_now demo_received accepts_all demo_topic_1 "EXIT A1" =
    Ok [CallIva demo_exit_signal] /\
  onMessage (demo_bridge "HALL") [demo_slot] all_bound demo_now demo_received accepts_all demo_topic_1 "EXIT A1" = Ok [] /\
  signal_sound (demo_bridge "HYBRID_OR") [demo_slot] demo_exit_signal.
Proof.
  assert (H : onMessage (demo_bridge "HYBRID_OR") [demo_slot] all_bound demo_now demo_received accepts_all demo_topic_1
    "EXIT A1" = Ok [CallIva demo_exit_signal]) by (vm_compute; reflexivity).
  split; [exact H|]. split; [vm_compute; reflexivity|].
  exact (camera_signal_sound _ _ _ _ _ _ _ _ _ _ H (list_elem_of_here _ _)).
Defined.

(** The transport in its network loop, ready. *)
Notation ready_ops := ([TStart no_options [demo_topic] true true] ++ to_network ++ connect_and_subscribe 7 ++
  [TSupervisor (Calls (OnSubscribe 7 [0])); TSupervisor (Threw false); TSupervisor (Threw false);
   TSupervisor (Threw false); TSupervisor (Threw false); TSupervisor (Threw false)]).
Notation ready_transport := (transport_run new_transport ready_ops).

Lemma bad_schema_retires_connection_witness :
  ep_connected (mt_ep ready_transport) = true /\
  ep_connected (mt_ep (transport_run ready_transport
    [TSupervisor (Calls (OnMessage demo_topic_1 "NUMBER"));
     TSupervisor (Threw (application_throws (demo_bridge "HALL") [demo_slot] all_bound demo_now demo_received accepts_all
       demo_topic_1 "NUMBER"))])) = false /\
  ep_connected (mt_ep (transport_run ready_transport
    [TSupervisor (Calls (OnMessage demo_topic_1 "no JSON"));
     TSupervisor (Threw (application_throws (demo_bridge "HALL") [demo_slot] all_bound demo_now demo_received accepts_all
       demo_topic_1 "no JSON"))])) = true.
Proof.
  assert (Hready : mt_at ready_transport = SupNetwork 1 /\ mt_todo ready_transport = [] /\
    ep_mosq (mt_ep ready_transport) = Some 1%N /\ ep_context (mt_ep ready_transport) = Some 1%N /\
    ep_active (mt_ep ready_transport) = 1%N /\ ep_connected (mt_ep ready_transport) = true /\
    ep_ready (mt_ep ready_transport) = true /\ mt_stopping ready_transport = false)
    by (vm_compute; split_and!; reflexivity).
  destruct Hready as (H1 & H2 & H3 & H4 & H5 & H6 & H7 & H8). split; [exact H6|].
  assert (Htopic : camera_topic (demo_bridge "HALL") all_bound demo_topic_1) by (split; reflexivity).
  split.
  - assert (Hsize : (message_size (mkBufferedMessage demo_topic_1 "NUMBER") <= kPreReadyByteCapacity)%N)
      by (vm_compute; discriminate).
    pose proof (bad_schema_retires_connection (demo_bridge "HALL") [demo_slot] all_bound demo_now demo_received
      accepts_all demo_topic_1 "NUMBER" ready_transport 1 Htopic H1 H2 H3 H4 H5 (N.neq_succ_0 0) H6 H7 H8 Hsize) as Hbad.
    cbv zeta in Hbad. destruct Hbad as (_ & Hiff & _). refine (proj2 Hiff _).
    change (Exists throws_on ["NUMBER"]). constructor. exists (JObject [("schema", JInteger 5)]), (JInteger 5).
    split; [reflexivity|]. split; [reflexivity|]. intros s. discriminate.
  - vm_compute. reflexivity.
Defined.
