(* ===== verification/Telegram.v ===== *)
(** The alerts on Telegram ([src/notification/]): which published messages are alerts and how they read, the suppression of
    repeated alerts, the bounded queue, and the thread that sends with retries. The answers of curl, and whether a text can
    be printed into a JSON body ([dumps]), are arguments.

    Shown: the notifier is a run of a machine that decides which alerts are taken on, refused as repetitions, put out of a
    full queue, taken by the thread and tried ([alerts_accounted]); the thread ends after a stop, with an empty queue
    ([sender_ends]); a message has a text exactly if it is an alert, and the text fits ([text_of_alert]). *)
From S2P Require Import Prelude SensorProtocol SequencePolicy SlotConfig OccupancyDb CameraEvents Plate Digest.

#[local] Open Scope Z_scope.

(** * Messages *)

(** [include/notification/TelegramMessage.hpp:8-13 TelegramMessage] *)
Record TelegramMessage := mkTelegramMessage { tm_topic : string; tm_payload : string; tm_qos : Z; tm_retain : bool }.

#[global] Instance TelegramMessage_eq_dec : EqDecision TelegramMessage.
Proof. solve_decision. Defined.

(** [include/notification/TelegramMessage.hpp:15-15 kTelegramMaxTextLength] *)
Definition kTelegramMaxTextLength : nat := 4096.

Section Format.
Context {JL : JsonLibrary}.

(** [src/notification/TelegramMessageFormatter.cpp:21-26 stringField] *)
Definition stringField (document : json) (key : string) : string :=
  match json_find document key with Some (JString s) => s | _ => "" end.

(** The character with a number, replaced by a blank if it is [T]. *)
Fixpoint blank_at (i : nat) (s : string) : string :=
  match s, i with
  | String c s, O => if bool_decide (c = "T"%char) then String " " s else String c s
  | String c s, S i => String c (blank_at i s)
  | EmptyString, _ => EmptyString
  end.

(** [src/notification/TelegramMessageFormatter.cpp:28-33 displayTimestamp] *)
Definition displayTimestamp (document : json) : string :=
  let timestamp := stringField document "timestamp" in
  let timestamp := if is_empty timestamp then stringField document "occurred_at" else timestamp in
  blank_at 10 timestamp.

Definition line_feed : string := String "010"%char "".

(** [src/notification/TelegramMessageFormatter.cpp:35-39 appendField] *)
Definition appendField (output label value : string) : string :=
  if is_empty value then output else output +:+ line_feed +:+ label +:+ ": " +:+ value.

(** [src/notification/TelegramMessageFormatter.cpp:41-44 importantSensorError] *)
Definition importantSensorError (document : json) : bool :=
  let severity := upperCopy (stringField document "severity") in
  bool_decide (severity = "ERROR") || bool_decide (severity = "CRITICAL").

(** [src/notification/TelegramMessageFormatter.cpp:46-56 parsePayload] *)
Definition parsePayload (message : TelegramMessage) : option json :=
  if tm_retain message then None else
  match json_parse (tm_payload message) with
  | Ok document => if is_object document then Some document else None
  | Err _ => None
  end.

(** [src/notification/TelegramMessageFormatter.cpp:62-75 TelegramMessageFormatter::shouldNotify] *)
Definition shouldNotify (message : TelegramMessage) : bool :=
  match parsePayload message with
  | None => false
  | Some document =>
      let event_type := upperCopy (stringField document "event_type") in
      bool_decide (event_type = "FIRE_SUSPECTED") || (bool_decide (event_type = "FIRE_CLEARED") ||
      (bool_decide (event_type = "NON_EV_ALERT") || ((bool_decide (event_type = "OVERTIME_VIOLATION") ||
       bool_decide (event_type = "VIOLATION_TRIGGERED")) ||
       bool_decide (event_type = "SENSOR_ERROR") && importantSensorError document)))
  end.

(** [src/notification/TelegramMessageFormatter.cpp:77-81 TelegramMessageFormatter::eventId] *)
Definition alert_eventId (message : TelegramMessage) : string :=
  match parsePayload message with Some document => stringField document "event_id" | None => "" end.

(** [src/notification/TelegramMessageFormatter.cpp:132-145 TelegramMessageFormatter::truncate] *)
Definition truncate (text : string) : string :=
  if (String.length text <=? kTelegramMaxTextLength)%nat then text else
  let suffix := line_feed +:+ "[truncated]" in
  substring 0 (kTelegramMaxTextLength - String.length suffix) text +:+ suffix.

(** The value of a 32-bit int, [value("occupied_seconds", 0)]; unlike the 64-bit types it also takes a boolean. *)
Definition value_int (object : json) (key : string) (fallback : Z) : result store_error Z :=
  let? z := match object, json_find object key with
            | JObject _, Some (JBool b) => Ok (if b then 1 else 0)
            | _, _ => value_number object key fallback
            end in
  Ok ((z + 2 ^ 31) mod 2 ^ 32 - 2 ^ 31).

(** [std::to_string] of a positive number. *)
Definition minutes_text (seconds : Z) : string := pretty (Z.to_N (seconds / 60)) +:+ "분".

(** [src/notification/TelegramMessageFormatter.cpp:83-130 TelegramMessageFormatter::format] [Err]: an exception. *)
Definition format (message : TelegramMessage) : result store_error string :=
  match parsePayload message with
  | None => Ok ""
  | Some document =>
      let event_type := upperCopy (stringField document "event_type") in
      let slot_id := stringField document "slot_id" in
      let channel_id := stringField document "channel_id" in
      let plate := stringField document "plate_number" in
      let known_plate := if is_empty plate then "미확인" else plate in
      let finish output := Ok (truncate (appendField output "발생 시각" (displayTimestamp document))) in
      if bool_decide (event_type = "FIRE_SUSPECTED") then
        finish (appendField (appendField "🚨 화재 의심 감지" "감지 채널" channel_id) "센서" (stringField document "source_id"))
      else if bool_decide (event_type = "FIRE_CLEARED") then
        finish (appendField "✅ 화재 경보 해제" "감지 채널" channel_id)
      else if bool_decide (event_type = "NON_EV_ALERT") then
        finish (appendField (appendField "⚠️ 비전기차 주차 감지" "주차면" slot_id) "차량번호" known_plate)
      else if bool_decide (event_type = "OVERTIME_VIOLATION") || bool_decide (event_type = "VIOLATION_TRIGGERED") then
        let output := appendField (appendField "⏱ 장기 점유 경고" "주차면" slot_id) "차량번호" known_plate in
        let? seconds := value_int document "occupied_seconds" 0 in
        finish (if 0 <? seconds then appendField output "기준 시간" (minutes_text seconds) else output)
      else if bool_decide (event_type = "SENSOR_ERROR") && importantSensorError document then
        let output := appendField "⚠️ 센서 오류" "위치" (if is_empty slot_id then "시스템" else slot_id) in
        finish (appendField (appendField output "오류 코드" (stringField document "error_code")) "장치"
                  (stringField document "device"))
      else Ok ""
  end.

(** * Sending one text *)

(** [include/notification/TelegramApiClient.hpp:11-17 Config] The times are curl's. *)
Record TelegramApiConfig := mkTelegramApiConfig { ac_enabled : bool; ac_bot_token : string; ac_channel : string }.

(** What curl answers: no handle or no transfer, or the code and the text of the answer. *)
Inductive CurlAnswer := CurlFailed | CurlDone (http_code : Z) (response : string).

(** [src/notification/TelegramApiClient.cpp:32-98 TelegramApiClient::sendMessage] [dumps]: the body can be printed, which it
    cannot if the text is not UTF-8; then the library throws. *)
Definition sendMessage (config : TelegramApiConfig) (dumps : bool) (answer : CurlAnswer) : result unit bool :=
  if negb (ac_enabled config) || is_empty (ac_bot_token config) || is_empty (ac_channel config) then Ok false else
  if negb dumps then Err tt else
  match answer with
  | CurlFailed => Ok false
  | CurlDone http_code response =>
      if (http_code <? 200) || (300 <=? http_code) then Ok false else
      match json_parse response with
      | Err _ => Ok false
      | Ok document => match value_bool document "ok" false with Ok b => Ok b | Err _ => Ok false end
      end
  end.
End Format.

(** * The notifier *)

(** [include/notification/TelegramChannelNotifier.hpp:19-24 Config] *)
Record NotifierConfig := mkNotifierConfig { nc_enabled : bool; nc_queue_capacity : nat; nc_retry_count : nat }.

(** Where the thread is: it does not exist, it waits, it has an alert to format, or it sends a text for the n-th time.
    [NtDead]: an exception has left the thread, which ends the program. *)
Inductive NotifierPhase :=
| NtNone
| NtWait
| NtFormat (m : TelegramMessage)
| NtSend (m : TelegramMessage) (text : string) (attempt : nat)
| NtEnded
| NtDead.

(** [include/notification/TelegramChannelNotifier.hpp:43-53 TelegramChannelNotifier] *)
Record Notifier := mkNotifier {
  nt_queue : list TelegramMessage;
  nt_recent : list string;
  nt_recent_set : gset string;
  nt_stopped : bool;
  nt_stop_requested : bool;
  nt_phase : NotifierPhase
}.
Definition new_notifier : Notifier := mkNotifier [] [] ∅ true false NtNone.
Definition nt_go (ph : NotifierPhase) (n : Notifier) : Notifier :=
  mkNotifier (nt_queue n) (nt_recent n) (nt_recent_set n) (nt_stopped n) (nt_stop_requested n) ph.

(** What is observed: a message that is no alert, a repeated alert, one that is taken on, one that leaves the queue unsent,
    one that the thread takes, and an attempt to send it. *)
Inductive NotifierEvent :=
| NeIgnored (m : TelegramMessage)
| NeRepeated (m : TelegramMessage)
| NeAccepted (m : TelegramMessage)
| NeDropped (m : TelegramMessage)
| NeTaken (m : TelegramMessage)
| NeTried (m : TelegramMessage) (attempt : nat) (sent : bool).

Section Notifier.
Context {JL : JsonLibrary} (api : TelegramApiConfig) (dumps : string -> bool) (cfg : NotifierConfig).

(** [src/notification/TelegramChannelNotifier.cpp:20-32 TelegramChannelNotifier::start] *)
Definition notifier_start (n : Notifier) : bool * Notifier :=
  if negb (nc_enabled cfg) then (false, n) else
  if negb (nt_stopped n) then (true, n) else
  (true, mkNotifier (nt_queue n) (nt_recent n) (nt_recent_set n) false false NtWait).

(** [src/notification/TelegramChannelNotifier.cpp:34-43 TelegramChannelNotifier::stop] The request, and the join. *)
Definition notifier_stop_request (n : Notifier) : Notifier :=
  if nt_stopped n then n else mkNotifier (nt_queue n) (nt_recent n) (nt_recent_set n) false true (nt_phase n).
Definition notifier_stop_join (n : Notifier) : option Notifier :=
  match nt_phase n with
  | NtEnded =>
      if nt_stop_requested n then Some (mkNotifier (nt_queue n) (nt_recent n) (nt_recent_set n) true true NtNone) else None
  | _ => None
  end.

(** The loop that keeps the bound of the recent identifiers. *)
Fixpoint trim_recent (capacity : nat) (recent : list string) (set : gset string) : list string * gset string :=
  match recent with
  | id :: rest => if (capacity <? length recent)%nat then trim_recent capacity rest (set ∖ {[id]}) else (recent, set)
  | [] => ([], set)
  end.

(** [src/notification/TelegramChannelNotifier.cpp:57-65 TelegramChannelNotifier::enqueue] An event that is taken on is
    remembered; one without an identifier is not. *)
Definition notifier_remember (event_id : string) (n : Notifier) : list string * gset string :=
  if is_empty event_id then (nt_recent n, nt_recent_set n)
  else trim_recent (nc_queue_capacity cfg * 4) (nt_recent n ++ [event_id]) ({[event_id]} ∪ nt_recent_set n).

(** [src/notification/TelegramChannelNotifier.cpp:67-70 TelegramChannelNotifier::enqueue] The oldest alert
    leaves a full queue. *)
Definition make_room (queue : list TelegramMessage) : list NotifierEvent * list TelegramMessage :=
  match queue with
  | oldest :: rest => if (nc_queue_capacity cfg <=? length queue)%nat then ([NeDropped oldest], rest) else ([], queue)
  | [] => ([], [])
  end.

(** [src/notification/TelegramChannelNotifier.cpp:49-74 TelegramChannelNotifier::enqueue] *)
Definition notifier_enqueue (m : TelegramMessage) (n : Notifier) : list NotifierEvent * bool * Notifier :=
  if negb (nc_enabled cfg) then ([NeIgnored m], false, n) else
  if negb (shouldNotify m) then ([NeIgnored m], true, n) else
  let event_id := alert_eventId m in
  if negb (is_empty event_id) && bool_decide (event_id ∈ nt_recent_set n) then ([NeRepeated m], true, n) else
  let '(recent, set) := notifier_remember event_id n in
  let '(dropped, queue) := make_room (nt_queue n) in
  (dropped ++ [NeAccepted m], true,
   mkNotifier (queue ++ [m]) recent set (nt_stopped n) (nt_stop_requested n) (nt_phase n)).

(** [src/notification/TelegramChannelNotifier.cpp:76-107 TelegramChannelNotifier::run] One step of the thread, with
    [sendWithRetry]; [answer] is what curl says where a text is sent, [dumps] whether a text can be in a JSON body. *)
Definition notifier_step (answer : CurlAnswer) (n : Notifier) : list NotifierEvent * Notifier :=
  match nt_phase n with
  | NtWait =>
      match nt_queue n with
      | [] => ([], if nt_stop_requested n then nt_go NtEnded n else n)
      | m :: queue =>
          ([NeTaken m], mkNotifier queue (nt_recent n) (nt_recent_set n) (nt_stopped n) (nt_stop_requested n) (NtFormat m))
      end
  | NtFormat m =>
      match format m with
      | Err _ => ([], nt_go NtDead n)
      | Ok text => ([], if is_empty text then nt_go NtWait n else nt_go (NtSend m text 0) n)
      end
  | NtSend m text attempt =>
      match sendMessage api (dumps text) answer with
      | Err _ => ([], nt_go NtDead n)
      | Ok true => ([NeTried m attempt true], nt_go NtWait n)
      | Ok false =>
          ([NeTried m attempt false],
           if (nc_retry_count cfg <=? attempt)%nat then nt_go NtWait n else nt_go (NtSend m text (S attempt)) n)
      end
  | NtNone | NtEnded | NtDead => ([], n)
  end.

Inductive NotifierOp :=
| NoStart
| NoStop
| NoJoin
| NoEnqueue (m : TelegramMessage)
| NoStep (answer : CurlAnswer).

Definition notifier_dead (n : Notifier) : bool := match nt_phase n with NtDead => true | _ => false end.
Definition notifier_op (op : NotifierOp) (n : Notifier) : list NotifierEvent * Notifier :=
  if notifier_dead n then ([], n) else
  match op with
  | NoStart => ([], (notifier_start n).2)
  | NoStop => ([], notifier_stop_request n)
  | NoJoin => ([], default n (notifier_stop_join n))
  | NoEnqueue m => let '(e, _, n') := notifier_enqueue m n in (e, n')
  | NoStep answer => notifier_step answer n
  end.

Fixpoint notifier_run (ops : list NotifierOp) (n : Notifier) : list NotifierEvent * Notifier :=
  match ops with
  | [] => ([], n)
  | op :: ops =>
      let '(e, n1) := notifier_op op n in
      let '(es, n2) := notifier_run ops n1 in (e ++ es, n2)
  end.
End Notifier.

(** * The publications it listens to *)

Section Publications.
Context {JL : JsonLibrary} (cfg : NotifierConfig).

(** A server without a notifier has no alert. *)
Definition offer_alert (m : TelegramMessage) (tn : option Notifier) : list NotifierEvent * option Notifier :=
  match tn with Some n => let '(e, _, n') := notifier_enqueue cfg m n in (e, Some n') | None => ([], None) end.

(** [src/mqtt/MqttEventBridge.cpp:736-758 MqttEventBridge::publishQtEvent] [published]: the answer of [publish]. *)
Definition publishQtEvent (published : bool) (m : TelegramMessage) (tn : option Notifier)
    : bool * list NotifierEvent * option Notifier :=
  if negb published then (false, [], tn) else let '(e, tn') := offer_alert m tn in (true, e, tn').

(** [src/mqtt/MqttEventBridge.cpp:767-790 MqttEventBridge::publishTrackedFire] [accepted]: the endpoint's answer. *)
Definition publishTrackedFire_alert (accepted : bool) (topic payload : string) (retain : bool) (tn : option Notifier)
    : list NotifierEvent * option Notifier :=
  if accepted then offer_alert (mkTelegramMessage topic payload 1 retain) tn else ([], tn).

(** A publication answers what the broker's side answers, whatever the notifier does, and a retained one is no alert. *)
Lemma publication_independent published m tn : (publishQtEvent published m tn).1.1 = published.
Proof. destruct published; [|done]. unfold publishQtEvent. simpl. by destruct (offer_alert m tn). Qed.
Lemma retained_no_alert m : tm_retain m = true -> shouldNotify m = false.
Proof. intros H. unfold shouldNotify, parsePayload. by rewrite H. Qed.
End Publications.

(** * The text of an alert *)

Section Text.
Context {JL : JsonLibrary}.

Lemma length_substring_0 k s : (k <= String.length s)%nat -> String.length (substring 0 k s) = k.
Proof.
  revert s. induction k as [|k IH]; intros [|c s] H; simpl in *; try done; try lia. rewrite IH by lia. done.
Qed.

Lemma truncate_bound text : (String.length (truncate text) <= kTelegramMaxTextLength)%nat.
Proof.
  unfold truncate. destruct (String.length text <=? kTelegramMaxTextLength)%nat eqn:E; [by apply Nat.leb_le|].
  apply Nat.leb_gt in E. rewrite length_append, length_substring_0; unfold kTelegramMaxTextLength in *; simpl; lia.
Qed.
Lemma truncate_nonempty text : text <> "" -> truncate text <> "".
Proof.
  intros H. unfold truncate. destruct (_ <=? _)%nat; [done|]. intros E%(f_equal String.length).
  rewrite length_append in E. simpl in E. lia.
Qed.

Lemma appendField_nonempty output label value : output <> "" -> appendField output label value <> "".
Proof. intros H. unfold appendField. destruct (is_empty value); [done|]. by destruct output. Qed.

(** What is finished is a text and fits. *)
Lemma finished_text output value : output <> "" ->
  let text := truncate (appendField output "발생 시각" value) in
  text <> "" /\ (String.length text <= kTelegramMaxTextLength)%nat.
Proof. intros H. split; [by apply truncate_nonempty, appendField_nonempty|apply truncate_bound]. Qed.

(** A message has a text exactly if it is an alert, and a text fits into a message of Telegram. *)
Theorem text_of_alert m text : format m = Ok text ->
  (text <> "" <-> shouldNotify m = true) /\ (String.length text <= kTelegramMaxTextLength)%nat.
Proof.
  unfold format, shouldNotify.
  assert (Hno : ("" <> "" <-> false = true) /\ (String.length "" <= kTelegramMaxTextLength)%nat).
  { split; [split; [by intros []|done]|unfold kTelegramMaxTextLength; simpl; lia]. }
  destruct (parsePayload m) as [document|]; [|by intros [= <-]]. cbv zeta.
  set (ty := upperCopy (stringField document "event_type")).
  assert (Hfin : forall output value t, output <> "" ->
    Ok (E := store_error) (truncate (appendField output "발생 시각" value)) = Ok t ->
    (t <> "" <-> true = true) /\ (String.length t <= kTelegramMaxTextLength)%nat).
  { intros output value t Ho H. injection H as <-. destruct (finished_text output value Ho) as [H1 H2]. by split. }
  assert (Hf : forall output label value, output <> "" -> appendField output label value <> "") by apply appendField_nonempty.
  destruct (bool_decide (ty = "FIRE_SUSPECTED")); cbn [orb]; [apply Hfin; by do 2 apply Hf|].
  destruct (bool_decide (ty = "FIRE_CLEARED")); cbn [orb]; [apply Hfin; by apply Hf|].
  destruct (bool_decide (ty = "NON_EV_ALERT")); cbn [orb]; [apply Hfin; by do 2 apply Hf|].
  destruct (bool_decide (ty = "OVERTIME_VIOLATION") || bool_decide (ty = "VIOLATION_TRIGGERED")); cbn [orb].
  - destruct (value_int document "occupied_seconds" 0) as [seconds|]; simpl; [|done].
    apply Hfin. destruct (0 <? seconds); by repeat apply Hf.
  - destruct (bool_decide (ty = "SENSOR_ERROR") && importantSensorError document).
    + apply Hfin. by repeat apply Hf.
    + by intros [= <-].
Qed.
End Text.

(** * What becomes of an alert *)

(** What the notifier promises, as a machine over the observed events: the alerts in the queue, whether the oldest was just
    put out for a new one, the identifiers that were taken on, and the alert in the thread's hand with the number of its
    attempts. It knows neither the set of the recent identifiers nor the steps of the thread. *)
Record NotifierSpec := mkNotifierSpec {
  sp_queue : list TelegramMessage;
  sp_room : bool;
  sp_ids : list string;
  sp_hand : option (TelegramMessage * nat)
}.
Definition new_spec : NotifierSpec := mkNotifierSpec [] false [] None.

Section Spec.
Context {JL : JsonLibrary} (cfg : NotifierConfig).

(** The last four times the capacity of the identifiers. *)
Definition recent_of (ids : list string) : list string := drop (length ids - nc_queue_capacity cfg * 4) ids.
Definition is_alert (m : TelegramMessage) : bool := nc_enabled cfg && shouldNotify m.
Definition is_repeated (m : TelegramMessage) (ids : list string) : bool :=
  negb (is_empty (alert_eventId m)) && bool_decide (alert_eventId m ∈ recent_of ids).
Definition ids_with (m : TelegramMessage) (ids : list string) : list string :=
  if is_empty (alert_eventId m) then ids else ids ++ [alert_eventId m].

(** [None]: the event must not come there. *)
Definition spec_event (s : NotifierSpec) (e : NotifierEvent) : option NotifierSpec :=
  let '(mkNotifierSpec queue room ids hand) := s in
  match e with
  | NeIgnored m => if negb room && negb (is_alert m) then Some s else None
  | NeRepeated m => if negb room && is_alert m && is_repeated m ids then Some s else None
  | NeDropped m =>
      match queue with
      | m' :: queue =>
          if negb room && bool_decide (m' = m) && (nc_queue_capacity cfg <=? S (length queue))%nat
          then Some (mkNotifierSpec queue true ids hand) else None
      | [] => None
      end
  | NeAccepted m =>
      if is_alert m && negb (is_repeated m ids) &&
         (room || (length queue <? Nat.max 1 (nc_queue_capacity cfg))%nat)
      then Some (mkNotifierSpec (queue ++ [m]) false (ids_with m ids) hand) else None
  | NeTaken m =>
      match queue, hand with
      | m' :: queue, None =>
          if negb room && bool_decide (m' = m) then Some (mkNotifierSpec queue false ids (Some (m, 0%nat))) else None
      | _, _ => None
      end
  | NeTried m k sent =>
      match hand with
      | Some (m', k') =>
          if negb room && bool_decide (m' = m /\ k' = k) && (k <=? nc_retry_count cfg)%nat
          then Some (mkNotifierSpec queue false ids
                       (if sent || (k =? nc_retry_count cfg)%nat then None else Some (m, S k)))
          else None
      | None => None
      end
  end.
Fixpoint spec_run (s : NotifierSpec) (es : list NotifierEvent) : option NotifierSpec :=
  match es with [] => Some s | e :: es => match spec_event s e with Some s => spec_run s es | None => None end end.

Lemma notifier_spec_run_app s es es' : spec_run s (es ++ es') = (s' ← spec_run s es; spec_run s' es').
Proof. revert s. induction es as [|e es IH]; intros s; simpl; [done|]. by destruct (spec_event s e). Qed.
End Spec.

(** The messages that were offered. *)
Definition offered (es : list NotifierEvent) : list TelegramMessage :=
  omap (fun e => match e with NeIgnored m | NeRepeated m | NeAccepted m => Some m | _ => None end) es.
Definition offers (ops : list NotifierOp) : list TelegramMessage :=
  omap (fun op => match op with NoEnqueue m => Some m | _ => None end) ops.

Section Safety.
Context {JL : JsonLibrary} (cfg : NotifierConfig).
Notation window := (nc_queue_capacity cfg * 4)%nat.
Notation spec_event := (spec_event cfg).
Notation spec_run := (spec_run cfg).

(** The alert that the thread has. *)
Definition hand_of (ph : NotifierPhase) : option (TelegramMessage * nat) :=
  match ph with NtFormat m => Some (m, 0%nat) | NtSend m _ k => Some (m, k) | _ => None end.

(** The state of the notifier and the one that the machine is in. *)
Record notifier_ok (es : list NotifierEvent) (n : Notifier) (s : NotifierSpec) : Prop := {
  no_run : spec_run new_spec es = Some s;
  no_queue : sp_queue s = nt_queue n;
  no_room : sp_room s = false;
  no_hand : nt_phase n <> NtDead -> sp_hand s = hand_of (nt_phase n);
  no_recent : nt_recent n = recent_of cfg (sp_ids s);
  no_set : nt_recent_set n = list_to_set (nt_recent n);
  no_nodup : NoDup (nt_recent n);
  no_bound : (length (nt_queue n) <= Nat.max 1 (nc_queue_capacity cfg))%nat;
  no_alerts : Forall (fun m => shouldNotify m = true) (nt_queue n);
  no_phase : match nt_phase n with
             | NtFormat m => shouldNotify m = true
             | NtSend _ _ k => (k <= nc_retry_count cfg)%nat
             | _ => True
             end;
  no_stopped : nt_stopped n = true -> nt_phase n = NtNone \/ nt_phase n = NtDead
}.

Lemma new_notifier_ok : notifier_ok [] new_notifier new_spec.
Proof. split; try done; [by apply NoDup_nil_2|simpl; lia|by left]. Qed.

Lemma trim_recent_spec capacity recent : NoDup recent ->
  trim_recent capacity recent (list_to_set recent) =
    (drop (length recent - capacity) recent, list_to_set (drop (length recent - capacity) recent)).
Proof.
  induction recent as [|id rest IH]; intros Hn; [done|]. apply NoDup_cons in Hn as [Hid Hn]. cbn [trim_recent length].
  destruct (capacity <? S (length rest))%nat eqn:E.
  - apply Nat.ltb_lt in E. replace (S (length rest) - capacity)%nat with (S (length rest - capacity)) by lia. cbn [drop].
    rewrite <- IH by done. f_equal. cbn [list_to_set]. set_solver.
  - apply Nat.ltb_ge in E. replace (S (length rest) - capacity)%nat with 0%nat by lia. done.
Qed.

Lemma drop_snoc_window (ids : list string) id w :
  drop (length (drop (length ids - w) ids ++ [id]) - w) (drop (length ids - w) ids ++ [id]) =
  drop (length (ids ++ [id]) - w) (ids ++ [id]).
Proof.
  rewrite <- (drop_app_le ids [id]) by lia. rewrite drop_drop, length_drop, length_app. f_equal. simpl. lia.
Qed.

Lemma run_ext es e s s' : spec_run new_spec es = Some s -> spec_run s e = Some s' -> spec_run new_spec (es ++ e) = Some s'.
Proof. intros H1 H2. by rewrite notifier_spec_run_app, H1. Qed.

Lemma repeated_set n m ids : nt_recent n = recent_of cfg ids -> nt_recent_set n = list_to_set (nt_recent n) ->
  negb (is_empty (alert_eventId m)) && bool_decide (alert_eventId m ∈ nt_recent_set n) = is_repeated cfg m ids.
Proof.
  intros Rc Se. unfold is_repeated. f_equal. apply bool_decide_ext. rewrite Se, Rc. apply elem_of_list_to_set.
Qed.

Lemma remember_ok m n ids : nt_recent n = recent_of cfg ids -> nt_recent_set n = list_to_set (nt_recent n) ->
  NoDup (nt_recent n) -> is_repeated cfg m ids = false ->
  exists recent, notifier_remember cfg (alert_eventId m) n = (recent, list_to_set recent) /\
    recent = recent_of cfg (ids_with m ids) /\ NoDup recent.
Proof.
  intros Rc Se Nd Edup. rewrite <- (repeated_set n m ids Rc Se) in Edup. unfold notifier_remember, ids_with.
  set (id := alert_eventId m) in *. destruct (is_empty id) eqn:Ee; cbn [negb andb] in *.
  - exists (nt_recent n). by rewrite Se.
  - apply bool_decide_eq_false_1 in Edup. rewrite Se in Edup.
    assert (Hnew : id ∉ nt_recent n) by (intros H; apply Edup; by apply elem_of_list_to_set).
    assert (Hnd : NoDup (nt_recent n ++ [id])).
    { apply NoDup_app. split; [done|]. split; [|by apply NoDup_singleton]. intros x Hx ->%list_elem_of_singleton. done. }
    rewrite Se. replace ({[id]} ∪ list_to_set (nt_recent n)) with
      (list_to_set (nt_recent n ++ [id]) : gset string) by (rewrite list_to_set_app_L; simpl; set_solver).
    rewrite trim_recent_spec by done. eexists. split; [done|]. split.
    + rewrite Rc. apply drop_snoc_window.
    + eapply sublist_NoDup; [exact Hnd|]. apply sublist_drop.
Qed.

(** Room for one more: the machine lets exactly the oldest of a full queue go. *)
Lemma make_room_ok queue ids hand : (length queue <= Nat.max 1 (nc_queue_capacity cfg))%nat ->
  exists rest room, spec_run (mkNotifierSpec queue false ids hand) (make_room cfg queue).1 =
      Some (mkNotifierSpec rest room ids hand) /\
    (make_room cfg queue).2 = rest /\ rest `suffix_of` queue /\ (length rest < Nat.max 1 (nc_queue_capacity cfg))%nat.
Proof.
  intros Hq. destruct queue as [|oldest rest]; cbn [make_room].
  - exists [], false. split_and!; [done|done|done|simpl; lia].
  - cbn [length] in *. destruct (nc_queue_capacity cfg <=? S (length rest))%nat eqn:Ec.
    + exists rest, true. split_and!; [|done|by exists [oldest]|lia]. cbn. rewrite Ec. by rewrite bool_decide_eq_true_2.
    + apply Nat.leb_gt in Ec. exists (oldest :: rest), false. split_and!; [done|done|done|simpl; lia].
Qed.

Lemma notifier_enqueue_ok es n s m : notifier_ok es n s ->
  exists s', notifier_ok (es ++ (notifier_enqueue cfg m n).1.1) (notifier_enqueue cfg m n).2 s'.
Proof.
  intros Hn. pose proof Hn as [Ru Qu Ro Ha Rc Se Nd Bd Al Ph St]. destruct s as [queue room ids hand].
  cbn [sp_queue sp_room sp_ids sp_hand] in Qu, Ro, Ha, Rc.
  subst queue room. unfold notifier_enqueue.
  assert (Hig : is_alert cfg m = false -> notifier_ok (es ++ [NeIgnored m]) n (mkNotifierSpec (nt_queue n) false ids hand)).
  { intros Hi. split; try done. eapply run_ext; [done|]. cbn. by rewrite Hi. }
  destruct (nc_enabled cfg) eqn:Een; cbn [negb]; [|eexists; apply Hig; unfold is_alert; by rewrite Een].
  destruct (shouldNotify m) eqn:Esn; cbn [negb]; [|eexists; apply Hig; unfold is_alert; by rewrite Een, Esn].
  assert (Hal : is_alert cfg m = true) by (unfold is_alert; by rewrite Een, Esn).
  cbv zeta. rewrite (repeated_set n m ids Rc Se). destruct (is_repeated cfg m ids) eqn:Erep.
  - exists (mkNotifierSpec (nt_queue n) false ids hand). split; try done.
    eapply run_ext; [done|]. cbn. by rewrite Hal, Erep.
  - destruct (remember_ok m n ids Rc Se Nd Erep) as (recent & -> & R1 & R2).
    destruct (make_room_ok (nt_queue n) ids hand Bd) as (rest & room & M1 & M2 & M3 & M4).
    destruct (make_room cfg (nt_queue n)) as [dropped queue]. cbn [fst snd] in *. subst queue.
    exists (mkNotifierSpec (rest ++ [m]) false (ids_with m ids) hand).
    split; cbn [fst snd nt_queue nt_recent nt_recent_set nt_stopped nt_phase sp_queue sp_room sp_ids sp_hand]; try done.
    + eapply run_ext; [done|]. rewrite notifier_spec_run_app, M1. cbn -[Nat.ltb Nat.max]. rewrite Hal, Erep. cbn [negb andb].
      rewrite (proj2 (Nat.ltb_lt _ _) M4), orb_true_r. done.
    + rewrite length_app. simpl. lia.
    + apply Forall_app. split; [|by apply Forall_singleton]. destruct M3 as [k Hk]. rewrite Hk in Al.
      by apply Forall_app in Al as [_ Al].
Qed.

Context (api : TelegramApiConfig) (dumps : string -> bool).

Lemma step_alert_ok es n s answer : notifier_ok es n s ->
  exists s', notifier_ok (es ++ (notifier_step api dumps cfg answer n).1) (notifier_step api dumps cfg answer n).2 s'.
Proof.
  intros Hn. pose proof Hn as [Ru Qu Ro Ha Rc Se Nd Bd Al Ph St]. destruct s as [queue room ids hand].
  cbn [sp_queue sp_room sp_ids sp_hand] in Qu, Ro, Ha, Rc.
  subst queue room. unfold notifier_step.
  assert (Hgo : forall ph, nt_phase n <> NtNone -> nt_phase n <> NtDead -> ph = NtDead \/ hand_of ph = hand_of (nt_phase n) ->
    match ph with NtFormat m => shouldNotify m = true | NtSend _ _ k => (k <= nc_retry_count cfg)%nat | _ => True end ->
    notifier_ok (es ++ []) (nt_go ph n) (mkNotifierSpec (nt_queue n) false ids hand)).
  { intros ph Hp1 Hp2 Hh Hph. rewrite app_nil_r. split; try done; cbn [nt_go nt_phase nt_stopped sp_hand].
    - intros Hd. destruct Hh as [?|Hh]; [done|]. rewrite Hh. by apply Ha.
    - intros Hs. by destruct (St Hs). }
  destruct (nt_phase n) as [| |m|m text k| |] eqn:Ep; try (rewrite app_nil_r; by eexists).
  - destruct (nt_queue n) as [|m queue] eqn:Eq; cbn [fst snd].
    + destruct (nt_stop_requested n); [|rewrite app_nil_r; by eexists]. eexists. apply Hgo; try done. by right.
    + exists (mkNotifierSpec queue false ids (Some (m, 0%nat))). apply Forall_cons in Al as [Am Al].
      split; try done; cbn [nt_queue nt_stopped nt_phase]; [|cbn in Bd; lia|by intros Hs; destruct (St Hs)].
      eapply run_ext; [done|]. cbn. rewrite Ha by done. cbn. by rewrite bool_decide_eq_true_2.
  - destruct (format m) as [text|] eqn:Ef; cbn [fst snd].
    + apply text_of_alert in Ef as [Ht _]. destruct text as [|c text]; [by destruct (proj2 Ht Ph)|]. cbn [is_empty].
      eexists. apply Hgo; try done; [by right|lia].
    + eexists. apply Hgo; try done. by left.
  - assert (Ht : forall sent, spec_run new_spec (es ++ [NeTried m k sent]) =
      Some (mkNotifierSpec (nt_queue n) false ids (if sent || (k =? nc_retry_count cfg)%nat then None else Some (m, S k)))).
    { intros sent. eapply run_ext; [done|]. cbn. rewrite Ha by done. cbn. rewrite bool_decide_eq_true_2 by done.
      by rewrite (proj2 (Nat.leb_le _ _) Ph). }
    destruct (sendMessage api (dumps text) answer) as [[]|]; cbn [fst snd].
    + eexists. split; [apply Ht|cbn..]; try done. by intros Hs; destruct (St Hs).
    + destruct (nc_retry_count cfg <=? k)%nat eqn:Er; (eexists; split; [apply Ht|cbn..]; try done; try (by intros Hs; destruct (St Hs))).
      * apply Nat.leb_le in Er. intros _. rewrite (proj2 (Nat.eqb_eq k _)) by lia. done.
      * apply Nat.leb_gt in Er. intros _. by rewrite (proj2 (Nat.eqb_neq k _)) by lia.
      * apply Nat.leb_gt in Er. lia.
    + eexists. apply Hgo; try done. by left.
Qed.
Lemma notifier_start_ok es n s : notifier_ok es n s -> nt_phase n <> NtDead -> notifier_ok es (notifier_start cfg n).2 s.
Proof.
  intros Hn Hd. unfold notifier_start. destruct (negb (nc_enabled cfg)); [done|]. destruct (nt_stopped n) eqn:Es; [|done].
  destruct Hn as [Ru Qu Ro Ha Rc Se Nd Bd Al Ph St]. cbn [negb]. split; try done. intros _.
  destruct (St Es) as [E|E]; [rewrite E in Ha; by apply Ha|done].
Qed.
Lemma stop_request_ok es n s : notifier_ok es n s -> notifier_ok es (notifier_stop_request n) s.
Proof.
  intros Hn. unfold notifier_stop_request. destruct (nt_stopped n) eqn:Es; [done|].
  destruct Hn as [Ru Qu Ro Ha Rc Se Nd Bd Al Ph St]. by split.
Qed.
Lemma stop_join_ok es n s : notifier_ok es n s -> notifier_ok es (default n (notifier_stop_join n)) s.
Proof.
  intros Hn. unfold notifier_stop_join. destruct (nt_phase n) eqn:Ep; try done. destruct (nt_stop_requested n); [|done].
  destruct Hn as [Ru Qu Ro Ha Rc Se Nd Bd Al Ph St]. rewrite Ep in *. cbn [default]. split; try done; [|by left].
  intros _. by apply Ha.
Qed.

Lemma op_ok es n s op : notifier_ok es n s ->
  exists s', notifier_ok (es ++ (notifier_op api dumps cfg op n).1) (notifier_op api dumps cfg op n).2 s'.
Proof.
  intros Hn. unfold notifier_op. destruct (notifier_dead n) eqn:Ed; [rewrite app_nil_r; by exists s|].
  assert (Hd : nt_phase n <> NtDead) by (intros E; unfold notifier_dead in Ed; by rewrite E in Ed).
  destruct op as [| | |m|answer]; cbn [fst snd]; rewrite ?app_nil_r.
  - exists s. by apply notifier_start_ok.
  - exists s. by apply stop_request_ok.
  - exists s. by apply stop_join_ok.
  - pose proof (notifier_enqueue_ok es n s m Hn) as He. by destruct (notifier_enqueue cfg m n) as [[e b] n'].
  - by eapply step_alert_ok.
Qed.
Lemma run_ok ops es n s : notifier_ok es n s ->
  exists s', notifier_ok (es ++ (notifier_run api dumps cfg ops n).1) (notifier_run api dumps cfg ops n).2 s'.
Proof.
  revert es n s. induction ops as [|op ops IH]; intros es n s Hn; cbn [notifier_run]; [rewrite app_nil_r; by exists s|].
  destruct (op_ok es n s op Hn) as [s1 H1]. destruct (notifier_op api dumps cfg op n) as [e n1]. cbn [fst snd] in H1.
  specialize (IH _ _ _ H1). destruct (notifier_run api dumps cfg ops n1) as [es2 n2].
  cbn [fst snd] in *. by rewrite app_assoc.
Qed.

(** Every offer is decided, as long as the program lives. *)
Lemma op_offers op n :
  offered (notifier_op api dumps cfg op n).1 = if notifier_dead n then [] else offers [op].
Proof.
  unfold notifier_op. destruct (notifier_dead n); [done|]. destruct op as [| | |m|answer]; try done.
  - unfold notifier_enqueue. destruct (negb (nc_enabled cfg)); [done|]. destruct (negb (shouldNotify m)); [done|]. cbv zeta.
    destruct (_ && _); [done|]. destruct (notifier_remember cfg (alert_eventId m) n). unfold make_room.
    destruct (nt_queue n); [done|]. by destruct (_ <=? _)%nat.
  - cbn. unfold notifier_step. destruct (nt_phase n); try done; [by destruct (nt_queue n)|by destruct (format _)|].
    by destruct (sendMessage _ _ _) as [[]|].
Qed.
Lemma dead_stays op n : notifier_dead n = true -> (notifier_op api dumps cfg op n).2 = n.
Proof. intros H. unfold notifier_op. by rewrite H. Qed.
Lemma run_offers ops n : exists rest,
  offers ops = offered (notifier_run api dumps cfg ops n).1 ++ rest /\
  (notifier_dead (notifier_run api dumps cfg ops n).2 = false -> rest = []).
Proof.
  revert n. induction ops as [|op ops IH]; intros n; [by exists []|]. cbn [notifier_run].
  pose proof (op_offers op n) as Ho. destruct (notifier_op api dumps cfg op n) as [e n1] eqn:E1.
  destruct (IH n1) as (rest & Hr & Hd). destruct (notifier_run api dumps cfg ops n1) as [es n2] eqn:E2. cbn [fst snd] in *.
  assert (Happ : offered (e ++ es) = offered e ++ offered es) by (unfold offered; apply omap_app).
  change (offers (op :: ops)) with (omap (fun op => match op with NoEnqueue m => Some m | _ => None end) ([op] ++ ops)).
  rewrite omap_app. fold (offers [op]) (offers ops). rewrite Happ, Ho, Hr. destruct (notifier_dead n) eqn:En.
  - assert (n1 = n) as -> by (pose proof (dead_stays op n En) as H; by rewrite E1 in H).
    assert (Hdead : forall ops, notifier_run api dumps cfg ops n = ([], n)).
    { clear -En. induction ops as [|op ops IH]; [done|]. cbn [notifier_run]. unfold notifier_op. by rewrite En, IH. }
    rewrite Hdead in E2. injection E2 as <- <-. exists (offers [op] ++ rest). split; [done|]. by rewrite En.
  - exists rest. by rewrite <- app_assoc.
Qed.

(** C19 [refinement] What becomes of an alert. Whatever starts, stops, publications and answers of curl come in whatever
    order, the notifier is a run of the machine [spec_event], which decides each offer and each departure: a message is
    ignored exactly if the notifier is off or it is no alert; an alert is refused as a repetition exactly if its identifier
    is among the last four times the capacity that were taken on (one without an identifier never); any other is taken
    on at the end of the queue, and if the queue has its capacity, and only then, the oldest alert goes out unsent before;
    the thread takes the oldest, and no other before that one has been sent or been tried once more than the retries,
    one attempt after the other. Every offer is decided so, unless an exception has ended the program, and the queue of
    the notifier is the machine's, of at most its capacity (one, if that is zero). *)
Theorem alerts_accounted ops :
  let '(es, n) := notifier_run api dumps cfg ops new_notifier in
  (exists ids hand, spec_run new_spec es = Some (mkNotifierSpec (nt_queue n) false ids hand)) /\
  (length (nt_queue n) <= Nat.max 1 (nc_queue_capacity cfg))%nat /\
  exists undecided, offers ops = offered es ++ undecided /\ (nt_phase n <> NtDead -> undecided = []).
Proof.
  destruct (run_ok ops [] new_notifier new_spec new_notifier_ok) as [[queue room ids hand] [Ru Qu Ro _ _ _ _ Bd _ _ _]].
  destruct (run_offers ops new_notifier) as (rest & Hr & Hd).
  destruct (notifier_run api dumps cfg ops new_notifier) as [es n]. cbn [fst snd app sp_queue sp_room] in *. subst queue room.
  split; [by exists ids, hand|]. split; [done|]. exists rest. split; [done|]. intros Hp. apply Hd. unfold notifier_dead.
  by destruct (nt_phase n).
Qed.

(** * The end of the thread *)

Definition thread_runs (ph : NotifierPhase) : Prop :=
  match ph with NtWait | NtFormat _ | NtSend _ _ _ => True | _ => False end.

(** What the thread still has to do when it was asked to stop. *)
Definition notifier_work (n : Notifier) : nat :=
  let per := (nc_retry_count cfg + 3)%nat in
  match nt_phase n with
  | NtWait => length (nt_queue n) * per + 1
  | NtFormat _ => length (nt_queue n) * per + per
  | NtSend _ _ k => length (nt_queue n) * per + 2 + (nc_retry_count cfg - k)
  | _ => 0
  end%nat.

Lemma step_work n answer : nt_stop_requested n = true -> 
  let n' := (notifier_step api dumps cfg answer n).2 in
  nt_stop_requested n' = true /\ (notifier_work n' <= notifier_work n - 1)%nat.
Proof.
  intros Hs. unfold notifier_step, notifier_work.
  destruct (nt_phase n) as [| |m|m text k| |] eqn:Ep; cbn [snd]; rewrite ?Ep; try (split; [done|lia]).
  - destruct (nt_queue n) as [|m queue] eqn:Eq; cbn [snd]; [rewrite Hs|]; cbn [nt_go nt_phase nt_queue nt_stop_requested];
      (split; [done|simpl; lia]).
  - destruct (format m) as [text|]; cbn [snd]; [destruct (is_empty text)|]; cbn [nt_go nt_phase nt_queue nt_stop_requested];
      (split; [done|lia]).
  - destruct (sendMessage api (dumps text) answer) as [[]|]; cbn [snd];
      [|destruct (nc_retry_count cfg <=? k)%nat eqn:Er|]; cbn [nt_go nt_phase nt_queue nt_stop_requested];
      (split; [done|]); try lia. apply Nat.leb_gt in Er. lia.
Qed.
Definition thread_steps (answers : list CurlAnswer) (n : Notifier) : list NotifierEvent * Notifier :=
  notifier_run api dumps cfg (NoStep <$> answers) n.

Lemma thread_steps_cons answer answers n : notifier_dead n = false ->
  (thread_steps (answer :: answers) n).2 = (thread_steps answers (notifier_step api dumps cfg answer n).2).2.
Proof.
  intros Hd. unfold thread_steps. cbn [fmap list_fmap notifier_run]. unfold notifier_op. rewrite Hd.
  destruct (notifier_step api dumps cfg answer n) as [e n1]. cbn [snd].
  by destruct (notifier_run api dumps cfg (NoStep <$> answers) n1).
Qed.

(** A thread that has ended stays so. *)
Lemma thread_steps_ended answers n : ~ thread_runs (nt_phase n) -> (thread_steps answers n).2 = n.
Proof.
  intros Hn. induction answers as [|answer answers IH]; [done|].
  destruct (notifier_dead n) eqn:Ed.
  - unfold thread_steps in *. cbn [fmap list_fmap notifier_run]. unfold notifier_op. rewrite Ed.
    by destruct (notifier_run api dumps cfg (NoStep <$> answers) n).
  - rewrite thread_steps_cons by done. unfold notifier_step. destruct (nt_phase n); try done; by destruct Hn.
Qed.

Lemma step_ends n answer : nt_stop_requested n = true -> thread_runs (nt_phase n) ->
  let n' := (notifier_step api dumps cfg answer n).2 in
  thread_runs (nt_phase n') \/ nt_phase n' = NtDead \/ nt_phase n' = NtEnded /\ nt_queue n' = [].
Proof.
  intros Hs Hr. unfold notifier_step. destruct (nt_phase n) as [| |m|m text k| |]; try done.
  - destruct (nt_queue n) as [|m queue] eqn:Eq; cbn [snd]; [|by left]. rewrite Hs. right; right. by split.
  - destruct (format m) as [text|]; cbn [snd]; [destruct (is_empty text)|]; cbn; tauto.
  - destruct (sendMessage api (dumps text) answer) as [[]|]; cbn [snd]; [|destruct (nc_retry_count cfg <=? k)%nat|]; cbn; tauto.
Qed.

(** When it was asked to stop and no alert comes any more, the thread ends with an empty queue, if no exception ends the
    program, after a number of steps that its alerts and the retries bound, whatever curl answers. *)
Theorem sender_ends n answers : nt_stop_requested n = true -> thread_runs (nt_phase n) ->
  (notifier_work n <= length answers)%nat ->
  let n' := (thread_steps answers n).2 in nt_phase n' = NtDead \/ nt_phase n' = NtEnded /\ nt_queue n' = [].
Proof.
  revert n. induction answers as [|answer answers IH]; intros n Hs Hr Hw; cbv zeta; cbn [length] in Hw.
  { exfalso. unfold notifier_work in Hw. destruct (nt_phase n); try done; lia. }
  assert (Hd : notifier_dead n = false) by (unfold notifier_dead; by destruct (nt_phase n)).
  rewrite thread_steps_cons by done.
  destruct (step_work n answer Hs) as [Hs' Hw']. destruct (step_ends n answer Hs Hr) as [Hr'|Hend].
  - apply IH; [done|done|lia].
  - rewrite thread_steps_ended; [done|]. destruct Hend as [->|[-> _]]; by intros [].
Qed.
End Safety.

(** * Examples *)

Fixpoint times (k : nat) (s : string) : string := match k with O => "" | S k => s +:+ times k s end.

(** A library that knows four texts. *)
#[local] Instance telegram_json : JsonLibrary := {|
  json_parse := fun text =>
    if bool_decide (text = "FIRE") then
      Ok (JObject [("event_type", JString "fire_suspected"); ("event_id", JString "e1"); ("channel_id", JString "ch01");
                   ("timestamp", JString "2024-02-29T23:59:59.000Z")]) else
    if bool_decide (text = "CLEARED") then Ok (JObject [("event_type", JString "FIRE_CLEARED"); ("event_id", JString "e2")]) else
    if bool_decide (text = "TEXT") then
      Ok (JObject [("event_type", JString "OVERTIME_VIOLATION"); ("occupied_seconds", JString "300")]) else
    if bool_decide (text = "LONG") then
      Ok (JObject [("event_type", JString "NON_EV_ALERT"); ("slot_id", JString (times 1500 "차"))]) else
    if bool_decide (text = "OK") then Ok (JObject [("ok", JBool true)]) else Err "parse error";
  json_dump := fun _ => "";
  json_eqb := fun _ _ => false;
  json_float_to_int := fun _ => 0
|}.
Notation demo_api := (mkTelegramApiConfig true "token" "@channel").
Notation demo_config := (mkNotifierConfig true 1 1).
Notation demo_message text := (mkTelegramMessage "parking/event" text 1 false).
Notation dumps_all := (fun _ : string => true).
Notation sent := (CurlDone 200 "OK").

Example fire_text :
  format (demo_message "FIRE") = Ok ("🚨 화재 의심 감지" +:+ line_feed +:+ "감지 채널: ch01" +:+ line_feed +:+
    "발생 시각: 2024-02-29 23:59:59.000Z").
Proof. vm_compute. reflexivity. Qed.

(** With room for one alert and one retry: the second event pushes the first out, the first is not taken on again, and the
    second is sent with the retry; a later stop ends the thread. *)
Example alerts_run :
  let '(es, n) := notifier_run demo_api dumps_all demo_config
    [NoStart; NoEnqueue (demo_message "FIRE"); NoEnqueue (demo_message "CLEARED"); NoEnqueue (demo_message "FIRE");
     NoStep sent; NoStep sent; NoStep CurlFailed; NoStep sent; NoStop; NoStep sent; NoJoin] new_notifier in
  es = [NeAccepted (demo_message "FIRE"); NeDropped (demo_message "FIRE"); NeAccepted (demo_message "CLEARED");
        NeRepeated (demo_message "FIRE");
        NeTaken (demo_message "CLEARED"); NeTried (demo_message "CLEARED") 0 false; NeTried (demo_message "CLEARED") 1 true] /\
  nt_phase n = NtNone /\ nt_stopped n = true.
Proof. vm_compute. repeat split. Qed.

(** A number of seconds that is a text is taken on as an alert and throws where it is formatted: the exception leaves the
    thread and ends the program. *)
Example seconds_as_text_kill :
  shouldNotify (demo_message "TEXT") = true /\
  nt_phase (notifier_run demo_api dumps_all demo_config
    [NoStart; NoEnqueue (demo_message "TEXT"); NoStep sent; NoStep sent] new_notifier).2 = NtDead.
Proof. vm_compute. repeat split. Qed.

(** The cut of a long text can divide a character: here the last byte before the suffix begins one of three. A library
    that prints UTF-8 only throws, outside of the handler. *)
Example cut_divides_character :
  let text := match format (demo_message "LONG") with Ok text => text | Err _ => "" end in
  String.get 4083 text = Some "236"%char /\ String.get 4084 text = Some "010"%char /\ String.length text = kTelegramMaxTextLength /\
  nt_phase (notifier_run demo_api (fun t => negb (bool_decide (t = text))) demo_config
    [NoStart; NoEnqueue (demo_message "LONG"); NoStep sent; NoStep sent; NoStep sent] new_notifier).2 = NtDead.
Proof. vm_compute. repeat split. Qed.

(** After the end of the thread alerts are still taken on, and wait for a next start. *)
Example taken_on_after_stop :
  let n := (notifier_run demo_api dumps_all demo_config
    [NoStart; NoStop; NoStep sent; NoJoin; NoEnqueue (demo_message "FIRE")] new_notifier).2 in
  nt_stopped n = true /\ nt_queue n = [demo_message "FIRE"].
Proof. vm_compute. repeat split. Qed.
