(* ===== verification/Onvif.v ===== *)
(** The camera's events over ONVIF: their conversion to a signal for the parking service
    ([src/event/OnvifIvaEventAdapter.cpp]) and the thread that keeps a subscription with the camera and delivers its
    events ([src/camera/OnvifIvaEventSource.cpp]). The parser of the camera's XML is not modelled: a pull is answered
    with its events. *)
From S2P Require Import Prelude Digest SensorProtocol SequencePolicy SlotConfig Occupancy Iva TimeText CameraEvents MqttBridge MqttBridgeSafety.

#[local] Open Scope Z_scope.

(** [include/camera/OnvifIvaEventSource.hpp:15-23 OnvifIvaEvent] *)
Record OnvifIvaEvent := mkOnvifIvaEvent {
  oe_utcTime : string;
  oe_operation : string;
  oe_videoSourceToken : string;
  oe_ruleName : string;
  oe_state : string;
  oe_objectId : string;
  oe_action : string
}.

(** [src/event/OnvifIvaEventAdapter.cpp:18-24 upperCopy] *)
Definition onvif_upper (value : string) : string := smap toupper value.

(** [src/event/OnvifIvaEventAdapter.cpp:26-35 stableHash] *)
Definition onvif_hash (value : string) : string := hex_digits 16 (fnv1a 14695981039346656037 value).

Section Adapter.
Context {R : Type} (cfg : @BridgeConfig R) (slots : list ParkingSlotConfig).

(** The event in the form that the resolver reads. *)
Definition onvif_view (source : OnvifIvaEvent) : CameraEvent :=
  mkCameraEvent (oe_videoSourceToken source)
    ("onvif-pullpoint/OpenApp/WiseAI/IvaArea/&" +:+ oe_videoSourceToken source +:+ "/" +:+ oe_ruleName source)
    "" false "" (oe_ruleName source) "".

(** [src/event/OnvifIvaEventAdapter.cpp:43-118 OnvifIvaEventAdapter::adapt] *)
Definition onvif_adapt (source : OnvifIvaEvent) : result string IvaOccupancySignal :=
  let action := onvif_upper (oe_action source) in
  let? occupancyAction :=
    if bool_decide (action = "INTRUSION") then Ok Intrusion
    else if bool_decide (action = "EXIT") then Ok Exit
    else Err "ONVIF IvaArea action is not INTRUSION or EXIT" in
  guard_err (negb (is_empty (oe_utcTime source))) "ONVIF IvaArea UtcTime is missing" ;?
  let? occurredAt := of_option "ONVIF IvaArea UtcTime is invalid" (parseIso8601Utc (oe_utcTime source)) in
  match resolve (bc_camera_id cfg) (onvif_view source) slots (bc_iva_areas cfg) with
  | Err mappingError => Err ("ONVIF IvaArea mapping failed: " +:+ mappingError)
  | Ok target =>
      let cameraAuthoritative := wants_camera cfg in
      guard_err (cameraAuthoritative ||
                 (bool_decide (bc_parking_occupancy_source cfg = "HALL") &&
                  bool_decide (occupancyAction = Intrusion) && negb (is_empty (oe_objectId source))))
        "ONVIF IvaArea is not accepted by occupancy policy" ;?
      Ok (mkIvaOccupancySignal (irt_slotId target) (bc_camera_id cfg) (irt_observationVideoSourceToken target)
            (irt_ruleName target) (oe_objectId source) occupancyAction cameraAuthoritative
            ("camera-onvif:" +:+ onvif_hash (String.concat "|"
               [bc_camera_id cfg; oe_videoSourceToken source; oe_ruleName source; action; oe_utcTime source;
                oe_objectId source]))
            true occurredAt (irt_channelId target) cameraAuthoritative "camera-onvif")
  end.

(** [src/main.cpp:1649-1659 main] The tokens of the enabled bindings of this camera. *)
Definition accepted_tokens : gset string :=
  list_to_set (mbind (fun slot =>
    if psc_enabled slot then
      sob_videoSourceToken <$> List.filter (fun b => sob_enabled b && bool_decide (sob_cameraId b = bc_camera_id cfg) &&
                                                     negb (is_empty (sob_videoSourceToken b))) (psc_cameraBindings slot)
    else []) slots).

(** [src/main.cpp:1670-1696 main] What the server does with an event; [hall]: the parking service, if it still lives. *)
Definition onvif_handler (hall : option (IvaOccupancySignal -> bool)) (source : OnvifIvaEvent) :
    bool * list IvaOccupancySignal :=
  match onvif_adapt source, hall with
  | Ok signal, Some handle => (handle signal, [signal])
  | _, _ => (false, [])
  end.
End Adapter.

(** * The thread *)

(** [include/camera/OnvifIvaEventSource.hpp:34-44 Config] What the thread reads of it. *)
Record SourceConfig := mkSourceConfig {
  sc_acceptedVideoSourceTokens : gset string;
  sc_deliverInitialized : bool;
  sc_renewInterval : Z
}.

(** Where the thread is: before a subscription, with one, about to end one, at its end. *)
Inductive SourceAt :=
| Connecting
| Pulling (address : string) (renewAt : Z)
| Leaving (address : string) (reconnect : bool)
| Ended.

Inductive SourceEvent :=
| SourceSubscribed (address : string)
| SourceRenewed (address : string) (ok : bool)
| SourceDelivered (event : OnvifIvaEvent)
| SourceUnsubscribed (address : string)
| SourceThrew
| SourceSlept.

(** What the surroundings answer to a step: the stop flag before and after the call, the clock, and the replies of the
    camera; [None] is an exception, and an exception of the handler is none of the thread. *)
Record SourceAnswer := mkSourceAnswer {
  sa_stop : bool;
  sa_stop_after : bool;
  sa_now : Z;
  sa_subscription : option (option string);
  sa_renewed : bool;
  sa_pull : option (option (list OnvifIvaEvent))
}.

Definition source_delivers (c : SourceConfig) (event : OnvifIvaEvent) : bool :=
  (bool_decide (sc_acceptedVideoSourceTokens c = ∅) ||
   bool_decide (oe_videoSourceToken event ∈ sc_acceptedVideoSourceTokens c)) &&
  (sc_deliverInitialized c || negb (is_empty (oe_action event) && is_empty (oe_objectId event))).

Definition slept (stopped : bool) : list SourceEvent := if stopped then [] else [SourceSlept].

(** [src/camera/OnvifIvaEventSource.cpp:461-539 OnvifIvaEventSource::run] A step: up to the answer of the next request. *)
Definition source_step (c : SourceConfig) (at_ : SourceAt) (a : SourceAnswer) : list SourceEvent * SourceAt :=
  match at_ with
  | Connecting =>
      if sa_stop a then ([], Ended) else
      match sa_subscription a with
      | None => (SourceThrew :: slept (sa_stop_after a), Connecting)
      | Some None => (slept (sa_stop_after a), Connecting)
      | Some (Some address) => ([SourceSubscribed address], Pulling address (sa_now a + sc_renewInterval c))
      end
  | Pulling address renewAt =>
      if sa_stop a then ([], Leaving address false) else
      let renew := renewAt <=? sa_now a in
      let renewal := if renew then [SourceRenewed address (sa_renewed a)] else [] in
      if renew && negb (sa_renewed a) then (renewal, Leaving address (negb (sa_stop_after a))) else
      let renewAt := if renew then sa_now a + sc_renewInterval c else renewAt in
      if sa_stop_after a then (renewal, Leaving address false) else
      match sa_pull a with
      | None => (renewal ++ [SourceThrew; SourceSlept], Connecting)
      | Some None => (renewal, Leaving address true)
      | Some (Some events) =>
          (renewal ++ (SourceDelivered <$> List.filter (source_delivers c) events), Pulling address renewAt)
      end
  | Leaving address reconnect =>
      (SourceUnsubscribed address :: (if reconnect then slept (sa_stop_after a) else []), Connecting)
  | Ended => ([], Ended)
  end.

Fixpoint source_run (c : SourceConfig) (at_ : SourceAt) (answers : list SourceAnswer) : list SourceEvent * SourceAt :=
  match answers with
  | [] => ([], at_)
  | a :: answers =>
      let '(out, at1) := source_step c at_ a in
      let '(outs, at2) := source_run c at1 answers in (out ++ outs, at2)
  end.

(** * What is delivered *)

Section Sound.
Context {R : Type} (cfg : @BridgeConfig R) (slots : list ParkingSlotConfig).

(** A camera event over ONVIF can move a slot only as configured: the signal names an enabled slot and an enabled
    binding of this camera whose token is the event's; it has the camera's own time; it is an entry or an exit; it has
    authority over the occupancy exactly when the cameras are an occupancy source; and when the hall sensors alone
    decide, only an entry with its object gets through, without authority. *)
Theorem onvif_signal_sound (source : OnvifIvaEvent) (s : IvaOccupancySignal) :
  onvif_adapt cfg slots source = Ok s ->
  ios_cameraId s = bc_camera_id cfg /\
  (exists target : @IvaResolvedTarget R, configured_target cfg slots target /\ ios_slotId s = irt_slotId target /\
     ios_ruleName s = irt_ruleName target /\ ios_videoSourceToken s = irt_observationVideoSourceToken target /\
     canonicalToken (ios_videoSourceToken s) = canonicalToken (oe_videoSourceToken source)) /\
  ios_occurredAtFromSource s = true /\ parseIso8601Utc (oe_utcTime source) = Some (ios_occurredAt s) /\
  (ios_action s = Intrusion \/ ios_action s = Exit) /\
  ios_occupancyAuthority s = wants_camera cfg /\ ios_authoritativeExit s = wants_camera cfg /\
  (wants_camera cfg = false -> bc_parking_occupancy_source cfg = "HALL" /\ ios_action s = Intrusion /\ ios_objectId s <> "").
Proof.
  unfold onvif_adapt. cbv zeta. intros (action & Ha & H)%rbind_ok_inv. apply rbind_ok_inv in H as (? & _ & H).
  apply rbind_ok_inv in H as (at_ & Hat%of_option_ok_inv & H).
  destruct (resolve _ _ _ _) as [target|] eqn:Et; [|done].
  apply rbind_ok_inv in H as (? & Hg%guard_err_ok_inv & [= <-]). simpl.
  assert (Hact : action = Intrusion \/ action = Exit) by (repeat case_bool_decide; naive_solver).
  split; [done|]. split.
  { exists target. split; [by eapply resolve_configured|]. do 3 (split; [done|]).
    apply resolve_unique in Et as (_ & slot & binding & area & [_ Hm]%filter_one & _ & ->).
    unfold binding_matches in Hm. split_bool. done. }
  do 5 (split; [done|]). intros Hw. rewrite Hw in Hg. simpl in Hg. split_bool.
  split; [done|]. split; [done|]. intros He. by rewrite He in *.
Qed.
End Sound.

(** The subscription that is open after a trace; [None]: the trace is not one of a well-behaved client. *)
Definition session_after (open : option string) (e : SourceEvent) : option (option string) :=
  match e, open with
  | SourceSubscribed address, None => Some (Some address)
  | SourceRenewed address _, Some a => if bool_decide (a = address) then Some open else None
  | SourceDelivered _, Some _ => Some open
  | SourceUnsubscribed address, Some a => if bool_decide (a = address) then Some None else None
  | SourceThrew, _ => Some None
  | SourceSlept, None => Some None
  | _, _ => None
  end.
Fixpoint session_run (open : option string) (trace : list SourceEvent) : option (option string) :=
  match trace with
  | [] => Some open
  | e :: trace => match session_after open e with Some open => session_run open trace | None => None end
  end.
Definition open_at (at_ : SourceAt) : option string :=
  match at_ with Pulling address _ | Leaving address _ => Some address | Connecting | Ended => None end.

Lemma session_run_app open t u :
  session_run open (t ++ u) = match session_run open t with Some o => session_run o u | None => None end.
Proof. revert open. induction t as [|e t IH]; intros open; simpl; [done|]. by destruct (session_after open e). Qed.
Lemma session_delivered address events :
  session_run (Some address) (SourceDelivered <$> events) = Some (Some address).
Proof. by induction events. Qed.
Lemma session_slept stopped : session_run None (slept stopped) = Some None.
Proof. by destruct stopped. Qed.

Lemma source_step_session c at_ a :
  session_run (open_at at_) (source_step c at_ a).1 = Some (open_at (source_step c at_ a).2).
Proof.
  destruct at_ as [|address renewAt|address reconnect|]; simpl.
  - destruct (sa_stop a); [done|]. destruct (sa_subscription a) as [[address|]|]; simpl;
      [done|apply session_slept|by rewrite session_slept].
  - destruct (sa_stop a); [done|].
    assert (Hr : session_run (Some address) (if renewAt <=? sa_now a then [SourceRenewed address (sa_renewed a)] else [])
                 = Some (Some address)).
    { destruct (renewAt <=? sa_now a); simpl; [by rewrite bool_decide_eq_true_2|done]. }
    destruct (_ && negb (sa_renewed a)); [done|]. destruct (sa_stop_after a); [done|].
    destruct (sa_pull a) as [[events|]|]; simpl; [|done|]; rewrite session_run_app, Hr; [|done].
    apply session_delivered.
  - rewrite bool_decide_eq_true_2 by done. destruct reconnect; [apply session_slept|done].
  - done.
Qed.

(** The thread is a well-behaved client of the camera and gives the server accepted events only: it has at most one
    subscription; it renews and ends the one that it has; it delivers events only while it has one, each with an
    accepted token and, unless the first state of a rule is wanted, with an action or an object; and it asks for
    another subscription only when the last one was ended, or lost to an exception. *)
Theorem source_sessions (c : SourceConfig) (answers : list SourceAnswer) :
  let '(trace, at_) := source_run c Connecting answers in
  session_run None trace = Some (open_at at_) /\
  (forall event, SourceDelivered event ∈ trace -> source_delivers c event = true).
Proof.
  enough (H : forall at1, let '(trace, at_) := source_run c at1 answers in
            session_run (open_at at1) trace = Some (open_at at_) /\
            (forall event, SourceDelivered event ∈ trace -> source_delivers c event = true)) by exact (H Connecting).
  induction answers as [|a answers IH]; intros at1; simpl; [split; [done|by intros ? ?%elem_of_nil]|].
  pose proof (source_step_session c at1 a) as Hs.
  assert (Hd : forall event, SourceDelivered event ∈ (source_step c at1 a).1 -> source_delivers c event = true).
  { intros event. destruct at1 as [|address renewAt|address reconnect|]; simpl;
      repeat (case_match; simpl); rewrite ?elem_of_app, ?elem_of_cons, ?elem_of_nil;
      try (by intros ?; destruct_or?); unfold slept; repeat case_match;
      rewrite ?elem_of_app, ?elem_of_cons, ?elem_of_nil, ?list_elem_of_fmap; try (by intros ?; destruct_or?).
    all: intros Hin; destruct_or?; try done.
    all: destruct Hin as (e & [= ->] & Hin%list_elem_of_In%filter_In); apply Hin. }
  destruct (source_step c at1 a) as [out at2]. specialize (IH at2). destruct (source_run c at2 answers) as [outs at3].
  simpl in *. destruct IH as [IH1 IH2]. split; [by rewrite session_run_app, Hs|].
  intros event [?|?]%elem_of_app; auto.
Qed.
